(* ===== verification/_CoqProject ===== *)
-Q . S2P
Prelude.v
GoStrings.v
UTF8.v
Errors.v
Domain.v
TaskPaths.v
Task.v
Snapshot.v
Queue.v
Admission.v
Scheduler.v
Session.v
TextPolicy.v
SendGate.v
VTerm.v
VTermOk.v
PushPolicy.v
GoText.v
GitStatus.v
Detect.v
Screens.v
Effects.v
GitEff.v
Commit.v
CommitOk.v
Push.v
PushOk.v
Sends.v
SendInput.v
SendInputOk.v
StopState.v
StopControl.v
Launch.v
LaunchOk.v
SupEff.v
Preflight.v
PreflightOk.v
RecordOk.v
StartSession.v
StartOk.v
Respawn.v
RespawnOk.v
RecoverOk.v
Rotate.v
RotateOk.v
PlanRotation.v
Interleave.v
AutoContinue.v
AutoContinueOk.v
AutoContinueDue.v
EventStore.v
EventLog.v
EventLogOk.v
EventLogRun.v
EventLogNumbers.v
EventsOk.v
EventsGit.v
Registries.v
StopSession.v
Startup.v
ObserveEff.v
ObserveSession.v
ObserveOk.v
Pending.v
Watcher.v
Ownership.v
Enforce.v
PathLock.v
Daemon.v
Partial.v
Terminal.v
CancelTask.v
Resume.v
Reconcile.v
Adopt.v
Monitor.v
Lifecycle.v
Handlers.v
System.v
