(* ===== verification/Prelude.v ===== *)
(** * codex-runner: a verification library

    [codexd] is a daemon that runs the codex CLI as tasks and drives long sessions of
    a supervised CLI in terminals.  This library translates its core logic into
    Gallina and proves what it promises.  Each file is named after the part it models
    and says at its top which source files it translates; each definition is named
    after the function or type it translates where Rocq allows it.

    * The parts of the program and how they interact

    _Tasks_.  A client submits a task.  It is admitted, started at once or queued
    ([internal/execution/usecase/admit.go]), promoted when a slot is released
    ([advance.go], [slotreleaser.go]), driven by one goroutine through its life cycle
    ([lifecycle.go], [monitor.go], [stallcheck.go]), timed out ([timeout.go]), cancelled
    ([internal/transport/usecase/cancel.go]), ended ([finalize.go], [cancel.go],
    [launchfailure.go]), and after a crash adopted, reconciled and recovered
    ([internal/recovery]).  What is known of a task is the aggregate [Task] and its
    snapshot on disk; several goroutines share both, under the mutex of the task.

    _Sessions_.  A supervised CLI runs in a terminal, whose output is drawn into a
    virtual screen ([internal/supervisor/vterm.go]) and classified ([detect]).  On what
    is seen the supervisor types texts ([send_input.go], behind [sendgate.go] and
    [textpolicy]), goes on with a recommendation ([auto_continue.go]), hands over to a
    new child ([plan_rotation.go], [rotate_session.go]), restarts a child
    ([recover_session.go], [respawn_session.go]), commits ([commit_verified.go]) and
    pushes ([push_allowed.go]).  An operator can stop it all ([stop_state.go],
    [stop_control.go]).  What happens is written to a numbered log ([event_store.go]).

    * The files

    General:
    - [Prelude]: records with updatable fields, [result], state computations that may
      fail or panic, integers of fixed width, the shared lemmas and tactics;
    - [GoStrings], [GoText], [UTF8]: what is used of [strings], [path/filepath] and
      [unicode/utf8];
    - [Errors]: error values, wrapping, [errors.Is] and [errors.As];
    - [Effects]: programs over effects and their logics (below);
    - [Interleave]: goroutines that share a memory.

    Tasks ([internal/domain], [internal/execution], [internal/recovery]):
    - [Domain]: identifiers, enumerations, value objects, events;
    - [Task], [Snapshot]: the aggregate ([task.go]) and its persisted form
      ([tasksnapshot.go]);
    - [Queue], [Admission], [Scheduler]: [queue.go], [registry.go], [promotion.go],
      [launching.go] over an explicit heap of shared tasks; the use cases under the
      queue mutex; every interleaving of them;
    - [TaskPaths]: [internal/store/taskpaths.go];
    - [Pending], [Ownership], [Watcher], [Enforce]: [recovery/pending.go],
      [lifecycle_ownership.go], and the two halves of [execution/timeout.go] with
      [process_signal_authority.go];
    - [PathLock]: [domain/pathlock.go] and [execution/pathlock.go];
    - [Daemon]: the ports that the following share, and the discipline that each of
      them keeps: [Terminal] ([finalize.go], [execution/cancel.go],
      [launchfailure.go], [contract/exitcode.go]), [CancelTask]
      ([transport/usecase/cancel.go]), [Partial] ([recovery/partial.go]), [Resume]
      ([recovery/resume.go]), [Reconcile] ([recovery/reconcile.go],
      [orphan_transition.go]), [Adopt] ([recovery/adopt.go]), [Monitor]
      ([execution/monitor.go] and the use cases [monitor.go], [stallcheck.go],
      [confirmrunning.go], [recordprocess.go], [recordstarting.go]), [Lifecycle]
      ([execution/usecase/lifecycle.go]);
    - [Handlers], [System]: the entry points and goroutines of the daemon, and all of
      them side by side.

    Sessions ([internal/supervisor]):
    - [Session]: the record and its transition table ([session.go], [restart.go],
      [rotation.go]);
    - [TextPolicy], [SendGate]: what may be typed ([textpolicy], [sendgate.go],
      [fixedtexts.go], [operatortext.go], [classifier.go]);
    - [VTerm], [VTermOk]: the virtual terminal ([vterm.go]);
    - [Detect], [Screens]: what a screen shows ([detect], [completion_selection.go]);
    - [Sends], [SendInput], [SendInputOk]: the sender ([send_input.go],
      [send_operator_input.go]): its shared state, the use case, what it does;
    - [SupEff]: the calls of the use cases that drive one session; [RecordOk]: what an
      update of its record does;
    - [Launch], [LaunchOk], [Preflight], [PreflightOk], [StartSession], [StartOk]:
      [launch], [proc/sessionenv.go], [launch_preflight.go], [start_session.go];
    - [Respawn], [RespawnOk], [RecoverOk]: [respawn_session.go], [recover_session.go];
    - [Rotate], [RotateOk], [PlanRotation]: [rotate_session.go], [plan_rotation.go];
    - [AutoContinue], [AutoContinueOk], [AutoContinueDue]: [auto_continue.go];
    - [ObserveEff], [ObserveSession], [ObserveOk]: the loop that observes a child
      ([observe_session.go], [detect_state.go]) and calls most of the others;
    - [Registries], [StopSession], [Startup]: [pty_registry.go], [owned_children.go],
      [observed_state.go], [observed_context.go], [permission_pending.go];
      [stop_session.go]; [reconcile.go];
    - [StopState], [StopControl]: [stop_state.go], [stop_control.go],
      [session_update.go];
    - [GitStatus], [GitEff], [Commit], [CommitOk], [PushPolicy], [Push], [PushOk]:
      [gitops], [commit_verified.go], [push_allowed.go];
    - [EventStore], [EventLog], [EventLogOk], [EventLogRun], [EventLogNumbers]: the
      log ([store/event_store.go], [supervisor_log.go]); [EventsOk], [EventsGit]: what
      the use cases hand to it.

    * How the code is modelled

    _Pure code_ is a function.  A method that writes to its receiver is a computation
    that returns the receiver on success and on failure, so a partial write before an
    error stays visible.  An index out of range, a nil dereference and an explicit
    panic are values ([None], or a call of [panic]), never silently total.  Integers
    are [Z]; where the code can leave the width of [int64], the wrap-around is
    written out.  Strings are lists of bytes, and texts lists of runes.

    _Code that calls stores, locks, processes and other use cases_ is a program [prog
    E A]: a finite tree whose nodes are calls and whose branches are their answers.
    Nothing is assumed of an answer.  [wp] and its variants of the single files prove
    a property of every run, [emits] one of every call of it.  The history of the
    calls, the latest first, is what the theorems speak about: a commit is _preceded_
    by a verification of the same tree, and so on.  Since between two calls of a
    program anything may be answered, such a theorem holds in every interleaving with
    other goroutines.

    _Critical sections_ are functions on the shared state.  Where the interleaving of
    sections matters, a step relation runs them in any order: [Scheduler] and [Watcher]
    have their own, [Interleave] serves [AutoContinue], and [System] runs the handlers
    call by call over a store that they share.

    _Crashes_ are part of [EventLog]: every system call takes its outcome, done,
    failed or died in, from a list, and the logic [safe] of [EventLogOk] shows that an
    invariant of the files holds at every point at which the process may die.

    * Bounds and fuel

    A loop whose length the data bounds gets that bound as its fuel, and a lemma shows
    that it is enough: the lengths of the input in [UTF8], [VTerm] ([write_loop_fuel]),
    [TextPolicy], [EventLog] ([last_sequence_is_the_last]), the number of waiting tasks
    in [Scheduler] ([ReleaseAndAdvance_terminates]).  A loop that waits for what
    others do (a timer, a notification, the next line of a process) ends when the
    answers end it.  Its fuel bounds its rounds, is universally quantified in every
    theorem, and its end is a timer that fires, an end of input, or a call of
    [out_of_fuel] that has no answer, so that no result is made up: every finite run
    of the code is a run of the model with enough fuel.

    * What the theorems show

    - Tasks: the aggregate's reachable states are consistent; snapshots are validated
      exactly and stay valid; the queue never panics and its limits hold in every
      interleaving; releasing a slot terminates; a task of the whole daemon only moves
      forward, its recorded exit code is the one in its file, and the mutexes do not
      deadlock; a slot is released once; a signal goes only to the process that the
      task has recorded; path locks are exclusive; the watcher drains.
    - Sessions: a text is typed only behind the open gate and Enter is pressed only on
      a screen that shows it; a rotation changes its stage only on evidence; children
      are started and restarted only after every check and within the limits; a
      session is not continued more than five times in a row; the observer saves and
      starts nothing that it has not seen to be due; a stop holds until it is lifted; a
      session is ended as its child was last seen, and after a restart nothing is recorded
      as running.
    - Git: a commit is made of the tree that was verified, a push only of what the
      policy allows at that time.
    - Terminal and texts: no byte sequence makes the terminal panic; cutting its input
      into chunks changes nothing; printed statuses and settings are read back.
    - Log: whatever is recorded and wherever the process dies, numbers go on.

    Where the code falls short of what it means to do, the statement carries the
    exception, or a closed example shows the failure
    ([EventLogNumbers.failed_sync_repeats_a_number],
    [EventLogNumbers.short_write_loses_the_next_event], [EventsGit.pushed_and_refused],
    [Partial.nested_csi_survives]).

    * What is assumed

    - Unicode tables, NFKC, case mapping, hashes and [encoding/json] are parameters.
      What is used of [encoding/json] is the class [JsonLaws] of [EventLogRun]; the
      witness of its client has an instance.
    - [System] assumes that a mutex excludes, that a file holds what was last written,
      that a failed write has or has not happened, and that the first snapshot of a
      task finds none ([orderly]): identifiers are admitted once.
    - [Startup] is run alone, over records that answer what was last written, and two
      different records are encoded differently.

    * What is not modelled

    The wiring and the command line ([cmd]), the parsing of the configuration, the
    transports, the system calls behind the stores, processes and terminals
    ([internal/proc], [internal/store]), the metrics, the logging, and the eviction of
    old worktrees and logs: they are I/O or glue around the modelled code, and their
    answers are arbitrary here. *)

From Stdlib Require Export ZArith Lia Ascii.
From stdpp Require Export base option list strings gmap fin_maps numbers.
From Stdlib Require String.

#[global] Open Scope Z_scope.
#[global] Open Scope list_scope.

(** ** Records with updatable fields

    Go mutates struct fields one at a time.  [r <| f := v |>] is the record [r]
    with field [f] replaced; a record type becomes updatable by an instance of
    [Settable] that lists its projections. *)

Class Settable (R : Type) : Type := eta_of : R -> R.
Class Setter {R T : Type} (proj : R -> T) : Type := set_field : (T -> T) -> R -> R.
Arguments set_field {R T} proj {_} f r /.

Ltac derive_setter R proj :=
  let i := constr:(@eta_of R _) in
  let e := eval hnf in i in
  lazymatch eval pattern proj in e with
  | ?body _ => exact (fun f r => body (fun r' => f (proj r')) r)
  end.

#[export] Hint Extern 1 (@Setter ?R ?T ?proj) => derive_setter R proj : typeclass_instances.

Declare Scope go_scope.
Delimit Scope go_scope with go.
#[warnings="-postfix-notation-not-level-1"]
Notation "r <| f := v |>" := (set_field f (fun _ => v) r)
  (at level 12, f at next level, left associativity) : go_scope.
#[global] Open Scope go_scope.

(** ** Fallible computations: Go's [(value, error)] results *)

Inductive result (E A : Type) : Type :=
| Ok (a : A)
| Err (e : E).
Arguments Ok {E A} a.
Arguments Err {E A} e.

#[export] Instance result_mret {E : Type} : MRet (result E) := fun A a => Ok a.
#[export] Instance result_mbind {E : Type} : MBind (result E) := fun A B f m =>
  match m with Ok a => f a | Err e => Err e end.
#[export] Instance result_fmap {E : Type} : FMap (result E) := fun A B f m =>
  match m with Ok a => Ok (f a) | Err e => Err e end.
#[export] Instance result_eq_dec {E A : Type} `{EqDecision E, EqDecision A} : EqDecision (result E A).
Proof. solve_decision. Defined.

Definition is_ok {E A : Type} (r : result E A) : bool :=
  match r with Ok _ => true | Err _ => false end.

(** A method that mutates its receiver and may fail.  The state is returned on
    both outcomes, so what a failing method has already written stays visible. *)

Definition ST (S E A : Type) : Type := S -> S * result E A.

#[export] Instance ST_mret {S E : Type} : MRet (ST S E) := fun A a s => (s, Ok a).
#[export] Instance ST_mbind {S E : Type} : MBind (ST S E) := fun A B f m s =>
  match m s with
  | (s', Ok a) => f a s'
  | (s', Err e) => (s', Err e)
  end.

Definition st_get {S E : Type} : ST S E S := fun s => (s, Ok s).
Definition st_modify {S E : Type} (f : S -> S) : ST S E unit := fun s => (f s, Ok tt).
Definition st_fail {S E A : Type} (e : E) : ST S E A := fun s => (s, Err e).
Definition st_lift {S E A : Type} (r : result E A) : ST S E A := fun s => (s, r).
Definition st_when {S E : Type} (b : bool) (m : ST S E unit) : ST S E unit :=
  if b then m else mret tt.

(** Code that mutates a shared state and can panic: [None] is a panic, after
    which nothing is said about the state. *)

Definition PM (S A : Type) : Type := S -> option (S * A).

#[export] Instance PM_mret {S : Type} : MRet (PM S) := fun A a s => Some (s, a).
#[export] Instance PM_fmap {S : Type} : FMap (PM S) := fun A B f m s =>
  match m s with Some (s', a) => Some (s', f a) | None => None end.
#[export] Instance PM_mbind {S : Type} : MBind (PM S) := fun A B f m s =>
  match m s with Some (s', a) => f a s' | None => None end.

Definition pm_get {S : Type} : PM S S := fun s => Some (s, s).
Definition pm_modify {S : Type} (f : S -> S) : PM S unit := fun s => Some (f s, tt).
Definition pm_panic {S A : Type} : PM S A := fun s => None.
Definition pm_assert {S : Type} (b : bool) : PM S unit := if b then mret tt else pm_panic.

(** ** Time

    A [time.Time] is an instant: nanoseconds since January 1, year 1, 00:00 UTC,
    which is Go's zero time.  Locations and monotonic readings play no part in
    the code modelled here.  [time.Duration] is an [int64] of nanoseconds and
    [Sub] saturates at its bounds. *)

Abbreviation Time := Z (only parsing).
Abbreviation Duration := Z (only parsing).

Definition zeroTime : Time := 0.
Definition IsZero (t : Time) : bool := t =? zeroTime.
Definition Before (t u : Time) : bool := t <? u.
Definition After (t u : Time) : bool := u <? t.

Definition int64_min : Z := - 2 ^ 63.
Definition int64_max : Z := 2 ^ 63 - 1.
Definition Sub (t u : Time) : Duration := Z.max int64_min (Z.min int64_max (t - u)).

Definition Microsecond : Duration := 1000.
Definition Millisecond : Duration := 1000 * Microsecond.
Definition Second : Duration := 1000 * Millisecond.
Definition Minute : Duration := 60 * Second.
Definition Hour : Duration := 60 * Minute.

(** [d.Milliseconds()] and integer division truncate toward zero. *)
Definition Milliseconds (d : Duration) : Z := Z.quot d Millisecond.

(** Two's-complement wrap-around of a 64-bit [int] and of a [uint64]. *)
Definition wrap_int64 (z : Z) : Z := (z + 2 ^ 63) mod 2 ^ 64 - 2 ^ 63.
Definition wrap_uint64 (z : Z) : Z := z mod 2 ^ 64.

Definition is_some {A : Type} (o : option A) : bool :=
  match o with Some _ => true | None => false end.
Definition is_none {A : Type} (o : option A) : bool := negb (is_some o).

(** ** Automation *)

Create HintDb go discriminated.
Create Rewrite HintDb go.

(** Split every boolean connective and every [match] in sight, closing the
    branches that contradict each other. *)
Ltac simplify_bool :=
  repeat match goal with
  | H : _ && _ = true |- _ => apply andb_true_iff in H; destruct H
  | H : _ || _ = false |- _ => apply orb_false_iff in H; destruct H
  | H : negb _ = true |- _ => apply negb_true_iff in H
  | H : negb _ = false |- _ => apply negb_false_iff in H
  | H : (_ =? _)%string = true |- _ => apply String.eqb_eq in H
  | H : (_ =? _)%string = false |- _ => apply String.eqb_neq in H
  | H : (_ =? _) = true |- _ => apply Z.eqb_eq in H
  | H : (_ =? _) = false |- _ => apply Z.eqb_neq in H
  | H : (_ <? _) = true |- _ => apply Z.ltb_lt in H
  | H : (_ <? _) = false |- _ => apply Z.ltb_ge in H
  | H : (_ <=? _) = true |- _ => apply Z.leb_le in H
  | H : (_ <=? _) = false |- _ => apply Z.leb_gt in H
  | H : bool_decide _ = true |- _ => apply bool_decide_eq_true in H
  | H : bool_decide _ = false |- _ => apply bool_decide_eq_false in H
  end.

(** Run a monadic goal or hypothesis to its leaves. *)
Ltac unfold_monads :=
  unfold mbind, mret, fmap, ST_mbind, ST_mret, result_mbind, result_mret, result_fmap,
    st_get, st_modify, st_fail, st_lift, st_when, PM_mbind, PM_mret, pm_get, pm_modify, pm_panic,
    pm_assert in *.

Ltac destruct_matches :=
  repeat (simplify_eq/=; try case_match; simplify_eq/=); try done.

(** Decide the closed [bool_decide]s of the goal. *)
Ltac decide_closed :=
  repeat match goal with
  | |- context [@bool_decide ?P ?d] =>
      let b := eval vm_compute in (@bool_decide P d) in
      lazymatch b with
      | true => change (@bool_decide P d) with true
      | false => change (@bool_decide P d) with false
      end
  end.

(** Split every [if] of the goal. *)
Ltac destruct_ifs :=
  repeat match goal with |- context [if ?b then _ else _] => destruct b end.

(** ** Lists *)

Fixpoint list_findi_from {A : Type} (p : A -> bool) (i : nat) (l : list A) : option (nat * A) :=
  match l with
  | [] => None
  | x :: l' => if p x then Some (i, x) else list_findi_from p (S i) l'
  end.

(** The index and value of the first element that satisfies [p]: the Go loop
    [for index, x := range l { if p(x) { return ... } }]. *)
Definition list_findi {A : Type} (p : A -> bool) (l : list A) : option (nat * A) :=
  list_findi_from p 0 l.

(** ** Lemmas *)

Lemma list_findi_from_Some {A : Type} (p : A -> bool) (l : list A) (i j : nat) (x : A) :
  list_findi_from p i l = Some (j, x) ->
  exists k, j = (i + k)%nat /\ l !! k = Some x /\ p x = true
    /\ (forall k' y, (k' < k)%nat -> l !! k' = Some y -> p y = false).
Proof.
  revert i. induction l as [|y l IH]; intros i H; simpl in H; [done|].
  destruct (p y) eqn:Hp.
  - simplify_eq. exists 0%nat. repeat split; [lia|done|lia].
  - apply IH in H as (k & -> & Hk & Hx & Hfirst).
    exists (S k). repeat split; [lia|done|done|].
    intros [|k'] z Hlt Hz; simplify_eq/=; [done|]. eapply Hfirst; [|done]. lia.
Qed.

Lemma list_findi_Some {A : Type} (p : A -> bool) (l : list A) (j : nat) (x : A) :
  list_findi p l = Some (j, x) ->
  l !! j = Some x /\ p x = true /\ (forall k y, (k < j)%nat -> l !! k = Some y -> p y = false).
Proof. intros (k & -> & ?)%list_findi_from_Some. done. Qed.

Lemma list_findi_from_None {A : Type} (p : A -> bool) (l : list A) (i : nat) :
  list_findi_from p i l = None <-> forall x, x ∈ l -> p x = false.
Proof.
  revert i. induction l as [|y l IH]; intros i; simpl.
  - split; [intros _ x Hx; by apply not_elem_of_nil in Hx|done].
  - destruct (p y) eqn:Hp; [split; [done|]|].
    + intros H. specialize (H y). rewrite Hp in H. by discriminate H; left.
    + rewrite IH. split; intros H x; [intros [->|Hx]%elem_of_cons; auto|].
      intros Hx. apply H. by right.
Qed.

Lemma list_findi_None {A : Type} (p : A -> bool) (l : list A) :
  list_findi p l = None <-> forall x, x ∈ l -> p x = false.
Proof. apply list_findi_from_None. Qed.

Lemma wrap_int64_id (z : Z) : int64_min <= z <= int64_max -> wrap_int64 z = z.
Proof. unfold wrap_int64, int64_min, int64_max. intros. rewrite Z.mod_small; lia. Qed.

Lemma Sub_exact (t u : Time) : int64_min <= t - u <= int64_max -> Sub t u = t - u.
Proof. unfold Sub. lia. Qed.

Lemma forallb_true {A : Type} (p : A -> bool) (l : list A) :
  forallb p l = true <-> forall x, x ∈ l -> p x = true.
Proof.
  rewrite forallb_forall. split; intros H x Hx; apply H; by apply list_elem_of_In.
Qed.

Lemma existsb_true {A : Type} (p : A -> bool) (l : list A) :
  existsb p l = true <-> exists x, x ∈ l /\ p x = true.
Proof.
  rewrite existsb_exists. split; intros (x & Hx & Hp); exists x; split; auto; by apply list_elem_of_In.
Qed.

Lemma elem_of_rev {A : Type} (x : A) (l : list A) : x ∈ rev l <-> x ∈ l.
Proof. by rewrite !list_elem_of_In, <- in_rev. Qed.
