(* ===== verification/GoStrings.v ===== *)
(** * Go strings

    A Go string is a sequence of bytes: a Rocq [string], whose characters are
    bytes.  This file holds the functions of Go's [strings] and [path/filepath]
    packages that the modelled code calls, with their lemmas. *)

From S2P Require Import Prelude.

(** ** Splitting and joining sequences *)

Fixpoint split_on {A : Type} (p : A -> bool) (l : list A) : list (list A) :=
  match l with
  | [] => [[]]
  | x :: l' =>
      if p x then [] :: split_on p l'
      else match split_on p l' with
           | [] => [[x]]
           | y :: ys => (x :: y) :: ys
           end
  end.

Fixpoint intercalate {A : Type} (sep : list A) (parts : list (list A)) : list A :=
  match parts with
  | [] => []
  | [p] => p
  | p :: ps => p ++ sep ++ intercalate sep ps
  end.

Definition chars (s : string) : list ascii := String.list_ascii_of_string s.
Definition of_chars (l : list ascii) : string := String.string_of_list_ascii l.

(** [strings.Split(s, sep)] for a one-byte separator; never empty. *)
Definition Split (s : string) (sep : ascii) : list string :=
  map of_chars (split_on (Ascii.eqb sep) (chars s)).

(** [strings.Join(parts, sep)]. *)
Definition Join (parts : list string) (sep : string) : string :=
  of_chars (intercalate (chars sep) (map chars parts)).

(** ** Prefixes, suffixes and containment *)

Fixpoint list_prefix (pre l : list ascii) : bool :=
  match pre, l with
  | [], _ => true
  | p :: pre', x :: l' => Ascii.eqb p x && list_prefix pre' l'
  | _ :: _, [] => false
  end.

Definition HasPrefix (s pre : string) : bool := list_prefix (chars pre) (chars s).
Definition HasSuffix (s suf : string) : bool := list_prefix (rev (chars suf)) (rev (chars s)).

(** [strings.TrimPrefix(s, prefix)]. *)
Definition TrimPrefix (s pre : string) : string :=
  if HasPrefix s pre then of_chars (drop (String.length pre) (chars s)) else s.

(** [strings.TrimSuffix(s, suffix)]. *)
Definition TrimSuffix (s suf : string) : string :=
  if HasSuffix s suf
  then of_chars (take (String.length s - String.length suf) (chars s)) else s.

(** [strings.Contains(s, substr)]. *)
Fixpoint list_contains (sub l : list ascii) : bool :=
  list_prefix sub l || match l with [] => false | _ :: l' => list_contains sub l' end.
Definition Contains (s sub : string) : bool := list_contains (chars sub) (chars s).

(** [strings.ContainsAny(s, set)] for an ASCII set. *)
Definition ContainsAny (s set : string) : bool :=
  existsb (fun c => existsb (Ascii.eqb c) (chars set)) (chars s).

Definition str_forall (p : ascii -> bool) (s : string) : bool := forallb p (chars s).

(** [s] does not contain the byte [sep]. *)
Definition lacks (sep : ascii) (s : string) : bool := str_forall (fun c => negb (Ascii.eqb sep c)) s.

(** ** Character classes *)

Definition code (c : ascii) : Z := Z.of_N (N_of_ascii c).
Definition char_in (lo hi : ascii) (c : ascii) : bool := (code lo <=? code c) && (code c <=? code hi).
Definition is_digit (c : ascii) : bool := char_in "0" "9" c.
Definition is_lower (c : ascii) : bool := char_in "a" "z" c.
Definition is_upper (c : ascii) : bool := char_in "A" "Z" c.
Definition is_lower_hex (c : ascii) : bool := is_digit c || char_in "a" "f" c.
Definition is_hex (c : ascii) : bool := is_lower_hex c || char_in "A" "F" c.

(** ASCII lower-casing, enough for comparisons with an ASCII string. *)
Definition to_lower (c : ascii) : ascii :=
  if is_upper c then ascii_of_N (N_of_ascii c + 32) else c.

(** [strings.EqualFold(s, t)] for [t] an ASCII string that has no letter with a
    non-ASCII fold ([k] and [s] have one). *)
Definition EqualFoldASCII (s t : string) : bool :=
  (of_chars (map to_lower (chars s)) =? of_chars (map to_lower (chars t)))%string.

(** The value of a string of decimal digits. *)
Definition decimal (s : string) : Z :=
  fold_left (fun acc c => acc * 10 + (code c - 48)) (chars s) 0.

(** ** [filepath.IsAbs] and [filepath.Clean] on Unix

    [Clean] drops empty and [.] elements, lets [..] remove the element before it
    (nothing at the root, itself kept at the start of a relative path), and
    never ends in a slash except for the root. *)

Definition IsAbs (p : string) : bool := HasPrefix p "/".

(** [clean_parts rooted out parts]: [out] is the cleaned path so far, reversed. *)
Fixpoint clean_parts (rooted : bool) (out parts : list string) : list string :=
  match parts with
  | [] => rev out
  | part :: parts' =>
      if (part =? "")%string || (part =? ".")%string then clean_parts rooted out parts'
      else if (part =? "..")%string then
        match out with
        | [] => clean_parts rooted (if rooted then [] else [".."%string]) parts'
        | top :: out' =>
            if (top =? "..")%string then clean_parts rooted (part :: out) parts'
            else clean_parts rooted out' parts'
        end
      else clean_parts rooted (part :: out) parts'
  end.

Definition Clean (p : string) : string :=
  let rooted := IsAbs p in
  let body := Join (clean_parts rooted [] (Split p "/")) "/" in
  if rooted then String.append "/" body
  else if (body =? "")%string then "."%string else body.

(** ** Lemmas *)

Lemma chars_of_chars (l : list ascii) : chars (of_chars l) = l.
Proof. apply String.list_ascii_of_string_of_list_ascii. Qed.

Lemma of_chars_chars (s : string) : of_chars (chars s) = s.
Proof. apply String.string_of_list_ascii_of_string. Qed.

Lemma chars_inj (s t : string) : chars s = chars t -> s = t.
Proof. intros H. by rewrite <- (of_chars_chars s), H, of_chars_chars. Qed.

Lemma chars_append (s t : string) : chars (String.append s t) = chars s ++ chars t.
Proof. induction s as [|c s IH]; [done|]. simpl. by f_equal. Qed.

Lemma of_chars_app (l k : list ascii) : of_chars (l ++ k) = String.append (of_chars l) (of_chars k).
Proof. apply chars_inj. by rewrite chars_append, !chars_of_chars. Qed.

Lemma length_chars (s : string) : length (chars s) = String.length s.
Proof. induction s; simpl; auto. Qed.

#[export] Hint Rewrite chars_of_chars of_chars_chars chars_append length_chars : go.

Lemma split_on_nonempty {A : Type} (p : A -> bool) (l : list A) : split_on p l <> [].
Proof. destruct l as [|x l]; simpl; [done|]. repeat case_match; done. Qed.

Lemma split_on_app_sep {A : Type} (p : A -> bool) (l : list A) (x : A) (k : list A) :
  forallb (fun y => negb (p y)) l = true -> p x = true ->
  split_on p (l ++ x :: k) = l :: split_on p k.
Proof.
  intros Hl Hx. induction l as [|y l IH]; simpl in *; [by rewrite Hx|].
  apply andb_true_iff in Hl as [Hy%negb_true_iff Hl]. by rewrite Hy, (IH Hl).
Qed.

Lemma split_on_no_sep {A : Type} (p : A -> bool) (l : list A) :
  forallb (fun y => negb (p y)) l = true -> split_on p l = [l].
Proof.
  intros Hl. induction l as [|y l IH]; simpl in *; [done|].
  apply andb_true_iff in Hl as [Hy%negb_true_iff Hl]. by rewrite Hy, (IH Hl).
Qed.

Lemma split_on_parts {A : Type} (p : A -> bool) (l part : list A) :
  part ∈ split_on p l -> forallb (fun y => negb (p y)) part = true.
Proof.
  revert part. induction l as [|x l IH]; intros part; simpl.
  - intros ->%list_elem_of_singleton. done.
  - destruct (p x) eqn:Hx; [intros [->|H]%elem_of_cons; auto|].
    destruct (split_on p l) as [|y ys] eqn:E; [by apply split_on_nonempty in E|].
    intros [->|H]%elem_of_cons; [|apply IH; by right].
    simpl. rewrite Hx. simpl. apply IH. by left.
Qed.

Lemma intercalate_cons {A : Type} (sep p : list A) (ps : list (list A)) :
  ps <> [] -> intercalate sep (p :: ps) = p ++ sep ++ intercalate sep ps.
Proof. destruct ps; [done|]. done. Qed.

Lemma intercalate_split {A : Type} (p : A -> bool) (x : A) (l : list A) :
  (forall y, p y = true <-> y = x) -> intercalate [x] (split_on p l) = l.
Proof.
  intros Hp. induction l as [|y l IH]; simpl; [done|].
  pose proof (split_on_nonempty p l) as Hne. destruct (p y) eqn:Hy.
  - apply Hp in Hy as ->. rewrite intercalate_cons; [|done]. by rewrite IH.
  - destruct (split_on p l) as [|z zs]; [done|].
    destruct zs as [|w ws]; [simpl in *; by rewrite IH|].
    rewrite intercalate_cons in IH |- *; [|done|done]. simpl. by rewrite <- IH.
Qed.

Lemma split_intercalate {A : Type} (p : A -> bool) (x : A) (parts : list (list A)) :
  p x = true -> parts <> [] ->
  (forall part, part ∈ parts -> forallb (fun y => negb (p y)) part = true) ->
  split_on p (intercalate [x] parts) = parts.
Proof.
  intros Hx. induction parts as [|q qs IH]; intros Hne Hparts; [done|].
  assert (Hq : forallb (fun y => negb (p y)) q = true) by (apply Hparts; left).
  destruct qs as [|r rs]; [by apply split_on_no_sep|].
  rewrite intercalate_cons; [|done]. simpl. rewrite split_on_app_sep; [|done|done].
  f_equal. apply IH; [done|]. intros part Hpart. apply Hparts. by right.
Qed.

(** [strings.Join(strings.Split(s, sep), sep)] is [s]. *)
Lemma Join_Split (s : string) (sep : ascii) : Join (Split s sep) (String.String sep String.EmptyString) = s.
Proof.
  unfold Join, Split. rewrite map_map. change (chars (String.String sep String.EmptyString)) with [sep].
  rewrite (map_ext _ id) by (intros; apply chars_of_chars). rewrite map_id.
  rewrite intercalate_split; [apply of_chars_chars|].
  intros y. rewrite Ascii.eqb_eq. split; congruence.
Qed.

(** [strings.Split(strings.Join(parts, sep), sep)] is [parts] when no part contains [sep]. *)
Lemma Split_Join (parts : list string) (sep : ascii) :
  parts <> [] -> forallb (lacks sep) parts = true ->
  Split (Join parts (String.String sep String.EmptyString)) sep = parts.
Proof.
  intros Hne Hparts. unfold Join, Split. rewrite chars_of_chars.
  change (chars (String.String sep String.EmptyString)) with [sep].
  rewrite split_intercalate.
  - rewrite map_map, (map_ext _ id), map_id; [done|]. intros; apply of_chars_chars.
  - apply Ascii.eqb_refl.
  - by destruct parts.
  - intros part (s & -> & Hs)%list_elem_of_fmap. by eapply forallb_true in Hparts.
Qed.

Lemma Join_cons (x sep : string) (rest : list string) :
  rest <> [] -> Join (x :: rest) sep = String.append x (String.append sep (Join rest sep)).
Proof.
  intros Hne. unfold Join. simpl map. rewrite intercalate_cons by (by destruct rest).
  by rewrite !of_chars_app, !of_chars_chars.
Qed.

Lemma Join_one (x sep : string) : Join [x] sep = x.
Proof. apply of_chars_chars. Qed.

Lemma Split_lacks (s part : string) (sep : ascii) : part ∈ Split s sep -> lacks sep part = true.
Proof.
  intros (l & -> & Hl)%list_elem_of_fmap. unfold lacks, str_forall. rewrite chars_of_chars.
  by apply split_on_parts in Hl.
Qed.

Lemma Split_nonempty (s : string) (sep : ascii) : Split s sep <> [].
Proof. unfold Split. pose proof (split_on_nonempty (Ascii.eqb sep) (chars s)). by destruct (split_on _ _). Qed.

(** *** [Clean] *)

(** A path element that [Clean] keeps. *)
Definition plain_part (part : string) : bool :=
  negb (part =? "")%string && negb (part =? ".")%string && negb (part =? "..")%string && lacks "/" part.

Lemma clean_parts_rooted (out parts : list string) :
  forallb plain_part out = true -> forallb (lacks "/") parts = true ->
  forallb plain_part (clean_parts true out parts) = true.
Proof.
  revert out. induction parts as [|part parts IH]; intros out Hout Hparts.
  - simpl. rewrite forallb_true in Hout |- *. intros x Hx. rewrite elem_of_rev in Hx. by apply Hout.
  - simpl in Hparts |- *. apply andb_true_iff in Hparts as [Hpart Hparts].
    destruct (part =? "")%string eqn:E1; simpl; [by apply IH|].
    destruct (part =? ".")%string eqn:E2; simpl; [by apply IH|].
    destruct (part =? "..")%string eqn:E3.
    + destruct out as [|top out]; [by apply IH|].
      pose proof Hout as Hout'. simpl in Hout. unfold plain_part in Hout at 1. simplify_bool.
      rewrite (proj2 (String.eqb_neq _ _)) by done. by apply IH.
    + apply IH; [|done]. simpl. unfold plain_part at 1. by rewrite E1, E2, E3, Hpart.
Qed.

Lemma clean_parts_plain (rooted : bool) (out parts : list string) :
  forallb plain_part parts = true -> clean_parts rooted out parts = rev out ++ parts.
Proof.
  revert out. induction parts as [|part parts IH]; intros out Hparts; simpl in *.
  - by rewrite app_nil_r.
  - apply andb_true_iff in Hparts as [Hpart Hparts]. unfold plain_part in Hpart. simplify_bool.
    rewrite !(proj2 (String.eqb_neq _ _)) by done. simpl.
    rewrite IH by done. simpl. by rewrite <- app_assoc.
Qed.

Lemma Split_slash_lacks (p : string) : forallb (lacks "/") (Split p "/") = true.
Proof. apply forallb_true. intros x. apply Split_lacks. Qed.

(** An absolute path in canonical form: a slash and the plain elements. *)
Definition abs_path (parts : list string) : string := String.append "/" (Join parts "/").

Lemma Clean_abs (p : string) :
  IsAbs p = true -> exists parts, Clean p = abs_path parts /\ forallb plain_part parts = true.
Proof.
  intros Hp. exists (clean_parts true [] (Split p "/")). unfold Clean. rewrite Hp.
  split; [done|]. apply clean_parts_rooted; [done|]. apply Split_slash_lacks.
Qed.

Lemma plain_part_lacks (parts : list string) :
  forallb plain_part parts = true -> forallb (lacks "/") parts = true.
Proof.
  rewrite !forallb_true. intros H x Hx. specialize (H x Hx). unfold plain_part in H.
  by simplify_bool.
Qed.

Lemma Split_abs_path (parts : list string) :
  parts <> [] -> forallb (lacks "/") parts = true -> Split (abs_path parts) "/" = ""%string :: parts.
Proof.
  intros Hne Hparts. unfold Split, abs_path. simpl. f_equal.
  by apply (Split_Join parts "/").
Qed.

Lemma Clean_abs_path (parts : list string) :
  forallb plain_part parts = true -> Clean (abs_path parts) = abs_path parts.
Proof.
  intros Hparts. destruct (decide (parts = [])) as [->|Hne]; [done|].
  unfold Clean. change (IsAbs (abs_path parts)) with true. cbv iota zeta.
  rewrite Split_abs_path; [|done|by apply plain_part_lacks].
  simpl clean_parts. by rewrite clean_parts_plain.
Qed.
