(* ===== verification/UTF8.v ===== *)
(** * UTF-8, as Go's [unicode/utf8] decodes and encodes it

    Bytes and runes are integers.  [DecodeRune] accepts exactly the well-formed
    sequences (no overlong forms, no surrogates, nothing above U+10FFFF) and
    answers [(RuneError, 1)] on anything else, as [range] over a string and
    [[]rune(s)] do. *)

From S2P Require Import Prelude.
From S2P Require Import GoStrings.

(** ** Decoding *)

Definition RuneError : Z := 0xFFFD.
Definition RuneSelf : Z := 0x80.

Definition between (lo hi b : Z) : bool := (lo <=? b) && (b <=? hi).

(** The length a leading byte announces and the range of its second byte. *)
Definition lead (b : Z) : option (nat * Z * Z) :=
  if between 0xC2 0xDF b then Some (2%nat, 0x80, 0xBF)
  else if b =? 0xE0 then Some (3%nat, 0xA0, 0xBF)
  else if between 0xE1 0xEC b then Some (3%nat, 0x80, 0xBF)
  else if b =? 0xED then Some (3%nat, 0x80, 0x9F)
  else if between 0xEE 0xEF b then Some (3%nat, 0x80, 0xBF)
  else if b =? 0xF0 then Some (4%nat, 0x90, 0xBF)
  else if between 0xF1 0xF3 b then Some (4%nat, 0x80, 0xBF)
  else if b =? 0xF4 then Some (4%nat, 0x80, 0x8F)
  else None.

Definition continuation (b : Z) : bool := between 0x80 0xBF b.

(** The low six bits of a continuation byte. *)
Definition low6 (b : Z) : Z := Z.land b 0x3F.

Definition DecodeRune (p : list Z) : Z * nat :=
  match p with
  | [] => (RuneError, 0%nat)
  | b0 :: rest =>
      if b0 <? RuneSelf then (b0, 1%nat)
      else match lead b0, rest with
      | Some (2%nat, lo, hi), b1 :: _ =>
          if between lo hi b1 then (Z.lor (Z.shiftl (Z.land b0 0x1F) 6) (low6 b1), 2%nat)
          else (RuneError, 1%nat)
      | Some (3%nat, lo, hi), b1 :: b2 :: _ =>
          if between lo hi b1 && continuation b2
          then (Z.lor (Z.lor (Z.shiftl (Z.land b0 0x0F) 12) (Z.shiftl (low6 b1) 6)) (low6 b2), 3%nat)
          else (RuneError, 1%nat)
      | Some (4%nat, lo, hi), b1 :: b2 :: b3 :: _ =>
          if between lo hi b1 && continuation b2 && continuation b3
          then (Z.lor (Z.lor (Z.lor (Z.shiftl (Z.land b0 0x07) 18) (Z.shiftl (low6 b1) 12))
                  (Z.shiftl (low6 b2) 6)) (low6 b3), 4%nat)
          else (RuneError, 1%nat)
      | _, _ => (RuneError, 1%nat)
      end
  end.

(** Whether [p] begins with a full encoding; an invalid one is full, since it
    decodes as an error of width one. *)
Definition FullRune (p : list Z) : bool :=
  match p with
  | [] => false
  | b0 :: rest =>
      if b0 <? RuneSelf then true
      else match lead b0 with
      | None => true
      | Some (n, lo, hi) =>
          if (n <=? length p)%nat then true
          else match rest with
          | [] => false
          | b1 :: rest' =>
              if negb (between lo hi b1) then true
              else match rest' with
                   | [] => false
                   | b2 :: _ => negb (continuation b2)
                   end
          end
      end
  end.

(** [for _, r := range s]: the runes with the width each was decoded from. *)
Fixpoint decode_fuel (fuel : nat) (p : list Z) : list (Z * nat) :=
  match fuel, p with
  | S fuel, _ :: _ =>
      let '(r, size) := DecodeRune p in (r, size) :: decode_fuel fuel (drop size p)
  | _, _ => []
  end.

(** Every step consumes at least one byte, so the length is fuel enough. *)
Definition decode (p : list Z) : list (Z * nat) := decode_fuel (length p) p.

Definition bytes (s : string) : list Z := code <$> chars s.
Definition runes (s : string) : list Z := fst <$> decode (bytes s).

(** An error of width one is the only mark of an invalid byte: U+FFFD itself has
    width three. *)
Definition ValidString (s : string) : bool :=
  forallb (fun '(r, size) => negb ((r =? RuneError) && (size =? 1)%nat)) (decode (bytes s)).

Definition RuneCountInString (s : string) : Z := Z.of_nat (length (runes s)).

(** ** Encoding *)

Definition is_surrogate (r : Z) : bool := between 0xD800 0xDFFF r.
Definition valid_rune (r : Z) : bool := (0 <=? r) && (r <=? 0x10FFFF) && negb (is_surrogate r).

(** [string(r)]; an invalid rune is written as U+FFFD. *)
Definition EncodeRune (r : Z) : list Z :=
  let r := if valid_rune r then r else RuneError in
  if r <? 0x80 then [r]
  else if r <? 0x800 then [Z.lor 0xC0 (Z.shiftr r 6); Z.lor 0x80 (low6 r)]
  else if r <? 0x10000 then
    [Z.lor 0xE0 (Z.shiftr r 12); Z.lor 0x80 (low6 (Z.shiftr r 6)); Z.lor 0x80 (low6 r)]
  else
    [Z.lor 0xF0 (Z.shiftr r 18); Z.lor 0x80 (low6 (Z.shiftr r 12));
     Z.lor 0x80 (low6 (Z.shiftr r 6)); Z.lor 0x80 (low6 r)].

Definition string_of_runes (rs : list Z) : string :=
  of_chars ((fun b => ascii_of_nat (Z.to_nat b)) <$> (rs ≫= EncodeRune)).

(** ** Lemmas *)

Lemma DecodeRune_size (p : list Z) : p <> [] -> (1 <= snd (DecodeRune p) <= length p)%nat.
Proof.
  intros Hp. destruct p as [|b0 rest]; [done|]. cbn [DecodeRune].
  destruct (b0 <? RuneSelf); [simpl; lia|]. destruct (lead b0) as [[[n lo] hi]|]; [|simpl; lia].
  destruct n as [|[|[|[|[|n]]]]], rest as [|b1 [|b2 [|b3 rest]]]; cbn [snd]; try (simpl; lia);
    case_match; simpl; lia.
Qed.

(** A full sequence decodes the same whatever follows it. *)
Lemma DecodeRune_app (p q : list Z) : FullRune p = true -> DecodeRune (p ++ q) = DecodeRune p.
Proof.
  destruct p as [|b0 rest]; [done|]. cbn [FullRune DecodeRune app].
  destruct (b0 <? RuneSelf); [done|]. destruct (lead b0) as [[[n lo] hi]|]; [|done].
  destruct rest as [|b1 [|b2 [|b3 rest]]]; destruct n as [|[|[|[|[|n]]]]]; cbn; try done;
    destruct q as [|q1 [|q2 q]]; cbn; try done; destruct (between lo hi b1); cbn; try done;
    destruct (continuation b2); done.
Qed.

Lemma FullRune_app (p q : list Z) : FullRune p = true -> FullRune (p ++ q) = true.
Proof.
  destruct p as [|b0 rest]; [done|]. cbn [FullRune app].
  destruct (b0 <? RuneSelf); [done|]. destruct (lead b0) as [[[n lo] hi]|]; [|done].
  destruct (Nat.leb_spec n (length (b0 :: rest))) as [Hn|Hn]; intros Hfull.
  { rewrite (proj2 (Nat.leb_le n _)); [done|]. cbn in *. rewrite length_app. lia. }
  destruct (n <=? _)%nat; [done|]. destruct rest as [|b1 rest]; [done|]. cbn.
  destruct (negb (between lo hi b1)); [done|]. by destruct rest.
Qed.

(** An incomplete sequence decodes as an error of width one. *)
Lemma DecodeRune_incomplete (p : list Z) : p <> [] -> FullRune p = false -> DecodeRune p = (RuneError, 1%nat).
Proof.
  destruct p as [|b0 rest]; [done|]. intros _. cbn [FullRune DecodeRune].
  destruct (b0 <? RuneSelf); [done|]. destruct (lead b0) as [[[n lo] hi]|]; [|done].
  destruct rest as [|b1 [|b2 [|b3 rest]]]; destruct n as [|[|[|[|[|n]]]]]; done.
Qed.

Lemma lor_shiftl (a b n : Z) : 0 <= n -> 0 <= b < 2 ^ n -> Z.lor (Z.shiftl a n) b = a * 2 ^ n + b.
Proof.
  intros Hn Hb. rewrite <- Z.add_nocarry_lor; [by rewrite Z.shiftl_mul_pow2|].
  apply Z.bits_inj'. intros i Hi. rewrite Z.land_spec, Z.bits_0.
  destruct (Z.ltb_spec i n).
  - by rewrite Z.shiftl_spec_low.
  - rewrite <- (Z.mod_small b (2 ^ n)), Z.mod_pow2_bits_high by lia. apply andb_false_r.
Qed.

Lemma low6_mod (b : Z) : low6 b = b mod 64.
Proof. apply (Z.land_ones b 6). lia. Qed.

Lemma low6_cont (b : Z) : 0 <= low6 b < 64.
Proof. rewrite low6_mod. by apply Z.mod_pos_bound. Qed.

Lemma lor_0x80 (x : Z) : 0 <= x < 64 -> Z.lor 0x80 x = 128 + x.
Proof. apply (lor_shiftl 2 x 6). lia. Qed.
Lemma lor_0xC0 (x : Z) : 0 <= x < 64 -> Z.lor 0xC0 x = 192 + x.
Proof. apply (lor_shiftl 3 x 6). lia. Qed.
Lemma lor_0xE0 (x : Z) : 0 <= x < 16 -> Z.lor 0xE0 x = 224 + x.
Proof. apply (lor_shiftl 14 x 4). lia. Qed.
Lemma lor_0xF0 (x : Z) : 0 <= x < 8 -> Z.lor 0xF0 x = 240 + x.
Proof. apply (lor_shiftl 30 x 3). lia. Qed.

Lemma low6_cont_byte (x : Z) : 0 <= x < 64 -> low6 (128 + x) = x.
Proof. intros. rewrite low6_mod. change 128 with (2 * 64). rewrite Z.add_comm, Z.mod_add by lia. by apply Z.mod_small. Qed.

Lemma continuation_byte (x : Z) : 0 <= x < 64 -> continuation (128 + x) = true.
Proof. unfold continuation, between. lia. Qed.

(** Decide which arm of [lead] an arithmetic leading byte takes. *)
Ltac lead_case :=
  unfold lead, between;
  repeat match goal with
  | |- context [(?a <=? ?b)] => destruct (Z.leb_spec a b); try lia
  | |- context [(?a =? ?b)] => destruct (Z.eqb_spec a b); try lia
  end; cbn [andb].

Lemma land_mod (b n : Z) : 0 <= n -> Z.land b (Z.ones n) = b mod 2 ^ n.
Proof. intros. by apply Z.land_ones. Qed.

Lemma shiftr_div (r n : Z) : 0 <= n -> Z.shiftr r n = r / 2 ^ n.
Proof. apply Z.shiftr_div_pow2. Qed.

Section Roundtrip.
Context (r : Z) (rest : list Z).

Lemma decode_two :
  0x80 <= r < 0x800 ->
  DecodeRune ([Z.lor 0xC0 (Z.shiftr r 6); Z.lor 0x80 (low6 r)] ++ rest) = (r, 2%nat).
Proof.
  intros H. rewrite shiftr_div by lia. change (2 ^ 6) with 64.
  assert (2 <= r / 64 < 32) by (split; [apply Z.div_le_lower_bound|apply Z.div_lt_upper_bound]; lia).
  rewrite lor_0xC0, lor_0x80 by (apply low6_cont || lia). cbn [app DecodeRune].
  replace (192 + r / 64 <? RuneSelf) with false by (unfold RuneSelf; lia).
  replace (lead (192 + r / 64)) with (Some (2%nat, 0x80, 0xBF)) by (lead_case; done).
  replace (between 128 191 (128 + low6 r)) with true by (pose proof (low6_cont r); unfold between; lia).
  rewrite low6_cont_byte by apply low6_cont. rewrite (land_mod _ 5) by lia. f_equal.
  rewrite lor_shiftl by (lia || apply low6_cont). rewrite low6_mod.
  replace ((192 + r / 64) mod 2 ^ 5) with (r / 64) by (change (2 ^ 5) with 32; rewrite Z.mod_eq by lia;
    replace ((192 + r / 64) / 32) with 6 by (apply Z.div_unique with (r / 64); lia); lia).
  change (2 ^ 6) with 64. pose proof (Z.div_mod r 64). lia.
Qed.

Lemma decode_three :
  0x800 <= r < 0x10000 -> is_surrogate r = false ->
  DecodeRune ([Z.lor 0xE0 (Z.shiftr r 12); Z.lor 0x80 (low6 (Z.shiftr r 6)); Z.lor 0x80 (low6 r)] ++ rest)
  = (r, 3%nat).
Proof.
  intros H Hs. unfold is_surrogate, between in Hs. rewrite !shiftr_div by lia.
  change (2 ^ 6) with 64. change (2 ^ 12) with 4096.
  pose proof (Z.div_mod r 64 ltac:(lia)) as D1. pose proof (Z.div_mod (r / 64) 64 ltac:(lia)) as D2.
  rewrite Z.div_div in D2 by lia. change (64 * 64) with 4096 in D2.
  pose proof (low6_cont r) as L1. pose proof (low6_cont (r / 64)) as L2.
  rewrite <- low6_mod in D1, D2. set (x := r / 4096) in *. set (y := low6 (r / 64)) in *. set (z := low6 r) in *.
  assert (0 <= x < 16) as Hx by lia.
  rewrite lor_0xE0, !lor_0x80 by lia. cbn [app DecodeRune].
  replace (224 + x <? RuneSelf) with false by (unfold RuneSelf; lia).
  assert (exists lo hi, lead (224 + x) = Some (3%nat, lo, hi) /\ between lo hi (128 + y) = true) as (lo & hi & -> & ->).
  { destruct (decide (x = 0)) as [->|]; [do 2 eexists; split; [reflexivity|unfold between; lia]|].
    destruct (decide (x = 13)) as [E|]; [rewrite E; do 2 eexists; split; [reflexivity|unfold between; lia]|].
    exists 0x80, 0xBF. split; [lead_case; done|unfold between; lia]. }
  rewrite continuation_byte by lia. cbn [andb]. rewrite !low6_cont_byte by lia. rewrite (land_mod _ 4) by lia.
  replace ((224 + x) mod 2 ^ 4) with x by (change (2 ^ 4) with 16; rewrite Z.mod_eq by lia;
    replace ((224 + x) / 16) with 14 by (apply Z.div_unique with x; lia); lia).
  f_equal. replace (Z.lor (Z.shiftl x 12) (Z.shiftl y 6)) with (Z.shiftl (Z.lor (Z.shiftl x 6) y) 6)
    by (rewrite Z.shiftl_lor, Z.shiftl_shiftl by lia; done).
  rewrite !lor_shiftl by lia. change (2 ^ 6) with 64. lia.
Qed.

Lemma decode_four :
  0x10000 <= r <= 0x10FFFF ->
  DecodeRune ([Z.lor 0xF0 (Z.shiftr r 18); Z.lor 0x80 (low6 (Z.shiftr r 12));
     Z.lor 0x80 (low6 (Z.shiftr r 6)); Z.lor 0x80 (low6 r)] ++ rest) = (r, 4%nat).
Proof.
  intros H. rewrite !shiftr_div by lia.
  change (2 ^ 6) with 64. change (2 ^ 12) with 4096. change (2 ^ 18) with 262144.
  pose proof (Z.div_mod r 64 ltac:(lia)) as D1. pose proof (Z.div_mod (r / 64) 64 ltac:(lia)) as D2.
  pose proof (Z.div_mod (r / 4096) 64 ltac:(lia)) as D3.
  rewrite Z.div_div in D2, D3 by lia. change (64 * 64) with 4096 in D2. change (4096 * 64) with 262144 in D3.
  pose proof (low6_cont r) as L1. pose proof (low6_cont (r / 64)) as L2. pose proof (low6_cont (r / 4096)) as L3.
  rewrite <- low6_mod in D1, D2, D3.
  set (w := r / 262144) in *. set (x := low6 (r / 4096)) in *. set (y := low6 (r / 64)) in *. set (z := low6 r) in *.
  assert (0 <= w < 5) as Hw by lia.
  rewrite lor_0xF0, !lor_0x80 by lia. cbn [app DecodeRune].
  replace (240 + w <? RuneSelf) with false by (unfold RuneSelf; lia).
  assert (exists lo hi, lead (240 + w) = Some (4%nat, lo, hi) /\ between lo hi (128 + x) = true) as (lo & hi & -> & ->).
  { destruct (decide (w = 0)) as [->|]; [do 2 eexists; split; [reflexivity|unfold between; lia]|].
    destruct (decide (w = 4)) as [E|]; [rewrite E; do 2 eexists; split; [reflexivity|unfold between; lia]|].
    exists 0x80, 0xBF. split; [lead_case; done|unfold between; lia]. }
  rewrite !continuation_byte by lia. cbn [andb]. rewrite !low6_cont_byte by lia. rewrite (land_mod _ 3) by lia.
  replace ((240 + w) mod 2 ^ 3) with w by (change (2 ^ 3) with 8; rewrite Z.mod_eq by lia;
    replace ((240 + w) / 8) with 30 by (apply Z.div_unique with w; lia); lia).
  f_equal. replace (Z.lor (Z.lor (Z.shiftl w 18) (Z.shiftl x 12)) (Z.shiftl y 6))
    with (Z.shiftl (Z.lor (Z.shiftl (Z.lor (Z.shiftl w 6) x) 6) y) 6)
    by (rewrite !Z.shiftl_lor, !Z.shiftl_shiftl by lia; done).
  rewrite !lor_shiftl by lia. change (2 ^ 6) with 64. lia.
Qed.
End Roundtrip.

(** Encoding and decoding agree: the encoding of every valid rune is decoded
    back to that rune and to exactly the bytes it was written with, whatever
    follows, so text survives the terminal and the logs byte for byte. *)
Lemma DecodeRune_EncodeRune (r : Z) (rest : list Z) :
  valid_rune r = true -> DecodeRune (EncodeRune r ++ rest) = (r, length (EncodeRune r)).
Proof.
  intros Hr. unfold EncodeRune. rewrite Hr. unfold valid_rune in Hr. simplify_bool.
  destruct (Z.ltb_spec r 0x80) as [K1|K1];
    [|destruct (Z.ltb_spec r 0x800) as [K2|K2]; [by apply decode_two|
    destruct (Z.ltb_spec r 0x10000) as [K3|K3]; [by apply decode_three|by apply decode_four]]].
  cbn. unfold RuneSelf. by destruct (Z.ltb_spec r 128); [|lia].
Qed.
