(* ===== verification/Errors.v ===== *)
(** * Go error values

    The sentinel errors of [internal/domain/errors.go] and of the other packages
    modelled here, the error trees that [fmt.Errorf("%w")] and [errors.Join]
    build, and [errors.Is] / [errors.As] on them.  A Go [error] variable is an
    [option error]: [nil] is [None]. *)

From S2P Require Import Prelude.

(** ** Sentinels *)

Inductive domain_error : Type :=
| ErrInvalidStateTransition
| ErrTaskAlreadyTerminal
| ErrSessionNotResumable
| ErrTaskNotFound
| ErrPathLockConflict
| ErrPathLockInfraFailure
| ErrQueueFull
| ErrContractWriteFailed
| ErrOutputContractViolation
| ErrPTYAllocationFailed
| ErrChildProcessLaunchFailed.

Inductive sentinel : Type :=
| Domain (e : domain_error)
| FsErrNotExist
| IoErrUnexpectedEOF
| ContextCanceled
| ContextDeadlineExceeded
| ErrProcessSignalAuthorityInvalid
| ErrGitOutputTooLarge
| ErrPushArgvNotAllowed
| ErrCancelStateChanged
| PendingClaimed  (* recovery.ErrPendingClaimed *)
| ErrRecoveryAlreadyInFlight
| ErrRecoverySessionUnavailable
| ErrRecoveryResumeLaunchFailed
| ErrRecoveryOutputReadFailed
| OsErrClosed
| ErrBeforeEnter  (* proc.ErrBeforeEnter *)
| errSendStateChanged
| errSendPendingAppeared
| errExitSavePending
| ErrSessionNotFound
| ErrStopActive
| ErrNotFound  (* gitops.ErrNotFound *)
| ErrGitTimeout
| ErrGitUnavailable
| ErrVerifyBinaryChanged
| ErrVerifyTimeout
| errOwnedPathEscape
| ErrProjectNotFound
| ErrSessionAlreadyRunning  (* also usecase.ErrSessionAlreadyExists *)
| ErrSessionLimitReached
| ErrProjectCWDUnavailable
| ErrSpawnFailed  (* also usecase.ErrLaunchArgvInvalid *)
| ErrSessionIDProjectMismatch
| ErrBillingGuardFailed
| ErrMaxSessionsInvalid
| ErrPTYSizeInvalid.

(** The [syscall.Errno] values the code distinguishes; [EOTHER] is any other. *)
Inductive errno : Type :=
| ENOENT | EINTR | EAGAIN | EBUSY | EMFILE | ENFILE | ENOSPC | EIO | EOTHER (n : Z).

(** ** Error trees *)

#[warnings="-register-all"]
Inductive error : Type :=
| Sentinel (s : sentinel)
| Errno (n : errno)
| Errorf (format : string) (args : list string)
| Wrap (format : string) (causes : list error)
| exitCodeMismatchError (existing attempted : Z)
| TimeoutEnforcementError (stage : string) (Retryable : bool) (Cause : error)
| LivenessCheckError (taskID : string) (Err : error)
| cancelStateError (state : string) (cause : error)
| TransitionError (Code : string)
| OperatorInputError (Code Reason SendID : string)
| gitExitError (exit_code : Z).

#[export] Instance domain_error_eq_dec : EqDecision domain_error.
Proof. solve_decision. Defined.
#[export] Instance sentinel_eq_dec : EqDecision sentinel.
Proof. solve_decision. Defined.
#[export] Instance errno_eq_dec : EqDecision errno.
Proof. solve_decision. Defined.

Abbreviation res := (result error).
Abbreviation DErr e := (Sentinel (Domain e)).

(** [errors.Is(err, target)] for a sentinel target.  [syscall.ENOENT] answers
    to [fs.ErrNotExist] through its [Is] method. *)
Fixpoint errors_Is (err : error) (target : sentinel) : bool :=
  match err with
  | Sentinel s => bool_decide (s = target)
  | Errno ENOENT => bool_decide (target = FsErrNotExist)
  | Errno _ | Errorf _ _ | exitCodeMismatchError _ _ | TransitionError _
  | OperatorInputError _ _ _ | gitExitError _ => false
  | Wrap _ causes => existsb (fun e => errors_Is e target) causes
  | TimeoutEnforcementError _ _ cause => errors_Is cause target
  | LivenessCheckError _ cause | cancelStateError _ cause => errors_Is cause target
  end.

(** [errors.Is] of a possibly nil error. *)
Definition errors_Is_opt (err : option error) (target : sentinel) : bool :=
  match err with Some e => errors_Is e target | None => false end.

(** The first element of a depth-first walk that [f] accepts: [errors.As]. *)
Section As.
Context {A : Type} (f : error -> option A).

Fixpoint errors_As (err : error) : option A :=
  match f err with
  | Some a => Some a
  | None =>
      match err with
      | Wrap _ causes =>
          (fix walk (es : list error) : option A :=
             match es with
             | [] => None
             | e :: es' => match errors_As e with Some a => Some a | None => walk es' end
             end) causes
      | TimeoutEnforcementError _ _ cause => errors_As cause
      | LivenessCheckError _ cause | cancelStateError _ cause => errors_As cause
      | _ => None
      end
  end.
End As.

Definition as_errno (e : error) : option errno :=
  match e with Errno n => Some n | _ => None end.

(** [errors.Join] drops nil errors and is nil when nothing remains. *)
Definition errors_Join (errs : list (option error)) : option error :=
  match omap id errs with
  | [] => None
  | es => Some (Wrap "" es)
  end.

(** ** Lemmas *)

Lemma errors_Is_Wrap (format : string) (causes : list error) (s : sentinel) :
  errors_Is (Wrap format causes) s = true <-> exists e, e ∈ causes /\ errors_Is e s = true.
Proof. simpl. apply existsb_true. Qed.

Lemma errors_Is_Sentinel (s t : sentinel) : errors_Is (Sentinel s) t = true <-> s = t.
Proof. simpl. apply bool_decide_eq_true. Qed.

Lemma errors_Join_None (errs : list (option error)) :
  errors_Join errs = None <-> forall o, o ∈ errs -> o = None.
Proof.
  unfold errors_Join. induction errs as [|[e|] errs IH]; simpl.
  - split; [intros _ o Ho; by apply not_elem_of_nil in Ho|done].
  - split; [done|]. intros H. specialize (H (Some e)). by discriminate H; left.
  - rewrite IH. split; intros H o.
    + intros [->|Ho]%elem_of_cons; auto.
    + intros Ho. apply H. by right.
Qed.
