(* ===== verification/Domain.v ===== *)
(** * Value objects of [internal/domain]

    The enumerations, identifiers and small value objects that every other part
    of the daemon shares, with the validation their constructors perform. *)

From S2P Require Import Prelude.
From S2P Require Import GoStrings.
From S2P Require Import Errors.

(** ** Enumerations ([enums.go], [state.go])

    A Go string enumeration can hold any string: a snapshot read back from disk
    may carry a value outside the declared constants, and the zero value is the
    empty string.  Every such value is [...Other raw]; [raw] is not one of the
    declared strings. *)

Inductive TaskState : Type :=
| StateQueued
| StateStarting
| StateRunning
| StateStalled
| StateCompleted
| StateFailed
| StateTimeout
| StateRecovering
| StateRecovered
| StateTimeoutLost
| StateCancelling
| StateKilled
| StateAdopted
| StateOrphaned
| StateLost
| StateOther (raw : string).

Inductive Subcommand : Type :=
| SubcommandImpl
| SubcommandReview
| SubcommandPlan
| SubcommandResearch
| SubcommandRead
| SubcommandThink
| SubcommandStatus
| SubcommandLogs
| SubcommandCancel
| SubcommandDoctor
| SubcommandCleanup
| SubcommandStats
| SubcommandOther (raw : string).

Inductive ProtocolVerb : Type :=
| ProtocolVerbSubmit
| ProtocolVerbStatus
| ProtocolVerbCancel
| ProtocolVerbTail
| ProtocolVerbPing.

Inductive ExecutionRoute : Type :=
| ExecutionRouteDaemon
| ExecutionRouteLegacy
| ExecutionRouteOther (raw : string).

Inductive ExitCodeClass : Type :=
| ExitCodeClassSuccess
| ExitCodeClassFailure
| ExitCodeClassTimeout
| ExitCodeClassCancelled.

Inductive RecoveryOrigin : Type :=
| RecoveryOriginTimeout
| RecoveryOriginOrphan
| RecoveryOriginOther (raw : string).

Inductive FailReason : Type :=
| ReasonNoOutput
| ReasonAbnormalExit.

Inductive WorktreeMode : Type :=
| WorktreeModeAuto
| WorktreeModeCurrent
| WorktreeModeOther (raw : string).

#[export] Instance TaskState_eq_dec : EqDecision TaskState.
Proof. solve_decision. Defined.
#[export] Instance Subcommand_eq_dec : EqDecision Subcommand.
Proof. solve_decision. Defined.
#[export] Instance ExecutionRoute_eq_dec : EqDecision ExecutionRoute.
Proof. solve_decision. Defined.
#[export] Instance ExitCodeClass_eq_dec : EqDecision ExitCodeClass.
Proof. solve_decision. Defined.
#[export] Instance RecoveryOrigin_eq_dec : EqDecision RecoveryOrigin.
Proof. solve_decision. Defined.
#[export] Instance WorktreeMode_eq_dec : EqDecision WorktreeMode.
Proof. solve_decision. Defined.

(** The strings the constants stand for. *)
Definition TaskState_string (s : TaskState) : string :=
  match s with
  | StateQueued => "queued"
  | StateStarting => "starting"
  | StateRunning => "running"
  | StateStalled => "stalled"
  | StateCompleted => "completed"
  | StateFailed => "failed"
  | StateTimeout => "timeout"
  | StateRecovering => "recovering"
  | StateRecovered => "recovered"
  | StateTimeoutLost => "timeout-lost"
  | StateCancelling => "cancelling"
  | StateKilled => "killed"
  | StateAdopted => "adopted"
  | StateOrphaned => "orphaned"
  | StateLost => "lost"
  | StateOther raw => raw
  end.

Definition Subcommand_string (s : Subcommand) : string :=
  match s with
  | SubcommandImpl => "impl"
  | SubcommandReview => "review"
  | SubcommandPlan => "plan"
  | SubcommandResearch => "research"
  | SubcommandRead => "read"
  | SubcommandThink => "think"
  | SubcommandStatus => "status"
  | SubcommandLogs => "logs"
  | SubcommandCancel => "cancel"
  | SubcommandDoctor => "doctor"
  | SubcommandCleanup => "cleanup"
  | SubcommandStats => "stats"
  | SubcommandOther raw => raw
  end.

Definition all_TaskStates : list TaskState :=
  [StateQueued; StateStarting; StateRunning; StateStalled; StateCompleted; StateFailed;
   StateTimeout; StateRecovering; StateRecovered; StateTimeoutLost; StateCancelling;
   StateKilled; StateAdopted; StateOrphaned; StateLost].

(** Reading a persisted state back: the constant with that string, if any. *)
Definition TaskState_of_string (raw : string) : TaskState :=
  match list_find (fun s => TaskState_string s = raw) all_TaskStates with
  | Some (_, s) => s
  | None => StateOther raw
  end.

(** [terminal] and [IsTerminal]. *)
Definition terminal (s : TaskState) : bool :=
  match s with
  | StateCompleted | StateFailed | StateRecovered | StateTimeoutLost | StateKilled | StateLost => true
  | _ => false
  end.

(** [isKnownTaskState] of [tasksnapshot.go]. *)
Definition isKnownTaskState (s : TaskState) : bool :=
  match s with
  | StateQueued | StateStarting | StateRunning | StateStalled | StateCompleted | StateFailed
  | StateTimeout | StateRecovering | StateRecovered | StateTimeoutLost | StateCancelling
  | StateKilled | StateAdopted | StateOrphaned | StateLost => true
  | StateOther _ => false
  end.

Definition IsSubmittable (s : Subcommand) : bool :=
  match s with
  | SubcommandImpl | SubcommandReview | SubcommandPlan
  | SubcommandResearch | SubcommandRead | SubcommandThink => true
  | _ => false
  end.

Definition SupportsOutputSchema (s : Subcommand) : bool :=
  match s with SubcommandReview | SubcommandResearch => true | _ => false end.

Definition IsValidSandboxMode (mode : string) : bool :=
  (mode =? "read-only")%string || (mode =? "workspace-write")%string.

Definition ParseWorktreeMode (value : string) : res WorktreeMode :=
  if (value =? "auto")%string then Ok WorktreeModeAuto
  else if (value =? "current")%string then Ok WorktreeModeCurrent
  else Err (Errorf "invalid worktree mode" []).

(** ** Exit codes ([exitcode.go]) *)

Record ExitCode : Type := mkExitCode { ec_raw : Z; ec_class : ExitCodeClass }.

#[export] Instance ExitCode_eq_dec : EqDecision ExitCode.
Proof. solve_decision. Defined.

Definition NewExitCode (raw : Z) : ExitCode :=
  mkExitCode raw
    (if raw =? 0 then ExitCodeClassSuccess
     else if (raw =? 6) || (raw =? 124) || (raw =? 137) then ExitCodeClassTimeout
     else if raw =? 130 then ExitCodeClassCancelled
     else ExitCodeClassFailure).

Definition is_slug_char (c : ascii) : bool := is_lower c || is_digit c.

(** ** Slugs ([slug.go])

    [^[a-z0-9]+(-[a-z0-9]+)*$]: dash-separated, non-empty runs of lower-case
    letters and digits. *)

Abbreviation Slug := string (only parsing).

Definition slugMaxLength : nat := 40.

Definition slug_run (part : string) : bool := negb (part =? "")%string && str_forall is_slug_char part.

Definition slugPattern (value : string) : bool := forallb slug_run (Split value "-").

Definition NewSlug (value : string) : res Slug :=
  if (String.length value =? 0)%nat || (slugMaxLength <? String.length value)%nat || negb (slugPattern value)
  then Err (Errorf "invalid slug" [])
  else Ok value.

(** ** Task identifiers ([id.go])

    [^(impl|review|plan|research|read|think)-([0-9]{8})-([0-9]{6})-([0-9a-f]{4})-(slug)$].
    No group but the last can contain a dash, so the groups are the first four
    dash-separated fields and the rest. *)

Abbreviation TaskID := string (only parsing).

Record taskIDMatch : Type := mkTaskIDMatch {
  m_subcommand : string; m_date : string; m_time : string; m_hex : string; m_slug : string }.

Definition fixed_run (p : ascii -> bool) (n : nat) (part : string) : bool :=
  (String.length part =? n)%nat && str_forall p part.

Definition taskIDPattern (value : string) : option taskIDMatch :=
  match Split value "-" with
  | sub :: date :: hms :: hex :: rest =>
      let slug := Join rest "-" in
      if existsb (String.eqb sub) ["impl"; "review"; "plan"; "research"; "read"; "think"]
         && fixed_run is_digit 8 date && fixed_run is_digit 6 hms
         && fixed_run is_lower_hex 4 hex
         && negb (bool_decide (rest = [])) && forallb slug_run rest
      then Some (mkTaskIDMatch sub date hms hex slug)
      else None
  | _ => None
  end.

(** [time.Parse("20060102 150405", date + " " + hms)] on digit strings of the
    right lengths: it fails exactly when a field is out of range. *)
Definition is_leap (year : Z) : bool :=
  (year mod 4 =? 0) && (negb (year mod 100 =? 0) || (year mod 400 =? 0)).

Definition days_in (month year : Z) : Z :=
  if month =? 2 then (if is_leap year then 29 else 28)
  else if (month =? 4) || (month =? 6) || (month =? 9) || (month =? 11) then 30 else 31.

Definition valid_timestamp (date hms : string) : bool :=
  let year := decimal (String.substring 0 4 date) in
  let month := decimal (String.substring 4 2 date) in
  let day := decimal (String.substring 6 2 date) in
  let hour := decimal (String.substring 0 2 hms) in
  let minute := decimal (String.substring 2 2 hms) in
  let second := decimal (String.substring 4 2 hms) in
  (1 <=? month) && (month <=? 12) && (1 <=? day) && (day <=? days_in month year)
  && (hour <? 24) && (minute <? 60) && (second <? 60).

Definition NewTaskID (value : string) : res TaskID :=
  match taskIDPattern value with
  | None => Err (Errorf "invalid task id" [])
  | Some m =>
      if negb (valid_timestamp (m_date m) (m_time m))
      then Err (Wrap "invalid task id: %w" [Errorf "parsing time" [m_date m; m_time m]])
      else match NewSlug (m_slug m) with
           | Err e => Err e
           | Ok _ => Ok value
           end
  end.

(** ** Session references ([id.go]) *)

Record SessionRef : Type := mkSessionRef {
  sr_sessionID : string; sr_capturedAt : Time; sr_ephemeral : bool }.

#[export] Instance SessionRef_eq_dec : EqDecision SessionRef.
Proof. solve_decision. Defined.

(** [^[0-9a-fA-F]{8}-[0-9a-fA-F]{4}-[0-9a-fA-F]{4}-[0-9a-fA-F]{4}-[0-9a-fA-F]{12}$] *)
Definition uuidPattern (id : string) : bool :=
  match Split id "-" with
  | [a; b; c; d; e] =>
      fixed_run is_hex 8 a && fixed_run is_hex 4 b && fixed_run is_hex 4 c
      && fixed_run is_hex 4 d && fixed_run is_hex 12 e
  | _ => false
  end.

Definition NewSessionRef (id : string) (at_ : Time) (ephemeral : bool) : res SessionRef :=
  if negb (uuidPattern id) || IsZero at_ || ephemeral
  then Err (Errorf "invalid session reference" [])
  else Ok (mkSessionRef id at_ false).

(** ** Process start times ([processstarttime.go]) *)

Record ProcessStartTime : Type := mkProcessStartTime { ps_pid : Z; ps_startedAt : Time }.

#[export] Instance ProcessStartTime_eq_dec : EqDecision ProcessStartTime.
Proof. solve_decision. Defined.

Definition NewProcessStartTime (pid : Z) (at_ : Time) : res ProcessStartTime :=
  if (pid <=? 0) || IsZero at_
  then Err (Errorf "invalid process start time" [])
  else Ok (mkProcessStartTime pid at_).

(** ** Timeouts ([timeout.go]) *)

Definition timeoutMinSeconds : Z := 1800.

Record Timeout : Type := mkTimeout { to_requestedSeconds : option Z; to_resolvedSeconds : Z }.

#[export] Instance Timeout_eq_dec : EqDecision Timeout.
Proof. solve_decision. Defined.

(** The zero [Timeout{}] of a task that has not started. *)
Definition zeroTimeout : Timeout := mkTimeout None 0.

Definition NewTimeout (requested : option Z) (resolved : Z) : res Timeout :=
  if (resolved <? timeoutMinSeconds)
     || match requested with Some r => r <? timeoutMinSeconds | None => false end
  then Err (Errorf "invalid timeout" [])
  else Ok (mkTimeout requested resolved).

Definition ResolveTimeout (requested : option Z) : res Timeout :=
  match requested with
  | None => NewTimeout None timeoutMinSeconds
  | Some r => NewTimeout requested r
  end.

(** ** Normalized paths ([normalizedpath.go]) *)

Abbreviation NormalizedPath := string (only parsing).

Definition last_char_is (c : ascii) (s : string) : bool :=
  match String.get (String.length s - 1) s with Some d => Ascii.eqb c d | None => false end.

Definition NewNormalizedPath (value : string) : res NormalizedPath :=
  if (value =? "")%string || negb (IsAbs value) || negb (Clean value =? value)%string
     || (negb (value =? "/")%string && last_char_is "/" value)
  then Err (Errorf "invalid normalized path" [])
  else Ok value.

(** ** Domain events ([event.go]) *)

Inductive Event : Type :=
| TaskQueued (TaskID_ : TaskID) (Subcommand_ : Subcommand) (Slug_ : Slug)
    (RequestedTimeoutSeconds : option Z) (QueuePosition : Z) (OccurredAt : Time)
| TaskStarted (TaskID_ : TaskID) (ProcessStartTime_ : ProcessStartTime)
    (ResolvedTimeoutSeconds : Z) (Model : string) (ExecutionRoute_ : ExecutionRoute)
    (OccurredAt : Time)
| TaskEventObserved (TaskID_ : TaskID) (JSONEventType : string) (ObservedAt : Time)
| TaskStalled (TaskID_ : TaskID) (LastEventAt : option Time) (GapSeconds : Z) (OccurredAt : Time)
| TaskExited (TaskID_ : TaskID) (ExitCode_ : ExitCode)
    (LastMessagePresent Estimated AdoptedAfterRestart : bool) (OccurredAt : Time)
| TaskCompleted (TaskID_ : TaskID) (ExitCode_ : ExitCode) (OccurredAt : Time)
| TaskFailed (TaskID_ : TaskID) (ExitCode_ : ExitCode) (Reason : FailReason) (OccurredAt : Time)
| TaskTimedOut (TaskID_ : TaskID) (ResolvedTimeoutSeconds : Z) (SessionRef_ : option SessionRef)
    (OccurredAt : Time)
| RecoveryAttempted (TaskID_ : TaskID) (Origin : RecoveryOrigin) (SessionRef_ : option SessionRef)
    (OccurredAt : Time)
| RecoverySucceeded (TaskID_ : TaskID) (ExitCode_ : ExitCode) (OccurredAt : Time)
| RecoveryFailed (TaskID_ : TaskID) (Origin : RecoveryOrigin) (PartialOutputSaved : bool)
    (OccurredAt : Time)
| TaskAdopted (TaskID_ : TaskID) (LockAcquiredOnRestart : bool) (OccurredAt : Time)
| TaskOrphanDetected (TaskID_ : TaskID) (DetectedDuring : string) (OccurredAt : Time)
| TaskCancelRequested (TaskID_ : TaskID) (RequestedVia : ProtocolVerb) (Force : bool)
    (OccurredAt : Time)
| TaskKilled (TaskID_ : TaskID) (ExitCode_ : ExitCode) (Estimated : bool) (OccurredAt : Time).

(** The [Type()] method. *)
Definition Event_Type (e : Event) : string :=
  match e with
  | TaskQueued _ _ _ _ _ _ => "TaskQueued"
  | TaskStarted _ _ _ _ _ _ => "TaskStarted"
  | TaskEventObserved _ _ _ => "TaskEventObserved"
  | TaskStalled _ _ _ _ => "TaskStalled"
  | TaskExited _ _ _ _ _ _ => "TaskExited"
  | TaskCompleted _ _ _ => "TaskCompleted"
  | TaskFailed _ _ _ _ => "TaskFailed"
  | TaskTimedOut _ _ _ _ => "TaskTimedOut"
  | RecoveryAttempted _ _ _ _ => "RecoveryAttempted"
  | RecoverySucceeded _ _ _ => "RecoverySucceeded"
  | RecoveryFailed _ _ _ _ => "RecoveryFailed"
  | TaskAdopted _ _ _ => "TaskAdopted"
  | TaskOrphanDetected _ _ _ => "TaskOrphanDetected"
  | TaskCancelRequested _ _ _ _ => "TaskCancelRequested"
  | TaskKilled _ _ _ _ => "TaskKilled"
  end.

(** ** Lemmas *)

Lemma TaskState_string_round (s : TaskState) :
  (forall raw, s <> StateOther raw) -> TaskState_of_string (TaskState_string s) = s.
Proof. intros H. destruct s; try reflexivity. by destruct (H raw). Qed.

Lemma NewSlug_ok (value s : string) :
  NewSlug value = Ok s -> s = value /\ (0 < String.length value <= slugMaxLength)%nat /\ slugPattern value = true.
Proof.
  unfold NewSlug. intros H. case_match eqn:E; simplify_eq. simplify_bool.
  apply Nat.eqb_neq in H. apply Nat.ltb_ge in H1. repeat split; [lia|lia|done].
Qed.

Lemma slug_run_lacks (part : string) (c : ascii) :
  is_slug_char c = false -> slug_run part = true -> lacks c part = true.
Proof.
  unfold slug_run, lacks, str_forall. intros Hc H. simplify_bool.
  rewrite forallb_true in H0 |- *. intros x Hx. specialize (H0 x Hx).
  apply negb_true_iff, Ascii.eqb_neq. intros ->. congruence.
Qed.

(** The captured groups, joined by dashes, are the whole identifier. *)
Lemma taskIDPattern_ok (value : string) (m : taskIDMatch) :
  taskIDPattern value = Some m ->
  exists rest, rest <> [] /\ forallb slug_run rest = true /\ m_slug m = Join rest "-"
    /\ Split value "-" = m_subcommand m :: m_date m :: m_time m :: m_hex m :: rest
    /\ existsb (String.eqb (m_subcommand m)) ["impl"; "review"; "plan"; "research"; "read"; "think"] = true
    /\ fixed_run is_digit 8 (m_date m) = true /\ fixed_run is_digit 6 (m_time m) = true
    /\ fixed_run is_lower_hex 4 (m_hex m) = true.
Proof.
  unfold taskIDPattern. intros H. destruct_matches. simplify_bool. simpl.
  eexists. repeat split; eauto.
Qed.

Lemma slugPattern_Join (rest : list string) :
  rest <> [] -> forallb slug_run rest = true -> slugPattern (Join rest "-") = true.
Proof.
  intros Hne H. unfold slugPattern.
  rewrite (Split_Join rest "-"); [done|done|].
  rewrite forallb_true in H |- *. intros x Hx. apply slug_run_lacks; auto.
Qed.

Lemma char_in_lacks (p : ascii -> bool) (n : nat) (part : string) (c : ascii) :
  p c = false -> fixed_run p n part = true -> lacks c part = true.
Proof.
  unfold fixed_run, lacks, str_forall. intros Hc H. simplify_bool.
  rewrite forallb_true in H0 |- *. intros x Hx. specialize (H0 x Hx).
  apply negb_true_iff, Ascii.eqb_neq. intros ->. congruence.
Qed.

Lemma lacks_app (c : ascii) (s t : string) :
  lacks c (String.append s t) = lacks c s && lacks c t.
Proof. unfold lacks, str_forall. by rewrite chars_append, forallb_app. Qed.

Lemma lacks_Join (c sep : ascii) (parts : list string) :
  c <> sep -> forallb (lacks c) parts = true -> lacks c (Join parts (String.String sep String.EmptyString)) = true.
Proof.
  intros Hne. unfold lacks, str_forall, Join. rewrite chars_of_chars.
  change (chars (String.String sep String.EmptyString)) with [sep].
  induction parts as [|p ps IH]; intros H; [done|]. simpl in H. apply andb_true_iff in H as [Hp Hps].
  destruct ps as [|q qs]; [done|]. simpl map. rewrite intercalate_cons by done.
  rewrite !forallb_app. simpl forallb at 2. rewrite Hp, (proj2 (Ascii.eqb_neq _ _) Hne). simpl.
  by apply IH.
Qed.

(** *** Properties *)

(** A task identifier becomes a directory name under the state root.  Whatever
    [NewTaskID] accepts is the input itself, is a single path element (no slash,
    so it can leave no directory), starts with a submittable subcommand and ends
    in a slug that [NewSlug] accepts, with the dash-separated fields fixing
    everything in between. *)
Lemma NewTaskID_safe (value v : string) :
  NewTaskID value = Ok v ->
  v = value /\ lacks "/" v = true /\ plain_part v = true
  /\ exists sub date hms hex slug,
       taskIDPattern v = Some (mkTaskIDMatch sub date hms hex slug)
       /\ v = Join [sub; date; hms; hex; slug] "-"
       /\ NewSlug slug = Ok slug /\ valid_timestamp date hms = true.
Proof.
  unfold NewTaskID. destruct (taskIDPattern value) as [m|] eqn:Em; [|done].
  case_match eqn:Et; [done|]. case_match eqn:Es; [|done]. intros [= <-].
  pose proof Es as (-> & _ & _)%NewSlug_ok.
  apply taskIDPattern_ok in Em as H.
  destruct H as (rest & Hne & Hrest & Hslug & Hsplit & Hsub & Hd & Hh & Hx).
  pose proof (Join_Split value "-") as Hv. rewrite Hsplit in Hv.
  assert (Hlacks : lacks "/" value = true).
  { rewrite <- Hv. apply lacks_Join; [done|]. cbn [forallb]. repeat (apply andb_true_intro; split).
    - apply existsb_true in Hsub as (x & Hin & ->%String.eqb_eq).
      revert x Hin. by apply forallb_true.
    - by apply (char_in_lacks is_digit 8).
    - by apply (char_in_lacks is_digit 6).
    - by apply (char_in_lacks is_lower_hex 4).
    - rewrite forallb_true in Hrest |- *. intros x Hin. apply slug_run_lacks; auto. }
  repeat split; [done| |].
  - unfold plain_part. rewrite Hlacks, andb_true_r. repeat (apply andb_true_intro; split);
      apply negb_true_iff, String.eqb_neq; intros ->; discriminate Hsplit.
  - destruct m as [sub date hms hex slug]; simpl in *. exists sub, date, hms, hex, slug.
    repeat split; [done| |done|by apply negb_false_iff].
    rewrite <- Hv. rewrite !(Join_cons sub), !(Join_cons date), !(Join_cons hms), !(Join_cons hex) by done.
    by rewrite Join_one, Hslug.
Qed.

Lemma chars_lacks_last (part : string) : plain_part part = true ->
  exists l c, chars part = l ++ [c] /\ c <> "/"%char.
Proof.
  unfold plain_part. intros H. simplify_bool.
  destruct (chars part) as [|x l] eqn:E using rev_ind; [destruct part; done|].
  exists l, x. split; [done|]. intros ->. unfold lacks, str_forall in H0. rewrite E, forallb_app in H0.
  simplify_bool. done.
Qed.

Lemma get_last (s : string) (l : list ascii) (c : ascii) :
  chars s = l ++ [c] -> String.get (String.length s - 1) s = Some c.
Proof.
  intros H. rewrite <- length_chars, H, length_app. simpl.
  replace (length l + 1 - 1)%nat with (length l) by lia.
  revert s H. induction l as [|x l IH]; intros [|d s] H; simplify_eq/=; [done|]. by apply IH.
Qed.

Lemma Join_last (parts : list string) (l : list ascii) (c : ascii) (part : string) :
  chars part = l ++ [c] ->
  exists l', chars (Join (parts ++ [part]) "/") = l' ++ [c].
Proof.
  intros H. induction parts as [|p ps [l' IH]].
  - exists l. simpl. by rewrite Join_one.
  - exists (chars p ++ "/"%char :: l'). simpl app. rewrite Join_cons by (by destruct ps).
    rewrite !chars_append, IH. simpl. by rewrite <- app_assoc.
Qed.

Lemma NewTaskID_safe_witness :
  "impl-20260924-120000-0af9-fix"%string = "impl-20260924-120000-0af9-fix"%string
  /\ lacks "/" "impl-20260924-120000-0af9-fix" = true /\ plain_part "impl-20260924-120000-0af9-fix" = true
  /\ exists sub date hms hex slug,
       taskIDPattern "impl-20260924-120000-0af9-fix" = Some (mkTaskIDMatch sub date hms hex slug)
       /\ "impl-20260924-120000-0af9-fix"%string = Join [sub; date; hms; hex; slug] "-"
       /\ NewSlug slug = Ok slug /\ valid_timestamp date hms = true.
Proof. exact (NewTaskID_safe "impl-20260924-120000-0af9-fix" "impl-20260924-120000-0af9-fix" eq_refl). Defined.

(** [NewNormalizedPath] accepts exactly the canonical absolute paths: the root,
    or a slash followed by slash-separated elements none of which is empty, [.]
    or [..].  In particular the lexical cleaning of any absolute path is
    accepted, and nothing that could climb out of a directory is. *)
Theorem NewNormalizedPath_canonical (value p : string) :
  NewNormalizedPath value = Ok p <->
  p = value /\ exists parts, value = abs_path parts /\ forallb plain_part parts = true.
Proof.
  unfold NewNormalizedPath. split.
  - intros H. case_match eqn:E; simplify_eq. simplify_bool. split; [done|].
    destruct (Clean_abs p) as (parts & Hc & Hp); [done|]. exists parts. split; [congruence|done].
  - intros (-> & parts & -> & Hp).
    rewrite (proj2 (String.eqb_neq _ _)) by done.
    rewrite (Clean_abs_path parts Hp), String.eqb_refl. change (IsAbs (abs_path parts)) with true. cbn [orb negb].
    destruct (String.eqb_spec (abs_path parts) "/") as [E|E]; [by rewrite E|]. cbn [andb negb].
    destruct parts as [|part parts _] using rev_ind; [done|].
    rewrite forallb_app in Hp. simpl in Hp. simplify_bool.
    destruct (chars_lacks_last part) as (l & c & Hl & Hc); [done|].
    destruct (Join_last parts l c part Hl) as [l' Hl'].
    unfold last_char_is. rewrite (get_last _ ("/"%char :: l') c) by (simpl; by f_equal).
    by rewrite (proj2 (Ascii.eqb_neq _ _)).
Qed.
