(* ===== verification/TaskPaths.v ===== *)
(** * Paths of a task's files ([internal/store/taskpaths.go])

    Every file of a task lies in the task's directory under the state root. *)

From S2P Require Import Prelude.
From S2P Require Import GoStrings.
From S2P Require Import Errors.
From S2P Require Import Domain.

(** [filepath.Join] on Unix: the elements from the first non-empty one on, cleaned. *)
Fixpoint filepath_Join (elem : list string) : string :=
  match elem with
  | [] => ""
  | e :: elem' => if (e =? "")%string then filepath_Join elem' else Clean (Join elem "/")
  end.

Definition errZeroTaskID : error := Errorf "task id is zero value" [].

(** [taskPaths{root}], a struct of one string. *)
Abbreviation taskPaths := string (only parsing).

Definition newTaskPaths (root : string) (id : TaskID) : res taskPaths :=
  if (id =? "")%string then Err errZeroTaskID else Ok (filepath_Join [root; id]).

(** The methods that name a file of the task. *)
Inductive taskFile : Type :=
| taskJSON | eventsJSONL | promptMD | lastMessageMD | outputSchemaJSON | exitCode | stdoutLog | stderrLog
| partialOutputMD | recoveredAfterTimeout | adoptedAfterRestart.

#[export] Instance taskFile_eq_dec : EqDecision taskFile.
Proof. solve_decision. Defined.

Definition file_name (f : taskFile) : string :=
  match f with
  | taskJSON => "task.json"
  | eventsJSONL => "events.jsonl"
  | promptMD => "prompt.md"
  | lastMessageMD => "last-message.md"
  | outputSchemaJSON => "output-schema.json"
  | exitCode => "exit-code"
  | stdoutLog => "stdout.log"
  | stderrLog => "stderr.log"
  | partialOutputMD => "partial-output.md"
  | recoveredAfterTimeout => "recovered-after-timeout"
  | adoptedAfterRestart => "adopted-after-restart"
  end.

Definition path_of (f : taskFile) (p : taskPaths) : string := filepath_Join [p; file_name f].

Definition taskPath (r : string) (id : TaskID) (g : taskPaths -> string) : res string :=
  p ← newTaskPaths r id; Ok (g p).

Definition EventsJSONLPath (r : string) (id : TaskID) : res string := taskPath r id (path_of eventsJSONL).
Definition PromptMDPath (r : string) (id : TaskID) : res string := taskPath r id (path_of promptMD).
Definition LastMessageMDPath (r : string) (id : TaskID) : res string := taskPath r id (path_of lastMessageMD).
Definition LastMessageMDPathInTaskDir (taskDirPath : string) : string := path_of lastMessageMD taskDirPath.
Definition OutputSchemaPath (r : string) (id : TaskID) : res string := taskPath r id (path_of outputSchemaJSON).
Definition ExitCodePath (r : string) (id : TaskID) : res string := taskPath r id (path_of exitCode).
Definition StdoutLogPath (r : string) (id : TaskID) : res string := taskPath r id (path_of stdoutLog).
Definition StderrLogPath (r : string) (id : TaskID) : res string := taskPath r id (path_of stderrLog).
Definition PartialOutputMDPath (r : string) (id : TaskID) : res string := taskPath r id (path_of partialOutputMD).
Definition RecoveredAfterTimeoutPath (r : string) (id : TaskID) : res string := taskPath r id (path_of recoveredAfterTimeout).
Definition AdoptedAfterRestartPath (r : string) (id : TaskID) : res string := taskPath r id (path_of adoptedAfterRestart).

(** ** Lemmas *)

Lemma Join_snoc (ps : list string) (x sep : string) :
  ps <> [] -> Join (ps ++ [x]) sep = String.append (Join ps sep) (String.append sep x).
Proof.
  intros Hne. induction ps as [|p ps IH]; [done|]. cbn [app]. rewrite Join_cons by (by destruct ps).
  destruct (decide (ps = [])) as [->|Hps]; [cbn [app]; by rewrite !Join_one|]. rewrite IH, (Join_cons p) by done.
  apply chars_inj. by rewrite !chars_append, !app_assoc.
Qed.

(** Joining an element to a canonical absolute path. *)
Lemma Join_child (parts : list string) (x : string) :
  forallb plain_part parts = true -> plain_part x = true ->
  filepath_Join [abs_path parts; x] = abs_path (parts ++ [x]).
Proof.
  intros Hp Hx. assert (forallb plain_part (parts ++ [x]) = true) as Hall by (rewrite forallb_app, Hp; cbn [forallb]; by rewrite Hx).
  cbn [filepath_Join]. change (abs_path parts =? "")%string with false. cbv iota.
  rewrite <- (Clean_abs_path _ Hall). destruct (decide (parts = [])) as [->|Hne].
  - cbn [app]. unfold plain_part in Hx. simplify_bool.
    rewrite Join_cons, Join_one by done. unfold abs_path. rewrite Join_one. done.
  - f_equal. unfold abs_path. rewrite Join_snoc, Join_cons, Join_one by done.
    apply chars_inj. by rewrite !chars_append.
Qed.

Lemma file_name_plain f : plain_part (file_name f) = true.
Proof. by destruct f. Qed.

Lemma file_name_inj f g : file_name f = file_name g -> f = g.
Proof. by destruct f, g. Qed.

Lemma abs_path_inj (ps qs : list string) :
  ps <> [] -> qs <> [] -> forallb plain_part ps = true -> forallb plain_part qs = true ->
  abs_path ps = abs_path qs -> ps = qs.
Proof.
  intros Hp Hq Pp Pq E. apply plain_part_lacks in Pp, Pq.
  pose proof (Split_abs_path ps Hp Pp) as E1. pose proof (Split_abs_path qs Hq Pq) as E2. congruence.
Qed.

(** ** Theorem *)

(** Task files do not escape and do not collide.  Under a normalised state root, a
    file of a task with an accepted identifier is exactly root, identifier, file
    name; and two such paths are equal only for the same task and the same file. *)
Theorem task_files_apart (root : string) (parts : list string) (id id' : TaskID) (f f' : taskFile) :
  root = abs_path parts -> forallb plain_part parts = true ->
  NewTaskID id = Ok id -> NewTaskID id' = Ok id' ->
  taskPath root id (path_of f) = Ok (abs_path (parts ++ [id; file_name f]))
  /\ (taskPath root id (path_of f) = taskPath root id' (path_of f') -> id = id' /\ f = f').
Proof.
  intros -> Hp Hid Hid'.
  assert (forall i g, NewTaskID i = Ok i ->
    taskPath (abs_path parts) i (path_of g) = Ok (abs_path (parts ++ [i; file_name g]))
    /\ forallb plain_part (parts ++ [i; file_name g]) = true) as Hpath.
  { intros i g Hi. pose proof (NewTaskID_safe _ _ Hi) as (_ & _ & Hpl & _).
    assert (forallb plain_part (parts ++ [i]) = true) as H1 by (rewrite forallb_app, Hp; cbn [forallb]; by rewrite Hpl).
    split; [|rewrite forallb_app, Hp; cbn [forallb]; by rewrite Hpl, file_name_plain].
    unfold taskPath, newTaskPaths. destruct (String.eqb_spec i "") as [->|_]; [done|]. unfold_monads.
    unfold path_of. rewrite (Join_child parts i Hp Hpl), (Join_child _ _ H1 (file_name_plain g)).
    by rewrite <- app_assoc. }
  destruct (Hpath id f Hid) as [E1 P1]. destruct (Hpath id' f' Hid') as [E2 P2]. split; [done|].
  rewrite E1, E2. intros E. assert (abs_path (parts ++ [id; file_name f]) = abs_path (parts ++ [id'; file_name f'])) as E' by congruence.
  apply abs_path_inj in E'; [|by destruct parts..|done|done]. clear E. rename E' into E.
  apply app_inv_head in E. injection E as -> E%file_name_inj. done.
Qed.

Lemma task_files_apart_witness :
  taskPath "/state" "impl-20260924-120000-0af9-fix" (path_of exitCode)
    = Ok (abs_path (["state"%string] ++ ["impl-20260924-120000-0af9-fix"%string; file_name exitCode]))
  /\ (taskPath "/state" "impl-20260924-120000-0af9-fix" (path_of exitCode)
       = taskPath "/state" "review-20260924-120000-0af9-x" (path_of taskJSON) ->
      "impl-20260924-120000-0af9-fix"%string = "review-20260924-120000-0af9-x"%string /\ exitCode = taskJSON).
Proof.
  exact (task_files_apart "/state" ["state"%string] "impl-20260924-120000-0af9-fix" "review-20260924-120000-0af9-x"
           exitCode taskJSON eq_refl eq_refl eq_refl eq_refl).
Defined.
