(* ===== verification/Task.v ===== *)
(** * The Task aggregate ([internal/domain/task.go])

    One [Task] is the in-memory state machine of a submitted command.  Every
    method is a computation over the receiver: it returns the new task and
    either the domain events it emits or an error, and a failing method returns
    whatever it had already written.  The second half proves the state machine's
    contract: failing methods write nothing, terminal states absorb, and the
    life cycle only moves forward. *)

From S2P Require Import Prelude.
From S2P Require Import GoStrings.
From S2P Require Import Errors.
From S2P Require Import Domain.

(** ** Data *)

Record Task : Type := mkTask {
  t_id : TaskID;
  t_subcommand : Subcommand;
  t_slug : Slug;
  t_requestedTimeout : option Z;
  t_requestedAt : Time;
  t_state : TaskState;
  t_queuePosition : Z;
  t_timeout : Timeout;
  t_model : string;
  t_processStartTime : option ProcessStartTime;
  t_lastEventAt : Time;
  t_sessionRef : option SessionRef;
  t_recoveryOrigin : RecoveryOrigin;
  t_adoptedAfterRestart : bool;
  t_exitCode : option ExitCode }.

#[export] Instance Task_settable : Settable Task := fun t =>
  mkTask (t_id t) (t_subcommand t) (t_slug t) (t_requestedTimeout t) (t_requestedAt t)
    (t_state t) (t_queuePosition t) (t_timeout t) (t_model t) (t_processStartTime t)
    (t_lastEventAt t) (t_sessionRef t) (t_recoveryOrigin t) (t_adoptedAfterRestart t)
    (t_exitCode t).

(** The zero value of [recoveryOrigin], the empty string. *)
Definition noOrigin : RecoveryOrigin := RecoveryOriginOther "".

(** The event names that label the columns of the transition table. *)
Inductive TransitionEvent : Type :=
| eventTaskQueued
| eventTaskStarted
| eventTaskEventObserved
| eventTaskStalled
| eventTaskExited
| eventTaskTimedOut
| eventRecoveryAttempted
| eventRecoverySucceeded
| eventRecoveryFailed
| eventTaskAdopted
| eventTaskOrphanDetected
| eventTaskCancelRequested
| eventTaskKilled.

#[export] Instance TransitionEvent_eq_dec : EqDecision TransitionEvent.
Proof. solve_decision. Defined.

(** ** Methods *)

Abbreviation TaskM := (ST Task error) (only parsing).

Definition NewTask (id : TaskID) (subcommand : Subcommand) (slug : Slug)
    (requestedTimeout : option Z) (requestedAt : Time) (initialQueuePosition : Z)
    : res (Task * list Event) :=
  if negb (IsSubmittable subcommand)
  then Err (Errorf "subcommand is not submittable" [])
  else Ok
    (mkTask id subcommand slug requestedTimeout requestedAt StateQueued initialQueuePosition
       zeroTimeout "" None zeroTime None noOrigin false None,
     [TaskQueued id subcommand slug requestedTimeout initialQueuePosition requestedAt]).

(** The map [allowed] of [transition]. *)
Definition allowed (s : TaskState) (e : TransitionEvent) : bool :=
  match s, e with
  | StateQueued, (eventTaskQueued | eventTaskStarted | eventTaskCancelRequested) => true
  | StateStarting, (eventTaskExited | eventTaskAdopted | eventTaskOrphanDetected
                   | eventTaskCancelRequested) => true
  | (StateRunning | StateStalled),
    (eventTaskEventObserved | eventTaskStalled | eventTaskExited | eventTaskTimedOut
    | eventTaskAdopted | eventTaskOrphanDetected | eventTaskCancelRequested) => true
  | StateTimeout, eventRecoveryAttempted => true
  | StateRecovering, (eventRecoverySucceeded | eventRecoveryFailed) => true
  | StateCancelling, (eventTaskCancelRequested | eventTaskKilled) => true
  | StateAdopted, (eventTaskExited | eventTaskOrphanDetected | eventTaskCancelRequested) => true
  | StateOrphaned, (eventTaskExited | eventRecoveryAttempted | eventTaskCancelRequested) => true
  | _, _ => false
  end.

Definition Task_transition (event : TransitionEvent) (destination : TaskState) : TaskM unit :=
  t ← st_get;
  if terminal (t_state t) && bool_decide (event = eventTaskCancelRequested)
  then st_fail (DErr ErrTaskAlreadyTerminal)
  else if negb (allowed (t_state t) event)
  then st_fail (DErr ErrInvalidStateTransition)
  else st_modify (fun t => t <| t_state := destination |>).

Definition Task_Requeue (queuePosition : Z) (occurredAt : Time) : TaskM (list Event) :=
  Task_transition eventTaskQueued StateQueued;;
  st_modify (fun t => t <| t_queuePosition := queuePosition |>);;
  t ← st_get;
  mret [TaskQueued (t_id t) (t_subcommand t) (t_slug t) (t_requestedTimeout t) queuePosition occurredAt].

Definition Task_Start (timeout : Timeout) (model : string) (occurredAt : Time) : TaskM (list Event) :=
  Task_transition eventTaskStarted StateStarting;;
  st_modify (fun t => t <| t_timeout := timeout |> <| t_model := model |>);;
  mret [].

Definition Task_RecordProcessInfo (pid : Z) (processStartedAt occurredAt : Time) : TaskM (list Event) :=
  t ← st_get;
  if negb (bool_decide (t_state t = StateStarting)) || is_some (t_processStartTime t)
  then st_fail (DErr ErrInvalidStateTransition)
  else
    process ← st_lift (NewProcessStartTime pid processStartedAt);
    st_modify (fun t => t <| t_processStartTime := Some process |>);;
    mret [TaskStarted (t_id t) process (to_resolvedSeconds (t_timeout t)) (t_model t)
            ExecutionRouteDaemon occurredAt].

Definition Task_ConfirmRunning (occurredAt : Time) : TaskM unit :=
  t ← st_get;
  if bool_decide (t_state t = StateStarting) || bool_decide (t_state t = StateAdopted)
  then st_modify (fun t => t <| t_state := StateRunning |>)
  else st_fail (DErr ErrInvalidStateTransition).

Definition Task_ObserveEvent (eventType : string) (observedAt : Time) : TaskM (list Event) :=
  Task_transition eventTaskEventObserved StateRunning;;
  st_modify (fun t => t <| t_lastEventAt := observedAt |>);;
  t ← st_get;
  mret [TaskEventObserved (t_id t) eventType observedAt].

Definition Task_MarkStalled (gapSeconds : Z) (occurredAt : Time) : TaskM (list Event) :=
  Task_transition eventTaskStalled StateStalled;;
  t ← st_get;
  let lastEventAt := if IsZero (t_lastEventAt t) then None else Some (t_lastEventAt t) in
  mret [TaskStalled (t_id t) lastEventAt gapSeconds occurredAt].

Definition Task_RecordExit (exitCode : ExitCode) (lastMessagePresent estimated adoptedAfterRestart : bool)
    (occurredAt : Time) : TaskM (list Event) :=
  t ← st_get;
  if bool_decide (t_state t = StateOrphaned) && negb estimated
  then st_fail (Errorf "orphan exit must be estimated" [])
  else
    let '(estimated, adoptedAfterRestart) :=
      if t_adoptedAfterRestart t then (true, true) else (estimated, adoptedAfterRestart) in
    let destination :=
      if bool_decide (ec_class exitCode = ExitCodeClassSuccess) && lastMessagePresent
      then StateCompleted else StateFailed in
    Task_transition eventTaskExited destination;;
    st_modify (fun t => t <| t_exitCode := Some exitCode |>);;
    let exited := TaskExited (t_id t) exitCode lastMessagePresent estimated adoptedAfterRestart occurredAt in
    if bool_decide (destination = StateCompleted)
    then mret [exited; TaskCompleted (t_id t) exitCode occurredAt]
    else
      let reason :=
        if bool_decide (ec_class exitCode <> ExitCodeClassSuccess) then ReasonAbnormalExit else ReasonNoOutput in
      mret [exited; TaskFailed (t_id t) exitCode reason occurredAt].

Definition Task_MarkTimedOut (sessionRef : option SessionRef) (occurredAt : Time) : TaskM (list Event) :=
  Task_transition eventTaskTimedOut StateTimeout;;
  st_modify (fun t => t <| t_sessionRef := sessionRef |>);;
  t ← st_get;
  mret [TaskTimedOut (t_id t) (to_resolvedSeconds (t_timeout t)) sessionRef occurredAt].

Definition Task_BeginRecovery (sessionRef : option SessionRef) (occurredAt : Time) : TaskM (list Event) :=
  t ← st_get;
  let origin := if bool_decide (t_state t = StateOrphaned) then RecoveryOriginOrphan else RecoveryOriginTimeout in
  Task_transition eventRecoveryAttempted StateRecovering;;
  st_modify (fun t => t <| t_recoveryOrigin := origin |> <| t_sessionRef := sessionRef |>);;
  mret [RecoveryAttempted (t_id t) origin sessionRef occurredAt].

Definition Task_CompleteRecovery (exitCode : ExitCode) (occurredAt : Time) : TaskM (list Event) :=
  Task_transition eventRecoverySucceeded StateRecovered;;
  st_modify (fun t => t <| t_exitCode := Some exitCode |>);;
  t ← st_get;
  mret [RecoverySucceeded (t_id t) exitCode occurredAt].

Definition Task_FailRecovery (partialOutputSaved : bool) (occurredAt : Time) : TaskM (list Event) :=
  t ← st_get;
  let destination :=
    if bool_decide (t_recoveryOrigin t = RecoveryOriginTimeout) then StateTimeoutLost else StateLost in
  Task_transition eventRecoveryFailed destination;;
  mret [RecoveryFailed (t_id t) (t_recoveryOrigin t) partialOutputSaved occurredAt].

Definition Task_Adopt (lockAcquiredOnRestart : bool) (occurredAt : Time) : TaskM (list Event) :=
  Task_transition eventTaskAdopted StateAdopted;;
  st_modify (fun t => t <| t_adoptedAfterRestart := true |>);;
  t ← st_get;
  let events := [TaskAdopted (t_id t) lockAcquiredOnRestart occurredAt] in
  if lockAcquiredOnRestart then
    Task_transition eventTaskOrphanDetected StateOrphaned;;
    mret (events ++ [TaskOrphanDetected (t_id t) "adopted" occurredAt])
  else
    st_modify (fun t => t <| t_state := StateRunning |>);;
    mret events.

Definition Task_DetectOrphan (detectedDuring : string) (occurredAt : Time) : TaskM (list Event) :=
  if negb (detectedDuring =? "running")%string && negb (detectedDuring =? "starting")%string
     && negb (detectedDuring =? "adopted")%string
  then st_fail (Errorf "invalid detected during" [])
  else
    Task_transition eventTaskOrphanDetected StateOrphaned;;
    t ← st_get;
    mret [TaskOrphanDetected (t_id t) detectedDuring occurredAt].

Definition Task_RequestCancel (force : bool) (occurredAt : Time) : TaskM (list Event) :=
  Task_transition eventTaskCancelRequested StateCancelling;;
  t ← st_get;
  mret [TaskCancelRequested (t_id t) ProtocolVerbCancel force occurredAt].

Definition Task_ConfirmKilled (exitCode : ExitCode) (estimated : bool) (occurredAt : Time) : TaskM (list Event) :=
  Task_transition eventTaskKilled StateKilled;;
  st_modify (fun t => t <| t_exitCode := Some exitCode |>);;
  t ← st_get;
  mret [TaskKilled (t_id t) exitCode estimated occurredAt].

(** ** The methods as one alphabet

    Every way the program can act on a task, so that statements about all
    methods, and about all sequences of them, can be made once. *)

Inductive TaskOp : Type :=
| OpRequeue (queuePosition : Z) (occurredAt : Time)
| OpStart (timeout : Timeout) (model : string) (occurredAt : Time)
| OpRecordProcessInfo (pid : Z) (processStartedAt occurredAt : Time)
| OpConfirmRunning (occurredAt : Time)
| OpObserveEvent (eventType : string) (observedAt : Time)
| OpMarkStalled (gapSeconds : Z) (occurredAt : Time)
| OpRecordExit (exitCode : ExitCode) (lastMessagePresent estimated adoptedAfterRestart : bool)
    (occurredAt : Time)
| OpMarkTimedOut (sessionRef : option SessionRef) (occurredAt : Time)
| OpBeginRecovery (sessionRef : option SessionRef) (occurredAt : Time)
| OpCompleteRecovery (exitCode : ExitCode) (occurredAt : Time)
| OpFailRecovery (partialOutputSaved : bool) (occurredAt : Time)
| OpAdopt (lockAcquiredOnRestart : bool) (occurredAt : Time)
| OpDetectOrphan (detectedDuring : string) (occurredAt : Time)
| OpRequestCancel (force : bool) (occurredAt : Time)
| OpConfirmKilled (exitCode : ExitCode) (estimated : bool) (occurredAt : Time).

Definition run_op (op : TaskOp) : TaskM (list Event) :=
  match op with
  | OpRequeue q at_ => Task_Requeue q at_
  | OpStart to m at_ => Task_Start to m at_
  | OpRecordProcessInfo pid st at_ => Task_RecordProcessInfo pid st at_
  | OpConfirmRunning at_ => Task_ConfirmRunning at_;; mret []
  | OpObserveEvent ty at_ => Task_ObserveEvent ty at_
  | OpMarkStalled gap at_ => Task_MarkStalled gap at_
  | OpRecordExit c p e a at_ => Task_RecordExit c p e a at_
  | OpMarkTimedOut ref at_ => Task_MarkTimedOut ref at_
  | OpBeginRecovery ref at_ => Task_BeginRecovery ref at_
  | OpCompleteRecovery c at_ => Task_CompleteRecovery c at_
  | OpFailRecovery p at_ => Task_FailRecovery p at_
  | OpAdopt l at_ => Task_Adopt l at_
  | OpDetectOrphan d at_ => Task_DetectOrphan d at_
  | OpRequestCancel f at_ => Task_RequestCancel f at_
  | OpConfirmKilled c e at_ => Task_ConfirmKilled c e at_
  end.

(** A task after a sequence of method calls, whatever each of them returned. *)
Definition run_ops (ops : list TaskOp) (t : Task) : Task :=
  fold_left (fun t op => fst (run_op op t)) ops t.

(** The tasks the program can hold: a fresh task and whatever the methods make of it. *)
Inductive reachable : Task -> Prop :=
| reachable_new (id : TaskID) (sub : Subcommand) (slug : Slug) (req : option Z) (at_ : Time) (pos : Z)
    (t : Task) (evs : list Event) :
    NewTask id sub slug req at_ pos = Ok (t, evs) -> reachable t
| reachable_op (op : TaskOp) (t : Task) :
    reachable t -> reachable (fst (run_op op t)).

(** How far a state is along the life cycle. *)
Definition phase (s : TaskState) : nat :=
  match s with
  | StateQueued | StateOther _ => 0
  | StateStarting => 1
  | StateAdopted | StateRunning | StateStalled => 2
  | StateTimeout | StateOrphaned => 3
  | StateRecovering | StateCancelling => 4
  | StateCompleted | StateFailed | StateRecovered | StateTimeoutLost | StateKilled | StateLost => 5
  end.

Definition has_exit_code (s : TaskState) : bool :=
  match s with StateCompleted | StateFailed | StateRecovered | StateKilled => true | _ => false end.

Definition has_lineage (s : TaskState) : bool :=
  match s with StateRecovering | StateRecovered | StateTimeoutLost | StateLost => true | _ => false end.

(** What holds of every reachable task. *)
Record task_inv (t : Task) : Prop := {
  inv_submittable : IsSubmittable (t_subcommand t) = true;
  inv_known : isKnownTaskState (t_state t) = true;
  inv_exit : is_some (t_exitCode t) = has_exit_code (t_state t);
  inv_lineage : bool_decide (t_recoveryOrigin t <> noOrigin) = has_lineage (t_state t);
  inv_timeout_lost : t_state t = StateTimeoutLost -> t_recoveryOrigin t = RecoveryOriginTimeout;
  inv_lost : t_state t = StateLost -> t_recoveryOrigin t = RecoveryOriginOrphan;
  inv_origin : t_recoveryOrigin t = noOrigin \/ t_recoveryOrigin t = RecoveryOriginTimeout
    \/ t_recoveryOrigin t = RecoveryOriginOrphan;
  inv_completed : t_state t = StateCompleted ->
    exists c, t_exitCode t = Some c /\ ec_class c = ExitCodeClassSuccess;
  inv_queued : t_state t = StateQueued -> t_processStartTime t = None /\ t_adoptedAfterRestart t = false;
  inv_process : forall p, t_processStartTime t = Some p -> 0 < ps_pid p /\ ps_startedAt p <> zeroTime }.

(** A freshly submitted task, for the examples. *)
Definition example_task : Task :=
  mkTask "impl-20260924-120000-0af9-fix" SubcommandImpl "fix" None 1 StateQueued 1
    zeroTimeout "" None zeroTime None noOrigin false None.

(** ** Lemmas *)

Ltac task_cases t op :=
  destruct op; destruct t as [? ? ? ? ? [] ? ? ? ? ? ? ? ? ?];
  cbv [run_op Task_Requeue Task_Start Task_RecordProcessInfo Task_ConfirmRunning Task_ObserveEvent
    Task_MarkStalled Task_RecordExit Task_MarkTimedOut Task_BeginRecovery Task_CompleteRecovery
    Task_FailRecovery Task_Adopt Task_DetectOrphan Task_RequestCancel Task_ConfirmKilled
    Task_transition NewProcessStartTime] in *; unfold_monads.

Lemma run_op_failed (op : TaskOp) (t t' : Task) (e : error) :
  run_op op t = (t', Err e) -> t' = t.
Proof. task_cases t op; intros H; destruct_matches. Qed.

Lemma run_op_phase (op : TaskOp) (t t' : Task) (evs : list Event) :
  run_op op t = (t', Ok evs) -> (phase (t_state t) <= phase (t_state t'))%nat.
Proof. task_cases t op; intros H; destruct_matches; simpl; lia. Qed.

Lemma run_op_terminal (op : TaskOp) (t : Task) :
  terminal (t_state t) = true ->
  run_op op t = (t, Err match op with
    | OpRequestCancel _ _ => DErr ErrTaskAlreadyTerminal
    | OpDetectOrphan d _ =>
        if negb (d =? "running")%string && negb (d =? "starting")%string && negb (d =? "adopted")%string
        then Errorf "invalid detected during" [] else DErr ErrInvalidStateTransition
    | _ => DErr ErrInvalidStateTransition
    end).
Proof. task_cases t op; intros H; destruct_matches. Qed.

Lemma run_ops_app (ops ops' : list TaskOp) (t : Task) :
  run_ops (ops ++ ops') t = run_ops ops' (run_ops ops t).
Proof. apply fold_left_app. Qed.

Lemma reachable_run_ops (ops : list TaskOp) (t : Task) : reachable t -> reachable (run_ops ops t).
Proof.
  revert t. induction ops as [|op ops IH]; intros t Ht; [done|].
  simpl. apply IH. by constructor.
Qed.

Lemma NewTask_inv (id : TaskID) sub slug req at_ pos (t : Task) (evs : list Event) :
  NewTask id sub slug req at_ pos = Ok (t, evs) -> task_inv t.
Proof.
  unfold NewTask. intros H. case_match eqn:E; simplify_eq. simplify_bool.
  split; simpl; auto; done.
Qed.

Lemma run_op_inv (op : TaskOp) (t t' : Task) (evs : list Event) :
  run_op op t = (t', Ok evs) -> task_inv t -> task_inv t'.
Proof.
  intros H I. task_cases t op; destruct_matches;
    destruct I as [I1 I2 I3 I4 I5 I6 I7 I8 I9 I10]; split; cbn in *; auto; try done; intros;
    simplify_eq/=; simplify_bool; eauto; try lia;
    try (split; [lia|]; unfold IsZero in *; by simplify_bool).
  by destruct I7 as [?|[?|?]].
Qed.

Lemma reachable_inv (t : Task) : reachable t -> task_inv t.
Proof.
  induction 1 as [id sub slug req at_ pos t evs H|op t _ IH]; [by eapply NewTask_inv|].
  destruct (run_op op t) as [t' [evs|e]] eqn:E; simpl.
  - by eapply run_op_inv.
  - by apply run_op_failed in E as ->.
Qed.

(** ** Properties *)

(** A method that fails writes nothing: whichever of the fifteen methods of
    the aggregate returns an error, the task is exactly as it was. *)
Theorem Task_methods_atomic (op : TaskOp) (t t' : Task) (e : error) :
  run_op op t = (t', Err e) -> t' = t.
Proof. apply run_op_failed. Qed.

Lemma Task_methods_atomic_witness :
  run_op (OpConfirmKilled (NewExitCode 137) false 5) example_task
    = (example_task, Err (DErr ErrInvalidStateTransition))
  /\ example_task = example_task.
Proof.
  split; [reflexivity|].
  apply (Task_methods_atomic (OpConfirmKilled (NewExitCode 137) false 5) example_task example_task
    (DErr ErrInvalidStateTransition)). reflexivity.
Defined.

(** Terminal states absorb: once a task is completed, failed, recovered,
    timeout-lost, killed or lost, no sequence of method calls of any length
    changes anything in it, and a cancel request is answered with the dedicated
    already-terminal error. *)
Theorem Task_terminal_absorbs (t : Task) :
  terminal (t_state t) = true ->
  (forall ops, run_ops ops t = t)
  /\ (forall force at_, run_op (OpRequestCancel force at_) t = (t, Err (DErr ErrTaskAlreadyTerminal))).
Proof.
  intros Ht. split; [|intros; by rewrite run_op_terminal].
  induction ops as [|op ops IH]; [done|]. unfold run_ops in *. simpl. by rewrite run_op_terminal.
Qed.

Lemma Task_terminal_absorbs_witness :
  (forall ops, run_ops ops (example_task <| t_state := StateKilled |>) = example_task <| t_state := StateKilled |>)
  /\ (forall force at_, run_op (OpRequestCancel force at_) (example_task <| t_state := StateKilled |>)
        = (example_task <| t_state := StateKilled |>, Err (DErr ErrTaskAlreadyTerminal))).
Proof. apply (Task_terminal_absorbs (example_task <| t_state := StateKilled |>)). reflexivity. Defined.

(** The life cycle only moves forward: over any sequence of method calls the
    phase of the task (queued, starting, running, interrupted, winding up,
    finished) never decreases, so no task is ever executed a second time. *)
Theorem Task_lifecycle_forward (ops ops' : list TaskOp) (t : Task) :
  (phase (t_state (run_ops ops t)) <= phase (t_state (run_ops (ops ++ ops') t)))%nat.
Proof.
  rewrite run_ops_app. generalize (run_ops ops t). clear ops t.
  induction ops' as [|op ops IH]; intros t; [done|]. unfold run_ops in *. simpl.
  etrans; [|apply IH]. destruct (run_op op t) as [t' [evs|e]] eqn:E; simpl.
  - by apply run_op_phase in E.
  - by apply run_op_failed in E as ->.
Qed.



(** What a recorded exit means.  From every state that accepts an exit, the
    task becomes completed exactly when the exit code is in the success class and
    a last message exists, and failed otherwise, with the reason telling a bad
    exit code from a missing output; the first event reports the observation
    itself, forced to estimated and adopted when the daemon adopted the task;
    and an orphan's exit is refused unless it is marked as estimated. *)
Theorem Task_RecordExit_outcome (t : Task) (c : ExitCode) (present estimated adopted : bool) (at_ : Time) :
  allowed (t_state t) eventTaskExited = true ->
  Task_RecordExit c present estimated adopted at_ t =
    if bool_decide (t_state t = StateOrphaned) && negb estimated
    then (t, Err (Errorf "orphan exit must be estimated" []))
    else
      let success := bool_decide (ec_class c = ExitCodeClassSuccess) in
      let estimated' := estimated || t_adoptedAfterRestart t in
      let adopted' := adopted || t_adoptedAfterRestart t in
      (t <| t_state := if success && present then StateCompleted else StateFailed |>
         <| t_exitCode := Some c |>,
       Ok [TaskExited (t_id t) c present estimated' adopted' at_;
           if success && present then TaskCompleted (t_id t) c at_
           else TaskFailed (t_id t) c (if success then ReasonNoOutput else ReasonAbnormalExit) at_]).
Proof.
  intros Ha. destruct t as [? ? ? ? ? s ? ? ? ? ? ? ? ad ?]; simpl in Ha.
  unfold Task_RecordExit, Task_transition; unfold_monads; cbn.
  destruct (bool_decide (s = StateOrphaned) && negb estimated); [done|].
  assert (terminal s = false) as Hs by (by destruct s).
  destruct ad, present, c as [raw []]; cbn; rewrite Hs, Ha; cbn;
    by rewrite ?orb_true_r, ?orb_false_r.
Qed.

Lemma Task_RecordExit_outcome_witness :
  Task_RecordExit (NewExitCode 0) false false false 9 (example_task <| t_state := StateRunning |>)
  = (example_task <| t_state := StateFailed |> <| t_exitCode := Some (NewExitCode 0) |>,
     Ok [TaskExited "impl-20260924-120000-0af9-fix" (NewExitCode 0) false false false 9;
         TaskFailed "impl-20260924-120000-0af9-fix" (NewExitCode 0) ReasonNoOutput 9]).
Proof.
  exact (Task_RecordExit_outcome (example_task <| t_state := StateRunning |>)
    (NewExitCode 0) false false false 9 eq_refl).
Defined.

(** Cancellation is accepted in exactly the states that can still be
    cancelled, and then leads to cancelling with one cancel-requested event; a
    task that is recovering or has just timed out refuses it as an invalid
    transition, a finished one as already terminal. *)
Theorem Task_RequestCancel_spec (t : Task) (force : bool) (at_ : Time) :
  isKnownTaskState (t_state t) = true ->
  Task_RequestCancel force at_ t =
    match t_state t with
    | StateQueued | StateStarting | StateRunning | StateStalled | StateAdopted | StateOrphaned
    | StateCancelling =>
        (t <| t_state := StateCancelling |>,
         Ok [TaskCancelRequested (t_id t) ProtocolVerbCancel force at_])
    | StateTimeout | StateRecovering => (t, Err (DErr ErrInvalidStateTransition))
    | _ => (t, Err (DErr ErrTaskAlreadyTerminal))
    end.
Proof. by destruct t as [? ? ? ? ? [] ? ? ? ? ? ? ? ? ?]. Qed.

Lemma Task_RequestCancel_spec_witness :
  Task_RequestCancel true 4 (example_task <| t_state := StateOrphaned |>)
  = (example_task <| t_state := StateCancelling |>,
     Ok [TaskCancelRequested "impl-20260924-120000-0af9-fix" ProtocolVerbCancel true 4]).
Proof. exact (Task_RequestCancel_spec (example_task <| t_state := StateOrphaned |>) true 4 eq_refl). Defined.
