(* ===== verification/Snapshot.v ===== *)
(** * Persisted task snapshots ([internal/domain/tasksnapshot.go])

    [TaskSnapshot] is what [task.json] holds.  [Validate] is the well-formedness
    check applied before every write and after every read, [Restore] rebuilds the
    aggregate and [WithTask] projects it back.  The theorems connect them: what
    one direction loses, and which method calls keep a snapshot valid. *)

From S2P Require Import Prelude.
From S2P Require Import GoStrings.
From S2P Require Import Errors.
From S2P Require Import Domain.
From S2P Require Import Task.

(** ** Data *)

Definition taskSnapshotSchemaVersion : Z := 4.
Definition workingDirTaskSnapshotSchemaVersion : Z := 3.
Definition previousTaskSnapshotSchemaVersion : Z := 2.

Record TaskSnapshot : Type := mkTaskSnapshot {
  TaskID_ : TaskID;
  Subcommand_ : Subcommand;
  PID : option Z;
  ProcessStartedAt : option Time;
  ResolvedTimeoutSeconds : Z;
  RequestedTimeoutSeconds : option Z;
  Model : string;
  ReasoningEffort : option string;
  SandboxMode : string;
  WorkingDir : option string;
  RequestedAt : Time;
  Route : ExecutionRoute;
  State : TaskState;
  StateUpdatedAt : Time;
  SessionRef_ : option SessionRef;
  LastEventAt : option Time;
  ExitCode_ : option ExitCode;
  Recovered : bool;
  AdoptedAfterRestart : bool;
  RecoveryOrigin_ : option RecoveryOrigin;
  FailureCode : option string;
  SchemaVersion : Z }.

#[export] Instance TaskSnapshot_settable : Settable TaskSnapshot := fun s =>
  mkTaskSnapshot (TaskID_ s) (Subcommand_ s) (PID s) (ProcessStartedAt s)
    (ResolvedTimeoutSeconds s) (RequestedTimeoutSeconds s) (Model s) (ReasoningEffort s)
    (SandboxMode s) (WorkingDir s) (RequestedAt s) (Route s) (State s) (StateUpdatedAt s)
    (SessionRef_ s) (LastEventAt s) (ExitCode_ s) (Recovered s) (AdoptedAfterRestart s)
    (RecoveryOrigin_ s) (FailureCode s) (SchemaVersion s).

Definition emptyTaskSnapshot : TaskSnapshot :=
  mkTaskSnapshot "" (SubcommandOther "") None None 0 None "" None "" None zeroTime
    (ExecutionRouteOther "") (StateOther "") zeroTime None None None false false None None 0.

Definition NewInitialTaskSnapshot (route : ExecutionRoute) (reasoningEffort : option string)
    (sandboxMode : string) (workingDir : option string) : TaskSnapshot :=
  emptyTaskSnapshot
    <| Route := route |> <| ReasoningEffort := reasoningEffort |> <| SandboxMode := sandboxMode |>
    <| WorkingDir := workingDir |> <| SchemaVersion := taskSnapshotSchemaVersion |>.

Definition SupportsWorkingDir (s : TaskSnapshot) : bool :=
  workingDirTaskSnapshotSchemaVersion <=? SchemaVersion s.

Definition SupportsFailureCode (s : TaskSnapshot) : bool :=
  SchemaVersion s =? taskSnapshotSchemaVersion.

(** ** Validation *)

Definition bad (format : string) (args : list string) : res unit :=
  Err (Errorf (String.append "task snapshot invalid: " format) args).

(** [requires]: states in which a process must have been recorded. *)
Definition requires_process (s : TaskState) : bool :=
  match s with
  | StateRunning | StateStalled | StateTimeout | StateRecovering | StateRecovered
  | StateTimeoutLost | StateLost | StateCompleted => true
  | _ => false
  end.

(** [lineage]: states whose snapshot carries a recovery origin. *)
Definition lineage (s : TaskState) : bool :=
  match s with StateRecovering | StateRecovered | StateTimeoutLost | StateLost => true | _ => false end.

Definition allowsUnresolvedWorkingDir (s : TaskSnapshot) : bool :=
  if is_some (PID s) || is_some (ProcessStartedAt s) then false
  else match State s with
       | StateQueued | StateCancelling | StateKilled | StateFailed => true
       | _ => false
       end.

Definition known_failure_code (c : string) : bool :=
  existsb (String.eqb c)
    ["LIVENESS_LOCK_IO_ERROR"; "CONTRACT_WRITE_FAILED"; "WORKTREE_CREATE_FAILED";
     "PTY_ALLOCATION_FAILED"; "CHILD_PROCESS_LAUNCH_FAILED"].

Definition Validate (s : TaskSnapshot) : res unit :=
  if (TaskID_ s =? "")%string then bad "task id is empty" []
  else if negb (IsSubmittable (Subcommand_ s)) then bad "unknown subcommand %q" [Subcommand_string (Subcommand_ s)]
  else if (Model s =? "")%string then bad "model is empty" []
  else if negb (IsValidSandboxMode (SandboxMode s)) then bad "unknown sandbox mode %q" [SandboxMode s]
  else if negb (isKnownTaskState (State s)) then bad "unknown state %q" [TaskState_string (State s)]
  else if bool_decide (Route s <> ExecutionRouteDaemon) then bad "route must be daemon" []
  else if negb (Bool.eqb (is_none (PID s)) (is_none (ProcessStartedAt s)))
    then bad "pid and process_started_at must be set together" []
  else if match PID s with Some p => p <=? 0 | None => false end then bad "pid must be positive" []
  else if match ProcessStartedAt s with Some at_ => IsZero at_ | None => false end
    then bad "process_started_at is zero" []
  else if match RequestedTimeoutSeconds s with Some r => r <? timeoutMinSeconds | None => false end
    then bad "requested timeout below minimum" []
  else if ResolvedTimeoutSeconds s <? timeoutMinSeconds then bad "resolved timeout below minimum" []
  else if match RecoveryOrigin_ s with
          | Some RecoveryOriginTimeout | Some RecoveryOriginOrphan | None => false
          | Some _ => true end
    then bad "unknown recovery origin" []
  else if requires_process (State s) && is_none (PID s) && negb (AdoptedAfterRestart s)
          && negb (terminal (State s) && is_some (ExitCode_ s))
    then bad "state requires process info" []
  else if is_some (ExitCode_ s) && negb (terminal (State s)) then bad "exit code for non-terminal state" []
  else if negb (Bool.eqb (Recovered s) (bool_decide (State s = StateRecovered)))
    then bad "recovered inconsistent" []
  else if negb (Bool.eqb (is_some (RecoveryOrigin_ s)) (lineage (State s)))
    then bad "recovery origin inconsistent" []
  else if IsZero (RequestedAt s) || IsZero (StateUpdatedAt s) then bad "timestamp is zero" []
  else if negb (SchemaVersion s =? previousTaskSnapshotSchemaVersion)
          && negb (SchemaVersion s =? workingDirTaskSnapshotSchemaVersion)
          && negb (SchemaVersion s =? taskSnapshotSchemaVersion)
    then bad "unsupported schema version" []
  else if match FailureCode s with
          | Some _ => negb (SchemaVersion s =? taskSnapshotSchemaVersion)
                      || bool_decide (State s <> StateFailed) || is_some (PID s)
          | None => false end
    then bad "failure_code requires schema version 4, failed state, and no process" []
  else if match FailureCode s with Some c => negb (known_failure_code c) | None => false end
    then bad "unknown failure_code %q" [default ""%string (FailureCode s)]
  else if SchemaVersion s =? previousTaskSnapshotSchemaVersion then
    if is_some (WorkingDir s) then bad "schema version 2 must not contain working_dir" [] else Ok tt
  else match WorkingDir s with
       | None => if allowsUnresolvedWorkingDir s then Ok tt else bad "working_dir is required" []
       | Some dir => match NewNormalizedPath dir with
                     | Ok _ => Ok tt
                     | Err _ => bad "working_dir: %v" ["invalid normalized path"%string]
                     end
       end.

(** ** Admission, restoration and projection *)

(** A nil [task] is the only other error of this constructor; a [Task] here is
    never nil. *)
Definition NewTaskSnapshotFromAdmission (task : Task) (resolvedTimeout : Timeout) (model : string)
    (reasoningEffort : option string) (sandboxMode : string) (workingDir : option string)
    (route : ExecutionRoute) (stateUpdatedAt : Time) : res TaskSnapshot :=
  let snapshot :=
    mkTaskSnapshot (t_id task) (t_subcommand task) None None
      (to_resolvedSeconds resolvedTimeout) (t_requestedTimeout task) model reasoningEffort
      sandboxMode workingDir (t_requestedAt task) route (t_state task) stateUpdatedAt
      None None None false false None None taskSnapshotSchemaVersion in
  Validate snapshot ;; Ok snapshot.

Definition slugFromTaskID (id : TaskID) : res Slug :=
  match taskIDPattern id with
  | None => Err (Errorf "task id does not embed a slug: %s" [id])
  | Some m => NewSlug (m_slug m)
  end.

Definition Restore_process (s : TaskSnapshot) : res (option ProcessStartTime) :=
  match PID s, ProcessStartedAt s with
  | Some pid, Some at_ => Some <$> NewProcessStartTime pid at_
  | Some _, None => Err (Errorf "nil pointer dereference" [])
  | None, _ => Ok None
  end.

Definition SnapshotRestore (s : TaskSnapshot) : res Task :=
  Validate s ;;
  sl ← slugFromTaskID (TaskID_ s);
  to ← NewTimeout (RequestedTimeoutSeconds s) (ResolvedTimeoutSeconds s);
  p ← Restore_process s;
  Ok (mkTask (TaskID_ s) (Subcommand_ s) sl (RequestedTimeoutSeconds s) (RequestedAt s)
        (State s) 0 to (Model s) p (default zeroTime (LastEventAt s)) (SessionRef_ s)
        (default noOrigin (RecoveryOrigin_ s)) (AdoptedAfterRestart s) (ExitCode_ s)).

(** The snapshot that [WithTask] builds before it validates it. *)
Definition project (s : TaskSnapshot) (t : Task) (at_ : Time) : TaskSnapshot :=
  mkTaskSnapshot (t_id t) (t_subcommand t)
    (ps_pid <$> t_processStartTime t) (ps_startedAt <$> t_processStartTime t)
    (to_resolvedSeconds (t_timeout t)) (to_requestedSeconds (t_timeout t)) (t_model t)
    (ReasoningEffort s) (SandboxMode s) (WorkingDir s) (t_requestedAt t) (Route s)
    (t_state t) at_ (t_sessionRef t)
    (if IsZero (t_lastEventAt t) then None else Some (t_lastEventAt t))
    (t_exitCode t) (Recovered s || bool_decide (t_state t = StateRecovered))
    (t_adoptedAfterRestart t)
    (if bool_decide (t_recoveryOrigin t = noOrigin) then None else Some (t_recoveryOrigin t))
    (FailureCode s) (SchemaVersion s).

Definition WithTask (s : TaskSnapshot) (t : Task) (at_ : Time) : res TaskSnapshot :=
  let n := project s t at_ in
  Validate n ;; Ok n.

(** ** Specification: what a valid snapshot is *)

Record valid_snapshot (s : TaskSnapshot) : Prop := {
  v_id : TaskID_ s <> ""%string;
  v_subcommand : IsSubmittable (Subcommand_ s) = true;
  v_model : Model s <> ""%string;
  v_sandbox : IsValidSandboxMode (SandboxMode s) = true;
  v_known : isKnownTaskState (State s) = true;
  v_route : Route s = ExecutionRouteDaemon;
  v_pair : is_some (PID s) = is_some (ProcessStartedAt s);
  v_pid : forall p, PID s = Some p -> 0 < p;
  v_started : forall at_, ProcessStartedAt s = Some at_ -> at_ <> zeroTime;
  v_requested : forall r, RequestedTimeoutSeconds s = Some r -> timeoutMinSeconds <= r;
  v_resolved : timeoutMinSeconds <= ResolvedTimeoutSeconds s;
  v_origin : forall o, RecoveryOrigin_ s = Some o -> o = RecoveryOriginTimeout \/ o = RecoveryOriginOrphan;
  v_process : requires_process (State s) = true ->
    is_some (PID s) || AdoptedAfterRestart s || (terminal (State s) && is_some (ExitCode_ s)) = true;
  v_exit : is_some (ExitCode_ s) = true -> terminal (State s) = true;
  v_recovered : Recovered s = bool_decide (State s = StateRecovered);
  v_lineage : is_some (RecoveryOrigin_ s) = lineage (State s);
  v_requestedAt : RequestedAt s <> zeroTime;
  v_updatedAt : StateUpdatedAt s <> zeroTime;
  v_schema : SchemaVersion s = 2 \/ SchemaVersion s = 3 \/ SchemaVersion s = 4;
  v_failure : forall c, FailureCode s = Some c ->
    SchemaVersion s = 4 /\ State s = StateFailed /\ PID s = None /\ known_failure_code c = true;
  v_workingDir :
    if SchemaVersion s =? 2 then WorkingDir s = None
    else match WorkingDir s with
         | None => allowsUnresolvedWorkingDir s = true
         | Some dir => NewNormalizedPath dir = Ok dir
         end }.

(** The parameters of an operation are ones its callers can pass: a resolved
    timeout and a model chosen at launch. *)
Definition op_args_ok (op : TaskOp) : bool :=
  match op with
  | OpStart to m _ =>
      (timeoutMinSeconds <=? to_resolvedSeconds to)
      && match to_requestedSeconds to with Some r => timeoutMinSeconds <=? r | None => true end
      && negb (m =? "")%string
  | _ => true
  end.

(** What [Validate] asks of the aggregate's own fields, once it has a process. *)
Record persistable (t : Task) : Prop := {
  p_id : t_id t <> ""%string;
  p_subcommand : IsSubmittable (t_subcommand t) = true;
  p_model : t_model t <> ""%string;
  p_known : isKnownTaskState (t_state t) = true;
  p_process : exists p, t_processStartTime t = Some p /\ 0 < ps_pid p /\ ps_startedAt p <> zeroTime;
  p_requested : forall r, to_requestedSeconds (t_timeout t) = Some r -> timeoutMinSeconds <= r;
  p_resolved : timeoutMinSeconds <= to_resolvedSeconds (t_timeout t);
  p_origin : t_recoveryOrigin t = noOrigin \/ t_recoveryOrigin t = RecoveryOriginTimeout
    \/ t_recoveryOrigin t = RecoveryOriginOrphan;
  p_exit : is_some (t_exitCode t) = true -> terminal (t_state t) = true;
  p_lineage : bool_decide (t_recoveryOrigin t = noOrigin) = negb (lineage (t_state t));
  p_requestedAt : t_requestedAt t <> zeroTime }.

(** A snapshot of a running task, for the examples. *)
Definition example_snapshot : TaskSnapshot :=
  mkTaskSnapshot "impl-20260924-120000-0af9-fix" SubcommandImpl (Some 42) (Some 7) 1800 None
    "gpt-5.6-terra" (Some "medium"%string) "workspace-write" (Some "/home/u/repo"%string) 5
    ExecutionRouteDaemon StateRunning 9 None (Some 8) None false false None None 4.

Definition example_restored : Task :=
  mkTask "impl-20260924-120000-0af9-fix" SubcommandImpl "fix" None 5 StateRunning 0
    (mkTimeout None 1800) "gpt-5.6-terra" (Some (mkProcessStartTime 42 7)) 8 None noOrigin false None.

(** ** Lemmas *)

Lemma if_bad (b : bool) (fmt : string) (args : list string) (k : res unit) :
  (if b then bad fmt args else k) = Ok tt <-> b = false /\ k = Ok tt.
Proof. destruct b; unfold bad; naive_solver. Qed.

Lemma NewNormalizedPath_same (dir p : string) : NewNormalizedPath dir = Ok p -> p = dir.
Proof. unfold NewNormalizedPath. case_match; naive_solver. Qed.

Lemma Validate_iff (s : TaskSnapshot) : Validate s = Ok tt <-> valid_snapshot s.
Proof.
  unfold Validate. rewrite !if_bad, !orb_false_iff, !negb_false_iff, !Bool.eqb_true_iff. split.
  - intros (H1 & H2 & H3 & H4 & H5 & H6 & H7 & H8 & H9 & H10 & H11 & H12 & H13 & H14 & H15 & H16
      & [H17 H18] & H19 & H20 & H21 & H22).
    split; try done; try by simplify_bool.
    + apply bool_decide_eq_false in H6. by apply dec_stable.
    + by destruct (PID s), (ProcessStartedAt s).
    + intros p E. rewrite E in H8. by simplify_bool.
    + intros p E. rewrite E in H9. unfold IsZero in H9. by simplify_bool.
    + intros p E. rewrite E in H10. by simplify_bool.
    + intros o E. rewrite E in H12. destruct o; auto; done.
    + intros E. rewrite E in H13. unfold is_none in H13.
      destruct (is_some (PID s)), (AdoptedAfterRestart s), (terminal (State s)), (is_some (ExitCode_ s)); done.
    + intros E. rewrite E in H14. by destruct (terminal (State s)).
    + unfold IsZero in H17. by simplify_bool.
    + unfold IsZero in H18. by simplify_bool.
    + unfold previousTaskSnapshotSchemaVersion, workingDirTaskSnapshotSchemaVersion, taskSnapshotSchemaVersion in H19.
      lia.
    + intros c E. rewrite E in H20, H21. unfold taskSnapshotSchemaVersion in H20.
      apply orb_false_iff in H20 as [[H20 H20']%orb_false_iff H20''].
      simplify_bool. repeat split; [done|by apply dec_stable| |done]. by destruct (PID s).
    + change previousTaskSnapshotSchemaVersion with 2 in H22. destruct (SchemaVersion s =? 2).
      * by destruct (WorkingDir s).
      * destruct (WorkingDir s) as [dir|]; [|by destruct (allowsUnresolvedWorkingDir s)].
        destruct (NewNormalizedPath dir) eqn:E; [|done]. by apply NewNormalizedPath_same in E as ->.
  - intros []. repeat split; try done; try by apply String.eqb_neq;
      try by unfold IsZero; apply Z.eqb_neq.
    + by apply bool_decide_eq_false; intros ?.
    + unfold is_none. by destruct (PID s), (ProcessStartedAt s).
    + destruct (PID s) as [p|]; [|done]. apply Z.leb_gt. by apply v_pid0.
    + destruct (ProcessStartedAt s) as [a|]; [|done]. apply Z.eqb_neq. by apply v_started0.
    + destruct (RequestedTimeoutSeconds s) as [r|]; [|done]. apply Z.ltb_ge. by apply v_requested0.
    + by apply Z.ltb_ge.
    + destruct (RecoveryOrigin_ s) as [o|]; [|done]. by destruct (v_origin0 o eq_refl) as [-> | ->].
    + unfold is_none. destruct (requires_process (State s)); [|done].
      specialize (v_process0 eq_refl).
      by destruct (is_some (PID s)), (AdoptedAfterRestart s), (terminal (State s) && is_some (ExitCode_ s)).
    + destruct (is_some (ExitCode_ s)); [|done]. by rewrite v_exit0.
    + by apply Z.eqb_neq.
    + by apply Z.eqb_neq.
    + destruct v_schema0 as [-> | [-> | ->]]; done.
    + destruct (FailureCode s) as [c|]; [|done].
      destruct (v_failure0 c eq_refl) as (-> & -> & -> & _). by rewrite bool_decide_eq_false_2; auto.
    + destruct (FailureCode s) as [c|]; [|done]. by destruct (v_failure0 c eq_refl) as (_ & _ & _ & ->).
    + change previousTaskSnapshotSchemaVersion with 2. destruct (SchemaVersion s =? 2).
      * by rewrite v_workingDir0.
      * destruct (WorkingDir s); [by rewrite v_workingDir0|by rewrite v_workingDir0].
Qed.

Lemma Restore_inv (s : TaskSnapshot) (t : Task) :
  SnapshotRestore s = Ok t ->
  valid_snapshot s /\ exists sl,
  t = mkTask (TaskID_ s) (Subcommand_ s) sl (RequestedTimeoutSeconds s) (RequestedAt s)
        (State s) 0 (mkTimeout (RequestedTimeoutSeconds s) (ResolvedTimeoutSeconds s)) (Model s)
        (match PID s, ProcessStartedAt s with
         | Some p, Some a => Some (mkProcessStartTime p a) | _, _ => None end)
        (default zeroTime (LastEventAt s)) (SessionRef_ s)
        (default noOrigin (RecoveryOrigin_ s)) (AdoptedAfterRestart s) (ExitCode_ s).
Proof.
  unfold SnapshotRestore, Restore_process, NewTimeout, NewProcessStartTime. unfold_monads. intros H.
  destruct (Validate s) as [[]|] eqn:Hv; [|done]. rewrite Validate_iff in Hv. split; [done|].
  destruct (slugFromTaskID (TaskID_ s)) as [sl|]; [|done]. exists sl.
  repeat case_match; simplify_eq; done.
Qed.

Lemma WithTask_ok (s : TaskSnapshot) (t : Task) (at_ : Time) :
  valid_snapshot (project s t at_) -> WithTask s t at_ = Ok (project s t at_).
Proof. rewrite <- Validate_iff. unfold WithTask. cbv zeta. by intros ->. Qed.

Lemma run_op_persistable (op : TaskOp) (t t' : Task) (evs : list Event) :
  run_op op t = (t', Ok evs) -> op_args_ok op = true -> persistable t -> persistable t'.
Proof.
  intros H Ha [P1 P2 P3 P4 (p & P5 & P5' & P5'') P6 P7 P8 P9 P10 P11].
  task_cases t op; destruct_matches; cbn in *; simplify_bool;
    split; cbn; first [assumption | done | by eauto | idtac];
    intros; simplify_eq/=; repeat case_match; simplify_bool; simplify_eq;
    first [done | lia | by auto | by apply bool_decide_eq_false | idtac].
Qed.

Lemma project_valid (s : TaskSnapshot) (t t' : Task) (op : TaskOp) (evs : list Event) (at_ : Time) :
  SnapshotRestore s = Ok t -> is_some (PID s) = true -> at_ <> zeroTime ->
  run_op op t = (t', Ok evs) -> persistable t' -> valid_snapshot (project s t' at_).
Proof.
  intros (V & sl & ->)%Restore_inv Hpid Hat Hrun P.
  destruct (terminal (State s)) eqn:Hterm; [by rewrite run_op_terminal in Hrun|].
  assert (Recovered s = false) as Hrec.
  { rewrite (v_recovered s V). apply bool_decide_eq_false. intros E. by rewrite E in Hterm. }
  assert (FailureCode s = None) as Hfail.
  { destruct (FailureCode s) as [c|] eqn:E; [|done].
    destruct (v_failure s V c E) as (_ & _ & E' & _). by rewrite E' in Hpid. }
  destruct P as [P1 P2 P3 P4 (p & P5 & P5' & P5'') P6 P7 P8 P9 P10 P11].
  destruct V. split; cbn; rewrite ?P5, ?Hrec, ?Hfail; cbn; auto; try done.
  - intros ? [= <-]. done.
  - intros ? [= <-]. done.
  - intros o. case_bool_decide; [done|]. intros [= <-]. by destruct P8.
  - rewrite P10. by destruct (lineage (t_state t')).
  - clear Hrun. destruct (SchemaVersion s =? 2); [done|]. destruct (WorkingDir s); [done|].
    unfold allowsUnresolvedWorkingDir in *. by rewrite Hpid in v_workingDir0.
Qed.

Lemma Restore_persistable (s : TaskSnapshot) (t : Task) :
  SnapshotRestore s = Ok t -> is_some (PID s) = true -> persistable t.
Proof.
  intros (V & sl & ->)%Restore_inv Hpid. destruct V.
  destruct (PID s) as [p|] eqn:Ep; [|done]. destruct (ProcessStartedAt s) as [a|] eqn:Ea; [|done].
  split; cbn; auto.
  - exists (mkProcessStartTime p a). cbn. auto.
  - destruct (RecoveryOrigin_ s) as [o|]; cbn; [|auto]. destruct (v_origin0 o eq_refl) as [-> | ->]; auto.
  - rewrite <- v_lineage0. destruct (RecoveryOrigin_ s) as [o|]; cbn; [|done].
    by destruct (v_origin0 o eq_refl) as [-> | ->].
Qed.

(** ** Properties *)

(** C24. [Validate] accepts exactly the well-formed snapshots: the twenty-one
    conditions of [valid_snapshot], each stated on the data, hold if and only if
    the check returns no error. *)
Theorem Validate_correct (s : TaskSnapshot) : Validate s = Ok tt <-> valid_snapshot s.
Proof. apply Validate_iff. Qed.

(** Restoring a persisted snapshot and writing it back unchanged is the
    identity up to the new update time: nothing a valid snapshot records is lost
    through the aggregate. *)
Theorem snapshot_restore_roundtrip (s : TaskSnapshot) (t : Task) (at_ : Time) :
  SnapshotRestore s = Ok t -> at_ <> zeroTime -> LastEventAt s <> Some zeroTime ->
  WithTask s t at_ = Ok (s <| StateUpdatedAt := at_ |>).
Proof.
  intros (V & sl & ->)%Restore_inv Hat Hlast.
  assert (project s (mkTask (TaskID_ s) (Subcommand_ s) sl (RequestedTimeoutSeconds s) (RequestedAt s)
        (State s) 0 (mkTimeout (RequestedTimeoutSeconds s) (ResolvedTimeoutSeconds s)) (Model s)
        (match PID s, ProcessStartedAt s with
         | Some p, Some a => Some (mkProcessStartTime p a) | _, _ => None end)
        (default zeroTime (LastEventAt s)) (SessionRef_ s)
        (default noOrigin (RecoveryOrigin_ s)) (AdoptedAfterRestart s) (ExitCode_ s)) at_
    = s <| StateUpdatedAt := at_ |>) as E.
  { destruct V, s; unfold project, IsZero; cbn in *. f_equal.
    - by destruct PID0, ProcessStartedAt0.
    - by destruct PID0, ProcessStartedAt0.
    - destruct LastEventAt0 as [z|]; cbn; [|done]. destruct (Z.eqb_spec z zeroTime); congruence.
    - by rewrite v_recovered0, orb_diag.
    - destruct RecoveryOrigin_0 as [o|]; cbn; [|done]. by destruct (v_origin0 o eq_refl) as [-> | ->]. }
  rewrite WithTask_ok; rewrite E; [done|]. by destruct V; split.
Qed.

Lemma snapshot_restore_roundtrip_witness :
  WithTask example_snapshot example_restored 11 = Ok (example_snapshot <| StateUpdatedAt := 11 |>).
Proof. by apply (snapshot_restore_roundtrip example_snapshot); [vm_compute| |]. Defined.

(** C23. A task that has a process stays persistable: restore a valid snapshot
    that records its process, let any method of the aggregate succeed on it, and
    the projection of the result is again a valid snapshot — the write after a
    transition cannot be refused by [Validate]. *)
Theorem snapshot_transition_persistable (s : TaskSnapshot) (t t' : Task) (op : TaskOp)
    (evs : list Event) (at_ : Time) :
  SnapshotRestore s = Ok t -> is_some (PID s) = true -> at_ <> zeroTime ->
  op_args_ok op = true -> run_op op t = (t', Ok evs) ->
  exists s', WithTask s t' at_ = Ok s' /\ valid_snapshot s' /\ State s' = t_state t'.
Proof.
  intros Hr Hpid Hat Ha Hrun. exists (project s t' at_).
  assert (valid_snapshot (project s t' at_)) as V.
  { eapply project_valid; eauto. eapply run_op_persistable; eauto. by eapply Restore_persistable. }
  split; [by apply WithTask_ok|]. by split.
Qed.

Lemma snapshot_transition_persistable_witness :
  exists s', WithTask example_snapshot (fst (run_op (OpMarkTimedOut None 11) example_restored)) 11 = Ok s'
    /\ valid_snapshot s' /\ State s' = StateTimeout.
Proof.
  exact (snapshot_transition_persistable example_snapshot example_restored
    (fst (run_op (OpMarkTimedOut None 11) example_restored)) (OpMarkTimedOut None 11)
    [TaskTimedOut "impl-20260924-120000-0af9-fix" 1800 None 11] 11
    eq_refl eq_refl ltac:(done) eq_refl eq_refl).
Defined.
