(* ===== verification/Queue.v ===== *)
(** * The task queue and the registries of the scheduler
    ([internal/execution/queue.go], [registry.go], [promotion.go], [launching.go])

    A queued payload holds a pointer to its [Task], which other goroutines hold
    too, so the tasks live in an explicit heap and the queue holds locations.
    All four structures are used under one mutex; their joint state is
    [QState] and an operation is a computation over it that may panic. *)

From S2P Require Import Prelude.
From S2P Require Import GoStrings.
From S2P Require Import Errors.
From S2P Require Import Domain.
From S2P Require Import Task.
From S2P Require Import Snapshot.

(** ** Data *)

Abbreviation loc := nat (only parsing).

Record TaskAdmissionInput : Type := mkAdmissionInput {
  in_TaskID : TaskID;
  in_Subcommand : Subcommand;
  in_Slug : Slug;
  in_RequestedTimeout : option Z;
  in_RequestedAt : Time;
  in_PromptText : string;
  in_NormalizedPaths : list NormalizedPath;
  in_ResolvedTimeout : Timeout;
  in_Model : string;
  in_ReasoningEffort : option string;
  in_SandboxMode : string;
  in_SourceWorkingDir : string;
  in_WorktreeMode : WorktreeMode;
  in_OutputSchemaPath : option string }.

(** [p_Task] is the [*domain.Task] of the payload; [None] is the nil pointer. *)
Record TaskLaunchPayload : Type := mkPayload {
  p_Task : option loc;
  p_Model : string;
  p_ReasoningEffort : option string;
  p_PromptText : string;
  p_NormalizedPaths : list NormalizedPath;
  p_ResolvedTimeout : Timeout;
  p_SandboxMode : string;
  p_SourceWorkingDir : string;
  p_WorkingDir : option string;
  p_WorktreeMode : WorktreeMode;
  p_OutputSchemaPath : option string }.

Record TaskAdmissionResult : Type := mkAdmissionResult {
  ar_State : TaskState;
  ar_QueuePosition : option Z;
  ar_Events : list Event;
  ar_LaunchPayload : option TaskLaunchPayload }.

(** The heap of tasks and the four structures under the queue mutex. *)
Record QState : Type := mkQState {
  heap : gmap nat Task;
  payloads : list TaskLaunchPayload;
  reservations : gmap string Subcommand;
  snapshots : gmap string TaskSnapshot;
  promotions : gset string }.

#[export] Instance QState_settable : Settable QState := fun s =>
  mkQState (heap s) (payloads s) (reservations s) (snapshots s) (promotions s).

Definition emptyQState : QState := mkQState ∅ [] ∅ ∅ ∅.

Abbreviation QM := (PM QState) (only parsing).

(** ** Pointers *)

(** [*payload.Task]; a nil or dangling pointer panics. *)
Definition deref (p : TaskLaunchPayload) : QM Task :=
  s ← pm_get;
  match p_Task p with
  | Some l => match heap s !! l with Some t => mret t | None => pm_panic end
  | None => pm_panic
  end.

(** A method call through the pointer. *)
Definition call_method {A : Type} (p : TaskLaunchPayload) (m : ST Task error A) : QM (res A) :=
  t ← deref p;
  match p_Task p with
  | Some l =>
      let '(t', r) := m t in
      pm_modify (fun s => s <| heap := <[l := t']> (heap s) |>);;
      mret r
  | None => pm_panic
  end.

Definition alloc (t : Task) : QM loc :=
  s ← pm_get;
  let l := fresh (dom (heap s)) in
  pm_modify (fun s => s <| heap := <[l := t]> (heap s) |>);;
  mret l.

(** [payload.Task != nil && payload.Task.ID() == taskID] *)
Definition has_id (h : gmap nat Task) (taskID : TaskID) (p : TaskLaunchPayload) : bool :=
  match p_Task p with
  | Some l => match h !! l with Some t => (t_id t =? taskID)%string | None => false end
  | None => false
  end.

(** ** taskQueue *)

Definition validateQueuedPayload (p : TaskLaunchPayload) : QM unit :=
  t ← deref p;
  pm_assert (bool_decide (t_state t = StateQueued)).

Fixpoint validate_each (ps : list TaskLaunchPayload) : QM unit :=
  match ps with
  | [] => mret tt
  | p :: ps => validateQueuedPayload p;; validate_each ps
  end.

Definition validateAll : QM unit := s ← pm_get; validate_each (payloads s).

Fixpoint reindex_from (index : Z) (ps : list TaskLaunchPayload) (occurredAt : Time) : QM (list Event) :=
  match ps with
  | [] => mret []
  | p :: ps =>
      requeued ← call_method p (Task_Requeue (index + 1) occurredAt);
      match requeued with
      | Err _ => pm_panic
      | Ok evs => rest ← reindex_from (index + 1) ps occurredAt; mret (evs ++ rest)
      end
  end.

Definition reindex (occurredAt : Time) : QM (list Event) :=
  s ← pm_get; reindex_from 0 (payloads s) occurredAt.

Definition Enqueue (p : TaskLaunchPayload) : QM Z :=
  validateQueuedPayload p;;
  pm_modify (fun s => s <| payloads := payloads s ++ [p] |>);;
  s ← pm_get; mret (Z.of_nat (length (payloads s))).

Definition Dequeue : QM (option TaskLaunchPayload) :=
  s ← pm_get;
  match payloads s with
  | [] => mret None
  | p :: ps => pm_modify (fun s => s <| payloads := ps |>);; mret (Some p)
  end.

Definition Prepend (p : TaskLaunchPayload) : QM unit :=
  validateQueuedPayload p;;
  pm_modify (fun s => s <| payloads := p :: payloads s |>).

Definition Reindex (occurredAt : Time) : QM (list Event) := validateAll;; reindex occurredAt.

Definition Len (s : QState) : Z := Z.of_nat (length (payloads s)).

Definition queue_Lookup (s : QState) (taskID : TaskID) : option (TaskLaunchPayload * Z) :=
  match list_findi (has_id (heap s) taskID) (payloads s) with
  | Some (i, p) => Some (p, Z.of_nat i)
  | None => None
  end.

Definition QueuePosition (s : QState) (taskID : TaskID) : option Z :=
  match queue_Lookup s taskID with Some (_, index) => Some (index + 1) | None => None end.

(** [(payload, index, true, events)], or [None] for [removed = false]. *)
Definition Remove (taskID : TaskID) (occurredAt : Time)
    : QM (option (TaskLaunchPayload * Z * list Event)) :=
  validateAll;;
  s ← pm_get;
  match list_findi (has_id (heap s) taskID) (payloads s) with
  | None => mret None
  | Some (i, p) =>
      pm_modify (fun s => s <| payloads := take i (payloads s) ++ drop (S i) (payloads s) |>);;
      events ← reindex occurredAt;
      mret (Some (p, Z.of_nat i, events))
  end.

Definition QueueRestore (p : TaskLaunchPayload) (index : Z) (occurredAt : Time) : QM (list Event) :=
  validateAll;;
  validateQueuedPayload p;;
  s ← pm_get;
  pm_assert (negb ((index <? 0) || (Len s <? index)));;
  pm_modify (fun s => s <| payloads :=
    take (Z.to_nat index) (payloads s) ++ p :: drop (Z.to_nat index) (payloads s) |>);;
  reindex occurredAt.

(** ** activeTaskRegistry *)

Definition Size (s : QState) : Z := Z.of_nat (size (reservations s)).

Definition impl_reservations (m : gmap string Subcommand) : gmap string Subcommand :=
  filter (fun '(_, sub) => sub = SubcommandImpl) m.

Definition ImplSize (s : QState) : Z := Z.of_nat (size (impl_reservations (reservations s))).

Definition registry_Add (taskID : TaskID) (sub : Subcommand) : QM unit :=
  pm_modify (fun s => s <| reservations := <[taskID := sub]> (reservations s) |>).

Definition registry_Remove (taskID : TaskID) : QM unit :=
  pm_modify (fun s => s <| reservations := delete taskID (reservations s) |>).

Definition registry_Reset (m : gmap string Subcommand) : QM unit :=
  pm_modify (fun s => s <| reservations := m |>).

(** ** PromotionRegistry *)

Definition promotions_Reserve (taskID : TaskID) : QM unit :=
  pm_modify (fun s => s <| promotions := promotions s ∪ {[taskID]} |>).

Definition promotions_Resolve (taskID : TaskID) : QM bool :=
  s ← pm_get;
  if decide (taskID ∈ promotions s)
  then pm_modify (fun s => s <| promotions := promotions s ∖ {[taskID]} |>);; mret true
  else mret false.

Definition promotions_Len (s : QState) : Z := Z.of_nat (size (promotions s)).

(** ** launchingTaskRegistry *)

(** [copyTaskSnapshot] copies every pointed-to value; on values it is the identity. *)
Definition launching_Register (taskID : TaskID) (snapshot : TaskSnapshot) : QM unit :=
  pm_modify (fun s => s <| snapshots := <[taskID := snapshot]> (snapshots s) |>).

Definition launching_Unregister (taskID : TaskID) : QM unit :=
  pm_modify (fun s => s <| snapshots := delete taskID (snapshots s) |>).

Definition launching_Lookup (s : QState) (taskID : TaskID) : option TaskSnapshot := snapshots s !! taskID.

(** ** Specification vocabulary *)

(** A payload whose task is alive and queued. *)
Definition queued_payload (h : gmap nat Task) (p : TaskLaunchPayload) : Prop :=
  exists l t, p_Task p = Some l /\ h !! l = Some t /\ t_state t = StateQueued.

Definition locs (ps : list TaskLaunchPayload) : list nat := omap p_Task ps.

(** A task at another place of the queue. *)
Definition renumber (q : Z) (t : Task) : Task := t <| t_queuePosition := q |>.
Arguments renumber : simpl never.

(** The heap after renumbering [ps] from [index]. *)
Fixpoint repos (index : Z) (ps : list TaskLaunchPayload) (h : gmap nat Task) : gmap nat Task :=
  match ps with
  | [] => h
  | p :: ps =>
      repos (index + 1) ps
        (match p_Task p with
         | Some l => alter (renumber (index + 1)) l h
         | None => h
         end)
  end.

Definition requeued_event (h : gmap nat Task) (index : Z) (occurredAt : Time) (p : TaskLaunchPayload)
    : list Event :=
  match p_Task p ≫= (h !!.) with
  | Some t => [TaskQueued (t_id t) (t_subcommand t) (t_slug t) (t_requestedTimeout t) index occurredAt]
  | None => []
  end.

Fixpoint requeued_events (h : gmap nat Task) (index : Z) (occurredAt : Time)
    (ps : list TaskLaunchPayload) : list Event :=
  match ps with
  | [] => []
  | p :: ps => requeued_event h (index + 1) occurredAt p ++ requeued_events h (index + 1) occurredAt ps
  end.

(** Every queued task knows its one-based place. *)
Definition positions_ok (h : gmap nat Task) (ps : list TaskLaunchPayload) : Prop :=
  forall (k : nat) p l t, ps !! k = Some p -> p_Task p = Some l -> h !! l = Some t ->
    t_queuePosition t = Z.of_nat k + 1.

Record queue_inv (s : QState) : Prop := {
  qi_queued : Forall (queued_payload (heap s)) (payloads s);
  qi_nodup : NoDup (locs (payloads s));
  qi_positions : positions_ok (heap s) (payloads s) }.

(** Two queued tasks, for the examples. *)
Definition example_payload (l : loc) : TaskLaunchPayload :=
  mkPayload (Some l) "gpt-5.6-terra" None "prompt" [] (mkTimeout None 1800) "workspace-write"
    "/home/u/repo" (Some "/home/u/repo"%string) WorktreeModeAuto None.

Definition example_QState : QState :=
  mkQState {[ 0%nat := example_task;
              1%nat := example_task <| t_id := "plan-20260924-120001-1b2c-next" |>
                         <| t_subcommand := SubcommandPlan |> <| t_slug := "next" |>
                         <| t_queuePosition := 2 |> ]}
    [example_payload 0; example_payload 1] ∅ ∅ ∅.

(** ** Lemmas *)

Ltac unfold_pm := unfold mbind, mret, PM_mbind, PM_mret, pm_get, pm_modify, pm_panic, pm_assert in *.

Lemma deref_queued (p : TaskLaunchPayload) (s : QState) :
  queued_payload (heap s) p ->
  exists l t, p_Task p = Some l /\ heap s !! l = Some t /\ t_state t = StateQueued /\ deref p s = Some (s, t).
Proof.
  intros (l & t & Hl & Ht & Hq). exists l, t. repeat split; auto.
  unfold deref. unfold_pm. by rewrite Hl, Ht.
Qed.

Lemma validate_ok (p : TaskLaunchPayload) (s : QState) :
  queued_payload (heap s) p -> validateQueuedPayload p s = Some (s, tt).
Proof.
  intros (l & t & _ & _ & Hq & E)%deref_queued. unfold validateQueuedPayload. unfold_pm.
  by rewrite E, bool_decide_eq_true_2.
Qed.

Lemma validate_each_ok (ps : list TaskLaunchPayload) (s : QState) :
  Forall (queued_payload (heap s)) ps -> validate_each ps s = Some (s, tt).
Proof.
  induction 1 as [|p ps Hp _ IH]; [done|]. simpl. unfold mbind, PM_mbind in *. by rewrite validate_ok.
Qed.

Lemma validateAll_ok (s : QState) :
  Forall (queued_payload (heap s)) (payloads s) -> validateAll s = Some (s, tt).
Proof. apply validate_each_ok. Qed.

Lemma Requeue_queued (t : Task) (q : Z) (at_ : Time) :
  t_state t = StateQueued ->
  Task_Requeue q at_ t = (renumber q t,
    Ok [TaskQueued (t_id t) (t_subcommand t) (t_slug t) (t_requestedTimeout t) q at_]).
Proof. destruct t; simpl. by intros ->. Qed.

Lemma queued_payload_alter (h : gmap nat Task) (p : TaskLaunchPayload) (l : nat) (q : Z) :
  queued_payload h p -> queued_payload (alter (renumber q) l h) p.
Proof.
  intros (l' & t & Hl & Ht & Hq). destruct (decide (l = l')) as [->|Hne].
  - exists l', (renumber q t). by rewrite lookup_alter_eq, Ht.
  - exists l', t. by rewrite lookup_alter_ne.
Qed.

Lemma Forall_queued_alter (h : gmap nat Task) (ps : list TaskLaunchPayload) (l : nat) (q : Z) :
  Forall (queued_payload h) ps -> Forall (queued_payload (alter (renumber q) l h)) ps.
Proof. induction 1; constructor; auto using queued_payload_alter. Qed.

Lemma requeued_events_alter (h : gmap nat Task) (l : nat) (q i : Z) (at_ : Time) ps :
  requeued_events (alter (renumber q) l h) i at_ ps = requeued_events h i at_ ps.
Proof.
  revert i. induction ps as [|p ps IH]; intros i; [done|]. simpl. rewrite IH. f_equal.
  unfold requeued_event. destruct (p_Task p) as [l'|]; [|done]. simpl.
  destruct (decide (l = l')) as [->|Hne]; [|by rewrite lookup_alter_ne].
  rewrite lookup_alter_eq. by destruct (h !! l').
Qed.

Lemma reindex_from_spec (ps : list TaskLaunchPayload) (i : Z) (at_ : Time) (s : QState) :
  Forall (queued_payload (heap s)) ps ->
  reindex_from i ps at_ s = Some (s <| heap := repos i ps (heap s) |>, requeued_events (heap s) i at_ ps).
Proof.
  revert i s. induction ps as [|p ps IH]; intros i s H; [by destruct s|].
  inversion_clear H as [|? ? Hp Hps]. cbn [reindex_from]. unfold call_method. unfold_pm.
  destruct (deref_queued p s Hp) as (l & t & Hl & Ht & Hq & E). rewrite E, Hl.
  rewrite Requeue_queued by done.
  assert (<[l := renumber (i + 1) t]> (heap s)
    = alter (renumber (i + 1)) l (heap s)) as Ea.
  { apply map_eq. intros l'. destruct (decide (l = l')) as [->|Hne].
    - by rewrite lookup_insert_eq, lookup_alter_eq, Ht.
    - by rewrite lookup_insert_ne, lookup_alter_ne. }
  rewrite Ea, IH.
  - cbn. rewrite requeued_events_alter. unfold requeued_event. rewrite Hl. cbn. rewrite Ht.
    by destruct s.
  - cbn. by apply Forall_queued_alter.
Qed.

Lemma repos_lookup (ps : list TaskLaunchPayload) (i : Z) (h : gmap nat Task) (l : nat) :
  l ∉ locs ps -> repos i ps h !! l = h !! l.
Proof.
  revert i h. induction ps as [|p ps IH]; intros i h Hl; [done|]. cbn in *.
  destruct (p_Task p) as [l'|]; [|auto].
  apply not_elem_of_cons in Hl as [Hne Hl]. rewrite IH by done. by rewrite lookup_alter_ne.
Qed.

Lemma repos_lookup_at (ps : list TaskLaunchPayload) (i : Z) (h : gmap nat Task) k p l t :
  NoDup (locs ps) -> Forall (queued_payload h) ps ->
  ps !! k = Some p -> p_Task p = Some l -> h !! l = Some t ->
  repos i ps h !! l = Some (renumber (i + Z.of_nat k + 1) t).
Proof.
  revert i h k. induction ps as [|p' ps IH]; intros i h k Hnd Hq Hk Hl Ht; [done|].
  inversion_clear Hq as [|? ? Hp' Hps]. destruct Hp' as (l' & t' & Hl' & Ht' & _).
  cbn in *. rewrite Hl' in Hnd |- *. apply list.NoDup_cons in Hnd as [Hnotin Hnd].
  destruct k as [|k]; cbn in Hk.
  - simplify_eq. rewrite repos_lookup by done. rewrite lookup_alter_eq, Ht. cbn. by rewrite Z.add_0_r.
  - assert (l' <> l) as Hne.
    { intros ->. apply Hnotin. apply list_elem_of_omap. exists p. split; [|done]. by eapply list_elem_of_lookup_2. }
    rewrite (IH _ _ k); [do 2 f_equal; lia|done| |done|done|by rewrite lookup_alter_ne].
    by apply Forall_queued_alter.
Qed.

Lemma renumber_same (t : Task) : renumber (t_queuePosition t) t = t.
Proof. by destruct t. Qed.

Lemma repos_lookup_any (ps : list TaskLaunchPayload) (i : Z) (h : gmap nat Task) (l : nat) :
  exists q, repos i ps h !! l = renumber q <$> h !! l.
Proof.
  revert i h. induction ps as [|p ps IH]; intros i h; cbn.
  - destruct (h !! l) as [t|]; [|by exists 0]. exists (t_queuePosition t). cbn. by rewrite renumber_same.
  - destruct (IH (i + 1) (match p_Task p with
         | Some l => alter (renumber (i + 1)) l h | None => h end)) as (q & ->).
    exists q. destruct (p_Task p) as [l'|]; [|done].
    destruct (decide (l' = l)) as [->|Hne]; [|by rewrite lookup_alter_ne].
    rewrite lookup_alter_eq. by destruct (h !! l).
Qed.

Lemma repos_queued (ps ps' : list TaskLaunchPayload) (i : Z) (h : gmap nat Task) :
  Forall (queued_payload h) ps' -> Forall (queued_payload (repos i ps h)) ps'.
Proof.
  induction 1 as [|p ps' (l & t & Hl & Ht & Hq) _ IH]; constructor; [|done].
  destruct (repos_lookup_any ps i h l) as (q & E). exists l, (renumber q t). by rewrite E, Ht.
Qed.

Lemma repos_positions (ps : list TaskLaunchPayload) (h : gmap nat Task) :
  NoDup (locs ps) -> Forall (queued_payload h) ps -> positions_ok (repos 0 ps h) ps.
Proof.
  intros Hnd Hq k p l t Hk Hl Ht. destruct (repos_lookup_any ps 0 h l) as (q & E).
  rewrite E in Ht. destruct (h !! l) as [t0|] eqn:Et0; [|done]. cbn in Ht. simplify_eq.
  rewrite (repos_lookup_at ps 0 h k p l t0) in E by done. cbn in E. injection E. unfold renumber. cbn. lia.
Qed.

(** Renumbering a queue whose places are already right changes nothing. *)
Lemma repos_id (ps : list TaskLaunchPayload) (h : gmap nat Task) :
  NoDup (locs ps) -> Forall (queued_payload h) ps -> positions_ok h ps -> repos 0 ps h = h.
Proof.
  intros Hnd Hq Hpos. apply map_eq. intros l. destruct (decide (l ∈ locs ps)) as [Hin|Hin].
  - apply list_elem_of_omap in Hin as (p & Hp & Hl). apply list_elem_of_lookup_1 in Hp as (k & Hk).
    destruct (Forall_lookup_1 _ _ _ _ Hq Hk) as (l' & t & Hl' & Ht & _). simplify_eq.
    rewrite (repos_lookup_at ps 0 h k p l t), Ht by done. f_equal.
    rewrite <- (renumber_same t) at 2. f_equal. rewrite (Hpos k p l t) by done. lia.
  - by apply repos_lookup.
Qed.

(** Only the places differ after a renumbering, so a second one absorbs it. *)
Lemma repos_absorb (ps ps' : list TaskLaunchPayload) (i : Z) (h : gmap nat Task) :
  NoDup (locs ps) -> Forall (queued_payload h) ps -> (forall l, l ∈ locs ps' -> l ∈ locs ps) ->
  repos 0 ps (repos i ps' h) = repos 0 ps h.
Proof.
  intros Hnd Hq Hsub. apply map_eq. intros l. destruct (decide (l ∈ locs ps)) as [Hin|Hin].
  - apply list_elem_of_omap in Hin as (p & Hp & Hl). apply list_elem_of_lookup_1 in Hp as (k & Hk).
    destruct (Forall_lookup_1 _ _ _ _ Hq Hk) as (l' & t & Hl' & Ht & _). simplify_eq.
    destruct (repos_lookup_any ps' i h l) as (q & E). rewrite Ht in E.
    rewrite (repos_lookup_at ps 0 h k p l t) by done.
    by rewrite (repos_lookup_at ps 0 _ k p l (renumber q t)) by eauto using repos_queued.
  - rewrite !repos_lookup; auto.
Qed.

Lemma locs_app (ps ps' : list TaskLaunchPayload) : locs (ps ++ ps') = locs ps ++ locs ps'.
Proof. apply omap_app. Qed.

Lemma locs_insert_perm (ps : list TaskLaunchPayload) (k : nat) p :
  ps !! k = Some p -> ps ≡ₚ p :: take k ps ++ drop (S k) ps.
Proof. intros H. rewrite <- (take_drop_middle ps k p H) at 1. by rewrite Permutation_middle. Qed.

Lemma Reindex_spec (s : QState) (at_ : Time) :
  Forall (queued_payload (heap s)) (payloads s) ->
  Reindex at_ s = Some (s <| heap := repos 0 (payloads s) (heap s) |>,
                        requeued_events (heap s) 0 at_ (payloads s)).
Proof.
  intros H. unfold Reindex, reindex. unfold_pm. rewrite validateAll_ok by done. by apply reindex_from_spec.
Qed.

Lemma QState_heap_same (s : QState) (h : gmap nat Task) : h = heap s -> s <| heap := h |> = s.
Proof. intros ->. by destruct s. Qed.

Lemma queue_inv_repos (s : QState) (ps : list TaskLaunchPayload) :
  NoDup (locs ps) -> Forall (queued_payload (heap s)) ps ->
  queue_inv (s <| payloads := ps |> <| heap := repos 0 ps (heap s) |>).
Proof. intros Hnd Hq. split; cbn; [by apply repos_queued|done|by apply repos_positions]. Qed.

Lemma sublist_inv (s : QState) (i : nat) :
  queue_inv s ->
  let ps := take i (payloads s) ++ drop (S i) (payloads s) in
  NoDup (locs ps) /\ Forall (queued_payload (heap s)) ps /\ (forall l, l ∈ locs ps -> l ∈ locs (payloads s)).
Proof.
  intros [Hq Hnd _] ps.
  assert (ps `sublist_of` payloads s) as Hsub.
  { rewrite <- (take_drop i (payloads s)) at 1. unfold ps. apply sublist_app; [done|].
    rewrite <- Nat.add_1_r, <- drop_drop. apply sublist_drop. }
  assert (locs ps `sublist_of` locs (payloads s)) as Hsub'.
  { clear -Hsub. unfold locs. induction Hsub as [|x l1 l2 _ IH|x l1 l2 _ IH]; cbn; [done| |];
      destruct (p_Task x); try done; by constructor. }
  split; [by eapply sublist_NoDup|]. split; [|by intros l Hl; eapply elem_of_sublist].
  apply list.Forall_forall. intros p Hp. rewrite list.Forall_forall in Hq. apply Hq. by eapply elem_of_sublist.
Qed.

Lemma Remove_found (s : QState) (id : TaskID) (at_ : Time) (i : nat) p :
  queue_inv s -> list_findi (has_id (heap s) id) (payloads s) = Some (i, p) ->
  let ps := take i (payloads s) ++ drop (S i) (payloads s) in
  Remove id at_ s = Some (s <| payloads := ps |> <| heap := repos 0 ps (heap s) |>,
                          Some (p, Z.of_nat i, requeued_events (heap s) 0 at_ ps)).
Proof.
  intros Hs Hf ps. destruct (sublist_inv s i Hs) as (Hnd & Hq & _).
  unfold Remove, reindex. unfold_pm. rewrite validateAll_ok by apply Hs. rewrite Hf.
  by rewrite reindex_from_spec.
Qed.

Lemma Restore_removed (s : QState) (at_ : Time) (i : nat) p :
  queue_inv s -> payloads s !! i = Some p ->
  let ps := take i (payloads s) ++ drop (S i) (payloads s) in
  QueueRestore p (Z.of_nat i) at_ (s <| payloads := ps |> <| heap := repos 0 ps (heap s) |>)
  = Some (s, requeued_events (repos 0 ps (heap s)) 0 at_ (payloads s)).
Proof.
  intros Hs Hi ps. destruct (sublist_inv s i Hs) as (Hnd & Hq & Hsub). fold ps in Hnd, Hq, Hsub.
  pose proof (lookup_lt_Some _ _ _ Hi) as Hlt.
  assert (length (take i (payloads s)) = i) as Hlen by (rewrite length_take; lia).
  unfold QueueRestore, reindex. unfold_pm.
  rewrite validateAll_ok by (cbn; by apply repos_queued).
  rewrite validate_ok.
  2: { eapply (Forall_lookup_1 (queued_payload _) (payloads s) i p); [|done]. cbn. apply repos_queued, Hs. }
  assert (Len (s <| payloads := ps |> <| heap := repos 0 ps (heap s) |>) = Z.of_nat (length (payloads s) - 1)) as ->.
  { unfold Len, ps. cbn. rewrite length_app, length_take, length_drop. lia. }
  destruct (Z.ltb_spec (Z.of_nat i) 0); [lia|].
  destruct (Z.ltb_spec (Z.of_nat (length (payloads s) - 1)) (Z.of_nat i)); [lia|].
  cbn -[ps repos take drop]. rewrite Nat2Z.id.
  assert (take i ps ++ p :: drop i ps = payloads s) as ->.
  { unfold ps. rewrite take_app_length' by done. rewrite drop_app_length' by done. by apply take_drop_middle. }
  rewrite reindex_from_spec by (cbn; apply repos_queued, Hs). cbn -[ps repos].
  rewrite repos_absorb by (done || apply Hs). rewrite repos_id by apply Hs. by destruct s.
Qed.

(** ** Properties *)

(** Taking a task out of the middle of the queue and putting it back.
    [Remove] of an absent task changes nothing; of a present one it never
    panics, takes exactly the entry [Lookup] reports, leaves a well-formed queue
    whose tasks all know their new place, and [Restore] at the reported index
    then gives back the original state, places included. *)
Theorem Remove_Restore_roundtrip (s : QState) (id : TaskID) (at1 at2 : Time) :
  queue_inv s ->
  match queue_Lookup s id with
  | None => Remove id at1 s = Some (s, None)
  | Some (p, i) => exists s1 evs evs',
      Remove id at1 s = Some (s1, Some (p, i, evs))
      /\ payloads s ≡ₚ p :: payloads s1
      /\ queue_inv s1
      /\ QueueRestore p i at2 s1 = Some (s, evs')
  end.
Proof.
  intros Hs. unfold queue_Lookup.
  destruct (list_findi (has_id (heap s) id) (payloads s)) as [[i p]|] eqn:Hf.
  - destruct (sublist_inv s i Hs) as (Hnd & Hq & _).
    pose proof (list_findi_Some _ _ _ _ Hf) as (Hi & _ & _).
    do 3 eexists. split; [by apply Remove_found|].
    split; [by apply locs_insert_perm|]. split; [by apply queue_inv_repos|by apply Restore_removed].
  - unfold Remove. unfold_pm. by rewrite validateAll_ok, Hf by apply Hs.
Qed.

Lemma example_queue_inv : queue_inv example_QState.
Proof.
  split.
  - repeat constructor; [exists 0%nat|exists 1%nat]; by eexists.
  - unfold locs. cbn. repeat constructor; set_solver.
  - intros [|[|k]] p l t Hk Hl Ht; cbn in Hk; simplify_eq; cbn in Hl; simplify_eq; vm_compute in Ht; simplify_eq; done.
Qed.

Lemma Remove_Restore_roundtrip_witness :
  exists s1 evs evs',
    Remove "impl-20260924-120000-0af9-fix" 5 example_QState = Some (s1, Some (example_payload 0, 0, evs))
    /\ payloads example_QState ≡ₚ example_payload 0 :: payloads s1
    /\ queue_inv s1
    /\ QueueRestore (example_payload 0) 0 6 s1 = Some (example_QState, evs').
Proof.
  exact (Remove_Restore_roundtrip example_QState "impl-20260924-120000-0af9-fix" 5 6 example_queue_inv).
Defined.
