(* ===== verification/Admission.v ===== *)
(** * Admission, promotion and cancellation of queued tasks
    ([internal/execution/usecase/admit.go], [advance.go], [slotreleaser.go],
    [internal/transport/usecase/cancel.go])

    The use cases that run under the queue mutex, each one atomic step on
    [QState], and the loop that starts queued tasks when a slot is released.
    [step] interleaves them with everything the rest of the daemon may do to
    the tasks it owns; the theorems are about every reachable interleaving. *)

From S2P Require Import Prelude.
From S2P Require Import GoStrings.
From S2P Require Import Errors.
From S2P Require Import Domain.
From S2P Require Import Task.
From S2P Require Import Snapshot.
From S2P Require Import Queue.

(** ** Configuration and inputs *)

Record Limits : Type := mkLimits {
  maxConcurrentTasks : Z;
  maxConcurrentImplTasks : Z;
  queueMaxDepth : Z }.

Definition WorktreeMode_isEmpty (m : WorktreeMode) : bool :=
  match m with WorktreeModeOther raw => (raw =? "")%string | _ => false end.

Definition validateAdmissionInput (input : TaskAdmissionInput) : res unit :=
  let required (what : string) := Err (Errorf "task admission input %s is required" [what]) in
  if (in_TaskID input =? "")%string then required "task ID"%string
  else if (Subcommand_string (in_Subcommand input) =? "")%string then required "subcommand"%string
  else if (in_Slug input =? "")%string then required "slug"%string
  else if IsZero (in_RequestedAt input) then required "requested at"%string
  else if (in_Model input =? "")%string then required "model"%string
  else if (in_PromptText input =? "")%string then required "prompt text"%string
  else if to_resolvedSeconds (in_ResolvedTimeout input) =? 0 then required "resolved timeout"%string
  else if (in_SandboxMode input =? "")%string then required "sandbox mode"%string
  else if (in_SourceWorkingDir input =? "")%string then required "source working directory"%string
  else if WorktreeMode_isEmpty (in_WorktreeMode input) then required "worktree mode"%string
  else Ok tt.

(** ** AdmitTaskUseCase *)

Definition implAvailable (cfg : Limits) (sub : Subcommand) (s : QState) : bool :=
  bool_decide (sub <> SubcommandImpl) || (ImplSize s <? maxConcurrentImplTasks cfg).

Definition payload_of_input (input : TaskAdmissionInput) (task : option loc) : TaskLaunchPayload :=
  mkPayload task (in_Model input) (in_ReasoningEffort input) (in_PromptText input)
    (in_NormalizedPaths input) (in_ResolvedTimeout input) (in_SandboxMode input)
    (in_SourceWorkingDir input)
    (if bool_decide (in_Subcommand input <> SubcommandImpl)
        || bool_decide (in_WorktreeMode input = WorktreeModeCurrent)
     then Some (in_SourceWorkingDir input) else None)
    (in_WorktreeMode input) (in_OutputSchemaPath input).

Definition Admit_Execute (cfg : Limits) (input : TaskAdmissionInput) : QM (res TaskAdmissionResult) :=
  match validateAdmissionInput input with
  | Err e => mret (Err e)
  | Ok _ =>
    s ← pm_get;
    let globalAvailable := Size s <? maxConcurrentTasks cfg in
    let fifoAvailable := Len s =? 0 in
    let immediate := globalAvailable && implAvailable cfg (in_Subcommand input) s && fifoAvailable in
    if negb immediate && (queueMaxDepth cfg <=? Len s + promotions_Len s)
    then mret (Err (DErr ErrQueueFull))
    else
      match NewTask (in_TaskID input) (in_Subcommand input) (in_Slug input) (in_RequestedTimeout input)
              (in_RequestedAt input) (Len s + 1) with
      | Err e => mret (Err e)
      | Ok (task, events) =>
        l ← alloc task;
        let payload := payload_of_input input (Some l) in
        if immediate then
          match NewTaskSnapshotFromAdmission task (in_ResolvedTimeout input) (in_Model input)
                  (in_ReasoningEffort input) (in_SandboxMode input) (p_WorkingDir payload)
                  ExecutionRouteDaemon (t_requestedAt task) with
          | Err e => mret (Err e)
          | Ok snapshot =>
              registry_Add (t_id task) (in_Subcommand input);;
              launching_Register (t_id task) snapshot;;
              mret (Ok (mkAdmissionResult StateQueued None events (Some payload)))
          end
        else
          position ← Enqueue payload;
          mret (Ok (mkAdmissionResult StateQueued (Some position) events None))
      end
  end.

Definition Admit_CompensateRejectedStart (taskID : TaskID) : QM unit :=
  launching_Unregister taskID;; registry_Remove taskID.

(** ** AdvanceQueueUseCase

    [ctx n] is what the [n]-th call of [ctx.Err()] in the method returns, so a
    cancellation can arrive between any two statements. *)

Definition Advance_Execute (cfg : Limits) (ctx : nat -> option error) (taskID : TaskID) (now : Time)
    : QM (res (option TaskLaunchPayload)) :=
  match ctx 0%nat with Some e => mret (Err e) | None =>
  match ctx 1%nat with Some e => mret (Err e) | None =>
  registry_Remove taskID;;
  match ctx 2%nat with Some e => mret (Err e) | None =>
  dequeued ← Dequeue;
  match dequeued with
  | None => mret (Ok None)
  | Some payload =>
    task ← deref payload;
    if negb (bool_decide (t_state task = StateQueued))
    then mret (Err (DErr ErrInvalidStateTransition))
    else
      s ← pm_get;
      let globalAvailable := Size s <? maxConcurrentTasks cfg in
      if negb globalAvailable || negb (implAvailable cfg (t_subcommand task) s)
      then Prepend payload;; mret (Ok None)
      else
        match ctx 3%nat with Some e => Prepend payload;; mret (Err e) | None =>
        match NewTaskSnapshotFromAdmission task (p_ResolvedTimeout payload) (p_Model payload)
                (p_ReasoningEffort payload) (p_SandboxMode payload) (p_WorkingDir payload)
                ExecutionRouteDaemon now with
        | Err e => Prepend payload;; mret (Err e)
        | Ok snapshot =>
          registry_Add (t_id task) (t_subcommand task);;
          match ctx 4%nat with
          | Some e =>
              registry_Remove (t_id task);; Prepend payload;; Reindex now;; mret (Err e)
          | None =>
            launching_Register (t_id task) snapshot;;
            match ctx 5%nat with
            | Some e =>
                launching_Unregister (t_id task);; registry_Remove (t_id task);;
                Prepend payload;; Reindex now;; mret (Err e)
            | None =>
                promotions_Reserve (t_id task);;
                Reindex now;;
                mret (Ok (Some payload))
            end
          end
        end
        end
  end
  end
  end
  end.

Definition Advance_CompensateRejectedStart (payload : TaskLaunchPayload) (now : Time) : QM unit :=
  if is_none (p_Task payload) then mret tt
  else
    task ← deref payload;
    resolved ← promotions_Resolve (t_id task);
    if negb resolved then mret tt
    else
      launching_Unregister (t_id task);; registry_Remove (t_id task);;
      Prepend payload;; Reindex now;; mret tt.

Definition Advance_CommitStart (payload : TaskLaunchPayload) : QM unit :=
  if is_none (p_Task payload) then mret tt
  else task ← deref payload; promotions_Resolve (t_id task);; mret tt.

(** ** slotFinalizer

    [for { ... }] with fuel; [None] in the result means the fuel ran out.
    [start i] is what the lifecycle starter answers in round [i]; the payloads
    it accepted are returned in order. *)

Fixpoint ReleaseAndAdvance (fuel : nat) (cfg : Limits) (ctx : nat -> nat -> option error)
    (start : nat -> bool) (i : nat) (taskID : TaskID) (now : Time)
    : QM (option (list TaskLaunchPayload)) :=
  match fuel with
  | O => mret None
  | S fuel =>
      advanced ← Advance_Execute cfg (ctx i) taskID now;
      match advanced with
      | Err _ | Ok None => mret (Some [])
      | Ok (Some payload) =>
          if negb (start i)
          then Advance_CompensateRejectedStart payload now;; mret (Some [])
          else
            Advance_CommitStart payload;;
            rest ← ReleaseAndAdvance fuel cfg ctx start (S i) taskID now;
            mret (cons payload <$> rest)
      end
  end.

(** ** CancelTaskUseCase on a queued task

    [save] answers [tasks.Save]; on every path that does not commit, the
    deferred function puts the payload back. *)

Definition cancelQueued (save : TaskSnapshot -> option error) (force : bool) (occurredAt : Time)
    (payload : TaskLaunchPayload) (index : Z) : QM (res (list Event)) :=
  task ← deref payload;
  pm_assert (bool_decide (t_state task = StateQueued));;
  let '(candidate, cancelled) := Task_RequestCancel force occurredAt task in
  let outcome :=
    events ← cancelled;
    snapshot ← NewTaskSnapshotFromAdmission candidate (p_ResolvedTimeout payload) (p_Model payload)
                 (p_ReasoningEffort payload) (p_SandboxMode payload) (p_WorkingDir payload)
                 ExecutionRouteDaemon occurredAt;
    match save snapshot with Some e => Err e | None => Ok events end in
  match outcome with
  | Ok events => mret (Ok events)
  | Err e => QueueRestore payload index occurredAt;; mret (Err e)
  end.

(** The queue half of [CancelTaskUseCase.Execute]; [None]: not queued. *)
Definition Cancel_queue_section (save : TaskSnapshot -> option error) (taskID : TaskID) (force : bool)
    (occurredAt : Time) : QM (option (res (list Event))) :=
  removed ← Remove taskID occurredAt;
  match removed with
  | None => mret None
  | Some (payload, index, _) => Some <$> cancelQueued save force occurredAt payload index
  end.

(** ** Specification vocabulary *)

(** At most the configured number of slots is reserved. *)
Definition capacity_ok (cfg : Limits) (m : gmap string Subcommand) : Prop :=
  Z.of_nat (size m) <= maxConcurrentTasks cfg
  /\ Z.of_nat (size (impl_reservations m)) <= maxConcurrentImplTasks cfg.

(** A slot is free for a task of kind [sub]. *)
Definition slot_free (cfg : Limits) (sub : Subcommand) (m : gmap string Subcommand) : Prop :=
  Z.of_nat (size m) < maxConcurrentTasks cfg
  /\ (sub = SubcommandImpl -> Z.of_nat (size (impl_reservations m)) < maxConcurrentImplTasks cfg).

(** The state after the queued task [t], at the head [p] of the queue, is
    promoted with [rest] behind it. *)
Definition promoted (s : QState) (id : TaskID) (t : Task) (rest : list TaskLaunchPayload)
    (snapshot : TaskSnapshot) : QState :=
  mkQState (repos 0 rest (heap s)) rest
    (<[t_id t := t_subcommand t]> (delete id (reservations s)))
    (<[t_id t := snapshot]> (snapshots s))
    (promotions s ∪ {[t_id t]}).

(** ** Lemmas *)

Lemma size_insert_le {A : Type} (m : gmap string A) (k : string) (v : A) :
  (size (<[k := v]> m) <= S (size m))%nat.
Proof. rewrite map_size_insert. case_match; simpl; lia. Qed.

Lemma impl_size_insert (m : gmap string Subcommand) (k : string) (sub : Subcommand) :
  (size (impl_reservations (<[k := sub]> m))
   <= size (impl_reservations m) + (if decide (sub = SubcommandImpl) then 1 else 0))%nat.
Proof.
  unfold impl_reservations. rewrite map_filter_insert. destruct (decide (sub = SubcommandImpl)) as [->|Hne].
  - rewrite size_insert_le. lia.
  - assert (filter (fun '(_, sub) => sub = SubcommandImpl) (delete k m)
      ⊆ filter (fun '(_, sub) => sub = SubcommandImpl) m) as H%map_subseteq_size.
    { apply map_filter_subseteq_mono, delete_subseteq. }
    lia.
Qed.

Lemma capacity_subseteq (cfg : Limits) (m m' : gmap string Subcommand) :
  m' ⊆ m -> capacity_ok cfg m -> capacity_ok cfg m'.
Proof.
  intros Hsub [H1 H2]. assert (impl_reservations m' ⊆ impl_reservations m) as Hi.
  { by apply map_filter_subseteq_mono. }
  apply map_subseteq_size in Hsub, Hi. unfold capacity_ok. lia.
Qed.

Lemma capacity_insert (cfg : Limits) (m : gmap string Subcommand) (k : string) (sub : Subcommand) :
  capacity_ok cfg m -> slot_free cfg sub m -> capacity_ok cfg (<[k := sub]> m).
Proof.
  intros [H1 H2] [H3 H4]. pose proof (size_insert_le m k sub). pose proof (impl_size_insert m k sub).
  unfold capacity_ok. destruct (decide (sub = SubcommandImpl)) as [E|E]; [specialize (H4 E)|]; lia.
Qed.

Lemma slot_free_spec (cfg : Limits) (sub : Subcommand) (s : QState) :
  (Size s <? maxConcurrentTasks cfg) && implAvailable cfg sub s = true
  <-> slot_free cfg sub (reservations s).
Proof.
  unfold slot_free, implAvailable, Size, ImplSize.
  rewrite andb_true_iff, orb_true_iff, !Z.ltb_lt, bool_decide_eq_true.
  destruct (decide (sub = SubcommandImpl)); naive_solver.
Qed.

Lemma queue_inv_tail (s : QState) p (rest : list TaskLaunchPayload) :
  queue_inv s -> payloads s = p :: rest ->
  queued_payload (heap s) p /\ NoDup (locs rest) /\ Forall (queued_payload (heap s)) rest.
Proof.
  intros [Hq Hnd _] E. rewrite E in Hq, Hnd. inversion_clear Hq as [|? ? Hp Hrest]. repeat split; auto.
  destruct Hp as (l & t & Hl & _). unfold locs in *. cbn in Hnd. rewrite Hl in Hnd. by inversion_clear Hnd.
Qed.

Lemma Prepend_ok (s : QState) p :
  queued_payload (heap s) p -> Prepend p s = Some (s <| payloads := p :: payloads s |>, tt).
Proof. intros H. unfold Prepend. unfold_pm. by rewrite validate_ok. Qed.

Lemma Reindex_id (s : QState) (at_ : Time) :
  NoDup (locs (payloads s)) -> Forall (queued_payload (heap s)) (payloads s) ->
  positions_ok (heap s) (payloads s) ->
  Reindex at_ s = Some (s, requeued_events (heap s) 0 at_ (payloads s)).
Proof. intros. rewrite Reindex_spec by done. by rewrite QState_heap_same by (by apply repos_id). Qed.

(** What [AdvanceQueueUseCase.Execute] does, on every path. *)
Definition advance_outcome (cfg : Limits) (id : TaskID) (s s' : QState)
    (r : res (option TaskLaunchPayload)) : Prop :=
  match r with
  | Ok (Some p) => exists l t rest snapshot,
      payloads s = p :: rest /\ p_Task p = Some l /\ heap s !! l = Some t
      /\ slot_free cfg (t_subcommand t) (delete id (reservations s))
      /\ s' = promoted s id t rest snapshot
  | _ => heap s' = heap s /\ payloads s' = payloads s /\ promotions s' = promotions s
         /\ reservations s' ⊆ reservations s
  end.

Arguments advance_outcome : simpl never.

Lemma unchanged_outcome (cfg : Limits) (id : TaskID) (s : QState) m sn (r : res (option TaskLaunchPayload)) :
  match r with Ok (Some _) => False | _ => True end -> m ⊆ reservations s ->
  advance_outcome cfg id s (mkQState (heap s) (payloads s) m sn (promotions s)) r.
Proof. by destruct r as [[]|]. Qed.

Lemma delete_insert_delete_subseteq (m : gmap string Subcommand) (k k' : string) (v : Subcommand) :
  delete k (<[k := v]> (delete k' m)) ⊆ m.
Proof. rewrite delete_insert_eq. etrans; apply delete_subseteq. Qed.

Lemma Advance_Execute_outcome (cfg : Limits) ctx (id : TaskID) (now : Time) (s : QState) :
  queue_inv s ->
  exists s' r, Advance_Execute cfg ctx id now s = Some (s', r) /\ advance_outcome cfg id s s' r.
Proof.
  intros Hs. unfold Advance_Execute.
  destruct (ctx 0%nat); [by eexists _, _|]. destruct (ctx 1%nat); [by eexists _, _|].
  unfold registry_Remove, registry_Add, launching_Register, launching_Unregister, promotions_Reserve, Dequeue.
  unfold_pm.
  destruct (ctx 2%nat).
  { do 2 eexists. split; [done|]. by apply unchanged_outcome, delete_subseteq. }
  cbn. destruct (payloads s) as [|p rest] eqn:Eps.
  { do 2 eexists. split; [done|]. rewrite <- Eps. by apply unchanged_outcome, delete_subseteq. }
  destruct (queue_inv_tail s p rest Hs Eps) as (Hp & Hnd & Hrest).
  assert (forall m sn pr, exists evs,
    Reindex now (mkQState (heap s) (p :: rest) m sn pr) = Some (mkQState (heap s) (p :: rest) m sn pr, evs)) as HR.
  { intros m sn pr. eexists. rewrite <- Eps. apply Reindex_id; apply Hs. }
  pose proof Hp as (l & t & Hl & Ht & Hq).
  match goal with |- context [deref p ?s1] =>
    destruct (deref_queued p s1 Hp) as (l' & t' & Hl' & Ht' & _ & ->) end.
  cbn in Ht'. simplify_eq. rewrite bool_decide_eq_true_2 by done. cbn -[Size implAvailable Prepend Reindex].
  rewrite <- negb_andb.
  match goal with |- context [(Size ?s1 <? _) && implAvailable _ _ ?s1] =>
    pose proof (slot_free_spec cfg (t_subcommand t) s1) as Hfree end.
  match goal with |- context [negb ?b] => destruct b end; cbn -[Prepend Reindex];
    [|rewrite Prepend_ok by done; do 2 eexists; split; [done|]; cbn; rewrite <- Eps;
      by apply unchanged_outcome, delete_subseteq].
  apply proj1 in Hfree. specialize (Hfree eq_refl). cbn in Hfree.
  destruct (ctx 3%nat).
  { rewrite Prepend_ok by done. do 2 eexists. split; [done|]. cbn. rewrite <- Eps.
    by apply unchanged_outcome, delete_subseteq. }
  destruct (NewTaskSnapshotFromAdmission _ _ _ _ _ _ _ _) as [snapshot|].
  2: { rewrite Prepend_ok by done. do 2 eexists. split; [done|]. cbn. rewrite <- Eps.
    by apply unchanged_outcome, delete_subseteq. }
  destruct (ctx 4%nat).
  { rewrite Prepend_ok by done. cbn -[Reindex].
    match goal with |- context [Reindex now (mkQState _ _ ?m ?sn ?pr)] => destruct (HR m sn pr) as (? & ->) end.
    do 2 eexists. split; [done|]. cbn. rewrite <- Eps.
    by apply unchanged_outcome, delete_insert_delete_subseteq. }
  destruct (ctx 5%nat).
  { rewrite Prepend_ok by done. cbn -[Reindex].
    match goal with |- context [Reindex now (mkQState _ _ ?m ?sn ?pr)] => destruct (HR m sn pr) as (? & ->) end.
    do 2 eexists. split; [done|]. cbn. rewrite <- Eps.
    by apply unchanged_outcome, delete_insert_delete_subseteq. }
  rewrite Reindex_spec by done. cbn.
  do 2 eexists. split; [done|]. by exists l, t, rest, snapshot.
Qed.

Lemma Compensate_resolved (s : QState) p l t (now : Time) :
  Forall (queued_payload (heap s)) (p :: payloads s) ->
  p_Task p = Some l -> heap s !! l = Some t -> t_id t ∈ promotions s ->
  Advance_CompensateRejectedStart p now s =
    Some (mkQState (repos 0 (p :: payloads s) (heap s)) (p :: payloads s)
            (delete (t_id t) (reservations s)) (delete (t_id t) (snapshots s))
            (promotions s ∖ {[t_id t]}), tt).
Proof.
  intros Hq Hl Ht Hin. unfold Advance_CompensateRejectedStart, launching_Unregister, registry_Remove, promotions_Resolve.
  rewrite Hl. unfold_pm. cbn -[deref Prepend Reindex].
  inversion Hq as [|? ? Hp Hps]; subst. destruct (deref_queued p s Hp) as (l' & t' & Hl' & Ht' & _ & ->).
  simplify_eq. rewrite decide_True by done. cbn -[Prepend Reindex]. rewrite Prepend_ok by done.
  by rewrite Reindex_spec.
Qed.

Lemma Commit_live (s : QState) p l t :
  p_Task p = Some l -> heap s !! l = Some t ->
  Advance_CommitStart p s = Some (s <| promotions := promotions s ∖ {[t_id t]} |>, tt).
Proof.
  intros Hl Ht. unfold Advance_CommitStart, promotions_Resolve, deref. rewrite Hl. unfold_pm. cbn.
  rewrite Ht. destruct (decide _); [done|]. cbn. do 2 f_equal. destruct s; cbn in *. f_equal. set_solver.
Qed.

(** What [AdmitTaskUseCase.Execute] does, on every path: [l] is the location of
    the new task. *)
Definition admit_outcome (cfg : Limits) (input : TaskAdmissionInput) (s s' : QState)
    (r : res TaskAdmissionResult) : Prop :=
  exists l t, (l ∉ dom (heap s)) /\ t_id t = in_TaskID input /\ t_state t = StateQueued
    /\ t_queuePosition t = Len s + 1 /\
  match r with
  | Err _ => s' = s \/ s' = s <| heap := <[l := t]> (heap s) |>
  | Ok result =>
      let p := payload_of_input input (Some l) in
      match ar_LaunchPayload result with
      | Some p' =>
          p' = p /\ payloads s = [] /\ slot_free cfg (in_Subcommand input) (reservations s)
          /\ exists snapshot,
             s' = s <| heap := <[l := t]> (heap s) |>
                    <| reservations := <[in_TaskID input := in_Subcommand input]> (reservations s) |>
                    <| snapshots := <[in_TaskID input := snapshot]> (snapshots s) |>
      | None =>
          ar_QueuePosition result = Some (Len s + 1)
          /\ Len s + promotions_Len s < queueMaxDepth cfg
          /\ (payloads s <> [] \/ ~ slot_free cfg (in_Subcommand input) (reservations s))
          /\ s' = s <| heap := <[l := t]> (heap s) |> <| payloads := payloads s ++ [p] |>
      end
  end.

Lemma Enqueue_ok (s : QState) p :
  queued_payload (heap s) p ->
  Enqueue p s = Some (s <| payloads := payloads s ++ [p] |>, Len s + 1).
Proof.
  intros H. unfold Enqueue. unfold_pm. rewrite validate_ok by done. cbn.
  rewrite length_app. unfold Len. do 3 f_equal. cbn. lia.
Qed.

Lemma NewTask_ok_fields id sub slug req at_ pos (t : Task) (evs : list Event) :
  NewTask id sub slug req at_ pos = Ok (t, evs) ->
  t_id t = id /\ t_state t = StateQueued /\ t_queuePosition t = pos /\ t_subcommand t = sub.
Proof. unfold NewTask. case_match; intros; simplify_eq; done. Qed.

Lemma Admit_Execute_outcome (cfg : Limits) (input : TaskAdmissionInput) (s : QState) :
  exists s' r, Admit_Execute cfg input s = Some (s', r) /\ admit_outcome cfg input s s' r.
Proof.
  unfold Admit_Execute.
  set (l := fresh (dom (heap s))). assert (l ∉ dom (heap s)) as Hl by apply is_fresh.
  set (t0 := example_task <| t_id := in_TaskID input |> <| t_queuePosition := Len s + 1 |>).
  destruct (validateAdmissionInput input) as [[]|e]; [|by eexists _, _; split; [done|]; exists l, t0; split_and!; [done|done|done|done|by left]].
  unfold_pm. pose proof (slot_free_spec cfg (in_Subcommand input) s) as Hfree.
  set (free := (Size s <? maxConcurrentTasks cfg) && implAvailable cfg (in_Subcommand input) s) in *.
  destruct (negb (free && (Len s =? 0)) && _) eqn:Hfull;
    [by eexists _, _; split; [done|]; exists l, t0; split_and!; [done|done|done|done|by left]|].
  destruct (NewTask _ _ _ _ _ _) as [[t events]|e] eqn:Hnew;
    [|by eexists _, _; split; [done|]; exists l, t0; split_and!; [done|done|done|done|by left]].
  apply NewTask_ok_fields in Hnew as (Hid & Hst & Hpos & Hsub).
  unfold alloc, registry_Add, launching_Register. unfold_pm. fold l. cbn -[NewTaskSnapshotFromAdmission Enqueue].
  destruct free; cbn -[NewTaskSnapshotFromAdmission Enqueue] in *.
  - destruct (Z.eqb_spec (Len s) 0) as [E|E]; cbn -[NewTaskSnapshotFromAdmission Enqueue] in *.
    + assert (payloads s = []) by (apply nil_length_inv; unfold Len in E; lia).
      destruct (NewTaskSnapshotFromAdmission _ _ _ _ _ _ _ _) as [snapshot|e].
      * do 2 eexists. split; [done|]. exists l, t. rewrite <- Hid. cbn.
        split_and!; auto; try (by apply Hfree). by exists snapshot.
      * do 2 eexists. split; [done|]. exists l, t. split_and!; auto.
    + rewrite Enqueue_ok by (exists l, t; cbn; by rewrite lookup_insert_eq).
      do 2 eexists. split; [done|]. exists l, t. cbn. apply Z.leb_gt in Hfull. split_and!; auto.
      left. intros E'. apply E. unfold Len. by rewrite E'.
  - rewrite Enqueue_ok by (exists l, t; cbn; by rewrite lookup_insert_eq).
    do 2 eexists. split; [done|]. exists l, t. cbn. apply Z.leb_gt in Hfull. split_and!; auto.
    right. intros H%Hfree. done.
Qed.

(** What cancelling a queued task does, on every path. *)
Definition cancel_outcome (id : TaskID) (s s' : QState) (r : option (res (list Event))) : Prop :=
  match r with
  | None | Some (Err _) => s' = s
  | Some (Ok _) => exists (i : nat) p,
      payloads s !! i = Some p
      /\ let ps := take i (payloads s) ++ drop (S i) (payloads s) in
         s' = s <| payloads := ps |> <| heap := repos 0 ps (heap s) |>
  end.

Lemma Cancel_outcome save (id : TaskID) (force : bool) (at_ : Time) (s : QState) :
  queue_inv s ->
  exists s' r, Cancel_queue_section save id force at_ s = Some (s', r) /\ cancel_outcome id s s' r.
Proof.
  intros Hs. unfold Cancel_queue_section.
  destruct (list_findi (has_id (heap s) id) (payloads s)) as [[i p]|] eqn:Hf.
  - pose proof (Remove_found s id at_ i p Hs Hf) as HR. cbn -[Remove take drop] in HR.
    unfold mbind at 1, PM_mbind at 1. rewrite HR. clear HR.
    pose proof (list_findi_Some _ _ _ _ Hf) as (Hi & _ & _).
    set (ps := take i (payloads s) ++ drop (S i) (payloads s)).
    set (s1 := s <| payloads := ps |> <| heap := repos 0 ps (heap s) |>).
    assert (queued_payload (heap s1) p) as Hp.
    { eapply (Forall_lookup_1 _ (payloads s)); [|done]. cbn. apply repos_queued, Hs. }
    unfold fmap, PM_fmap, cancelQueued. unfold_pm.
    change {| heap := _ |} with s1.
    destruct (deref_queued p s1 Hp) as (l & t & Hl & Ht & Hq & ->).
    rewrite bool_decide_eq_true_2 by done. cbn -[s1 ps QueueRestore Task_RequestCancel NewTaskSnapshotFromAdmission].
    destruct (Task_RequestCancel force at_ t) as [candidate cancelled].
    match goal with |- context [match ?o with Ok _ => _ | Err _ => _ end] => destruct o as [evs|e] end.
    + do 2 eexists. split; [done|]. by exists i, p.
    + unfold s1, ps. rewrite (Restore_removed s at_ i p) by done. by do 2 eexists.
  - unfold Remove. unfold_pm. rewrite validateAll_ok by apply Hs. rewrite Hf. by do 2 eexists.
Qed.
