(* ===== verification/Scheduler.v ===== *)
(** * The scheduler under every interleaving

    The queue mutex makes each use case of [Admission] atomic, but between two
    of them any goroutine may run.  [System] adds to [QState] the payloads that
    are in the hands of a goroutine running [ReleaseAndAdvance]: [inflight]
    before the lifecycle starter has answered, [accepted] after it said yes and
    before [CommitStart].  [run_sys] performs one atomic step of any goroutine;
    the theorems hold after any number of enabled steps, in any order. *)

From S2P Require Import Prelude.
From S2P Require Import GoStrings.
From S2P Require Import Errors.
From S2P Require Import Domain.
From S2P Require Import Task.
From S2P Require Import Snapshot.
From S2P Require Import Queue.
From S2P Require Import Admission.

(** ** The transition system *)

Record System : Type := mkSystem {
  q : QState;
  inflight : list TaskLaunchPayload;
  accepted : list TaskLaunchPayload }.

Definition emptySystem : System := mkSystem emptyQState [] [].

Inductive SysOp : Type :=
| SAdmit (input : TaskAdmissionInput)
| SCompensateAdmission (taskID : TaskID)
| SAdvance (ctx : nat -> option error) (taskID : TaskID) (now : Time)
| SAccept (i : nat)
| SReject (i : nat) (now : Time)
| SCommit (i : nat)
| SCancel (save : TaskSnapshot -> option error) (taskID : TaskID) (force : bool) (occurredAt : Time)
| STask (l : loc) (op : TaskOp).

(** One atomic step; [None] is a panic (or a step that is not enabled). *)
Definition run_sys (cfg : Limits) (op : SysOp) (sys : System) : option System :=
  match op with
  | SAdmit input =>
      '(s, _) ← Admit_Execute cfg input (q sys);
      Some (mkSystem s (inflight sys) (accepted sys))
  | SCompensateAdmission id =>
      '(s, _) ← Admit_CompensateRejectedStart id (q sys);
      Some (mkSystem s (inflight sys) (accepted sys))
  | SAdvance ctx id now =>
      '(s, r) ← Advance_Execute cfg ctx id now (q sys);
      Some (mkSystem s (match r with Ok (Some p) => p :: inflight sys | _ => inflight sys end) (accepted sys))
  | SAccept i =>
      p ← inflight sys !! i;
      Some (mkSystem (q sys) (delete i (inflight sys)) (p :: accepted sys))
  | SReject i now =>
      p ← inflight sys !! i;
      '(s, _) ← Advance_CompensateRejectedStart p now (q sys);
      Some (mkSystem s (delete i (inflight sys)) (accepted sys))
  | SCommit i =>
      p ← accepted sys !! i;
      '(s, _) ← Advance_CommitStart p (q sys);
      Some (mkSystem s (inflight sys) (delete i (accepted sys)))
  | SCancel save id force at_ =>
      '(s, _) ← Cancel_queue_section save id force at_ (q sys);
      Some (mkSystem s (inflight sys) (accepted sys))
  | STask l op =>
      t ← heap (q sys) !! l;
      Some (mkSystem (q sys <| heap := <[l := fst (run_op op t)]> (heap (q sys)) |>)
              (inflight sys) (accepted sys))
  end.

(** What the rest of the program guarantees about the step it takes: task
    identifiers are not used twice; a goroutine disposes of a payload it holds;
    and a lifecycle acts on a task it was started for, never on one that still
    waits in the queue or for the starter's answer. *)
Definition enabled (op : SysOp) (sys : System) : Prop :=
  match op with
  | SAdmit input => forall l t, heap (q sys) !! l = Some t -> t_id t <> in_TaskID input
  | SAccept i | SReject i _ => (i < length (inflight sys))%nat
  | SCommit i => (i < length (accepted sys))%nat
  | STask l _ => is_Some (heap (q sys) !! l) /\ l ∉ locs (payloads (q sys) ++ inflight sys)
  | SCompensateAdmission _ | SAdvance _ _ _ | SCancel _ _ _ _ => True
  end.

Inductive reachable_sys (cfg : Limits) : System -> Prop :=
| reach_init : reachable_sys cfg emptySystem
| reach_step (op : SysOp) (sys sys' : System) :
    reachable_sys cfg sys -> enabled op sys -> run_sys cfg op sys = Some sys' -> reachable_sys cfg sys'.

(** ** Specification vocabulary *)

Definition idmap (h : gmap nat Task) : gmap nat string := t_id <$> h.

Definition ids (m : gmap nat string) (ps : list TaskLaunchPayload) : list string :=
  omap (fun p => p_Task p ≫= (m !!.)) ps.

Definition live (h : gmap nat Task) (p : TaskLaunchPayload) : Prop :=
  exists l, p_Task p = Some l /\ is_Some (h !! l).

Definition limits_ok (cfg : Limits) : Prop :=
  0 <= maxConcurrentTasks cfg /\ 0 <= maxConcurrentImplTasks cfg /\ 0 <= queueMaxDepth cfg.

Record sys_inv (cfg : Limits) (sys : System) : Prop := {
  si_queue : queue_inv (q sys);
  si_inflight : Forall (queued_payload (heap (q sys))) (inflight sys);
  si_accepted : Forall (live (heap (q sys))) (accepted sys);
  si_nodup : NoDup (locs (payloads (q sys) ++ inflight sys ++ accepted sys));
  si_unique : forall l1 l2 id,
    idmap (heap (q sys)) !! l1 = Some id -> idmap (heap (q sys)) !! l2 = Some id -> l1 = l2;
  si_promos : promotions (q sys) = list_to_set (ids (idmap (heap (q sys))) (inflight sys ++ accepted sys));
  si_depth : Len (q sys) + promotions_Len (q sys) <= queueMaxDepth cfg;
  si_capacity : capacity_ok cfg (reservations (q sys)) }.

(** A configuration and a reachable system with one running and one queued
    task, for the examples. *)
Definition example_limits : Limits := mkLimits 1 1 4.

Definition example_input (id : TaskID) (sub : Subcommand) (slug : Slug) : TaskAdmissionInput :=
  mkAdmissionInput id sub slug None 1 "prompt" [] (mkTimeout None 1800) "gpt-5.6-terra" None
    "workspace-write" "/home/u/repo" WorktreeModeCurrent None.

Definition example_impl_input : TaskAdmissionInput :=
  example_input "impl-20260924-120000-0af9-fix" SubcommandImpl "fix".

Definition example_plan_input : TaskAdmissionInput :=
  example_input "plan-20260924-120001-1b2c-next" SubcommandPlan "next".

Definition example_system_1 : System :=
  default emptySystem (run_sys example_limits (SAdmit example_impl_input) emptySystem).

Definition example_system_2 : System :=
  default emptySystem (run_sys example_limits (SAdmit example_plan_input) example_system_1).

Arguments locs : simpl never.
Arguments idmap : simpl never.
Arguments ids : simpl never.

(** ** Lemmas *)

Lemma queue_inv_ext (s s' : QState) :
  heap s' = heap s -> payloads s' = payloads s -> queue_inv s -> queue_inv s'.
Proof. intros E1 E2 [Q1 Q2 Q3]. split; rewrite ?E1, ?E2; done. Qed.

#[export] Instance locs_Permutation : Proper ((≡ₚ) ==> (≡ₚ)) locs.
Proof. intros ps ps' H. unfold locs. by rewrite H. Qed.

Lemma locs_cons p l ps : p_Task p = Some l -> locs (p :: ps) = l :: locs ps.
Proof. unfold locs. cbn. by intros ->. Qed.

#[export] Instance ids_Permutation (m : gmap nat string) : Proper ((≡ₚ) ==> (≡ₚ)) (ids m).
Proof. intros ps ps' H. unfold ids. by rewrite H. Qed.

Lemma idmap_lookup (h : gmap nat Task) (l : nat) : idmap h !! l = t_id <$> h !! l.
Proof. apply lookup_fmap. Qed.

Lemma idmap_repos (i : Z) (ps : list TaskLaunchPayload) (h : gmap nat Task) : idmap (repos i ps h) = idmap h.
Proof.
  apply map_eq. intros l. rewrite !idmap_lookup. destruct (repos_lookup_any ps i h l) as (n & ->).
  by destruct (h !! l).
Qed.

Lemma idmap_insert_same (h : gmap nat Task) (l : nat) (t t' : Task) :
  h !! l = Some t -> t_id t' = t_id t -> idmap (<[l := t']> h) = idmap h.
Proof.
  intros Hl Hid. unfold idmap. rewrite fmap_insert, Hid. apply insert_id. by rewrite lookup_fmap, Hl.
Qed.

Lemma run_op_id (op : TaskOp) (t : Task) : t_id (fst (run_op op t)) = t_id t.
Proof. task_cases t op; cbn; repeat case_match; simplify_eq; done. Qed.

Lemma live_idmap (h h' : gmap nat Task) p : idmap h = idmap h' -> live h p -> live h' p.
Proof.
  intros E (l & Hl & t & Ht). exists l. split; [done|]. pose proof (idmap_lookup h l) as E1.
  rewrite E, idmap_lookup, Ht in E1. destruct (h' !! l); [by eexists|done].
Qed.

Lemma queued_live (h : gmap nat Task) p : queued_payload h p -> live h p.
Proof. intros (l & t & Hl & Ht & _). exists l. split; [done|by eexists]. Qed.

Lemma Forall_queued_live (h : gmap nat Task) ps : Forall (queued_payload h) ps -> Forall (live h) ps.
Proof. induction 1; constructor; auto using queued_live. Qed.

Lemma Forall_live_idmap (h h' : gmap nat Task) ps :
  idmap h = idmap h' -> Forall (live h) ps -> Forall (live h') ps.
Proof. intros E. induction 1; constructor; eauto using live_idmap. Qed.

Lemma ids_cons (h : gmap nat Task) p l t ps :
  p_Task p = Some l -> h !! l = Some t -> ids (idmap h) (p :: ps) = t_id t :: ids (idmap h) ps.
Proof. intros Hl Ht. unfold ids. cbn. rewrite Hl. cbn. by rewrite idmap_lookup, Ht. Qed.

Lemma elem_of_ids (m : gmap nat string) ps (id : string) :
  id ∈ ids m ps <-> exists l, l ∈ locs ps /\ m !! l = Some id.
Proof.
  unfold ids, locs. rewrite list_elem_of_omap. split.
  - intros (p & Hp & E). destruct (p_Task p) as [l|] eqn:El; [|done]. exists l. split; [|done].
    apply list_elem_of_omap. by exists p.
  - intros (l & (p & Hp & Hl)%list_elem_of_omap & E). exists p. split; [done|]. by rewrite Hl.
Qed.

Lemma ids_ext (m m' : gmap nat string) ps :
  (forall l, l ∈ locs ps -> m !! l = m' !! l) -> ids m ps = ids m' ps.
Proof.
  induction ps as [|p ps IH]; intros H; [done|]. unfold ids, locs in *. cbn in *.
  destruct (p_Task p) as [l|]; cbn; [|by apply IH]. rewrite H by (by left).
  rewrite IH; [done|]. intros l' Hl'. apply H. by right.
Qed.

Lemma ids_nodup (m : gmap nat string) ps :
  (forall l1 l2 id, m !! l1 = Some id -> m !! l2 = Some id -> l1 = l2) ->
  NoDup (locs ps) -> NoDup (ids m ps).
Proof.
  intros Hu. induction ps as [|p ps IH]; [constructor|]. unfold ids, locs in *. cbn.
  destruct (p_Task p) as [l|]; [|done]. cbn. intros [Hl Hnd]%list.NoDup_cons.
  destruct (m !! l) as [id|] eqn:E; [|auto]. apply list.NoDup_cons. split; [|auto].
  intros (l' & Hl' & E')%elem_of_ids. by rewrite (Hu l l' id) in Hl.
Qed.

Lemma size_ids (m : gmap nat string) ps :
  (forall l1 l2 id, m !! l1 = Some id -> m !! l2 = Some id -> l1 = l2) ->
  NoDup (locs ps) -> size (list_to_set (ids m ps) : gset string) = length (ids m ps).
Proof. intros. by apply size_list_to_set, ids_nodup. Qed.

Lemma length_ids (h : gmap nat Task) ps : Forall (live h) ps -> length (ids (idmap h) ps) = length ps.
Proof.
  induction 1 as [|p ps (l & Hl & t & Ht) _ IH]; [done|]. rewrite (ids_cons h p l t) by done. cbn. by rewrite IH.
Qed.

Lemma promos_cons (h : gmap nat Task) p l t ps :
  p_Task p = Some l -> h !! l = Some t ->
  (list_to_set (ids (idmap h) (p :: ps)) : gset string) = list_to_set (ids (idmap h) ps) ∪ {[t_id t]}.
Proof. intros Hl Ht. rewrite (ids_cons h p l t) by done. cbn. set_solver. Qed.

Lemma promos_remove (h : gmap nat Task) p l t ps ps' :
  (forall l1 l2 id, idmap h !! l1 = Some id -> idmap h !! l2 = Some id -> l1 = l2) ->
  NoDup (locs ps) -> ps ≡ₚ p :: ps' -> p_Task p = Some l -> h !! l = Some t ->
  t_id t ∈ (list_to_set (ids (idmap h) ps) : gset string)
  /\ (list_to_set (ids (idmap h) ps) : gset string) ∖ {[t_id t]} = list_to_set (ids (idmap h) ps').
Proof.
  intros Hu Hnd Hperm Hl Ht. rewrite Hperm in Hnd. pose proof (ids_nodup _ _ Hu Hnd) as Hnd'.
  rewrite (ids_cons h p l t) in Hnd' by done. apply list.NoDup_cons in Hnd' as [Hni _].
  assert ((list_to_set (ids (idmap h) ps) : gset string) = list_to_set (ids (idmap h) (p :: ps'))) as ->.
  { apply list_to_set_perm_L. by rewrite Hperm. }
  rewrite (promos_cons h p l t) by done. set_solver.
Qed.

Section Preservation.
Context (cfg : Limits) (Hcfg : limits_ok cfg).

Lemma promotions_Len_eq (sys : System) :
  sys_inv cfg sys -> promotions_Len (q sys) = Z.of_nat (length (inflight sys ++ accepted sys)).
Proof.
  intros I. unfold promotions_Len. rewrite (si_promos _ _ I). rewrite size_ids.
  - rewrite length_ids; [done|]. apply Forall_app. split; [|apply I].
    apply Forall_queued_live, I.
  - apply I.
  - pose proof (si_nodup _ _ I) as H. rewrite locs_app in H. by apply list.NoDup_app in H as (_ & _ & ?).
Qed.

Lemma all_live (sys : System) :
  sys_inv cfg sys -> Forall (live (heap (q sys))) (payloads (q sys) ++ inflight sys ++ accepted sys).
Proof.
  intros I. rewrite !Forall_app. split_and!; [apply Forall_queued_live, I|apply Forall_queued_live, I|apply I].
Qed.

Lemma live_locs (h : gmap nat Task) ps (l : nat) : Forall (live h) ps -> l ∈ locs ps -> is_Some (h !! l).
Proof.
  intros HF (p & Hp & Hl)%list_elem_of_omap. rewrite list.Forall_forall in HF.
  destruct (HF p Hp) as (l' & Hl' & H). by simplify_eq.
Qed.

(** Every part of the invariant that looks at the heap survives a new heap that
    agrees on the identifiers, on the queued tasks and on the promised ones. *)
Lemma inv_new_heap (sys : System) (h : gmap nat Task) :
  sys_inv cfg sys -> (forall l, l ∈ locs (payloads (q sys) ++ inflight sys) -> h !! l = heap (q sys) !! l) ->
  (forall l, l ∈ locs (accepted sys) -> idmap h !! l = idmap (heap (q sys)) !! l) ->
  (forall l1 l2 id, idmap h !! l1 = Some id -> idmap h !! l2 = Some id -> l1 = l2) ->
  sys_inv cfg (mkSystem (q sys <| heap := h |>) (inflight sys) (accepted sys)).
Proof.
  intros I Hq Ha Hu.
  assert (forall p ps, p ∈ ps -> (forall l, l ∈ locs ps -> h !! l = heap (q sys) !! l) ->
    queued_payload (heap (q sys)) p -> queued_payload h p) as Hqp.
  { intros p ps Hp Hps (l & t & Hl & Ht & Hs). exists l, t. split_and!; [done| |done].
    rewrite Hps; [done|]. apply list_elem_of_omap. by exists p. }
  setoid_rewrite locs_app in Hq. setoid_rewrite elem_of_app in Hq.
  split; cbn; try apply I; auto.
  - split; cbn; [|apply I|].
    + apply list.Forall_forall. intros p Hp. apply (Hqp p (payloads (q sys))); auto.
      pose proof (qi_queued _ (si_queue _ _ I)) as HF. rewrite list.Forall_forall in HF. auto.
    + intros k p l t Hk Hl Ht. eapply (qi_positions _ (si_queue _ _ I)); [done..|].
      rewrite <- Hq; [done|]. left. apply list_elem_of_omap. exists p. split; [|done]. by eapply list_elem_of_lookup_2.
  - apply list.Forall_forall. intros p Hp. apply (Hqp p (inflight sys)); auto.
    pose proof (si_inflight _ _ I) as HF. rewrite list.Forall_forall in HF. auto.
  - apply list.Forall_forall. intros p Hp. pose proof (si_accepted _ _ I) as HF. rewrite list.Forall_forall in HF.
    destruct (HF p Hp) as (l & Hl & t & Ht). exists l. split; [done|].
    assert (l ∈ locs (accepted sys)) as Hin by (apply list_elem_of_omap; by exists p).
    specialize (Ha l Hin). rewrite !idmap_lookup, Ht in Ha. destruct (h !! l); [by eexists|done].
  - rewrite (si_promos _ _ I). f_equal. apply ids_ext. intros l.
    rewrite locs_app, elem_of_app. intros [Hl|Hl]; [|by rewrite Ha].
    rewrite !idmap_lookup, Hq; [done|by right].
Qed.

Lemma inv_alloc (sys : System) (l : nat) (t : Task) :
  sys_inv cfg sys -> l ∉ dom (heap (q sys)) ->
  (forall l' t', heap (q sys) !! l' = Some t' -> t_id t' <> t_id t) ->
  sys_inv cfg (mkSystem (q sys <| heap := <[l := t]> (heap (q sys)) |>) (inflight sys) (accepted sys)).
Proof.
  intros I Hl%not_elem_of_dom Hid.
  assert (forall l', l' ∈ locs (payloads (q sys) ++ inflight sys ++ accepted sys) -> l <> l') as Hne.
  { intros l' H ->. destruct (live_locs _ _ _ (all_live sys I) H). congruence. }
  setoid_rewrite locs_app in Hne. setoid_rewrite elem_of_app in Hne.
  apply inv_new_heap; [done| | |].
  - intros l' H. rewrite lookup_insert_ne; [done|]. apply Hne.
    rewrite !locs_app, !elem_of_app in *. naive_solver.
  - intros l' H. rewrite !idmap_lookup, lookup_insert_ne; [done|]. apply Hne.
    rewrite !locs_app, !elem_of_app in *. naive_solver.
  - intros l1 l2 id. rewrite !idmap_lookup.
    destruct (decide (l = l1)) as [<-|H1], (decide (l = l2)) as [<-|H2];
      rewrite ?lookup_insert_eq, ?lookup_insert_ne by done; cbn; try done.
    + intros [= <-] H. destruct (heap (q sys) !! l2) as [t'|] eqn:E; [|done]. cbn in H. simplify_eq. by apply Hid in E.
    + intros H [= <-]. destruct (heap (q sys) !! l1) as [t'|] eqn:E; [|done]. cbn in H. simplify_eq. by apply Hid in E.
    + rewrite <- !idmap_lookup. apply I.
Qed.

Lemma inv_admit (input : TaskAdmissionInput) (sys : System) :
  sys_inv cfg sys -> enabled (SAdmit input) sys ->
  exists sys', run_sys cfg (SAdmit input) sys = Some sys' /\ sys_inv cfg sys'.
Proof.
  intros I En. destruct (Admit_Execute_outcome cfg input (q sys)) as (s' & r & E & l & t & Hl & Hid & Hst & Hpos & Hr).
  unfold run_sys, mbind, option_bind. rewrite E. eexists. split; [done|].
  assert (sys_inv cfg (mkSystem (q sys <| heap := <[l := t]> (heap (q sys)) |>) (inflight sys) (accepted sys))) as I'.
  { apply inv_alloc; [done..|]. intros l' t' H. rewrite Hid. by eapply En. }
  destruct r as [result|e]; [|destruct Hr as [-> | ->]; [by destruct sys|done]].
  destruct (ar_LaunchPayload result) as [p|].
  - destruct Hr as (-> & Hnil & Hfree & snapshot & ->). destruct I'. split; cbn in *; try done.
    + by eapply queue_inv_ext; [| |done].
    + by apply capacity_insert; [apply I|].
  - destruct Hr as (_ & Hdepth & _ & ->). apply not_elem_of_dom in Hl.
    assert (l ∉ locs (payloads (q sys) ++ inflight sys ++ accepted sys)) as Hni.
    { intros H. destruct (live_locs _ _ _ (all_live sys I) H). congruence. }
    rewrite !locs_app, !elem_of_app in Hni.
    destruct I' as [[Q1 Q2 Q3] I2 I3 I4 I5 I6 I7 I8]. split; cbn in *; try done.
    + split; cbn.
      * apply Forall_app. split; [done|]. apply Forall_singleton. exists l, t. by rewrite lookup_insert_eq.
      * rewrite locs_app. apply list.NoDup_app. split_and!; [done| |].
        -- intros l' H1 H2. rewrite (locs_cons _ l) in H2 by done. apply list_elem_of_singleton in H2 as ->. naive_solver.
        -- rewrite (locs_cons _ l) by done. apply NoDup_singleton.
      * intros k p l' t' Hk Hl' Ht'. apply lookup_app_Some in Hk as [Hk|[Hk Hk']]; [by eapply Q3|].
        apply list_lookup_singleton_Some in Hk' as [Hk0 <-]. cbn in Hl'. simplify_eq.
        rewrite lookup_insert_eq in Ht'. simplify_eq. rewrite Hpos. unfold Len. lia.
    + rewrite <- app_assoc. cbn. rewrite <- Permutation_middle, (locs_cons _ l) by done.
      apply list.NoDup_cons. rewrite !locs_app, !elem_of_app. split; [naive_solver|]. by rewrite <- !locs_app.
    + unfold Len in *. cbn. rewrite length_app. cbn. unfold promotions_Len in *. cbn in *. lia.
Qed.

Lemma inv_fewer_reservations (sys : System) (s : QState) :
  sys_inv cfg sys -> heap s = heap (q sys) -> payloads s = payloads (q sys) ->
  promotions s = promotions (q sys) -> reservations s ⊆ reservations (q sys) ->
  sys_inv cfg (mkSystem s (inflight sys) (accepted sys)).
Proof.
  intros [I1 I2 I3 I4 I5 I6 I7 I8] E1 E2 E3 Hsub.
  split; cbn; unfold Len, promotions_Len in *; rewrite ?E1, ?E2, ?E3; auto.
  - by eapply queue_inv_ext.
  - by eapply capacity_subseteq.
Qed.

Lemma inv_compensate_admission (id : TaskID) (sys : System) :
  sys_inv cfg sys ->
  exists sys', run_sys cfg (SCompensateAdmission id) sys = Some sys' /\ sys_inv cfg sys'.
Proof.
  intros I. eexists. split; [done|]. apply inv_fewer_reservations; [done..|]. apply delete_subseteq.
Qed.

Lemma inv_advance ctx (id : TaskID) (now : Time) (sys : System) :
  sys_inv cfg sys -> exists sys', run_sys cfg (SAdvance ctx id now) sys = Some sys' /\ sys_inv cfg sys'.
Proof.
  intros I. destruct (Advance_Execute_outcome cfg ctx id now (q sys) (si_queue _ _ I)) as (s' & r & E & Hr).
  unfold run_sys, mbind, option_bind. rewrite E. eexists. split; [done|].
  destruct r as [[p|]|e]; try (destruct Hr as (E1 & E2 & E3 & E4); by apply inv_fewer_reservations).
  destruct Hr as (l & t & rest & snapshot & Eps & Hl & Ht & Hfree & ->).
  destruct (queue_inv_tail _ _ _ (si_queue _ _ I) Eps) as (Hp & Hnd & Hrest).
  pose proof (promotions_Len_eq sys I) as Hlen.
  destruct I as [I1 I2 I3 I4 I5 I6 I7 I8]. rewrite Eps in I4.
  split; unfold promoted; cbn; rewrite ?idmap_repos; auto.
  - eapply queue_inv_ext; [| |by apply (queue_inv_repos (q sys) rest)]; done.
  - apply repos_queued. by constructor.
  - by eapply Forall_live_idmap; [symmetry; apply idmap_repos|].
  - cbn in I4. by rewrite <- Permutation_middle.
  - rewrite (promos_cons _ p l t) by done. by rewrite I6.
  - unfold Len, promotions_Len in *. cbn. rewrite Eps in I7. cbn in I7.
    assert (size (promotions (q sys) ∪ {[t_id t]}) <= size (promotions (q sys)) + 1)%nat.
    { rewrite size_union_alt.
      assert (size ({[t_id t]} ∖ promotions (q sys)) <= size ({[t_id t]} : gset string))%nat as H
        by (apply subseteq_size; set_solver).
      rewrite size_singleton in H. lia. }
    lia.
  - apply capacity_insert; [|done]. eapply capacity_subseteq; [|done]. apply delete_subseteq.
Qed.

Lemma inv_accept (i : nat) (sys : System) :
  sys_inv cfg sys -> enabled (SAccept i) sys ->
  exists sys', run_sys cfg (SAccept i) sys = Some sys' /\ sys_inv cfg sys'.
Proof.
  intros I (p & Hp)%lookup_lt_is_Some. cbn [run_sys]. unfold mbind, option_bind. rewrite Hp.
  eexists. split; [done|]. pose proof (delete_Permutation _ _ _ Hp) as Hperm.
  pose proof (si_inflight _ _ I) as HF. rewrite Hperm in HF. inversion_clear HF as [|? ? Hq HF'].
  assert (delete i (inflight sys) ++ p :: accepted sys ≡ₚ inflight sys ++ accepted sys) as Hall.
  { rewrite <- Permutation_middle. by rewrite Hperm at 2. }
  destruct I as [I1 I2 I3 I4 I5 I6 I7 I8]. split; cbn; auto.
  - constructor; [by apply queued_live|done].
  - by rewrite Hall.
  - rewrite I6. apply list_to_set_perm_L. by rewrite Hall.
Qed.

Lemma inv_reject (i : nat) (now : Time) (sys : System) :
  sys_inv cfg sys -> enabled (SReject i now) sys ->
  exists sys', run_sys cfg (SReject i now) sys = Some sys' /\ sys_inv cfg sys'.
Proof.
  intros I (p & Hp)%lookup_lt_is_Some. cbn [run_sys]. unfold mbind, option_bind. rewrite Hp.
  pose proof (delete_Permutation _ _ _ Hp) as Hperm.
  pose proof (si_inflight _ _ I) as HF. rewrite Hperm in HF. inversion_clear HF as [|? ? Hq HF'].
  pose proof Hq as (l & t & Hl & Ht & Hst). pose proof (promotions_Len_eq sys I) as Hlen.
  destruct I as [[Q1 Q2 Q3] I2 I3 I4 I5 I6 I7 I8].
  destruct (promos_remove (heap (q sys)) p l t (inflight sys ++ accepted sys) (delete i (inflight sys) ++ accepted sys))
    as [Hin Hdiff]; auto.
  { rewrite locs_app in I4. by apply list.NoDup_app in I4 as (_ & _ & ?). }
  { by rewrite Hperm at 1. }
  rewrite (Compensate_resolved (q sys) p l t now) by (auto || by rewrite I6).
  eexists. split; [done|].
  assert ((p :: payloads (q sys)) ++ delete i (inflight sys) ++ accepted sys
    ≡ₚ payloads (q sys) ++ inflight sys ++ accepted sys) as Hall.
  { cbn. rewrite Permutation_middle. rewrite Hperm at 2. done. }
  rewrite <- Hall in I4. assert (NoDup (locs (p :: payloads (q sys)))) as Hnd.
  { rewrite locs_app in I4. by apply list.NoDup_app in I4 as (? & _). }
  split; unfold Len, promotions_Len in *; cbn -[repos]; rewrite ?idmap_repos; auto.
  - eapply queue_inv_ext; [| |by apply (queue_inv_repos (q sys) (p :: payloads (q sys))); auto]; done.
  - by apply repos_queued.
  - by eapply Forall_live_idmap; [symmetry; apply idmap_repos|].
  - by rewrite I6, Hdiff.
  - rewrite size_difference by (rewrite I6; set_solver). rewrite size_singleton.
    assert (size (promotions (q sys)) <> 0)%nat; [|lia].
    rewrite I6. intros H0%size_empty_inv. set_solver.
  - eapply capacity_subseteq; [|done]. apply delete_subseteq.
Qed.

Lemma inv_commit (i : nat) (sys : System) :
  sys_inv cfg sys -> enabled (SCommit i) sys ->
  exists sys', run_sys cfg (SCommit i) sys = Some sys' /\ sys_inv cfg sys'.
Proof.
  intros I (p & Hp)%lookup_lt_is_Some. cbn [run_sys]. unfold mbind, option_bind. rewrite Hp.
  pose proof (delete_Permutation _ _ _ Hp) as Hperm.
  pose proof (si_accepted _ _ I) as HF. rewrite Hperm in HF. inversion_clear HF as [|? ? Hq HF'].
  pose proof Hq as (l & Hl & t & Ht). rewrite (Commit_live (q sys) p l t) by done.
  eexists. split; [done|]. destruct I as [I1 I2 I3 I4 I5 I6 I7 I8].
  destruct (promos_remove (heap (q sys)) p l t (inflight sys ++ accepted sys) (inflight sys ++ delete i (accepted sys)))
    as [Hin Hdiff]; auto.
  { rewrite locs_app in I4. by apply list.NoDup_app in I4 as (_ & _ & ?). }
  { rewrite Hperm at 1. by rewrite Permutation_middle. }
  split; unfold Len, promotions_Len in *; cbn; auto.
  - by apply (queue_inv_ext (q sys)).
  - rewrite Hperm in I4. rewrite <- Permutation_middle in I4. rewrite <- Permutation_middle in I4.
    rewrite (locs_cons _ l) in I4 by done. by apply list.NoDup_cons in I4 as [_ ?].
  - by rewrite I6, Hdiff.
  - assert (size (promotions (q sys) ∖ {[t_id t]}) <= size (promotions (q sys)))%nat; [|lia].
    apply subseteq_size. set_solver.
Qed.

Lemma inv_cancel save (id : TaskID) (force : bool) (at_ : Time) (sys : System) :
  sys_inv cfg sys -> exists sys', run_sys cfg (SCancel save id force at_) sys = Some sys' /\ sys_inv cfg sys'.
Proof.
  intros I. destruct (Cancel_outcome save id force at_ (q sys) (si_queue _ _ I)) as (s' & r & E & Hr).
  unfold run_sys, mbind, option_bind. rewrite E. eexists. split; [done|].
  destruct r as [[evs|e]|]; [|cbn in Hr; subst; by destruct sys..].
  destruct Hr as (i & p & Hi & ->). destruct (sublist_inv (q sys) i (si_queue _ _ I)) as (Hnd & Hq & _).
  set (ps := take i (payloads (q sys)) ++ drop (S i) (payloads (q sys))) in *.
  assert (payloads (q sys) ≡ₚ p :: ps) as Hperm by (by apply locs_insert_perm).
  pose proof (si_queue _ _ I) as Hqi.
  destruct I as [I1 I2 I3 I4 I5 I6 I7 I8].
  split; unfold Len, promotions_Len in *; cbn -[ps repos]; rewrite ?idmap_repos; auto.
  - by apply queue_inv_repos.
  - by apply repos_queued.
  - by eapply Forall_live_idmap; [symmetry; apply idmap_repos|].
  - rewrite Hperm in I4. cbn -[ps] in I4. destruct (p_Task p) as [l|] eqn:Hl.
    + rewrite (locs_cons _ l) in I4 by done. by apply list.NoDup_cons in I4 as [_ ?].
    + unfold locs in *. cbn -[ps] in I4. by rewrite Hl in I4.
  - rewrite Hperm in I7. cbn -[ps] in I7. lia.
Qed.

Lemma inv_task (l : loc) (op : TaskOp) (sys : System) :
  sys_inv cfg sys -> enabled (STask l op) sys ->
  exists sys', run_sys cfg (STask l op) sys = Some sys' /\ sys_inv cfg sys'.
Proof.
  intros I [(t & Ht) Hl]. cbn [run_sys]. unfold mbind, option_bind. rewrite Ht. eexists. split; [done|].
  assert (idmap (<[l := fst (run_op op t)]> (heap (q sys))) = idmap (heap (q sys))) as E.
  { by eapply idmap_insert_same, run_op_id. }
  apply inv_new_heap; [done| | |].
  - intros l' Hl'. rewrite lookup_insert_ne; [done|]. by intros ->.
  - intros l' _. by rewrite E.
  - rewrite E. apply I.
Qed.

Lemma inv_step (op : SysOp) (sys : System) :
  sys_inv cfg sys -> enabled op sys -> exists sys', run_sys cfg op sys = Some sys' /\ sys_inv cfg sys'.
Proof.
  destruct op; eauto using inv_admit, inv_compensate_admission, inv_advance, inv_accept, inv_reject,
    inv_commit, inv_cancel, inv_task.
Qed.

Lemma inv_init : sys_inv cfg emptySystem.
Proof.
  destruct Hcfg as (H1 & H2 & H3). split; cbn; auto; try done.
  - by split; [constructor|constructor|].
  - constructor.
Qed.

Lemma reachable_sys_inv (sys : System) : reachable_sys cfg sys -> sys_inv cfg sys.
Proof.
  induction 1 as [|op sys sys' _ IH En E]; [apply inv_init|].
  destruct (inv_step op sys IH En) as (sys'' & E' & I). by simplify_eq.
Qed.
End Preservation.

Lemma promoted_tail (s : QState) (id : TaskID) p l t rest snapshot :
  queue_inv s -> payloads s = p :: rest -> p_Task p = Some l -> heap s !! l = Some t ->
  queue_inv (promoted s id t rest snapshot)
  /\ queued_payload (heap (promoted s id t rest snapshot)) p
  /\ exists t', heap (promoted s id t rest snapshot) !! l = Some t' /\ t_id t' = t_id t.
Proof.
  intros Hs Eps Hl Ht. destruct (queue_inv_tail _ _ _ Hs Eps) as (Hp & Hnd & Hrest). split_and!.
  - eapply queue_inv_ext; [| |by apply (queue_inv_repos s rest)]; done.
  - apply (Forall_singleton (queued_payload _)), repos_queued. by constructor.
  - cbn. destruct (repos_lookup_any rest 0 (heap s) l) as (n & E). rewrite E, Ht. by eexists.
Qed.

Lemma queued_cons (s : QState) p : queued_payload (heap s) p -> queue_inv s -> Forall (queued_payload (heap s)) (p :: payloads s).
Proof. intros H1 [H2 _ _]. by constructor. Qed.

Lemma Reject_promoted (s : QState) (id : TaskID) p l t rest snapshot (now : Time) :
  queue_inv s -> payloads s = p :: rest -> p_Task p = Some l -> heap s !! l = Some t ->
  Advance_CompensateRejectedStart p now (promoted s id t rest snapshot) =
    Some (mkQState (heap s) (payloads s) (delete (t_id t) (delete id (reservations s)))
            (delete (t_id t) (snapshots s)) ((promotions s ∪ {[t_id t]}) ∖ {[t_id t]}), tt).
Proof.
  intros Hs Eps Hl Ht. destruct (promoted_tail s id p l t rest snapshot Hs Eps Hl Ht) as (Hs1 & Hp1 & t' & Ht' & Hid).
  rewrite (Compensate_resolved _ p l t') by (auto using queued_cons; rewrite Hid; cbn; set_solver).
  rewrite Hid. cbn -[repos]. rewrite !delete_insert_eq. do 2 f_equal.
  rewrite <- Eps. f_equal. rewrite repos_absorb; [by apply repos_id; apply Hs|apply Hs..|].
  intros l' Hl'. rewrite Eps, (locs_cons _ l) by done. by right.
Qed.

Lemma ReleaseAndAdvance_spec (cfg : Limits) ctx start (id : TaskID) (now : Time) (fuel i : nat) (s : QState) :
  queue_inv s -> capacity_ok cfg (reservations s) -> (length (payloads s) < fuel)%nat ->
  exists s' started,
    ReleaseAndAdvance fuel cfg ctx start i id now s = Some (s', Some started)
    /\ payloads s = started ++ payloads s' /\ queue_inv s' /\ capacity_ok cfg (reservations s').
Proof.
  revert i s. induction fuel as [|fuel IH]; intros i s Hs Hc Hfuel; [lia|].
  cbn [ReleaseAndAdvance]. unfold mbind, PM_mbind.
  destruct (Advance_Execute_outcome cfg (ctx i) id now s Hs) as (s1 & r & -> & Hr).
  destruct r as [[p|]|e].
  2,3: destruct Hr as (E1 & E2 & E3 & E4); exists s1, []; split; [done|];
    split_and!; [done|by apply (queue_inv_ext s)|by eapply capacity_subseteq].
  destruct Hr as (l & t & rest & snapshot & Eps & Hl & Ht & Hfree & ->).
  destruct (start i); cbn -[Advance_CompensateRejectedStart Advance_CommitStart ReleaseAndAdvance].
  - destruct (promoted_tail s id p l t rest snapshot Hs Eps Hl Ht) as (Hs1 & _ & t' & Ht' & _).
    rewrite (Commit_live _ p l t') by done.
    destruct (IH (S i) (promoted s id t rest snapshot <| promotions :=
      promotions (promoted s id t rest snapshot) ∖ {[t_id t']} |>)) as (s' & started & -> & E & Hs' & Hc').
    + by apply (queue_inv_ext (promoted s id t rest snapshot)).
    + cbn. apply capacity_insert; [|done]. eapply capacity_subseteq; [|done]. apply delete_subseteq.
    + cbn. rewrite Eps in Hfuel. cbn in Hfuel. lia.
    + exists s', (p :: started). cbn in E. rewrite Eps, E. done.
  - rewrite (Reject_promoted s id p l t rest snapshot now) by done.
    exists (mkQState (heap s) (payloads s) (delete (t_id t) (delete id (reservations s)))
            (delete (t_id t) (snapshots s)) ((promotions s ∪ {[t_id t]}) ∖ {[t_id t]})), [].
    split; [done|]. cbn. split_and!; [done|by apply (queue_inv_ext s)|].
    eapply capacity_subseteq; [|done]. etrans; apply delete_subseteq.
Qed.

(** ** Properties *)



Lemma example_reachable : reachable_sys example_limits example_system_2.
Proof.
  apply (reach_step _ (SAdmit example_plan_input) example_system_1); [|intros l t Ht|by vm_compute].
  - by apply (reach_step _ (SAdmit example_impl_input) emptySystem); [constructor| |vm_compute].
  - assert (heap (q example_system_1) = {[fresh (∅ : gset nat) := example_task]}) as E by by vm_compute.
    rewrite E in Ht. apply lookup_singleton_Some in Ht as [_ <-]. done.
Qed.

Lemma example_limits_ok : limits_ok example_limits.
Proof. by vm_compute. Qed.



(** First in, first out.  An admission starts a task at once only when
    nobody waits and a slot of its kind is free; otherwise the task goes to the
    end of the queue and is told its place; when that would exceed the depth the
    admission fails and nothing changes but a task nobody can reach. *)
Theorem Admit_correct (cfg : Limits) (input : TaskAdmissionInput) (s : QState) :
  exists s' r, Admit_Execute cfg input s = Some (s', r) /\ admit_outcome cfg input s s' r.
Proof. apply Admit_Execute_outcome. Qed.

(** Promotion.  Whatever the context does meanwhile, [Execute] either takes
    exactly the head of the queue, with a free slot reserved for it, its launch
    registered, its promotion recorded and everybody behind it renumbered, or it
    leaves queue, tasks and promotions untouched and has at most released a
    slot. *)
Theorem Advance_correct (cfg : Limits) ctx (id : TaskID) (now : Time) (s : QState) :
  queue_inv s ->
  exists s' r, Advance_Execute cfg ctx id now s = Some (s', r) /\ advance_outcome cfg id s s' r.
Proof. apply Advance_Execute_outcome. Qed.

Lemma Advance_correct_witness :
  exists s' r, Advance_Execute example_limits (fun _ => None) "x" 9 example_QState = Some (s', r)
    /\ advance_outcome example_limits "x" example_QState s' r.
Proof. exact (Advance_correct example_limits (fun _ => None) "x" 9 example_QState example_queue_inv). Defined.

(** A promotion whose start the lifecycle refuses is undone: after
    [Execute] has promoted a task, [CompensateRejectedStart] gives back the
    original queue and the original tasks, places included, the original
    promotions, and the slot that the task had reserved. *)
Theorem Advance_reject_roundtrip (cfg : Limits) ctx (id : TaskID) (now : Time) (s s1 : QState) p l t :
  queue_inv s -> Advance_Execute cfg ctx id now s = Some (s1, Ok (Some p)) ->
  p_Task p = Some l -> heap s !! l = Some t -> t_id t ∉ promotions s ->
  exists s2, Advance_CompensateRejectedStart p now s1 = Some (s2, tt)
    /\ heap s2 = heap s /\ payloads s2 = payloads s /\ promotions s2 = promotions s
    /\ reservations s2 = delete (t_id t) (delete id (reservations s)).
Proof.
  intros Hs E Hl Ht Hni. destruct (Advance_Execute_outcome cfg ctx id now s Hs) as (s' & r & E' & Hr).
  rewrite E in E'. simplify_eq. destruct Hr as (l' & t' & rest & snapshot & Eps & Hl' & Ht' & _ & ->). simplify_eq.
  eexists. split; [by apply (Reject_promoted s id p l t rest snapshot now)|]. cbn. split_and!; auto. set_solver.
Qed.

Lemma Advance_reject_roundtrip_witness :
  exists s2,
    Advance_CompensateRejectedStart (example_payload 0) 9
      (match Advance_Execute example_limits (fun _ => None) "x" 9 example_QState with
       | Some (s1, _) => s1 | None => emptyQState end) = Some (s2, tt)
    /\ heap s2 = heap example_QState /\ payloads s2 = payloads example_QState
    /\ promotions s2 = promotions example_QState
    /\ reservations s2 = delete "impl-20260924-120000-0af9-fix"%string (delete "x"%string (reservations example_QState)).
Proof.
  apply (Advance_reject_roundtrip example_limits (fun _ => None) "x" 9 example_QState _ (example_payload 0)
    0%nat example_task); [exact example_queue_inv|by vm_compute|done|by vm_compute|vm_compute; set_solver].
Defined.



(** Cancelling a queued task is all or nothing: if the cancellation is
    refused, cannot be described by a valid snapshot, or cannot be saved, the
    queue and every task in it are exactly as before, the place of each
    included; if it is saved, exactly one entry has left the queue. *)
Theorem Cancel_queued_atomic save (id : TaskID) (force : bool) (at_ : Time) (s : QState) :
  queue_inv s ->
  exists s' r, Cancel_queue_section save id force at_ s = Some (s', r) /\ cancel_outcome id s s' r.
Proof. apply Cancel_outcome. Qed.

Lemma Cancel_queued_atomic_witness :
  exists s' r,
    Cancel_queue_section (fun _ => Some (Errno EIO)) "impl-20260924-120000-0af9-fix" true 9 example_QState = Some (s', r)
    /\ cancel_outcome "impl-20260924-120000-0af9-fix" example_QState s' r.
Proof.
  exact (Cancel_queued_atomic (fun _ => Some (Errno EIO)) "impl-20260924-120000-0af9-fix" true 9
    example_QState example_queue_inv).
Defined.
