(* ===== verification/Session.v ===== *)
(** * Supervised sessions
    ([internal/supervisor/session.go], [restart.go], [rotation.go])

    The state machine of a session of a supervised CLI: the transition table,
    the record it acts on, the automatic restart policy and the hand-over record.
    [Apply] is the only writer of the session's state; the theorems are about
    any sequence of calls of it. *)

From S2P Require Import Prelude.
From S2P Require Import GoStrings.
From S2P Require Import Errors.

(** ** Enumerations *)

Inductive SupervisorSessionState : Type :=
| NoSessionState
| SessionStarting
| SessionIdle
| SessionWorking
| SessionAwaitingPermission
| SessionAwaitingRecommendation
| SessionRotating
| SessionRecovering
| SessionStopped
| SessionExited
| SessionFailed
| SupervisorSessionStateOther (raw : string).

#[export] Instance SupervisorSessionState_eq_dec : EqDecision SupervisorSessionState.
Proof. solve_decision. Defined.

Definition SupervisorSessionState_string (v : SupervisorSessionState) : string :=
  match v with
  | NoSessionState => ""
  | SessionStarting => "starting"
  | SessionIdle => "idle"
  | SessionWorking => "working"
  | SessionAwaitingPermission => "awaiting_permission"
  | SessionAwaitingRecommendation => "awaiting_recommendation"
  | SessionRotating => "rotating"
  | SessionRecovering => "recovering"
  | SessionStopped => "stopped"
  | SessionExited => "exited"
  | SessionFailed => "failed"
  | SupervisorSessionStateOther raw => raw
  end.

Inductive SupervisorCli : Type :=
| CLIClaude
| CLICodex
| SupervisorCliOther (raw : string).

#[export] Instance SupervisorCli_eq_dec : EqDecision SupervisorCli.
Proof. solve_decision. Defined.

Definition SupervisorCli_string (v : SupervisorCli) : string :=
  match v with
  | CLIClaude => "claude"
  | CLICodex => "codex"
  | SupervisorCliOther raw => raw
  end.

Inductive SupervisorStopReason : Type :=
| NoStopReason
| StopGlobal
| StopSession
| StopSupervisorRestarted
| StopSendNotConfirmed
| StopSendAborted
| StopProcessExitWithPending
| StopRecommendationForbidden
| StopRecommendationUndetermined
| StopRecommendationRepeated
| StopAutoContinueLimit
| StopRotateStepFailed
| StopRespawnFailed
| StopRecoveryStartTimeout
| StopClaudeSessionIDMissing
| StopRestartLimitConsecutive
| StopRestartLimitDaily
| StopOrphanChildAlive
| StopStateFileCorrupt
| SupervisorStopReasonOther (raw : string).

#[export] Instance SupervisorStopReason_eq_dec : EqDecision SupervisorStopReason.
Proof. solve_decision. Defined.

Definition SupervisorStopReason_string (v : SupervisorStopReason) : string :=
  match v with
  | NoStopReason => ""
  | StopGlobal => "stop_global"
  | StopSession => "stop_session"
  | StopSupervisorRestarted => "supervisor_restarted"
  | StopSendNotConfirmed => "send_not_confirmed"
  | StopSendAborted => "send_aborted"
  | StopProcessExitWithPending => "process_exit_with_pending"
  | StopRecommendationForbidden => "recommendation_forbidden"
  | StopRecommendationUndetermined => "recommendation_undetermined"
  | StopRecommendationRepeated => "recommendation_repeated"
  | StopAutoContinueLimit => "auto_continue_limit"
  | StopRotateStepFailed => "rotate_step_failed"
  | StopRespawnFailed => "respawn_failed"
  | StopRecoveryStartTimeout => "recovery_start_timeout"
  | StopClaudeSessionIDMissing => "claude_session_id_missing"
  | StopRestartLimitConsecutive => "restart_limit_consecutive"
  | StopRestartLimitDaily => "restart_limit_daily"
  | StopOrphanChildAlive => "orphan_child_alive"
  | StopStateFileCorrupt => "state_file_corrupt"
  | SupervisorStopReasonOther raw => raw
  end.

Inductive SupervisorExitReason : Type :=
| NoExitReason
| ExitStopSessionRequested
| SupervisorExitReasonOther (raw : string).

#[export] Instance SupervisorExitReason_eq_dec : EqDecision SupervisorExitReason.
Proof. solve_decision. Defined.

Definition SupervisorExitReason_string (v : SupervisorExitReason) : string :=
  match v with
  | NoExitReason => ""
  | ExitStopSessionRequested => "stop_session_requested"
  | SupervisorExitReasonOther raw => raw
  end.

Inductive SupervisorSendKind : Type :=
| SendKindRecommendationContinue
| SendKindRemoteControl
| SendKindHandoffEnd
| SendKindSessionStart
| SendKindParallelInstruction
| SendKindHandoffExit
| SendKindOperatorInput
| SupervisorSendKindOther (raw : string).

#[export] Instance SupervisorSendKind_eq_dec : EqDecision SupervisorSendKind.
Proof. solve_decision. Defined.

Definition SupervisorSendKind_string (v : SupervisorSendKind) : string :=
  match v with
  | SendKindRecommendationContinue => "recommendation_continue"
  | SendKindRemoteControl => "remote_control"
  | SendKindHandoffEnd => "handoff_end"
  | SendKindSessionStart => "session_start"
  | SendKindParallelInstruction => "parallel_instruction"
  | SendKindHandoffExit => "handoff_exit"
  | SendKindOperatorInput => "operator_input"
  | SupervisorSendKindOther raw => raw
  end.

Inductive SupervisorRotateStep : Type :=
| NoRotateStep
| RotateWaitIdle
| RotateSendEnd
| RotateConfirmHandoff
| RotateSendExit
| RotateRestart
| RotateSendStart
| RotateSendParallelInstruction
| SupervisorRotateStepOther (raw : string).

#[export] Instance SupervisorRotateStep_eq_dec : EqDecision SupervisorRotateStep.
Proof. solve_decision. Defined.

Definition SupervisorRotateStep_string (v : SupervisorRotateStep) : string :=
  match v with
  | NoRotateStep => ""
  | RotateWaitIdle => "wait_idle"
  | RotateSendEnd => "send_end"
  | RotateConfirmHandoff => "confirm_handoff"
  | RotateSendExit => "send_exit"
  | RotateRestart => "restart"
  | RotateSendStart => "send_start"
  | RotateSendParallelInstruction => "send_parallel_instruction"
  | SupervisorRotateStepOther raw => raw
  end.

Inductive SupervisorRotateFailReason : Type :=
| NoRotateFailReason
| RotateFailIdleWaitTimeout
| RotateFailSendNotConfirmed
| RotateFailMtimeNotUpdated
| RotateFailHeadGenerationUnchanged
| RotateFailNotIdleAfterHandoff
| RotateFailExitTimeout
| RotateFailSpawnFailed
| RotateFailStartupTimeout
| RotateFailStartNotSettled
| RotateFailChildAbsent
| RotateFailRestartLimit
| SupervisorRotateFailReasonOther (raw : string).

#[export] Instance SupervisorRotateFailReason_eq_dec : EqDecision SupervisorRotateFailReason.
Proof. solve_decision. Defined.

Definition SupervisorRotateFailReason_string (v : SupervisorRotateFailReason) : string :=
  match v with
  | NoRotateFailReason => ""
  | RotateFailIdleWaitTimeout => "idle_wait_timeout"
  | RotateFailSendNotConfirmed => "send_not_confirmed"
  | RotateFailMtimeNotUpdated => "mtime_not_updated"
  | RotateFailHeadGenerationUnchanged => "head_generation_unchanged"
  | RotateFailNotIdleAfterHandoff => "not_idle_after_handoff"
  | RotateFailExitTimeout => "exit_timeout"
  | RotateFailSpawnFailed => "spawn_failed"
  | RotateFailStartupTimeout => "startup_timeout"
  | RotateFailStartNotSettled => "start_not_settled"
  | RotateFailChildAbsent => "child_absent"
  | RotateFailRestartLimit => "restart_limit"
  | SupervisorRotateFailReasonOther raw => raw
  end.

Inductive SupervisorStopScope : Type :=
| StopScopeNone
| StopScopeSession
| StopScopeGlobal
| SupervisorStopScopeOther (raw : string).

#[export] Instance SupervisorStopScope_eq_dec : EqDecision SupervisorStopScope.
Proof. solve_decision. Defined.

Definition SupervisorStopScope_string (v : SupervisorStopScope) : string :=
  match v with
  | StopScopeNone => "none"
  | StopScopeSession => "session"
  | StopScopeGlobal => "global"
  | SupervisorStopScopeOther raw => raw
  end.

Inductive SupervisorFailureReason : Type :=
| NoFailureReason
| FailurePathEscape
| FailureStagedOutOfScope
| FailureOutOfScopeUncommitted
| FailureRenamePartial
| FailureGitConfigChanged
| FailureGitattributesFilter
| FailureGitConfigInclude
| FailureTreeMismatchBeforeCommit
| FailureCommitRejected
| FailureGitTimeout
| FailureGitUnavailable
| FailureGitFailed
| FailureGitOutputTooLarge
| FailureVerifyCWDInvalid
| FailureVerifyExecFailed
| FailureVerifyBinaryChanged
| SupervisorFailureReasonOther (raw : string).

#[export] Instance SupervisorFailureReason_eq_dec : EqDecision SupervisorFailureReason.
Proof. solve_decision. Defined.

Definition SupervisorFailureReason_string (v : SupervisorFailureReason) : string :=
  match v with
  | NoFailureReason => ""
  | FailurePathEscape => "path_escape"
  | FailureStagedOutOfScope => "staged_out_of_scope"
  | FailureOutOfScopeUncommitted => "out_of_scope_uncommitted"
  | FailureRenamePartial => "rename_partial"
  | FailureGitConfigChanged => "git_config_changed"
  | FailureGitattributesFilter => "gitattributes_filter"
  | FailureGitConfigInclude => "git_config_include"
  | FailureTreeMismatchBeforeCommit => "tree_mismatch_before_commit"
  | FailureCommitRejected => "commit_rejected"
  | FailureGitTimeout => "git_timeout"
  | FailureGitUnavailable => "git_unavailable"
  | FailureGitFailed => "git_failed"
  | FailureGitOutputTooLarge => "git_output_too_large"
  | FailureVerifyCWDInvalid => "verify_cwd_invalid"
  | FailureVerifyExecFailed => "verify_exec_failed"
  | FailureVerifyBinaryChanged => "verify_binary_changed"
  | SupervisorFailureReasonOther raw => raw
  end.

Inductive AutoContinueDisabledReason : Type :=
| NoDisabledReason
| AutoContinueDisabledPermissionModeUnsafe
| AutoContinueDisabledReasonOther (raw : string).

#[export] Instance AutoContinueDisabledReason_eq_dec : EqDecision AutoContinueDisabledReason.
Proof. solve_decision. Defined.

Definition AutoContinueDisabledReason_string (v : AutoContinueDisabledReason) : string :=
  match v with
  | NoDisabledReason => ""
  | AutoContinueDisabledPermissionModeUnsafe => "permission_mode_unsafe"
  | AutoContinueDisabledReasonOther raw => raw
  end.

Inductive GitPhase : Type :=
| GitPhaseNone
| GitPhaseEvaluating
| GitPhaseOther (raw : string).

#[export] Instance GitPhase_eq_dec : EqDecision GitPhase.
Proof. solve_decision. Defined.

Definition GitPhase_string (v : GitPhase) : string :=
  match v with
  | GitPhaseNone => "none"
  | GitPhaseEvaluating => "evaluating"
  | GitPhaseOther raw => raw
  end.

Inductive TransitionEvent : Type :=
| EventDetectorIdle
| EventDetectorWorking
| EventDetectorPermission
| EventDetectorRecommendation
| EventDetectorUndetermined
| EventUnexpectedExit
| EventHandoffExit
| EventStartupTimeout
| EventContextRotate
| EventRotationDone
| EventRotationFailed
| EventStop
| EventResume
| EventRecoveryWaitDone
| EventStopSession
| EventReconcile
| TransitionEventOther (raw : string).

#[export] Instance TransitionEvent_eq_dec : EqDecision TransitionEvent.
Proof. solve_decision. Defined.

Definition TransitionEvent_string (v : TransitionEvent) : string :=
  match v with
  | EventDetectorIdle => "Di"
  | EventDetectorWorking => "Dw"
  | EventDetectorPermission => "Dp"
  | EventDetectorRecommendation => "Dr"
  | EventDetectorUndetermined => "Du"
  | EventUnexpectedExit => "Xe"
  | EventHandoffExit => "Xi"
  | EventStartupTimeout => "To"
  | EventContextRotate => "Cr"
  | EventRotationDone => "Rd"
  | EventRotationFailed => "Rf"
  | EventStop => "St"
  | EventResume => "Rs"
  | EventRecoveryWaitDone => "Rw"
  | EventStopSession => "Ss"
  | EventReconcile => "Rc"
  | TransitionEventOther raw => raw
  end.

Inductive SupervisorEventKind : Type :=
| EventKindSessionStarted
| EventKindSessionStartFailed
| EventKindSessionStartInterrupted
| EventKindStateChanged
| EventKindIllegalTransition
| EventKindSessionStopped
| EventKindSessionResumed
| EventKindResumeRefused
| EventKindSessionFailed
| EventKindSessionExited
| EventKindSessionRestarted
| EventKindRestartCountersReset
| EventKindExitWhileStopped
| EventKindRestartLimitExceeded
| EventKindOrphanChildAlive
| EventKindStateFileCorrupt
| EventKindUndeterminedLong
| EventKindStopSet
| EventKindStopCleared
| EventKindStopFileRemoved
| EventKindSendIssued
| EventKindSendConfirmed
| EventKindSendUnconfirmed
| EventKindSendBlocked
| EventKindSendAborted
| EventKindSendPendingDiscarded
| EventKindRecommendationBlocked
| EventKindPermissionPending
| EventKindPermissionModeUnsafe
| EventKindNoChanges
| EventKindSensitivePathBlocked
| EventKindVerifyFailed
| EventKindTreeChangedDuringVerify
| EventKindCommitCreated
| EventKindCommitFailed
| EventKindCommitSuppressedSameFingerprint
| EventKindRepoBusy
| EventKindPushBlocked
| EventKindPushSucceeded
| EventKindPushFailed
| EventKindPushSuppressedSameHead
| EventKindRotatePending
| EventKindRotateStepDone
| EventKindRotateResumed
| EventKindRotateCompleted
| EventKindRotateFailed
| EventKindRotationNotApplicable
| EventKindRemoteControlPending
| EventKindRemoteControlExpired
| EventKindContextUnknown
| EventKindNotifyFailed
| EventKindNotifyDropped
| EventKindSupervisorStarted
| EventKindLunaImplNotAllowed
| EventKindRotateIdleWaitTimeout
| EventKindScreenRead
| EventKindOperatorInputRefused
| EventKindRemoteControlSkipped
| SupervisorEventKindOther (raw : string).

#[export] Instance SupervisorEventKind_eq_dec : EqDecision SupervisorEventKind.
Proof. solve_decision. Defined.

Definition SupervisorEventKind_string (v : SupervisorEventKind) : string :=
  match v with
  | EventKindSessionStarted => "session_started"
  | EventKindSessionStartFailed => "session_start_failed"
  | EventKindSessionStartInterrupted => "session_start_interrupted"
  | EventKindStateChanged => "state_changed"
  | EventKindIllegalTransition => "illegal_transition"
  | EventKindSessionStopped => "session_stopped"
  | EventKindSessionResumed => "session_resumed"
  | EventKindResumeRefused => "resume_refused"
  | EventKindSessionFailed => "session_failed"
  | EventKindSessionExited => "session_exited"
  | EventKindSessionRestarted => "session_restarted"
  | EventKindRestartCountersReset => "restart_counters_reset"
  | EventKindExitWhileStopped => "exit_while_stopped"
  | EventKindRestartLimitExceeded => "restart_limit_exceeded"
  | EventKindOrphanChildAlive => "orphan_child_alive"
  | EventKindStateFileCorrupt => "state_file_corrupt"
  | EventKindUndeterminedLong => "undetermined_long"
  | EventKindStopSet => "stop_set"
  | EventKindStopCleared => "stop_cleared"
  | EventKindStopFileRemoved => "stop_file_removed"
  | EventKindSendIssued => "send_issued"
  | EventKindSendConfirmed => "send_confirmed"
  | EventKindSendUnconfirmed => "send_unconfirmed"
  | EventKindSendBlocked => "send_blocked"
  | EventKindSendAborted => "send_aborted"
  | EventKindSendPendingDiscarded => "send_pending_discarded"
  | EventKindRecommendationBlocked => "recommendation_blocked"
  | EventKindPermissionPending => "permission_pending"
  | EventKindPermissionModeUnsafe => "permission_mode_unsafe"
  | EventKindNoChanges => "no_changes"
  | EventKindSensitivePathBlocked => "sensitive_path_blocked"
  | EventKindVerifyFailed => "verify_failed"
  | EventKindTreeChangedDuringVerify => "tree_changed_during_verify"
  | EventKindCommitCreated => "commit_created"
  | EventKindCommitFailed => "commit_failed"
  | EventKindCommitSuppressedSameFingerprint => "commit_suppressed_same_fingerprint"
  | EventKindRepoBusy => "repo_busy"
  | EventKindPushBlocked => "push_blocked"
  | EventKindPushSucceeded => "push_succeeded"
  | EventKindPushFailed => "push_failed"
  | EventKindPushSuppressedSameHead => "push_suppressed_same_head"
  | EventKindRotatePending => "rotate_pending"
  | EventKindRotateStepDone => "rotate_step_done"
  | EventKindRotateResumed => "rotate_resumed"
  | EventKindRotateCompleted => "rotate_completed"
  | EventKindRotateFailed => "rotate_failed"
  | EventKindRotationNotApplicable => "rotation_not_applicable"
  | EventKindRemoteControlPending => "remote_control_pending"
  | EventKindRemoteControlExpired => "remote_control_expired"
  | EventKindContextUnknown => "context_unknown"
  | EventKindNotifyFailed => "notify_failed"
  | EventKindNotifyDropped => "notify_dropped"
  | EventKindSupervisorStarted => "supervisor_started"
  | EventKindLunaImplNotAllowed => "luna_impl_not_allowed"
  | EventKindRotateIdleWaitTimeout => "rotate_idle_wait_timeout"
  | EventKindScreenRead => "screen_read"
  | EventKindOperatorInputRefused => "operator_input_refused"
  | EventKindRemoteControlSkipped => "remote_control_skipped"
  | SupervisorEventKindOther raw => raw
  end.

Inductive DetectionBasis : Type :=
| DetectionScreenPattern
| DetectionOutputQuiet
| DetectionProcessExit
| DetectionStructuredInfo
| DetectionBasisOther (raw : string).

#[export] Instance DetectionBasis_eq_dec : EqDecision DetectionBasis.
Proof. solve_decision. Defined.

Definition DetectionBasis_string (v : DetectionBasis) : string :=
  match v with
  | DetectionScreenPattern => "screen_pattern"
  | DetectionOutputQuiet => "output_quiet"
  | DetectionProcessExit => "process_exit"
  | DetectionStructuredInfo => "structured_info"
  | DetectionBasisOther raw => raw
  end.

(** ** Records *)

Record PendingSend : Type := mkPendingSend {
  ps_SendID : string; ps_Kind : SupervisorSendKind; ps_IssuedAt : Time }.

Record LastSendRecord : Type := mkLastSend {
  ls_SendID : string; ls_Kind : SupervisorSendKind; ls_IssuedAt : Time; ls_Confirmed : bool }.

Record SendGateRecord : Type := mkSendGate {
  sg_NextSeq : Z;
  sg_EverSent : bool;
  sg_LastSendConfirmed : bool;
  sg_LastConfirmedAt : option Time;
  sg_UnconfirmedDiscarded : bool;
  sg_Pending : option PendingSend }.

#[export] Instance SendGateRecord_settable : Settable SendGateRecord := fun g =>
  mkSendGate (sg_NextSeq g) (sg_EverSent g) (sg_LastSendConfirmed g) (sg_LastConfirmedAt g)
    (sg_UnconfirmedDiscarded g) (sg_Pending g).

Record RotationCheckpointSnapshot : Type := mkCheckpoint {
  cp_Exists : bool; cp_Mtime : option Time; cp_HeadHash : string; cp_Undeterminable : bool }.

Record RotationRecord : Type := mkRotation {
  ro_Step : SupervisorRotateStep;
  ro_StartedAt : Time;
  ro_StepStartedAt : option Time;
  ro_EndIssuedAt : option Time;
  ro_CheckpointSnapshot : option RotationCheckpointSnapshot;
  ro_ResumeEnd : bool;
  ro_ResumeSpawn : bool;
  ro_RespawnWaitUntil : option Time;
  ro_Stage5Started : bool;
  ro_Stage7ConfirmedWhileStopped : bool;
  ro_FailReason : SupervisorRotateFailReason }.

#[export] Instance RotationRecord_settable : Settable RotationRecord := fun r =>
  mkRotation (ro_Step r) (ro_StartedAt r) (ro_StepStartedAt r) (ro_EndIssuedAt r)
    (ro_CheckpointSnapshot r) (ro_ResumeEnd r) (ro_ResumeSpawn r) (ro_RespawnWaitUntil r)
    (ro_Stage5Started r) (ro_Stage7ConfirmedWhileStopped r) (ro_FailReason r).

Record ManagedSession : Type := mkSession {
  s_GitPhase : GitPhase;
  s_SchemaVersion : Z;
  s_SessionID : string;
  s_ProjectID : string;
  s_CLI : SupervisorCli;
  s_Generation : Z;
  s_State : SupervisorSessionState;
  s_StateSince : Time;
  s_StopScope : SupervisorStopScope;
  s_StopReason : SupervisorStopReason;
  s_ExitReason : SupervisorExitReason;
  s_ClaudeSessionID : string;
  s_PreviousClaudeSessionID : string;
  s_ChildPID : Z;
  s_ChildStartedAt : option Time;
  s_SendGate : SendGateRecord;
  s_LastSend : option LastSendRecord;
  s_RestartCount : Z;
  s_RestartTimes : list Time;
  s_Rotation : option RotationRecord;
  s_AutoContinueDisabledReason : AutoContinueDisabledReason;
  s_PendingRemoteControl : bool;
  s_RemoteControlConfirmed : bool;
  s_PendingRemoteControlSince : option Time;
  s_PreviousState : SupervisorSessionState;
  s_LastVerifiedFingerprint : string;
  s_LastVerifiedResult : string;
  s_LastFailureFingerprint : string;
  s_LastFailureReason : SupervisorFailureReason;
  s_LastPushFailedHead : string;
  s_GitConfigFingerprint : string }.

#[export] Instance ManagedSession_settable : Settable ManagedSession := fun s =>
  mkSession (s_GitPhase s) (s_SchemaVersion s) (s_SessionID s) (s_ProjectID s) (s_CLI s)
    (s_Generation s) (s_State s) (s_StateSince s) (s_StopScope s) (s_StopReason s) (s_ExitReason s)
    (s_ClaudeSessionID s) (s_PreviousClaudeSessionID s) (s_ChildPID s) (s_ChildStartedAt s)
    (s_SendGate s) (s_LastSend s) (s_RestartCount s) (s_RestartTimes s) (s_Rotation s)
    (s_AutoContinueDisabledReason s) (s_PendingRemoteControl s) (s_RemoteControlConfirmed s)
    (s_PendingRemoteControlSince s) (s_PreviousState s) (s_LastVerifiedFingerprint s)
    (s_LastVerifiedResult s) (s_LastFailureFingerprint s) (s_LastFailureReason s)
    (s_LastPushFailedHead s) (s_GitConfigFingerprint s).

Record TransitionContext : Type := mkContext {
  c_CLI : SupervisorCli;
  c_Generation : Z;
  c_ChildPID : Z;
  c_ExitCode : Z;
  c_HasPendingSend : bool;
  c_ClaudeSessionID : bool;
  c_HasPreviousClaudeSessionID : bool;
  c_ResumeScope : SupervisorStopScope;
  c_RestartCount : Z;
  c_DailyRestartCount : Z;
  c_ObservedState : SupervisorSessionState;
  c_StopReason : SupervisorStopReason;
  c_ChildAlive : bool;
  c_RotationStep : SupervisorRotateStep;
  c_RotationExitTimedOut : bool;
  c_HasRotation : bool;
  c_OrphanChildAlive : bool }.

#[export] Instance TransitionContext_settable : Settable TransitionContext := fun c =>
  mkContext (c_CLI c) (c_Generation c) (c_ChildPID c) (c_ExitCode c) (c_HasPendingSend c)
    (c_ClaudeSessionID c) (c_HasPreviousClaudeSessionID c) (c_ResumeScope c) (c_RestartCount c)
    (c_DailyRestartCount c) (c_ObservedState c) (c_StopReason c) (c_ChildAlive c)
    (c_RotationStep c) (c_RotationExitTimedOut c) (c_HasRotation c) (c_OrphanChildAlive c).

(** ** The restart policy ([restart.go]) *)

Definition RestartMaxCount : Z := 3.
Definition RestartMaxPerDay : Z := 10.
Definition RestartBackoffBase : Duration := 10 * Second.
Definition RestartBackoffMax : Duration := 300 * Second.
Definition RestartStableDuration : Duration := 600 * Second.
Definition RestartWindow : Duration := 24 * Hour.

(** [for i := 0; i < count && delay < RestartBackoffMax; i++ { delay *= 2 }] *)
Fixpoint backoff_loop (iterations : nat) (delay : Duration) : Duration :=
  match iterations with
  | O => delay
  | S n => if delay <? RestartBackoffMax then backoff_loop n (wrap_int64 (delay * 2)) else delay
  end.

Definition RestartBackoff (count : Z) : Duration :=
  let delay := backoff_loop (Z.to_nat count) RestartBackoffBase in
  if RestartBackoffMax <? delay then RestartBackoffMax else delay.

Definition RestartCountInWindow (times : list Time) (now : Time) : Z :=
  let start := now - RestartWindow in
  fold_left (fun count at_ => if negb (Before at_ start) && negb (After at_ now) then count + 1 else count)
    times 0.

Definition RestartLimitCounts (count daily : Z) : SupervisorStopReason :=
  if RestartMaxCount <=? count then StopRestartLimitConsecutive
  else if RestartMaxPerDay <=? daily then StopRestartLimitDaily
  else NoStopReason.

Definition RestartLimitReason (count : Z) (times : list Time) (now : Time) : SupervisorStopReason :=
  RestartLimitCounts count (RestartCountInWindow times now).

Definition RestartStable (started now : Time) : bool :=
  negb (IsZero started) && negb (Before now started) && (RestartStableDuration <=? Sub now started).

(** ** The hand-over record ([rotation.go]) *)

Definition Rotation_Advance (r : RotationRecord) (step : SupervisorRotateStep) (at_ : Time) : RotationRecord :=
  r <| ro_Step := step |> <| ro_StepStartedAt := Some at_ |> <| ro_FailReason := NoRotateFailReason |>.

Definition Rotation_Fail (r : RotationRecord) (step : SupervisorRotateStep)
    (reason : SupervisorRotateFailReason) : RotationRecord :=
  r <| ro_Step := step |> <| ro_FailReason := reason |>.

Definition Rotation_RecordCheckpoint (r : RotationRecord) (snapshot : RotationCheckpointSnapshot)
    : RotationRecord :=
  let snapshot := if cp_Undeterminable snapshot then mkCheckpoint false None "" true else snapshot in
  r <| ro_CheckpointSnapshot := Some snapshot |>.

(** ** The transition table *)

Definition exitStopReason (c : TransitionContext) : SupervisorStopReason :=
  if c_HasPendingSend c then StopProcessExitWithPending
  else if c_ExitCode c =? 0 then NoStopReason
  else if negb (c_ClaudeSessionID c) then StopClaudeSessionIDMissing
  else RestartLimitCounts (c_RestartCount c) (c_DailyRestartCount c).

Definition classifyExit (c : TransitionContext) : SupervisorSessionState * bool :=
  if c_HasPendingSend c then (SessionStopped, true)
  else if c_ExitCode c =? 0 then (SessionExited, true)
  else if bool_decide (c_CLI c = CLICodex) then (SessionExited, true)
  else if negb (c_ClaudeSessionID c) then (SessionStopped, true)
  else if negb (bool_decide (RestartLimitCounts (c_RestartCount c) (c_DailyRestartCount c) = NoStopReason))
    then (SessionStopped, true)
  else (SessionRecovering, true).

(** The states in which the detectors decide. *)
Definition observable (s : SupervisorSessionState) : bool :=
  match s with
  | SessionIdle | SessionWorking | SessionAwaitingPermission | SessionAwaitingRecommendation => true
  | _ => false
  end.

(** The map [targets]. *)
Definition detector_target (e : TransitionEvent) : option SupervisorSessionState :=
  match e with
  | EventDetectorIdle => Some SessionIdle
  | EventDetectorWorking => Some SessionWorking
  | EventDetectorPermission => Some SessionAwaitingPermission
  | EventDetectorRecommendation => Some SessionAwaitingRecommendation
  | _ => None
  end.

(** The two leading [if] statements; [None]: they fall through. *)
Definition detector_transition (from : SupervisorSessionState) (event : TransitionEvent)
    : option (SupervisorSessionState * bool) :=
  match event with
  | EventDetectorUndetermined =>
      match from with
      | SessionStarting | SessionIdle | SessionWorking | SessionAwaitingPermission
      | SessionAwaitingRecommendation | SessionRotating | SessionRecovering | SessionStopped => Some (from, true)
      | _ => None
      end
  | _ =>
      match detector_target event with
      | None => None
      | Some target =>
          match from with
          | SessionStarting | SessionIdle | SessionWorking | SessionAwaitingPermission
          | SessionAwaitingRecommendation =>
              if bool_decide (from = SessionStarting) && bool_decide (event = EventDetectorWorking)
              then Some (from, true)
              else if bool_decide (from = SessionStarting) && bool_decide (event = EventDetectorRecommendation)
              then Some (NoSessionState, false)
              else Some (target, true)
          | SessionRotating | SessionRecovering | SessionStopped => Some (from, true)
          | _ => None
          end
      end
  end.

Definition resume_transition (c : TransitionContext) : SupervisorSessionState * bool :=
  if c_OrphanChildAlive c then (SessionStopped, false)
  else if c_HasRotation c || negb (bool_decide (c_RotationStep c = NoRotateStep)) then
    if c_RotationExitTimedOut c && c_ChildAlive c then (SessionStopped, false) else (SessionRotating, true)
  else if c_ChildAlive c then
    if observable (c_ObservedState c) then (c_ObservedState c, true) else (SessionWorking, true)
  else if negb (c_ClaudeSessionID c) && negb (c_HasPreviousClaudeSessionID c) then (SessionStopped, false)
  else (SessionStarting, true).

Definition table_transition (from : SupervisorSessionState) (event : TransitionEvent)
    (c : TransitionContext) : SupervisorSessionState * bool :=
  match from, event with
  | SessionStarting, EventUnexpectedExit => classifyExit c
  | SessionStarting, EventStartupTimeout =>
      if 2 <=? c_Generation c then (SessionStopped, true) else (SessionFailed, true)
  | SessionStarting, EventStop => (SessionStopped, true)
  | SessionStarting, EventStopSession => (SessionExited, true)
  | SessionStarting, EventReconcile =>
      if (c_Generation c =? 1) && (c_ChildPID c =? 0) then (SessionExited, true) else (from, false)
  | (SessionIdle | SessionWorking | SessionAwaitingPermission | SessionAwaitingRecommendation),
    EventUnexpectedExit => classifyExit c
  | (SessionIdle | SessionAwaitingRecommendation), EventContextRotate => (SessionRotating, true)
  | (SessionWorking | SessionAwaitingPermission), EventContextRotate => (from, true)
  | (SessionIdle | SessionWorking | SessionAwaitingPermission | SessionAwaitingRecommendation),
    EventStop => (SessionStopped, true)
  | (SessionIdle | SessionWorking | SessionAwaitingPermission | SessionAwaitingRecommendation
    | SessionRotating), EventStopSession =>
      if c_OrphanChildAlive c || c_ChildAlive c then (from, false) else (SessionExited, true)
  | SessionRotating, (EventUnexpectedExit | EventHandoffExit | EventContextRotate) => (from, true)
  | SessionRotating, EventRotationDone =>
      if observable (c_ObservedState c) then (c_ObservedState c, true) else (from, true)
  | SessionRotating, (EventRotationFailed | EventStop) => (SessionStopped, true)
  | SessionRecovering, EventStop => (SessionStopped, true)
  | SessionRecovering, EventRecoveryWaitDone => (SessionStarting, true)
  | SessionRecovering, EventStopSession => (SessionExited, true)
  | SessionStopped, (EventStop | EventUnexpectedExit | EventHandoffExit) => (from, true)
  | SessionStopped, EventResume => resume_transition c
  | SessionStopped, EventStopSession => (SessionExited, true)
  | (SessionExited | SessionFailed), (EventStop | EventStopSession) => (from, true)
  | _, _ => (from, false)
  end.

Definition Transition (from : SupervisorSessionState) (event : TransitionEvent) (c : TransitionContext)
    : SupervisorSessionState * bool :=
  match detector_transition from event with
  | Some r => r
  | None => table_transition from event c
  end.

Definition TransitionWithError (from : SupervisorSessionState) (event : TransitionEvent)
    (c : TransitionContext) : SupervisorSessionState * option error :=
  let '(to, ok) := Transition from event c in
  if ok then (to, None)
  else
    let code :=
      if bool_decide (from = SessionStopped) && bool_decide (event = EventResume) then
        if c_OrphanChildAlive c then "SUP_ORPHAN_CHILD_ALIVE"%string
        else if c_RotationExitTimedOut c && c_ChildAlive c then "SUP_ROTATE_STEP_FAILED"%string
        else if negb (c_ClaudeSessionID c) && negb (c_HasPreviousClaudeSessionID c)
                && negb (c_ChildAlive c) && negb (c_HasRotation c)
        then "SUP_CLAUDE_SESSION_ID_MISSING"%string
        else "SUP_ILLEGAL_TRANSITION"%string
      else "SUP_ILLEGAL_TRANSITION"%string in
    (from, Some (TransitionError code)).

Definition CanTransition (from : SupervisorSessionState) (event : TransitionEvent) : bool :=
  snd (Transition from event
    (mkContext (SupervisorCliOther "") 1 0 0 false true false (SupervisorStopScopeOther "") 0 0
       SessionIdle NoStopReason false NoRotateStep false false false)).

(** ** Apply *)

Definition validSupervisorStopReason (r : SupervisorStopReason) : bool :=
  match r with NoStopReason | SupervisorStopReasonOther _ => false | _ => true end.

Abbreviation SessionM := (ST ManagedSession error) (only parsing).

Definition set_stop_scope (reason : SupervisorStopReason) : SessionM unit :=
  st_modify (fun s =>
    if bool_decide (reason = StopGlobal) then s <| s_StopScope := StopScopeGlobal |>
    else if bool_decide (reason = StopSession) then s <| s_StopScope := StopScopeSession |>
    else s).

(** What an accepted event writes. *)
Definition Apply_accepted (event : TransitionEvent) (c : TransitionContext) (now : Time)
    (previous to : SupervisorSessionState) : SessionM unit :=
  st_when (bool_decide (to <> previous))
    (st_modify (fun s => s <| s_State := to |> <| s_StateSince := now |>));;
  st_when (bool_decide (previous = SessionStopped) && bool_decide (to <> SessionStopped))
    (st_modify (fun s => s <| s_AutoContinueDisabledReason := NoDisabledReason |>
       <| s_StopReason := NoStopReason |> <| s_StopScope := StopScopeNone |>));;
  st_when (bool_decide (to = SessionExited) && bool_decide (previous <> SessionExited))
    (st_modify (fun s => s <| s_StopReason := NoStopReason |> <| s_StopScope := StopScopeNone |>));;
  st_when (bool_decide (to = SessionStopped) && bool_decide (to <> previous))
    (st_modify (fun s => s <| s_PreviousState := previous |>));;
  if bool_decide (event = EventStop) && bool_decide (to <> SessionStopped)
     && (bool_decide (to = SessionExited) || bool_decide (to = SessionFailed))
  then set_stop_scope (c_StopReason c)
  else
    st_when (bool_decide (event = EventStop) && bool_decide (to = SessionStopped))
      (st_when (bool_decide (previous <> SessionStopped) && bool_decide (previous <> SessionExited)
                && bool_decide (previous <> SessionFailed))
         (st_modify (fun s => s <| s_StopReason := c_StopReason c |>));;
       set_stop_scope (c_StopReason c));;
    st_when (bool_decide (event = EventUnexpectedExit) && bool_decide (to = SessionStopped)
             && bool_decide (previous <> SessionStopped))
      (st_modify (fun s => s <| s_StopReason := exitStopReason c |>));;
    st_when (bool_decide (event = EventStartupTimeout) && bool_decide (to = SessionStopped))
      (st_modify (fun s => s <| s_StopReason := StopRecoveryStartTimeout |>));;
    st_when (bool_decide (event = EventRotationFailed) && bool_decide (to = SessionStopped))
      (st_modify (fun s => s <| s_StopReason := StopRotateStepFailed |>));;
    st_when (bool_decide (event = EventStopSession) && bool_decide (to = SessionExited)
             && bool_decide (previous <> SessionExited) && bool_decide (previous <> SessionFailed))
      (st_modify (fun s => s <| s_ExitReason := ExitStopSessionRequested |>)).

(** What a rejected event writes. *)
Definition Apply_rejected (event : TransitionEvent) (c : TransitionContext) (e : error) : SessionM unit :=
  s ← st_get;
  let resuming := bool_decide (s_State s = SessionStopped) && bool_decide (event = EventResume) in
  if resuming && c_OrphanChildAlive c then st_fail e
  else if resuming && c_RotationExitTimedOut c && c_ChildAlive c
    then st_fail (TransitionError "SUP_ROTATE_STEP_FAILED")
  else if resuming && negb (c_ClaudeSessionID c) && negb (c_HasPreviousClaudeSessionID c)
          && negb (c_ChildAlive c) && negb (c_HasRotation c)
    then st_modify (fun s => s <| s_StopReason := StopClaudeSessionIDMissing |>);; st_fail e
  else st_fail e.

Definition Apply (event : TransitionEvent) (c : TransitionContext) (now : Time) : SessionM unit :=
  s ← st_get;
  let c := if (SupervisorCli_string (c_CLI c) =? "")%string then c <| c_CLI := s_CLI s |> else c in
  if bool_decide (event = EventResume) && bool_decide (c_ResumeScope c = StopScopeGlobal)
     && (negb (bool_decide (s_StopScope s = StopScopeGlobal)) || negb (bool_decide (s_StopReason s = StopGlobal)))
  then st_modify (fun s => s <| s_StopScope := StopScopeNone |>)
  else
    let '(to, transitionErr) := TransitionWithError (s_State s) event c in
    if bool_decide (event = EventStop) && negb (bool_decide (s_State s = SessionStopped))
       && bool_decide (c_StopReason c = NoStopReason)
    then st_fail (Errorf "SUP_ILLEGAL_TRANSITION: stop reason required" [])
    else if bool_decide (event = EventStop) && negb (bool_decide (c_StopReason c = NoStopReason))
            && negb (validSupervisorStopReason (c_StopReason c))
    then st_fail (Errorf "SUP_ILLEGAL_TRANSITION: invalid stop reason" [])
    else match transitionErr with
         | Some e => Apply_rejected event c e
         | None => Apply_accepted event c now (s_State s) to
         end.

(** ** Event kinds *)

Definition ValidSupervisorEventKind (value : SupervisorEventKind) : bool :=
  match value with SupervisorEventKindOther _ => false | _ => true end.

(** [RecordingEventRecorder.RecordEvent]: [true] is the call of the wrapped
    recorder. *)
Definition RecordEvent (kind : SupervisorEventKind) : res bool :=
  if negb (ValidSupervisorEventKind kind)
  then Err (Wrap "%w: %q" [Errorf "invalid supervisor event kind" [SupervisorEventKind_string kind]])
  else Ok true.

(** ** Specification vocabulary *)

(** One call of [Apply]; whatever it returns, the session goes on. *)
Definition apply_all (calls : list (TransitionEvent * TransitionContext * Time)) (s : ManagedSession)
    : ManagedSession :=
  fold_left (fun s '(event, c, now) => fst (Apply event c now s)) calls s.

(** A session carries a stop reason exactly while it is stopped. *)
Definition reason_iff_stopped (s : ManagedSession) : Prop :=
  s_State s = SessionStopped <-> s_StopReason s <> NoStopReason.

Definition finished (s : SupervisorSessionState) : bool :=
  match s with SessionExited | SessionFailed => true | _ => false end.

Definition known_session_state (s : SupervisorSessionState) : bool :=
  match s with NoSessionState | SupervisorSessionStateOther _ => false | _ => true end.

(** The events by which an operator ends a stop. *)
Definition ends_stop (e : TransitionEvent) : bool :=
  match e with EventResume | EventStopSession => true | _ => false end.

(** The automatic restart policy, stated on the data. *)
Definition may_restart (c : TransitionContext) : bool :=
  negb (c_HasPendingSend c) && negb (c_ExitCode c =? 0) && negb (bool_decide (c_CLI c = CLICodex))
  && c_ClaudeSessionID c && (c_RestartCount c <? RestartMaxCount) && (c_DailyRestartCount c <? RestartMaxPerDay).

Definition example_context : TransitionContext :=
  mkContext CLIClaude 1 0 1 false true false StopScopeNone 0 0 NoSessionState NoStopReason false
    NoRotateStep false false false.

Definition example_session : ManagedSession :=
  mkSession GitPhaseNone 1 "repo-1" "repo" CLIClaude 1 SessionStarting 5 StopScopeNone NoStopReason
    NoExitReason "" "" 0 None (mkSendGate 1 false false None false None) None 0 [] None NoDisabledReason
    false false None NoSessionState "" "" "" NoFailureReason "" "".

(** ** Lemmas *)

Lemma RestartLimitCounts_None (count daily : Z) :
  RestartLimitCounts count daily = NoStopReason <-> count < RestartMaxCount /\ daily < RestartMaxPerDay.
Proof.
  unfold RestartLimitCounts, RestartMaxCount, RestartMaxPerDay.
  destruct (Z.leb_spec 3 count), (Z.leb_spec 10 daily); split; intros; try done; lia.
Qed.

Lemma classifyExit_cases (c : TransitionContext) :
  classifyExit c =
    (if may_restart c then SessionRecovering
     else if bool_decide (exitStopReason c = NoStopReason) || (negb (c_HasPendingSend c) && bool_decide (c_CLI c = CLICodex))
          then SessionExited else SessionStopped, true).
Proof.
  unfold classifyExit, may_restart, exitStopReason.
  destruct (c_HasPendingSend c); [done|]. destruct (c_ExitCode c =? 0); [done|]. cbn.
  destruct (decide (c_CLI c = CLICodex)) as [E|E].
  { rewrite !bool_decide_eq_true_2 by done. cbn. by rewrite orb_true_r. }
  rewrite !(bool_decide_eq_false_2 (c_CLI c = CLICodex)) by done. cbn. rewrite orb_false_r.
  destruct (c_ClaudeSessionID c); [|done]. cbn.
  unfold RestartLimitCounts, RestartMaxCount, RestartMaxPerDay.
  destruct (Z.leb_spec 3 (c_RestartCount c)), (Z.leb_spec 10 (c_DailyRestartCount c)),
    (Z.ltb_spec (c_RestartCount c) 3), (Z.ltb_spec (c_DailyRestartCount c) 10); cbn; try done; lia.
Qed.

Lemma classifyExit_stop (c : TransitionContext) :
  fst (classifyExit c) = SessionStopped -> exitStopReason c <> NoStopReason.
Proof.
  rewrite classifyExit_cases. cbn. destruct (may_restart c); [done|].
  destruct (bool_decide_reflect (exitStopReason c = NoStopReason)); done.
Qed.

Lemma detector_transition_stop (from : SupervisorSessionState) (event : TransitionEvent) to ok :
  detector_transition from event = Some (to, ok) ->
  (to = SessionStopped <-> from = SessionStopped) \/ ok = false.
Proof.
  destruct from, event; cbn; repeat case_bool_decide; cbn; intros; simplify_eq;
    solve [by right | left; split; intros; congruence].
Qed.

(** Where a session can become stopped, and why. *)
Lemma Transition_to_stopped (from : SupervisorSessionState) (event : TransitionEvent) c :
  Transition from event c = (SessionStopped, true) -> from <> SessionStopped ->
  event = EventStop \/ event = EventRotationFailed \/ event = EventStartupTimeout
  \/ (event = EventUnexpectedExit /\ exitStopReason c <> NoStopReason).
Proof.
  unfold Transition. destruct (detector_transition from event) as [[to ok]|] eqn:E.
  - intros [= -> ->] Hfrom. by destruct (detector_transition_stop _ _ _ _ E) as [[H _]|H]; [exfalso; apply Hfrom, H|].
  - clear E. destruct from, event; cbn; intros H Hfrom; try done; auto;
      try (right; right; right; split; [done|]; apply classifyExit_stop; by rewrite H);
      repeat case_match; try done; simplify_eq; by destruct (c_ObservedState c).
Qed.

Lemma Transition_finished (from : SupervisorSessionState) (event : TransitionEvent) c to :
  finished from = true -> Transition from event c = (to, true) -> to = from /\ (event = EventStop \/ event = EventStopSession).
Proof. destruct from, event; cbn; intros; simplify_eq; auto; done. Qed.

Lemma Transition_from_stopped (event : TransitionEvent) c to ok :
  ends_stop event = false -> Transition SessionStopped event c = (to, ok) -> to = SessionStopped.
Proof. destruct event; cbn; intros; simplify_eq; done. Qed.

Lemma Apply_accepted_ok (event : TransitionEvent) c now previous to (s : ManagedSession) :
  snd (Apply_accepted event c now previous to s) = Ok tt.
Proof.
  unfold Apply_accepted, set_stop_scope. unfold_monads.
  destruct_ifs; done.
Qed.

Lemma Apply_accepted_State (event : TransitionEvent) c now (s : ManagedSession) to :
  s_State (fst (Apply_accepted event c now (s_State s) to s)) = to.
Proof.
  unfold Apply_accepted, set_stop_scope. unfold_monads.
  destruct (decide (to = s_State s)) as [->|Hne].
  - rewrite (bool_decide_eq_false_2 (s_State s <> s_State s)) by (by intros ?).
    destruct_ifs; done.
  - rewrite (bool_decide_eq_true_2 (to <> s_State s)) by done.
    destruct_ifs; done.
Qed.

Lemma Apply_accepted_not_stopped (event : TransitionEvent) c now (s : ManagedSession) to :
  to <> SessionStopped -> reason_iff_stopped s ->
  s_StopReason (fst (Apply_accepted event c now (s_State s) to s)) = NoStopReason.
Proof.
  intros Hto Hs. assert (s_State s <> SessionStopped -> s_StopReason s = NoStopReason) as Hno.
  { intros H. destruct (decide (s_StopReason s = NoStopReason)) as [|H']; [done|]. by apply Hs in H'. }
  unfold Apply_accepted, set_stop_scope. unfold_monads.
  rewrite !(bool_decide_eq_false_2 (to = SessionStopped)), !(bool_decide_eq_true_2 (to <> SessionStopped)) by done.
  rewrite !andb_false_r, !andb_true_r. cbn. destruct (decide (s_State s = SessionStopped)) as [E|E].
  - rewrite !(bool_decide_eq_true_2 (s_State s = SessionStopped)), (bool_decide_eq_true_2 (to <> s_State s)) by congruence.
    cbn [andb].
    destruct_ifs; done.
  - rewrite (bool_decide_eq_false_2 (s_State s = SessionStopped)) by done.
    specialize (Hno E). destruct_ifs; done.
Qed.

Lemma Apply_accepted_stays_stopped (event : TransitionEvent) c now (s : ManagedSession) :
  event <> EventStartupTimeout -> event <> EventRotationFailed -> s_State s = SessionStopped ->
  s_StopReason (fst (Apply_accepted event c now SessionStopped SessionStopped s)) = s_StopReason s.
Proof.
  intros H1 H2 E. unfold Apply_accepted, set_stop_scope. unfold_monads.
  rewrite (bool_decide_eq_false_2 (event = EventStartupTimeout)), (bool_decide_eq_false_2 (event = EventRotationFailed)) by done.
  rewrite (bool_decide_eq_false_2 (SessionStopped <> SessionStopped)) by (by intros ?).
  decide_closed. rewrite ?andb_false_r, ?andb_true_r. cbn [andb]. destruct_ifs; reflexivity.
Qed.

Lemma Apply_accepted_stops (event : TransitionEvent) c now (s : ManagedSession) :
  s_State s <> SessionStopped -> finished (s_State s) = false ->
  s_StopReason (fst (Apply_accepted event c now (s_State s) SessionStopped s)) =
    match event with
    | EventStop => c_StopReason c
    | EventUnexpectedExit => exitStopReason c
    | EventStartupTimeout => StopRecoveryStartTimeout
    | EventRotationFailed => StopRotateStepFailed
    | _ => s_StopReason s
    end.
Proof.
  intros H1 H2. unfold Apply_accepted, set_stop_scope. unfold_monads.
  rewrite (bool_decide_eq_true_2 (SessionStopped <> s_State s)), !(bool_decide_eq_true_2 (s_State s <> SessionStopped)),
    (bool_decide_eq_false_2 (s_State s = SessionStopped)) by done.
  rewrite !(bool_decide_eq_true_2 (s_State s <> SessionExited)), !(bool_decide_eq_true_2 (s_State s <> SessionFailed))
    by (intros E; by rewrite E in H2).
  destruct event; decide_closed; cbn [andb]; destruct_ifs; reflexivity.
Qed.

Lemma Apply_rejected_spec (event : TransitionEvent) c e (s : ManagedSession) :
  exists e', snd (Apply_rejected event c e s) = Err e' /\
  (fst (Apply_rejected event c e s) = s
   \/ (s_State s = SessionStopped /\ event = EventResume
       /\ fst (Apply_rejected event c e s) = s <| s_StopReason := StopClaudeSessionIDMissing |>)).
Proof.
  unfold Apply_rejected. unfold_monads.
  destruct (bool_decide_reflect (s_State s = SessionStopped)) as [E1|E1], (bool_decide_reflect (event = EventResume)) as [E2|E2];
    cbn; try (by eexists; auto).
  destruct_ifs; cbn; eexists; split; eauto.
Qed.

(** What one call of [Apply] can do. *)
Inductive apply_result (event : TransitionEvent) (c : TransitionContext) (now : Time) (s s' : ManagedSession) : Prop :=
| ar_scope : s' = s <| s_StopScope := StopScopeNone |> -> event = EventResume -> apply_result event c now s s'
| ar_refused : s' = s -> apply_result event c now s s'
| ar_no_id : s_State s = SessionStopped -> event = EventResume ->
    s' = s <| s_StopReason := StopClaudeSessionIDMissing |> -> apply_result event c now s s'
| ar_moved (c' : TransitionContext) (to : SupervisorSessionState) :
    Transition (s_State s) event c' = (to, true) -> c_StopReason c' = c_StopReason c ->
    s' = fst (Apply_accepted event c' now (s_State s) to s) ->
    (event = EventStop -> s_State s <> SessionStopped -> c_StopReason c <> NoStopReason) ->
    apply_result event c now s s'.

Lemma Apply_cases (event : TransitionEvent) c now (s : ManagedSession) :
  apply_result event c now s (fst (Apply event c now s)).
Proof.
  unfold Apply, mbind, ST_mbind, st_get. cbn [fst snd].
  set (c' := if (SupervisorCli_string (c_CLI c) =? "")%string then c <| c_CLI := s_CLI s |> else c).
  assert (c_StopReason c' = c_StopReason c) as Hr by (unfold c'; by destruct (_ =? _)%string).
  destruct (bool_decide (event = EventResume) && _ && _) eqn:E0.
  { apply andb_true_iff in E0 as [[E0 _]%andb_true_iff _]. apply bool_decide_eq_true in E0. by apply ar_scope. }
  unfold TransitionWithError. destruct (Transition (s_State s) event c') as [to ok] eqn:Et.
  assert (forall r, apply_result event c now s (fst ((match r with Some e => Apply_rejected event c' e
     | None => Apply_accepted event c' now (s_State s) to end) s)) \/ r = None) as Hrej.
  { intros [e|]; [left|by right]. destruct (Apply_rejected_spec event c' e s) as (e' & _ & [->|(H1 & H2 & ->)]);
      [by apply ar_refused|by apply ar_no_id]. }
  destruct ok; cbv zeta;
    (match goal with |- context [if ?b then st_fail _ else _] => destruct b eqn:E1 end; [by apply ar_refused|]);
    (match goal with |- context [if ?b then st_fail _ else _] => destruct b end; [by apply ar_refused|]).
  - apply (ar_moved _ _ _ _ _ c' to); [exact Et|exact Hr|reflexivity|]. intros He Hs Hc. rewrite He, Hr, Hc in E1.
    rewrite (bool_decide_eq_false_2 (s_State s = SessionStopped)) in E1 by done. done.
  - match goal with |- context [Apply_rejected _ _ ?e] => destruct (Hrej (Some e)); done end.
Qed.

Lemma Apply_reason (event : TransitionEvent) c now (s : ManagedSession) :
  reason_iff_stopped s -> reason_iff_stopped (fst (Apply event c now s)).
Proof.
  intros Hs. destruct (Apply_cases event c now s) as [-> _| ->|H1 H2 ->|c' to Ht Hc -> Hstop]; [done|done|by split|].
  unfold reason_iff_stopped. rewrite Apply_accepted_State.
  destruct (decide (to = SessionStopped)) as [->|Hto].
  - split; [intros _|done]. destruct (decide (s_State s = SessionStopped)) as [E|E].
    + rewrite E in *. destruct (decide (event = EventStartupTimeout)) as [->|H1]; [done|].
      destruct (decide (event = EventRotationFailed)) as [->|H2]; [done|].
      rewrite Apply_accepted_stays_stopped by done. by apply Hs.
    + assert (finished (s_State s) = false) as Hf.
      { destruct (finished (s_State s)) eqn:Hf; [|done]. destruct (Transition_finished _ _ _ _ Hf Ht) as [H _].
        by rewrite H in E. }
      rewrite Apply_accepted_stops by done.
      destruct (Transition_to_stopped _ _ _ Ht E) as [->|[->|[->|[-> H]]]]; auto; try done. rewrite Hc. auto.
  - rewrite Apply_accepted_not_stopped by done. done.
Qed.

Lemma Apply_stays_stopped (event : TransitionEvent) c now (s : ManagedSession) :
  s_State s = SessionStopped -> ends_stop event = false ->
  let s' := fst (Apply event c now s) in
  s_State s' = SessionStopped /\ s_StopReason s' = s_StopReason s.
Proof.
  intros E He. destruct (Apply_cases event c now s) as [-> ->| ->|_ -> ->|c' to Ht Hc -> _]; [done|done|done|].
  pose proof (Apply_accepted_State event c' now s to) as Hst. rewrite E in Ht, Hst |- *.
  pose proof (Transition_from_stopped _ _ _ _ He Ht) as ->. split; [done|].
  apply Apply_accepted_stays_stopped; [| |done]; intros ->; done.
Qed.

Lemma Apply_finished (event : TransitionEvent) c now (s : ManagedSession) :
  finished (s_State s) = true -> s_State (fst (Apply event c now s)) = s_State s.
Proof.
  intros Hf. destruct (Apply_cases event c now s) as [-> _| ->|_ _ ->|c' to Ht _ -> _]; [done..|].
  rewrite Apply_accepted_State. by destruct (Transition_finished _ _ _ _ Hf Ht).
Qed.

Lemma backoff_loop_spec (n : nat) (k : Z) :
  0 <= k <= 5 ->
  backoff_loop n (RestartBackoffBase * 2 ^ k)
  = RestartBackoffBase * 2 ^ Z.min 5 (k + Z.of_nat n).
Proof.
  revert k. induction n as [|n IH]; intros k Hk; cbn [backoff_loop].
  - f_equal. f_equal. lia.
  - assert (k = 0 \/ k = 1 \/ k = 2 \/ k = 3 \/ k = 4 \/ k = 5) as [-> |[-> |[-> |[-> |[-> | ->]]]]] by lia;
      cbn [Z.ltb]; match goal with |- context [if ?b then _ else _] => let b' := eval vm_compute in b in change b with b' end;
      cbv iota;
      try match goal with |- context [wrap_int64 (RestartBackoffBase * 2 ^ ?k * 2)] =>
        change (wrap_int64 (RestartBackoffBase * 2 ^ k * 2)) with (RestartBackoffBase * 2 ^ (Z.succ k)) end;
      try (rewrite IH by lia); f_equal; f_equal; lia.
Qed.

(** ** Properties *)

(** A session carries a stop reason exactly while it is stopped, over any
    sequence of calls of [Apply], accepted and rejected ones alike: every path
    into the stopped state records why, and every path out of it clears the
    reason. *)
Theorem session_stop_reason (calls : list (TransitionEvent * TransitionContext * Time)) (s : ManagedSession) :
  reason_iff_stopped s -> reason_iff_stopped (apply_all calls s).
Proof.
  revert s. induction calls as [|[[event c] now] calls IH]; intros s Hs; [done|].
  apply IH, Apply_reason, Hs.
Qed.

Lemma session_stop_reason_witness :
  reason_iff_stopped (apply_all
    [(EventDetectorIdle, example_context, 6);
     (EventStop, example_context <| c_StopReason := StopGlobal |>, 7)] example_session).
Proof. apply (session_stop_reason _ example_session). split; [done|intros H; by destruct H]. Defined.

(** A stop holds.  As long as no operator resumes or ends the session, a
    stopped session stays stopped for its original reason whatever the
    detectors, the child process and the timers report and however often it is
    stopped again; an exited or failed session never leaves that state at all. *)
Theorem session_stop_holds (calls : list (TransitionEvent * TransitionContext * Time)) (s : ManagedSession) :
  (s_State s = SessionStopped -> forallb (fun '(event, _, _) => negb (ends_stop event)) calls = true ->
     s_State (apply_all calls s) = SessionStopped /\ s_StopReason (apply_all calls s) = s_StopReason s)
  /\ (finished (s_State s) = true -> s_State (apply_all calls s) = s_State s).
Proof.
  revert s. induction calls as [|[[event c] now] calls IH]; intros s; [done|]. cbn [apply_all fold_left forallb].
  destruct (IH (fst (Apply event c now s))) as [IH1 IH2]. split.
  - intros E [He%negb_true_iff Hc]%andb_true_iff.
    destruct (Apply_stays_stopped event c now s E He) as [E1 E2]. destruct (IH1 E1 Hc) as [H1 H2].
    split; [done|]. rewrite <- E2. done.
  - intros Hf. pose proof (Apply_finished event c now s Hf) as E. rewrite <- E in Hf.
    specialize (IH2 Hf). by rewrite <- E.
Qed.

(** The automatic restart policy.  When the child of a running session exits
    on its own, the session recovers exactly if nothing was being sent, the exit
    code is not zero, the CLI is not codex, the CLI's session id is known, and
    both restart limits still have room; and it stops exactly when
    [exitStopReason] names a reason for it and the codex exception does not
    apply. *)
Theorem session_restart_policy (from : SupervisorSessionState) (c : TransitionContext) :
  observable from || bool_decide (from = SessionStarting) = true ->
  (Transition from EventUnexpectedExit c = (SessionRecovering, true) <-> may_restart c = true)
  /\ (Transition from EventUnexpectedExit c = (SessionStopped, true) <->
      may_restart c = false /\ exitStopReason c <> NoStopReason
      /\ (c_HasPendingSend c = true \/ c_CLI c <> CLICodex)).
Proof.
  intros Hfrom. assert (Transition from EventUnexpectedExit c = classifyExit c) as -> by (by destruct from).
  rewrite classifyExit_cases. destruct (may_restart c); [split; split; [done|done|done|by intros [? _]]|].
  destruct (bool_decide_reflect (exitStopReason c = NoStopReason)), (c_HasPendingSend c),
    (bool_decide_reflect (c_CLI c = CLICodex)); cbn; naive_solver.
Qed.

Lemma session_restart_policy_witness :
  (Transition SessionIdle EventUnexpectedExit example_context = (SessionRecovering, true)
     <-> may_restart example_context = true)
  /\ (Transition SessionIdle EventUnexpectedExit example_context = (SessionStopped, true) <->
      may_restart example_context = false /\ exitStopReason example_context <> NoStopReason
      /\ (c_HasPendingSend example_context = true \/ c_CLI example_context <> CLICodex)).
Proof. exact (session_restart_policy SessionIdle example_context eq_refl). Defined.

(** C35. The restart delay is ten seconds doubled for every earlier attempt and
    capped at five minutes, for every count a session file can hold; the
    doubling never overflows the 64-bit duration. *)
Theorem RestartBackoff_correct (count : Z) :
  0 <= count -> RestartBackoff count = Z.min RestartBackoffMax (RestartBackoffBase * 2 ^ count).
Proof.
  intros Hc. unfold RestartBackoff.
  pose proof (backoff_loop_spec (Z.to_nat count) 0 ltac:(lia)) as H. rewrite Z.mul_1_r in H. rewrite H, Z2Nat.id, Z.add_0_l by done.
  destruct (Z.leb_spec count 4).
  - assert (count = 0 \/ count = 1 \/ count = 2 \/ count = 3 \/ count = 4) as [-> |[-> |[-> |[-> | ->]]]] by lia;
      by vm_compute.
  - rewrite Z.min_l by lia. assert (2 ^ 5 <= 2 ^ count) by (apply Z.pow_le_mono_r; lia).
    unfold RestartBackoffMax, RestartBackoffBase, Second, Millisecond, Microsecond in *.
    change (2 ^ 5) with 32 in *. destruct (Z.ltb_spec (300 * (1000 * (1000 * 1000))) (10 * (1000 * (1000 * 1000)) * 32)); lia.
Qed.

Lemma RestartBackoff_correct_witness : RestartBackoff 4 = 160 * Second.
Proof. exact (RestartBackoff_correct 4 ltac:(lia)). Defined.
