(* ===== verification/TextPolicy.v ===== *)
(** * Text policy of the supervisor
    ([internal/supervisor/textpolicy/textpolicy.go], [east_asian_width.go])

    Display width and the classification of texts that must not be typed into a
    supervised CLI.  Texts are lists of runes.  The Unicode tables and the NFKC
    and lower-case mappings are not part of this repository: they are the fields
    of [UnicodeTables]. *)

From S2P Require Import Prelude.
From S2P Require Import GoStrings.
From S2P Require Import UTF8.

(** ** What the code takes from the Unicode libraries *)

Class UnicodeTables : Type := {
  isMn : Z -> bool;
  isMe : Z -> bool;
  isCf : Z -> bool;
  (** [strings.ToLower(norm.NFKC.String(s))] *)
  fold : list Z -> list Z }.

(** [unicode.IsControl] (general category Cc) and [unicode.IsSpace]. *)
Definition IsControl (r : Z) : bool := between 0 0x1F r || between 0x7F 0x9F r.

Definition IsSpace (r : Z) : bool :=
  between 0x09 0x0D r || (r =? 0x20) || (r =? 0x85) || (r =? 0xA0) || (r =? 0x1680)
  || between 0x2000 0x200A r || (r =? 0x2028) || (r =? 0x2029) || (r =? 0x202F)
  || (r =? 0x205F) || (r =? 0x3000).

(** ** Display width *)

Definition wideRanges : list (Z * Z) :=
  [(0x1100, 0x115F); (0x231A, 0x231B); (0x2329, 0x2329); (0x232A, 0x232A); (0x23E9, 0x23EC);
   (0x23F0, 0x23F0); (0x23F3, 0x23F3); (0x25FD, 0x25FE); (0x2614, 0x2615); (0x2648, 0x2653);
   (0x267F, 0x267F); (0x2693, 0x2693); (0x26A1, 0x26A1); (0x26AA, 0x26AB); (0x26BD, 0x26BE);
   (0x26C4, 0x26C5); (0x26CE, 0x26CE); (0x26D4, 0x26D4); (0x26EA, 0x26EA); (0x26F2, 0x26F3);
   (0x26F5, 0x26F5); (0x26FA, 0x26FA); (0x26FD, 0x26FD); (0x2705, 0x2705); (0x270A, 0x270B);
   (0x2728, 0x2728); (0x274C, 0x274C); (0x274E, 0x274E); (0x2753, 0x2755); (0x2757, 0x2757);
   (0x2795, 0x2797); (0x27B0, 0x27B0); (0x27BF, 0x27BF); (0x2B1B, 0x2B1C); (0x2B50, 0x2B50);
   (0x2B55, 0x2B55); (0x2E80, 0x2E99); (0x2E9B, 0x2EF3); (0x2F00, 0x2FD5); (0x2FF0, 0x2FFF);
   (0x3000, 0x3000); (0x3001, 0x3003); (0x3004, 0x3004); (0x3005, 0x3005); (0x3006, 0x3006);
   (0x3007, 0x3007); (0x3008, 0x3008); (0x3009, 0x3009); (0x300A, 0x300A); (0x300B, 0x300B);
   (0x300C, 0x300C); (0x300D, 0x300D); (0x300E, 0x300E); (0x300F, 0x300F); (0x3010, 0x3010);
   (0x3011, 0x3011); (0x3012, 0x3013); (0x3014, 0x3014); (0x3015, 0x3015); (0x3016, 0x3016);
   (0x3017, 0x3017); (0x3018, 0x3018); (0x3019, 0x3019); (0x301A, 0x301A); (0x301B, 0x301B);
   (0x301C, 0x301C); (0x301D, 0x301D); (0x301E, 0x301F); (0x3020, 0x3020); (0x3021, 0x3029);
   (0x302A, 0x302D); (0x302E, 0x302F); (0x3030, 0x3030); (0x3031, 0x3035); (0x3036, 0x3037);
   (0x3038, 0x303A); (0x303B, 0x303B); (0x303C, 0x303C); (0x303D, 0x303D); (0x303E, 0x303E);
   (0x3041, 0x3096); (0x3099, 0x309A); (0x309B, 0x309C); (0x309D, 0x309E); (0x309F, 0x309F);
   (0x30A0, 0x30A0); (0x30A1, 0x30FA); (0x30FB, 0x30FB); (0x30FC, 0x30FE); (0x30FF, 0x30FF);
   (0x3105, 0x312F); (0x3131, 0x318E); (0x3190, 0x3191); (0x3192, 0x3195); (0x3196, 0x319F);
   (0x31A0, 0x31BF); (0x31C0, 0x31E3); (0x31EF, 0x31EF); (0x31F0, 0x31FF); (0x3200, 0x321E);
   (0x3220, 0x3229); (0x322A, 0x3247); (0x3250, 0x3250); (0x3251, 0x325F); (0x3260, 0x327F);
   (0x3280, 0x3289); (0x328A, 0x32B0); (0x32B1, 0x32BF); (0x32C0, 0x32FF); (0x3300, 0x33FF);
   (0x3400, 0x4DBF); (0x4E00, 0x9FFF); (0xA000, 0xA014); (0xA015, 0xA015); (0xA016, 0xA48C);
   (0xA490, 0xA4C6); (0xA960, 0xA97C); (0xAC00, 0xD7A3); (0xF900, 0xFA6D); (0xFA6E, 0xFA6F);
   (0xFA70, 0xFAD9); (0xFADA, 0xFAFF); (0xFE10, 0xFE16); (0xFE17, 0xFE17); (0xFE18, 0xFE18);
   (0xFE19, 0xFE19); (0xFE30, 0xFE30); (0xFE31, 0xFE32); (0xFE33, 0xFE34); (0xFE35, 0xFE35);
   (0xFE36, 0xFE36); (0xFE37, 0xFE37); (0xFE38, 0xFE38); (0xFE39, 0xFE39); (0xFE3A, 0xFE3A);
   (0xFE3B, 0xFE3B); (0xFE3C, 0xFE3C); (0xFE3D, 0xFE3D); (0xFE3E, 0xFE3E); (0xFE3F, 0xFE3F);
   (0xFE40, 0xFE40); (0xFE41, 0xFE41); (0xFE42, 0xFE42); (0xFE43, 0xFE43); (0xFE44, 0xFE44);
   (0xFE45, 0xFE46); (0xFE47, 0xFE47); (0xFE48, 0xFE48); (0xFE49, 0xFE4C); (0xFE4D, 0xFE4F);
   (0xFE50, 0xFE52); (0xFE54, 0xFE57); (0xFE58, 0xFE58); (0xFE59, 0xFE59); (0xFE5A, 0xFE5A);
   (0xFE5B, 0xFE5B); (0xFE5C, 0xFE5C); (0xFE5D, 0xFE5D); (0xFE5E, 0xFE5E); (0xFE5F, 0xFE61);
   (0xFE62, 0xFE62); (0xFE63, 0xFE63); (0xFE64, 0xFE66); (0xFE68, 0xFE68); (0xFE69, 0xFE69);
   (0xFE6A, 0xFE6B); (0xFF01, 0xFF03); (0xFF04, 0xFF04); (0xFF05, 0xFF07); (0xFF08, 0xFF08);
   (0xFF09, 0xFF09); (0xFF0A, 0xFF0A); (0xFF0B, 0xFF0B); (0xFF0C, 0xFF0C); (0xFF0D, 0xFF0D);
   (0xFF0E, 0xFF0F); (0xFF10, 0xFF19); (0xFF1A, 0xFF1B); (0xFF1C, 0xFF1E); (0xFF1F, 0xFF20);
   (0xFF21, 0xFF3A); (0xFF3B, 0xFF3B); (0xFF3C, 0xFF3C); (0xFF3D, 0xFF3D); (0xFF3E, 0xFF3E);
   (0xFF3F, 0xFF3F); (0xFF40, 0xFF40); (0xFF41, 0xFF5A); (0xFF5B, 0xFF5B); (0xFF5C, 0xFF5C);
   (0xFF5D, 0xFF5D); (0xFF5E, 0xFF5E); (0xFF5F, 0xFF5F); (0xFF60, 0xFF60); (0xFFE0, 0xFFE1);
   (0xFFE2, 0xFFE2); (0xFFE3, 0xFFE3); (0xFFE4, 0xFFE4); (0xFFE5, 0xFFE6); (0x16FE0, 0x16FE1);
   (0x16FE2, 0x16FE2); (0x16FE3, 0x16FE3); (0x16FE4, 0x16FE4); (0x16FF0, 0x16FF1);
   (0x17000, 0x187F7); (0x18800, 0x18AFF); (0x18B00, 0x18CD5); (0x18D00, 0x18D08);
   (0x1AFF0, 0x1AFF3); (0x1AFF5, 0x1AFFB); (0x1AFFD, 0x1AFFE); (0x1B000, 0x1B0FF);
   (0x1B100, 0x1B122); (0x1B132, 0x1B132); (0x1B150, 0x1B152); (0x1B155, 0x1B155);
   (0x1B164, 0x1B167); (0x1B170, 0x1B2FB); (0x1F004, 0x1F004); (0x1F0CF, 0x1F0CF);
   (0x1F18E, 0x1F18E); (0x1F191, 0x1F19A); (0x1F200, 0x1F202); (0x1F210, 0x1F23B);
   (0x1F240, 0x1F248); (0x1F250, 0x1F251); (0x1F260, 0x1F265); (0x1F300, 0x1F320);
   (0x1F32D, 0x1F335); (0x1F337, 0x1F37C); (0x1F37E, 0x1F393); (0x1F3A0, 0x1F3CA);
   (0x1F3CF, 0x1F3D3); (0x1F3E0, 0x1F3F0); (0x1F3F4, 0x1F3F4); (0x1F3F8, 0x1F3FA);
   (0x1F3FB, 0x1F3FF); (0x1F400, 0x1F43E); (0x1F440, 0x1F440); (0x1F442, 0x1F4FC);
   (0x1F4FF, 0x1F53D); (0x1F54B, 0x1F54E); (0x1F550, 0x1F567); (0x1F57A, 0x1F57A);
   (0x1F595, 0x1F596); (0x1F5A4, 0x1F5A4); (0x1F5FB, 0x1F5FF); (0x1F600, 0x1F64F);
   (0x1F680, 0x1F6C5); (0x1F6CC, 0x1F6CC); (0x1F6D0, 0x1F6D2); (0x1F6D5, 0x1F6D7);
   (0x1F6DC, 0x1F6DF); (0x1F6EB, 0x1F6EC); (0x1F6F4, 0x1F6FC); (0x1F7E0, 0x1F7EB);
   (0x1F7F0, 0x1F7F0); (0x1F90C, 0x1F93A); (0x1F93C, 0x1F945); (0x1F947, 0x1F9FF);
   (0x1FA70, 0x1FA7C); (0x1FA80, 0x1FA88); (0x1FA90, 0x1FABD); (0x1FABF, 0x1FAC5);
   (0x1FACE, 0x1FADB); (0x1FAE0, 0x1FAE8); (0x1FAF0, 0x1FAF8); (0x20000, 0x2A6DF);
   (0x2A6E0, 0x2A6FF); (0x2A700, 0x2B739); (0x2B73A, 0x2B73F); (0x2B740, 0x2B81D);
   (0x2B81E, 0x2B81F); (0x2B820, 0x2CEA1); (0x2CEA2, 0x2CEAF); (0x2CEB0, 0x2EBE0);
   (0x2EBE1, 0x2EBEF); (0x2EBF0, 0x2EE5D); (0x2EE5E, 0x2F7FF); (0x2F800, 0x2FA1D);
   (0x2FA1E, 0x2FA1F); (0x2FA20, 0x2FFFD); (0x30000, 0x3134A); (0x3134B, 0x3134F);
   (0x31350, 0x323AF); (0x323B0, 0x3FFFD)].

(** [for lo < hi { ... }]: the distance halves, so the length is fuel enough. *)
Fixpoint isWide_loop (fuel lo hi : nat) (r : Z) : nat :=
  match fuel with
  | O => lo
  | S fuel =>
      if (lo <? hi)%nat then
        let mid := (lo + (hi - lo) / 2)%nat in
        match wideRanges !! mid with
        | Some (_, last) => if last <? r then isWide_loop fuel (S mid) hi r else isWide_loop fuel lo mid r
        | None => lo
        end
      else lo
  end.

Definition isWide (r : Z) : bool :=
  let lo := isWide_loop (length wideRanges) 0 (length wideRanges) r in
  match wideRanges !! lo with Some (first, _) => first <=? r | None => false end.

Definition RuneWidth `{UnicodeTables} (r : Z) : Z :=
  if isMn r || isMe r || (r =? 0x200d) || between 0xfe00 0xfe0f r || between 0x1f3fb 0x1f3ff r then 0
  else if isWide r then 2 else 1.

Definition DisplayWidth `{UnicodeTables} (rs : list Z) : Z :=
  fold_left (fun width r => width + RuneWidth r) rs 0.

(** ** Forbidden vocabulary *)

Inductive Category : Type :=
| CategoryForcePush
| CategoryPullRequest
| CategoryDeploy
| CategoryDeletion
| CategoryProduction
| CategoryBilling
| CategoryGitHistory
| CategoryMigration
| CategoryPrivilege.

#[export] Instance Category_eq_dec : EqDecision Category.
Proof. solve_decision. Defined.

Definition vocabulary : list (Category * string) :=
  [(CategoryForcePush, "force push"%string); (CategoryForcePush, "--force"%string);
   (CategoryForcePush, "-f"%string); (CategoryForcePush, "+refspec"%string);
   (CategoryForcePush, "強制プッシュ"%string); (CategoryForcePush, "force-with-lease"%string);
   (CategoryPullRequest, "PR"%string); (CategoryPullRequest, "pull request"%string);
   (CategoryPullRequest, "プルリクエスト"%string); (CategoryPullRequest, "gh pr"%string);
   (CategoryDeploy, "deploy"%string); (CategoryDeploy, "デプロイ"%string);
   (CategoryDeploy, "リリース"%string); (CategoryDeploy, "本番反映"%string);
   (CategoryDeploy, "publish"%string); (CategoryDeletion, "delete"%string);
   (CategoryDeletion, "rm -rf"%string); (CategoryDeletion, "rm -fr"%string);
   (CategoryDeletion, "削除"%string); (CategoryDeletion, "drop"%string);
   (CategoryDeletion, "truncate"%string); (CategoryDeletion, "reset --hard"%string);
   (CategoryDeletion, "clean -f"%string); (CategoryDeletion, "消去"%string);
   (CategoryProduction, "production"%string); (CategoryProduction, "本番"%string);
   (CategoryProduction, "prod 環境"%string); (CategoryBilling, "課金"%string);
   (CategoryBilling, "購入"%string); (CategoryBilling, "支払"%string);
   (CategoryBilling, "有料"%string); (CategoryBilling, "billing"%string);
   (CategoryBilling, "API キー"%string); (CategoryBilling, "プラン変更"%string);
   (CategoryGitHistory, "merge"%string); (CategoryGitHistory, "rebase"%string);
   (CategoryGitHistory, "マージ"%string); (CategoryGitHistory, "リベース"%string);
   (CategoryMigration, "migrate"%string); (CategoryMigration, "マイグレーション"%string);
   (CategoryPrivilege, "sudo"%string)].

Definition is_lower_rune (r : Z) : bool := between 97 122 r.
Definition is_digit_rune (r : Z) : bool := between 48 57 r.
Definition isWordRune (r : Z) : bool := is_lower_rune r || is_digit_rune r || (r =? 95).
Definition isAlphaNumeric (r : Z) : bool := is_lower_rune r || is_digit_rune r.
Definition isSymbolBodyRune (r : Z) : bool := isWordRune r || (r =? 45).
Definition hasJapanese (s : list Z) : bool := existsb (fun r => 127 <? r) s.

(** [strings.Fields]: the maximal runs without white space. *)
Fixpoint Fields_from (current : list Z) (s : list Z) : list (list Z) :=
  match s with
  | [] => match current with [] => [] | _ => [current] end
  | r :: s =>
      if IsSpace r
      then match current with [] => Fields_from [] s | _ => current :: Fields_from [] s end
      else Fields_from (current ++ [r]) s
  end.

Definition Fields (s : list Z) : list (list Z) := Fields_from [] s.

(** [strings.Contains]; on well-formed UTF-8 a substring in bytes is one in runes. *)
Fixpoint has_prefix (pre s : list Z) : bool :=
  match pre, s with
  | [], _ => true
  | p :: pre, r :: s => (p =? r) && has_prefix pre s
  | _, _ => false
  end.

Fixpoint contains (sub s : list Z) : bool :=
  has_prefix sub s || match s with [] => false | _ :: s => contains sub s end.

Fixpoint skip_while (p : Z -> bool) (s : list Z) (at_ : nat) : nat :=
  match s with
  | r :: s => if p r then skip_while p s (S at_) else at_
  | [] => at_
  end.

(** [for at < len(text) && p(text[at]) { at++ }] *)
Definition advance_while (p : Z -> bool) (text : list Z) (at_ : nat) : nat :=
  skip_while p (drop at_ text) at_.

Definition opt_test (p : Z -> bool) (o : option Z) : bool :=
  match o with Some r => p r | None => false end.

(** The rune before index [i]. *)
Definition before (text : list Z) (i : nat) : option Z :=
  match i with O => None | S j => text !! j end.

Definition refspec : list Z := runes "+refspec".

Definition phraseTokenMatches (text : list Z) (at_ : nat) (word : list Z) : option nat :=
  if (length text <=? at_)%nat then None
  else
    let matched :=
      if bool_decide (word = refspec) then
        if negb (opt_test (Z.eqb 43) (text !! at_)) || negb (opt_test isAlphaNumeric (text !! S at_))
        then None
        else Some (advance_while (fun r => isWordRune r || (r =? 45)) text (at_ + 2))
      else if has_prefix word (drop at_ text) then Some (at_ + length word)%nat
      else None in
    match matched with
    | None => None
    | Some end_ =>
        if hasJapanese word then Some end_
        else
          let symbol := opt_test (fun r => (r =? 45) || (r =? 43)) (head word) in
          let boundary := if symbol then isSymbolBodyRune else isWordRune in
          if opt_test boundary (before text at_) || opt_test boundary (text !! end_) then None
          else Some end_
    end.

(** The inner loop of [matches], from the second part on. *)
Fixpoint rest_matches (text : list Z) (at_ : nat) (parts : list (list Z)) : bool :=
  match parts with
  | [] => true
  | part :: parts =>
      let next := advance_while IsSpace text at_ in
      if (next =? at_)%nat && negb (hasJapanese part) then false
      else match phraseTokenMatches text next part with
           | None => false
           | Some end_ => rest_matches text end_ parts
           end
  end.

Definition phrase_matches_at (text : list Z) (parts : list (list Z)) (start : nat) : bool :=
  match parts with
  | [] => true
  | part :: parts =>
      match phraseTokenMatches text start part with
      | None => false
      | Some end_ => rest_matches text end_ parts
      end
  end.

Definition matches (text word : list Z) : bool :=
  if hasJapanese word && negb (existsb (Z.eqb 32) word) then contains word text
  else existsb (phrase_matches_at text (Fields word)) (seq 0 (length text)).

Section Classification.
Context `{UnicodeTables}.

Definition normalize (s : list Z) : list Z := fold (filter (fun r => isCf r = false) s).

(** [categories], in the order of the vocabulary and without repetitions. *)
Definition collect (normalized : list Z) : list Category :=
  fold_left (fun categories '(category, word) =>
    if matches normalized (normalize (runes word)) && negb (bool_decide (category ∈ categories))
    then categories ++ [category] else categories) vocabulary [].

(** [None]: undetermined. *)
Definition Classify (text : string) : option (list Category) :=
  if negb (ValidString text) || existsb (Z.eqb RuneError) (runes text) then None
  else
    let normalized := normalize (runes text) in
    if negb (existsb (fun r => negb (IsControl r) && negb (isCf r) && negb (IsSpace r)) normalized) then None
    else Some (collect normalized).

Definition IsForbidden (text : string) : bool :=
  match Classify text with None => true | Some categories => negb (bool_decide (categories = [])) end.

Definition ValidateParallelInstruction (value : string) (maxRunes maxWidth : Z) : bool :=
  if negb (ValidString value) || (value =? "")%string || (maxRunes <? Z.of_nat (length (runes value)))
     || (maxWidth <? DisplayWidth (runes value))
     || existsb (fun r => IsControl r || isCf r || (r =? 0x2028) || (r =? 0x2029)) (runes value)
  then false
  else if opt_test (fun r => (r =? 33) || (r =? 47) || (r =? 35)) (head (runes value)) then false
  else negb (IsForbidden value).

Definition NormalizeRecommendationForHash (s : string) : list Z :=
  match Fields (normalize (runes s)) with
  | [] => []
  | part :: parts => part ++ (parts ≫= fun part => 32 :: part)
  end.
End Classification.

(** ** Specification vocabulary *)

(** A token that is matched literally and ends at a word boundary. *)
Definition plain_token (tok : list Z) : bool :=
  negb (bool_decide (tok = [])) && negb (bool_decide (tok = refspec)) && negb (hasJapanese tok)
  && negb (existsb IsSpace tok).

(** The runes that may not touch the token. *)
Definition boundary_of (tok : list Z) : Z -> bool :=
  if opt_test (fun r => (r =? 45) || (r =? 43)) (head tok) then isSymbolBodyRune else isWordRune.

(** The tokens in order, with white space between them. *)
Inductive spaced : list (list Z) -> list Z -> Prop :=
| spaced_one (tok : list Z) : spaced [tok] tok
| spaced_cons (tok ws body : list Z) (parts : list (list Z)) :
    ws <> [] -> forallb IsSpace ws = true -> spaced parts body -> spaced (tok :: parts) (tok ++ ws ++ body).

Definition plain_phrase (word : list Z) : bool :=
  negb (bool_decide (Fields word = [])) && forallb plain_token (Fields word)
  && negb (hasJapanese word && negb (existsb (Z.eqb 32) word)).

(** [text] contains the phrase as separate words. *)
Definition contains_phrase (text : list Z) (parts : list (list Z)) : Prop :=
  exists pre body post, text = pre ++ body ++ post /\ spaced parts body
    /\ opt_test (boundary_of (default [] (head parts))) (list.last pre) = false
    /\ opt_test (boundary_of (default [] (list.last parts))) (head post) = false.

(** [text] mentions the vocabulary entry [word]. *)
Definition mentions (text word : list Z) : Prop :=
  if hasJapanese word && negb (existsb (Z.eqb 32) word) then exists pre post, text = pre ++ word ++ post
  else if plain_phrase word then contains_phrase text (Fields word)
  else matches text word = true.

(** Tables for texts without combining marks, for the examples. *)
Definition ascii_tables : UnicodeTables := {|
  isMn := fun _ => false; isMe := fun _ => false; isCf := fun _ => false;
  fold := map (fun r => if between 65 90 r then r + 32 else r) |}.

(** ** Lemmas on the width table *)

Fixpoint ranges_sorted (lower : Z) (l : list (Z * Z)) : bool :=
  match l with
  | [] => true
  | (a, b) :: l => (lower <? a) && (a <=? b) && ranges_sorted b l
  end.

Lemma ranges_sorted_lookup (l : list (Z * Z)) (lower : Z) (i : nat) a b :
  ranges_sorted lower l = true -> l !! i = Some (a, b) -> lower < a /\ a <= b.
Proof.
  revert lower i. induction l as [|[a' b'] l IH]; intros lower i Hs Hi; [done|]. cbn in Hs. simplify_bool.
  destruct i as [|i]; simpl in Hi; [simplify_eq; lia|]. destruct (IH b' i) as [? ?]; [done..|]. lia.
Qed.

Lemma ranges_sorted_lt (l : list (Z * Z)) (lower : Z) (i j : nat) a b c d :
  ranges_sorted lower l = true -> l !! i = Some (a, b) -> l !! j = Some (c, d) -> (i < j)%nat -> b < c.
Proof.
  revert lower i j. induction l as [|[a' b'] l IH]; intros lower i j Hs Hi Hj Hij; [done|]. cbn in Hs. simplify_bool.
  destruct j as [|j]; [lia|]. simpl in Hj. destruct i as [|i]; simpl in Hi.
  - simplify_eq. by destruct (ranges_sorted_lookup l b j c d).
  - apply (IH b' i j); [done..|lia].
Qed.

Lemma wideRanges_sorted : ranges_sorted (-1) wideRanges = true.
Proof. by vm_compute. Qed.

Lemma isWide_loop_spec (r : Z) (fuel lo hi : nat) :
  (hi - lo <= fuel)%nat -> (lo <= hi <= length wideRanges)%nat ->
  (forall i a b, (i < lo)%nat -> wideRanges !! i = Some (a, b) -> b < r) ->
  (forall i a b, (hi <= i)%nat -> wideRanges !! i = Some (a, b) -> r <= b) ->
  let k := isWide_loop fuel lo hi r in
  (forall i a b, (i < k)%nat -> wideRanges !! i = Some (a, b) -> b < r)
  /\ (forall i a b, (k <= i)%nat -> wideRanges !! i = Some (a, b) -> r <= b).
Proof.
  revert lo hi. induction fuel as [|fuel IH]; intros lo hi Hf Hb Hlo Hhi; cbn [isWide_loop].
  { assert (lo = hi) as -> by lia. done. }
  destruct (Nat.ltb_spec lo hi) as [Hlt|Hge]; [|assert (lo = hi) as -> by lia; done].
  set (mid := (lo + (hi - lo) / 2)%nat).
  assert (lo <= mid < hi)%nat as Hmid.
  { subst mid. pose proof (Nat.div_lt (hi - lo) 2). lia. }
  destruct (lookup_lt_is_Some_2 wideRanges mid ltac:(lia)) as ([a b] & E). rewrite E.
  destruct (Z.ltb_spec b r) as [Hbr|Hbr].
  - apply IH; [lia|lia| |done]. intros i a' b' Hi Ei. destruct (decide (i < lo)%nat) as [|Hn]; [by eapply Hlo|].
    destruct (decide (i = mid)) as [->|Hne]; [by simplify_eq|].
    pose proof (ranges_sorted_lt _ _ i mid _ _ _ _ wideRanges_sorted Ei E ltac:(lia)).
    destruct (ranges_sorted_lookup _ _ mid a b wideRanges_sorted E). lia.
  - apply IH; [lia|lia|done|]. intros i a' b' Hi Ei. destruct (decide (i = mid)) as [->|Hne]; [by simplify_eq|].
    pose proof (ranges_sorted_lt _ _ mid i _ _ _ _ wideRanges_sorted E Ei ltac:(lia)).
    destruct (ranges_sorted_lookup _ _ i a' b' wideRanges_sorted Ei). lia.
Qed.

(** ** Lemmas on phrase matching *)

Lemma has_prefix_spec (pre s : list Z) : has_prefix pre s = true <-> exists post, s = pre ++ post.
Proof.
  revert s. induction pre as [|p pre IH]; intros s; simpl.
  - split; [by exists s|done].
  - destruct s as [|r s]; [split; [done|by intros (? & ?)]|].
    rewrite andb_true_iff, Z.eqb_eq, IH. split.
    + intros (-> & post & ->). by exists post.
    + intros (post & [= -> ->]). split; [done|by exists post].
Qed.

Lemma contains_spec (sub s : list Z) : contains sub s = true <-> exists pre post, s = pre ++ sub ++ post.
Proof.
  induction s as [|r s IH]; simpl; rewrite orb_true_iff, has_prefix_spec.
  - split; [intros [(post & E)|]; [|done]; by exists [], post|].
    intros (pre & post & E). left. destruct pre; [by exists post|done].
  - rewrite IH. split.
    + intros [(post & ->)|(pre & post & ->)]; [by exists [], post|by exists (r :: pre), post].
    + intros (pre & post & E). destruct pre as [|x pre]; [left; by exists post|].
      right. simplify_eq/=. by exists pre, post.
Qed.

Lemma before_app (pre tail : list Z) : before (pre ++ tail) (length pre) = list.last pre.
Proof.
  destruct pre as [|x pre] using rev_ind; [done|]. rewrite list.last_snoc, length_app. cbn.
  replace (length pre + 1)%nat with (S (length pre)) by lia. cbn.
  rewrite lookup_app_l by (rewrite length_app; simpl; lia). by rewrite lookup_app_r, Nat.sub_diag by done.
Qed.

Lemma lookup_app_head (pre tail : list Z) : (pre ++ tail) !! length pre = head tail.
Proof. rewrite lookup_app_r, Nat.sub_diag by done. by destruct tail. Qed.

Lemma phraseTokenMatches_plain (pre tail tok : list Z) (e : nat) :
  plain_token tok = true ->
  (phraseTokenMatches (pre ++ tail) (length pre) tok = Some e <->
   exists post, tail = tok ++ post /\ e = length (pre ++ tok)
     /\ opt_test (boundary_of tok) (list.last pre) = false /\ opt_test (boundary_of tok) (head post) = false).
Proof.
  intros Htok. unfold plain_token in Htok. apply andb_true_iff in Htok as [Htok _].
  apply andb_true_iff in Htok as [Htok Hj]. apply andb_true_iff in Htok as [Hne Href].
  simplify_bool. unfold phraseTokenMatches. rewrite length_app.
  rewrite (bool_decide_eq_false_2 (tok = refspec)), Hj, drop_app_length, before_app by done.
  fold (boundary_of tok).
  destruct (has_prefix tok tail) eqn:Hp.
  - apply has_prefix_spec in Hp as (post & ->). rewrite (leb_correct_conv _ (length pre + length (tok ++ post)))%nat
      by (rewrite length_app; destruct tok; [done|simpl; lia]).
    rewrite app_assoc, <- length_app, lookup_app_head. split.
    + intros H. case_match eqn:E; simplify_eq. apply orb_false_iff in E as [E1 E2]. by exists post.
    + intros (post' & E1 & -> & E2 & E3). apply app_inv_head in E1 as <-. by rewrite E2, E3.
  - split; [by case_match|]. intros (post & -> & _). exfalso.
    rewrite (proj2 (has_prefix_spec tok (tok ++ post))) in Hp by (by exists post). done.
Qed.

Lemma advance_while_app (p : Z -> bool) (pre ws post : list Z) :
  forallb p ws = true -> opt_test p (head post) = false ->
  advance_while p (pre ++ ws ++ post) (length pre) = length (pre ++ ws).
Proof.
  intros Hws Hpost. unfold advance_while. rewrite drop_app_length, length_app. generalize (length pre).
  induction ws as [|r ws IH]; intros n; simpl in *.
  - rewrite Nat.add_0_r. destruct post as [|r post]; [done|]. simpl in *. by rewrite Hpost.
  - apply andb_true_iff in Hws as [-> Hws]. rewrite IH by done. lia.
Qed.

(** Every list splits at its first element outside [p]. *)
Lemma split_while (p : Z -> bool) (s : list Z) :
  exists ws post, s = ws ++ post /\ forallb p ws = true /\ opt_test p (head post) = false.
Proof.
  induction s as [|r s (ws & post & -> & Hws & Hpost)]; [by exists [], []|].
  destruct (p r) eqn:E; [exists (r :: ws), post|exists [], (r :: ws ++ post)]; simpl; by rewrite ?E, ?Hws.
Qed.

Lemma space_no_boundary (tok : list Z) (r : Z) : IsSpace r = true -> boundary_of tok r = false.
Proof.
  intros Hr. unfold boundary_of. destruct (opt_test _ _);
    unfold isSymbolBodyRune, isWordRune, is_lower_rune, is_digit_rune, IsSpace, between in *; lia.
Qed.

Lemma space_head (tok ws post : list Z) :
  ws <> [] -> forallb IsSpace ws = true -> opt_test (boundary_of tok) (head (ws ++ post)) = false.
Proof. destruct ws as [|r ws]; [done|]. simpl. intros _ [H _]%andb_true_iff. by apply space_no_boundary. Qed.

Lemma space_last (tok pre ws : list Z) :
  ws <> [] -> forallb IsSpace ws = true -> opt_test (boundary_of tok) (list.last (pre ++ ws)) = false.
Proof.
  intros Hne Hws. destruct ws as [|r ws] using rev_ind; [done|]. rewrite app_assoc, list.last_snoc. simpl.
  rewrite forallb_app in Hws. apply andb_true_iff in Hws as [_ H]. simpl in H. rewrite andb_true_r in H.
  by apply space_no_boundary.
Qed.

Lemma plain_token_head (tok post : list Z) :
  plain_token tok = true -> opt_test IsSpace (head (tok ++ post)) = false.
Proof.
  unfold plain_token. intros H. simplify_bool. destruct tok as [|r tok]; [by destruct H|].
  simpl in *. by destruct (IsSpace r).
Qed.

Lemma plain_token_no_japanese (tok : list Z) : plain_token tok = true -> hasJapanese tok = false.
Proof. unfold plain_token. intros H. by simplify_bool. Qed.

Lemma spaced_inv (tok : list Z) (parts : list (list Z)) (body : list Z) :
  spaced (tok :: parts) body ->
  (parts = [] /\ body = tok)
  \/ exists ws body', ws <> [] /\ forallb IsSpace ws = true /\ spaced parts body' /\ body = tok ++ ws ++ body'.
Proof. inversion 1; subst; [by left|right; eauto 10]. Qed.

Lemma spaced_nonempty (body : list Z) : ~ spaced [] body.
Proof. by inversion 1. Qed.

(** White space in front of a token is determined. *)
Lemma split_unique (ws ws' rest tok rest' : list Z) :
  forallb IsSpace ws = true -> opt_test IsSpace (head rest) = false ->
  forallb IsSpace ws' = true -> plain_token tok = true ->
  ws ++ rest = ws' ++ tok ++ rest' -> ws' = ws /\ rest = tok ++ rest'.
Proof.
  intros Hws Hrest Hws' Htok. revert ws' Hws'. induction ws as [|r ws IH]; intros ws' Hws' E; simpl in *.
  - destruct ws' as [|r' ws']; [done|]. subst rest. simpl in *. apply andb_true_iff in Hws' as [H _]. congruence.
  - apply andb_true_iff in Hws as [Hr Hws]. destruct ws' as [|r' ws']; simpl in *.
    + pose proof (plain_token_head tok rest' Htok) as H. rewrite <- E in H. simpl in H. congruence.
    + simplify_eq. apply andb_true_iff in Hws' as [_ Hws']. by destruct (IH Hws ws' Hws') as [-> ->].
Qed.

Lemma rest_matches_spec (parts : list (list Z)) (pre tail : list Z) :
  forallb plain_token parts = true ->
  (rest_matches (pre ++ tail) (length pre) parts = true <->
   parts = [] \/ exists ws body post, tail = ws ++ body ++ post /\ ws <> [] /\ forallb IsSpace ws = true
     /\ spaced parts body /\ opt_test (boundary_of (default [] (list.last parts))) (head post) = false).
Proof.
  revert pre tail. induction parts as [|tok parts IH]; intros pre tail Hplain; [by split; [left|]|].
  simpl in Hplain. apply andb_true_iff in Hplain as [Htok Hplain]. cbn [rest_matches].
  destruct (split_while IsSpace tail) as (ws & rest & -> & Hws & Hrest).
  rewrite advance_while_app, plain_token_no_japanese, andb_true_r, (app_assoc pre ws rest) by done.
  split.
  - intros H. right. destruct (Nat.eqb_spec (length (pre ++ ws)) (length pre)) as [|Hne]; [done|].
    assert (ws <> []) as Hws0 by (intros ->; by rewrite app_nil_r in Hne).
    destruct (phraseTokenMatches _ _ tok) as [e|] eqn:E; [|done].
    apply phraseTokenMatches_plain in E as (post & -> & -> & Hb & Ha); [|done].
    rewrite (app_assoc (pre ++ ws) tok post) in H. apply IH in H as [->|(ws' & body & post' & -> & Hne' & Hws' & Hbody & Hend)]; [| |done].
    + exists ws, tok, post. split_and!; auto. constructor.
    + exists ws, (tok ++ ws' ++ body), post'. split_and!; auto; [by rewrite <- !app_assoc|by constructor|].
      destruct parts as [|p parts]; [by inversion Hbody|]. done.
  - intros [?|(ws' & body & post & E & Hne & Hws' & Hbody & Hend)]; [done|].
    destruct (spaced_inv tok parts body Hbody) as [[-> ->]|(ws0 & body0 & Hne0 & Hws0 & Hbody0 & ->)].
    + destruct (split_unique ws ws' rest tok post Hws Hrest Hws' Htok E) as [-> ->].
      destruct (Nat.eqb_spec (length (pre ++ ws)) (length pre)) as [Hl|_];
        [rewrite length_app in Hl; destruct ws; [done|simpl in Hl; lia]|].
      rewrite (proj2 (phraseTokenMatches_plain (pre ++ ws) (tok ++ post) tok (length ((pre ++ ws) ++ tok)) Htok)); [done|].
      exists post. split_and!; auto using space_last.
    + rewrite <- !app_assoc in E.
      destruct (split_unique ws ws' rest tok _ Hws Hrest Hws' Htok E) as [-> ->].
      destruct (Nat.eqb_spec (length (pre ++ ws)) (length pre)) as [Hl|_];
        [rewrite length_app in Hl; destruct ws; [done|simpl in Hl; lia]|].
      rewrite (proj2 (phraseTokenMatches_plain (pre ++ ws) (tok ++ ws0 ++ body0 ++ post) tok
        (length ((pre ++ ws) ++ tok)) Htok)).
      * rewrite (app_assoc (pre ++ ws) tok). apply IH; [done|]. right.
        exists ws0, body0, post. split_and!; auto. destruct parts; [by apply spaced_nonempty in Hbody0|done].
      * exists (ws0 ++ body0 ++ post). split_and!; auto using space_last, space_head.
Qed.

Lemma phrase_matches_spec (text : list Z) (parts : list (list Z)) :
  parts <> [] -> forallb plain_token parts = true ->
  (existsb (phrase_matches_at text parts) (seq 0 (length text)) = true <-> contains_phrase text parts).
Proof.
  intros Hne Hplain. destruct parts as [|tok parts]; [done|]. clear Hne. simpl in Hplain.
  apply andb_true_iff in Hplain as [Htok Hplain]. rewrite existsb_true. unfold contains_phrase. split.
  - intros (start & Hstart%elem_of_seq & H). unfold phrase_matches_at in H.
    assert (length (take start text) = start) as Hlen by (rewrite length_take; lia).
    set (pre := take start text) in *. set (tail := drop start text) in *. assert (text = pre ++ tail) as Etext by (symmetry; apply take_drop).
    rewrite <- Hlen in H. clearbody pre tail. subst text.
    destruct (phraseTokenMatches (pre ++ tail) (length pre) tok) as [e|] eqn:E; [|done].
    apply phraseTokenMatches_plain in E as (post & Et & -> & Hb & Ha); [|done].
    rewrite Et, (app_assoc pre tok) in H. rewrite Et.
    apply rest_matches_spec in H as [->|(ws & body & post' & -> & Hne & Hws & Hbody & Hend)]; [| |done].
    + exists pre, tok, post. split_and!; auto. constructor.
    + exists pre, (tok ++ ws ++ body), post'. split_and!; auto; [by rewrite <- !app_assoc|by constructor|].
      destruct parts; [by apply spaced_nonempty in Hbody|done].
  - intros (pre & body & post & -> & Hbody & Hb & Ha). exists (length pre).
    assert (0 < length body)%nat as Hlen.
    { unfold plain_token in Htok. destruct tok; [by simplify_bool|].
      destruct (spaced_inv _ _ _ Hbody) as [[_ ->]|(? & ? & _ & _ & _ & ->)]; simpl; lia. }
    split; [apply elem_of_seq; rewrite !length_app; lia|]. unfold phrase_matches_at.
    destruct (spaced_inv tok parts body Hbody) as [[-> ->]|(ws & body' & Hne & Hws & Hbody' & ->)].
    + rewrite (proj2 (phraseTokenMatches_plain pre (tok ++ post) tok (length (pre ++ tok)) Htok)); [done|]. by exists post.
    + rewrite <- !app_assoc. rewrite (proj2 (phraseTokenMatches_plain pre (tok ++ ws ++ body' ++ post) tok (length (pre ++ tok)) Htok)).
      * rewrite (app_assoc pre tok). apply rest_matches_spec; [done|]. right. exists ws, body', post. split_and!; auto.
        destruct parts; [by apply spaced_nonempty in Hbody'|done].
      * exists (ws ++ body' ++ post). split_and!; auto using space_head.
Qed.

Lemma matches_mentions (text word : list Z) : matches text word = true <-> mentions text word.
Proof.
  unfold mentions, matches. destruct (hasJapanese word && negb (existsb (Z.eqb 32) word)) eqn:Hj; [apply contains_spec|].
  destruct (plain_phrase word) eqn:Hp; [|done]. unfold plain_phrase in Hp. simplify_bool. by apply phrase_matches_spec.
Qed.

Lemma collect_spec `{UnicodeTables} (text : list Z) :
  NoDup (collect text)
  /\ forall c, c ∈ collect text <-> exists w, (c, w) ∈ vocabulary /\ mentions text (normalize (runes w)).
Proof.
  unfold collect.
  assert (forall (voc : list (Category * string)) (cs : list Category), NoDup cs ->
    let r := fold_left (fun categories '(category, word) =>
      if matches text (normalize (runes word)) && negb (bool_decide (category ∈ categories))
      then categories ++ [category] else categories) voc cs in
    NoDup r /\ forall c, c ∈ r <-> c ∈ cs \/ exists w, (c, w) ∈ voc /\ mentions text (normalize (runes w))) as Hgen.
  { induction voc as [|[c0 w0] voc IH]; intros cs Hnd; cbn [fold_left].
    - split; [done|]. intros c. split; [auto|]. intros [?|(w & Hw & _)]; [done|]. by apply not_elem_of_nil in Hw.
    - destruct (matches text (normalize (runes w0))) eqn:Hm; cbn [andb];
        [destruct (bool_decide_reflect (c0 ∈ cs)) as [Hc0|Hc0]; cbn [negb]|].
      + destruct (IH cs Hnd) as [IH1 IH2]. split; [done|]. intros c. rewrite IH2. setoid_rewrite elem_of_cons.
        apply matches_mentions in Hm. split; [naive_solver|]. intros [?|(w & [[= -> ->]|Hw] & Hmw)]; eauto.
      + destruct (IH (cs ++ [c0])) as [IH1 IH2].
        { apply list.NoDup_app. split_and!; [done| |apply NoDup_singleton]. intros c Hc ->%list_elem_of_singleton. done. }
        split; [done|]. intros c. rewrite IH2, elem_of_app, list_elem_of_singleton. setoid_rewrite elem_of_cons.
        apply matches_mentions in Hm. split; [intros [[?| ->]|(w & Hw & Hmw)]; eauto|].
        intros [?|(w & [[= -> ->]|Hw] & Hmw)]; eauto.
      + destruct (IH cs Hnd) as [IH1 IH2]. split; [done|]. intros c. rewrite IH2. setoid_rewrite elem_of_cons.
        split; [naive_solver|]. intros [?|(w & [[= -> ->]|Hw] & Hmw)]; eauto.
        apply matches_mentions in Hmw. congruence. }
  destruct (Hgen vocabulary [] (NoDup_nil_2)) as [H1 H2]. split; [done|].
  intros c. rewrite H2. split; [intros [Hn|?]; [by apply not_elem_of_nil in Hn|done]|by right].
Qed.

(** ** Properties of the width table *)

(** The binary search over the East Asian Width table is exact: a rune is
    wide if and only if one of the two hundred and eighty-six ranges contains
    it, for every integer. *)
Theorem isWide_correct (r : Z) :
  isWide r = existsb (fun '(first, last) => (first <=? r) && (r <=? last)) wideRanges.
Proof.
  unfold isWide.
  destruct (isWide_loop_spec r (length wideRanges) 0 (length wideRanges)) as [Hlo Hhi]; [lia|lia|lia| |].
  { intros i a b Hi E. apply lookup_lt_Some in E. lia. }
  set (k := isWide_loop (length wideRanges) 0 (length wideRanges) r) in *.
  apply eq_true_iff_eq. rewrite existsb_true. split.
  - destruct (wideRanges !! k) as [[a b]|] eqn:E; [|done]. intros Ha. exists (a, b). split; [by eapply list_elem_of_lookup_2|].
    specialize (Hhi k a b ltac:(lia) E). lia.
  - intros ([a b] & Hin & Hab). apply list_elem_of_lookup_1 in Hin as (j & Ej).
    destruct (decide (j < k)%nat) as [Hj|Hj]; [specialize (Hlo j a b Hj Ej); lia|].
    assert (k < length wideRanges)%nat as Hk by (apply lookup_lt_Some in Ej; lia).
    destruct (lookup_lt_is_Some_2 wideRanges k Hk) as ([c d] & Ek). rewrite Ek.
    destruct (decide (j = k)) as [->|Hne]; [simplify_eq; lia|].
    pose proof (ranges_sorted_lt _ _ k j _ _ _ _ wideRanges_sorted Ek Ej ltac:(lia)).
    specialize (Hhi k c d ltac:(lia) Ek). lia.
Qed.

(** ** Properties of the classifier *)

(** The forbidden-text classifier is sound and complete with respect to its
    vocabulary, for any Unicode tables: a category is reported, once, if and
    only if the normalised text mentions one of its entries — a Japanese word
    anywhere, or the words of an ASCII phrase in order, with any amount of white
    space between them and no word rune touching either end. *)
Theorem Classify_correct `{UnicodeTables} (text : string) (categories : list Category) :
  Classify text = Some categories ->
  NoDup categories
  /\ (forall c, c ∈ categories <->
        exists w, (c, w) ∈ vocabulary /\ mentions (normalize (runes text)) (normalize (runes w)))
  /\ (IsForbidden text = true <-> exists c w, (c, w) ∈ vocabulary
        /\ mentions (normalize (runes text)) (normalize (runes w))).
Proof.
  intros Hc. assert (categories = collect (normalize (runes text))) as ->.
  { unfold Classify in Hc. repeat case_match; simplify_eq; done. }
  destruct (collect_spec (normalize (runes text))) as [H1 H2]. split_and!; [done|done|].
  unfold IsForbidden. rewrite Hc, negb_true_iff, bool_decide_eq_false. split.
  - intros Hne. destruct (collect _) as [|c cs]; [done|]. destruct (proj1 (H2 c)) as (w & Hw); [left|]. by exists c, w.
  - intros (c & w & Hw) E. rewrite E in H2. by apply (not_elem_of_nil c), H2; exists w.
Qed.

Lemma Classify_correct_witness :
  NoDup [CategoryDeletion]
  /\ (forall c, c ∈ [CategoryDeletion] <-> exists w, (c, w) ∈ vocabulary
        /\ mentions (@normalize ascii_tables (runes "please RM   -rf build")) (@normalize ascii_tables (runes w)))
  /\ (@IsForbidden ascii_tables "please RM   -rf build" = true <-> exists c w, (c, w) ∈ vocabulary
        /\ mentions (@normalize ascii_tables (runes "please RM   -rf build")) (@normalize ascii_tables (runes w))).
Proof.
  apply (@Classify_correct ascii_tables "please RM   -rf build" [CategoryDeletion]). by vm_compute.
Defined.
