(* ===== verification/SendGate.v ===== *)
(** * What may be typed into a supervised CLI
    ([internal/supervisor/sendgate.go], [fixedtexts.go], [operatortext.go],
    [classifier.go])

    The gate in front of every automatic send, the fixed texts and the operator
    texts that can pass it, and the extraction of the recommendation that the
    gate's caller classifies.  Screen rows are lists of runes. *)

From S2P Require Import Prelude.
From S2P Require Import GoStrings.
From S2P Require Import UTF8.
From S2P Require Import Errors.
From S2P Require Import TextPolicy.
From S2P Require Import Session.

(** ** The gate *)

Inductive SendOrigin : Type := SendOriginNormal | SendOriginHandoff.

#[export] Instance SendOrigin_eq_dec : EqDecision SendOrigin.
Proof. solve_decision. Defined.

(** The empty string, which means "not blocked", is [None] below. *)
Inductive SupervisorSendBlockedReason : Type :=
| SendBlockedStop
| SendBlockedState
| SendBlockedPending
| SendBlockedUnconfirmed
| SendBlockedNotFixedText
| SendBlockedRateLimited.

(** [len(origins) == 0 || origins[0] != SendOriginHandoff] *)
Definition not_handoff (origins : list SendOrigin) : bool :=
  match origins with SendOriginHandoff :: _ => false | _ => true end.

Definition SendKindAllowed (state observed : SupervisorSessionState) (kind : SupervisorSendKind)
    (origins : list SendOrigin) : bool :=
  if bool_decide (kind = SendKindOperatorInput)
  then bool_decide (state = SessionIdle) && bool_decide (observed = SessionIdle)
  else if negb (bool_decide (state = SessionIdle)) && negb (bool_decide (state = SessionAwaitingRecommendation))
          && negb (bool_decide (state = SessionRotating)) then false
  else if bool_decide (state = SessionRotating) && not_handoff origins then false
  else if negb (bool_decide (observed = SessionIdle))
          && negb (bool_decide (observed = SessionAwaitingRecommendation)) then false
  else if bool_decide (state = SessionRotating) && bool_decide (kind = SendKindRecommendationContinue) then false
  else if bool_decide (observed = SessionAwaitingRecommendation)
    then bool_decide (kind = SendKindRecommendationContinue) || bool_decide (kind = SendKindHandoffEnd)
         || bool_decide (kind = SendKindRemoteControl)
  else true.

Definition CheckSendGate (s : ManagedSession) (observed : SupervisorSessionState)
    (kind : SupervisorSendKind) (stopped fixed freshAfterDiscard : bool) (origins : list SendOrigin)
    : option SupervisorSendBlockedReason :=
  if negb (bool_decide (s_State s = SessionIdle))
     && negb (bool_decide (s_State s = SessionAwaitingRecommendation))
     && (negb (bool_decide (s_State s = SessionRotating)) || not_handoff origins)
  then Some SendBlockedState
  else if stopped then Some SendBlockedStop
  else if negb (SendKindAllowed (s_State s) observed kind origins) then Some SendBlockedState
  else if is_some (sg_Pending (s_SendGate s)) then Some SendBlockedPending
  else if (sg_UnconfirmedDiscarded (s_SendGate s) && negb freshAfterDiscard)
          || (negb (sg_UnconfirmedDiscarded (s_SendGate s)) && sg_EverSent (s_SendGate s)
              && negb (sg_LastSendConfirmed (s_SendGate s)))
  then Some SendBlockedUnconfirmed
  else if negb fixed then Some SendBlockedNotFixedText
  else None.

(** ** The texts *)

Definition RecommendationContinueText : string := "推奨どおり進めて".
Definition parallelInstructionMaxLength : Z := 200.
Definition parallelInstructionMaxWidth : Z := 190.

Definition FixedText `{UnicodeTables} (kind : SupervisorSendKind) (parallelInstruction : string) : option string :=
  match kind with
  | SendKindRecommendationContinue => Some RecommendationContinueText
  | SendKindHandoffEnd => Some "#end"%string
  | SendKindHandoffExit => Some "/exit"%string
  | SendKindSessionStart => Some "#start"%string
  | SendKindRemoteControl => Some "/rc"%string
  | SendKindParallelInstruction =>
      if ValidateParallelInstruction parallelInstruction parallelInstructionMaxLength parallelInstructionMaxWidth
      then Some parallelInstruction else None
  | _ => None
  end.

Definition SupervisorOperatorInputMaxLength : Z := 2000.

(** The payload of an [OperatorText]; the zero value has none. *)
Definition OperatorText : Type := option string.

(** The loop of [NewOperatorText]: [true] when no rune is refused. *)
Fixpoint operator_runes_ok (first : bool) (rs : list Z) : bool :=
  match rs with
  | [] => true
  | r :: rs =>
      if (first && ((r =? 33) || (r =? 47) || (r =? 35))) || (r =? RuneError) || IsControl r
         || (r =? 0x2028) || (r =? 0x2029)
      then false else operator_runes_ok false rs
  end.

Definition NewOperatorText (value : string) : res OperatorText :=
  let malformed := Err (Errorf "SUP_REQUEST_MALFORMED" []) in
  if negb (ValidString value) then malformed
  else
    let count := RuneCountInString value in
    if (count <? 1) || (SupervisorOperatorInputMaxLength <? count) then malformed
    else if negb (operator_runes_ok true (runes value)) then malformed
    else Ok (Some value).

Definition OperatorText_Len (o : OperatorText) : Z :=
  match o with None => 0 | Some text => RuneCountInString text end.

Definition PTYText (o : OperatorText) : string := match o with None => ""%string | Some text => text end.

(** ** The recommendation on the screen *)

Abbreviation row := (list Z) (only parsing).

Fixpoint trim_left (p : Z -> bool) (s : row) : row :=
  match s with r :: s' => if p r then trim_left p s' else s | [] => [] end.

(** [strings.TrimFunc]; [strings.TrimSpace] and [strings.Trim] are instances. *)
Definition trim (p : Z -> bool) (s : row) : row := rev (trim_left p (rev (trim_left p s))).
Definition TrimSpace (s : row) : row := trim IsSpace s.

Definition blank (s : row) : bool := bool_decide (TrimSpace s = []).

Definition border_rune : Z := 0x2500.
Definition isBorderRow (s : row) : bool :=
  negb (bool_decide (s = [])) && bool_decide (trim (Z.eqb border_rune) s = []).

Definition prompt_box : row := [0x276F; 0xA0].
Definition prompt_echo : row := [0x276F; 0x20].
Definition done_prefix : row := [0x273B; 0x20].
Definition done_mark : row := [0x20; 0xB7; 0x20; 0x64; 0x6F; 0x6E; 0x65; 0x20].

Definition row_at (rows : list row) (i : Z) : row :=
  if i <? 0 then [] else default [] (rows !! Z.to_nat i).

(** [for i := lo; i < hi; i++ { if p(i) { found = i } }]: the last index. *)
Fixpoint last_index (n : nat) (lo : Z) (p : Z -> bool) (found : Z) : Z :=
  match n with
  | O => found
  | S n => last_index n (lo + 1) p (if p lo then lo else found)
  end.

Definition last_in_range (lo hi : Z) (p : Z -> bool) : Z := last_index (Z.to_nat (hi - lo)) lo p (-1).

(** [for i := hi; i > lo; i-- { if p(i) { return i } }] *)
Fixpoint first_below (n : nat) (hi : Z) (p : Z -> bool) : option Z :=
  match n with
  | O => None
  | S n => if p hi then Some hi else first_below n (hi - 1) p
  end.

(** [rows[start:end]] *)
Definition rows_between (rows : list row) (start end_ : Z) : list row :=
  take (Z.to_nat (end_ - start)) (drop (Z.to_nat start) rows).

Definition is_input_box (rows : list row) (i : Z) : bool :=
  has_prefix prompt_box (row_at rows i) && isBorderRow (row_at rows (i - 1)) && isBorderRow (row_at rows (i + 1)).

Definition is_done_row (rows : list row) (i : Z) : bool :=
  has_prefix done_prefix (row_at rows i) && contains done_mark (row_at rows i).

Definition ObservedRecommendationBounds (rows : list row) : option (Z * Z) :=
  let n := Z.of_nat (length rows) in
  let inputBox := last_in_range 1 (n - 1) (is_input_box rows) in
  if inputBox <? 0 then None
  else
    let echo := last_in_range 0 inputBox (fun i => has_prefix prompt_echo (row_at rows i)) in
    if echo <? 0 then None
    else
      match first_below (Z.to_nat (inputBox - 1 - echo)) (inputBox - 1) (is_done_row rows) with
      | None => None
      | Some end_ =>
          if existsb (fun r => negb (blank r)) (rows_between rows (echo + 1) end_)
          then Some (echo + 1, end_) else None
      end.

Record RecommendationExtractor : Type := mkExtractor {
  PreviousInput : row; RecommendationStart : row; InputTop : row; ObservedScreen : bool }.

Fixpoint join_rows (sep : row) (rows : list row) : row :=
  match rows with
  | [] => []
  | [r] => r
  | r :: rows => r ++ sep ++ join_rows sep rows
  end.

(** The first index in [lo, lo+n) that satisfies [p]. *)
Fixpoint first_above (n : nat) (lo : Z) (p : Z -> bool) : option Z :=
  match n with
  | O => None
  | S n => if p lo then Some lo else first_above n (lo + 1) p
  end.

Definition Extract (e : RecommendationExtractor) (rows : list row) : row * bool :=
  let n := Z.of_nat (length rows) in
  let trimmed_is (pattern : row) (i : Z) := bool_decide (TrimSpace (row_at rows i) = pattern) in
  if ObservedScreen e then
    match ObservedRecommendationBounds rows with
    | None => ([], false)
    | Some (start, end_) =>
        let body := TrimSpace (join_rows [10] (rows_between rows start end_)) in
        (body, negb (bool_decide (body = [])))
    end
  else if bool_decide (PreviousInput e = []) || bool_decide (RecommendationStart e = [])
          || bool_decide (InputTop e = []) then ([], false)
  else
    let previous := last_in_range 0 n (trimmed_is (PreviousInput e)) in
    if previous <? 0 then ([], false)
    else match first_above (Z.to_nat (n - (previous + 1))) (previous + 1) (trimmed_is (RecommendationStart e)) with
    | None => ([], false)
    | Some start =>
        match first_above (Z.to_nat (n - (start + 1))) (start + 1) (trimmed_is (InputTop e)) with
        | None => ([], false)
        | Some end_ =>
            (TrimSpace (join_rows [10] (rows_between rows start end_)),
             negb (blank (join_rows [] (rows_between rows (start + 1) end_))))
        end
    end.

(** ** Specification vocabulary *)

(** What must hold of the session before anything is typed. *)
Record gate_open (s : ManagedSession) (observed : SupervisorSessionState) (kind : SupervisorSendKind)
    (stopped fixed fresh : bool) (origins : list SendOrigin) : Prop := {
  go_state : s_State s = SessionIdle \/ s_State s = SessionAwaitingRecommendation
    \/ (s_State s = SessionRotating /\ head origins = Some SendOriginHandoff);
  go_observed : observed = SessionIdle \/ (observed = SessionAwaitingRecommendation
    /\ (kind = SendKindRecommendationContinue \/ kind = SendKindHandoffEnd \/ kind = SendKindRemoteControl));
  go_operator : kind = SendKindOperatorInput -> s_State s = SessionIdle /\ observed = SessionIdle;
  go_continue : kind = SendKindRecommendationContinue -> s_State s <> SessionRotating;
  go_running : stopped = false;
  go_pending : sg_Pending (s_SendGate s) = None;
  go_confirmed : if sg_UnconfirmedDiscarded (s_SendGate s) then fresh = true
    else sg_EverSent (s_SendGate s) = true -> sg_LastSendConfirmed (s_SendGate s) = true;
  go_fixed : fixed = true }.

(** A text that cannot act on the terminal beyond its own characters. *)
Definition inert_text (text : string) : Prop :=
  text <> ""%string /\ forall r, r ∈ runes text -> IsControl r = false.

(** ** Lemmas *)

Lemma first_below_Some (n : nat) (hi i : Z) (p : Z -> bool) :
  first_below n hi p = Some i ->
  hi - Z.of_nat n < i <= hi /\ p i = true /\ (forall j, i < j <= hi -> p j = false).
Proof.
  revert hi. induction n as [|n IH]; intros hi H; simpl in H; [done|].
  destruct (p hi) eqn:E; [simplify_eq; repeat split; [lia|lia|done|intros; lia]|].
  apply IH in H as (H1 & H2 & H3). repeat split; [lia|lia|done|].
  intros j Hj. destruct (decide (j = hi)) as [->|]; [done|]. apply H3. lia.
Qed.

Lemma first_below_None (n : nat) (hi i : Z) (p : Z -> bool) :
  first_below n hi p = None -> hi - Z.of_nat n < i <= hi -> p i = false.
Proof.
  revert hi. induction n as [|n IH]; intros hi H Hi; simpl in H; [lia|].
  destruct (p hi) eqn:E; [done|]. destruct (decide (i = hi)) as [->|]; [done|]. apply (IH (hi - 1)); [done|lia].
Qed.

Lemma last_index_spec (n : nat) (lo found : Z) (p : Z -> bool) :
  let r := last_index n lo p found in
  (r = found /\ forall j, lo <= j < lo + Z.of_nat n -> p j = false)
  \/ (lo <= r < lo + Z.of_nat n /\ p r = true /\ forall j, r < j < lo + Z.of_nat n -> p j = false).
Proof.
  revert lo found. induction n as [|n IH]; intros lo found; simpl.
  - left. split; [done|]. intros; lia.
  - destruct (IH (lo + 1) (if p lo then lo else found)) as [[E H]|(H1 & H2 & H3)].
    + destruct (p lo) eqn:Ep.
      * right. rewrite E. repeat split; [lia|lia|done|]. intros j Hj. apply H. lia.
      * left. split; [done|]. intros j Hj. destruct (decide (j = lo)) as [->|]; [done|]. apply H. lia.
    + right. repeat split; [lia|lia|done|]. intros j Hj. apply H3. lia.
Qed.

Lemma last_in_range_spec (lo hi : Z) (p : Z -> bool) :
  0 <= lo -> (last_in_range lo hi p <? 0) = false ->
  lo <= last_in_range lo hi p < hi /\ p (last_in_range lo hi p) = true
  /\ (forall j, last_in_range lo hi p < j < hi -> p j = false).
Proof.
  intros Hlo Hr. unfold last_in_range in *.
  destruct (last_index_spec (Z.to_nat (hi - lo)) lo (-1) p) as [[E _]|(H1 & H2 & H3)]; [by rewrite E in Hr|].
  repeat split; [lia|lia|done|]. intros j Hj. apply H3. lia.
Qed.

Lemma operator_runes_ok_control (first : bool) (rs : list Z) :
  operator_runes_ok first rs = true -> forall r, r ∈ rs -> IsControl r = false.
Proof.
  revert first. induction rs as [|r rs IH]; intros first H x Hx; [by apply not_elem_of_nil in Hx|].
  simpl in H. case_match eqn:E; [done|]. simplify_bool.
  apply elem_of_cons in Hx as [->|Hx]; [done|by eapply IH].
Qed.

Lemma not_handoff_false (origins : list SendOrigin) :
  not_handoff origins = false <-> head origins = Some SendOriginHandoff.
Proof. destruct origins as [|[] ?]; simpl; split; congruence. Qed.

Lemma if_some_none {A : Type} (b : bool) (x : A) (k : option A) :
  (if b then Some x else k) = None <-> b = false /\ k = None.
Proof. destruct b; naive_solver. Qed.

Lemma SendKindAllowed_iff (state observed : SupervisorSessionState) (kind : SupervisorSendKind) origins :
  SendKindAllowed state observed kind origins = true <->
  (kind = SendKindOperatorInput -> state = SessionIdle /\ observed = SessionIdle)
  /\ (state = SessionIdle \/ state = SessionAwaitingRecommendation
      \/ (state = SessionRotating /\ not_handoff origins = false))
  /\ (kind = SendKindRecommendationContinue -> state <> SessionRotating)
  /\ (observed = SessionIdle \/ (observed = SessionAwaitingRecommendation
      /\ (kind = SendKindRecommendationContinue \/ kind = SendKindHandoffEnd \/ kind = SendKindRemoteControl))).
Proof.
  unfold SendKindAllowed.
  destruct (decide (state = SessionIdle)) as [->|H1]; [|destruct (decide (state = SessionAwaitingRecommendation)) as [->|H2];
    [|destruct (decide (state = SessionRotating)) as [->|H3]]];
    (destruct (decide (observed = SessionIdle)) as [->|H4]; [|destruct (decide (observed = SessionAwaitingRecommendation)) as [->|H5]]);
    destruct (not_handoff origins), kind; decide_closed; repeat (rewrite bool_decide_eq_false_2 by done);
    simpl; split; intros; try done; split_and?; try done; try congruence; auto 6; try naive_solver.
Qed.

(** ** Properties *)

(** Nothing is typed through a closed gate, and nothing closes an open one:
    [CheckSendGate] lets a send pass exactly when the session is in a state that
    accepts it (a rotating one only for the hand-over itself), the screen agrees,
    no stop is set, no send is pending, the last send was confirmed or its loss
    was settled, and the text is one of the permitted ones. *)
Theorem CheckSendGate_open (s : ManagedSession) (observed : SupervisorSessionState)
    (kind : SupervisorSendKind) (stopped fixed fresh : bool) (origins : list SendOrigin) :
  CheckSendGate s observed kind stopped fixed fresh origins = None
  <-> gate_open s observed kind stopped fixed fresh origins.
Proof.
  unfold CheckSendGate. rewrite !if_some_none, negb_false_iff, SendKindAllowed_iff.
  assert (not_handoff origins = false <-> head origins = Some SendOriginHandoff) as Ho by apply not_handoff_false.
  assert (is_some (sg_Pending (s_SendGate s)) = false <-> sg_Pending (s_SendGate s) = None) as Hp
    by (by destruct (sg_Pending (s_SendGate s))).
  rewrite Hp, Ho, negb_false_iff, orb_false_iff, !andb_false_iff, !negb_false_iff, orb_false_iff, Ho, !bool_decide_eq_true.
  split.
  - intros (_ & -> & (H1 & H2 & H3 & H4) & H5 & [H6 H7] & -> & _). split; auto.
    destruct (sg_UnconfirmedDiscarded (s_SendGate s)), (sg_EverSent (s_SendGate s)), (sg_LastSendConfirmed (s_SendGate s));
      naive_solver.
  - intros [H1 H2 H3 H4 -> H6 H7 ->]. split_and!; auto.
    + rewrite negb_false_iff, bool_decide_eq_true. naive_solver.
    + destruct (sg_UnconfirmedDiscarded (s_SendGate s)); [rewrite H7|]; auto.
    + destruct (sg_UnconfirmedDiscarded (s_SendGate s)), (sg_EverSent (s_SendGate s)), (sg_LastSendConfirmed (s_SendGate s));
        naive_solver.
Qed.

(** What is typed is inert: every fixed text, and every parallel instruction
    and operator text that passes its validation, is non-empty and free of
    control characters, so no send can smuggle a line break, an escape sequence
    or an interrupt into the terminal, whatever the Unicode tables say. *)
Theorem typed_text_inert `{UnicodeTables} (text : string) :
  (exists kind instruction, FixedText kind instruction = Some text)
  \/ (exists value o, NewOperatorText value = Ok o /\ text = PTYText o) ->
  inert_text text.
Proof.
  intros [(kind & instruction & Hf)|(value & o & Hn & ->)].
  - assert (forall t, negb (t =? "")%string && forallb (fun r => negb (IsControl r)) (runes t) = true -> inert_text t) as Hc.
    { intros t [H1 H2]%andb_true_iff. simplify_bool. split; [done|].
      rewrite forallb_true in H2. intros r Hr. by apply negb_true_iff, H2. }
    destruct kind; simpl in Hf; simplify_eq; try (apply Hc; by vm_compute).
    destruct (ValidateParallelInstruction _ _ _) eqn:E; [|done]. simplify_eq. unfold ValidateParallelInstruction in E.
    case_match eqn:E1; [done|]. simplify_bool. split; [done|]. intros r Hr.
    match goal with Hx : existsb _ _ = false |- _ => rename Hx into Hx0 end.
    destruct (IsControl r) eqn:Er; [|done].
    rewrite (proj2 (existsb_true _ _)) in Hx0; [done|]. exists r. split; [done|]. by rewrite Er.
  - unfold NewOperatorText in Hn. destruct (ValidString value); [|done]. simpl in Hn.
    destruct ((RuneCountInString value <? 1) || _) eqn:E1; [done|].
    destruct (operator_runes_ok true (runes value)) eqn:E2; [|done]. simplify_eq/=. simplify_bool. split.
    + intros ->. unfold RuneCountInString in *. vm_compute in H0. done.
    + by eapply operator_runes_ok_control.
Qed.

Lemma typed_text_inert_witness : inert_text "continue with step 2".
Proof.
  apply (@typed_text_inert ascii_tables "continue with step 2"). right.
  exists "continue with step 2"%string, (Some "continue with step 2"%string). split; [by vm_compute|done].
Defined.

(** The recommendation is read between the right rows: the bounds answer the
    rows after the last echoed input above the last input box and before the
    last completion row between the two, and only when one of them is not
    blank. *)
Theorem ObservedRecommendationBounds_correct (rows : list row) (start end_ : Z) :
  ObservedRecommendationBounds rows = Some (start, end_) ->
  exists box,
    is_input_box rows box = true
    /\ (forall j, box < j < Z.of_nat (length rows) - 1 -> is_input_box rows j = false)
    /\ has_prefix prompt_echo (row_at rows (start - 1)) = true
    /\ (forall j, start - 1 < j < box -> has_prefix prompt_echo (row_at rows j) = false)
    /\ is_done_row rows end_ = true
    /\ (forall j, end_ < j < box -> is_done_row rows j = false)
    /\ 0 < start <= end_ /\ end_ < box < Z.of_nat (length rows) - 1
    /\ existsb (fun r => negb (blank r)) (rows_between rows start end_) = true.
Proof.
  unfold ObservedRecommendationBounds. intros H.
  destruct (last_in_range 1 _ (is_input_box rows) <? 0) eqn:Eb; [done|].
  apply last_in_range_spec in Eb as (Hb1 & Hb2 & Hb3); [|lia].
  set (box := last_in_range 1 _ _) in *.
  destruct (last_in_range 0 box _ <? 0) eqn:Ee; [done|].
  apply last_in_range_spec in Ee as (He1 & He2 & He3); [|lia].
  set (echo := last_in_range 0 box _) in *.
  destruct (first_below _ _ _) as [e|] eqn:Ef; [|done].
  apply first_below_Some in Ef as (Hf1 & Hf2 & Hf3).
  destruct (existsb _ _) eqn:Ex; [|done]. simplify_eq. exists box.
  replace (echo + 1 - 1) with echo by lia. split_and!; auto; try lia. intros j Hj. apply Hf3. lia.
Qed.

Lemma ObservedRecommendationBounds_correct_witness :
  let rows := [prompt_echo ++ [0x78]; [0x79]; done_prefix ++ done_mark; [border_rune]; prompt_box; [border_rune]] in
  exists box,
    is_input_box rows box = true
    /\ (forall j, box < j < 5 -> is_input_box rows j = false)
    /\ has_prefix prompt_echo (row_at rows 0) = true
    /\ (forall j, 0 < j < box -> has_prefix prompt_echo (row_at rows j) = false)
    /\ is_done_row rows 2 = true
    /\ (forall j, 2 < j < box -> is_done_row rows j = false)
    /\ 0 < 1 <= 2 /\ 2 < box < 5
    /\ existsb (fun r => negb (blank r)) (rows_between rows 1 2) = true.
Proof.
  exact (ObservedRecommendationBounds_correct
    [prompt_echo ++ [0x78]; [0x79]; done_prefix ++ done_mark; [border_rune]; prompt_box; [border_rune]] 1 2 eq_refl).
Defined.
