(* ===== verification/VTerm.v ===== *)
(** * The virtual terminal ([internal/supervisor/vterm.go])

    The screen of a supervised CLI, rebuilt from its output bytes.  Indexing out
    of range is a Go panic, so the operations answer [None] there; the theorems
    show that no byte sequence reaches it.  A cell's text is the list of runes it
    was built from.  Rows are values: after every [copy] of row slices the code
    replaces the rows that would be shared, so no two rows are ever aliased. *)

From S2P Require Import Prelude.
From S2P Require Import GoStrings.
From S2P Require Import UTF8.
From S2P Require Import TextPolicy.

(** ** Data *)

Record terminalCell : Type := mkCell {
  tc_text : list Z; tc_continuation : bool; tc_faint : bool }.

Definition emptyCell : terminalCell := mkCell [] false false.

Record terminalScreen : Type := mkScreen {
  cells : list (list terminalCell);
  s_row : Z; s_col : Z; savedRow : Z; savedCol : Z; scrollTop : Z; scrollBottom : Z;
  savedFaint : bool; joinNext : bool; pendingWrap : bool; s_faint : bool }.

#[export] Instance terminalScreen_settable : Settable terminalScreen := fun s =>
  mkScreen (cells s) (s_row s) (s_col s) (savedRow s) (savedCol s) (scrollTop s) (scrollBottom s)
    (savedFaint s) (joinNext s) (pendingWrap s) (s_faint s).

Inductive terminalState : Type :=
| terminalGround
| terminalEscape
| terminalCSI
| terminalOSC
| terminalDCS
| terminalStringEscape
| terminalEscapeIntermediate
| terminalDiscardCSI
| terminalDiscardOSC
| terminalDiscardDCS.

#[export] Instance terminalState_eq_dec : EqDecision terminalState.
Proof. solve_decision. Defined.

Record VirtualTerminal : Type := mkVT {
  v_cols : Z;
  v_rows : Z;
  primary : terminalScreen;
  alternate : terminalScreen;
  useAlternate : bool;
  v_state : terminalState;
  sequence : list Z;
  sequenceBytes : Z;
  utf8Pending : list Z }.

#[export] Instance VirtualTerminal_settable : Settable VirtualTerminal := fun v =>
  mkVT (v_cols v) (v_rows v) (primary v) (alternate v) (useAlternate v) (v_state v) (sequence v)
    (sequenceBytes v) (utf8Pending v).

Definition clamp (n low high : Z) : Z := Z.min (Z.max n low) high.

Definition blank_row (cols : Z) : list terminalCell := replicate (Z.to_nat cols) emptyCell.

Definition newScreen (cols rows : Z) : terminalScreen :=
  mkScreen (replicate (Z.to_nat rows) (blank_row cols)) 0 0 0 0 0 (rows - 1) false false false false.

Definition NewVirtualTerminal (cols rows : Z) : VirtualTerminal :=
  let cols := if cols <? 1 then 1 else cols in
  let rows := if rows <? 1 then 1 else rows in
  mkVT cols rows (newScreen cols rows) (newScreen cols rows) false terminalGround [] 0 [].

Definition current (v : VirtualTerminal) : terminalScreen := if useAlternate v then alternate v else primary v.

(** ** Indexing *)

Abbreviation screenM := (option terminalScreen) (only parsing).

Definition zlookup {A : Type} (l : list A) (i : Z) : option A :=
  if i <? 0 then None else l !! Z.to_nat i.

Definition zinsert {A : Type} (i : Z) (x : A) (l : list A) : option (list A) :=
  if (0 <=? i) && (i <? Z.of_nat (length l)) then Some (<[Z.to_nat i := x]> l) else None.

(** [l[lo:hi]] *)
Definition zslice {A : Type} (l : list A) (lo hi : Z) : option (list A) :=
  if (0 <=? lo) && (lo <=? hi) && (hi <=? Z.of_nat (length l))
  then Some (take (Z.to_nat (hi - lo)) (drop (Z.to_nat lo) l)) else None.

(** [s.cells[row] = f(s.cells[row])] *)
Definition on_row (row : Z) (f : list terminalCell -> option (list terminalCell)) (s : terminalScreen) : screenM :=
  r ← zlookup (cells s) row;
  r' ← f r;
  cs ← zinsert row r' (cells s);
  Some (s <| cells := cs |>).

(** ** Cells *)

Section Terminal.
Context `{UnicodeTables}.

(** [cell.text != "" && runeWidth([]rune(cell.text)[0]) == 2] *)
Definition wide_text (c : terminalCell) : bool :=
  match tc_text c with r :: _ => RuneWidth r =? 2 | [] => false end.

Definition eraseWide_row (cols col : Z) (r : list terminalCell) : option (list terminalCell) :=
  if (col <? 0) || (cols <=? col) then Some r
  else
    c ← zlookup r col;
    r ← (if tc_continuation c && (0 <? col) then zinsert (col - 1) emptyCell r else Some r);
    r ← (if col + 1 <? cols
         then next ← zlookup r (col + 1);
              if tc_continuation next then zinsert (col + 1) emptyCell r else Some r
         else Some r);
    zinsert col emptyCell r.

Definition eraseWideAt (cols row col : Z) (s : terminalScreen) : screenM :=
  if (col <? 0) || (cols <=? col) then Some s else on_row row (eraseWide_row cols col) s.

(** [for c := start; c < end; c++ { v.eraseWideAt(s, s.row, c) }] *)
Fixpoint erase_range (n : nat) (cols row c : Z) (s : terminalScreen) : screenM :=
  match n with
  | O => Some s
  | S n => s ← eraseWideAt cols row c s; erase_range n cols row (c + 1) s
  end.

Definition erase_cols (cols row start end_ : Z) (s : terminalScreen) : screenM :=
  erase_range (Z.to_nat (end_ - start)) cols row start s.

Definition previousCell (s : terminalScreen) : option Z :=
  let c := if pendingWrap s then s_col s else s_col s - 1 in
  if 0 <=? c then
    r ← zlookup (cells s) (s_row s);
    cell ← zlookup r c;
    Some (if tc_continuation cell then c - 1 else c)
  else Some c.

(** [repairWideRow]: one pass from the left; [prev] is the cell before, already
    repaired. *)
Fixpoint repair_cells (prev : option terminalCell) (r : list terminalCell) : list terminalCell :=
  match r with
  | [] => []
  | c :: rest =>
      let c' :=
        if tc_continuation c then
          match prev with
          | Some p => if tc_continuation p || negb (wide_text p) then emptyCell else c
          | None => emptyCell
          end
        else if wide_text c && negb match rest with n :: _ => tc_continuation n | [] => false end
        then emptyCell else c in
      c' :: repair_cells (Some c') rest
  end.

Definition repairWideRow (cols row : Z) (s : terminalScreen) : screenM :=
  if cols <? 2 then Some s else on_row row (fun r => Some (repair_cells None r)) s.

(** ** Scrolling and the cursor *)

Definition scrollUpAt (cols row n : Z) (s : terminalScreen) : screenM :=
  if (row <? scrollTop s) || (scrollBottom s <? row) then Some s
  else
    let bottom := scrollBottom s in
    let n := Z.min n (bottom - row + 1) in
    above ← zslice (cells s) 0 row;
    moved ← zslice (cells s) (row + n) (bottom + 1);
    below ← zslice (cells s) (bottom + 1) (Z.of_nat (length (cells s)));
    Some (s <| cells := above ++ moved ++ replicate (Z.to_nat n) (blank_row cols) ++ below |>).

Definition scrollDownAt (cols row n : Z) (s : terminalScreen) : screenM :=
  if (row <? scrollTop s) || (scrollBottom s <? row) then Some s
  else
    let bottom := scrollBottom s in
    let n := Z.min n (bottom - row + 1) in
    above ← zslice (cells s) 0 row;
    moved ← zslice (cells s) row (bottom + 1 - n);
    below ← zslice (cells s) (bottom + 1) (Z.of_nat (length (cells s)));
    Some (s <| cells := above ++ replicate (Z.to_nat n) (blank_row cols) ++ moved ++ below |>).

Definition scrollUp (cols n : Z) (s : terminalScreen) : screenM := scrollUpAt cols (scrollTop s) n s.
Definition scrollDown (cols n : Z) (s : terminalScreen) : screenM := scrollDownAt cols (scrollTop s) n s.

Definition lineFeed (cols rows : Z) (s : terminalScreen) : screenM :=
  if s_row s =? scrollBottom s then scrollUp cols 1 s
  else if s_row s <? rows - 1 then Some (s <| s_row := s_row s + 1 |>)
  else Some s.

Definition reverseIndex (cols : Z) (s : terminalScreen) : screenM :=
  if s_row s =? scrollTop s then scrollDown cols 1 s
  else if 0 <? s_row s then Some (s <| s_row := s_row s - 1 |>)
  else Some s.

Definition put_cell (row col : Z) (c : terminalCell) (s : terminalScreen) : screenM :=
  on_row row (zinsert col c) s.

Definition append_text (row col ch : Z) (s : terminalScreen) : screenM :=
  on_row row (fun r => c ← zlookup r col; zinsert col (mkCell (tc_text c ++ [ch]) (tc_continuation c) (tc_faint c)) r) s.

(** The cells of [put]: the character and, for a wide one, its continuation. *)
Definition put_cells (cols w ch : Z) (s : terminalScreen) : screenM :=
  s ← eraseWideAt cols (s_row s) (s_col s) s;
  s ← (if w =? 2 then eraseWideAt cols (s_row s) (s_col s + 1) s else Some s);
  s ← put_cell (s_row s) (s_col s) (mkCell [ch] false (s_faint s)) s;
  if w =? 2 then put_cell (s_row s) (s_col s + 1) (mkCell [] true (s_faint s)) s else Some s.

Definition put (cols rows ch : Z) (s : terminalScreen) : screenM :=
  let w := RuneWidth ch in
  if (w =? 0) || joinNext s then
    c ← previousCell s;
    s ← (if 0 <=? c then append_text (s_row s) c ch s else Some s);
    Some (s <| joinNext := ch =? 0x200d |>)
  else
    s ← (if pendingWrap s then lineFeed cols rows (s <| s_col := 0 |> <| pendingWrap := false |>) else Some s);
    let w := if (cols <? 2) && (w =? 2) then 1 else w in
    s ← (if (w =? 2) && (s_col s =? cols - 1) then lineFeed cols rows (s <| s_col := 0 |>) else Some s);
    s ← put_cells cols w ch s;
    let s := s <| s_col := s_col s + w |> in
    Some (if cols <=? s_col s then s <| s_col := cols - 1 |> <| pendingWrap := true |> else s).

(** ** Erasing and shifting *)

Definition clear_row (row : Z) (s : terminalScreen) : screenM :=
  on_row row (fun r => Some (replicate (length r) emptyCell)) s.

Fixpoint clear_rows (n : nat) (row : Z) (s : terminalScreen) : screenM :=
  match n with
  | O => Some s
  | S n => s ← clear_row row s; clear_rows n (row + 1) s
  end.

Definition eraseLine (cols mode : Z) (s : terminalScreen) : screenM :=
  if mode =? 1 then erase_cols cols (s_row s) 0 (s_col s + 1) s
  else if mode =? 2 then erase_cols cols (s_row s) 0 cols s
  else if mode =? 0 then erase_cols cols (s_row s) (s_col s) cols s
  else Some s.

Definition eraseDisplay (cols rows mode : Z) (s : terminalScreen) : screenM :=
  if mode =? 0 then
    s ← eraseLine cols 0 s;
    clear_rows (Z.to_nat (rows - (s_row s + 1))) (s_row s + 1) s
  else if mode =? 1 then
    s ← clear_rows (Z.to_nat (s_row s)) 0 s;
    eraseLine cols 1 s
  else if mode =? 2 then clear_rows (length (cells s)) 0 s
  else Some s.

(** The row after the two loops of [shiftChars]. *)
Definition shift_row (cols c n : Z) (insert : bool) (r : list terminalCell) : option (list terminalCell) :=
  left ← zslice r 0 c;
  if insert then
    moved ← zslice r c (cols - n);
    Some (left ++ replicate (Z.to_nat n) emptyCell ++ moved)
  else
    moved ← zslice r (c + n) (Z.of_nat (length r));
    Some (left ++ moved ++ replicate (Z.to_nat n) emptyCell).

Definition shiftChars (cols n : Z) (insert : bool) (s : terminalScreen) : screenM :=
  let c := s_col s in
  let n := Z.min n (cols - c) in
  s ← on_row (s_row s) (shift_row cols c n insert) s;
  repairWideRow cols (s_row s) s.

(** ** The terminal's own operations *)

Definition set_current (s : terminalScreen) (v : VirtualTerminal) : VirtualTerminal :=
  if useAlternate v then v <| alternate := s |> else v <| primary := s |>.

(** An operation on [v.current()], given the columns and rows of the terminal. *)
Definition on_current (f : Z -> Z -> terminalScreen -> screenM) (v : VirtualTerminal) : option VirtualTerminal :=
  s ← f (v_cols v) (v_rows v) (current v);
  Some (set_current s v).

(** ** CSI parameters *)

(** The characters '0' to '9', ';' and ':' that the parser works on. *)
Definition is_digit (c : Z) : bool := between 48 57 c.

Fixpoint param_value (value : Z) (f : list Z) : Z :=
  match f with
  | [] => value
  | c :: f =>
      if negb (is_digit c) then 0
      else if (6553 <? value) || ((value =? 6553) && (5 <? c - 48)) then 65535
      else param_value (value * 10 + (c - 48)) f
  end.

Definition parseTerminalParams (raw : list Z) : list Z :=
  param_value 0 <$> (split_on (Z.eqb 59) raw ≫= split_on (Z.eqb 58)).

(** [parseTerminalParams(raw)[0]] *)
Definition first_param (raw : list Z) : Z := default 0 (head (parseTerminalParams raw)).

Definition privateEraseMode (raw : list Z) : Z :=
  if (length raw <? 2)%nat then 0 else first_param (drop 1 raw).

(** Is [final] one of the characters of [set]? *)
Definition one_of (set : string) (final : Z) : bool := existsb (Z.eqb final) (bytes set).

(** One parameter of [privateMode]: the alternate screen buffer. *)
Definition alternateMode (enable : bool) (p : Z) (v : VirtualTerminal) : VirtualTerminal :=
  if (p =? 47) || (p =? 1047) || (p =? 1049) then
    if enable && negb (useAlternate v) then
      let v := if p =? 1049
        then v <| primary := primary v <| savedRow := s_row (primary v) |> <| savedCol := s_col (primary v) |>
                    <| savedFaint := s_faint (primary v) |> |>
        else v in
      let v := if (p =? 1049) || (p =? 1047)
        then v <| alternate := newScreen (v_cols v) (v_rows v) |> else v in
      v <| alternate := alternate v <| s_faint := s_faint (primary v) |> |> <| useAlternate := true |>
    else if negb enable && useAlternate v then
      let v := v <| primary := primary v <| s_faint := s_faint (alternate v) |> |> <| useAlternate := false |> in
      if p =? 1049 then
        v <| primary := primary v
               <| s_row := clamp (savedRow (primary v)) 0 (v_rows v - 1) |>
               <| s_col := clamp (savedCol (primary v)) 0 (v_cols v - 1) |>
               <| s_faint := savedFaint (primary v) |> |>
      else v
    else v
  else v.

Definition privateMode (final : Z) (raw : list Z) (v : VirtualTerminal) : VirtualTerminal :=
  if negb (one_of "hl" final) then v
  else fold_left (fun v p => alternateMode (one_of "h" final) p v) (parseTerminalParams raw) v.

(** The attribute loop of SGR ([CSI m]).  A field is its first subparameter and
    whether it has others; [skip] fields belong to a colour and are passed over. *)
Fixpoint sgr (skip : nat) (fields : list (Z * bool)) (faint : bool) : bool :=
  match fields with
  | [] => faint
  | (p, colon) :: rest =>
      match skip with
      | S skip => sgr skip rest faint
      | O =>
          if p =? 0 then sgr 0 rest false
          else if p =? 2 then sgr 0 rest true
          else if p =? 22 then sgr 0 rest false
          else if (p =? 38) || (p =? 48) || (p =? 58) then
            if colon : bool then sgr 0 rest faint
            else match rest with
                 | (q, _) :: _ => if q =? 5 then sgr 2 rest faint else if q =? 2 then sgr 4 rest faint else sgr 0 rest faint
                 | [] => sgr 0 rest faint
                 end
          else sgr 0 rest faint
      end
  end.

Definition sgr_fields (raw : list Z) : list (Z * bool) :=
  (fun field => (first_param (default [] (head (split_on (Z.eqb 58) field))), existsb (Z.eqb 58) field))
    <$> split_on (Z.eqb 59) raw.

Definition save_cursor (s : terminalScreen) : terminalScreen :=
  s <| savedRow := s_row s |> <| savedCol := s_col s |> <| savedFaint := s_faint s |>.

Definition restore_cursor (cols rows : Z) (s : terminalScreen) : terminalScreen :=
  s <| s_row := clamp (savedRow s) 0 (rows - 1) |> <| s_col := clamp (savedCol s) 0 (cols - 1) |>
    <| s_faint := savedFaint s |>.

(** [param(i, def)] *)
Definition csi_param (params : list Z) (i : nat) (def : Z) : Z :=
  match params !! i with Some p => if p =? 0 then def else p | None => def end.

(** The [switch final] of [executeCSI], on the current screen. *)
Definition csi_final (final : Z) (raw params : list Z) (cols rows : Z) (s : terminalScreen) : screenM :=
  let param := csi_param params in
  let n := param 0%nat 1 in
  if one_of "m" final then Some (s <| s_faint := sgr 0 (sgr_fields raw) (s_faint s) |>)
  else if one_of "Hf" final then
    Some (s <| s_row := clamp (param 0%nat 1 - 1) 0 (rows - 1) |> <| s_col := clamp (param 1%nat 1 - 1) 0 (cols - 1) |>)
  else if one_of "A" final then Some (s <| s_row := Z.max 0 (s_row s - n) |>)
  else if one_of "B" final then Some (s <| s_row := Z.min (rows - 1) (s_row s + n) |>)
  else if one_of "C" final then Some (s <| s_col := Z.min (cols - 1) (s_col s + n) |>)
  else if one_of "D" final then Some (s <| s_col := Z.max 0 (s_col s - n) |>)
  else if one_of "G`" final then Some (s <| s_col := clamp (param 0%nat 1 - 1) 0 (cols - 1) |>)
  else if one_of "d" final then Some (s <| s_row := clamp (param 0%nat 1 - 1) 0 (rows - 1) |>)
  else if one_of "J" final then eraseDisplay cols rows (param 0%nat 0) s
  else if one_of "K" final then eraseLine cols (param 0%nat 0) s
  else if one_of "r" final then
    let top := clamp (param 0%nat 1 - 1) 0 (rows - 1) in
    let bottom := clamp (param 1%nat rows - 1) 0 (rows - 1) in
    Some (if top <? bottom
          then s <| scrollTop := top |> <| scrollBottom := bottom |> <| s_row := 0 |> <| s_col := 0 |> else s)
  else if one_of "S" final then scrollUp cols n s
  else if one_of "T" final then scrollDown cols n s
  else if one_of "L" final then
    if (scrollTop s <=? s_row s) && (s_row s <=? scrollBottom s) then scrollDownAt cols (s_row s) n s else Some s
  else if one_of "M" final then
    if (scrollTop s <=? s_row s) && (s_row s <=? scrollBottom s) then scrollUpAt cols (s_row s) n s else Some s
  else if one_of "@" final then shiftChars cols n true s
  else if one_of "P" final then shiftChars cols n false s
  else if one_of "X" final then erase_cols cols (s_row s) (s_col s) (Z.min cols (s_col s + n)) s
  else if one_of "s" final then Some (if bool_decide (raw = []) then save_cursor s else s)
  else if one_of "u" final then Some (if bool_decide (raw = []) then restore_cursor cols rows s else s)
  else Some s.

Definition csi_plain (raw : list Z) : bool := forallb (fun r => is_digit r || (r =? 59) || (r =? 58)) raw.

Definition executeCSI (final : Z) (raw : list Z) (v : VirtualTerminal) : option VirtualTerminal :=
  let private := match raw with b :: _ => if one_of "?><=!" b then b else 0 | [] => 0 end in
  let raw := if private =? 0 then raw else drop 1 raw in
  if private =? 63 then
    if one_of "J" final then on_current (fun cols rows => eraseDisplay cols rows (privateEraseMode raw)) v
    else if one_of "K" final then on_current (fun cols _ => eraseLine cols (privateEraseMode raw)) v
    else Some (privateMode final raw v)
  else if negb (private =? 0) then Some v
  else if negb (csi_plain raw) then Some v
  else
    on_current (fun cols rows s =>
      let s := if one_of "HfABCDG`du" final || one_of "r" final
               then s <| pendingWrap := false |> <| joinNext := false |> else s in
      csi_final final raw (parseTerminalParams raw) cols rows s) v.

(** ** Escape sequences and runes *)

Definition discarding (st : terminalState) : bool :=
  match st with
  | terminalDiscardCSI | terminalDiscardOSC | terminalDiscardDCS | terminalStringEscape => true
  | _ => false
  end.

(** The state of an over-long sequence. *)
Definition overlong (st : terminalState) : terminalState :=
  match st with
  | terminalCSI => terminalDiscardCSI
  | terminalOSC | terminalStringEscape => terminalDiscardOSC
  | terminalDCS => terminalDiscardDCS
  | _ => terminalGround
  end.

(** [case terminalEscape] *)
Definition escape_byte (b : Z) (v : VirtualTerminal) : option VirtualTerminal :=
  let ground (v : VirtualTerminal) := v <| v_state := terminalGround |> in
  if one_of "[" b then Some (v <| v_state := terminalCSI |> <| sequence := [] |> <| sequenceBytes := 0 |>)
  else if one_of "]" b then Some (v <| v_state := terminalOSC |> <| sequenceBytes := 0 |>)
  else if one_of "P^_" b then Some (v <| v_state := terminalDCS |> <| sequenceBytes := 0 |>)
  else if one_of "7" b then ground <$> on_current (fun _ _ s => Some (save_cursor s)) v
  else if one_of "8" b then
    ground <$> on_current (fun cols rows s => Some (restore_cursor cols rows s <| pendingWrap := false |>)) v
  else if one_of "D" b then ground <$> on_current lineFeed v
  else if one_of "E" b then ground <$> on_current (fun cols rows s => lineFeed cols rows (s <| s_col := 0 |>)) v
  else if one_of "M" b then ground <$> on_current (fun cols _ => reverseIndex cols) v
  else if one_of "c" b then
    Some (ground (v <| primary := newScreen (v_cols v) (v_rows v) |> <| alternate := newScreen (v_cols v) (v_rows v) |>
                    <| useAlternate := false |>))
  else if one_of " ()*+-./#" b then Some (v <| v_state := terminalEscapeIntermediate |>)
  else Some (ground v).

(** [case terminalCSI] *)
Definition csi_byte (b : Z) (v : VirtualTerminal) : option VirtualTerminal :=
  if b =? 0x1b then Some (v <| v_state := terminalEscape |> <| sequence := [] |>)
  else if (b =? 0x18) || (b =? 0x1a) then Some (v <| v_state := terminalGround |> <| sequence := [] |>)
  else if between 0x40 0x7e b then
    (fun v => v <| v_state := terminalGround |>) <$> executeCSI b (sequence v) v
  else if between 0x20 0x3f b && (length (sequence v) <? 4096)%nat then Some (v <| sequence := sequence v ++ [b] |>)
  else if (4096 <=? length (sequence v))%nat then Some (v <| v_state := terminalDiscardCSI |> <| sequence := [] |>)
  else Some v.

(** [case terminalOSC] and [terminalDiscardOSC], and with [bell] unset
    [terminalDCS] and [terminalDiscardDCS] *)
Definition string_byte (bell : bool) (b : Z) (v : VirtualTerminal) : option VirtualTerminal :=
  Some (if (b =? 0x18) || (b =? 0x1a) || (bell && (b =? 0x07)) then v <| v_state := terminalGround |>
        else if b =? 0x1b then v <| v_state := terminalStringEscape |> else v).

(** The code calls itself once, from [terminalStringEscape]; the fuel bounds that
    recursion and running out of it counts as a panic. *)
Fixpoint consumeEscape_fuel (fuel : nat) (b : Z) (v : VirtualTerminal) : option VirtualTerminal :=
  match fuel with
  | O => None
  | S fuel =>
      let v := if discarding (v_state v) then v else v <| sequenceBytes := sequenceBytes v + 1 |> in
      let long := (4096 <? sequenceBytes v) && negb (discarding (v_state v)) in
      let v := if long then v <| v_state := overlong (v_state v) |> <| sequence := [] |> else v in
      if long && bool_decide (v_state v = terminalGround) then Some v
      else
        match v_state v with
        | terminalGround => Some v
        | terminalEscape => escape_byte b v
        | terminalCSI => csi_byte b v
        | terminalOSC => string_byte true b v
        | terminalDCS => string_byte false b v
        | terminalStringEscape =>
            if b =? 92 then Some (v <| v_state := terminalGround |>)
            else if b =? 0x1b then Some (v <| v_state := terminalEscape |> <| sequenceBytes := 0 |>)
            else consumeEscape_fuel fuel b (v <| v_state := terminalEscape |>)
        | terminalEscapeIntermediate =>
            Some (if between 0x30 0x7e b then v <| v_state := terminalGround |> else v)
        | terminalDiscardCSI =>
            Some (if between 0x40 0x7e b || (b =? 0x18) || (b =? 0x1a) then v <| v_state := terminalGround |> else v)
        | terminalDiscardOSC => string_byte true b v
        | terminalDiscardDCS => string_byte false b v
        end
  end.

Definition consumeEscape : Z -> VirtualTerminal -> option VirtualTerminal := consumeEscape_fuel 2.

Definition control_or_rune (ch : Z) (cols rows : Z) (s : terminalScreen) : screenM :=
  let s := s <| joinNext := false |> in
  if ch =? 13 then Some (s <| s_col := 0 |> <| pendingWrap := false |>)
  else if (ch =? 10) || (ch =? 11) || (ch =? 12) then lineFeed cols rows s
  else if ch =? 8 then
    let s := s <| pendingWrap := false |> in Some (if 0 <? s_col s then s <| s_col := s_col s - 1 |> else s)
  else if ch =? 9 then Some (s <| s_col := Z.min (cols - 1) ((Z.quot (s_col s) 8 + 1) * 8) |>)
  else if (0x20 <=? ch) && negb (ch =? 0x7f) then put cols rows ch s
  else Some s.

Definition consumeControlOrRune (ch : Z) (v : VirtualTerminal) : option VirtualTerminal :=
  if ch =? 0x1b then
    v ← on_current (fun _ _ s => Some (s <| joinNext := false |>)) v;
    Some (v <| v_state := terminalEscape |> <| sequenceBytes := 0 |>)
  else on_current (control_or_rune ch) v.

(** The loop of [Write]: it consumes at least one byte per round, so the length
    of the input is fuel enough. *)
Fixpoint write_loop (fuel : nat) (data : list Z) (v : VirtualTerminal) : option VirtualTerminal :=
  match data with
  | [] => Some v
  | b :: rest =>
      match fuel with
      | O => None
      | S fuel =>
          if negb (bool_decide (v_state v = terminalGround)) then
            v ← consumeEscape b v; write_loop fuel rest v
          else if b <? RuneSelf then
            v ← consumeControlOrRune b v; write_loop fuel rest v
          else
            let '(r, size) := DecodeRune data in
            if (r =? RuneError) && (size =? 1)%nat && negb (FullRune data) then
              Some (v <| utf8Pending := data |>)
            else if (r =? RuneError) && (size =? 1)%nat then write_loop fuel rest v
            else if between 0x80 0x9f r then write_loop fuel (drop size data) v
            else v ← on_current (fun cols rows => put cols rows r) v; write_loop fuel (drop size data) v
      end
  end.

(** The terminal after the call and the returned count; the error is nil. *)
Definition Write (data : list Z) (v : VirtualTerminal) : option (VirtualTerminal * Z) :=
  let input := utf8Pending v ++ data in
  v ← write_loop (length input) input (v <| utf8Pending := [] |>);
  Some (v, Z.of_nat (length data)).

(** ** Reading the screen *)

Record Cell : Type := mkCellView { Cell_Text : list Z; Cell_Faint : bool; Cell_Wide : bool }.

(** [out := make([]Cell, v.cols)], filled from the row. *)
Definition Cells (row : Z) (v : VirtualTerminal) : option (list Cell) :=
  if (row <? 0) || (v_rows v <=? row) then Some []
  else
    r ← zlookup (cells (current v)) row;
    if v_cols v <? Z.of_nat (length r) then None
    else Some (((fun c => mkCellView (tc_text c) (tc_faint c) (tc_continuation c || wide_text c)) <$> r)
               ++ replicate (Z.to_nat (v_cols v) - length r) (mkCellView [] false false)).

(** The cells up to the last one that is not blank. *)
Definition blank_cell (c : terminalCell) : bool :=
  negb (tc_continuation c) && (bool_decide (tc_text c = []) || bool_decide (tc_text c = [32])).

Fixpoint trim_cells (r : list terminalCell) : list terminalCell :=
  match r with
  | [] => []
  | c :: r => match trim_cells r with [] => if blank_cell c then [] else [c] | r' => c :: r' end
  end.

Definition row_text (omitContinuation : bool) (r : list terminalCell) : list Z :=
  trim_cells r ≫= fun c =>
    if tc_continuation c then (if omitContinuation then [] else [32])
    else match tc_text c with [] => [32] | text => text end.

(** [out := make([]string, v.rows)], filled from the screen. *)
Definition screenRows (omitContinuation : bool) (v : VirtualTerminal) : option (list (list Z)) :=
  let s := current v in
  if v_rows v <? Z.of_nat (length (cells s)) then None
  else Some ((row_text omitContinuation <$> cells s)
             ++ replicate (Z.to_nat (v_rows v) - length (cells s)) []).

Definition Screen : VirtualTerminal -> option (list (list Z)) := screenRows false.
Definition TextRows : VirtualTerminal -> option (list (list Z)) := screenRows true.

(** The row and the column. *)
Definition CursorPos (v : VirtualTerminal) : Z * Z := (s_row (current v), s_col (current v)).

(** ** Resizing *)

Definition resize_cells (cols rows : Z) (cs : list (list terminalCell)) : list (list terminalCell) :=
  (fun i => match cs !! i with
            | Some r => take (Z.to_nat cols) r ++ replicate (Z.to_nat cols - length r) emptyCell
            | None => blank_row cols
            end) <$> seq 0 (Z.to_nat rows).

Fixpoint repair_rows (n : nat) (cols row : Z) (s : terminalScreen) : screenM :=
  match n with
  | O => Some s
  | S n => s ← repairWideRow cols row s; repair_rows n cols (row + 1) s
  end.

Definition resize_screen (cols rows : Z) (s : terminalScreen) : screenM :=
  s ← repair_rows (Z.to_nat rows) cols 0 (s <| cells := resize_cells cols rows (cells s) |>);
  Some (s <| s_row := clamp (s_row s) 0 (rows - 1) |> <| s_col := clamp (s_col s) 0 (cols - 1) |>
          <| savedRow := clamp (savedRow s) 0 (rows - 1) |> <| savedCol := clamp (savedCol s) 0 (cols - 1) |>
          <| scrollTop := 0 |> <| scrollBottom := rows - 1 |> <| pendingWrap := false |>).

Definition Resize (cols rows : Z) (v : VirtualTerminal) : option VirtualTerminal :=
  let cols := if cols <? 1 then 1 else cols in
  let rows := if rows <? 1 then 1 else rows in
  p ← resize_screen cols rows (primary v);
  a ← resize_screen cols rows (alternate v);
  Some (v <| v_cols := cols |> <| v_rows := rows |> <| primary := p |> <| alternate := a |>).
End Terminal.
