(* ===== verification/VTermOk.v ===== *)
(** * Properties of the virtual terminal

    The grid keeps its dimensions and the cursor its place whatever bytes
    arrive, so no operation indexes out of range; wide characters keep their
    continuation cell; and the terminal does not see how its input was cut into
    chunks. *)

From S2P Require Import Prelude.
From S2P Require Import GoStrings.
From S2P Require Import UTF8.
From S2P Require Import TextPolicy.
From S2P Require Import VTerm.

(** ** Indexing *)

(** The element at [i]; [d] outside the list. *)
Definition at_ {A : Type} (d : A) (l : list A) (i : Z) : A :=
  if i <? 0 then d else default d (l !! Z.to_nat i).

Abbreviation cell_at := (at_ emptyCell).
Abbreviation zlen l := (Z.of_nat (length l)).

Section Indexing.
Context {A : Type} (d : A).
Implicit Types l : list A.

Lemma zlookup_at l i : 0 <= i < zlen l -> zlookup l i = Some (at_ d l i).
Proof.
  intros Hi. unfold zlookup, at_. rewrite (proj2 (Z.ltb_ge i 0)) by lia.
  destruct (lookup_lt_is_Some_2 l (Z.to_nat i)) as [x ->]; [lia|done].
Qed.

Lemma zinsert_ok l i x : 0 <= i < zlen l -> zinsert i x l = Some (<[Z.to_nat i := x]> l).
Proof. intros Hi. unfold zinsert. by rewrite (proj2 (Z.leb_le 0 i)), (proj2 (Z.ltb_lt i (zlen l))) by lia. Qed.

Lemma at_insert l i x j :
  0 <= i < zlen l -> at_ d (<[Z.to_nat i := x]> l) j = if j =? i then x else at_ d l j.
Proof.
  intros Hi. unfold at_. destruct (Z.eqb_spec j i) as [->|Hj].
  - rewrite (proj2 (Z.ltb_ge i 0)) by lia. by rewrite list_lookup_insert_eq by lia.
  - destruct (Z.ltb_spec j 0); [done|]. by rewrite list_lookup_insert_ne by lia.
Qed.

Lemma at_out l i : ~ (0 <= i < zlen l) -> at_ d l i = d.
Proof.
  intros Hi. unfold at_. destruct (Z.ltb_spec i 0); [done|].
  by rewrite lookup_ge_None_2 by lia.
Qed.

Lemma at_replicate n i : at_ d (replicate n d) i = d.
Proof.
  unfold at_. destruct (i <? 0); [done|].
  destruct (replicate n d !! Z.to_nat i) eqn:H; [|done].
  by apply lookup_replicate in H as [-> _].
Qed.

Lemma zslice_ok l lo hi :
  0 <= lo <= hi -> hi <= zlen l ->
  exists m, zslice l lo hi = Some m /\ zlen m = hi - lo /\ (forall x, x ∈ m -> x ∈ l).
Proof.
  intros Hlo Hhi. unfold zslice.
  rewrite (proj2 (Z.leb_le 0 lo)), (proj2 (Z.leb_le lo hi)), (proj2 (Z.leb_le hi _)) by lia.
  eexists. split; [done|]. split; [rewrite length_take, length_drop; lia|].
  intros x (i & Hi)%list_elem_of_lookup. apply lookup_take_Some in Hi as [Hi _].
  rewrite lookup_drop in Hi. by eapply list_elem_of_lookup_2.
Qed.
End Indexing.

(** ** Well-formed grids *)

Section Terminal.
Context `{UnicodeTables}.

(** The first cell of a wide character. *)
Definition is_head (c : terminalCell) : bool := negb (tc_continuation c) && wide_text c.

(** A continuation cell stands exactly behind each wide character. *)
Definition row_paired (r : list terminalCell) : Prop :=
  forall i, tc_continuation (cell_at r (i + 1)) = is_head (cell_at r i).

(** A row of the terminal's width.  With [strict], and in a terminal of at least
    two columns, it is paired. *)
Definition row_ok (strict : bool) (cols : Z) (r : list terminalCell) : Prop :=
  zlen r = cols /\ (strict = true -> 2 <= cols -> row_paired r).

Definition grid_ok (strict : bool) (cols rows : Z) (cs : list (list terminalCell)) : Prop :=
  zlen cs = rows /\ forall r, r ∈ cs -> row_ok strict cols r.

Record cursor_ok (cols rows : Z) (s : terminalScreen) : Prop := {
  cursor_row : 0 <= s_row s < rows;
  cursor_col : 0 <= s_col s < cols;
  cursor_region : 0 <= scrollTop s <= scrollBottom s /\ scrollBottom s < rows }.

Definition screen_ok (strict : bool) (cols rows : Z) (s : terminalScreen) : Prop :=
  grid_ok strict cols rows (cells s) /\ cursor_ok cols rows s.

(** *** Rows *)

Lemma row_paired_blank n : row_paired (replicate n emptyCell).
Proof. intros i. by rewrite !at_replicate. Qed.

Lemma wide_text_empty : is_head emptyCell = false.
Proof. done. Qed.

Lemma eraseWide_row_spec cols col r :
  zlen r = cols -> 0 <= col < cols ->
  exists r', eraseWide_row cols col r = Some r' /\ zlen r' = cols
    /\ forall i, cell_at r' i =
         if (i =? col) || ((i =? col - 1) && tc_continuation (cell_at r col))
            || ((i =? col + 1) && tc_continuation (cell_at r (col + 1)))
         then emptyCell else cell_at r i.
Proof.
  intros Hlen Hcol. unfold eraseWide_row.
  rewrite (proj2 (Z.ltb_ge col 0)), (proj2 (Z.leb_gt cols col)) by lia. cbn [orb].
  rewrite (zlookup_at emptyCell r col) by lia. cbn [mbind option_bind].
  set (b := tc_continuation (cell_at r col)).
  assert (exists r1, (if b && (0 <? col) then zinsert (col - 1) emptyCell r else Some r) = Some r1
    /\ zlen r1 = cols
    /\ forall i, cell_at r1 i = if (i =? col - 1) && b then emptyCell else cell_at r i) as (r1 & -> & Hl1 & H1).
  { destruct b eqn:Hb, (Z.ltb_spec 0 col); cbn [andb].
    1: { rewrite zinsert_ok by lia. eexists. split; [done|]. rewrite length_insert. split; [done|].
         intros i. rewrite at_insert by lia. by rewrite andb_true_r. }
    all: eexists; split; [done|]; split; [done|]; intros i; destruct (Z.eqb_spec i (col - 1)); cbn [andb]; try done.
    rewrite at_out by lia. done. }
  cbn [mbind option_bind].
  set (b' := tc_continuation (cell_at r (col + 1))).
  assert (exists r2, (if col + 1 <? cols
         then next ← zlookup r1 (col + 1);
              if tc_continuation next then zinsert (col + 1) emptyCell r1 else Some r1
         else Some r1) = Some r2
    /\ zlen r2 = cols
    /\ forall i, cell_at r2 i = if (i =? col + 1) && b' then emptyCell else cell_at r1 i) as (r2 & -> & Hl2 & H2).
  { destruct (Z.ltb_spec (col + 1) cols).
    - rewrite (zlookup_at emptyCell r1 (col + 1)) by lia. cbn [mbind option_bind].
      rewrite H1, (proj2 (Z.eqb_neq (col + 1) (col - 1))) by lia. cbn [andb]. fold b'. destruct b'.
      + rewrite zinsert_ok by lia. eexists. split; [done|]. rewrite length_insert. split; [done|].
        intros i. rewrite at_insert by lia. by rewrite andb_true_r.
      + eexists. split; [done|]. split; [done|]. intros i. by rewrite andb_false_r.
    - eexists. split; [done|]. split; [done|]. intros i. destruct (Z.eqb_spec i (col + 1)); cbn [andb]; [|done].
      destruct b'; [|done]. by rewrite at_out by lia. }
  cbn [mbind option_bind]. rewrite zinsert_ok by lia. eexists. split; [done|]. rewrite length_insert. split; [done|].
  intros i. rewrite at_insert, H2, H1 by lia.
  by destruct (i =? col), (i =? col - 1), b, (i =? col + 1), b'.
Qed.

Lemma is_head_cont c : tc_continuation c = true -> is_head c = false.
Proof. unfold is_head. by intros ->. Qed.

Lemma eraseWide_row_paired cols col r :
  zlen r = cols -> 0 <= col < cols -> row_paired r ->
  exists r', eraseWide_row cols col r = Some r' /\ zlen r' = cols /\ row_paired r'
    /\ cell_at r' col = emptyCell /\ (forall i, cell_at r i = emptyCell -> cell_at r' i = emptyCell).
Proof.
  intros Hlen Hcol Hr. destruct (eraseWide_row_spec cols col r Hlen Hcol) as (r' & -> & Hlen' & Hat).
  exists r'. split; [done|]. split; [done|]. split; [|split].
  - intros i. rewrite !Hat. pose proof (Hr i) as Hi.
    pose proof (Hr (col - 1)) as Hprev. replace (col - 1 + 1) with col in Hprev by lia.
    destruct (Z.eqb_spec i col) as [->|H1].
    { rewrite (proj2 (Z.eqb_neq (col + 1) col)), (proj2 (Z.eqb_neq (col + 1) (col - 1))), Z.eqb_refl by lia.
      cbn [orb andb]. by destruct (tc_continuation (cell_at r (col + 1))) eqn:E; rewrite ?E. }
    destruct (Z.eqb_spec (i + 1) col) as [H2|H2].
    { replace i with (col - 1) in * by lia. rewrite Z.eqb_refl, (proj2 (Z.eqb_neq (col - 1) (col + 1))) by lia.
      cbn [orb andb]. rewrite orb_false_r. destruct (tc_continuation (cell_at r col)); [done|]. by rewrite <- Hprev. }
    rewrite (proj2 (Z.eqb_neq (i + 1) (col + 1))), (proj2 (Z.eqb_neq i (col - 1))) by lia. cbn [orb andb].
    destruct (Z.eqb_spec (i + 1) (col - 1)) as [H3|H3].
    { rewrite (proj2 (Z.eqb_neq i (col + 1))) by lia. cbn [orb andb].
      destruct (tc_continuation (cell_at r col)); [|done]. cbn [orb].
      rewrite <- Hi. replace (i + 1) with (col - 1) by lia. symmetry.
      unfold is_head in Hprev. by destruct (tc_continuation (cell_at r (col - 1))). }
    cbn [orb andb]. destruct (Z.eqb_spec i (col + 1)) as [->|H4]; [|done]. cbn [andb].
    destruct (tc_continuation (cell_at r (col + 1))) eqn:E; [|done]. rewrite Hi. by apply is_head_cont.
  - by rewrite Hat, Z.eqb_refl.
  - intros i E. rewrite Hat, E. by destruct (_ || _ || _).
Qed.

Lemma insert_narrow_paired r col c :
  0 <= col < zlen r -> cell_at r col = emptyCell -> row_paired r ->
  tc_continuation c = false -> wide_text c = false -> row_paired (<[Z.to_nat col := c]> r).
Proof.
  intros Hcol Hat Hr Hc Hw i. rewrite !at_insert by done. pose proof (Hr i) as Hi.
  assert (is_head c = false) as Hh by (unfold is_head; by rewrite Hc, Hw).
  destruct (Z.eqb_spec (i + 1) col) as [E|E], (Z.eqb_spec i col) as [->|E']; try lia; try done.
  - by rewrite <- Hi, E, Hat.
  - by rewrite Hi, Hat, Hh.
Qed.

Lemma insert_wide_paired r col c k :
  0 <= col -> col + 1 < zlen r -> cell_at r col = emptyCell -> cell_at r (col + 1) = emptyCell -> row_paired r ->
  is_head c = true -> tc_continuation k = true ->
  row_paired (<[Z.to_nat (col + 1) := k]> (<[Z.to_nat col := c]> r)).
Proof.
  intros Hcol Hcol' Hat Hat' Hr Hc Hk i. rewrite !at_insert by (rewrite ?length_insert; lia).
  pose proof (Hr i) as Hi.
  assert (tc_continuation c = false) as Hc'.
  { unfold is_head in Hc. by destruct (tc_continuation c). }
  destruct (Z.eqb_spec (i + 1) (col + 1)), (Z.eqb_spec (i + 1) col), (Z.eqb_spec i (col + 1)), (Z.eqb_spec i col);
    subst; try lia; try done; try congruence.
  - by rewrite Hc', <- Hi, Hat.
  - by rewrite is_head_cont, Hi, Hat'.
Qed.

(** Pairing as a left-to-right check; [w]: is a continuation due? *)
Fixpoint paired_from (w : bool) (r : list terminalCell) : Prop :=
  match r with
  | [] => w = false
  | c :: r => tc_continuation c = w /\ paired_from (is_head c) r
  end.

Lemma at_nil i : cell_at [] i = emptyCell.
Proof. apply at_out. cbn. lia. Qed.

Lemma at_cons c r i : 0 <= i -> cell_at (c :: r) (i + 1) = cell_at r i.
Proof.
  intros Hi. unfold at_. rewrite (proj2 (Z.ltb_ge i 0)), (proj2 (Z.ltb_ge (i + 1) 0)) by lia.
  by replace (Z.to_nat (i + 1)) with (S (Z.to_nat i)) by lia.
Qed.

Lemma paired_from_at w r :
  paired_from w r ->
  tc_continuation (cell_at r 0) = w
  /\ (forall i, 0 <= i -> tc_continuation (cell_at r (i + 1)) = is_head (cell_at r i)).
Proof.
  revert w. induction r as [|c r IH]; intros w; cbn [paired_from].
  - intros ->. split; [by rewrite at_nil|]. intros i _. by rewrite !at_nil.
  - intros [Hc Hr]. apply IH in Hr as [H0 Hr]. split; [done|]. intros i Hi. rewrite at_cons by done.
    destruct (Z.eq_dec i 0) as [->|Hi0]; [done|].
    replace i with (i - 1 + 1) by lia. rewrite at_cons by lia. apply Hr. lia.
Qed.

Lemma paired_from_row r : paired_from false r -> row_paired r.
Proof.
  intros [H0 Hr]%paired_from_at i. destruct (Z.lt_ge_cases i 0) as [Hi|Hi]; [|by apply Hr].
  rewrite (at_out _ r i) by lia. destruct (Z.eq_dec i (-1)) as [->|]; [done|]. by rewrite at_out by lia.
Qed.

Definition due (prev : option terminalCell) : bool := match prev with Some p => is_head p | None => false end.
Definition starts_continued (r : list terminalCell) : bool :=
  match r with n :: _ => tc_continuation n | [] => false end.

Lemma repair_cells_paired prev r :
  (due prev = true -> starts_continued r = true) -> paired_from (due prev) (repair_cells prev r).
Proof.
  revert prev. induction r as [|c r IH]; intros prev Hdue; cbn [repair_cells paired_from].
  { destruct (due prev); [|done]. by discriminate Hdue. }
  fold (starts_continued r). cbn [starts_continued] in Hdue.
  destruct (tc_continuation c) eqn:Hc.
  - assert ((match prev with Some p => if tc_continuation p || negb (wide_text p) then emptyCell else c
             | None => emptyCell end) = if due prev then c else emptyCell) as ->.
    { destruct prev as [p|]; [|done]. cbn [due]. unfold is_head.
      by destruct (tc_continuation p), (wide_text p). }
    destruct (due prev).
    + split; [done|]. apply (IH (Some c)). cbn [due]. by rewrite is_head_cont.
    + split; [done|]. by apply (IH (Some emptyCell)).
  - destruct (due prev); [by discriminate Hdue|].
    destruct (wide_text c && negb (starts_continued r)) eqn:Hw.
    + split; [done|]. by apply (IH (Some emptyCell)).
    + split; [done|]. apply (IH (Some c)). cbn [due]. unfold is_head. rewrite Hc. cbn [negb andb].
      intros Hwc. rewrite Hwc in Hw. by destruct (starts_continued r).
Qed.

Lemma length_repair_cells prev r : length (repair_cells prev r) = length r.
Proof. revert prev. induction r as [|c r IH]; intros prev; [done|]. cbn [repair_cells length]. by rewrite IH. Qed.

(** *** Screens *)

Section Screens.
Context (strict : bool) (cols rows : Z).

Abbreviation rowOK := (row_ok strict cols).
Abbreviation gridOK := (grid_ok strict cols rows).
Abbreviation screenOK := (screen_ok strict cols rows).

(** The screen with row [row] replaced. *)
Definition with_row (row : Z) (r : list terminalCell) (s : terminalScreen) : terminalScreen :=
  s <| cells := <[Z.to_nat row := r]> (cells s) |>.

(** The operation answers a well-formed screen in which no join is pending
    unless one was before. *)
Definition good (s : terminalScreen) (o : option terminalScreen) : Prop :=
  exists s', o = Some s' /\ screenOK s' /\ (joinNext s = false -> joinNext s' = false).

Lemma row_ok_blank : 1 <= cols -> rowOK (blank_row cols).
Proof. intros Hc. split; [unfold blank_row; rewrite length_replicate; lia|]. intros _ _. apply row_paired_blank. Qed.

Lemma row_at_ok cs row : gridOK cs -> 0 <= row < rows -> rowOK (at_ [] cs row).
Proof.
  intros [Hlen Hcs] Hrow. apply Hcs. pose proof (zlookup_at [] cs row) as Hl. unfold zlookup in Hl.
  rewrite (proj2 (Z.ltb_ge row 0)) in Hl by lia. eapply list_elem_of_lookup_2, Hl. lia.
Qed.

Lemma grid_with_row cs row r : gridOK cs -> rowOK r -> gridOK (<[Z.to_nat row := r]> cs).
Proof.
  intros [Hlen Hcs] Hr. split; [by rewrite length_insert|].
  intros r' (i & Hi)%list_elem_of_lookup. apply list_lookup_insert_Some in Hi as [(_ & <- & _)|[_ Hi]]; [done|].
  by eapply Hcs, list_elem_of_lookup_2.
Qed.

Lemma with_row_ok row r s : screenOK s -> rowOK r -> screenOK (with_row row r s).
Proof. intros [Hg [? ? ?]] Hr. split; [by apply grid_with_row|by constructor]. Qed.

Lemma with_row_same row s : 0 <= row < zlen (cells s) -> with_row row (at_ [] (cells s) row) s = s.
Proof.
  intros Hrow. unfold with_row. destruct s as [cs]. cbn -[at_] in *. f_equal. apply list_insert_id.
  pose proof (zlookup_at [] cs row) as Hl. unfold zlookup in Hl.
  rewrite (proj2 (Z.ltb_ge row 0)) in Hl by lia. apply Hl. lia.
Qed.

Lemma with_row_row row r s : s_row (with_row row r s) = s_row s.
Proof. done. Qed.
Lemma with_row_col row r s : s_col (with_row row r s) = s_col s.
Proof. done. Qed.
Lemma with_row_faint row r s : s_faint (with_row row r s) = s_faint s.
Proof. done. Qed.

Lemma on_row_with_row row f r r' s :
  0 <= row < zlen (cells s) -> f r = Some r' -> on_row row f (with_row row r s) = Some (with_row row r' s).
Proof.
  intros Hrow Hf. unfold on_row, with_row. destruct s as [cs]. cbn -[at_ zlookup zinsert] in *.
  rewrite (zlookup_at []) by (rewrite length_insert; lia). cbn [mbind option_bind].
  rewrite at_insert, Z.eqb_refl, Hf by lia. cbn [mbind option_bind].
  rewrite zinsert_ok by (rewrite length_insert; lia). cbn [mbind option_bind].
  by rewrite list_insert_insert_eq.
Qed.

Lemma on_row_eq row f r' s :
  0 <= row < zlen (cells s) -> f (at_ [] (cells s) row) = Some r' -> on_row row f s = Some (with_row row r' s).
Proof. intros Hrow Hf. rewrite <- (with_row_same row s) at 1 by done. by apply on_row_with_row. Qed.

Lemma on_row_ok row f s :
  screenOK s -> 0 <= row < rows ->
  (forall r, rowOK r -> exists r', f r = Some r' /\ rowOK r') ->
  exists r', on_row row f s = Some (with_row row r' s) /\ rowOK r'.
Proof.
  intros Hs Hrow Hf. pose proof Hs as [Hg Hc]. pose proof (row_at_ok _ row Hg Hrow) as Hr. destruct (Hf _ Hr) as (r' & Hfr & Hr').
  exists r'. split; [|done]. destruct Hg as [Hlen _].
  apply on_row_eq; [lia|done].
Qed.

Lemma good_with_row row r s : screenOK s -> rowOK r -> good s (Some (with_row row r s)).
Proof. intros. eexists. split; [done|]. split; [by apply with_row_ok|done]. Qed.

Lemma good_on_row row f s :
  screenOK s -> 0 <= row < rows ->
  (forall r, rowOK r -> exists r', f r = Some r' /\ rowOK r') -> good s (on_row row f s).
Proof. intros Hs Hrow Hf. destruct (on_row_ok row f s Hs Hrow Hf) as (r' & -> & Hr'). by apply good_with_row. Qed.

Lemma good_bind s o g :
  good s o -> (forall s', screenOK s' -> (joinNext s = false -> joinNext s' = false) -> good s' (g s')) ->
  good s (o ≫= g).
Proof.
  intros (s' & -> & Hs' & Hj) Hg. destruct (Hg s' Hs' Hj) as (s'' & Hgs & Hs'' & Hj'').
  exists s''. split; [done|]. split; [done|]. auto.
Qed.

Lemma good_some s s' :
  screenOK s' -> (joinNext s = false -> joinNext s' = false) -> good s (Some s').
Proof. intros. exists s'. auto. Qed.

(** *** Erasing *)

Lemma eraseWide_row_ok col r :
  rowOK r -> 0 <= col < cols ->
  exists r', eraseWide_row cols col r = Some r' /\ rowOK r' /\ cell_at r' col = emptyCell
    /\ (forall i, cell_at r i = emptyCell -> cell_at r' i = emptyCell).
Proof.
  intros [Hlen Hr] Hcol. destruct (eraseWide_row_spec cols col r Hlen Hcol) as (r' & E & Hlen' & Hat).
  exists r'. split; [done|]. split; [|split].
  - split; [done|]. intros Hs H2. destruct (eraseWide_row_paired cols col r) as (r'' & E' & _ & Hp & _); auto. congruence.
  - by rewrite Hat, Z.eqb_refl.
  - intros i Hi. rewrite Hat, Hi. by destruct (_ || _ || _).
Qed.

Lemma eraseWideAt_good row col s : screenOK s -> 0 <= row < rows -> good s (eraseWideAt cols row col s).
Proof.
  intros Hs Hrow. unfold eraseWideAt. destruct (Z.ltb_spec col 0), (Z.leb_spec cols col); cbn [orb];
    try by apply good_some.
  apply good_on_row; [done..|]. intros r Hr. destruct (eraseWide_row_ok col r Hr) as (r' & -> & Hr' & _); [lia|]. eauto.
Qed.

Lemma erase_range_good n row c s : screenOK s -> 0 <= row < rows -> good s (erase_range n cols row c s).
Proof.
  revert c s. induction n as [|n IH]; intros c s Hs Hrow; cbn [erase_range]; [by apply good_some|].
  apply good_bind; [by apply eraseWideAt_good|]. auto.
Qed.

Lemma cursor_row_ok s : screenOK s -> 0 <= s_row s < rows.
Proof. by intros [_ [? ? ?]]. Qed.
Lemma cursor_col_ok s : screenOK s -> 0 <= s_col s < cols.
Proof. by intros [_ [? ? ?]]. Qed.
Hint Resolve cursor_row_ok cursor_col_ok : core.

Lemma eraseLine_good mode s : screenOK s -> good s (eraseLine cols mode s).
Proof.
  intros Hs. unfold eraseLine, erase_cols.
  destruct_ifs; first [by apply erase_range_good; eauto | by apply good_some].
Qed.

Lemma row_ok_replicate r : rowOK r -> rowOK (replicate (length r) emptyCell).
Proof. intros [Hlen _]. split; [by rewrite length_replicate|]. intros _ _. apply row_paired_blank. Qed.

Lemma clear_rows_good n row s :
  screenOK s -> 0 <= row -> row + Z.of_nat n <= rows -> good s (clear_rows n row s).
Proof.
  revert row s. induction n as [|n IH]; intros row s Hs Hrow Hn; cbn [clear_rows]; [by apply good_some|].
  apply good_bind.
  - apply good_on_row; [done|lia|]. intros r Hr. eexists. split; [done|]. by apply row_ok_replicate.
  - intros s' Hs' _. apply IH; [done|lia..].
Qed.

Lemma eraseDisplay_good mode s : screenOK s -> good s (eraseDisplay cols rows mode s).
Proof.
  intros Hs. unfold eraseDisplay. destruct (mode =? 0); [|destruct (mode =? 1); [|destruct (mode =? 2)]].
  - apply good_bind; [by apply eraseLine_good|]. intros s' Hs' _. pose proof (cursor_row_ok s' Hs').
    apply clear_rows_good; [done|lia..].
  - pose proof (cursor_row_ok s Hs). apply good_bind; [apply clear_rows_good; [done|lia..]|].
    intros s' Hs' _. by apply eraseLine_good.
  - pose proof Hs as [[Hlen _] _]. apply clear_rows_good; [done|lia..].
  - by apply good_some.
Qed.

Lemma shift_row_ok c n insert r :
  rowOK r -> 0 <= c -> 0 <= n -> c + n <= cols ->
  exists r', shift_row cols c n insert r = Some r' /\ zlen r' = cols.
Proof.
  intros [Hlen _] Hc Hn Hcn. unfold shift_row.
  destruct (zslice_ok r 0 c) as (left & -> & Hl & _); [lia..|]. cbn [mbind option_bind]. destruct insert.
  - destruct (zslice_ok r c (cols - n)) as (m & -> & Hm & _); [lia..|].
    eexists. split; [done|]. rewrite !length_app, length_replicate. lia.
  - destruct (zslice_ok r (c + n) (zlen r)) as (m & -> & Hm & _); [lia..|].
    eexists. split; [done|]. rewrite !length_app, length_replicate. lia.
Qed.

Lemma shiftChars_good n insert s : screenOK s -> 0 <= n -> good s (shiftChars cols n insert s).
Proof.
  intros Hs Hn. pose proof (cursor_row_ok s Hs) as Hrow. pose proof (cursor_col_ok s Hs) as Hcol.
  unfold shiftChars. set (m := Z.min n (cols - s_col s)).
  assert (exists r', shift_row cols (s_col s) m insert (at_ [] (cells s) (s_row s)) = Some r' /\ zlen r' = cols)
    as (r' & Hr' & Hlen') by (apply shift_row_ok; [apply row_at_ok; [apply Hs|done]|lia..]).
  pose proof Hs as [[Hrows _] _].
  rewrite (on_row_eq _ _ r') by (try done; lia). cbn [mbind option_bind].
  unfold repairWideRow. destruct (Z.ltb_spec cols 2).
  - apply good_with_row; [done|]. split; [done|]. lia.
  - change (s_row (with_row (s_row s) r' s)) with (s_row s).
    rewrite (on_row_with_row _ _ _ (repair_cells None r')) by (try done; lia).
    apply good_with_row; [done|]. split; [by rewrite length_repair_cells|].
    intros _ _. by apply paired_from_row, (repair_cells_paired None).
Qed.

(** *** Scrolling *)

Lemma elem_of_blanks n r : r ∈ replicate n (blank_row cols) -> 1 <= cols -> rowOK r.
Proof. intros [-> _]%elem_of_replicate. apply row_ok_blank. Qed.

Lemma scrollUpAt_good row n s : screenOK s -> 0 <= n -> good s (scrollUpAt cols row n s).
Proof.
  intros Hs Hn. unfold scrollUpAt. destruct Hs as [[Hlen Hg] [Hr Hc Hreg]].
  destruct (Z.ltb_spec row (scrollTop s)), (Z.ltb_spec (scrollBottom s) row); cbn [orb]; try by apply good_some.
  set (m := Z.min n (scrollBottom s - row + 1)).
  destruct (zslice_ok (cells s) 0 row) as (above & -> & Ha & Hain); [lia..|].
  destruct (zslice_ok (cells s) (row + m) (scrollBottom s + 1)) as (moved & -> & Hm & Hmin); [lia..|].
  destruct (zslice_ok (cells s) (scrollBottom s + 1) (zlen (cells s))) as (below & -> & Hb & Hbin); [lia..|].
  cbn [mbind option_bind]. apply good_some; [|done]. split; [|done].
  split; [cbn [cells set_field]; cbn; rewrite !length_app, length_replicate; lia|].
  intros r. cbn. rewrite !elem_of_app. intros [Hi|[Hi|[Hi|Hi]]]; eauto. apply (elem_of_blanks _ _ Hi). lia.
Qed.

Lemma scrollDownAt_good row n s : screenOK s -> 0 <= n -> good s (scrollDownAt cols row n s).
Proof.
  intros Hs Hn. unfold scrollDownAt. destruct Hs as [[Hlen Hg] [Hr Hc Hreg]].
  destruct (Z.ltb_spec row (scrollTop s)), (Z.ltb_spec (scrollBottom s) row); cbn [orb]; try by apply good_some.
  set (m := Z.min n (scrollBottom s - row + 1)).
  destruct (zslice_ok (cells s) 0 row) as (above & -> & Ha & Hain); [lia..|].
  destruct (zslice_ok (cells s) row (scrollBottom s + 1 - m)) as (moved & -> & Hm & Hmin); [lia..|].
  destruct (zslice_ok (cells s) (scrollBottom s + 1) (zlen (cells s))) as (below & -> & Hb & Hbin); [lia..|].
  cbn [mbind option_bind]. apply good_some; [|done]. split; [|done].
  split; [cbn [cells set_field]; cbn; rewrite !length_app, length_replicate; lia|].
  intros r. cbn. rewrite !elem_of_app. intros [Hi|[Hi|[Hi|Hi]]]; eauto. apply (elem_of_blanks _ _ Hi). lia.
Qed.

Lemma move_cursor s s' :
  screenOK s -> cells s' = cells s -> scrollTop s' = scrollTop s -> scrollBottom s' = scrollBottom s ->
  0 <= s_row s' < rows -> 0 <= s_col s' < cols -> screenOK s'.
Proof. intros [Hg [? ? ?]] E1 E2 E3 Hr Hc. split; [by rewrite E1|constructor; [done..|by rewrite E2, E3]]. Qed.

(** [screenOK] is about the grid, the cursor and the scroll region only. *)
Lemma screen_ok_ext s s' :
  screenOK s -> cells s' = cells s -> scrollTop s' = scrollTop s -> scrollBottom s' = scrollBottom s ->
  s_row s' = s_row s -> s_col s' = s_col s -> screenOK s'.
Proof. intros Hs E1 E2 E3 E4 E5. apply (move_cursor s); try done; rewrite ?E4, ?E5; apply Hs. Qed.

Lemma lineFeed_good s : screenOK s -> good s (lineFeed cols rows s).
Proof.
  intros Hs. unfold lineFeed. destruct (s_row s =? scrollBottom s); [apply scrollUpAt_good; [done|lia]|].
  destruct (Z.ltb_spec (s_row s) (rows - 1)); [|by apply good_some].
  apply good_some; [|done]. pose proof (cursor_row_ok s Hs). pose proof (cursor_col_ok s Hs).
  apply (move_cursor s); cbn; try done; lia.
Qed.

Lemma reverseIndex_good s : screenOK s -> good s (reverseIndex cols s).
Proof.
  intros Hs. unfold reverseIndex. destruct (s_row s =? scrollTop s); [apply scrollDownAt_good; [done|lia]|].
  destruct (Z.ltb_spec 0 (s_row s)); [|by apply good_some].
  apply good_some; [|done]. pose proof (cursor_row_ok s Hs). pose proof (cursor_col_ok s Hs).
  apply (move_cursor s); cbn; try done; lia.
Qed.

(** *** Printing *)

Lemma RuneWidth_range ch : 0 <= RuneWidth ch <= 2.
Proof. unfold RuneWidth. destruct_ifs; lia. Qed.

(** What [previousCell] answers on a well-formed screen. *)
Definition prev_col (s : terminalScreen) : Z :=
  let c := if pendingWrap s then s_col s else s_col s - 1 in
  if (0 <=? c) && tc_continuation (cell_at (at_ [] (cells s) (s_row s)) c) then c - 1 else c.

Lemma previousCell_ok s : screenOK s -> previousCell s = Some (prev_col s) /\ prev_col s < cols.
Proof.
  intros Hs. unfold previousCell, prev_col. pose proof (cursor_row_ok s Hs) as Hrow. pose proof (cursor_col_ok s Hs).
  pose proof Hs as [Hg _]. pose proof (row_at_ok _ _ Hg Hrow) as [Hlen _]. destruct Hg as [Hrows _].
  set (c := if pendingWrap s then s_col s else s_col s - 1).
  assert (c < cols) by (unfold c; destruct (pendingWrap s); lia).
  destruct (Z.leb_spec 0 c); cbn [andb]; [|done].
  rewrite (zlookup_at [] (cells s)) by lia. cbn [mbind option_bind].
  rewrite (zlookup_at emptyCell) by lia. cbn [mbind option_bind].
  destruct (tc_continuation _); split; (done || lia).
Qed.

(** While a join is pending, there is something to join to. *)
Definition join_ok (s : terminalScreen) : Prop :=
  strict = true -> 2 <= cols -> joinNext s = true -> 0 <= prev_col s ->
  tc_text (cell_at (at_ [] (cells s) (s_row s)) (prev_col s)) <> [].

Lemma insert_same_paired r i c :
  0 <= i < zlen r -> row_paired r -> tc_continuation c = tc_continuation (cell_at r i) ->
  is_head c = is_head (cell_at r i) -> row_paired (<[Z.to_nat i := c]> r).
Proof.
  intros Hi Hr Hc Hh j. rewrite !at_insert by done.
  assert (forall k, tc_continuation (if k =? i then c else cell_at r k) = tc_continuation (cell_at r k)) as ->
    by (intros k; by destruct (Z.eqb_spec k i) as [->|]).
  assert (forall k, is_head (if k =? i then c else cell_at r k) = is_head (cell_at r k)) as ->
    by (intros k; by destruct (Z.eqb_spec k i) as [->|]).
  apply Hr.
Qed.

Lemma append_text_ok c ch s :
  screenOK s -> join_ok s -> (joinNext s = false -> RuneWidth ch = 0) -> c = prev_col s -> 0 <= c < cols ->
  exists r, append_text (s_row s) c ch s = Some (with_row (s_row s) r s) /\ rowOK r
    /\ tc_text (cell_at r c) <> []
    /\ forall i, tc_continuation (cell_at r i) = tc_continuation (cell_at (at_ [] (cells s) (s_row s)) i).
Proof.
  intros Hs Hj Hw Hprev Hc. pose proof (cursor_row_ok s Hs) as Hrow.
  pose proof Hs as [Hg _]. pose proof (row_at_ok _ _ Hg Hrow) as [Hlen Hp].
  set (r := at_ [] (cells s) (s_row s)) in *. set (cell := cell_at r c).
  set (cell' := mkCell (tc_text cell ++ [ch]) (tc_continuation cell) (tc_faint cell)).
  exists (<[Z.to_nat c := cell']> r). destruct Hg as [Hrows _]. split; [|split; [split|split]].
  - apply on_row_eq; [lia|]. fold r. rewrite (zlookup_at emptyCell) by lia. cbn [mbind option_bind].
    fold cell. by rewrite zinsert_ok by lia.
  - by rewrite length_insert.
  - intros Hstrict H2. apply insert_same_paired; [lia|by apply Hp|done|].
    unfold is_head, wide_text. fold cell. cbn [tc_continuation tc_text cell'].
    destruct (tc_text cell) as [|x text] eqn:E; [|done]. cbn [app].
    destruct (joinNext s) eqn:Ej; [|by rewrite Hw].
    exfalso. apply (Hj Hstrict H2 Ej); [lia|]. fold r. by rewrite <- Hprev.
  - rewrite at_insert, Z.eqb_refl by lia. cbn. by destruct (tc_text cell).
  - intros i. rewrite at_insert by lia. by destruct (Z.eqb_spec i c) as [->|].
Qed.

Lemma put_cells_ok w ch s :
  screenOK s -> w = 1 \/ w = 2 -> RuneWidth ch = w \/ cols < 2 -> s_col s + w <= cols ->
  exists r, put_cells cols w ch s = Some (with_row (s_row s) r s) /\ rowOK r.
Proof.
  intros Hs Hw Hch Hcol. pose proof (cursor_row_ok s Hs) as Hrow. pose proof (cursor_col_ok s Hs) as Hc.
  pose proof Hs as [Hg _]. pose proof (row_at_ok _ _ Hg Hrow) as Hr. destruct Hg as [Hrows _].
  assert (forall row col s, 0 <= col < cols ->
    eraseWideAt cols row col s = on_row row (eraseWide_row cols col) s) as Herase.
  { intros row col s' Hcol'. unfold eraseWideAt. by rewrite (proj2 (Z.ltb_ge col 0)), (proj2 (Z.leb_gt cols col)) by lia. }
  destruct (eraseWide_row_ok (s_col s) _ Hr Hc) as (r1 & E1 & Hr1 & H1 & _).
  unfold put_cells. rewrite Herase by lia. rewrite (on_row_eq _ _ r1) by (done || lia). cbn [mbind option_bind].
  unfold put_cell. destruct Hw as [->| ->]; cbn [Z.eqb Pos.eqb mbind option_bind]; rewrite ?with_row_row, ?with_row_col, ?with_row_faint.
  - pose proof Hr1 as [Hlen1 Hp1].
    erewrite on_row_with_row by (try lia; apply zinsert_ok; lia). cbn [mbind option_bind]. eexists. split; [done|].
    split; [by rewrite length_insert|]. intros Hstrict H2.
    apply insert_narrow_paired; [lia|done|by apply Hp1|done|]. unfold wide_text. cbn [tc_text].
    destruct Hch as [->|]; [done|lia].
  - destruct (eraseWide_row_ok (s_col s + 1) r1 Hr1) as (r2 & E2 & Hr2 & H2 & Hkeep); [lia|].
    rewrite Herase by lia. rewrite (on_row_with_row _ _ _ r2) by (done || lia). cbn [mbind option_bind].
    rewrite ?with_row_row, ?with_row_col, ?with_row_faint. pose proof Hr2 as [Hlen2 Hp2].
    erewrite on_row_with_row by (try lia; apply zinsert_ok; lia). cbn [mbind option_bind].
    rewrite ?with_row_row, ?with_row_col, ?with_row_faint.
    erewrite on_row_with_row by (try lia; apply zinsert_ok; rewrite length_insert; lia). eexists. split; [done|].
    split; [by rewrite !length_insert|]. intros Hstrict Hc2.
    apply insert_wide_paired; try done; try lia; [by apply Hkeep|by apply Hp2|].
    unfold is_head, wide_text. cbn. destruct Hch as [->|]; [done|lia].
Qed.

Lemma join_ok_false s : joinNext s = false -> join_ok s.
Proof. intros H1 _ _ H2. congruence. Qed.

Lemma put_joined ch s :
  screenOK s -> join_ok s -> RuneWidth ch = 0 \/ joinNext s = true ->
  exists s', (c ← previousCell s;
              s ← (if 0 <=? c then append_text (s_row s) c ch s else Some s);
              Some (s <| joinNext := ch =? 0x200d |>)) = Some s' /\ screenOK s' /\ join_ok s'.
Proof.
  intros Hs Hj Hw. destruct (previousCell_ok s Hs) as [-> Hc]. cbn [mbind option_bind].
  destruct (Z.leb_spec 0 (prev_col s)) as [Hc0|Hc0].
  - destruct (append_text_ok (prev_col s) ch s) as (r & -> & Hr & Htext & Hcont); try done.
    { destruct Hw as [Hw| ->]; done. }
    cbn [mbind option_bind]. set (s' := _ <| joinNext := _ |>).
    pose proof (with_row_ok (s_row s) r s Hs Hr) as Hs'. exists s'. split; [done|].
    split; [by apply (screen_ok_ext (with_row (s_row s) r s))|]. intros _ _ _ _.
    assert (at_ [] (cells s') (s_row s') = r) as Hrow.
    { destruct Hs as [[Hlen _] [Hrow _ _]]. unfold s'. cbn -[at_]. by rewrite at_insert, Z.eqb_refl by lia. }
    assert (prev_col s' = prev_col s) as ->; [|by rewrite Hrow].
    unfold prev_col. rewrite Hrow, Hcont. done.
  - cbn [mbind option_bind]. eexists. split; [done|]. split; [by apply (screen_ok_ext s)|]. intros _ _ _ Hc1.
    change (0 <= prev_col s) in Hc1. lia.
Qed.

Lemma put_fresh ch s :
  screenOK s -> RuneWidth ch <> 0 -> joinNext s = false -> good s (put cols rows ch s).
Proof.
  intros Hs Hw Hj. unfold put. rewrite (proj2 (Z.eqb_neq _ _) Hw), Hj. cbn [orb].
  apply good_bind.
  { destruct (pendingWrap s); [|by apply good_some].
    assert (screenOK (s <| s_col := 0 |> <| pendingWrap := false |>)) as Hs'.
    { pose proof (cursor_row_ok s Hs). pose proof (cursor_col_ok s Hs). apply (move_cursor s); cbn; try done; lia. }
    exact (lineFeed_good _ Hs'). }
  intros s1 Hs1 _. set (w := if (cols <? 2) && _ then 1 else _).
  assert ((w = 1 \/ w = 2) /\ (RuneWidth ch = w \/ cols < 2) /\ (w = 2 -> 2 <= cols)) as (Hw12 & Hch & Hcols).
  { pose proof (RuneWidth_range ch). unfold w.
    destruct (Z.ltb_spec cols 2), (Z.eqb_spec (RuneWidth ch) 2); cbn [andb]; lia. }
  assert (good s1 (if (w =? 2) && (s_col s1 =? cols - 1) then lineFeed cols rows (s1 <| s_col := 0 |>) else Some s1)
    /\ forall s2, (if (w =? 2) && (s_col s1 =? cols - 1) then lineFeed cols rows (s1 <| s_col := 0 |>) else Some s1) = Some s2
        -> s_col s2 + w <= cols) as [Hgood Hfits].
  { pose proof (cursor_row_ok s1 Hs1). pose proof (cursor_col_ok s1 Hs1).
    destruct (Z.eqb_spec w 2), (Z.eqb_spec (s_col s1) (cols - 1)); cbn [andb];
      try (split; [by apply good_some|intros s2 [= <-]; lia]).
    assert (screenOK (s1 <| s_col := 0 |>)) as Hs' by (apply (move_cursor s1); cbn; try done; lia).
    split; [exact (lineFeed_good _ Hs')|]. intros s2. unfold lineFeed, scrollUp, scrollUpAt.
    intros E. assert (s_col s2 = 0) as ->; [|lia].
    revert E. repeat case_match; intros E; simplify_option_eq; done. }
  destruct Hgood as (s2 & E2 & Hs2 & Hj2). specialize (Hfits _ E2). rewrite E2. cbn [mbind option_bind].
  destruct (put_cells_ok w ch s2 Hs2 Hw12 Hch Hfits) as (r & -> & Hr). cbn [mbind option_bind].
  pose proof (with_row_ok (s_row s2) r s2 Hs2 Hr) as Hs3. pose proof (cursor_row_ok s2 Hs2). pose proof (cursor_col_ok s2 Hs2).
  assert (joinNext s1 = false -> joinNext s2 = false) as Hj3 by done.
  destruct (Z.leb_spec cols (s_col (with_row (s_row s2) r s2 <| s_col := s_col (with_row (s_row s2) r s2) + w |>)));
    (apply good_some; [|exact Hj3]); apply (move_cursor (with_row (s_row s2) r s2)); cbn in *; try done; lia.
Qed.

Lemma put_ok ch s :
  screenOK s -> join_ok s -> exists s', put cols rows ch s = Some s' /\ screenOK s' /\ join_ok s'.
Proof.
  intros Hs Hj. destruct (Z.eq_dec (RuneWidth ch) 0) as [Hw|Hw]; [|destruct (joinNext s) eqn:Ej].
  1,2: unfold put; rewrite (proj2 (orb_true_iff _ _)) by (rewrite Z.eqb_eq; auto); apply put_joined; auto.
  destruct (put_fresh ch s Hs Hw Ej) as (s' & -> & Hs' & Hj'). exists s'. split; [done|]. split; [done|].
  by apply join_ok_false, Hj'.
Qed.

(** *** Control sequences *)

Lemma csi_param_nonneg params i def : 0 <= def -> Forall (fun p => 0 <= p) params -> 0 <= csi_param params i def.
Proof.
  intros Hdef Hp. unfold csi_param. destruct (params !! i) as [p|] eqn:E; [|done].
  apply (Forall_lookup_1 _ _ _ _ Hp) in E. by destruct (p =? 0).
Qed.

Lemma restore_cursor_ok s : screenOK s -> screenOK (restore_cursor cols rows s).
Proof.
  intros Hs. pose proof (cursor_row_ok s Hs). pose proof (cursor_col_ok s Hs).
  apply (move_cursor s); cbn; unfold clamp; try done; lia.
Qed.

Lemma csi_final_good final raw params s :
  screenOK s -> Forall (fun p => 0 <= p) params -> good s (csi_final final raw params cols rows s).
Proof.
  intros Hs Hp. pose proof (cursor_row_ok s Hs) as Hrow. pose proof (cursor_col_ok s Hs) as Hcol.
  pose proof (csi_param_nonneg params 0 1 ltac:(lia) Hp) as Hn.
  unfold csi_final. repeat case_match; cbn [mbind option_bind];
    try (apply good_some; [|done]);
    first [ done | by apply eraseDisplay_good | by apply eraseLine_good | by apply shiftChars_good
          | by apply scrollUpAt_good | by apply scrollDownAt_good | by apply erase_range_good
          | by apply restore_cursor_ok
          | by apply (screen_ok_ext s)
          | apply (move_cursor s); cbn; unfold clamp; done || lia
          | idtac ].
  destruct Hs as [Hg _]. split; [done|]. simplify_bool. unfold clamp in *. constructor; cbn; lia.
Qed.

Lemma control_or_rune_ok ch s :
  screenOK s -> exists s', control_or_rune ch cols rows s = Some s' /\ screenOK s' /\ join_ok s'.
Proof.
  intros Hs0. unfold control_or_rune. set (s1 := s <| joinNext := false |>).
  assert (screenOK s1) as Hs by by apply (screen_ok_ext s).
  assert (joinNext s1 = false) as Hj by done. clearbody s1. clear Hs0 s.
  assert (forall o, good s1 o -> exists s', o = Some s' /\ screenOK s' /\ join_ok s') as Hgood.
  { intros o (s' & -> & Hs' & Hj'). exists s'. auto using join_ok_false. }
  pose proof (cursor_row_ok s1 Hs). pose proof (cursor_col_ok s1 Hs).
  repeat case_match; simplify_bool;
    first [ by apply put_ok, join_ok_false | apply Hgood; by apply lineFeed_good | apply Hgood, good_some; [|done] ];
    first [ done | by apply (screen_ok_ext s1) | apply (move_cursor s1); cbn in *; try done; try lia ].
  pose proof (Z.quot_pos (s_col s1) 8). lia.
Qed.

(** *** Resizing *)

Lemma resize_cells_ok cs : 1 <= cols -> 1 <= rows ->
  zlen (resize_cells cols rows cs) = rows /\ forall r, r ∈ resize_cells cols rows cs -> zlen r = cols.
Proof.
  intros Hc Hr. unfold resize_cells. split; [rewrite length_fmap, length_seq; lia|].
  intros r (i & -> & _)%list_elem_of_fmap. destruct (cs !! i) as [r'|].
  - rewrite length_app, length_take, length_replicate. lia.
  - unfold blank_row. rewrite length_replicate. lia.
Qed.

Lemma repair_row_ok r : zlen r = cols -> rowOK (if cols <? 2 then r else repair_cells None r).
Proof.
  intros Hlen. destruct (Z.ltb_spec cols 2); [split; [done|lia]|].
  split; [by rewrite length_repair_cells|]. intros _ _. by apply paired_from_row, (repair_cells_paired None).
Qed.

(** Rows of the right width, those above [row] already repaired. *)
Lemma repair_rows_ok n row s :
  zlen (cells s) = rows -> (forall r, r ∈ cells s -> zlen r = cols) ->
  0 <= row -> row + Z.of_nat n = rows ->
  (forall i r, Z.of_nat i < row -> cells s !! i = Some r -> rowOK r) ->
  exists cs, repair_rows n cols row s = Some (s <| cells := cs |>) /\ gridOK cs.
Proof.
  revert row s. induction n as [|n IH]; intros row s Hlen Hcols Hrow Hn Hdone; cbn [repair_rows].
  { exists (cells s). split; [by destruct s|]. split; [done|].
    intros r (i & Hi)%list_elem_of_lookup. eapply Hdone, Hi. apply lookup_lt_Some in Hi. lia. }
  assert (exists r', repairWideRow cols row s = Some (with_row row r' s) /\ rowOK r') as (r' & -> & Hr').
  { assert (zlen (at_ [] (cells s) row) = cols) as Hr.
    { apply Hcols. pose proof (zlookup_at [] (cells s) row ltac:(lia)) as Hl. unfold zlookup in Hl.
      rewrite (proj2 (Z.ltb_ge row 0)) in Hl by lia. by eapply list_elem_of_lookup_2. }
    pose proof (repair_row_ok _ Hr) as Hok. unfold repairWideRow. destruct (cols <? 2).
    - exists (at_ [] (cells s) row). split; [|done]. by rewrite with_row_same by lia.
    - eexists. split; [|exact Hok]. apply on_row_eq; [lia|done]. }
  cbn [mbind option_bind]. destruct (IH (row + 1) (with_row row r' s)) as (cs & E & Hcs).
  - cbn. by rewrite length_insert.
  - intros r (i & Hi)%list_elem_of_lookup. cbn in Hi.
    apply list_lookup_insert_Some in Hi as [(_ & <- & _)|[_ Hi]]; [apply Hr'|]. by eapply Hcols, list_elem_of_lookup_2.
  - lia.
  - lia.
  - intros i r Hi Hl. cbn in Hl. apply list_lookup_insert_Some in Hl as [(_ & <- & _)|[Hne Hl]]; [done|].
    eapply Hdone, Hl. lia.
  - exists cs. split; [exact E|done].
Qed.

Lemma resize_screen_ok s : 1 <= cols -> 1 <= rows ->
  exists s', resize_screen cols rows s = Some s' /\ screenOK s' /\ joinNext s' = joinNext s.
Proof.
  intros Hc Hr. destruct (resize_cells_ok (cells s) Hc Hr) as [Hlen Hcols].
  destruct (repair_rows_ok (Z.to_nat rows) 0 (s <| cells := resize_cells cols rows (cells s) |>))
    as (cs & E & Hcs); [done..|lia|intros; lia|].
  unfold resize_screen. rewrite E. eexists. split; [done|]. split; [|done].
  split; [done|]. constructor; cbn; unfold clamp; lia.
Qed.
End Screens.

(** *** Parameters *)

(** The decimal value of a digit string. *)
Definition decimal (value : Z) (f : list Z) : Z := fold_left (fun value c => value * 10 + (c - 48)) f value.

Lemma decimal_ge value f : 0 <= value -> forallb is_digit f = true -> value <= decimal value f.
Proof.
  revert value. induction f as [|c f IH]; intros value Hv; [intros; cbn; lia|].
  cbn [forallb]. intros [Hc Hf]%andb_true_iff. unfold is_digit, between in Hc. simplify_bool.
  etrans; [|apply IH; [lia|done]]. lia.
Qed.

Lemma param_value_decimal value f :
  0 <= value <= 65535 -> forallb is_digit f = true -> param_value value f = Z.min 65535 (decimal value f).
Proof.
  revert value. induction f as [|c f IH]; intros value Hv; [intros; cbn; lia|].
  cbn [forallb param_value]. intros [Hc Hf]%andb_true_iff. rewrite Hc. cbn [negb].
  unfold is_digit, between in Hc. simplify_bool.
  change (decimal value (c :: f)) with (decimal (value * 10 + (c - 48)) f).
  destruct ((6553 <? value) || ((value =? 6553) && (5 <? c - 48))) eqn:E.
  - pose proof (decimal_ge (value * 10 + (c - 48)) f ltac:(lia) Hf).
    assert (65535 < value * 10 + (c - 48)) by (apply orb_true_iff in E as [E|E]; simplify_bool; lia). lia.
  - apply orb_false_iff in E as [E1 E2]. apply andb_false_iff in E2 as [E2|E2]; simplify_bool; apply IH; try done; lia.
Qed.

Lemma param_value_bounds value f : 0 <= value <= 65535 -> 0 <= param_value value f <= 65535.
Proof.
  revert value. induction f as [|c f IH]; intros value Hv; cbn [param_value]; [done|].
  destruct (is_digit c) eqn:Hc; cbn [negb]; [|lia]. unfold is_digit, between in Hc. simplify_bool.
  destruct (_ || _) eqn:E; [lia|].
  apply orb_false_iff in E as [E1 E2]. apply andb_false_iff in E2 as [E2|E2]; simplify_bool; apply IH; lia.
Qed.

Lemma params_nonneg raw : Forall (fun p => 0 <= p) (parseTerminalParams raw).
Proof.
  unfold parseTerminalParams. apply Forall_fmap, list.Forall_forall. intros f _. cbn.
  pose proof (param_value_bounds 0 f). lia.
Qed.

(** *** The whole terminal *)

Section Whole.
Context (strict : bool).

(** Both screens are well formed. *)
Definition screens_ok (v : VirtualTerminal) : Prop :=
  screen_ok strict (v_cols v) (v_rows v) (primary v) /\ screen_ok strict (v_cols v) (v_rows v) (alternate v).

(** No join is pending anywhere. *)
Definition calm (v : VirtualTerminal) : Prop :=
  strict = true -> joinNext (primary v) = false /\ joinNext (alternate v) = false.

Definition quiet (v : VirtualTerminal) : Prop := screens_ok v /\ calm v.

(** Between bytes: only between characters may a join be pending, on the current
    screen. *)
Definition vt_ok (v : VirtualTerminal) : Prop :=
  screens_ok v
  /\ (calm v
      \/ v_state v = terminalGround
         /\ join_ok strict (v_cols v) (current v)
         /\ (strict = true -> joinNext (if useAlternate v then primary v else alternate v) = false)).

Definition stays_quiet (o : option VirtualTerminal) : Prop := exists v, o = Some v /\ quiet v.

Lemma quiet_ok v : quiet v -> vt_ok v.
Proof. intros [Hs Hc]. split; [done|by left]. Qed.

Lemma quiet_some v : quiet v -> stays_quiet (Some v).
Proof. intros. by exists v. Qed.

Lemma quiet_fmap f o : stays_quiet o -> (forall v, quiet v -> quiet (f v)) -> stays_quiet (f <$> o).
Proof. intros (v & -> & Hv) Hf. exists (f v). auto. Qed.

Lemma current_ok v : screens_ok v -> screen_ok strict (v_cols v) (v_rows v) (current v).
Proof. intros []. unfold current. by destruct (useAlternate v). Qed.

Lemma calm_current v : calm v -> strict = true -> joinNext (current v) = false.
Proof. intros Hc Hs. destruct (Hc Hs). unfold current. by destruct (useAlternate v). Qed.

Lemma set_current_ok s v :
  screens_ok v -> screen_ok strict (v_cols v) (v_rows v) s -> screens_ok (set_current s v).
Proof. intros [Hp Ha] Hs. unfold set_current. by destruct (useAlternate v). Qed.

Lemma on_current_quiet f v :
  (forall s, screen_ok strict (v_cols v) (v_rows v) s -> good strict (v_cols v) (v_rows v) s (f (v_cols v) (v_rows v) s)) ->
  quiet v -> stays_quiet (on_current f v).
Proof.
  intros Hf [Hs Hc]. destruct (Hf _ (current_ok v Hs)) as (s' & E & Hs' & Hj). unfold on_current. rewrite E.
  eexists. split; [done|]. split; [by apply set_current_ok|].
  intros Hst. pose proof (Hj (calm_current v Hc Hst)) as Hj'. destruct (Hc Hst).
  unfold set_current. by destruct (useAlternate v).
Qed.

Lemma newScreen_ok cols rows : 1 <= cols -> 1 <= rows -> screen_ok strict cols rows (newScreen cols rows).
Proof.
  intros Hc Hr. split; [|constructor; cbn; lia]. split; [cbn; rewrite length_replicate; lia|].
  intros r [-> _]%elem_of_replicate. by apply row_ok_blank.
Qed.

Lemma screens_dims v : screens_ok v -> 1 <= v_cols v /\ 1 <= v_rows v.
Proof. intros [[_ [? ? ?]] _]. lia. Qed.

Lemma reset_quiet v : screens_ok v ->
  quiet (v <| primary := newScreen (v_cols v) (v_rows v) |> <| alternate := newScreen (v_cols v) (v_rows v) |>
           <| useAlternate := false |>).
Proof. intros [? ?]%screens_dims. split; [|done]. split; by apply newScreen_ok. Qed.

Lemma alternateMode_quiet enable p v : quiet v -> quiet (alternateMode enable p v).
Proof.
  intros [[Hp Ha] Hc]. pose proof (screens_dims v (conj Hp Ha)) as [Hcols Hrows].
  pose proof (newScreen_ok _ _ Hcols Hrows) as Hnew.
  unfold alternateMode. destruct ((p =? 47) || (p =? 1047) || (p =? 1049)); [|done].
  destruct (enable && negb (useAlternate v)); [|destruct (negb enable && useAlternate v); [|done]].
  - destruct (p =? 1049), (p =? 1047); cbn [orb]; (split; [split; cbn|exact Hc || (intros Hst; by destruct (Hc Hst))]);
      first [ by apply (screen_ok_ext _ _ _ (primary v)) | by apply (screen_ok_ext _ _ _ (alternate v))
            | by apply (screen_ok_ext _ _ _ (newScreen (v_cols v) (v_rows v))) ].
  - destruct (p =? 1049); (split; [split; cbn; [|done]|exact Hc]); [|by apply (screen_ok_ext _ _ _ (primary v))].
    pose proof (restore_cursor_ok _ _ _ _ Hp) as Hr. by apply (screen_ok_ext _ _ _ _ _ Hr).
Qed.

Lemma privateMode_quiet final raw v : quiet v -> quiet (privateMode final raw v).
Proof.
  intros Hv. unfold privateMode. destruct (negb _); [done|]. revert v Hv.
  induction (parseTerminalParams raw) as [|p ps IH]; intros v Hv; cbn [fold_left]; [done|].
  by apply IH, alternateMode_quiet.
Qed.

Lemma executeCSI_quiet final raw v : quiet v -> stays_quiet (executeCSI final raw v).
Proof.
  intros Hv. unfold executeCSI. set (private := match raw with [] => 0 | b :: _ => _ end).
  set (raw' := if private =? 0 then raw else drop 1 raw).
  destruct (private =? 63); [|destruct (negb (private =? 0)); [|destruct (negb (csi_plain raw'))]];
    try by apply quiet_some.
  - destruct (one_of "J" final); [|destruct (one_of "K" final)].
    + apply on_current_quiet; [|done]. intros s Hs. by apply eraseDisplay_good.
    + apply on_current_quiet; [|done]. intros s Hs. by apply eraseLine_good.
    + by apply quiet_some, privateMode_quiet.
  - apply on_current_quiet; [|done]. intros s Hs.
    destruct (one_of "HfABCDG`du" final || one_of "r" final); [|by apply csi_final_good, params_nonneg].
    set (s' := s <| pendingWrap := false |> <| joinNext := false |>).
    destruct (csi_final_good strict (v_cols v) (v_rows v) final raw' (parseTerminalParams raw') s')
      as (s'' & E & Hs'' & Hj); [by apply (screen_ok_ext _ _ _ s)|apply params_nonneg|].
    exists s''. auto.
Qed.

Lemma escape_byte_quiet b v : quiet v -> stays_quiet (escape_byte b v).
Proof.
  intros Hv. unfold escape_byte.
  repeat case_match; try (apply quiet_some; exact Hv);
    try (apply quiet_fmap; [apply on_current_quiet; [intros s Hs|exact Hv]|by intros]).
  - apply good_some; [by apply (screen_ok_ext _ _ _ s)|done].
  - apply good_some; [|done]. by apply (screen_ok_ext _ _ _ (restore_cursor (v_cols v) (v_rows v) s)); [apply restore_cursor_ok|..].
  - by apply lineFeed_good.
  - assert (screen_ok strict (v_cols v) (v_rows v) (s <| s_col := 0 |>)) as Hs'.
    { pose proof (cursor_row_ok _ _ _ s Hs). pose proof (cursor_col_ok _ _ _ s Hs).
      apply (move_cursor _ _ _ s); cbn; try done; lia. }
    exact (lineFeed_good _ _ _ _ Hs').
  - by apply reverseIndex_good.
  - apply quiet_some. exact (reset_quiet v (proj1 Hv)).
Qed.

Lemma csi_byte_quiet b v : quiet v -> stays_quiet (csi_byte b v).
Proof.
  intros Hv. unfold csi_byte. repeat case_match; try (apply quiet_some; exact Hv).
  apply quiet_fmap; [by apply executeCSI_quiet|by intros].
Qed.

Lemma string_byte_quiet bell b v : quiet v -> stays_quiet (string_byte bell b v).
Proof. intros Hv. unfold string_byte. destruct_ifs; apply quiet_some; exact Hv. Qed.

(** Only [terminalStringEscape] needs the second unit of fuel. *)
Lemma consumeEscape_fuel_quiet fuel b v :
  (if bool_decide (v_state v = terminalStringEscape) then 2 <= fuel else 1 <= fuel)%nat ->
  quiet v -> stays_quiet (consumeEscape_fuel fuel b v).
Proof.
  revert v. induction fuel as [|fuel IH]; intros v Hfuel Hv.
  { exfalso. destruct (bool_decide _); lia. }
  cbn [consumeEscape_fuel].
  set (v1 := if discarding (v_state v) then v else _).
  assert (quiet v1 /\ v_state v1 = v_state v) as [Hv1 Hst1] by (unfold v1; by destruct (discarding _)).
  set (long := (4096 <? sequenceBytes v1) && _).
  set (v2 := if long then _ else v1).
  assert (quiet v2) as Hv2 by (unfold v2; by destruct long).
  assert (v_state v2 = terminalStringEscape -> v_state v = terminalStringEscape) as Hst2.
  { unfold v2. destruct long; [|by rewrite Hst1]. cbn. unfold overlong. by destruct (v_state v1). }
  clearbody v2. clearbody v1 long.
  destruct (long && bool_decide (v_state v2 = terminalGround)); [by apply quiet_some|].
  destruct (v_state v2) eqn:E; try (apply quiet_some; exact Hv2);
    try (by apply string_byte_quiet); try (destruct_ifs; apply quiet_some; exact Hv2).
  - by apply escape_byte_quiet.
  - by apply csi_byte_quiet.
  - destruct (b =? 92); [by apply quiet_some|]. destruct (b =? 27); [by apply quiet_some|].
    apply IH; [|done]. rewrite bool_decide_eq_true_2 in Hfuel by auto. rewrite bool_decide_eq_false_2 by done. lia.
Qed.

Lemma consumeEscape_quiet b v : quiet v -> stays_quiet (consumeEscape b v).
Proof. apply consumeEscape_fuel_quiet. destruct (bool_decide _); lia. Qed.

(** *** Writing *)

Lemma vt_join v : vt_ok v -> join_ok strict (v_cols v) (current v).
Proof. intros [_ [Hc|(_ & Hj & _)]]; [|done]. intros Hst _ Hj. rewrite (calm_current v Hc Hst) in Hj. done. Qed.

Lemma vt_other v : vt_ok v -> strict = true -> joinNext (if useAlternate v then primary v else alternate v) = false.
Proof. intros [_ [Hc|(_ & _ & Ho)]]; [|done]. intros Hst. destruct (Hc Hst). by destruct (useAlternate v). Qed.

Lemma vt_escape_quiet v : vt_ok v -> v_state v <> terminalGround -> quiet v.
Proof. intros [Hs [Hc|(Hg & _)]] Hst; done. Qed.

Lemma on_current_frame f v v' : on_current f v = Some v' ->
  v_cols v' = v_cols v /\ v_rows v' = v_rows v /\ v_state v' = v_state v /\ utf8Pending v' = utf8Pending v.
Proof.
  unfold on_current. intros (s & _ & [= <-])%bind_Some. unfold set_current. by destruct (useAlternate v).
Qed.

Lemma on_current_ground f v :
  v_state v = terminalGround -> vt_ok v ->
  (exists s', f (v_cols v) (v_rows v) (current v) = Some s' /\ screen_ok strict (v_cols v) (v_rows v) s'
              /\ join_ok strict (v_cols v) s') ->
  exists v', on_current f v = Some v' /\ vt_ok v'.
Proof.
  intros Hg Hv (s' & E & Hs' & Hj). pose proof (vt_other v Hv) as Ho. destruct Hv as [Hs _].
  unfold on_current. rewrite E. eexists. split; [done|]. split; [by apply set_current_ok|].
  right. unfold set_current, current. by destruct (useAlternate v) eqn:Eu; cbn; rewrite ?Eu.
Qed.

Lemma consumeControlOrRune_ok ch v :
  v_state v = terminalGround -> vt_ok v -> exists v', consumeControlOrRune ch v = Some v' /\ vt_ok v'.
Proof.
  intros Hg Hv. unfold consumeControlOrRune. destruct (ch =? 0x1b).
  - pose proof (vt_other v Hv) as Ho. destruct Hv as [Hs _]. cbn [on_current mbind option_bind].
    eexists. split; [done|]. apply quiet_ok. split.
    + apply set_current_ok; [done|]. by apply (screen_ok_ext _ _ _ (current v)); [apply current_ok|..].
    + intros Hst. specialize (Ho Hst). unfold set_current, current. by destruct (useAlternate v).
  - apply on_current_ground; [done..|]. apply control_or_rune_ok, current_ok, Hv.
Qed.

Lemma vt_ok_pending v p : vt_ok v -> vt_ok (v <| utf8Pending := p |>).
Proof. done. Qed.

Lemma write_loop_ok fuel data v :
  (length data <= fuel)%nat -> vt_ok v -> exists v', write_loop fuel data v = Some v' /\ vt_ok v'.
Proof.
  revert data v. induction fuel as [|fuel IH]; intros [|b rest] v Hfuel Hv; cbn [length] in Hfuel; try lia;
    cbn [write_loop]; [by exists v..|].
  destruct (decide (v_state v = terminalGround)) as [Hg|Hg].
  - rewrite bool_decide_eq_true_2 by done. cbn [negb]. destruct (b <? RuneSelf).
    + destruct (consumeControlOrRune_ok b v Hg Hv) as (v1 & -> & Hv1). apply IH; [lia|done].
    + pose proof (DecodeRune_size (b :: rest)) as Hsize. destruct (DecodeRune (b :: rest)) as [r size].
      cbn [snd length] in Hsize. specialize (Hsize ltac:(done)).
      destruct (_ && _ && _); [by eexists|]. destruct (_ && _); [apply IH; [lia|done]|].
      assert (length (drop size (b :: rest)) <= fuel)%nat by (rewrite length_drop; cbn [length]; lia).
      destruct (between 0x80 0x9f r); [by apply IH|].
      edestruct (on_current_ground (fun cols rows => put cols rows r) v Hg Hv) as (v1 & -> & Hv1);
        [apply put_ok; [apply current_ok, Hv|by apply vt_join]|]. by apply IH.
  - rewrite bool_decide_eq_false_2 by done. cbn [negb].
    destruct (consumeEscape_quiet b v (vt_escape_quiet v Hv Hg)) as (v1 & -> & Hv1).
    apply IH; [lia|by apply quiet_ok].
Qed.

Lemma Write_ok data v : vt_ok v -> exists v', Write data v = Some (v', zlen data) /\ vt_ok v'.
Proof.
  intros Hv. unfold Write.
  destruct (write_loop_ok (length (utf8Pending v ++ data)) (utf8Pending v ++ data) (v <| utf8Pending := [] |>))
    as (v' & -> & Hv'); [done|exact Hv|]. by exists v'.
Qed.

Lemma Resize_ok cols rows v :
  exists v', Resize cols rows v = Some v' /\ screens_ok v' /\ (calm v -> calm v').
Proof.
  unfold Resize. set (c := if cols <? 1 then 1 else cols). set (r := if rows <? 1 then 1 else rows).
  assert (1 <= c) as Hc by (unfold c; destruct (Z.ltb_spec cols 1); lia).
  assert (1 <= r) as Hr by (unfold r; destruct (Z.ltb_spec rows 1); lia).
  destruct (resize_screen_ok strict c r (primary v) Hc Hr) as (p & -> & Hp & Hpj).
  destruct (resize_screen_ok strict c r (alternate v) Hc Hr) as (a & -> & Ha & Haj).
  eexists. split; [done|]. split; [done|]. intros Hcalm Hst. cbn. rewrite Hpj, Haj. auto.
Qed.

Lemma New_ok cols rows : vt_ok (NewVirtualTerminal cols rows).
Proof.
  unfold NewVirtualTerminal. set (c := if cols <? 1 then 1 else cols). set (r := if rows <? 1 then 1 else rows).
  assert (1 <= c) as Hc by (unfold c; destruct (Z.ltb_spec cols 1); lia).
  assert (1 <= r) as Hr by (unfold r; destruct (Z.ltb_spec rows 1); lia).
  apply quiet_ok. split; [|done]. split; by apply newScreen_ok.
Qed.
End Whole.

(** ** A terminal's life *)

Inductive input : Type :=
| Bytes (data : list Z)
| Size (cols rows : Z).

Definition feed (i : input) (v : VirtualTerminal) : option VirtualTerminal :=
  match i with
  | Bytes data => fst <$> Write data v
  | Size cols rows => Resize cols rows v
  end.

Fixpoint feeds (is_ : list input) (v : VirtualTerminal) : option VirtualTerminal :=
  match is_ with
  | [] => Some v
  | i :: is_ => v ← feed i v; feeds is_ v
  end.

(** No resize arrives between a zero-width joiner and the character it joins. *)
Fixpoint resized_calmly (is_ : list input) (v : VirtualTerminal) : Prop :=
  match is_ with
  | [] => True
  | i :: is_ =>
      match i with Size _ _ => calm true v | Bytes _ => True end
      /\ match feed i v with Some v' => resized_calmly is_ v' | None => True end
  end.

Lemma feed_ok strict i v :
  vt_ok strict v -> (strict = true -> match i with Size _ _ => calm true v | Bytes _ => True end) ->
  exists v', feed i v = Some v' /\ vt_ok strict v'.
Proof.
  intros Hv Hcalm. destruct i as [data|cols rows]; cbn [feed].
  - destruct (Write_ok strict data v Hv) as (v' & -> & Hv'). by exists v'.
  - destruct (Resize_ok strict cols rows v) as (v' & -> & Hs & Hc). exists v'. split; [done|].
    apply quiet_ok. split; [done|]. destruct strict; [by apply Hc, Hcalm|done].
Qed.

Lemma feeds_ok strict is_ v :
  vt_ok strict v -> (strict = true -> resized_calmly is_ v) -> exists v', feeds is_ v = Some v' /\ vt_ok strict v'.
Proof.
  revert v. induction is_ as [|i is_ IH]; intros v Hv Hcalm; cbn [feeds]; [by exists v|].
  destruct (feed_ok strict i v Hv) as (v1 & E & Hv1); [intros Hst; by destruct (Hcalm Hst)|].
  rewrite E. apply IH; [done|]. intros Hst. destruct (Hcalm Hst) as [_ Hrest]. by rewrite E in Hrest.
Qed.

Lemma Cells_ok strict row v :
  screens_ok strict v -> exists out, Cells row v = Some out /\ (0 <= row < v_rows v -> zlen out = v_cols v).
Proof.
  intros Hs. pose proof (current_ok strict v Hs) as [Hg _]. unfold Cells.
  destruct (Z.ltb_spec row 0), (Z.leb_spec (v_rows v) row); cbn [orb]; try (eexists; split; [done|lia]).
  pose proof (row_at_ok _ _ _ _ row Hg ltac:(lia)) as [Hlen _]. destruct Hg as [Hrows _].
  rewrite (zlookup_at []) by lia. cbn [mbind option_bind]. rewrite (proj2 (Z.ltb_ge _ _)) by lia.
  eexists. split; [done|]. intros _. rewrite length_app, length_fmap, length_replicate. lia.
Qed.

Lemma screenRows_ok strict omit v :
  screens_ok strict v -> exists out, screenRows omit v = Some out /\ zlen out = v_rows v.
Proof.
  intros Hs. pose proof (current_ok strict v Hs) as [[Hrows _] _]. unfold screenRows.
  rewrite (proj2 (Z.ltb_ge _ _)) by lia. eexists. split; [done|].
  rewrite length_app, length_fmap, length_replicate. lia.
Qed.

(** ** Chunks *)

Lemma set_current_pending s v : utf8Pending (set_current s v) = utf8Pending v.
Proof. unfold set_current. by destruct (useAlternate v). Qed.

(** The operations that consume a byte leave the pending bytes alone. *)
Definition keeps_pending (v : VirtualTerminal) (o : option VirtualTerminal) : Prop :=
  forall v', o = Some v' -> utf8Pending v' = utf8Pending v.

Lemma keeps_some v v' : utf8Pending v' = utf8Pending v -> keeps_pending v (Some v').
Proof. by intros E ? [= <-]. Qed.

Lemma keeps_fmap v f o :
  keeps_pending v o -> (forall v', utf8Pending (f v') = utf8Pending v') -> keeps_pending v (f <$> o).
Proof. intros Ho Hf v' (v1 & -> & ->)%fmap_Some. rewrite Hf. by apply Ho. Qed.

Lemma keeps_on_current f v : keeps_pending v (on_current f v).
Proof. intros v' E. apply on_current_frame in E. tauto. Qed.

Lemma alternateMode_pending enable p v : utf8Pending (alternateMode enable p v) = utf8Pending v.
Proof. unfold alternateMode. by repeat case_match. Qed.

Lemma privateMode_pending final raw v : utf8Pending (privateMode final raw v) = utf8Pending v.
Proof.
  unfold privateMode. destruct (negb _); [done|]. revert v.
  induction (parseTerminalParams raw) as [|p ps IH]; intros v; cbn [fold_left]; [done|].
  by rewrite IH, alternateMode_pending.
Qed.

Lemma executeCSI_pending final raw v : keeps_pending v (executeCSI final raw v).
Proof.
  unfold executeCSI. destruct_ifs; first [apply keeps_on_current | apply keeps_some; try done].
  all: apply privateMode_pending.
Qed.

Lemma escape_byte_pending b v : keeps_pending v (escape_byte b v).
Proof.
  unfold escape_byte. destruct_ifs; first [by apply keeps_some | by apply keeps_fmap; [apply keeps_on_current|]].
Qed.

Lemma csi_byte_pending b v : keeps_pending v (csi_byte b v).
Proof.
  unfold csi_byte. destruct_ifs; first [by apply keeps_some | by apply keeps_fmap; [apply executeCSI_pending|]].
Qed.

Lemma string_byte_pending bell b v : keeps_pending v (string_byte bell b v).
Proof. unfold string_byte. destruct_ifs; by apply keeps_some. Qed.

Lemma consumeEscape_pending b v : keeps_pending v (consumeEscape b v).
Proof.
  unfold consumeEscape. generalize 2%nat as fuel. intros fuel. revert v. induction fuel as [|fuel IH]; intros v; [done|].
  cbn [consumeEscape_fuel].
  set (v1 := if discarding (v_state v) then v else _). set (long := (4096 <? sequenceBytes v1) && _).
  set (v2 := if long then _ else v1).
  assert (utf8Pending v2 = utf8Pending v) as E by (unfold v2, v1; by destruct long, (discarding _)).
  enough (forall o, keeps_pending v2 o -> keeps_pending v o) as Hkeep.
  { apply Hkeep. clearbody v2. destruct (long && _); [by apply keeps_some|].
    destruct (v_state v2); try (by apply keeps_some); try apply string_byte_pending;
      try (destruct_ifs; by apply keeps_some).
    - apply escape_byte_pending.
    - apply csi_byte_pending.
    - destruct_ifs; try by apply keeps_some. intros v' Hv'. exact (IH _ _ Hv'). }
  intros o Ho v' Hv'. rewrite (Ho _ Hv'). done.
Qed.

Lemma consumeControlOrRune_pending ch v : keeps_pending v (consumeControlOrRune ch v).
Proof.
  unfold consumeControlOrRune. destruct (ch =? 0x1b); [|apply keeps_on_current].
  intros v' (v1 & E & [= <-])%bind_Some. by apply keeps_on_current in E.
Qed.

Lemma vt_pending_id v : utf8Pending v = [] -> v <| utf8Pending := [] |> = v.
Proof. destruct v. cbn. by intros ->. Qed.

(** Any fuel of at least the length of the data is enough. *)
Lemma write_loop_fuel f f' data v :
  (length data <= f)%nat -> (length data <= f')%nat -> write_loop f data v = write_loop f' data v.
Proof.
  revert f' data v. induction f as [|f IH]; intros [|f'] [|b rest] v Hf Hf'; cbn [length] in Hf, Hf'; try lia; try done.
  cbn [write_loop].
  destruct (negb _); [destruct (consumeEscape b v); [apply IH; lia|done]|].
  destruct (b <? RuneSelf); [destruct (consumeControlOrRune b v); [apply IH; lia|done]|].
  pose proof (DecodeRune_size (b :: rest)) as Hsize. destruct (DecodeRune (b :: rest)) as [r size].
  cbn [snd length] in Hsize. specialize (Hsize ltac:(done)).
  assert (length (drop size (b :: rest)) <= f /\ length (drop size (b :: rest)) <= f')%nat as [? ?]
    by (rewrite length_drop; cbn [length]; lia).
  destruct (_ && _ && _); [done|]. destruct (_ && _); [apply IH; lia|].
  destruct (between 0x80 0x9f r); [by apply IH|].
  destruct (on_current _ v); [by apply IH|done].
Qed.

(** The loop with fuel enough. *)
Definition consume (data : list Z) (v : VirtualTerminal) : option VirtualTerminal := write_loop (length data) data v.

Lemma consume_cons b rest v :
  consume (b :: rest) v =
    if negb (bool_decide (v_state v = terminalGround)) then v ← consumeEscape b v; consume rest v
    else if b <? RuneSelf then v ← consumeControlOrRune b v; consume rest v
    else
      let '(r, size) := DecodeRune (b :: rest) in
      if (r =? RuneError) && (size =? 1)%nat && negb (FullRune (b :: rest)) then Some (v <| utf8Pending := b :: rest |>)
      else if (r =? RuneError) && (size =? 1)%nat then consume rest v
      else if between 0x80 0x9f r then consume (drop size (b :: rest)) v
      else v ← on_current (fun cols rows => put cols rows r) v; consume (drop size (b :: rest)) v.
Proof.
  unfold consume. cbn [length write_loop].
  pose proof (DecodeRune_size (b :: rest)) as Hsize. destruct (DecodeRune (b :: rest)) as [r size].
  cbn [snd length] in Hsize. specialize (Hsize ltac:(done)).
  assert (length (drop size (b :: rest)) <= length rest)%nat by (rewrite length_drop; cbn [length]; lia).
  destruct_ifs; try done; try (by apply write_loop_fuel).
  destruct (on_current _ v); [by apply write_loop_fuel|done].
Qed.

Lemma consume_incomplete x a v :
  bool_decide (v_state v = terminalGround) && negb (x <? RuneSelf) && negb (FullRune (x :: a)) = true ->
  consume (x :: a) v = Some (v <| utf8Pending := x :: a |>).
Proof.
  intros [[Hst Hx]%andb_true_iff Hf]%andb_true_iff. rewrite consume_cons, Hst. cbn [negb].
  apply negb_true_iff in Hx, Hf. by rewrite Hx, (DecodeRune_incomplete (x :: a)), Hf.
Qed.

(** The bytes of [a], and then those left pending and those of [b]. *)
Lemma consume_app a b v :
  utf8Pending v = [] ->
  consume (a ++ b) v = (v1 ← consume a v; consume (utf8Pending v1 ++ b) (v1 <| utf8Pending := [] |>)).
Proof.
  revert v. induction a as [a IH] using (induction_ltof1 _ (@length Z)). unfold ltof in IH. intros v Hp.
  destruct a as [|x a].
  { cbn [app consume length write_loop mbind option_bind]. by rewrite Hp, vt_pending_id. }
  destruct (bool_decide (v_state v = terminalGround) && negb (x <? RuneSelf) && negb (FullRune (x :: a))) eqn:Hinc.
  { rewrite consume_incomplete by done. cbn [mbind option_bind]. f_equal. symmetry. exact (vt_pending_id v Hp). }
  cbn [app]. rewrite !consume_cons.
  assert (forall o a', keeps_pending v o -> (length a' < length (x :: a))%nat ->
    (v1 ← o; consume (a' ++ b) v1)
    = (v1 ← (v1 ← o; consume a' v1); consume (utf8Pending v1 ++ b) (v1 <| utf8Pending := [] |>))) as Hstep.
  { intros [v1|] a' Ho Ha'; [|done]. cbn [mbind option_bind]. apply IH; [done|]. by rewrite Ho. }
  destruct (bool_decide _) eqn:Hst; cbn [negb]; [|apply Hstep; [apply consumeEscape_pending|cbn; lia]].
  destruct (x <? RuneSelf) eqn:Hx; [apply Hstep; [apply consumeControlOrRune_pending|cbn; lia]|].
  change (x :: a ++ b) with ((x :: a) ++ b).
  destruct (FullRune (x :: a)) eqn:Hfull.
  - rewrite DecodeRune_app, FullRune_app by done. pose proof (DecodeRune_size (x :: a)) as Hsize.
    destruct (DecodeRune (x :: a)) as [r size]. cbn [snd] in Hsize. specialize (Hsize ltac:(done)).
    rewrite !andb_false_r. rewrite drop_app_le by lia.
    assert (length (drop size (x :: a)) < length (x :: a))%nat by (rewrite length_drop; lia).
    destruct ((r =? RuneError) && _); [apply IH; [cbn; lia|done]|]. destruct (between 0x80 0x9f r); [by apply IH|].
    apply Hstep; [apply keeps_on_current|done].
  - done.
Qed.

(** C36. Whatever bytes and sizes a terminal is fed, no operation indexes out of
    range and every recursion stays within its fuel; the cursor stays on the
    screen, and [Screen], [TextRows] and [Cells] answer exactly one entry per row
    and per column. *)
Theorem terminal_never_panics (cols rows : Z) (inputs : list input) :
  exists v, feeds inputs (NewVirtualTerminal cols rows) = Some v
    /\ 0 <= (CursorPos v).1 < v_rows v /\ 0 <= (CursorPos v).2 < v_cols v
    /\ (exists out, Screen v = Some out /\ zlen out = v_rows v)
    /\ (exists out, TextRows v = Some out /\ zlen out = v_rows v)
    /\ forall row, exists out, Cells row v = Some out /\ (0 <= row < v_rows v -> zlen out = v_cols v).
Proof.
  destruct (feeds_ok false inputs _ (New_ok false cols rows)) as (v & -> & [Hs _]); [done|].
  exists v. split; [done|]. pose proof (current_ok false v Hs) as Hcur.
  split; [apply Hcur|]. split; [apply Hcur|].
  split; [by apply (screenRows_ok false)|]. split; [by apply (screenRows_ok false)|].
  intros row. by apply (Cells_ok false).
Qed.

(** On both screens of a terminal of at least two columns a continuation cell
    stands exactly behind each wide character, whatever bytes arrive and however
    the terminal is resized, as long as no resize comes between a zero-width
    joiner and the character it joins. *)
Theorem wide_cells_paired (cols rows : Z) (inputs : list input) :
  resized_calmly inputs (NewVirtualTerminal cols rows) ->
  exists v, feeds inputs (NewVirtualTerminal cols rows) = Some v
    /\ (2 <= v_cols v -> forall r, r ∈ cells (primary v) ++ cells (alternate v) -> row_paired r).
Proof.
  intros Hcalm. destruct (feeds_ok true inputs _ (New_ok true cols rows)) as (v & -> & [[Hp Ha] _]); [done|].
  exists v. split; [done|]. intros Hc r [Hr|Hr]%elem_of_app.
  - by apply Hp.
  - by apply Ha.
Qed.

(** C37. The terminal does not see how its input was cut: writing two chunks is
    writing their concatenation, even in the middle of a character or of an
    escape sequence, and the counts add up. *)
Theorem Write_chunks (a b : list Z) (v : VirtualTerminal) :
  Write (a ++ b) v = ('(v1, n1) ← Write a v; '(v2, n2) ← Write b v1; Some (v2, n1 + n2)).
Proof.
  unfold Write. rewrite app_assoc. fold (consume (utf8Pending v ++ a) (v <| utf8Pending := [] |>)).
  fold (consume ((utf8Pending v ++ a) ++ b) (v <| utf8Pending := [] |>)).
  rewrite consume_app by done. destruct (consume (utf8Pending v ++ a) _) as [v1|]; [|done]. cbn [mbind option_bind].
  fold (consume (utf8Pending v1 ++ b) (v1 <| utf8Pending := [] |>)).
  destruct (consume (utf8Pending v1 ++ b) _) as [v2|]; [|done]. cbn [mbind option_bind].
  rewrite length_app. do 2 f_equal. lia.
Qed.

(** A parameter of a control sequence is the decimal value of its digits, cut
    at 65535: no digit string overflows. *)
Theorem terminal_params_saturate (fields : list (list Z)) (raw : list Z) :
  split_on (Z.eqb 59) raw ≫= split_on (Z.eqb 58) = fields ->
  Forall (fun f => forallb is_digit f = true) fields ->
  parseTerminalParams raw = (fun f => Z.min 65535 (decimal 0 f)) <$> fields.
Proof.
  intros Hsplit Hd. unfold parseTerminalParams. rewrite Hsplit. apply list_fmap_ext.
  intros i f Hf. apply param_value_decimal; [lia|]. by apply (Forall_lookup_1 _ _ _ _ Hd Hf).
Qed.

(** A private erase ([CSI ? n J]) with a single digit always erases with mode 0:
    [executeCSI] has already removed the question mark that [privateEraseMode]
    removes again. *)
Lemma privateEraseMode_single_digit (d : Z) : privateEraseMode [d] = 0.
Proof. done. Qed.
End Terminal.

(** ** Concrete terminals *)

(** Tables without combining marks. *)
Definition plain_tables : UnicodeTables :=
  {| isMn := fun _ => false; isMe := fun _ => false; isCf := fun _ => false; fold := fun s => s |}.

(** Two wide characters, a joiner and a narrow terminal: a resize, a cursor
    movement, a scroll. *)
Definition example_inputs : list input :=
  [Bytes (bytes "ab" ++ [0xE3; 0x81]); Bytes ([0x82] ++ bytes "c"); Size 3 2; Bytes ([27] ++ bytes "[1;3H" ++ [0xE3; 0x81; 0x82])].

Lemma wide_cells_paired_witness :
  resized_calmly (H := plain_tables) example_inputs (NewVirtualTerminal 10 2)
  /\ exists v, feeds (H := plain_tables) example_inputs (NewVirtualTerminal 10 2) = Some v
    /\ (2 <= v_cols v -> forall r, r ∈ cells (primary v) ++ cells (alternate v) -> row_paired (H := plain_tables) r).
Proof.
  assert (resized_calmly (H := plain_tables) example_inputs (NewVirtualTerminal 10 2)) as Hcalm.
  { vm_compute. repeat split. }
  split; [exact Hcalm|]. exact (wide_cells_paired (H := plain_tables) 10 2 example_inputs Hcalm).
Defined.

Lemma terminal_params_saturate_witness :
  parseTerminalParams (bytes "12;;99999:007") = [12; 0; 65535; 7].
Proof.
  exact (terminal_params_saturate [bytes "12"; []; bytes "99999"; bytes "007"] (bytes "12;;99999:007") eq_refl
           ltac:(repeat constructor)).
Defined.

(** The condition on resizes is needed: after a joiner, a resize moves the cursor
    behind a blank cell and the next wide character is joined to that blank,
    without a continuation cell. *)
Definition broken_inputs : list input :=
  [Bytes ([27] ++ bytes "[1;6Hx" ++ [0xE2; 0x80; 0x8D]); Size 4 1; Bytes [0xE3; 0x81; 0x82]].

Theorem resize_breaks_pairing :
  exists v r, feeds (H := plain_tables) broken_inputs (NewVirtualTerminal 10 1) = Some v
    /\ v_cols v = 4 /\ cells (primary v) = [r] /\ ~ row_paired (H := plain_tables) r.
Proof.
  do 2 eexists. split; [vm_compute; reflexivity|]. split; [reflexivity|]. split; [reflexivity|].
  intros Hp. specialize (Hp 2). vm_compute in Hp. discriminate Hp.
Qed.
