(* ===== verification/PushPolicy.v ===== *)
(** * The push policy ([internal/supervisor/gitops/pushpolicy.go])

    Whether the commits of a supervised session may be pushed: checks on the branch,
    the allow-list, the URLs, the configuration, the remote head and the commits, made
    in stages so that nothing is asked of a remote before the local checks have passed;
    and the one command line that a push may have. *)

From S2P Require Import Prelude.
From S2P Require Import GoStrings.
From S2P Require Import UTF8.
From S2P Require Import Errors.

(** ** Data *)

Record PushAllowlistEntry : Type := mkEntry { al_Remote : string; al_URL : string; al_Branch : string }.

#[export] Instance PushAllowlistEntry_eq_dec : EqDecision PushAllowlistEntry.
Proof. solve_decision. Defined.

Record PushInput : Type := mkPushInput {
  LocalGitError : option error;
  RemoteHeadLocalError : option error;
  CommitListError : option error;
  FetchURLs : list string;
  PushURLs : list string;
  ReceivepackConfigured : bool;
  RemoteHelperConfigured : bool;
  CurrentRef : string;
  ProtectedBranches : list string;
  Allowlist : list PushAllowlistEntry;
  RemoteHeadSHA : string;
  RemoteHeadLocal : bool;
  RemoteHeadUnavailable : bool;
  CommitSHAs : list string;
  SupervisorCommitSHAs : list string;
  HeadSHA : string;
  PreviousFailedHead : string;
  GitConfigChanged : bool;
  GitConfigInclude : bool }.

#[export] Instance PushInput_settable : Settable PushInput := fun p =>
  mkPushInput (LocalGitError p) (RemoteHeadLocalError p) (CommitListError p) (FetchURLs p) (PushURLs p)
    (ReceivepackConfigured p) (RemoteHelperConfigured p) (CurrentRef p) (ProtectedBranches p) (Allowlist p)
    (RemoteHeadSHA p) (RemoteHeadLocal p) (RemoteHeadUnavailable p) (CommitSHAs p) (SupervisorCommitSHAs p)
    (HeadSHA p) (PreviousFailedHead p) (GitConfigChanged p) (GitConfigInclude p).

Record PushDecision : Type := mkPushDecision {
  d_Allowed : bool;
  d_ReadyForRemote : bool;
  d_ReadyForCommits : bool;
  d_Reason : string;
  d_Remote : string;
  d_Branch : string;
  d_Noop : bool;
  d_NoPushes : bool;
  d_Suppressed : bool }.

#[export] Instance PushDecision_settable : Settable PushDecision := fun d =>
  mkPushDecision (d_Allowed d) (d_ReadyForRemote d) (d_ReadyForCommits d) (d_Reason d) (d_Remote d) (d_Branch d)
    (d_Noop d) (d_NoPushes d) (d_Suppressed d).

Definition no_decision : PushDecision := mkPushDecision false false false "" "" "" false false false.
Definition no_entry : PushAllowlistEntry := mkEntry "" "" "".

(** ** Names *)

(** [^[0-9a-f]{40}$] *)
Definition shaPattern (s : string) : bool := (String.length s =? 40)%nat && str_forall is_lower_hex s.

(** [^[A-Za-z0-9._-]+$] *)
Definition remotePattern (s : string) : bool :=
  negb (s =? "")%string
  && str_forall (fun c => is_lower c || is_upper c || is_digit c || existsb (Ascii.eqb c) (chars "._-")) s.

Definition ref_part (part : string) : bool :=
  negb ((part =? "")%string || HasPrefix part "." || HasSuffix part ".lock").

Definition NUL : string := String "000" EmptyString.

Definition validRefName (s : string) : bool :=
  if (s =? "")%string || HasPrefix s "-" || HasPrefix s "." || HasSuffix s "." || HasSuffix s ".lock" || Contains s ".."
     || Contains s "//"
     || ContainsAny s (" ~^:?*[\" +:+ NUL +:+ String "013" (String "010" EmptyString)) || Contains s "@{" || (s =? "@")%string
  then false
  else forallb ref_part (Split s "/") && forallb (fun r => negb ((r <? 0x20) || (r =? 0x7f))) (runes s).

Definition validRemote (s : string) : bool :=
  remotePattern s && negb (s =? ".")%string && negb (s =? "..")%string && negb (HasPrefix s "-").

(** ** The allow-list *)

Definition url_matches (fetchURLs pushURLs : list string) (e : PushAllowlistEntry) : bool :=
  match fetchURLs, pushURLs with
  | [f], [p] => (f =? al_URL e)%string && (p =? al_URL e)%string
  | _, _ => false
  end.

(** The loop's [candidate], [found], [count] and [matches]. *)
Record resolving : Type := mkResolving {
  rv_candidate : PushAllowlistEntry; rv_found : PushAllowlistEntry; rv_count : Z; rv_matches : Z }.

Definition resolve_entry (branch : string) (fetchURLs pushURLs : list string) (r : resolving) (e : PushAllowlistEntry) : resolving :=
  if negb (al_Branch e =? branch)%string then r
  else if url_matches fetchURLs pushURLs e
  then mkResolving e e (rv_count r + 1) (rv_matches r + 1)
  else mkResolving e (rv_found r) (rv_count r + 1) (rv_matches r).

Definition ResolveAllowlistEntry (entries : list PushAllowlistEntry) (branch : string) (fetchURLs pushURLs : list string)
    : PushAllowlistEntry * bool :=
  let r := fold_left (resolve_entry branch fetchURLs pushURLs) entries (mkResolving no_entry no_entry 0 0) in
  if rv_matches r =? 1 then (rv_found r, true)
  else if 1 <? rv_matches r then (no_entry, false)
  else if rv_count r =? 1 then (rv_candidate r, true)
  else if 1 <? rv_count r then (rv_candidate r, true)
  else (no_entry, false).

(** ** The stages *)

Definition localGitFailureReason (err : error) : string :=
  if errors_Is err ErrGitOutputTooLarge then "git_output_too_large" else "git_failed".

Definition deny (reason : string) (d : PushDecision) : PushDecision := d <| d_Reason := reason |>.

(** The remote that all entries of the branch name; [None]: they differ. *)
Fixpoint branch_remote (branch remote : string) (entries : list PushAllowlistEntry) : option string :=
  match entries with
  | [] => Some remote
  | e :: entries =>
      if negb (al_Branch e =? branch)%string then branch_remote branch remote entries
      else if negb (remote =? "")%string && negb (remote =? al_Remote e)%string then None
      else branch_remote branch (al_Remote e) entries
  end.

Definition always_protected : list string := ["main"; "master"; "develop"]%string.

Definition EvaluateBeforeURLs (p : PushInput) : PushDecision :=
  let d := no_decision in
  match Allowlist p with
  | [] => d <| d_Noop := true |>
  | _ =>
      match LocalGitError p with
      | Some err => deny (localGitFailureReason err) d
      | None =>
          if (CurrentRef p =? "")%string || negb (HasPrefix (CurrentRef p) "refs/heads/") then deny "detached_head" d
          else
            let branch := TrimPrefix (CurrentRef p) "refs/heads/" in
            let d := d <| d_Branch := branch |> in
            if negb (validRefName branch) || HasPrefix branch "refs/" || (branch =? "HEAD")%string then deny "argv_not_allowed" d
            else if existsb (fun b => ("refs/heads/" +:+ b =? CurrentRef p)%string) (always_protected ++ ProtectedBranches p)
            then deny "protected_branch" d
            else
              match branch_remote branch "" (Allowlist p) with
              | None => deny "not_in_allowlist" d
              | Some remote =>
                  if (remote =? "")%string then deny "not_in_allowlist" d
                  else if negb (validRemote remote) then deny "argv_not_allowed" d
                  else d <| d_Remote := remote |>
              end
      end
  end.

Definition EvaluateLocal (p : PushInput) : PushDecision :=
  let d := EvaluateBeforeURLs p in
  if d_Noop d || negb (d_Reason d =? "")%string then d
  else
    let '(match_, ok) := ResolveAllowlistEntry (Allowlist p) (d_Branch d) (FetchURLs p) (PushURLs p) in
    if negb ok || negb (al_Remote match_ =? d_Remote d)%string then deny "not_in_allowlist" d
    else
      match FetchURLs p, PushURLs p with
      | [f], [u] =>
          if negb (f =? al_URL match_)%string || negb (u =? al_URL match_)%string then deny "url_mismatch" d
          else if ReceivepackConfigured p then deny "receivepack_configured" d
          else if RemoteHelperConfigured p then deny "remote_helper_configured" d
          else if GitConfigInclude p then deny "git_config_include" d
          else if GitConfigChanged p then deny "git_config_changed" d
          else d <| d_ReadyForRemote := true |>
      | _, _ => deny "multiple_urls" d
      end.

Definition EvaluateRemote (p : PushInput) (local : PushDecision) : PushDecision :=
  if negb (d_ReadyForRemote local) || negb (d_Reason local =? "")%string then local
  else
    let local := local <| d_ReadyForRemote := false |> in
    if RemoteHeadUnavailable p then deny "remote_head_unavailable" local
    else if (RemoteHeadSHA p =? "")%string then deny "no_tracking_ref" local
    else if negb (shaPattern (RemoteHeadSHA p)) then deny "remote_head_unavailable" local
    else match RemoteHeadLocalError p with
         | Some err => deny (localGitFailureReason err) local
         | None =>
             if negb (RemoteHeadLocal p) then deny "remote_head_not_local" local
             else local <| d_ReadyForCommits := true |>
         end.

Definition EvaluateCommits (p : PushInput) (remote : PushDecision) : PushDecision :=
  if negb (d_ReadyForCommits remote) || negb (d_Reason remote =? "")%string then remote
  else
    let remote := remote <| d_ReadyForCommits := false |> in
    match CommitListError p with
    | Some err => deny (localGitFailureReason err) remote
    | None =>
        if negb (shaPattern (HeadSHA p)) then deny "foreign_commits" remote
        else if negb (forallb shaPattern (SupervisorCommitSHAs p)) then deny "foreign_commits" remote
        else
          let set : gset string := list_to_set (SupervisorCommitSHAs p) in
          if negb (forallb (fun sha => shaPattern sha && bool_decide (sha ∈ set)) (CommitSHAs p)) then deny "foreign_commits" remote
          else match CommitSHAs p with
               | [] => remote <| d_NoPushes := true |>
               | _ =>
                   if negb (bool_decide (HeadSHA p ∈ set)) || negb (bool_decide (list.last (SupervisorCommitSHAs p) = Some (HeadSHA p)))
                   then deny "foreign_commits" remote
                   else if (HeadSHA p =? PreviousFailedHead p)%string then remote <| d_Suppressed := true |>
                   else remote <| d_Allowed := true |>
               end
    end.

Definition Evaluate (p : PushInput) : PushDecision :=
  let d := EvaluateLocal p in
  if negb (d_ReadyForRemote d) then d
  else
    let d := EvaluateRemote p d in
    if negb (d_ReadyForCommits d) then d else EvaluateCommits p d.

(** ** The command line *)

(** [strings.Fields(SupervisorGitHardeningArgs)] *)
Definition hardeningArgs : list string :=
  ["-c"; "core.hooksPath=/dev/null"; "-c"; "core.fsmonitor=false"; "-c"; "core.sshCommand="; "-c"; "push.recurseSubmodules=no";
   "-c"; "push.pushOption="; "-c"; "protocol.ext.allow=never"; "-c"; "commit.gpgsign=false"; "-c"; "push.gpgSign=false";
   "-c"; "core.excludesFile=/dev/null"; "-c"; "core.attributesFile=/dev/null"; "-c"; "core.gitProxy="; "-c"; "http.proxy=";
   "-c"; "credential.helper="]%string.

Definition BuildPushArgv (remote branch inspectedSHA : string) : list string :=
  hardeningArgs
  ++ ["-c"; "remote." +:+ remote +:+ ".proxy="; "-c"; "push.followTags=false"; "push"; "--no-verify"; "--recurse-submodules=no";
      "--"; remote; inspectedSHA +:+ ":refs/heads/" +:+ branch]%string.

Definition ValidatePushArgv (argv : list string) (remote branch inspectedSHA : string) : option error :=
  let refused := Some (Sentinel ErrPushArgvNotAllowed) in
  if negb (shaPattern inspectedSHA) then refused
  else
    match argv with
    | git :: _ :: _ =>
        if negb (IsAbs git) || negb (Clean git =? git)%string || HasPrefix branch "refs/" || (branch =? "HEAD")%string then refused
        else if negb (validRemote remote) || negb (validRefName branch) then refused
        else if negb (bool_decide (argv = git :: BuildPushArgv remote branch inspectedSHA)) then refused
        else None
    | _ => refused
    end.

(** ** When a push is allowed, stated on the data *)

Definition branch_entries (branch : string) (entries : list PushAllowlistEntry) : list PushAllowlistEntry :=
  List.filter (fun e => (al_Branch e =? branch)%string) entries.

(** The push of [p] to [branch] of [remote] is covered by an entry of the allow-list. *)
Record listed (p : PushInput) (remote branch : string) : Prop := mkListed {
  ls_ref : CurrentRef p = "refs/heads/" +:+ branch;
  ls_branch : validRefName branch = true /\ HasPrefix branch "refs/" = false /\ branch <> "HEAD"%string;
  ls_unprotected : branch ∉ always_protected ++ ProtectedBranches p;
  ls_remote : validRemote remote = true;
  (** all entries of the branch that name a remote name this one *)
  ls_one_remote : exists k n, map al_Remote (branch_entries branch (Allowlist p)) = replicate k ""%string ++ replicate (S n) remote;
  (** exactly one of them has the one URL that git fetches from and pushes to *)
  ls_url : exists url e, FetchURLs p = [url] /\ PushURLs p = [url]
    /\ List.filter (fun e => (al_URL e =? url)%string) (branch_entries branch (Allowlist p)) = [e] /\ al_Remote e = remote }.

Record may_push (p : PushInput) (remote branch : string) : Prop := mkMayPush {
  mp_listed : listed p remote branch;
  mp_git : LocalGitError p = None /\ RemoteHeadLocalError p = None /\ CommitListError p = None;
  mp_config : ReceivepackConfigured p = false /\ RemoteHelperConfigured p = false
    /\ GitConfigInclude p = false /\ GitConfigChanged p = false;
  mp_head : RemoteHeadUnavailable p = false /\ RemoteHeadLocal p = true /\ shaPattern (RemoteHeadSHA p) = true;
  (** every commit to push is the supervisor's, and HEAD is its latest *)
  mp_commits : CommitSHAs p <> [] /\ (forall sha, sha ∈ CommitSHAs p -> sha ∈ SupervisorCommitSHAs p)
    /\ Forall (fun sha => shaPattern sha = true) (SupervisorCommitSHAs p) /\ list.last (SupervisorCommitSHAs p) = Some (HeadSHA p);
  mp_fresh : HeadSHA p <> PreviousFailedHead p }.

(** ** Lemmas *)

Lemma branch_remote_spec branch r entries r' :
  r <> ""%string ->
  branch_remote branch r entries = Some r' <->
  r' = r /\ map al_Remote (branch_entries branch entries) = replicate (length (branch_entries branch entries)) r.
Proof.
  intros Hr. unfold branch_entries. induction entries as [|e entries IH]; cbn [branch_remote List.filter]; [split; [by intros [= ->]|by intros [-> _]]|].
  destruct (al_Branch e =? branch)%string; cbn [negb]; [|done].
  rewrite (proj2 (String.eqb_neq r "") Hr). cbn [negb andb map length replicate].
  destruct (String.eqb_spec r (al_Remote e)) as [E|E]; cbn [negb]; [rewrite <- E, IH|split; [done|intros [_ [= E' _]]; by subst]].
  split; [intros [-> ->]; done|intros [-> [= E']]; done].
Qed.

Lemma branch_remote_first branch entries remote :
  remote <> ""%string ->
  branch_remote branch "" entries = Some remote <->
  exists k n, map al_Remote (branch_entries branch entries) = replicate k ""%string ++ replicate (S n) remote.
Proof.
  intros Hr. unfold branch_entries. induction entries as [|e entries IH]; cbn [branch_remote List.filter].
  { split; [by intros [= E]|]. intros (k & n & E). by destruct k. }
  destruct (al_Branch e =? branch)%string eqn:Eb; cbn [negb andb String.eqb map]; [|done].
  destruct (decide (al_Remote e = ""%string)) as [E|E].
  - rewrite E, IH. split.
    + intros (k & n & H). exists (S k), n. cbn. by rewrite H.
    + intros ([|k] & n & H); cbn in H; [by injection H as <-|]. injection H as H. by exists k, n.
  - rewrite branch_remote_spec by done. unfold branch_entries. split.
    + intros [<- H]. eexists 0%nat, _. cbn. by rewrite H.
    + intros ([|k] & n & H); cbn in H; injection H as H1 H2; [|by destruct E].
      split; [done|]. rewrite H1, H2. f_equal. apply (f_equal length) in H2. by rewrite length_map, length_replicate in H2.
Qed.

Lemma resolve_spec branch fetch push entries r :
  let r' := fold_left (resolve_entry branch fetch push) entries r in
  let matching := List.filter (url_matches fetch push) (branch_entries branch entries) in
  rv_matches r' = rv_matches r + Z.of_nat (length matching)
  /\ rv_found r' = default (rv_found r) (list.last matching)
  /\ rv_count r' = rv_count r + Z.of_nat (length (branch_entries branch entries))
  /\ rv_candidate r' = default (rv_candidate r) (list.last (branch_entries branch entries)).
Proof.
  unfold branch_entries. induction entries as [|e entries IH] in r |- *; cbn [fold_left List.filter].
  { cbn. split_and!; lia || done. }
  specialize (IH (resolve_entry branch fetch push r e)). cbn zeta in IH |- *.
  destruct IH as (H1 & H2 & H3 & H4). rewrite H1, H2, H3, H4. unfold resolve_entry.
  destruct (al_Branch e =? branch)%string; cbn [negb]; [|done].
  cbn [List.filter]. destruct (url_matches fetch push e); cbn [rv_matches rv_found rv_count rv_candidate length];
    rewrite ?list.last_cons; split_and!; try lia; try done; repeat case_match; simplify_eq/=; try done; congruence.
Qed.

Lemma url_matches_one url e : url_matches [url] [url] e = (al_URL e =? url)%string.
Proof. cbn. rewrite andb_diag. apply String.eqb_sym. Qed.

(** An entry is resolved whose URL is the only one fetched from and pushed to. *)
Lemma ResolveAllowlistEntry_spec p branch e url :
  FetchURLs p = [url] -> PushURLs p = [url] ->
  (ResolveAllowlistEntry (Allowlist p) branch (FetchURLs p) (PushURLs p) = (e, true) /\ al_URL e = url) <->
  List.filter (fun e => (al_URL e =? url)%string) (branch_entries branch (Allowlist p)) = [e].
Proof.
  intros -> ->. unfold ResolveAllowlistEntry.
  pose proof (resolve_spec branch [url] [url] (Allowlist p) (mkResolving no_entry no_entry 0 0)) as (H1 & H2 & H3 & H4).
  cbn zeta in *. rewrite H1, H2, H3, H4. clear H1 H2 H3 H4. cbn [rv_matches rv_found rv_count rv_candidate].
  rewrite (List.filter_ext (url_matches [url] [url]) (fun e => (al_URL e =? url)%string)) by (intros; apply url_matches_one).
  set (be := branch_entries branch (Allowlist p)).
  destruct (List.filter _ be) as [|e1 [|e2 rest]] eqn:E; cbn [length list.last default].
  - change (0 + Z.of_nat 0 =? 1) with false. change (1 <? 0 + Z.of_nat 0) with false. cbn iota.
    assert (forall x, list.last be = Some x -> al_URL x <> url) as Hno.
    { intros x Hx Hu. assert (x ∈ List.filter (fun e => (al_URL e =? url)%string) be) as Hin; [|rewrite E in Hin; by apply not_elem_of_nil in Hin].
      apply list_elem_of_In, List.filter_In. split; [|by apply String.eqb_eq]. apply list_elem_of_In. by apply last_Some_elem_of. }
    split; [|done]. intros [Hc Hu]. exfalso.
    assert (list.last be = None \/ exists x, list.last be = Some x) as [Hl|[x Hl]] by (destruct (list.last be); eauto).
    + apply last_None in Hl. rewrite Hl in Hc. done.
    + rewrite Hl in Hc. cbn in Hc. assert (e = x) as -> by (repeat case_match; simplify_eq; done). by eapply Hno.
  - cbn. split; [by intros [[= ->] _]|]. intros [= ->]. split; [done|].
    assert (e ∈ List.filter (fun e => (al_URL e =? url)%string) be) as Hin by (rewrite E; by left).
    apply list_elem_of_In, List.filter_In in Hin as [_ Hu]. by apply String.eqb_eq.
  - rewrite (proj2 (Z.eqb_neq (0 + Z.of_nat (S (S (length rest)))) 1)) by lia. rewrite (proj2 (Z.ltb_lt 1 _)) by lia. split; [by intros [? _]|done].
Qed.

(** What passes the checks made before a URL is read. *)
Definition candidate (remote branch : string) : PushDecision := no_decision <| d_Branch := branch |> <| d_Remote := remote |>.

Record before_urls (p : PushInput) (remote branch : string) : Prop := mkBeforeURLs {
  bu_git : LocalGitError p = None;
  bu_ref : CurrentRef p = "refs/heads/" +:+ branch;
  bu_branch : validRefName branch = true /\ HasPrefix branch "refs/" = false /\ branch <> "HEAD"%string;
  bu_unprotected : branch ∉ always_protected ++ ProtectedBranches p;
  bu_remote : validRemote remote = true;
  bu_one : exists k n, map al_Remote (branch_entries branch (Allowlist p)) = replicate k ""%string ++ replicate (S n) remote }.

Lemma list_prefix_app l k : list_prefix l (l ++ k) = true.
Proof. induction l as [|c l IH]; [done|]. cbn. by rewrite Ascii.eqb_refl. Qed.

Lemma list_prefix_inv l k : list_prefix l k = true -> k = l ++ drop (length l) k.
Proof.
  induction l as [|c l IH] in k |- *; [done|]. destruct k as [|c' k]; [done|]. cbn.
  intros [H1%Ascii.eqb_eq H2]%andb_true_iff. subst. f_equal. by apply IH.
Qed.

Lemma TrimPrefix_append pre s : TrimPrefix (pre +:+ s) pre = s.
Proof.
  unfold TrimPrefix, HasPrefix. rewrite chars_append, list_prefix_app. rewrite drop_app_length'; [by rewrite of_chars_chars|].
  by rewrite ?length_chars.
Qed.

Lemma HasPrefix_append pre s : HasPrefix (pre +:+ s) pre = true.
Proof. unfold HasPrefix. by rewrite chars_append, list_prefix_app. Qed.

Lemma HasPrefix_inv s pre : HasPrefix s pre = true -> s = pre +:+ TrimPrefix s pre.
Proof.
  intros H. unfold TrimPrefix. rewrite H. apply chars_inj. unfold HasPrefix in H. rewrite chars_append, chars_of_chars.
  rewrite <- (length_chars pre). by apply list_prefix_inv.
Qed.

Lemma append_cancel pre s t : pre +:+ s = pre +:+ t -> s = t.
Proof. intros H. by rewrite <- (TrimPrefix_append pre s), H, TrimPrefix_append. Qed.

Lemma protected_spec branch protected :
  existsb (fun b => ("refs/heads/" +:+ b =? "refs/heads/" +:+ branch)%string) protected = false <-> branch ∉ protected.
Proof.
  rewrite <- not_true_iff_false, existsb_exists. split; intros H Hin; apply H; clear H.
  - exists branch. split; [by apply list_elem_of_In|]. apply String.eqb_refl.
  - destruct Hin as (b & Hb & E%String.eqb_eq%append_cancel). subst. by apply list_elem_of_In.
Qed.

Lemma validRemote_nonempty remote : validRemote remote = true -> remote <> ""%string.
Proof. by intros H ->. Qed.

Lemma EvaluateBeforeURLs_spec p remote branch :
  (d_Noop (EvaluateBeforeURLs p) = false /\ d_Reason (EvaluateBeforeURLs p) = ""%string
   /\ d_Remote (EvaluateBeforeURLs p) = remote /\ d_Branch (EvaluateBeforeURLs p) = branch) <->
  before_urls p remote branch.
Proof.
  unfold EvaluateBeforeURLs. split.
  - destruct (Allowlist p) as [|e0 es] eqn:Ea; [by intros [? _]|]. rewrite <- Ea. clear Ea e0 es.
    destruct (LocalGitError p) as [err|] eqn:Eg; [unfold localGitFailureReason; by destruct (errors_Is _ _); intros (_ & ? & _)|].
    destruct (_ || negb _) eqn:E1; [by intros (_ & ? & _)|]. apply orb_false_iff in E1 as [_ E1%negb_false_iff].
    apply HasPrefix_inv in E1. set (b := TrimPrefix _ _) in *.
    destruct (_ || (b =? "HEAD")%string) eqn:E2; [by intros (_ & ? & _)|].
    apply orb_false_iff in E2 as [[E2%negb_false_iff E3]%orb_false_iff E4%String.eqb_neq].
    destruct (existsb _ _) eqn:E5; [by intros (_ & ? & _)|]. rewrite E1 in E5. apply protected_spec in E5.
    destruct (branch_remote _ _ _) as [r|] eqn:E6; [|by intros (_ & ? & _)].
    destruct (r =? "")%string eqn:E7; [by intros (_ & ? & _)|]. apply String.eqb_neq in E7.
    destruct (validRemote r) eqn:E8; [|by intros (_ & ? & _)]. cbn. intros (_ & _ & <- & <-).
    constructor; [done..|]. by apply branch_remote_first.
  - intros [H1 H2 (H3 & H4 & H5) H6 H7 H8]. pose proof (validRemote_nonempty _ H7) as Hr.
    apply branch_remote_first in H8; [|done].
    destruct (Allowlist p) as [|e0 es] eqn:Ea; [injection H8 as <-; done|].
    rewrite H1, H2, HasPrefix_append, TrimPrefix_append. cbn [negb orb].
    rewrite (proj2 (String.eqb_neq _ "")) by (by intros ?). cbn [orb]. rewrite H3, H4, (proj2 (String.eqb_neq _ _) H5). cbn [negb orb].
    rewrite (proj2 (protected_spec _ _) H6), H8, H7. cbn [negb]. by rewrite (proj2 (String.eqb_neq _ _) Hr).
Qed.

Lemma before_urls_eq p remote branch :
  before_urls p remote branch -> EvaluateBeforeURLs p = candidate remote branch.
Proof.
  intros H. apply EvaluateBeforeURLs_spec in H as (H1 & H2 & H3 & H4).
  unfold EvaluateBeforeURLs in *. repeat case_match; try done; cbn in *; simplify_eq; try done;
    unfold localGitFailureReason in *; by destruct (errors_Is _ _).
Qed.

(** The local checks pass exactly then, and with this decision. *)
Lemma EvaluateLocal_spec p remote branch :
  (d_ReadyForRemote (EvaluateLocal p) = true /\ d_Remote (EvaluateLocal p) = remote /\ d_Branch (EvaluateLocal p) = branch) <->
  LocalGitError p = None /\ listed p remote branch
  /\ ReceivepackConfigured p = false /\ RemoteHelperConfigured p = false /\ GitConfigInclude p = false /\ GitConfigChanged p = false.
Proof.
  unfold EvaluateLocal. split.
  - assert (d_ReadyForRemote (EvaluateBeforeURLs p) = false) as Hnr.
    { unfold EvaluateBeforeURLs. by repeat case_match. }
    destruct (_ || negb _) eqn:E1; [by rewrite Hnr; intros (? & _)|].
    apply orb_false_iff in E1 as [E1 E2%negb_false_iff%String.eqb_eq].
    destruct (ResolveAllowlistEntry _ _ _ _) as [e ok] eqn:Er.
    destruct (_ || negb _) eqn:E3; [by cbn; rewrite Hnr; intros (? & _)|].
    apply orb_false_iff in E3 as [->%negb_false_iff E3%negb_false_iff%String.eqb_eq].
    destruct (FetchURLs p) as [|f [|]] eqn:Ef; try (by cbn; rewrite Hnr; intros (? & _)).
    destruct (PushURLs p) as [|u [|]] eqn:Eu; try (by cbn; rewrite Hnr; intros (? & _)).
    destruct (_ || negb _) eqn:E4; [by cbn; rewrite Hnr; intros (? & _)|].
    apply orb_false_iff in E4 as [E4%negb_false_iff%String.eqb_eq E5%negb_false_iff%String.eqb_eq].
    destruct (ReceivepackConfigured p), (RemoteHelperConfigured p), (GitConfigInclude p), (GitConfigChanged p);
      cbn; rewrite ?Hnr; try (by intros (? & _)). intros (_ & Hr & Hb).
    assert (before_urls p remote branch) as [B1 B2 B3 B4 B5 B6] by (by apply EvaluateBeforeURLs_spec).
    split_and!; try done. constructor; try done. rewrite Hb in Er. exists (al_URL e), e. rewrite Ef, Eu.
    split_and!; [by f_equal|by f_equal| |congruence].
    apply (ResolveAllowlistEntry_spec p); [congruence|congruence|]. by rewrite Ef, Eu.
  - intros (H1 & [L1 L2 L3 L4 L5 (url & e & Ef & Eu & Hone & Hrem)] & -> & -> & -> & ->).
    rewrite (before_urls_eq p remote branch) by done. cbn -[ResolveAllowlistEntry].
    apply (ResolveAllowlistEntry_spec p) in Hone as [Hone Hu]; [|done|done]. rewrite Hone, Ef, Eu, Hrem, Hu. cbn.
    by rewrite !String.eqb_refl.
Qed.

Lemma EvaluateRemote_spec p d :
  d_ReadyForRemote d = true -> d_Reason d = ""%string -> d_ReadyForCommits d = false ->
  (d_ReadyForCommits (EvaluateRemote p d) = true <->
    RemoteHeadUnavailable p = false /\ RemoteHeadLocal p = true /\ shaPattern (RemoteHeadSHA p) = true /\ RemoteHeadLocalError p = None)
  /\ (d_ReadyForCommits (EvaluateRemote p d) = true ->
      EvaluateRemote p d = d <| d_ReadyForRemote := false |> <| d_ReadyForCommits := true |>).
Proof.
  intros H1 H2 H3. unfold EvaluateRemote. rewrite H1, H2. cbn [negb orb String.eqb].
  destruct (RemoteHeadUnavailable p); [cbn; rewrite H3; naive_solver|].
  destruct (String.eqb_spec (RemoteHeadSHA p) "") as [E|E]; [rewrite E; cbn; rewrite H3; naive_solver|].
  destruct (shaPattern (RemoteHeadSHA p)); [|cbn; rewrite H3; naive_solver]. cbn [negb].
  destruct (RemoteHeadLocalError p); [cbn; rewrite H3; naive_solver|].
  destruct (RemoteHeadLocal p); cbn; [|rewrite H3]; naive_solver.
Qed.

Lemma EvaluateCommits_spec p d :
  d_ReadyForCommits d = true -> d_Reason d = ""%string -> d_Allowed d = false ->
  (d_Allowed (EvaluateCommits p d) = true <->
    CommitListError p = None /\ CommitSHAs p <> [] /\ (forall sha, sha ∈ CommitSHAs p -> sha ∈ SupervisorCommitSHAs p)
    /\ Forall (fun sha => shaPattern sha = true) (SupervisorCommitSHAs p) /\ list.last (SupervisorCommitSHAs p) = Some (HeadSHA p)
    /\ HeadSHA p <> PreviousFailedHead p)
  /\ (d_Allowed (EvaluateCommits p d) = true -> d_Remote (EvaluateCommits p d) = d_Remote d /\ d_Branch (EvaluateCommits p d) = d_Branch d).
Proof.
  intros H1 H2 H3. unfold EvaluateCommits. rewrite H1, H2. cbn [negb orb String.eqb].
  destruct (CommitListError p); [cbn; rewrite H3; naive_solver|].
  assert (forall l, forallb shaPattern l = true <-> Forall (fun sha => shaPattern sha = true) l) as Hall.
  { intros l. rewrite forallb_forall, list.Forall_forall. by setoid_rewrite list_elem_of_In. }
  destruct (shaPattern (HeadSHA p)) eqn:Eh; cbn [negb].
  2:{ cbn. rewrite H3. split; [|done]. split; [done|]. intros (_ & _ & _ & Hs & Hl & _).
      rewrite list.Forall_forall in Hs. apply last_Some_elem_of in Hl. apply Hs in Hl. congruence. }
  destruct (forallb shaPattern (SupervisorCommitSHAs p)) eqn:Es; cbn [negb].
  2:{ cbn. rewrite H3. split; [|done]. split; [done|]. intros (_ & _ & _ & Hs & _). apply Hall in Hs. congruence. }
  apply Hall in Es. set (set := list_to_set _).
  assert (forallb (fun sha => shaPattern sha && bool_decide (sha ∈ set)) (CommitSHAs p) = true <->
    forall sha, sha ∈ CommitSHAs p -> sha ∈ SupervisorCommitSHAs p) as Hsub.
  { rewrite forallb_forall. setoid_rewrite <- list_elem_of_In. split; intros H sha Hin.
    - specialize (H sha Hin). apply andb_true_iff in H as [_ H%bool_decide_eq_true]. by apply elem_of_list_to_set in H.
    - specialize (H sha Hin). rewrite list.Forall_forall in Es. apply andb_true_iff. split; [auto|].
      apply bool_decide_eq_true. by apply elem_of_list_to_set. }
  destruct (forallb _ (CommitSHAs p)); cbn [negb].
  2:{ cbn. rewrite H3. split; [|done]. split; [done|]. intros (_ & _ & Hs & _). by apply Hsub in Hs. }
  pose proof (proj1 Hsub eq_refl) as Hs. clear Hsub.
  destruct (CommitSHAs p) as [|c cs] eqn:Ec; [cbn; rewrite H3; naive_solver|].
  destruct (bool_decide_reflect (list.last (SupervisorCommitSHAs p) = Some (HeadSHA p))) as [El|El]; cbn [negb].
  - assert (HeadSHA p ∈ set) as Hin by (apply elem_of_list_to_set; by apply last_Some_elem_of).
    rewrite (bool_decide_eq_true_2 _ Hin). cbn [negb orb].
    destruct (String.eqb_spec (HeadSHA p) (PreviousFailedHead p)); cbn; [rewrite H3|]; naive_solver.
  - rewrite orb_true_r. cbn. rewrite H3. naive_solver.
Qed.

(** ** Theorems *)

(** C31. The policy allows a push to a branch of a remote exactly under these conditions:
    the checked-out branch is well-formed and not protected; the entries of the
    allow-list for it name one remote, exactly one of them with the URL that git both
    fetches from and pushes to, and there is no other URL; no configuration redirects
    the push and the configuration is the one recorded; the remote head is known and
    present locally; and there are commits to push, all the supervisor's, the latest of
    them HEAD, and HEAD is not the one whose push failed last. *)
Theorem Evaluate_correct (p : PushInput) (remote branch : string) :
  (d_Allowed (Evaluate p) = true /\ d_Remote (Evaluate p) = remote /\ d_Branch (Evaluate p) = branch)
  <-> may_push p remote branch.
Proof.
  assert (d_Allowed (EvaluateLocal p) = false /\ d_ReadyForCommits (EvaluateLocal p) = false
    /\ (d_ReadyForRemote (EvaluateLocal p) = true -> d_Reason (EvaluateLocal p) = ""%string)) as (Hna & Hnc & Hnr).
  { assert (d_Allowed (EvaluateBeforeURLs p) = false /\ d_ReadyForCommits (EvaluateBeforeURLs p) = false
      /\ d_ReadyForRemote (EvaluateBeforeURLs p) = false) as (Ha & Hc & Hr).
    { unfold EvaluateBeforeURLs. by repeat case_match. }
    unfold EvaluateLocal. destruct (_ || negb _) eqn:E; [by rewrite Hr|].
    apply orb_false_iff in E as [_ E%negb_false_iff%String.eqb_eq].
    repeat case_match; cbn; rewrite ?Hr; done. }
  unfold Evaluate. pose proof (EvaluateLocal_spec p remote branch) as Hl.
  destruct (d_ReadyForRemote (EvaluateLocal p)) eqn:Er; cbn [negb].
  2:{ rewrite Hna. split; [by intros [? _]|]. intros [M1 (M2 & _) (M3 & M4 & M5 & M6) _ _ _].
      destruct Hl as [_ Hl]. by destruct Hl as [? _]. }
  pose proof (EvaluateRemote_spec p _ Er (Hnr eq_refl) Hnc) as [Hm Hm'].
  destruct (d_ReadyForCommits (EvaluateRemote p (EvaluateLocal p))) eqn:Ec; cbn [negb].
  2:{ split.
      - assert (d_Allowed (EvaluateRemote p (EvaluateLocal p)) = false) as ->; [|by intros [? _]].
        unfold EvaluateRemote. repeat case_match; done.
      - intros [_ (_ & M2 & _) _ (M3 & M4 & M5) _ _]. by destruct Hm as [_ Hm]; ospecialize* Hm. }
  rewrite Hm' in * by done. clear Hm'. set (d := EvaluateLocal p <| d_ReadyForRemote := false |> <| d_ReadyForCommits := true |>).
  pose proof (EvaluateCommits_spec p d eq_refl (Hnr eq_refl) Hna) as [Hc Hc'].
  split.
  - intros (H1 & H2 & H3). destruct (Hc' H1) as [E1 E2]. rewrite E1 in H2. rewrite E2 in H3.
    destruct (proj1 Hl) as (L1 & L2 & L3); [by split_and!|]. apply Hc in H1 as (C1 & C2 & C3 & C4 & C5 & C6).
    destruct (proj1 Hm eq_refl) as (R1 & R2 & R3 & R4). by constructor.
  - intros [M1 (M2 & M3 & M4) (M5 & M6 & M7 & M8) M9 (M10 & M11 & M12 & M13) M14].
    assert (d_Allowed (EvaluateCommits p d) = true) as Ha by (by apply Hc). destruct (Hc' Ha) as [-> ->].
    split; [done|]. by apply Hl.
Qed.

(** An input that is allowed. *)
Definition example_sha : string := "0123456789abcdef0123456789abcdef01234567".
Definition example_push : PushInput :=
  mkPushInput None None None ["git@host:r.git"]%string ["git@host:r.git"]%string false false "refs/heads/work" []
    [mkEntry "origin" "git@host:r.git" "work"] example_sha true false [example_sha] [example_sha] example_sha "" false false.

Example example_push_allowed : d_Allowed (Evaluate example_push) = true.
Proof. by vm_compute. Qed.
