(* ===== verification/GoText.v ===== *)
(** * White space in byte strings

    [strings.TrimSpace] and [strings.Fields] on Go strings, which work on the runes that
    the bytes decode to and keep the bytes of the others. *)

From S2P Require Import Prelude.
From S2P Require Import GoStrings.
From S2P Require Import UTF8.
From S2P Require Import TextPolicy.

(** The runes of a string with their bytes. *)
Fixpoint rune_pieces (decoded : list (Z * nat)) (l : list ascii) : list (Z * list ascii) :=
  match decoded with
  | [] => []
  | (r, size) :: decoded => (r, take size l) :: rune_pieces decoded (drop size l)
  end.

Definition pieces (s : string) : list (Z * list ascii) := rune_pieces (decode (bytes s)) (chars s).
Definition of_pieces (ps : list (Z * list ascii)) : string := of_chars (concat (map snd ps)).

Definition space_piece (p : Z * list ascii) : bool := IsSpace (fst p).

Fixpoint drop_space (ps : list (Z * list ascii)) : list (Z * list ascii) :=
  match ps with p :: ps' => if space_piece p then drop_space ps' else ps | [] => [] end.

Definition StringTrimSpace (s : string) : string := of_pieces (rev (drop_space (rev (drop_space (pieces s))))).

Definition StringFields (s : string) : list string :=
  map of_pieces (List.filter (fun ps => negb (bool_decide (length ps = 0%nat))) (split_on space_piece (pieces s))).

(** [strings.Trim(s, cutset)] for an ASCII cutset. *)
Definition StringTrim (s cutset : string) : string :=
  let cut := fix cut (l : list ascii) := match l with c :: l' => if existsb (Ascii.eqb c) (chars cutset) then cut l' else l | [] => [] end in
  of_chars (rev (cut (rev (cut (chars s))))).

(** [strings.Cut(s, sep)] at a one-byte separator: before, after, found. *)
Fixpoint cut_chars (sep : ascii) (l : list ascii) : option (list ascii * list ascii) :=
  match l with
  | [] => None
  | c :: l =>
      if Ascii.eqb c sep then Some ([], l)
      else match cut_chars sep l with Some (before, after) => Some (c :: before, after) | None => None end
  end.

Definition StringCut (s : string) (sep : ascii) : option (string * string) :=
  match cut_chars sep (chars s) with Some (before, after) => Some (of_chars before, of_chars after) | None => None end.

(** [strings.Count(s, c)] of one byte. *)
Definition CountChar (s : string) (c : ascii) : Z := Z.of_nat (length (List.filter (Ascii.eqb c) (chars s))).

(** [path.Base] *)
Definition path_Base (p : string) : string :=
  if (p =? "")%string then "."%string
  else
    let strip := fix strip (l : list ascii) := match l with c :: l' => if Ascii.eqb c "/" then strip l' else l | [] => [] end in
    let upto := fix upto (l : list ascii) := match l with c :: l' => if Ascii.eqb c "/" then [] else c :: upto l' | [] => [] end in
    match upto (strip (rev (chars p))) with
    | [] => "/"%string
    | l => of_chars (rev l)
    end.

(** [path.Match] for a pattern whose only special character is the star. *)
Fixpoint glob (pattern : list ascii) : list ascii -> bool :=
  match pattern with
  | [] => fun name => match name with [] => true | _ => false end
  | c :: pattern =>
      if Ascii.eqb c "*" then
        fix star (name : list ascii) : bool :=
          glob pattern name || match name with [] => false | d :: name => negb (Ascii.eqb d "/") && star name end
      else fun name => match name with [] => false | d :: name => Ascii.eqb c d && glob pattern name end
  end.

Definition path_Match (pattern name : string) : bool := glob (chars pattern) (chars name).

(** ** [filepath.Rel] of two absolute paths on Unix *)

Definition components (p : string) : list string := List.filter (fun part => negb (part =? "")%string) (Split (Clean p) "/").

Fixpoint rel_parts (base targ : list string) : list string :=
  match base, targ with
  | b :: base', t :: targ' =>
      if (b =? t)%string then rel_parts base' targ' else replicate (length base) ".."%string ++ targ
  | _, _ => replicate (length base) ".."%string ++ targ
  end.

Definition Rel_abs (base targ : string) : string :=
  match rel_parts (components base) (components targ) with
  | [] => "."
  | parts => Join parts "/"
  end.

Example TrimSpace_example : StringTrimSpace (" a b" +:+ String "010" EmptyString) = "a b"%string.
Proof. by vm_compute. Qed.
Example Fields_example : StringFields " ab  c " = ["ab"; "c"]%string.
Proof. by vm_compute. Qed.
Example glob_example : path_Match ".env*" ".env.local" = true /\ path_Match "*.pem" "a.pem" = true /\ path_Match "*.pem" "a.pem2" = false.
Proof. by vm_compute. Qed.
Example Rel_example : Rel_abs "/a/b" "/a/b/c" = "c"%string /\ Rel_abs "/a/b" "/a" = ".."%string /\ Rel_abs "/" "/x/y" = "x/y"%string
  /\ Rel_abs "/a/b" "/a/c/d" = "../c/d"%string /\ Rel_abs "/a" "/a" = "."%string.
Proof. by vm_compute. Qed.
