(* ===== verification/GitStatus.v ===== *)
(** * What git reports ([internal/supervisor/gitops/porcelain.go], [sensitive.go],
      [fingerprint.go], [gitconfigfp.go])

    The entries of [git status --porcelain=v1 -z], the names that are never committed,
    the fingerprints of a working tree and of a configuration, and the scan of a
    configuration for includes. *)

From stdpp Require Import sorting.
From S2P Require Import Prelude.
From S2P Require Import GoStrings.
From S2P Require Import UTF8.
From S2P Require Import Errors.
From S2P Require Import TextPolicy.
From S2P Require Import GoText.

(** ** The status *)

Record StatusEntry : Type := mkStatus { Kind : string; Index : ascii; Worktree : ascii; Path : string; OriginalPath : string }.

#[export] Instance StatusEntry_eq_dec : EqDecision StatusEntry.
Proof. solve_decision. Defined.

Definition NUL : ascii := "000".

Definition status_code (c : ascii) : bool := existsb (Ascii.eqb c) (chars " MTADRCU?!").

Definition bad_pair (i w : ascii) : bool :=
  Ascii.eqb i " " && Ascii.eqb w " " || Ascii.eqb i "?" && negb (Ascii.eqb w "?") || Ascii.eqb w "?" && negb (Ascii.eqb i "?")
  || Ascii.eqb i "!" && negb (Ascii.eqb w "!") || Ascii.eqb w "!" && negb (Ascii.eqb i "!").

Definition status_kind (i w : ascii) : string :=
  if Ascii.eqb i "?" && Ascii.eqb w "?" then "untracked"
  else if Ascii.eqb i "!" && Ascii.eqb w "!" then "ignored"
  else if Ascii.eqb i "R" || Ascii.eqb w "R" then "rename"
  else if Ascii.eqb i "C" || Ascii.eqb w "C" then "copy"
  else "ordinary".

Definition moved (kind : string) : bool := ((kind =? "rename") || (kind =? "copy"))%string.

(** The loop over the terminated fields. *)
Fixpoint parse_entries (fields : list string) : res (list StatusEntry) :=
  match fields with
  | [] => Ok []
  | v :: fields =>
      match chars v with
      | i :: w :: sp :: path =>
          if negb (Ascii.eqb sp " ") then Err (Errorf "invalid porcelain v1 entry" [])
          else if bool_decide (path = []) then Err (Errorf "empty porcelain path" [])
          else if negb (status_code i) || negb (status_code w) then Err (Errorf "invalid porcelain status" [])
          else if bad_pair i w then Err (Errorf "invalid porcelain status pair" [])
          else
            let kind := status_kind i w in
            if moved kind then
              match fields with
              | [] => Err (Errorf "missing original path for porcelain v1 rename/copy" [])
              | original :: fields =>
                  if (original =? "")%string then Err (Errorf "empty original porcelain path" [])
                  else rest ← parse_entries fields; Ok (mkStatus kind i w (of_chars path) original :: rest)
              end
            else rest ← parse_entries fields; Ok (mkStatus kind i w (of_chars path) "" :: rest)
      | _ => Err (Errorf "invalid porcelain v1 entry" [])
      end
  end.

Definition ParsePorcelainV1 (data : string) : res (list StatusEntry) :=
  if (data =? "")%string then Ok []
  else
    let fields := Split data NUL in
    out ← parse_entries (removelast fields);
    if (List.last fields "" =? "")%string then Ok out else Err (Errorf "unterminated porcelain v1 entry" []).

(** ** Sensitive names *)

Definition sensitivePathPatterns : list string :=
  [".env*"; "*.pem"; "*.key"; "id_rsa*"; "id_ed25519*"; "id_ecdsa*"; "id_dsa*"; "credentials*"; "*.p12"]%string.

Definition ValidSensitivePattern (value : string) : bool := existsb (fun pattern => (value =? pattern)%string) sensitivePathPatterns.

(** [ToLower] is [strings.ToLower], whose case table is Unicode's. *)
Definition MatchPattern (ToLower : string -> string) (p : string) : string :=
  let p := TrimPrefix (Clean ("/" +:+ p)) "/" in
  let base := ToLower (path_Base p) in
  match List.find (fun pattern => path_Match pattern base) sensitivePathPatterns with
  | Some pattern => pattern
  | None => ""
  end.

(** ** Fingerprints *)

Record FingerprintEntry : Type := mkFP { fp_Scope : string; fp_Status : string; fp_Path : string; fp_Mode : string; fp_ContentHash : string }.

#[export] Instance FingerprintEntry_eq_dec : EqDecision FingerprintEntry.
Proof. solve_decision. Defined.

(** Eight bytes, the most significant first. *)
Definition put_uint64 (n : Z) : string :=
  of_chars (map (fun k => ascii_of_N (Z.to_N (Z.land (Z.shiftr n (8 * k)) 0xFF))) [7; 6; 5; 4; 3; 2; 1; 0]).

Definition appendSized (dst value : string) : string := dst +:+ put_uint64 (Z.of_nat (String.length value)) +:+ value.

Definition frame_entry (b : string) (e : FingerprintEntry) : string :=
  appendSized (appendSized (appendSized (appendSized (appendSized b (fp_Scope e)) (fp_Status e)) (fp_Path e)) (fp_Mode e)) (fp_ContentHash e).

(** The text that is hashed. *)
Definition entries_text (entries : list FingerprintEntry) : string := fold_left frame_entry entries "".

(** [sort.Slice] with a strict total order. *)
Section Sort.
Context {A : Type} (less : A -> A -> bool).

Fixpoint insert_sorted (x : A) (l : list A) : list A :=
  match l with
  | [] => [x]
  | y :: l' => if less y x then y :: insert_sorted x l' else x :: l
  end.

Definition sort_slice (l : list A) : list A := fold_right insert_sorted [] l.
End Sort.

Definition tree_less (a b : FingerprintEntry) : bool :=
  if negb (fp_Scope a =? fp_Scope b)%string then String.ltb (fp_Scope a) (fp_Scope b)
  else if negb (fp_Status a =? fp_Status b)%string then String.ltb (fp_Status a) (fp_Status b)
  else if negb (fp_Path a =? fp_Path b)%string then String.ltb (fp_Path a) (fp_Path b)
  else if negb (fp_Mode a =? fp_Mode b)%string then String.ltb (fp_Mode a) (fp_Mode b)
  else String.ltb (fp_ContentHash a) (fp_ContentHash b).

Definition tree_text (headSHA : string) (entries : list FingerprintEntry) : string :=
  entries_text (mkFP "head" "" "" "" headSHA :: sort_slice tree_less entries).

Definition config_less (a b : FingerprintEntry) : bool :=
  if negb (fp_Scope a =? fp_Scope b)%string then String.ltb (fp_Scope a) (fp_Scope b) else String.ltb (fp_Path a) (fp_Path b).

Definition frame_config_entry (b : string) (e : FingerprintEntry) : string :=
  appendSized (appendSized (appendSized (appendSized b (fp_Scope e)) (fp_Status e)) (fp_Path e)) (fp_ContentHash e).

Definition config_text (entries : list FingerprintEntry) : string :=
  fold_left frame_config_entry (sort_slice config_less entries) "".

Section Hashes.
(** [sha256.Sum256] in hexadecimal. *)
Context (SHA256 : string -> string).

Definition EntriesFingerprint (entries : list FingerprintEntry) : string := SHA256 (entries_text entries).
Definition TreeFingerprint (headSHA : string) (entries : list FingerprintEntry) : string := SHA256 (tree_text headSHA entries).
(** Called without further configurations. *)
Definition GitConfigFingerprintFromEntries (entries : list FingerprintEntry) : string := SHA256 (config_text entries).
End Hashes.

(** ** Includes in a configuration *)

Definition letter (c : ascii) : bool := is_upper c || is_lower c.

Definition validConfigKey (key : string) : bool :=
  match key with
  | EmptyString => false
  | String c key => letter c && str_forall (fun c => letter c || is_digit c || Ascii.eqb c "-") key
  end.

Fixpoint quotes_closed (quoted : bool) (l : list ascii) : bool :=
  match l with
  | [] => negb quoted
  | c :: l =>
      if Ascii.eqb c "\" && quoted then
        match l with
        | _ :: l => quotes_closed quoted l
        | [] => negb quoted
        end
      else quotes_closed (if Ascii.eqb c "034" then negb quoted else quoted) l
  end.

Definition configQuotesClosed (line : string) : bool := quotes_closed false (chars line).

Definition comment_line (line : string) : bool := HasPrefix line "#" || HasPrefix line ";".

(** The text before the first of ["= \t"]. *)
Definition config_key (line : string) : string :=
  let upto := fix upto (l : list ascii) :=
    match l with c :: l' => if existsb (Ascii.eqb c) ["="; " "; "009"]%char then [] else c :: upto l' | [] => [] end in
  of_chars (upto (chars line)).

Section Includes.
Context (ToLower : string -> string).

(** The section headers at the start of a line: the section and what is left of the
    line, or [None] where the configuration is not valid. *)
Fixpoint section_headers (fuel : nat) (section line : string) : option (string * string) :=
  if negb (HasPrefix line "[") then Some (section, line)
  else
    match fuel with
    | O => None
    | S fuel =>
        match StringCut line "]" with
        | None => None
        | Some (header, rest) =>
            let section := ToLower (StringTrimSpace (StringTrim (TrimPrefix header "[") ("\" +:+ String "034" EmptyString))) in
            if (section =? "")%string || negb (CountChar header "034" mod 2 =? 0) then None
            else
              let line := StringTrimSpace rest in
              if (line =? "")%string || comment_line line then Some (section, line)
              else if negb (HasPrefix line "[") then None
              else section_headers fuel section line
        end
    end.

(** Every header takes at least one byte of the line. *)
Definition section_header (section line : string) : option (string * string) := section_headers (String.length line) section line.

(** The lines: whether there is an include, and whether the configuration is valid. *)
Fixpoint config_lines (section : string) (lines : list string) : bool * bool :=
  match lines with
  | [] => (false, true)
  | line :: lines =>
      if negb (lacks NUL line) || negb (configQuotesClosed line) then (false, false)
      else
        let line := StringTrimSpace (TrimSuffix line (String "013" EmptyString)) in
        if (line =? "")%string then config_lines section lines
        else
          match section_header section line with
          | None => (false, false)
          | Some (section, line) =>
              if (line =? "")%string || comment_line line then config_lines section lines
              else if HasPrefix (ToLower section) "include" && EqualFoldASCII (StringTrimSpace (config_key line)) "path" then (true, true)
              else if (section =? "")%string || negb (validConfigKey (config_key line)) || Contains line "[" then (false, false)
              else config_lines section lines
          end
  end.

Definition BOM : string := of_chars (map ascii_of_nat [239; 187; 191]%nat).

Definition parseConfigInclude (config : string) : bool * bool := config_lines "" (Split (TrimPrefix config BOM) "010").

Definition configHasInclude (config : string) : bool := let '(include, valid) := parseConfigInclude config in include || negb valid.
End Includes.

(** ** Specification vocabulary *)

(** The fields of an entry, and the output that git prints for entries: every field
    ends in a NUL. *)
Definition fields_of (e : StatusEntry) : list string :=
  String (Index e) (String (Worktree e) (String " " (Path e))) :: (if moved (Kind e) then [OriginalPath e] else []).

Definition print_status (entries : list StatusEntry) : string :=
  fold_right (fun field out => field +:+ String NUL out) "" (concat (map fields_of entries)).

Record status_ok (e : StatusEntry) : Prop := mkStatusOk {
  so_codes : status_code (Index e) = true /\ status_code (Worktree e) = true /\ bad_pair (Index e) (Worktree e) = false;
  so_kind : Kind e = status_kind (Index e) (Worktree e);
  so_path : Path e <> ""%string;
  so_original : if moved (Kind e) then OriginalPath e <> ""%string else OriginalPath e = ""%string }.

Definition status_lacks (e : StatusEntry) : Prop := lacks NUL (Path e) = true /\ lacks NUL (OriginalPath e) = true.

(** ** Lemmas on the status *)

Lemma parse_entries_ok es : Forall status_ok es -> parse_entries (concat (map fields_of es)) = Ok es.
Proof.
  induction es as [|[kind i w path orig] es IH]; [done|]. intros [[(H1 & H2 & H3) H4 H5 H6] Hes]%list.Forall_cons. cbn in *.
  fold (chars path). rewrite of_chars_chars.
  rewrite bool_decide_eq_false_2.
  2:{ intros E. apply H5. apply chars_inj. exact E. }
  rewrite H1, H2, H3. cbn. rewrite <- H4. destruct (moved kind) eqn:Em; cbn.
  - rewrite (proj2 (String.eqb_neq _ _) H6), IH by done. done.
  - rewrite H6, IH by done. done.
Qed.

Lemma parse_entries_inv n fields es :
  (length fields <= n)%nat -> parse_entries fields = Ok es -> Forall status_ok es /\ fields = concat (map fields_of es).
Proof.
  induction n as [|n IH] in fields, es |- *; intros Hn; [destruct fields; [by intros [= <-]|cbn in Hn; lia]|].
  destruct fields as [|v fields]; cbn [parse_entries]; [by intros [= <-]|].
  destruct (chars v) as [|i [|w [|sp path]]] eqn:Ev; try done.
  destruct (Ascii.eqb_spec sp " "); cbn [negb]; [subst sp|done].
  case_bool_decide as Hp; [done|].
  destruct (status_code i) eqn:E1, (status_code w) eqn:E2; cbn [negb orb]; try done.
  destruct (bad_pair i w) eqn:E3; [done|].
  assert (v = String i (String w (String " " (of_chars path)))) as ->.
  { apply chars_inj. rewrite Ev. unfold chars, of_chars. cbn. by rewrite String.list_ascii_of_string_of_list_ascii. }
  assert (of_chars path <> ""%string) as Hpath by (by destruct path). cbn in Hn.
  destruct (moved (status_kind i w)) eqn:Em.
  - destruct fields as [|original fields]; [done|]. destruct (String.eqb_spec original ""); [done|].
    destruct (parse_entries fields) as [rest|] eqn:Er; [|done]. intros [= <-].
    destruct (IH fields rest) as [H1 ->]; [cbn in Hn; lia|done|]. split.
    + constructor; [|done]. constructor; cbn; [done|done|done|by rewrite Em].
    + cbn. by rewrite Em.
  - destruct (parse_entries fields) as [rest|] eqn:Er; [|done]. intros [= <-].
    destruct (IH fields rest) as [H1 ->]; [lia|done|]. split.
    + constructor; [|done]. constructor; cbn; [done|done|done|by rewrite Em].
    + cbn. by rewrite Em.
Qed.

Lemma print_fields_Join fields :
  fold_right (fun field out => field +:+ String NUL out) "" fields = Join (fields ++ [""%string]) (String NUL EmptyString).
Proof.
  induction fields as [|f fields IH]; [done|]. cbn [fold_right app]. rewrite IH.
  destruct (fields ++ [""%string]) as [|g rest] eqn:E; [by apply app_eq_nil in E as [_ ?]|]. by rewrite (Join_cons f).
Qed.

Lemma lacks_String sep c s : lacks sep (String c s) = negb (Ascii.eqb sep c) && lacks sep s.
Proof. reflexivity. Qed.

Lemma fields_lacks es : Forall status_ok es -> Forall status_lacks es <-> forallb (lacks NUL) (concat (map fields_of es)) = true.
Proof.
  induction es as [|e es IH]; [done|]. intros [[(H1 & H2 & H3) H4 H5 H6] Hes]%list.Forall_cons. specialize (IH Hes).
  cbn [map concat]. rewrite list.Forall_cons, forallb_app, andb_true_iff, IH. apply and_iff_compat_r.
  assert (forall c, status_code c = true -> Ascii.eqb NUL c = false) as Hc.
  { intros c. unfold status_code. rewrite existsb_exists. intros (d & Hd & ->%Ascii.eqb_eq).
    cbn in Hd. by repeat destruct Hd as [<-|Hd]. }
  assert (lacks NUL (String (Index e) (String (Worktree e) (String " " (Path e)))) = lacks NUL (Path e)) as Hl.
  { rewrite !lacks_String, !Hc by done. done. }
  unfold status_lacks, fields_of. cbn [forallb]. rewrite Hl. destruct (moved (Kind e)); cbn [forallb]; rewrite !andb_true_iff; [naive_solver|].
  rewrite H6. naive_solver.
Qed.

(** ** Theorems on the status *)

(** C32. The status is read exactly as git prints it: bytes are accepted precisely if they
    are the printed form of well-formed entries, every field ended by a NUL, and the
    entries are those that were printed, with their codes, paths and original paths. *)
Theorem porcelain_roundtrip (data : string) (entries : list StatusEntry) :
  ParsePorcelainV1 data = Ok entries <->
  Forall status_ok entries /\ Forall status_lacks entries /\ data = print_status entries.
Proof.
  unfold print_status. rewrite print_fields_Join. unfold ParsePorcelainV1. split.
  - destruct (String.eqb_spec data "") as [->|Hd]; [intros [= <-]; done|].
    pose proof (Split_nonempty data NUL) as Hne.
    destruct (exists_last Hne) as (front & x & E). rewrite E, removelast_last, last_last.
    destruct (parse_entries front) as [out|] eqn:Ep; [|done]. cbn. destruct (String.eqb_spec x ""); [subst x|done].
    intros [= <-]. apply (parse_entries_inv (length front)) in Ep as [Hok ->]; [|done].
    split_and!; [done| |].
    + apply (fields_lacks _ Hok). apply forallb_forall. intros f Hf. apply (Split_lacks data). rewrite E.
      apply elem_of_app. left. by apply list_elem_of_In.
    + rewrite <- E. by rewrite Join_Split.
  - intros (Hok & Hl & ->). apply (fields_lacks _ Hok) in Hl.
    destruct entries as [|e entries]; [done|].
    assert (Join (concat (map fields_of (e :: entries)) ++ [""%string]) (String NUL EmptyString) <> ""%string) as Hne
      by (by rewrite <- print_fields_Join).
    rewrite (proj2 (String.eqb_neq _ _) Hne), Split_Join; [|by destruct (concat _)|rewrite forallb_app; by rewrite Hl].
    rewrite removelast_last, last_last, parse_entries_ok by done. done.
Qed.

(** ** Fingerprints: the hashed text *)

Definition fits (s : string) : Prop := Z.of_nat (String.length s) < 2 ^ 64.

Definition entry_strings (e : FingerprintEntry) : list string := [fp_Scope e; fp_Status e; fp_Path e; fp_Mode e; fp_ContentHash e].
Definition entry_fits (e : FingerprintEntry) : Prop := Forall fits (entry_strings e).

Definition sized (s : string) : list ascii := chars (put_uint64 (Z.of_nat (String.length s))) ++ chars s.

Lemma byte_inj (a b : Z) :
  0 <= a < 256 -> 0 <= b < 256 -> ascii_of_N (Z.to_N a) = ascii_of_N (Z.to_N b) -> a = b.
Proof.
  intros Ha Hb H. apply (f_equal N_of_ascii) in H. rewrite !N_ascii_embedding in H by lia. lia.
Qed.

Lemma byte_range n k : 0 <= Z.land (Z.shiftr n k) 0xFF < 256.
Proof. change 0xFF with (Z.ones 8). rewrite Z.land_ones by lia. apply Z.mod_pos_bound. lia. Qed.

Lemma put_uint64_inj n m : 0 <= n < 2 ^ 64 -> 0 <= m < 2 ^ 64 -> put_uint64 n = put_uint64 m -> n = m.
Proof.
  intros Hn Hm H. apply (f_equal chars) in H. unfold put_uint64 in H. rewrite !chars_of_chars in H.
  assert (forall k, In k [7; 6; 5; 4; 3; 2; 1; 0] -> Z.land (Z.shiftr n (8 * k)) 0xFF = Z.land (Z.shiftr m (8 * k)) 0xFF) as Hb.
  { intros k Hk. apply byte_inj; [apply byte_range|apply byte_range|]. exact (proj1 map_ext_in_iff H k Hk). }
  assert (forall i, 64 <= i -> forall x, 0 <= x < 2 ^ 64 -> Z.testbit x i = false) as Hhigh.
  { intros i Hi x Hx. destruct (decide (x = 0)) as [->|Hx0]; [apply Z.bits_0|]. apply Z.bits_above_log2; [lia|].
    apply Z.log2_lt_pow2; [lia|]. apply (Z.lt_le_trans _ (2 ^ 64)); [lia|]. apply Z.pow_le_mono_r; lia. }
  apply Z.bits_inj'. intros i Hi. destruct (Z.le_gt_cases 64 i) as [H64|H64]; [by rewrite !Hhigh|].
  assert (forall x, Z.testbit x i = Z.testbit (Z.land (Z.shiftr x (8 * (i / 8))) 0xFF) (i mod 8)) as Hbit.
  { intros x. change 0xFF with (Z.ones 8). pose proof (Z.mod_pos_bound i 8).
    rewrite Z.land_spec, Z.shiftr_spec, Z.testbit_ones by lia.
    rewrite (proj2 (Z.leb_le 0 (i mod 8))), (proj2 (Z.ltb_lt (i mod 8) 8)), andb_true_r by lia. f_equal.
    pose proof (Z.div_mod i 8). lia. }
  rewrite (Hbit n), (Hbit m), Hb; [done|].
  assert (0 <= i / 8 <= 7) by (split; [apply Z.div_pos; lia|apply Z.lt_succ_r, Z.div_lt_upper_bound; lia]).
  cbn [In]. lia.
Qed.

Lemma sized_inj s t r r' : fits s -> fits t -> sized s ++ r = sized t ++ r' -> s = t /\ r = r'.
Proof.
  unfold sized, fits. intros Hs Ht H. rewrite <- !app_assoc in H. apply app_inj_1 in H as [H1 H2]; [|done].
  apply chars_inj, put_uint64_inj in H1; [|lia|lia]. apply app_inj_1 in H2 as [H2 H3]; [|by rewrite !length_chars; lia].
  split; [by apply chars_inj|done].
Qed.

Lemma sized_list_inj l l' : Forall fits l -> Forall fits l' -> concat (map sized l) = concat (map sized l') -> l = l'.
Proof.
  intros H. induction H as [|s l Hs Hl IH] in l' |- *; intros H'; destruct H' as [|s' l' Hs' Hl']; [done| | |].
  - intros E. by apply (f_equal length) in E.
  - intros E. by apply (f_equal length) in E.
  - intros E. cbn in E. apply sized_inj in E as [-> E]; [|done|done]. f_equal. by apply IH.
Qed.

Lemma frame_entries b es :
  chars (fold_left frame_entry es b) = chars b ++ concat (map sized (concat (map entry_strings es))).
Proof.
  induction es as [|e es IH] in b |- *; [by rewrite app_nil_r|]. cbn [fold_left]. rewrite IH.
  unfold frame_entry, appendSized. rewrite !chars_append. cbn [map concat entry_strings app]. unfold sized. rewrite <- !app_assoc. done.
Qed.

Lemma entry_strings_inj es es' : concat (map entry_strings es) = concat (map entry_strings es') -> es = es'.
Proof.
  induction es as [|[] es IH] in es' |- *; destruct es' as [|[] es']; cbn; try done.
  intros [= -> -> -> -> -> E]. f_equal. by apply IH.
Qed.

Lemma strings_fit es : Forall entry_fits es -> Forall fits (concat (map entry_strings es)).
Proof. induction 1 as [|e es He Hes IH]; [constructor|]. apply list.Forall_app. by split. Qed.

Lemma entries_text_inj es es' :
  Forall entry_fits es -> Forall entry_fits es' -> entries_text es = entries_text es' -> es = es'.
Proof.
  intros H H' E. apply (f_equal chars) in E. unfold entries_text in E. rewrite !frame_entries in E.
  apply entry_strings_inj. apply sized_list_inj; [by apply strings_fit..|exact E].
Qed.

(** *** The order of the entries *)

(** Entries are compared field by field. *)
Fixpoint lex_less (l k : list string) : bool :=
  match l, k with
  | s :: l, t :: k => if negb (s =? t)%string then String.ltb s t else lex_less l k
  | _, _ => false
  end.

Lemma compare_String a s b t :
  String.compare (String a s) (String b t) = match N.compare (N_of_ascii a) (N_of_ascii b) with Eq => String.compare s t | c => c end.
Proof. reflexivity. Qed.

Lemma compare_same s : String.compare s s = Eq.
Proof. induction s as [|a s IH]; [done|]. by rewrite compare_String, N.compare_refl. Qed.

Lemma ltb_irrefl s : String.ltb s s = false.
Proof. unfold String.ltb. by rewrite compare_same. Qed.

Lemma ltb_trans s t u : String.ltb s t = true -> String.ltb t u = true -> String.ltb s u = true.
Proof.
  unfold String.ltb. induction s as [|a s IH] in t, u |- *; destruct t as [|b t], u as [|c u]; try done.
  rewrite !compare_String. specialize (IH t u).
  destruct (N.compare_spec (N_of_ascii a) (N_of_ascii b)) as [E1|E1|E1], (N.compare_spec (N_of_ascii b) (N_of_ascii c)) as [E2|E2|E2];
    try done; intros H1 H2.
  - rewrite E1, E2, N.compare_refl. auto.
  - rewrite E1, (proj2 (N.compare_lt_iff _ _) E2). done.
  - rewrite <- E2, (proj2 (N.compare_lt_iff _ _) E1). done.
  - rewrite (proj2 (N.compare_lt_iff _ _) (N.lt_trans _ _ _ E1 E2)). done.
Qed.

Lemma ltb_total s t : s <> t -> String.ltb s t = false -> String.ltb t s = true.
Proof.
  unfold String.ltb. rewrite (String.compare_antisym t s). destruct (String.compare s t) eqn:E; try done.
  apply String.compare_eq_iff in E. done.
Qed.

Lemma tree_less_lex a b : tree_less a b = lex_less (entry_strings a) (entry_strings b).
Proof.
  unfold tree_less, entry_strings. cbn [lex_less].
  do 4 (destruct (_ =? _)%string; cbn [negb]; [|done]).
  destruct (String.eqb_spec (fp_ContentHash a) (fp_ContentHash b)) as [E|E]; cbn [negb]; [|done]. by rewrite E, ltb_irrefl.
Qed.

Lemma lex_less_irrefl l : lex_less l l = false.
Proof. induction l as [|s l IH]; [done|]. cbn. by rewrite String.eqb_refl. Qed.

Lemma lex_less_trans l k m : lex_less l k = true -> lex_less k m = true -> lex_less l m = true.
Proof.
  induction l as [|s l IH] in k, m |- *; destruct k as [|t k], m as [|u m]; try done. cbn.
  destruct (String.eqb_spec s t) as [E1|H1]; destruct (String.eqb_spec t u) as [E2|H2]; cbn.
  - subst t u. rewrite String.eqb_refl. cbn. apply IH.
  - subst t. rewrite (proj2 (String.eqb_neq s u) H2). done.
  - subst u. rewrite (proj2 (String.eqb_neq s t) H1). done.
  - destruct (String.eqb_spec s u) as [<-|H3]; cbn; [|apply ltb_trans].
    intros E1 E2. pose proof (ltb_trans _ _ _ E1 E2) as E. by rewrite ltb_irrefl in E.
Qed.

Lemma lex_less_total l k : length l = length k -> l <> k -> lex_less l k = false -> lex_less k l = true.
Proof.
  induction l as [|s l IH] in k |- *; destruct k as [|t k]; try done. cbn. intros [= Hl] Hne.
  destruct (String.eqb_spec s t) as [->|H]; cbn.
  - rewrite String.eqb_refl. cbn. apply IH; [done|congruence].
  - rewrite (proj2 (String.eqb_neq t s)) by congruence. by apply ltb_total.
Qed.

(** The order of [sort_slice] as a relation. *)
Definition tree_le (a b : FingerprintEntry) : Prop := tree_less b a = false.

#[export] Instance tree_le_trans : Transitive tree_le.
Proof.
  intros a b c H1 H2. unfold tree_le in *. rewrite tree_less_lex in *.
  destruct (lex_less (entry_strings c) (entry_strings a)) eqn:E; [|done]. exfalso.
  destruct (decide (entry_strings b = entry_strings a)) as [Eb|Eb]; [congruence|].
  pose proof (lex_less_total (entry_strings b) (entry_strings a) eq_refl Eb H1) as H3. rewrite (lex_less_trans _ _ _ E H3) in H2. done.
Qed.

#[export] Instance tree_le_antisymm : AntiSymm (=) tree_le.
Proof.
  intros a b H1 H2. unfold tree_le in *. rewrite tree_less_lex in *.
  apply dec_stable. intros Hne. assert (entry_strings b <> entry_strings a) as Hs.
  { intros E. apply Hne. destruct a, b. cbn in E. by simplify_eq. }
  by rewrite (lex_less_total (entry_strings b) (entry_strings a) eq_refl Hs H1) in H2.
Qed.

Lemma insert_sorted_perm x l : insert_sorted tree_less x l ≡ₚ x :: l.
Proof. induction l as [|y l IH]; [done|]. cbn. destruct (tree_less y x); [|done]. rewrite IH. apply perm_swap. Qed.

Lemma sort_slice_perm l : sort_slice tree_less l ≡ₚ l.
Proof. induction l as [|x l IH]; [done|]. cbn. by rewrite insert_sorted_perm, IH. Qed.

Lemma insert_sorted_ok x l : StronglySorted tree_le l -> StronglySorted tree_le (insert_sorted tree_less x l).
Proof.
  induction 1 as [|y l Hl IH Hy]; cbn; [by repeat constructor|]. destruct (tree_less y x) eqn:E.
  - constructor; [done|]. rewrite insert_sorted_perm. constructor; [|done]. unfold tree_le.
    destruct (tree_less x y) eqn:E'; [|done]. rewrite tree_less_lex in E, E'.
    pose proof (lex_less_trans _ _ _ E E') as H. by rewrite lex_less_irrefl in H.
  - constructor; [by constructor|]. constructor; [done|]. eapply Forall_impl; [|exact Hy]. intros z Hz. by transitivity y.
Qed.

Lemma sort_slice_ok l : StronglySorted tree_le (sort_slice tree_less l).
Proof. induction l as [|x l IH]; [constructor|]. by apply insert_sorted_ok. Qed.

Lemma sort_slice_eq l k : l ≡ₚ k -> sort_slice tree_less l = sort_slice tree_less k.
Proof.
  intros H. apply (StronglySorted_unique tree_le); [apply sort_slice_ok|apply sort_slice_ok|]. by rewrite !sort_slice_perm.
Qed.

(** ** Theorem on fingerprints *)

(** The text whose hash is the fingerprint of a working tree determines the head and
    the entries, and depends on nothing else: for strings shorter than 2^64 bytes, two
    texts are equal exactly if the heads are equal and the entries are the same up to
    their order.  No choice of file names or contents makes two trees look the same. *)
Theorem tree_text_correct (head head' : string) (entries entries' : list FingerprintEntry) :
  fits head -> fits head' -> Forall entry_fits entries -> Forall entry_fits entries' ->
  tree_text head entries = tree_text head' entries' <-> head = head' /\ entries ≡ₚ entries'.
Proof.
  intros Hh Hh' He He'. unfold tree_text. split.
  - assert (forall h es, fits h -> Forall entry_fits es -> Forall entry_fits (mkFP "head" "" "" "" h :: sort_slice tree_less es)) as Hall.
    { intros h es Hf Hes. constructor; [|by rewrite sort_slice_perm]. unfold entry_fits. cbn. by repeat constructor. }
    intros E. apply entries_text_inj in E; [|by apply Hall..]. injection E as -> E. split; [done|].
    rewrite <- (sort_slice_perm entries), <- (sort_slice_perm entries'). by rewrite E.
  - intros [-> H]. by rewrite (sort_slice_eq _ _ H).
Qed.

Lemma tree_text_correct_witness :
  fits "a" /\ (tree_text "a" [mkFP "x" "" "p" "" ""; mkFP "x" "" "q" "" ""] = tree_text "a" [mkFP "x" "" "q" "" ""; mkFP "x" "" "p" "" ""]
    <-> "a"%string = "a"%string /\ [mkFP "x" "" "p" "" ""; mkFP "x" "" "q" "" ""] ≡ₚ [mkFP "x" "" "q" "" ""; mkFP "x" "" "p" "" ""]).
Proof.
  split; [done|]. apply (tree_text_correct "a" "a"); [done|done| |]; repeat constructor.
Defined.
