(* ===== verification/Detect.v ===== *)
(** * What the screen of a supervised CLI shows ([internal/supervisor/detect])

    The classification of one observation of the screen: the patterns, the
    detectors, and the composite that applies them in order of priority.  Rows are
    lists of runes; the Unicode tables are parameters. *)

From S2P Require Import Prelude.
From S2P Require Import UTF8.
From S2P Require Import Errors.
From S2P Require Import TextPolicy.
From S2P Require Import Session.
From S2P Require Import SendGate.
From S2P Require Import VTerm.

(** [unicode.L] and [unicode.N] *)
Class LetterTables : Type := { isL : Z -> bool; isN : Z -> bool }.

(** ** Patterns *)

(** How a pattern is matched against a trimmed row; a regular expression is the test it
    stands for. *)
Inductive LinePattern : Type :=
| LinePrefix (text : row)
| LineExact (text : row)
| LineRegex (matches : row -> bool).

Record DetectorPatternSet : Type := mkPatterns {
  IdleTop : row; IdleBottom : row; Prompt : row;
  Working : list (list row); Recommendation : list (list row); UnsafeFooter : list (list row);
  Permission : list (list LinePattern);
  ObservedWorking : bool; ObservedRecommendation : bool }.

(** [\s] *)
Definition re_space (r : Z) : bool := (r =? 9) || (r =? 10) || (r =? 12) || (r =? 13) || (r =? 32).

(** [(\s|$)] *)
Definition re_space_or_end (s : row) : bool := match s with [] => true | r :: _ => re_space r end.

Fixpoint skip (p : Z -> bool) (s : row) : row :=
  match s with r :: s' => if p r then skip p s' else s | [] => [] end.

(** [^❯?\s*1\. Yes(\s|$)] *)
Definition yes_line (s : row) : bool :=
  let s := match s with 0x276F :: s' => s' | _ => s end in
  let s := skip re_space s in
  has_prefix (runes "1. Yes") s && re_space_or_end (drop 6 s).

Definition DefaultPatternSet : DetectorPatternSet :=
  mkPatterns [0x2500] [0x2500] [0x276F; 0xA0] [] []
    [[runes "auto mode on"]; [runes "bypass permissions on"]]
    [[LinePrefix (runes "Quick safety check: Is this a project you created or one you trust?");
      LineExact (runes "Enter to confirm · Esc to cancel")];
     [LineExact (runes "Do you want to proceed?"); LineRegex yes_line]]
    true true.

(** The rows after the first that satisfies [p], if one does. *)
Fixpoint after_first (p : row -> bool) (rows : list row) : option (list row) :=
  match rows with
  | [] => None
  | r :: rows => if p r then Some rows else after_first p rows
  end.

Fixpoint group_in_order {A : Type} (matches : A -> row -> bool) (rows : list row) (group : list A) : bool :=
  match group with
  | [] => true
  | p :: group =>
      match after_first (matches p) rows with
      | Some rows => group_in_order matches rows group
      | None => false
      end
  end.

(** [strings.Contains], where the empty pattern is never found *)
Definition mentions_text (p r : row) : bool := negb (bool_decide (p = [])) && contains p r.

Definition groupFound (rows : list row) (g : list row) : bool :=
  negb (bool_decide (g = [])) && group_in_order mentions_text rows g.

Definition containsAny (rows : list row) (groups : list (list row)) : bool := existsb (groupFound rows) groups.

Definition linePatternMatches (r : row) (pattern : LinePattern) : bool :=
  match pattern with
  | LinePrefix text => negb (bool_decide (text = [])) && has_prefix text r
  | LineExact text => negb (bool_decide (text = [])) && bool_decide (r = text)
  | LineRegex matches => matches r
  end.

Definition orderedLinePatternFound (rows : list row) (group : list LinePattern) : bool :=
  match group with
  | [] => false
  | _ => group_in_order (fun p r => linePatternMatches (TrimSpace r) p) rows group
  end.

(** ** The input row *)

Definition allBorder (r border : row) : bool :=
  negb (bool_decide (r = [])) && negb (bool_decide (border = [])) && forallb (fun x => existsb (Z.eqb x) border) r.

Definition is_input_row (rows : list row) (p : DetectorPatternSet) (i : Z) : bool :=
  has_prefix (Prompt p) (row_at rows i) && allBorder (row_at rows (i - 1)) (IdleTop p)
  && allBorder (row_at rows (i + 1)) (IdleBottom p).

(** The lowest input row; -1 if there is none. *)
Definition lastInputRow (rows : list row) (p : DetectorPatternSet) : Z :=
  if bool_decide (Prompt p = []) || bool_decide (IdleTop p = []) || bool_decide (IdleBottom p = []) then -1
  else
    let n := Z.of_nat (length rows) in
    match first_below (Z.to_nat (n - 2)) (n - 2) (is_input_row rows p) with
    | Some i => i
    | None => -1
    end.

Definition hasIdle (rows : list row) (p : DetectorPatternSet) : bool := 0 <=? lastInputRow rows p.

Definition IsInputBlank (patterns : DetectorPatternSet) (rows : list row) (cells : list (list Cell)) : bool :=
  if negb (Nat.eqb (length cells) (length rows)) then false
  else
    let i := lastInputRow rows patterns in
    if i <? 0 then false
    else
      let line := default [] (cells !! Z.to_nat i) in
      let markerColumns := length (Prompt patterns) in
      if Nat.ltb (length line) markerColumns then false
      else forallb (fun c => bool_decide (Cell_Text c = []) || bool_decide (Cell_Text c = [32])
                             || bool_decide (Cell_Text c = [0xA0]) || Cell_Faint c) (drop markerColumns line).

(** ** The status row *)

Section Detectors.
Context `{LetterTables}.

Definition ascii_letter (r : Z) : bool := between 65 90 r || between 97 122 r.

(** [^[^\pL\pN\s] [A-Za-z]+…(\s|$)] *)
Definition observedWorkingLine (s : row) : bool :=
  match s with
  | r0 :: 32 :: r1 :: s =>
      negb (isL r0) && negb (isN r0) && negb (re_space r0) && ascii_letter r1
      && match skip ascii_letter s with 0x2026 :: s => re_space_or_end s | _ => false end
  | _ => false
  end.

(** The row of the sign from which the row [i] continues, at most [n] rows above. *)
Fixpoint auxiliaryRowStart_from (n : nat) (rows : list row) (i : Z) : Z :=
  match n with
  | O => -1
  | S n =>
      if has_prefix [0x23BF] (TrimSpace (row_at rows i)) then i
      else match row_at rows i with
           | r :: _ => if IsSpace r then auxiliaryRowStart_from n rows (i - 1) else -1
           | [] => -1
           end
  end.
Definition auxiliaryRowStart (rows : list row) (end_ : Z) : Z := auxiliaryRowStart_from (Z.to_nat (end_ + 1)) rows end_.

(** The loop down from the row [i]; [fuel] bounds the rows above. *)
Fixpoint status_working (fuel : nat) (rows : list row) (i : Z) : bool :=
  match fuel with
  | O => false
  | S fuel =>
      if i <? 0 then false
      else if blank (row_at rows i) then status_working fuel rows (i - 1)
      else
        let start := auxiliaryRowStart rows i in
        if 0 <=? start then status_working fuel rows (start - 1)
        else observedWorkingLine (row_at rows i)
  end.

Definition hasObservedWorking (rows : list row) (p : DetectorPatternSet) : bool :=
  status_working (S (length rows)) rows (lastInputRow rows p - 2).

(** ** Detectors *)

Definition QuietPeriod : Duration := 5 * Second.

Inductive DetectedState : Type :=
| StateIdle
| StateWorking
| StateAwaitingPermission
| StateAwaitingRecommendation
| StateExited
| StateUndetermined
| NoDetectedState.  (* the zero value *)

#[export] Instance DetectedState_eq_dec : EqDecision DetectedState.
Proof. solve_decision. Defined.

(** [supervisor.SupervisorSessionState(state)] *)
Definition session_state (s : DetectedState) : SupervisorSessionState :=
  match s with
  | StateIdle => SessionIdle
  | StateWorking => SessionWorking
  | StateAwaitingPermission => SessionAwaitingPermission
  | StateAwaitingRecommendation => SessionAwaitingRecommendation
  | StateExited => SessionExited
  | StateUndetermined => SupervisorSessionStateOther "undetermined"
  | NoDetectedState => NoSessionState
  end.

Inductive PermissionMode : Type := PermissionDefaultOrUnknown | PermissionUnsafe.

Record StructuredInfo : Type := mkStructured { si_ObservedAt : Time; UsedPercentage : Z; si_SessionID : string }.

Record DetectInput : Type := mkDetectInput {
  di_CLI : SupervisorCli;
  ScreenRows : list row;
  LastScreenChangeAt : Time;
  ProcessExited : bool;
  Structured : option StructuredInfo;
  LastSendConfirmedAt : option Time;
  di_Now : Time;
  di_Patterns : option DetectorPatternSet;
  PatternsByCLI : SupervisorCli -> option DetectorPatternSet }.

Record DetectResult : Type := mkDetectResult {
  dr_State : DetectedState;
  Basis : list DetectionBasis;
  ProcessingIndicator : bool;
  ContextPercent : option Z;
  dr_SessionID : string;
  dr_PermissionMode : PermissionMode }.

Definition addBasis (dst : list DetectionBasis) (b : DetectionBasis) : list DetectionBasis :=
  if existsb (fun v => bool_decide (v = b)) dst then dst else dst ++ [b].

Definition IsQuiet (period : Duration) (i : DetectInput) : bool :=
  let period := if period <=? 0 then QuietPeriod else period in
  negb (IsZero (LastScreenChangeAt i)) && negb (IsZero (di_Now i)) && negb (Before (di_Now i) (LastScreenChangeAt i))
  && (period <=? Sub (di_Now i) (LastScreenChangeAt i)).

Definition recentlyChanged (i : DetectInput) (period : Duration) : bool :=
  negb (IsZero (LastScreenChangeAt i)) && negb (IsZero (di_Now i)) && negb (Before (di_Now i) (LastScreenChangeAt i))
  && (Sub (di_Now i) (LastScreenChangeAt i) <? period).

(** The permission mode that the footer below the input row shows. *)
Definition footer_mode (p : DetectorPatternSet) (rows : list row) : PermissionMode :=
  let i := lastInputRow rows p in
  let footer := if 0 <=? i then drop (Z.to_nat (i + 2)) rows else [] in
  if existsb (fun r => existsb (fun g => match g with [] => false | text :: _ => contains text r end) (UnsafeFooter p)) footer
  then PermissionUnsafe else PermissionDefaultOrUnknown.

(** The context percentage and the session identifier, if they are fresh. *)
Definition structured_detect (i : DetectInput) : option Z * string :=
  match Structured i with
  | None => (None, "")
  | Some info =>
      if (UsedPercentage info <? 0) || (100 <? UsedPercentage info) then (None, "")
      else if match LastSendConfirmedAt i with Some at_ => Before (si_ObservedAt info) at_ | None => false end
      then (None, "")
      else (Some (UsedPercentage info), si_SessionID info)
  end.

Definition no_patterns (p : DetectorPatternSet) : bool :=
  bool_decide (IdleTop p = []) && bool_decide (IdleBottom p = []) && bool_decide (Prompt p = [])
  && match Working p with [] => true | _ => false end && match Permission p with [] => true | _ => false end
  && match Recommendation p with [] => true | _ => false end && match UnsafeFooter p with [] => true | _ => false end.

(** The patterns in force: those of the observation, of the CLI, or of the detector. *)
Definition patterns_for (own : DetectorPatternSet) (i : DetectInput) : DetectorPatternSet :=
  let p := if bool_decide (di_CLI i = SupervisorCliOther "") then own else default own (PatternsByCLI i (di_CLI i)) in
  let p := default p (di_Patterns i) in
  if no_patterns p then DefaultPatternSet else p.

(** [CompositeDetector]: its patterns and the period of its quiet detector *)
Definition Detect (own : DetectorPatternSet) (period : Duration) (i : DetectInput) : DetectResult :=
  let p := patterns_for own i in
  let rows := ScreenRows i in
  let quiet := IsQuiet period i in
  let working := containsAny rows (Working p) || ObservedWorking p && hasObservedWorking rows p in
  let permission := existsb (orderedLinePatternFound rows) (Permission p) in
  let idle := hasIdle rows p in
  let recommendation :=
    containsAny rows (Recommendation p)
    || ObservedRecommendation p && idle && quiet && is_some (ObservedRecommendationBounds rows) in
  let '(state, basis, processing) :=
    if ProcessExited i then (StateExited, [DetectionProcessExit], false)
    else if working then (StateWorking, [DetectionScreenPattern], true)
    else if permission && recommendation then (StateUndetermined, [DetectionScreenPattern], false)
    else if permission then (StateAwaitingPermission, [DetectionScreenPattern], false)
    else if recommendation && quiet then (StateAwaitingRecommendation, [DetectionScreenPattern; DetectionOutputQuiet], false)
    else if idle && quiet then (StateIdle, [DetectionScreenPattern; DetectionOutputQuiet], false)
    else if recentlyChanged i period then (StateWorking, [DetectionOutputQuiet], false)
    else (StateUndetermined, [], false) in
  let '(percent, session) := structured_detect i in
  let basis := match percent with Some _ => addBasis basis DetectionStructuredInfo | None => basis end in
  mkDetectResult state basis processing percent session (footer_mode (default p (di_Patterns i)) rows).
End Detectors.

(** ** Declarative readings of the loops *)

(** The patterns of the group match rows of the screen, from top to bottom. *)
Definition shows_in_order {A : Type} (matches : A -> row -> bool) (group : list A) (rows : list row) : Prop :=
  exists shown, shown `sublist_of` rows /\ Forall2 (fun p r => matches p r = true) group shown.

Lemma after_first_spec (p : row -> bool) (rows rest : list row) :
  after_first p rows = Some rest <->
  exists above r, rows = above ++ r :: rest /\ p r = true /\ Forall (fun x => p x = false) above.
Proof.
  induction rows as [|x rows IH] in rest |- *; cbn [after_first].
  { split; [discriminate|]. intros (above & r & E & _). by destruct above. }
  destruct (p x) eqn:Ex.
  - split.
    + intros [= ->]. by exists [], x.
    + intros ([|y above] & r & E & Er & F); simplify_eq/=; [done|]. apply list.Forall_cons in F as [? ?]. congruence.
  - rewrite IH. split.
    + intros (above & r & -> & Er & F). exists (x :: above), r. split_and!; [done..|]. by apply list.Forall_cons.
    + intros ([|y above] & r & E & Er & F); simplify_eq/=; [congruence|]. apply list.Forall_cons in F as [_ F].
      by exists above, r.
Qed.

Lemma after_first_None (p : row -> bool) (rows : list row) :
  after_first p rows = None <-> Forall (fun x => p x = false) rows.
Proof.
  induction rows as [|x rows IH]; cbn [after_first]; [by split|].
  rewrite list.Forall_cons. destruct (p x); naive_solver.
Qed.

(** Taking the first match of each pattern finds the group whenever it can be found. *)
Lemma group_in_order_spec {A : Type} (matches : A -> row -> bool) (rows : list row) (group : list A) :
  group_in_order matches rows group = true <-> shows_in_order matches group rows.
Proof.
  unfold shows_in_order. induction group as [|p group IH] in rows |- *; cbn [group_in_order].
  { split; [|done]. intros _. exists []. split; [apply sublist_nil_l|constructor]. }
  destruct (after_first (matches p) rows) as [rest|] eqn:E.
  - apply after_first_spec in E as (above & r & -> & Er & F). rewrite IH. split.
    + intros (shown & Hs & Fs). exists (r :: shown). split; [|by constructor].
      apply sublist_inserts_l. by apply sublist_skip.
    + intros (shown & Hs & Fs). inversion Fs as [|? y ? shown' Hy Fs']; subst.
      exists shown'. split; [|done].
      apply sublist_app_r in Hs as (l1 & l2 & El & Hl1 & Hl2). destruct l1 as [|z l1]; cbn in El.
      * subst l2. apply sublist_cons_r in Hl2 as [Hl2|(l & [= -> ->] & Hl)]; [|done].
        etrans; [|exact Hl2]. by apply sublist_cons.
      * injection El as -> ->. apply sublist_cons_l in Hl1 as (k1 & k2 & -> & _).
        apply list.Forall_app in F as [_ F]. apply list.Forall_cons in F as [F _]. congruence.
  - apply after_first_None in E. split; [done|].
    intros (shown & Hs & Fs). inversion Fs as [|? y ? shown' Hy Fs']; subst.
    apply sublist_cons_l in Hs as (k1 & k2 & -> & _).
    apply list.Forall_app in E as [_ E]. apply list.Forall_cons in E as [E _]. congruence.
Qed.

Lemma groupFound_spec (rows : list row) (g : list row) :
  groupFound rows g = true <-> g <> [] /\ shows_in_order mentions_text g rows.
Proof. unfold groupFound. by rewrite andb_true_iff, negb_true_iff, bool_decide_eq_false, group_in_order_spec. Qed.

Lemma containsAny_spec (rows : list row) (groups : list (list row)) :
  containsAny rows groups = true <-> exists g, g ∈ groups /\ g <> [] /\ shows_in_order mentions_text g rows.
Proof.
  unfold containsAny. rewrite existsb_exists.
  split; intros (g & Hg & H); exists g; (split; [by apply list_elem_of_In|by apply groupFound_spec]).
Qed.

(** A row shows a pattern of a dialog. *)
Definition shows_line (p : LinePattern) (r : row) : bool := linePatternMatches (TrimSpace r) p.

Lemma orderedLinePatternFound_spec (rows : list row) (g : list LinePattern) :
  orderedLinePatternFound rows g = true <-> g <> [] /\ shows_in_order shows_line g rows.
Proof.
  destruct g as [|p g]; [by split; [|intros []]|].
  unfold orderedLinePatternFound. rewrite group_in_order_spec. naive_solver.
Qed.

(** The row the CLI reads from: the lowest prompt between two rules. *)
Record active_input (p : DetectorPatternSet) (rows : list row) (i : Z) : Prop := {
  ai_marks : Prompt p <> [] /\ IdleTop p <> [] /\ IdleBottom p <> [];
  ai_inside : 1 <= i <= Z.of_nat (length rows) - 2;
  ai_framed : is_input_row rows p i = true;
  ai_lowest : forall j, i < j <= Z.of_nat (length rows) - 2 -> is_input_row rows p j = false }.

Lemma lastInputRow_spec (rows : list row) (p : DetectorPatternSet) (i : Z) :
  0 <= i -> lastInputRow rows p = i <-> active_input p rows i.
Proof.
  intros Hi. unfold lastInputRow.
  destruct (bool_decide (Prompt p = []) || bool_decide (IdleTop p = []) || bool_decide (IdleBottom p = [])) eqn:Em.
  - split; [lia|]. intros [(H1 & H2 & H3) _ _ _]. exfalso.
    rewrite !orb_true_iff, !bool_decide_eq_true in Em. tauto.
  - rewrite !orb_false_iff, !bool_decide_eq_false in Em.
    destruct (first_below _ _ _) as [k|] eqn:E.
    + apply first_below_Some in E as (H1 & H2 & H3). split.
      * intros ->. split; [tauto|lia|done|done].
      * intros [_ H4 H5 H6]. destruct (Z.lt_trichotomy k i) as [H|[H|H]]; [|done|].
        -- rewrite H3 in H5 by lia. done.
        -- rewrite H6 in H2 by lia. done.
    + split; [lia|]. intros [_ H4 H5 _]. exfalso. eapply first_below_None in E; [|split]; [by rewrite H5 in E|lia|lia].
Qed.

Lemma hasIdle_spec (rows : list row) (p : DetectorPatternSet) :
  hasIdle rows p = true <-> exists i, active_input p rows i.
Proof.
  unfold hasIdle. rewrite Z.leb_le. split.
  - intros H. exists (lastInputRow rows p). by apply lastInputRow_spec.
  - intros (i & Hi). assert (0 <= i) by (destruct Hi; lia). apply lastInputRow_spec in Hi as ->; lia.
Qed.

(** A row that continues the auxiliary output begun by a sign above it or on it. *)
Definition auxiliary (rows : list row) (k : Z) : Prop :=
  exists s, 0 <= s <= k /\ has_prefix [0x23BF] (TrimSpace (row_at rows s)) = true
    /\ forall j, s < j <= k -> exists r l, row_at rows j = r :: l /\ IsSpace r = true.

Lemma auxiliaryRowStart_from_spec (n : nat) (rows : list row) (i : Z) :
  i + 1 <= Z.of_nat n ->
  let start := auxiliaryRowStart_from n rows i in
  (0 <= start <= i /\ has_prefix [0x23BF] (TrimSpace (row_at rows start)) = true
   /\ forall j, start < j <= i -> exists r l, row_at rows j = r :: l /\ IsSpace r = true)
  \/ (start = -1 /\ ~ auxiliary rows i).
Proof.
  induction n as [|n IH] in i |- *; intros Hn; cbn [auxiliaryRowStart_from].
  { right. split; [done|]. intros (s & Hs & _). lia. }
  destruct (has_prefix [0x23BF] (TrimSpace (row_at rows i))) eqn:Es.
  { left. destruct (decide (0 <= i)) as [Hi|Hi].
    - split_and!; [lia|lia|done|lia].
    - unfold row_at in Es. by replace (i <? 0) with true in Es by lia. }
  assert (Hstop : forall s, 0 <= s <= i -> has_prefix [0x23BF] (TrimSpace (row_at rows s)) = true -> s < i).
  { intros s Hs H. destruct (decide (s = i)) as [->|]; [congruence|lia]. }
  destruct (row_at rows i) as [|r l] eqn:Er; [|destruct (IsSpace r) eqn:Esp].
  - right. split; [done|]. intros (s & Hs & Hp & Hc). destruct (Hc i) as (? & ? & ? & ?); [|congruence].
    specialize (Hstop s Hs Hp). lia.
  - destruct (IH (i - 1)) as [(H1 & H2 & H3)|[H1 H2]]; [lia|..]; [left|right].
    + split_and!; [lia|lia|done|]. intros j Hj.
      destruct (decide (j = i)) as [->|]; [by exists r, l|apply H3; lia].
    + split; [done|]. intros (s & Hs & Hp & Hc). apply H2. specialize (Hstop s Hs Hp).
      exists s. split_and!; [lia|lia|done|]. intros j Hj. apply Hc. lia.
  - right. split; [done|]. intros (s & Hs & Hp & Hc). destruct (Hc i) as (? & ? & ? & ?); [|congruence].
    specialize (Hstop s Hs Hp). lia.
Qed.

Lemma auxiliary_below (rows : list row) (s k i : Z) :
  0 <= s -> has_prefix [0x23BF] (TrimSpace (row_at rows s)) = true ->
  (forall j, s < j <= i -> exists r l, row_at rows j = r :: l /\ IsSpace r = true) ->
  s <= k <= i -> auxiliary rows k.
Proof. intros Hs Hp Hc Hk. exists s. split_and!; [lia|lia|done|]. intros j Hj. apply Hc. lia. Qed.

Section Observations.
Context `{LetterTables}.

(** The status row: the lowest row from [i] upwards that is neither blank nor auxiliary. *)
Definition status_row (rows : list row) (i j : Z) : Prop :=
  0 <= j <= i /\ blank (row_at rows j) = false /\ ~ auxiliary rows j
  /\ forall k, j < k <= i -> blank (row_at rows k) = true \/ auxiliary rows k.

Lemma status_working_spec (fuel : nat) (rows : list row) (i : Z) :
  i + 1 < Z.of_nat fuel ->
  status_working fuel rows i = true <-> exists j, status_row rows i j /\ observedWorkingLine (row_at rows j) = true.
Proof.
  induction fuel as [|fuel IH] in i |- *; intros Hf; cbn [status_working].
  { split; [done|]. intros (j & (Hj & _) & _). lia. }
  destruct (i <? 0) eqn:Ei.
  { split; [done|]. intros (j & (Hj & _) & _). lia. }
  assert (Hskip : forall s, s <= i -> (forall k, s <= k <= i -> blank (row_at rows k) = true \/ auxiliary rows k) ->
    (exists j, status_row rows (s - 1) j /\ observedWorkingLine (row_at rows j) = true)
    <-> (exists j, status_row rows i j /\ observedWorkingLine (row_at rows j) = true)).
  { intros s Hs Hk. split; intros (j & (Hj & Hb & Ha & Hr) & Hw); exists j; (split; [|done]); split_and!; try done; try lia.
    - intros k Hki. destruct (decide (s <= k)); [apply Hk; lia|apply Hr; lia].
    - destruct (decide (s <= j)) as [Hsj|]; [|lia]. exfalso. destruct (Hk j) as [H1|H1]; [lia|congruence|done].
    - intros k Hki. apply Hr. lia. }
  destruct (blank (row_at rows i)) eqn:Eb.
  { rewrite IH by lia. apply Hskip; [lia|]. intros k Hk. left. by replace k with i by lia. }
  pose proof (auxiliaryRowStart_from_spec (Z.to_nat (i + 1)) rows i ltac:(lia)) as Haux. cbn zeta in Haux.
  change (auxiliaryRowStart_from _ rows i) with (auxiliaryRowStart rows i) in Haux.
  destruct Haux as [(H1 & H2 & H3)|[-> Hno]].
  - replace (0 <=? auxiliaryRowStart rows i) with true by lia. rewrite IH by lia. apply Hskip; [lia|].
    intros k Hk. right. eapply auxiliary_below; [|exact H2|exact H3|exact Hk]. lia.
  - cbn [Z.leb]. split.
    + intros Hw. exists i. split; [|done]. split_and!; [lia|lia|done|done|lia].
    + intros (j & (Hj & Hb & Ha & Hr) & Hw).
      destruct (decide (j = i)) as [->|]; [done|]. destruct (Hr i) as [?|?]; [lia|congruence|done].
Qed.

Lemma hasObservedWorking_spec (rows : list row) (p : DetectorPatternSet) :
  hasObservedWorking rows p = true <->
  exists i j, active_input p rows i /\ status_row rows (i - 2) j /\ observedWorkingLine (row_at rows j) = true.
Proof.
  unfold hasObservedWorking.
  destruct (decide (0 <= lastInputRow rows p)) as [Hi|Hi].
  - pose proof (proj1 (lastInputRow_spec rows p _ Hi) eq_refl) as Ha.
    rewrite status_working_spec by (destruct Ha; lia). split.
    + intros (j & Hj). by exists (lastInputRow rows p), j.
    + intros (i & j & Hx & Hj). assert (0 <= i) by (destruct Hx; lia).
      apply lastInputRow_spec in Hx as <-; [|done]. by exists j.
  - cbn [status_working]. replace (lastInputRow rows p - 2 <? 0) with true by lia. split; [done|].
    intros (i & j & Hx & _). assert (0 <= i) by (destruct Hx; lia). apply lastInputRow_spec in Hx; lia.
Qed.

(** The screen has stood still for the period. *)
Definition still_for (period : Duration) (i : DetectInput) : Prop :=
  IsZero (LastScreenChangeAt i) = false /\ IsZero (di_Now i) = false
  /\ Before (di_Now i) (LastScreenChangeAt i) = false
  /\ (if period <=? 0 then QuietPeriod else period) <= Sub (di_Now i) (LastScreenChangeAt i).

Lemma IsQuiet_spec (period : Duration) (i : DetectInput) : IsQuiet period i = true <-> still_for period i.
Proof.
  unfold IsQuiet, still_for. rewrite !andb_true_iff, !negb_true_iff, Z.leb_le. tauto.
Qed.

(** The CLI lives, has stood still, and shows neither that it works nor a dialog. *)
Record settled (p : DetectorPatternSet) (period : Duration) (i : DetectInput) : Prop := {
  se_alive : ProcessExited i = false;
  se_still : still_for period i;
  se_no_pattern : forall g, g ∈ Working p -> g <> [] -> ~ shows_in_order mentions_text g (ScreenRows i);
  se_no_status : ObservedWorking p = true -> forall a j, active_input p (ScreenRows i) a ->
    status_row (ScreenRows i) (a - 2) j -> observedWorkingLine (row_at (ScreenRows i) j) = false;
  se_no_dialog : forall g, g ∈ Permission p -> g <> [] -> ~ shows_in_order shows_line g (ScreenRows i) }.

(** The screen shows a recommendation. *)
Definition recommends (p : DetectorPatternSet) (rows : list row) : Prop :=
  (exists g, g ∈ Recommendation p /\ g <> [] /\ shows_in_order mentions_text g rows)
  \/ ObservedRecommendation p = true /\ (exists a, active_input p rows a)
     /\ is_some (ObservedRecommendationBounds rows) = true.

Lemma not_true_all {A : Type} (b : bool) (P : A -> Prop) : (b = true <-> exists x, P x) -> b = false <-> forall x, ~ P x.
Proof. rewrite <- not_true_iff_false. intros ->. naive_solver. Qed.

Lemma settled_spec (own : DetectorPatternSet) (period : Duration) (i : DetectInput) :
  let p := patterns_for own i in
  settled p period i <->
  ProcessExited i = false /\ IsQuiet period i = true
  /\ containsAny (ScreenRows i) (Working p) || ObservedWorking p && hasObservedWorking (ScreenRows i) p = false
  /\ existsb (orderedLinePatternFound (ScreenRows i)) (Permission p) = false.
Proof.
  intros p.
  assert (Hd : existsb (orderedLinePatternFound (ScreenRows i)) (Permission p) = true
    <-> exists g, g ∈ Permission p /\ g <> [] /\ shows_in_order shows_line g (ScreenRows i)).
  { rewrite existsb_exists. by setoid_rewrite orderedLinePatternFound_spec; setoid_rewrite <- list_elem_of_In. }
  apply not_true_all in Hd. rewrite Hd, orb_false_iff, (not_true_all _ _ (containsAny_spec _ _)), IsQuiet_spec, andb_false_iff.
  split.
  - intros [H1 H2 H3 H4 H5]. split_and!; [done|done|..].
    + intros g (Hg & Hn & Hs). by apply (H3 g).
    + destruct (ObservedWorking p) eqn:Eo; [right|by left]. apply not_true_iff_false.
      intros (a & j & Ha & Hj & Hw)%hasObservedWorking_spec. specialize (H4 eq_refl a j Ha Hj). congruence.
    + intros g (Hg & Hn & Hs). by apply (H5 g).
  - intros (H1 & H2 & [H3 H4] & H5). split; [done|done|naive_solver| |naive_solver].
    intros Eo a j Ha Hj. destruct H4 as [H4|H4]; [congruence|]. apply not_true_iff_false. intros Hw.
    apply not_true_iff_false in H4. apply H4, hasObservedWorking_spec. by exists a, j.
Qed.

Lemma recommends_spec (own : DetectorPatternSet) (period : Duration) (i : DetectInput) :
  IsQuiet period i = true ->
  let p := patterns_for own i in
  containsAny (ScreenRows i) (Recommendation p)
  || ObservedRecommendation p && hasIdle (ScreenRows i) p && IsQuiet period i && is_some (ObservedRecommendationBounds (ScreenRows i)) = true
  <-> recommends p (ScreenRows i).
Proof.
  intros Hq p. rewrite Hq, andb_true_r. unfold recommends.
  rewrite orb_true_iff, containsAny_spec, !andb_true_iff, hasIdle_spec. tauto.
Qed.

(** What a detected state that allows a send says: the screen is detected as idle
    exactly when the CLI lives, has stood still for the period, shows neither work nor a
    dialog nor a recommendation, and has an input row between two rules; and as awaiting
    the answer to a recommendation exactly when it shows one under the same conditions.
    The conditions speak of the rows themselves: a group of patterns is found whenever
    some choice of rows from top to bottom matches it, the input row is the lowest, and
    the status row is the lowest one above it that is neither blank nor auxiliary. *)
Theorem Detect_sendable_correct (own : DetectorPatternSet) (period : Duration) (i : DetectInput) :
  let p := patterns_for own i in
  (dr_State (Detect own period i) = StateIdle
   <-> settled p period i /\ (exists a, active_input p (ScreenRows i) a) /\ ~ recommends p (ScreenRows i))
  /\ (dr_State (Detect own period i) = StateAwaitingRecommendation
      <-> settled p period i /\ recommends p (ScreenRows i)).
Proof.
  intros p. unfold p. rewrite settled_spec. cbn zeta. unfold Detect. cbn zeta.
  rewrite <- hasIdle_spec.
  destruct (ProcessExited i); [by destruct (structured_detect i); split; split; naive_solver|].
  destruct (_ || _ && hasObservedWorking _ _); [by destruct (structured_detect i); split; split; naive_solver|].
  destruct (IsQuiet period i) eqn:Hq.
  - rewrite <- (recommends_spec own period i Hq), Hq. cbn zeta.
    destruct (_ || _ && is_some _), (existsb _ _), (hasIdle _ _), (recentlyChanged i period), (structured_detect i);
      split; split; naive_solver.
  - rewrite andb_false_r.
    destruct (_ || _ && is_some _), (existsb _ _), (hasIdle _ _), (recentlyChanged i period), (structured_detect i);
      split; split; naive_solver.
Qed.
End Observations.
