(* ===== verification/Screens.v ===== *)
(** * Screens that may be typed on
    ([internal/supervisor/usecase/send_input.go], [completion_selection.go])

    What the sender reads from a screen before it writes a text and before it presses
    Enter. *)

From S2P Require Import Prelude.
From S2P Require Import UTF8.
From S2P Require Import Errors.
From S2P Require Import TextPolicy.
From S2P Require Import Session.
From S2P Require Import SendGate.
From S2P Require Import VTerm.
From S2P Require Import Detect.

Record ScreenSnapshot : Type := mkShot {
  Observation : Z;  (* an uint64 *)
  Rows : list row;
  sh_Cells : list (list Cell);
  sh_State : DetectedState;
  Processing : bool;
  CompletionMenu : bool;
  SelectedCompletion : row;
  ObservedAt : Time;
  ChangedAt : Time }.

(** The zero value, for a session without a screen. *)
Definition noShot : ScreenSnapshot := mkShot 0 [] [] NoDetectedState false false [] zeroTime zeroTime.

Definition hasPermissionDialog (rows : list row) : bool :=
  existsb (fun r => contains (runes "Enter to confirm") r || contains (runes "Esc to cancel") r) rows.

Definition hasSelectionMenu (rows : list row) : bool :=
  hasPermissionDialog rows
  || existsb (fun r => has_prefix [32] r && has_prefix prompt_echo (TrimSpace r)) rows.

Definition screenReadyForWrite (s : ScreenSnapshot) : bool :=
  if Processing s || negb (bool_decide (sh_State s = StateIdle)) && negb (bool_decide (sh_State s = StateAwaitingRecommendation))
  then false
  else if negb (IsInputBlank DefaultPatternSet (Rows s) (sh_Cells s)) then false
  else negb (hasSelectionMenu (Rows s)).

Definition operatorScreenReadyForWrite (s : ScreenSnapshot) : bool :=
  bool_decide (sh_State s = StateIdle) && negb (CompletionMenu s) && screenReadyForWrite s.

(** ** The completion menu *)

Definition isInputRule (r : row) : bool :=
  let trimmed := TrimSpace r in
  negb (bool_decide (trimmed = [])) && bool_decide (trim (Z.eqb border_rune) trimmed = []).

Definition selected_prefix : row := [32; 32; 0x276F; 32].

(** The rows above an input row, from the nearest: [None] if no candidate is selected
    before a blank row or a rule. *)
Fixpoint selection_above (above : list row) : option (bool * row) :=
  match above with
  | [] => None
  | r :: above =>
      if blank r || isInputRule r then None
      else if negb (has_prefix selected_prefix r) then selection_above above
      else
        let selected := TrimSpace (drop (length selected_prefix) r) in
        Some (if has_prefix [47] selected then (true, selected) else (false, []))
  end.

(** The loop over the input rows, from the lowest. *)
Fixpoint selection_from (n : nat) (rows : list row) (input : Z) : bool * row :=
  match n with
  | O => (false, [])
  | S n =>
      let next := selection_from n rows (input - 1) in
      if has_prefix prompt_box (row_at rows input) && isInputRule (row_at rows (input - 1)) && isInputRule (row_at rows (input + 1))
      then match selection_above (rev (take (Z.to_nat (input - 1)) rows)) with Some r => r | None => next end
      else next
  end.

Definition CompletionSelection (rows : list row) : bool * row :=
  if hasPermissionDialog rows then (false, [])
  else
    let n := Z.of_nat (length rows) in
    selection_from (Z.to_nat (n - 2)) rows (n - 2).

Definition has_suffix (suf s : row) : bool := has_prefix (rev suf) (rev s).

(** The command name, and the alias in parentheses that may follow it. *)
Definition completionCandidateMatches (candidate command : row) : bool :=
  match Fields candidate with
  | [] => false
  | name :: words =>
      if Nat.ltb (length name) 2 || negb (has_prefix [47] name) then false
      else
        match words with
        | word :: _ =>
            if has_prefix [40] word then
              let inner := removelast (drop 1 word) in
              if Nat.ltb (length word) 3 || negb (has_suffix [41] word)
                 || existsb (fun r => (r =? 40) || (r =? 41)) inner then false
              else bool_decide (command = name) || bool_decide (command = 47 :: inner)
            else bool_decide (command = name)
        | [] => bool_decide (command = name)
        end
  end.

(** ** Before Enter *)

Definition screenSafeForEnter (s : ScreenSnapshot) (want : row) : bool :=
  if Processing s || bool_decide (sh_State s = StateAwaitingPermission) || bool_decide (sh_State s = StateExited) then false
  else negb (hasSelectionMenu (Rows s))
       || has_prefix [47] want && CompletionMenu s && completionCandidateMatches (SelectedCompletion s) want
          && negb (hasPermissionDialog (Rows s)).

(** [strings.TrimRight(s, " ")] *)
Definition trim_spaces_right (s : row) : row := rev (trim_left (Z.eqb 32) (rev s)).

(** The text in the lowest input row and the text wanted there. *)
Fixpoint enter_text_from (below : list row) (want : row) (operator : bool) : option (row * row) :=
  match below with
  | [] => None
  | r :: below =>
      if has_prefix prompt_box r then
        let body := drop (length prompt_box) r in
        Some (if operator then (trim_spaces_right body, trim_spaces_right want) else (TrimSpace body, want))
      else enter_text_from below want operator
  end.

Definition enterInputText (s : ScreenSnapshot) (want : row) (operator : bool) : option (row * row) :=
  enter_text_from (rev (Rows s)) want operator.

Definition screenReadyForEnter (s : ScreenSnapshot) (want : row) (operator : bool) : bool :=
  screenSafeForEnter s want
  && match enterInputText s want operator with Some (body, expected) => bool_decide (body = expected) | None => false end.

(** ** The store of observed screens ([ObservedScreenStore])

    Each method holds the mutex throughout. *)

Record ObservedScreenStore : Type := mkScreenStore {
  shots : gmap string ScreenSnapshot;
  owners : gmap string Z }.

Definition Snapshot (s : ObservedScreenStore) (id : string) : ScreenSnapshot := default noShot (shots s !! id).

Definition SetSnapshot (id : string) (shot : ScreenSnapshot) (s : ObservedScreenStore) : ObservedScreenStore :=
  mkScreenStore (<[id := shot]> (shots s)) (owners s).

Definition SetSnapshotOwned (id : string) (shot : ScreenSnapshot) (owner : Z) (s : ObservedScreenStore) : ObservedScreenStore :=
  if owner <? default 0 (owners s !! id) then s
  else mkScreenStore (<[id := shot]> (shots s)) (<[id := owner]> (owners s)).

Definition Delete (id : string) (s : ObservedScreenStore) : ObservedScreenStore :=
  mkScreenStore (delete id (shots s)) (owners s).

Definition DeleteOwned (id : string) (owner : Z) (s : ObservedScreenStore) : ObservedScreenStore :=
  if default 0 (owners s !! id) =? owner then mkScreenStore (delete id (shots s)) (owners s) else s.

(** The screen has settled since the session was resumed. *)
Definition ResumeReady (shot : ScreenSnapshot) (now resumedAt : Time) : bool :=
  bool_decide (sh_State shot = StateIdle) && After (ObservedAt shot) resumedAt && After (ChangedAt shot) resumedAt
  && (QuietPeriod <=? Sub now (ChangedAt shot)) && screenReadyForWrite shot.

(** ** Declarative readings *)

(** A dialog asks for confirmation on some row. *)
Definition dialog_row (r : row) : Prop :=
  (exists a b, r = a ++ runes "Enter to confirm" ++ b) \/ (exists a b, r = a ++ runes "Esc to cancel" ++ b).

(** An indented row offers a choice behind the marker of the selected one. *)
Definition menu_row (r : row) : Prop :=
  (exists l, r = 32 :: l) /\ exists l, TrimSpace r = prompt_echo ++ l.

Lemma hasPermissionDialog_spec (rows : list row) :
  hasPermissionDialog rows = true <-> exists r, r ∈ rows /\ dialog_row r.
Proof.
  unfold hasPermissionDialog, dialog_row. rewrite existsb_exists.
  setoid_rewrite orb_true_iff. setoid_rewrite contains_spec. by setoid_rewrite list_elem_of_In.
Qed.

Lemma hasSelectionMenu_spec (rows : list row) :
  hasSelectionMenu rows = true <-> exists r, r ∈ rows /\ (dialog_row r \/ menu_row r).
Proof.
  unfold hasSelectionMenu, menu_row. rewrite orb_true_iff, hasPermissionDialog_spec, existsb_exists.
  setoid_rewrite andb_true_iff. setoid_rewrite has_prefix_spec. setoid_rewrite <- list_elem_of_In. cbn [app].
  naive_solver.
Qed.

(** A cell that holds nothing typed: blank, or dim as a suggestion is. *)
Definition untyped (c : Cell) : Prop := Cell_Text c = [] \/ Cell_Text c = [32] \/ Cell_Text c = [0xA0] \/ Cell_Faint c = true.

Definition blank_input (p : DetectorPatternSet) (rows : list row) (cells : list (list Cell)) : Prop :=
  length cells = length rows
  /\ exists i line, active_input p rows i /\ cells !! Z.to_nat i = Some line
     /\ (length (Prompt p) <= length line)%nat
     /\ forall col c, (length (Prompt p) <= col)%nat -> line !! col = Some c -> untyped c.

Lemma IsInputBlank_spec (p : DetectorPatternSet) (rows : list row) (cells : list (list Cell)) :
  IsInputBlank p rows cells = true <-> blank_input p rows cells.
Proof.
  unfold IsInputBlank, blank_input. destruct (Nat.eqb_spec (length cells) (length rows)) as [El|El]; cbn [negb].
  2:{ split; [done|]. by intros [? _]. }
  destruct (Z.ltb_spec (lastInputRow rows p) 0) as [Hi|Hi].
  { split; [done|]. intros (_ & i & line & Ha & _). assert (0 <= i) by (destruct Ha; lia).
    apply lastInputRow_spec in Ha; lia. }
  pose proof (proj1 (lastInputRow_spec rows p _ Hi) eq_refl) as Ha.
  set (i := lastInputRow rows p) in *.
  destruct (lookup_lt_is_Some_2 cells (Z.to_nat i)) as [line Hl]; [destruct Ha; lia|]. rewrite Hl. cbn [default from_option]. change (id line) with line.
  transitivity ((length (Prompt p) <= length line)%nat
    /\ forall col c, (length (Prompt p) <= col)%nat -> line !! col = Some c -> untyped c).
  - destruct (Nat.ltb_spec (length line) (length (Prompt p))) as [Hm|Hm]; [split; [done|intros [? _]; lia]|].
    rewrite forallb_forall. unfold untyped. split.
    + intros H. split; [done|]. intros col c Hc Hlc.
      assert (Hin : In c (drop (length (Prompt p)) line)).
      { apply list_elem_of_In. apply list_elem_of_lookup. exists (col - length (Prompt p))%nat.
        rewrite lookup_drop. by replace (length (Prompt p) + (col - length (Prompt p)))%nat with col by lia. }
      apply H in Hin. rewrite !orb_true_iff, !bool_decide_eq_true in Hin. tauto.
    + intros [_ H] c Hin. apply list_elem_of_In, list_elem_of_lookup in Hin as [k Hk]. rewrite lookup_drop in Hk.
      apply H in Hk; [|lia]. rewrite !orb_true_iff, !bool_decide_eq_true. tauto.
  - split.
    + intros [H1 H2]. split; [done|]. by exists i, line.
    + intros (_ & i' & line' & Ha' & Hl' & H). assert (0 <= i') by (destruct Ha'; lia).
      apply lastInputRow_spec in Ha' as Ei; [|done]. fold i in Ei. rewrite <- Ei, Hl in Hl'. by injection Hl' as <-.
Qed.

(** The lowest row with a prompt. *)
Definition typing_row (rows : list row) (r : row) : Prop :=
  exists above below, rows = above ++ r :: below /\ has_prefix prompt_box r = true
    /\ Forall (fun x => has_prefix prompt_box x = false) below.

Lemma typing_row_unique (rows : list row) (r r' : row) : typing_row rows r -> typing_row rows r' -> r = r'.
Proof.
  intros (a & b & -> & Hr & Hb) (a' & b' & E & Hr' & Hb').
  apply app_eq_app in E as [l [[-> E]|[-> E]]]; destruct l as [|x l]; cbn in E; try by injection E.
  - injection E as -> ->. apply list.Forall_app in Hb' as [_ H]. apply list.Forall_cons in H as [H _]. congruence.
  - injection E as -> ->. apply list.Forall_app in Hb as [_ H]. apply list.Forall_cons in H as [H _]. congruence.
Qed.

(** What is compared: the text after the prompt, and the text wanted there. *)
Definition compared (operator : bool) (r want : row) : row * row :=
  let body := drop (length prompt_box) r in
  if operator then (trim_spaces_right body, trim_spaces_right want) else (TrimSpace body, want).

Lemma enter_text_from_spec (below : list row) (want : row) (operator : bool) (x : row * row) :
  enter_text_from below want operator = Some x <->
  exists pre r post, below = pre ++ r :: post /\ has_prefix prompt_box r = true
    /\ Forall (fun y => has_prefix prompt_box y = false) pre /\ x = compared operator r want.
Proof.
  induction below as [|y below IH]; cbn [enter_text_from].
  { split; [done|]. intros ([|] & ? & ? & ? & _); discriminate. }
  destruct (has_prefix prompt_box y) eqn:Ey.
  - split.
    + intros [= <-]. by exists [], y, below.
    + intros ([|z pre] & r & post & E & Hr & F & ->); simplify_eq/=; [done|].
      apply list.Forall_cons in F as [F _]. congruence.
  - rewrite IH. split.
    + intros (pre & r & post & -> & Hr & F & ->). exists (y :: pre), r, post. split_and!; [done..| |done].
      by apply list.Forall_cons.
    + intros ([|z pre] & r & post & E & Hr & F & ->); simplify_eq/=; [congruence|].
      apply list.Forall_cons in F as [_ F]. by exists pre, r, post.
Qed.

Lemma enterInputText_spec (s : ScreenSnapshot) (want : row) (operator : bool) (x : row * row) :
  enterInputText s want operator = Some x <-> exists r, typing_row (Rows s) r /\ x = compared operator r want.
Proof.
  unfold enterInputText, typing_row. rewrite enter_text_from_spec. split.
  - intros (pre & r & post & E & Hr & F & ->). exists r. split; [|done]. exists (rev post), (rev pre). split_and!; [|done|].
    + rewrite <- (rev_involutive (Rows s)), E, rev_app_distr. cbn [rev]. by rewrite <- app_assoc.
    + by apply List.Forall_rev.
  - intros (r & (above & below & E & Hr & F) & ->). exists (rev below), r, (rev above). split_and!; [|done| |done].
    + rewrite E, rev_app_distr. cbn [rev]. by rewrite <- app_assoc.
    + by apply List.Forall_rev.
Qed.

(** A screen that stands at an idle input may be written on. *)
Record writable (s : ScreenSnapshot) : Prop := {
  wr_still : Processing s = false;
  wr_state : sh_State s = StateIdle \/ sh_State s = StateAwaitingRecommendation;
  wr_blank : blank_input DefaultPatternSet (Rows s) (sh_Cells s);
  wr_no_choice : forall r, r ∈ Rows s -> ~ dialog_row r /\ ~ menu_row r }.

(** The conditions before Enter that do not depend on the text in the input row. *)
Record safe_for_enter (s : ScreenSnapshot) (want : row) : Prop := {
  sf_still : Processing s = false;
  sf_state : sh_State s <> StateAwaitingPermission /\ sh_State s <> StateExited;
  sf_no_dialog : forall r, r ∈ Rows s -> ~ dialog_row r;
  sf_menu : (exists r, r ∈ Rows s /\ menu_row r) ->
    (exists name, want = 47 :: name) /\ CompletionMenu s = true /\ completionCandidateMatches (SelectedCompletion s) want = true }.

Lemma screenSafeForEnter_spec (s : ScreenSnapshot) (want : row) :
  screenSafeForEnter s want = true <-> safe_for_enter s want.
Proof.
  unfold screenSafeForEnter.
  assert (Hm : hasSelectionMenu (Rows s) = true <-> (exists r, r ∈ Rows s /\ dialog_row r) \/ (exists r, r ∈ Rows s /\ menu_row r))
    by (rewrite hasSelectionMenu_spec; naive_solver).
  pose proof (hasPermissionDialog_spec (Rows s)) as Hd.
  assert (Hp : has_prefix [47] want = true <-> exists name, want = 47 :: name) by apply has_prefix_spec.
  destruct (Processing s) eqn:Ep; cbn [orb]; [by split; [|intros []; congruence]|].
  case_bool_decide as Ha; cbn [orb]; [by split; [|intros [? [] ? ?]]|].
  case_bool_decide as Hx; cbn [orb]; [by split; [|intros [? [] ? ?]]|].
  rewrite orb_true_iff, !andb_true_iff, !negb_true_iff, Hp.
  split.
  - intros H. split; [done|done|..].
    + intros r Hr Hdr. destruct H as [H|[_ H]]; apply not_true_iff_false in H; apply H; [apply Hm; left|apply Hd]; by exists r.
    + intros Hr. destruct H as [H|[[[H1 H2] H3] _]]; [|done].
      apply not_true_iff_false in H. destruct H. apply Hm. by right.
  - intros [_ _ H3 H4]. destruct (hasSelectionMenu (Rows s)) eqn:Em; [right|by left].
    destruct (proj1 Hm eq_refl) as [(r & Hr & Hdr)|Hr]; [by destruct (H3 r)|].
    destruct (H4 Hr) as (H5 & H6 & H7). split_and!; [done..|].
    apply not_true_iff_false. intros (r & Hr' & Hdr)%Hd. by destruct (H3 r).
Qed.

(** A screen whose input row holds the text may be confirmed with Enter. *)
Record enterable (s : ScreenSnapshot) (want : row) (operator : bool) : Prop := {
  en_still : Processing s = false;
  en_state : sh_State s <> StateAwaitingPermission /\ sh_State s <> StateExited;
  en_no_dialog : forall r, r ∈ Rows s -> ~ dialog_row r;
  en_menu : (exists r, r ∈ Rows s /\ menu_row r) ->
    (exists name, want = 47 :: name) /\ CompletionMenu s = true /\ completionCandidateMatches (SelectedCompletion s) want = true;
  en_text : exists r, typing_row (Rows s) r /\ (compared operator r want).1 = (compared operator r want).2 }.

(** When the sender may type: the two tests of the screen answer true exactly on the
    screens that the declarative conditions describe.  Before a text is written, the
    screen is quiet and idle or awaits the answer to a recommendation, nothing is typed
    in the lowest framed input row, and no dialog or menu is shown.  Before Enter, the
    lowest prompt holds the text and no dialog is shown; a menu only when it completes
    the command that is wanted. *)
Theorem screens_typed_on_correct (s : ScreenSnapshot) (want : row) (operator : bool) :
  (screenReadyForWrite s = true <-> writable s) /\ (screenReadyForEnter s want operator = true <-> enterable s want operator).
Proof.
  split.
  - unfold screenReadyForWrite.
    destruct (Processing s) eqn:Ep; cbn [orb]; [by split; [|intros [? _ _ _]; congruence]|].
    transitivity ((sh_State s = StateIdle \/ sh_State s = StateAwaitingRecommendation)
      /\ IsInputBlank DefaultPatternSet (Rows s) (sh_Cells s) = true /\ hasSelectionMenu (Rows s) = false).
    + case_bool_decide; case_bool_decide; destruct (IsInputBlank _ _ _), (hasSelectionMenu _); naive_solver.
    + rewrite IsInputBlank_spec, <- not_true_iff_false, hasSelectionMenu_spec.
      split; [intros (H1 & H2 & H3); split; naive_solver|intros [H1 H2 H3 H4]; naive_solver].
  - unfold screenReadyForEnter. rewrite andb_true_iff, screenSafeForEnter_spec.
    transitivity (safe_for_enter s want
      /\ exists r, typing_row (Rows s) r /\ (compared operator r want).1 = (compared operator r want).2).
    + apply and_iff_compat_l. destruct (enterInputText s want operator) as [[body expected]|] eqn:E.
      * apply enterInputText_spec in E as (r & Hr & Er). rewrite bool_decide_eq_true. split.
        -- intros ->. exists r. by rewrite <- Er.
        -- intros (r' & Hr' & E'). rewrite (typing_row_unique _ _ _ Hr' Hr), <- Er in E'. done.
      * split; [done|]. intros (r & Hr & _).
        assert (E' : enterInputText s want operator = Some (compared operator r want)) by (apply enterInputText_spec; by exists r).
        congruence.
    + split; [intros ([] & H5); by split|intros [H1 H2 H3 H4 H5]; by split; [split|]].
Qed.
