(* ===== verification/Effects.v ===== *)
(** * Programs with external effects

    A use case that calls stores, locks and processes is a program over a signature
    [E] of effects: [E X] is a call whose answer has type [X].  The answers are not
    determined by the program, so a property proved with [wp] holds for every
    environment, that is for every behaviour of the components called and for
    every interleaving with other goroutines between two calls.  Programs are
    finite trees: whatever is answered, they terminate. *)

From S2P Require Import Prelude.

Inductive prog (E : Type -> Type) (A : Type) : Type :=
| Ret (a : A)
| Vis {X : Type} (e : E X) (k : X -> prog E A).
Arguments Ret {E A} a.
Arguments Vis {E A X} e k.

Fixpoint prog_bind {E : Type -> Type} {A B : Type} (f : A -> prog E B) (p : prog E A) : prog E B :=
  match p with
  | Ret a => f a
  | Vis e k => Vis e (fun x => prog_bind f (k x))
  end.

#[export] Instance prog_mret {E : Type -> Type} : MRet (prog E) := fun A a => Ret a.
#[export] Instance prog_mbind {E : Type -> Type} : MBind (prog E) := fun A B f p => prog_bind f p.

Definition call {E : Type -> Type} {X : Type} (e : E X) : prog E X := Vis e (fun x => Ret x).

(** A call together with its answer, for the programs that need no event type of
    their own. *)
Inductive called (E : Type -> Type) : Type :=
| Ev {X : Type} (e : E X) (x : X).
Arguments Ev {E X} e x.

Abbreviation record_ev := (fun X e x => @Ev _ X e x).

(** [P e before] for every event of a history, the latest first. *)
Fixpoint hist_all {event : Type} (P : event -> list event -> Prop) (h : list event) : Prop :=
  match h with [] => True | e :: h => P e h /\ hist_all P h end.

Lemma hist_all_mono {event : Type} (P Q : event -> list event -> Prop) (h : list event) :
  (forall e h, P e h -> Q e h) -> hist_all P h -> hist_all Q h.
Proof. intros HPQ. induction h as [|e h IH]; cbn; [done|]. intros [He Hh]. auto. Qed.

Section Histories.
Context {E : Type -> Type} {event : Type} (record : forall X, E X -> X -> event).

(** After the history [h], the latest event first, every run of [p] ends with a
    history and a result that satisfy [Q]. *)
Fixpoint wp {A : Type} (p : prog E A) (h : list event) (Q : list event -> A -> Prop) : Prop :=
  match p with
  | Ret a => Q h a
  | Vis e k => forall x, wp (k x) (record _ e x :: h) Q
  end.

(** The run against one environment, which sees the history and the call. *)
Fixpoint interp {A : Type} (env : forall X, list event -> E X -> X) (p : prog E A) (h : list event) : list event * A :=
  match p with
  | Ret a => (h, a)
  | Vis e k => let x := env _ h e in interp env (k x) (record _ e x :: h)
  end.

Lemma wp_mono {A : Type} (p : prog E A) h (Q Q' : list event -> A -> Prop) :
  wp p h Q -> (forall h' a, Q h' a -> Q' h' a) -> wp p h Q'.
Proof. revert h. induction p as [a|X e k IH]; intros h; cbn [wp]; [auto|]. intros Hp HQ x. apply IH; auto. Qed.

Lemma wp_bind {A B : Type} (p : prog E A) (f : A -> prog E B) h Q :
  wp p h (fun h' a => wp (f a) h' Q) -> wp (p ≫= f) h Q.
Proof.
  revert h. induction p as [a|X e k IH]; intros h; [done|]. intros Hp x. apply IH, Hp.
Qed.

Lemma wp_bind_inv {A B : Type} (p : prog E A) (f : A -> prog E B) h Q :
  wp (p ≫= f) h Q -> wp p h (fun h' a => wp (f a) h' Q).
Proof. revert h. induction p as [a|X e k IH]; intros h; [done|]. intros Hp x. apply IH, Hp. Qed.

Lemma wp_and {A : Type} (p : prog E A) h (Q Q' : list event -> A -> Prop) :
  wp p h Q -> wp p h Q' -> wp p h (fun h' a => Q h' a /\ Q' h' a).
Proof. revert h. induction p as [a|X e k IH]; intros h; cbn [wp]; [done|]. intros H H' x. by apply IH. Qed.

(** What holds of every run holds of the run against any environment. *)
Lemma wp_interp {A : Type} env (p : prog E A) h Q :
  wp p h Q -> Q (interp env p h).1 (interp env p h).2.
Proof. revert h. induction p as [a|X e k IH]; intros h; cbn [wp interp]; [done|]. intros Hp. apply IH, Hp. Qed.

(** Some run of [p], where every call can be answered. *)
Lemma wp_some_run {A : Type} (p : prog E A) h Q :
  (forall X, E X -> inhabited X) -> wp p h Q -> exists h' a, Q h' a /\ h `suffix_of` h'.
Proof.
  intros Hinh. revert h. induction p as [a|X e k IH]; intros h; cbn [wp]; [by exists h, a|]. intros Hp.
  destruct (Hinh X e) as [x]. destruct (IH x _ (Hp x)) as (h' & a & HQ & Hs). exists h', a. split; [done|].
  etrans; [|exact Hs]. by apply suffix_cons_r.
Qed.

(** A run does not depend on the history before it. *)
Lemma wp_under {A : Type} (p : prog E A) h (Q : list event -> A -> Prop) :
  wp p [] (fun new a => Q (new ++ h) a) -> wp p h Q.
Proof.
  enough (forall h1, wp p h1 (fun new a => Q (new ++ h) a) -> wp p (h1 ++ h) Q) as H by apply (H []).
  induction p as [a|X e k IH]; intros h1; cbn [wp]; [done|]. intros Hp x. apply (IH x (record _ e x :: h1)), Hp.
Qed.

(** Every event of every run of [p] satisfies [P]. *)
Fixpoint emits (P : event -> Prop) {A : Type} (p : prog E A) : Prop :=
  match p with
  | Ret _ => True
  | Vis e k => forall x, P (record _ e x) /\ emits P (k x)
  end.

Lemma emits_bind (P : event -> Prop) {A B : Type} (p : prog E A) (f : A -> prog E B) :
  emits P p -> (forall a, emits P (f a)) -> emits P (p ≫= f).
Proof.
  intros Hp Hf. induction p as [a|X e k IH]; [apply Hf|]. intros x. destruct (Hp x) as [Hx Hk].
  split; [done|]. by apply IH.
Qed.

Lemma emits_call (P : event -> Prop) {X : Type} (e : E X) : (forall x, P (record _ e x)) -> emits P (call e).
Proof. intros H x. by split. Qed.

Lemma emits_mono (P Q : event -> Prop) {A : Type} (p : prog E A) : (forall e, P e -> Q e) -> emits P p -> emits Q p.
Proof. intros HPQ. induction p as [a|X e k IH]; [done|]. intros H x. destruct (H x). split; [auto|by apply IH]. Qed.

(** What such a program leaves behind: its result is that of some run, and it has added
    such events only. *)
Lemma wp_emits (P : event -> Prop) {A : Type} (p : prog E A) h (Q Q' : list event -> A -> Prop) :
  emits P p -> wp p h Q -> (forall new a, Forall P new -> Q (new ++ h) a -> Q' (new ++ h) a) -> wp p h Q'.
Proof.
  intros Hp HQ HQ'.
  assert (forall h1, Forall P h1 -> wp p (h1 ++ h) Q -> wp p (h1 ++ h) Q') as H; [|by apply (H [])].
  clear HQ. induction p as [a|X e k IH]; intros h1 Hh1 HQ; [by apply HQ'|].
  intros x. destruct (Hp x) as [Hx Hk]. apply (IH x Hk (record _ e x :: h1)); [by constructor|apply HQ].
Qed.

Lemma wp_true {A : Type} (p : prog E A) h : wp p h (fun _ _ => True).
Proof. induction p as [a|X e k IH] in h |- *; [done|]. intros x. apply IH. Qed.

Lemma wp_emits_any (P : event -> Prop) {A : Type} (p : prog E A) h (Q : list event -> A -> Prop) :
  emits P p -> (forall new a, Forall P new -> Q (new ++ h) a) -> wp p h Q.
Proof.
  intros Hp HQ. apply (wp_emits P p h (fun _ _ => True)); [done| |by intros; apply HQ].
  clear. induction p as [a|X e k IH] in h |- *; [done|]. intros x. apply IH.
Qed.

(** A part whose result has a property, and what follows it. *)
Lemma emits_bind_wp (P : event -> Prop) {A B : Type} (R : A -> Prop) (p : prog E A) (f : A -> prog E B) h :
  emits P p -> wp p h (fun _ a => R a) -> (forall a, R a -> emits P (f a)) -> emits P (p ≫= f).
Proof.
  revert h. induction p as [a|X e k IH]; intros h Hp Hw Hf; [by apply Hf|]. intros x. destruct (Hp x) as [Hx Hk]. split; [done|].
  by apply (IH x (record _ e x :: h)).
Qed.

(** A run of [p] from the history [h] to [h'], with its result. *)
Fixpoint ran {A : Type} (p : prog E A) (h h' : list event) (a : A) : Prop :=
  match p with
  | Ret b => h' = h /\ a = b
  | Vis e k => exists x, ran (k x) (record _ e x :: h) h' a
  end.

Lemma wp_ran {A : Type} (p : prog E A) h (Q : list event -> A -> Prop) : (forall h' a, ran p h h' a -> Q h' a) -> wp p h Q.
Proof.
  revert h. induction p as [a|X e k IH]; intros h HQ; [by apply HQ|]. intros x. apply IH. intros h' a Hr. apply HQ. by exists x.
Qed.

Lemma ran_suffix {A : Type} (p : prog E A) h h' a : ran p h h' a -> h `suffix_of` h'.
Proof.
  revert h. induction p as [b|X e k IH]; intros h; cbn [ran]; [by intros [-> _]|]. intros [x Hx]. apply IH in Hx.
  etrans; [|exact Hx]. by apply suffix_cons_r.
Qed.

Lemma ran_wp {A : Type} (p : prog E A) h h' a (Q : list event -> A -> Prop) : wp p h Q -> ran p h h' a -> Q h' a.
Proof.
  revert h. induction p as [b|X e k IH]; intros h; cbn [wp ran]; [by intros HQ [-> ->]|]. intros HQ [x Hx]. by apply (IH x _ (HQ x)).
Qed.

(** A part of a run: its own specification, and the run itself. *)
Lemma wp_part {A : Type} (P : event -> Prop) (p : prog E A) h (Q : list event -> A -> Prop) :
  emits P p -> (forall new a, Forall P new -> ran p h (new ++ h) a -> Q (new ++ h) a) -> wp p h Q.
Proof.
  intros Hp HQ. apply (wp_emits P p h (fun h' a => ran p h h' a)); [done|by apply wp_ran|exact HQ].
Qed.

(** Every event of every run of [p] after [h], finished or not, is in order with what has
    happened before it, and the runs that end satisfy [Q]. *)
Fixpoint wpi (P : event -> list event -> Prop) {A : Type} (p : prog E A) (h : list event) (Q : list event -> A -> Prop) : Prop :=
  match p with
  | Ret a => Q h a
  | Vis e k => forall x, P (record _ e x) h /\ wpi P (k x) (record _ e x :: h) Q
  end.

Definition always (P : event -> list event -> Prop) {A : Type} (p : prog E A) (h : list event) : Prop := wpi P p h (fun _ _ => True).

Lemma wpi_mono (P : event -> list event -> Prop) {A : Type} (p : prog E A) h (Q Q' : list event -> A -> Prop) :
  wpi P p h Q -> (forall h' a, Q h' a -> Q' h' a) -> wpi P p h Q'.
Proof.
  revert h. induction p as [a|X e k IH]; intros h; cbn [wpi]; [auto|]. intros Hp HQ x. destruct (Hp x) as [HP Hk].
  split; [done|]. by apply IH.
Qed.

Lemma wpi_bind (P : event -> list event -> Prop) {A B : Type} (p : prog E A) (f : A -> prog E B) h Q :
  wpi P p h (fun h' a => wpi P (f a) h' Q) -> wpi P (p ≫= f) h Q.
Proof.
  revert h. induction p as [a|X e k IH]; intros h; [done|]. intros Hp x. destruct (Hp x) as [HP Hk]. split; [done|]. by apply IH.
Qed.

Lemma wpi_call (P : event -> list event -> Prop) {X B : Type} (e : E X) (f : X -> prog E B) h Q :
  (forall x, P (record _ e x) h /\ wpi P (f x) (record _ e x :: h) Q) -> wpi P (call e ≫= f) h Q.
Proof. intros H x. apply H. Qed.

(** The events of a part that are in order wherever they happen. *)
Lemma wpi_emits (P : event -> list event -> Prop) (C : event -> Prop) {A : Type} (p : prog E A) h (Q : list event -> A -> Prop) :
  (forall e h, C e -> P e h) -> emits C p -> (forall new a, Forall C new -> ran p h (new ++ h) a -> Q (new ++ h) a) -> wpi P p h Q.
Proof.
  intros HCP Hp HQ. enough (forall h1 (q : prog E A), Forall C h1 -> emits C q ->
    (forall h' a, ran q (h1 ++ h) h' a -> ran p h h' a) -> wpi P q (h1 ++ h) Q) as H by (apply (H []); [done|done|auto]).
  clear Hp. intros h1 q. revert h1. induction q as [a|X e k IH]; intros h1 Hh1 Hq Hran; cbn [wpi].
  - apply HQ; [done|]. by apply Hran.
  - intros x. destruct (Hq x) as [Hx Hk]. split; [by apply HCP|]. apply (IH x (record _ e x :: h1)); [by constructor|done|].
    intros h' a Hr. apply Hran. by exists x.
Qed.

(** A run that ends has been in order throughout. *)
Lemma wpi_wp (P : event -> list event -> Prop) {A : Type} (p : prog E A) h (Q : list event -> A -> Prop) :
  wpi P p h Q -> hist_all P h -> wp p h (fun h' a => hist_all P h' /\ Q h' a).
Proof.
  revert h. induction p as [a|X e k IH]; intros h; cbn [wpi wp]; [done|]. intros Hp Hh x. destruct (Hp x) as [HP Hk]. by apply IH.
Qed.

End Histories.

Lemma in_later {A : Type} (x : A) (h h' : list A) : h `suffix_of` h' -> x ∈ h -> x ∈ h'.
Proof. intros [new ->] H. apply elem_of_app. by right. Qed.

Lemma hist_all_suffix {event : Type} (P : event -> list event -> Prop) (h h' : list event) :
  h `suffix_of` h' -> hist_all P h' -> hist_all P h.
Proof. intros [new ->]. induction new as [|e new IH]; cbn; [done|]. intros [_ H]. auto. Qed.

