(* ===== verification/GitEff.v ===== *)
(** * Calls of the git use cases, and what is read from the file system
    ([internal/supervisor/gitops/pathscope.go], [porcelain.go], [gitconfigfp.go],
    [repolock.go])

    The effects that the commit and the push make, in one type: files, git, locks, the
    emergency stop, the session store, events.  Owned paths are resolved through symbolic
    links, so whether a path is owned is a program over the file system. *)

From S2P Require Import Prelude.
From S2P Require Import GoStrings.
From S2P Require Import Errors.
From S2P Require Import TaskPaths.
From S2P Require Import Session.
From S2P Require Import GoText.
From S2P Require Import GitStatus.
From S2P Require Import Effects.

(** ** Effects *)

(** [os.FileInfo]: [Mode().String()], the kind, and whether an execute bit is set. *)
Record FileInfo : Type := mkInfo { fi_mode : string; fi_symlink : bool; fi_dir : bool; fi_regular : bool; fi_executable : bool }.

(** The fields of [store.Event] that the commit and the push fill. *)
Record GitEvent : Type := mkGitEvent {
  ge_Kind : SupervisorEventKind;
  ge_SessionID : string;
  ge_Code : string;
  ge_Reason : string;
  ge_Count : Z;
  ge_CommitSHA : string;
  ge_Pattern : string;
  ge_Remote : string;
  ge_Branch : string }.

Inductive Eff : Type -> Type :=
(* files *)
| Getwd : Eff (res string)
| EvalSymlinks (p : string) : Eff (res string)
| Lstat (p : string) : Eff (res FileInfo)
| ReadFile (p : string) : Eff (res string)
| Readlink (p : string) : Eff (res string)
| ReadDir (p : string) : Eff (list string * option error)
(* locks *)
| SessionTryLock : Eff bool
| SessionUnlock : Eff unit
| RepoAcquire (p : string) : Eff bool
| RepoRelease (p : string) : Eff unit
(* the session, the project, the stop *)
| LoadSession : Eff (res ManagedSession)
| UpdateSession (change : ManagedSession -> ManagedSession) : Eff (res ManagedSession)
| SetGitPhaseIfEligible (phase : GitPhase) : Eff (res bool)
| SetGitPhase (phase : GitPhase) : Eff unit
| AfterGitPhase (since : Time) : Eff unit
| LoadProject (id : string) : Eff (res (list string))
| AppendCommit (project sha : string) : Eff (option error)
| IsStopped : Eff bool
| CtxErr : Eff (option error)
| Now : Eff Time
| ClearSuppressed : Eff unit
| Suppress (fingerprint : string) : Eff bool
| Record_ (e : GitEvent) : Eff (option error)
| Notify (kind : SupervisorEventKind) : Eff unit
(* git *)
| RevParseToplevel : Eff (res string)
| RevParseGitCommonDir : Eff (res string)
| RevParseGitDir : Eff (res string)
| RevParseHead : Eff (res string)
| Status : Eff (res string)
| CheckAttrFilter (paths : list string) : Eff (res string)
| Add (paths : list string) : Eff (option error)
| LsFilesStage (paths : list string) : Eff (res string)
| ResetPaths (paths : list string) : Eff (option error)
| DiffCached : Eff (res string)
| WriteTree : Eff (res string)
| Commit (project : string) : Eff (option error)
| SymbolicRef : Eff (res string)
| RemoteURLs (remote : string) : Eff (string * string * option error)
| ConfigGetReceivepack (remote : string) : Eff (res string)
| ConfigGetUploadpack (remote : string) : Eff (res string)
| ConfigGetVcs (remote : string) : Eff (res string)
| LsRemote (remote ref : string) : Eff (res string)
| CatFileExists (sha : string) : Eff (option error)
| RevListSince (base head : string) : Eff (res string)
| Push (remote branch sha : string) : Eff (option error)
(* the verification, and what follows a commit *)
| Verify : Eff (Z * option error)
| AfterCommit (s : ManagedSession) : Eff (option error).

Abbreviation M := (prog Eff).

(** Steps that end at the first error. *)
Definition try_bind {A B : Type} (p : M (res A)) (f : A -> M (res B)) : M (res B) :=
  r ← p; match r with Ok a => f a | Err err => mret (Err err) end.

Notation "x ?← p ; q" := (try_bind p (fun x => q)) (at level 20, p at level 100, q at level 200, only parsing).

(** ** Paths *)

Definition Abs (p : string) : M (res string) :=
  if IsAbs p then mret (Ok (Clean p))
  else cwd ?← call Getwd; mret (Ok (filepath_Join [cwd; p])).

(** [within], both paths absolute. *)
Definition climbs (rel : string) : bool := (rel =? "..")%string || HasPrefix rel "../".
Definition within (root p : string) : bool := negb (climbs (Rel_abs root p)).

Definition git_part (part : string) : bool := EqualFoldASCII part ".git".

(** The walk up to a parent that exists, over the components of an absolute clean path
    in reverse; the [filepath.Dir] of the root is the root, which ends it. *)
Fixpoint existing_parent (up suffix : list string) : M (res (string * list string)) :=
  let parent := "/" +:+ Join (rev up) "/" in
  found ← call (Lstat parent);
  match found with
  | Ok _ => mret (Ok (parent, suffix))
  | Err e =>
      if negb (errors_Is e FsErrNotExist) then mret (Err e)
      else match up with [] => mret (Err e) | part :: up => existing_parent up (part :: suffix) end
  end.

(** The callers pass the path of something below an absolute directory, joined and so
    clean. *)
Definition resolveExistingParent (p : string) : M (res string) :=
  found ?← existing_parent (rev (components p)) [];
  let '(parent, suffix) := found in
  r ?← call (EvalSymlinks parent);
  mret (Ok (fold_left (fun r part => filepath_Join [r; part]) suffix r)).

(** A path with its symbolic links resolved, as far as it exists. *)
Definition resolve_links (p : string) : M (res string) :=
  r ← call (EvalSymlinks p);
  r ?← (match r with Ok r => mret (Ok r) | Err _ => resolveExistingParent p end);
  Abs r.

(** ** Owned paths *)

Record PathScope : Type := mkScope { sc_root : string; sc_paths : list string }.

(** A path relative to the root, after the checks made on it before and after its links
    are resolved. *)
Definition relative_to (root p outside_msg git_msg : string) : M (res string) :=
  r ?← resolve_links p;
  if negb (within root r) then mret (Err (Errorf outside_msg []))
  else
    let rel := Rel_abs root r in
    if existsb git_part (Split rel "/") then mret (Err (Errorf git_msg [])) else mret (Ok rel).

Fixpoint parts_error (git_msg : string) (parts : list string) : option error :=
  match parts with
  | [] => None
  | part :: parts =>
      if (part =? "..")%string then Some (Errorf "path traversal" [])
      else if git_part part then Some (Errorf git_msg [])
      else parts_error git_msg parts
  end.

Fixpoint owned_paths (root base : string) (owned : list string) : M (res (list string)) :=
  match owned with
  | [] => mret (Ok [])
  | p :: owned =>
      if (p =? "")%string || IsAbs p then mret (Err (Errorf "invalid owned path" []))
      else
        match parts_error "git metadata cannot be owned" (Split p "/") with
        | Some err => mret (Err err)
        | None =>
            rel ?← relative_to root (filepath_Join [base; p]) "owned path outside repository" "git metadata cannot be owned";
            rest ?← owned_paths root base owned;
            mret (Ok (rel :: rest))
        end
  end.

Definition NewPathScope (toplevel cwd : string) (owned : list string) : M (res PathScope) :=
  root ?← call (EvalSymlinks toplevel);
  root ?← Abs root;
  base ?← call (EvalSymlinks cwd);
  base ?← Abs base;
  if negb (within root base) then mret (Err (Errorf "cwd outside repository" []))
  else
    paths ?← owned_paths root base owned;
    mret (Ok (mkScope root paths)).

Definition Resolve (s : PathScope) (path : string) : M (res string) :=
  if (path =? "")%string || IsAbs path then mret (Err (Errorf "absolute path" []))
  else
    match parts_error "git metadata path" (Split path "/") with
    | Some err => mret (Err err)
    | None => relative_to (sc_root s) (filepath_Join [sc_root s; path]) "path outside repository" "git metadata path"
    end.

(** Below an owned name, itself included. *)
Definition below (owned path : string) : bool := (path =? owned)%string || HasPrefix path (TrimSuffix owned "/" +:+ "/").

Fixpoint contained (paths : list string) (p : string) : bool :=
  match paths with
  | [] => false
  | owned :: paths =>
      if (owned =? ".")%string then negb (climbs p) && negb (HasPrefix p "/")
      else if below owned p then true else contained paths p
  end.

Definition Contains_path (s : PathScope) (path : string) : M bool :=
  p ← Resolve s path;
  mret (match p with Ok p => contained (sc_paths s) p | Err _ => false end).

Definition OwnsLexically (s : PathScope) (path : string) : bool :=
  existsb (fun owned => (owned =? ".")%string || below owned path) (sc_paths s).

(** ** The classification of a status *)

Record StatusClassification : Type := mkClassification {
  RenamePartial : bool; OutOfScopeUncommitted : bool; StagedOutOfScope : bool }.

(** An entry outside the scope: staged, and changed in the working tree. *)
Definition staged_code (c : ascii) : bool := negb (existsb (Ascii.eqb c) [" "; "."; "?"; NUL]%char).
Definition dirty_code (c : ascii) : bool := negb (existsb (Ascii.eqb c) [" "; "."; NUL]%char).

Definition classify_entry (r : StatusClassification) (e : StatusEntry) (inside old : bool) : StatusClassification :=
  if (Kind e =? "ignored")%string then r
  else if moved (Kind e) && negb (Bool.eqb old inside) then mkClassification true (OutOfScopeUncommitted r) (StagedOutOfScope r)
  else if inside then r
  else
    mkClassification (RenamePartial r)
      (OutOfScopeUncommitted r || dirty_code (Worktree e) || (Kind e =? "untracked")%string)
      (StagedOutOfScope r || staged_code (Index e)).

Fixpoint classify (r : StatusClassification) (entries : list StatusEntry) (s : PathScope) : M StatusClassification :=
  match entries with
  | [] => mret r
  | e :: entries =>
      if (Kind e =? "ignored")%string then classify r entries s
      else
        inside ← Contains_path s (Path e);
        old ← (if moved (Kind e) then Contains_path s (OriginalPath e) else mret inside);
        classify (classify_entry r e inside old) entries s
  end.

Definition ClassifyStatus (entries : list StatusEntry) (s : PathScope) : M StatusClassification :=
  classify (mkClassification false false false) entries s.

(** ** The configuration of a repository *)

Section Config.
Context (ToLower SHA256 : string -> string).

(** A file that is fingerprinted if it exists; [None]: it does not. *)
Definition config_file (scope p name : string) : M (res (option (FingerprintEntry * string))) :=
  info ← call (Lstat p);
  match info with
  | Err e => mret (if errors_Is e FsErrNotExist then Ok None else Err e)
  | Ok info =>
      data ?← call (ReadFile p);
      mret (Ok (Some (mkFP scope (fi_mode info) name "" (SHA256 data), data)))
  end.

Fixpoint config_files (scope : string) (files : list (string * string)) : M (res (list FingerprintEntry * bool)) :=
  match files with
  | [] => mret (Ok ([], false))
  | (p, name) :: files =>
      found ?← config_file scope p name;
      rest ?← config_files scope files;
      let '(entries, include) := rest in
      mret (Ok (match found with
                | None => (entries, include)
                | Some (entry, data) => (entry :: entries, configHasInclude ToLower data || include)
                end))
  end.

Fixpoint hook_entries (Error : error -> string) (hooks : string) (names : list string) : M (list FingerprintEntry) :=
  match names with
  | [] => mret []
  | name :: names =>
      let p := filepath_Join [hooks; name] in
      info ← call (Lstat p);
      match info with
      | Err _ => hook_entries Error hooks names
      | Ok info =>
          found ← (if fi_symlink info then
                     target ← call (Readlink p);
                     mret (match target with Ok target => (fi_mode info, target) | Err _ => (fi_mode info +:+ ":unreadable", ""%string) end)
                   else if fi_dir info then mret (fi_mode info +:+ ":directory", ""%string)
                   else
                     data ← call (ReadFile p);
                     mret (match data with Ok data => (fi_mode info, data) | Err e => (fi_mode info +:+ ":unreadable", Error e) end));
          let '(status, data) := found in
          rest ← hook_entries Error hooks names;
          mret (mkFP "hook" status name "" (SHA256 data) :: rest)
      end
  end.

(** The entries and whether there is an include; an error counts as an include. *)
Definition BuildGitConfigFingerprintEntries (Error : error -> string) (commonDir gitDir : string)
    : M (res (list FingerprintEntry * bool)) :=
  configs ?← config_files "config" [(filepath_Join [commonDir; "config"%string], "config"%string);
                                    (filepath_Join [gitDir; "config.worktree"%string], "config.worktree"%string)];
  let '(configs, include) := configs in
  infos ?← config_files "info" (map (fun name => (filepath_Join [commonDir; "info"%string; name], name)) ["exclude"; "attributes"]%string);
  let hooks := filepath_Join [commonDir; "hooks"%string] in
  '(names, e) ← call (ReadDir hooks);
  match e with
  | Some err =>
      if negb (errors_Is err FsErrNotExist) then mret (Err err)
      else
        hook ← hook_entries Error hooks names;
        mret (Ok (sort_slice config_less (configs ++ fst infos ++ hook), include))
  | None =>
      hook ← hook_entries Error hooks names;
      mret (Ok (sort_slice config_less (configs ++ fst infos ++ hook), include))
  end.
End Config.

(** ** The repository lock *)

(** The mutex-protected test and set of [TryLock], and the release, which acts once. *)
Definition RepoLocker : Type := gset string.
Definition RepoLocker_acquire (p : string) (held : RepoLocker) : RepoLocker * bool :=
  if bool_decide (p ∈ held) then (held, false) else (held ∪ {[p]}, true).
Definition RepoLocker_release (p : string) (held : RepoLocker) : RepoLocker := held ∖ {[p]}.

(** [TryLock]: the key that is locked, or [None]. *)
Definition TryLock (gitCommonDir : string) : M (option string) :=
  p ← call (EvalSymlinks gitCommonDir);
  match p with
  | Err _ => mret None
  | Ok p =>
      p ← Abs p;
      match p with
      | Err _ => mret None
      | Ok p => acquired ← call (RepoAcquire p); mret (if acquired : bool then Some p else None)
      end
  end.

(** ** Parts that only read files *)

Definition reads_files (e : called Eff) : Prop :=
  match e with
  | Ev e _ =>
      match e with
      | Getwd | EvalSymlinks _ | Lstat _ | ReadFile _ | Readlink _ | ReadDir _ => True
      | _ => False
      end
  end.

Lemma emits_try_bind (P : called Eff -> Prop) {A B : Type} (p : M (res A)) (f : A -> M (res B)) :
  emits record_ev P p -> (forall a, emits record_ev P (f a)) -> emits record_ev P (try_bind p f).
Proof. intros Hp Hf. apply emits_bind; [done|]. by intros []. Qed.

Create HintDb files_db.

Ltac files_step :=
  match goal with
  | |- emits _ _ (mret _) => exact I
  | |- emits _ _ (Ret _) => exact I
  | |- emits _ _ (call _) => apply emits_call; intros; exact I
  | |- emits _ _ (try_bind _ _) => apply emits_try_bind; [|intros]
  | |- emits _ _ (mbind _ _) => apply emits_bind; [|intros]
  | |- emits _ _ (prog_mbind _ _ _ _) => apply emits_bind; [|intros]
  | |- emits _ _ (if ?b then _ else _) => destruct b
  | |- emits _ _ (let '(_, _) := ?x in _) => destruct x
  | |- emits _ _ (match ?x with _ => _ end) => destruct x
  | |- _ => solve [eauto with files_db]
  end.
Ltac files_solve := cbn zeta; repeat files_step.

Lemma Abs_files p : emits record_ev reads_files (Abs p).
Proof. unfold Abs. files_solve. Qed.
#[export] Hint Resolve Abs_files : files_db.

Lemma existing_parent_files up suffix : emits record_ev reads_files (existing_parent up suffix).
Proof. induction up as [|part up IH] in suffix |- *; cbn [existing_parent]; files_solve. Qed.
#[export] Hint Resolve existing_parent_files : files_db.

Lemma resolve_links_files p : emits record_ev reads_files (resolve_links p).
Proof. unfold resolve_links, resolveExistingParent. files_solve. Qed.
#[export] Hint Resolve resolve_links_files : files_db.

Lemma relative_to_files root p m1 m2 : emits record_ev reads_files (relative_to root p m1 m2).
Proof. unfold relative_to. files_solve. Qed.
#[export] Hint Resolve relative_to_files : files_db.

Lemma owned_paths_files root base owned : emits record_ev reads_files (owned_paths root base owned).
Proof. induction owned as [|p owned IH]; cbn [owned_paths]; files_solve. Qed.
#[export] Hint Resolve owned_paths_files : files_db.

Lemma NewPathScope_files root cwd owned : emits record_ev reads_files (NewPathScope root cwd owned).
Proof. unfold NewPathScope. files_solve. Qed.

Lemma Resolve_files s p : emits record_ev reads_files (Resolve s p).
Proof. unfold Resolve. files_solve. Qed.
#[export] Hint Resolve Resolve_files : files_db.

Lemma Contains_path_files s p : emits record_ev reads_files (Contains_path s p).
Proof. unfold Contains_path. files_solve. Qed.
#[export] Hint Resolve Contains_path_files : files_db.

Lemma classify_files r entries s : emits record_ev reads_files (classify r entries s).
Proof. induction entries as [|e entries IH] in r |- *; cbn [classify]; files_solve. Qed.
#[export] Hint Resolve classify_files : files_db.

Lemma ClassifyStatus_files entries s : emits record_ev reads_files (ClassifyStatus entries s).
Proof. apply classify_files. Qed.
#[export] Hint Resolve ClassifyStatus_files : files_db.

Section ConfigFiles.
Context (ToLower SHA256 : string -> string) (Error : error -> string).

Lemma config_files_read scope files : emits record_ev reads_files (config_files ToLower SHA256 scope files).
Proof. induction files as [|[p name] files IH]; cbn [config_files]; unfold config_file; files_solve. Qed.
#[local] Hint Resolve config_files_read : files_db.

Lemma hook_entries_read hooks names : emits record_ev reads_files (hook_entries SHA256 Error hooks names).
Proof. induction names as [|name names IH]; cbn [hook_entries]; files_solve. Qed.
#[local] Hint Resolve hook_entries_read : files_db.

Lemma BuildEntries_files common gitDir : emits record_ev reads_files (BuildGitConfigFingerprintEntries ToLower SHA256 Error common gitDir).
Proof. unfold BuildGitConfigFingerprintEntries. files_solve. Qed.
End ConfigFiles.
#[export] Hint Resolve config_files_read hook_entries_read BuildEntries_files : files_db.
