(* ===== verification/Commit.v ===== *)
(** * Committing verified changes ([internal/supervisor/usecase/commit_verified.go])

    When a session has been quiet for a while, the changes in its own paths are verified
    by the configured command and committed.  The use case is a program over its effects;
    what git, the files, the verification and the stores answer is arbitrary. *)

From stdpp Require Import pretty.
From S2P Require Import Prelude.
From S2P Require Import GoStrings.
From S2P Require Import Errors.
From S2P Require Import Session.
From S2P Require Import Effects.
From S2P Require Import GoText.
From S2P Require Import GitStatus.
From S2P Require Import GitEff.

Definition commitSettle : Duration := 30 * Second.
Definition commitFailedCode : string := "SUP_COMMIT_FAILED".
Definition verifyFailedCode : string := "SUP_VERIFY_FAILED".
Definition sensitivePathBlockedCode : string := "SUP_SENSITIVE_PATH_BLOCKED".

(** ** Data *)

Record CommitVerifiedChangesUseCase : Type := mkCommitUseCase {
  has_dependencies : bool;
  has_phases : bool;
  has_Stop : bool;
  has_Record : bool;
  has_Notify : bool;
  has_AfterCommit : bool;
  has_AfterGitPhase : bool;
  CWD : string;
  OwnedPaths : list string;
  VerifyCommand : list string }.

Record commitBlob : Type := mkBlob { b_mode : string; b_oid : string }.

#[export] Instance commitBlob_eq_dec : EqDecision commitBlob.
Proof. solve_decision. Defined.

Definition no_blob : commitBlob := mkBlob "" "".

Record commitSnapshot : Type := mkSnapshot {
  sn_entries : list StatusEntry;
  sn_owned : list StatusEntry;
  sn_paths : list string;
  sn_blobs : gmap string commitBlob;
  sn_fingerprint : string;
  sn_classification : StatusClassification }.

(** ** What git's answers are compared with *)

(** The rows of three of [check-attr -z]: some path has a filter, or the rows make no sense. *)
Fixpoint filter_rows (parts : list string) : bool :=
  match parts with
  | _ :: attr :: value :: parts =>
      negb (attr =? "filter")%string || (negb (value =? "unspecified")%string && negb (value =? "unset")%string) || filter_rows parts
  | _ => false
  end.

Definition filterConfigured (data : string) : bool :=
  let parts := Split data NUL in
  if negb (List.last parts "" =? "")%string || negb ((Z.of_nat (length parts) - 1) mod 3 =? 0) then true
  else filter_rows (removelast parts).

(** The rows of [ls-files -s -z], added to those read before; [None]: a row is not a
    merged file, or comes twice. *)
Fixpoint stage_rows (rows : list string) (got : gmap string commitBlob) : option (gmap string commitBlob) :=
  match rows with
  | [] => Some got
  | row :: rows =>
      match StringCut row "009" with
      | None => None
      | Some (meta, path) =>
          match StringFields meta with
          | [mode; oid; stage] =>
              if negb (stage =? "0")%string || negb (b_oid (default no_blob (got !! path)) =? "")%string then None
              else stage_rows rows (<[path := mkBlob mode oid]> got)
          | _ => None
          end
      end
  end.

Definition stageMatches (data : string) (expected : gmap string commitBlob) : bool :=
  let parts := Split data NUL in
  if negb (List.last parts "" =? "")%string then false
  else
    match stage_rows (removelast parts) ∅ with
    | None => false
    | Some got =>
        forallb (fun '(path, want) => bool_decide (default no_blob (got !! path) = want)) (map_to_list expected)
        && forallb (fun '(path, _) => is_some (expected !! path)) (map_to_list got)
    end.

Section UseCase.
(** The case mapping of [strings.ToLower], the hashes in hexadecimal, and
    [error.Error]. *)
Context (ToLower SHA256 SHA1 : string -> string) (Error : error -> string).
Context (u : CommitVerifiedChangesUseCase).

(** ** The working tree *)

Definition decimal_string (n : nat) : string := pretty (N.of_nat n).

Definition gitBlobID (data : string) : string :=
  SHA1 ("blob " +:+ decimal_string (String.length data) +:+ String NUL EmptyString +:+ data).

Definition commitFileBlob (root path : string) : M (res commitBlob) :=
  let full := TaskPaths.filepath_Join [root; path] in
  info ← call (Lstat full);
  match info with
  | Err err => mret (if errors_Is err FsErrNotExist then Ok no_blob else Err err)
  | Ok info =>
      if fi_symlink info then
        link ?← call (Readlink full);
        mret (Ok (mkBlob "120000" (gitBlobID link)))
      else if fi_regular info then
        data ?← call (ReadFile full);
        mret (Ok (mkBlob (if fi_executable info then "100755" else "100644") (gitBlobID data)))
      else mret (Err (Errorf "unsupported file type" []))
  end.

(** An owned name that leads out of the repository. *)
Fixpoint escape_check (scope : PathScope) (paths : list string) : M (res unit) :=
  match paths with
  | [] => mret (Ok tt)
  | p :: paths =>
      if negb (p =? "")%string && OwnsLexically scope p then
        r ← Resolve scope p;
        match r with
        | Err _ => mret (Err (Sentinel errOwnedPathEscape))
        | Ok _ => escape_check scope paths
        end
      else escape_check scope paths
  end.

Record reading : Type := mkReading {
  rd_owned : list StatusEntry; rd_paths : list string; rd_blobs : gmap string commitBlob; rd_framed : list FingerprintEntry }.

Definition entry_status (e : StatusEntry) : string := String (Index e) (String (Worktree e) EmptyString).

Fixpoint read_paths (root : string) (e : StatusEntry) (paths : list string) (r : reading) : M (res reading) :=
  match paths with
  | [] => mret (Ok r)
  | p :: paths =>
      if (p =? "")%string || bool_decide (p ∈ rd_paths r) then read_paths root e paths r
      else
        blob ?← commitFileBlob root p;
        let value := if (b_oid blob =? "")%string then "deleted"%string else b_oid blob in
        read_paths root e paths
          (mkReading (rd_owned r) (rd_paths r ++ [p]) (<[p := blob]> (rd_blobs r))
             (rd_framed r ++ [mkFP "owned" (entry_status e) p (b_mode blob) value]))
  end.

Fixpoint read_entries (root : string) (scope : PathScope) (entries : list StatusEntry) (r : reading) : M (res reading) :=
  match entries with
  | [] => mret (Ok r)
  | e :: entries =>
      _ ?← escape_check scope [Path e; OriginalPath e];
      here ← Contains_path scope (Path e);
      inside ← (if negb here then mret false
                else if (OriginalPath e =? "")%string then mret true
                else Contains_path scope (OriginalPath e));
      r ?← (if (inside : bool) then
              read_paths root e [Path e; OriginalPath e] (mkReading (rd_owned r ++ [e]) (rd_paths r) (rd_blobs r) (rd_framed r))
            else mret (Ok (mkReading (rd_owned r) (rd_paths r) (rd_blobs r)
                             (rd_framed r ++ [mkFP "outside" (entry_status e) (Path e) "" ""]))));
      read_entries root scope entries r
  end.

Definition snapshot (root : string) (scope : PathScope) : M (res commitSnapshot) :=
  status ?← call Status;
  entries ?← mret (ParsePorcelainV1 status);
  classification ← ClassifyStatus entries scope;
  head ?← call RevParseHead;
  r ?← read_entries root scope entries (mkReading [] [] ∅ []);
  mret (Ok (mkSnapshot entries (rd_owned r) (sort_slice String.ltb (rd_paths r)) (rd_blobs r)
              (TreeFingerprint SHA256 (StringTrimSpace head) (rd_framed r)) classification)).

(** ** Events and failures *)

Definition stopped : M bool := if has_Stop u then call IsStopped else mret true.

Definition unless_stopped (k : M (option error)) : M (option error) :=
  st ← stopped; if (st : bool) then mret None else k.

Definition event (s : ManagedSession) (kind : SupervisorEventKind) (code reason : string) (count : Z) (sha : string) (notify : bool)
    (pattern : string) : M (option error) :=
  err ← (if has_Record u then call (Record_ (mkGitEvent kind (s_SessionID s) code reason count sha pattern "" "")) else mret None);
  (if notify && has_Notify u then call (Notify kind) else mret tt);;
  mret err.

Definition suppressFailure (s : ManagedSession) (fingerprint : string) : M (option error) :=
  already ← call (Suppress fingerprint);
  if (already : bool) then mret None else event s EventKindCommitSuppressedSameFingerprint "" "" 0 "" false "".

Definition fail (s : ManagedSession) (fingerprint : string) (kind : SupervisorEventKind) (code : string) (reason : SupervisorFailureReason)
    (count : Z) (pattern : string) : M (option error) :=
  if negb (fingerprint =? "")%string && (s_LastFailureFingerprint s =? fingerprint)%string && bool_decide (s_LastFailureReason s = reason)
  then suppressFailure s fingerprint
  else
    err ← (if (fingerprint =? "")%string then mret None
           else
             r ← call (UpdateSession (fun current => current <| s_LastFailureFingerprint := fingerprint |> <| s_LastFailureReason := reason |>));
             mret (match r with Ok _ => None | Err err => Some err end));
    match err with
    | Some _ => mret err
    | None => event s kind code (SupervisorFailureReason_string reason) count "" true pattern
    end.

Definition commit_failed (s : ManagedSession) (fingerprint : string) (reason : SupervisorFailureReason) : M (option error) :=
  fail s fingerprint EventKindCommitFailed commitFailedCode reason 0 "".

Definition git_reason (err : error) : SupervisorFailureReason :=
  if errors_Is err ErrGitTimeout then FailureGitTimeout
  else if Contains (Error err) "git_unavailable" then FailureGitUnavailable
  else if Contains (Error err) "git_output_too_large" then FailureGitOutputTooLarge
  else FailureGitFailed.

Definition gitFail (s : ManagedSession) (fp : string) (err : error) : M (option error) := commit_failed s fp (git_reason err).

(** The fingerprint, and whether there is an include; an error of the files is one. *)
Definition configFingerprint : M (string * bool * option error) :=
  common ← call RevParseGitCommonDir;
  match common with
  | Err err => mret (""%string, false, Some err)
  | Ok common =>
      gitDir ← call RevParseGitDir;
      match gitDir with
      | Err err => mret (""%string, false, Some err)
      | Ok gitDir =>
          found ← BuildGitConfigFingerprintEntries ToLower SHA256 Error (StringTrimSpace common) (StringTrimSpace gitDir);
          mret (match found with
                | Err err => (""%string, true, Some err)
                | Ok (entries, include) => (GitConfigFingerprintFromEntries SHA256 entries, include, None)
                end)
      end
  end.

Definition CurrentGitConfigFingerprint : M (string * option error) :=
  '(fingerprint, _, err) ← configFingerprint; mret (fingerprint, err).

Definition snapshot_fingerprint (root : string) (scope : PathScope) (otherwise : string) : M string :=
  r ← snapshot root scope;
  mret (match r with Ok sn => sn_fingerprint sn | Err _ => otherwise end).

Definition failureFingerprint (root : string) (scope : PathScope) : M string := snapshot_fingerprint root scope "".

Definition evaluatePush (s : ManagedSession) : M (option error) :=
  st ← stopped;
  if (st : bool) || negb (has_AfterCommit u) then mret None else call (AfterCommit s).

Definition update (change : ManagedSession -> ManagedSession) (k : M (option error)) : M (option error) :=
  r ← call (UpdateSession change);
  match r with Err err => mret (Some err) | Ok _ => k end.

(** ** From the staged changes to the commit *)

Definition commit_rejected_now (s : ManagedSession) (root : string) (scope : PathScope) (fp : string) (err : error) : M (option error) :=
  failureFP ← snapshot_fingerprint root scope fp;
  if errors_Is err ErrGitTimeout || Contains (Error err) "git_output_too_large" || Contains (Error err) "git_unavailable"
  then gitFail s failureFP err
  else commit_failed s failureFP FailureCommitRejected.

Definition committed (s : ManagedSession) (fp : string) (owned : Z) : M (option error) :=
  sha ← call RevParseHead;
  match sha with
  | Err err => gitFail s fp err
  | Ok sha =>
      let sha := StringTrimSpace sha in
      if negb (String.length sha =? 40)%nat then mret (Some (Errorf "invalid commit sha" []))
      else
        err ← call (AppendCommit (s_ProjectID s) sha);
        match err with
        | Some _ => mret err
        | None =>
            update (fun current => current <| s_LastVerifiedFingerprint := fp |> <| s_LastVerifiedResult := "passed"%string |>
                                     <| s_LastFailureFingerprint := ""%string |> <| s_LastFailureReason := NoFailureReason |>)
              (err ← event s EventKindCommitCreated "" "" owned sha false "";
               match err with Some _ => mret err | None => evaluatePush s end)
        end
  end.

(** The tree is written twice around the last check of the configuration. *)
Definition commit_tree (s : ManagedSession) (root : string) (scope : PathScope) (fp : string) (owned : Z) : M (option error) :=
  tree ← call WriteTree;
  match tree with
  | Err err => gitFail s fp err
  | Ok tree =>
      unless_stopped (
        '(configNow, include, err) ← configFingerprint;
        if (include : bool) then commit_failed s fp FailureGitConfigInclude
        else match err with
             | Some err => gitFail s fp err
             | None =>
                 if negb (configNow =? s_GitConfigFingerprint s)%string then commit_failed s fp FailureGitConfigChanged
                 else
                   unless_stopped (
                     treeNow ← call WriteTree;
                     match treeNow with
                     | Err err => gitFail s fp err
                     | Ok treeNow =>
                         if negb (treeNow =? tree)%string then commit_failed s fp FailureTreeMismatchBeforeCommit
                         else
                           unless_stopped (
                             err ← call (Commit (s_ProjectID s));
                             match err with
                             | Some err => commit_rejected_now s root scope fp err
                             | None => committed s fp owned
                             end)
                     end)
             end)
  end.

Fixpoint all_contained (scope : PathScope) (paths : list string) : M bool :=
  match paths with
  | [] => mret true
  | p :: paths =>
      if (p =? "")%string then all_contained scope paths
      else inside ← Contains_path scope p; if (inside : bool) then all_contained scope paths else mret false
  end.

(** The index holds what was verified and nothing from outside. *)
Definition check_index (s : ManagedSession) (root : string) (scope : PathScope) (fp : string) (owned : Z) : M (option error) :=
  st ← call Status;
  match r ← st; ParsePorcelainV1 r with
  | Err err => gitFail s fp err
  | Ok entries =>
      c ← ClassifyStatus entries scope;
      if StagedOutOfScope c then commit_failed s fp FailureStagedOutOfScope
      else
        diff ← call DiffCached;
        match diff with
        | Err err => gitFail s fp err
        | Ok diff =>
            inside ← all_contained scope (Split (TrimSuffix diff (String NUL EmptyString)) NUL);
            if negb inside then commit_failed s fp FailureStagedOutOfScope
            else unless_stopped (commit_tree s root scope fp owned)
        end
  end.

(** A failed check of what was staged: the paths are reset. *)
Definition reset_staged (s : ManagedSession) (root : string) (scope : PathScope) (fp : string) (paths : list string)
    (format : string) (k : M (option error)) : M (option error) :=
  resetErr ← call (ResetPaths paths);
  match resetErr with
  | Some resetErr =>
      failureFP ← snapshot_fingerprint root scope fp;
      let rollbackFailure := Wrap format [resetErr] in
      recordErr ← gitFail s failureFP rollbackFailure;
      mret (match recordErr with Some err => errors_Join [Some rollbackFailure; Some err] | None => Some rollbackFailure end)
  | None => k
  end.

Definition stage (s : ManagedSession) (root : string) (scope : PathScope) (fp : string) (after : commitSnapshot) : M (option error) :=
  err ← call (Add (sn_paths after));
  match err with
  | Some err => gitFail s fp err
  | None =>
      unless_stopped (
        staged ← call (LsFilesStage (sn_paths after));
        match staged with
        | Err err =>
            reset_staged s root scope fp (sn_paths after) "stage inspection failed: %v; rollback failed: %w" (gitFail s fp err)
        | Ok staged =>
            if negb (stageMatches staged (sn_blobs after)) then
              reset_staged s root scope fp (sn_paths after) "stage mismatch rollback failed: %w"
                (commit_failed s fp FailureTreeMismatchBeforeCommit)
            else check_index s root scope fp (Z.of_nat (length (sn_owned after)))
        end)
  end.

(** ** The verification *)

Definition verify_reason (err : option error) : SupervisorFailureReason :=
  match err with
  | None => NoFailureReason
  | Some err =>
      if (Error err =? "verify_binary_changed")%string then FailureVerifyBinaryChanged
      else if (Error err =? "verify_cwd_invalid")%string then FailureVerifyCWDInvalid
      else if (Error err =? "verify_exec_failed")%string then FailureVerifyExecFailed
      else NoFailureReason
  end.

Definition verify (s : ManagedSession) (root : string) (scope : PathScope) (before : commitSnapshot) : M (option error) :=
  let fp := sn_fingerprint before in
  '(code, verifyErr) ← call Verify;
  if is_some verifyErr || negb (code =? 0) then
    update (fun current => current <| s_LastVerifiedFingerprint := fp |> <| s_LastVerifiedResult := "failed"%string |>)
      (fail s fp EventKindVerifyFailed verifyFailedCode (verify_reason verifyErr) 0 "")
  else
    unless_stopped (
      after ← snapshot root scope;
      match after with
      | Err err =>
          if errors_Is err errOwnedPathEscape then commit_failed s fp FailurePathEscape else gitFail s fp err
      | Ok after =>
          if negb (sn_fingerprint after =? fp)%string then event s EventKindTreeChangedDuringVerify "" "" 0 "" false ""
          else unless_stopped (stage s root scope fp after)
      end).

Definition no_changes (s : ManagedSession) (fp : string) : M (option error) :=
  if (s_LastVerifiedFingerprint s =? fp)%string then evaluatePush s
  else
    update (fun current => current <| s_LastVerifiedFingerprint := fp |> <| s_LastVerifiedResult := "passed"%string |>)
      (err ← event s EventKindNoChanges "" "" 0 "" false "";
       match err with Some _ => mret err | None => evaluatePush s end).

(** The first path with a sensitive name: the pattern. *)
Fixpoint sensitive (paths : list string) : string :=
  match paths with
  | [] => ""
  | p :: paths => let pattern := MatchPattern ToLower p in if (pattern =? "")%string then sensitive paths else pattern
  end.

Definition evaluate_changes (s : ManagedSession) (root : string) (scope : PathScope) (before : commitSnapshot) : M (option error) :=
  let fp := sn_fingerprint before in
  if bool_decide (sn_owned before = []) then no_changes s fp
  else if (s_LastFailureFingerprint s =? fp)%string then suppressFailure s fp
  else if (s_LastVerifiedFingerprint s =? fp)%string then mret None
  else
    let pattern := sensitive (sn_paths before) in
    if negb (pattern =? "")%string
    then fail s fp EventKindSensitivePathBlocked sensitivePathBlockedCode NoFailureReason 0 pattern
    else unless_stopped (verify s root scope before).

Definition evaluate_tree (s : ManagedSession) (root : string) (scope : PathScope) (before : commitSnapshot) : M (option error) :=
  let fp := sn_fingerprint before in
  let c := sn_classification before in
  if RenamePartial c then commit_failed s fp FailureRenamePartial
  else if StagedOutOfScope c then commit_failed s fp FailureStagedOutOfScope
  else if OutOfScopeUncommitted c then
    fail s fp EventKindCommitFailed commitFailedCode FailureOutOfScopeUncommitted
      (Z.of_nat (length (sn_entries before)) - Z.of_nat (length (sn_owned before))) ""
  else
    match sn_paths before with
    | [] => evaluate_changes s root scope before
    | paths =>
        attr ← call (CheckAttrFilter paths);
        match attr with
        | Err err => gitFail s fp err
        | Ok attr =>
            if filterConfigured attr then commit_failed s fp FailureGitattributesFilter
            else evaluate_changes s root scope before
        end
    end.

(** ** Under the lock of the repository *)

Definition evaluate_repo (s : ManagedSession) (root : string) (scope : PathScope) : M (option error) :=
  unless_stopped (
    '(configFP, include, err) ← configFingerprint;
    if (include : bool) then fp ← failureFingerprint root scope; commit_failed s fp FailureGitConfigInclude
    else match err with
         | Some err => gitFail s "" err
         | None =>
             if negb (configFP =? s_GitConfigFingerprint s)%string then
               fp ← failureFingerprint root scope; commit_failed s fp FailureGitConfigChanged
             else
               before ← snapshot root scope;
               match before with
               | Err err => if errors_Is err errOwnedPathEscape then commit_failed s "" FailurePathEscape else gitFail s "" err
               | Ok before => evaluate_tree s root scope before
               end
         end).

Definition evaluate (s : ManagedSession) : M (option error) :=
  rootBytes ← call RevParseToplevel;
  match rootBytes with
  | Err err => gitFail s "" err
  | Ok rootBytes =>
      let root := StringTrimSpace rootBytes in
      scope ← NewPathScope root (CWD u) (OwnedPaths u);
      match scope with
      | Err _ => commit_failed s "" FailurePathEscape
      | Ok scope =>
          common ← call RevParseGitCommonDir;
          match common with
          | Err err => gitFail s "" err
          | Ok common =>
              key ← TryLock (StringTrimSpace common);
              match key with
              | None => event s EventKindRepoBusy "" "" 0 "" false ""
              | Some key =>
                  r ← evaluate_repo s root scope;
                  call (RepoRelease key);;
                  mret r
              end
          end
      end
  end.

(** ** Under the lock of the session *)

Definition settled (s : ManagedSession) (now : Time) : bool :=
  (bool_decide (s_State s = SessionIdle) || bool_decide (s_State s = SessionAwaitingRecommendation))
  && negb (Sub now (s_StateSince s) <? commitSettle).

Definition execute_locked : M (option error) :=
  if negb (has_dependencies u) then mret (Some (Errorf "commit dependencies are required" []))
  else if negb (has_phases u) then mret (Some (Errorf "git phase store is required" []))
  else
    loaded ← call LoadSession;
    match loaded with
    | Err err => mret (Some err)
    | Ok s =>
        (if (s_LastFailureFingerprint s =? "")%string then call ClearSuppressed else mret tt);;
        unless_stopped (
          now ← call Now;
          if negb (settled s now) || bool_decide (OwnedPaths u = []) || bool_decide (VerifyCommand u = []) then mret None
          else
            eligible ← call (SetGitPhaseIfEligible GitPhaseEvaluating);
            match eligible with
            | Err err => mret (Some err)
            | Ok false => mret None
            | Ok true =>
                r ← evaluate s;
                call (SetGitPhase GitPhaseNone);;
                (if has_AfterGitPhase u then call (AfterGitPhase (s_StateSince s)) else mret tt);;
                mret r
            end)
    end.

Definition Execute : M (option error) :=
  locked ← call SessionTryLock;
  if negb locked then mret None
  else
    r ← execute_locked;
    call SessionUnlock;;
    mret r.
End UseCase.
