(* ===== verification/CommitOk.v ===== *)
(** * What is committed, and under which locks

    Over [Commit]: what has happened before a commit, an addition to the index and the
    evaluation of a push, and that every lock taken is given back. *)

From S2P Require Import Prelude.
From S2P Require Import GoStrings.
From S2P Require Import Errors.
From S2P Require Import Session.
From S2P Require Import Effects.
From S2P Require Import GoText.
From S2P Require Import GitStatus.
From S2P Require Import GitEff.
From S2P Require Import Commit.

Section Proofs.
Context (ToLower SHA256 SHA1 : string -> string) (Error : error -> string).
Context (u : CommitVerifiedChangesUseCase).

Abbreviation hist := (list (called Eff)).
Abbreviation runs p := (ran record_ev p).
Abbreviation wpc := (wp record_ev).
Abbreviation take_snapshot := (Commit.snapshot SHA256 SHA1).
Abbreviation config := (configFingerprint ToLower SHA256 Error).

(** ** Specification vocabulary *)

(** The lock of the repository is held. *)
Fixpoint repo_held (h : hist) : bool :=
  match h with
  | [] => false
  | Ev e r :: h =>
      match e in Eff X return X -> bool with
      | RepoAcquire _ => fun r => r || repo_held h
      | RepoRelease _ => fun _ => false
      | _ => fun _ => repo_held h
      end r
  end.

Definition clean (c : StatusClassification) : Prop :=
  RenamePartial c = false /\ OutOfScopeUncommitted c = false /\ StagedOutOfScope c = false.

(** The evaluation of a settled session, its phase set and its repository locked, with
    the configuration that was recorded. *)
Record evaluating (s : ManagedSession) (root : string) (scope : PathScope) (h : hist) : Prop := mkEvaluating {
  ev_session : Ev LoadSession (Ok s) ∈ h;
  ev_settled : exists now, Ev Now now ∈ h /\ settled s now = true;
  ev_eligible : Ev (SetGitPhaseIfEligible GitPhaseEvaluating) (Ok true) ∈ h;
  ev_scope : exists h1 h2, runs (NewPathScope root (CWD u) (OwnedPaths u)) h1 h2 (Ok scope) /\ h2 `suffix_of` h;
  ev_config : exists h1 h2, runs config h1 h2 (s_GitConfigFingerprint s, false, None) /\ h2 `suffix_of` h }.

(** The changes found, all of them owned, with no sensitive name and no filter. *)
Record changes (root : string) (scope : PathScope) (before : commitSnapshot) (h : hist) : Prop := mkChanges {
  ch_taken : exists h1 h2, runs (take_snapshot root scope) h1 h2 (Ok before) /\ h2 `suffix_of` h;
  ch_clean : clean (sn_classification before);
  ch_filter : sn_paths before <> [] -> exists attr, Ev (CheckAttrFilter (sn_paths before)) (Ok attr) ∈ h /\ filterConfigured attr = false }.

(** The command has verified them, and the tree has not changed meanwhile. *)
Definition verified (root : string) (scope : PathScope) (after : commitSnapshot) (h : hist) : Prop :=
  exists before pre h2,
    changes root scope before pre /\ sn_owned before <> [] /\ sensitive ToLower (sn_paths before) = ""%string
    /\ runs (take_snapshot root scope) (Ev IsStopped false :: Ev Verify (0, None) :: Ev IsStopped false :: pre) h2 (Ok after)
    /\ sn_fingerprint after = sn_fingerprint before /\ h2 `suffix_of` h.

(** They are what the index holds, with nothing from outside. *)
Definition staged (scope : PathScope) (after : commitSnapshot) (h : hist) : Prop :=
  exists rows status entries c diff,
    Ev (Add (sn_paths after)) None ∈ h
    /\ Ev (LsFilesStage (sn_paths after)) (Ok rows) ∈ h /\ stageMatches rows (sn_blobs after) = true
    /\ Ev Status (Ok status) ∈ h /\ ParsePorcelainV1 status = Ok entries
    /\ (exists h1 h2, runs (ClassifyStatus entries scope) h1 h2 c /\ h2 `suffix_of` h) /\ StagedOutOfScope c = false
    /\ Ev DiffCached (Ok diff) ∈ h
    /\ (exists h1 h2, runs (all_contained scope (Split (TrimSuffix diff (String NUL EmptyString)) NUL)) h1 h2 true /\ h2 `suffix_of` h).

(** What must have happened before a call. *)
Definition orderly (e : called Eff) (h : hist) : Prop :=
  match e with
  | Ev e _ =>
      match e with
      | Add paths =>
          exists s root scope after h', h = Ev IsStopped false :: h' /\ repo_held h = true
            /\ evaluating s root scope h /\ verified root scope after h /\ paths = sn_paths after
      | Commit project =>
          exists s root scope after tree h1 h2,
            h = Ev IsStopped false :: Ev WriteTree (Ok tree) :: Ev IsStopped false :: h2 /\ repo_held h = true
            /\ evaluating s root scope h /\ verified root scope after h /\ staged scope after h
            /\ project = s_ProjectID s
            /\ runs config h1 h2 (s_GitConfigFingerprint s, false, None) /\ Ev WriteTree (Ok tree) ∈ h1
      | AfterCommit s =>
          exists h', h = Ev IsStopped false :: h' /\ repo_held h = true
            /\ exists root scope, evaluating s root scope h
            /\ (Ev (Commit (s_ProjectID s)) None ∈ h \/ exists before, changes root scope before h /\ sn_owned before = [])
      | _ => True
      end
  end.

(** The calls that take and give back. *)
Inductive hold : Type := SessionLock | RepoLock | Phase.

#[local] Instance hold_eq_dec : EqDecision hold.
Proof. solve_decision. Defined.

Definition takes (k : hold) (e : called Eff) : bool :=
  match e with
  | Ev e r =>
      match e in Eff X return X -> bool with
      | SessionTryLock => fun r => match k with SessionLock => r | _ => false end
      | RepoAcquire _ => fun r => match k with RepoLock => r | _ => false end
      | SetGitPhaseIfEligible _ => fun r => match k, r with Phase, Ok b => b | _, _ => false end
      | _ => fun _ => false
      end r
  end.

Definition gives (k : hold) (e : called Eff) : bool :=
  match e with
  | Ev e _ =>
      match e, k with
      | SessionUnlock, SessionLock | RepoRelease _, RepoLock | SetGitPhase _, Phase => true
      | _, _ => false
      end
  end.

Definition count (p : called Eff -> bool) (h : hist) : nat := length (List.filter p h).

(** ** Lemmas *)

(** Neither a call that [orderly] constrains nor one that takes or gives back. *)
Definition calm (e : called Eff) : Prop :=
  match e with
  | Ev e _ =>
      match e with
      | Add _ | Commit _ | AfterCommit _ | SessionTryLock | SessionUnlock | RepoAcquire _ | RepoRelease _
      | SetGitPhaseIfEligible _ | SetGitPhase _ => False
      | _ => True
      end
  end.

(** Nothing taken or given back. *)
Definition inner (e : called Eff) : Prop :=
  match e with
  | Ev e _ =>
      match e with
      | SessionTryLock | SessionUnlock | RepoAcquire _ | RepoRelease _ | SetGitPhaseIfEligible _ | SetGitPhase _ => False
      | _ => True
      end
  end.

Abbreviation calms p := (emits record_ev calm p).

Lemma calm_inner e : calm e -> inner e.
Proof. destruct e as [X e x]. by destruct e. Qed.
Lemma calm_orderly e h : calm e -> orderly e h.
Proof. destruct e as [X e x]. by destruct e. Qed.

Lemma repo_held_inner new h : Forall inner new -> repo_held (new ++ h) = repo_held h.
Proof. induction 1 as [|[X e x] new He Hnew IH]; [done|]. by destruct e. Qed.

Lemma count_inner k new h : Forall inner new -> count (takes k) (new ++ h) = count (takes k) h /\ count (gives k) (new ++ h) = count (gives k) h.
Proof. unfold count. induction 1 as [|[X e x] new He Hnew IH]; [done|]. by destruct e, k. Qed.

Lemma calms_ret {A : Type} (a : A) : calms (mret a).
Proof. exact I. Qed.

Ltac wp_cbn := cbn [wp prog_bind mbind prog_mbind mret prog_mret call].

Create HintDb calm_db.

Ltac calm_step :=
  match goal with
  | |- emits _ _ (mret _) => exact I
  | |- emits _ _ (Ret _) => exact I
  | |- emits _ _ (call _) => apply emits_call; intros; exact I
  | |- emits _ _ (try_bind _ _) => apply emits_try_bind; [|intros]
  | |- emits _ _ (mbind _ _) => apply emits_bind; [|intros]
  | |- emits _ _ (prog_mbind _ _ _ _) => apply emits_bind; [|intros]
  | |- emits _ _ (if ?b then _ else _) => destruct b
  | |- emits _ _ (let '(_, _) := ?x in _) => destruct x
  | |- emits _ _ (match ?x with _ => _ end) => destruct x
  | |- _ => solve [eauto with calm_db]
  end.
Ltac calm_solve := cbn zeta; repeat calm_step.

Lemma files_calm {A : Type} (p : M A) : emits record_ev reads_files p -> calms p.
Proof. apply emits_mono. intros [X e x]. by destruct e. Qed.
#[local] Hint Extern 5 (emits _ calm _) => apply files_calm; solve [eauto with files_db] : calm_db.

Lemma config_calm : calms config.
Proof. unfold configFingerprint. calm_solve. Qed.
#[local] Hint Resolve config_calm : calm_db.

Lemma escape_check_calm scope paths : calms (escape_check scope paths).
Proof. induction paths as [|p paths IH]; cbn [escape_check]; calm_solve. Qed.
#[local] Hint Resolve escape_check_calm : calm_db.

Lemma read_paths_calm root e paths r : calms (read_paths SHA1 root e paths r).
Proof. induction paths as [|p paths IH] in r |- *; cbn [read_paths]; unfold commitFileBlob; calm_solve. Qed.
#[local] Hint Resolve read_paths_calm : calm_db.

Lemma read_entries_calm root scope entries r : calms (read_entries SHA1 root scope entries r).
Proof. induction entries as [|e entries IH] in r |- *; cbn [read_entries]; calm_solve. Qed.
#[local] Hint Resolve read_entries_calm : calm_db.

Lemma snapshot_calm root scope : calms (take_snapshot root scope).
Proof. unfold Commit.snapshot. calm_solve. Qed.
#[local] Hint Resolve snapshot_calm : calm_db.

Lemma event_calm s kind code reason count sha notify pattern : calms (event u s kind code reason count sha notify pattern).
Proof. unfold event. calm_solve. Qed.
#[local] Hint Resolve event_calm : calm_db.

Lemma suppressFailure_calm s fp : calms (suppressFailure u s fp).
Proof. unfold suppressFailure. calm_solve. Qed.
#[local] Hint Resolve suppressFailure_calm : calm_db.

Lemma fail_calm s fp kind code reason count pattern : calms (fail u s fp kind code reason count pattern).
Proof. unfold fail. calm_solve. Qed.
#[local] Hint Resolve fail_calm : calm_db.

Lemma commit_failed_calm s fp reason : calms (commit_failed u s fp reason).
Proof. unfold commit_failed. calm_solve. Qed.
#[local] Hint Resolve commit_failed_calm : calm_db.

Lemma gitFail_calm s fp err : calms (gitFail Error u s fp err).
Proof. unfold gitFail. calm_solve. Qed.
#[local] Hint Resolve gitFail_calm : calm_db.

Lemma snapshot_fingerprint_calm root scope otherwise : calms (snapshot_fingerprint SHA256 SHA1 root scope otherwise).
Proof. unfold snapshot_fingerprint. calm_solve. Qed.
#[local] Hint Resolve snapshot_fingerprint_calm : calm_db.

Lemma all_contained_calm scope paths : calms (all_contained scope paths).
Proof. induction paths as [|p paths IH]; cbn [all_contained]; calm_solve. Qed.
#[local] Hint Resolve all_contained_calm : calm_db.
(** *** What is known persists *)

Ltac later :=
  match goal with
  | |- ?h `suffix_of` ?h => reflexivity
  | |- _ `suffix_of` _ :: _ => apply suffix_cons_r; later
  | |- _ `suffix_of` _ ++ _ => apply suffix_app_r; later
  | x := _ |- _ `suffix_of` ?y => constr_eq x y; unfold x; later
  | H : _ `suffix_of` ?h |- _ `suffix_of` ?h => etrans; [|exact H]; later
  end.

Lemma later_run {A : Type} (p : M A) (a : A) h h' :
  h `suffix_of` h' -> (exists h1 h2, runs p h1 h2 a /\ h2 `suffix_of` h) -> exists h1 h2, runs p h1 h2 a /\ h2 `suffix_of` h'.
Proof. intros Hs (h1 & h2 & Hr & H). exists h1, h2. split; [done|by etrans]. Qed.

Lemma evaluating_later s root scope h h' : h `suffix_of` h' -> evaluating s root scope h -> evaluating s root scope h'.
Proof.
  intros Hs [H1 (now & H2 & H2') H3 H4 H5]. constructor;
    [by apply (in_later _ h)|exists now; split; [by apply (in_later _ h)|done]|by apply (in_later _ h)|by apply (later_run _ _ h)..].
Qed.

Lemma changes_later root scope b h h' : h `suffix_of` h' -> changes root scope b h -> changes root scope b h'.
Proof.
  intros Hs [H1 H2 H3]. constructor; [by apply (later_run _ _ h)|done|]. intros Hne. destruct (H3 Hne) as (attr & H & Hf).
  exists attr. split; [by apply (in_later _ h)|done].
Qed.

Lemma verified_later root scope a h h' : h `suffix_of` h' -> verified root scope a h -> verified root scope a h'.
Proof. intros Hs (b & pre & h2 & H1 & H2 & H3 & H4 & H5 & H6). exists b, pre, h2. split_and!; [done..|by etrans]. Qed.

Lemma staged_later scope a h h' : h `suffix_of` h' -> staged scope a h -> staged scope a h'.
Proof.
  intros Hs (rows & st & es & c & diff & H1 & H2 & H3 & H4 & H5 & H6 & H7 & H8 & H9). exists rows, st, es, c, diff.
  split_and!; try done; try (by apply (in_later _ h)); by apply (later_run _ _ h).
Qed.

(** *** Runs that keep the order *)

Definition went_on (h h' : hist) : Prop := hist_all orderly h' /\ exists new, h' = new ++ h /\ Forall inner new.

Lemma went_on_refl h : hist_all orderly h -> went_on h h.
Proof. intros H. split; [done|]. by exists []. Qed.

Lemma went_on_app new h h' : Forall inner new -> went_on (new ++ h) h' -> went_on h h'.
Proof.
  intros Hn [H1 (new' & -> & H2)]. split; [done|]. exists (new' ++ new). split; [by rewrite app_assoc|]. by apply list.Forall_app.
Qed.

Lemma went_on_cons e h h' : inner e -> went_on (e :: h) h' -> went_on h h'.
Proof. intros He. apply (went_on_app [e]). by constructor. Qed.

Lemma calm_all new h : Forall calm new -> hist_all orderly h -> hist_all orderly (new ++ h).
Proof. induction 1 as [|e new He Hnew IH]; [done|]. intros Hh. split; [by apply calm_orderly|auto]. Qed.

Lemma calm_inner_all new : Forall calm new -> Forall inner new.
Proof. apply Forall_impl. apply calm_inner. Qed.

Lemma calm_end {A : Type} (p : M A) h : calms p -> hist_all orderly h -> wpc p h (fun h' _ => went_on h h').
Proof.
  intros Hp Hh. apply (wp_emits_any record_ev calm); [done|]. intros new a Hn. split; [by apply calm_all|].
  exists new. split; [done|]. by apply calm_inner_all.
Qed.

(** The evaluation goes on. *)
Record going (s : ManagedSession) (root : string) (scope : PathScope) (h : hist) : Prop := mkGoing {
  g_orderly : hist_all orderly h; g_held : repo_held h = true; g_evaluating : evaluating s root scope h }.

Lemma going_calm s root scope new h : Forall calm new -> going s root scope h -> going s root scope (new ++ h).
Proof.
  intros Hn [H1 H2 H3]. constructor; [by apply calm_all|by rewrite repo_held_inner by (by apply calm_inner_all)|].
  apply (evaluating_later _ _ _ h); [by exists new|done].
Qed.

Lemma going_cons s root scope e h : inner e -> orderly e h -> going s root scope h -> going s root scope (e :: h).
Proof.
  intros He Ho [H1 H2 H3]. constructor; [by split|rewrite <- H2; by apply (repo_held_inner [e] h); constructor|].
  apply (evaluating_later _ _ _ h); [by apply suffix_cons_r|done].
Qed.

(** A calm part of the evaluation, and the run it was. *)
Lemma wp_calm_part {A : Type} s root scope (p : M A) h (Q : hist -> A -> Prop) :
  calms p -> going s root scope h ->
  (forall h' a, going s root scope h' -> h `suffix_of` h' -> runs p h h' a -> (forall h'', went_on h' h'' -> went_on h h'') -> Q h' a) ->
  wpc p h Q.
Proof.
  intros Hp Hg HQ. apply (wp_part record_ev calm); [done|]. intros new a Hn Hr. apply HQ; [by apply going_calm|by exists new|done|].
  intros h''. by apply went_on_app, calm_inner_all.
Qed.

Lemma wp_went_on {A : Type} (p : M A) h h0 :
  wpc p h (fun h' _ => went_on h h') -> (forall h', went_on h h' -> went_on h0 h') -> wpc p h (fun h' _ => went_on h0 h').
Proof. intros Hp H. eapply wp_mono; [exact Hp|]. intros h1 a. apply H. Qed.

Lemma unless_stopped_spec k h :
  hist_all orderly h ->
  (hist_all orderly (Ev IsStopped false :: h) -> wpc k (Ev IsStopped false :: h) (fun h' _ => went_on (Ev IsStopped false :: h) h')) ->
  wpc (unless_stopped u k) h (fun h' _ => went_on h h').
Proof.
  intros Hh Hk. unfold unless_stopped, stopped. destruct (has_Stop u); [|by apply went_on_refl].
  intros []; [by apply (went_on_cons (Ev IsStopped true)); [|apply went_on_refl]|].
  eapply wp_went_on; [by apply Hk|]. intros h'. by apply went_on_cons.
Qed.

(** *** After the commit *)

Lemma evaluatePush_spec s root scope h :
  going s root scope h ->
  (Ev (Commit (s_ProjectID s)) None ∈ h \/ exists before, changes root scope before h /\ sn_owned before = []) ->
  wpc (evaluatePush u s) h (fun h' _ => went_on h h').
Proof.
  intros Hg Hwhy. destruct (Hg) as [Hh Hheld Hev]. unfold evaluatePush, stopped.
  destruct (has_Stop u); [|by apply went_on_refl]. intros [].
  { by apply (went_on_cons (Ev IsStopped true)); [|apply went_on_refl]. }
  cbn [orb]. destruct (has_AfterCommit u); cbn [negb].
  2:{ by apply (went_on_cons (Ev IsStopped false)); [|apply went_on_refl]. }
  intros r. apply (went_on_app [Ev (AfterCommit s) r; Ev IsStopped false]); [by repeat constructor|]. apply went_on_refl.
  split; [|by split]. exists h. split; [done|]. split; [done|]. exists root, scope.
  split; [apply (evaluating_later _ _ _ h); [by apply suffix_cons_r|done]|].
  destruct Hwhy as [H|(b & Hb & Ho)]; [left; by right|right; exists b; split; [|done]].
  apply (changes_later _ _ _ h); [by apply suffix_cons_r|done].
Qed.

Lemma update_spec change k s root scope h :
  going s root scope h ->
  (forall r, going s root scope (Ev (UpdateSession change) r :: h) ->
     wpc k (Ev (UpdateSession change) r :: h) (fun h' _ => went_on (Ev (UpdateSession change) r :: h) h')) ->
  wpc (update change k) h (fun h' _ => went_on h h').
Proof.
  intros Hg Hk. unfold update. intros r. assert (going s root scope (Ev (UpdateSession change) r :: h)) as Hg'.
  { by apply going_cons. }
  destruct r as [v|err]; [|apply (went_on_cons (Ev (UpdateSession change) (Err err))); [done|apply went_on_refl, Hg']].
  eapply wp_went_on; [by apply Hk|]. intros h'. by apply went_on_cons.
Qed.

Lemma event_then_push_spec s root scope kind count sha h :
  going s root scope h ->
  (Ev (Commit (s_ProjectID s)) None ∈ h \/ exists before, changes root scope before h /\ sn_owned before = []) ->
  wpc (err ← event u s kind "" "" count sha false ""; match err with Some _ => mret err | None => evaluatePush u s end) h
    (fun h' _ => went_on h h').
Proof.
  intros Hg Hwhy. apply wp_bind. apply (wp_calm_part s root scope); [apply event_calm|done|].
  intros h1 [err|] Hg1 Hs1 _ Hw; [apply Hw, went_on_refl, Hg1|].
  eapply wp_went_on; [|exact Hw]. apply (evaluatePush_spec s root scope); [done|].
  destruct Hwhy as [H|(b & Hb & Ho)]; [left; by apply (in_later _ h)|right; exists b; split; [by apply (changes_later _ _ _ h)|done]].
Qed.

Lemma committed_spec s root scope fp owned h :
  going s root scope h -> Ev (Commit (s_ProjectID s)) None ∈ h ->
  wpc (committed Error u s fp owned) h (fun h' _ => went_on h h').
Proof.
  intros Hg Hc. unfold committed. intros sha. assert (going s root scope (Ev RevParseHead sha :: h)) as Hg1 by (by apply going_cons).
  wp_cbn. destruct sha as [sha|err]; (eapply wp_went_on; [|intros h'; by apply (went_on_cons (Ev RevParseHead _))]).
  2:{ apply calm_end; [apply gitFail_calm|apply Hg1]. }
  wp_cbn. cbn zeta. destruct (negb _); [apply went_on_refl, Hg1|].
  intros r. assert (going s root scope (Ev (AppendCommit (s_ProjectID s) (StringTrimSpace sha)) r :: Ev RevParseHead (Ok sha) :: h)) as Hg2.
  { by apply going_cons. }
  wp_cbn. eapply wp_went_on; [|intros h'; by apply (went_on_cons (Ev (AppendCommit _ _) _))].
  destruct r as [err|]; [apply went_on_refl, Hg2|]. apply (update_spec _ _ s root scope); [done|]. intros r Hg3.
  apply (event_then_push_spec s root scope); [done|]. left. set_solver.
Qed.

(** *** Up to the commit *)

Abbreviation goes s root scope p h := (going s root scope h -> wpc p h (fun h' _ => went_on h h')).

Lemma goes_call {X A : Type} s root scope (e : Eff X) (k : X -> M A) h :
  (forall r, calm (Ev e r)) -> (forall r, goes s root scope (k r) (Ev e r :: h)) -> goes s root scope (call e ≫= k) h.
Proof.
  intros He Hk Hg r. wp_cbn. eapply wp_went_on; [apply Hk|intros h'; apply went_on_cons, calm_inner, He].
  apply going_cons; [apply calm_inner, He|apply calm_orderly, He|done].
Qed.

Lemma goes_part {A B : Type} s root scope (p : M A) (k : A -> M B) h :
  calms p -> (forall h1 a, h `suffix_of` h1 -> runs p h h1 a -> goes s root scope (k a) h1) -> goes s root scope (p ≫= k) h.
Proof.
  intros Hp Hk Hg. apply wp_bind. apply (wp_calm_part s root scope); [done|done|]. intros h1 a Hg1 Hs Hr Hw.
  eapply wp_went_on; [by apply Hk|exact Hw].
Qed.

Lemma goes_end {A : Type} s root scope (p : M A) h : calms p -> goes s root scope p h.
Proof. intros Hp Hg. apply calm_end; [done|apply Hg]. Qed.

Lemma goes_unless s root scope k h :
  goes s root scope k (Ev IsStopped false :: h) -> goes s root scope (unless_stopped u k) h.
Proof.
  intros Hk Hg. apply unless_stopped_spec; [apply Hg|]. intros _. apply Hk. by apply going_cons.
Qed.

Lemma fail_end s root scope fp reason h : goes s root scope (commit_failed u s fp reason) h.
Proof. apply goes_end, commit_failed_calm. Qed.
Lemma git_end s root scope fp err h : goes s root scope (gitFail Error u s fp err) h.
Proof. apply goes_end, gitFail_calm. Qed.
#[local] Hint Resolve fail_end git_end : calm_db.

Lemma commit_tree_spec s root scope after fp owned h :
  verified root scope after h -> staged scope after h ->
  goes s root scope (commit_tree ToLower SHA256 SHA1 Error u s root scope fp owned) h.
Proof.
  intros Hv Hst. apply goes_call; [done|]. intros [tree|err]; [|apply git_end].
  apply goes_unless. set (h1 := Ev IsStopped false :: _). apply goes_part; [apply config_calm|].
  intros h2 [[configNow include] err] Hs2 Hrun. destruct include; [apply fail_end|]. destruct err as [err|]; [apply git_end|].
  destruct (String.eqb_spec configNow (s_GitConfigFingerprint s)) as [->|]; cbn [negb]; [|apply fail_end].
  apply goes_unless. apply goes_call; [done|]. intros [treeNow|err]; [|apply git_end].
  destruct (String.eqb_spec treeNow tree) as [->|]; cbn [negb]; [|apply fail_end].
  apply goes_unless. set (h3 := Ev IsStopped false :: _). intros Hg3 r.
  assert (h `suffix_of` h3) as Hs3.
  { later. }
  assert (orderly (Ev (Commit (s_ProjectID s)) r) h3) as Ho.
  { destruct Hg3 as [_ Hheld Hev]. exists s, root, scope, after, tree, h1, h2.
    split_and!; [done|done|done|by apply (verified_later _ _ _ h)|by apply (staged_later _ _ h)|done|done|]. right. left. }
  wp_cbn. eapply wp_went_on; [|intros h'; by apply (went_on_cons (Ev (Commit _) r))].
  assert (going s root scope (Ev (Commit (s_ProjectID s)) r :: h3)) as Hg4 by (by apply going_cons).
  destruct r as [err|]; [|by apply (committed_spec s root scope); [|left]].
  revert Hg4. apply goes_end. unfold commit_rejected_now. apply emits_bind; [apply snapshot_fingerprint_calm|].
  intros a. destruct (_ || _); [apply gitFail_calm|apply commit_failed_calm].
Qed.

Lemma check_index_spec s root scope after fp owned rows h :
  verified root scope after h -> Ev (Add (sn_paths after)) None ∈ h ->
  Ev (LsFilesStage (sn_paths after)) (Ok rows) ∈ h -> stageMatches rows (sn_blobs after) = true ->
  goes s root scope (check_index ToLower SHA256 SHA1 Error u s root scope fp owned) h.
Proof.
  intros Hv Hadd Hls Hm. apply goes_call; [done|]. intros st. set (h1 := Ev Status st :: h).
  destruct (r ← st; ParsePorcelainV1 r) as [entries|err] eqn:Ep; [|apply git_end].
  destruct st as [status|]; [cbn in Ep|done].
  apply goes_part; [apply files_calm, classify_files|]. intros h2 c Hs2 Hc. destruct (StagedOutOfScope c) eqn:Es; [apply fail_end|].
  apply goes_call; [done|]. intros [diff|err]; [|apply git_end].
  apply goes_part; [apply all_contained_calm|]. intros h3 inside Hs3 Hin. destruct inside; cbn [negb]; [|apply fail_end].
  apply goes_unless.
  assert (h1 `suffix_of` Ev IsStopped false :: h3) as Hs1.
  { later. }
  assert (h `suffix_of` Ev IsStopped false :: h3) as Hs by (etrans; [|exact Hs1]; later).
  apply (commit_tree_spec _ _ _ after); [by apply (verified_later _ _ _ h)|].
  exists rows, status, entries, c, diff. split_and!; try done; try (by apply (in_later _ h)).
  - apply (in_later _ h1); [done|left].
  - exists h1, h2. split; [done|]. later.
  - right. apply (in_later _ _ _ Hs3). left.
  - eexists _, h3. split; [exact Hin|]. later.
Qed.

Lemma reset_staged_end s root scope fp paths format k h :
  calms k -> goes s root scope (reset_staged SHA256 SHA1 Error u s root scope fp paths format k) h.
Proof.
  intros Hk. apply goes_end. unfold reset_staged. apply emits_bind; [by apply emits_call|]. intros [err|]; [|done].
  apply emits_bind; [apply snapshot_fingerprint_calm|]. intros fp'. apply emits_bind; [apply gitFail_calm|]. by intros [].
Qed.

Lemma stage_spec s root scope after fp h :
  verified root scope after (Ev IsStopped false :: h) ->
  goes s root scope (stage ToLower SHA256 SHA1 Error u s root scope fp after) (Ev IsStopped false :: h).
Proof.
  intros Hv Hg r. set (h1 := Ev IsStopped false :: h) in *.
  assert (orderly (Ev (Add (sn_paths after)) r) h1) as Ho.
  { destruct Hg as [_ Hheld Hev]. exists s, root, scope, after, h. by split_and!. }
  wp_cbn. eapply wp_went_on; [|intros h'; by apply (went_on_cons (Ev (Add _) r))].
  assert (going s root scope (Ev (Add (sn_paths after)) r :: h1)) as Hg1 by (by apply going_cons). revert Hg1.
  destruct r as [err|]; [apply git_end|].
  apply goes_unless. apply goes_call; [done|]. intros [rows|err]; [|apply reset_staged_end, gitFail_calm].
  destruct (stageMatches rows (sn_blobs after)) eqn:Em; cbn [negb]; [|apply reset_staged_end, commit_failed_calm].
  apply (check_index_spec _ _ _ after _ _ rows); [|set_solver|by left|done].
  apply (verified_later _ _ _ h1); [by do 3 apply suffix_cons_r|done].
Qed.

Lemma verify_spec s root scope before h :
  changes root scope before h -> sn_owned before <> [] -> sensitive ToLower (sn_paths before) = ""%string ->
  goes s root scope (verify ToLower SHA256 SHA1 Error u s root scope before) (Ev IsStopped false :: h).
Proof.
  intros Hch Ho Hsens. apply goes_call; [done|]. intros [code err]. destruct (is_some err || negb (code =? 0)) eqn:E.
  { apply goes_end. unfold update. apply emits_bind; [by apply emits_call|]. intros []; [apply fail_calm|exact I]. }
  apply orb_false_iff in E as [E1 E2%negb_false_iff%Z.eqb_eq]. subst code. destruct err; [done|].
  apply goes_unless. set (h1 := Ev IsStopped false :: _).
  apply goes_part; [apply snapshot_calm|]. intros h2 [after|err] Hs2 Hrun.
  2:{ destruct (errors_Is _ _); [apply fail_end|apply git_end]. }
  destruct (String.eqb_spec (sn_fingerprint after) (sn_fingerprint before)) as [Efp|]; cbn [negb].
  2:{ apply goes_end, event_calm. }
  apply goes_unless. apply stage_spec. exists before, h, h2. split_and!; try done. by apply suffix_cons_r.
Qed.

Lemma no_changes_spec s root scope before fp h :
  changes root scope before h -> sn_owned before = [] -> goes s root scope (no_changes u s fp) h.
Proof.
  intros Hch Ho. unfold no_changes. destruct (_ =? _)%string; intros Hg.
  { apply (evaluatePush_spec s root scope); [done|]. right. by exists before. }
  apply (update_spec _ _ s root scope); [done|]. intros r Hg1. apply (event_then_push_spec s root scope); [done|].
  right. exists before. split; [|done]. apply (changes_later _ _ _ h); [by apply suffix_cons_r|done].
Qed.

Lemma evaluate_changes_spec s root scope before h :
  changes root scope before h -> goes s root scope (evaluate_changes ToLower SHA256 SHA1 Error u s root scope before) h.
Proof.
  intros Hch. unfold evaluate_changes. case_bool_decide as Ho; [by apply (no_changes_spec _ _ _ before)|].
  destruct (_ =? _)%string; [apply goes_end, suppressFailure_calm|]. destruct (_ =? _)%string; [by apply goes_end|].
  destruct (String.eqb_spec (sensitive ToLower (sn_paths before)) "") as [Es|]; cbn [negb]; [|apply goes_end, fail_calm].
  apply goes_unless. by apply verify_spec.
Qed.

Lemma evaluate_tree_spec s root scope before h :
  (exists h1 h2, runs (take_snapshot root scope) h1 h2 (Ok before) /\ h2 `suffix_of` h) ->
  goes s root scope (evaluate_tree ToLower SHA256 SHA1 Error u s root scope before) h.
Proof.
  intros Hrun. unfold evaluate_tree. destruct (RenamePartial _) eqn:E1; [apply fail_end|].
  destruct (StagedOutOfScope _) eqn:E2; [apply fail_end|]. destruct (OutOfScopeUncommitted _) eqn:E3; [apply goes_end, fail_calm|].
  destruct (sn_paths before) as [|p ps] eqn:Ep.
  { apply evaluate_changes_spec. by constructor. }
  apply goes_call; [done|]. intros [attr|err]; [|apply git_end].
  destruct (filterConfigured attr) eqn:Ef; [apply fail_end|]. apply evaluate_changes_spec. constructor; [|done|].
  - apply (later_run _ _ h); [by apply suffix_cons_r|done].
  - intros _. exists attr. split; [rewrite Ep; by left|done].
Qed.

(** *** Under the locks *)

(** The evaluation has begun: all but the check of the configuration. *)
Record begun (s : ManagedSession) (h : hist) : Prop := mkBegun {
  bg_orderly : hist_all orderly h;
  bg_session : Ev LoadSession (Ok s) ∈ h;
  bg_settled : exists now, Ev Now now ∈ h /\ settled s now = true;
  bg_eligible : Ev (SetGitPhaseIfEligible GitPhaseEvaluating) (Ok true) ∈ h }.

Lemma begun_later s h h' : h `suffix_of` h' -> hist_all orderly h' -> begun s h -> begun s h'.
Proof.
  intros Hs Hh [_ H1 (now & H2 & H2') H3]. constructor;
    [done|by apply (in_later _ h)|exists now; split; [by apply (in_later _ h)|done]|by apply (in_later _ h)].
Qed.

Lemma begun_calm s new h : Forall calm new -> begun s h -> begun s (new ++ h).
Proof. intros Hn Hb. apply (begun_later _ h); [by exists new|by apply calm_all, Hb|done]. Qed.

Lemma evaluate_repo_spec s root scope h :
  begun s h -> repo_held h = true ->
  (exists h1 h2, runs (NewPathScope root (CWD u) (OwnedPaths u)) h1 h2 (Ok scope) /\ h2 `suffix_of` h) ->
  wpc (evaluate_repo ToLower SHA256 SHA1 Error u s root scope) h (fun h' _ => went_on h h').
Proof.
  intros Hb Hheld Hscope. apply unless_stopped_spec; [apply Hb|]. intros Ho. set (h1 := Ev IsStopped false :: h).
  apply wp_bind. apply (wp_part record_ev calm); [apply config_calm|]. intros new [[configFP include] err] Hn Hrun.
  assert (begun s (new ++ h1)) as Hb2 by (apply begun_calm; [done|]; by apply (begun_later _ h); [apply suffix_cons_r| |]).
  assert (forall p : M (option error), calms p -> wpc p (new ++ h1) (fun h' _ => went_on h1 h')) as Hend.
  { intros p Hp. eapply wp_went_on; [by apply calm_end, Hb2|]. intros h'. by apply went_on_app, calm_inner_all. }
  destruct include.
  { apply Hend. apply emits_bind; [apply snapshot_fingerprint_calm|]. intros fp. apply commit_failed_calm. }
  destruct err as [err|]; [apply Hend, gitFail_calm|].
  destruct (String.eqb_spec configFP (s_GitConfigFingerprint s)) as [->|]; cbn [negb].
  2:{ apply Hend. apply emits_bind; [apply snapshot_fingerprint_calm|]. intros fp. apply commit_failed_calm. }
  assert (h `suffix_of` new ++ h1) as Hs by (exists (new ++ [Ev IsStopped false]); by rewrite <- app_assoc).
  assert (going s root scope (new ++ h1)) as Hg.
  { destruct Hb2 as [H1 H2 H3 H4]. constructor; [done| |constructor; [done..|by apply (later_run _ _ h)|]].
    - rewrite repo_held_inner by (by apply calm_inner_all). done.
    - by exists h1, (new ++ h1). }
  eapply wp_went_on; [|intros h'; by apply went_on_app, calm_inner_all]. revert Hg.
  apply goes_part; [apply snapshot_calm|]. intros h2 [before|err] Hs2 Hr.
  - apply evaluate_tree_spec. by exists (new ++ h1), h2.
  - destruct (errors_Is _ _); [apply fail_end|apply git_end].
Qed.

(** What has been taken since [h] has been given back, and only of these kinds. *)
Definition given_back (ks : list hold) (h h' : hist) : Prop :=
  hist_all orderly h' /\ exists new, h' = new ++ h
    /\ forall k, count (takes k) new = count (gives k) new /\ (count (takes k) new <= 1)%nat /\ (k ∉ ks -> count (takes k) new = 0%nat).

Lemma count_app p (l k : hist) : count p (l ++ k) = (count p l + count p k)%nat.
Proof. unfold count. by rewrite filter_app, length_app. Qed.

Lemma inner_counts new k : Forall inner new -> count (takes k) new = 0%nat /\ count (gives k) new = 0%nat.
Proof. intros H. destruct (count_inner k new [] H) as [H1 H2]. by rewrite app_nil_r in H1, H2. Qed.

Lemma given_back_inner ks h h' : went_on h h' -> given_back ks h h'.
Proof.
  intros [H1 (new & -> & Hn)]. split; [done|]. exists new. split; [done|]. intros k.
  destruct (inner_counts new k Hn) as [-> ->]. split_and!; [done|lia|done].
Qed.

Lemma given_back_app ks new h h' : Forall inner new -> given_back ks (new ++ h) h' -> given_back ks h h'.
Proof.
  intros Hn [H1 (new' & -> & H2)]. split; [done|]. exists (new' ++ new). split; [by rewrite app_assoc|]. intros k.
  rewrite !count_app. destruct (inner_counts new k Hn) as [-> ->]. rewrite !Nat.add_0_r. apply H2.
Qed.

Lemma given_back_calm ks {A : Type} (p : M A) h : calms p -> hist_all orderly h -> wpc p h (fun h' _ => given_back ks h h').
Proof. intros Hp Hh. eapply wp_mono; [by apply calm_end|]. intros h' a. apply given_back_inner. Qed.

(** A kind taken before and given back after. *)
Lemma given_back_around ks k take give h h' :
  k ∉ ks -> takes k take = true -> gives k give = true -> (forall k', k' <> k -> takes k' take = false /\ gives k' give = false) ->
  (forall k', gives k' take = false) -> (forall k', takes k' give = false) -> orderly give h' ->
  given_back ks (take :: h) h' -> given_back (k :: ks) h (give :: h').
Proof.
  intros Hk Ht Hg Hother Hgt Htg Hord [H1 (new & -> & H2)]. split; [by split|]. exists (give :: new ++ [take]). split; [cbn; by rewrite <- app_assoc|].
  assert (forall p, count p (give :: new ++ [take]) = ((if p give then 1 else 0) + count p new + (if p take then 1 else 0))%nat) as Hc.
  { intros p. change (give :: new ++ [take]) with ([give] ++ new ++ [take]). rewrite !count_app. unfold count. cbn.
    destruct (p give), (p take); cbn; lia. }
  intros k'. destruct (H2 k') as (H3 & H4 & H5). rewrite !Hc, Htg, Hgt. destruct (decide (k' = k)) as [->|Hne].
  - rewrite Ht, Hg. specialize (H5 Hk). split_and!; [lia|lia|intros H; destruct H; left].
  - destruct (Hother k' Hne) as [-> ->]. split_and!; [lia|lia|]. intros H. rewrite H5; [done|]. intros Hin. apply H. by right.
Qed.

Lemma wp_given {A : Type} ks (p : M A) new h :
  Forall inner new -> wpc p (new ++ h) (fun h' _ => given_back ks (new ++ h) h') -> wpc p (new ++ h) (fun h' _ => given_back ks h h').
Proof. intros Hn Hp. eapply wp_mono; [exact Hp|]. intros h' a. by apply given_back_app. Qed.

Lemma evaluate_spec s h :
  begun s h -> wpc (evaluate ToLower SHA256 SHA1 Error u s) h (fun h' _ => given_back [RepoLock] h h').
Proof.
  intros Hb r. wp_cbn. set (h1 := Ev RevParseToplevel r :: h).
  assert (begun s h1) as Hb1 by (by apply (begun_calm _ [_]); [repeat constructor|]).
  apply (wp_given _ _ [_]); [by repeat constructor|]. change ([_] ++ h) with h1.
  destruct r as [rootBytes|err]; [|apply given_back_calm; [apply gitFail_calm|apply Hb1]].
  set (root := StringTrimSpace rootBytes). apply wp_bind. apply (wp_part record_ev calm); [apply files_calm, NewPathScope_files|].
  intros new [scope|err] Hn Hrun; apply wp_given; try (by apply calm_inner_all);
    (assert (begun s (new ++ h1)) as Hb2 by (by apply begun_calm)).
  2:{ apply given_back_calm; [apply commit_failed_calm|apply Hb2]. }
  set (h2 := new ++ h1) in *. intros common. wp_cbn. apply (wp_given _ _ [_]); [by repeat constructor|].
  assert (begun s ([Ev RevParseGitCommonDir common] ++ h2)) as Hb3 by (by apply begun_calm; [repeat constructor|]).
  set (h3 := [_] ++ h2) in *. destruct common as [common|err]; [|apply given_back_calm; [apply gitFail_calm|apply Hb3]].
  unfold TryLock. intros p. wp_cbn. apply (wp_given _ _ [_]); [by repeat constructor|].
  assert (begun s ([Ev (EvalSymlinks (StringTrimSpace common)) p] ++ h3)) as Hb4 by (by apply begun_calm; [repeat constructor|]).
  set (h4 := [_] ++ h3) in *.
  assert (forall h', begun s h' -> wpc (event u s EventKindRepoBusy "" "" 0 "" false "") h' (fun h'' _ => given_back [RepoLock] h' h'')) as Hbusy.
  { intros h' Hb'. apply given_back_calm; [apply event_calm|apply Hb']. }
  destruct p as [p|err]; [|by apply Hbusy].
  do 2 apply wp_bind. apply (wp_emits_any record_ev calm); [apply files_calm, Abs_files|]. intros new5 p5 Hn5. wp_cbn.
  assert (begun s (new5 ++ h4)) as Hb5 by (by apply begun_calm).
  destruct p5 as [key|err]; wp_cbn.
  2:{ apply wp_given; [by apply calm_inner_all|]. by apply Hbusy. }
  intros acquired. wp_cbn. set (h5 := new5 ++ h4) in *.
  assert (begun s (Ev (RepoAcquire key) acquired :: h5)) as Hb6.
  { apply (begun_later _ h5); [by apply suffix_cons_r|split; [done|apply Hb5]|done]. }
  apply (wp_mono _ _ _ (fun h' _ => given_back [RepoLock] h5 h')).
  2:{ intros h' a. apply given_back_app. by apply calm_inner_all. }
  destruct acquired; wp_cbn.
  - apply wp_bind. eapply wp_mono.
    + apply (evaluate_repo_spec s root scope); [done|done|]. exists h1, h2. split; [done|]. later.
    + intros h' r Hw []. wp_cbn. apply (given_back_around [] RepoLock (Ev (RepoAcquire key) true)); [by apply not_elem_of_nil|done|done| | | |done|].
      * by intros [] Hne.
      * by intros [].
      * by intros [].
      * by apply given_back_inner.
  - eapply wp_mono; [by apply Hbusy|]. intros h' a [H1 (new' & -> & H2)]. split; [done|].
    exists (new' ++ [Ev (RepoAcquire key) false]). split; [by rewrite <- app_assoc|]. intros k. rewrite !count_app. specialize (H2 k).
    by destruct k; cbn; rewrite !Nat.add_0_r.
Qed.

Lemma given_back_refl ks h : hist_all orderly h -> given_back ks h h.
Proof. intros H. by apply given_back_inner, went_on_refl. Qed.

Lemma commit_locked_spec h :
  hist_all orderly h ->
  wpc (execute_locked ToLower SHA256 SHA1 Error u) h (fun h' _ => given_back [Phase; RepoLock] h h').
Proof.
  intros Hh. unfold execute_locked. destruct (negb (has_dependencies u)); [by apply given_back_refl|].
  destruct (negb (has_phases u)); [by apply given_back_refl|].
  intros loaded. wp_cbn. apply (wp_given _ _ [_]); [by repeat constructor|].
  assert (hist_all orderly ([Ev LoadSession loaded] ++ h)) as Hh1 by (by split). set (h1 := [_] ++ h) in *.
  destruct loaded as [s|err]; [|by apply given_back_refl].
  apply wp_bind. apply (wp_emits_any record_ev calm); [destruct (_ =? _)%string; [by apply emits_call|done]|].
  intros new [] Hn. apply wp_given; [by apply calm_inner_all|].
  assert (hist_all orderly (new ++ h1)) as Hh2 by (by apply calm_all).
  assert (Ev LoadSession (Ok s) ∈ new ++ h1) as Hload by (apply elem_of_app; right; left).
  set (h2 := new ++ h1) in *. unfold unless_stopped, stopped. destruct (has_Stop u); [|by apply given_back_refl].
  intros st. wp_cbn. apply (wp_given _ _ [_]); [by repeat constructor|].
  assert (hist_all orderly ([Ev IsStopped st] ++ h2)) as Hh3 by (by split). set (h3 := [_] ++ h2) in *.
  destruct st; [by apply given_back_refl|].
  intros now. wp_cbn. apply (wp_given _ _ [_]); [by repeat constructor|].
  assert (hist_all orderly ([Ev Now now] ++ h3)) as Hh4 by (by split).
  assert (Ev LoadSession (Ok s) ∈ [Ev Now now] ++ h3) as Hload4 by (do 2 right; done).
  set (h4 := [_] ++ h3) in *. destruct (negb (settled s now)) eqn:Est; [by apply given_back_refl|]. apply negb_false_iff in Est. cbn [orb].
  case_bool_decide; [by apply given_back_refl|]. case_bool_decide; [by apply given_back_refl|]. cbn [orb].
  intros eligible. wp_cbn. set (e := Ev (SetGitPhaseIfEligible GitPhaseEvaluating) eligible).
  assert (given_back [Phase; RepoLock] h4 (e :: h4) \/ eligible = Ok true) as He.
  { destruct eligible as [[]|err]; [by right|left|left]; (split; [by split|]); exists [e]; (split; [done|]); intros []; cbn; split_and!; (done || lia). }
  destruct eligible as [[]|err]; [|by destruct He..]. apply wp_bind.
  assert (begun s (e :: h4)) as Hb.
  { constructor; [by split|by right|exists now; split; [set_solver|done]|left]. }
  eapply wp_mono; [by apply evaluate_spec|]. intros h5 r Hg [].
  assert (given_back [Phase; RepoLock] h4 (Ev (SetGitPhase GitPhaseNone) tt :: h5)) as Hg'.
  { apply (given_back_around [RepoLock] Phase e); try done; try (by intros []); set_solver. }
  wp_cbn. destruct (has_AfterGitPhase u); [|done]. intros []. destruct Hg' as [H1 (new' & Enew & H2)].
  split; [by split|]. exists (Ev (AfterGitPhase (s_StateSince s)) tt :: new'). split; [by rewrite Enew|].
  intros k. specialize (H2 k). by destruct k.
Qed.

(** ** Theorem *)

(** C29. Whatever git, the files, the verification and the stores answer: changes are
    added to the index only of a settled session that is not stopped, while its phase is
    set and the repository locked, with the recorded configuration, when all changes lie
    in the owned paths, none has a sensitive name or a filter, and the command has
    verified a tree with the fingerprint of the one added; a commit is made only if, in
    addition, the index was read back as exactly those contents with nothing from
    outside, and the tree was the same before and after the configuration was checked
    once more; a push is evaluated only after a commit that succeeded or with nothing of
    its own to commit.  Every lock and the phase is taken at most once and given back. *)
Theorem commits_are_verified :
  wpc (Execute ToLower SHA256 SHA1 Error u) [] (fun h _ =>
    hist_all orderly h /\ forall k, count (takes k) h = count (gives k) h /\ (count (takes k) h <= 1)%nat).
Proof.
  intros locked. wp_cbn. destruct locked; cbn [negb]; wp_cbn; [|split; [done|intros []; cbn; lia]].
  apply wp_bind. eapply wp_mono; [by apply commit_locked_spec|]. intros h r Hg []. wp_cbn.
  assert (given_back [SessionLock; Phase; RepoLock] [] (Ev SessionUnlock tt :: h)) as [H1 (new & Enew & H2)].
  { apply (given_back_around [Phase; RepoLock] SessionLock (Ev SessionTryLock true)); try done; try (by intros []); set_solver. }
  split; [done|]. rewrite app_nil_r in Enew. rewrite Enew. intros k. destruct (H2 k) as (? & ? & _). done.
Qed.

End Proofs.
