(* ===== verification/Push.v ===== *)
(** * Pushing to an allowed remote ([internal/supervisor/usecase/push_allowed.go])

    After a commit, under its locks, the commits of the supervisor are pushed if the
    policy of [PushPolicy] allows it.  The use case gathers the input of the policy stage
    by stage, so that nothing is asked of a remote before the local checks have passed,
    and checks the configuration and the URLs again at the end. *)

From S2P Require Import Prelude.
From S2P Require Import GoStrings.
From S2P Require Import Errors.
From S2P Require Import Session.
From S2P Require Import PushPolicy.
From S2P Require Import Effects.
From S2P Require Import GoText.
From S2P Require Import GitStatus.
From S2P Require Import GitEff.

Definition pushRejectedCode : string := "SUP_PUSH_REJECTED_POLICY".
Definition pushFailedCode : string := "SUP_PUSH_FAILED".

Record PushToAllowedRemoteUseCase : Type := mkPushUseCase {
  has_dependencies : bool;
  has_Stop : bool;
  has_Record : bool;
  has_Notify : bool;
  uc_Allowlist : list PushAllowlistEntry;
  uc_ProtectedBranches : list string }.

(** [PushErrorReason]: an error of the command line, or of git. *)
Definition PushErrorReason (err : error) : string :=
  if errors_Is err ErrPushArgvNotAllowed then "argv_not_allowed" else "push_failed".

Definition newline : string := String "010" EmptyString.

Definition pushLines (out : string) : list string :=
  if (out =? "")%string then [] else Split (TrimSuffix out newline) "010".

(** Whether a configuration key is set. *)
Definition pushConfigSet (r : res string) : res bool :=
  match r with
  | Ok out => Ok (negb (out =? "")%string)
  | Err err => if errors_Is err ErrNotFound then Ok false else Err err
  end.

(** What the branch of the remote points to, from one line of [ls-remote]. *)
Definition remote_head (branch out : string) (p : PushInput) : PushInput :=
  match pushLines out with
  | [] => p
  | [line] =>
      match StringFields line with
      | [sha; ref] =>
          if (ref =? "refs/heads/" +:+ branch)%string then p <| RemoteHeadSHA := sha |> else p <| RemoteHeadUnavailable := true |>
      | _ => p <| RemoteHeadUnavailable := true |>
      end
  | _ => p <| RemoteHeadUnavailable := true |>
  end.

Definition foreign_count (p : PushInput) : Z :=
  Z.of_nat (length (List.filter (fun sha => negb (bool_decide (sha ∈ SupervisorCommitSHAs p))) (CommitSHAs p))).

Section UseCase.
Context (ToLower SHA256 : string -> string) (Error : error -> string).
Context (u : PushToAllowedRemoteUseCase).

Definition stopped : M bool := if has_Stop u then call IsStopped else mret true.

Definition unless_stopped (k : M (option error)) : M (option error) :=
  st ← stopped; if (st : bool) then mret None else k.

Definition unless_cancelled (k : M (option error)) : M (option error) :=
  err ← call CtxErr; match err with Some _ => mret err | None => k end.

Definition event (s : ManagedSession) (d : PushDecision) (kind : SupervisorEventKind) (code reason sha : string) (count : Z)
    : M (option error) :=
  unless_stopped (
    let about_push := bool_decide (kind = EventKindPushSucceeded) || bool_decide (kind = EventKindPushFailed) in
    let e := if about_push then mkGitEvent kind (s_SessionID s) code reason count sha "" (d_Remote d) (d_Branch d)
             else mkGitEvent kind (s_SessionID s) code reason count "" "" "" "" in
    err ← (if has_Record u then call (Record_ e) else mret None);
    match err with
    | Some _ => mret err
    | None =>
        if negb (code =? "")%string && has_Notify u
        then st ← stopped; (if (st : bool) then mret tt else call (Notify kind));; mret None
        else mret None
    end).

Definition blocked (s : ManagedSession) (d : PushDecision) (count : Z) : M (option error) :=
  unless_cancelled (unless_stopped (event s d EventKindPushBlocked pushRejectedCode (d_Reason d) "" count)).

Definition current : M (res ManagedSession) := call (UpdateSession (fun s => s)).

(** One answer for the input, unless git has failed before; then the stop. *)
Definition gather (q : M (PushInput -> PushInput)) (p : PushInput) (k : PushInput -> M (option error)) : M (option error) :=
  f ← (if is_none (LocalGitError p) then q else mret (fun p => p));
  unless_stopped (k (f p)).

Definition git_failed (err : error) (p : PushInput) : PushInput := p <| LocalGitError := Some err |>.

Definition read_config (q : Eff (res string)) (set : bool -> PushInput -> PushInput) : M (PushInput -> PushInput) :=
  r ← call q;
  mret (match pushConfigSet r with Ok configured => set configured | Err err => git_failed err end).

(** The fingerprint of the configuration: the change of the input, and the directories
    with the fingerprint that was checked. *)
Definition read_fingerprint (s : ManagedSession) : M ((PushInput -> PushInput) * (string * string * string)) :=
  common ← call RevParseGitCommonDir;
  gitDir ← (match common with Ok _ => call RevParseGitDir | Err err => mret (Err err) end);
  match common, gitDir with
  | Ok common, Ok gitDir =>
      let common := StringTrimSpace common in
      let gitDir := StringTrimSpace gitDir in
      found ← BuildGitConfigFingerprintEntries ToLower SHA256 Error common gitDir;
      mret (match found with
            | Err _ => (fun p => p <| GitConfigInclude := true |>, (common, gitDir, ""%string))
            | Ok (entries, include) =>
                let checked := GitConfigFingerprintFromEntries SHA256 entries in
                (fun p => p <| GitConfigInclude := include |> <| GitConfigChanged := negb (checked =? s_GitConfigFingerprint s)%string |>,
                 (common, gitDir, checked))
            end)
  | _, Err err | Err err, _ => mret (git_failed err, (""%string, ""%string, ""%string))
  end.

(** [recheckConfig]: the decision, denied if the configuration has changed. *)
Definition recheckConfig (checked : string * string * string) (d : PushDecision) : M (res PushDecision) :=
  let '(commonDir, gitDir, fingerprint) := checked in
  found ← BuildGitConfigFingerprintEntries ToLower SHA256 Error commonDir gitDir;
  ctx ← call CtxErr;
  match ctx with
  | Some err => mret (Err err)
  | None =>
      st ← stopped;
      if (st : bool) then mret (Ok d)
      else mret (Ok (match found with
                     | Err _ => deny "git_config_include" d
                     | Ok (entries, include) =>
                         if negb (GitConfigFingerprintFromEntries SHA256 entries =? fingerprint)%string then deny "git_config_changed" d
                         else if (include : bool) then deny "git_config_include" d
                         else d
                     end))
  end.

(** The check of the configuration, then the stop and the decision. *)
Definition recheck_then (s : ManagedSession) (checked : string * string * string) (d : PushDecision) (k : M (option error)) : M (option error) :=
  r ← recheckConfig checked d;
  match r with
  | Err err => mret (Some err)
  | Ok d =>
      st ← stopped;
      if (st : bool) || negb (d_Reason d =? "")%string then blocked s d 0 else k
  end.

(** *** The push and its outcome *)

Definition push_failed (s : ManagedSession) (d : PushDecision) (sha : string) (err : error) : M (option error) :=
  unless_cancelled (unless_stopped (
    if (PushErrorReason err =? "argv_not_allowed")%string then blocked s (deny "argv_not_allowed" d) 0
    else
      saved ← call (UpdateSession (fun current => current <| s_LastPushFailedHead := sha |>));
      let saveErr := match saved with Ok _ => None | Err err => Some err end in
      eventErr ← event s d EventKindPushFailed pushFailedCode "" sha 0;
      mret (errors_Join [saveErr; eventErr]))).

Definition push_now (s : ManagedSession) (d : PushDecision) (sha : string) : M (option error) :=
  err ← call (Push (d_Remote d) (d_Branch d) sha);
  match err with
  | Some err => push_failed s d sha err
  | None => unless_cancelled (event s d EventKindPushSucceeded "" "" sha 0)
  end.

(** The URLs once more. *)
Definition check_urls (s : ManagedSession) (p : PushInput) (d : PushDecision) : M (option error) :=
  '(fetch, push, err) ← call (RemoteURLs (d_Remote d));
  unless_cancelled (unless_stopped (
    match err with
    | Some err => blocked s (EvaluateLocal (git_failed err p)) 0
    | None =>
        if negb (bool_decide (pushLines fetch = FetchURLs p)) || negb (bool_decide (pushLines push = PushURLs p))
        then blocked s (deny "url_mismatch" d) 0
        else push_now s d (HeadSHA p)
    end)).

Definition decide_push (s : ManagedSession) (checked : string * string * string) (p : PushInput) (d : PushDecision) : M (option error) :=
  let d := EvaluateCommits p d in
  if negb (d_Reason d =? "")%string then
    blocked s d (if (d_Reason d =? "foreign_commits")%string then foreign_count p else 0)
  else if d_NoPushes d then unless_cancelled (mret None)
  else if d_Suppressed d then
    already ← call (Suppress (HeadSHA p));
    if (already : bool) then mret None
    else unless_cancelled (event s d EventKindPushSuppressedSameHead "" "" "" 0)
  else
    unless_stopped (recheck_then s checked d (check_urls s p d)).

(** *** The commits *)

Definition check_commits (s : ManagedSession) (checked : string * string * string) (p : PushInput) (d : PushDecision) : M (option error) :=
  commits ← call (RevListSince (RemoteHeadSHA p) (HeadSHA p));
  unless_cancelled (unless_stopped (
    let p := match commits with Ok out => p <| CommitSHAs := pushLines out |> | Err err => p <| CommitListError := Some err |> end in
    record ← call (LoadProject (s_ProjectID s));
    let p := match record with Ok shas => p <| SupervisorCommitSHAs := shas |> | Err _ => p end in
    unless_cancelled (unless_stopped (
      s ← current;
      match s with
      | Err err => mret (Some err)
      | Ok s =>
          let p := p <| PreviousFailedHead := s_LastPushFailedHead s |> in
          unless_cancelled (unless_stopped (decide_push s checked p d))
      end)))).

(** *** The remote head *)

Definition check_remote (s : ManagedSession) (checked : string * string * string) (p : PushInput) (d : PushDecision) : M (option error) :=
  let d := EvaluateRemote p d in
  if negb (d_Reason d =? "")%string then blocked s d 0 else check_commits s checked p d.

Definition ask_remote (s : ManagedSession) (checked : string * string * string) (p : PushInput) (d : PushDecision) : M (option error) :=
  out ← call (LsRemote (d_Remote d) ("refs/heads/" +:+ d_Branch d));
  unless_cancelled (unless_stopped (
    let p := match out with Ok out => remote_head (d_Branch d) out p | Err _ => p <| RemoteHeadUnavailable := true |> end in
    if negb (RemoteHeadSHA p =? "")%string && negb (RemoteHeadUnavailable p) then
      err ← call (CatFileExists (RemoteHeadSHA p));
      unless_cancelled (unless_stopped (
        check_remote s checked
          (match err with
           | None => p <| RemoteHeadLocal := true |>
           | Some err => if errors_Is err ErrNotFound then p <| RemoteHeadLocal := false |> else p <| RemoteHeadLocalError := Some err |>
           end) d))
    else check_remote s checked p d)).

(** *** HEAD, and the branch once more *)

Definition check_head (s : ManagedSession) (checked : string * string * string) (p : PushInput) (d : PushDecision) : M (option error) :=
  head ← call RevParseHead;
  match head with
  | Err err => blocked s (EvaluateLocal (git_failed err p)) 0
  | Ok head =>
      let p := p <| HeadSHA := StringTrimSpace head |> in
      unless_stopped (
        ref ← call SymbolicRef;
        unless_cancelled (unless_stopped (
          match ref with
          | Err err =>
              if errors_Is err ErrNotFound then blocked s (deny "detached_head" d) 0
              else blocked s (EvaluateLocal (git_failed err p)) 0
          | Ok ref =>
              if negb (StringTrimSpace ref =? CurrentRef p)%string then blocked s (deny "not_in_allowlist" d) 0
              else recheck_then s checked d (ask_remote s checked p d)
          end)))
  end.

(** *** The local checks *)

Definition check_local (s : ManagedSession) (remote : string) (checked : string * string * string) (p : PushInput) : M (option error) :=
  let d := EvaluateLocal p in
  if negb (d_Reason d =? "")%string then blocked s d 0
  else if negb (d_Remote d =? remote)%string then blocked s (deny "not_in_allowlist" d) 0
  else check_head s checked p d.

Definition gather_fingerprint (s : ManagedSession) (remote : string) (p : PushInput) : M (option error) :=
  '(f, checked) ← (if is_none (LocalGitError p) then read_fingerprint s else mret ((fun p => p), (""%string, ""%string, ""%string)));
  unless_stopped (check_local s remote checked (f p)).

Definition check_config (s : ManagedSession) (remote : string) (p : PushInput) : M (option error) :=
  gather (read_config (ConfigGetReceivepack remote) (fun b p => p <| ReceivepackConfigured := b |>)) p (fun p =>
  gather (read_config (ConfigGetUploadpack remote) (fun b p => p <| RemoteHelperConfigured := b |>)) p (fun p =>
  gather (read_config (ConfigGetVcs remote) (fun b p => p <| RemoteHelperConfigured := RemoteHelperConfigured p || b |>)) p (fun p =>
  gather_fingerprint s remote p))).

Definition check_branch (s : ManagedSession) (p : PushInput) : M (option error) :=
  let d := EvaluateBeforeURLs p in
  if negb (d_Reason d =? "")%string || d_Noop d then blocked s d 0
  else
    let remote := d_Remote d in
    '(fetch, push, err) ← call (RemoteURLs remote);
    let p := match err with
             | Some err => git_failed err p
             | None => p <| FetchURLs := pushLines fetch |> <| PushURLs := pushLines push |>
             end in
    unless_stopped (check_config s remote p).

Definition no_input (s : ManagedSession) : PushInput :=
  mkPushInput None None None [] [] false false "" (uc_ProtectedBranches u) (uc_Allowlist u) "" false false [] [] "" (s_LastPushFailedHead s)
    false false.

Definition Run (id held : string) : M (option error) :=
  if negb (held =? id)%string then mret (Some (Errorf "push requires held commit locks" []))
  else if negb (has_dependencies u) then mret (Some (Errorf "push dependencies missing" []))
  else
    st ← stopped;
    if (st : bool) || bool_decide (uc_Allowlist u = []) then mret None
    else
      unless_cancelled (
        s ← current;
        match s with
        | Err err => mret (Some err)
        | Ok s =>
            unless_stopped (
              ref ← call SymbolicRef;
              let p := no_input s in
              let p := match ref with
                       | Ok ref => p <| CurrentRef := StringTrimSpace ref |>
                       | Err err => if errors_Is err ErrNotFound then p <| CurrentRef := ""%string |> else git_failed err p
                       end in
              unless_stopped (check_branch s p))
        end).
End UseCase.
