(* ===== verification/PushOk.v ===== *)
(** * What is pushed

    Over [Push]: what has happened before a push, for every answer of git, of the files
    and of the stores. *)

From S2P Require Import Prelude.
From S2P Require Import GoStrings.
From S2P Require Import Errors.
From S2P Require Import Session.
From S2P Require Import PushPolicy.
From S2P Require Import Effects.
From S2P Require Import GoText.
From S2P Require Import GitStatus.
From S2P Require Import GitEff.
From S2P Require Import Push.

Section Proofs.
Context (ToLower SHA256 : string -> string) (Error : error -> string).
Context (u : PushToAllowedRemoteUseCase).

Abbreviation hist := (list (called Eff)).
Abbreviation runs p := (ran record_ev p).
Abbreviation wpp := (wp record_ev).
Abbreviation entries_of common gitDir := (BuildGitConfigFingerprintEntries ToLower SHA256 Error common gitDir).
Abbreviation fingerprint_of entries := (GitConfigFingerprintFromEntries SHA256 entries).

(** ** Specification vocabulary *)

(** A key that is not set. *)
Definition unset (q : Eff (res string)) (h : hist) : Prop := exists r, Ev q r ∈ h /\ pushConfigSet r = Ok false.

(** What git has answered for the local part of the input; [s] is the session as read
    first. *)
Record local_answers (s : ManagedSession) (p : PushInput) (remote : string) (checked : string * string * string) (h : hist) : Prop :=
  mkLocalAnswers {
    la_lists : Allowlist p = uc_Allowlist u /\ ProtectedBranches p = uc_ProtectedBranches u;
    la_session : exists f, Ev (UpdateSession f) (Ok s) ∈ h;
    la_ref : exists ref, Ev SymbolicRef (Ok ref) ∈ h /\ CurrentRef p = StringTrimSpace ref;
    la_urls : exists fetch push, Ev (RemoteURLs remote) (fetch, push, None) ∈ h /\ FetchURLs p = pushLines fetch /\ PushURLs p = pushLines push;
    la_unset : unset (ConfigGetReceivepack remote) h /\ unset (ConfigGetUploadpack remote) h /\ unset (ConfigGetVcs remote) h;
    la_config : exists common gitDir entries h1 h2, checked = (common, gitDir, s_GitConfigFingerprint s)
      /\ runs (entries_of common gitDir) h1 h2 (Ok (entries, false)) /\ h2 `suffix_of` h
      /\ fingerprint_of entries = s_GitConfigFingerprint s }.

(** What git and the project's record have answered for the commits; [s1] is the session
    as read last. *)
Record commit_answers (s s1 : ManagedSession) (p : PushInput) (remote branch : string) (h : hist) : Prop := mkCommitAnswers {
  ca_head : exists out, Ev RevParseHead (Ok out) ∈ h /\ HeadSHA p = StringTrimSpace out;
  ca_remote : exists out line, Ev (LsRemote remote ("refs/heads/" +:+ branch)) (Ok out) ∈ h /\ pushLines out = [line]
    /\ StringFields line = [RemoteHeadSHA p; "refs/heads/" +:+ branch];
  ca_present : Ev (CatFileExists (RemoteHeadSHA p)) None ∈ h;
  ca_commits : exists out, Ev (RevListSince (RemoteHeadSHA p) (HeadSHA p)) (Ok out) ∈ h /\ CommitSHAs p = pushLines out;
  ca_project : Ev (LoadProject (s_ProjectID s)) (Ok (SupervisorCommitSHAs p)) ∈ h;
  ca_session : (exists f, Ev (UpdateSession f) (Ok s1) ∈ h) /\ PreviousFailedHead p = s_LastPushFailedHead s1 }.

(** The configuration has just been checked again; the check is skipped, without being
    repeated, when a stop was seen that is gone by now. *)
Definition rechecked (checked : string * string * string) (h : hist) : Prop :=
  let '(common, gitDir, fingerprint) := checked in
  exists found h1 h2 st,
    runs (entries_of common gitDir) h1 h2 found /\ h = Ev IsStopped false :: Ev IsStopped st :: Ev CtxErr None :: h2
    /\ (st = false -> exists entries, found = Ok (entries, false) /\ fingerprint_of entries = fingerprint).

Definition is_push (e : called Eff) : bool := match e with Ev e _ => match e with Push _ _ _ => true | _ => false end end.

Definition orderly (e : called Eff) (h : hist) : Prop :=
  match e with
  | Ev (Push remote branch sha) _ =>
      exists s s1 p checked fetch push h1,
        h = Ev IsStopped false :: Ev CtxErr None :: Ev (RemoteURLs remote) (fetch, push, None) :: h1
        /\ FetchURLs p = pushLines fetch /\ PushURLs p = pushLines push
        /\ rechecked checked h1
        /\ local_answers s p remote checked h /\ commit_answers s s1 p remote branch h
        /\ may_push p remote branch /\ sha = HeadSHA p
        /\ forallb (fun e => negb (is_push e)) h = true
  | _ => True
  end.

(** ** Lemmas *)

Definition calm (e : called Eff) : Prop := is_push e = false.
Abbreviation calms p := (emits record_ev calm p).

Lemma push_calm_orderly e h : calm e -> orderly e h.
Proof. destruct e as [X e x]. by destruct e. Qed.

Ltac wp_cbn := cbn [wp prog_bind mbind prog_mbind mret prog_mret call].

Create HintDb push_db.

Ltac calm_step :=
  match goal with
  | |- emits _ _ (mret _) => exact I
  | |- emits _ _ (Ret _) => exact I
  | |- emits _ _ (call _) => apply emits_call; intros; reflexivity
  | |- emits _ _ (try_bind _ _) => apply emits_try_bind; [|intros]
  | |- emits _ _ (mbind _ _) => apply emits_bind; [|intros]
  | |- emits _ _ (prog_mbind _ _ _ _) => apply emits_bind; [|intros]
  | |- emits _ _ (if ?b then _ else _) => destruct b
  | |- emits _ _ (let '(_, _) := ?x in _) => destruct x
  | |- emits _ _ (match ?x with _ => _ end) => destruct x
  | |- _ => solve [eauto with push_db]
  end.
Ltac calm_solve := cbn zeta; repeat calm_step.

Lemma push_files_calm {A : Type} (p : M A) : emits record_ev reads_files p -> calms p.
Proof. apply emits_mono. intros [X e x]. by destruct e. Qed.
#[local] Hint Extern 5 (emits _ calm _) => apply push_files_calm; solve [eauto with files_db] : push_db.

Lemma entries_of_calm common gitDir : calms (entries_of common gitDir).
Proof. apply push_files_calm, BuildEntries_files. Qed.

Lemma push_stopped_calm : calms (stopped u).
Proof. unfold stopped. calm_solve. Qed.
#[local] Hint Resolve push_stopped_calm : push_db.

Lemma unless_stopped_calm k : calms k -> calms (unless_stopped u k).
Proof. intros Hk. unfold unless_stopped. calm_solve. Qed.
Lemma unless_cancelled_calm k : calms k -> calms (unless_cancelled k).
Proof. intros Hk. unfold unless_cancelled. calm_solve. Qed.
#[local] Hint Resolve unless_stopped_calm unless_cancelled_calm : push_db.

Lemma push_event_calm s d kind code reason sha count : calms (event u s d kind code reason sha count).
Proof. unfold event. apply unless_stopped_calm. calm_solve. Qed.
#[local] Hint Resolve push_event_calm : push_db.

Lemma push_blocked_calm s d count : calms (blocked u s d count).
Proof. unfold blocked. calm_solve. Qed.
#[local] Hint Resolve push_blocked_calm : push_db.

Lemma push_failed_calm s d sha err : calms (push_failed u s d sha err).
Proof. unfold push_failed. apply unless_cancelled_calm, unless_stopped_calm. calm_solve. Qed.

(** *** What is known persists *)

Lemma unset_later q h h' : h `suffix_of` h' -> unset q h -> unset q h'.
Proof. intros Hs (r & H & Hr). exists r. split; [by apply (in_later _ h)|done]. Qed.

Lemma local_later s p remote checked h h' : h `suffix_of` h' -> local_answers s p remote checked h -> local_answers s p remote checked h'.
Proof.
  intros Hs [H1 (f & H2) (ref & H3 & H3') (fetch & push & H4 & H4') (H5 & H6 & H7) (common & gitDir & entries & h1 & h2 & H8 & H9 & H10 & H11)].
  constructor; [done|exists f; by apply (in_later _ h)|exists ref; split; [by apply (in_later _ h)|done]
    |exists fetch, push; split; [by apply (in_later _ h)|done]|split_and!; by apply (unset_later _ h)|].
  exists common, gitDir, entries, h1, h2. split_and!; [done|done|by etrans|done].
Qed.

(** The answers speak of the fields of the input that the local checks use. *)
Definition same_local (p p' : PushInput) : Prop :=
  LocalGitError p = LocalGitError p' /\ Allowlist p = Allowlist p' /\ ProtectedBranches p = ProtectedBranches p' /\ CurrentRef p = CurrentRef p'
  /\ FetchURLs p = FetchURLs p' /\ PushURLs p = PushURLs p'
  /\ (ReceivepackConfigured p, RemoteHelperConfigured p, GitConfigInclude p, GitConfigChanged p)
     = (ReceivepackConfigured p', RemoteHelperConfigured p', GitConfigInclude p', GitConfigChanged p').

Lemma local_same s p p' remote checked h : same_local p p' -> local_answers s p remote checked h -> local_answers s p' remote checked h.
Proof.
  intros (E1 & E2 & E3 & E4 & E5 & E6 & _) [H1 H2 H3 H4 H5 H6].
  constructor; rewrite <- ?E2, <- ?E3, <- ?E4, <- ?E5, <- ?E6; done.
Qed.

Lemma listed_same p p' remote branch : same_local p p' -> listed p remote branch -> listed p' remote branch.
Proof.
  intros (E1 & E2 & E3 & E4 & E5 & E6 & _) [H1 H2 H3 H4 H5 H6].
  constructor; rewrite <- ?E2, <- ?E3, <- ?E4, <- ?E5, <- ?E6; done.
Qed.

(** *** The decisions *)

(** A decision that the stages so far have not denied. *)
Record undecided (d : PushDecision) : Prop := mkUndecided {
  un_reason : d_Reason d = ""%string; un_allowed : d_Allowed d = false; un_nopushes : d_NoPushes d = false; un_suppressed : d_Suppressed d = false }.

Lemma deny_reason reason d : d_Reason (deny reason d) = reason.
Proof. reflexivity. Qed.

Lemma local_reason_nonempty err : localGitFailureReason err <> ""%string.
Proof. unfold localGitFailureReason. by destruct (errors_Is _ _). Qed.

(** The local checks answer no reason only if they pass. *)
Lemma EvaluateLocal_undenied p :
  Allowlist p <> [] -> d_Reason (EvaluateLocal p) = ""%string ->
  d_ReadyForRemote (EvaluateLocal p) = true /\ d_ReadyForCommits (EvaluateLocal p) = false /\ undecided (EvaluateLocal p).
Proof.
  intros Hal. assert (d_Noop (EvaluateBeforeURLs p) = false /\ d_ReadyForCommits (EvaluateBeforeURLs p) = false
    /\ d_Allowed (EvaluateBeforeURLs p) = false /\ d_NoPushes (EvaluateBeforeURLs p) = false /\ d_Suppressed (EvaluateBeforeURLs p) = false)
    as (H1 & H2 & H3 & H4 & H5).
  { unfold EvaluateBeforeURLs. repeat case_match; done. }
  unfold EvaluateLocal. rewrite H1. destruct (d_Reason (EvaluateBeforeURLs p) =? "")%string eqn:E; cbn [negb orb].
  2:{ intros Hr. rewrite Hr in E. done. }
  apply String.eqb_eq in E. repeat case_match; cbn; try done; intros _; split_and!; try done; constructor; cbn; try done.
Qed.

Lemma EvaluateRemote_undenied p d :
  d_ReadyForRemote d = true -> d_ReadyForCommits d = false -> undecided d -> d_Reason (EvaluateRemote p d) = ""%string ->
  d_ReadyForCommits (EvaluateRemote p d) = true /\ undecided (EvaluateRemote p d).
Proof.
  intros H1 H2 [H3 H4 H5 H6]. unfold EvaluateRemote. rewrite H1, H3. cbn [negb orb String.eqb].
  repeat case_match; cbn; try done; intros E; exfalso; by eapply local_reason_nonempty.
Qed.

Lemma EvaluateCommits_undenied p d :
  d_ReadyForCommits d = true -> undecided d -> d_Reason (EvaluateCommits p d) = ""%string ->
  d_NoPushes (EvaluateCommits p d) = false -> d_Suppressed (EvaluateCommits p d) = false -> d_Allowed (EvaluateCommits p d) = true.
Proof.
  intros H1 [H3 H4 H5 H6]. unfold EvaluateCommits. rewrite H1, H3. cbn [negb orb String.eqb].
  repeat case_match; cbn; try done; intros E; exfalso; by eapply local_reason_nonempty.
Qed.

(** *** Runs that keep the order *)

(** In order, and without a push so far. *)
Definition ready (h : hist) : Prop := hist_all orderly h /\ forallb (fun e => negb (is_push e)) h = true.

Abbreviation good p h := (ready h -> wpp p h (fun h' _ => hist_all orderly h')).

Lemma ready_calm new h : Forall calm new -> ready h -> ready (new ++ h).
Proof.
  intros Hn [H1 H2]. induction Hn as [|e new He Hnew [IH1 IH2]]; [done|]. split; [split; [by apply push_calm_orderly|done]|].
  cbn. unfold calm in He. by rewrite He.
Qed.

Lemma good_end {A : Type} (p : M A) h : calms p -> good p h.
Proof.
  intros Hp Hh. apply (wp_emits_any record_ev calm); [done|]. intros new a Hn. by apply ready_calm.
Qed.

Lemma good_call {X A : Type} (e : Eff X) (k : X -> M A) h :
  (forall r, calm (Ev e r)) -> (forall r, good (k r) (Ev e r :: h)) -> good (call e ≫= k) h.
Proof. intros He Hk Hh r. wp_cbn. apply Hk. apply (ready_calm [_]); [by constructor; [apply He|]|done]. Qed.

Lemma good_part {A B : Type} (p : M A) (k : A -> M B) h :
  calms p -> (forall h1 a, h `suffix_of` h1 -> runs p h h1 a -> good (k a) h1) -> good (p ≫= k) h.
Proof.
  intros Hp Hk Hh. apply wp_bind. apply (wp_part record_ev calm); [done|]. intros new a Hn Hr.
  apply Hk; [by exists new|done|by apply ready_calm].
Qed.

Lemma good_unless_stopped k h : good k (Ev IsStopped false :: h) -> good (unless_stopped u k) h.
Proof.
  intros Hk Hh. unfold unless_stopped, stopped. destruct (has_Stop u); [|apply Hh].
  intros []; wp_cbn; [split; [done|apply Hh]|]. apply Hk. by apply (ready_calm [_]); [repeat constructor|].
Qed.

Lemma good_unless_cancelled k h : good k (Ev CtxErr None :: h) -> good (unless_cancelled k) h.
Proof.
  intros Hk Hh [err|]; wp_cbn; [split; [done|apply Hh]|]. apply Hk. by apply (ready_calm [_]); [repeat constructor|].
Qed.

Lemma blocked_good s d count h : good (blocked u s d count) h.
Proof. apply good_end, push_blocked_calm. Qed.

Lemma recheck_then_good s checked d k h :
  d_Reason d = ""%string ->
  (forall h1, h `suffix_of` h1 -> rechecked checked h1 -> good k h1) ->
  good (recheck_then ToLower SHA256 Error u s checked d k) h.
Proof.
  intros Hd Hk. destruct checked as [[common gitDir] fingerprint]. unfold recheck_then, recheckConfig. intros Hh. do 2 apply wp_bind.
  apply (wp_part record_ev calm); [apply entries_of_calm|]. intros new found Hn Hrun.
  assert (h `suffix_of` new ++ h) as Hs by (by exists new). assert (ready (new ++ h)) as Hr by (by apply ready_calm).
  set (h1 := new ++ h) in *. intros [err|]; wp_cbn; [split; [done|apply Hr]|].
  assert (ready (Ev CtxErr None :: h1)) as Hr2 by (by apply (ready_calm [_]); [repeat constructor|]).
  unfold stopped at 1. destruct (has_Stop u) eqn:Est; wp_cbn.
  2:{ unfold stopped. rewrite Est. cbn [orb]. by apply blocked_good. }
  intros st. wp_cbn. assert (ready (Ev IsStopped st :: Ev CtxErr None :: h1)) as Hr3 by (by apply (ready_calm [_]); [repeat constructor|]).
  assert (forall d', wpp (blocked u s d' 0) (Ev IsStopped st :: Ev CtxErr None :: h1) (fun h' _ => hist_all orderly h')) as Hbl.
  { intros d'. by apply blocked_good. }
  assert (forall d' st', wpp (blocked u s d' 0) (Ev IsStopped st' :: Ev IsStopped st :: Ev CtxErr None :: h1) (fun h' _ => hist_all orderly h')) as Hbl2.
  { intros d' st'. apply blocked_good. by apply (ready_calm [_]); [repeat constructor|]. }
  assert (ready (Ev IsStopped false :: Ev IsStopped st :: Ev CtxErr None :: h1)) as Hr4 by (by apply (ready_calm [_]); [repeat constructor|]).
  assert (h `suffix_of` Ev IsStopped false :: Ev IsStopped st :: Ev CtxErr None :: h1) as Hs4 by (by do 3 apply suffix_cons_r).
  unfold stopped. rewrite Est. destruct st; wp_cbn.
  - intros [|]; wp_cbn; [apply Hbl2|]. rewrite Hd. cbn [orb negb String.eqb]. apply Hk; [done| |done].
    by exists found, h, h1, true.
  - destruct found as [[entries include]|err]; wp_cbn.
    2:{ intros [|]; wp_cbn; apply Hbl2. }
    destruct (String.eqb_spec (fingerprint_of entries) fingerprint) as [E|E]; cbn [negb].
    2:{ intros [|]; wp_cbn; apply Hbl2. }
    destruct include; [intros [|]; wp_cbn; apply Hbl2|].
    intros [|]; wp_cbn; [apply Hbl2|]. rewrite Hd. cbn [orb negb String.eqb]. apply Hk; [done| |done].
    exists (Ok (entries, false)), h, h1, false. split_and!; [done|done|]. intros _. by exists entries.
Qed.

(** *** The stages, the last one first *)

Lemma commit_later s s1 p remote branch h h' : h `suffix_of` h' -> commit_answers s s1 p remote branch h -> commit_answers s s1 p remote branch h'.
Proof.
  intros Hs [(o1 & H1 & H1') (o2 & line & H2 & H2') H3 (o4 & H4 & H4') H5 [(f & H6) H6']].
  constructor; [exists o1|exists o2, line| |exists o4| |split; [exists f|]]; try split; try done; by apply (in_later _ h).
Qed.

Lemma check_urls_good s0 s1 s p checked d h :
  rechecked checked h -> local_answers s0 p (d_Remote d) checked h -> commit_answers s0 s1 p (d_Remote d) (d_Branch d) h ->
  may_push p (d_Remote d) (d_Branch d) -> good (check_urls u s p d) h.
Proof.
  intros Hre Hl Hc Hm. apply good_call; [done|]. intros [[fetch push] err].
  apply good_unless_cancelled, good_unless_stopped. destruct err as [err|]; [apply blocked_good|].
  destruct (bool_decide_reflect (pushLines fetch = FetchURLs p)) as [E1|]; cbn [negb orb]; [|apply blocked_good].
  destruct (bool_decide_reflect (pushLines push = PushURLs p)) as [E2|]; cbn [negb orb]; [|apply blocked_good].
  intros [Ho Hno] r. set (h1 := Ev IsStopped false :: _) in *. wp_cbn.
  assert (h `suffix_of` h1) as Hs by (by do 3 apply suffix_cons_r).
  assert (hist_all orderly (Ev (Push (d_Remote d) (d_Branch d) (HeadSHA p)) r :: h1)) as Hh.
  { split; [|done]. exists s0, s1, p, checked, fetch, push, h.
    split_and!; try done; [by apply (local_later _ _ _ _ h)|by apply (commit_later _ _ _ _ _ h)]. }
  destruct r as [err|].
  - apply (wp_emits_any record_ev calm); [apply push_failed_calm|]. intros new a Hn.
    induction Hn as [|e new He Hnew IH]; [done|]. split; [by apply push_calm_orderly|done].
  - apply (wp_emits_any record_ev calm); [apply unless_cancelled_calm, push_event_calm|]. intros new a Hn.
    induction Hn as [|e new He Hnew IH]; [done|]. split; [by apply push_calm_orderly|done].
Qed.

(** What the local and the remote checks have established. *)
Definition local_ok (p : PushInput) (remote branch : string) : Prop :=
  LocalGitError p = None /\ listed p remote branch
  /\ ReceivepackConfigured p = false /\ RemoteHelperConfigured p = false /\ GitConfigInclude p = false /\ GitConfigChanged p = false.
Definition remote_ok (p : PushInput) : Prop :=
  RemoteHeadUnavailable p = false /\ RemoteHeadLocal p = true /\ shaPattern (RemoteHeadSHA p) = true /\ RemoteHeadLocalError p = None.

Lemma local_ok_same p p' remote branch : same_local p p' -> local_ok p remote branch -> local_ok p' remote branch.
Proof.
  intros Hs (L1 & L2 & L3 & L4 & L5 & L6). pose proof (listed_same _ _ _ _ Hs L2) as L2'.
  destruct Hs as (E1 & _ & _ & _ & _ & _ & E). injection E as E3 E4 E5 E6. unfold local_ok. by rewrite <- E1, <- E3, <- E4, <- E5, <- E6.
Qed.

Lemma decide_push_good s0 s1 checked p d h :
  d_ReadyForCommits d = true -> undecided d ->
  local_answers s0 p (d_Remote d) checked h -> local_ok p (d_Remote d) (d_Branch d) -> remote_ok p ->
  (CommitListError p = None -> SupervisorCommitSHAs p <> [] -> commit_answers s0 s1 p (d_Remote d) (d_Branch d) h) ->
  good (decide_push ToLower SHA256 Error u s1 checked p d) h.
Proof.
  intros Hrfc Hun Hl (L1 & L2 & L3 & L4 & L5 & L6) (R1 & R2 & R3 & R4) Hc. unfold decide_push.
  destruct (String.eqb_spec (d_Reason (EvaluateCommits p d)) "") as [Er|]; cbn [negb]; [|apply blocked_good].
  destruct (d_NoPushes (EvaluateCommits p d)) eqn:En; [apply good_end, unless_cancelled_calm; exact I|].
  destruct (d_Suppressed (EvaluateCommits p d)) eqn:Esu.
  { apply good_call; [done|]. intros []; [by apply good_end|]. apply good_end, unless_cancelled_calm, push_event_calm. }
  pose proof (EvaluateCommits_undenied p d Hrfc Hun Er En Esu) as Ha.
  destruct (EvaluateCommits_spec p d Hrfc (un_reason d Hun) (un_allowed d Hun)) as [Hspec Hkeep].
  destruct (Hkeep Ha) as [Erem Ebr]. apply Hspec in Ha as (C1 & C2 & C3 & C4 & C5 & C6).
  apply good_unless_stopped. apply recheck_then_good; [done|]. intros h1 Hs Hre.
  assert (h `suffix_of` h1) as Hs' by (etrans; [|exact Hs]; by apply suffix_cons_r).
  apply (check_urls_good s0 s1 _ _ checked); rewrite ?Erem, ?Ebr; [done|by apply (local_later _ _ _ _ h)| |by constructor].
  apply (commit_later _ _ _ _ _ h); [done|]. apply Hc; [done|]. intros E. by rewrite E in C5.
Qed.

(** An input whose last stages have not begun. *)
Definition fresh (p : PushInput) : Prop := SupervisorCommitSHAs p = [].
Definition unasked (p : PushInput) : Prop := fresh p /\ RemoteHeadSHA p = ""%string /\ RemoteHeadLocal p = false.

Lemma check_commits_good s checked p d h :
  d_ReadyForCommits d = true -> undecided d -> fresh p ->
  local_answers s p (d_Remote d) checked h -> local_ok p (d_Remote d) (d_Branch d) -> remote_ok p ->
  (exists out, Ev RevParseHead (Ok out) ∈ h /\ HeadSHA p = StringTrimSpace out) ->
  (exists out line, Ev (LsRemote (d_Remote d) ("refs/heads/" +:+ d_Branch d)) (Ok out) ∈ h /\ pushLines out = [line]
    /\ StringFields line = [RemoteHeadSHA p; "refs/heads/" +:+ d_Branch d]) ->
  Ev (CatFileExists (RemoteHeadSHA p)) None ∈ h ->
  good (check_commits ToLower SHA256 Error u s checked p d) h.
Proof.
  intros Hrfc Hun Hf Hl Hlo Hro Hhead Hrem Hpres. apply good_call; [done|]. intros commits.
  apply good_unless_cancelled, good_unless_stopped. cbn zeta. apply good_call; [done|]. intros record.
  apply good_unless_cancelled, good_unless_stopped. apply good_call; [done|]. intros [s1|err]; [|by apply good_end].
  apply good_unless_cancelled, good_unless_stopped.
  set (p' := _ <| PreviousFailedHead := _ |>). set (h1 := Ev IsStopped false :: _).
  assert (h `suffix_of` h1) as Hs by (by do 9 apply suffix_cons_r).
  assert (same_local p p') as Hsame by (unfold p'; by destruct commits, record).
  apply (decide_push_good s); [done|done| | | |].
  - apply (local_same _ p); [done|]. by apply (local_later _ _ _ _ h).
  - by apply (local_ok_same p).
  - unfold p'. by destruct commits, record.
  - intros Hok Hne. assert (HeadSHA p' = HeadSHA p /\ RemoteHeadSHA p' = RemoteHeadSHA p /\ PreviousFailedHead p' = s_LastPushFailedHead s1)
      as (E1 & E2 & E3) by (unfold p'; by destruct commits, record).
    constructor; rewrite ?E1, ?E2.
    + destruct Hhead as (out & H & H'). exists out. split; [by apply (in_later _ h)|done].
    + destruct Hrem as (out & line & H & H'). exists out, line. split; [by apply (in_later _ h)|done].
    + by apply (in_later _ h).
    + destruct commits as [out|err]; [|by unfold p' in Hok; destruct record]. exists out. split; [unfold h1; set_solver|].
      unfold p'. by destruct record.
    + destruct record as [shas|err]; [|unfold p' in Hne; exfalso; by destruct commits].
      assert (SupervisorCommitSHAs p' = shas) as -> by (unfold p'; by destruct commits). unfold h1. set_solver.
    + split; [|done]. eexists. unfold h1. do 2 right. left.
Qed.

Lemma check_remote_good s checked p d h :
  d_ReadyForRemote d = true -> d_ReadyForCommits d = false -> undecided d -> fresh p ->
  local_answers s p (d_Remote d) checked h -> local_ok p (d_Remote d) (d_Branch d) ->
  (exists out, Ev RevParseHead (Ok out) ∈ h /\ HeadSHA p = StringTrimSpace out) ->
  (remote_ok p -> (exists out line, Ev (LsRemote (d_Remote d) ("refs/heads/" +:+ d_Branch d)) (Ok out) ∈ h /\ pushLines out = [line]
    /\ StringFields line = [RemoteHeadSHA p; "refs/heads/" +:+ d_Branch d]) /\ Ev (CatFileExists (RemoteHeadSHA p)) None ∈ h) ->
  good (check_remote ToLower SHA256 Error u s checked p d) h.
Proof.
  intros Hrfr Hrfc Hun Hf Hl Hlo Hhead Hrem. unfold check_remote.
  destruct (String.eqb_spec (d_Reason (EvaluateRemote p d)) "") as [Er|]; cbn [negb]; [|apply blocked_good].
  destruct (EvaluateRemote_undenied p d Hrfr Hrfc Hun Er) as [Hrfc' Hun'].
  destruct (EvaluateRemote_spec p d Hrfr (un_reason d Hun) Hrfc) as [Hspec Heq].
  assert (remote_ok p) as Hro by (by apply Hspec). destruct (Hrem Hro) as [Hls Hcat].
  apply check_commits_good; rewrite ?Heq by done; done || by rewrite <- Heq.
Qed.

Lemma remote_head_unasked branch out p :
  unasked p -> RemoteHeadSHA (remote_head branch out p) <> ""%string -> RemoteHeadUnavailable (remote_head branch out p) = false ->
  exists line, pushLines out = [line] /\ StringFields line = [RemoteHeadSHA (remote_head branch out p); "refs/heads/" +:+ branch].
Proof.
  intros (_ & Hs & _). unfold remote_head. destruct (pushLines out) as [|line [|]]; [by rewrite Hs| |by intros _].
  destruct (StringFields line) as [|sha [|ref [|]]] eqn:Ef; try by intros _.
  destruct (String.eqb_spec ref ("refs/heads/" +:+ branch)) as [->|]; [|by intros _]. intros _ _. by exists line.
Qed.

Lemma remote_head_same branch out p :
  let p' := remote_head branch out p in
  same_local p p' /\ SupervisorCommitSHAs p' = SupervisorCommitSHAs p /\ HeadSHA p' = HeadSHA p /\ RemoteHeadLocal p' = RemoteHeadLocal p.
Proof. cbn zeta. unfold remote_head, same_local. by repeat case_match. Qed.

Lemma ask_remote_good s checked p d h :
  d_ReadyForRemote d = true -> d_ReadyForCommits d = false -> undecided d -> unasked p ->
  local_answers s p (d_Remote d) checked h -> local_ok p (d_Remote d) (d_Branch d) ->
  (exists out, Ev RevParseHead (Ok out) ∈ h /\ HeadSHA p = StringTrimSpace out) ->
  good (ask_remote ToLower SHA256 Error u s checked p d) h.
Proof.
  intros Hrfr Hrfc Hun Hua Hl Hlo Hhead. apply good_call; [done|]. intros out. apply good_unless_cancelled, good_unless_stopped. cbn zeta.
  set (p1 := match out with Ok out => remote_head (d_Branch d) out p | Err _ => p <| RemoteHeadUnavailable := true |> end).
  assert (same_local p p1 /\ fresh p1 /\ HeadSHA p1 = HeadSHA p /\ RemoteHeadLocal p1 = false) as (Hsame & Hf & Hh & Hnl).
  { destruct Hua as (H1 & H2 & H3). unfold p1, fresh. destruct out as [out|err]; [|done].
    destruct (remote_head_same (d_Branch d) out p) as (E1 & -> & -> & ->). done. }
  set (h1 := Ev IsStopped false :: _).
  assert (h `suffix_of` h1) as Hs by (by do 3 apply suffix_cons_r).
  assert (Ev (LsRemote (d_Remote d) ("refs/heads/" +:+ d_Branch d)) out ∈ h1) as Hls by (unfold h1; set_solver).
  assert (forall p2 h2, h1 `suffix_of` h2 -> same_local p1 p2 -> fresh p2 -> HeadSHA p2 = HeadSHA p ->
    (remote_ok p2 -> p2 = p1 <| RemoteHeadLocal := true |> /\ Ev (CatFileExists (RemoteHeadSHA p1)) None ∈ h2) ->
    good (check_remote ToLower SHA256 Error u s checked p2 d) h2) as Hnext.
  { intros p2 h2 Hs2 Hsame2 Hf2 Hh2 Hro. assert (h `suffix_of` h2) as Hs' by (by etrans). apply check_remote_good; try done.
    - apply (local_same _ p1); [done|]. apply (local_same _ p); [done|]. by apply (local_later _ _ _ _ h).
    - apply (local_ok_same p1); [done|]. by apply (local_ok_same p).
    - destruct Hhead as (o & H & H'). exists o. split; [by apply (in_later _ h)|by rewrite Hh2].
    - intros Hr. destruct (Hro Hr) as [-> Hcat]. destruct Hr as (R1 & _ & R3 & _). split; [|done].
      unfold p1 in R1, R3 |- *. destruct out as [out|err]; [|done].
      destruct (remote_head_unasked (d_Branch d) out p Hua) as (line & E1 & E2); [|done|by exists out, line; split; [by apply (in_later _ h1)|]].
      intros E. cbn in R3. by rewrite E in R3. }
  destruct (negb (RemoteHeadSHA p1 =? "")%string && negb (RemoteHeadUnavailable p1)) eqn:Eask.
  - apply good_call; [done|]. intros found. apply good_unless_cancelled, good_unless_stopped.
    set (p2 := match found with None => _ | Some _ => _ end). apply Hnext.
    + by do 3 apply suffix_cons_r.
    + unfold p2. destruct found as [err|]; [destruct (errors_Is _ _)|]; done.
    + unfold p2. destruct found as [err|]; [destruct (errors_Is _ _)|]; done.
    + unfold p2. destruct found as [err|]; [destruct (errors_Is _ _)|]; done.
    + intros (_ & R2 & _ & R4). unfold p2 in *. destruct found as [err|]; [|by split; [|set_solver]].
      destruct (errors_Is _ _); [done|]. cbn in R4. done.
  - apply Hnext; try done. intros (_ & R2 & _). by rewrite Hnl in R2.
Qed.

Lemma check_head_good s checked p d h :
  d_ReadyForRemote d = true -> d_ReadyForCommits d = false -> undecided d -> unasked p ->
  local_answers s p (d_Remote d) checked h -> local_ok p (d_Remote d) (d_Branch d) ->
  good (check_head ToLower SHA256 Error u s checked p d) h.
Proof.
  intros Hrfr Hrfc Hun Hua Hl Hlo. apply good_call; [done|]. intros [head|err]; [|apply blocked_good]. cbn zeta.
  apply good_unless_stopped, good_call; [done|]. intros ref. apply good_unless_cancelled, good_unless_stopped.
  destruct ref as [ref|err]; [|destruct (errors_Is _ _); apply blocked_good].
  destruct (negb _); [apply blocked_good|]. apply recheck_then_good; [apply Hun|]. intros h1 Hs Hre.
  assert (h `suffix_of` h1) as Hs' by (etrans; [|exact Hs]; by do 5 apply suffix_cons_r).
  apply ask_remote_good; try done; [by apply (local_same _ p); [|apply (local_later _ _ _ _ h)]|by apply (local_ok_same p)|].
  exists head. split; [|done]. apply (in_later _ _ _ Hs). set_solver.
Qed.

(** *** The local input *)

Definition stage (P : PushInput -> hist -> Prop) (p : PushInput) (h : hist) : Prop :=
  Allowlist p <> [] /\ (LocalGitError p = None -> P p h).

Definition has (q : Eff (res string)) (b : bool) (h : hist) : Prop := exists r, Ev q r ∈ h /\ pushConfigSet r = Ok b.

Lemma good_read_config (P P' : PushInput -> hist -> Prop) q set p k h :
  (forall r, calm (Ev q r)) ->
  (forall b p, LocalGitError (set b p) = LocalGitError p /\ Allowlist (set b p) = Allowlist p) ->
  (forall b h', h `suffix_of` h' -> P p h -> has q b h' -> P' (set b p) h') ->
  stage P p h -> (forall p' h', stage P' p' h' -> good (k p') h') ->
  good (gather u (read_config q set) p k) h.
Proof.
  intros Hq Hset HP [Ha Hp] Hk. unfold gather. destruct (LocalGitError p) as [err|] eqn:Ee.
  - cbn [is_none]. apply good_part; [exact I|]. intros h1 f Hs [-> ->]. apply good_unless_stopped, Hk. by split; [|rewrite Ee].
  - cbn [is_none]. apply good_part; [unfold read_config; apply emits_bind; [by apply emits_call|done]|]. intros h1 f Hs Hr. apply good_unless_stopped, Hk.
    destruct Hr as [r [-> ->]]. destruct (pushConfigSet r) as [b|err] eqn:Er; [|by split].
    destruct (Hset b p) as [E1 E2]. split; [by rewrite E2|]. intros _. apply HP; [by do 2 apply suffix_cons_r|by apply Hp|].
    exists r. split; [set_solver|done].
Qed.

Definition answered (s : ManagedSession) (remote : string) (p : PushInput) (h : hist) : Prop :=
  (Allowlist p = uc_Allowlist u /\ ProtectedBranches p = uc_ProtectedBranches u)
  /\ (exists f, Ev (UpdateSession f) (Ok s) ∈ h)
  /\ (exists ref, Ev SymbolicRef (Ok ref) ∈ h /\ CurrentRef p = StringTrimSpace ref)
  /\ (exists fetch push, Ev (RemoteURLs remote) (fetch, push, None) ∈ h /\ FetchURLs p = pushLines fetch /\ PushURLs p = pushLines push)
  /\ unasked p.

Definition answered_receivepack s remote p h : Prop := answered s remote p h /\ has (ConfigGetReceivepack remote) (ReceivepackConfigured p) h.
Definition answered_uploadpack s remote p h : Prop := answered_receivepack s remote p h /\ has (ConfigGetUploadpack remote) (RemoteHelperConfigured p) h.
Definition answered_vcs s remote p h : Prop :=
  answered_receivepack s remote p h
  /\ exists b b', has (ConfigGetUploadpack remote) b h /\ has (ConfigGetVcs remote) b' h /\ RemoteHelperConfigured p = b || b'.
Definition answered_config s remote checked p h : Prop :=
  answered_vcs s remote p h
  /\ (GitConfigInclude p = false -> GitConfigChanged p = false ->
      exists common gitDir entries h1 h2, checked = (common, gitDir, s_GitConfigFingerprint s)
      /\ runs (entries_of common gitDir) h1 h2 (Ok (entries, false)) /\ h2 `suffix_of` h /\ fingerprint_of entries = s_GitConfigFingerprint s).

Lemma has_later q b h h' : h `suffix_of` h' -> has q b h -> has q b h'.
Proof. intros Hs (r & H & Hr). exists r. split; [by apply (in_later _ h)|done]. Qed.

Lemma answered_later s remote p h h' : h `suffix_of` h' -> answered s remote p h -> answered s remote p h'.
Proof.
  intros Hs (H1 & (f & H2) & (ref & H3 & H3') & (fetch & push & H4 & H4') & H5).
  split_and!; [apply H1|apply H1|exists f|exists ref|exists fetch, push|apply H5..]; repeat split; try apply H4'; try done; by apply (in_later _ h).
Qed.
Lemma receivepack_later s remote p h h' : h `suffix_of` h' -> answered_receivepack s remote p h -> answered_receivepack s remote p h'.
Proof. intros Hs [H1 H2]. split; [by apply (answered_later _ _ _ h)|by apply (has_later _ _ h)]. Qed.
Lemma vcs_later s remote p h h' : h `suffix_of` h' -> answered_vcs s remote p h -> answered_vcs s remote p h'.
Proof.
  intros Hs [H1 (b & b' & H2 & H3 & H4)]. split; [by apply (receivepack_later _ _ _ h)|].
  exists b, b'. split_and!; [by apply (has_later _ _ h)|by apply (has_later _ _ h)|done].
Qed.

Lemma check_local_good s remote checked p h : stage (answered_config s remote checked) p h -> good (check_local ToLower SHA256 Error u s remote checked p) h.
Proof.
  intros [Hne Hp]. unfold check_local. destruct (String.eqb_spec (d_Reason (EvaluateLocal p)) "") as [Er|]; cbn [negb]; [|apply blocked_good].
  destruct (String.eqb_spec (d_Remote (EvaluateLocal p)) remote) as [Erem|]; cbn [negb]; [|apply blocked_good].
  destruct (EvaluateLocal_undenied p Hne Er) as (Hr1 & Hr2 & Hun).
  destruct (proj1 (EvaluateLocal_spec p _ (d_Branch (EvaluateLocal p))) (conj Hr1 (conj eq_refl eq_refl))) as (L1 & L2 & L3 & L4 & L5 & L6).
  destruct (Hp L1) as [[[(A1 & A2 & A3 & A4 & A5) B] (b & b' & C1 & C2 & C3)] D].
  rewrite L4 in C3. symmetry in C3. apply orb_false_iff in C3 as [-> ->]. rewrite L3 in B.
  apply check_head_good; rewrite ?Erem; [done..| |].
  - constructor; try done. by apply D.
  - unfold local_ok. by rewrite <- Erem.
Qed.

Definition config_evidence s (checked : string * string * string) (p : PushInput) (h : hist) : Prop :=
  GitConfigInclude p = false -> GitConfigChanged p = false ->
  exists common gitDir entries h1 h2, checked = (common, gitDir, s_GitConfigFingerprint s)
    /\ runs (entries_of common gitDir) h1 h2 (Ok (entries, false)) /\ h2 `suffix_of` h /\ fingerprint_of entries = s_GitConfigFingerprint s.

Lemma read_fingerprint_spec s p h :
  LocalGitError p = None ->
  wpp (read_fingerprint ToLower SHA256 Error s) h (fun h' fc =>
    (exists err, fc.1 p = git_failed err p)
    \/ exists i c, fc.1 p = p <| GitConfigInclude := i |> <| GitConfigChanged := c |> /\ config_evidence s fc.2 (fc.1 p) h').
Proof.
  intros Hp. unfold read_fingerprint. intros [common|err]; wp_cbn; [|left; by exists err].
  intros [gitDir|err]; wp_cbn; [|left; by exists err]. apply wp_bind.
  apply (wp_part record_ev calm); [apply entries_of_calm|]. intros new [[entries include]|err] Hn Hr; wp_cbn; cbn zeta; cbn [fst snd]; right.
  - exists include, (negb (fingerprint_of entries =? s_GitConfigFingerprint s)%string). split; [done|].
    intros Hi Hc. cbn in Hi, Hc. subst include. apply negb_false_iff, String.eqb_eq in Hc. rewrite <- Hc.
    eexists _, _, entries, _, _. split_and!; [reflexivity|exact Hr|done|done].
  - exists true, (GitConfigChanged p). split; [by destruct p|]. by intros.
Qed.

Lemma read_fingerprint_calm s : calms (read_fingerprint ToLower SHA256 Error s).
Proof. unfold read_fingerprint. calm_solve. Qed.

Lemma gather_fingerprint_good s remote p h : stage (answered_vcs s remote) p h -> good (gather_fingerprint ToLower SHA256 Error u s remote p) h.
Proof.
  intros [Ha Hp] Hh. unfold gather_fingerprint. destruct (LocalGitError p) as [err|] eqn:Ee; cbn [is_none].
  { wp_cbn. apply good_unless_stopped; [|done]. apply check_local_good. by split; [|rewrite Ee]. }
  apply wp_bind. apply (wp_emits record_ev calm _ _ _ _ (read_fingerprint_calm s) (read_fingerprint_spec s p h Ee)).
  intros new [f checked] Hn Hf. cbn [fst snd] in Hf. apply good_unless_stopped; [|by apply ready_calm]. apply check_local_good.
  destruct Hf as [[err ->]|(i & c & E & Hc)]; [by split|]. rewrite E in Hc |- *. split; [done|]. intros _.
  assert (h `suffix_of` Ev IsStopped false :: new ++ h) as Hs by (apply suffix_cons_r; by exists new).
  split; [by apply (vcs_later s remote p h); [|apply Hp]|]. intros Hi Hg. destruct (Hc Hi Hg) as (co & gd & es & h1 & h2 & H1 & H2 & H3 & H4).
  exists co, gd, es, h1, h2. split_and!; try done. etrans; [exact H3|]. by apply suffix_cons_r.
Qed.

Lemma check_config_good s remote p h : stage (answered s remote) p h -> good (check_config ToLower SHA256 Error u s remote p) h.
Proof.
  intros H. unfold check_config.
  apply (good_read_config (answered s remote) (answered_receivepack s remote)); [done|by intros| |done|].
  { intros b h' Hs Ha Hb. split; [by apply (answered_later s remote p h)|done]. }
  clear p h H. intros p h H. apply (good_read_config (answered_receivepack s remote) (answered_uploadpack s remote)); [done|by intros| |done|].
  { intros b h' Hs Ha Hb. split; [by apply (receivepack_later s remote p h)|done]. }
  clear p h H. intros p h H. apply (good_read_config (answered_uploadpack s remote) (answered_vcs s remote)); [done|by intros| |done|].
  { intros b h' Hs [Ha Hq] Hb. split; [by apply (receivepack_later s remote p h)|].
    exists (RemoteHelperConfigured p), b. split_and!; [by apply (has_later _ _ h)|done|done]. }
  intros. by apply gather_fingerprint_good.
Qed.

Lemma EvaluateBeforeURLs_undenied p :
  Allowlist p <> [] -> d_Reason (EvaluateBeforeURLs p) = ""%string -> LocalGitError p = None /\ CurrentRef p <> ""%string.
Proof.
  intros Ha. unfold EvaluateBeforeURLs. destruct (Allowlist p); [done|]. destruct (LocalGitError p) as [err|].
  - intros E. by destruct (local_reason_nonempty err).
  - destruct (String.eqb_spec (CurrentRef p) ""); done.
Qed.


End Proofs.
