(* ===== verification/Sends.v ===== *)
(** * The shared state of the sender
    ([internal/supervisor/usecase/send_input.go])

    What [SendInputUseCase] keeps under its mutex [u.mu], for one session: the lock of
    the sender, the channel of confirmations, the text that was last confirmed with
    Enter, and the records of the /exit that ends a hand-over.  Each section under the
    mutex is one function on this state.  Locks, channels, records and commits are
    pointers in the code; here they are numbers. *)

From S2P Require Import Prelude.
From S2P Require Import Errors.
From S2P Require Import Session.
From S2P Require Import SendGate.
From S2P Require Import Screens.

(** ** Data *)

Record SendInput : Type := mkSendInput {
  in_SessionID : string;
  in_Kind : SupervisorSendKind;
  in_OperatorText : OperatorText;
  in_Origin : SendOrigin;
  in_ConfirmTimeout : Duration }.

(** The fields of [store.Event] that the sender fills. *)
Record StoreEvent : Type := mkEvent {
  ev_Kind : SupervisorEventKind;
  ev_SessionID : string;
  ev_SendID : string;
  ev_SendKind : option SupervisorSendKind;
  ev_TextLength : option Z;
  ev_Code : string;
  ev_Reason : option SupervisorSendBlockedReason }.

Definition operator_length (i : SendInput) : option Z :=
  if bool_decide (in_Kind i = SendKindOperatorInput) then Some (OperatorText_Len (in_OperatorText i)) else None.

Definition sendEvent (kind : SupervisorEventKind) (i : SendInput) (p : PendingSend) (code : string) : StoreEvent :=
  mkEvent kind (in_SessionID i) (ps_SendID p) (Some (ps_Kind p)) (operator_length i) code None.

(** A notification with the [earlier] ones it preserves is the list of them. *)
Record SendConfirmation : Type := mkConfirmation {
  cf_SessionID : string;
  cf_SendID : string;
  cf_Screen : ScreenSnapshot;
  cf_ProcessExited : bool }.

(** The terminal behind a writer, as [reflect] tells it: a pointer, a nil pointer or
    none, or a value; and the wrapper of the observer. *)
Inductive PTYWriter : Type :=
| PtyPointer (identity : Z)
| PtyNil
| PtyValue
| observedPTY (ManagedPTY : PTYWriter).

Definition handoffPTYOwner (pty : PTYWriter) : option Z :=
  match match pty with observedPTY inner => inner | _ => pty end with
  | PtyPointer identity => Some identity
  | _ => None
  end.

Inductive exitWriteState : Type := exitBeforeCR | exitWritingCR | exitCRSucceeded | exitCRFailed.
Inductive exitResultState : Type := exitUndecided | exitConfirmed | exitUnconfirmed.

#[export] Instance exitWriteState_eq_dec : EqDecision exitWriteState.
Proof. solve_decision. Defined.
#[export] Instance exitResultState_eq_dec : EqDecision exitResultState.
Proof. solve_decision. Defined.

Record handoffExitSend : Type := mkExitSend {
  x_pending : PendingSend;
  x_in : SendInput;
  x_owner : option Z;
  x_marked : bool;
  x_write : exitWriteState;
  x_exited : bool;
  x_exitAfterMark : bool;
  x_result : exitResultState;
  x_saving : option nat }.

#[export] Instance handoffExitSend_settable : Settable handoffExitSend := fun x =>
  mkExitSend (x_pending x) (x_in x) (x_owner x) (x_marked x) (x_write x) (x_exited x) (x_exitAfterMark x)
    (x_result x) (x_saving x).

(** [record] and [done] are set together. *)
Record exitCommit : Type := mkCommit {
  tx_record : option (nat * nat);
  tx_result : exitResultState;
  tx_confirmed : bool;
  tx_event : option StoreEvent }.

Definition noCommit : exitCommit := mkCommit None exitUndecided false None.

Record Sends : Type := mkSends {
  locks : option nat;
  channels : list (option (list SendConfirmation));
  confirm : option nat;
  crWritten : string;
  crAt : Time;
  ended : bool;
  records : list handoffExitSend;
  exitSends : option nat;
  fresh_lock : nat;
  fresh_commit : nat }.

#[export] Instance Sends_settable : Settable Sends := fun s =>
  mkSends (locks s) (channels s) (confirm s) (crWritten s) (crAt s) (ended s) (records s) (exitSends s)
    (fresh_lock s) (fresh_commit s).

Definition noSends : Sends := mkSends None [] None "" zeroTime false [] None 0 0.

(** ** Locks and channels *)

Definition sessionLock (s : Sends) : Sends * nat :=
  match locks s with
  | Some l => (s, l)
  | None => (s <| locks := Some (fresh_lock s) |> <| fresh_lock := S (fresh_lock s) |>, fresh_lock s)
  end.

Definition resetConfirmation (s : Sends) : Sends * nat :=
  let ch := length (channels s) in
  (s <| channels := channels s ++ [None] |> <| confirm := Some ch |> <| ended := false |>, ch).

Definition confirmationChannel (s : Sends) : Sends * nat :=
  match confirm s with
  | Some ch => (s, ch)
  | None =>
      let ch := length (channels s) in
      (s <| channels := channels s ++ [None] |> <| confirm := Some ch |>, ch)
  end.

Definition releaseConfirmation (ch : nat) (s : Sends) : Sends :=
  if bool_decide (confirm s = Some ch) then s <| confirm := None |> else s.

(** A full channel holds one notification, which the new one takes along. *)
Definition NotifyConfirmation (c : SendConfirmation) (s : Sends) : Sends :=
  if ended s then s
  else
    match confirm s with
    | None => s
    | Some ch =>
        let earlier := match channels s !! ch with Some (Some before) => before | _ => [] end in
        s <| channels := <[ch := Some (earlier ++ [c])]> (channels s) |>
    end.

(** [<-ch], when there is something to receive. *)
Definition receive (ch : nat) (s : Sends) : Sends * option (list SendConfirmation) :=
  match channels s !! ch with
  | Some (Some cs) => (s <| channels := <[ch := None]> (channels s) |>, Some cs)
  | _ => (s, None)
  end.

(** ** What was written *)

Definition markCR (sendID : string) (now : Time) (s : Sends) : Sends := s <| crWritten := sendID |> <| crAt := now |>.

Definition CRWritten (sendID : string) (s : Sends) : bool := bool_decide (crWritten s = sendID).

Definition CRWrittenAt (sendID : string) (s : Sends) : Time :=
  if bool_decide (crWritten s = sendID) then crAt s else zeroTime.

Definition EndSession (s : Sends) : Sends :=
  s <| ended := true |> <| confirm := None |> <| crWritten := ""%string |> <| crAt := zeroTime |> <| locks := None |>.

(** ** The /exit of a hand-over *)

Definition set_record (r : nat) (f : handoffExitSend -> handoffExitSend) (s : Sends) : Sends :=
  s <| records := list_alter f r (records s) |>.

Definition registerExit (p : PendingSend) (i : SendInput) (owner : option Z) (s : Sends) : Sends * nat :=
  let r := length (records s) in
  (s <| records := records s ++ [mkExitSend p i owner false exitBeforeCR false false exitUndecided None] |>
     <| exitSends := Some r |>, r).

Definition collectExit (r : nat) (s : Sends) : Sends :=
  if bool_decide (exitSends s = Some r) then s <| exitSends := None |> else s.

(** The record of the session. *)
Definition current_record (s : Sends) : option (nat * handoffExitSend) :=
  match exitSends s with
  | Some r => match records s !! r with Some x => Some (r, x) | None => None end
  | None => None
  end.

Definition beginExitCR (r : nat) (s : Sends) : Sends * bool :=
  match current_record s with
  | Some (r', x) =>
      if negb (Nat.eqb r' r) || is_none (x_owner x) || x_exited x || negb (bool_decide (x_write x = exitBeforeCR))
      then (s, false)
      else (set_record r (fun x => x <| x_marked := true |> <| x_write := exitWritingCR |>) s, true)
  | None => (s, false)
  end.

Definition endExitCR (r : nat) (success : bool) (s : Sends) : Sends :=
  match current_record s with
  | Some (r', x) =>
      if negb (Nat.eqb r' r) || negb (x_marked x) then s
      else set_record r (fun x => x <| x_write := if success then exitCRSucceeded else exitCRFailed |>) s
  | None => s
  end.

(** The commit that has to end first. *)
Definition exit_waiting (s : Sends) : option nat :=
  match current_record s with Some (_, x) => x_saving x | None => None end.

(** The record found for a send of an owner. *)
Definition find_exit (p : PendingSend) (owner : option Z) (s : Sends) : option (nat * handoffExitSend) :=
  match current_record s, owner with
  | Some (r, x), Some _ =>
      if bool_decide (x_owner x = owner) && bool_decide (ps_SendID (x_pending x) = ps_SendID p) then Some (r, x) else None
  | _, _ => None
  end.

Definition applySendConfirmation (v : ManagedSession) (p : PendingSend) (at_ : Time) : ManagedSession :=
  let gate := s_SendGate v <| sg_Pending := None |> <| sg_EverSent := true |> <| sg_LastSendConfirmed := true |>
                <| sg_LastConfirmedAt := Some at_ |> <| sg_UnconfirmedDiscarded := false |> in
  let v := v <| s_SendGate := gate |> in
  let v := if bool_decide (ps_Kind p = SendKindRemoteControl) then v <| s_RemoteControlConfirmed := true |> else v in
  v <| s_LastSend := Some (mkLastSend (ps_SendID p) (ps_Kind p) (ps_IssuedAt p) true) |>.

(** The section of [decideExit]: the session as it is to be saved, and the commit. *)
Definition decideExit (v : ManagedSession) (p : PendingSend) (owner : option Z) (expired : bool) (at_ : Time) (s : Sends)
    : Sends * (ManagedSession * exitCommit) :=
  if match s_LastSend v with
     | Some l => bool_decide (ls_SendID l = ps_SendID p) && bool_decide (ls_Kind l = ps_Kind p) && ls_Confirmed l
     | None => false
     end
  then (s, (v, mkCommit None exitUndecided true None))
  else
    match find_exit p owner s with
    | None => (s, (v, noCommit))
    | Some (r, x) =>
        if negb (bool_decide (x_result x = exitUndecided)) then (s, (v, noCommit))
        else
          let written := x_marked x && bool_decide (x_write x = exitCRSucceeded) in
          let v := if written then v <| s_LastSend := Some (mkLastSend (ps_SendID p) (ps_Kind p) (ps_IssuedAt p) false) |> else v in
          let confirmed := negb expired && written && x_exited x && x_exitAfterMark x in
          if negb confirmed && negb expired then (s, (v, noCommit))
          else
            let commit := fresh_commit s in
            let s := set_record r (fun x => x <| x_saving := Some commit |>) s <| fresh_commit := S commit |> in
            if confirmed then
              (s, (applySendConfirmation v p at_,
                   mkCommit (Some (r, commit)) exitConfirmed true (Some (sendEvent EventKindSendConfirmed (x_in x) p ""))))
            else
              let v := if bool_decide (in_Origin (x_in x) = SendOriginHandoff) || bool_decide (s_State v = SessionStopped) then v
                       else v <| s_State := SessionStopped |> <| s_StopReason := StopSendNotConfirmed |> in
              (s, (v, mkCommit (Some (r, commit)) exitUnconfirmed false
                        (Some (sendEvent EventKindSendUnconfirmed (x_in x) p "SUP_SEND_NOT_CONFIRMED"))))
    end.

(** The section of [observeExit] before the decision. *)
Definition observeExit (p : PendingSend) (owner : option Z) (s : Sends) : Sends * bool :=
  match find_exit p owner s with
  | None => (s, false)
  | Some (r, x) =>
      (if x_exited x then s else set_record r (fun x => x <| x_exited := true |> <| x_exitAfterMark := x_marked x |>) s, true)
  end.

(** The end of a commit, once the session has been saved or not. *)
Definition finishExit (tx : exitCommit) (saved : bool) (s : Sends) : Sends :=
  match tx_record tx with
  | None => s
  | Some (r, _) =>
      set_record r (fun x => (if saved then x <| x_result := tx_result tx |> else x) <| x_saving := None |>) s
  end.

Definition exitOwner (sendID : string) (s : Sends) : option Z :=
  match current_record s with
  | Some (_, x) => if bool_decide (ps_SendID (x_pending x) = sendID) then x_owner x else None
  | None => None
  end.

(** ** The result of an /exit is decided once

    The sections of the senders and of the observer in any order.  A decision is taken
    inside an update of the session record, under the lock of the record, after no other
    commit was found waiting; then the record is saved or not and the lock released; and
    at the end, outside it, the commit is finished. *)

Record world : Type := mkWorld {
  w_sends : Sends;
  w_session : ManagedSession;
  w_deciding : option (ManagedSession * exitCommit);  (* decided, not yet saved *)
  w_unfinished : list (exitCommit * bool);            (* saved or not, not yet finished *)
  w_log : list (nat * exitResultState) }.             (* the commits that were saved *)

#[export] Instance world_settable : Settable world := fun w =>
  mkWorld (w_sends w) (w_session w) (w_deciding w) (w_unfinished w) (w_log w).

Definition with_sends (f : Sends -> Sends) (w : world) : world := w <| w_sends := f (w_sends w) |>.

Inductive exit_step : world -> world -> Prop :=
| step_register w p i owner : exit_step w (with_sends (fun s => (registerExit p i owner s).1) w)
| step_begin w r : exit_step w (with_sends (fun s => (beginExitCR r s).1) w)
| step_end w r success : exit_step w (with_sends (endExitCR r success) w)
| step_collect w r : exit_step w (with_sends (collectExit r) w)
| step_session_end w : exit_step w (with_sends EndSession w)
| step_observe w p owner : exit_step w (with_sends (fun s => (observeExit p owner s).1) w)
| step_update w v : w_deciding w = None -> exit_step w (w <| w_session := v |>)
| step_decide w p owner expired at_ s v tx :
    w_deciding w = None -> exit_waiting (w_sends w) = None ->
    decideExit (w_session w) p owner expired at_ (w_sends w) = (s, (v, tx)) ->
    exit_step w (w <| w_sends := s |> <| w_deciding := Some (v, tx) |>)
| step_save w v tx (saved : bool) :
    w_deciding w = Some (v, tx) ->
    exit_step w
      (w <| w_session := if saved then v else w_session w |> <| w_deciding := None |>
         <| w_unfinished := if is_some (tx_record tx) then (tx, saved) :: w_unfinished w else w_unfinished w |>
         <| w_log := match tx_record tx with
                     | Some (r, _) => if saved then (r, tx_result tx) :: w_log w else w_log w
                     | None => w_log w
                     end |>)
| step_finish w tx saved before after :
    w_unfinished w = before ++ (tx, saved) :: after ->
    exit_step w (w <| w_sends := finishExit tx saved (w_sends w) |> <| w_unfinished := before ++ after |>).

Inductive exit_reachable (v : ManagedSession) : world -> Prop :=
| exit_init : exit_reachable v (mkWorld noSends v None [] [])
| exit_next w w' : exit_reachable v w -> exit_step w w' -> exit_reachable v w'.

(** The commits that have been decided and not finished. *)
Definition inflight (w : world) : list (nat * nat) :=
  omap tx_record (match w_deciding w with Some (_, tx) => [tx] | None => [] end ++ (w_unfinished w).*1).

(** A record as far as its result goes, and what of it is never taken back. *)
Definition grows (x y : handoffExitSend) : Prop :=
  x_result y = x_result x /\ x_saving y = x_saving x
  /\ (x_marked x = true -> x_marked y = true)
  /\ (x_exited x = true -> x_exited y = true /\ x_exitAfterMark y = x_exitAfterMark x).

Definition records_grow (s s' : Sends) : Prop :=
  forall r x, records s !! r = Some x -> exists y, records s' !! r = Some y /\ grows x y.

Record exit_inv (w : world) : Prop := {
  ei_flight : NoDup (inflight w).*1;
  ei_saving : forall r c, (r, c) ∈ inflight w ->
    exists x, records (w_sends w) !! r = Some x /\ x_saving x = Some c /\ x_result x = exitUndecided;
  ei_once : NoDup (w_log w).*1;
  ei_logged : forall r res, (r, res) ∈ w_log w ->
    exists x, records (w_sends w) !! r = Some x /\ res <> exitUndecided
      /\ (res = exitConfirmed -> x_marked x = true /\ x_exited x = true /\ x_exitAfterMark x = true)
      /\ (x_result x = res \/ exists tx c, (tx, true) ∈ w_unfinished w /\ tx_record tx = Some (r, c) /\ tx_result tx = res);
  ei_deciding : forall v tx, w_deciding w = Some (v, tx) -> forall r c, tx_record tx = Some (r, c) ->
    tx_result tx <> exitUndecided
    /\ exists x, records (w_sends w) !! r = Some x
       /\ (tx_result tx = exitConfirmed -> x_marked x = true /\ x_exited x = true /\ x_exitAfterMark x = true);
  ei_unlogged : forall tx saved r c, (tx, saved) ∈ w_unfinished w -> tx_record tx = Some (r, c) ->
    if saved : bool then (r, tx_result tx) ∈ w_log w else r ∉ (w_log w).*1 }.

(** *** Lemmas *)

Lemma keys_unique {K A : Type} (l : list (K * A)) k a b : NoDup l.*1 -> (k, a) ∈ l -> (k, b) ∈ l -> a = b.
Proof.
  induction l as [|[k' c] l IH]; cbn; intros Hl Ha Hb; [by apply not_elem_of_nil in Ha|].
  apply list.NoDup_cons in Hl as [Hk Hl]. apply elem_of_cons in Ha as [Ha|Ha], Hb as [Hb|Hb]; simplify_eq; [done|..|auto].
  - destruct Hk. apply list_elem_of_fmap. by exists (k', b).
  - destruct Hk. apply list_elem_of_fmap. by exists (k', a).
Qed.

Lemma set_record_lookup r f s r' :
  records (set_record r f s) !! r' = if decide (r = r') then f <$> records s !! r' else records s !! r'.
Proof.
  unfold set_record. cbn. change (list_alter f r (records s)) with (alter f r (records s)).
  rewrite list_lookup_alter. repeat case_decide; by subst.
Qed.

Lemma grows_refl x : grows x x.
Proof. by split_and!. Qed.

Lemma records_grow_refl s s' : records s' = records s -> records_grow s s'.
Proof. intros E r x Hx. exists x. rewrite E. split; [done|apply grows_refl]. Qed.

Lemma records_grow_set r f s : (forall x, records s !! r = Some x -> grows x (f x)) -> records_grow s (set_record r f s).
Proof.
  intros Hf r' x Hx. rewrite set_record_lookup, Hx. case_decide as E; [subst r'|]; eexists; (split; [done|]); [auto|apply grows_refl].
Qed.

Lemma current_record_Some s r x : current_record s = Some (r, x) -> records s !! r = Some x.
Proof. unfold current_record. intros H. repeat case_match; by simplify_eq. Qed.

Lemma find_exit_Some p owner s r x : find_exit p owner s = Some (r, x) -> current_record s = Some (r, x) /\ records s !! r = Some x.
Proof.
  unfold find_exit. destruct (current_record s) as [[r' x']|] eqn:E; [|done]. destruct owner; [|done].
  destruct (_ && _); [|done]. intros [= -> ->]. split; [done|by apply current_record_Some].
Qed.

Lemma registerExit_grows p i owner s : records_grow s (registerExit p i owner s).1.
Proof. intros r x Hx. exists x. split; [|apply grows_refl]. cbn. by apply lookup_app_l_Some. Qed.

Lemma beginExitCR_grows r s : records_grow s (beginExitCR r s).1.
Proof.
  unfold beginExitCR. destruct (current_record s) as [[r' x]|]; [|by apply records_grow_refl].
  destruct (_ || _); [by apply records_grow_refl|]. apply records_grow_set. by intros y _.
Qed.

Lemma endExitCR_grows r b s : records_grow s (endExitCR r b s).
Proof.
  unfold endExitCR. destruct (current_record s) as [[r' x]|]; [|by apply records_grow_refl].
  destruct (_ || _); [by apply records_grow_refl|]. apply records_grow_set. by intros y _.
Qed.

Lemma collectExit_grows r s : records_grow s (collectExit r s).
Proof. unfold collectExit. case_bool_decide; by apply records_grow_refl. Qed.

Lemma observeExit_grows p owner s : records_grow s (observeExit p owner s).1.
Proof.
  unfold observeExit. destruct (find_exit p owner s) as [[r x]|] eqn:E; [|by apply records_grow_refl].
  apply find_exit_Some in E as [_ E]. cbn. destruct (x_exited x) eqn:Ex; [by apply records_grow_refl|].
  apply records_grow_set. intros y Hy. simplify_eq. split_and!; try done. by rewrite Ex.
Qed.

(** What a decision does. *)
Lemma decideExit_spec v p owner expired at_ s s' v' tx :
  exit_waiting s = None -> decideExit v p owner expired at_ s = (s', (v', tx)) ->
  (tx_record tx = None /\ s' = s)
  \/ exists r x c, tx_record tx = Some (r, c) /\ records s !! r = Some x /\ x_saving x = None /\ x_result x = exitUndecided
     /\ records s' = records (set_record r (fun x => x <| x_saving := Some c |>) s)
     /\ tx_result tx <> exitUndecided
     /\ (tx_result tx = exitConfirmed -> x_marked x = true /\ x_exited x = true /\ x_exitAfterMark x = true).
Proof.
  intros Hw. unfold decideExit. destruct (match s_LastSend v with Some _ => _ | None => _ end); [intros [= <- _ <-]; by left|].
  destruct (find_exit p owner s) as [[r x]|] eqn:E; [|intros [= <- _ <-]; by left].
  apply find_exit_Some in E as [Ec Er]. unfold exit_waiting in Hw. rewrite Ec in Hw.
  destruct (bool_decide_reflect (x_result x = exitUndecided)) as [Eu|Eu]; cbn [negb]; [|intros [= <- _ <-]; by left].
  destruct (negb _ && negb expired) eqn:En; [intros [= <- _ <-]; by left|].
  set (confirmed := negb expired && _ && x_exited x && x_exitAfterMark x) in *.
  destruct confirmed eqn:Ecf; intros [= <- _ <-]; right; exists r, x, (fresh_commit s); split_and!; try done.
  unfold confirmed in Ecf. rewrite !andb_true_iff in Ecf. intros _. tauto.
Qed.

Lemma inflight_records w f : inflight (with_sends f w) = inflight w.
Proof. done. Qed.

(** Steps that only let the records grow. *)
Lemma exit_inv_grow w f : records_grow (w_sends w) (f (w_sends w)) -> exit_inv w -> exit_inv (with_sends f w).
Proof.
  intros Hg [H1 H2 H3 H4 H5 H6]. split; cbn; try done.
  - intros r c Hr. destruct (H2 r c Hr) as (x & Hx & Hs & Hres). destruct (Hg r x Hx) as (y & Hy & E1 & E2 & _).
    exists y. split_and!; congruence.
  - intros r res Hr. destruct (H4 r res Hr) as (x & Hx & Hne & Hc & Hres). destruct (Hg r x Hx) as (y & Hy & E1 & E2 & E3 & E4).
    exists y. split_and!; try done.
    + intros E. destruct (Hc E) as (C1 & C2 & C3). destruct (E4 C2) as [C4 C5]. split_and!; [auto|done|congruence].
    + rewrite E1. done.
  - intros v tx Hd r c Htx. destruct (H5 v tx Hd r c Htx) as (Hne & x & Hx & Hc). split; [done|].
    destruct (Hg r x Hx) as (y & Hy & _ & _ & E3 & E4). exists y. split; [done|].
    intros E. destruct (Hc E) as (C1 & C2 & C3). destruct (E4 C2) as [C4 C5]. split_and!; [auto|done|congruence].
Qed.

(** A record without a commit is not in the log unless its result is published. *)
Lemma exit_inv_fresh w r x :
  exit_inv w -> records (w_sends w) !! r = Some x -> x_result x = exitUndecided ->
  (forall tx b c, (tx, b) ∈ w_unfinished w -> tx_record tx <> Some (r, c)) -> r ∉ (w_log w).*1.
Proof.
  intros [H1 H2 H3 H4 H5 H6] Hx Hu Hno Hlog.
  apply list_elem_of_fmap in Hlog as ([r' res] & -> & Hlog). cbn in *.
  destruct (H4 r' res Hlog) as (x' & Hx' & Hne & _ & [Hres|(tx & c & Htx & Hr & _)]); [congruence|]. by apply (Hno tx true c).
Qed.

Lemma inflight_unfinished w tx b r c : (tx, b) ∈ w_unfinished w -> tx_record tx = Some (r, c) -> (r, c) ∈ inflight w.
Proof.
  intros Hin Hr. unfold inflight. apply list_elem_of_omap. exists tx. split; [|done].
  apply elem_of_app. right. apply list_elem_of_fmap. by exists (tx, b).
Qed.

Lemma inflight_deciding w v tx r c : w_deciding w = Some (v, tx) -> tx_record tx = Some (r, c) -> (r, c) ∈ inflight w.
Proof.
  intros Hd Hr. unfold inflight. rewrite Hd. apply list_elem_of_omap. exists tx. split; [left|done].
Qed.

Lemma inflight_decide w s v tx :
  w_deciding w = None ->
  inflight (w <| w_sends := s |> <| w_deciding := Some (v, tx) |>)
  = match tx_record tx with Some rc => rc :: inflight w | None => inflight w end.
Proof. intros Hd. unfold inflight. cbn. rewrite Hd. cbn. by destruct (tx_record tx). Qed.

Lemma exit_inv_decide w p owner expired at_ s v tx :
  w_deciding w = None -> exit_waiting (w_sends w) = None ->
  decideExit (w_session w) p owner expired at_ (w_sends w) = (s, (v, tx)) ->
  exit_inv w -> exit_inv (w <| w_sends := s |> <| w_deciding := Some (v, tx) |>).
Proof.
  intros Hd Hw Hdec I. pose proof I as [H1 H2 H3 H4 H5 H6].
  apply decideExit_spec in Hdec as [[Hn ->]|(r & x & c & Htx & Hx & Hsv & Hu & Hs & Hres & Hconf)]; [| |done].
  { pose proof (inflight_decide w (w_sends w) v tx Hd) as Hi. rewrite Hn in Hi.
    split; rewrite ?Hi; try done. intros v' tx' [= <- <-] r c Htx. congruence. }
  pose proof (inflight_decide w s v tx Hd) as Hi. rewrite Htx in Hi.
  assert (Hr : forall r', records s !! r' = if decide (r = r') then Some (x <| x_saving := Some c |>) else records (w_sends w) !! r').
  { intros r'. rewrite Hs, set_record_lookup. case_decide; [subst r'; by rewrite Hx|done]. }
  assert (Hfree : r ∉ (inflight w).*1).
  { intros Hin. apply list_elem_of_fmap in Hin as ([r' c'] & -> & Hin). cbn in *.
    destruct (H2 r' c' Hin) as (x' & Hx' & Hs' & _). congruence. }
  assert (Hnew : r ∉ (w_log w).*1).
  { apply (exit_inv_fresh w r x I Hx Hu). intros tx' b c' Hin Htx'. apply Hfree.
    apply list_elem_of_fmap. exists (r, c'). split; [done|]. by eapply inflight_unfinished. }
  split; rewrite ?Hi.
  - cbn. by apply list.NoDup_cons.
  - intros r' c' [E|Hin]%elem_of_cons.
    + injection E as -> ->. eexists. cbn. rewrite Hr, decide_True by done. by split_and!.
    + destruct (H2 r' c' Hin) as (x' & Hx' & ? & ?). exists x'. cbn. rewrite Hr. case_decide; [subst r'|by split_and!].
      destruct Hfree. apply list_elem_of_fmap. by exists (r, c').
  - done.
  - intros r' res Hin. destruct (H4 r' res Hin) as (x' & Hx' & ?). exists x'. cbn. rewrite Hr. case_decide; [subst r'|by split].
    destruct Hnew. apply list_elem_of_fmap. by exists (r, res).
  - intros v' tx' [= <- <-] r' c' Htx'. rewrite Htx in Htx'. injection Htx' as <- <-. split; [done|].
    eexists. cbn. rewrite Hr, decide_True by done. by split.
  - done.
Qed.

(** A step that saves the record, or fails to. *)
Definition saved_world (w : world) (v : ManagedSession) (tx : exitCommit) (saved : bool) : world :=
  w <| w_session := if saved then v else w_session w |> <| w_deciding := None |>
    <| w_unfinished := if is_some (tx_record tx) then (tx, saved) :: w_unfinished w else w_unfinished w |>
    <| w_log := match tx_record tx with
                | Some (r, _) => if saved then (r, tx_result tx) :: w_log w else w_log w
                | None => w_log w
                end |>.

Lemma inflight_saved w v tx saved : w_deciding w = Some (v, tx) -> inflight (saved_world w v tx saved) = inflight w.
Proof.
  intros Hd. unfold inflight, saved_world. cbn. rewrite Hd. destruct (tx_record tx) as [rc|] eqn:E; cbn; rewrite E; done.
Qed.

Lemma exit_inv_save w v tx saved : w_deciding w = Some (v, tx) -> exit_inv w -> exit_inv (saved_world w v tx saved).
Proof.
  intros Hd I. pose proof I as [H1 H2 H3 H4 H5 H6].
  pose proof (inflight_saved w v tx saved Hd) as Hi.
  destruct (tx_record tx) as [[r c]|] eqn:Htx.
  2:{ split; rewrite ?Hi; unfold saved_world; rewrite ?Htx; cbn; done. }
  destruct (H5 v tx Hd r c Htx) as (Hres & x & Hx & Hconf).
  pose proof (inflight_deciding w v tx r c Hd Htx) as Hin.
  destruct (H2 r c Hin) as (x' & Hx' & Hsv & Hu). assert (x' = x) as -> by congruence.
  assert (Hnot : forall tx' b c', (tx', b) ∈ w_unfinished w -> tx_record tx' <> Some (r, c')).
  { intros tx' b c' Hin' Htx'. unfold inflight in H1. rewrite Hd in H1. cbn in H1. rewrite Htx in H1. cbn in H1.
    apply list.NoDup_cons in H1 as [H1 _]. apply H1. apply list_elem_of_fmap. exists (r, c'). split; [done|].
    apply list_elem_of_omap. exists tx'. split; [|done]. apply list_elem_of_fmap. by exists (tx', b). }
  pose proof (exit_inv_fresh w r x I Hx Hu Hnot) as Hnew.
  split; rewrite ?Hi; unfold saved_world; rewrite ?Htx; cbn.
  - done.
  - done.
  - destruct saved; [by apply list.NoDup_cons|done].
  - intros r' res Hlog.
    assert ((r' = r /\ res = tx_result tx /\ saved = true) \/ (r', res) ∈ w_log w) as [(-> & -> & ->)|Hlog'].
    { destruct saved; [|by right]. apply elem_of_cons in Hlog as [[= -> ->]|]; [by left|by right]. }
    + exists x. split_and!; [done|done|done|]. right. exists tx, c. split_and!; [left|done|done].
    + destruct (H4 r' res Hlog') as (y & Hy & Hne & Hc & Hor). exists y. split_and!; [done..|].
      destruct Hor as [|(tx' & c' & ? & ?)]; [by left|right]. exists tx', c'. split; [by right|done].
  - done.
  - intros tx' b r' c' [E|Hin']%elem_of_cons Htx'.
    + injection E as -> ->. rewrite Htx in Htx'. injection Htx' as <- <-. destruct saved; [left|done].
    + specialize (H6 tx' b r' c' Hin' Htx'). destruct b, saved; [by right|done| |done].
      intros [->|Hin2]%elem_of_cons; [|done]. by apply (Hnot tx' false c').
Qed.

(** The end of a commit. *)
Lemma exit_inv_finish w tx saved before after :
  w_unfinished w = before ++ (tx, saved) :: after -> exit_inv w ->
  exit_inv (w <| w_sends := finishExit tx saved (w_sends w) |> <| w_unfinished := before ++ after |>).
Proof.
  intros Hun I. pose proof I as [H1 H2 H3 H4 H5 H6].
  set (w' := w <| w_sends := _ |> <| w_unfinished := _ |>).
  assert (Hsub : forall tx' b, (tx', b) ∈ before ++ after -> (tx', b) ∈ w_unfinished w).
  { intros tx' b. rewrite Hun, !elem_of_app, elem_of_cons. tauto. }
  destruct (tx_record tx) as [[r c]|] eqn:Htx.
  2:{ assert (w_sends w' = w_sends w) as Hs by (cbn; unfold finishExit; by rewrite Htx).
      assert (inflight w' = inflight w) as Hi.
      { unfold inflight. cbn. rewrite Hun, !fmap_app, fmap_cons, !omap_app. cbn. by rewrite Htx. }
      split; rewrite ?Hi, ?Hs; try done.
      - intros r res Hlog. destruct (H4 r res Hlog) as (x & Hx & ? & ? & Hor). exists x. split_and!; [done..|].
        destruct Hor as [|(tx' & c' & Hin & Htx' & ?)]; [by left|right]. exists tx', c'. split; [|done]. cbn.
        rewrite Hun, elem_of_app, elem_of_cons in Hin. rewrite elem_of_app. destruct Hin as [?|[[= -> ->]|?]]; [tauto|congruence|tauto].
      - intros tx' b r c Hin. cbn. by apply H6, Hsub. }
  assert (Hperm : inflight w ≡ₚ (r, c) :: inflight w').
  { unfold inflight. cbn. rewrite Hun, !fmap_app, fmap_cons, !omap_app. cbn. rewrite Htx.
    rewrite <- !Permutation_middle. done. }
  assert (Hr : forall r', records (w_sends w') !! r' =
    if decide (r = r') then (fun x => (if saved then x <| x_result := tx_result tx |> else x) <| x_saving := None |>) <$> (records (w_sends w) !! r')
    else records (w_sends w) !! r').
  { intros r'. cbn. unfold finishExit. rewrite Htx. apply set_record_lookup. }
  assert (H1' : (r ∉ (inflight w').*1) /\ NoDup (inflight w').*1).
  { rewrite Hperm in H1. by apply list.NoDup_cons in H1. }
  destruct H1' as [Hfree H1'].
  assert (Hother : forall r' c', (r', c') ∈ inflight w' -> r <> r').
  { intros r' c' Hin ->. apply Hfree. apply list_elem_of_fmap. by exists (r', c'). }
  assert (Hmine : (tx, saved) ∈ w_unfinished w) by (rewrite Hun; apply elem_of_app; right; left).
  pose proof (H6 tx saved r c Hmine Htx) as Hlogged.
  split.
  - done.
  - intros r' c' Hin. pose proof (Hother r' c' Hin). destruct (H2 r' c') as (x & Hx & ?); [rewrite Hperm; by right|].
    exists x. by rewrite Hr, decide_False.
  - done.
  - intros r' res Hlog. destruct (H4 r' res Hlog) as (x & Hx & Hne & Hc & Hor). rewrite Hr.
    destruct (decide (r = r')) as [<-|Hrr].
    + rewrite Hx. cbn [fmap option_fmap option_map]. eexists. split; [done|].
      destruct saved.
      * assert (res = tx_result tx) as ->.
        { by eapply keys_unique. }
        split_and!; [done|done|by left].
      * destruct Hlogged. apply list_elem_of_fmap. by exists (r, res).
    + exists x. split_and!; [done..|]. destruct Hor as [|(tx' & c' & Hin & Htx' & ?)]; [by left|right].
      exists tx', c'. split; [|done]. cbn. rewrite Hun, elem_of_app, elem_of_cons in Hin. rewrite elem_of_app.
      destruct Hin as [?|[[= -> ->]|?]]; [tauto|congruence|tauto].
  - intros v tx' Hd r' c' Htx'. destruct (H5 v tx' Hd r' c' Htx') as (? & x & Hx & ?). split; [done|].
    pose proof (inflight_deciding w' v tx' r' c' Hd Htx') as Hin. exists x. by rewrite Hr, decide_False by (by eapply Hother).
  - intros tx' b r' c' Hin. cbn. by apply H6, Hsub.
Qed.

Lemma exit_reachable_inv v w : exit_reachable v w -> exit_inv w.
Proof.
  induction 1 as [|w w' _ IH Hs].
  { split; cbn; try apply NoDup_nil_2; intros; try done; by match goal with H : _ ∈ [] |- _ => apply not_elem_of_nil in H end. }
  destruct Hs.
  - apply exit_inv_grow; [apply registerExit_grows|done].
  - apply exit_inv_grow; [apply beginExitCR_grows|done].
  - apply exit_inv_grow; [apply endExitCR_grows|done].
  - apply exit_inv_grow; [apply collectExit_grows|done].
  - apply exit_inv_grow; [by apply records_grow_refl|done].
  - apply exit_inv_grow; [apply observeExit_grows|done].
  - by destruct IH.
  - by eapply exit_inv_decide.
  - by apply exit_inv_save.
  - by eapply exit_inv_finish.
Qed.

(** C34. The result of a hand-over's /exit is decided once.  However the sections of the
    sender and of the observer interleave, and however often a record could not be
    saved, at most one commit of each /exit is saved; what it says is the result of the
    /exit once no commit is unfinished; and it says "confirmed" only when Enter was
    allowed and the process was seen to exit after that. *)
Theorem exit_decided_once (v : ManagedSession) (w : world) :
  exit_reachable v w ->
  NoDup (w_log w).*1
  /\ forall r res, (r, res) ∈ w_log w ->
       exists x, records (w_sends w) !! r = Some x /\ res <> exitUndecided
         /\ (res = exitConfirmed -> x_marked x = true /\ x_exited x = true /\ x_exitAfterMark x = true)
         /\ (w_unfinished w = [] -> x_result x = res).
Proof.
  intros [H1 H2 H3 H4 H5 H6]%exit_reachable_inv. split; [done|]. intros r res Hlog.
  destruct (H4 r res Hlog) as (x & Hx & Hne & Hc & Hor). exists x. split_and!; [done..|].
  intros E. destruct Hor as [|(tx & c & Hin & _)]; [done|]. rewrite E in Hin. by apply not_elem_of_nil in Hin.
Qed.

Lemma exit_decided_once_witness :
  exists w, w_log w = [(0%nat, exitConfirmed)] /\ NoDup (w_log w).*1.
Proof.
  set (p := mkPendingSend "repo-1-s1" SendKindHandoffExit 7).
  set (i := mkSendInput "repo-1" SendKindHandoffExit None SendOriginHandoff 0).
  set (v := mkSession GitPhaseNone 1 "repo-1" "repo" CLIClaude 1 SessionRotating 5 StopScopeNone NoStopReason
    NoExitReason "" "" 4 None (mkSendGate 2 true false None false (Some p)) None 0 [] None NoDisabledReason
    false false None NoSessionState "" "" "" NoFailureReason "" "").
  set (w := mkWorld noSends v None [] []).
  set (w1 := with_sends (fun s => (registerExit p i (Some 9) s).1) w).
  set (w2 := with_sends (fun s => (beginExitCR 0 s).1) w1).
  set (w3 := with_sends (endExitCR 0 true) w2).
  set (w4 := with_sends (fun s => (observeExit p (Some 9) s).1) w3).
  set (d := decideExit (w_session w4) p (Some 9) false 8 (w_sends w4)).
  set (w5 := w4 <| w_sends := d.1 |> <| w_deciding := Some d.2 |>).
  set (w6 := saved_world w5 d.2.1 d.2.2 true).
  assert (exit_reachable v w6) as Hr.
  { eapply exit_next; [|apply (step_save w5 d.2.1 d.2.2 true); reflexivity].
    eapply exit_next; [|apply (step_decide w4 p (Some 9) false 8 d.1 d.2.1 d.2.2); reflexivity].
    eapply exit_next; [|apply step_observe]. eapply exit_next; [|apply step_end].
    eapply exit_next; [|apply step_begin]. eapply exit_next; [|apply step_register]. apply exit_init. }
  exists w6. split; [reflexivity|]. exact (proj1 (exit_decided_once v w6 Hr)).
Defined.
