(* ===== verification/SendInput.v ===== *)
(** * Typing into a supervised CLI
    ([internal/supervisor/usecase/send_input.go], [session_update.go],
    [internal/proc/ptysession.go])

    The only way a text gets into the terminal of a session: the gate, the pending send
    that is saved before anything is typed, the text, the wait until the screen shows it,
    Enter, and the wait for the confirmation.  A program over its effects; the sections
    under [u.mu] are the functions of [Sends], whose answers are whatever the other
    goroutines have made of the shared state. *)

From stdpp Require Import pretty.
From S2P Require Import Prelude.
From S2P Require Import GoStrings.
From S2P Require Import UTF8.
From S2P Require Import Errors.
From S2P Require Import TextPolicy.
From S2P Require Import Session.
From S2P Require Import SendGate.
From S2P Require Import VTerm.
From S2P Require Import Detect.
From S2P Require Import Screens.
From S2P Require Import Effects.
From S2P Require Import Sends.

(** ** Constants *)

Definition SupervisorSendConfirmTimeout : Duration := 60 * Second.
Definition SupervisorExitGrace : Duration := 60 * Second.
Definition SupervisorSendEnterDelay : Duration := 200 * Millisecond.
Definition SupervisorSendEchoWait : Duration := 2000 * Millisecond.
Definition SupervisorStopPollInterval : Duration := 500 * Millisecond.

Definition defaultParallelInstruction : string :=
  "自動作業計画モード 並列で作業して。実装は ~/.claude/scripts/codex.sh impl --model gpt-6-luna を明示して委譲する".

(** ** Effects *)

Inductive LogLevel : Type := LogLevelWarn | LogLevelError.

(** The outcome of the [select] before Enter, over the confirmations, the timer, the
    polling ticker and the context; and of the one after it, which has no ticker. *)
Inductive selected : Type :=
| Received (notification : list SendConfirmation)
| TimerFired
| PollTick
| CtxDone (err : error).

Inductive awaited : Type :=
| Notified (notification : list SendConfirmation)
| TimedOut
| Cancelled (err : error).

Inductive sendStart : Type := SendStarted | SendClosed | SendInProgress.
Inductive delayEnd : Type := DelayElapsed | DelayClosed | DelayCtxDone (err : error).

Inductive Eff : Type -> Type :=
| Mu {X : Type} (f : Sends -> Sends * X) : Eff X
| TryLock (l : nat) : Eff bool
| Unlock (l : nat) : Eff unit
| LoadSession : Eff (res ManagedSession)
| SaveSession (s : ManagedSession) : Eff (option error)
| Marshal (s : ManagedSession) : Eff (res string)
| LockRecord : Eff unit
| UnlockRecord : Eff unit
| GetScreen : Eff ScreenSnapshot
| GetObserved : Eff (option DetectedState)
| IsStopped : Eff bool
| StopState_IsStopped : Eff bool
| StatMarker (name : string) : Eff (option error)
| Now : Eff Time
| Clock : Eff Time
| CtxErr : Eff (option error)
| GetPTY : Eff (option PTYWriter)
| BeginSend : Eff sendStart
| EndSend : Eff unit
| WriteText (text : string) : Eff (option error)
| Delay (d : Duration) : Eff delayEnd
| CloseCh : Eff bool
| WriteCR : Eff (option error)
| RecordStructured (e : StoreEvent) : Eff (option error)
| LogRecord (level : LogLevel) (kind : SupervisorEventKind) (sendID : string) : Eff (option error)
| LogBlocked (reason : SupervisorSendBlockedReason) : Eff unit
| Notify (kind : SupervisorEventKind) : Eff unit
| RecommendationIssued (hash : string) (at_ : Time) : Eff unit
| SelectConfirm (ch : nat) (timeout : Duration) : Eff awaited
| SelectEnter (ch : nat) (limit : Duration) : Eff selected
| WaitCommit (commit : nat) : Eff unit
| MuLast {X : Type} (f : option Time -> option Time * X) : Eff X
| RecordRefused (reason : string) : Eff (option error).

Abbreviation M := (prog Eff).

(** A section that only changes the state. *)
Definition mu (f : Sends -> Sends) : M unit := call (Mu (fun s => (f s, tt))).
(** A section that only reads it. *)
Definition mu_read {X : Type} (f : Sends -> X) : M X := call (Mu (fun s => (s, f s))).

(** ** The use case *)

(** Which of its fields are set, and their values. *)
Record SendInputUseCase : Type := mkUseCase {
  has_Sessions : bool;
  has_Screens : bool;
  u_PTY : option PTYWriter;
  has_PTYs : bool;
  has_Observed : bool;
  has_IsStopped : bool;
  has_StopState : bool;
  has_RecordStructured : bool;
  has_OperationalLog : bool;
  has_Notify : bool;
  has_LogBlocked : bool;
  has_RecommendationIssued : bool;
  ParallelInstruction : option (string -> string);
  ProjectInstructions : string -> string;
  u_ConfirmTimeout : Duration;
  u_EchoWait : Duration }.

Record SendResult : Type := mkSendResult {
  r_SendID : string;
  Blocked : option SupervisorSendBlockedReason;
  Confirmed : bool }.

Definition noSendResult : SendResult := mkSendResult "" None false.

(** [UpdateSession]: the error, and what the update has left behind if it was called.  A
    record that the update has not changed is not saved. *)
Definition UpdateSession {A : Type} (update : ManagedSession -> M (ManagedSession * A * option error))
    : M (option error * option A) :=
  call LockRecord;;
  r ← (loaded ← call LoadSession;
       match loaded with
       | Err err => mret (Some err, None)
       | Ok session =>
           before ← call (Marshal session);
           match before with
           | Err err => mret (Some err, None)
           | Ok before =>
               '(session, a, err) ← update session;
               match err with
               | Some _ => mret (err, Some a)
               | None =>
                   after ← call (Marshal session);
                   match after with
                   | Err err => mret (Some err, Some a)
                   | Ok after =>
                       if bool_decide (before = after) then mret (None, Some a)
                       else err ← call (SaveSession session); mret (err, Some a)
                   end
               end
           end
       end);
  call UnlockRecord;;
  mret r.

(** The update by a pure change. *)
Definition UpdateSession_ (change : ManagedSession -> ManagedSession) : M (option error) :=
  '(err, _) ← UpdateSession (fun v => mret (change v, tt, None));
  mret err.

Section UseCase.
Context `{UnicodeTables} (u : SendInputUseCase).

Definition record_event (e : StoreEvent) : M (option error) :=
  if has_RecordStructured u then call (RecordStructured e) else mret None.

Definition notify (kind : SupervisorEventKind) : M unit := if has_Notify u then call (Notify kind) else mret tt.

Definition blocked (reason : SupervisorSendBlockedReason) (i : SendInput) : M (SendResult * option error) :=
  let not_fixed := match reason with SendBlockedNotFixedText => true | _ => false end in
  logErr ← (if not_fixed && has_OperationalLog u then call (LogRecord LogLevelError EventKindSendBlocked "") else mret None);
  (if not_fixed && has_LogBlocked u then call (LogBlocked reason) else mret tt);;
  let operator := bool_decide (in_Kind i = SendKindOperatorInput) in
  err ← record_event (mkEvent EventKindSendBlocked (in_SessionID i) ""
          (if operator then Some SendKindOperatorInput else None) (operator_length i) "SUP_SEND_BLOCKED" (Some reason));
  mret (mkSendResult "" (Some reason) false, errors_Join [logErr; err]).

(** A marker that exists, or that cannot be told to be absent. *)
Definition marker_stops (stat : option error) : bool :=
  match stat with None => true | Some err => negb (errors_Is err FsErrNotExist) end.

Definition stopped (id : string) : M bool :=
  if negb (has_IsStopped u) || negb (has_StopState u) then mret true
  else
    byFunc ← call IsStopped;
    if (byFunc : bool) then mret true
    else
      byState ← call StopState_IsStopped;
      if (byState : bool) then mret true
      else
        global ← call (StatMarker "");
        if marker_stops global then mret true
        else session ← call (StatMarker id); mret (marker_stops session).

Definition parallelInstructionFor (s : ManagedSession) : string :=
  match ParallelInstruction u with
  | Some f => f (s_SessionID s)
  | None =>
      let value := ProjectInstructions u (s_ProjectID s) in
      if bool_decide (value = ""%string) then defaultParallelInstruction else value
  end.

(** *** Results of a send *)

Definition logOperatorSendOutcome (i : SendInput) (p : PendingSend) (kind : SupervisorEventKind) : M (option error) :=
  if negb (bool_decide (in_Kind i = SendKindOperatorInput)) || negb (has_OperationalLog u) then mret None
  else call (LogRecord LogLevelWarn kind (ps_SendID p)).

(** The gate as it was before the send. *)
Definition restore_gate (ever confirmed : bool) (v : ManagedSession) : ManagedSession :=
  v <| s_SendGate := s_SendGate v <| sg_Pending := None |> <| sg_EverSent := ever |> <| sg_LastSendConfirmed := confirmed |> |>.

Definition stop_for (origin : SendOrigin) (reason : SupervisorStopReason) (v : ManagedSession) : ManagedSession :=
  if bool_decide (origin = SendOriginHandoff) || bool_decide (s_State v = SessionStopped) then v
  else v <| s_State := SessionStopped |> <| s_StopReason := reason |>.

Definition abortBeforeCR (i : SendInput) (p : PendingSend) (ever confirmed : bool) : M (option error) :=
  err ← UpdateSession_ (fun v => stop_for (in_Origin i) StopSendAborted (restore_gate ever confirmed v));
  match err with
  | Some _ => mret err
  | None =>
      err ← record_event (sendEvent EventKindSendAborted i p "SUP_SEND_ABORTED");
      match err with
      | Some _ => mret err
      | None =>
          (if bool_decide (in_Origin i = SendOriginHandoff) then mret tt else notify EventKindSendAborted);;
          mret None
      end
  end.

Definition blockBeforeText (i : SendInput) (p : PendingSend) (ever confirmed : bool) (reason : SupervisorSendBlockedReason)
    : M (option error) :=
  err ← UpdateSession_ (restore_gate ever confirmed);
  match err with
  | Some _ => mret err
  | None => '(_, err) ← blocked reason i; mret err
  end.

(** *** The /exit of a hand-over *)

(** The loop of [updateExitSession]; [fuel] bounds the commits of others that are waited
    for. *)
Fixpoint updateExitSession (fuel : nat) (update : ManagedSession -> M (ManagedSession * exitCommit)) {struct fuel}
    : M (exitCommit * option error) :=
  r ← UpdateSession (fun v =>
    waiting ← mu_read exit_waiting;
    match waiting with
    | Some commit => mret (v, inl commit, Some (Sentinel errExitSavePending))
    | None => '(v, tx) ← update v; mret (v, inr tx, None)
    end);
  match r with
  | (_, Some (inl commit)) =>
      call (WaitCommit commit);;
      match fuel with
      | O => mret (noCommit, Some (Sentinel errExitSavePending))
      | S fuel => updateExitSession fuel update
      end
  | (err, Some (inr tx)) =>
      (if is_some (tx_record tx) then mu (finishExit tx (is_none err)) else mret tt);;
      match err with
      | Some _ => mret (mkCommit (tx_record tx) (tx_result tx) false None, err)
      | None => mret (tx, None)
      end
  | (err, None) => mret (noCommit, err)
  end.
Definition resolveExit (fuel : nat) (i : SendInput) (p : PendingSend) (owner : option Z) (expired : bool)
    : M (SendResult * option error) :=
  '(tx, err) ← updateExitSession fuel (fun v => at_ ← call Now; call (Mu (decideExit v p owner expired at_)));
  let result := mkSendResult (ps_SendID p) None (tx_confirmed tx) in
  match err with
  | Some _ => mret (result, err)
  | None =>
      match tx_event tx with
      | None => mret (result, None)
      | Some event =>
          err ← record_event event;
          (if tx_confirmed tx || bool_decide (in_Origin i = SendOriginHandoff) then mret tt
           else notify EventKindSendUnconfirmed);;
          mret (result, err)
      end
  end.

Definition expireExit (fuel : nat) (i : SendInput) (p : PendingSend) (owner : option Z) (cause : error)
    : M (SendResult * option error) :=
  '(result, err) ← resolveExit fuel i p owner true;
  if Confirmed result then mret (result, err) else mret (result, errors_Join [Some cause; err]).

Definition unconfirmed (fuel : nat) (i : SendInput) (p : PendingSend) : M (option error) :=
  if bool_decide (in_Kind i = SendKindHandoffExit) then
    owner ← mu_read (exitOwner (ps_SendID p));
    '(_, err) ← resolveExit fuel i p owner true;
    mret err
  else
    err ← UpdateSession_ (stop_for (in_Origin i) StopSendNotConfirmed);
    match err with
    | Some _ => mret err
    | None =>
        err ← record_event (sendEvent EventKindSendUnconfirmed i p "SUP_SEND_NOT_CONFIRMED");
        match err with
        | Some _ => mret err
        | None =>
            (if bool_decide (in_Origin i = SendOriginHandoff) then mret tt else notify EventKindSendUnconfirmed);;
            mret None
        end
    end.

Definition confirmSend (fuel : nat) (i : SendInput) (p : PendingSend) : M (SendResult * option error) :=
  if bool_decide (in_Kind i = SendKindHandoffExit) then
    owner ← mu_read (exitOwner (ps_SendID p));
    resolveExit fuel i p owner false
  else
    now ← call Now;
    err ← UpdateSession_ (fun v => applySendConfirmation v p now);
    match err with
    | Some _ => mret (mkSendResult (ps_SendID p) None false, err)
    | None =>
        err ← record_event (sendEvent EventKindSendConfirmed i p "");
        mret (mkSendResult (ps_SendID p) None true, err)
    end.

(** *** Before Enter *)

(** The [check] of [waitForEnter]: whether the input row holds the text, and whether it
    holds a prefix of it. *)
Definition check_enter (i : SendInput) (message : string) (shot : ScreenSnapshot) : M (bool * bool) :=
  let operator := bool_decide (in_Kind i = SendKindOperatorInput) in
  ctx ← call CtxErr;
  match ctx with
  | Some _ => mret (false, false)
  | None =>
      stop ← stopped (in_SessionID i);
      if (stop : bool) || negb (screenSafeForEnter shot (runes message)) then mret (false, false)
      else
        current ← call LoadSession;
        match current with
        | Err _ => mret (false, false)
        | Ok current =>
            if bool_decide (s_State current = SessionStopped) then mret (false, false)
            else
              fit ← (if operator then
                       if negb (bool_decide (sh_State shot = StateIdle)) && negb (bool_decide (sh_State shot = StateWorking))
                          || CompletionMenu shot
                          || negb (bool_decide (s_State current = SessionIdle)) && negb (bool_decide (s_State current = SessionWorking))
                       then mret false
                       else if has_Observed u then
                         observed ← call GetObserved;
                         mret (bool_decide (observed = Some StateIdle) || bool_decide (observed = Some StateWorking))
                       else mret true
                     else mret true);
              if negb fit then mret (false, false)
              else
                match enterInputText shot (runes message) operator with
                | Some (body, want) => mret (bool_decide (body = want), has_prefix body want)
                | None => mret (false, false)
                end
        end
  end.

(** The screens of one notification, in order: [None] ends the wait, otherwise the last
    screen that counts. *)
Fixpoint take_screens (i : SendInput) (message sendID : string) (cs : list SendConfirmation)
    (shot : ScreenSnapshot) (last : Z) : M (option (ScreenSnapshot * Z)) :=
  match cs with
  | [] => mret (Some (shot, last))
  | c :: cs =>
      if negb (bool_decide (cf_SessionID c = in_SessionID i)) || negb (bool_decide (cf_SendID c = sendID))
      then take_screens i message sendID cs shot last
      else if cf_ProcessExited c then mret None
      else if Observation (cf_Screen c) <=? last then take_screens i message sendID cs shot last
      else
        '(_, prefix) ← check_enter i message (cf_Screen c);
        if negb (prefix : bool) then mret None
        else take_screens i message sendID cs (cf_Screen c) (Observation (cf_Screen c))
  end.

(** The part of a round after the [select]: [next] is the screen to go on with and whether
    the timer has fired. *)
Definition enter_round (i : SendInput) (message : string) (deadline : Time) (baseline : Z)
    (next : option (ScreenSnapshot * Z * bool)) (rest : ScreenSnapshot -> Z -> M bool) : M bool :=
  match next with
  | None => mret false
  | Some (shot, last, fired) =>
      now ← call Clock;
      let expired := fired || negb (Before now deadline) in
      latest ← call GetScreen;
      let '(shot, last) := if last <=? Observation latest then (latest, Observation latest) else (shot, last) in
      '(match_, prefix) ← check_enter i message shot;
      if negb (prefix : bool) then mret false
      else if (match_ : bool) && (baseline <? Observation shot) then mret true
      else if expired then mret false
      else rest shot last
  end.

(** The loop of [waitForEnter].  The timer fires once [fuel] rounds have passed. *)
Fixpoint enter_loop (fuel : nat) (i : SendInput) (message sendID : string) (ch : nat) (limit : Duration) (deadline : Time)
    (baseline : Z) (shot : ScreenSnapshot) (last : Z) {struct fuel} : M bool :=
  selected ← (match fuel with O => mret TimerFired | S _ => call (SelectEnter ch limit) end);
  next ← (match selected with
          | CtxDone _ => mret None
          | PollTick => mret (Some (shot, last, false))
          | TimerFired => mret (Some (shot, last, true))
          | Received cs =>
              r ← take_screens i message sendID cs shot last;
              mret (match r with Some (shot, last) => Some (shot, last, false) | None => None end)
          end);
  enter_round i message deadline baseline next (fun shot last =>
    match fuel with
    | O => mret false
    | S fuel => enter_loop fuel i message sendID ch limit deadline baseline shot last
    end).

Definition waitForEnter (fuel : nat) (i : SendInput) (message sendID : string) (ch : nat) : M bool :=
  shot ← call GetScreen;
  '(match_, prefix) ← check_enter i message shot;
  if (match_ : bool) || negb prefix then mret match_
  else
    let limit := if u_EchoWait u <=? 0 then SupervisorSendEchoWait else u_EchoWait u in
    now ← call Clock;
    enter_loop fuel i message sendID ch limit (now + limit) (Observation shot) shot (Observation shot).

(** *** The terminal ([PTYSession.WriteLine]) *)

Definition no_line : error := Errorf "line text must not contain CR or LF" [].
Definition negative_delay : error := Errorf "delay must not be negative" [].
Definition in_progress : error := Errorf "PTY line write in progress" [].

Definition crlf : string := String (Ascii.ascii_of_nat 13) (String (Ascii.ascii_of_nat 10) EmptyString).

(** What the callback has been asked and has answered is kept beside the error. *)
Inductive enterCall : Type := BeforeNotCalled | BeforeRefused | BeforeAllowed.

Definition closed_now : M (option error) :=
  closed ← call CloseCh;
  mret (if (closed : bool) then Some (Sentinel OsErrClosed) else None).

(** The part that has claimed the terminal. *)
Definition write_claimed (text : string) (delay : Duration) (beforeEnter : M bool) : M (option error * enterCall) :=
  err ← call (WriteText text);
  match err with
  | Some _ => mret (err, BeforeNotCalled)
  | None =>
      waited ← (if 0 <? delay then call (Delay delay) else mret DelayElapsed);
      match waited with
      | DelayCtxDone err => mret (Some err, BeforeNotCalled)
      | DelayClosed => mret (Some (Sentinel OsErrClosed), BeforeNotCalled)
      | DelayElapsed =>
          err ← call CtxErr;
          match err with
          | Some _ => mret (err, BeforeNotCalled)
          | None =>
              err ← closed_now;
              match err with
              | Some _ => mret (err, BeforeNotCalled)
              | None =>
                  allowed ← beforeEnter;
                  if negb (allowed : bool) then mret (Some (Sentinel ErrBeforeEnter), BeforeRefused)
                  else
                    err ← call CtxErr;
                    match err with
                    | Some _ => mret (err, BeforeAllowed)
                    | None =>
                        err ← closed_now;
                        match err with
                        | Some _ => mret (err, BeforeAllowed)
                        | None => err ← call WriteCR; mret (err, BeforeAllowed)
                        end
                    end
              end
          end
      end
  end.

Definition WriteLine (text : string) (delay : Duration) (beforeEnter : M bool) : M (option error * enterCall) :=
  if ContainsAny text crlf then mret (Some no_line, BeforeNotCalled)
  else if delay <? 0 then mret (Some negative_delay, BeforeNotCalled)
  else
    ctx ← call CtxErr;
    match ctx with
    | Some _ => mret (ctx, BeforeNotCalled)
    | None =>
        start ← call BeginSend;
        match start with
        | SendClosed => mret (Some (Sentinel OsErrClosed), BeforeNotCalled)
        | SendInProgress => mret (Some in_progress, BeforeNotCalled)
        | SendStarted =>
            r ← write_claimed text delay beforeEnter;
            call EndSend;;
            mret r
        end
    end.

(** *** After Enter *)

Definition with_pending : error := Errorf "process exited with pending send" [].
Definition not_confirmed : error := Errorf "SUP_SEND_NOT_CONFIRMED" [].

(** The /exit of this send: its record and the owner of the terminal. *)
Abbreviation exit_send := (option (nat * option Z)) (only parsing).
Definition exit_owner (x : exit_send) : option Z := match x with Some (_, owner) => owner | None => None end.

(** The process has exited before the send was confirmed. *)
Definition exited_pending (i : SendInput) (result : SendResult) : M (SendResult * option error) :=
  current ← call LoadSession;
  match current with
  | Err err => mret (result, Some err)
  | Ok current =>
      if bool_decide (s_State current = SessionStopped) && bool_decide (s_StopReason current = StopProcessExitWithPending)
      then mret (result, Some with_pending)
      else if bool_decide (in_Origin i = SendOriginHandoff) then mret (result, Some with_pending)
      else
        err ← UpdateSession_ (fun v => v <| s_State := SessionStopped |> <| s_StopReason := StopProcessExitWithPending |>);
        match err with
        | Some _ => mret (result, err)
        | None => notify EventKindSessionStopped;; mret (result, Some with_pending)
        end
  end.

(** The screens observed so far: the last one, and how many confirmed in a row. *)
Record streak : Type := mkStreak { lastObservation : Z; consecutive : Z }.

(** One screen: the new streak. *)
Definition observe_screen (kind : SupervisorSendKind) (crAt : Time) (shot : ScreenSnapshot) (k : streak) : streak :=
  if Observation shot =? 0 then mkStreak (lastObservation k) 0
  else if Observation shot <=? lastObservation k then k
  else
    let adjacent := negb (lastObservation k =? 0) && (wrap_uint64 (Observation shot - lastObservation k) =? 1) in
    let blank := IsInputBlank DefaultPatternSet (Rows shot) (sh_Cells shot) in
    if negb (After (ChangedAt shot) crAt)
       || negb blank && (bool_decide (kind = SendKindRemoteControl) || negb (Processing shot))
    then mkStreak (Observation shot) 0
    else mkStreak (Observation shot) ((if adjacent then consecutive k else 0) + 1).

(** The confirmations of one notification, in order: a final answer or the streak. *)
Fixpoint take_confirmations (fuel : nat) (i : SendInput) (p : PendingSend) (x : exit_send) (crAt : Time)
    (cs : list SendConfirmation) (k : streak) : M (SendResult * option error + streak) :=
  match cs with
  | [] => mret (inr k)
  | c :: cs =>
      if negb (bool_decide (cf_SendID c = ps_SendID p)) then take_confirmations fuel i p x crAt cs k
      else if cf_ProcessExited c then
        if bool_decide (in_Kind i = SendKindHandoffExit) then
          '(resolved, err) ← resolveExit fuel i p (exit_owner x) false;
          if is_some err || Confirmed resolved then mret (inl (resolved, err))
          else take_confirmations fuel i p x crAt cs k
        else r ← exited_pending i (mkSendResult (ps_SendID p) None false); mret (inl r)
      else if bool_decide (in_Kind i = SendKindHandoffExit) then take_confirmations fuel i p x crAt cs k
      else
        let k := observe_screen (in_Kind i) crAt (cf_Screen c) k in
        if 2 <=? consecutive k then r ← confirmSend fuel i p; mret (inl r)
        else take_confirmations fuel i p x crAt cs k
  end.

(** The timer has fired or the context has ended. *)
Definition give_up_waiting (fuel : nat) (i : SendInput) (p : PendingSend) (x : exit_send) (cause : error)
    : M (SendResult * option error) :=
  match x with
  | Some (_, owner) => expireExit fuel i p owner cause
  | None =>
      err ← unconfirmed fuel i p;
      logErr ← logOperatorSendOutcome i p EventKindSendUnconfirmed;
      mret (mkSendResult (ps_SendID p) None false, errors_Join [Some cause; err; logErr])
  end.

(** The last loop of [Execute].  The timer fires once [fuel] notifications have come. *)
Fixpoint confirm_loop (fuel : nat) (i : SendInput) (p : PendingSend) (x : exit_send) (ch : nat) (timeout : Duration)
    (crAt : Time) (k : streak) {struct fuel} : M (SendResult * option error) :=
  awaited ← (match fuel with O => mret TimedOut | S _ => call (SelectConfirm ch timeout) end);
  match awaited with
  | TimedOut => give_up_waiting fuel i p x not_confirmed
  | Cancelled err => give_up_waiting fuel i p x err
  | Notified cs =>
      r ← take_confirmations fuel i p x crAt cs k;
      match r with
      | inl answer => mret answer
      | inr k =>
          match fuel with
          | O => give_up_waiting fuel i p x not_confirmed
          | S fuel => confirm_loop fuel i p x ch timeout crAt k
          end
      end
  end.

Definition confirm_timeout (i : SendInput) : Duration :=
  let timeout := in_ConfirmTimeout i in
  let timeout := if (timeout <=? 0) && bool_decide (in_Kind i = SendKindHandoffExit) && bool_decide (in_Origin i = SendOriginHandoff)
                 then SupervisorExitGrace else timeout in
  let timeout := if timeout <=? 0 then u_ConfirmTimeout u else timeout in
  if timeout <=? 0 then SupervisorSendConfirmTimeout else timeout.

(** *** Execute *)

(** The record with the send entered. *)
Definition issue_session (i : SendInput) (seq : Z) (p : PendingSend) (v : ManagedSession) : ManagedSession :=
  let rotation :=
    if bool_decide (in_Kind i = SendKindHandoffEnd) && bool_decide (in_Origin i = SendOriginHandoff)
    then match s_Rotation v with Some r => Some (r <| ro_EndIssuedAt := Some (ps_IssuedAt p) |>) | None => None end
    else s_Rotation v in
  let gate := s_SendGate v <| sg_NextSeq := wrap_uint64 (seq + 1) |> <| sg_Pending := Some p |>
                <| sg_LastSendConfirmed := false |> <| sg_EverSent := true |> in
  v <| s_SendGate := gate |> <| s_Rotation := rotation |>.

(** The update that issues the send; it fills in the gate and, for /exit, the record. *)
Definition issue (i : SendInput) (second : ScreenSnapshot) (pty : PTYWriter) (v : ManagedSession)
    : M (ManagedSession * option (PendingSend * exit_send) * option error) :=
  if negb (SendKindAllowed (s_State v) (session_state (sh_State second)) (in_Kind i) [in_Origin i])
  then mret (v, None, Some (Sentinel errSendStateChanged))
  else if is_some (sg_Pending (s_SendGate v)) then mret (v, None, Some (Sentinel errSendPendingAppeared))
  else
    let seq := if sg_NextSeq (s_SendGate v) =? 0 then 1 else sg_NextSeq (s_SendGate v) in
    now ← call Now;
    let p := mkPendingSend (in_SessionID i +:+ "-s" +:+ pretty seq) (in_Kind i) now in
    let owner := handoffPTYOwner pty in
    x ← (if bool_decide (in_Kind i = SendKindHandoffExit)
         then r ← call (Mu (registerExit p i owner)); mret (Some (r, owner))
         else mret None);
    mret (issue_session i seq p v, Some (p, x), None).

(** The callback that [WriteLine] calls before Enter. *)
Definition before_enter (fuel : nat) (i : SendInput) (message : string) (p : PendingSend) (x : exit_send) (ch : nat) : M bool :=
  ok ← waitForEnter fuel i message (ps_SendID p) ch;
  if negb (ok : bool) then mret false
  else match x with Some (r, _) => call (Mu (beginExitCR r)) | None => mret true end.

Definition end_exit (x : exit_send) (success : bool) : M unit :=
  match x with Some (r, _) => mu (endExitCR r success) | None => mret tt end.

Definition says (err : error) (text : string) : bool :=
  match err with Errorf format [] => bool_decide (format = text) | _ => false end.

(** The part after [WriteLine] has failed. *)
Definition line_failed (fuel : nat) (i : SendInput) (p : PendingSend) (x : exit_send) (message : string) (ever confirmed : bool)
    (err : error) (before : enterCall) : M (SendResult * option error) :=
  let result := mkSendResult (ps_SendID p) None false in
  end_exit x false;;
  let allowed := match before with BeforeAllowed => true | _ => false end in
  logErr ← logOperatorSendOutcome i p (if allowed then EventKindSendUnconfirmed else EventKindSendAborted);
  let err := match logErr with Some _ => default err (errors_Join [Some err; logErr]) | None => err end in
  if allowed then
    e ← unconfirmed fuel i p;
    mret (result, errors_Join [Some err; e])
  else
    let not_called := match before with BeforeNotCalled => true | _ => false end in
    e ← (if not_called && (ContainsAny message crlf || (SupervisorSendEnterDelay <? 0)
                           || says err "line text must not contain CR or LF" || says err "delay must not be negative")
         then blockBeforeText i p ever confirmed SendBlockedState
         else abortBeforeCR i p ever confirmed);
    mret (result, errors_Join [Some err; e]).

(** The part after Enter. *)
Definition line_written (fuel : nat) (i : SendInput) (p : PendingSend) (x : exit_send) (ch : nat) : M (SendResult * option error) :=
  end_exit x true;;
  now ← call Now;
  mu (markCR (ps_SendID p) now);;
  crAt ← mu_read (CRWrittenAt (ps_SendID p));
  resolved ← (match x with
              | Some (_, owner) =>
                  '(resolved, err) ← resolveExit fuel i p owner false;
                  mret (if is_some err || Confirmed resolved then Some (resolved, err) else None)
              | None => mret None
              end);
  match resolved with
  | Some answer => mret answer
  | None => confirm_loop fuel i p x ch (confirm_timeout i) crAt (mkStreak 0 0)
  end.

(** The part after the pending send has been saved. *)
Definition issued (fuel : nat) (hash : option string) (i : SendInput) (message : string) (ever confirmed : bool)
    (p : PendingSend) (x : exit_send) (ch : nat) : M (SendResult * option error) :=
  let result := mkSendResult (ps_SendID p) None false in
  err ← record_event (sendEvent EventKindSendIssued i p "");
  match err with
  | Some _ => e ← blockBeforeText i p ever confirmed SendBlockedState; mret (result, errors_Join [err; e])
  | None =>
      match hash with
      | Some hash =>
          if bool_decide (in_Kind i = SendKindRecommendationContinue) && has_RecommendationIssued u
          then call (RecommendationIssued hash (ps_IssuedAt p)) else mret tt
      | None => mret tt
      end;;
      stop ← stopped (in_SessionID i);
      if (stop : bool) then
        e ← blockBeforeText i p ever confirmed SendBlockedStop;
        mret (mkSendResult (ps_SendID p) (Some SendBlockedStop) false, e)
      else
        ready ← (if bool_decide (in_Kind i = SendKindOperatorInput) then
                   shot ← call GetScreen; mret (operatorScreenReadyForWrite shot)
                 else mret true);
        if negb ready then
          e ← blockBeforeText i p ever confirmed SendBlockedState;
          mret (mkSendResult (ps_SendID p) (Some SendBlockedState) false, e)
        else
          '(err, before) ← WriteLine message SupervisorSendEnterDelay (before_enter fuel i message p x ch);
          match err with
          | Some err => line_failed fuel i p x message ever confirmed err before
          | None => line_written fuel i p x ch
          end
  end.

(** The text of the send, and whether it is one that may be sent. *)
Definition message_of (i : SendInput) (s : ManagedSession) : string * bool :=
  if bool_decide (in_Kind i = SendKindOperatorInput)
  then (PTYText (in_OperatorText i), 0 <? OperatorText_Len (in_OperatorText i))
  else
    match FixedText (in_Kind i) (parallelInstructionFor s) with
    | Some text => (text, OperatorText_Len (in_OperatorText i) =? 0)
    | None => (""%string, false)
    end.

(** The screen has been idle since the pending send was discarded. *)
Definition fresh_after (s : ManagedSession) (shot : ScreenSnapshot) (now : Time) : bool :=
  bool_decide (sh_State shot = StateIdle) && After (ObservedAt shot) (s_StateSince s) && negb (IsZero (ChangedAt shot))
  && (QuietPeriod <=? Sub now (ChangedAt shot)) && screenReadyForWrite shot.

Definition operator_ready (i : SendInput) (shot : ScreenSnapshot) : bool :=
  negb (bool_decide (in_Kind i = SendKindOperatorInput)) || operatorScreenReadyForWrite shot.

(** The part with the channel of the send. *)
Definition on_channel (fuel : nat) (hash : option string) (i : SendInput) (s : ManagedSession) (message : string)
    (second : ScreenSnapshot) (pty : PTYWriter) (ch : nat) : M (SendResult * option error) :=
  '(err, issued_) ← UpdateSession (issue i second pty);
  let '(p, x) := match issued_ with Some (Some (p, x)) => (Some p, x) | _ => (None, None) end in
  r ← (match err, p with
       | None, Some p =>
           issued fuel hash i message (sg_EverSent (s_SendGate s)) (sg_LastSendConfirmed (s_SendGate s)) p x ch
       | Some err, _ =>
           if errors_Is err errSendStateChanged then blocked SendBlockedState i
           else if errors_Is err errSendPendingAppeared then blocked SendBlockedPending i
           else mret (noSendResult, Some err)
       | None, None => mret (noSendResult, None)
       end);
  mu (releaseConfirmation ch);;
  match x with Some (r, _) => mu (collectExit r) | None => mret tt end;;
  mret r.

(** The part under the lock of the session. *)
Definition execute_locked (fuel : nat) (hash : option string) (i : SendInput) : M (SendResult * option error) :=
  loaded ← call LoadSession;
  match loaded with
  | Err err => mret (noSendResult, Some err)
  | Ok s =>
      let '(message, fixed) := message_of i s in
      shot ← call GetScreen;
      fresh ← (if negb (sg_UnconfirmedDiscarded (s_SendGate s)) then mret true
               else now ← call Now; mret (fresh_after s shot now));
      stop ← stopped (in_SessionID i);
      match CheckSendGate s (session_state (sh_State shot)) (in_Kind i) stop fixed fresh [in_Origin i] with
      | Some reason => blocked reason i
      | None =>
          if negb (operator_ready i shot) then blocked SendBlockedState i
          else
            second ← call GetScreen;
            stop ← stopped (in_SessionID i);
            if (stop : bool) then blocked SendBlockedStop i
            else if negb (SendKindAllowed (s_State s) (session_state (sh_State second)) (in_Kind i) [in_Origin i])
                    || negb (screenReadyForWrite second) || negb (operator_ready i second)
            then blocked SendBlockedState i
            else
              pty ← (if has_PTYs u then call GetPTY else mret (u_PTY u));
              match pty with
              | None => blocked SendBlockedState i
              | Some pty =>
                  ch ← call (Mu resetConfirmation);
                  on_channel fuel hash i s message second pty ch
              end
      end
  end.

(** [fuel] bounds the rounds of the loops; [hash] is the value that the context carries. *)
Definition Execute (fuel : nat) (hash : option string) (i : SendInput) : M (SendResult * option error) :=
  if negb (has_Sessions u) || negb (has_Screens u) || (is_none (u_PTY u) && negb (has_PTYs u))
  then mret (noSendResult, Some (Errorf "send dependencies are required" []))
  else
    l ← call (Mu sessionLock);
    got ← call (TryLock l);
    if negb (got : bool) then blocked SendBlockedPending i
    else
      r ← execute_locked fuel hash i;
      call (Unlock l);;
      mret r.

(** ** The operator's text ([SendOperatorInputUseCase]) *)

Definition SupervisorOperatorInputMinInterval : Duration := Second.
Definition ErrorCodeOperatorInputForbidden : string := "SUP_OPERATOR_INPUT_FORBIDDEN".

Record SendOperatorInputUseCase : Type := mkOperatorUseCase {
  so_has_Sessions : bool; so_has_Send : bool; so_has_RecordStructured : bool }.

Definition refuse (o : SendOperatorInputUseCase) (reason : string) : M (SendResult * option error) :=
  err ← (if so_has_RecordStructured o then call (RecordRefused reason) else mret None);
  match err with
  | Some _ => mret (noSendResult, err)
  | None => mret (noSendResult, Some (OperatorInputError ErrorCodeOperatorInputForbidden reason ""))
  end.

(** The section on the time of the last text: whether this one comes too early. *)
Definition rate_limited (now : Time) (last : option Time) : option Time * bool :=
  match last with
  | Some previous => if Sub now previous <? SupervisorOperatorInputMinInterval then (last, true) else (Some now, false)
  | None => (Some now, false)
  end.

Definition Operator_Execute (fuel : nat) (o : SendOperatorInputUseCase) (id : string) (text : OperatorText) (supervised : bool)
    : M (SendResult * option error) :=
  if OperatorText_Len text =? 0 then mret (noSendResult, Some (Errorf "SUP_REQUEST_MALFORMED" []))
  else if supervised then refuse o "supervised_caller"
  else if negb (so_has_Sessions o) || negb (so_has_Send o) then mret (noSendResult, Some (Errorf "SUP_CONFIG_INVALID" []))
  else
    loaded ← call LoadSession;
    match loaded with
    | Err err =>
        if errors_Is err FsErrNotExist then mret (noSendResult, Some (Sentinel ErrSessionNotFound))
        else mret (noSendResult, Some err)
    | Ok session =>
        if negb (bool_decide (s_SessionID session = id)) then mret (noSendResult, Some (Sentinel ErrSessionNotFound))
        else
          match Classify (PTYText text) with
          | None | Some (_ :: _) => refuse o "forbidden_text"
          | Some [] =>
              let i := mkSendInput id SendKindOperatorInput text SendOriginNormal 0 in
              now ← call Now;
              early ← call (MuLast (rate_limited now));
              if (early : bool) then blocked SendBlockedRateLimited i
              else
                '(result, err) ← Execute fuel None i;
                match err with
                | None => mret (result, None)
                | Some _ =>
                    current ← call LoadSession;
                    match current with
                    | Ok current =>
                        if bool_decide (s_StopReason current = StopSendAborted)
                        then mret (result, Some (OperatorInputError "SUP_SEND_ABORTED" "" (r_SendID result)))
                        else if bool_decide (s_StopReason current = StopSendNotConfirmed)
                        then mret (result, Some (OperatorInputError "SUP_SEND_NOT_CONFIRMED" "" (r_SendID result)))
                        else mret (result, err)
                    | Err _ => mret (result, err)
                    end
                end
          end
    end.
End UseCase.
