(* ===== verification/SendInputOk.v ===== *)
(** * Every keystroke is earned

    What holds in every run of [SendInput.Execute]: the text is typed only behind the
    open gate and a saved pending send, Enter is pressed only on a screen that was seen
    to hold the text, and what the answer says about it. *)

From S2P Require Import Prelude.
From S2P Require Import GoStrings.
From S2P Require Import UTF8.
From S2P Require Import Errors.
From S2P Require Import TextPolicy.
From S2P Require Import Session.
From S2P Require Import SendGate.
From S2P Require Import VTerm.
From S2P Require Import Detect.
From S2P Require Import Screens.
From S2P Require Import Effects.
From S2P Require Import Sends.
From S2P Require Import SendInput.

Abbreviation ev := (called Eff).
Abbreviation wps := (wp record_ev).

(** ** Keystrokes *)

(** The calls that type into the terminal. *)
Definition typed (e : ev) : bool := match e with Ev e _ => match e with WriteText _ | WriteCR => true | _ => false end end.

Definition quiet (e : ev) : Prop := typed e = false.

Abbreviation emits_quiet := (emits record_ev quiet).

Create HintDb quiet discriminated.

Ltac solve_quiet :=
  repeat first
    [ exact I
    | apply emits_call; done
    | solve [auto with quiet]
    | apply emits_bind; [|intros ?]
    | lazymatch goal with
      | |- emits _ _ (match ?x with _ => _ end) => destruct x
      | |- emits _ _ (let '_ := ?x in _) => destruct x
      | |- emits _ _ (mret _) => exact I
      end ].

Section Quiet.
Context `{UnicodeTables} (u : SendInputUseCase).

Lemma record_event_quiet e : emits_quiet (record_event u e).
Proof. unfold record_event. solve_quiet. Qed.
Lemma notify_quiet k : emits_quiet (notify u k).
Proof. unfold notify. solve_quiet. Qed.
Lemma mu_quiet f : emits_quiet (mu f).
Proof. unfold mu. solve_quiet. Qed.
Lemma mu_read_quiet {X : Type} (f : Sends -> X) : emits_quiet (mu_read f).
Proof. unfold mu_read. solve_quiet. Qed.
Hint Resolve record_event_quiet notify_quiet mu_quiet mu_read_quiet : quiet.

Lemma blocked_quiet reason i : emits_quiet (blocked u reason i).
Proof. unfold blocked. solve_quiet. Qed.
Lemma stopped_quiet id : emits_quiet (stopped u id).
Proof. unfold stopped. solve_quiet. Qed.
Lemma logOperatorSendOutcome_quiet i p k : emits_quiet (logOperatorSendOutcome u i p k).
Proof. unfold logOperatorSendOutcome. solve_quiet. Qed.
Hint Resolve blocked_quiet stopped_quiet logOperatorSendOutcome_quiet : quiet.

Lemma UpdateSession_quiet {A : Type} (f : ManagedSession -> M (ManagedSession * A * option error)) :
  (forall v, emits_quiet (f v)) -> emits_quiet (UpdateSession f).
Proof. intros Hf. unfold UpdateSession. solve_quiet. Qed.

Lemma UpdateSession__quiet f : emits_quiet (UpdateSession_ f).
Proof. unfold UpdateSession_. apply emits_bind; [apply UpdateSession_quiet; intros; exact I|]. intros [? ?]. solve_quiet. Qed.
Hint Resolve UpdateSession__quiet : quiet.

Lemma abortBeforeCR_quiet i p ever c : emits_quiet (abortBeforeCR u i p ever c).
Proof. unfold abortBeforeCR. solve_quiet. Qed.
Lemma blockBeforeText_quiet i p ever c r : emits_quiet (blockBeforeText u i p ever c r).
Proof. unfold blockBeforeText. solve_quiet. Qed.
Hint Resolve abortBeforeCR_quiet blockBeforeText_quiet : quiet.

Lemma updateExitSession_quiet fuel f : (forall v, emits_quiet (f v)) -> emits_quiet (updateExitSession fuel f).
Proof.
  intros Hf. induction fuel as [|fuel IH]; cbn [updateExitSession];
    (apply emits_bind; [apply UpdateSession_quiet; intros v; solve_quiet|]); intros [? ?]; solve_quiet.
Qed.

Lemma resolveExit_quiet fuel i p owner expired : emits_quiet (resolveExit u fuel i p owner expired).
Proof. unfold resolveExit. apply emits_bind; [apply updateExitSession_quiet; intros; solve_quiet|]. intros [? ?]. solve_quiet. Qed.
Hint Resolve resolveExit_quiet : quiet.
Lemma expireExit_quiet fuel i p owner cause : emits_quiet (expireExit u fuel i p owner cause).
Proof. unfold expireExit. solve_quiet. Qed.
Lemma unconfirmed_quiet fuel i p : emits_quiet (unconfirmed u fuel i p).
Proof. unfold unconfirmed. solve_quiet. Qed.
Lemma confirmSend_quiet fuel i p : emits_quiet (confirmSend u fuel i p).
Proof. unfold confirmSend. solve_quiet. Qed.
Lemma check_enter_quiet i message shot : emits_quiet (check_enter u i message shot).
Proof. unfold check_enter. solve_quiet. Qed.
Hint Resolve expireExit_quiet unconfirmed_quiet confirmSend_quiet check_enter_quiet : quiet.

Lemma take_screens_quiet i message sendID cs shot last : emits_quiet (take_screens u i message sendID cs shot last).
Proof. induction cs as [|c cs IH] in shot, last |- *; cbn [take_screens]; solve_quiet. Qed.
Hint Resolve take_screens_quiet : quiet.

Lemma enter_round_quiet i message deadline baseline next rest :
  (forall shot last, emits_quiet (rest shot last)) -> emits_quiet (enter_round u i message deadline baseline next rest).
Proof. intros Hr. unfold enter_round. solve_quiet. Qed.

Lemma enter_loop_quiet fuel i message sendID ch limit deadline baseline shot last :
  emits_quiet (enter_loop u fuel i message sendID ch limit deadline baseline shot last).
Proof.
  induction fuel as [|fuel IH] in shot, last |- *; cbn [enter_loop];
    (apply emits_bind; [solve_quiet|]; intros sel; apply emits_bind; [solve_quiet|]; intros next;
     apply enter_round_quiet; intros; solve_quiet).
Qed.
Hint Resolve enter_loop_quiet : quiet.

Lemma waitForEnter_quiet fuel i message sendID ch : emits_quiet (waitForEnter u fuel i message sendID ch).
Proof. unfold waitForEnter. solve_quiet. Qed.
Hint Resolve waitForEnter_quiet : quiet.
Lemma before_enter_quiet fuel i message p x ch : emits_quiet (before_enter u fuel i message p x ch).
Proof. unfold before_enter. solve_quiet. Qed.
Lemma exited_pending_quiet i r : emits_quiet (exited_pending u i r).
Proof. unfold exited_pending. solve_quiet. Qed.
Hint Resolve exited_pending_quiet : quiet.

Lemma take_confirmations_quiet fuel i p x crAt cs k : emits_quiet (take_confirmations u fuel i p x crAt cs k).
Proof. induction cs as [|c cs IH] in k |- *; cbn [take_confirmations]; solve_quiet. Qed.
Lemma give_up_waiting_quiet fuel i p x cause : emits_quiet (give_up_waiting u fuel i p x cause).
Proof. unfold give_up_waiting. solve_quiet. Qed.
Hint Resolve take_confirmations_quiet give_up_waiting_quiet : quiet.

Lemma confirm_loop_quiet fuel i p x ch timeout crAt k : emits_quiet (confirm_loop u fuel i p x ch timeout crAt k).
Proof. induction fuel as [|fuel IH] in k |- *; cbn [confirm_loop]; solve_quiet. Qed.
Lemma end_exit_quiet x b : emits_quiet (end_exit x b).
Proof. unfold end_exit. solve_quiet. Qed.
Hint Resolve confirm_loop_quiet end_exit_quiet : quiet.

Lemma line_failed_quiet fuel i p x message ever c err b : emits_quiet (line_failed u fuel i p x message ever c err b).
Proof. unfold line_failed. solve_quiet. Qed.
Lemma line_written_quiet fuel i p x ch : emits_quiet (line_written u fuel i p x ch).
Proof. unfold line_written. solve_quiet. Qed.
Lemma issue_quiet i second pty v : emits_quiet (issue i second pty v).
Proof. unfold issue. solve_quiet. Qed.
End Quiet.

#[export] Hint Resolve record_event_quiet notify_quiet mu_quiet mu_read_quiet blocked_quiet stopped_quiet
  logOperatorSendOutcome_quiet UpdateSession__quiet abortBeforeCR_quiet blockBeforeText_quiet resolveExit_quiet
  expireExit_quiet unconfirmed_quiet confirmSend_quiet check_enter_quiet take_screens_quiet enter_loop_quiet
  waitForEnter_quiet before_enter_quiet exited_pending_quiet take_confirmations_quiet give_up_waiting_quiet
  confirm_loop_quiet end_exit_quiet line_failed_quiet line_written_quiet issue_quiet : quiet.

(** ** What is required before a keystroke *)

Section Rules.
Context `{UnicodeTables} (u : SendInputUseCase) (i : SendInput).

Definition operator : bool := bool_decide (in_Kind i = SendKindOperatorInput).

(** Nothing stops the session: the two flags are down and both marker files are absent. *)
Definition unstopped (stops : list ev) : Prop :=
  exists a b, stops = [Ev (StatMarker (in_SessionID i)) (Some b); Ev (StatMarker "") (Some a);
                       Ev StopState_IsStopped false; Ev IsStopped false]
    /\ errors_Is a FsErrNotExist = true /\ errors_Is b FsErrNotExist = true.

(** The gate has been found open for the text, on two readings of the screen. *)
Definition gate_passed (text : string) (second : ScreenSnapshot) (h : list ev) : Prop :=
  exists s shot fresh,
    [Ev GetScreen second; Ev GetScreen shot; Ev LoadSession (Ok s)] `sublist_of` h
    /\ text = (message_of u i s).1
    /\ (fresh = true -> sg_UnconfirmedDiscarded (s_SendGate s) = true -> exists now, fresh_after s shot now = true)
    /\ CheckSendGate s (session_state (sh_State shot)) (in_Kind i) false (message_of u i s).2 fresh [in_Origin i] = None
    /\ operator_ready i shot = true
    /\ SendKindAllowed (s_State s) (session_state (sh_State second)) (in_Kind i) [in_Origin i] = true
    /\ screenReadyForWrite second = true /\ operator_ready i second = true.

(** The send has been entered into the record of the session, which had none pending,
    under the lock of the record. *)
Definition pending_saved (second : ScreenSnapshot) (p : PendingSend) (h : list ev) : Prop :=
  exists v v' before after,
    ((if bool_decide (before = after) then [] else [Ev (SaveSession v') None])
     ++ [Ev (Marshal v') (Ok after); Ev (Marshal v) (Ok before); Ev LoadSession (Ok v); Ev LockRecord tt]) `sublist_of` h
    /\ sg_Pending (s_SendGate v) = None
    /\ SendKindAllowed (s_State v) (session_state (sh_State second)) (in_Kind i) [in_Origin i] = true
    /\ sg_Pending (s_SendGate v') = Some p /\ sg_LastSendConfirmed (s_SendGate v') = false
    /\ ps_Kind p = in_Kind i.

Definition issue_recorded (p : PendingSend) (h : list ev) : Prop :=
  has_RecordStructured u = true -> Ev (RecordStructured (sendEvent EventKindSendIssued i p "")) None ∈ h.

Definition text_rule (text : string) (h : list ev) : Prop :=
  Forall quiet h
  /\ exists ready stops h1 h2 h3 second p,
      h = Ev BeginSend SendStarted :: Ev CtxErr None :: ready ++ stops ++ h1 ++ h2 ++ h3
      /\ (if operator then exists shot, ready = [Ev GetScreen shot] /\ operatorScreenReadyForWrite shot = true else ready = [])
      /\ unstopped stops /\ issue_recorded p h1 /\ pending_saved second p h2 /\ gate_passed text second h3.

(** The screen has been seen since. *)
Definition shown (sendID : string) (shot : ScreenSnapshot) (since : list ev) : Prop :=
  Ev GetScreen shot ∈ since
  \/ exists ch limit cs c, Ev (SelectEnter ch limit) (Received cs) ∈ since /\ c ∈ cs
       /\ cf_SessionID c = in_SessionID i /\ cf_SendID c = sendID /\ cf_Screen c = shot.

(** The check of one screen that allows Enter: the context lives, nothing stops the
    session, the record of the session is not stopped, and the screen shows the text. *)
Definition enter_checked (text : string) (shot : ScreenSnapshot) (check : list ev) : Prop :=
  exists observed s stops,
    check = observed ++ Ev LoadSession (Ok s) :: stops ++ [Ev CtxErr None]
    /\ (observed = [] \/ exists st, (st = StateIdle \/ st = StateWorking) /\ observed = [Ev GetObserved (Some st)])
    /\ s_State s <> SessionStopped /\ unstopped stops
    /\ screenReadyForEnter shot (runes text) operator = true.

Definition enter_rule (h : list ev) : Prop :=
  exists begun check since text before sendID shot,
    h = Ev CloseCh false :: Ev CtxErr None :: begun ++ check ++ since ++ Ev (WriteText text) None :: before
    /\ (if bool_decide (in_Kind i = SendKindHandoffExit)
        then exists r, begun = [Ev (Mu (beginExitCR r)) true] else begun = [])
    /\ enter_checked text shot check /\ shown sendID shot since /\ Forall quiet since.

Definition send_rule (e : ev) (h : list ev) : Prop :=
  match e with
  | Ev e _ => match e with WriteText text => text_rule text h | WriteCR => enter_rule h | _ => True end
  end.

Abbreviation gated := (hist_all send_rule).

(** ** Lemmas *)

Lemma gated_quiet (new h : list ev) : Forall quiet new -> gated h -> gated (new ++ h).
Proof.
  induction 1 as [|e new He Hnew IH]; [done|]. intros Hh. cbn. split; [|by apply IH].
  destruct e as [X e x]. by destruct e.
Qed.

Lemma wp_quiet {A : Type} (p : M A) h Q :
  emits_quiet p -> gated h -> (forall new a, Forall quiet new -> gated (new ++ h) -> Q (new ++ h) a) -> wps p h Q.
Proof. intros Hp Hh HQ. apply (wp_emits_any _ _ _ _ _ Hp). intros new a Hn. apply HQ; [done|by apply gated_quiet]. Qed.

Ltac wp_cbn := cbn [wp prog_bind mbind prog_mbind mret prog_mret call].
Ltac quiet_list := repeat constructor.
Ltac quiet_app := repeat first [assumption | apply list.Forall_app; split | constructor; [reflexivity|]].

Lemma stopped_spec h Q :
  (forall new, Forall quiet new -> Q (new ++ h) true) -> (forall stops, unstopped stops -> Q (stops ++ h) false) ->
  wps (stopped u (in_SessionID i)) h Q.
Proof.
  intros Ht Hf. unfold stopped. destruct (_ || _); [by apply (Ht [])|].
  intros [|]; [by apply (Ht [_]); quiet_list|]. intros [|]; [by apply (Ht [_; _]); quiet_list|].
  intros a. wp_cbn. destruct (marker_stops a) eqn:Ea; [by apply (Ht [_; _; _]); quiet_list|].
  intros b. wp_cbn. destruct (marker_stops b) eqn:Eb; [by apply (Ht [_; _; _; _]); quiet_list|].
  destruct a as [a|]; [|done]. destruct b as [b|]; [|done].
  apply negb_false_iff in Ea, Eb. apply (Hf [_; _; _; _]). by exists a, b.
Qed.

Lemma unstopped_quiet stops : unstopped stops -> Forall quiet stops.
Proof. intros (a & b & -> & _). quiet_list. Qed.

Lemma check_enter_spec text shot h Q :
  (forall new r, Forall quiet new -> (r.1 = true -> enter_checked text shot new) -> Q (new ++ h) r) ->
  wps (check_enter u i text shot) h Q.
Proof.
  intros HQ. unfold check_enter. intros [err|]; wp_cbn; [by apply (HQ [_]); [quiet_list|]|].
  apply wp_bind. apply stopped_spec.
  { intros new Hn. wp_cbn. cbn [orb]. change (new ++ ?e :: h) with (new ++ [e] ++ h). rewrite app_assoc.
    apply HQ; [|done]. apply list.Forall_app. by split; [|quiet_list]. }
  intros stops Hs. cbn [orb]. pose proof (unstopped_quiet _ Hs) as Hq.
  assert (Hlong : forall new, Forall quiet new -> Forall quiet (new ++ stops ++ [Ev CtxErr None])).
  { intros new Hn. apply list.Forall_app. split; [done|]. apply list.Forall_app. by split; [|quiet_list]. }
  assert (Eapp : forall new, new ++ stops ++ Ev CtxErr None :: h = (new ++ stops ++ [Ev CtxErr None]) ++ h).
  { intros new. by rewrite <- !app_assoc. }
  destruct (negb (screenSafeForEnter shot (runes text))) eqn:Esafe.
  { wp_cbn. pose proof (Eapp []) as E. cbn [app] in E. rewrite E. apply HQ; [by apply (Hlong [])|done]. }
  intros [s|err]; wp_cbn.
  2:{ change (?e :: stops ++ ?r) with ([e] ++ stops ++ r). rewrite Eapp. apply HQ; [by apply Hlong; quiet_list|done]. }
  case_bool_decide as Est; wp_cbn.
  { change (?e :: stops ++ ?r) with ([e] ++ stops ++ r). rewrite Eapp. apply HQ; [by apply Hlong; quiet_list|done]. }
  assert (Hend : forall observed, Forall quiet observed ->
    (observed = [] \/ exists st, (st = StateIdle \/ st = StateWorking) /\ observed = [Ev GetObserved (Some st)]) ->
    wps (match enterInputText shot (runes text) operator with
         | Some (body, want) => mret (bool_decide (body = want), has_prefix body want)
         | None => mret (false, false)
         end) (observed ++ Ev LoadSession (Ok s) :: stops ++ Ev CtxErr None :: h) Q).
  { intros observed Hob Hobs.
    replace (observed ++ Ev LoadSession (Ok s) :: stops ++ Ev CtxErr None :: h)
      with ((observed ++ Ev LoadSession (Ok s) :: stops ++ [Ev CtxErr None]) ++ h)
      by (rewrite <- !app_assoc; cbn; by rewrite <- !app_assoc).
    assert (Hqs : Forall quiet (observed ++ Ev LoadSession (Ok s) :: stops ++ [Ev CtxErr None])).
    { apply list.Forall_app. split; [done|]. by apply (Hlong [_]); quiet_list. }
    destruct (enterInputText shot (runes text) operator) as [[body want]|] eqn:Ein; wp_cbn; (apply HQ; [done|]); [|done].
    cbn [fst]. intros Eb. exists observed, s, stops. split_and!; [done..|].
    unfold screenReadyForEnter. by rewrite (proj1 (negb_false_iff _) Esafe), Ein, Eb. }
  fold operator. destruct operator.
  2:{ wp_cbn. apply (Hend []); [quiet_list|by left]. }
  destruct (_ || _ || _); wp_cbn.
  { change (?e :: stops ++ ?r) with ([e] ++ stops ++ r). rewrite Eapp. apply HQ; [by apply Hlong; quiet_list|done]. }
  destruct (has_Observed u); wp_cbn; [|apply (Hend []); [quiet_list|by left]].
  intros st. wp_cbn. destruct (_ || _) eqn:Est2; cbn [negb].
  - assert (exists st', st = Some st' /\ (st' = StateIdle \/ st' = StateWorking)) as (st' & -> & Hst').
    { apply orb_true_iff in Est2 as [E|E]; apply bool_decide_eq_true in E; eauto. }
    apply (Hend [_]); [quiet_list|]. right. by exists st'.
  - wp_cbn. change (?e :: ?e' :: stops ++ ?r) with ([e; e'] ++ stops ++ r). rewrite Eapp.
    apply HQ; [by apply Hlong; quiet_list|done].
Qed.

Lemma enter_checked_quiet text shot check : enter_checked text shot check -> Forall quiet check.
Proof.
  intros (observed & s & stops & -> & Ho & _ & Hs & _). apply list.Forall_app. split.
  - destruct Ho as [->|(st & _ & ->)]; quiet_list.
  - constructor; [done|]. apply list.Forall_app. split; [by apply unstopped_quiet|quiet_list].
Qed.

Lemma shown_app sendID shot new since : shown sendID shot since -> shown sendID shot (new ++ since).
Proof.
  intros [H1|(ch & limit & cs & c & H1 & H2)]; [left; by apply elem_of_app; right|].
  right. exists ch, limit, cs, c. split; [by apply elem_of_app; right|done].
Qed.

(** The screens of the notification [cs] are taken from it. *)
Lemma take_screens_spec text sendID cs0 cs shot last since h Q :
  Forall quiet since -> (exists ch limit, Ev (SelectEnter ch limit) (Received cs0) ∈ since) ->
  (forall c, c ∈ cs -> c ∈ cs0) -> shown sendID shot since ->
  (forall new r, Forall quiet new ->
    (match r with Some (shot, _) => shown sendID shot (new ++ since) | None => True end) -> Q (new ++ since ++ h) r) ->
  wps (take_screens u i text sendID cs shot last) (since ++ h) Q.
Proof.
  intros Hq Hsel Hcs Hshot HQ. induction cs as [|c cs IH] in shot, last, since, Hq, Hsel, Hcs, Hshot, HQ |- *; cbn [take_screens].
  { by apply (HQ []). }
  assert (Hcs' : forall c', c' ∈ cs -> c' ∈ cs0) by (intros c' Hc'; apply Hcs; by right).
  destruct (negb (bool_decide (cf_SessionID c = in_SessionID i)) || negb (bool_decide (cf_SendID c = sendID))) eqn:Eid;
    [by apply IH|].
  destruct (cf_ProcessExited c); [by apply (HQ [])|].
  destruct (Observation (cf_Screen c) <=? last); [by apply IH|].
  apply orb_false_iff in Eid as [E1 E2]. apply negb_false_iff, bool_decide_eq_true in E1, E2.
  apply wp_bind. apply check_enter_spec. intros new [m prefix] Hn _.
  destruct prefix; cbn [negb]; [|by apply HQ].
  rewrite app_assoc. apply IH.
  - by apply list.Forall_app.
  - destruct Hsel as (ch & limit & Hsel). exists ch, limit. apply elem_of_app. by right.
  - done.
  - right. destruct Hsel as (ch & limit & Hsel). exists ch, limit, cs0, c. split_and!; try done.
    + apply elem_of_app. by right.
    + apply Hcs. by left.
  - intros new' r Hn' Hr. rewrite <- app_assoc, app_assoc. apply HQ; [by apply list.Forall_app|].
    by rewrite <- app_assoc.
Qed.

(** What the wait for Enter answers. *)
Definition waited (text sendID : string) (new : list ev) (r : bool) : Prop :=
  Forall quiet new
  /\ (r = true -> exists check since shot, new = check ++ since /\ enter_checked text shot check /\ shown sendID shot since).

Lemma enter_round_spec text sendID deadline baseline next rest since h Q :
  Forall quiet since -> (match next with Some (shot, _, _) => shown sendID shot since | None => True end) ->
  (forall shot last since', Forall quiet since' -> shown sendID shot since' -> wps (rest shot last) (since' ++ h) Q) ->
  (forall new r, waited text sendID new r -> Q (new ++ h) r) ->
  wps (enter_round u i text deadline baseline next rest) (since ++ h) Q.
Proof.
  intros Hq Hnext Hrest HQ. destruct next as [[[shot last] fired]|]; cbn [enter_round]; [|by apply (HQ since)].
  intros now latest. wp_cbn.
  set (since2 := Ev GetScreen latest :: Ev Clock now :: since).
  assert (Hq2 : Forall quiet since2) by (by repeat constructor).
  assert (exists shot' last', shown sendID shot' since2 /\
    (if last <=? Observation latest then (latest, Observation latest) else (shot, last)) = (shot', last')) as (shot' & last' & Hs' & ->).
  { destruct (_ <=? _); eexists _, _; (split; [|done]).
    - left. left.
    - apply (shown_app _ _ [_; _]). done. }
  change (Ev GetScreen latest :: Ev Clock now :: since ++ h) with (since2 ++ h).
  apply wp_bind. apply check_enter_spec. intros check [m prefix] Hc Hm. cbn [fst] in Hm. rewrite app_assoc.
  assert (Hq3 : Forall quiet (check ++ since2)) by (by apply list.Forall_app).
  assert (Hno : waited text sendID (check ++ since2) false) by done.
  destruct prefix; cbn [negb]; [|by apply HQ].
  destruct m; cbn [andb].
  - destruct (baseline <? Observation shot').
    + apply HQ. split; [done|]. intros _. exists check, since2, shot'. auto.
    + destruct (_ || _); [by apply HQ|]. apply Hrest; [done|]. by apply shown_app.
  - destruct (_ || _); [by apply HQ|]. apply Hrest; [done|]. by apply shown_app.
Qed.

Lemma enter_loop_spec fuel text sendID ch limit deadline baseline shot last since h Q :
  Forall quiet since -> shown sendID shot since ->
  (forall new r, waited text sendID new r -> Q (new ++ h) r) ->
  wps (enter_loop u fuel i text sendID ch limit deadline baseline shot last) (since ++ h) Q.
Proof.
  intros Hq Hshot HQ. induction fuel as [|fuel IH] in shot, last, since, Hq, Hshot |- *; cbn [enter_loop].
  { apply (enter_round_spec text sendID); [done|done| |done]. intros shot' last' since' Hq' _. by apply HQ. }
  assert (Hrest : forall shot last since', Forall quiet since' -> shown sendID shot since' ->
    wps (enter_loop u fuel i text sendID ch limit deadline baseline shot last) (since' ++ h) Q) by (intros; by apply IH).
  intros sel. wp_cbn. change (?e :: since ++ h) with ((e :: since) ++ h).
  destruct sel as [cs| | |err]; wp_cbn.
  - do 2 apply wp_bind. apply (take_screens_spec _ _ cs); [by constructor|exists ch, limit; left|done|by apply (shown_app _ _ [_])|].
    intros new [[shot' last']|] Hn Hs; rewrite app_assoc; (apply (enter_round_spec text sendID); [|done|done|done]);
      apply list.Forall_app; (split; [done|by constructor]).
  - apply (enter_round_spec text sendID); [by constructor|by apply (shown_app _ _ [_])|done|done].
  - apply (enter_round_spec text sendID); [by constructor|by apply (shown_app _ _ [_])|done|done].
  - apply (enter_round_spec text sendID); [by constructor|done|done|done].
Qed.

Lemma waitForEnter_spec fuel text sendID ch h Q :
  (forall new r, waited text sendID new r -> Q (new ++ h) r) -> wps (waitForEnter u fuel i text sendID ch) h Q.
Proof.
  intros HQ. unfold waitForEnter. intros shot. apply wp_bind.
  apply check_enter_spec. intros check [m prefix] Hc Hm. cbn [fst] in Hm.
  change (?e :: h) with ([e] ++ h). rewrite app_assoc.
  assert (Hq : Forall quiet (check ++ [Ev GetScreen shot])) by (apply list.Forall_app; by split; [|quiet_list]).
  destruct m; cbn [orb negb].
  - apply HQ. split; [done|]. intros _. exists check, [Ev GetScreen shot], shot. split_and!; [done|by apply Hm|left; left].
  - destruct prefix; cbn [negb]; [|by apply HQ]. intros now. wp_cbn. change (?e :: ?l ++ h) with ((e :: l) ++ h).
    apply enter_loop_spec; [by constructor| |done]. left. right. apply elem_of_app. right. left.
Qed.

(** Enter is allowed: by a checked screen, and for /exit by its record. *)
Definition enter_allowed (text sendID : string) (new : list ev) : Prop :=
  exists begun check since shot,
    new = begun ++ check ++ since
    /\ (if bool_decide (in_Kind i = SendKindHandoffExit)
        then exists r, begun = [Ev (Mu (beginExitCR r)) true] else begun = [])
    /\ enter_checked text shot check /\ shown sendID shot since /\ Forall quiet since.

(** The record of /exit is there exactly for that kind. *)
Definition exit_fits (x : option (nat * option Z)) : Prop := is_some x = bool_decide (in_Kind i = SendKindHandoffExit).

Lemma before_enter_spec fuel text p x ch h Q :
  exit_fits x ->
  (forall new r, Forall quiet new -> (r = true -> enter_allowed text (ps_SendID p) new) -> Q (new ++ h) r) ->
  wps (before_enter u fuel i text p x ch) h Q.
Proof.
  intros Hx HQ. unfold before_enter. apply wp_bind. apply waitForEnter_spec. intros new ok [Hn Hok].
  destruct ok; cbn [negb]; [|by apply HQ].
  destruct (Hok eq_refl) as (check & since & shot & -> & Hc & Hs). apply list.Forall_app in Hn as [Hn1 Hn2].
  unfold exit_fits in Hx. destruct x as [[r owner]|].
  - intros b. change (?e :: ?l ++ h) with ((e :: l) ++ h). apply HQ; [by constructor; [|apply list.Forall_app]|].
    intros ->. exists [Ev (Mu (beginExitCR r)) true], check, since, shot. rewrite <- Hx. split_and!; try done. by exists r.
  - apply (HQ (check ++ since)); [by apply list.Forall_app|]. intros _. exists [], check, since, shot. rewrite <- Hx. by split_and!.
Qed.

Lemma shown_app_r sendID shot since old : shown sendID shot since -> shown sendID shot (since ++ old).
Proof.
  intros [H1|(ch & limit & cs & c & H1 & H2)]; [left; by apply elem_of_app; left|].
  right. exists ch, limit, cs, c. split; [by apply elem_of_app; left|done].
Qed.

(** Enter has been pressed. *)
Definition entered (h : list ev) : Prop := Ev WriteCR None ∈ h.

Lemma write_claimed_spec fuel text delay p x ch h Q :
  exit_fits x -> gated h -> text_rule text h ->
  (forall h' r, gated h' -> (r.1 = None -> entered h') -> Q h' r) ->
  wps (write_claimed text delay (before_enter u fuel i text p x ch)) h Q.
Proof.
  intros Hx Hh Htext HQ. unfold write_claimed. intros werr. wp_cbn. set (h1 := Ev (WriteText text) werr :: h).
  assert (Hh1 : gated h1) by (by split). destruct werr as [werr|]; [by apply HQ|].
  assert (Hmid : forall mid, Forall quiet mid -> gated (mid ++ h1)) by (intros; by apply gated_quiet).
  assert (Hgo : forall mid, Forall quiet mid ->
    wps (err ← call CtxErr;
         match err with
         | Some _ => mret (err, BeforeNotCalled)
         | None =>
             err ← closed_now;
             match err with
             | Some _ => mret (err, BeforeNotCalled)
             | None =>
                 allowed ← before_enter u fuel i text p x ch;
                 if negb (allowed : bool) then mret (Some (Sentinel ErrBeforeEnter), BeforeRefused)
                 else
                   err ← call CtxErr;
                   match err with
                   | Some _ => mret (err, BeforeAllowed)
                   | None =>
                       err ← closed_now;
                       match err with
                       | Some _ => mret (err, BeforeAllowed)
                       | None => err ← call WriteCR; mret (err, BeforeAllowed)
                       end
                   end
             end
         end) (mid ++ h1) Q).
  { intros mid Hm. intros [e|]; wp_cbn; [by apply HQ; [apply (Hmid (_ :: mid)); constructor|]|].
    unfold closed_now. intros [|]; wp_cbn; [by apply HQ; [apply (Hmid (_ :: _ :: mid)); repeat constructor|]|].
    apply wp_bind. apply before_enter_spec; [done|]. intros new allowed Hn Hall.
    change (?a :: ?b :: mid ++ h1) with ([a; b] ++ mid ++ h1).
    assert (Hmid2 : Forall quiet (new ++ [Ev CloseCh false; Ev CtxErr None] ++ mid)).
    { apply list.Forall_app. split; [done|]. by repeat constructor. }
    replace (new ++ [Ev CloseCh false; Ev CtxErr None] ++ mid ++ h1)
      with ((new ++ [Ev CloseCh false; Ev CtxErr None] ++ mid) ++ h1) by (by rewrite <- !app_assoc).
    destruct allowed; cbn [negb]; [|by apply HQ; [apply Hmid|]].
    destruct (Hall eq_refl) as (begun & check & since & shot & -> & Hb & Hc & Hs & Hq).
    intros [e|]; wp_cbn; [by apply HQ; [apply (Hmid (_ :: _)); constructor|]|].
    intros [|]; wp_cbn; [by apply HQ; [apply (Hmid (_ :: _ :: _)); repeat constructor|]|].
    intros cr. wp_cbn. apply HQ; [|intros E; cbn in E; subst cr; left].
    split; [|by apply (Hmid (_ :: _ :: _)); repeat constructor].
    exists begun, check, (since ++ [Ev CloseCh false; Ev CtxErr None] ++ mid), text, h, (ps_SendID p), shot.
    split_and!; [by rewrite <- !app_assoc|done|done|by apply shown_app_r|].
    apply list.Forall_app. split; [done|]. by repeat constructor. }
  destruct (0 <? delay); wp_cbn; [|by apply (Hgo [])].
  intros [| |e]; wp_cbn; [by apply (Hgo [_]); quiet_list|..]; (apply HQ; [apply (Hmid [_]); quiet_list|done]).
Qed.

Lemma WriteLine_spec fuel text delay p x ch h Q :
  exit_fits x -> gated h -> text_rule text (Ev BeginSend SendStarted :: Ev CtxErr None :: h) ->
  (forall h' r, gated h' -> (r.1 = None -> entered h') -> Q h' r) ->
  wps (WriteLine text delay (before_enter u fuel i text p x ch)) h Q.
Proof.
  intros Hx Hh Htext HQ. unfold WriteLine.
  destruct (ContainsAny text crlf); [by apply HQ|]. destruct (delay <? 0); [by apply HQ|].
  intros [err|]; wp_cbn; [by apply HQ|]. intros [| |]; wp_cbn; [|by apply HQ..].
  apply wp_bind. apply write_claimed_spec; [done|by repeat split|done|].
  intros h' r Hh' Hr. intros []. apply HQ; [by split|]. intros E. right. by apply Hr.
Qed.

(** ** Updates of the record *)

(** The calls of a successful update. *)
Definition updated (f : ManagedSession -> ManagedSession) (v : ManagedSession) (new : list ev) : Prop :=
  exists before after,
    new = Ev UnlockRecord tt :: (if bool_decide (before = after) then [] else [Ev (SaveSession (f v)) None])
          ++ [Ev (Marshal (f v)) (Ok after); Ev (Marshal v) (Ok before); Ev LoadSession (Ok v); Ev LockRecord tt].

Lemma UpdateSession__spec f h Q :
  (forall new err, Forall quiet new -> Q (new ++ h) (Some err)) ->
  (forall new v, updated f v new -> Q (new ++ h) None) ->
  wps (UpdateSession_ f) h Q.
Proof.
  intros Herr HQ. unfold UpdateSession_, UpdateSession. intros []. intros [v|err]; wp_cbn.
  2:{ intros []. apply (Herr [_; _; _]). quiet_list. }
  intros [before|err]; wp_cbn.
  2:{ intros []. apply (Herr [_; _; _; _]). quiet_list. }
  intros [after|err]; wp_cbn.
  2:{ intros []. apply (Herr [_; _; _; _; _]). quiet_list. }
  case_bool_decide as E; wp_cbn.
  - intros []. apply (HQ [_; _; _; _; _] v). exists before, after. by rewrite bool_decide_eq_true_2.
  - intros [err|] []; wp_cbn; [apply (Herr [_; _; _; _; _; _]); quiet_list|].
    apply (HQ [_; _; _; _; _; _] v). exists before, after. by rewrite bool_decide_eq_false_2.
Qed.

Lemma updated_quiet f v new : updated f v new -> Forall quiet new.
Proof. intros (before & after & ->). case_bool_decide; quiet_list. Qed.

(** The calls that have changed no record. *)
Definition is_save (e : ev) : bool :=
  match e with
  | Ev e x => match e in Eff X return X -> bool with SaveSession _ => fun err => is_none err | _ => fun _ => false end x
  end.
Definition calm (e : ev) : Prop := typed e = false /\ is_save e = false.

Lemma calm_quiet new : Forall calm new -> Forall quiet new.
Proof. apply Forall_impl. by intros e []. Qed.

Lemma blocked_calm reason : emits record_ev calm (blocked u reason i).
Proof.
  unfold blocked, record_event.
  repeat first [exact I | apply emits_call; by split | apply emits_bind; [|intros ?]
    | lazymatch goal with |- emits _ _ (match ?x with _ => _ end) => destruct x end].
Qed.

Lemma blocked_spec reason h Q :
  (forall new err, Forall calm new -> Q (new ++ h) (mkSendResult "" (Some reason) false, err)) ->
  wps (blocked u reason i) h Q.
Proof.
  intros HQ. apply (wp_emits record_ev calm) with (Q := fun _ r => r.1 = mkSendResult "" (Some reason) false); [apply blocked_calm| |].
  - unfold blocked. apply wp_bind. eapply wp_mono; [apply wp_true|]. intros h1 e1 _.
    apply wp_bind. eapply wp_mono; [apply wp_true|]. intros h2 [] _.
    apply wp_bind. eapply wp_mono; [apply wp_true|]. by intros h3 e3 _.
  - intros new [r err] Hn E. cbn in E. subst r. by apply HQ.
Qed.

(** The last update has put the gate back as the values say. *)
Definition gate_restored (ever confirmed : bool) (h rest : list ev) : Prop :=
  exists recent new v, h = recent ++ new ++ rest /\ updated (restore_gate ever confirmed) v new /\ Forall calm recent.

Lemma blockBeforeText_spec p ever confirmed reason h Q :
  (forall new err, Forall quiet new -> (err = None -> gate_restored ever confirmed (new ++ h) h) -> Q (new ++ h) err) ->
  wps (blockBeforeText u i p ever confirmed reason) h Q.
Proof.
  intros HQ. unfold blockBeforeText. apply wp_bind. apply UpdateSession__spec.
  - intros new err Hn. wp_cbn. by apply HQ.
  - intros new v Hu. apply wp_bind. apply blocked_spec. intros recent err Hr. wp_cbn. rewrite app_assoc.
    apply HQ.
    + apply list.Forall_app. split; [by apply calm_quiet|by eapply updated_quiet].
    + intros _. exists recent, new, v. by rewrite app_assoc.
Qed.

(** ** After Enter *)

(** A screen that counts for the confirmation. *)
Definition confirming (crAt : Time) (shot : ScreenSnapshot) : Prop :=
  Observation shot <> 0 /\ After (ChangedAt shot) crAt = true
  /\ (IsInputBlank DefaultPatternSet (Rows shot) (sh_Cells shot) = true
      \/ in_Kind i <> SendKindRemoteControl /\ Processing shot = true).

Definition notified (p : PendingSend) (shot : ScreenSnapshot) (h : list ev) : Prop :=
  exists ch timeout cs c, Ev (SelectConfirm ch timeout) (Notified cs) ∈ h /\ c ∈ cs
    /\ cf_SendID c = ps_SendID p /\ cf_ProcessExited c = false /\ cf_Screen c = shot.

Definition streak_ok (p : PendingSend) (crAt : Time) (k : streak) (h : list ev) : Prop :=
  0 <= consecutive k
  /\ (0 < consecutive k -> exists shot, Observation shot = lastObservation k /\ confirming crAt shot /\ notified p shot h).

(** Two consecutive observations confirm. *)
Definition witnessed (p : PendingSend) (h : list ev) : Prop :=
  exists crAt shot1 shot2,
    wrap_uint64 (Observation shot2 - Observation shot1) = 1
    /\ confirming crAt shot1 /\ notified p shot1 h /\ confirming crAt shot2 /\ notified p shot2 h
    /\ Ev (Mu (fun s => (s, CRWrittenAt (ps_SendID p) s))) crAt ∈ h.

Lemma notified_app p shot new h : notified p shot h -> notified p shot (new ++ h).
Proof. intros (ch & t & cs & c & H1 & H2). exists ch, t, cs, c. split; [by apply elem_of_app; right|done]. Qed.

Lemma streak_ok_app p crAt k new h : streak_ok p crAt k h -> streak_ok p crAt k (new ++ h).
Proof.
  intros [H1 H2]. split; [done|]. intros Hk. destruct (H2 Hk) as (shot & ? & ? & ?). exists shot. split_and!; [done..|].
  by apply notified_app.
Qed.

Lemma observe_screen_spec p crAt shot k h :
  streak_ok p crAt k h -> notified p shot h ->
  Ev (Mu (fun s => (s, CRWrittenAt (ps_SendID p) s))) crAt ∈ h ->
  let k' := observe_screen (in_Kind i) crAt shot k in
  streak_ok p crAt k' h /\ (consecutive k < 2 -> 2 <= consecutive k' -> witnessed p h).
Proof.
  intros [Hk0 Hk] Hn Hcr. unfold observe_screen.
  destruct (Z.eqb_spec (Observation shot) 0) as [E0|E0]; [split; [split; cbn; lia|cbn; lia]|].
  destruct (_ <=? _); [split; [by split|cbn; intros; lia]|].
  destruct (negb (After (ChangedAt shot) crAt) || _) eqn:Ec; [split; [split; cbn; lia|cbn; lia]|].
  assert (Hc : confirming crAt shot).
  { apply orb_false_iff in Ec as [E1 E2]. apply negb_false_iff in E1. split_and!; [done..|].
    destruct (IsInputBlank _ _ _); [by left|right]. cbn [negb andb] in E2.
    apply orb_false_iff in E2 as [E2 E3]. apply bool_decide_eq_false in E2. by apply negb_false_iff in E3. }
  split; [split; cbn [consecutive lastObservation]|cbn [consecutive]].
  - clear -Hk0. destruct (_ && _); lia.
  - intros _. by exists shot.
  - intros Hlt Hge. destruct (_ && (wrap_uint64 _ =? 1)) eqn:Ea; [|lia].
    apply andb_true_iff in Ea as [_ Ea]. apply Z.eqb_eq in Ea.
    destruct (Hk ltac:(lia)) as (shot1 & E1 & Hc1 & Hn1). exists crAt, shot1, shot. by rewrite E1.
Qed.

Definition confirmation_saved (p : PendingSend) (h : list ev) : Prop :=
  exists recent new v now rest,
    h = recent ++ new ++ rest /\ updated (fun v => applySendConfirmation v p now) v new /\ Forall calm recent
    /\ witnessed p rest.

(** What an answer without an error says after Enter. *)
Definition answered (p : PendingSend) (h : list ev) (r : SendResult * option error) : Prop :=
  r.2 = None -> Confirmed r.1 = true /\ Blocked r.1 = None /\ (in_Kind i <> SendKindHandoffExit -> confirmation_saved p h).

Lemma answered_err p h r err : answered p h (r, Some err).
Proof. by unfold answered. Qed.

Lemma record_event_calm e : emits record_ev calm (record_event u e).
Proof. unfold record_event. destruct (has_RecordStructured u); [by apply emits_call|exact I]. Qed.

Lemma confirmSend_spec fuel p h Q :
  in_Kind i <> SendKindHandoffExit -> witnessed p h ->
  (forall new r, Forall quiet new -> answered p (new ++ h) r -> Q (new ++ h) r) ->
  wps (confirmSend u fuel i p) h Q.
Proof.
  intros Hk Hw HQ. unfold confirmSend. rewrite bool_decide_eq_false_2 by done. intros now. apply wp_bind.
  apply UpdateSession__spec.
  - intros new err Hn. wp_cbn. change (?e :: h) with ([e] ++ h). rewrite app_assoc.
    apply HQ; [apply list.Forall_app; by split; [|quiet_list]|apply answered_err].
  - intros new v Hu. wp_cbn. apply wp_bind.
    apply (wp_emits_any record_ev calm); [apply record_event_calm|]. intros recent err Hr. wp_cbn.
    change (?e :: h) with ([e] ++ h). rewrite !app_assoc. apply HQ.
    + apply list.Forall_app. split; [|quiet_list]. apply list.Forall_app.
      split; [by apply calm_quiet|by eapply updated_quiet].
    + intros _. split_and!; [done..|]. intros _. exists recent, new, v, now, ([Ev Now now] ++ h).
      split_and!; [by rewrite <- !app_assoc|done|done|].
      destruct Hw as (crAt & s1 & s2 & ? & ? & ? & ? & ? & ?). exists crAt, s1, s2.
      split_and!; try done; try by apply notified_app. apply elem_of_app. by right.
Qed.

Lemma resolveExit_not_blocked fuel p owner expired h :
  wps (resolveExit u fuel i p owner expired) h (fun _ r => Blocked r.1 = None).
Proof.
  unfold resolveExit. apply wp_bind. eapply wp_mono; [apply wp_true|]. intros h1 [tx err] _.
  destruct err as [err|]; [done|]. destruct (tx_event tx); [|done].
  apply wp_bind. eapply wp_mono; [apply wp_true|]. intros h2 err _.
  apply wp_bind. eapply wp_mono; [apply wp_true|]. by intros h3 [] _.
Qed.

Lemma resolveExit_spec fuel p owner expired h Q :
  (forall new r, Forall quiet new -> Blocked r.1 = None -> Q (new ++ h) r) ->
  wps (resolveExit u fuel i p owner expired) h Q.
Proof.
  intros HQ. apply (wp_emits record_ev quiet) with (Q := fun _ r => Blocked r.1 = None);
    [apply resolveExit_quiet|apply resolveExit_not_blocked|done].
Qed.

Lemma exited_pending_err r h : wps (exited_pending u i r) h (fun _ a => a.2 <> None).
Proof.
  unfold exited_pending. intros [current|err]; wp_cbn; [|done].
  destruct (_ && _); [done|]. case_bool_decide; [done|].
  apply wp_bind. eapply wp_mono; [apply wp_true|]. intros h1 [err|] _; [done|].
  apply wp_bind. eapply wp_mono; [apply wp_true|]. by intros h2 [] _.
Qed.

(** The confirmations of a notification that has been received. *)
Lemma take_confirmations_spec fuel p x crAt cs0 cs k h Q :
  exit_fits x -> (exists ch timeout, Ev (SelectConfirm ch timeout) (Notified cs0) ∈ h) -> (forall c, c ∈ cs -> c ∈ cs0) ->
  Ev (Mu (fun s => (s, CRWrittenAt (ps_SendID p) s))) crAt ∈ h ->
  streak_ok p crAt k h -> consecutive k < 2 ->
  (forall new r, Forall quiet new ->
    (match r with inl a => answered p (new ++ h) a | inr k => streak_ok p crAt k (new ++ h) /\ consecutive k < 2 end) -> Q (new ++ h) r) ->
  wps (take_confirmations u fuel i p x crAt cs k) h Q.
Proof.
  intros Hx Hsel Hcs Hcr Hk Hlt HQ.
  induction cs as [|c cs IH] in k, Hcs, Hk, Hlt, h, Hsel, Hcr, HQ |- *; cbn [take_confirmations]; [by apply (HQ [])|].
  assert (Hcs' : forall c', c' ∈ cs -> c' ∈ cs0) by (intros c' Hc'; apply Hcs; by right).
  destruct (bool_decide (cf_SendID c = ps_SendID p)) eqn:Eid; cbn [negb]; [|by apply IH]. apply bool_decide_eq_true in Eid.
  destruct (cf_ProcessExited c) eqn:Eex.
  { case_bool_decide as Ek.
    - apply wp_bind. apply resolveExit_spec. intros new [resolved err] Hn Hb. cbn [fst] in Hb.
      destruct (is_some err || Confirmed resolved) eqn:Ea.
      + apply HQ; [done|]. intros E. cbn in E. subst err. cbn in Ea. by split_and!.
      + destruct Hsel as (ch & timeout & Hsel). apply IH; [|done| | |done|].
        * exists ch, timeout. apply elem_of_app. by right.
        * apply elem_of_app. by right.
        * by apply streak_ok_app.
        * intros new' r Hn' Hr. rewrite app_assoc in Hr |- *. apply HQ; [by apply list.Forall_app|done].
    - apply wp_bind.
      apply (wp_emits record_ev quiet) with (Q := fun _ a => a.2 <> None); [apply exited_pending_quiet|apply exited_pending_err|].
      intros new a Hn Ha. apply HQ; [done|]. by intros E. }
  case_bool_decide as Ek; [by apply IH|].
  destruct (observe_screen_spec p crAt (cf_Screen c) k h Hk) as [Hk' Hw]; [|done|].
  { destruct Hsel as (ch & timeout & Hsel). exists ch, timeout, cs0, c. split_and!; try done. apply Hcs. by left. }
  destruct (Z.leb_spec 2 (consecutive (observe_screen (in_Kind i) crAt (cf_Screen c) k))) as [Hge|Hlt'].
  - apply wp_bind. apply confirmSend_spec; [done|by apply Hw|]. intros new r Hn Hr. by apply HQ.
  - by apply IH.
Qed.

Lemma errors_Join_cause cause errs : errors_Join (Some cause :: errs) <> None.
Proof. unfold errors_Join. by cbn. Qed.

Lemma give_up_waiting_spec fuel p x cause h Q :
  exit_fits x -> (forall new r, Forall quiet new -> answered p (new ++ h) r -> Q (new ++ h) r) ->
  wps (give_up_waiting u fuel i p x cause) h Q.
Proof.
  intros Hx HQ.
  apply (wp_emits record_ev quiet) with (Q := answered p); [apply give_up_waiting_quiet| |done].
  unfold give_up_waiting, exit_fits in *. destruct x as [[r owner]|].
  - symmetry in Hx. apply bool_decide_eq_true in Hx. unfold expireExit. apply wp_bind.
    apply resolveExit_spec. intros new [result err] _ Hb. cbn [fst] in Hb.
    destruct (Confirmed result) eqn:Ec; intros E; [by split_and!|]. by apply errors_Join_cause in E.
  - apply wp_bind. eapply wp_mono; [apply wp_true|]. intros h1 e1 _.
    apply wp_bind. eapply wp_mono; [apply wp_true|]. intros h2 e2 _. intros E. by apply errors_Join_cause in E.
Qed.

Lemma confirm_loop_spec fuel p x ch timeout crAt k h Q :
  exit_fits x -> Ev (Mu (fun s => (s, CRWrittenAt (ps_SendID p) s))) crAt ∈ h ->
  streak_ok p crAt k h -> consecutive k < 2 ->
  (forall new r, Forall quiet new -> answered p (new ++ h) r -> Q (new ++ h) r) ->
  wps (confirm_loop u fuel i p x ch timeout crAt k) h Q.
Proof.
  intros Hx Hcr Hk Hlt HQ. induction fuel as [|fuel IH] in k, h, Hcr, Hk, Hlt, HQ |- *; cbn [confirm_loop].
  { by apply give_up_waiting_spec. }
  intros [cs| |err]; wp_cbn; change (?e :: h) with ([e] ++ h).
  - apply wp_bind. apply (take_confirmations_spec _ _ _ _ cs); try done.
    + exists ch, timeout. left.
    + by right.
    + by apply (streak_ok_app _ _ _ [_]).
    + intros new [a|k'] Hn Hr; rewrite app_assoc in Hr |- *.
      * apply HQ; [|done]. apply list.Forall_app. split; [done|quiet_list].
      * destruct Hr as [Hr1 Hr2]. apply IH; [|done|done|].
        -- apply elem_of_app. by right.
        -- intros new' r Hn' Ha. rewrite app_assoc in Ha |- *. apply HQ; [|done].
           apply list.Forall_app. split; [done|]. apply list.Forall_app. split; [done|quiet_list].
  - apply give_up_waiting_spec; [done|]. intros new r Hn Ha. rewrite app_assoc in Ha |- *. apply HQ; [|done].
    apply list.Forall_app. split; [done|quiet_list].
  - apply give_up_waiting_spec; [done|]. intros new r Hn Ha. rewrite app_assoc in Ha |- *. apply HQ; [|done].
    apply list.Forall_app. split; [done|quiet_list].
Qed.

Lemma line_written_spec fuel p x ch h Q :
  exit_fits x -> (forall new r, Forall quiet new -> answered p (new ++ h) r -> Q (new ++ h) r) ->
  wps (line_written u fuel i p x ch) h Q.
Proof.
  intros Hx HQ.
  apply (wp_emits record_ev quiet) with (Q := answered p); [apply line_written_quiet| |done].
  unfold line_written. apply wp_bind. eapply wp_mono; [apply wp_true|]. intros h1 [] _ now [] crAt. wp_cbn.
  assert (Hloop : forall h2, Ev (Mu (fun s => (s, CRWrittenAt (ps_SendID p) s))) crAt ∈ h2 ->
    wps (confirm_loop u fuel i p x ch (confirm_timeout u i) crAt (mkStreak 0 0)) h2 (answered p)).
  { intros h2 Hcr. apply confirm_loop_spec; [done..|split; cbn; lia|done|]. auto. }
  destruct x as [[r owner]|]; [|apply Hloop; left].
  unfold exit_fits in Hx. symmetry in Hx. apply bool_decide_eq_true in Hx. do 2 apply wp_bind. apply resolveExit_spec.
  intros new [resolved err] _ Hb. cbn [fst] in Hb. wp_cbn.
  destruct (is_some err || Confirmed resolved) eqn:Ea; wp_cbn.
  - intros E. cbn in E. subst err. cbn in Ea. by split_and!.
  - apply Hloop. apply elem_of_app. right. left.
Qed.

(** ** From the gate to the answer *)

(** What an answer without an error says once the send has been issued with the values
    [ever] and [confirmed] of the gate. *)
Definition settled_from (ever confirmed : bool) (p : PendingSend) (h0 h : list ev) (r : SendResult * option error) : Prop :=
  r.2 = None ->
  (exists reason r0, Blocked r.1 = Some reason /\ Forall quiet h /\ gate_restored ever confirmed h (r0 ++ h0))
  \/ (Confirmed r.1 = true /\ Blocked r.1 = None /\ entered h /\ (in_Kind i <> SendKindHandoffExit -> confirmation_saved p h)).

Lemma settled_err ever confirmed p h0 h r err : settled_from ever confirmed p h0 h (r, Some err).
Proof. by unfold settled_from. Qed.

(** The send is blocked after it was issued and before the text. *)
Lemma block_issued ever confirmed p reason r new h0 Q :
  Blocked r = Some reason -> Forall quiet (new ++ h0) -> gated (new ++ h0) ->
  (forall h' a, gated h' -> settled_from ever confirmed p h0 h' a -> Q h' a) ->
  wps (e ← blockBeforeText u i p ever confirmed reason; mret (r, e)) (new ++ h0) Q.
Proof.
  intros Hr Hq Hg HQ. apply wp_bind. apply blockBeforeText_spec. intros new' err Hn' He. wp_cbn.
  apply HQ; [by apply gated_quiet|]. intros E. cbn in E. left. exists reason, new. split_and!; [done| |by apply He].
  by apply list.Forall_app.
Qed.

Lemma line_failed_err fuel p x text ever confirmed err b h :
  wps (line_failed u fuel i p x text ever confirmed err b) h (fun _ r => r.2 <> None).
Proof.
  unfold line_failed. apply wp_bind. eapply wp_mono; [apply wp_true|]. intros h1 [] _.
  apply wp_bind. eapply wp_mono; [apply wp_true|]. intros h2 logErr _.
  destruct b; cbn zeta; (apply wp_bind; eapply wp_mono; [apply wp_true|]; intros h3 e _; apply errors_Join_cause).
Qed.

Lemma issued_spec fuel hash text ever confirmed p x ch second h2 h3 Q :
  exit_fits x -> Forall quiet (h2 ++ h3) -> pending_saved second p h2 -> gate_passed text second h3 ->
  (forall h' r, gated h' -> settled_from ever confirmed p (h2 ++ h3) h' r -> Q h' r) ->
  wps (issued u fuel hash i text ever confirmed p x ch) (h2 ++ h3) Q.
Proof.
  intros Hx Hq Hp Hgate HQ. unfold issued.
  set (h := h2 ++ h3) in *.
  assert (Hg : forall new, Forall quiet new -> gated (new ++ h)).
  { intros new Hn. rewrite <- (app_nil_r (new ++ h)). apply gated_quiet; [|done]. by apply list.Forall_app. }
  apply wp_bind. apply (wp_emits record_ev quiet) with (Q := fun h' err => err = None ->
    has_RecordStructured u = true -> Ev (RecordStructured (sendEvent EventKindSendIssued i p "")) None ∈ h'
      /\ h' = [Ev (RecordStructured (sendEvent EventKindSendIssued i p "")) None] ++ h); [apply record_event_quiet| |].
  { unfold record_event. destruct (has_RecordStructured u); [|done]. intros err. wp_cbn. intros -> _. split; [left|done]. }
  intros h1 [err|] Hh1 Hrec.
  { apply wp_bind. apply blockBeforeText_spec. intros new e Hn _. wp_cbn. rewrite app_assoc.
    apply HQ; [by apply Hg; apply list.Forall_app|]. intros E. by apply errors_Join_cause in E. }
  assert (Hrec' : issue_recorded p h1).
  { intros Hr. destruct (Hrec eq_refl Hr) as [_ E]. apply app_inv_tail in E as ->. left. }
  clear Hrec. apply wp_bind.
  apply (wp_emits_any record_ev quiet); [solve_quiet|]. intros hh [] Hhh. rewrite app_assoc.
  assert (Hhq : Forall quiet (hh ++ h1)) by (by apply list.Forall_app).
  apply wp_bind. apply stopped_spec.
  { intros new Hn. rewrite app_assoc. apply block_issued with (reason := SendBlockedStop); [done|quiet_app|apply Hg; quiet_app|done]. }
  intros stops Hs. pose proof (unstopped_quiet _ Hs) as Hsq.
  assert (Hsq' : Forall quiet (stops ++ hh ++ h1)) by (by apply list.Forall_app).
  assert (Hready : forall ready,
    (if operator then exists shot, ready = [Ev GetScreen shot] /\ operatorScreenReadyForWrite shot = true else ready = []) ->
    wps ('(err, before) ← WriteLine text SupervisorSendEnterDelay (before_enter u fuel i text p x ch);
         match err with
         | Some err => line_failed u fuel i p x text ever confirmed err before
         | None => line_written u fuel i p x ch
         end) (ready ++ stops ++ (hh ++ h1) ++ h) Q).
  { intros ready Hready.
    assert (Hrq : Forall quiet (ready ++ stops ++ (hh ++ h1) ++ h)).
    { apply list.Forall_app. split; [|apply list.Forall_app; split; [done|by apply list.Forall_app]].
      destruct operator; [destruct Hready as (shot & -> & _)|subst ready]; quiet_list. }
    apply wp_bind. apply WriteLine_spec; [done| |split|].
    - rewrite <- (app_nil_r (_ ++ _)). by apply gated_quiet.
    - by repeat constructor.
    - exists ready, stops, (hh ++ h1), h2, h3, second, p. split_and!; try done.
      intros Hr. apply elem_of_app. right. by apply Hrec'.
    - intros h' [err before] Hg' He. destruct err as [err|].
      + apply (wp_emits record_ev quiet) with (Q := fun _ r => r.2 <> None); [apply line_failed_quiet|apply line_failed_err|].
        intros new r Hn Hr. apply HQ; [by apply gated_quiet|]. by intros E.
      + apply line_written_spec; [done|]. intros new r Hn Ha. apply HQ; [by apply gated_quiet|]. intros E. right.
        destruct (Ha E) as (H1 & H2 & H3). split_and!; [done..| |done]. apply elem_of_app. right. by apply He. }
  destruct operator eqn:Eop; cbn [operator] in *; fold operator; rewrite ?Eop.
  - intros shot. wp_cbn. destruct (operatorScreenReadyForWrite shot) eqn:Esh; cbn [negb].
    + apply (Hready [_]). by exists shot.
    + rewrite app_assoc. change (?e :: ?l ++ h) with ((e :: l) ++ h).
      apply block_issued with (reason := SendBlockedState); [done|quiet_app|apply Hg; quiet_app|done].
  - wp_cbn. by apply (Hready []).
Qed.

Ltac solve_sublist := repeat first [apply sublist_skip | apply sublist_cons | apply sublist_nil].

Lemma calm_app new h : Forall calm new -> Forall calm h -> Forall calm (new ++ h).
Proof. intros. by apply list.Forall_app. Qed.

Ltac calm_list := repeat (constructor; [by split|]); try constructor.

Lemma issue_spec second pty v h Q :
  (forall err, Q h (v, None, Some err)) ->
  (forall new seq p x, Forall calm new -> exit_fits x -> ps_Kind p = in_Kind i -> sg_Pending (s_SendGate v) = None ->
    SendKindAllowed (s_State v) (session_state (sh_State second)) (in_Kind i) [in_Origin i] = true ->
    Q (new ++ h) (issue_session i seq p v, Some (p, x), None)) ->
  wps (issue i second pty v) h Q.
Proof.
  intros Herr HQ. unfold issue. destruct (SendKindAllowed _ _ _ _); cbn [negb]; [|apply Herr].
  destruct (sg_Pending (s_SendGate v)); cbn [is_some]; [apply Herr|]. intros now. wp_cbn. unfold exit_fits in HQ.
  case_bool_decide; wp_cbn; [intros r; apply (HQ [_; _])|apply (HQ [_])]; try done; calm_list.
Qed.

(** The update that issues the send either fails and has changed no record, or enters it. *)
Lemma issue_update_spec second pty h Q :
  (forall new err r, Forall calm new -> Q (new ++ h) (Some err, r)) ->
  (forall new p x, Forall quiet new -> pending_saved second p new -> exit_fits x -> Q (new ++ h) (None, Some (Some (p, x)))) ->
  wps (UpdateSession (issue i second pty)) h Q.
Proof.
  intros Herr HQ. unfold UpdateSession. intros []. apply wp_bind. intros [v|err]; wp_cbn.
  2:{ intros []. apply (Herr [_; _; _]). calm_list. }
  intros [before|err]; wp_cbn.
  2:{ intros []. apply (Herr [_; _; _; _]). calm_list. }
  apply wp_bind. apply issue_spec.
  { intros err []. apply (Herr [_; _; _; _]). calm_list. }
  intros mid seq p x Hm Hx Hkind Hnone Hallow.
  set (v' := issue_session i seq p v).
  set (base := [Ev (Marshal v) (Ok before); Ev LoadSession (Ok v); Ev LockRecord tt]).
  change (mid ++ _ :: _ :: _ :: h) with (mid ++ base ++ h).
  assert (Hsplit : forall l : list ev, l ++ mid ++ base ++ h = (l ++ mid ++ base) ++ h) by (intros; by rewrite <- !app_assoc).
  assert (Hc : forall l, Forall calm l -> Forall calm (l ++ mid ++ base)).
  { intros l Hl. repeat apply calm_app; [done|done|calm_list]. }
  assert (Hpend : forall l after, Forall quiet l ->
    ((if bool_decide (before = after) then [] else [Ev (SaveSession v') None]) ++ [Ev (Marshal v') (Ok after)]) `sublist_of` l ->
    Q ((l ++ mid ++ base) ++ h) (None, Some (Some (p, x)))).
  { intros l after Hl Hsub. apply HQ; [| |done].
    - apply list.Forall_app. split; [done|]. apply list.Forall_app. split; [by apply calm_quiet|quiet_list].
    - exists v, v', before, after. split_and!; try done.
      change ([?a; ?b; ?c; ?d]) with ([a] ++ [b; c; d]). rewrite app_assoc. apply sublist_app; [done|].
      by apply sublist_inserts_l. }
  intros [after|err]; wp_cbn.
  2:{ intros []. change (?a :: ?b :: mid ++ ?l) with ([a; b] ++ mid ++ l). rewrite Hsplit. apply Herr, Hc. calm_list. }
  case_bool_decide as E; wp_cbn.
  - intros []. change (?a :: ?b :: mid ++ ?l) with ([a; b] ++ mid ++ l). rewrite Hsplit. apply (Hpend _ after); [quiet_list|].
    rewrite bool_decide_eq_true_2 by done. cbn [app]. solve_sublist.
  - intros [err|] []; wp_cbn; change (?a :: ?b :: ?c :: mid ++ ?l) with ([a; b; c] ++ mid ++ l); rewrite Hsplit.
    + apply Herr, Hc. calm_list.
    + apply (Hpend _ after); [quiet_list|]. rewrite bool_decide_eq_false_2 by done. cbn [app]. solve_sublist.
Qed.

(** ** The whole send *)

(** What an answer without an error says: the send was blocked, nothing was typed and the
    gate is as it was first read; or Enter was pressed and the send is confirmed. *)
Definition outcome (h : list ev) (r : SendResult * option error) : Prop :=
  r.2 = None ->
  (exists reason, Blocked r.1 = Some reason /\ Forall quiet h
    /\ (Forall calm h
        \/ exists s rest l, gate_restored (sg_EverSent (s_SendGate s)) (sg_LastSendConfirmed (s_SendGate s)) h
              (rest ++ [Ev LoadSession (Ok s); Ev (TryLock l) true; Ev (Mu sessionLock) l])))
  \/ (Confirmed r.1 = true /\ Blocked r.1 = None /\ entered h
      /\ (in_Kind i <> SendKindHandoffExit -> exists p, confirmation_saved p h)).

Lemma gate_restored_calm ever confirmed new h rest :
  Forall calm new -> gate_restored ever confirmed h rest -> gate_restored ever confirmed (new ++ h) rest.
Proof.
  intros Hn (recent & upd & v & -> & Hu & Hr). exists (new ++ recent), upd, v. split_and!; [by rewrite app_assoc|done|].
  by apply calm_app.
Qed.

(** The releases at the end change neither. *)
Lemma settled_outcome (s : ManagedSession) l p rest new h r :
  Forall calm new ->
  settled_from (sg_EverSent (s_SendGate s)) (sg_LastSendConfirmed (s_SendGate s)) p
    (rest ++ [Ev LoadSession (Ok s); Ev (TryLock l) true; Ev (Mu sessionLock) l]) h r ->
  outcome (new ++ h) r.
Proof.
  intros Hn Hs E. destruct (Hs E) as [(reason & r0 & H1 & H2 & H3)|(H1 & H2 & H3 & H4)].
  - left. exists reason. split_and!; [done|apply list.Forall_app; split; [by apply calm_quiet|done]|right].
    exists s, (r0 ++ rest), l. rewrite <- app_assoc. by apply gate_restored_calm.
  - right. split_and!; [done..|apply elem_of_app; by right|]. intros Hk.
    destruct (H4 Hk) as (recent & upd & v & now & rest' & -> & Hu & Hr & Hw).
    exists p, (new ++ recent), upd, v, now, rest'. split_and!; [by rewrite app_assoc|done| |done]. by apply calm_app.
Qed.

Lemma calm_outcome new h reason err :
  Forall calm new -> Forall calm h -> outcome (new ++ h) (mkSendResult "" (Some reason) false, err).
Proof.
  intros Hn Hh _. left. exists reason. split_and!; [done| |left; by apply calm_app].
  apply calm_quiet. by apply calm_app.
Qed.

Lemma gated_calm h : Forall calm h -> gated h.
Proof. intros Hh. rewrite <- (app_nil_r h). apply gated_quiet; [by apply calm_quiet|done]. Qed.

(** A send that is blocked before it is issued. *)
Lemma blocked_early reason h Q :
  Forall calm h -> (forall h' r, gated h' -> Forall calm h' -> r.1 = mkSendResult "" (Some reason) false -> Q h' r) ->
  wps (blocked u reason i) h Q.
Proof.
  intros Hh HQ. apply blocked_spec. intros new err Hn.
  assert (Forall calm (new ++ h)) by (by apply calm_app). apply HQ; [by apply gated_calm|done..].
Qed.

Lemma on_channel_spec fuel hash s text second pty ch rest l Q :
  let h := rest ++ [Ev LoadSession (Ok s); Ev (TryLock l) true; Ev (Mu sessionLock) l] in
  Forall calm h -> gate_passed text second h ->
  (forall h' r, gated h' -> (forall new, Forall calm new -> outcome (new ++ h') r) -> Q h' r) ->
  wps (on_channel u fuel hash i s text second pty ch) h Q.
Proof.
  intros h Hh Hgate HQ. unfold on_channel. apply wp_bind.
  assert (Hrel : forall (x : option (nat * option Z)) r h', gated h' -> (forall new, Forall calm new -> outcome (new ++ h') r) ->
    wps (mu (releaseConfirmation ch);; match x with Some (r, _) => mu (collectExit r) | None => mret tt end;; mret r) h' Q).
  { intros x r h' Hg Ho. intros []. wp_cbn. destruct x as [[rec owner]|]; wp_cbn; [intros []|].
    - apply HQ; [by repeat split|]. intros new Hn. change (?a :: ?b :: h') with ([a; b] ++ h'). rewrite app_assoc.
      apply Ho. apply calm_app; [done|calm_list].
    - apply HQ; [by repeat split|]. intros new Hn. change (?a :: h') with ([a] ++ h'). rewrite app_assoc.
      apply Ho. apply calm_app; [done|calm_list]. }
  apply issue_update_spec.
  - intros new err r Hn.
    assert (Hc : Forall calm (new ++ h)) by (by apply calm_app).
    destruct (match r with Some (Some (p, x)) => (Some p, x) | _ => (None, None) end) as [p x].
    apply wp_bind. destruct (errors_Is err errSendStateChanged); [|destruct (errors_Is err errSendPendingAppeared)].
    1,2: apply blocked_early; [done|]; intros h' [res e] Hg Hc' E; cbn in E; subst res; apply Hrel; [done|];
      intros new' Hn'; by apply calm_outcome.
    wp_cbn. apply Hrel; [by apply gated_calm|]. by intros new' Hn' E.
  - intros new p x Hn Hp Hx. apply wp_bind.
    apply (issued_spec _ _ _ _ _ _ _ _ second); [done| |done|done|].
    + apply list.Forall_app. split; [done|by apply calm_quiet].
    + intros h' r Hg Hs. apply Hrel; [done|]. intros new' Hn'. unfold h in Hs. rewrite app_assoc in Hs.
      by eapply settled_outcome.
Qed.

(** A step that leaves the history calm. *)
Lemma wp_calm {A : Type} (p : M A) h Q :
  emits record_ev calm p -> Forall calm h -> (forall new a, Forall calm (new ++ h) -> Q (new ++ h) a) -> wps p h Q.
Proof. intros Hp Hh HQ. apply (wp_emits_any record_ev calm); [done|]. intros new a Hn. apply HQ. by apply calm_app. Qed.

Lemma stopped_calm h Q :
  Forall calm h ->
  (forall new, Forall calm (new ++ h) -> Q (new ++ h) true) -> (forall stops, Forall calm (stops ++ h) -> Q (stops ++ h) false) ->
  wps (stopped u (in_SessionID i)) h Q.
Proof.
  intros Hh Ht Hf. apply (wp_calm _ _ _); [|done|intros new [|]; auto].
  unfold stopped. destruct (_ || _); [exact I|]. intros [|]; (split; [by split|]); [exact I|]. intros [|]; (split; [by split|]); [exact I|].
  intros a. split; [by split|]. cbn. destruct (marker_stops a); [exact I|]. intros b. by split.
Qed.

Lemma execute_locked_spec fuel hash l Q :
  (forall h' r, gated h' -> (forall new, Forall calm new -> outcome (new ++ h') r) -> Q h' r) ->
  wps (execute_locked u fuel hash i) [Ev (TryLock l) true; Ev (Mu sessionLock) l] Q.
Proof.
  intros HQ. unfold execute_locked.
  assert (Hblock : forall reason h, Forall calm h -> wps (blocked u reason i) h Q).
  { intros reason h Hh. apply blocked_early; [done|]. intros h' [res e] Hg Hc E. cbn in E. subst res.
    apply HQ; [done|]. intros new Hn. by apply calm_outcome. }
  intros [s|err]; wp_cbn; [|by apply HQ; [repeat split|]].
  destruct (message_of u i s) as [text fixed] eqn:Emsg.
  intros shot. wp_cbn. set (base := [Ev LoadSession (Ok s); Ev (TryLock l) true; Ev (Mu sessionLock) l]).
  change (?e :: ?a :: ?b :: ?c :: []) with ([e] ++ base).
  apply wp_bind.
  apply (wp_emits record_ev calm) with (Q := fun _ fresh => fresh = true ->
    sg_UnconfirmedDiscarded (s_SendGate s) = true -> exists now, fresh_after s shot now = true).
  { destruct (sg_UnconfirmedDiscarded (s_SendGate s)); cbn [negb]; [|exact I]. intros now. by repeat split. }
  { destruct (sg_UnconfirmedDiscarded (s_SendGate s)); cbn [negb]; [|done]. intros now. wp_cbn. intros Hf _. by exists now. }
  intros n1 fresh Hn1 Hfresh.
  assert (Hc1 : Forall calm (n1 ++ [Ev GetScreen shot] ++ base)) by (repeat apply calm_app; [done|calm_list|calm_list]).
  apply wp_bind. apply stopped_calm; [done|intros n2 Hc2|intros n2 Hc2].
  { unfold CheckSendGate. destruct (_ && _); [by apply Hblock|]. by apply Hblock. }
  destruct (CheckSendGate _ _ _ _ _ _ _) as [reason|] eqn:Egate; [by apply Hblock|].
  destruct (operator_ready i shot) eqn:Eop1; cbn [negb]; [|by apply Hblock].
  intros second. wp_cbn. apply wp_bind.
  change (Ev GetScreen second :: n2 ++ ?h) with ([Ev GetScreen second] ++ n2 ++ h).
  apply stopped_calm; [by apply calm_app; [calm_list|]|intros n3 Hc3; by apply Hblock|intros n3 Hc3].
  destruct (_ || _ || _) eqn:Esecond; [by apply Hblock|].
  apply orb_false_iff in Esecond as [Esecond Eop2]. apply orb_false_iff in Esecond as [Eallow Eready].
  apply negb_false_iff in Eop2, Eallow, Eready.
  apply wp_bind. apply wp_calm; [destruct (has_PTYs u); [by apply emits_call|exact I]|done|].
  intros n4 [pty|] Hc4; [|by apply Hblock]. intros ch. wp_cbn.
  change (Ev (Mu resetConfirmation) ch :: ?h) with ([Ev (Mu resetConfirmation) ch] ++ h).
  set (rest := [Ev (Mu resetConfirmation) ch] ++ n4 ++ n3 ++ [Ev GetScreen second] ++ n2 ++ n1 ++ [Ev GetScreen shot]).
  lazymatch goal with
  | |- wp _ _ ?h _ => replace h with (rest ++ base) by (unfold rest; by rewrite <- !app_assoc)
  end.
  apply on_channel_spec; [unfold rest|exists s, shot, fresh|done].
  - rewrite <- !app_assoc. apply calm_app; [calm_list|done].
  - rewrite Emsg. split_and!; try done.
    unfold rest. rewrite <- !app_assoc. do 3 apply sublist_inserts_l. cbn [app]. apply sublist_skip.
    do 2 apply sublist_inserts_l. apply sublist_skip, sublist_skip. apply sublist_nil_l.
Qed.

Lemma Execute_spec fuel hash : wps (Execute u fuel hash i) [] (fun h r => gated h /\ outcome h r).
Proof.
  unfold Execute. destruct (_ || _ || _); [by split|]. intros l [|]; wp_cbn.
  - apply wp_bind. apply execute_locked_spec. intros h r Hg Ho. intros []. split; [by split|].
    apply (Ho [_]). calm_list.
  - apply blocked_early; [calm_list|]. intros h' [res e] Hg Hc E. cbn in E. subst res. split; [done|].
    by apply (calm_outcome []).
Qed.

(** ** Theorems *)

(** C1. Every keystroke is earned.  In every run, whatever the other goroutines do in
    between, a text is typed at most once and only behind the open gate: the gate was
    found open on one reading of the screen and the screen ready on a second, the send
    was then entered into a record that had none pending, under the lock of the record,
    and its issue was recorded, and after that nothing stopped the session.  Enter is
    pressed only after the text, on a screen seen since then that holds the text and is
    safe, in a context that lives, with nothing stopping the session and its record not
    stopped; for /exit, only with its own record marked. *)
Theorem sends_are_gated (fuel : nat) (hash : option string) :
  wps (Execute u fuel hash i) [] (fun h _ => hist_all send_rule h).
Proof. eapply wp_mono; [apply Execute_spec|]. by intros h r []. Qed.

End Rules.

(** ** The operator's text *)

Section Operator.
Context `{UnicodeTables} (u : SendInputUseCase) (i : SendInput).

Lemma send_rule_older e h old : Forall quiet old -> send_rule u i e h -> send_rule u i e (h ++ old).
Proof.
  intros Ho. destruct e as [X e x]; destruct e; try done; cbn.
  - intros (Hq & ready & stops & h1 & h2 & h3 & second & p & -> & Hr & Hs & H1 & H2 & H3).
    split; [by apply list.Forall_app|]. exists ready, stops, h1, h2, (h3 ++ old), second, p.
    split_and!; try done; [cbn; by rewrite <- !app_assoc|].
    destruct H3 as (s & shot & fresh & Hsub & ?). exists s, shot, fresh. split; [by apply sublist_inserts_r|done].
  - intros (begun & check & since & text & before & sendID & shot & -> & ?).
    exists begun, check, since, text, (before ++ old), sendID, shot. split; [cbn; by rewrite <- !app_assoc|done].
Qed.

Lemma gated_older h old : Forall quiet old -> hist_all (send_rule u i) h -> hist_all (send_rule u i) (h ++ old).
Proof.
  intros Ho. induction h as [|e h IH]; cbn; [|intros [He Hh]; split; [by apply send_rule_older|auto]].
  intros _. rewrite <- (app_nil_r old). by apply gated_quiet.
Qed.
End Operator.

Lemma hist_all_and {event : Type} (P Q : event -> list event -> Prop) h :
  hist_all P h -> hist_all Q h -> hist_all (fun e h => P e h /\ Q e h) h.
Proof. induction h as [|e h IH]; cbn; [done|]. intros [? ?] [? ?]. auto. Qed.

(** A history that ends in the old one, of which nothing is typed, types after it. *)
Lemma typed_after old new :
  Forall quiet old -> hist_all (fun e h => typed e = true -> old `suffix_of` h) (new ++ old).
Proof.
  intros Ho. induction new as [|e new IH]; cbn.
  - assert (forall l, Forall quiet l -> hist_all (fun e h => typed e = true -> old `suffix_of` h) l) as H; [|by apply H].
    clear. induction l as [|e l IH]; cbn; [done|]. intros [He Hl]%list.Forall_cons. split; [congruence|auto].
  - split; [|done]. intros _. by exists new.
Qed.

(** What an operator may type.  Every keystroke of an operator's text is earned like
    any other, and besides: the caller is not supervised, the text is not empty and
    classified as free of forbidden vocabulary, the session exists, and the text did not
    follow the last one too early. *)
Theorem operator_text_gated `{UnicodeTables} (u : SendInputUseCase) (o : SendOperatorInputUseCase) (fuel : nat)
    (id : string) (text : OperatorText) (supervised : bool) :
  wps (Operator_Execute u fuel o id text supervised) [] (fun h _ =>
    hist_all (fun e before =>
      send_rule u (mkSendInput id SendKindOperatorInput text SendOriginNormal 0) e before
      /\ (typed e = true ->
          supervised = false /\ OperatorText_Len text <> 0 /\ Classify (PTYText text) = Some []
          /\ exists s now, s_SessionID s = id
              /\ [Ev (MuLast (rate_limited now)) false; Ev Now now; Ev LoadSession (Ok s)] `suffix_of` before)) h).
Proof.
  set (i := mkSendInput id SendKindOperatorInput text SendOriginNormal 0).
  assert (Hquiet : forall R h, (forall e b, typed e = false -> R e b) -> Forall quiet h -> hist_all R h).
  { intros R h HR. induction h as [|e h IH]; cbn; [done|]. intros [He Hh]%list.Forall_cons. auto. }
  assert (Hrule : forall e b P, typed e = false -> send_rule u i e b /\ (typed e = true -> P)).
  { intros e b P He. split; [|congruence]. destruct e as [X e x]. by destruct e. }
  unfold Operator_Execute. destruct (Z.eqb_spec (OperatorText_Len text) 0) as [El|El]; [done|].
  assert (Hrefuse : forall reason h R, (forall e b, typed e = false -> R e b) -> Forall quiet h ->
    wps (refuse o reason) h (fun h' _ => hist_all R h')).
  { intros reason h R HR Hh. unfold refuse.
    apply (wp_emits_any record_ev quiet); [destruct (so_has_RecordStructured o); solve_quiet|].
    intros new [? ?] Hn. apply Hquiet; [done|]. by apply list.Forall_app. }
  destruct supervised; [by apply Hrefuse; auto|]. destruct (_ || _); [done|].
  intros [s|err]; cbn [wp prog_bind mbind prog_mbind mret prog_mret call].
  2:{ destruct (errors_Is err _); (apply Hquiet; [auto|repeat constructor]). }
  destruct (bool_decide_reflect (s_SessionID s = id)) as [Eid|Eid]; cbn [negb].
  2:{ apply Hquiet; [auto|repeat constructor]. }
  destruct (Classify (PTYText text)) as [[|c cs]|] eqn:Ecl; [|apply Hrefuse; [auto|repeat constructor]..].
  intros now early. cbn [wp prog_bind mbind prog_mbind mret prog_mret call].
  set (old := [Ev (MuLast (rate_limited now)) early; Ev Now now; Ev LoadSession (Ok s)]).
  assert (Hold : Forall quiet old) by (repeat constructor). destruct early.
  { apply (wp_emits_any record_ev quiet); [auto with quiet|]. intros new [? ?] Hn. apply Hquiet; [auto|]. by apply list.Forall_app. }
  assert (Hfin : forall h, hist_all (send_rule u i) (h ++ old) -> hist_all (fun e before => send_rule u i e before /\ (typed e = true ->
    false = false /\ OperatorText_Len text <> 0 /\ Classify (PTYText text) = Some [] /\ exists s now, s_SessionID s = id
      /\ [Ev (MuLast (rate_limited now)) false; Ev Now now; Ev LoadSession (Ok s)] `suffix_of` before)) (h ++ old)).
  { intros h Hh. apply (hist_all_mono (fun e b => send_rule u i e b /\ (typed e = true -> old `suffix_of` b))).
    - intros e b [? Ht]. split; [done|]. intros He. split_and!; [done..|]. exists s, now. split; [done|by apply Ht].
    - apply hist_all_and; [done|by apply typed_after]. }
  apply wp_bind, wp_under. eapply wp_mono; [apply (Execute_spec u i)|]. intros h [result err] [Hg _].
  assert (Hg' : hist_all (send_rule u i) (h ++ old)) by (by apply gated_older). rewrite Ecl in Hfin.
  destruct err as [err|]; [|by apply Hfin]. intros cur. cbn [wp prog_bind mbind prog_mbind mret prog_mret call].
  assert (Hend : hist_all (send_rule u i) ((Ev LoadSession cur :: h) ++ old)) by (by split).
  destruct cur as [cur|]; repeat case_bool_decide; by apply (Hfin (_ :: _)).
Qed.

(** ** A run *)

(** A use case with everything it needs, and a session that is idle. *)
Definition demo_usecase : SendInputUseCase :=
  mkUseCase true true (Some (PtyPointer 1)) false false true true true false false false false None (fun _ => ""%string) 0 0.

Definition demo_input : SendInput := mkSendInput "repo-1" SendKindRemoteControl None SendOriginNormal 0.

Definition demo_session : ManagedSession := example_session <| s_State := SessionIdle |>.

(** The screen of an idle CLI with [text] in its input row. *)
Definition demo_screen (n : Z) (text : list Z) : ScreenSnapshot :=
  mkShot n [[border_rune]; prompt_box ++ text; [border_rune]]
    [[]; map (fun r => mkCellView [r] false false) (prompt_box ++ text); []] StateIdle false false [] 9 9.

(** An environment in which the CLI shows the text and takes it. *)
Definition demo_env (X : Type) (h : list ev) (e : Eff X) : X :=
  match e in Eff X return X with
  | Mu f => (f noSends).2
  | TryLock _ => true
  | LoadSession => Ok demo_session
  | Marshal s => Ok (if is_some (sg_Pending (s_SendGate s)) then "pending" else if sg_EverSent (s_SendGate s) then "sent" else "new")%string
  | GetScreen => demo_screen 1 (if existsb typed h then runes "/rc" else [])
  | GetObserved => Some StateIdle
  | StatMarker _ => Some (Sentinel FsErrNotExist)
  | GetPTY => Some (PtyPointer 1)
  | BeginSend => SendStarted
  | Delay _ => DelayElapsed
  | SelectConfirm _ _ =>
      Notified [mkConfirmation "repo-1" "repo-1-s1" (demo_screen 2 []) false; mkConfirmation "repo-1" "repo-1-s1" (demo_screen 3 []) false]
  | SelectEnter _ _ => TimerFired
  | IsStopped | StopState_IsStopped | CloseCh => false
  | Now | Clock => 3
  | SaveSession _ | CtxErr | WriteText _ | WriteCR | RecordStructured _ | LogRecord _ _ _ | RecordRefused _ => None
  | MuLast f => (f None).2
  | Unlock _ | LockRecord | UnlockRecord | EndSend | LogBlocked _ | Notify _ | RecommendationIssued _ _ | WaitCommit _ => tt
  end.

(** The send ends confirmed, with one text and one Enter. *)
Example demo_run :
  let '(h, r) := interp record_ev demo_env (Execute (H := ascii_tables) demo_usecase 2 None demo_input) [] in
  r = (mkSendResult "repo-1-s1" None true, None) /\ length (filter (fun e => typed e = true) h) = 2%nat.
Proof. vm_compute. by split. Qed.
