(* ===== verification/StopState.v ===== *)
(** * The emergency stop ([internal/supervisor/usecase/stop_state.go])

    A global flag and one flag per session, each with a marker file that keeps the stop
    over a restart and lets other programs stop the supervisor.  Every method holds the
    mutex of the state throughout (the two guards hold the start mutex over the start as
    well), so it is a function of the flags with the file system as effects; what the
    files answer is arbitrary. *)

From S2P Require Import Prelude.
From S2P Require Import GoStrings.
From S2P Require Import Errors.
From S2P Require Import TaskPaths.
From S2P Require Import Session.
From S2P Require Import Effects.

(** ** Session identifiers *)

Definition id_part (part : string) : bool :=
  negb (bool_decide (part = ""%string)) && str_forall (fun c => is_lower c || is_digit c) part.

(** [[1-9][0-9]*] *)
Definition counter_part (part : string) : bool :=
  match part with
  | EmptyString => false
  | String c _ => negb (Ascii.eqb c "0") && str_forall is_digit part
  end.

(** [^[a-z0-9]+(?:-[a-z0-9]+)*-[1-9][0-9]*$] *)
Definition NewSessionID (value : string) : res string :=
  match rev (Split value "-") with
  | number :: (_ :: _) as parts =>
      if counter_part number && forallb id_part (tail parts) then Ok value else Err (Errorf "invalid session id" [])
  | _ => Err (Errorf "invalid session id" [])
  end.

(** ** State and effects *)

Record StopState : Type := mkStops {
  stop_global : bool;
  stop_sessions : gset string }.

#[export] Instance StopState_settable : Settable StopState := fun s => mkStops (stop_global s) (stop_sessions s).

Definition NewStopState : StopState := mkStops false ∅.

(** What a guard lets run. *)
Inductive guarded : Type := Start | Transition_of (id : string).

Inductive Eff : Type -> Type :=
| Lstat (path : string) : Eff (option error)
| MkdirAll (path : string) : Eff (option error)
| OpenMarker (path : string) : Eff (option error)
| Chmod (path : string) : Eff (option error)
| CloseMarker (path : string) : Eff (option error)
| Remove (path : string) : Eff (option error)
| OnRemoved (id : string) : Eff unit
| Run (g : guarded) : Eff (option error).

Abbreviation M := (prog Eff).

Section Stops.
(** The directory of the markers, and whether a handler of removals is set. *)
Context (root : string) (has_handler : bool).

Definition filePath (id : string) : string :=
  filepath_Join [root; if bool_decide (id = ""%string) then "STOP"%string else ("STOP." +:+ id)].

Definition markerExistsLocked (id : string) : M bool :=
  err ← call (Lstat (filePath id));
  mret (match err with None => true | Some err => negb (errors_Is err FsErrNotExist) end).

Definition writeLocked (id : string) : M (option error) :=
  err ← call (MkdirAll root);
  match err with
  | Some _ => mret err
  | None =>
      err ← call (OpenMarker (filePath id));
      match err with
      | Some _ => mret err
      | None =>
          err ← call (Chmod (filePath id));
          match err with
          | Some _ => call (CloseMarker (filePath id));; mret err
          | None => call (CloseMarker (filePath id))
          end
      end
  end.

(** ** Reading *)

Definition IsStopped (id : string) (s : StopState) : M bool :=
  if stop_global s || bool_decide (id ∈ stop_sessions s) then mret true
  else
    marked ← markerExistsLocked "";
    if (marked : bool) then mret true
    else if bool_decide (id = ""%string) then mret false else markerExistsLocked id.

Definition IsGlobalStopped (s : StopState) : M bool :=
  if stop_global s then mret true else markerExistsLocked "".

Definition IsSessionStopped (id : string) (s : StopState) : M bool :=
  if bool_decide (id ∈ stop_sessions s) then mret true else markerExistsLocked id.

(** ** Guards *)

Definition GuardStart (s : StopState) : M (option error) :=
  stopped ← IsGlobalStopped s;
  if (stopped : bool) then mret (Some (Sentinel ErrStopActive)) else call (Run Start).

Definition still_stopped_by_global : error := Errorf "still_stopped_by_global" [].
Definition stop_recreated : error := Errorf "stop_recreated" [].

Definition GuardResume (scope : SupervisorStopScope) (id : string) (s : StopState) : M (option error) :=
  globalStopped ← IsGlobalStopped s;
  sessionStopped ← IsSessionStopped id s;
  if (globalStopped : bool) then mret (Some still_stopped_by_global)
  else if (sessionStopped : bool) then
    mret (Some (if bool_decide (scope = StopScopeGlobal) then still_stopped_by_global else stop_recreated))
  else call (Run (Transition_of id)).

(** ** Setting and clearing: the flags afterwards, and the error *)

Definition set_global (b : bool) (s : StopState) : StopState := s <| stop_global := b |>.
Definition set_session (id : string) (b : bool) (s : StopState) : StopState :=
  s <| stop_sessions := if b then stop_sessions s ∪ {[id]} else stop_sessions s ∖ {[id]} |>.

Definition EnableGlobal (s : StopState) : M (StopState * option error) :=
  err ← writeLocked "";
  match err with Some _ => mret (s, err) | None => mret (set_global true s, None) end.

Definition EnableSession (id : string) (s : StopState) : M (StopState * option error) :=
  match NewSessionID id with
  | Err err => mret (s, Some err)
  | Ok _ =>
      err ← writeLocked id;
      match err with Some _ => mret (s, err) | None => mret (set_session id true s, None) end
  end.

Definition WriteGlobal : M (option error) := writeLocked "".

Definition WriteSession (id : string) : M (option error) :=
  match NewSessionID id with Err err => mret (Some err) | Ok _ => writeLocked id end.

Definition removed (err : option error) : bool :=
  match err with None => true | Some err => errors_Is err FsErrNotExist end.

Definition ClearGlobal (s : StopState) : M (StopState * option error) :=
  err ← call (Remove (filePath ""));
  if removed err then mret (set_global false s, None) else mret (s, err).

Definition ClearSession (id : string) (s : StopState) : M (StopState * option error) :=
  match NewSessionID id with
  | Err err => mret (s, Some err)
  | Ok _ =>
      err ← call (Remove (filePath id));
      if removed err then mret (set_session id false s, None) else mret (s, err)
  end.

(** ** Repair *)

(** The marker of a set flag, written again if it is gone. *)
Definition repair (id : string) : M (option error) :=
  marked ← markerExistsLocked id;
  if (marked : bool) then mret None
  else (if has_handler then call (OnRemoved id) else mret tt);; writeLocked id.

(** Both markers of a session, in order; the first error ends. *)
Definition repair_both (id : string) (s : StopState) : M (option error) :=
  err ← (if stop_global s then repair "" else mret None);
  match err with
  | Some _ => mret err
  | None => if negb (bool_decide (id = ""%string)) && bool_decide (id ∈ stop_sessions s) then repair id else mret None
  end.

Definition CheckAndRepair (id : string) (s : StopState) : M (option error) := repair_both id s.

Definition Poll (id : string) (s : StopState) : M (StopState * option error) :=
  marked ← markerExistsLocked "";
  let s := if (marked : bool) then set_global true s else s in
  s ← (if bool_decide (id = ""%string) then mret s
       else marked ← markerExistsLocked id; mret (if (marked : bool) then set_session id true s else s));
  err ← repair_both id s;
  mret (s, err).

(** The flags that the persisted sessions stand for. *)
Definition flags_of_sessions (sessions : list ManagedSession) (s : StopState) : StopState :=
  fold_left (fun s session =>
    if is_ok (NewSessionID (s_SessionID session)) then
      match s_StopScope session with
      | StopScopeGlobal => set_global true s
      | StopScopeSession => set_session (s_SessionID session) true s
      | _ => s
      end
    else s) sessions s.

Fixpoint repair_each (ids : list string) : M (option error) :=
  match ids with
  | [] => mret None
  | id :: ids =>
      err ← repair id;
      match err with Some _ => mret err | None => repair_each ids end
  end.

(** [order] is the order in which the map of the sessions is ranged over. *)
Definition RepairFromSessions (order : list string) (sessions : list ManagedSession) (s : StopState)
    : M (StopState * option error) :=
  let s := flags_of_sessions sessions s in
  err ← (if stop_global s then repair "" else mret None);
  match err with
  | Some _ => mret (s, err)
  | None => err ← repair_each (filter (fun id => id ∈ stop_sessions s) order); mret (s, err)
  end.

(** ** Any sequence of calls *)

Inductive stop_call : Type :=
| CSetGlobal (b : bool)
| CSetSession (id : string) (b : bool)
| CIsStopped (id : string)
| CIsGlobalStopped
| CIsSessionStopped (id : string)
| CGuardStart
| CGuardResume (scope : SupervisorStopScope) (id : string)
| CWriteGlobal
| CWriteSession (id : string)
| CEnableGlobal
| CEnableSession (id : string)
| CClearGlobal
| CClearSession (id : string)
| CCheckAndRepair (id : string)
| CPoll (id : string)
| CRepairFromSessions (order : list string) (sessions : list ManagedSession).

Inductive answer : Type := ABool (b : bool) | AErr (err : option error).

Definition run_call (c : stop_call) (s : StopState) : M (StopState * answer) :=
  let read (p : M bool) := b ← p; mret (s, ABool b) in
  let guard (p : M (option error)) := err ← p; mret (s, AErr err) in
  let change (p : M (StopState * option error)) := '(s, err) ← p; mret (s, AErr err) in
  match c with
  | CSetGlobal b => mret (set_global b s, AErr None)
  | CSetSession id b => mret (set_session id b s, AErr None)
  | CIsStopped id => read (IsStopped id s)
  | CIsGlobalStopped => read (IsGlobalStopped s)
  | CIsSessionStopped id => read (IsSessionStopped id s)
  | CGuardStart => guard (GuardStart s)
  | CGuardResume scope id => guard (GuardResume scope id s)
  | CWriteGlobal => guard WriteGlobal
  | CWriteSession id => guard (WriteSession id)
  | CEnableGlobal => change (EnableGlobal s)
  | CEnableSession id => change (EnableSession id s)
  | CClearGlobal => change (ClearGlobal s)
  | CClearSession id => change (ClearSession id s)
  | CCheckAndRepair id => guard (CheckAndRepair id s)
  | CPoll id => change (Poll id s)
  | CRepairFromSessions order sessions => change (RepairFromSessions order sessions s)
  end.

Fixpoint run_calls (cs : list stop_call) (s : StopState) : M (StopState * list answer) :=
  match cs with
  | [] => mret (s, [])
  | c :: cs =>
      '(s, a) ← run_call c s;
      '(s, answers) ← run_calls cs s;
      mret (s, a :: answers)
  end.

(** ** What it guarantees *)

(** A stop: of everything, or of one session. *)
Inductive scope : Type := Everything | Only (id : string).

#[export] Instance scope_eq_dec : EqDecision scope.
Proof. solve_decision. Defined.

Definition stop_set (c : scope) (s : StopState) : Prop :=
  match c with Everything => stop_global s = true | Only id => id ∈ stop_sessions s end.

(** The calls by which the stop is lifted. *)
Definition lifts (c : scope) (call : stop_call) : Prop :=
  match c, call with
  | Everything, (CClearGlobal | CSetGlobal false) => True
  | Only id, (CClearSession id' | CSetSession id' false) => id = id'
  | _, _ => False
  end.

(** What a call answers while the stop is set. *)
Definition refuses (c : scope) (call : stop_call) (a : answer) : Prop :=
  match call, c with
  | CIsStopped _, Everything => a = ABool true
  | CIsStopped id, Only id' => id = id' -> a = ABool true
  | CIsGlobalStopped, Everything => a = ABool true
  | CIsSessionStopped id, Only id' => id = id' -> a = ABool true
  | CGuardStart, Everything => a = AErr (Some (Sentinel ErrStopActive))
  | CGuardResume _ _, Everything => a = AErr (Some still_stopped_by_global)
  | CGuardResume _ id, Only id' => id = id' -> a = AErr (Some still_stopped_by_global) \/ a = AErr (Some stop_recreated)
  | _, _ => True
  end.

(** What must not run while the stop is set. *)
Definition held_back (c : scope) (g : guarded) : Prop :=
  match c, g with
  | Everything, _ => True
  | Only id, Transition_of id' => id = id'
  | Only _, Start => False
  end.

Definition not_run (c : scope) (e : called Eff) : Prop :=
  match e with Ev e _ => match e with Run g => ~ held_back c g | _ => True end end.

(** A marker that exists, or that cannot be told to be absent. *)
Definition exists_or_unknown (stat : option error) : Prop :=
  match stat with None => True | Some err => errors_Is err FsErrNotExist = false end.

(** The marker has been seen, or written in full. *)
Definition marked (id : string) (h : list (called Eff)) : Prop :=
  (exists r, Ev (Lstat (filePath id)) r ∈ h /\ exists_or_unknown r)
  \/ [Ev (CloseMarker (filePath id)) None; Ev (Chmod (filePath id)) None; Ev (OpenMarker (filePath id)) None;
      Ev (MkdirAll root) None] `sublist_of` h.

(** A poll keeps the flags and sets those whose markers it finds first. *)
Definition latched (id : string) (s s' : StopState) (h : list (called Eff)) : Prop :=
  (stop_global s = true -> stop_global s' = true) /\ stop_sessions s ⊆ stop_sessions s'
  /\ exists rest global session,
       h = rest ++ (if bool_decide (id = ""%string) then [] else [Ev (Lstat (filePath id)) session]) ++ [Ev (Lstat (filePath "")) global]
       /\ (exists_or_unknown global -> stop_global s' = true)
       /\ (id <> ""%string -> exists_or_unknown session -> id ∈ stop_sessions s').

(** What a call without an error leaves behind. *)
Definition leaves (c : stop_call) (s s' : StopState) (h : list (called Eff)) : Prop :=
  match c with
  | CEnableGlobal => s' = set_global true s /\ marked "" h
  | CEnableSession id => s' = set_session id true s /\ marked id h
  | CWriteGlobal => s' = s /\ marked "" h
  | CWriteSession id => s' = s /\ marked id h
  | CClearGlobal => s' = set_global false s
  | CClearSession id => s' = set_session id false s
  | CCheckAndRepair id =>
      s' = s /\ (stop_global s' = true -> marked "" h) /\ (id <> ""%string -> id ∈ stop_sessions s' -> marked id h)
  | CPoll id =>
      latched id s s' h
      /\ (stop_global s' = true -> marked "" h) /\ (id <> ""%string -> id ∈ stop_sessions s' -> marked id h)
  | CRepairFromSessions order _ =>
      (stop_global s' = true -> marked "" h) /\ (forall id, id ∈ order -> id ∈ stop_sessions s' -> marked id h)
  | _ => True
  end.

(** ** Lemmas *)

Abbreviation wps := (wp record_ev).
Ltac wp_cbn := cbn [wp prog_bind mbind prog_mbind mret prog_mret call].

Lemma marker_spec id h Q :
  (forall r, exists_or_unknown r -> Q (Ev (Lstat (filePath id)) r :: h) true) ->
  (forall err, errors_Is err FsErrNotExist = true -> Q (Ev (Lstat (filePath id)) (Some err) :: h) false) ->
  wps (markerExistsLocked id) h Q.
Proof.
  intros Ht Hf. unfold markerExistsLocked. intros [err|]; wp_cbn; [|by apply Ht].
  destruct (errors_Is err FsErrNotExist) eqn:E; [by apply Hf|by apply Ht].
Qed.

Lemma writeLocked_spec id h Q :
  (forall new err, Q (new ++ h) (Some err)) ->
  (forall new, marked id (new ++ h) -> Q (new ++ h) None) ->
  wps (writeLocked id) h Q.
Proof.
  intros Herr HQ. unfold writeLocked. intros [err|]; wp_cbn; [apply (Herr [_])|].
  intros [err|]; wp_cbn; [apply (Herr [_; _])|].
  intros [err|]; wp_cbn; [intros ?; apply (Herr [_; _; _; _])|].
  intros [err|]; [apply (Herr [_; _; _; _])|]. apply (HQ [_; _; _; _]). right.
  do 4 apply sublist_skip. apply sublist_nil_l.
Qed.

Lemma marked_app id new h : marked id h -> marked id (new ++ h).
Proof.
  intros [(r & Hr & Hx)|Hs]; [left; exists r; split; [apply elem_of_app; by right|done]|].
  right. by apply sublist_inserts_l.
Qed.

Lemma repair_spec id h Q :
  (forall new err, Q (new ++ h) (Some err)) -> (forall new, marked id (new ++ h) -> Q (new ++ h) None) ->
  wps (repair id) h Q.
Proof.
  intros Herr HQ. unfold repair. apply wp_bind. apply marker_spec.
  - intros r Hr. apply (HQ [_]). left. exists r. split; [left|done].
  - intros err _. assert (Hw : forall n, wps (writeLocked id) (n ++ h) Q).
    { intros n. apply writeLocked_spec; intros new; rewrite app_assoc; [intros e; apply Herr|apply HQ]. }
    destruct has_handler; [intros []; apply (Hw [_; _])|apply (Hw [_])].
Qed.

Lemma repair_both_spec id s h Q :
  (forall new err, Q (new ++ h) (Some err)) ->
  (forall new, (stop_global s = true -> marked "" (new ++ h)) -> (id <> ""%string -> id ∈ stop_sessions s -> marked id (new ++ h)) ->
    Q (new ++ h) None) ->
  wps (repair_both id s) h Q.
Proof.
  intros Herr HQ. unfold repair_both. apply wp_bind.
  assert (Hrest : forall new, (stop_global s = true -> marked "" (new ++ h)) ->
    wps (if negb (bool_decide (id = ""%string)) && bool_decide (id ∈ stop_sessions s) then repair id else mret None) (new ++ h) Q).
  { intros new Hg. destruct (_ && _) eqn:E.
    - apply repair_spec; intros new'; rewrite app_assoc; [intros err; apply Herr|]. intros Hm. apply HQ; [|done].
      intros H. rewrite <- app_assoc. by apply marked_app, Hg.
    - apply HQ; [done|]. intros Hid Hin. rewrite bool_decide_eq_false_2 in E by done. by rewrite bool_decide_eq_true_2 in E. }
  destruct (stop_global s).
  - apply repair_spec; [intros new err; apply Herr|]. intros new Hm. by apply Hrest.
  - apply (Hrest []). done.
Qed.

Lemma Poll_spec id s h Q :
  (forall new s' err, Q (new ++ h) (s', Some err)) ->
  (forall new s', latched id s s' new -> (stop_global s' = true -> marked "" (new ++ h)) ->
    (id <> ""%string -> id ∈ stop_sessions s' -> marked id (new ++ h)) -> Q (new ++ h) (s', None)) ->
  wps (Poll id s) h Q.
Proof.
  intros Herr HQ. unfold Poll. apply wp_bind.
  assert (Hgo : forall s1 g, (stop_global s = true -> stop_global s1 = true) -> stop_sessions s1 = stop_sessions s ->
    (exists_or_unknown g -> stop_global s1 = true) ->
    wps (s ← (if bool_decide (id = ""%string) then mret s1
              else marked ← markerExistsLocked id; mret (if (marked : bool) then set_session id true s1 else s1));
         err ← repair_both id s; mret (s, err)) (Ev (Lstat (filePath "")) g :: h) Q).
  { intros s1 g Hg1 Hs1 Hl1.
    assert (Hend : forall s2 pre session, pre = (if bool_decide (id = ""%string) then [] else [Ev (Lstat (filePath id)) session]) ->
      stop_global s2 = stop_global s1 -> stop_sessions s1 ⊆ stop_sessions s2 ->
      (id <> ""%string -> exists_or_unknown session -> id ∈ stop_sessions s2) ->
      wps (err ← repair_both id s2; mret (s2, err)) ((pre ++ [Ev (Lstat (filePath "")) g]) ++ h) Q).
    { intros s2 pre session Epre Hg2 Hs2 Hl2. apply wp_bind. apply repair_both_spec.
      - intros new err. rewrite app_assoc. apply Herr.
      - intros new H1 H2. rewrite app_assoc in H1, H2 |- *. apply HQ; [|done|done].
        split_and!; [rewrite Hg2; auto|by rewrite <- Hs1|]. exists new, g, session. subst pre.
        split_and!; [done|rewrite Hg2; auto|done]. }
    destruct (bool_decide (id = ""%string)) eqn:Eid.
    - apply bool_decide_eq_true in Eid. apply (Hend s1 [] None); done.
    - apply bool_decide_eq_false in Eid. do 2 apply wp_bind. apply marker_spec.
      + intros r Hr. apply (Hend (set_session id true s1) [_] r); [done|done|cbn; set_solver|cbn; set_solver].
      + intros err Hne. apply (Hend s1 [_] (Some err)); [done|done|done|]. cbn. congruence. }
  apply marker_spec.
  - intros r Hr. by apply Hgo.
  - intros err Hne. apply Hgo; [done|done|]. cbn. congruence.
Qed.

Lemma repair_each_spec ids h Q :
  (forall new err, Q (new ++ h) (Some err)) ->
  (forall new, (forall id, id ∈ ids -> marked id (new ++ h)) -> Q (new ++ h) None) ->
  wps (repair_each ids) h Q.
Proof.
  intros Herr HQ. induction ids as [|id ids IH] in h, Herr, HQ |- *; cbn [repair_each].
  { apply (HQ []). intros id Hid. by apply not_elem_of_nil in Hid. }
  apply wp_bind. apply repair_spec; [intros new err; apply Herr|]. intros new Hm. apply IH; intros new'; rewrite app_assoc.
  - intros err. apply Herr.
  - intros Hms. apply HQ. intros id' [->|Hid]%elem_of_cons; [|by apply Hms].
    rewrite <- app_assoc. by apply marked_app.
Qed.

(** ** Theorems *)

(** C28. What a call of the stop leaves behind.  With no error: enabling has set the flag
    and the marker is on disk; clearing has lowered the flag; after a poll, a check or the
    repair at the start, every flag concerned that is set has its marker, which was seen
    or written in full; and a poll has kept every flag and set the flag of each marker it
    found.  This holds whatever the file system answers. *)
Theorem stop_calls_durable (c : stop_call) (s : StopState) :
  wps (run_call c s) [] (fun h '(s', a) => a = AErr None -> leaves c s s' h).
Proof.
  assert (Hread : forall p, wps (b ← p; mret (s, ABool b)) [] (fun h '(s', a) => a = AErr None -> leaves c s s' h)).
  { intros p. apply wp_bind. eapply wp_mono; [apply wp_true|]. by intros h b _. }
  destruct c; cbn [run_call]; try apply Hread; try done.
  - apply wp_bind. eapply wp_mono; [apply wp_true|]. by intros h b _.
  - apply wp_bind. eapply wp_mono; [apply wp_true|]. by intros h b _.
  - apply wp_bind. apply writeLocked_spec; [by intros new err|]. intros new Hm _. by rewrite app_nil_r in *.
  - apply wp_bind. unfold WriteSession. destruct (NewSessionID id); [|done].
    apply writeLocked_spec; [by intros new err|]. intros new Hm _. by rewrite app_nil_r in *.
  - unfold EnableGlobal. do 2 apply wp_bind. apply writeLocked_spec; [by intros new err|]. intros new Hm _. by rewrite app_nil_r in *.
  - unfold EnableSession. destruct (NewSessionID id); [|done].
    do 2 apply wp_bind. apply writeLocked_spec; [by intros new err|]. intros new Hm _. by rewrite app_nil_r in *.
  - unfold ClearGlobal. intros err. wp_cbn. destruct (removed err) eqn:E; wp_cbn; [done|]. by destruct err.
  - unfold ClearSession. destruct (NewSessionID id); [|done]. intros err. wp_cbn.
    destruct (removed err) eqn:E; wp_cbn; [done|]. by destruct err.
  - apply wp_bind. apply repair_both_spec; [by intros new err|]. intros new H1 H2 _. by rewrite app_nil_r in *.
  - apply wp_bind. apply Poll_spec; [by intros new s' err|]. intros new s' Hl H1 H2 _. by rewrite app_nil_r in *.
  - unfold RepairFromSessions. set (s1 := flags_of_sessions sessions s). do 2 apply wp_bind.
    assert (Hrest : forall h0, (stop_global s1 = true -> marked "" h0) ->
      wps (err ← repair_each (filter (fun id => id ∈ stop_sessions s1) order); mret (s1, err)) h0
        (fun h a => wps (let '(s, err) := a in mret (s, AErr err)) h (fun h '(s', a) => a = AErr None -> leaves (CRepairFromSessions order sessions) s s' h))).
    { intros h0 Hg. apply wp_bind. apply repair_each_spec; [by intros new err|]. intros new Hm _.
      split; [intros H; by apply marked_app, Hg|]. intros id Hid Hin. apply Hm. by apply list_elem_of_filter. }
    destruct (stop_global s1) eqn:Eg; [|by apply Hrest].
    apply repair_spec; [by intros new err|]. intros new Hm. apply Hrest. intros _. by rewrite app_nil_r in *.
Qed.

(** *** A stop holds *)

(** The calls that let nothing run. *)
Definition idle (e : called Eff) : Prop := match e with Ev e _ => match e with Run _ => False | _ => True end end.

Ltac solve_idle :=
  repeat first
    [ exact I
    | apply emits_call; done
    | apply emits_bind; [|intros ?]
    | lazymatch goal with
      | |- emits _ _ (match ?x with _ => _ end) => destruct x
      | |- emits _ _ (let '_ := ?x in _) => destruct x
      end ].

Lemma writeLocked_idle id : emits record_ev idle (writeLocked id).
Proof. unfold writeLocked. solve_idle. Qed.
Lemma markerExistsLocked_idle id : emits record_ev idle (markerExistsLocked id).
Proof. unfold markerExistsLocked. solve_idle. Qed.
Lemma repair_idle id : emits record_ev idle (repair id).
Proof. unfold repair. apply emits_bind; [apply markerExistsLocked_idle|]. intros []; solve_idle; apply writeLocked_idle. Qed.
Lemma repair_both_idle id s : emits record_ev idle (repair_both id s).
Proof. unfold repair_both. apply emits_bind; [destruct (stop_global s); [apply repair_idle|exact I]|]. intros []; [exact I|]. destruct (_ && _); [apply repair_idle|exact I]. Qed.
Lemma repair_each_idle ids : emits record_ev idle (repair_each ids).
Proof. induction ids as [|id ids IH]; cbn [repair_each]; [exact I|]. apply emits_bind; [apply repair_idle|]. by intros []. Qed.

(** A program that lets nothing run, with what is known of its result. *)
Lemma wp_idle {A : Type} c (p : M A) h (Q : list (called Eff) -> A -> Prop) (R : A -> Prop) :
  emits record_ev idle p -> Forall (not_run c) h -> wps p h (fun _ a => R a) ->
  (forall h' a, Forall (not_run c) h' -> R a -> Q h' a) -> wps p h Q.
Proof.
  intros Hp Hh HR HQ. apply (wp_emits record_ev idle) with (Q := fun _ a => R a); [done|done|].
  intros new a Hn Ha. apply HQ; [|done]. apply list.Forall_app. split; [|done].
  eapply Forall_impl; [|exact Hn]. intros [X e x]. by destruct e.
Qed.

Lemma flags_of_sessions_mono sessions s :
  (stop_global s = true -> stop_global (flags_of_sessions sessions s) = true)
  /\ stop_sessions s ⊆ stop_sessions (flags_of_sessions sessions s).
Proof.
  unfold flags_of_sessions. induction sessions as [|x sessions IH] in s |- *; cbn [fold_left]; [by split|].
  set (s1 := if is_ok _ then _ else s).
  assert ((stop_global s = true -> stop_global s1 = true) /\ stop_sessions s ⊆ stop_sessions s1) as [H1 H2].
  { unfold s1. destruct (is_ok _); [|by split]. destruct (s_StopScope x); cbn; (split; [done|set_solver]). }
  destruct (IH s1) as [H3 H4]. split; [auto|set_solver].
Qed.

(** One call. *)
Lemma run_call_holds c cl s h Q :
  stop_set c s -> ~ lifts c cl -> Forall (not_run c) h ->
  (forall h' s' a, Forall (not_run c) h' -> stop_set c s' -> refuses c cl a -> Q h' (s', a)) ->
  wps (run_call cl s) h Q.
Proof.
  intros Hset Hl Hh HQ.
  assert (Hwrite : forall p, emits record_ev idle p -> (forall a, refuses c cl (AErr a)) ->
    wps (err ← p; mret (s, AErr err)) h Q).
  { intros p Hp Hr. apply wp_bind. apply (wp_idle c _ _ _ (fun _ => True)); [done|done|apply wp_true|]. intros. by apply HQ. }
  assert (Hchange : forall p : M (StopState * option error), emits record_ev idle p -> (forall a, refuses c cl (AErr a)) ->
    wps p h (fun _ r => stop_set c r.1) -> wps ('(s, err) ← p; mret (s, AErr err)) h Q).
  { intros p Hp Hr Hs. apply wp_bind. apply (wp_idle c _ _ _ (fun r => stop_set c r.1)); [done|done|done|].
    intros h' [s' err] ? ?. by apply HQ. }
  assert (Hread : forall p, emits record_ev idle p -> wps p h (fun _ b => refuses c cl (ABool b)) -> wps (b ← p; mret (s, ABool b)) h Q).
  { intros p Hp Hr. apply wp_bind. apply (wp_idle c _ _ _ (fun b => refuses c cl (ABool b))); [done|done|done|]. intros. by apply HQ. }
  assert (Hglobal : emits record_ev idle (IsGlobalStopped s)).
  { unfold IsGlobalStopped. destruct (stop_global s); [exact I|apply markerExistsLocked_idle]. }
  assert (Hsession : forall id, emits record_ev idle (IsSessionStopped id s)).
  { intros id. unfold IsSessionStopped. case_bool_decide; [exact I|apply markerExistsLocked_idle]. }
  assert (Htrue : forall (p : M bool) (R : bool -> Prop), (forall b, R b) -> wps p h (fun _ b => R b)).
  { intros p R HR. eapply wp_mono; [apply wp_true|]. intros h' b _. apply HR. }
  destruct cl; cbn [run_call].
  - apply HQ; [done| |by destruct c]. destruct c; [|done]. destruct b; [done|]. by destruct Hl.
  - apply HQ; [done| |by destruct c]. destruct c as [|id']; [done|]. cbn in *. destruct b; set_solver.
  - apply Hread.
    + unfold IsStopped. destruct (_ || _); [exact I|]. apply emits_bind; [apply markerExistsLocked_idle|].
      intros []; [exact I|]. case_bool_decide; [exact I|apply markerExistsLocked_idle].
    + unfold IsStopped. destruct c as [|id']; cbn in *; [by rewrite Hset|]. destruct (decide (id = id')) as [->|Hne].
      * rewrite (bool_decide_eq_true_2 _ Hset), orb_true_r. done.
      * apply (Htrue _ (fun b => id = id' -> ABool b = ABool true)). by intros b ?.
  - apply Hread; [done|]. unfold IsGlobalStopped. destruct c as [|id']; cbn in *; [by rewrite Hset|].
    by apply (Htrue _ (fun _ => True)).
  - apply Hread; [done|]. unfold IsSessionStopped. destruct c as [|id']; cbn in *.
    + by apply (Htrue _ (fun _ => True)).
    + destruct (decide (id = id')) as [->|Hne]; [by rewrite (bool_decide_eq_true_2 _ Hset)|].
      apply (Htrue _ (fun b => id = id' -> ABool b = ABool true)). by intros b ?.
  - unfold GuardStart. destruct c as [|id'].
    + cbn in Hset. unfold IsGlobalStopped. rewrite Hset. by apply HQ.
    + do 2 apply wp_bind. apply (wp_idle (Only id') _ _ _ (fun _ => True)); [done|done|apply wp_true|].
      intros h' b Hh' _. destruct b; [by apply HQ|]. intros err. apply HQ; [|done|done].
      constructor; [cbn; tauto|done].
  - unfold GuardResume. do 2 apply wp_bind.
    apply (wp_idle c _ _ _ (fun b => c = Everything -> b = true)); [done|done| |].
    { destruct c as [|id']; [|by apply (Htrue _ (fun b => _ = Everything -> b = true))].
      cbn in Hset. unfold IsGlobalStopped. by rewrite Hset. }
    intros h1 g Hh1 Hg. apply wp_bind.
    apply (wp_idle c _ _ _ (fun b => c = Only id -> b = true)); [apply Hsession|done| |].
    { destruct (decide (c = Only id)) as [->|Hne].
      - cbn in Hset. unfold IsSessionStopped. by rewrite (bool_decide_eq_true_2 _ Hset).
      - eapply wp_mono; [apply wp_true|]. by intros. }
    intros h2 b Hh2 Hb. destruct g.
    { apply HQ; [done|done|]. destruct c; cbn; [done|]. by left. }
    destruct b.
    { apply HQ; [done|done|]. destruct c; cbn; [by discriminate Hg|]. case_bool_decide; auto. }
    intros err. apply HQ; [|done|].
    + constructor; [|done]. cbn. destruct c; cbn; [by discriminate Hg|]. intros ->. by discriminate Hb.
    + destruct c; cbn; [by discriminate Hg|]. intros ->. by discriminate Hb.
  - apply Hwrite; [apply writeLocked_idle|by destruct c].
  - apply Hwrite; [unfold WriteSession; destruct (NewSessionID id); [apply writeLocked_idle|exact I]|by destruct c].
  - apply Hchange; [|by destruct c|]; unfold EnableGlobal.
    + apply emits_bind; [apply writeLocked_idle|]. intros []; exact I.
    + apply wp_bind. eapply wp_mono; [apply wp_true|]. intros h' [err|] _; [done|]. by destruct c.
  - apply Hchange; [|by destruct c|]; unfold EnableSession; destruct (NewSessionID id); try done.
    + apply emits_bind; [apply writeLocked_idle|]. intros []; exact I.
    + apply wp_bind. eapply wp_mono; [apply wp_true|]. intros h' [err|] _; [done|]. destruct c; [done|]. cbn in *. set_solver.
  - apply Hchange; [|by destruct c|]; unfold ClearGlobal.
    + solve_idle.
    + intros err. wp_cbn. destruct (removed err); [|done]. destruct c; [by destruct Hl|done].
  - apply Hchange; [|by destruct c|]; unfold ClearSession; destruct (NewSessionID id); try done.
    + solve_idle.
    + intros err. wp_cbn. destruct (removed err); [|done]. destruct c as [|id']; [done|]. cbn in *. set_solver.
  - apply Hwrite; [apply repair_both_idle|by destruct c].
  - apply Hchange; [|by destruct c|].
    + unfold Poll. apply emits_bind; [apply markerExistsLocked_idle|]. intros m. apply emits_bind.
      * case_bool_decide; [exact I|]. apply emits_bind; [apply markerExistsLocked_idle|]. intros; exact I.
      * intros s1. apply emits_bind; [apply repair_both_idle|]. intros; exact I.
    + unfold Poll. apply wp_bind. eapply wp_mono; [apply wp_true|]. intros h1 m _. apply wp_bind.
      assert (Hs1 : stop_set c (if m then set_global true s else s)) by (destruct m; [by destruct c|done]).
      apply wp_mono with (Q := fun _ s2 => stop_set c s2).
      * case_bool_decide; [done|]. apply wp_bind. eapply wp_mono; [apply wp_true|]. intros h2 m2 _.
        destruct m2; [|done]. destruct c; [by destruct m|]. cbn. destruct m; cbn in *; set_solver.
      * intros h2 s2 Hs2. apply wp_bind. eapply wp_mono; [apply wp_true|]. by intros h3 err _.
  - assert (Hs1 : stop_set c (flags_of_sessions sessions s)).
    { destruct (flags_of_sessions_mono sessions s) as [H1 H2]. destruct c; cbn in *; [auto|set_solver]. }
    apply Hchange; [|by destruct c|]; unfold RepairFromSessions.
    + apply emits_bind; [destruct (stop_global _); [apply repair_idle|exact I]|]. intros []; [exact I|].
      apply emits_bind; [apply repair_each_idle|]. intros; exact I.
    + apply wp_bind. eapply wp_mono; [apply wp_true|]. intros h1 [err|] _; [done|].
      apply wp_bind. eapply wp_mono; [apply wp_true|]. by intros h2 err _.
Qed.

(** C27. A stop holds until it is lifted.  Once the stop of everything or of a session is
    set, it is set after any sequence of calls that does not lift it, whatever the files
    answer: every reading meanwhile says stopped, no start and no resumption is let
    through that it concerns, and what they guard does not run. *)
Theorem stop_holds (c : scope) (calls : list stop_call) (s : StopState) :
  stop_set c s -> Forall (fun cl => ~ lifts c cl) calls ->
  wps (run_calls calls s) [] (fun h '(s', answers) =>
    stop_set c s' /\ Forall2 (refuses c) calls answers /\ Forall (not_run c) h).
Proof.
  intros Hset Hl. assert (Hh : Forall (not_run c) []) by done. revert Hh. generalize ([] : list (called Eff)).
  induction Hl as [|cl calls Hcl Hl IH] in s, Hset |- *; intros h Hh; cbn [run_calls].
  { split_and!; [done|constructor|done]. }
  apply wp_bind. apply (run_call_holds c); [done..|]. intros h1 s1 a Hh1 Hs1 Ha.
  apply wp_bind. eapply wp_mono; [apply IH; done|]. intros h2 [s2 answers] (H1 & H2 & H3).
  split_and!; [done|by constructor|done].
Qed.
End Stops.

Lemma stop_holds_witness :
  Forall (fun cl => ~ lifts Everything cl) [CIsStopped "repo-1"; CGuardStart; CClearSession "repo-1"; CPoll "repo-1"]
  /\ wp record_ev (run_calls "/state" false [CIsStopped "repo-1"; CGuardStart; CClearSession "repo-1"; CPoll "repo-1"]
       (mkStops true ∅)) [] (fun h '(s', answers) =>
       stop_set Everything s'
       /\ Forall2 (refuses Everything) [CIsStopped "repo-1"; CGuardStart; CClearSession "repo-1"; CPoll "repo-1"] answers
       /\ Forall (not_run Everything) h).
Proof.
  assert (Forall (fun cl => ~ lifts Everything cl) [CIsStopped "repo-1"; CGuardStart; CClearSession "repo-1"; CPoll "repo-1"]) as H
    by (repeat (apply Forall_cons; [by intros []|]); apply Forall_nil).
  split; [exact H|]. by apply (stop_holds "/state" false Everything).
Defined.
