(* ===== verification/StopControl.v ===== *)
(** * Stopping and resuming sessions
    ([internal/supervisor/usecase/stop_control.go], [session_update.go])

    The operator's stop and resume, over the emergency stop of [StopState] and the
    session records, as programs over their effects.  The mutex of the use case is held
    throughout; records are changed through the field-wise patch, which leaves alone
    what another goroutine has changed meanwhile. *)

From S2P Require Import Prelude.
From S2P Require Import Errors.
From S2P Require Import Session.
From S2P Require Import Effects.
From S2P Require Import StopState.

(** ** Effects *)

Inductive Eff : Type -> Type :=
| Lock : Eff unit
| Unlock : Eff unit
| ListSessions : Eff (res (list ManagedSession))
| SaveSession (s : ManagedSession) : Eff (option error)
| Marshal (s : ManagedSession) : Eff (res string)
| LockRecord (id : string) : Eff unit
| UnlockRecord (id : string) : Eff unit
| IsStopped (id : string) : Eff bool
| IsGlobalStopped : Eff bool
| IsSessionStopped (id : string) : Eff bool
| EnableGlobal : Eff (option error)
| EnableSession (id : string) : Eff (option error)
| ClearGlobal : Eff (option error)
| ClearSession (id : string) : Eff (option error)
| GuardBegin (scope : SupervisorStopScope) (id : string) : Eff (option error)
| GuardEnd : Eff unit
| Record (id : string) (kind : SupervisorEventKind) (reason : SupervisorStopReason) : Eff unit
| NotifyEvent (kind : SupervisorEventKind) (id : string) : Eff unit
| ClearCandidate (id : string) : Eff unit
| Reset (id : string) : Eff unit
| Now : Eff Time
| TransitionCtx (s : ManagedSession) : Eff (res TransitionContext)
| PrepareResume (s : ManagedSession) : Eff (option RotationRecord * option error)
| DiscardPending (id : string) : Eff (option error)
| RefreshGitConfigFingerprint (id : string) : Eff (option error)
| ResetRestartCounters (id : string) : Eff (option error)
| Suppression_Clear (id : string) : Eff (option error)
| RotationRecord_event (id : string) (kind : SupervisorEventKind) (step : SupervisorRotateStep) : Eff (option error)
| GoRotation (id : string) : Eff unit
| RotationResumer (s : ManagedSession) : Eff (option error)
| RecoveryStarter (s : ManagedSession) : Eff (option error).

Abbreviation M := (prog Eff).

(** ** The patch of a record ([UpdateSessionPatch]) *)

#[export] Instance PendingSend_eq_dec : EqDecision PendingSend.
Proof. solve_decision. Defined.
#[export] Instance LastSendRecord_eq_dec : EqDecision LastSendRecord.
Proof. solve_decision. Defined.
#[export] Instance SendGateRecord_eq_dec : EqDecision SendGateRecord.
Proof. solve_decision. Defined.
#[export] Instance RotationCheckpointSnapshot_eq_dec : EqDecision RotationCheckpointSnapshot.
Proof. solve_decision. Defined.
#[export] Instance RotationRecord_eq_dec : EqDecision RotationRecord.
Proof. solve_decision. Defined.

(** A field that the change has touched is taken from it, any other from the record. *)
Definition patch_field {A : Type} `{EqDecision A} (f : ManagedSession -> A) (before after current : ManagedSession) : A :=
  if decide (f before = f after) then f current else f after.

Definition patch (before after current : ManagedSession) : ManagedSession :=
  let p := fun (A : Type) (H : EqDecision A) (f : ManagedSession -> A) => patch_field f before after current in
  mkSession (p _ _ s_GitPhase) (p _ _ s_SchemaVersion) (p _ _ s_SessionID) (p _ _ s_ProjectID) (p _ _ s_CLI)
    (p _ _ s_Generation) (p _ _ s_State) (p _ _ s_StateSince) (p _ _ s_StopScope) (p _ _ s_StopReason) (p _ _ s_ExitReason)
    (p _ _ s_ClaudeSessionID) (p _ _ s_PreviousClaudeSessionID) (p _ _ s_ChildPID) (p _ _ s_ChildStartedAt)
    (p _ _ s_SendGate) (p _ _ s_LastSend) (p _ _ s_RestartCount) (p _ _ s_RestartTimes) (p _ _ s_Rotation)
    (p _ _ s_AutoContinueDisabledReason) (p _ _ s_PendingRemoteControl) (p _ _ s_RemoteControlConfirmed)
    (p _ _ s_PendingRemoteControlSince) (p _ _ s_PreviousState) (p _ _ s_LastVerifiedFingerprint)
    (p _ _ s_LastVerifiedResult) (p _ _ s_LastFailureFingerprint) (p _ _ s_LastFailureReason)
    (p _ _ s_LastPushFailedHead) (p _ _ s_GitConfigFingerprint).

Definition find_session (id : string) (sessions : list ManagedSession) : option ManagedSession :=
  List.find (fun s => bool_decide (s_SessionID s = id)) sessions.

Definition find (id : string) : M (res ManagedSession) :=
  listed ← call ListSessions;
  mret (match listed with
        | Err err => Err err
        | Ok sessions => match find_session id sessions with Some s => Ok s | None => Err (Sentinel ErrSessionNotFound) end
        end).

(** [persistSessionPatch]: only a record that the patch has changed is saved. *)
Definition persistSessionPatch (before after : ManagedSession) : M (option error) :=
  let id := s_SessionID after in
  call (LockRecord id);;
  r ← (found ← find id;
       match found with
       | Err err => mret (Some err)
       | Ok current =>
           old ← call (Marshal current);
           match old with
           | Err err => mret (Some err)
           | Ok old =>
               let current := patch before after current in
               new ← call (Marshal current);
               match new with
               | Err err => mret (Some err)
               | Ok new => if bool_decide (old = new) then mret None else call (SaveSession current)
               end
           end
       end);
  call (UnlockRecord id);;
  mret r.

(** ** The use case *)

Record StopControlUseCase : Type := mkStopControl {
  has_autoContinue : bool;
  has_rotation : bool;
  has_rotationResumer : bool;
  has_recoveryStarter : bool;
  has_suppression : bool;
  has_maintenance : bool;
  has_transitionCtx : bool }.

Definition terminal (s : SupervisorSessionState) : bool :=
  match s with SessionExited | SessionFailed => true | _ => false end.

Definition no_context : TransitionContext :=
  mkContext (SupervisorCliOther "") 0 0 0 false false false (SupervisorStopScopeOther "") 0 0 NoSessionState NoStopReason false
    NoRotateStep false false false.

Section UseCase.
Context (u : StopControlUseCase).

(** *** Stop *)

(** One session: whether it has been stopped by this call. *)
Definition stop_one (scope : SupervisorStopScope) (reason : SupervisorStopReason) (s : ManagedSession)
    : M (option error * bool) :=
  changed ← (if bool_decide (s_State s = SessionStopped)
             then mret (Ok (if bool_decide (s_StopScope s = scope) then None
                            else Some (s <| s_StopScope := scope |>, false)))
             else if terminal (s_State s) then mret (Ok None)
             else
               now ← call Now;
               match Apply EventStop (no_context <| c_StopReason := reason |>) now (s <| s_PreviousState := s_State s |>) with
               | (_, Err err) => mret (Err err)
               | (s, Ok _) => mret (Ok (Some (s <| s_StopScope := scope |>, true)))
               end);
  match changed with
  | Err err => mret (Some err, false)
  | Ok None => mret (None, false)
  | Ok (Some (after, transitioned)) =>
      err ← persistSessionPatch s after;
      match err with
      | Some _ => mret (err, false)
      | None =>
          if transitioned : bool then
            call (Record (s_SessionID s) EventKindSessionStopped (s_StopReason after));;
            call (NotifyEvent EventKindSessionStopped (s_SessionID s));;
            mret (None, true)
          else mret (None, false)
      end
  end.

Fixpoint stop_each (wasStopped : bool) (sessions : list ManagedSession) (stopped : list string) : M (list string * option error) :=
  match sessions with
  | [] => mret (stopped, None)
  | s :: sessions =>
      (if has_autoContinue u && negb wasStopped then call (ClearCandidate (s_SessionID s)) else mret tt);;
      '(err, now) ← stop_one StopScopeGlobal StopGlobal s;
      match err with
      | Some _ => mret (stopped, err)
      | None => stop_each wasStopped sessions (if now : bool then stopped ++ [s_SessionID s] else stopped)
      end
  end.

Definition stop_everything : M (list string * option error) :=
  listed ← call ListSessions;
  match listed with
  | Err err => mret ([], Some err)
  | Ok sessions =>
      wasStopped ← call IsGlobalStopped;
      err ← call EnableGlobal;
      match err with
      | Some _ => mret ([], err)
      | None =>
          (if wasStopped : bool then mret tt else call (Record "" EventKindStopSet StopGlobal));;
          stop_each wasStopped sessions []
      end
  end.

Definition stop_session (id : string) : M (list string * option error) :=
  match NewSessionID id with
  | Err err => mret ([], Some err)
  | Ok _ =>
      found ← find id;
      match found with
      | Err err => mret ([], Some err)
      | Ok s =>
          wasStopped ← call (IsStopped id);
          err ← call (EnableSession id);
          match err with
          | Some _ => mret ([], err)
          | None =>
              (if wasStopped : bool then mret tt
               else call (Record id EventKindStopSet StopSession);;
                    if has_autoContinue u then call (ClearCandidate id) else mret tt);;
              '(err, now) ← stop_one StopScopeSession StopSession s;
              mret (if now : bool then [id] else [], err)
          end
      end
  end.

(** [None] stops everything. *)
Definition Stop (id : option string) : M (list string * option error) :=
  call Lock;;
  r ← (match id with None => stop_everything | Some id => stop_session id end);
  call Unlock;;
  mret r.

(** *** Resume *)

Definition exit_process_alive : error := Errorf "exit_process_alive" [].
Definition claude_session_id_missing : error := Errorf "claude_session_id_missing" [].

(** The /exit of the hand-over has been sent, or has timed out. *)
Definition exit_sent (s : ManagedSession) (timedOut : bool) : bool :=
  timedOut
  || match sg_Pending (s_SendGate s) with Some p => bool_decide (ps_Kind p = SendKindHandoffExit) | None => false end
  || match s_LastSend s with Some l => bool_decide (ls_Kind l = SendKindHandoffExit) | None => false end.

(** The context of the transition, and what the rotation forbids. *)
Definition resume_context (scope : SupervisorStopScope) (s : ManagedSession) (c : TransitionContext) : res TransitionContext :=
  let c := c <| c_ResumeScope := scope |> in
  match s_Rotation s with
  | None => Ok c
  | Some r =>
      let timedOut := bool_decide (ro_FailReason r = RotateFailExitTimeout) in
      let c := c <| c_RotationStep := ro_Step r |> <| c_RotationExitTimedOut := timedOut |> in
      if bool_decide (ro_Step r = RotateSendExit) && c_ChildAlive c && exit_sent s timedOut then Err exit_process_alive
      else if negb (c_ChildAlive c) && (bool_decide (ro_Step r = RotateSendEnd) || bool_decide (ro_Step r = RotateConfirmHandoff))
              && bool_decide (s_ClaudeSessionID s = ""%string) && bool_decide (s_PreviousClaudeSessionID s = ""%string)
      then Err claude_session_id_missing
      else Ok c
  end.

(** The transition, under the guard: the session afterwards, and the error. *)
Definition resume_transition_guarded (before s : ManagedSession) (c : TransitionContext) : M (ManagedSession * option error) :=
  now ← call Now;
  match Apply EventResume c now s with
  | (s, Err err) =>
      (if c_OrphanChildAlive c
       then call (Record (s_SessionID s) EventKindResumeRefused NoStopReason);;
            call (NotifyEvent EventKindOrphanChildAlive (s_SessionID s))
       else mret tt);;
      mret (s, Some err)
  | (s, Ok _) =>
      '(s, err) ← (if is_some (s_Rotation s) && has_rotation u
                   then '(rotation, err) ← call (PrepareResume s);
                        let s := s <| s_Rotation := rotation |> in
                        mret (if is_none err then s <| s_PreviousState := SessionRotating |> else s, err)
                   else mret (s, None));
      match err with
      | Some _ => mret (s, err)
      | None => err ← persistSessionPatch before s; mret (s, err)
      end
  end.

Definition guarded_resume (scope : SupervisorStopScope) (before s : ManagedSession) (c : TransitionContext)
    : M (ManagedSession * option error) :=
  refused ← call (GuardBegin scope (s_SessionID s));
  match refused with
  | Some _ => mret (s, refused)
  | None =>
      r ← resume_transition_guarded before s c;
      call GuardEnd;;
      mret r
  end.

Definition when_err (b : bool) (p : M (option error)) (k : M (option error)) : M (option error) :=
  err ← (if b then p else mret None);
  match err with Some _ => mret err | None => k end.

(** The part after the session has left the stop. *)
Definition resumed (scope : SupervisorStopScope) (resumeStep : SupervisorRotateStep) (s : ManagedSession) : M (option error) :=
  let before := s in
  let id := s_SessionID s in
  (if bool_decide (scope = StopScopeSession) then call (Record id EventKindStopCleared NoStopReason) else mret tt);;
  s ← (if is_some (sg_Pending (s_SendGate s)) then
         call (Record id EventKindSendPendingDiscarded NoStopReason);;
         mret (s <| s_SendGate := s_SendGate s <| sg_Pending := None |> <| sg_UnconfirmedDiscarded := true |> |>)
       else mret s);
  when_err (has_maintenance u) (call (DiscardPending id))
  (when_err (has_maintenance u) (call (RefreshGitConfigFingerprint id))
  (when_err (has_suppression u) (call (Suppression_Clear id))
  (let s := if is_some (s_Rotation s) then s <| s_RestartCount := 0 |> else s in
   let starting := (s_ChildPID s =? 0) && is_none (s_Rotation s) && has_recoveryStarter u in
   let s := if starting then s <| s_RestartCount := 0 |> <| s_RestartTimes := [] |> else s in
   when_err (starting && has_maintenance u) (call (ResetRestartCounters id))
   ((if starting then call (Record id EventKindRestartCountersReset NoStopReason) else mret tt);;
    when_err true (persistSessionPatch before s)
    (let rotating := is_some (s_Rotation s) && has_rotation u in
     let step := match s_Rotation s with Some r => ro_Step r | None => NoRotateStep end in
     when_err (rotating && negb (bool_decide (resumeStep = step))) (call (RotationRecord_event id EventKindRotateStepDone resumeStep))
     (when_err rotating (call (RotationRecord_event id EventKindRotateResumed resumeStep))
     (call (Record id EventKindSessionResumed NoStopReason);;
      call (NotifyEvent EventKindSessionResumed id);;
      when_err true (err ← call (GuardBegin scope id); match err with Some _ => mret err | None => call GuardEnd;; mret None end)
      (if rotating then call (GoRotation id);; mret None
       else if is_some (s_Rotation s) && has_rotationResumer u then call (RotationResumer s)
       else if (s_ChildPID s =? 0) && has_recoveryStarter u then call (RecoveryStarter s)
       else mret None)))))))).

Definition resumeOne (scope : SupervisorStopScope) (s : ManagedSession) : M (ManagedSession * option error) :=
  let before := s in
  let resumeStep := match s_Rotation s with Some r => ro_Step r | None => NoRotateStep end in
  ctx ← (if has_transitionCtx u then call (TransitionCtx s) else mret (Ok no_context));
  match ctx with
  | Err err => mret (s, Some err)
  | Ok c =>
      let s := if negb (c_ChildAlive c) && (0 <? s_ChildPID s) then s <| s_ChildPID := 0 |> <| s_ChildStartedAt := None |> else s in
      match resume_context scope s c with
      | Err err => mret (s, Some err)
      | Ok c =>
          (if has_autoContinue u then call (Reset (s_SessionID s)) else mret tt);;
          '(s, err) ← guarded_resume scope before s c;
          match err with
          | Some _ => mret (s, err)
          | None => err ← resumed scope resumeStep s; mret (s, err)
          end
      end
  end.

(** [err.Error()] of the errors that [resumeReason] tells apart. *)
Definition error_text (err : error) : option string :=
  match err with
  | Errorf format [] => Some format
  | TransitionError code => Some code
  | _ => None
  end.

Definition resumeReason (s : ManagedSession) (err : error) : option string :=
  match error_text err with
  | None => None
  | Some text =>
      if existsb (String.eqb text) ["stop_recreated"; "still_stopped_by_global"; "exit_process_alive"; "claude_session_id_missing"]%string
      then Some text
      else if (text =? "SUP_ORPHAN_CHILD_ALIVE")%string then Some "orphan_child_alive"%string
      else if (text =? "SUP_CLAUDE_SESSION_ID_MISSING")%string then Some "claude_session_id_missing"%string
      else if (text =? "SUP_ROTATE_STEP_FAILED")%string then
        match s_Rotation s with
        | Some r =>
            if bool_decide (ro_Step r = RotateSendExit) && bool_decide (ro_FailReason r = RotateFailExitTimeout)
            then Some "exit_process_alive"%string else None
        | None => None
        end
      else None
  end.

Record ResumeOutput : Type := mkResumeOutput { Resumed : list string; StillStopped : list (string * string) }.

Definition add_resumed (id : string) (o : ResumeOutput) : ResumeOutput := mkResumeOutput (Resumed o ++ [id]) (StillStopped o).
Definition add_still (id reason : string) (o : ResumeOutput) : ResumeOutput :=
  mkResumeOutput (Resumed o) (StillStopped o ++ [(id, reason)]).

(** One session resumed: the output, and the error that is not a known reason. *)
Definition resume_into (scope : SupervisorStopScope) (s : ManagedSession) (out : ResumeOutput) : M (ResumeOutput * option error) :=
  let id := s_SessionID s in
  '(s, err) ← resumeOne scope s;
  mret (match err with
        | None => (add_resumed id out, None)
        | Some err =>
            match resumeReason s err with
            | Some reason => (add_still id reason out, None)
            | None => (out, Some err)
            end
        end).

Fixpoint resume_each (sessions : list ManagedSession) (out : ResumeOutput) : M (ResumeOutput * option error) :=
  match sessions with
  | [] => mret (out, None)
  | s :: sessions =>
      let id := s_SessionID s in
      if negb (bool_decide (s_State s = SessionStopped)) || negb (bool_decide (s_StopScope s = StopScopeGlobal))
      then resume_each sessions out
      else if negb (bool_decide (s_StopReason s = StopGlobal)) then
        err ← persistSessionPatch s (s <| s_StopScope := StopScopeNone |>);
        match err with
        | Some _ => mret (out, err)
        | None => resume_each sessions (add_still id "reason_not_resumed_by_global" out)
        end
      else
        stopped ← call (IsSessionStopped id);
        if (stopped : bool) then resume_each sessions (add_still id "still_stopped_by_global" out)
        else
          '(out, err) ← resume_into StopScopeGlobal s out;
          match err with Some _ => mret (out, err) | None => resume_each sessions out end
  end.

Definition no_output : ResumeOutput := mkResumeOutput [] [].

Definition resume_everything : M (ResumeOutput * option error) :=
  wasStopped ← call IsGlobalStopped;
  err ← call ClearGlobal;
  match err with
  | Some _ => mret (no_output, err)
  | None =>
      (if wasStopped : bool then call (Record "" EventKindStopCleared NoStopReason) else mret tt);;
      listed ← call ListSessions;
      match listed with
      | Err err => mret (no_output, Some err)
      | Ok sessions => resume_each sessions no_output
      end
  end.

Definition resume_session (id : string) : M (ResumeOutput * option error) :=
  found ← find id;
  match found with
  | Err err => mret (no_output, Some err)
  | Ok s =>
      globally ← call IsGlobalStopped;
      if (globally : bool) then mret (add_still id "still_stopped_by_global" no_output, None)
      else
        err ← call (ClearSession id);
        match err with
        | Some _ => mret (no_output, err)
        | None =>
            if negb (bool_decide (s_State s = SessionStopped)) then mret (no_output, None)
            else
              stopped ← call (IsStopped id);
              if (stopped : bool) then mret (add_still id "stop_recreated" no_output, None)
              else resume_into StopScopeSession s no_output
        end
  end.

Definition ErrResumeForbidden : error := Errorf "SUP_RESUME_FORBIDDEN" [].

Definition Resume (id : option string) (isatty supervised : bool) : M (ResumeOutput * option error) :=
  if negb isatty || supervised then
    call (Record (default "" id) EventKindResumeRefused NoStopReason);;
    mret (no_output, Some ErrResumeForbidden)
  else
    match match id with Some id => is_ok (NewSessionID id) | None => true end with
    | false => mret (no_output, Some (Sentinel ErrSessionNotFound))
    | true =>
        call Lock;;
        r ← (match id with None => resume_everything | Some id => resume_session id end);
        call Unlock;;
        mret r
    end.
End UseCase.

(** ** What it guarantees *)

(** The target of a call: a session, or everything. *)
Abbreviation target := (option string).

Definition enabled (t : target) (h : list (called Eff)) : Prop :=
  match t with None => Ev EnableGlobal None ∈ h | Some id => Ev (EnableSession id) None ∈ h end.
Definition cleared (t : target) (h : list (called Eff)) : Prop :=
  match t with None => Ev ClearGlobal None ∈ h | Some id => Ev (ClearSession id) None ∈ h end.

(** Between the guard's answer and its end. *)
Fixpoint guarded (h : list (called Eff)) : bool :=
  match h with
  | [] => false
  | Ev e r :: h =>
      match e in Eff X return X -> bool with
      | GuardBegin _ _ => fun r => is_none r
      | GuardEnd => fun _ => false
      | _ => fun _ => guarded h
      end r
  end.

(** The record that a save replaces: the one just listed under the lock of the record. *)
Definition replaces (x current : ManagedSession) (h : list (called Eff)) : Prop :=
  exists old new sessions id rest,
    h = Ev (Marshal x) (Ok new) :: Ev (Marshal current) (Ok old) :: Ev ListSessions (Ok sessions) :: Ev (LockRecord id) tt :: rest
    /\ find_session id sessions = Some current.

(** Stopping: a save comes after the stop has been set, and changes the state of the
    record that it replaces to stopped or not at all. *)
Definition stop_orderly (t : target) (e : called Eff) (before : list (called Eff)) : Prop :=
  match e with
  | Ev (SaveSession x) _ =>
      enabled t before /\ exists current, replaces x current before /\ (s_State x = s_State current \/ s_State x = SessionStopped)
  | _ => True
  end.

(** Resuming: a save comes after the stop has been cleared, and changes a state inside
    the guard only; work is started when the guard has been passed once more, after
    the resumption has been saved and announced. *)
Definition resume_orderly (t : target) (e : called Eff) (before : list (called Eff)) : Prop :=
  match e with
  | Ev e _ =>
      match e with
      | SaveSession x =>
          cleared t before /\ exists current, replaces x current before /\ (s_State x = s_State current \/ guarded before = true)
      | GoRotation _ | RotationResumer _ | RecoveryStarter _ =>
          cleared t before /\ exists scope id rest,
            before = Ev GuardEnd tt :: Ev (GuardBegin scope id) None :: rest
            /\ Ev (Record id EventKindSessionResumed NoStopReason) tt ∈ rest
      | _ => True
      end
  end.

(** The record carries the change: it has been saved, or it had it already. *)
Definition recorded (before after : ManagedSession) (h : list (called Eff)) : Prop :=
  exists current, s_SessionID current = s_SessionID after
    /\ (Ev (SaveSession (patch before after current)) None ∈ h
        \/ exists text, Ev (Marshal current) (Ok text) ∈ h /\ Ev (Marshal (patch before after current)) (Ok text) ∈ h).

(** What a stop without an error has done to a session. *)
Definition stopped_by (scope : SupervisorStopScope) (reason : SupervisorStopReason) (s : ManagedSession) (h : list (called Eff)) : Prop :=
  if bool_decide (s_State s = SessionStopped) then
    s_StopScope s = scope \/ recorded s (s <| s_StopScope := scope |>) h
  else
    terminal (s_State s) = true
    \/ exists after, s_State after = SessionStopped /\ s_StopReason after = reason /\ s_StopScope after = scope /\ recorded s after h.

(** The sessions that a stop ends. *)
Definition running (s : ManagedSession) : bool := negb (bool_decide (s_State s = SessionStopped) || terminal (s_State s)).

Definition stop_answer (t : target) (h : list (called Eff)) (stopped : list string) : Prop :=
  match t with
  | None => exists sessions, Ev ListSessions (Ok sessions) ∈ h
      /\ Forall (fun s => stopped_by StopScopeGlobal StopGlobal s h) sessions
      /\ stopped = map s_SessionID (List.filter running sessions)
  | Some id => exists sessions s, Ev ListSessions (Ok sessions) ∈ h /\ find_session id sessions = Some s
      /\ stopped_by StopScopeSession StopSession s h
      /\ stopped = if running s then [id] else []
  end.

(** What a resumption has found out about a session that it answers as resumed. *)
Definition resumable (t : target) (h : list (called Eff)) (id : string) : Prop :=
  (exists sessions s, Ev ListSessions (Ok sessions) ∈ h /\ s ∈ sessions /\ s_SessionID s = id /\ s_State s = SessionStopped
     /\ match t with
        | None => s_StopScope s = StopScopeGlobal /\ s_StopReason s = StopGlobal /\ Ev (IsSessionStopped id) false ∈ h
        | Some id' => id' = id /\ Ev IsGlobalStopped false ∈ h /\ Ev (IsStopped id) false ∈ h
        end)
  /\ Ev (Record id EventKindSessionResumed NoStopReason) tt ∈ h.

(** ** Lemmas *)

Abbreviation wps := (wp record_ev).
Ltac wp_cbn := cbn [wp prog_bind mbind prog_mbind mret prog_mret call].

(** Neither a save, nor a guard, nor the start of work. *)
Definition quiet (e : called Eff) : Prop :=
  match e with
  | Ev e _ =>
      match e with
      | SaveSession _ | GuardBegin _ _ | GuardEnd | GoRotation _ | RotationResumer _ | RecoveryStarter _ => False
      | _ => True
      end
  end.

Lemma guarded_quiet new h : Forall quiet new -> guarded (new ++ h) = guarded h.
Proof. induction 1 as [|[X e x] new He Hnew IH]; [done|]. by destruct e. Qed.

Lemma in_suffix {A : Type} (x : A) h h' : h `suffix_of` h' -> x ∈ h -> x ∈ h'.
Proof. intros [new ->] H. apply elem_of_app. by right. Qed.

Lemma patch_State before after current :
  s_State (patch before after current) = if decide (s_State before = s_State after) then s_State current else s_State after.
Proof. reflexivity. Qed.

Lemma find_session_id id sessions s : find_session id sessions = Some s -> s_SessionID s = id /\ s ∈ sessions.
Proof.
  intros [Hin Hid]%List.find_some. apply bool_decide_eq_true in Hid. split; [done|]. by apply list_elem_of_In.
Qed.

Lemma Apply_stop c now s s' :
  s_State s <> SessionStopped -> terminal (s_State s) = false -> Apply EventStop c now s = (s', Ok tt) ->
  s_State s' = SessionStopped /\ s_StopReason s' = c_StopReason c.
Proof.
  intros Hs Ht HA. assert (finished (s_State s) = false) as Hf by (by destruct (s_State s)).
  revert HA. unfold Apply, mbind, ST_mbind, st_get. cbn [fst snd].
  set (c' := if (SupervisorCli_string (c_CLI c) =? "")%string then c <| c_CLI := s_CLI s |> else c).
  assert (c_StopReason c' = c_StopReason c) as Hr by (unfold c'; by destruct (_ =? _)%string).
  unfold TransitionWithError. destruct (Transition (s_State s) EventStop c') as [to ok] eqn:Et.
  destruct (_ && _) eqn:E0; [done|].
  destruct ok; (match goal with |- context [if ?b then st_fail _ else _] => destruct b end; [done|]);
    (match goal with |- context [if ?b then st_fail _ else _] => destruct b end; [done|]).
  - assert (to = SessionStopped) as -> by (destruct (s_State s); cbn in Et; by simplify_eq).
    intros E. assert (s' = fst (Apply_accepted EventStop c' now (s_State s) SessionStopped s)) as -> by (by rewrite E).
    rewrite Apply_accepted_State, Apply_accepted_stops by done. by rewrite Hr.
  - match goal with |- context [Apply_rejected _ _ ?e] => destruct (Apply_rejected_spec EventStop c' e s) as (e' & He & _) end.
    intros E. by rewrite E in He.
Qed.

Lemma quiet_hist_all (P : called Eff -> list (called Eff) -> Prop) new h :
  (forall e b, quiet e -> P e b) -> Forall quiet new -> hist_all P h -> hist_all P (new ++ h).
Proof. intros HP. induction 1 as [|e new He Hnew IH]; [done|]. intros Hh. split; [by apply HP|by apply IH]. Qed.

(** A quiet program, under a history that keeps [P]. *)
Lemma wp_in_order {A : Type} (P : called Eff -> list (called Eff) -> Prop) (p : M A) h Q :
  (forall e b, quiet e -> P e b) -> emits record_ev quiet p -> hist_all P h ->
  (forall new a, Forall quiet new -> hist_all P (new ++ h) -> Q (new ++ h) a) -> wps p h Q.
Proof.
  intros HP Hp Hh HQ. apply (wp_emits_any record_ev quiet); [done|]. intros new a Hnew. apply HQ; [done|].
  by apply quiet_hist_all.
Qed.

Lemma Apply_SessionID (event : TransitionEvent) c now s s' r : Apply event c now s = (s', r) -> s_SessionID s' = s_SessionID s.
Proof.
  intros HA. assert (s' = (Apply event c now s).1) as -> by (by rewrite HA). clear HA.
  destruct (Apply_cases event c now s) as [E _|E|_ _ E|c' to _ _ E _]; rewrite E; try done.
  unfold Apply_accepted, set_stop_scope. unfold_monads. destruct_ifs; done.
Qed.

(** A patch that is persisted: the saves are in order if this one is, and without an error
    the record carries the change. *)
Lemma persist_spec P before after h Q :
  (forall e b, quiet e -> P e b) ->
  (forall current r b, h `suffix_of` b -> guarded b = guarded h -> replaces (patch before after current) current b ->
    P (Ev (SaveSession (patch before after current)) r) b) ->
  s_SessionID before = s_SessionID after ->
  hist_all P h ->
  (forall h' err, hist_all P h' -> h `suffix_of` h' -> guarded h' = guarded h -> (err = None -> recorded before after h') -> Q h' err) ->
  wps (persistSessionPatch before after) h Q.
Proof.
  intros HP Hsave Hids Hh HQ. unfold persistSessionPatch. intros []. wp_cbn. intros [sessions|err]; wp_cbn.
  2:{ intros []. apply HQ; [repeat (split; [by apply HP|]); done|by do 3 apply suffix_cons_r|done|done]. }
  destruct (find_session (s_SessionID after) sessions) as [current|] eqn:Ef; wp_cbn.
  2:{ intros []. apply HQ; [repeat (split; [by apply HP|]); done|by do 3 apply suffix_cons_r|done|done]. }
  destruct (find_session_id _ _ _ Ef) as [Hid _].
  intros [old|err]; wp_cbn.
  2:{ intros []. apply HQ; [repeat (split; [by apply HP|]); done|by do 4 apply suffix_cons_r|done|done]. }
  intros [new|err]; wp_cbn.
  2:{ intros []. apply HQ; [repeat (split; [by apply HP|]); done|by do 5 apply suffix_cons_r|done|done]. }
  case_bool_decide as En; wp_cbn.
  { intros []. apply HQ; [repeat (split; [by apply HP|]); done|by do 5 apply suffix_cons_r|done|].
    intros _. exists current. split; [done|]. right. exists new. subst old. split; set_solver. }
  intros r []. apply HQ.
  - split; [by apply HP|]. split.
    + apply Hsave; [by do 4 apply suffix_cons_r|done|]. by repeat eexists.
    + repeat (split; [by apply HP|]). done.
  - by do 6 apply suffix_cons_r.
  - done.
  - intros ->. exists current. split; [done|]. left. set_solver.
Qed.

Lemma suffix_quiet new (h : list (called Eff)) : h `suffix_of` new ++ h.
Proof. by exists new. Qed.

Lemma in_app_r {A : Type} (x : A) new h : x ∈ h -> x ∈ new ++ h.
Proof. intros H. apply elem_of_app. by right. Qed.

Lemma enabled_suffix t h h' : h `suffix_of` h' -> enabled t h -> enabled t h'.
Proof. intros Hs. destruct t; by apply in_suffix. Qed.
Lemma cleared_suffix t h h' : h `suffix_of` h' -> cleared t h -> cleared t h'.
Proof. intros Hs. destruct t; by apply in_suffix. Qed.

Lemma recorded_suffix before after h h' : h `suffix_of` h' -> recorded before after h -> recorded before after h'.
Proof.
  intros Hs (current & Hid & [H|(text & H1 & H2)]); exists current; (split; [done|]);
    [left|right; exists text; split]; by apply (in_suffix _ h).
Qed.

Lemma stopped_by_suffix scope reason s h h' : h `suffix_of` h' -> stopped_by scope reason s h -> stopped_by scope reason s h'.
Proof.
  intros Hs. unfold stopped_by. case_bool_decide.
  - intros [H'|H']; [by left|right; by apply (recorded_suffix _ _ h)].
  - intros [H'|(after & ? & ? & ? & H')]; [by left|right]. exists after. split_and!; [done..|]. by apply (recorded_suffix _ _ h).
Qed.

Lemma stop_quiet t e b : quiet e -> stop_orderly t e b.
Proof. destruct e as [X e x]. by destruct e. Qed.
Lemma resume_quiet t e b : quiet e -> resume_orderly t e b.
Proof. destruct e as [X e x]. by destruct e. Qed.

Section Proofs.
Context (u : StopControlUseCase).

(** *** Stopping *)

Lemma stop_one_spec t scope reason s h Q :
  hist_all (stop_orderly t) h -> enabled t h ->
  (forall h' err b, hist_all (stop_orderly t) h' -> h `suffix_of` h' ->
    (err = None -> stopped_by scope reason s h' /\ b = running s) -> Q h' (err, b)) ->
  wps (stop_one scope reason s) h Q.
Proof.
  intros Hh Hen HQ. unfold stop_one.
  assert (Hpersist : forall after transitioned h1,
    hist_all (stop_orderly t) h1 -> h `suffix_of` h1 -> s_SessionID s = s_SessionID after ->
    (s_State s = s_State after \/ s_State after = SessionStopped) ->
    (forall h', h `suffix_of` h' -> recorded s after h' -> stopped_by scope reason s h') -> transitioned = running s ->
    wps (err ← persistSessionPatch s after;
         match err with
         | Some _ => mret (err, false)
         | None =>
             if transitioned : bool then
               call (Record (s_SessionID s) EventKindSessionStopped (s_StopReason after));;
               call (NotifyEvent EventKindSessionStopped (s_SessionID s));;
               mret (None, true)
             else mret (None, false)
         end) h1 Q).
  { intros after transitioned h1 Hh1 Hs1 Hid Hst Hby Htr. apply wp_bind. apply (persist_spec (stop_orderly t)); [by apply stop_quiet| |done|done|].
    - intros current r b Hb _ Hrep. split; [apply (enabled_suffix _ h); [by etrans|done]|].
      exists current. split; [done|]. rewrite patch_State. destruct (decide _); [by left|]. destruct Hst; [done|by right].
    - intros h' [err|] Hh' Hs' _ Hrec; [apply HQ; [done|by etrans|done]|].
      destruct transitioned.
      + intros [] []. apply HQ; [do 2 (split; [done|]); done|do 2 apply suffix_cons_r; by etrans|]. intros _.
        split; [|done]. apply Hby; [do 2 apply suffix_cons_r; by etrans|].
        apply (recorded_suffix _ _ h'); [by do 2 apply suffix_cons_r|]. by apply Hrec.
      + apply HQ; [done|by etrans|]. intros _. split; [|done]. apply Hby; [by etrans|]. by apply Hrec. }
  apply wp_bind. case_bool_decide as Est.
  { wp_cbn. case_bool_decide as Esc.
    - apply HQ; [done|done|]. intros _. split; [|unfold running; by rewrite bool_decide_eq_true_2].
      unfold stopped_by. rewrite bool_decide_eq_true_2 by done. by left.
    - apply (Hpersist (s <| s_StopScope := scope |>) false); [done|done|done|by left| |unfold running; by rewrite bool_decide_eq_true_2].
      intros h' Hs' Hrec. unfold stopped_by. rewrite bool_decide_eq_true_2 by done. by right. }
  destruct (terminal (s_State s)) eqn:Et; wp_cbn.
  { apply HQ; [done|done|]. intros _. unfold stopped_by, running. rewrite bool_decide_eq_false_2, Et by done. by split; [left|]. }
  intros now. destruct (Apply EventStop _ now _) as [after [[]|err]] eqn:EA; wp_cbn.
  2:{ apply HQ; [by split|by apply suffix_cons_r|done]. }
  pose proof (Apply_SessionID _ _ _ _ _ _ EA) as Hid. cbn in Hid.
  eapply Apply_stop in EA as [H1 H2]; [|done|done].
  apply (Hpersist (after <| s_StopScope := scope |>) true); [by split|by apply suffix_cons_r| |by right| |].
  - done.
  - intros h' Hs' Hrec. unfold stopped_by. rewrite bool_decide_eq_false_2 by done. right.
    by exists (after <| s_StopScope := scope |>).
  - unfold running. by rewrite bool_decide_eq_false_2, Et.
Qed.

Lemma stop_each_spec wasStopped sessions stopped h Q :
  hist_all (stop_orderly None) h -> enabled None h ->
  (forall h' out err, hist_all (stop_orderly None) h' -> h `suffix_of` h' ->
    (err = None -> Forall (fun s => stopped_by StopScopeGlobal StopGlobal s h') sessions
      /\ out = stopped ++ map s_SessionID (List.filter running sessions)) -> Q h' (out, err)) ->
  wps (stop_each u wasStopped sessions stopped) h Q.
Proof.
  intros Hh Hen HQ. induction sessions as [|s sessions IH] in stopped, h, Hh, Hen, HQ |- *; cbn [stop_each].
  { apply HQ; [done|done|]. intros _. split; [by constructor|]. by rewrite app_nil_r. }
  apply wp_bind. apply (wp_in_order (stop_orderly None)); [by apply stop_quiet| |done|].
  { destruct (_ && _); [by apply emits_call|done]. }
  intros new _ Hnew Hh1. apply wp_bind. apply (stop_one_spec None); [done|by apply (enabled_suffix _ h); [apply suffix_quiet|]|].
  intros h2 [err|] b Hh2 Hs2 Hout; [apply HQ; [done|etrans; [apply suffix_quiet|done]|done]|].
  assert (h `suffix_of` h2) as Hs by (etrans; [apply suffix_quiet|exact Hs2]). destruct (Hout eq_refl) as [Hby Hb].
  apply IH; [done|by apply (enabled_suffix _ h)|]. intros h' out err Hh' Hs' Hout'.
  apply HQ; [done|by etrans|]. intros He. destruct (Hout' He) as [Hall ->]. split.
  - constructor; [by apply (stopped_by_suffix _ _ _ h2)|done].
  - cbn. rewrite <- Hb. destruct b; [by rewrite <- app_assoc|done].
Qed.

(** C33. Stopping, whatever the stores answer.  Every save comes after the emergency stop
    has been set with its marker, replaces the record read last under its lock, and
    changes its state to stopped or not at all.  Without an error every listed session
    (or the one named) was over, or is recorded as stopped in the scope of the call and,
    unless it was stopped before, for its reason; and the answer names exactly those
    that were running. *)
Theorem Stop_correct (t : target) :
  wps (Stop u t) [] (fun h '(stopped, err) => hist_all (stop_orderly t) h /\ (err = None -> stop_answer t h stopped)).
Proof.
  intros []. apply wp_bind.
  enough (forall Q, (forall h' out err, hist_all (stop_orderly t) h' -> (err = None -> stop_answer t h' out) -> Q h' (out, err)) ->
    wps (match t with None => stop_everything u | Some id => stop_session u id end) [Ev Lock tt] Q) as H.
  { apply H. intros h' out err Hh' Ha. intros []. split; [by split|]. intros He. specialize (Ha He).
    assert (forall x, x ∈ h' -> x ∈ Ev Unlock tt :: h') as Hin by (intros x Hx; by right).
    destruct t as [id|]; cbn in *.
    - destruct Ha as (sessions & s & H1 & H2 & H3 & H4). exists sessions, s. split_and!; auto.
      apply (stopped_by_suffix _ _ _ h'); [by apply suffix_cons_r|done].
    - destruct Ha as (sessions & H1 & H2 & H3). exists sessions. split_and!; auto. eapply Forall_impl; [|exact H2].
      intros s. apply stopped_by_suffix. by apply suffix_cons_r. }
  intros Q HQ. destruct t as [id|].
  - unfold stop_session. destruct (NewSessionID id); [|by apply HQ]. apply wp_bind. intros [sessions|err]; [|by apply HQ].
    cbn. destruct (find_session id sessions) as [s|] eqn:Ef; [|by apply HQ].
    intros was [err|]; [by apply HQ|]. apply wp_bind.
    apply (wp_in_order (stop_orderly (Some id))); [by apply stop_quiet| |by repeat split|].
    { destruct was; [done|]. intros []. split; [done|]. cbn. destruct (has_autoContinue u); [by apply emits_call|done]. }
    intros new _ Hnew Hh1. apply wp_bind. apply (stop_one_spec (Some id)); [done|apply in_app_r; by left|].
    intros h' err b Hh' Hs' Hout. apply HQ; [done|]. intros He. destruct (Hout He) as [Hby ->]. exists sessions, s. split_and!; [|done..].
    apply (in_suffix _ _ _ Hs'). apply in_app_r. set_solver.
  - unfold stop_everything. intros [sessions|err]; [|by apply HQ]. intros was [err|]; [by apply HQ|]. apply wp_bind.
    apply (wp_in_order (stop_orderly None)); [by apply stop_quiet| |by repeat split|].
    { destruct was; [done|]. by apply emits_call. }
    intros new _ Hnew Hh1. apply stop_each_spec; [done|apply in_app_r; by left|].
    intros h' out err Hh' Hs' Hout. apply HQ; [done|]. intros He. destruct (Hout He) as [Hby ->]. exists sessions. split_and!; [|done..].
    apply (in_suffix _ _ _ Hs'). apply in_app_r. set_solver.
Qed.

(** *** Resuming *)

Section Resuming.
Context (t : target).

Definition resuming (h : list (called Eff)) : Prop := hist_all (resume_orderly t) h /\ cleared t h.

Lemma resuming_quiet new h : Forall quiet new -> resuming h -> resuming (new ++ h).
Proof.
  intros Hn [H1 H2]. split; [apply quiet_hist_all; [by apply resume_quiet|done|done]|].
  apply (cleared_suffix _ h); [apply suffix_quiet|done].
Qed.

(** Quiet calls in a resumption. *)
Lemma wp_resuming {A : Type} (p : M A) h Q :
  emits record_ev quiet p -> resuming h ->
  (forall h' a, resuming h' -> h `suffix_of` h' -> guarded h' = guarded h -> Q h' a) -> wps p h Q.
Proof.
  intros Hp Hh HQ. apply (wp_emits_any record_ev quiet); [done|]. intros new a Hn.
  apply HQ; [by apply resuming_quiet|apply suffix_quiet|by apply guarded_quiet].
Qed.

Lemma resume_persist_spec before after h Q :
  s_SessionID before = s_SessionID after -> (s_State before = s_State after \/ guarded h = true) -> resuming h ->
  (forall h' err, resuming h' -> h `suffix_of` h' -> Q h' err) ->
  wps (persistSessionPatch before after) h Q.
Proof.
  intros Hid Hst [Hh Hc] HQ. apply (persist_spec (resume_orderly t)); [by apply resume_quiet| |done|done|].
  - intros current r b Hb Hg Hrep. split; [by apply (cleared_suffix _ h)|]. exists current. split; [done|].
    rewrite patch_State. destruct Hst as [E|E]; [left; by rewrite decide_True|right; congruence].
  - intros h' err Hh' Hs _ _. apply HQ; [|done]. split; [done|]. by apply (cleared_suffix _ h).
Qed.

Lemma guarded_resume_spec scope before s c h Q :
  s_SessionID before = s_SessionID s -> resuming h ->
  (forall h' s' err, resuming h' -> h `suffix_of` h' -> s_SessionID s' = s_SessionID s -> Q h' (s', err)) ->
  wps (guarded_resume u scope before s c) h Q.
Proof.
  intros Hid [Hh Hc] HQ. unfold guarded_resume. intros [err|]; wp_cbn.
  { apply HQ; [|by apply suffix_cons_r|done]. split; [by split|]. by apply (cleared_suffix _ h); [apply suffix_cons_r|]. }
  set (h1 := Ev (GuardBegin scope (s_SessionID s)) None :: h).
  assert (resuming h1) as Hr1.
  { split; [by split|]. by apply (cleared_suffix _ h); [apply suffix_cons_r|]. }
  assert (h `suffix_of` h1) as Hs1 by (by apply suffix_cons_r).
  apply wp_bind.
  enough (forall Q', (forall h' s' err, resuming h' -> h1 `suffix_of` h' -> s_SessionID s' = s_SessionID s -> Q' h' (s', err)) ->
    wps (resume_transition_guarded u before s c) h1 Q') as H.
  { apply H. intros h' s' err [H1 H2] Hs' Hid' []. apply HQ; [|by apply suffix_cons_r; etrans|done].
    split; [by split|]. apply (cleared_suffix _ h'); [by apply suffix_cons_r|done]. }
  intros Q' HQ'. unfold resume_transition_guarded. intros now. wp_cbn. set (h2 := Ev Now now :: h1).
  assert (resuming h2) as Hr2 by (by apply (resuming_quiet [_]); [repeat constructor|]).
  assert (h1 `suffix_of` h2) as Hs2 by (by apply suffix_cons_r).
  destruct (Apply EventResume c now s) as [s' [[]|err]] eqn:EA; pose proof (Apply_SessionID _ _ _ _ _ _ EA) as Hid'.
  2:{ apply wp_bind. apply wp_resuming; [|done|].
      - destruct (c_OrphanChildAlive c); [|done]. intros []. split; [done|]. intros []. by split.
      - intros h' _ Hr' Hs' _. apply HQ'; [done|by etrans|done]. }
  apply wp_bind. apply (wp_emits record_ev quiet) with (Q := fun _ r => s_SessionID r.1 = s_SessionID s).
  - destruct (_ && _); [|done]. by intros [rotation err].
  - destruct (_ && _); [|done]. intros [rotation err]. by destruct err.
  - intros new [s2 [err|]] Hn Hid2; cbn in Hid2.
    + apply HQ'; [by apply resuming_quiet|etrans; [done|apply suffix_quiet]|done].
    + apply wp_bind. apply resume_persist_spec; [congruence| |by apply resuming_quiet|].
      * right. by rewrite guarded_quiet.
      * intros h' err Hr' Hs'. apply HQ'; [done|etrans; [done|etrans; [apply suffix_quiet|done]]|done].
Qed.

Lemma when_err_spec b p k h Q :
  emits record_ev quiet p -> resuming h ->
  (forall h' err, resuming h' -> h `suffix_of` h' -> err <> None -> Q h' err) ->
  (forall h', resuming h' -> h `suffix_of` h' -> guarded h' = guarded h -> wps k h' Q) ->
  wps (when_err b p k) h Q.
Proof.
  intros Hp Hh Herr Hk. unfold when_err. apply wp_bind. apply wp_resuming; [by destruct b|done|].
  intros h' [err|] Hr Hs Hg; [by apply Herr|by apply Hk].
Qed.

(** The work is started: the guard has just been passed again. *)
Lemma start_spec scope id s rotating h Q :
  resuming h -> Ev (Record id EventKindSessionResumed NoStopReason) tt ∈ h ->
  (forall h' err, resuming h' -> h `suffix_of` h' -> Q h' err) ->
  wps (when_err true (err ← call (GuardBegin scope id); match err with Some _ => mret err | None => call GuardEnd;; mret None end)
        (if rotating : bool then call (GoRotation id);; mret None
         else if is_some (s_Rotation s) && has_rotationResumer u then call (RotationResumer s)
         else if (s_ChildPID s =? 0) && has_recoveryStarter u then call (RecoveryStarter s)
         else mret None)) h Q.
Proof.
  intros [Hh Hc] Hrec HQ. intros [err|]; wp_cbn.
  { apply HQ; [|by apply suffix_cons_r]. split; [by split|]. by apply (cleared_suffix _ h); [apply suffix_cons_r|]. }
  intros []. set (h1 := Ev GuardEnd tt :: _).
  assert (resuming h1) as [Hh1 Hc1].
  { split; [by repeat split|]. apply (cleared_suffix _ h); [by do 2 apply suffix_cons_r|done]. }
  assert (forall X (e : Eff X) x, cleared t (Ev e x :: h1)) as Hc2.
  { intros. by apply (cleared_suffix _ h1); [apply suffix_cons_r|]. }
  destruct rotating; [|destruct (_ && _); [|destruct (_ && _)]].
  4:{ apply HQ; [done|by do 2 apply suffix_cons_r]. }
  all: intros x; apply HQ; [|by do 3 apply suffix_cons_r]; split; [|apply Hc2]; split; [|done]; split; [done|]; by exists scope, id, h.
Qed.

Lemma resumed_spec scope step s h Q :
  resuming h ->
  (forall h' err, resuming h' -> h `suffix_of` h' ->
    (err = None -> Ev (Record (s_SessionID s) EventKindSessionResumed NoStopReason) tt ∈ h') -> Q h' err) ->
  wps (resumed u scope step s) h Q.
Proof.
  intros Hr HQ. unfold resumed.
  apply wp_bind. apply wp_resuming; [by case_bool_decide; [apply emits_call|]|done|]. intros h1 _ Hr1 Hs1 _.
  apply wp_bind. apply (wp_emits record_ev quiet) with (Q := fun _ r => s_SessionID r = s_SessionID s /\ s_State r = s_State s).
  { destruct (is_some _); [|done]. intros []. by split. }
  { by destruct (is_some _); [intros []|]. }
  intros new s1 Hn [Hid1 Hst1].
  assert (forall h', new ++ h1 `suffix_of` h' -> h `suffix_of` h') as Hsuf.
  { intros h' H'. etrans; [exact Hs1|]. etrans; [apply suffix_quiet|exact H']. }
  apply when_err_spec; [by apply emits_call|by apply resuming_quiet| |].
  { intros h' err ? ? ?. apply HQ; [done|auto|done]. }
  intros h2 Hr2 Hs2 _. apply Hsuf in Hs2. clear Hsuf.
  apply when_err_spec; [by apply emits_call|done| |].
  { intros h' err ? ? ?. apply HQ; [done|by etrans|done]. }
  intros h3 Hr3 Hs3 _. apply (transitivity Hs2) in Hs3. clear Hs2.
  apply when_err_spec; [by apply emits_call|done| |].
  { intros h' err ? ? ?. apply HQ; [done|by etrans|done]. }
  intros h4 Hr4 Hs4 _. apply (transitivity Hs3) in Hs4. clear Hs3.
  set (s2 := if is_some (s_Rotation s1) then _ else s1).
  assert (s_SessionID s2 = s_SessionID s /\ s_State s2 = s_State s) as [Hid2 Hst2] by (unfold s2; by destruct (is_some _)).
  set (starting := _ && has_recoveryStarter u).
  set (s3 := if starting then _ else s2).
  assert (s_SessionID s3 = s_SessionID s /\ s_State s3 = s_State s) as [Hid3 Hst3] by (unfold s3; by destruct starting).
  clearbody s3 starting. clear s2 Hid2 Hst2.
  apply when_err_spec; [by apply emits_call|done| |].
  { intros h' err ? ? ?. apply HQ; [done|by etrans|done]. }
  intros h5 Hr5 Hs5 _. apply (transitivity Hs4) in Hs5. clear Hs4.
  apply wp_bind. apply wp_resuming; [by destruct starting; [apply emits_call|]|done|]. intros h6 _ Hr6 Hs6 _.
  apply (transitivity Hs5) in Hs6. clear Hs5.
  unfold when_err at 1. apply wp_bind. apply resume_persist_spec; [done|by left|done|].
  intros h7 [err|] Hr7 Hs7; apply (transitivity Hs6) in Hs7; [by apply HQ|]. clear Hs6.
  apply when_err_spec; [by apply emits_call|done| |].
  { intros h' err ? ? ?. apply HQ; [done|by etrans|done]. }
  intros h8 Hr8 Hs8 _. apply (transitivity Hs7) in Hs8. clear Hs7.
  apply when_err_spec; [by apply emits_call|done| |].
  { intros h' err ? ? ?. apply HQ; [done|by etrans|done]. }
  intros h9 Hr9 Hs9 _. apply (transitivity Hs8) in Hs9. clear Hs8.
  intros [] []. apply start_spec; [by apply (resuming_quiet [_; _]); [repeat constructor|]|set_solver|].
  intros h' err Hr' Hs'. apply HQ; [done|etrans; [exact Hs9|]; etrans; [|exact Hs']; by do 2 apply suffix_cons_r|].
  intros _. apply (in_suffix _ _ _ Hs'). set_solver.
Qed.

Lemma resumeOne_spec scope s h Q :
  resuming h ->
  (forall h' s' err, resuming h' -> h `suffix_of` h' ->
    (err = None -> Ev (Record (s_SessionID s) EventKindSessionResumed NoStopReason) tt ∈ h') -> Q h' (s', err)) ->
  wps (resumeOne u scope s) h Q.
Proof.
  intros Hr HQ. unfold resumeOne. apply wp_bind. apply wp_resuming; [by destruct (has_transitionCtx u); [apply emits_call|]|done|].
  intros h1 [c|err] Hr1 Hs1 _; [|by apply HQ].
  set (s1 := if negb (c_ChildAlive c) && _ then _ else s).
  assert (s_SessionID s1 = s_SessionID s) as Hid by (unfold s1; by destruct (_ && _)). clearbody s1.
  destruct (resume_context scope s1 c) as [c'|err]; [|by apply HQ].
  apply wp_bind. apply wp_resuming; [by destruct (has_autoContinue u); [apply emits_call|]|done|].
  intros h2 _ Hr2 Hs2 _. apply (transitivity Hs1) in Hs2. clear Hs1.
  apply wp_bind. apply guarded_resume_spec; [done|done|].
  intros h3 s2 [err|] Hr3 Hs3 Hid2; apply (transitivity Hs2) in Hs3; [by apply HQ|]. clear Hs2.
  apply wp_bind. apply resumed_spec; [done|]. intros h4 err Hr4 Hs4 Hrec. apply HQ; [done|by etrans|].
  intros He. rewrite <- Hid, <- Hid2. by apply Hrec.
Qed.

Lemma resumable_suffix h h' id : h `suffix_of` h' -> resumable t h id -> resumable t h' id.
Proof.
  intros Hs [(sessions & s & H1 & H2 & H3 & H4 & H5) H6]. split; [|by apply (in_suffix _ _ _ Hs)].
  exists sessions, s. split_and!; [by apply (in_suffix _ _ _ Hs)|done..|].
  destruct t as [id'|]; destruct H5 as (? & ? & ?); split_and!; try done; by apply (in_suffix _ _ _ Hs).
Qed.

Lemma all_resumable_suffix h h' ids : h `suffix_of` h' -> Forall (resumable t h) ids -> Forall (resumable t h') ids.
Proof. intros Hs. apply Forall_impl. intros id. by apply resumable_suffix. Qed.

Lemma resume_into_spec scope s out h Q :
  resuming h -> Forall (resumable t h) (Resumed out) ->
  (forall h', h `suffix_of` h' -> Ev (Record (s_SessionID s) EventKindSessionResumed NoStopReason) tt ∈ h' -> resumable t h' (s_SessionID s)) ->
  (forall h' out' err, resuming h' -> h `suffix_of` h' -> Forall (resumable t h') (Resumed out') -> Q h' (out', err)) ->
  wps (resume_into u scope s out) h Q.
Proof.
  intros Hr Hout Hs HQ. unfold resume_into. apply wp_bind. apply resumeOne_spec; [done|].
  intros h' s' [err|] Hr' Hs' Hrec; cbn.
  - assert (Forall (resumable t h') (Resumed out)) as Hout' by (by apply (all_resumable_suffix h)).
    destruct (resumeReason s' err); by apply HQ.
  - apply HQ; [done|done|]. cbn. apply list.Forall_app. split; [by apply (all_resumable_suffix h)|].
    constructor; [|done]. apply Hs; [done|]. by apply Hrec.
Qed.

End Resuming.

Lemma resume_each_spec listed sessions out h Q :
  resuming None h -> Forall (resumable None h) (Resumed out) ->
  Ev ListSessions (Ok listed) ∈ h -> (forall s, s ∈ sessions -> s ∈ listed) ->
  (forall h' out' err, resuming None h' -> Forall (resumable None h') (Resumed out') -> Q h' (out', err)) ->
  wps (resume_each u sessions out) h Q.
Proof.
  intros Hr Hout Hin Hsub HQ. induction sessions as [|s sessions IH] in out, h, Hr, Hout, Hin, Hsub |- *; cbn [resume_each].
  { by apply HQ. }
  assert (forall h1 out1, h `suffix_of` h1 -> resuming None h1 -> Forall (resumable None h1) (Resumed out1) ->
    wps (resume_each u sessions out1) h1 Q) as Hgo.
  { intros h1 out1 Hs Hr1 Hout1. apply IH; [done|done|by apply (in_suffix _ h)|]. intros x Hx. apply Hsub. by right. }
  destruct (negb _ || negb _) eqn:E1; [by apply Hgo|].
  apply orb_false_iff in E1 as [E1 E2]. apply negb_false_iff, bool_decide_eq_true in E1, E2.
  destruct (negb (bool_decide (s_StopReason s = StopGlobal))) eqn:E3.
  { apply wp_bind. apply (resume_persist_spec None); [done|by left|done|]. intros h' [err|] Hr' Hs'.
    - apply HQ; [done|]. by apply (all_resumable_suffix None h).
    - apply Hgo; [done|done|]. by apply (all_resumable_suffix None h). }
  apply negb_false_iff, bool_decide_eq_true in E3.
  intros stopped. cbn [prog_bind]. set (h1 := Ev _ stopped :: h). assert (h `suffix_of` h1) as Hs1 by (by apply suffix_cons_r).
  assert (resuming None h1) as Hr1 by (by apply (resuming_quiet None [_]); [repeat constructor|]).
  assert (Forall (resumable None h1) (Resumed out)) as Hout1 by (by apply (all_resumable_suffix None h)).
  destruct stopped; [by apply Hgo|]. apply wp_bind. apply (resume_into_spec None); [done|done| |].
  - intros h' Hs' Hrec. split; [|done]. exists listed, s.
    split_and!; [apply (in_suffix _ _ _ Hs'); by right|apply Hsub; by left|done..|]. apply (in_suffix _ _ _ Hs'). by left.
  - intros h' out' [err|] Hr' Hs' Hout'; [by apply HQ|]. apply Hgo; [by etrans|done|done].
Qed.

(** Resuming, whatever the stores answer.  Without a terminal, or in a supervised
    process, nothing happens but the record of the refusal.  Otherwise every save comes
    after the stop of the call has been cleared, replaces the record read last under its
    lock, and changes a state inside the guard only; work is started only when the guard
    has been passed again after the resumption was saved and announced; and a session
    answered as resumed was stopped, had no stop of its own left, and, for the call that
    resumes everything, had been stopped by the global stop. *)
Theorem Resume_correct (t : target) (isatty supervised : bool) :
  wps (Resume u t isatty supervised) [] (fun h '(out, err) =>
    if isatty && negb supervised then
      hist_all (resume_orderly t) h /\ Forall (resumable t h) (Resumed out)
    else h = [Ev (Record (default ""%string t) EventKindResumeRefused NoStopReason) tt] /\ out = no_output /\ err = Some ErrResumeForbidden).
Proof.
  unfold Resume. assert (negb isatty || supervised = negb (isatty && negb supervised)) as -> by (by destruct isatty, supervised).
  destruct (isatty && negb supervised); cbn [negb]; [|by intros []].
  destruct (match t with Some id => _ | None => true end) eqn:Et; [|by split; constructor].
  intros []. apply wp_bind.
  enough (forall Q, (forall h' out err, resuming t h' \/ (hist_all (resume_orderly t) h' /\ Resumed out = []) ->
      Forall (resumable t h') (Resumed out) -> Q h' (out, err)) ->
    wps (match t with None => resume_everything u | Some id => resume_session u id end) [Ev Lock tt] Q) as H.
  { apply H. intros h' out err Hh' Hout []. split; [split; [done|]; by destruct Hh' as [[? _]|[? _]]|].
    apply (all_resumable_suffix t h'); [by apply suffix_cons_r|done]. }
  intros Q HQ. clear Et. destruct t as [id|].
  - unfold resume_session. apply wp_bind. intros [sessions|err]; cbn.
    2:{ apply HQ; [right; repeat split|constructor]. }
    destruct (find_session id sessions) as [s|] eqn:Ef.
    2:{ apply HQ; [right; repeat split|constructor]. }
    intros []; [apply HQ; [right; repeat split|constructor]|].
    intros [err|]; [apply HQ; [right; repeat split|constructor]|].
    set (h1 := Ev (ClearSession id) None :: _).
    assert (resuming (Some id) h1) as Hr1 by (split; [repeat split|by left]).
    destruct (bool_decide (s_State s = SessionStopped)) eqn:Est; cbn; [|apply HQ; [by left|constructor]].
    apply bool_decide_eq_true in Est. destruct (find_session_id _ _ _ Ef) as [Hid Hin].
    intros stopped. set (h2 := Ev _ stopped :: h1). assert (resuming (Some id) h2) as Hr2.
    { by apply (resuming_quiet (Some id) [_]); [repeat constructor|]. }
    destruct stopped; [apply HQ; [by left|constructor]|].
    apply (resume_into_spec (Some id)); [done|constructor| |].
    + intros h' Hs' Hrec. split; [|done]. exists sessions, s.
      split_and!; [apply (in_suffix _ _ _ Hs'); set_solver|done|done|done|done|apply (in_suffix _ _ _ Hs'); set_solver|].
      rewrite Hid. apply (in_suffix _ _ _ Hs'). by left.
    + intros h' out' err Hr' Hs' Hout'. apply HQ; [by left|done].
  - unfold resume_everything. intros was [err|]; cbn; [apply HQ; [right; repeat split|constructor]|].
    apply wp_bind. apply (wp_resuming None); [by destruct was; [apply emits_call|]|by split; [repeat split|left]|].
    intros h1 _ Hr1 Hs1 _. intros [sessions|err].
    2:{ apply HQ; [left; by apply (resuming_quiet None [_]); [repeat constructor|]|constructor]. }
    apply (resume_each_spec sessions); [by apply (resuming_quiet None [_]); [repeat constructor|]|constructor|by left|done|].
    intros h' out' err Hr' Hout'. apply HQ; [by left|done].
Qed.


End Proofs.
