(* ===== verification/Launch.v ===== *)
(** * What a child is started with

    The arguments and the settings of a supervised child ([internal/supervisor/launch]) and
    its environment ([internal/proc/sessionenv.go]).  The document of the settings is kept as
    it is before [encoding/json] renders it. *)

From S2P Require Import Prelude.
From S2P Require Import GoStrings.
From S2P Require Import GoText.
From S2P Require Import Errors.
From S2P Require Import Domain.
From S2P Require Import TaskPaths.

(** *** The arguments ([argv.go]) *)

Definition supervisorManagerModel : string := "claude-opus-5-5".

(** [^[0-9a-fA-F]{8}-[0-9a-fA-F]{4}-[0-9a-fA-F]{4}-[0-9a-fA-F]{4}-[0-9a-fA-F]{12}$] *)
Definition claudeSessionIDPattern (id : string) : bool := uuidPattern id.

Definition BuildLaunchArgv (cli binaryPath settingsPath resumeClaudeSessionID : string) : res (list string) :=
  if negb (cli =? "claude")%string then Err (Errorf "SUP_CONFIG_INVALID cli_not_supported: %q" [cli])
  else if negb (IsAbs binaryPath) then Err (Errorf "SUP_CONFIG_INVALID relative_path: claude_binary_path" [])
  else if negb (IsAbs settingsPath) then Err (Errorf "SUP_CONFIG_INVALID relative_path: settings_path" [])
  else
    let argv := [binaryPath; "--settings"; settingsPath; "--permission-mode"; "default"; "--model"; supervisorManagerModel]%string in
    if negb (resumeClaudeSessionID =? "")%string then
      if negb (claudeSessionIDPattern resumeClaudeSessionID) then Err (Errorf "SUP_CONFIG_INVALID claude_session_id_invalid" [])
      else Ok (argv ++ ["--resume"; resumeClaudeSessionID]%string)
    else Ok argv.

Definition ValidateProjectModel (model : option string) : option error :=
  match model with Some _ => Some (Errorf "SUP_CONFIG_INVALID model_not_allowed_for_claude" []) | None => None end.

(** *** The settings ([settings.go]) *)

(** [strings.ReplaceAll(s, old, new)] of a string [old] that is not empty; [skip]: bytes of
    an occurrence that is being replaced. *)
Fixpoint replace_from (old new : list ascii) (skip : nat) (l : list ascii) : list ascii :=
  match l with
  | [] => []
  | c :: l' =>
      match skip with
      | S skip => replace_from old new skip l'
      | O => if list_prefix old l then new ++ replace_from old new (pred (length old)) l' else c :: replace_from old new O l'
      end
  end.

Definition ReplaceAll (s old new : string) : string := of_chars (replace_from (chars old) (chars new) O (chars s)).

Definition supervisorDenyRules : list string :=
  ["Bash(git push --force*)"; "Bash(git push -f*)"; "Bash(git push*--force*)"; "Bash(git push*+*)"; "Bash(git push*--mirror*)"; "Bash(git push*--delete*)";
   "Bash(gh pr create*)"; "Bash(gh pr merge*)"; "Bash(gh release*)"; "Bash(*deploy*)"; "Bash(codexd supervisor-client*)"; "Bash(*codexd-supervisor*)";
   "Edit(<state_dir>/**)"; "Bash(*<state_dir>*)"]%string.

Definition supervisorStateDirPlaceholder : string := "<state_dir>".

Record settingsDocument : Type := mkSettings {
  StatusLine_Type : string;
  StatusLine_Command : string;
  Permissions_Deny : list string }.

Definition safe_cutset : string := "abcdefghijklmnopqrstuvwxyzABCDEFGHIJKLMNOPQRSTUVWXYZ0123456789_./-".

Definition shellQuote (value : string) : string :=
  if negb (value =? "")%string && (StringTrim value safe_cutset =? "")%string then value
  else ("'" +:+ ReplaceAll value "'" "'\''" +:+ "'")%string.

Definition statusline_command (codexdPath sessionID stateDir : string) : string :=
  (shellQuote codexdPath +:+ " supervise-statusline --state-dir " +:+ shellQuote stateDir +:+ " --session " +:+ shellQuote sessionID)%string.

Definition deny_rule (stateDir rule : string) : string :=
  let replacement := if HasPrefix rule "Bash(*<state_dir>" then stateDir else ("/" +:+ stateDir)%string in
  ReplaceAll rule supervisorStateDirPlaceholder replacement.

(** The line ends and the null byte. *)
Definition control_set : string := String "013" (String "010" (String "000" EmptyString)).

Definition BuildSettingsJSON (codexdPath sessionID stateDir : string) : res settingsDocument :=
  if negb (IsAbs codexdPath) || negb (IsAbs stateDir) || negb (Clean stateDir =? stateDir)%string || (sessionID =? "")%string
     || ContainsAny sessionID control_set
  then Err (Errorf "invalid settings arguments" [])
  else Ok (mkSettings "command" (statusline_command codexdPath sessionID stateDir) (map (deny_rule stateDir) supervisorDenyRules)).

(** *** The environment ([sessionenv.go]) *)

Definition strippedSessionEnvNames : list string :=
  ["ANTHROPIC_API_KEY"; "OPENAI_API_KEY"; "ANTHROPIC_AUTH_TOKEN"; "ANTHROPIC_BASE_URL"; "CLAUDE_CODE_USE_BEDROCK"; "CLAUDE_CODE_USE_VERTEX";
   "CLAUDE_CODE_USE_FOUNDRY"; "AWS_BEARER_TOKEN_BEDROCK"; "CLAUDECODE"; "CLAUDE_CODE_ENTRYPOINT"; "CLAUDE_CODE_MESSAGING_SOCKET";
   "CLAUDE_CODE_MESSAGING_TOKEN"; "CLAUDE_CODE_EXECPATH"; "CLAUDE_CODE_SESSION_ID"; "CLAUDE_CODE_CHILD_SESSION"; "CLAUDE_CODE_SESSION_ATTENDED";
   "CLAUDE_PID"; "CLAUDE_EFFORT"; "CLAUDE_CONFIG_DIR"; "CODEX_HOME"]%string.

Definition sessionTerm : string := "xterm-256color".
Definition sessionMarker : string := "1".
Definition sessionDefaultColumns : string := "200".
Definition sessionDefaultRows : string := "50".

Definition hasName (names : list string) (name : string) : bool := existsb (String.eqb name) names.

(** An entry with a name, cut at the first equals sign. *)
Definition env_entry (entry : string) : option (string * string) :=
  match StringCut entry "=" with
  | Some (key, value) => if (key =? "")%string then None else Some (key, value)
  | None => None
  end.

Definition keep_entry (entry : string) : list string :=
  match env_entry entry with
  | Some (key, value) => if hasName strippedSessionEnvNames key then [] else [key +:+ "=" +:+ value]%string
  | None => []
  end.

(** The map [values] and the slice [order] of [mergeSessionEnv]. *)
Definition set_entry (m : gmap string string * list string) (entry : string) : gmap string string * list string :=
  let '(values, order) := m in
  match env_entry entry with
  | Some (key, value) => (<[key := value]> values, match values !! key with Some _ => order | None => order ++ [key] end)
  | None => m
  end.

Definition mergeSessionEnv (env overrides : list string) : list string :=
  let '(values, order) := fold_left set_entry overrides (fold_left set_entry env (∅, [])) in
  map (fun key => key +:+ "=" +:+ match values !! key with Some value => value | None => "" end)%string order.

Definition session_overrides : list string :=
  ["TERM=" +:+ sessionTerm; "CODEXD_SUPERVISED=" +:+ sessionMarker; "COLUMNS=" +:+ sessionDefaultColumns; "LINES=" +:+ sessionDefaultRows]%string.

Definition BuildSessionEnv (parent : list string) : list string := mergeSessionEnv (concat (map keep_entry parent)) session_overrides.

Example deny_rule_example : deny_rule "/s" "Edit(<state_dir>/**)" = "Edit(//s/**)"%string.
Proof. reflexivity. Qed.
