(* ===== verification/LaunchOk.v ===== *)
(** * What a child is started with: its command line and its environment

    Over [Launch]: the command in the settings is split by a shell into the arguments it was
    made of, and the environment has no variable that the program strips. *)

From S2P Require Import Prelude.
From S2P Require Import GoStrings.
From S2P Require Import GoText.
From S2P Require Import Errors.
From S2P Require Import Launch.

(** ** The words of a shell command *)

Inductive quoting : Type := Plain | Quoted | Escaped.

(** The characters that stand for themselves in a shell word. *)
Definition sh_literal (c : ascii) : bool := is_lower c || is_upper c || is_digit c || existsb (Ascii.eqb c) (chars "_./-").

(** The words of a command, after the rules of POSIX for blanks, single quotes and the
    backslash; [None] for a character with another meaning, and for an open quote. *)
Fixpoint sh_lex (q : quoting) (word : option (list ascii)) (l : list ascii) : option (list (list ascii)) :=
  match l with
  | [] => match q with Plain => Some (match word with Some w => [w] | None => [] end) | _ => None end
  | c :: l =>
      let literally := Some (default [] word ++ [c]) in
      match q with
      | Quoted => if Ascii.eqb c "'" then sh_lex Plain word l else sh_lex Quoted literally l
      | Escaped => if Ascii.eqb c "010" then None else sh_lex Plain literally l
      | Plain =>
          if Ascii.eqb c "'" then sh_lex Quoted (Some (default [] word)) l
          else if Ascii.eqb c "\" then sh_lex Escaped (Some (default [] word)) l
          else if Ascii.eqb c " " then
            match sh_lex Plain None l with
            | Some words => Some (match word with Some w => w :: words | None => words end)
            | None => None
            end
          else if sh_literal c then sh_lex Plain literally l
          else None
      end
  end.

Definition sh_words (command : string) : option (list string) := option_map (map of_chars) (sh_lex Plain None (chars command)).

Example sh_words_example : sh_words "a 'b c'\''d' ''" = Some ["a"; "b c'd"; ""]%string.
Proof. reflexivity. Qed.

(** *** Lemmas *)

Lemma sh_literal_lex c word l : sh_literal c = true -> sh_lex Plain word (c :: l) = sh_lex Plain (Some (default [] word ++ [c])) l.
Proof.
  intros H. cbn [sh_lex]. destruct (Ascii.eqb_spec c "'") as [->|_]; [done|]. destruct (Ascii.eqb_spec c "\") as [->|_]; [done|].
  destruct (Ascii.eqb_spec c " ") as [->|_]; [done|]. by rewrite H.
Qed.

Lemma sh_literals_lex k word l :
  k <> [] -> forallb sh_literal k = true -> sh_lex Plain word (k ++ l) = sh_lex Plain (Some (default [] word ++ k)) l.
Proof.
  intros Hne Hk. revert word Hne. induction k as [|c k IH]; intros word Hne; [done|]. cbn [forallb] in Hk. apply andb_true_iff in Hk as [Hc Hk].
  cbn [app]. rewrite sh_literal_lex by done. destruct k as [|c' k]; [done|]. rewrite (IH Hk) by done. cbn [from_option]. unfold id. by rewrite <- app_assoc.
Qed.

Lemma sh_quoted_lex k w l :
  sh_lex Quoted (Some w) (replace_from ["'"%char] (chars "'\''") 0 k ++ "'"%char :: l) = sh_lex Plain (Some (w ++ k)) l.
Proof.
  revert w. induction k as [|c k IH]; intros w; [cbn; by rewrite app_nil_r|].
  cbn [replace_from list_prefix length pred]. destruct (Ascii.eqb_spec "'" c) as [<-|Hc]; cbn [andb].
  - cbn. rewrite IH. by rewrite <- app_assoc.
  - cbn [app sh_lex]. destruct (Ascii.eqb_spec c "'") as [->|_]; [done|]. cbn [from_option]. unfold id. rewrite IH. by rewrite <- app_assoc.
Qed.

Lemma StringTrim_empty v cutset : StringTrim v cutset = ""%string -> forallb (fun c => existsb (Ascii.eqb c) (chars cutset)) (chars v) = true.
Proof.
  unfold StringTrim. set (cut := fix cut (l : list ascii) := match l with c :: l' => if existsb (Ascii.eqb c) (chars cutset) then cut l' else l | [] => [] end).
  intros H. apply (f_equal chars) in H. rewrite chars_of_chars in H. cbn in H. apply (f_equal (@rev ascii)) in H. rewrite rev_involutive in H.
  assert (forall l, cut l = [] -> forallb (fun c => existsb (Ascii.eqb c) (chars cutset)) l = true) as Hcut.
  { induction l as [|c l IH]; [done|]. cbn. destruct (existsb _ _) eqn:E; [|done]. intros. cbn. auto. }
  apply Hcut in H. destruct (cut (chars v)) as [|c l] eqn:E; [by apply Hcut|].
  assert (exists c l, cut (chars v) = c :: l /\ existsb (Ascii.eqb c) (chars cutset) = false) as (c' & l' & E' & Hc').
  { assert (forall k, cut k <> [] -> exists c l, cut k = c :: l /\ existsb (Ascii.eqb c) (chars cutset) = false) as Hk.
    { induction k as [|x k IH]; [done|]. cbn. destruct (existsb _ _) eqn:Ex; [done|]. by exists x, k. }
    apply Hk. by rewrite E. }
  rewrite E in E'. injection E' as -> ->. rewrite forallb_true in H. specialize (H c'). rewrite Hc' in H. discriminate H.
  apply list_elem_of_In, in_rev. rewrite rev_involutive. by left.
Qed.

Lemma safe_literal c : existsb (Ascii.eqb c) (chars safe_cutset) = sh_literal c.
Proof. destruct c as [[] [] [] [] [] [] [] []]; reflexivity. Qed.

Lemma shellQuote_lex v word l : sh_lex Plain word (chars (shellQuote v) ++ l) = sh_lex Plain (Some (default [] word ++ chars v)) l.
Proof.
  unfold shellQuote. destruct (negb (v =? "")%string && (StringTrim v safe_cutset =? "")%string) eqn:E.
  - apply andb_true_iff in E as [E1%negb_true_iff%String.eqb_neq E2%String.eqb_eq]. apply StringTrim_empty in E2.
    apply sh_literals_lex; [by destruct v|]. rewrite forallb_true in E2 |- *. intros c Hc. rewrite <- safe_literal. by apply E2.
  - rewrite !chars_append, <- !app_assoc. cbn [chars String.list_ascii_of_string app]. cbn [sh_lex]. cbn [Ascii.eqb Bool.eqb].
    unfold ReplaceAll. rewrite chars_of_chars. apply sh_quoted_lex.
Qed.

Lemma literal_lex v word l :
  v <> ""%string -> forallb sh_literal (chars v) = true -> sh_lex Plain word (chars v ++ l) = sh_lex Plain (Some (default [] word ++ chars v)) l.
Proof. intros Hv. apply sh_literals_lex. by destruct v. Qed.

Lemma blank_lex w l : sh_lex Plain (Some w) (" "%char :: l) = option_map (cons w) (sh_lex Plain None l).
Proof. cbn. by destruct (sh_lex Plain None l). Qed.

Lemma statusline_words codexdPath sessionID stateDir :
  sh_words (statusline_command codexdPath sessionID stateDir)
  = Some [codexdPath; "supervise-statusline"; "--state-dir"; stateDir; "--session"; sessionID]%string.
Proof.
  unfold sh_words, statusline_command. rewrite !chars_append, shellQuote_lex.
  change (chars " supervise-statusline --state-dir ") with (" "%char :: chars "supervise-statusline" ++ " "%char :: chars "--state-dir" ++ " "%char :: []).
  change (chars " --session ") with (" "%char :: chars "--session" ++ " "%char :: []).
  cbn [app]. rewrite <- ?app_assoc. cbn [app].
  rewrite blank_lex, literal_lex, blank_lex by done. rewrite <- ?app_assoc. cbn [app]. rewrite literal_lex, blank_lex, shellQuote_lex, blank_lex by done.
  rewrite <- ?app_assoc. cbn [app]. rewrite literal_lex, blank_lex by done. pose proof (shellQuote_lex sessionID None []) as H. rewrite app_nil_r in H. rewrite H.
  cbn. by rewrite !of_chars_chars.
Qed.

Lemma state_dir_rules stateDir :
  map (deny_rule stateDir) supervisorDenyRules
  = take 12 supervisorDenyRules ++ ["Edit(/" +:+ stateDir +:+ "/**)"; "Bash(*" +:+ stateDir +:+ "*)"]%string.
Proof.
  unfold supervisorDenyRules. cbn [map take app]. repeat (f_equal; try reflexivity); apply chars_inj; unfold deny_rule, ReplaceAll.
  all: rewrite chars_of_chars, ?chars_append; reflexivity.
Qed.

(** The settings of a child say what they are meant to say.  They are made only of
    absolute paths, a state directory in its clean form and a session name without line ends;
    a shell splits the command of the status line into exactly the program, its subcommand and
    the three values it was made of, whatever characters these have; and the deny rules are the
    twelve fixed ones and the two that protect the state directory by its own path. *)
Theorem settings_are_exact (codexdPath sessionID stateDir : string) (doc : settingsDocument) :
  BuildSettingsJSON codexdPath sessionID stateDir = Ok doc ->
  IsAbs codexdPath = true /\ IsAbs stateDir = true /\ Clean stateDir = stateDir /\ sessionID <> ""%string
  /\ sh_words (StatusLine_Command doc) = Some [codexdPath; "supervise-statusline"; "--state-dir"; stateDir; "--session"; sessionID]%string
  /\ Permissions_Deny doc = take 12 supervisorDenyRules ++ ["Edit(/" +:+ stateDir +:+ "/**)"; "Bash(*" +:+ stateDir +:+ "*)"]%string.
Proof.
  unfold BuildSettingsJSON. destruct (IsAbs codexdPath); [|done]. destruct (IsAbs stateDir); [|done].
  destruct (Clean stateDir =? stateDir)%string eqn:E1; [|done]. destruct (sessionID =? "")%string eqn:E2; [done|]. cbn [negb orb].
  destruct (ContainsAny _ _); [done|]. intros [= <-]. apply String.eqb_eq in E1. apply String.eqb_neq in E2.
  split_and!; try done; [apply statusline_words|apply state_dir_rules].
Qed.

Lemma settings_are_exact_witness :
  sh_words "'/opt/a b/codexd' supervise-statusline --state-dir '/it'\''s' --session repo-1"
  = Some ["/opt/a b/codexd"; "supervise-statusline"; "--state-dir"; "/it's"; "--session"; "repo-1"]%string.
Proof. destruct (settings_are_exact "/opt/a b/codexd" "repo-1" "/it's" _ eq_refl) as (_ & _ & _ & _ & H & _). exact H. Defined.

(** ** The environment *)

(** The value of a variable: the entries are read in order, and the last one counts. *)
Definition env_value (name : string) (env : list string) : option string :=
  fold_left (fun found entry => match env_entry entry with
                                | Some (key, value) => if (key =? name)%string then Some value else found
                                | None => found
                                end) env None.

Definition env_names (env : list string) : list string := omap (fun entry => fst <$> env_entry entry) env.

(** *** Lemmas *)

Definition name_ok (key : string) : Prop := key <> ""%string /\ lacks "=" key = true.

Lemma cut_chars_some sep l before rest : cut_chars sep l = Some (before, rest) -> l = before ++ sep :: rest /\ forallb (fun c => negb (Ascii.eqb sep c)) before = true.
Proof.
  revert before rest. induction l as [|c l IH]; intros before rest; [done|]. cbn. destruct (Ascii.eqb_spec c sep) as [->|Hc]; [by intros [= <- <-]|].
  destruct (cut_chars sep l) as [[b r]|]; [|done]. intros [= <- <-]. destruct (IH b r eq_refl) as [-> H]. split; [done|]. cbn. rewrite H.
  destruct (Ascii.eqb_spec sep c) as [->|_]; done.
Qed.

Lemma cut_chars_app sep l k : forallb (fun c => negb (Ascii.eqb sep c)) l = true -> cut_chars sep (l ++ sep :: k) = Some (l, k).
Proof.
  induction l as [|c l IH]; cbn; [by rewrite Ascii.eqb_refl|]. intros [Hc Hl]%andb_true_iff. destruct (Ascii.eqb_spec c sep) as [->|_].
  - by rewrite Ascii.eqb_refl in Hc.
  - by rewrite IH.
Qed.

Lemma env_entry_made key value : name_ok key -> env_entry (key +:+ "=" +:+ value)%string = Some (key, value).
Proof.
  intros [Hne Hl]. unfold env_entry, StringCut. rewrite !chars_append. cbn [chars String.list_ascii_of_string app].
  rewrite cut_chars_app by exact Hl. rewrite !of_chars_chars. by apply String.eqb_neq in Hne as ->.
Qed.

Lemma env_entry_ok entry key value : env_entry entry = Some (key, value) -> name_ok key /\ entry = (key +:+ "=" +:+ value)%string.
Proof.
  unfold env_entry, StringCut. destruct (cut_chars "=" (chars entry)) as [[before rest]|] eqn:E; [|done]. apply cut_chars_some in E as [E H].
  destruct (of_chars before =? "")%string eqn:Ene; [done|]. intros [= <- <-]. apply String.eqb_neq in Ene. split.
  - split; [done|]. unfold lacks, str_forall. by rewrite chars_of_chars.
  - apply chars_inj. rewrite !chars_append, !chars_of_chars. done.
Qed.

(** The map and the order hold the variables read so far. *)
Definition merged (env : list string) (m : gmap string string * list string) : Prop :=
  (forall name, m.1 !! name = env_value name env) /\ NoDup m.2 /\ (forall key, key ∈ m.2 <-> is_Some (m.1 !! key)) /\ Forall name_ok m.2.

Lemma env_value_snoc name env entry :
  env_value name (env ++ [entry]) = match env_entry entry with Some (key, value) => if (key =? name)%string then Some value else env_value name env | None => env_value name env end.
Proof. unfold env_value. by rewrite fold_left_app. Qed.

Lemma set_entry_merged env m entry : merged env m -> merged (env ++ [entry]) (set_entry m entry).
Proof.
  destruct m as [values order]. intros (Hv & Hnd & Hin & Hok). unfold set_entry. destruct (env_entry entry) as [[key value]|] eqn:E.
  2:{ split; [intros name; by rewrite env_value_snoc, E|done]. }
  cbn [fst snd] in *. split; cbn [fst snd].
  { intros name. rewrite env_value_snoc, E. destruct (String.eqb_spec key name) as [->|Hne]; [by rewrite lookup_insert_eq|by rewrite lookup_insert_ne]. }
  destruct (env_entry_ok _ _ _ E) as [Hkey _].
  assert (forall k, is_Some (<[key:=value]> values !! k) <-> k = key \/ is_Some (values !! k)) as Hins.
  { intros k. destruct (decide (k = key)) as [->|Hk]; [rewrite lookup_insert_eq; by split; [left|eauto]|rewrite lookup_insert_ne by done].
    split; [by right|]. by intros [H|H]. }
  destruct (values !! key) as [old|] eqn:Ek.
  - split_and!; [done| |done]. intros k. rewrite Hins, Hin. split; [by right|]. intros [->|H]; [by rewrite Ek|done].
  - split_and!.
    + apply list.NoDup_app. split_and!; [done| |apply NoDup_singleton]. intros x Hx ->%list_elem_of_singleton. apply Hin in Hx. rewrite Ek in Hx. by destruct Hx.
    + intros k. rewrite list.elem_of_app, list_elem_of_singleton, Hins, Hin. tauto.
    + apply list.Forall_app. split; [done|]. by constructor.
Qed.

Lemma fold_merged entries env m : merged env m -> merged (env ++ entries) (fold_left set_entry entries m).
Proof.
  revert env m. induction entries as [|e entries IH]; intros env m Hm; [by rewrite app_nil_r|]. cbn [fold_left].
  replace (env ++ e :: entries) with ((env ++ [e]) ++ entries) by (by rewrite <- app_assoc). by apply IH, set_entry_merged.
Qed.

Lemma merged_empty : merged [] (∅, []).
Proof. split_and!; [done|constructor| |constructor]. intros k. cbn. rewrite lookup_empty. split; [by intros ?%elem_of_nil|by intros []]. Qed.

Lemma mergeSessionEnv_spec env overrides :
  (forall name, env_value name (mergeSessionEnv env overrides) = env_value name (env ++ overrides))
  /\ NoDup (env_names (mergeSessionEnv env overrides)) /\ Forall (fun entry => is_Some (env_entry entry)) (mergeSessionEnv env overrides).
Proof.
  unfold mergeSessionEnv. pose proof (fold_merged overrides _ _ (fold_merged env _ _ merged_empty)) as Hm. cbn [app] in Hm.
  destruct (fold_left set_entry overrides (fold_left set_entry env (∅, []))) as [values order]. destruct Hm as (Hv & Hnd & Hin & Hok). cbn [fst snd] in *.
  set (made := fun key : string => (key +:+ "=" +:+ match values !! key with Some value => value | None => "" end)%string).
  assert (forall key, name_ok key -> env_entry (made key) = Some (key, match values !! key with Some value => value | None => ""%string end)) as Hmk
    by (intros key; apply env_entry_made).
  assert (forall k, Forall name_ok k -> env_names (map made k) = k /\ Forall (fun entry => is_Some (env_entry entry)) (map made k)) as Hmade.
  { intros k Hk. induction Hk as [|key k Hkey Hk [IH1 IH2]]; [done|]. unfold env_names in *. cbn. rewrite (Hmk key) by done. cbn.
    rewrite IH1. split; [done|]. constructor; [|done]. by rewrite (Hmk key). }
  destruct (Hmade order Hok) as [Hnames Hentries]. split_and!; [|by rewrite Hnames|done]. intros name. rewrite <- Hv.
  assert (forall k found, Forall name_ok k -> NoDup k ->
    fold_left (fun found entry => match env_entry entry with Some (key, value) => if (key =? name)%string then Some value else found | None => found end) (map made k) found
    = if bool_decide (name ∈ k) then Some (match values !! name with Some value => value | None => ""%string end) else found) as Hfold.
  { intros k found Hk. revert found. induction Hk as [|key k Hkey Hk IH]; intros found Hnd'; [done|]. apply list.NoDup_cons in Hnd' as [Hnin Hnd'].
    cbn [map fold_left]. rewrite (Hmk key) by done. rewrite IH by done. destruct (String.eqb_spec key name) as [->|Hne].
    - rewrite (bool_decide_false (name ∈ k)) by done. by rewrite bool_decide_true by left.
    - rewrite (bool_decide_ext (name ∈ key :: k) (name ∈ k)); [done|set_solver]. }
  unfold env_value at 1. rewrite Hfold by done. destruct (bool_decide_reflect (name ∈ order)) as [H|H].
  - apply Hin in H as [v ->]. done.
  - destruct (values !! name) eqn:E; [|done]. destruct H. apply Hin. by rewrite E.
Qed.

Lemma env_value_app name a b : env_value name (a ++ b) = match env_value name b with Some v => Some v | None => env_value name a end.
Proof.
  induction b as [|e b IH] using rev_ind; [by rewrite app_nil_r|]. rewrite app_assoc, !env_value_snoc, IH.
  destruct (env_entry e) as [[key value]|]; [|done]. by destruct (key =? name)%string.
Qed.

Lemma kept_value name parent : env_value name (concat (map keep_entry parent)) = if hasName strippedSessionEnvNames name then None else env_value name parent.
Proof.
  induction parent as [|e parent IH] using rev_ind; [by destruct (hasName _ _)|].
  rewrite map_app, concat_app, env_value_app, env_value_snoc, IH. cbn [map concat]. rewrite app_nil_r. unfold keep_entry.
  destruct (env_entry e) as [[key value]|] eqn:E; [|done]. destruct (env_entry_ok _ _ _ E) as [Hkey _].
  destruct (hasName strippedSessionEnvNames key) eqn:Eh; cbn [env_value fold_left].
  - destruct (String.eqb_spec key name) as [->|]; [by rewrite Eh|done].
  - rewrite env_entry_made by done. destruct (String.eqb_spec key name) as [->|]; [by rewrite Eh|done].
Qed.

(** The environment of a child.  For every parent environment, each variable of the child
    has the value the session sets, or else, unless it is one of the stripped names, the last
    value the parent gives it; stripped names are absent, every entry has a name, and no name
    occurs twice. *)
Theorem session_env_correct (parent : list string) :
  (forall name, env_value name (BuildSessionEnv parent)
     = match env_value name session_overrides with
       | Some value => Some value
       | None => if hasName strippedSessionEnvNames name then None else env_value name parent
       end)
  /\ NoDup (env_names (BuildSessionEnv parent)) /\ Forall (fun entry => is_Some (env_entry entry)) (BuildSessionEnv parent).
Proof.
  destruct (mergeSessionEnv_spec (concat (map keep_entry parent)) session_overrides) as (Hv & Hnd & Hok). split_and!; [|done..].
  intros name. unfold BuildSessionEnv. by rewrite Hv, env_value_app, kept_value.
Qed.

Example BuildSessionEnv_example :
  BuildSessionEnv ["A=1"; "CODEX_HOME=/x"; "=y"; "TERM=dumb"; "A=2"]%string
  = ["A=2"; "TERM=xterm-256color"; "CODEXD_SUPERVISED=1"; "COLUMNS=200"; "LINES=50"]%string.
Proof. vm_compute. reflexivity. Qed.
