(* ===== verification/SupEff.v ===== *)
(** * The effects of supervising a session

    What the use cases that drive one supervised session call: its record and the lock
    of the record, the stop, the observation of the child, the sender, the start of a new
    child.  A program is about one session, so its identifier is left out of the calls. *)

From S2P Require Import Prelude.
From S2P Require Import Errors.
From S2P Require Import Session.
From S2P Require Import Effects.
From S2P Require Import SendInput.
From S2P Require Import Launch.

(** What [RespawnSessionUseCase] is asked for. *)
Inductive RespawnKind : Type :=
| RespawnRecovery
| RespawnResumeRecovery
| RespawnHandoffStage5
| RespawnHandoffResume
| RespawnKindOther (raw : string).

#[export] Instance RespawnKind_eq_dec : EqDecision RespawnKind.
Proof. solve_decision. Defined.

(** The fields of [store.Event] that these use cases fill. *)
Record SupEvent : Type := mkSupEvent {
  se_Kind : SupervisorEventKind;
  se_Code : string;
  se_Reason : string;
  se_Step : SupervisorRotateStep;
  se_From : SupervisorSessionState;
  se_To : SupervisorSessionState;
  se_At : option Time }.

Definition plain_event (kind : SupervisorEventKind) (code reason : string) : SupEvent :=
  mkSupEvent kind code reason NoRotateStep NoSessionState NoSessionState None.

(** What [os.Stat] answers of a file: a directory, an executable bit, an owner that is the user. *)
Record StatInfo : Type := mkStat { st_IsDir : bool; st_Exec : bool; st_Own : bool }.

(** A decoded JSON object, as its members in order, of which the last of a name counts; [None]: [null]. *)
#[warnings="-register-all"]
Inductive Json : Type :=
| JNull
| JString (s : string)
| JObject (members : list (string * Json))
| JOther.
Definition JsonDoc : Type := option (list (string * Json)).

(** Why a start failed ([store/start_fail_reason.go]); [NoStartFailReason] is the empty string. *)
Inductive SupervisorStartFailReason : Type :=
| NoStartFailReason
| StartFailUserSettings
| StartFailProjectSettings
| StartFailProjectLocalSettings
| StartFailClaudeJSON
| StartFailManaged
| StartFailCodexAuth
| StartFailChildEnv
| StartFailProjectCWDUnavailable
| StartFailSpawnFailed
| StartFailLaunchArgvInvalid
| StartFailSettingsGenerationFailed.

#[export] Instance SupervisorStartFailReason_eq_dec : EqDecision SupervisorStartFailReason.
Proof. solve_decision. Defined.

Definition SupervisorStartFailReason_string (r : SupervisorStartFailReason) : string :=
  match r with
  | NoStartFailReason => ""
  | StartFailUserSettings => "user_settings"
  | StartFailProjectSettings => "project_settings"
  | StartFailProjectLocalSettings => "project_local_settings"
  | StartFailClaudeJSON => "claude_json"
  | StartFailManaged => "managed"
  | StartFailCodexAuth => "codex_auth"
  | StartFailChildEnv => "child_env"
  | StartFailProjectCWDUnavailable => "project_cwd_unavailable"
  | StartFailSpawnFailed => "spawn_failed"
  | StartFailLaunchArgvInvalid => "launch_argv_invalid"
  | StartFailSettingsGenerationFailed => "settings_generation_failed"
  end.

Definition StartFail_Valid (r : SupervisorStartFailReason) : bool := negb (bool_decide (r = NoStartFailReason)).

(** Which case of a [select] ran: the context ended, the timer, the ticker. *)
Inductive waited : Type := CtxDone (err : error) | TimerFired | Ticked.

Inductive Eff : Type -> Type :=
(* the record *)
| LockRecord : Eff unit
| UnlockRecord : Eff unit
| LoadSession : Eff (res ManagedSession)
| SaveSession (s : ManagedSession) : Eff (option error)
| Marshal (s : ManagedSession) : Eff (res string)
(* clock, context, stop *)
| Now : Eff Time
| CtxErr : Eff (option error)
| StopState_IsStopped : Eff bool
| StopState_IsGlobalStopped : Eff bool
| IsStopped : Eff bool
| GuardBegin : Eff (option error)
| GuardEnd : Eff unit
(* the child and its screen *)
| Observed : Eff SupervisorSessionState
| ChildAlive : Eff bool
| Inspect : Eff (res RotationCheckpointSnapshot)
| ResumeReady (since : Time) : Eff bool
| Send (kind : SupervisorSendKind) (confirm : Duration) : Eff (SendResult * option error)
(* starting a child *)
| Respawn (kind : RespawnKind) : Eff (option error)
| StartMutexLock : Eff unit
| StartMutexUnlock : Eff unit
| RespawnMutexLock : Eff unit
| RespawnMutexUnlock : Eff unit
| ProcessLock : Eff (option error)
| ProcessUnlock : Eff unit
| ListSessions : Eff (res (list ManagedSession))
| CreateRecord (s : ManagedSession) : Eff (option error)
| DeleteRecord : Eff (option error)
| GitConfigFingerprint : Eff string
| StartChild (argv env : list string) (cwd : string) : Eff (res Z)
| PTYLock : Eff unit
| PTYUnlock : Eff unit
| ShuttingDown : Eff bool
| OwnChild (pid : Z) : Eff unit
| DisownChild (pid : Z) : Eff unit
| RegisterPTY (pid : Z) : Eff unit
| RemovePTY (pid : Z) : Eff unit
| ClosePTY (pid : Z) : Eff (option error)
| ExitedInGrace (pid : Z) : Eff bool
| KillPTY (pid : Z) : Eff unit
| AwaitExit (pid : Z) : Eff unit
| GoObserve (s : ManagedSession) (pid : Z) : Eff unit
| GoAwait (pid : Z) : Eff unit
(* files *)
| Environ : Eff (list string)
| UserHomeDir : Eff (res string)
| StatFile (path : string) : Eff (res StatInfo)
| LstatFile (path : string) : Eff (res (bool * Z))
| OpenFile (path : string) : Eff (option error)
| StatOpened : Eff (res (bool * Z))
| ReadOpened (limit : Z) : Eff (res string)
| CloseOpened : Eff unit
| DecodeJSON (data : string) : Eff (res JsonDoc)
| DecodeMore : Eff bool
| MkdirAll (path : string) : Eff (option error)
| CreateTemp (dir : string) : Eff (res string)
| TempChmod (name : string) : Eff (option error)
| TempWrite (name : string) (doc : settingsDocument) : Eff (option error)
| TempSync (name : string) : Eff (option error)
| TempClose (name : string) : Eff (option error)
| RenameFile (old new : string) : Eff (option error)
| RemoveFile (path : string) : Eff (option error)
| OpenDir (path : string) : Eff (option error)
| SyncDir (path : string) : Eff (option error)
| CloseDir (path : string) : Eff unit
(* events *)
| RecordStructured (e : SupEvent) : Eff (option error)
| Notify (kind : SupervisorEventKind) (text : string) : Eff unit
| RecordStartFailure (projectID : string) (reason : SupervisorStartFailReason) : Eff unit
| RecordProjectEvent (kind : SupervisorEventKind) (projectID reason : string) : Eff (option error)
(* the rotation *)
| StepLock : Eff unit
| StepUnlock : Eff unit
| BeginRunning : Eff bool
| EndRunning : Eff unit
| GetResumeSent : Eff (option Time)
| SetResumeSent (since : Time) : Eff unit
| DeleteResumeSent : Eff unit
| Wait (deadline : option Time) : Eff (option error)
| RemoteControlLock : Eff unit
| RemoteControlUnlock : Eff unit
| RegisterGeneration (generation : Z) : Eff unit
| AutoContinue_Reset : Eff unit
(* the recovery *)
| WaitDelay (delay : Duration) : Eff (option error)
| StartTimer (delay : Duration) : Eff unit
| SelectWait : Eff waited
(* ends of a goroutine *)
| Panic : Eff unit
| Never : Eff Empty_set.

Abbreviation M := (prog Eff).

(** A nil pointer is followed: nothing is run after it. *)
Definition panic {A : Type} : M A :=
  call Panic;;
  e ← call Never; match e : Empty_set with end.

(** The fuel of a loop has run out.  Every finite run of the loop is a run with enough
    fuel, so what holds of all events of all runs, whatever the fuel, holds of the loop. *)
Definition out_of_fuel {A : Type} : M A :=
  e ← call Never; match e : Empty_set with end.

(** [UpdateSession]: what the update hands out, or an error.  A record that it has not
    changed is not saved. *)
Definition UpdateSession {A : Type} (update : ManagedSession -> M (res (ManagedSession * A))) : M (res A) :=
  call LockRecord;;
  r ← (session ← call LoadSession;
       match session with
       | Err err => mret (Err err)
       | Ok session =>
           before ← call (Marshal session);
           match before with
           | Err err => mret (Err err)
           | Ok before =>
               updated ← update session;
               match updated with
               | Err err => mret (Err err)
               | Ok (session, a) =>
                   after ← call (Marshal session);
                   match after with
                   | Err err => mret (Err err)
                   | Ok after =>
                       if bool_decide (before = after) then mret (Ok a)
                       else
                         err ← call (SaveSession session);
                         mret (match err with Some err => Err err | None => Ok a end)
                   end
               end
           end
       end);
  call UnlockRecord;;
  mret r.

(** The update by a change that cannot fail, and its error. *)
Definition UpdateSession_ (change : ManagedSession -> ManagedSession) : M (option error) :=
  r ← UpdateSession (fun s => mret (Ok (change s, tt)));
  mret (match r with Err err => Some err | Ok _ => None end).

(** [s.Apply], which changes nothing that matters if it fails: the record is not saved. *)
Definition apply (event : TransitionEvent) (c : TransitionContext) (now : Time) (s : ManagedSession) : res ManagedSession :=
  match Apply event c now s with (s, Ok _) => Ok s | (_, Err err) => Err err end.

Definition no_context : TransitionContext :=
  mkContext (SupervisorCliOther "") 0 0 0 false false false (SupervisorStopScopeOther "") 0 0 NoSessionState NoStopReason false
    NoRotateStep false false false.

(** Steps that end at the first error, and at the first [Some]. *)
Definition try_bind {A B : Type} (p : M (res A)) (f : A -> M (res B)) : M (res B) :=
  r ← p; match r with Ok a => f a | Err err => mret (Err err) end.
Definition unless_error (p : M (option error)) (k : M (option error)) : M (option error) :=
  err ← p; match err with Some _ => mret err | None => k end.

Notation "x ?← p ; q" := (try_bind p (fun x => q)) (at level 20, p at level 100, q at level 200, only parsing).

(** ** Histories *)

Abbreviation hist := (list (called Eff)).
Abbreviation wps := (wp record_ev).

(** The record as it was loaded last. *)
Fixpoint last_loaded (h : hist) : option ManagedSession :=
  match h with
  | [] => None
  | Ev e x :: h =>
      match e in Eff X return X -> option ManagedSession with
      | LoadSession => fun x => match x with Ok s => Some s | Err _ => last_loaded h end
      | _ => fun _ => last_loaded h
      end x
  end.

Ltac wp_cbn := cbn [wp prog_bind mbind prog_mbind mret prog_mret call].

(** Reading a record under its lock. *)
Definition record_io (e : called Eff) : Prop :=
  match e with Ev e _ => match e with LockRecord | UnlockRecord | LoadSession | Marshal _ => True | _ => False end end.

(** What has been added to a history, by events of a kind. *)
Definition ext (P : called Eff -> Prop) (h h' : hist) : Prop := exists new, h' = new ++ h /\ Forall P new.

Lemma ext_refl P h : ext P h h.
Proof. by exists []. Qed.
Lemma ext_cons P e h h' : P e -> ext P h h' -> ext P h (e :: h').
Proof. intros He (new & -> & H). exists (e :: new). split; [done|by constructor]. Qed.
Lemma ext_trans P h1 h2 h3 : ext P h1 h2 -> ext P h2 h3 -> ext P h1 h3.
Proof. intros (n1 & -> & H1) (n2 & -> & H2). exists (n2 ++ n1). split; [by rewrite app_assoc|]. by apply list.Forall_app. Qed.
Lemma ext_mono (P P' : called Eff -> Prop) h h' : (forall e, P e -> P' e) -> ext P h h' -> ext P' h h'.
Proof. intros HP (new & -> & H). exists new. split; [done|]. by eapply Forall_impl. Qed.
Lemma ext_suffix P h h' : ext P h h' -> h `suffix_of` h'.
Proof. intros (new & -> & _). by exists new. Qed.

(** An update, all of whose events are in order: what it does in between, and what it leaves behind. *)
Lemma UpdateSession_wpi (P : called Eff -> hist -> Prop) {A : Type} (update : ManagedSession -> M (res (ManagedSession * A))) h
    (Q : hist -> res A -> Prop) :
  (forall e h, record_io e -> P e h) ->
  (forall h' err, ext record_io h h' -> Q h' (Err err)) ->
  (forall s before,
    wpi record_ev P (update s) (Ev (Marshal s) (Ok before) :: Ev LoadSession (Ok s) :: Ev LockRecord tt :: h) (fun h' r =>
      match r with
      | Err err => Q (Ev UnlockRecord tt :: h') (Err err)
      | Ok (s', a) =>
          (forall err, Q (Ev UnlockRecord tt :: Ev (Marshal s') (Err err) :: h') (Err err))
          /\ Q (Ev UnlockRecord tt :: Ev (Marshal s') (Ok before) :: h') (Ok a)
          /\ forall after err, P (Ev (SaveSession s') err) (Ev (Marshal s') (Ok after) :: h')
             /\ Q (Ev UnlockRecord tt :: Ev (SaveSession s') err :: Ev (Marshal s') (Ok after) :: h')
                  (match err with Some err => Err err | None => Ok a end)
      end)) ->
  wpi record_ev P (UpdateSession update) h Q.
Proof.
  intros HP Hfail Hup. unfold UpdateSession.
  apply wpi_call. intros []. split; [by apply HP|]. apply wpi_bind. apply wpi_call. intros session. split; [by apply HP|].
  assert (forall h' err, ext record_io h h' -> wpi record_ev P (call UnlockRecord;; mret (Err err)) h' Q) as Hend.
  { intros h' err Hh. apply wpi_call. intros []. split; [by apply HP|]. apply Hfail. by apply ext_cons. }
  destruct session as [s|err]; [|by apply Hend; repeat apply ext_cons; try done; apply ext_refl].
  apply wpi_call. intros before. split; [by apply HP|].
  destruct before as [before|err]; [|by apply Hend; repeat apply ext_cons; try done; apply ext_refl].
  apply wpi_bind. eapply wpi_mono; [apply Hup|]. intros h' [[s' a]|err] HQ.
  2:{ apply wpi_call. intros []. split; [by apply HP|]. apply HQ. }
  destruct HQ as (Q1 & Q2 & Q3). apply wpi_call. intros [after|err]; (split; [by apply HP|]).
  2:{ apply wpi_call. intros []. split; [by apply HP|]. apply Q1. }
  destruct (bool_decide_reflect (before = after)) as [<-|_]; [apply wpi_call; intros []; split; [by apply HP|]; apply Q2|].
  apply wpi_call. intros err. destruct (Q3 after err) as [HS HQ]. split; [done|].
  destruct err; apply wpi_call; intros []; (split; [by apply HP|]); apply HQ.
Qed.
