(* ===== verification/Preflight.v ===== *)
(** * The checks before a child is started

    [internal/supervisor/usecase/launch_preflight.go], the guard against other ways of
    billing ([launch/billing.go]) and the writing of the settings ([launch/settings.go]).
    The answers of the file system are effects; decoded JSON is a value of [Json]. *)

From S2P Require Import Prelude.
From S2P Require Import GoStrings.
From S2P Require Import GoText.
From S2P Require Import Errors.
From S2P Require Import TaskPaths.
From S2P Require Import Session.
From S2P Require Import Effects.
From S2P Require Import Launch.
From S2P Require Import SupEff.

(** *** The billing guard *)

Definition maxBillingSettingsBytes : Z := 16 * 1024 * 1024.

Definition billingEnvNames : list string :=
  ["ANTHROPIC_API_KEY"; "OPENAI_API_KEY"; "ANTHROPIC_AUTH_TOKEN"; "ANTHROPIC_BASE_URL"; "CLAUDE_CODE_USE_BEDROCK"; "CLAUDE_CODE_USE_VERTEX";
   "CLAUDE_CODE_USE_FOUNDRY"; "AWS_BEARER_TOKEN_BEDROCK"]%string.
Definition supervisorStrippedEnvNames : list string := ["CLAUDE_CONFIG_DIR"; "CODEX_HOME"]%string.

Definition billingFailure (kind : string) : error := Errorf "SUP_BILLING_GUARD_FAILED: %s" [kind].

(** [doc[name]] *)
Definition member (name : string) (doc : list (string * Json)) : option Json :=
  fold_left (fun found m => if (fst m =? name)%string then Some (snd m) else found) doc None.

Definition rawNonEmpty (raw : Json) : bool :=
  match raw with JNull => false | JString value => negb (value =? "")%string | _ => true end.

(** A file that is regular and not too long. *)
Definition inspectable (info : bool * Z) : bool := fst info && negb (maxBillingSettingsBytes <? snd info).

(** The document of a file, and whether the file is missing. *)
Definition readJSONFile (path : string) (requireFile : bool) (kind : string) : M (res (JsonDoc * bool)) :=
  info ← call (LstatFile path);
  match info with
  | Err err => mret (if errors_Is err FsErrNotExist && negb requireFile then Ok (None, true) else Err (billingFailure kind))
  | Ok info =>
      if negb (inspectable info) then mret (Err (billingFailure kind))
      else
        err ← call (OpenFile path);
        match err with
        | Some _ => mret (Err (billingFailure kind))
        | None =>
            r ← (opened ← call StatOpened;
                 if negb (match opened with Ok info => inspectable info | Err _ => false end) then mret (Err (billingFailure kind))
                 else
                   data ← call (ReadOpened (maxBillingSettingsBytes + 1));
                   match data with
                   | Err _ => mret (Err (billingFailure kind))
                   | Ok data =>
                       if maxBillingSettingsBytes <? Z.of_nat (String.length data) then mret (Err (billingFailure kind))
                       else
                         doc ← call (DecodeJSON data);
                         match doc with
                         | Ok (Some members) =>
                             more ← call DecodeMore;
                             mret (if (more : bool) then Err (billingFailure kind) else Ok (Some members, false))
                         | _ => mret (Err (billingFailure kind))
                         end
                   end);
            call CloseOpened;;
            mret r
        end
  end.

(** What a settings file must not say. *)
Definition settings_error (kind : string) (doc : list (string * Json)) : option error :=
  if is_some (member "apiKeyHelper" doc) then Some (billingFailure kind)
  else if (kind =? "claude_json")%string && match member "primaryApiKey" doc with Some raw => rawNonEmpty raw | None => false end
  then Some (billingFailure kind)
  else
    match member "env" doc with
    | None => None
    | Some (JObject env) => if existsb (fun m => hasName billingEnvNames (fst m)) env then Some (billingFailure kind) else None
    | Some _ => Some (billingFailure kind)
    end.

Definition inspectSettings (path kind : string) : M (option error) :=
  r ← readJSONFile path false kind;
  mret (match r with
        | Err err => Some err
        | Ok (_, true) => None
        | Ok (None, false) => Some (billingFailure kind)
        | Ok (Some doc, false) => settings_error kind doc
        end).

(** What the credentials of Codex must say. *)
Definition auth_error (doc : list (string * Json)) : option error :=
  if negb (match member "auth_mode" doc with Some (JString mode) => (mode =? "chatgpt")%string | _ => false end) then Some (billingFailure "codex_auth")
  else match member "OPENAI_API_KEY" doc with
       | Some raw => if rawNonEmpty raw then Some (billingFailure "codex_auth") else None
       | None => None
       end.

Definition inspectCodexAuth (path : string) : M (option error) :=
  r ← readJSONFile path true "codex_auth";
  mret (match r with
        | Err err => Some err
        | Ok (None, _) => Some (billingFailure "codex_auth")
        | Ok (Some doc, _) => auth_error doc
        end).

(** The name of a variable of the child that selects another way of billing. *)
Definition billing_entry (item : string) : bool :=
  let key := match StringCut item "=" with Some (key, _) => key | None => item end in
  hasName billingEnvNames key || hasName supervisorStrippedEnvNames key.

Definition settings_files (home cwd : string) : list (string * string) :=
  [(filepath_Join [home; ".claude"; "settings.json"], "user_settings"); (filepath_Join [cwd; ".claude"; "settings.json"], "project_settings");
   (filepath_Join [cwd; ".claude"; "settings.local.json"], "project_local_settings"); (filepath_Join [home; ".claude.json"], "claude_json")]%string.

Fixpoint inspect_all (checks : list (string * string)) : M (option error) :=
  match checks with
  | [] => mret None
  | (path, kind) :: checks => unless_error (inspectSettings path kind) (inspect_all checks)
  end.

Definition managed_path (ManagedSettingsPath : string) : string :=
  if (ManagedSettingsPath =? "")%string then "/Library/Application Support/ClaudeCode/managed-settings.json"%string else ManagedSettingsPath.

(** [BillingGuard.Check] *)
Definition BillingGuard_Check (ManagedSettingsPath cwd : string) (childEnv : list string) : M (option error) :=
  if negb (IsAbs cwd) then mret (Some (billingFailure "project_settings"))
  else if existsb billing_entry childEnv then mret (Some (billingFailure "child_env"))
  else
    home ← call UserHomeDir;
    match home with
    | Err _ => mret (Some (billingFailure "user_settings"))
    | Ok home =>
        if (home =? "")%string then mret (Some (billingFailure "user_settings"))
        else
          unless_error (inspect_all (settings_files home cwd)) (
            unless_error (inspectSettings (managed_path ManagedSettingsPath) "managed")
              (inspectCodexAuth (filepath_Join [home; ".codex"; "auth.json"]%string)))
    end.

Definition billing_reasons : list SupervisorStartFailReason :=
  [StartFailUserSettings; StartFailProjectSettings; StartFailProjectLocalSettings; StartFailClaudeJSON; StartFailManaged; StartFailCodexAuth; StartFailChildEnv].

Definition billingStartFailureReason (err : error) : SupervisorStartFailReason :=
  match err with
  | Errorf format [kind] =>
      if (format =? "SUP_BILLING_GUARD_FAILED: %s")%string
      then match List.find (fun reason => (kind =? SupervisorStartFailReason_string reason)%string) billing_reasons with
           | Some reason => reason
           | None => NoStartFailReason
           end
      else NoStartFailReason
  | _ => NoStartFailReason
  end.

(** *** The settings file *)

(** [WriteSettingsFile]: a temporary file, renamed when it is complete; it is removed on an error. *)
Definition write_temp (path tmp : string) (doc : settingsDocument) : M (option error) :=
  unless_error (call (TempChmod tmp)) (
    unless_error (call (TempWrite tmp doc)) (
      unless_error (call (TempSync tmp)) (
        unless_error (call (TempClose tmp)) (call (RenameFile tmp path))))).

Definition sync_directory (dir : string) : M (option error) :=
  err ← call (OpenDir dir);
  match err with
  | Some _ => mret err
  | None =>
      err ← call (SyncDir dir);
      call (CloseDir dir);;
      mret err
  end.

(** [filepath.Dir]: the path up to its last slash. *)
Fixpoint drop_name (l : list ascii) : list ascii := match l with c :: l' => if Ascii.eqb c "/" then l else drop_name l' | [] => [] end.
Definition filepath_Dir (path : string) : string := Clean (of_chars (rev (drop_name (rev (chars path))))).

Definition WriteSettingsFile (path : string) (doc : settingsDocument) : M (option error) :=
  if negb (IsAbs path) then mret (Some (Errorf "settings path must be absolute" []))
  else
    let dir := filepath_Dir path in
    tmp ← call (CreateTemp dir);
    match tmp with
    | Err err => mret (Some err)
    | Ok tmp =>
        err ← write_temp path tmp doc;
        match err with
        | Some _ => call (TempClose tmp);; call (RemoveFile tmp);; mret err
        | None =>
            err ← sync_directory dir;
            call (TempClose tmp);;
            mret err
        end
    end.

(** *** The checks ([launch_preflight.go]) *)

Record StartProject : Type := mkProject {
  pj_ID : string;
  pj_CLI : SupervisorCli;
  pj_CWD : string;
  pj_BinaryPath : string;
  pj_Model : option string }.

Record StartSessionConfig : Type := mkStartConfig {
  StateDir : string;
  CodexdPath : string;
  MaxSessions : Z;
  Columns : Z;
  Rows : Z }.

Section Preflight.
Context (config : StartSessionConfig) (ManagedSettingsPath : string) (failure : SupervisorStartFailReason -> M unit) (validateModel : bool).

Definition refuse {A : Type} (reason : SupervisorStartFailReason) (err : error) : M (res A) := failure reason;; mret (Err err).

Definition check_environment (project : StartProject) : M (res (list string)) :=
  parent ← call Environ;
  let env := BuildSessionEnv parent in
  err ← BillingGuard_Check ManagedSettingsPath (pj_CWD project) env;
  match err with
  | Some err =>
      let reason := billingStartFailureReason err in
      if StartFail_Valid reason
      then refuse reason (Wrap ("%w: " +:+ SupervisorStartFailReason_string reason) [Sentinel ErrBillingGuardFailed])
      else mret (Err (Sentinel ErrBillingGuardFailed))
  | None =>
      if (StateDir config =? "")%string || negb (IsAbs (StateDir config)) then refuse StartFailSettingsGenerationFailed (Errorf "state directory must be absolute" [])
      else if (Columns config =? 0) || (Rows config =? 0) then refuse StartFailSpawnFailed (Sentinel ErrPTYSizeInvalid)
      else mret (Ok env)
  end.

Definition check (project : StartProject) : M (res (list string)) :=
  st ← call (StatFile (pj_CWD project));
  if negb (IsAbs (pj_CWD project)) || negb (match st with Ok st => st_IsDir st | Err _ => false end)
  then refuse StartFailProjectCWDUnavailable (Sentinel ErrProjectCWDUnavailable)
  else if negb (match st with Ok st => st_Own st | Err _ => false end) then refuse StartFailProjectCWDUnavailable (Sentinel ErrProjectCWDUnavailable)
  else
    st ← call (StatFile (pj_BinaryPath project));
    if negb (IsAbs (pj_BinaryPath project)) || negb (match st with Ok st => negb (st_IsDir st) && st_Exec st | Err _ => false end)
    then refuse StartFailSpawnFailed (Sentinel ErrSpawnFailed)
    else
      match (if validateModel then ValidateProjectModel (pj_Model project) else None) with
      | Some err => refuse StartFailLaunchArgvInvalid err
      | None => check_environment project
      end.

Definition statusline_dir : string := filepath_Join [StateDir config; "statusline"%string].
Definition settings_path (id : string) : string := filepath_Join [statusline_dir; (id +:+ ".settings.json")%string].

Definition settings (id : string) : M (res string) :=
  err ← call (MkdirAll statusline_dir);
  match err with
  | Some err => mret (Err err)
  | None =>
      match BuildSettingsJSON (CodexdPath config) id (StateDir config) with
      | Err err => refuse StartFailSettingsGenerationFailed err
      | Ok doc =>
          err ← WriteSettingsFile (settings_path id) doc;
          match err with
          | Some err => refuse StartFailSettingsGenerationFailed err
          | None =>
              err ← call (RemoveFile (filepath_Join [statusline_dir; (id +:+ ".json")%string]));
              mret (match err with
                    | Some err => if errors_Is err FsErrNotExist then Ok (settings_path id) else Err err
                    | None => Ok (settings_path id)
                    end)
          end
      end
  end.
End Preflight.
