(* ===== verification/PreflightOk.v ===== *)
(** * What the checks before a start have seen

    Over [Preflight]: a program whose checks have passed has an environment without other
    ways of billing, has read every settings file there is to the end, and has replaced the
    settings of the child as a whole. *)

From S2P Require Import Prelude.
From S2P Require Import GoStrings.
From S2P Require Import Errors.
From S2P Require Import TaskPaths.
From S2P Require Import Session.
From S2P Require Import Effects.
From S2P Require Import Launch.
From S2P Require Import SupEff.
From S2P Require Import Preflight.

(** ** Specification vocabulary *)

(** A file was read as a regular file that holds one JSON object and nothing else. *)
Definition read_doc (path : string) (doc : list (string * Json)) (h : hist) : Prop :=
  exists info opened data newer older, inspectable info = true /\ inspectable opened = true
  /\ h = newer ++ Ev DecodeMore false :: Ev (DecodeJSON data) (Ok (Some doc)) :: Ev (ReadOpened (maxBillingSettingsBytes + 1)) (Ok data)
               :: Ev StatOpened (Ok opened) :: Ev (OpenFile path) None :: Ev (LstatFile path) (Ok info) :: older.

Definition missing (path : string) (h : hist) : Prop := exists err, Ev (LstatFile path) (Err err) ∈ h /\ errors_Is err FsErrNotExist = true.

(** A settings file that selects no other way of billing. *)
Definition clean_settings (kind : string) (doc : list (string * Json)) : Prop :=
  (forall raw, ("apiKeyHelper"%string, raw) ∉ doc)
  /\ (kind = "claude_json"%string -> forall raw, member "primaryApiKey" doc = Some raw -> rawNonEmpty raw = false)
  /\ (forall raw, member "env" doc = Some raw -> exists env, raw = JObject env /\ Forall (fun m => m.1 ∉ billingEnvNames) env).

Definition clean_file (h : hist) (check : string * string) : Prop :=
  missing check.1 h \/ exists doc, read_doc check.1 doc h /\ clean_settings check.2 doc.

Definition chatgpt_auth (doc : list (string * Json)) : Prop :=
  member "auth_mode" doc = Some (JString "chatgpt") /\ forall raw, member "OPENAI_API_KEY" doc = Some raw -> rawNonEmpty raw = false.

Definition billing_clean (ManagedSettingsPath cwd : string) (env : list string) (h : hist) : Prop :=
  Forall (fun item => billing_entry item = false) env
  /\ exists home, Ev UserHomeDir (Ok home) ∈ h /\ home <> ""%string
     /\ Forall (clean_file h) (settings_files home cwd ++ [(managed_path ManagedSettingsPath, "managed"%string)])
     /\ exists doc, read_doc (filepath_Join [home; ".codex"; "auth.json"]%string) doc h /\ chatgpt_auth doc.

(** The project can be started in, with the environment [env]. *)
Definition launchable (config : StartSessionConfig) (ManagedSettingsPath : string) (project : StartProject) (env : list string) (h : hist) : Prop :=
  IsAbs (pj_CWD project) = true /\ (exists st, Ev (StatFile (pj_CWD project)) (Ok st) ∈ h /\ st_IsDir st = true /\ st_Own st = true)
  /\ IsAbs (pj_BinaryPath project) = true
  /\ (exists st, Ev (StatFile (pj_BinaryPath project)) (Ok st) ∈ h /\ st_IsDir st = false /\ st_Exec st = true)
  /\ (exists parent, Ev Environ parent ∈ h /\ env = BuildSessionEnv parent)
  /\ billing_clean ManagedSettingsPath (pj_CWD project) env h
  /\ IsAbs (StateDir config) = true /\ Columns config <> 0 /\ Rows config <> 0.

(** The settings file was replaced by a complete one. *)
Definition replaced (path : string) (doc : settingsDocument) (h : hist) : Prop :=
  exists dir tmp newer older,
    h = newer ++ Ev (RenameFile tmp path) None :: Ev (TempClose tmp) None :: Ev (TempSync tmp) None :: Ev (TempWrite tmp doc) None
              :: Ev (TempChmod tmp) None :: Ev (CreateTemp dir) (Ok tmp) :: older.

Definition settings_written (config : StartSessionConfig) (id path : string) (h : hist) : Prop :=
  path = settings_path config id
  /\ exists doc, BuildSettingsJSON (CodexdPath config) id (StateDir config) = Ok doc /\ replaced path doc h.

(** An event that touches neither the record nor a child nor the stop. *)
Definition aside (e : called Eff) : Prop :=
  match e with
  | Ev e _ =>
      match e with
      | LoadSession | SaveSession _ | CreateRecord _ | DeleteRecord | StartChild _ _ _ | Respawn _ | Send _ _ | GuardBegin | GuardEnd | Panic => False
      | _ => True
      end
  end.

(** ** Lemmas *)

Lemma member_none name doc : member name doc = None -> forall raw, (name, raw) ∉ doc.
Proof.
  unfold member. assert (forall found, fold_left (fun found m => if (fst m =? name)%string then Some (snd m) else found) doc found = None ->
    found = None /\ forall raw : Json, (name, raw) ∉ doc) as H.
  { induction doc as [|[n r] doc IH]; intros found; cbn; [intros ->; split; [done|intros raw ?%elem_of_nil; done]|]. intros H. apply IH in H as [H1 H2].
    destruct (String.eqb_spec n name) as [->|Hne]; [done|]. split; [done|]. intros raw [[= Hn _]|Hin]%list.elem_of_cons; [done|by eapply H2]. }
  intros Hn. by apply (H None).
Qed.

Lemma hasName_false names name : hasName names name = false -> name ∉ names.
Proof.
  unfold hasName. intros H Hin. apply not_true_iff_false in H. apply H, existsb_exists. exists name. split; [by apply list_elem_of_In|apply String.eqb_refl].
Qed.

Lemma settings_error_none kind doc : settings_error kind doc = None -> clean_settings kind doc.
Proof.
  unfold settings_error, clean_settings. destruct (member "apiKeyHelper" doc) eqn:E1; [done|]. cbn [is_some].
  destruct (_ && _) eqn:E2; [done|]. intros H. split_and!; [by apply member_none| |].
  - intros -> raw Hraw. rewrite Hraw in E2. by rewrite String.eqb_refl in E2.
  - intros raw Hraw. rewrite Hraw in H. destruct raw as [| |env|]; try done. exists env. split; [done|].
    destruct (existsb _ _) eqn:E3; [done|]. apply list.Forall_forall. intros m Hm. apply hasName_false. apply not_true_iff_false. intros Hh.
    apply not_true_iff_false in E3. apply E3, existsb_exists. exists m. split; [by apply list_elem_of_In|done].
Qed.

Lemma auth_error_none doc : auth_error doc = None -> chatgpt_auth doc.
Proof.
  unfold auth_error, chatgpt_auth. destruct (member "auth_mode" doc) as [[|mode| |]|]; try done. destruct (String.eqb_spec mode "chatgpt") as [->|]; [|done].
  cbn [negb]. intros H. split; [done|]. intros raw Hraw. rewrite Hraw in H. by destruct (rawNonEmpty raw).
Qed.

Lemma read_doc_later path doc h h' : h `suffix_of` h' -> read_doc path doc h -> read_doc path doc h'.
Proof. intros [n ->] (i & o & d & newer & older & H1 & H2 & ->). exists i, o, d, (n ++ newer), older. split_and!; [done..|]. by rewrite <- app_assoc. Qed.
Lemma clean_file_later h h' c : h `suffix_of` h' -> clean_file h c -> clean_file h' c.
Proof.
  intros Hs [(err & He & Hi)|(doc & Hd & Hc)]; [left; exists err; split; [by eapply in_later|done]|right; exists doc; split; [by eapply read_doc_later|done]].
Qed.
Lemma billing_clean_later m cwd env h h' : h `suffix_of` h' -> billing_clean m cwd env h -> billing_clean m cwd env h'.
Proof.
  intros Hs (H1 & home & H2 & H3 & H4 & doc & H5 & H6). split; [done|]. exists home. split_and!; [by eapply in_later|done| |].
  - eapply Forall_impl; [|exact H4]. intros c. by apply clean_file_later.
  - exists doc. split; [by eapply read_doc_later|done].
Qed.
Lemma launchable_later c m p env h h' : h `suffix_of` h' -> launchable c m p env h -> launchable c m p env h'.
Proof.
  intros Hs (H1 & (st & H2 & H3) & H4 & (st' & H5 & H6) & (parent & H7 & H8) & H9 & H10). split_and!; try done; try apply H10.
  - exists st. split; [by eapply in_later|done].
  - exists st'. split; [by eapply in_later|done].
  - exists parent. split; [by eapply in_later|done].
  - by eapply billing_clean_later.
Qed.
Lemma replaced_later path doc h h' : h `suffix_of` h' -> replaced path doc h -> replaced path doc h'.
Proof. intros [n ->] (d & t & newer & older & ->). exists d, t, (n ++ newer), older. by rewrite <- app_assoc. Qed.
Lemma settings_written_later c id path h h' : h `suffix_of` h' -> settings_written c id path h -> settings_written c id path h'.
Proof. intros Hs (H1 & doc & H2 & H3). split; [done|]. exists doc. split; [done|by eapply replaced_later]. Qed.

Section Checks.
Context (P : called Eff -> hist -> Prop) (HP : forall e h, aside e -> P e h).

Ltac ext_here := first [apply ext_refl | apply ext_cons; [done|ext_here]].

(** A call whose answer is then looked at. *)
Lemma aside_call {X A : Type} (e : Eff X) (k : X -> M A) h h0 Q :
  (forall x, aside (Ev e x)) -> ext aside h0 h -> (forall x, ext aside h0 (Ev e x :: h) -> wpi record_ev P (k x) (Ev e x :: h) Q) ->
  wpi record_ev P (call e ≫= k) h Q.
Proof. intros He Hh Hk. apply wpi_call. intros x. split; [by apply HP|]. apply Hk. by apply ext_cons. Qed.

Lemma readJSONFile_wpi path requireFile kind h :
  wpi record_ev P (readJSONFile path requireFile kind) h (fun h' r => ext aside h h' /\
    match r with
    | Ok (Some doc, false) => read_doc path doc h'
    | Ok (None, true) => requireFile = false /\ missing path h'
    | Ok _ => False
    | Err _ => True
    end).
Proof.
  apply (aside_call _ _ h h); [done|apply ext_refl|]. intros [info|err] H1.
  2:{ destruct (errors_Is err FsErrNotExist) eqn:E; destruct requireFile; cbn; try done. split; [done|]. split; [done|]. exists err. split; [by left|done]. }
  destruct (inspectable info) eqn:Ei; [|done]. cbn [negb]. apply (aside_call _ _ _ h); [done|done|]. intros [err|] H2; [done|].
  apply wpi_bind. apply (aside_call _ _ _ h); [done|done|]. intros opened H3.
  destruct opened as [opened|err]; cbn [negb]; [destruct (inspectable opened) eqn:Eo; cbn [negb]|].
  2-3: apply (aside_call _ _ _ h); [done|done|]; done.
  apply (aside_call _ _ _ h); [done|done|]. intros [data|err] H4; [|by apply (aside_call _ _ _ h)].
  destruct (_ <? _); [by apply (aside_call _ _ _ h)|]. apply (aside_call _ _ _ h); [done|done|]. intros [[doc|]|err] H5; [|by apply (aside_call _ _ _ h)..].
  apply (aside_call _ _ _ h); [done|done|]. intros [|] H6; apply (aside_call _ _ _ h); [done|done|done|done|done|]. intros [] H7.
  split; [done|]. exists info, opened, data, [Ev CloseOpened ()], h. split_and!; done.
Qed.

Lemma inspectSettings_wpi path kind h :
  wpi record_ev P (inspectSettings path kind) h (fun h' r => ext aside h h' /\ (r = None -> clean_file h' (path, kind))).
Proof.
  apply wpi_bind. eapply wpi_mono; [apply readJSONFile_wpi|]. intros h' [[[doc|] []]|err] [He H]; try done.
  - split; [done|]. intros Hn. right. exists doc. split; [done|]. by apply settings_error_none.
  - split; [done|]. intros _. left. apply H.
Qed.

Lemma inspectCodexAuth_wpi path h :
  wpi record_ev P (inspectCodexAuth path) h (fun h' r => ext aside h h' /\ (r = None -> exists doc, read_doc path doc h' /\ chatgpt_auth doc)).
Proof.
  apply wpi_bind. eapply wpi_mono; [apply readJSONFile_wpi|]. intros h' [[[doc|] []]|err] [He H]; try done.
  split; [done|]. intros Hn. exists doc. split; [done|]. by apply auth_error_none.
Qed.

Lemma unless_error_wpi (p k : M (option error)) h (Q : hist -> option error -> Prop) (R : hist -> Prop) :
  wpi record_ev P p h (fun h' r => ext aside h h' /\ (r = None -> R h')) ->
  (forall h' err, ext aside h h' -> Q h' (Some err)) -> (forall h', ext aside h h' -> R h' -> wpi record_ev P k h' Q) ->
  wpi record_ev P (unless_error p k) h Q.
Proof. intros Hp Hq Hk. apply wpi_bind. eapply wpi_mono; [exact Hp|]. intros h' [err|] [He H]; [by apply Hq|by apply Hk, H]. Qed.

Lemma inspect_all_wpi checks h :
  wpi record_ev P (inspect_all checks) h (fun h' r => ext aside h h' /\ (r = None -> Forall (clean_file h') checks)).
Proof.
  revert h. induction checks as [|[path kind] checks IH]; intros h; [split; [apply ext_refl|constructor]|].
  eapply unless_error_wpi; [apply inspectSettings_wpi|done|]. intros h1 H1 Hc. eapply wpi_mono; [apply IH|]. intros h2 r [H2 Hr].
  split; [by eapply ext_trans|]. intros Hn. constructor; [|by apply Hr]. eapply clean_file_later; [by eapply ext_suffix|done].
Qed.

Lemma BillingGuard_Check_wpi m cwd env h :
  wpi record_ev P (BillingGuard_Check m cwd env) h (fun h' r => ext aside h h' /\ (r = None -> billing_clean m cwd env h')).
Proof.
  unfold BillingGuard_Check. destruct (IsAbs cwd); cbn [negb]; [|by split; [ext_here|]].
  destruct (existsb billing_entry env) eqn:Eenv; [by split; [ext_here|]|]. apply (aside_call _ _ _ h); [done|apply ext_refl|]. intros [home|err] H1; [|done].
  destruct (String.eqb_spec home "") as [->|Hhome]; [done|]. eapply unless_error_wpi; [apply inspect_all_wpi|intros h' err He; split; [eapply ext_trans; [exact H1|exact He]|done]|].
  intros h2 H2 Hc2. eapply unless_error_wpi; [apply inspectSettings_wpi|intros h' err He; split; [eapply ext_trans; [exact H1|eapply ext_trans; [exact H2|exact He]]|done]|].
  intros h3 H3 Hc3. eapply wpi_mono; [apply inspectCodexAuth_wpi|]. intros h4 r [H4 Hr].
  split; [eapply ext_trans; [exact H1|]; eapply ext_trans; [exact H2|by eapply ext_trans]|]. intros Hn. apply Hr in Hn as (doc & Hd & Ha).
  assert (h3 `suffix_of` h4) as Hs34 by (by eapply ext_suffix). assert (h2 `suffix_of` h4) as Hs24 by (etrans; [by eapply ext_suffix|done]).
  split.
  { apply list.Forall_forall. intros item Hi. apply not_true_iff_false. intros Hb. apply not_true_iff_false in Eenv. apply Eenv, existsb_exists.
    exists item. split; [by apply list_elem_of_In|done]. }
  exists home. split_and!; [|done| |by exists doc].
  - eapply in_later; [|by left]. etrans; [|exact Hs24]. by eapply ext_suffix.
  - apply list.Forall_app. split; [|constructor; [eapply clean_file_later; [exact Hs34|exact Hc3]|constructor]]. eapply Forall_impl; [|exact Hc2]. intros c. by apply clean_file_later.
Qed.

Section Reported.
Context (config : StartSessionConfig) (m : string) (failure : SupervisorStartFailReason -> M unit).
Context (Hfail : forall reason, emits record_ev aside (failure reason)).

Lemma refuse_wpi {A : Type} reason err h0 h (Q : hist -> res A -> Prop) :
  ext aside h0 h -> (forall h', ext aside h0 h' -> Q h' (Err err)) -> wpi record_ev P (refuse failure reason err) h Q.
Proof.
  intros He HQ. apply wpi_bind. apply (wpi_emits record_ev P aside); [apply HP|apply Hfail|]. intros new [] Hn _. apply HQ.
  eapply ext_trans; [exact He|by exists new].
Qed.

Lemma check_environment_wpi project h :
  wpi record_ev P (check_environment config m failure project) h (fun h' r => ext aside h h' /\
    match r with
    | Ok env => (exists parent, Ev Environ parent ∈ h' /\ env = BuildSessionEnv parent) /\ billing_clean m (pj_CWD project) env h'
                /\ IsAbs (StateDir config) = true /\ Columns config <> 0 /\ Rows config <> 0
    | Err _ => True
    end).
Proof.
  apply (aside_call _ _ _ h); [done|apply ext_refl|]. intros parent H1. cbn zeta. apply wpi_bind. eapply wpi_mono; [apply BillingGuard_Check_wpi|].
  intros h2 [err|] [H2 Hb].
  - destruct (StartFail_Valid _); [|split; [by eapply ext_trans|done]]. apply (refuse_wpi _ _ h); [by eapply ext_trans|done].
  - assert (ext aside h h2) as H02 by (by eapply ext_trans). destruct (_ || _) eqn:E1; [by apply (refuse_wpi _ _ h)|].
    destruct ((Columns config =? 0) || _) eqn:E2; [by apply (refuse_wpi _ _ h)|]. apply orb_false_iff in E1 as [_ E1%negb_false_iff].
    apply orb_false_iff in E2 as [E2%Z.eqb_neq E3%Z.eqb_neq]. split; [done|]. split_and!; try done; [|by apply Hb].
    exists parent. split; [|done]. apply (in_later _ _ _ (ext_suffix _ _ _ H2)). by left.
Qed.

Lemma check_wpi validateModel project h :
  wpi record_ev P (check config m failure validateModel project) h (fun h' r => ext aside h h' /\
    match r with Ok env => launchable config m project env h' | Err _ => True end).
Proof.
  apply (aside_call _ _ _ h); [done|apply ext_refl|]. intros st H1. destruct (negb _ || negb _) eqn:E1; [by apply (refuse_wpi _ _ h)|].
  apply orb_false_iff in E1 as [E1%negb_false_iff E2%negb_false_iff]. destruct st as [st|]; [|done]. destruct (st_Own st) eqn:E3; [|by apply (refuse_wpi _ _ h)].
  cbn [negb]. apply (aside_call _ _ _ h); [done|done|]. intros st' H2. destruct (negb _ || negb _) eqn:E4; [by apply (refuse_wpi _ _ h)|].
  apply orb_false_iff in E4 as [E4%negb_false_iff E5%negb_false_iff]. destruct st' as [st'|]; [|done].
  apply andb_true_iff in E5 as [E5%negb_true_iff E6]. set (h2 := Ev (StatFile (pj_BinaryPath project)) _ :: _) in *.
  destruct (if validateModel then _ else _); [by apply (refuse_wpi _ _ h)|]. eapply wpi_mono; [apply check_environment_wpi|].
  intros h3 [env|err] [H3 Hr]; (split; [by eapply ext_trans|]); [|done]. assert (h2 `suffix_of` h3) as Hs by (by eapply ext_suffix).
  destruct Hr as (Hp & Hb & Hd & Hc & Hw). split_and!; try done.
  - exists st. split_and!; try done. eapply in_later; [exact Hs|]. right. by left.
  - exists st'. split_and!; try done. eapply in_later; [exact Hs|]. by left.
Qed.

Lemma WriteSettingsFile_wpi path doc h :
  wpi record_ev P (WriteSettingsFile path doc) h (fun h' r => ext aside h h' /\ (r = None -> replaced path doc h')).
Proof.
  unfold WriteSettingsFile. destruct (IsAbs path); cbn [negb]; [|by split; [ext_here|]].
  apply (aside_call _ _ _ h); [done|apply ext_refl|]. intros [tmp|err] H1; [|done]. apply wpi_bind.
  assert (forall h' err, ext aside h h' -> wpi record_ev P (call (TempClose tmp);; call (RemoveFile tmp);; mret (Some err) : M (option error)) h'
    (fun h' r => ext aside h h' /\ (r = None -> replaced path doc h'))) as Hfailed.
  { intros h' err He. apply (aside_call _ _ _ h); [done|done|]. intros ? He2. by apply (aside_call _ _ _ h). }
  assert (forall h', ext aside h h' -> replaced path doc h' -> wpi record_ev P (err ← sync_directory (filepath_Dir path); call (TempClose tmp);; mret err : M (option error)) h'
    (fun h' r => ext aside h h' /\ (r = None -> replaced path doc h'))) as Hdone.
  { intros h' He Hr. assert (forall e, replaced path doc (e :: h')) as Hr1 by (intros e; eapply replaced_later; [by apply suffix_cons_r|done]).
    apply wpi_bind. apply (aside_call _ _ _ h); [done|done|]. intros [err|] He2; [by apply (aside_call _ _ _ h)|].
    apply (aside_call _ _ _ h); [done|done|]. intros e He3. apply (aside_call _ _ _ h); [done|done|]. intros [] He4.
    apply (aside_call _ _ _ h); [done|done|]. intros e' He5. split; [done|]. intros _. eapply replaced_later; [|exact Hr]. by repeat apply suffix_cons_r. }
  unfold write_temp, unless_error. do 4 (apply wpi_bind; intros [err|]; (split; [by apply HP|]); [apply Hfailed; ext_here|]).
  intros [err|]; (split; [by apply HP|]); [apply Hfailed; ext_here|]. apply Hdone; [ext_here|].
  by exists (filepath_Dir path), tmp, [], h.
Qed.

Lemma settings_wpi id h :
  wpi record_ev P (settings config failure id) h (fun h' r => ext aside h h' /\
    match r with Ok path => settings_written config id path h' | Err _ => True end).
Proof.
  apply (aside_call _ _ _ h); [done|apply ext_refl|]. intros [err|] H1; [done|]. destruct (BuildSettingsJSON _ _ _) as [doc|err] eqn:Ed; [|by apply (refuse_wpi _ _ h)].
  apply wpi_bind. eapply wpi_mono; [apply WriteSettingsFile_wpi|]. intros h2 [err|] [H2 Hr]; [apply (refuse_wpi _ _ h); [by eapply ext_trans|done]|].
  apply (aside_call _ _ _ h); [done|by eapply ext_trans|]. intros err H3. specialize (Hr eq_refl).
  assert (settings_written config id (settings_path config id) (Ev (RemoveFile (filepath_Join [statusline_dir config; (id +:+ ".json")%string])) err :: h2)) as Hw.
  { split; [done|]. exists doc. split; [done|]. eapply replaced_later; [by apply suffix_cons_r|done]. }
  split; [done|]. destruct err as [err|]; [|done]. by destruct (errors_Is err FsErrNotExist).
Qed.
End Reported.
End Checks.
