(* ===== verification/RecordOk.v ===== *)
(** * Changes of the record of a session, and the lock of the stop

    Over [SupEff]: what an update of the record does, event by event, and how long the guard
    that keeps a start apart from a stop is held. *)

From S2P Require Import Prelude.
From S2P Require Import Errors.
From S2P Require Import Session.
From S2P Require Import Effects.
From S2P Require Import SupEff.
From S2P Require Import PreflightOk.

(** An event that changes no record, starts no child and leaves the guard of the stop as it is. *)
Definition reading (e : called Eff) : Prop :=
  match e with
  | Ev e _ =>
      match e with
      | SaveSession _ | CreateRecord _ | DeleteRecord | StartChild _ _ _ | Respawn _ | Send _ _ | GuardBegin | GuardEnd | Panic => False
      | _ => True
      end
  end.

(** The same, or a save of the record [v']. *)
Definition recording (v' : ManagedSession) (e : called Eff) : Prop :=
  match e with Ev (SaveSession s) _ => s = v' | _ => reading e end.

(** The record [v] was loaded and [v'] saved in its place, or encodes to the same bytes. *)
Definition stored (v v' : ManagedSession) (h : hist) : Prop :=
  Ev LoadSession (Ok v) ∈ h
  /\ (Ev (SaveSession v') None ∈ h \/ exists b, Ev (Marshal v) (Ok b) ∈ h /\ Ev (Marshal v') (Ok b) ∈ h).

(** The guard of the stop is held. *)
Definition releases_guard (e : called Eff) : bool := match e with Ev GuardEnd _ => true | _ => false end.
Definition guard_held (h : hist) : Prop :=
  exists newer older, h = newer ++ Ev GuardBegin None :: older /\ forallb (fun e => negb (releases_guard e)) newer = true.

Lemma aside_reading e : aside e -> reading e.
Proof. destruct e as [X e x]. by destruct e. Qed.
Lemma reading_recording v' e : reading e -> recording v' e.
Proof. destruct e as [X e x]. by destruct e. Qed.
Lemma record_io_reading e : record_io e -> reading e.
Proof. destruct e as [X e x]. by destruct e. Qed.

Lemma stored_later v v' h h' : h `suffix_of` h' -> stored v v' h -> stored v v' h'.
Proof.
  intros Hs [H1 [H2|(b & H2 & H3)]]; (split; [by eapply in_later|]); [left; by eapply in_later|right].
  exists b. split; by eapply in_later.
Qed.

Lemma guard_held_later v' h h' : ext (recording v') h h' -> guard_held h -> guard_held h'.
Proof.
  intros (new & -> & Hn) (newer & older & -> & H). exists (new ++ newer), older. split; [by rewrite app_assoc|].
  rewrite forallb_app, H, andb_true_r. induction Hn as [|[X e x] new He Hn IH]; [done|]. cbn [forallb]. rewrite IH. by destruct e.
Qed.

Lemma last_loaded_aside h h' : ext aside h h' -> last_loaded h' = last_loaded h.
Proof. intros (new & -> & H). induction H as [|[X e x] new He Hn IH]; [done|]. by destruct e. Qed.

Lemma ext_reading h h' : ext aside h h' -> ext reading h h'.
Proof. apply ext_mono, aside_reading. Qed.
Lemma ext_recording v' h h' : ext reading h h' -> ext (recording v') h h'.
Proof. apply ext_mono, reading_recording. Qed.

(** An update: a save over the record just read, or none. *)
Lemma update_wpi (P : called Eff -> hist -> Prop) {A : Type} (update : ManagedSession -> M (res (ManagedSession * A))) h (Q : hist -> res A -> Prop) :
  (forall e h, reading e -> P e h) ->
  (forall h' err, ext reading h h' -> Q h' (Err err)) ->
  (forall v before, let h1 := Ev (Marshal v) (Ok before) :: Ev LoadSession (Ok v) :: Ev LockRecord tt :: h in
     wpi record_ev P (update v) h1 (fun h' r => ext aside h1 h' /\
       match r with
       | Err err => Q (Ev UnlockRecord tt :: h') (Err err)
       | Ok (v', a) =>
           (forall err h2, ext aside h' h2 -> last_loaded h2 = Some v -> P (Ev (SaveSession v') err) h2)
           /\ (forall h2, ext (recording v') h h2 -> h' `suffix_of` h2 -> stored v v' h2 -> Q h2 (Ok a))
           /\ forall h2 err, ext (recording v') h h2 -> Q h2 (Err err)
       end)) ->
  wpi record_ev P (UpdateSession update) h Q.
Proof.
  intros HP Hfail Hup. apply UpdateSession_wpi.
  - intros e h' He. by apply HP, record_io_reading.
  - intros h' err He. apply Hfail. eapply ext_mono; [apply record_io_reading|exact He].
  - intros v before. eapply wpi_mono; [apply Hup|]. intros h' [[v' a]|err] [He Hr]; [|done]. destruct Hr as (Hsave & Hok & Herr).
    set (h1 := Ev (Marshal v) (Ok before) :: _) in *. assert (h1 `suffix_of` h') as Hs by (by eapply ext_suffix).
    assert (ext (recording v') h h') as He'.
    { eapply ext_trans; [|eapply ext_recording, ext_reading; exact He]. by repeat apply ext_cons; [..|apply ext_refl]. }
    assert (Ev LoadSession (Ok v) ∈ h') as Hload by (eapply in_later; [exact Hs|]; right; by left).
    assert (Ev (Marshal v) (Ok before) ∈ h') as Hbefore by (eapply in_later; [exact Hs|]; by left).
    split_and!.
    + intros err. apply Herr. by repeat apply ext_cons.
    + apply Hok; [by repeat apply ext_cons|by do 2 apply suffix_cons_r|]. split; [by do 2 right|]. right. exists before. split; [by do 2 right|]. right. by left.
    + intros after err. split.
      * apply Hsave; [by apply ext_cons, ext_refl|]. cbn. rewrite (last_loaded_aside _ _ He). done.
      * destruct err as [err|]; [apply Herr; by repeat apply ext_cons|]. apply Hok; [by repeat apply ext_cons|by do 3 apply suffix_cons_r|].
        split; [do 3 right; done|left; right; by left].
Qed.

(** *** Starts of children *)

Definition starts_child (e : called Eff) : bool := match e with Ev (StartChild _ _ _) _ => true | _ => false end.
Definition no_start (h : hist) : Prop := forallb (fun e => negb (starts_child e)) h = true.

Definition starts_nothing (e : called Eff) : Prop := starts_child e = false.

Lemma recording_starts_nothing v' e : recording v' e -> starts_nothing e.
Proof. destruct e as [X e x]. by destruct e. Qed.
Lemma reading_starts_nothing e : reading e -> starts_nothing e.
Proof. destruct e as [X e x]. by destruct e. Qed.

Lemma no_start_ext h h' : ext starts_nothing h h' -> no_start h -> no_start h'.
Proof.
  intros (new & -> & Hn) H. unfold no_start in *. rewrite forallb_app, H, andb_true_r.
  induction Hn as [|e new He Hn IH]; [done|]. cbn [forallb]. by rewrite IH, He.
Qed.

(** A child that was started is none but the one, if only one was started. *)
Lemma started_one argv env cwd r h h' : no_start h -> ext starts_nothing (Ev (StartChild argv env cwd) r :: h) h' ->
  forall argv' env' cwd' pid', Ev (StartChild argv' env' cwd') (Ok pid') ∈ h' -> r = Ok pid'.
Proof.
  intros Hno (new & -> & Hn) argv' env' cwd' pid' Hin. apply list.elem_of_app in Hin as [Hin|Hin].
  { rewrite list.Forall_forall in Hn. by specialize (Hn _ Hin). }
  apply list.elem_of_cons in Hin as [Heq|Hin]; [|unfold no_start in Hno; rewrite forallb_true in Hno; by specialize (Hno _ Hin)].
  pose proof (f_equal (fun e : called Eff => match e with @Ev _ X e x =>
    match e in Eff Y return Y -> option (res Z) with StartChild _ _ _ => fun r => Some r | _ => fun _ => None end x end) Heq) as H.
  cbn in H. by injection H as ->.
Qed.

Lemma no_start_none h : no_start h -> forall argv env cwd r, Ev (StartChild argv env cwd) r ∉ h.
Proof. intros Hno argv env cwd r Hin. unfold no_start in Hno. rewrite forallb_true in Hno. by specialize (Hno _ Hin). Qed.
