(* ===== verification/StartSession.v ===== *)
(** * Starting a session ([internal/supervisor/usecase/start_session.go])

    The checks, the first record of the session and its first child; what has been made is
    taken back if a later step fails. *)

From S2P Require Import Prelude.
From S2P Require Import GoStrings.
From S2P Require Import Errors.
From S2P Require Import Domain.
From S2P Require Import TaskPaths.
From S2P Require Import Session.
From S2P Require Import Effects.
From S2P Require Import Launch.
From S2P Require Import SupEff.
From S2P Require Import Preflight.

(** [^[a-z0-9]+(?:-[a-z0-9]+)*-[1-9][0-9]*$] *)
Definition sessionIDPattern (value : string) : bool :=
  match rev (Split value "-") with
  | seq :: ((_ :: _) as parts) =>
      match chars seq with c :: digits => char_in "1" "9" c && forallb is_digit digits | [] => false end && forallb slug_run parts
  | _ => false
  end.

Definition NewSessionID (value : string) : option error := if negb (sessionIDPattern value) then Some (Errorf "invalid session id" []) else None.

(** A child whose record could not be kept is closed, given a while, and killed. *)
Definition clean_up (pid : Z) : M unit :=
  call (ClosePTY pid);;
  exited ← call (ExitedInGrace pid);
  if (exited : bool) then mret tt
  else
    call (KillPTY pid);;
    call (AwaitExit pid).

(** Calls whose error is dropped. *)
Definition ignoring (p : M (option error)) : M unit := p;; mret tt.

(** [PTYRegistry.StartChild] *)
Definition StartChild_registered (start : M (res Z)) : M (res Z) :=
  call PTYLock;;
  shutdown ← call ShuttingDown;
  r ← (if (shutdown : bool) then mret (Err (Sentinel ErrStopActive)) else start);
  call PTYUnlock;;
  mret r.

Definition active_session (s : ManagedSession) : bool :=
  negb (bool_decide (s_State s = SessionExited)) && negb (bool_decide (s_State s = SessionFailed)).

(** The sessions there are: how many are active, or why none can be added. *)
Fixpoint count_active (projectID id : string) (all : list ManagedSession) (active : Z) : res Z :=
  match all with
  | [] => Ok active
  | s :: all =>
      if (s_SessionID s =? id)%string then Err (Sentinel ErrSessionAlreadyRunning)
      else if active_session s then
        if (s_ProjectID s =? projectID)%string then Err (Sentinel ErrSessionAlreadyRunning)
        else count_active projectID id all (active + 1)
      else count_active projectID id all active
  end.

Record StartSessionUseCase : Type := mkStartUseCase {
  start_Config : StartSessionConfig;
  start_Projects : gmap string StartProject;
  start_ManagedSettingsPath : string;
  start_has_Store : bool;
  start_has_Stop : bool;
  start_has_Lock : bool;
  start_has_PTYs : bool;
  start_has_RecordStructured : bool;
  start_has_RecordStartFailure : bool;
  start_has_Notify : bool;
  start_has_Fingerprint : bool }.

Section Start.
Context (u : StartSessionUseCase) (projectID id : string).

Definition startFailure (reason : SupervisorStartFailReason) : M unit :=
  if negb (StartFail_Valid reason) then mret tt
  else if start_has_RecordStartFailure u then call (RecordStartFailure projectID reason) else mret tt.

Definition eventNotify (kind : SupervisorEventKind) : M unit :=
  (if start_has_RecordStructured u then
     ignoring (call (RecordStructured (mkSupEvent kind "" "" NoRotateStep NoSessionState
       (if bool_decide (kind = EventKindSessionStarted) then SessionStarting else NoSessionState) None)))
   else mret tt);;
  (if start_has_Notify u then call (Notify kind id) else mret tt).

Definition new_session (project : StartProject) (now : Time) : ManagedSession :=
  mkSession (GitPhaseOther "") 0 id projectID (pj_CLI project) 1 SessionStarting now StopScopeNone NoStopReason NoExitReason "" "" 0 None
    (mkSendGate 1 false false None false None) None 0 [] None NoDisabledReason false false None NoSessionState "" "" "" NoFailureReason "" "".

Definition forget_session (settingsPath : string) : M unit := ignoring (call DeleteRecord);; ignoring (call (RemoveFile settingsPath)).

(** The child is running: its process is kept in the record. *)
Definition keep_child (settingsPath : string) (pid : Z) : M (res Z) :=
  started ← call Now;
  call (OwnChild pid);;
  err ← UpdateSession_ (fun s => s <| s_ChildPID := pid |> <| s_ChildStartedAt := Some started |>);
  match err with
  | Some err =>
      call (DisownChild pid);;
      clean_up pid;;
      forget_session settingsPath;;
      mret (Err (Wrap "%w: %v" [Sentinel ErrSpawnFailed]))
  | None =>
      eventNotify EventKindSessionStarted;;
      (if start_has_PTYs u then call (RegisterPTY pid) else mret tt);;
      mret (Ok pid)
  end.

Definition launch_child (project : StartProject) (env : list string) (settingsPath : string) : M (res Z) :=
  match BuildLaunchArgv (SupervisorCli_string (pj_CLI project)) (pj_BinaryPath project) settingsPath "" with
  | Err err =>
      forget_session settingsPath;;
      startFailure StartFailLaunchArgvInvalid;;
      mret (Err (Wrap "%w: %v" [Sentinel ErrSpawnFailed]))
  | Ok argv =>
      let launchChild := call (StartChild argv env (pj_CWD project)) in
      pty ← (if start_has_PTYs u then StartChild_registered launchChild else launchChild);
      match pty with
      | Err err =>
          forget_session settingsPath;;
          if errors_Is err ErrStopActive then mret (Err (Sentinel ErrStopActive))
          else startFailure StartFailSpawnFailed;; mret (Err (Wrap "%w: %v" [Sentinel ErrSpawnFailed]))
      | Ok pid => keep_child settingsPath pid
      end
  end.

Definition create_and_launch (project : StartProject) : M (res Z) :=
  env ?← check (start_Config u) (start_ManagedSettingsPath u) startFailure true project;
  settingsPath ?← settings (start_Config u) startFailure id;
  now ← call Now;
  let session := new_session project now in
  session ← (if start_has_Fingerprint u then fp ← call GitConfigFingerprint; mret (session <| s_GitConfigFingerprint := fp |>) else mret session);
  err ← call (CreateRecord session);
  match err with
  | Some err => ignoring (call (RemoveFile settingsPath));; mret (Err err)
  | None => launch_child project env settingsPath
  end.

Definition start_locked : M (res Z) :=
  if negb (start_has_Store u) then mret (Err (Errorf "session store is required" []))
  else
    match start_Projects u !! projectID with
    | None => mret (Err (Sentinel ErrProjectNotFound))
    | Some project =>
        match NewSessionID id with
        | Some err => mret (Err err)
        | None =>
            if negb (HasPrefix id (projectID +:+ "-")%string) then mret (Err (Sentinel ErrSessionIDProjectMismatch))
            else
              all ?← call ListSessions;
              match count_active projectID id all 0 with
              | Err err => mret (Err err)
              | Ok active =>
                  if MaxSessions (start_Config u) <=? 0 then mret (Err (Sentinel ErrMaxSessionsInvalid))
                  else if MaxSessions (start_Config u) <=? active then mret (Err (Sentinel ErrSessionLimitReached))
                  else create_and_launch project
              end
        end
    end.

Definition under_process_lock {A : Type} (has_Lock : bool) (failed : error -> A) (p : M A) : M A :=
  if has_Lock then
    err ← call ProcessLock;
    match err with
    | Some err => mret (failed err)
    | None =>
        r ← p;
        call ProcessUnlock;;
        mret r
    end
  else p.

(** [StopState.GuardStart] around the start. *)
Definition guarded {A : Type} (has_Stop : bool) (failed : error -> A) (p : M A) : M A :=
  if has_Stop then
    err ← call GuardBegin;
    match err with
    | Some err => mret (failed err)
    | None =>
        r ← p;
        call GuardEnd;;
        mret r
    end
  else p.

Definition Start_Execute : M (res Z) :=
  call StartMutexLock;;
  r ← under_process_lock (start_has_Lock u) Err (guarded (start_has_Stop u) Err start_locked);
  call StartMutexUnlock;;
  mret r.

(** [AbortUnobservedStart] *)
Definition AbortUnobservedStart (pid : Z) : M unit :=
  (if start_has_PTYs u then call (RemovePTY pid) else mret tt);;
  clean_up pid;;
  call (DisownChild pid);;
  forget_session (settings_path (start_Config u) id).
End Start.

Example sessionIDPattern_example : map sessionIDPattern ["repo-1"; "my-repo-12"; "repo"; "repo-01"; "-1"; "Repo-1"]%string = [true; true; false; false; false; false].
Proof. reflexivity. Qed.
