(* ===== verification/StartOk.v ===== *)
(** * When a session is started

    Over [StartSession]: the record of a session is created only within the limits, its child
    is started only after every check and under the guard of the stop, and a start that
    fails takes back what it has made. *)

From S2P Require Import Prelude.
From S2P Require Import GoStrings.
From S2P Require Import Errors.
From S2P Require Import Session.
From S2P Require Import Effects.
From S2P Require Import Launch.
From S2P Require Import SupEff.
From S2P Require Import Preflight.
From S2P Require Import PreflightOk.
From S2P Require Import RecordOk.
From S2P Require Import StartSession.

Section Start.
Context (u : StartSessionUseCase) (projectID id : string).

(** ** Specification vocabulary *)

(** Among the sessions there are, another one may be started. *)
Definition admissible (all : list ManagedSession) : Prop :=
  (forall s, s ∈ all -> s_SessionID s <> id) /\ (forall s, s ∈ all -> active_session s = true -> s_ProjectID s <> projectID)
  /\ Z.of_nat (length (List.filter active_session all)) < MaxSessions (start_Config u).

(** The start of [project] is admitted and checked, with the environment [env] and the settings at [path]. *)
Definition cleared (project : StartProject) (env : list string) (path : string) (h : hist) : Prop :=
  (start_has_Stop u = true -> guard_held h)
  /\ start_Projects u !! projectID = Some project /\ sessionIDPattern id = true /\ HasPrefix id (projectID +:+ "-")%string = true
  /\ (exists all, Ev ListSessions (Ok all) ∈ h /\ admissible all)
  /\ launchable (start_Config u) (start_ManagedSettingsPath u) project env h /\ settings_written (start_Config u) id path h.

(** The first record of the session. *)
Definition first_record (project : StartProject) (s : ManagedSession) : Prop :=
  exists now fingerprint, s = new_session projectID id project now <| s_GitConfigFingerprint := fingerprint |>.

Definition st_orderly (e : called Eff) (h : hist) : Prop :=
  match e with
  | Ev e _ =>
      match e with
      | CreateRecord s => exists project env path, cleared project env path h /\ first_record project s
      | StartChild argv env cwd =>
          exists project path s, cleared project env path h /\ first_record project s /\ Ev (CreateRecord s) None ∈ h
          /\ BuildLaunchArgv (SupervisorCli_string (pj_CLI project)) (pj_BinaryPath project) path "" = Ok argv /\ cwd = pj_CWD project
      | SaveSession v' =>
          exists v argv env cwd pid started, last_loaded h = Some v /\ Ev (StartChild argv env cwd) (Ok pid) ∈ h /\ Ev Now started ∈ h
          /\ v' = v <| s_ChildPID := pid |> <| s_ChildStartedAt := Some started |>
      | DeleteRecord => exists s, Ev (CreateRecord s) None ∈ h
      | Respawn _ | Send _ _ | Panic => False
      | _ => True
      end
  end.

(** The child of a start that has failed has ended. *)
Definition ended (pid : Z) (h : hist) : Prop := Ev (ExitedInGrace pid) true ∈ h \/ Ev (AwaitExit pid) tt ∈ h.

Definition untouched (h : hist) : Prop := Forall (fun e => reading e) h.

Definition answered (h : hist) (r : res Z) : Prop :=
  match r with
  | Ok pid => exists argv env cwd, Ev (StartChild argv env cwd) (Ok pid) ∈ h
  | Err _ =>
      (forall argv env cwd pid, Ev (StartChild argv env cwd) (Ok pid) ∈ h -> ended pid h)
      /\ ((exists s, Ev (CreateRecord s) None ∈ h) -> exists err, Ev DeleteRecord err ∈ h)
  end.

(** ** Lemmas *)

Abbreviation starts p h Q := (wpi record_ev st_orderly p h Q).

Lemma reading_st e h : reading e -> st_orderly e h.
Proof. destruct e as [X e x]. by destruct e. Qed.
Lemma aside_st e h : aside e -> st_orderly e h.
Proof. intros H. by apply reading_st, aside_reading. Qed.

Lemma starts_reading {A : Type} (p : M A) h (Q : hist -> A -> Prop) :
  emits record_ev reading p -> (forall h' a, ext reading h h' -> Q h' a) -> starts p h Q.
Proof. intros Hp HQ. apply (wpi_emits record_ev st_orderly reading); [apply reading_st|done|]. intros new a Hn _. apply HQ. by exists new. Qed.

Lemma count_active_ok all active n :
  count_active projectID id all active = Ok n ->
  n = active + Z.of_nat (length (List.filter active_session all))
  /\ (forall s, s ∈ all -> s_SessionID s <> id) /\ (forall s, s ∈ all -> active_session s = true -> s_ProjectID s <> projectID).
Proof.
  revert active. induction all as [|s all IH]; intros active; cbn.
  { intros [= <-]. split; [lia|]. split; by intros s ?%elem_of_nil. }
  destruct (String.eqb_spec (s_SessionID s) id) as [|Hid]; [done|]. destruct (active_session s) eqn:Ea.
  - destruct (String.eqb_spec (s_ProjectID s) projectID) as [|Hp]; [done|]. intros (-> & H1 & H2)%IH. cbn. split; [lia|].
    split; intros s' [->|Hs']%list.elem_of_cons; auto.
  - intros (-> & H1 & H2)%IH. split; [done|]. split; intros s' [->|Hs']%list.elem_of_cons; auto. by rewrite Ea.
Qed.

Lemma cleared_later project env path v' h h' : ext (recording v') h h' -> cleared project env path h -> cleared project env path h'.
Proof.
  intros He (H1 & H2 & H3 & H4 & (all & H5 & H6) & H7 & H8). assert (h `suffix_of` h') as Hs by (by eapply ext_suffix). split_and!; try done.
  - intros E. eapply guard_held_later; [exact He|by apply H1].
  - exists all. split; [by eapply in_later|done].
  - by eapply launchable_later.
  - by eapply settings_written_later.
Qed.

Lemma startFailure_aside reason : emits record_ev aside (startFailure u projectID reason).
Proof. unfold startFailure. repeat case_match; try done; apply emits_call; intros; exact I. Qed.

Lemma clean_up_ended pid h (Q : hist -> unit -> Prop) : (forall h', ext reading h h' -> ended pid h' -> Q h' tt) -> starts (clean_up pid) h Q.
Proof.
  intros HQ. apply wpi_call. intros err. split; [done|]. apply wpi_call. intros [|]; (split; [done|]).
  - apply HQ; [by repeat apply ext_cons; [..|apply ext_refl]|]. left. by left.
  - apply wpi_call. intros []. split; [done|]. intros []. split; [done|]. apply HQ; [by repeat apply ext_cons; [..|apply ext_refl]|]. right. by left.
Qed.

Lemma forget_session_runs path s h (Q : hist -> unit -> Prop) :
  Ev (CreateRecord s) None ∈ h -> (forall h', ext starts_nothing h h' -> (exists err, Ev DeleteRecord err ∈ h') -> Q h' tt) ->
  starts (forget_session path) h Q.
Proof.
  intros Hc HQ. apply wpi_bind. apply wpi_call. intros err. split; [by exists s|]. apply wpi_call. intros err'. split; [done|].
  apply HQ; [by repeat apply ext_cons; [..|apply ext_refl]|]. exists err. right. by left.
Qed.

(** What is not done yet: nothing is created, and no child is started. *)
Definition creates (e : called Eff) : bool := match e with Ev (CreateRecord _) _ => true | _ => false end.
Definition nothing_made (h : hist) : Prop := no_start h /\ forallb (fun e => negb (creates e)) h = true.

Lemma nothing_made_ext h h' : ext reading h h' -> nothing_made h -> nothing_made h'.
Proof.
  intros He [H1 H2]. split; [eapply no_start_ext; [eapply ext_mono; [apply reading_starts_nothing|exact He]|done]|].
  destruct He as (new & -> & Hn). rewrite forallb_app, H2, andb_true_r. clear H1 H2.
  induction Hn as [|[X e x] new He Hn IH]; [done|]. cbn [forallb]. rewrite IH. by destruct e.
Qed.

Lemma nothing_made_answered h err : nothing_made h -> answered h (Err err).
Proof.
  intros [H1 H2]. split; [intros argv env cwd pid Hin; by apply no_start_none in Hin|]. intros [s Hs]. rewrite forallb_true in H2. by specialize (H2 _ Hs).
Qed.

(** No child runs. *)
Definition none_runs (h : hist) : Prop := forall argv env cwd pid, Ev (StartChild argv env cwd) (Ok pid) ∉ h.

Lemma none_runs_ext h h' : ext starts_nothing h h' -> none_runs h -> none_runs h'.
Proof.
  intros (new & -> & Hn) H argv env cwd pid [Hin|Hin]%list.elem_of_app; [rewrite list.Forall_forall in Hn; by specialize (Hn _ Hin)|by eapply H].
Qed.
Lemma no_start_none_runs h : no_start h -> none_runs h.
Proof. intros H argv env cwd pid. by apply no_start_none. Qed.

Lemma deleted_answered h err : none_runs h -> (exists e, Ev DeleteRecord e ∈ h) -> answered h (Err err).
Proof. intros H1 H2. split; [intros argv env cwd pid Hin; by apply H1 in Hin|done]. Qed.

Lemma answered_reading h h' r : ext reading h h' -> answered h r -> answered h' r.
Proof.
  intros (new & -> & Hn). destruct r as [pid|err].
  - intros (argv & env & cwd & H). exists argv, env, cwd. apply list.elem_of_app. by right.
  - intros [H1 H2]. split.
    + intros argv env cwd pid [Hin|Hin]%list.elem_of_app; [rewrite list.Forall_forall in Hn; by specialize (Hn _ Hin)|].
      destruct (H1 _ _ _ _ Hin) as [H|H]; [left|right]; apply list.elem_of_app; by right.
    + intros [s [Hs|Hs]%list.elem_of_app]; [rewrite list.Forall_forall in Hn; by specialize (Hn _ Hs)|].
      destruct H2 as [e He]; [by exists s|]. exists e. apply list.elem_of_app. by right.
Qed.

Create HintDb start_db.
Lemma eventNotify_reading kind : emits record_ev reading (eventNotify u id kind).
Proof. unfold eventNotify, ignoring. repeat first [apply emits_bind; [|intros]|apply emits_call; intros; exact I|case_match|exact I]. Qed.

Lemma keep_child_runs s path argv env cwd pid h h0 :
  Ev (CreateRecord s) None ∈ h -> no_start h -> ext reading (Ev (StartChild argv env cwd) (Ok pid) :: h) h0 ->
  starts (keep_child u id path pid) h0 (fun h' r => answered h' r).
Proof.
  intros Hc Hno Hread. assert (ext starts_nothing (Ev (StartChild argv env cwd) (Ok pid) :: h) h0) as Hnothing by (eapply ext_mono; [apply reading_starts_nothing|exact Hread]).
  assert (Ev (StartChild argv env cwd) (Ok pid) ∈ h0) as Hstarted by (eapply in_later; [by eapply ext_suffix|by left]).
  assert (Ev (CreateRecord s) None ∈ h0) as Hc0 by (eapply in_later; [by eapply ext_suffix|by right]). apply wpi_call. intros started. split; [done|].
  apply wpi_call. intros []. split; [done|]. set (h1 := Ev (OwnChild pid) () :: Ev Now started :: h0). apply wpi_bind. apply wpi_bind.
  assert (ext starts_nothing h0 h1) as He1 by (do 2 (apply ext_cons; [done|]); apply ext_refl).
  assert (forall h2 (r : res ()), ext starts_nothing h1 h2 ->
    starts (match r with
      | Err err => call (DisownChild pid);; clean_up pid;; forget_session path;; mret (Err (Wrap "%w: %v" [Sentinel ErrSpawnFailed]))
      | Ok _ => eventNotify u id EventKindSessionStarted;; (if start_has_PTYs u then call (RegisterPTY pid) else mret tt);; mret (Ok pid)
      end) h2 (fun h' r => answered h' r)) as Hend.
  { intros h2 r He2. assert (ext starts_nothing h0 h2) as He02 by (by eapply ext_trans). destruct r as [[]|err].
    - apply wpi_bind. apply starts_reading; [apply eventNotify_reading|]. intros h3 [] He3. apply wpi_bind.
      apply starts_reading; [case_match; [apply emits_call; intros|]; done|]. intros h4 [] He4. exists argv, env, cwd.
      eapply (in_later _ _ _ (ext_suffix _ _ _ He4)), (in_later _ _ _ (ext_suffix _ _ _ He3)), (in_later _ _ _ (ext_suffix _ _ _ He02)). done.
    - apply wpi_call. intros []. split; [done|]. apply wpi_bind. apply clean_up_ended. intros h3 He3 Hend. apply wpi_bind.
      assert (ext starts_nothing h0 h3) as He03.
      { eapply ext_trans; [exact He02|]. eapply ext_trans; [|eapply ext_mono; [apply reading_starts_nothing|exact He3]]. by apply ext_cons, ext_refl. }
      apply (forget_session_runs _ s); [exact (in_later _ _ _ (ext_suffix _ _ _ He03) Hc0)|]. intros h4 He4 Hdel. split; [|done].
      intros argv' env' cwd' pid' Hin. assert (Ok pid = Ok pid') as [= <-] by (eapply started_one; [exact Hno| |exact Hin]; eapply ext_trans; [exact Hnothing|by eapply ext_trans]).
      destruct Hend as [H|H]; [left|right]; (eapply in_later; [by eapply ext_suffix|exact H]). }
  apply (update_wpi st_orderly).
  - apply reading_st.
  - intros h' err He. apply (Hend h' (Err err)). eapply ext_mono; [apply reading_starts_nothing|exact He].
  - intros v before h2. split; [apply ext_refl|]. split_and!.
    + intros err h3 He Hl. assert (h1 `suffix_of` h3) as Hs by (etrans; [|by eapply ext_suffix]; by do 3 apply suffix_cons_r).
      exists v, argv, env, cwd, pid, started. split_and!; [done| | |done]; (eapply in_later; [exact Hs|]); unfold h1; set_solver.
    + intros h3 He _ _. apply (Hend h3 (Ok tt)). eapply ext_mono; [apply recording_starts_nothing|exact He].
    + intros h3 err He. apply (Hend h3 (Err err)). eapply ext_mono; [apply recording_starts_nothing|exact He].
Qed.

Lemma launch_child_runs project env path s h :
  cleared project env path h -> first_record project s -> Ev (CreateRecord s) None ∈ h -> no_start h ->
  starts (launch_child u projectID id project env path) h (fun h' r => answered h' r).
Proof.
  intros Hcl Hfirst Hc Hno. unfold launch_child.
  assert (forall h1 (k : unit -> M (res Z)), Ev (CreateRecord s) None ∈ h1 -> none_runs h1 ->
    (forall h2, none_runs h2 -> (exists err, Ev DeleteRecord err ∈ h2) -> starts (k tt) h2 (fun h' r => answered h' r)) ->
    starts (forget_session path ≫= k) h1 (fun h' r => answered h' r)) as Hforget.
  { intros h1 k Hc1 Hnone Hk. apply wpi_bind. apply (forget_session_runs _ s); [done|]. intros h2 He2 Hdel. apply Hk; [|done]. by eapply none_runs_ext. }
  assert (forall h2 reason err, none_runs h2 -> (exists e, Ev DeleteRecord e ∈ h2) ->
    starts (startFailure u projectID reason;; mret (Err err)) h2 (fun h' r => answered h' r)) as Hfailure.
  { intros h2 reason err Hnone Hdel. apply wpi_bind. apply starts_reading; [eapply emits_mono; [apply aside_reading|apply startFailure_aside]|].
    intros h3 [] He3. apply (answered_reading h2); [done|]. by apply deleted_answered. }
  destruct (BuildLaunchArgv _ _ _ _) as [argv|err] eqn:Eargv; [|apply Hforget; [done|by apply no_start_none_runs|intros; by apply Hfailure]].
  cbn zeta. apply wpi_bind.
  assert (forall h1, ext reading h h1 -> forall pty, st_orderly (Ev (StartChild argv env (pj_CWD project)) pty) h1) as Hstart.
  { intros h1 He pty. exists project, path, s. split_and!; try done; [|eapply in_later; [by eapply ext_suffix|done]].
    eapply (cleared_later _ _ _ s); [by apply ext_recording|done]. }
  assert (forall h2 err, Ev (CreateRecord s) None ∈ h2 -> none_runs h2 ->
    starts (forget_session path;; if errors_Is err ErrStopActive then mret (Err (Sentinel ErrStopActive))
                   else startFailure u projectID StartFailSpawnFailed;; mret (Err (Wrap "%w: %v" [Sentinel ErrSpawnFailed]))) h2 (fun h' r => answered h' r)) as Hfailed.
  { intros h2 err Hc2 Hnone. apply Hforget; [done|done|]. intros h3 Hnone3 Hdel. destruct (errors_Is err ErrStopActive); [by apply deleted_answered|by apply Hfailure]. }
  assert (forall h1 pty h2, ext reading h h1 -> ext reading (Ev (StartChild argv env (pj_CWD project)) pty :: h1) h2 ->
    starts (match pty with
      | Err err => forget_session path;; if errors_Is err ErrStopActive then mret (Err (Sentinel ErrStopActive))
                   else startFailure u projectID StartFailSpawnFailed;; mret (Err (Wrap "%w: %v" [Sentinel ErrSpawnFailed]))
      | Ok pid => keep_child u id path pid
      end) h2 (fun h' r => answered h' r)) as Hrest.
  { intros h1 pty h2 He1 He2. assert (Ev (CreateRecord s) None ∈ h1) as Hc1 by (eapply in_later; [by eapply ext_suffix|done]).
    assert (no_start h1) as Hno1 by (eapply no_start_ext; [eapply ext_mono; [apply reading_starts_nothing|exact He1]|done]).
    destruct pty as [pid|err]; [by eapply (keep_child_runs s path _ _ _ _ h1)|]. apply Hfailed; [eapply in_later; [by eapply ext_suffix|by right]|].
    intros argv' env' cwd' pid' Hin. assert (Err err = Ok pid') as [=]. eapply started_one; [exact Hno1| |exact Hin]. eapply ext_mono; [apply reading_starts_nothing|exact He2]. }
  destruct (start_has_PTYs u).
  - apply wpi_call. intros []. split; [done|]. apply wpi_call. intros shutdown. split; [done|]. set (h1 := Ev ShuttingDown shutdown :: _).
    assert (ext reading h h1) as He1 by (by repeat apply ext_cons; [..|apply ext_refl]). apply wpi_bind. destruct shutdown.
    + intros []. split; [done|]. apply Hfailed; [by do 3 right|]. eapply none_runs_ext; [|by apply no_start_none_runs].
      apply ext_cons; [done|]. eapply ext_mono; [apply reading_starts_nothing|exact He1].
    + intros pty. split; [by apply Hstart|]. intros []. split; [done|]. apply (Hrest h1 pty); [done|]. by apply ext_cons, ext_refl.
  - intros pty. split; [apply Hstart, ext_refl|]. apply (Hrest h pty); apply ext_refl.
Qed.

(** Everything but the checks of the project. *)
Definition admitted (project : StartProject) (h : hist) : Prop :=
  (start_has_Stop u = true -> guard_held h)
  /\ start_Projects u !! projectID = Some project /\ sessionIDPattern id = true /\ HasPrefix id (projectID +:+ "-")%string = true
  /\ exists all, Ev ListSessions (Ok all) ∈ h /\ admissible all.

Lemma create_and_launch_runs project h :
  admitted project h -> nothing_made h -> starts (create_and_launch u projectID id project) h (fun h' r => answered h' r).
Proof.
  intros (A1 & A2 & A3 & A4 & all & A5 & A6) Hno. apply wpi_bind.
  eapply wpi_mono; [apply (check_wpi st_orderly aside_st); apply startFailure_aside|]. intros h1 [env|err] [He1 H1].
  2:{ apply nothing_made_answered. eapply nothing_made_ext; [by apply ext_reading|done]. }
  apply wpi_bind. eapply wpi_mono; [apply (settings_wpi st_orderly aside_st); apply startFailure_aside|]. intros h2 [path|err] [He2 H2].
  all: assert (ext reading h h2) as He02 by (eapply ext_trans; by apply ext_reading).
  2:{ apply nothing_made_answered. by eapply nothing_made_ext. }
  apply wpi_call. intros now. split; [done|]. cbn zeta. apply wpi_bind. set (h3 := Ev Now now :: h2). set (s0 := new_session projectID id project now).
  assert (forall h4 s, ext reading h3 h4 -> first_record project s -> starts (err ← call (CreateRecord s);
      match err with Some err => ignoring (call (RemoveFile path));; mret (Err err) | None => launch_child u projectID id project env path end)
    h4 (fun h' r => answered h' r)) as Hcreate.
  { intros h4 s He4 Hs. assert (ext reading h h4) as He04 by (eapply ext_trans; [|exact He4]; by apply ext_cons).
    assert (cleared project env path h4) as Hcl.
    { assert (h2 `suffix_of` h4) as Hs24 by (etrans; [|exact (ext_suffix _ _ _ He4)]; by apply suffix_cons_r).
      assert (h1 `suffix_of` h4) as Hs14 by (etrans; [exact (ext_suffix _ _ _ He2)|exact Hs24]). split_and!; try done.
      - intros E. eapply (guard_held_later s0); [by apply ext_recording|by apply A1].
      - exists all. split; [exact (in_later _ _ _ (ext_suffix _ _ _ He04) A5)|done].
      - exact (launchable_later _ _ _ _ _ _ Hs14 H1).
      - exact (settings_written_later _ _ _ _ _ Hs24 H2). }
    assert (nothing_made h4) as Hno4 by (by eapply nothing_made_ext).
    apply wpi_call. intros err. split; [by exists project, env, path|]. destruct err as [err|].
    - unfold ignoring. apply wpi_bind. apply wpi_call. intros e. split; [done|]. destruct Hno4 as [N1 N2]. split.
      + intros argv env' cwd pid Hin. do 2 (apply list.elem_of_cons in Hin as [Heq|Hin]; [by inversion Heq|]). by apply no_start_none in Hin.
      + intros [s' Hs']. apply list.elem_of_cons in Hs' as [Heq|Hs']; [by inversion Heq|]. apply list.elem_of_cons in Hs' as [Heq|Hs'].
        * pose proof (f_equal (fun e : called Eff => match e with @Ev _ X e x => match e in Eff Y return Y -> option (option error) with
            CreateRecord _ => fun r => Some r | _ => fun _ => None end x end) Heq) as H. by cbn in H.
        * rewrite forallb_true in N2. by specialize (N2 _ Hs').
    - apply (launch_child_runs _ _ _ s); [|done|by left|by destruct Hno4].
      destruct Hcl as (C1 & C2 & C3 & C4 & (all' & C5 & C6) & C7 & C8). assert (h4 `suffix_of` Ev (CreateRecord s) None :: h4) as Hs5 by (by apply suffix_cons_r).
      split_and!; try done.
      + intros E. destruct (C1 E) as (n & o & -> & Hn). exists (Ev (CreateRecord s) None :: n), o. by split.
      + exists all'. split; [by right|done].
      + by eapply launchable_later.
      + by eapply settings_written_later. }
  destruct (start_has_Fingerprint u).
  - apply wpi_bind. intros fp. split; [done|]. apply Hcreate; [by apply ext_cons, ext_refl|]. by exists now, fp.
  - apply Hcreate; [apply ext_refl|]. by exists now, ""%string.
Qed.

Lemma start_locked_runs h : (start_has_Stop u = true -> guard_held h) -> nothing_made h -> starts (start_locked u projectID id) h (fun h' r => answered h' r).
Proof.
  intros Hg Hno. assert (forall err, answered h (Err err)) as Hans by (intros; by apply nothing_made_answered). unfold start_locked.
  destruct (negb _); [apply Hans|]. destruct (start_Projects u !! projectID) as [project|] eqn:Ep; [|apply Hans].
  unfold NewSessionID. destruct (sessionIDPattern id) eqn:Eid; [|apply Hans]. cbn [negb].
  destruct (HasPrefix id _) eqn:Epre; [|apply Hans]. cbn [negb]. unfold try_bind. apply wpi_call. intros all. split; [done|]. set (h1 := Ev ListSessions all :: h).
  assert (ext reading h h1) as He by (by apply ext_cons, ext_refl). assert (nothing_made h1) as Hno1 by (by eapply nothing_made_ext).
  assert (forall err, answered h1 (Err err)) as Hans1 by (intros; by apply nothing_made_answered). destruct all as [all|err]; [|apply Hans1].
  destruct (count_active projectID id all 0) as [active|err] eqn:Ec; [|apply Hans1]. apply count_active_ok in Ec as (-> & C1 & C2).
  destruct (Z.leb_spec (MaxSessions (start_Config u)) 0); [apply Hans1|].
  destruct (Z.leb_spec (MaxSessions (start_Config u)) (0 + Z.of_nat (length (List.filter active_session all)))); [apply Hans1|].
  apply create_and_launch_runs; [|done]. split_and!; try done; [|exists all; split; [by left|by split_and!]].
  intros E. destruct (Hg E) as (n & o & -> & Hn). exists (Ev ListSessions (Ok all) :: n), o. by split.
Qed.

Lemma guarded_runs h (p : M (res Z)) :
  nothing_made h -> (forall h, (start_has_Stop u = true -> guard_held h) -> nothing_made h -> starts p h (fun h' r => answered h' r)) ->
  starts (guarded (start_has_Stop u) Err p) h (fun h' r => answered h' r).
Proof.
  intros Hno Hp. unfold guarded. destruct (start_has_Stop u) eqn:E; [|by apply Hp]. apply wpi_call. intros err. split; [done|].
  assert (nothing_made (Ev GuardBegin err :: h)) as Hno1 by (destruct Hno; by split). destruct err as [err|]; [by apply nothing_made_answered|].
  apply wpi_bind. eapply wpi_mono; [apply Hp; [intros _; by exists [], h|done]|]. intros h2 r Ha []. split; [done|].
  destruct r as [pid|err].
  - destruct Ha as (argv & env & cwd & Hin). exists argv, env, cwd. by right.
  - destruct Ha as [H1 H2]. split.
    + intros argv env cwd pid Hin. apply list.elem_of_cons in Hin as [Heq|Hin]; [by inversion Heq|]. destruct (H1 _ _ _ _ Hin) as [H|H]; [left|right]; by right.
    + intros [s Hs]. apply list.elem_of_cons in Hs as [Heq|Hs]; [by inversion Heq|]. destruct H2 as [e He]; [by exists s|]. exists e. by right.
Qed.

Lemma Start_Execute_runs : starts (Start_Execute u projectID id) [] (fun h' r => answered h' r).
Proof.
  apply wpi_call. intros []. split; [done|]. set (h1 := [Ev StartMutexLock ()]). assert (nothing_made h1) as Hno by done.
  apply wpi_bind.
  assert (forall h, nothing_made h -> starts (guarded (start_has_Stop u) Err (start_locked u projectID id)) h (fun h' r => answered h' r)) as Hrun.
  { intros h Hh. apply guarded_runs; [done|]. intros h' Hg Hm. by apply start_locked_runs. }
  assert (starts (under_process_lock (start_has_Lock u) Err (guarded (start_has_Stop u) Err (start_locked u projectID id))) h1 (fun h' r => answered h' r)) as Hlock.
  { unfold under_process_lock. destruct (start_has_Lock u); [|by apply Hrun]. apply wpi_call. intros err. split; [done|].
    assert (nothing_made (Ev ProcessLock err :: h1)) as Hno1 by done. destruct err as [err|]; [by apply nothing_made_answered|].
    apply wpi_bind. eapply wpi_mono; [by apply Hrun|]. intros h2 r Ha []. split; [done|]. eapply answered_reading; [|exact Ha]. by apply ext_cons, ext_refl. }
  eapply wpi_mono; [exact Hlock|]. intros h2 r Ha []. split; [done|]. eapply answered_reading; [|exact Ha]. by apply ext_cons, ext_refl.
Qed.
End Start.

