(* ===== verification/Respawn.v ===== *)
(** * Another child for a session, and the recovery of one that has ended

    [internal/supervisor/usecase/respawn_session.go] and [recover_session.go]. *)

From S2P Require Import Prelude.
From S2P Require Import GoStrings.
From S2P Require Import Errors.
From S2P Require Import Session.
From S2P Require Import Effects.
From S2P Require Import Launch.
From S2P Require Import SupEff.
From S2P Require Import Preflight.
From S2P Require Import StartSession.

Definition RespawnKind_string (kind : RespawnKind) : string :=
  match kind with
  | RespawnRecovery => "recovery"
  | RespawnResumeRecovery => "resume_recovery"
  | RespawnHandoffStage5 => "handoff_stage5"
  | RespawnHandoffResume => "handoff_resume"
  | RespawnKindOther raw => raw
  end.

Definition handoff (kind : RespawnKind) : bool := bool_decide (kind = RespawnHandoffStage5) || bool_decide (kind = RespawnHandoffResume).
Definition known_kind (kind : RespawnKind) : bool := match kind with RespawnKindOther _ => false | _ => true end.

(** The state in which a child of the kind is started. *)
Definition respawn_state (kind : RespawnKind) : SupervisorSessionState := if handoff kind then SessionRotating else SessionStarting.

(** The kinds whose attempts count. *)
Definition counted (kind : RespawnKind) : bool := negb (bool_decide (kind = RespawnResumeRecovery)) && negb (bool_decide (kind = RespawnHandoffResume)).

Record RespawnSessionUseCase : Type := mkRespawnUseCase {
  re_Config : StartSessionConfig;
  re_Projects : gmap string StartProject;
  re_ManagedSettingsPath : string;
  re_has_Store : bool;
  re_has_Stop : bool;
  re_has_Lock : bool;
  re_has_PTYs : bool;
  re_has_RecordStructured : bool;
  re_has_RecordStartFailure : bool;
  re_has_Notify : bool;
  re_has_Observe : bool }.

Section Respawn.
Context (u : RespawnSessionUseCase) (id : string).

Definition is_stopped : M bool := if re_has_Stop u then call StopState_IsStopped else mret false.

Definition report (e : SupEvent) : M unit := if re_has_RecordStructured u then ignoring (call (RecordStructured e)) else mret tt.
Definition notify (kind : SupervisorEventKind) (text : string) : M unit := if re_has_Notify u then call (Notify kind text) else mret tt.

(** The events of a stop. *)
Definition respawn_stopped (from : SupervisorSessionState) (reason : SupervisorStopReason) : M unit :=
  report (mkSupEvent EventKindStateChanged "" "" NoRotateStep from SessionStopped None);;
  report (mkSupEvent EventKindSessionStopped "" (SupervisorStopReason_string reason) NoRotateStep NoSessionState SessionStopped None);;
  notify EventKindSessionStopped id.

Definition apply_stop (reason : SupervisorStopReason) (now : Time) (s : ManagedSession) : res ManagedSession :=
  apply EventStop (no_context <| c_StopReason := reason |>) now s.

(** [UpdateSession] with the state that is left, if it is. *)
Definition stopping (settled : ManagedSession -> bool) (change : Time -> ManagedSession -> res ManagedSession) (reason : SupervisorStopReason)
    : M (option error) :=
  r ← UpdateSession (fun s =>
        if settled s then mret (Ok (s, None))
        else
          now ← call Now;
          mret (s' ← change now s; Ok (s', Some (s_State s))));
  match r with
  | Err err => mret (Some err)
  | Ok (Some from) => respawn_stopped from reason;; mret None
  | Ok None => mret None
  end.

Definition stop_settled (s : ManagedSession) : bool :=
  bool_decide (s_State s = SessionStopped) || bool_decide (s_State s = SessionExited) || bool_decide (s_State s = SessionFailed).

Definition stopForStop : M (option error) :=
  global ← (if re_has_Stop u then call StopState_IsGlobalStopped else mret false);
  let '(reason, scope) := if (global : bool) then (StopGlobal, StopScopeGlobal) else (StopSession, StopScopeSession) in
  stopping stop_settled (fun now s => s ← apply_stop reason now s; Ok (s <| s_StopScope := scope |>)) reason.

Definition stopWithReason (reason : SupervisorStopReason) : M (option error) :=
  stopping (fun s => bool_decide (s_State s = SessionStopped)) (apply_stop reason) reason.

Definition markFailed : M (option error) := stopWithReason StopRespawnFailed.

Definition fail_start (projectID : string) (reason : SupervisorStartFailReason) : M unit :=
  (if re_has_RecordStartFailure u then call (RecordStartFailure projectID reason)
   else if re_has_RecordStructured u
   then ignoring (call (RecordProjectEvent EventKindSessionStartFailed projectID (SupervisorStartFailReason_string reason)))
   else mret tt);;
  notify EventKindSessionStartFailed "".

(** A failure of a hand-over is reported by its caller. *)
Definition fail_unless_rotating (session : ManagedSession) (reason : SupervisorStartFailReason) : M unit :=
  if negb (bool_decide (s_State session = SessionRotating)) then fail_start (s_ProjectID session) reason else mret tt.
Definition failed (session : ManagedSession) (cause : error) : M (option error) :=
  if bool_decide (s_State session = SessionRotating) then mret (Some cause) else markFailed.

Definition keep_times (cutoff now : Time) (times : list Time) : list Time := List.filter (fun at_ => negb (Before at_ cutoff)) times ++ [now].

(** The attempt is counted before the child is started, so a start that fails counts too. *)
Definition attempt (kind : RespawnKind) (cutoff now : Time) (s : ManagedSession) : ManagedSession :=
  let s := s <| s_Generation := s_Generation s + 1 |> in
  let s := if bool_decide (kind = RespawnHandoffStage5) then s <| s_RemoteControlConfirmed := false |> else s in
  let s := if counted kind
           then s <| s_RestartCount := s_RestartCount s + 1 |> <| s_RestartTimes := keep_times cutoff now (s_RestartTimes s) |>
           else s in
  let s := if negb (s_ClaudeSessionID s =? "")%string then s <| s_PreviousClaudeSessionID := s_ClaudeSessionID s |> else s in
  s <| s_ClaudeSessionID := ""%string |> <| s_ChildPID := 0 |> <| s_ChildStartedAt := None |>.

Definition record_attempt (kind : RespawnKind) (s : ManagedSession) : M (res (ManagedSession * ManagedSession)) :=
  st ← (if negb (bool_decide (s_State s = respawn_state kind)) then mret true else is_stopped);
  if (st : bool) then mret (Err (Sentinel ErrStopActive))
  else if counted kind then
    at_ ← call Now;
    now ← call Now;
    let attempted := attempt kind (at_ - RestartWindow) now s in
    mret (Ok (attempted, attempted))
  else
    let attempted := attempt kind 0 0 s in
    mret (Ok (attempted, attempted)).

(** The child is observed, or waited for, by a goroutine of its own. *)
Definition observe (attempted : ManagedSession) (pid : Z) (started : Time) : M unit :=
  if re_has_Observe u then
    observed ← call LoadSession;
    call (GoObserve (match observed with
                     | Ok observed => observed
                     | Err _ => attempted <| s_ChildPID := pid |> <| s_ChildStartedAt := Some started |>
                     end) pid)
  else call (GoAwait pid).

Definition child_runs (kind : RespawnKind) (session attempted : ManagedSession) (pid : Z) : M (option error) :=
  started ← call Now;
  call (OwnChild pid);;
  err ← UpdateSession_ (fun s => s <| s_ChildPID := pid |> <| s_ChildStartedAt := Some started |>);
  match err with
  | Some err =>
      call (DisownChild pid);;
      clean_up pid;;
      fail_unless_rotating session StartFailSpawnFailed;;
      failed session err
  | None =>
      (if re_has_PTYs u then call (RegisterPTY pid) else mret tt);;
      observe attempted pid started;;
      (if bool_decide (kind = RespawnRecovery)
       then report (plain_event EventKindSessionRestarted "" "");; notify EventKindSessionRestarted id
       else mret tt);;
      mret None
  end.

Definition attempt_and_launch (kind : RespawnKind) (session : ManagedSession) (project : StartProject) (argv env : list string) : M (option error) :=
  r ← UpdateSession (record_attempt kind);
  match r with
  | Err err =>
      if errors_Is err ErrStopActive then
        st ← is_stopped;
        if (st : bool) then stopForStop else mret None
      else mret (Some err)
  | Ok attempted =>
      pty ← call (StartChild argv env (pj_CWD project));
      match pty with
      | Err err => fail_unless_rotating session StartFailSpawnFailed;; failed session err
      | Ok pid => child_runs kind session attempted pid
      end
  end.

Definition no_project : StartProject := mkProject "" (SupervisorCliOther "") "" "" None.

Definition resume_id (kind : RespawnKind) (s : ManagedSession) : string :=
  if bool_decide (kind = RespawnHandoffStage5) then ""%string
  else if (s_ClaudeSessionID s =? "")%string then s_PreviousClaudeSessionID s else s_ClaudeSessionID s.

(** The checks and the arguments, and the child. *)
Definition prepare_and_launch (kind : RespawnKind) (session : ManagedSession) : M (option error) :=
  let project := match re_Projects u !! s_ProjectID session with Some project => project | None => no_project end in
  let fail := fail_unless_rotating session in
  env ← check (re_Config u) (re_ManagedSettingsPath u) fail false project;
  match env with
  | Err err => failed session err
  | Ok env =>
      settingsPath ← settings (re_Config u) fail id;
      match settingsPath with
      | Err err => failed session err
      | Ok settingsPath =>
          let resumeID := resume_id kind session in
          if negb (bool_decide (kind = RespawnHandoffStage5)) && (resumeID =? "")%string then stopWithReason StopClaudeSessionIDMissing
          else
            match BuildLaunchArgv (SupervisorCli_string (pj_CLI project)) (pj_BinaryPath project) settingsPath resumeID with
            | Err err => fail StartFailLaunchArgvInvalid;; failed session err
            | Ok argv => attempt_and_launch kind session project argv env
            end
      end
  end.

Definition respawn_locked (kind : RespawnKind) : M (option error) :=
  unless_error (call CtxErr) (
    st ← is_stopped;
    if (st : bool) then stopForStop
    else
      loaded ← call LoadSession;
      match loaded with
      | Err err => mret (Some err)
      | Ok session => if negb (bool_decide (s_State session = respawn_state kind)) then mret None else prepare_and_launch kind session
      end).

Definition start_guarded (kind : RespawnKind) : M (option error) :=
  if re_has_Stop u then
    err ← guarded true Some (respawn_locked kind);
    if errors_Is_opt err ErrStopActive then stopForStop else mret err
  else respawn_locked kind.

Definition Respawn_Execute (kind : RespawnKind) : M (option error) :=
  if negb (known_kind kind) then mret (Some (Errorf "invalid respawn kind: %q" [RespawnKind_string kind]))
  else if negb (re_has_Store u) then mret (Some (Errorf "session store is required" []))
  else
    call RespawnMutexLock;;
    err ← under_process_lock (re_has_Lock u) Some (start_guarded kind);
    call RespawnMutexUnlock;;
    mret err.
End Respawn.

(** *** Recovery after an abnormal exit ([recover_session.go]) *)

Record RecoverSessionUseCase : Type := mkRecoverUseCase {
  rc_has_Store : bool;
  rc_has_Respawn : bool;
  rc_has_Stop : bool;
  rc_has_Wait : bool;
  rc_has_RecordStructured : bool;
  rc_has_Notify : bool }.

Section Recover.
Context (u : RecoverSessionUseCase) (id : string).

Definition recover_is_stopped : M bool := if rc_has_Stop u then call StopState_IsStopped else mret false.
Definition stop_reason_now : M SupervisorStopReason :=
  global ← (if rc_has_Stop u then call StopState_IsGlobalStopped else mret false);
  mret (if (global : bool) then StopGlobal else StopSession).

Definition restart_limit (reason : SupervisorStopReason) : bool :=
  bool_decide (reason = StopRestartLimitConsecutive) || bool_decide (reason = StopRestartLimitDaily).

Definition stoppedEvent (reason : SupervisorStopReason) : M unit :=
  let kind := if restart_limit reason then EventKindRestartLimitExceeded else EventKindSessionStopped in
  (if rc_has_RecordStructured u then
     ignoring (call (RecordStructured (mkSupEvent EventKindStateChanged "" "" NoRotateStep SessionRecovering SessionStopped None)));;
     ignoring (call (RecordStructured (plain_event kind (if restart_limit reason then "SUP_RESTART_LIMIT_EXCEEDED" else "")
                                         (SupervisorStopReason_string reason))))
   else mret tt);;
  (if rc_has_Notify u then call (Notify kind id) else mret tt).

Definition recover_stop (reason : SupervisorStopReason) (now : Time) : M (option error) :=
  r ← UpdateSession (fun s =>
        if negb (bool_decide (s_State s = SessionRecovering)) then mret (Ok (s, false))
        else mret (s ← apply_stop reason now s; Ok (s, true)));
  match r with
  | Err err => mret (Some err)
  | Ok changed => (if (changed : bool) then stoppedEvent reason else mret tt);; mret None
  end.

(** What the update decides: still recovering, stopped for a reason, or starting. *)
Inductive recovered : Type := notRecovering | stoppedBecause (reason : SupervisorStopReason) | readyToStart.

Definition stop_recovering (reason : SupervisorStopReason) (s : ManagedSession) : M (res (ManagedSession * recovered)) :=
  now ← call Now;
  mret (s ← apply_stop reason now s; Ok (s, stoppedBecause reason)).

Definition finish_recovery (s : ManagedSession) : M (res (ManagedSession * recovered)) :=
  if negb (bool_decide (s_State s = SessionRecovering)) then mret (Ok (s, notRecovering))
  else
    st ← recover_is_stopped;
    if (st : bool) then reason ← stop_reason_now; stop_recovering reason s
    else if (s_ClaudeSessionID s =? "")%string then stop_recovering StopClaudeSessionIDMissing s
    else
      now ← call Now;
      let reason := RestartLimitReason (s_RestartCount s) (s_RestartTimes s) now in
      if negb (bool_decide (reason = NoStopReason)) then stop_recovering reason s
      else
        now ← call Now;
        mret (s ← apply EventRecoveryWaitDone no_context now s; Ok (s, readyToStart)).

(** [waitRecoveryDelay]: until the delay is over, or the stop or the end of the context cuts it short. *)
Fixpoint wait_ticks (fuel : nat) : M (option error) :=
  st ← recover_is_stopped;
  if (st : bool) then mret (Some (Sentinel ErrStopActive))
  else
    w ← call SelectWait;
    match w with
    | CtxDone err => mret (Some err)
    | TimerFired => mret None
    | Ticked => match fuel with O => out_of_fuel | S fuel => wait_ticks fuel end
    end.

Definition waitRecoveryDelay (fuel : nat) (delay : Duration) : M (option error) :=
  call (StartTimer delay);;
  wait_ticks fuel.

(** The delay is over. *)
Definition after_wait : M (option error) :=
  err ← call CtxErr;
  match err with
  | Some _ => now ← call Now; recover_stop StopSupervisorRestarted now;; mret err
  | None =>
      r ← UpdateSession finish_recovery;
      match r with
      | Err err => mret (Some err)
      | Ok notRecovering => mret None
      | Ok (stoppedBecause reason) => stoppedEvent reason;; mret None
      | Ok readyToStart =>
          (if rc_has_RecordStructured u
           then ignoring (call (RecordStructured (mkSupEvent EventKindStateChanged "" "" NoRotateStep SessionRecovering SessionStarting None)))
           else mret tt);;
          call (Respawn RespawnRecovery)
      end
  end.

Definition wait_cut_short (err : error) : M (option error) :=
  if errors_Is err ErrStopActive then
    reason ← stop_reason_now;
    now ← call Now;
    recover_stop reason now
  else if errors_Is err ContextCanceled || errors_Is err ContextDeadlineExceeded then
    now ← call Now;
    recover_stop StopSupervisorRestarted now;;
    mret (Some err)
  else mret (Some err).

Definition Recover_Execute (fuel : nat) : M (option error) :=
  if negb (rc_has_Store u) || negb (rc_has_Respawn u) then mret (Some (Errorf "recovery store and respawn are required" []))
  else
    loaded ← call LoadSession;
    match loaded with
    | Err err => mret (Some err)
    | Ok s =>
        if negb (bool_decide (s_State s = SessionRecovering)) then mret None
        else if negb (bool_decide (s_CLI s = CLIClaude)) then mret None
        else if (s_ClaudeSessionID s =? "")%string then now ← call Now; recover_stop StopClaudeSessionIDMissing now
        else
          now ← call Now;
          let reason := RestartLimitReason (s_RestartCount s) (s_RestartTimes s) now in
          if negb (bool_decide (reason = NoStopReason)) then now ← call Now; recover_stop reason now
          else
            let delay := RestartBackoff (s_RestartCount s) in
            err ← (if rc_has_Wait u then call (WaitDelay delay) else waitRecoveryDelay fuel delay);
            match err with Some err => wait_cut_short err | None => after_wait end
    end.
End Recover.
