(* ===== verification/RespawnOk.v ===== *)
(** * When another child is started

    Over [Respawn]: a child is started only under the guard of the stop, after every check
    has passed and its attempt has been counted in the record; and no child that was started
    is left without one who waits for it. *)

From S2P Require Import Prelude.
From S2P Require Import GoStrings.
From S2P Require Import Errors.
From S2P Require Import Session.
From S2P Require Import Effects.
From S2P Require Import Launch.
From S2P Require Import SupEff.
From S2P Require Import Preflight.
From S2P Require Import PreflightOk.
From S2P Require Import RecordOk.
From S2P Require Import StartSession.
From S2P Require Import Respawn.

(** ** Specification vocabulary *)

(** Every child that was started is observed or waited for, or has ended. *)
Definition accounted (h : hist) : Prop :=
  forall argv env cwd pid, Ev (StartChild argv env cwd) (Ok pid) ∈ h ->
    (exists s, Ev (GoObserve s pid) tt ∈ h) \/ Ev (GoAwait pid) tt ∈ h \/ Ev (ExitedInGrace pid) true ∈ h \/ Ev (AwaitExit pid) tt ∈ h.

Section Respawn.
Context (u : RespawnSessionUseCase) (id : string) (kind : RespawnKind).

Definition project_of (session : ManagedSession) : StartProject :=
  match re_Projects u !! s_ProjectID session with Some project => project | None => no_project end.

(** How the record [v] may be saved as [v'] after [h]. *)
Inductive re_written (v v' : ManagedSession) (h : hist) : Prop :=
| re_same : v' = v -> re_written v v' h
| re_ended : s_State v = SessionExited \/ s_State v = SessionFailed -> s_State v' = s_State v -> s_ChildPID v' = s_ChildPID v -> re_written v v' h
| re_stopped reason :
    reason ∈ [StopGlobal; StopSession; StopRespawnFailed; StopClaudeSessionIDMissing] ->
    s_State v <> SessionStopped -> s_State v' = SessionStopped -> s_StopReason v' = reason -> s_RestartCount v' = s_RestartCount v ->
    re_written v v' h
| re_attempt cutoff now :
    s_State v = respawn_state kind -> (re_has_Stop u = true -> Ev StopState_IsStopped false ∈ h) -> v' = attempt kind cutoff now v -> re_written v v' h
| re_child argv env cwd pid started :
    Ev (StartChild argv env cwd) (Ok pid) ∈ h -> Ev Now started ∈ h -> v' = v <| s_ChildPID := pid |> <| s_ChildStartedAt := Some started |> ->
    re_written v v' h.

(** What has to be so when a child is started. *)
Definition may_start (argv env : list string) (cwd : string) (h : hist) : Prop :=
  (re_has_Stop u = true -> guard_held h /\ Ev StopState_IsStopped false ∈ h)
  /\ no_start h
  /\ exists session v cutoff now path,
       Ev LoadSession (Ok session) ∈ h /\ s_State session = respawn_state kind
       /\ launchable (re_Config u) (re_ManagedSettingsPath u) (project_of session) env h /\ cwd = pj_CWD (project_of session)
       /\ settings_written (re_Config u) id path h
       /\ BuildLaunchArgv (SupervisorCli_string (pj_CLI (project_of session))) (pj_BinaryPath (project_of session)) path (resume_id kind session) = Ok argv
       /\ (kind <> RespawnHandoffStage5 -> resume_id kind session <> ""%string)
       /\ s_State v = respawn_state kind /\ stored v (attempt kind cutoff now v) h.

Definition re_orderly (e : called Eff) (h : hist) : Prop :=
  match e with
  | Ev e _ =>
      match e with
      | SaveSession v' => exists v, last_loaded h = Some v /\ re_written v v' h
      | StartChild argv env cwd => may_start argv env cwd h
      | CreateRecord _ | DeleteRecord | Respawn _ | Send _ _ | Panic => False
      | _ => True
      end
  end.

(** ** Lemmas *)

Abbreviation runs p h Q := (wpi record_ev re_orderly p h Q).

Lemma reading_orderly e h : reading e -> re_orderly e h.
Proof. destruct e as [X e x]. by destruct e. Qed.
Lemma aside_orderly e h : aside e -> re_orderly e h.
Proof. intros H. by apply reading_orderly, aside_reading. Qed.

Lemma runs_reading {A : Type} (p : M A) h (Q : hist -> A -> Prop) :
  emits record_ev reading p -> (forall h' a, ext reading h h' -> Q h' a) -> runs p h Q.
Proof. intros Hp HQ. apply (wpi_emits record_ev re_orderly reading); [apply reading_orderly|done|]. intros new a Hn _. apply HQ. by exists new. Qed.

Lemma no_start_accounted h : no_start h -> accounted h.
Proof.
  intros H argv env cwd pid Hin. unfold no_start in H. rewrite forallb_true in H. by specialize (H _ Hin).
Qed.

(** A change of a record that starts nothing. *)
Definition re_done (h h' : hist) : Prop := (no_start h -> no_start h') /\ (accounted h -> accounted h') /\ h `suffix_of` h'.

Lemma accounted_ext h h' : ext starts_nothing h h' -> accounted h -> accounted h'.
Proof.
  intros (new & -> & Hn) H argv env cwd pid [Hin|Hin]%list.elem_of_app.
  - rewrite list.Forall_forall in Hn. by specialize (Hn _ Hin).
  - destruct (H _ _ _ _ Hin) as [[s Hs]|[Hs|[Hs|Hs]]]; [left; exists s|right; left|right; right; left|right; right; right]; apply list.elem_of_app; by right.
Qed.
Lemma nothing_done h h' : ext starts_nothing h h' -> re_done h h'.
Proof. intros H. split; [by apply no_start_ext|]. split; [by apply accounted_ext|by eapply ext_suffix]. Qed.
Lemma recording_done v' h h' : ext (recording v') h h' -> re_done h h'.
Proof. intros H. apply nothing_done. eapply ext_mono; [apply recording_starts_nothing|exact H]. Qed.
Lemma reading_done h h' : ext reading h h' -> re_done h h'.
Proof. intros H. apply nothing_done. eapply ext_mono; [apply reading_starts_nothing|exact H]. Qed.
Lemma done_refl h : re_done h h.
Proof. done. Qed.
Lemma done_trans h1 h2 h3 : re_done h1 h2 -> re_done h2 h3 -> re_done h1 h3.
Proof. intros (A1 & A2 & A3) (B1 & B2 & B3). split_and!; [auto|auto|by etrans]. Qed.

Create HintDb respawn_db.
Ltac reading_step :=
  match goal with
  | |- emits _ _ (mret _) => exact I
  | |- emits _ _ (Ret _) => exact I
  | |- emits _ _ (call _) => apply emits_call; intros; exact I
  | |- emits _ _ (ignoring _) => unfold ignoring
  | |- emits _ _ (mbind _ _) => apply emits_bind; [|intros]
  | |- emits _ _ (prog_mbind _ _ _ _) => apply emits_bind; [|intros]
  | |- emits _ _ (if ?b then _ else _) => destruct b
  | |- emits _ _ (match ?x with _ => _ end) => destruct x
  | |- _ => solve [eauto with respawn_db]
  end.
Ltac reading_solve := cbn zeta; repeat reading_step.

Lemma is_stopped_reading : emits record_ev reading (is_stopped u).
Proof. unfold is_stopped. reading_solve. Qed.
Lemma report_reading e : emits record_ev reading (report u e).
Proof. unfold report. reading_solve. Qed.
Lemma notify_reading k text : emits record_ev reading (notify u k text).
Proof. unfold notify. reading_solve. Qed.
#[local] Hint Resolve is_stopped_reading report_reading notify_reading : respawn_db.
Lemma respawn_stopped_reading from reason : emits record_ev reading (respawn_stopped u id from reason).
Proof. unfold respawn_stopped. reading_solve. Qed.
Lemma clean_up_reading pid : emits record_ev reading (clean_up pid).
Proof. unfold clean_up. reading_solve. Qed.
#[local] Hint Resolve respawn_stopped_reading clean_up_reading : respawn_db.

Lemma fail_start_aside p reason : emits record_ev aside (fail_start u p reason).
Proof. unfold fail_start, notify. repeat first [apply emits_bind; [|intros]|apply emits_call; intros; exact I|case_match|exact I]. Qed.
Lemma fail_unless_aside s reason : emits record_ev aside (fail_unless_rotating u s reason).
Proof. unfold fail_unless_rotating. destruct (negb _); [apply fail_start_aside|done]. Qed.
Lemma fail_unless_reading s reason : emits record_ev reading (fail_unless_rotating u s reason).
Proof. eapply emits_mono; [apply aside_reading|apply fail_unless_aside]. Qed.
#[local] Hint Resolve fail_unless_reading : respawn_db.

(** *** Stopping *)

Lemma apply_stop_spec reason now v v' :
  reason ∈ [StopGlobal; StopSession; StopRespawnFailed; StopClaudeSessionIDMissing] -> s_State v <> SessionStopped ->
  apply_stop reason now v = Ok v' ->
  (s_State v' = SessionStopped /\ s_StopReason v' = reason /\ s_RestartCount v' = s_RestartCount v)
  \/ ((s_State v = SessionExited \/ s_State v = SessionFailed) /\ s_State v' = s_State v /\ s_ChildPID v' = s_ChildPID v).
Proof.
  intros Hr Hst H. revert Hst H. unfold apply_stop, apply. destruct v as [? ? ? ? ? ? st].
  cbn [Session.s_State Session.s_ChildPID Session.s_RestartCount].
  repeat (apply list.elem_of_cons in Hr as [->|Hr]; [destruct st; try done; intros _ [= <-]; by (left + right; tauto)|]). by apply elem_of_nil in Hr.
Qed.

Lemma apply_stop_written reason scope now v v' h :
  reason ∈ [StopGlobal; StopSession; StopRespawnFailed; StopClaudeSessionIDMissing] -> s_State v <> SessionStopped ->
  apply_stop reason now v = Ok v' -> re_written v v' h /\ re_written v (v' <| s_StopScope := scope |>) h.
Proof.
  intros Hr Hst H. destruct (apply_stop_spec reason now v v' Hr Hst H) as [(E1 & E2 & E3)|(E1 & E2 & E3)].
  - split; by eapply re_stopped.
  - split; by apply re_ended.
Qed.

Lemma stopping_runs settled change reason h (Q : hist -> option error -> Prop) :
  (forall v, settled v = false -> s_State v <> SessionStopped) ->
  (forall now v v' h', s_State v <> SessionStopped -> change now v = Ok v' -> re_written v v' h') ->
  (forall h' r, re_done h h' -> Q h' r) -> runs (stopping u id settled change reason) h Q.
Proof.
  intros Hset Hch HQ. apply wpi_bind. apply (update_wpi re_orderly).
  - apply reading_orderly.
  - intros h' err He. by apply HQ, reading_done.
  - intros v before h1. assert (forall h' (r : option SupervisorSessionState) v', ext (recording v') h h' ->
      runs (match r with Some from => respawn_stopped u id from reason;; mret None | None => mret None end : M (option error)) h' Q) as Hend.
    { intros h' r v' He. apply runs_reading; [reading_solve|]. intros h2 a He2. apply HQ. eapply done_trans; [by eapply recording_done|by apply reading_done]. }
    destruct (settled v) eqn:E.
    + split; [apply ext_refl|]. split_and!.
      * intros err h2 He Hl. exists v. split; [done|by apply re_same].
      * intros h2 He _ _. by eapply (Hend h2 None).
      * intros h2 err He. apply HQ. by eapply recording_done.
    + apply wpi_call. intros now. split; [done|]. destruct (change now v) as [v'|err] eqn:Ec; cbn.
      2:{ split; [by apply ext_cons, ext_refl|]. apply HQ, reading_done. by repeat apply ext_cons; [..|apply ext_refl]. }
      split; [by apply ext_cons, ext_refl|]. split_and!.
      * intros err h2 He Hl. exists v. split; [done|]. eapply Hch; [by apply Hset|done].
      * intros h2 He _ _. by eapply (Hend h2 (Some (s_State v))).
      * intros h2 err He. apply HQ. by eapply recording_done.
Qed.

Lemma stopForStop_runs h (Q : hist -> option error -> Prop) : (forall h' r, re_done h h' -> Q h' r) -> runs (stopForStop u id) h Q.
Proof.
  intros HQ. apply wpi_bind. apply runs_reading; [reading_solve|]. intros h1 global He.
  assert (forall reason scope, reason ∈ [StopGlobal; StopSession; StopRespawnFailed; StopClaudeSessionIDMissing] ->
    runs (stopping u id stop_settled (fun now s => s ← apply_stop reason now s; Ok (s <| s_StopScope := scope |>)) reason) h1 Q) as H.
  { intros reason scope Hr. apply stopping_runs.
    - intros v Hv. unfold stop_settled in Hv. intros E. by rewrite E in Hv.
    - intros now v v' h' Hv Hc. destruct (apply_stop reason now v) as [v1|err] eqn:Ea; [|done]. injection Hc as <-.
      by apply (apply_stop_written reason scope now v v1 h' Hr Hv).
    - intros h' r Hd. apply HQ. eapply done_trans; [by apply reading_done|done]. }
  destruct global; apply H; set_solver.
Qed.

Lemma stopWithReason_runs reason h (Q : hist -> option error -> Prop) :
  reason ∈ [StopGlobal; StopSession; StopRespawnFailed; StopClaudeSessionIDMissing] -> (forall h' r, re_done h h' -> Q h' r) ->
  runs (stopWithReason u id reason) h Q.
Proof.
  intros Hr HQ. apply stopping_runs; [by intros v ?%bool_decide_eq_false|intros now v v' h' Hv Hc|done].
  by apply (apply_stop_written reason StopScopeNone now v v' h' Hr Hv).
Qed.

Lemma failed_runs session cause h (Q : hist -> option error -> Prop) : (forall h' r, re_done h h' -> Q h' r) -> runs (failed u id session cause) h Q.
Proof. intros HQ. unfold failed. destruct (bool_decide _); [by apply HQ|]. apply stopWithReason_runs; [set_solver|done]. Qed.

Lemma fail_failed_runs session reason cause h (Q : hist -> option error -> Prop) :
  (forall h' r, re_done h h' -> Q h' r) -> runs (fail_unless_rotating u session reason;; failed u id session cause) h Q.
Proof.
  intros HQ. apply wpi_bind. apply runs_reading; [reading_solve|]. intros h1 [] He. apply failed_runs. intros h2 r Hd. apply HQ.
  eapply done_trans; [by apply reading_done|done].
Qed.

(** *** The child *)

Definition taken (pid : Z) (h : hist) : Prop :=
  (exists s, Ev (GoObserve s pid) tt ∈ h) \/ Ev (GoAwait pid) tt ∈ h \/ Ev (ExitedInGrace pid) true ∈ h \/ Ev (AwaitExit pid) tt ∈ h.

Lemma child_taken_later pid h h' : h `suffix_of` h' -> taken pid h -> taken pid h'.
Proof. intros Hs [[s H]|[H|[H|H]]]; [left; exists s|right; left|right; right; left|right; right; right]; by eapply in_later. Qed.

Lemma started_accounted argv env cwd pid h h' :
  no_start h -> ext starts_nothing (Ev (StartChild argv env cwd) (Ok pid) :: h) h' -> taken pid h' -> accounted h'.
Proof.
  intros Hno He Ht argv' env' cwd' pid' Hin. pose proof (started_one _ _ _ _ _ _ Hno He _ _ _ _ Hin) as [= <-]. exact Ht.
Qed.

Lemma failed_start_accounted argv env cwd err h : no_start h -> accounted (Ev (StartChild argv env cwd) (Err err) :: h).
Proof.
  intros Hno argv' env' cwd' pid' Hin. by pose proof (started_one _ _ _ _ _ _ Hno (ext_refl _ _) _ _ _ _ Hin).
Qed.

Lemma clean_up_taken pid h (Q : hist -> unit -> Prop) : (forall h', ext reading h h' -> taken pid h' -> Q h' tt) -> runs (clean_up pid) h Q.
Proof.
  intros HQ. apply wpi_call. intros err. split; [done|]. apply wpi_call. intros [|]; (split; [done|]).
  - apply HQ; [by repeat apply ext_cons; [..|apply ext_refl]|]. right. right. left. by left.
  - apply wpi_call. intros []. split; [done|]. intros []. split; [done|]. apply HQ; [by repeat apply ext_cons; [..|apply ext_refl]|].
    right. right. right. by left.
Qed.

Lemma observe_taken attempted pid started h (Q : hist -> unit -> Prop) :
  (forall h', ext reading h h' -> taken pid h' -> Q h' tt) -> runs (observe u attempted pid started) h Q.
Proof.
  intros HQ. unfold observe. destruct (re_has_Observe u).
  - apply wpi_call. intros observed. split; [done|]. intros []. split; [done|]. apply HQ; [by repeat apply ext_cons; [..|apply ext_refl]|].
    left. eexists. by left.
  - intros []. split; [done|]. apply HQ; [by repeat apply ext_cons; [..|apply ext_refl]|]. right. left. by left.
Qed.

Lemma child_runs_runs session attempted argv env cwd pid h :
  no_start h -> runs (child_runs u id kind session attempted pid) (Ev (StartChild argv env cwd) (Ok pid) :: h) (fun h' _ => accounted h').
Proof.
  intros Hno. set (h0 := Ev (StartChild argv env cwd) (Ok pid) :: h). apply wpi_call. intros started. split; [done|].
  apply wpi_call. intros []. split; [done|]. set (h1 := Ev (OwnChild pid) () :: Ev Now started :: h0). apply wpi_bind. apply wpi_bind.
  assert (ext starts_nothing h0 h1) as He1 by (do 2 (apply ext_cons; [done|]); apply ext_refl).
  assert (forall h', ext starts_nothing h1 h' -> taken pid h' -> accounted h') as Hacc.
  { intros h' He Ht. eapply started_accounted; [exact Hno| |exact Ht]. by eapply ext_trans. }
  assert (forall h2 (r : res ()), ext starts_nothing h1 h2 ->
    runs (match r with
      | Err err => call (DisownChild pid);; clean_up pid;; fail_unless_rotating u session StartFailSpawnFailed;; failed u id session err
      | Ok _ => (if re_has_PTYs u then call (RegisterPTY pid) else mret tt);; observe u attempted pid started;;
                (if bool_decide (kind = RespawnRecovery) then report u (plain_event EventKindSessionRestarted "" "");; notify u EventKindSessionRestarted id else mret tt);;
                mret None
      end) h2 (fun h' _ => accounted h')) as Hend.
  { intros h2 [[]|err] He2.
    - apply wpi_bind. apply runs_reading; [reading_solve|]. intros h3 [] He3. apply wpi_bind. apply observe_taken. intros h4 He4 Ht.
      apply runs_reading; [reading_solve|]. intros h5 r He5. apply Hacc; [|eapply child_taken_later; [by eapply ext_suffix|done]].
      eapply ext_trans; [exact He2|]. eapply ext_mono; [apply reading_starts_nothing|]. eapply ext_trans; [exact He3|]. by eapply ext_trans.
    - apply wpi_call. intros []. split; [done|]. apply wpi_bind. apply clean_up_taken. intros h3 He3 Ht. apply fail_failed_runs. intros h4 r (_ & Ha & Hs).
      apply Ha, Hacc; [|done]. eapply ext_trans; [exact He2|]. eapply ext_mono; [apply reading_starts_nothing|]. eapply ext_trans; [|exact He3]. by apply ext_cons, ext_refl. }
  apply (update_wpi re_orderly).
  - apply reading_orderly.
  - intros h' err He. apply (Hend h' (Err err)). eapply ext_mono; [apply reading_starts_nothing|exact He].
  - intros v before h2. split; [apply ext_refl|]. split_and!.
    + intros err h3 He Hl. exists v. split; [done|]. assert (h1 `suffix_of` h3) as Hs by (etrans; [|by eapply ext_suffix]; by do 3 apply suffix_cons_r).
      eapply (re_child _ _ _ argv env cwd pid started); [| |done]; (eapply in_later; [exact Hs|]); unfold h1, h0; set_solver.
    + intros h3 He _ _. apply (Hend h3 (Ok tt)). eapply ext_mono; [apply recording_starts_nothing|exact He].
    + intros h3 err He. apply (Hend h3 (Err err)). eapply ext_mono; [apply recording_starts_nothing|exact He].
Qed.

(** *** The attempt *)

(** What has been checked of a loaded record before its attempt. *)
Definition checked (session : ManagedSession) (argv env : list string) (h : hist) : Prop :=
  Ev LoadSession (Ok session) ∈ h /\ s_State session = respawn_state kind
  /\ launchable (re_Config u) (re_ManagedSettingsPath u) (project_of session) env h
  /\ (kind <> RespawnHandoffStage5 -> resume_id kind session <> ""%string)
  /\ exists path, settings_written (re_Config u) id path h
     /\ BuildLaunchArgv (SupervisorCli_string (pj_CLI (project_of session))) (pj_BinaryPath (project_of session)) path (resume_id kind session) = Ok argv.

Lemma checked_later session argv env h h' : h `suffix_of` h' -> checked session argv env h -> checked session argv env h'.
Proof.
  intros Hs (H1 & H2 & H3 & H4 & path & H5 & H6). split_and!; try done; [by eapply in_later|by eapply launchable_later|].
  exists path. split; [by eapply settings_written_later|done].
Qed.

Lemma is_stopped_wpi h (Q : hist -> bool -> Prop) :
  (forall h', ext aside h h' -> Q h' true) -> (forall h', ext aside h h' -> (re_has_Stop u = true -> Ev StopState_IsStopped false ∈ h') -> Q h' false) ->
  runs (is_stopped u) h Q.
Proof.
  intros Ht Hf. unfold is_stopped. destruct (re_has_Stop u) eqn:E.
  - intros [|]; (split; [done|]); [apply Ht; by apply ext_cons, ext_refl|apply Hf; [by apply ext_cons, ext_refl|]]. intros _. by left.
  - by apply Hf; [apply ext_refl|].
Qed.

Lemma record_attempt_wpi v h :
  runs (record_attempt u kind v) h (fun h' r => ext aside h h' /\
    match r with
    | Ok (v', a) => a = v' /\ s_State v = respawn_state kind /\ (re_has_Stop u = true -> Ev StopState_IsStopped false ∈ h')
                    /\ exists cutoff now, v' = attempt kind cutoff now v
    | Err _ => True
    end).
Proof.
  apply wpi_bind. destruct (bool_decide_reflect (s_State v = respawn_state kind)) as [Est|Est]; cbn [negb]; [|split; [apply ext_refl|done]].
  apply is_stopped_wpi; [done|]. intros h1 He1 H1. destruct (counted kind).
  - apply wpi_call. intros at_. split; [done|]. apply wpi_call. intros now. split; [done|]. split; [by repeat apply ext_cons|].
    split_and!; try done; [|by exists (at_ - RestartWindow), now]. intros E. do 2 right. by apply H1.
  - split; [done|]. split_and!; try done. by exists 0, 0.
Qed.

Lemma attempt_and_launch_runs session argv env h :
  no_start h -> (re_has_Stop u = true -> guard_held h) -> checked session argv env h ->
  runs (attempt_and_launch u id kind session (project_of session) argv env) h (fun h' _ => accounted h').
Proof.
  intros Hno Hg Hc. assert (forall h1 err, ext starts_nothing h h1 -> runs (if errors_Is err ErrStopActive
      then st ← is_stopped u; if (st : bool) then stopForStop u id else mret None else mret (Some err)) h1 (fun h' _ => accounted h')) as Hrefused.
  { intros h1 err He. assert (accounted h1) as Ha1 by (eapply accounted_ext; [exact He|by apply no_start_accounted]).
    destruct (errors_Is err ErrStopActive); [|done]. apply wpi_bind. apply is_stopped_wpi; intros h2 He2; [|intros _].
    - apply stopForStop_runs. intros h3 r (_ & Ha & _). by apply Ha, (reading_done h1); [apply ext_reading|].
    - by apply (reading_done h1); [apply ext_reading|]. }
  apply wpi_bind. apply (update_wpi re_orderly).
  - apply reading_orderly.
  - intros h1 err He. apply Hrefused. eapply ext_mono; [apply reading_starts_nothing|exact He].
  - intros v before h1. eapply wpi_mono; [apply record_attempt_wpi|]. intros h2 [[v' a]|err] [He Hr]; (split; [done|]).
    2:{ apply Hrefused. apply ext_cons; [done|]. eapply (ext_trans _ _ h1); [by repeat apply ext_cons; [..|apply ext_refl]|].
        eapply ext_mono; [apply reading_starts_nothing|by apply ext_reading]. }
    destruct Hr as (-> & Est & Hst & cutoff & now & ->). split_and!.
    + intros err h3 He3 Hl. exists v. split; [done|]. eapply (re_attempt _ _ _ cutoff now); try done. intros E.
      eapply in_later; [by eapply ext_suffix|by apply Hst].
    + intros h3 He3 Hs23 Hstored. assert (h `suffix_of` h3) as Hs by (by eapply ext_suffix).
      assert (no_start h3) as Hno3 by (eapply no_start_ext; [eapply ext_mono; [apply recording_starts_nothing|exact He3]|done]).
      apply wpi_call. intros pty. split.
      * split; [|split; [done|]].
        -- intros E. split; [eapply guard_held_later; [exact He3|by apply Hg]|]. eapply in_later; [exact Hs23|by apply Hst].
        -- destruct (checked_later _ _ _ _ _ Hs Hc) as (H1 & H2 & H3 & H4 & path & H5 & H6). by exists session, v, cutoff, now, path.
      * destruct pty as [pid|err].
        -- by apply child_runs_runs.
        -- apply fail_failed_runs. intros h4 r (_ & Ha & _). apply Ha. by apply failed_start_accounted.
    + intros h3 err He3. apply Hrefused. eapply ext_mono; [apply recording_starts_nothing|exact He3].
Qed.

Lemma accounted_reading h h' : ext reading h h' -> accounted h -> accounted h'.
Proof. intros He. by apply (reading_done h). Qed.

Lemma prepare_and_launch_runs session h :
  no_start h -> (re_has_Stop u = true -> guard_held h) -> Ev LoadSession (Ok session) ∈ h -> s_State session = respawn_state kind ->
  runs (prepare_and_launch u id kind session) h (fun h' _ => accounted h').
Proof.
  intros Hno Hg Hl Hst. assert (forall h1 (p : M (option error)), ext reading h h1 -> (forall Q, (forall h' r, re_done h1 h' -> Q h' r) -> runs p h1 Q) -> runs p h1 (fun h' _ => accounted h')) as Hend.
  { intros h1 p He Hp. apply Hp. intros h' r (_ & Ha & _). apply Ha. eapply accounted_reading; [exact He|by apply no_start_accounted]. }
  unfold prepare_and_launch. cbn zeta. apply wpi_bind.
  eapply wpi_mono; [apply (check_wpi re_orderly aside_orderly); apply fail_unless_aside|]. intros h1 [env|err] [He1 H1].
  2:{ apply Hend; [by apply ext_reading|intros; by apply failed_runs]. }
  apply wpi_bind. eapply wpi_mono; [apply (settings_wpi re_orderly aside_orderly); apply fail_unless_aside|]. intros h2 [path|err] [He2 H2].
  all: assert (ext reading h h2) as He02 by (eapply ext_trans; by apply ext_reading).
  2:{ apply Hend; [done|intros; by apply failed_runs]. }
  destruct (negb (bool_decide (kind = RespawnHandoffStage5)) && _) eqn:Eid; [apply Hend; [done|intros; apply stopWithReason_runs; [set_solver|done]]|].
  destruct (BuildLaunchArgv _ _ _ _) as [argv|err] eqn:Eargv; [|apply Hend; [done|intros; by apply fail_failed_runs]].
  apply attempt_and_launch_runs.
  - eapply no_start_ext; [eapply ext_mono; [apply reading_starts_nothing|exact He02]|done].
  - intros E. eapply (guard_held_later session); [apply ext_recording; exact He02|by apply Hg].
  - split_and!; [eapply in_later; [by eapply ext_suffix|done]|done|eapply (launchable_later _ _ _ _ h1); [exact (ext_suffix _ _ _ He2)|exact H1]| |by exists path].
    intros Hk E. rewrite E, bool_decide_false in Eid by done. done.
Qed.

Lemma respawn_locked_runs h : no_start h -> (re_has_Stop u = true -> guard_held h) -> runs (respawn_locked u id kind) h (fun h' _ => accounted h').
Proof.
  intros Hno Hg. assert (accounted h) as Ha by (by apply no_start_accounted). apply wpi_bind. intros err. split; [done|].
  set (h1 := Ev CtxErr err :: h). assert (ext reading h h1) as He1 by (by apply ext_cons, ext_refl). assert (accounted h1) as Ha1 by (by eapply accounted_reading).
  destruct err as [err|]; [done|]. apply wpi_bind. apply is_stopped_wpi; intros h2 He2; [|intros _].
  - apply stopForStop_runs. intros h3 r (_ & H & _). apply H. eapply accounted_reading; [by apply ext_reading|done].
  - assert (ext reading h h2) as He02 by (eapply ext_trans; [exact He1|by apply ext_reading]).
    apply wpi_call. intros loaded. split; [done|]. set (h3 := Ev LoadSession loaded :: h2). assert (ext reading h h3) as He03 by (by apply ext_cons).
    assert (accounted h3) as Ha3 by (by eapply accounted_reading). destruct loaded as [session|err]; [|done].
    destruct (bool_decide_reflect (s_State session = respawn_state kind)) as [Est|]; [|done]. cbn [negb]. apply prepare_and_launch_runs; [| |by left|done].
    + eapply no_start_ext; [eapply ext_mono; [apply reading_starts_nothing|exact He03]|done].
    + intros E. eapply (guard_held_later session); [apply ext_recording; exact He03|by apply Hg].
Qed.

Lemma start_guarded_runs h : no_start h -> runs (start_guarded u id kind) h (fun h' _ => accounted h').
Proof.
  intros Hno. unfold start_guarded. destruct (re_has_Stop u) eqn:Estop; [|by apply respawn_locked_runs; [|rewrite Estop]].
  assert (forall h1 err, accounted h1 -> runs (if errors_Is_opt err ErrStopActive then stopForStop u id else mret err) h1 (fun h' _ => accounted h')) as Hend.
  { intros h1 err Ha. destruct (errors_Is_opt err ErrStopActive); [|done]. apply stopForStop_runs. intros h' r (_ & H & _). by apply H. }
  assert (forall e h, starts_child e = false -> no_start h -> no_start (e :: h)) as Hcons by (intros e h' He H; unfold no_start; cbn; by rewrite He, H).
  apply wpi_bind. apply wpi_bind. intros refused. split; [done|]. destruct refused as [err|]; [by apply Hend, no_start_accounted, Hcons|].
  apply wpi_bind. eapply wpi_mono; [apply respawn_locked_runs; [by apply Hcons|intros _; by exists [], h]|]. intros h2 err Ha.
  intros []. split; [done|]. apply Hend. eapply accounted_ext; [|exact Ha]. by apply ext_cons, ext_refl.
Qed.

Lemma Respawn_Execute_runs : runs (Respawn_Execute u id kind) [] (fun h' _ => accounted h').
Proof.
  assert (accounted []) as Ha by (by apply no_start_accounted). unfold Respawn_Execute. destruct (negb _); [done|]. destruct (negb _); [done|].
  apply wpi_call. intros []. split; [done|]. apply wpi_bind.
  assert (forall h (p : M (option error)), no_start h -> (forall h, no_start h -> runs p h (fun h' _ => accounted h')) ->
    runs (under_process_lock (re_has_Lock u) Some p) h (fun h' _ => accounted h')) as Hlock.
  { intros h p Hno Hp. unfold under_process_lock. destruct (re_has_Lock u); [|by apply Hp]. apply wpi_call. intros err. split; [done|].
    assert (no_start (Ev ProcessLock err :: h)) as Hno1 by done. destruct err as [err|]; [by apply no_start_accounted|].
    apply wpi_bind. eapply wpi_mono; [by apply Hp|]. intros h2 r Ha2 []. split; [done|]. eapply accounted_reading; [|exact Ha2]. by apply ext_cons, ext_refl. }
  eapply wpi_mono; [apply Hlock; [done|apply start_guarded_runs]|]. intros h2 err Ha2 []. split; [done|].
  eapply accounted_reading; [|exact Ha2]. by apply ext_cons, ext_refl.
Qed.
End Respawn.

