(* ===== verification/RecoverOk.v ===== *)
(** * When a session recovers

    Over the recovery of [Respawn]: another child is asked for only after the delay, within
    the restart limits and while no stop is in force, and a recovery that is given up says
    why. *)

From S2P Require Import Prelude.
From S2P Require Import Errors.
From S2P Require Import Session.
From S2P Require Import Effects.
From S2P Require Import SupEff.
From S2P Require Import PreflightOk.
From S2P Require Import RecordOk.
From S2P Require Import StartSession.
From S2P Require Import Respawn.

Section Recover.
Context (u : RecoverSessionUseCase) (id : string).

(** ** Specification vocabulary *)

Definition within_limits (s : ManagedSession) (h : hist) : Prop :=
  exists now, Ev Now now ∈ h /\ RestartLimitReason (s_RestartCount s) (s_RestartTimes s) now = NoStopReason.

(** The delay of the record [s] is over. *)
Definition waited_for (s : ManagedSession) (h : hist) : Prop :=
  let delay := RestartBackoff (s_RestartCount s) in
  Ev (WaitDelay delay) None ∈ h \/ (Ev (StartTimer delay) tt ∈ h /\ Ev SelectWait TimerFired ∈ h).

(** The wait was cut short with the error. *)
Definition cut_short (err : error) (h : hist) : Prop :=
  (exists delay, Ev (WaitDelay delay) (Some err) ∈ h) \/ Ev SelectWait (CtxDone err) ∈ h
  \/ (err = Sentinel ErrStopActive /\ Ev StopState_IsStopped true ∈ h).

Definition stop_asked (h : hist) : Prop :=
  Ev StopState_IsStopped true ∈ h \/ exists err, cut_short err h /\ errors_Is err ErrStopActive = true.

(** What has been seen when a recovery is given up for a reason. *)
Definition stop_cause (reason : SupervisorStopReason) (h : hist) : Prop :=
  match reason with
  | StopClaudeSessionIDMissing => exists s, Ev LoadSession (Ok s) ∈ h /\ s_ClaudeSessionID s = ""%string
  | StopRestartLimitConsecutive | StopRestartLimitDaily =>
      exists s now, Ev LoadSession (Ok s) ∈ h /\ Ev Now now ∈ h /\ RestartLimitReason (s_RestartCount s) (s_RestartTimes s) now = reason
  | StopGlobal => stop_asked h /\ Ev StopState_IsGlobalStopped true ∈ h
  | StopSession => stop_asked h
  | StopSupervisorRestarted => exists err, Ev CtxErr (Some err) ∈ h \/ cut_short err h
  | _ => False
  end.

(** The record of a recovering session becomes that of one that starts. *)
Definition recovers (v v' : ManagedSession) (h : hist) : Prop :=
  s_State v = SessionRecovering /\ s_ClaudeSessionID v <> ""%string /\ within_limits v h
  /\ (rc_has_Stop u = true -> Ev StopState_IsStopped false ∈ h)
  /\ s_State v' = SessionStarting /\ s_RestartCount v' = s_RestartCount v /\ s_ClaudeSessionID v' = s_ClaudeSessionID v.

Definition after_delay (h : hist) : Prop :=
  exists s, Ev LoadSession (Ok s) ∈ h /\ s_State s = SessionRecovering /\ s_CLI s = CLIClaude /\ within_limits s h /\ waited_for s h.

Definition rc_orderly (e : called Eff) (h : hist) : Prop :=
  match e with
  | Ev e _ =>
      match e with
      | SaveSession v' =>
          exists v, last_loaded h = Some v
          /\ (v' = v \/ (after_delay h /\ recovers v v' h)
              \/ (s_State v = SessionRecovering /\ s_State v' = SessionStopped /\ stop_cause (s_StopReason v') h))
      | Respawn kind => kind = RespawnRecovery /\ after_delay h /\ exists v v', stored v v' h /\ recovers v v' h
      | StartChild _ _ _ | CreateRecord _ | DeleteRecord | Send _ _ | Panic => False
      | _ => True
      end
  end.

(** ** Lemmas *)

Abbreviation goes p h Q := (wpi record_ev rc_orderly p h Q).

Lemma reading_rc e h : reading e -> rc_orderly e h.
Proof. destruct e as [X e x]. by destruct e. Qed.

Lemma goes_reading {A : Type} (p : M A) h (Q : hist -> A -> Prop) :
  emits record_ev reading p -> (forall h' a, ext reading h h' -> Q h' a) -> goes p h Q.
Proof. intros Hp HQ. apply (wpi_emits record_ev rc_orderly reading); [apply reading_rc|done|]. intros new a Hn _. apply HQ. by exists new. Qed.

Lemma cut_short_later err h h' : h `suffix_of` h' -> cut_short err h -> cut_short err h'.
Proof. intros Hs [[d H]|[H|[E H]]]; [left; exists d|right; left|right; right; split; [done|]]; by eapply in_later. Qed.
Lemma stop_asked_later h h' : h `suffix_of` h' -> stop_asked h -> stop_asked h'.
Proof. intros Hs [H|(err & H & E)]; [left; by eapply in_later|right; exists err; split; [by eapply cut_short_later|done]]. Qed.
Lemma stop_cause_later reason h h' : h `suffix_of` h' -> stop_cause reason h -> stop_cause reason h'.
Proof.
  intros Hs. destruct reason; cbn; try done.
  - intros [H1 H2]. split; [by eapply stop_asked_later|by eapply in_later].
  - by apply stop_asked_later.
  - intros (err & [H|H]); exists err; [left; by eapply in_later|right; by eapply cut_short_later].
  - intros (s & H1 & H2). exists s. split; [by eapply in_later|done].
  - intros (s & now & H1 & H2 & H3). exists s, now. split_and!; [by eapply in_later|by eapply in_later|done].
  - intros (s & now & H1 & H2 & H3). exists s, now. split_and!; [by eapply in_later|by eapply in_later|done].
Qed.
Lemma within_limits_later s h h' : h `suffix_of` h' -> within_limits s h -> within_limits s h'.
Proof. intros Hs (now & H & E). exists now. split; [by eapply in_later|done]. Qed.
Lemma after_delay_later h h' : h `suffix_of` h' -> after_delay h -> after_delay h'.
Proof.
  intros Hs (s & H1 & H2 & H3 & H4 & H5). exists s. split_and!; [by eapply in_later|done|done|by eapply within_limits_later|].
  destruct H5 as [H|[H H']]; [left|right; split]; by eapply in_later.
Qed.
Lemma recovers_later v v' h h' : h `suffix_of` h' -> recovers v v' h -> recovers v v' h'.
Proof.
  intros Hs (H1 & H2 & H3 & H4 & H5). split_and!; try done; try apply H5; [by eapply within_limits_later|]. intros E. by eapply in_later; [|apply H4].
Qed.

(** Stopping a session that recovers. *)
Lemma stop_recovering_state reason now v v' :
  apply_stop reason now v = Ok v' -> s_State v = SessionRecovering ->
  reason ∈ [StopGlobal; StopSession; StopSupervisorRestarted; StopClaudeSessionIDMissing; StopRestartLimitConsecutive; StopRestartLimitDaily] ->
  s_State v' = SessionStopped /\ s_StopReason v' = reason.
Proof.
  unfold apply_stop, apply. destruct v as [? ? ? ? ? ? st]. cbn [Session.s_State]. intros H -> Hr. revert H.
  repeat (apply list.elem_of_cons in Hr as [->|Hr]; [by intros [= <-]|]). by apply elem_of_nil in Hr.
Qed.

Lemma stop_cause_known reason h :
  stop_cause reason h -> reason ∈ [StopGlobal; StopSession; StopSupervisorRestarted; StopClaudeSessionIDMissing; StopRestartLimitConsecutive; StopRestartLimitDaily].
Proof. destruct reason; cbn; try done; intros _; repeat (first [by left|right]). Qed.

Lemma stoppedEvent_reading reason : emits record_ev reading (stoppedEvent u id reason).
Proof. unfold stoppedEvent, ignoring. cbn zeta. repeat first [apply emits_bind; [|intros]|apply emits_call; intros; exact I|case_match|exact I]. Qed.

Lemma recover_stop_goes reason now h (Q : hist -> option error -> Prop) :
  stop_cause reason h -> (forall h' err, Q h' err) -> goes (recover_stop u id reason now) h Q.
Proof.
  intros Hc HQ. apply wpi_bind. apply (update_wpi rc_orderly).
  - apply reading_rc.
  - intros h' err _. apply HQ.
  - intros v before h1. assert (forall h' (changed : bool), goes ((if changed then stoppedEvent u id reason else mret tt);; mret None) h' Q) as Hend.
    { intros h' changed. apply wpi_bind. apply goes_reading; [destruct changed; [apply stoppedEvent_reading|done]|]. intros. apply HQ. }
    destruct (bool_decide_reflect (s_State v = SessionRecovering)) as [Est|]; cbn [negb].
    + destruct (apply_stop reason now v) as [v'|err] eqn:E; (split; [apply ext_refl|]); [|apply HQ].
      split_and!; [|intros h2 _ _ _; apply (Hend h2 true)|intros h2 err _; apply HQ].
      intros err h2 He Hl. exists v. split; [done|]. right. right. split; [done|].
      destruct (stop_recovering_state _ _ _ _ E Est (stop_cause_known _ _ Hc)) as [E1 ->]. split; [done|].
      eapply stop_cause_later; [|exact Hc]. etrans; [|by eapply ext_suffix]. by do 3 apply suffix_cons_r.
    + split; [apply ext_refl|]. split_and!; [|intros h2 _ _ _; apply (Hend h2 false)|intros h2 err _; apply HQ]. intros err h2 He Hl. exists v. by split; [|left].
Qed.

Lemma recover_is_stopped_goes h (Q : hist -> bool -> Prop) :
  (forall h', ext aside h h' -> Ev StopState_IsStopped true ∈ h' -> Q h' true) ->
  (forall h', ext aside h h' -> (rc_has_Stop u = true -> Ev StopState_IsStopped false ∈ h') -> Q h' false) -> goes (recover_is_stopped u) h Q.
Proof.
  intros Ht Hf. unfold recover_is_stopped. destruct (rc_has_Stop u) eqn:E; [|by apply Hf; [apply ext_refl|]].
  intros [|]; (split; [done|]); [apply Ht|apply Hf; [|intros _]]; try (by left); by apply ext_cons, ext_refl.
Qed.

Lemma stop_reason_now_goes h (Q : hist -> SupervisorStopReason -> Prop) :
  stop_asked h -> (forall h' reason, ext aside h h' -> stop_cause reason h' -> Q h' reason) -> goes (stop_reason_now u) h Q.
Proof.
  intros Ha HQ. unfold stop_reason_now. apply wpi_bind. destruct (rc_has_Stop u); [|by apply HQ; [apply ext_refl|]].
  intros global. split; [done|]. set (h1 := Ev StopState_IsGlobalStopped global :: h). assert (stop_asked h1) as Ha1 by (eapply stop_asked_later; [by apply suffix_cons_r|done]).
  apply HQ; [by apply ext_cons, ext_refl|]. destruct global; [split; [done|by left]|done].
Qed.

(** *** The end of the wait *)

Lemma wait_ticks_goes fuel h (Q : hist -> option error -> Prop) :
  (forall h' err, ext aside h h' -> cut_short err h' -> Q h' (Some err)) -> (forall h', ext aside h h' -> Ev SelectWait TimerFired ∈ h' -> Q h' None) ->
  goes (wait_ticks u fuel) h Q.
Proof.
  revert h Q. induction fuel as [|fuel IH]; intros h Q Herr Hok; cbn [wait_ticks]; apply wpi_bind; apply recover_is_stopped_goes; intros h1 He1 H1.
  all: try (apply Herr; [done|right; right; by split]).
  all: apply wpi_call; intros w; (split; [done|]); assert (ext aside h (Ev SelectWait w :: h1)) as He2 by (by apply ext_cons).
  all: destruct w as [err| |]; [apply Herr; [done|right; left; by left]|apply Hok; [done|by left]|].
  - apply wpi_bind. apply wpi_call. by intros [].
  - apply IH; [intros h' err He Hc; apply Herr; [by eapply ext_trans|done]|intros h' He Hc; apply Hok; [by eapply ext_trans|done]].
Qed.

Lemma wait_goes fuel s h (Q : hist -> option error -> Prop) :
  let delay := RestartBackoff (s_RestartCount s) in
  (forall h' err, ext aside h h' -> cut_short err h' -> Q h' (Some err)) -> (forall h', ext aside h h' -> waited_for s h' -> Q h' None) ->
  goes (if rc_has_Wait u then call (WaitDelay delay) else waitRecoveryDelay u fuel delay) h Q.
Proof.
  intros delay Herr Hok. destruct (rc_has_Wait u).
  - intros [err|]; (split; [done|]).
    + apply Herr; [by apply ext_cons, ext_refl|]. left. exists delay. by left.
    + apply Hok; [by apply ext_cons, ext_refl|]. left. by left.
  - apply wpi_call. intros []. split; [done|]. assert (ext aside h (Ev (StartTimer delay) () :: h)) as He1 by (by apply ext_cons, ext_refl).
    apply wait_ticks_goes.
    + intros h' err He Hc. apply Herr; [by eapply ext_trans|done].
    + intros h' He Hc. apply Hok; [by eapply ext_trans|]. right. split; [|done]. eapply in_later; [by eapply ext_suffix|]. by left.
Qed.

Lemma wait_cut_short_goes err h : cut_short err h -> goes (wait_cut_short u id err) h (fun _ _ => True).
Proof.
  intros Hc. unfold wait_cut_short. destruct (errors_Is err ErrStopActive) eqn:E.
  - apply wpi_bind. apply stop_reason_now_goes; [right; by exists err|]. intros h1 reason He Hcause. apply wpi_call. intros now. split; [done|].
    apply recover_stop_goes; [|done]. eapply stop_cause_later; [by apply suffix_cons_r|done].
  - destruct (_ || _); [|done]. apply wpi_call. intros now. split; [done|]. apply wpi_bind. apply recover_stop_goes; [|done].
    exists err. right. eapply cut_short_later; [by apply suffix_cons_r|done].
Qed.

(** What an update that finishes a recovery makes of the record [v]. *)
Definition finished (v v' : ManagedSession) (r : recovered) (h : hist) : Prop :=
  match r with
  | notRecovering => v' = v
  | stoppedBecause reason => s_State v = SessionRecovering /\ s_State v' = SessionStopped /\ s_StopReason v' = reason /\ stop_cause reason h
  | readyToStart => recovers v v' h
  end.

Lemma stop_recovering_goes reason v h (Q : hist -> res (ManagedSession * recovered) -> Prop) :
  s_State v = SessionRecovering -> stop_cause reason h ->
  (forall h' r, ext aside h h' -> match r with Ok (v', a) => finished v v' a h' | Err _ => True end -> Q h' r) -> goes (stop_recovering reason v) h Q.
Proof.
  intros Hst Hc HQ. apply wpi_call. intros now. split; [done|]. apply HQ; [by apply ext_cons, ext_refl|].
  destruct (apply_stop reason now v) as [v'|err] eqn:E; cbn; [|done]. destruct (stop_recovering_state _ _ _ _ E Hst (stop_cause_known _ _ Hc)) as [E1 E2].
  split_and!; try done. eapply stop_cause_later; [by apply suffix_cons_r|done].
Qed.

Lemma wait_done_state now v v' :
  apply EventRecoveryWaitDone no_context now v = Ok v' -> s_State v = SessionRecovering ->
  s_State v' = SessionStarting /\ s_RestartCount v' = s_RestartCount v /\ s_ClaudeSessionID v' = s_ClaudeSessionID v.
Proof. unfold apply. destruct v as [? ? ? ? ? ? st]. cbn [Session.s_State]. intros H ->. revert H. by intros [= <-]. Qed.

Lemma finish_recovery_goes v h :
  Ev LoadSession (Ok v) ∈ h ->
  goes (finish_recovery u v) h (fun h' r => ext aside h h' /\ match r with Ok (v', a) => finished v v' a h' | Err _ => True end).
Proof.
  intros Hl. unfold finish_recovery. destruct (bool_decide_reflect (s_State v = SessionRecovering)) as [Est|]; cbn [negb]; [|by split; [apply ext_refl|]].
  apply wpi_bind. apply recover_is_stopped_goes; intros h1 He1 H1.
  { apply wpi_bind. apply stop_reason_now_goes; [by left|]. intros h2 reason He2 Hc. apply stop_recovering_goes; [done|done|].
    intros h3 r He3 Hr. split; [|done]. eapply ext_trans; [exact He1|by eapply ext_trans]. }
  assert (Ev LoadSession (Ok v) ∈ h1) as Hl1 by (eapply in_later; [by eapply ext_suffix|done]).
  destruct (String.eqb_spec (s_ClaudeSessionID v) "") as [Eid|Eid].
  { apply stop_recovering_goes; [done|by exists v|]. intros h2 r He2 Hr. split; [by eapply ext_trans|done]. }
  apply wpi_call. intros now. split; [done|]. cbn zeta. set (h2 := Ev Now now :: h1). assert (ext aside h h2) as He2 by (by apply ext_cons).
  destruct (bool_decide_reflect (RestartLimitReason (s_RestartCount v) (s_RestartTimes v) now = NoStopReason)) as [El|El]; cbn [negb].
  - apply wpi_call. intros now'. split; [done|]. split; [by apply ext_cons|]. destruct (apply _ _ _ _) as [v'|err] eqn:E; cbn; [|done].
    destruct (wait_done_state _ _ _ E Est) as (E1 & E2 & E3). split_and!; try done; [exists now; split; [|done]; right; by left|].
    intros Eh. do 2 right. by apply H1.
  - apply stop_recovering_goes; [done| |intros h3 r He3 Hr; split; [by eapply ext_trans|done]].
    assert (exists s now', Ev LoadSession (Ok s) ∈ h2 /\ Ev Now now' ∈ h2 /\ RestartLimitReason (s_RestartCount s) (s_RestartTimes s) now' =
      RestartLimitReason (s_RestartCount v) (s_RestartTimes v) now) as H by (exists v, now; split_and!; [by right|by left|done]).
    revert El H. unfold RestartLimitReason, RestartLimitCounts. by repeat case_match.
Qed.

Lemma after_wait_goes h : after_delay h -> goes (after_wait u id) h (fun _ _ => True).
Proof.
  intros Hd. apply wpi_call. intros err. split; [done|]. destruct err as [err|].
  { apply wpi_call. intros now. split; [done|]. apply wpi_bind. apply recover_stop_goes; [|done]. exists err. left. right. by left. }
  set (h1 := Ev CtxErr None :: h). assert (after_delay h1) as Hd1 by (eapply after_delay_later; [by apply suffix_cons_r|done]). apply wpi_bind.
  apply (update_wpi rc_orderly); [apply reading_rc|done|]. intros v before h2.
  assert (after_delay h2) as Hd2 by (eapply after_delay_later; [|exact Hd1]; by do 3 apply suffix_cons_r).
  eapply wpi_mono; [apply finish_recovery_goes; right; by left|]. intros h3 [[v' r]|err] [He3 Hr]; (split; [done|]); [|done].
  assert (h2 `suffix_of` h3) as Hs23 by (by eapply ext_suffix). split_and!; [| |done].
  - intros err h4 He4 Hl. exists v. split; [done|]. assert (h3 `suffix_of` h4) as Hs34 by (by eapply ext_suffix). destruct r as [|reason|]; [by left|right; right|right; left].
    + destruct Hr as (E1 & E2 & -> & E4). split_and!; try done. by eapply stop_cause_later.
    + split; [eapply after_delay_later; [|exact Hd2]; by etrans|by eapply recovers_later].
  - intros h4 He4 Hs4 Hst. destruct r as [|reason|]; [done| |].
    + apply wpi_bind. apply goes_reading; [apply stoppedEvent_reading|done].
    + apply wpi_bind. apply goes_reading; [case_match; [apply emits_bind; [apply emits_call; intros|]|]; done|]. intros h5 [] He5.
      assert (h4 `suffix_of` h5) as Hs45 by (by eapply ext_suffix). intros x. split; [|done]. split; [done|]. split.
      * eapply after_delay_later; [|exact Hd2]. etrans; [exact Hs23|]. by etrans.
      * exists v, v'. split; [by eapply stored_later|]. eapply recovers_later; [|exact Hr]. by etrans.
Qed.

Lemma Recover_Execute_goes fuel : goes (Recover_Execute u id fuel) [] (fun _ _ => True).
Proof.
  unfold Recover_Execute. destruct (_ || _); [done|]. apply wpi_call. intros [s|err]; (split; [done|]); [|done].
  destruct (bool_decide_reflect (s_State s = SessionRecovering)) as [Est|]; [|done]. cbn [negb].
  destruct (bool_decide_reflect (s_CLI s = CLIClaude)) as [Ecli|]; [|done]. cbn [negb].
  destruct (String.eqb_spec (s_ClaudeSessionID s) "") as [Eid|Eid].
  { apply wpi_call. intros now. split; [done|]. apply recover_stop_goes; [|done]. exists s. split; [right; by left|done]. }
  apply wpi_call. intros now. split; [done|]. cbn zeta. set (h1 := [Ev Now now; Ev LoadSession (Ok s)]).
  destruct (bool_decide_reflect (RestartLimitReason (s_RestartCount s) (s_RestartTimes s) now = NoStopReason)) as [El|El]; cbn [negb].
  - apply wpi_bind. apply wait_goes.
    + intros h2 err He2 Hc. by apply wait_cut_short_goes.
    + intros h2 He2 Hw. apply after_wait_goes. assert (h1 `suffix_of` h2) as Hs by (by eapply ext_suffix). exists s.
      split_and!; try done; [eapply in_later; [exact Hs|right; by left]|]. exists now. split; [eapply in_later; [exact Hs|by left]|done].
  - apply wpi_call. intros now'. split; [done|]. apply recover_stop_goes; [|done].
    assert (exists s' now'', Ev LoadSession (Ok s') ∈ Ev Now now' :: h1 /\ Ev Now now'' ∈ Ev Now now' :: h1 /\
      RestartLimitReason (s_RestartCount s') (s_RestartTimes s') now'' = RestartLimitReason (s_RestartCount s) (s_RestartTimes s) now) as H.
    { exists s, now. split_and!; [do 2 right; by left|right; by left|done]. }
    revert El H. unfold RestartLimitReason, RestartLimitCounts. by repeat case_match.
Qed.
End Recover.

