(* ===== verification/Rotate.v ===== *)
(** * The rotation of a session ([internal/supervisor/usecase/rotate_session.go])

    When the context of a session is nearly used up, it is handed over to a new child:
    the old one writes a checkpoint and exits, a new one is started and told to go on.
    The stage is kept in the session record; a worker advances it as the evidence for the
    stage comes in, and it can be stopped and resumed anywhere. *)

From S2P Require Import Prelude.
From S2P Require Import Errors.
From S2P Require Import Session.
From S2P Require Import Effects.
From S2P Require Import SendInput.
From S2P Require Import SupEff.

Definition rotationStepTimeout : Duration := 900 * Second.
Definition rotationStartupTimeout : Duration := 120 * Second.

(** The file conditions of the hand-over ([CheckpointUpdated] of [checkpoint.go]). *)
Definition CheckpointUpdated (before after : RotationCheckpointSnapshot) (issuedAt : Time) : bool :=
  if cp_Undeterminable before || cp_Undeterminable after then false
  else match cp_Mtime after with
       | Some mtime =>
           if negb (cp_Exists after) || negb (After mtime issuedAt) then false
           else negb (cp_Exists before) || negb (cp_HeadHash before =? cp_HeadHash after)%string
       | None => false
       end.

(** *** The workers

    What the use case keeps in memory, under its mutex: the calls [BeginRunning],
    [EndRunning], [StepLock], [GetResumeSent], [SetResumeSent] and [DeleteResumeSent]. *)

Record RotationWorkers : Type := mkWorkers {
  running : gset string;
  stepLocks : gset string;
  resumeSent : gmap string Time }.

Definition beginRunning (id : string) (w : RotationWorkers) : RotationWorkers * bool :=
  if bool_decide (id ∈ running w) then (w, false) else (mkWorkers (running w ∪ {[id]}) (stepLocks w) (resumeSent w), true).
Definition endRunning (id : string) (w : RotationWorkers) : RotationWorkers := mkWorkers (running w ∖ {[id]}) (stepLocks w) (resumeSent w).
Definition IsRunning (id : string) (w : RotationWorkers) : bool := bool_decide (id ∈ running w).
Definition stepLock (id : string) (w : RotationWorkers) : RotationWorkers := mkWorkers (running w) (stepLocks w ∪ {[id]}) (resumeSent w).
Definition set_resume_sent (id : string) (since : Time) (w : RotationWorkers) : RotationWorkers :=
  mkWorkers (running w) (stepLocks w) (<[id := since]> (resumeSent w)).
Definition delete_resume_sent (id : string) (w : RotationWorkers) : RotationWorkers :=
  mkWorkers (running w) (stepLocks w) (delete id (resumeSent w)).
Definition EndSession (id : string) (w : RotationWorkers) : RotationWorkers :=
  mkWorkers (running w ∖ {[id]}) (stepLocks w ∖ {[id]}) (delete id (resumeSent w)).

(** *** The use case *)

(** Which of the fields of the use case are set; [has_ports]: those for sending, for observing
    the child and its checkpoint, for waking the worker and for the remote control. *)
Record RotateSessionUseCase : Type := mkRotateUseCase {
  has_ports : bool;
  has_Sessions : bool;
  has_ResumeReady : bool;
  has_Stop : bool;
  has_IsStopped : bool;
  has_Respawn : bool;
  has_AutoContinue : bool;
  has_RecordStructured : bool;
  has_Notify : bool }.

Section UseCase.
Context (id : string) (u : RotateSessionUseCase).

Definition validateCore : option error :=
  if has_Sessions u && has_ports u && (has_Stop u || has_IsStopped u) && has_ResumeReady u then None
  else Some (Errorf "rotation dependencies are required" []).

Definition stopped : M bool :=
  byState ← (if has_Stop u then call StopState_IsStopped else mret false);
  if (byState : bool) then mret true else if has_IsStopped u then call IsStopped else mret false.

Definition rotationIdle (state : SupervisorSessionState) : bool :=
  bool_decide (state = SessionIdle) || bool_decide (state = SessionAwaitingRecommendation).

Definition inspect : M RotationCheckpointSnapshot :=
  shot ← call Inspect;
  mret (match shot with Ok shot => shot | Err _ => mkCheckpoint false None "" true end).

Definition record (kind : SupervisorEventKind) (step : SupervisorRotateStep) (reason : SupervisorRotateFailReason) (code : string)
    : M (option error) :=
  if has_RecordStructured u then
    now ← call Now;
    call (RecordStructured (mkSupEvent kind code (SupervisorRotateFailReason_string reason) step NoSessionState NoSessionState (Some now)))
  else mret None.

(** The record of the hand-over, behind a pointer. *)
Definition rotation (s : ManagedSession) : M RotationRecord :=
  match s_Rotation s with Some r => mret r | None => panic end.

(** *** Changes of the record *)

Definition updated_or {A B : Type} (failed : error -> B) (update : ManagedSession -> M (res (ManagedSession * A))) (k : A -> M B) : M B :=
  r ← UpdateSession update;
  match r with Err err => mret (failed err) | Ok a => k a end.

Definition updated {A : Type} (update : ManagedSession -> M (res (ManagedSession * A))) (k : A -> M (option error)) : M (option error) :=
  updated_or Some update k.

Definition advance (done next : SupervisorRotateStep) : M (option error) :=
  updated (fun s =>
      now ← call Now;
      r ← rotation s;
      mret (Ok (s <| s_Rotation := Some (Rotation_Advance r next now) |>, tt)))
    (fun _ => record EventKindRotateStepDone done NoRotateFailReason "").

Definition failed_text (step : SupervisorRotateStep) (reason : SupervisorRotateFailReason) : string :=
  "セッション「" +:+ id +:+ "」の引き継ぎが段階「" +:+ SupervisorRotateStep_string step +:+ "」で確認できず、停止しました（理由: "
    +:+ SupervisorRotateFailReason_string reason +:+ "）。状況を確認してから再開してください。".

Definition fail (step : SupervisorRotateStep) (reason : SupervisorRotateFailReason) : M (option error) :=
  updated (fun s =>
      r ← rotation s;
      let r := Rotation_Fail (r <| ro_ResumeSpawn := false |> <| ro_ResumeEnd := false |>) step reason in
      now ← call Now;
      mret (s ← apply EventRotationFailed no_context now (s <| s_Rotation := Some r |>); Ok (s, tt)))
    (fun _ =>
      unless_error (record EventKindRotateFailed step reason
                      (if bool_decide (reason = RotateFailRestartLimit) then "SUP_RESTART_LIMIT_EXCEEDED" else "SUP_ROTATE_STEP_FAILED"))
        ((if has_Notify u then call (Notify EventKindRotateFailed (failed_text step reason)) else mret tt);; mret None)).

Definition stop : M (option error) :=
  updated (fun s =>
      if negb (bool_decide (s_State s = SessionRotating)) then mret (Ok (s, tt))
      else
        global ← (if has_Stop u then call StopState_IsGlobalStopped else mret false);
        now ← call Now;
        mret (s ← apply EventStop (no_context <| c_StopReason := if (global : bool) then StopGlobal else StopSession |>) now s; Ok (s, tt)))
    (fun _ => mret None).

Definition respawn_later (now wait : Time) (s : ManagedSession) (r : RotationRecord) : ManagedSession :=
  s <| s_Rotation := Some (Rotation_Advance r RotateRestart now <| ro_Stage5Started := false |> <| ro_RespawnWaitUntil := Some wait |>) |>
    <| s_ChildPID := 0 |> <| s_ChildStartedAt := None |>.

(** The child is gone: a failure, or another attempt to start one after a while. *)
Definition childAbsent (s : ManagedSession) : M (option error) :=
  r ← rotation s;
  if bool_decide (ro_Step r = RotateSendEnd) || bool_decide (ro_Step r = RotateConfirmHandoff) then fail (ro_Step r) RotateFailChildAbsent
  else
    now ← call Now;
    if negb (bool_decide (RestartLimitReason (s_RestartCount s) (s_RestartTimes s) now = NoStopReason)) then fail (ro_Step r) RotateFailRestartLimit
    else
      updated (fun v =>
          now ← call Now;
          let wait := now + RestartBackoff (s_RestartCount v) in
          now ← call Now;
          r ← rotation v;
          mret (Ok (respawn_later now wait v r, tt)))
        (fun _ => mret None).

Definition no_child (s : ManagedSession) : ManagedSession := s <| s_ChildPID := 0 |> <| s_ChildStartedAt := None |>.

Definition deadDuringSend (s : ManagedSession) (step : SupervisorRotateStep) (sendID : string) : M (option error) :=
  updated (fun v =>
      let crSucceeded :=
        negb (sendID =? "")%string
        && match s_LastSend v with
           | Some l => (ls_SendID l =? sendID)%string && bool_decide (ls_Kind l = SendKindHandoffExit)
           | None => false
           end in
      mret (Ok (no_child (v <| s_SendGate := s_SendGate v <| sg_Pending := None |> |>), crSucceeded)))
    (fun crSucceeded =>
      if bool_decide (step = RotateSendExit) then
        if (crSucceeded : bool) then advance step RotateRestart else fail step RotateFailChildAbsent
      else
        current ← call LoadSession;
        match current with Err err => mret (Some err) | Ok current => childAbsent current end).

(** *** Sending after a resumption *)

Definition awaiting_resume (s : ManagedSession) : bool :=
  is_some (s_Rotation s) && bool_decide (s_State s = SessionRotating) && bool_decide (s_PreviousState s = SessionRotating).

Definition resumeReady : M (res bool) :=
  s ?← call LoadSession;
  if negb (awaiting_resume s) then mret (Ok true)
  else
    sentAt ← call GetResumeSent;
    if bool_decide (sentAt = Some (s_StateSince s)) then mret (Ok true)
    else if negb (has_ResumeReady u) then mret (Err (Errorf "resume readiness detector is required" []))
    else ready ← call (ResumeReady (s_StateSince s)); mret (Ok ready).

Definition sentAfterResume : M (option error) :=
  s ← call LoadSession;
  match s with
  | Err err => mret (Some err)
  | Ok s => if negb (awaiting_resume s) then mret None else call (SetResumeSent (s_StateSince s));; mret None
  end.

(** Not advanced, with an error or none. *)
Definition stay (p : M (option error)) : M (bool * option error) := err ← p; mret (false, err).
Definition onward (p : M (option error)) : M (bool * option error) := err ← p; mret (true, err).

Definition not_advanced (err : error) : bool * option error := (false, Some err).

Definition unless_ready (k : M (bool * option error)) : M (bool * option error) :=
  ready ← resumeReady;
  match ready with
  | Err err => mret (false, Some err)
  | Ok false => mret (false, None)
  | Ok true => k
  end.

(** A send that was not confirmed. *)
Definition unsent (s : ManagedSession) (step : SupervisorRotateStep) (sendID : string) (reason : SupervisorRotateFailReason) : M (option error) :=
  alive ← call ChildAlive;
  if negb alive then deadDuringSend s step sendID
  else
    st ← stopped;
    if (st : bool) then stop else fail step reason.

Definition when_sent (p : M (option error)) (k : M (bool * option error)) : M (bool * option error) :=
  err ← p; match err with Some _ => mret (false, err) | None => k end.

(** The current stage has lasted for [timeout]. *)
Definition overdue (r : RotationRecord) (timeout : Duration) : M bool :=
  match ro_StepStartedAt r with
  | None => mret false
  | Some at_ => now ← call Now; mret (negb (Before now (at_ + timeout)))
  end.

Definition confirmed (kind : SupervisorSendKind) (s : ManagedSession) : bool :=
  match s_LastSend s with Some l => bool_decide (ls_Kind l = kind) && ls_Confirmed l | None => false end.

(** *** The end of the old child *)

Definition checkpoint_newer (shot : RotationCheckpointSnapshot) (issuedAt : Time) : bool :=
  cp_Exists shot && negb (cp_Undeterminable shot) && match cp_Mtime shot with Some mtime => After mtime issuedAt | None => false end.

(** The request to end has been issued: the child works on it, or has written already. *)
Definition end_issued (issuedAt : Time) : M (bool * option error) :=
  shot ← inspect;
  state ← call Observed;
  if bool_decide (state = SessionWorking) || checkpoint_newer shot issuedAt then onward (advance RotateSendEnd RotateConfirmHandoff)
  else
    st ← stopped;
    if (st : bool) then stay stop
    else
      now ← call Now;
      if negb (Before now (issuedAt + SupervisorSendConfirmTimeout)) then stay (fail RotateSendEnd RotateFailSendNotConfirmed)
      else mret (false, None).

Definition issue_again (resume : bool) (previousIssued : option Time) (issuedAt : option Time) : bool :=
  match issuedAt with
  | None => true
  | Some at_ => resume && match previousIssued with Some previous => at_ =? previous | None => false end
  end.

(** The request to end, and what follows it with the record loaded again. *)
Definition issue_end (again : ManagedSession -> M (bool * option error)) (s : ManagedSession) (r : RotationRecord) : M (bool * option error) :=
  '(result, err) ← call (Send SendKindHandoffEnd 0);
  issued ← call Now;
  let answered :=
    if is_some err || negb (Confirmed result) then stay (unsent s RotateSendEnd (r_SendID result) RotateFailSendNotConfirmed)
    else
      when_sent sentAfterResume (
        updated_or not_advanced (fun v => r ← rotation v; mret (Ok (v <| s_Rotation := Some (r <| ro_ResumeEnd := false |>) |>, tt))) (fun _ =>
          current ← call LoadSession;
          match current with
          | Err err => mret (false, Some err)
          | Ok current => again current
          end)) in
  if (r_SendID result =? "")%string then answered
  else
    updated_or not_advanced (fun v =>
        r' ← rotation v;
        mret (Ok (if issue_again (ro_ResumeEnd r) (ro_EndIssuedAt r) (ro_EndIssuedAt r')
                  then v <| s_Rotation := Some (r' <| ro_EndIssuedAt := Some issued |>) |> else v, tt)))
      (fun _ => answered).

(** One attempt at the first stage; [again]: what follows the request, with the record as it is then. *)
Definition end_stage (again : ManagedSession -> M (bool * option error)) (s : ManagedSession) : M (bool * option error) :=
  r ← rotation s;
  let resume := ro_ResumeEnd r in
  match ro_EndIssuedAt r, resume with
  | Some issuedAt, false => end_issued issuedAt
  | _, _ =>
      alive ← call ChildAlive;
      if negb alive then stay (fail RotateSendEnd RotateFailChildAbsent)
      else
        (if resume then unless_ready else fun k => k) (unless_ready (
          match ro_CheckpointSnapshot r with
          | Some _ => issue_end again s r
          | None =>
              shot ← inspect;
              updated_or not_advanced
                (fun v => r ← rotation v; mret (Ok (v <| s_Rotation := Some (Rotation_RecordCheckpoint r shot) |>, tt)))
                (fun _ => issue_end again s r)
          end))
  end.

Fixpoint sendEnd (fuel : nat) (s : ManagedSession) : M (bool * option error) :=
  end_stage (fun current => match fuel with O => out_of_fuel | S fuel => sendEnd fuel current end) s.

Definition confirmHandoff (s : ManagedSession) : M (bool * option error) :=
  alive ← call ChildAlive;
  if negb alive then stay (fail RotateConfirmHandoff RotateFailChildAbsent)
  else
    r ← rotation s;
    shot ← inspect;
    let mtime := match ro_EndIssuedAt r, ro_CheckpointSnapshot r with
                 | Some issuedAt, Some before => negb (cp_Undeterminable before) && checkpoint_newer shot issuedAt
                 | _, _ => false
                 end in
    let head := mtime && match ro_CheckpointSnapshot r with
                         | Some before => negb (cp_Exists before) || negb (cp_HeadHash before =? cp_HeadHash shot)%string
                         | None => false
                         end in
    state ← call Observed;
    let idle := rotationIdle state in
    if mtime && head && idle then onward (advance RotateConfirmHandoff RotateSendExit)
    else
      st ← stopped;
      if (st : bool) then stay stop
      else
        late ← overdue r rotationStepTimeout;
        if negb late then mret (false, None)
        else
          stay (fail RotateConfirmHandoff
                  (if mtime && head && negb idle then RotateFailNotIdleAfterHandoff
                   else if mtime && negb head then RotateFailHeadGenerationUnchanged
                   else RotateFailMtimeNotUpdated)).

Definition sendExit (s : ManagedSession) : M (bool * option error) :=
  alive ← call ChildAlive;
  if negb alive then stay (fail RotateSendExit RotateFailChildAbsent)
  else
    unless_ready (
      '(result, err) ← call (Send SendKindHandoffExit SupervisorExitGrace);
      if is_some err || negb (Confirmed result) then
        alive ← call ChildAlive;
        if negb alive then
          dead ← deadDuringSend s RotateSendExit (r_SendID result);
          mret (false, errors_Join [err; dead])
        else
          st ← stopped;
          if (st : bool) then stay stop else stay (fail RotateSendExit RotateFailExitTimeout)
      else
        when_sent sentAfterResume (
          updated_or not_advanced (fun v => mret (Ok (no_child v, tt))) (fun _ => onward (advance RotateSendExit RotateRestart)))).

(** *** The new child *)

Definition spawn_child : M (bool * option error) :=
  if negb (has_Respawn u) then mret (false, Some (Errorf "respawn use case is required" []))
  else
    err ← call (Respawn RespawnHandoffStage5);
    match err with
    | Some _ => stay (fail RotateRestart RotateFailSpawnFailed)
    | None =>
        stay (updated (fun v =>
                  match s_Rotation v with
                  | Some r =>
                      if negb (bool_decide (s_State v = SessionRotating)) then mret (Ok (v, tt))
                      else
                        now ← call Now;
                        mret (Ok (v <| s_Rotation := Some (Rotation_Advance r RotateRestart now <| ro_Stage5Started := true |>
                                                             <| ro_RespawnWaitUntil := None |>) |>, tt))
                  | None => mret (Ok (v, tt))
                  end)
                (fun _ => mret None))
    end.

Definition child_started (s : ManagedSession) (r : RotationRecord) : M (bool * option error) :=
  alive ← call ChildAlive;
  if negb alive then stay (childAbsent s)
  else
    state ← call Observed;
    if bool_decide (state = SessionIdle) then onward (advance RotateRestart RotateSendStart)
    else
      late ← overdue r rotationStartupTimeout;
      if (late : bool) then stay (fail RotateRestart RotateFailStartupTimeout) else mret (false, None).

Definition restart (s : ManagedSession) : M (bool * option error) :=
  r ← rotation s;
  waiting ← (match ro_RespawnWaitUntil r with None => mret false | Some until => now ← call Now; mret (Before now until) end);
  if (waiting : bool) then mret (false, None)
  else if (s_ChildPID s =? 0) && ro_Stage5Started r then stay (childAbsent s)
  else if s_ChildPID s =? 0 then spawn_child
  else child_started s r.

Definition unsettled (s : ManagedSession) : M (bool * option error) :=
  r ← rotation s;
  late ← overdue r rotationStepTimeout;
  if (late : bool) then stay (fail RotateSendStart RotateFailStartNotSettled) else mret (false, None).

Definition sendStart (s : ManagedSession) : M (bool * option error) :=
  alive ← call ChildAlive;
  if negb alive then stay (childAbsent s)
  else
    state ← call Observed;
    if confirmed SendKindSessionStart s then
      if rotationIdle state then onward (advance RotateSendStart RotateSendParallelInstruction) else unsettled s
    else if negb (bool_decide (state = SessionIdle)) then unsettled s
    else
      unless_ready (
        '(result, err) ← call (Send SendKindSessionStart 0);
        if is_some err || negb (Confirmed result) then stay (unsent s RotateSendStart (r_SendID result) RotateFailSendNotConfirmed)
        else
          when_sent sentAfterResume (
            state ← call Observed;
            if rotationIdle state then onward (advance RotateSendStart RotateSendParallelInstruction) else mret (false, None))).

(** *** The last instruction, and the end of the rotation *)

(** The last stage has been confirmed, which is only noted while the session is stopped. *)
Definition note_stage7 (k : M (option error)) : M (option error) :=
  updated (fun v =>
      mret (Ok (match s_Rotation v with
                | Some r => if ro_Stage7ConfirmedWhileStopped r then (v, false)
                            else (v <| s_Rotation := Some (r <| ro_Stage7ConfirmedWhileStopped := true |>) |>, true)
                | None => (v, false)
                end)))
    (fun recorded =>
      unless_error (if (recorded : bool) then record EventKindRotateStepDone RotateSendParallelInstruction NoRotateFailReason "" else mret None) k).

Definition settled (state : SupervisorSessionState) : bool :=
  match state with SessionIdle | SessionWorking | SessionAwaitingPermission | SessionAwaitingRecommendation => true | _ => false end.

Definition end_rotation (since : Time) (v : ManagedSession) : ManagedSession :=
  v <| s_Rotation := None |> <| s_PendingRemoteControl := true |> <| s_PendingRemoteControlSince := Some since |>.

Definition complete (alreadyConfirmed : bool) : M (option error) :=
  state ← call Observed;
  if negb (settled state) then mret None
  else
    call RemoteControlLock;;
    err ← updated (fun v =>
              now ← call Now;
              match apply EventRotationDone (no_context <| c_ObservedState := state |>) now v with
              | Err err => mret (Err err)
              | Ok v =>
                  since ← call Now;
                  mret (Ok (end_rotation since v, s_Generation v))
              end)
            (fun generation =>
              call (RegisterGeneration generation);;
              (if has_AutoContinue u then call AutoContinue_Reset else mret tt);;
              unless_error (if alreadyConfirmed then mret None
                            else record EventKindRotateStepDone RotateSendParallelInstruction NoRotateFailReason "")
                (unless_error (record EventKindRotateCompleted NoRotateStep NoRotateFailReason "")
                   (record EventKindRemoteControlPending NoRotateStep NoRotateFailReason "")));
    call RemoteControlUnlock;;
    mret err.

Definition sendParallel (s : ManagedSession) : M (option error) :=
  alive ← call ChildAlive;
  if negb alive then childAbsent s
  else if confirmed SendKindParallelInstruction s then complete true
  else
    state ← call Observed;
    if negb (bool_decide (state = SessionIdle)) then
      r ← rotation s;
      late ← overdue r rotationStepTimeout;
      if (late : bool) then fail RotateSendParallelInstruction RotateFailSendNotConfirmed else mret None
    else
      ready ← resumeReady;
      match ready with
      | Err err => mret (Some err)
      | Ok false => mret None
      | Ok true =>
          '(result, err) ← call (Send SendKindParallelInstruction 0);
          if is_some err || negb (Confirmed result)
          then unsent s RotateSendParallelInstruction (r_SendID result) RotateFailSendNotConfirmed
          else
            unless_error sentAfterResume (
              st ← stopped;
              if (st : bool) then note_stage7 stop else complete false)
      end.

(** *** What is confirmed while the session is stopped *)

Definition confirmWhileStopped (s : ManagedSession) (r : RotationRecord) : M (option error) :=
  match ro_Step r with
  | RotateSendEnd =>
      match ro_EndIssuedAt r with
      | None => mret None
      | Some issuedAt =>
          shot ← inspect;
          state ← call Observed;
          if bool_decide (state = SessionWorking) || checkpoint_newer shot issuedAt then advance RotateSendEnd RotateConfirmHandoff else mret None
      end
  | RotateConfirmHandoff =>
      shot ← inspect;
      if match ro_EndIssuedAt r, ro_CheckpointSnapshot r with
         | Some issuedAt, Some before => CheckpointUpdated before shot issuedAt
         | _, _ => false
         end
      then
        state ← call Observed;
        if rotationIdle state then
          alive ← call ChildAlive;
          if (alive : bool) then advance RotateConfirmHandoff RotateSendExit else mret None
        else mret None
      else mret None
  | RotateSendExit =>
      if (s_ChildPID s =? 0) && confirmed SendKindHandoffExit s then advance RotateSendExit RotateRestart else mret None
  | RotateRestart =>
      if 0 <? s_ChildPID s then
        alive ← call ChildAlive;
        if (alive : bool) then
          state ← call Observed;
          if bool_decide (state = SessionIdle) then advance RotateRestart RotateSendStart else mret None
        else mret None
      else mret None
  | RotateSendStart =>
      if confirmed SendKindSessionStart s then
        state ← call Observed;
        if rotationIdle state then advance RotateSendStart RotateSendParallelInstruction else mret None
      else mret None
  | RotateSendParallelInstruction =>
      if confirmed SendKindParallelInstruction s && negb (ro_Stage7ConfirmedWhileStopped r) then note_stage7 (mret None) else mret None
  | _ => mret None
  end.

(** *** One step of the worker *)

Definition invalid_step (step : SupervisorRotateStep) : error := Errorf "invalid rotation step: %q" [SupervisorRotateStep_string step].

Definition stage (fuel : nat) (s : ManagedSession) (step : SupervisorRotateStep) : M (bool * option error) :=
  match step with
  | RotateSendEnd => sendEnd fuel s
  | RotateConfirmHandoff => confirmHandoff s
  | RotateSendExit => sendExit s
  | RotateRestart => restart s
  | RotateSendStart => sendStart s
  | RotateSendParallelInstruction => stay (sendParallel s)
  | _ => mret (false, Some (invalid_step step))
  end.

Definition stopped_by_operator (s : ManagedSession) : bool :=
  bool_decide (s_State s = SessionStopped) && bool_decide (s_PreviousState s = SessionRotating)
  && (bool_decide (s_StopReason s = StopGlobal) || bool_decide (s_StopReason s = StopSession)).

(** The stages that go on until they have seen what was sent for them. *)
Definition step_stops (r : RotationRecord) : bool :=
  negb (bool_decide (ro_Step r = RotateConfirmHandoff)) && negb (bool_decide (ro_Step r = RotateSendEnd) && is_some (ro_EndIssuedAt r)).

Definition step_rotating (fuel : nat) (s : ManagedSession) (r : RotationRecord) (again : M (option error)) : M (option error) :=
  st ← stopped;
  if (st : bool) && step_stops r then stop
  else
    '(advanced, err) ← stage fuel s (ro_Step r);
    match err with
    | Some _ => mret err
    | None =>
        if negb advanced then mret None
        else
          st ← stopped;
          if (st : bool) then stop else again
    end.

Definition step_once (fuel : nat) (again : M (option error)) : M (option error) :=
  unless_error (call CtxErr) (
    loaded ← call LoadSession;
    match loaded with
    | Err err => mret (Some err)
    | Ok s =>
        match s_Rotation s with
        | None => mret None
        | Some r =>
            if ro_ResumeSpawn r && bool_decide (s_State s = SessionRotating) then
              if negb (has_Respawn u) then mret (Some (Errorf "respawn use case is required" []))
              else
                err ← call (Respawn RespawnHandoffResume);
                match err with
                | Some _ => fail (ro_Step r) RotateFailSpawnFailed
                | None =>
                    updated (fun v => mret (Ok (match s_Rotation v with
                                                | Some r => v <| s_Rotation := Some (r <| ro_ResumeSpawn := false |>) |>
                                                | None => v
                                                end, tt)))
                      (fun _ => again)
                end
            else if stopped_by_operator s then confirmWhileStopped s r
            else if negb (bool_decide (s_State s = SessionRotating)) then mret None
            else step_rotating fuel s r again
        end
    end).

Fixpoint step_loop (fuel : nat) : M (option error) :=
  step_once fuel (match fuel with O => out_of_fuel | S fuel => step_loop fuel end).

Definition Step (fuel : nat) : M (option error) :=
  match validateCore with
  | Some err => mret (Some err)
  | None =>
      call StepLock;;
      err ← (if negb (has_Sessions u) then mret (Some (Errorf "session store is required" [])) else step_loop fuel);
      call StepUnlock;;
      mret err
  end.

(** *** The worker *)

Definition may_rotate (s : ManagedSession) : option error :=
  if is_some (s_Rotation s) || negb (bool_decide (s_State s = SessionIdle)) && negb (bool_decide (s_State s = SessionAwaitingRecommendation))
  then Some (Errorf "rotation start state changed" [])
  else if negb (bool_decide (s_GitPhase s = GitPhaseNone)) && negb (GitPhase_string (s_GitPhase s) =? "")%string
  then Some (Errorf "rotation start blocked by git phase" [])
  else None.

Definition begin_rotation (now : Time) (s : ManagedSession) : res (ManagedSession * bool) :=
  match may_rotate s with
  | Some err => Err err
  | None =>
      s' ← apply EventContextRotate no_context now s;
      Ok (s' <| s_PreviousState := NoSessionState |>
             <| s_Rotation := Some (mkRotation RotateSendEnd now (Some now) None None false false None false false NoRotateFailReason) |>
             <| s_PendingRemoteControl := false |> <| s_PendingRemoteControlSince := None |>, s_PendingRemoteControl s')
  end.

Definition Start (fuel : nat) : M (option error) :=
  match validateCore with
  | Some err => mret (Some err)
  | None =>
      st ← stopped;
      if (st : bool) then mret (Some (Sentinel ErrStopActive))
      else
        now ← call Now;
        updated (fun s => mret (begin_rotation now s)) (fun wasPending =>
          unless_error (if (wasPending : bool) then record EventKindRemoteControlExpired NoRotateStep NoRotateFailReason "" else mret None)
            (Step fuel))
  end.

(** The time at which a stage is looked at again without being woken; [zeroTime]: never. *)
Definition wait_deadline (s : ManagedSession) (r : RotationRecord) : Time :=
  let deadline :=
    match ro_StepStartedAt r with
    | None => zeroTime
    | Some at_ =>
        match ro_Step r with
        | RotateSendEnd =>
            match ro_EndIssuedAt r with
            | Some issuedAt => if ro_ResumeEnd r then zeroTime else issuedAt + SupervisorSendConfirmTimeout
            | None => zeroTime
            end
        | RotateConfirmHandoff | RotateSendStart => at_ + rotationStepTimeout
        | RotateSendParallelInstruction => if confirmed SendKindParallelInstruction s then zeroTime else at_ + rotationStepTimeout
        | RotateRestart => if 0 <? s_ChildPID s then at_ + rotationStartupTimeout else zeroTime
        | _ => zeroTime
        end
    end in
  let deadline := match ro_RespawnWaitUntil r with Some until => until | None => deadline end in
  if ro_ResumeEnd r then zeroTime else deadline.

Definition wait (s : ManagedSession) (r : RotationRecord) : M (option error) :=
  let deadline := wait_deadline s r in
  if IsZero deadline then call (Wait None)
  else
    now ← call Now;
    if negb (After deadline now) then mret None else call (Wait (Some deadline)).

Fixpoint run_loop (fuel : nat) : M (option error) :=
  unless_error (Step fuel) (
    loaded ← call LoadSession;
    match loaded with
    | Err err => mret (Some err)
    | Ok s =>
        match s_Rotation s with
        | None => mret None
        | Some r =>
            if negb (bool_decide (s_State s = SessionRotating)) then mret None
            else unless_error (wait s r) (match fuel with O => out_of_fuel | S fuel => run_loop fuel end)
        end
    end).

Definition while_running (p : M (option error)) : M (option error) :=
  begun ← call BeginRunning;
  if negb begun then mret (Some (Errorf "rotation already running" []))
  else
    err ← p;
    call EndRunning;;
    mret err.

Definition Run (fuel : nat) : M (option error) :=
  match validateCore with
  | Some err => mret (Some err)
  | None => while_running (run_loop fuel)
  end.

(** *** Resumption *)

Definition exit_process_alive (s : ManagedSession) (r : RotationRecord) : bool :=
  bool_decide (ro_FailReason r = RotateFailExitTimeout)
  || match sg_Pending (s_SendGate s) with Some p => bool_decide (ps_Kind p = SendKindHandoffExit) | None => false end
  || match s_LastSend s with Some l => bool_decide (ls_Kind l = SendKindHandoffExit) | None => false end.

(** Another child is to be started before the stage goes on. *)
Definition resume_spawn (s : ManagedSession) (r : RotationRecord) : res RotationRecord :=
  if (s_ClaudeSessionID s =? "")%string && (s_PreviousClaudeSessionID s =? "")%string then Err (Errorf "claude_session_id_missing" [])
  else if negb (has_Respawn u) then Err (Errorf "respawn use case is required" [])
  else Ok (r <| ro_ResumeSpawn := true |>).

Definition prepare_restart (s : ManagedSession) (step : SupervisorRotateStep) (r : RotationRecord) : M (res RotationRecord) :=
  alive ← call ChildAlive;
  if negb alive && (bool_decide (step = RotateSendEnd) || bool_decide (step = RotateConfirmHandoff)) then mret (resume_spawn s r)
  else mret (Ok r).

Definition prepare_end (step : SupervisorRotateStep) (resumedAt : Time) (r : RotationRecord) : M (res RotationRecord) :=
  match ro_EndIssuedAt r with
  | Some issuedAt =>
      if bool_decide (step = RotateSendEnd) then
        updated ← (match ro_CheckpointSnapshot r with
                   | Some before => shot ← inspect; mret (CheckpointUpdated before shot issuedAt)
                   | None => mret false
                   end);
        mret (Ok (if (updated : bool) then Rotation_Advance r RotateConfirmHandoff resumedAt else r <| ro_ResumeEnd := true |>))
      else mret (Ok r)
  | None => mret (Ok r)
  end.

Definition prepare_exit (s : ManagedSession) (step : SupervisorRotateStep) (resumedAt : Time) (r : RotationRecord) : M (res RotationRecord) :=
  if bool_decide (step = RotateSendExit) then
    alive ← call ChildAlive;
    if (alive : bool) then mret (Ok r)
    else if confirmed SendKindHandoffExit s then mret (Ok (Rotation_Advance r RotateRestart resumedAt))
    else mret (resume_spawn s r)
  else mret (Ok r).

Definition PrepareResume (s : ManagedSession) : M (res ManagedSession) :=
  if negb (has_ResumeReady u) then mret (Err (Errorf "rotation resume dependencies are required" []))
  else
    match validateCore with
    | Some err => mret (Err err)
    | None =>
        match s_Rotation s with
        | Some r =>
            if negb (bool_decide (s_State s = SessionRotating)) then mret (Err (Errorf "rotation is not resumed" []))
            else
              let step := ro_Step r in
              alive ← (if bool_decide (step = RotateSendExit) then call ChildAlive else mret false);
              if (alive : bool) && exit_process_alive s r then mret (Err (Errorf "exit_process_alive" []))
              else
                resumedAt ← (if IsZero (s_StateSince s) then call Now else mret (s_StateSince s));
                call DeleteResumeSent;;
                let r := r <| ro_ResumeEnd := false |> <| ro_ResumeSpawn := false |> in
                r ?← prepare_restart s step r;
                r ?← prepare_end step resumedAt r;
                r ?← prepare_exit s step resumedAt r;
                let r := Rotation_Advance r (ro_Step r) resumedAt in
                let r := match ro_RespawnWaitUntil r with
                         | Some _ => r <| ro_RespawnWaitUntil := Some (resumedAt + RestartBackoff (s_RestartCount s)) |>
                         | None => r
                         end in
                mret (Ok (s <| s_Rotation := Some r |> <| s_PreviousState := SessionRotating |>))
        | None => mret (Err (Errorf "rotation is not resumed" []))
        end
    end.

Definition Resume (s : ManagedSession) : M (option error) :=
  st ← stopped;
  if (st : bool) then mret (Some (Sentinel ErrStopActive))
  else
    r ← rotation s;
    let step := ro_Step r in
    updated (fun v =>
        now ← call Now;
        v ?← PrepareResume (v <| s_StateSince := now |>);
        mret (Ok (v, tt)))
      (fun _ =>
        current ← call LoadSession;
        match current with
        | Err err => mret (Some err)
        | Ok current =>
            unless_error (match s_Rotation current with
                          | Some r' => if negb (bool_decide (ro_Step r' = step)) then record EventKindRotateStepDone step NoRotateFailReason ""
                                       else mret None
                          | None => mret None
                          end)
              (record EventKindRotateResumed step NoRotateFailReason "")
        end).

Definition Execute (fuel : nat) (resumeFrom : option SupervisorRotateStep) : M (option error) :=
  while_running (
    unless_error (
      match resumeFrom with
      | None => Start fuel
      | Some step =>
          if negb (has_Sessions u) then mret (Some (Errorf "session store is required" []))
          else
            loaded ← call LoadSession;
            match loaded with
            | Err err => mret (Some err)
            | Ok s =>
                match s_Rotation s with
                | Some r => if bool_decide (ro_Step r = step) then Resume s else mret (Some (Errorf "rotation resume step changed" []))
                | None => mret (Some (Errorf "rotation resume step changed" []))
                end
            end
      end) (run_loop fuel)).
End UseCase.
