(* ===== verification/RotateOk.v ===== *)
(** * What a rotation does, and when

    Over [Rotate]: for every answer of the stores, of the observation and of the sender,
    each change of stage has its evidence, and each message its stage. *)

From S2P Require Import Prelude.
From S2P Require Import Errors.
From S2P Require Import Session.
From S2P Require Import Effects.
From S2P Require Import SendInput.
From S2P Require Import SupEff.
From S2P Require Import Rotate.

Section Proofs.
Context (id : string) (u : RotateSessionUseCase).

(** ** Specification vocabulary *)

(** An event after the history [h0]. *)
Definition after (h0 h : hist) (e : called Eff) : Prop := exists new, h = new ++ h0 /\ e ∈ new.

Definition saw (h0 h : hist) {X : Type} (e : Eff X) (x : X) : Prop := after h0 h (Ev e x).

(** The stop was looked for and not found; it was found. *)
Definition looked (h0 h : hist) : Prop :=
  (has_Stop u = true -> saw h0 h StopState_IsStopped false) /\ (has_IsStopped u = true -> saw h0 h IsStopped false).
Definition stop_seen (h : hist) : Prop := Ev StopState_IsStopped true ∈ h \/ Ev IsStopped true ∈ h.

Definition saw_idle (h0 h : hist) : Prop := exists state, saw h0 h Observed state /\ rotationIdle state = true.

(** A message of a kind was confirmed, by the record [s] or since it was loaded. *)
Definition sent (h0 h : hist) (kind : SupervisorSendKind) : Prop :=
  exists confirm result, saw h0 h (Send kind confirm) (result, None) /\ Confirmed result = true.

Definition next_step (step : SupervisorRotateStep) : option SupervisorRotateStep :=
  match step with
  | RotateSendEnd => Some RotateConfirmHandoff
  | RotateConfirmHandoff => Some RotateSendExit
  | RotateSendExit => Some RotateRestart
  | RotateRestart => Some RotateSendStart
  | RotateSendStart => Some RotateSendParallelInstruction
  | _ => None
  end.

(** What completes a stage of the record [s], seen since it was loaded in [h0]. *)
Definition evidence (done : SupervisorRotateStep) (s : ManagedSession) (r : RotationRecord) (h0 h : hist) : Prop :=
  match done with
  | RotateSendEnd =>
      exists issuedAt, ro_EndIssuedAt r = Some issuedAt
      /\ (saw h0 h Observed SessionWorking \/ exists shot, saw h0 h Inspect (Ok shot) /\ checkpoint_newer shot issuedAt = true)
  | RotateConfirmHandoff =>
      exists issuedAt before shot, ro_EndIssuedAt r = Some issuedAt /\ ro_CheckpointSnapshot r = Some before
      /\ saw h0 h Inspect (Ok shot) /\ CheckpointUpdated before shot issuedAt = true
      /\ saw_idle h0 h /\ saw h0 h ChildAlive true
  | RotateSendExit =>
      (s_ChildPID s = 0 /\ confirmed SendKindHandoffExit s = true)
      \/ sent h0 h SendKindHandoffExit
      \/ (** the child died of it before that could be confirmed *)
         exists confirm result err v l, saw h0 h (Send SendKindHandoffExit confirm) (result, err) /\ saw h0 h ChildAlive false
         /\ saw h0 h LoadSession (Ok v) /\ s_LastSend v = Some l /\ ls_SendID l = r_SendID result /\ ls_SendID l <> ""%string
         /\ ls_Kind l = SendKindHandoffExit
  | RotateRestart => s_ChildPID s <> 0 /\ saw h0 h ChildAlive true /\ saw h0 h Observed SessionIdle
  | RotateSendStart => (confirmed SendKindSessionStart s = true \/ sent h0 h SendKindSessionStart) /\ saw_idle h0 h
  | _ => False
  end.

Definition rotating_at (s : ManagedSession) (r : RotationRecord) (step : SupervisorRotateStep) : Prop :=
  s_State s = SessionRotating /\ s_Rotation s = Some r /\ ro_Step r = step.

Definition step_of (s : ManagedSession) : option SupervisorRotateStep := option_map ro_Step (s_Rotation s).

(** The request to end was sent before the record was loaded, which is looked at again right after. *)
Definition end_sent (h : hist) : Prop := exists confirm result, Ev (Send SendKindHandoffEnd confirm) result ∈ h.

Definition at_stage (s : ManagedSession) (r : RotationRecord) (older : hist) (step : SupervisorRotateStep) : Prop :=
  (ro_Step r = step /\ (s_State s = SessionRotating \/ stopped_by_operator s = true)) \/ (step = RotateSendEnd /\ end_sent older).

(** A resumption finds that the stage is complete. *)
Definition resumed_on (v : ManagedSession) (r r' : RotationRecord) (h : hist) : Prop :=
  (ro_Step r = RotateSendEnd /\ ro_Step r' = RotateConfirmHandoff /\ exists before shot issuedAt, ro_CheckpointSnapshot r = Some before
     /\ ro_EndIssuedAt r = Some issuedAt /\ Ev Inspect (Ok shot) ∈ h /\ CheckpointUpdated before shot issuedAt = true)
  \/ (ro_Step r = RotateSendExit /\ ro_Step r' = RotateRestart /\ confirmed SendKindHandoffExit v = true /\ Ev ChildAlive false ∈ h).

(** How the record [v], loaded under its lock, may be saved as [v'] after [h]. *)
Inductive written (v v' : ManagedSession) (h : hist) : Prop :=
| written_kept : s_State v' = s_State v -> step_of v' = step_of v -> written v v' h
| written_advanced s older r r0 done next now (h0 := Ev LoadSession (Ok s) :: older) :
    h0 `suffix_of` h -> s_Rotation s = Some r -> at_stage s r older done ->
    next_step done = Some next -> evidence done s r h0 h ->
    s_Rotation v = Some r0 -> v' = v <| s_Rotation := Some (Rotation_Advance r0 next now) |> -> written v v' h
| written_spawned s older r r0 now (h0 := Ev LoadSession (Ok s) :: older) :
    h0 `suffix_of` h -> rotating_at s r RotateRestart -> saw h0 h (Respawn RespawnHandoffStage5) None ->
    s_State v = SessionRotating -> s_Rotation v = Some r0 ->
    v' = v <| s_Rotation := Some (Rotation_Advance r0 RotateRestart now <| ro_Stage5Started := true |> <| ro_RespawnWaitUntil := None |>) |> ->
    written v v' h
| written_respawning s older r r0 now at_ at' (h0 := Ev LoadSession (Ok s) :: older) :
    (** the child is gone, in a stage after its exit, and may be started once more *)
    h0 `suffix_of` h -> s_Rotation s = Some r -> ro_Step r <> RotateSendEnd -> ro_Step r <> RotateConfirmHandoff ->
    s_ChildPID s = 0 \/ Ev ChildAlive false ∈ h ->
    saw h0 h Now now -> RestartLimitReason (s_RestartCount s) (s_RestartTimes s) now = NoStopReason ->
    s_Rotation v = Some r0 -> v' = respawn_later at_ (at' + RestartBackoff (s_RestartCount v)) v r0 -> written v v' h
| written_failed r' :
    s_State v = SessionRotating -> s_State v' = SessionStopped -> s_StopReason v' = StopRotateStepFailed ->
    s_Rotation v' = Some r' -> ro_FailReason r' <> NoRotateFailReason -> written v v' h
| written_stopped :
    stop_seen h -> s_State v = SessionRotating -> s_State v' = SessionStopped -> s_Rotation v' = s_Rotation v -> written v v' h
| written_completed s older r (h0 := Ev LoadSession (Ok s) :: older) :
    h0 `suffix_of` h -> rotating_at s r RotateSendParallelInstruction ->
    confirmed SendKindParallelInstruction s = true \/ sent h0 h SendKindParallelInstruction -> looked h0 h -> saw h0 h ChildAlive true ->
    s_State v = SessionRotating -> settled (s_State v') = true -> s_Rotation v' = None -> s_PendingRemoteControl v' = true -> written v v' h
| written_started :
    looked [] h -> may_rotate v = None -> s_State v' = SessionRotating -> step_of v' = Some RotateSendEnd -> written v v' h
| written_resumed r r' :
    s_State v = SessionRotating -> s_State v' = SessionRotating -> s_Rotation v = Some r -> s_Rotation v' = Some r' -> resumed_on v r r' h ->
    written v v' h.

Definition is_send (e : called Eff) : bool :=
  match e with Ev e _ => match e with Send _ _ | Respawn _ => true | _ => false end end.

(** What has to be so when a message is sent, with the record [s] loaded in [h0]. *)
Definition may_send (kind : SupervisorSendKind) (s : ManagedSession) (r : RotationRecord) (h0 h : hist) : Prop :=
  saw h0 h ChildAlive true
  /\ match kind with
     | SendKindHandoffEnd =>
         (ro_EndIssuedAt r = None \/ ro_ResumeEnd r = true) /\ s_Rotation s = Some r
         /\ (rotating_at s r RotateSendEnd \/ end_sent h0)
     | SendKindHandoffExit => rotating_at s r RotateSendExit /\ looked h0 h
     | SendKindSessionStart =>
         rotating_at s r RotateSendStart /\ looked h0 h /\ confirmed SendKindSessionStart s = false /\ saw h0 h Observed SessionIdle
     | SendKindParallelInstruction =>
         rotating_at s r RotateSendParallelInstruction /\ looked h0 h /\ confirmed SendKindParallelInstruction s = false
         /\ saw h0 h Observed SessionIdle
     | _ => False
     end.

Definition may_respawn (kind : RespawnKind) (s : ManagedSession) (r : RotationRecord) (h0 h : hist) : Prop :=
  match kind with
  | RespawnHandoffStage5 =>
      rotating_at s r RotateRestart /\ looked h0 h /\ s_ChildPID s = 0 /\ ro_Stage5Started r = false
      /\ forall until, ro_RespawnWaitUntil r = Some until -> exists now, saw h0 h Now now /\ until <= now
  | RespawnHandoffResume => s_State s = SessionRotating /\ s_Rotation s = Some r /\ ro_ResumeSpawn r = true
  | _ => False
  end.

(** The record of the rotation was there and is gone, by another hand. *)
Definition keeps_rotation (e : called Eff) : Prop :=
  match e with Ev e _ => match e with SaveSession s => is_some (s_Rotation s) = true | _ => True end end.
Definition taken_away (h : hist) : Prop :=
  exists v new s mid older, h = new ++ Ev LoadSession (Ok v) :: mid ++ Ev LoadSession (Ok s) :: older
  /\ s_Rotation v = None /\ is_some (s_Rotation s) = true /\ Forall keeps_rotation mid.

Definition orderly (e : called Eff) (h : hist) : Prop :=
  match e with
  | Ev e _ =>
      match e with
      | SaveSession v' => exists v, last_loaded h = Some v /\ written v v' h
      | Send kind _ =>
          exists s r new older (h0 := Ev LoadSession (Ok s) :: older),
            h = new ++ h0 /\ forallb (fun e => negb (is_send e)) new = true /\ may_send kind s r h0 h
      | Respawn kind =>
          exists s r new older (h0 := Ev LoadSession (Ok s) :: older),
            h = new ++ h0 /\ forallb (fun e => negb (is_send e)) new = true /\ may_respawn kind s r h0 h
      | Panic => taken_away h
      | _ => True
      end
  end.

(** ** Lemmas *)

Definition calm (e : called Eff) : Prop :=
  match e with Ev e _ => match e with SaveSession _ | Send _ _ | Respawn _ | Panic => False | _ => True end end.
Definition inside (e : called Eff) : Prop :=
  match e with Ev e _ => match e with SaveSession _ | Send _ _ | Respawn _ | Panic | LoadSession => False | _ => True end end.
Definition quiet (e : called Eff) : Prop := is_send e = false /\ keeps_rotation e.
Definition only_saves (v' : ManagedSession) (e : called Eff) : Prop :=
  match e with Ev e _ => match e with SaveSession s => s = v' | Send _ _ | Respawn _ | Panic => False | _ => True end end.

Abbreviation calms p := (emits record_ev calm p).
Abbreviation steady p h := (always record_ev orderly p h).

Lemma calm_orderly_rotation e h : calm e -> orderly e h.
Proof. destruct e as [X e x]. by destruct e. Qed.
Lemma calm_is_quiet e : calm e -> quiet e.
Proof. destruct e as [X e x]. by destruct e. Qed.
Lemma quiet_keeps e : quiet e -> keeps_rotation e.
Proof. by intros []. Qed.
Lemma inside_calm e : inside e -> calm e.
Proof. destruct e as [X e x]. by destruct e. Qed.
Lemma record_io_calm e : record_io e -> calm e.
Proof. destruct e as [X e x]. by destruct e. Qed.
Lemma only_saves_quiet v' e : is_some (s_Rotation v') = true -> only_saves v' e -> quiet e.
Proof. intros Hv. destruct e as [X e x]. destruct e; try done. by intros ->. Qed.

(** *** What has been seen stays seen *)

Lemma after_later h0 h h' e : h `suffix_of` h' -> after h0 h e -> after h0 h' e.
Proof. intros [new ->] (mid & -> & H). exists (new ++ mid). split; [by rewrite app_assoc|set_solver]. Qed.
Lemma after_earlier h0 h1 h e : h0 `suffix_of` h1 -> after h1 h e -> after h0 h e.
Proof. intros [mid ->] (new & -> & H). exists (new ++ mid). split; [by rewrite app_assoc|set_solver]. Qed.
Lemma after_here h0 h e : h0 `suffix_of` h -> after h0 (e :: h) e.
Proof. intros [new ->]. exists (e :: new). split; [done|set_solver]. Qed.
Lemma after_in h0 h e : after h0 h e -> e ∈ h.
Proof. intros (new & -> & H). set_solver. Qed.
Lemma looked_later h0 h h' : h `suffix_of` h' -> looked h0 h -> looked h0 h'.
Proof. intros Hs [H1 H2]. split; intros H; apply (after_later h0 h); [done|by apply H1|done|by apply H2]. Qed.
Lemma stop_seen_later h h' : h `suffix_of` h' -> stop_seen h -> stop_seen h'.
Proof. intros Hs [H|H]; [left|right]; by eapply in_later. Qed.
Lemma saw_idle_later h0 h h' : h `suffix_of` h' -> saw_idle h0 h -> saw_idle h0 h'.
Proof. intros Hs (state & H & Hi). exists state. split; [by eapply after_later|done]. Qed.
Lemma sent_later h0 h h' kind : h `suffix_of` h' -> sent h0 h kind -> sent h0 h' kind.
Proof. intros Hs (c & result & H & Hc). exists c, result. split; [by eapply after_later|done]. Qed.

Lemma evidence_later done s r h0 h h' : h `suffix_of` h' -> evidence done s r h0 h -> evidence done s r h0 h'.
Proof.
  intros Hs. assert (forall X (e : Eff X) x, saw h0 h e x -> saw h0 h' e x) as Hl by (intros; by eapply after_later).
  destruct done; cbn; try done.
  - intros (at_ & E & [H|(shot & H & H')]); exists at_; (split; [done|]); [left; by apply Hl|right; exists shot; split; [by apply Hl|done]].
  - intros (at_ & b & shot & E1 & E2 & H1 & H2 & H3 & H4). exists at_, b, shot. split_and!; try done; try by apply Hl. by eapply saw_idle_later.
  - intros [H|[H|(c & re & er & v & l & H1 & H2 & H3 & H4)]]; [by left|right; left; by eapply sent_later|].
    right; right. exists c, re, er, v, l. split_and!; try apply H4; by apply Hl.
  - intros (H1 & H2 & H3). split_and!; [done|by apply Hl..].
  - intros [[H|H] H']; (split; [|by eapply saw_idle_later]); [by left|right; by eapply sent_later].
Qed.

Lemma resumed_on_later v r r' h h' : h `suffix_of` h' -> resumed_on v r r' h -> resumed_on v r r' h'.
Proof.
  intros Hs [(E1 & E2 & b & shot & at_ & H3 & H4 & H5 & H6)|(E1 & E2 & E3 & H3)].
  - left. split_and!; try done. exists b, shot, at_. split_and!; try done. by eapply in_later.
  - right. split_and!; try done. by eapply in_later.
Qed.

Lemma written_later v v' h h' : h `suffix_of` h' -> written v v' h -> written v v' h'.
Proof.
  intros Hs Hw. destruct Hw.
  - by apply written_kept.
  - eapply (written_advanced _ _ _ s older r r0 done next now); try done; [exact (transitivity H Hs)|by eapply evidence_later].
  - eapply (written_spawned _ _ _ s older r r0 now); try done; [exact (transitivity H Hs)|by eapply after_later].
  - eapply (written_respawning _ _ _ s older r r0 now); try done; [exact (transitivity H Hs)| |by eapply after_later].
    destruct H3 as [H3|H3]; [by left|right; by eapply in_later].
  - by eapply (written_failed _ _ _ r').
  - eapply written_stopped; try done. by eapply stop_seen_later.
  - eapply (written_completed _ _ _ s older r); try done; [exact (transitivity H Hs)| |by eapply looked_later|by eapply after_later].
    destruct H1 as [H1|H1]; [by left|right; by eapply sent_later].
  - eapply written_started; try done. by eapply looked_later.
  - eapply (written_resumed _ _ _ r r'); try done. by eapply resumed_on_later.
Qed.

Lemma last_loaded_inside h h' : ext inside h h' -> last_loaded h' = last_loaded h.
Proof. intros (new & -> & H). induction H as [|[X e x] new He Hn IH]; [done|]. by destruct e. Qed.

Ltac ext_here := first [apply ext_refl | apply ext_cons; [done|ext_here]].

(** *** Steady programs *)

Lemma steady_bind {A B : Type} (p : M A) (k : A -> M B) h : steady p h -> (forall h' a, steady (k a) h') -> steady (p ≫= k) h.
Proof. intros Hp Hk. apply wpi_bind. eapply wpi_mono; [exact Hp|]. intros h' a _. apply Hk. Qed.

Lemma steady_part {A B : Type} (p : M A) (k : A -> M B) h :
  calms p -> (forall h' a, ext calm h h' -> ran record_ev p h h' a -> steady (k a) h') -> steady (p ≫= k) h.
Proof.
  intros Hp Hk. apply wpi_bind. apply (wpi_emits record_ev orderly calm); [apply calm_orderly_rotation|done|].
  intros new a Hn Hr. apply Hk; [by exists new|done].
Qed.

Lemma steady_end {A : Type} (p : M A) h : calms p -> steady p h.
Proof. intros Hp. by apply (wpi_emits record_ev orderly calm); [apply calm_orderly_rotation|..]. Qed.

Lemma steady_call {X A : Type} (e : Eff X) (k : X -> M A) h :
  (forall x, orderly (Ev e x) h) -> (forall x, steady (k x) (Ev e x :: h)) -> steady (call e ≫= k) h.
Proof. intros He Hk. apply wpi_call. intros x. split; [apply He|apply Hk]. Qed.

Lemma stopped_wpi h Q :
  (forall h', ext calm h h' -> stop_seen h' -> Q h' true) -> (forall h', ext calm h h' -> (forall h0, h0 `suffix_of` h -> looked h0 h') -> Q h' false) ->
  wpi record_ev orderly (stopped u) h Q.
Proof.
  intros Ht Hf. unfold stopped, looked in *.
  assert (forall h1, ext calm h h1 -> (has_Stop u = true -> forall h0, h0 `suffix_of` h -> saw h0 h1 StopState_IsStopped false) ->
    wpi record_ev orderly (if has_IsStopped u then call IsStopped else mret false) h1 Q) as Hsecond.
  { intros h1 He H1. destruct (has_IsStopped u) eqn:E2.
    - intros [|]; (split; [done|]); [apply Ht; [by apply ext_cons|right; left]|apply Hf; [by apply ext_cons|]].
      intros h0 H0. split; intros E.
      + apply (after_later h0 h1); [by apply suffix_cons_r|by apply H1].
      + apply after_here. etrans; [exact H0|]. by eapply ext_suffix.
    - apply Hf; [done|]. intros h0 H0. split; [|done]. intros E. by apply H1. }
  destruct (has_Stop u) eqn:E1.
  - apply wpi_call. intros [|]; (split; [done|]); [apply Ht; [by apply ext_cons, ext_refl|left; left]|].
    apply Hsecond; [by apply ext_cons, ext_refl|]. intros _ h0 H0. by apply after_here.
  - apply Hsecond; [apply ext_refl|done].
Qed.

Lemma steady_stopped {A : Type} (k : bool -> M A) h :
  (forall h', ext calm h h' -> stop_seen h' -> steady (k true) h') ->
  (forall h', ext calm h h' -> (forall h0, h0 `suffix_of` h -> looked h0 h') -> steady (k false) h') -> steady (stopped u ≫= k) h.
Proof. intros Ht Hf. apply wpi_bind. by apply stopped_wpi. Qed.

(** The update has loaded the record [v]. *)
Definition loaded_in (h h' : hist) (v : ManagedSession) : Prop :=
  exists new mid, h' = new ++ Ev LoadSession (Ok v) :: mid ++ h /\ Forall calm mid.

Lemma loaded_in_after h h' v : loaded_in h h' v -> after h h' (Ev LoadSession (Ok v)).
Proof. intros (new & mid & -> & _). exists (new ++ Ev LoadSession (Ok v) :: mid). split; [by rewrite <- app_assoc|set_solver]. Qed.
Lemma loaded_in_cons h h' v e : loaded_in h h' v -> loaded_in h (e :: h') v.
Proof. intros (new & mid & -> & H). by exists (e :: new), mid. Qed.

Lemma steady_updated {A B : Type} (failed : error -> B) (update : ManagedSession -> M (res (ManagedSession * A))) (k : A -> M B) h :
  (forall v before, let h1 := Ev (Marshal v) (Ok before) :: Ev LoadSession (Ok v) :: Ev LockRecord tt :: h in
    wpi record_ev orderly (update v) h1 (fun h' r => ext inside h1 h' /\
      match r with
      | Ok (v', a) => written v v' h' /\ forall h2, ext (only_saves v') h h2 -> loaded_in h h2 v -> steady (k a) h2
      | Err _ => True
      end)) ->
  steady (updated_or failed update k) h.
Proof.
  intros Hup. apply wpi_bind. apply UpdateSession_wpi.
  - intros e h' He. by apply calm_orderly_rotation, record_io_calm.
  - done.
  - intros v before. eapply wpi_mono; [apply Hup|]. intros h' [[v' a]|err] [Hin Hr]; [|done]. destruct Hr as [Hw Hk].
    assert (ext (only_saves v') h h') as He.
    { eapply ext_trans; [|eapply ext_mono; [|exact Hin]].
      - by repeat apply ext_cons; [..|apply ext_refl].
      - intros [X e x]. by destruct e. }
    assert (loaded_in h h' v) as Hl.
    { destruct Hin as (new & -> & _). exists (new ++ [Ev (Marshal v) (Ok before)]), [Ev LockRecord tt].
      split; [by rewrite <- app_assoc|by repeat constructor]. }
    assert (forall e1 e2 e3 : called Eff, only_saves v' e1 -> only_saves v' e2 -> only_saves v' e3 ->
      steady (k a) (e1 :: e2 :: h') /\ steady (k a) (e1 :: e2 :: e3 :: h')) as Hk'.
    { intros e1 e2 e3 H1 H2 H3. split; apply Hk; try (by repeat apply ext_cons); by repeat apply loaded_in_cons. }
    split_and!; [done|by apply (Hk' _ _ (Ev LockRecord tt))|]. intros after err. split.
    + exists v. split; [|by eapply written_later; [apply suffix_cons_r; reflexivity|]].
      cbn. by rewrite (last_loaded_inside _ _ Hin).
    + destruct err; [done|]. by apply Hk'.
Qed.

(** *** The changes *)

Lemma rotation_wpi {A : Type} v (f : RotationRecord -> M A) h Q :
  (s_Rotation v = None -> taken_away h) -> (forall r, s_Rotation v = Some r -> wpi record_ev orderly (f r) h Q) ->
  wpi record_ev orderly (rotation v ≫= f) h Q.
Proof.
  intros Hn Hs. unfold rotation. destruct (s_Rotation v) as [r|] eqn:E; [by apply Hs|].
  apply wpi_bind. apply wpi_call. intros []. split; [by apply Hn|]. by intros [].
Qed.

(** The record [s], loaded in [older], and the rotation [r] it holds. *)
Definition based (s : ManagedSession) (r : RotationRecord) (older h : hist) : Prop :=
  s_Rotation s = Some r /\ Ev LoadSession (Ok s) :: older `suffix_of` h /\ (ext keeps_rotation (Ev LoadSession (Ok s) :: older) h \/ taken_away h).

Lemma taken_later h h' : h `suffix_of` h' -> taken_away h -> taken_away h'.
Proof. intros [n ->] (v & new & s & mid & older & -> & H). exists v, (n ++ new), s, mid, older. split; [by rewrite <- app_assoc|done]. Qed.

Lemma based_suffix s r older h : based s r older h -> Ev LoadSession (Ok s) :: older `suffix_of` h.
Proof. by intros (_ & H & _). Qed.

Lemma based_ext s r older h h' : ext keeps_rotation h h' -> based s r older h -> based s r older h'.
Proof.
  intros He (Hr & Hs & H). assert (h `suffix_of` h') as Hs' by (by eapply ext_suffix). split; [done|]. split; [by etrans|].
  destruct H as [H|H]; [left; by eapply ext_trans|right; by eapply taken_later].
Qed.
Lemma based_calm s r older h h' : ext calm h h' -> based s r older h -> based s r older h'.
Proof. intros He. apply based_ext. eapply ext_mono; [|exact He]. intros e Hc. by apply quiet_keeps, calm_is_quiet. Qed.
Lemma based_cons s r older e h : keeps_rotation e -> based s r older h -> based s r older (e :: h).
Proof. intros He. apply based_ext. by apply ext_cons, ext_refl. Qed.

Lemma calm_keeps mid : Forall calm mid -> Forall keeps_rotation mid.
Proof. intros H. induction H as [|e mid He H IH]; constructor; [by apply quiet_keeps, calm_is_quiet|done]. Qed.

Lemma lost_at s r older v h new mid :
  based s r older h -> Forall calm mid -> s_Rotation v = None -> taken_away (new ++ Ev LoadSession (Ok v) :: mid ++ h).
Proof.
  intros (Hr & _ & [(m & -> & Hm)|H]) Hmid Hv.
  - exists v, new, s, (mid ++ m), older. split_and!; [by rewrite <- app_assoc|done|by rewrite Hr|]. apply list.Forall_app. split; [by apply calm_keeps|done].
  - eapply taken_later; [|exact H]. exists (new ++ Ev LoadSession (Ok v) :: mid). by rewrite <- app_assoc.
Qed.

Lemma lost s r older v before h h' :
  based s r older h -> ext inside (Ev (Marshal v) (Ok before) :: Ev LoadSession (Ok v) :: Ev LockRecord tt :: h) h' -> s_Rotation v = None -> taken_away h'.
Proof.
  intros Hb (new & -> & _) Hv. pose proof (lost_at s r older v h (new ++ [Ev (Marshal v) (Ok before)]) [Ev LockRecord tt] Hb) as H.
  rewrite <- app_assoc in H. apply H; [by repeat constructor|done].
Qed.

Lemma based_saved s r older v v' h h' :
  (s_Rotation v' = None -> s_Rotation v = None) -> ext (only_saves v') h h' -> loaded_in h h' v -> based s r older h -> based s r older h'.
Proof.
  intros Hv He (new & mid & -> & Hm) Hb. destruct (s_Rotation v) as [rv|] eqn:E.
  - eapply based_ext; [|exact Hb]. eapply ext_mono; [|exact He]. intros e Ho. eapply quiet_keeps, only_saves_quiet; [|exact Ho].
    destruct (s_Rotation v'); [done|]. by discriminate Hv.
  - pose proof (lost_at s r older v h new mid Hb Hm E) as Ht. destruct Hb as (Hr & Hs & _). split; [done|]. split; [|by right].
    etrans; [exact Hs|by eapply ext_suffix].
Qed.

Create HintDb rotate_db.
Ltac rotate_step :=
  match goal with
  | |- emits _ _ (mret _) => exact I
  | |- emits _ _ (Ret _) => exact I
  | |- emits _ _ (call _) => apply emits_call; intros; exact I
  | |- emits _ _ (try_bind _ _) => unfold try_bind
  | |- emits _ _ (unless_error _ _) => unfold unless_error
  | |- emits _ _ (mbind _ _) => apply emits_bind; [|intros]
  | |- emits _ _ (prog_mbind _ _ _ _) => apply emits_bind; [|intros]
  | |- emits _ _ (if ?b then _ else _) => destruct b
  | |- emits _ _ (match ?x with _ => _ end) => destruct x
  | |- _ => solve [eauto with rotate_db]
  end.
Ltac rotate_solve := cbn zeta; repeat rotate_step.

Lemma record_calm kind step reason code : calms (Rotate.record u kind step reason code).
Proof. unfold Rotate.record. rotate_solve. Qed.
Lemma inspect_calm : calms inspect.
Proof. unfold inspect. rotate_solve. Qed.
Lemma resumeReady_calm : calms (resumeReady u).
Proof. unfold resumeReady. rotate_solve. Qed.
Lemma sentAfterResume_calm : calms sentAfterResume.
Proof. unfold sentAfterResume. rotate_solve. Qed.
Lemma overdue_calm r timeout : calms (overdue r timeout).
Proof. unfold overdue. rotate_solve. Qed.
#[local] Hint Resolve record_calm inspect_calm resumeReady_calm sentAfterResume_calm overdue_calm : rotate_db.

(** A change of the record whose time is taken first. *)
Lemma steady_change {A : Type} s r older h (f : Time -> ManagedSession -> RotationRecord -> res (ManagedSession * A)) (k : A -> M (option error)) :
  based s r older h ->
  (forall now v r0 v' a h', s_Rotation v = Some r0 -> f now v r0 = Ok (v', a) -> h `suffix_of` h' -> written v v' h') ->
  (forall now v r0 v' a h', s_Rotation v = Some r0 -> f now v r0 = Ok (v', a) -> ext (only_saves v') h h' -> loaded_in h h' v -> steady (k a) h') ->
  steady (updated (fun v => now ← call Now; r ← rotation v; mret (f now v r)) k) h.
Proof.
  intros Hb Hw Hk. apply steady_updated. intros v before h1. apply wpi_call. intros now. split; [done|].
  apply rotation_wpi; [intros Hv; eapply (lost s r older v before h); [done| |done]; by apply ext_cons, ext_refl|].
  intros r0 Hr0. split; [by apply ext_cons, ext_refl|]. destruct (f now v r0) as [[v' a]|err] eqn:E; [|done]. split.
  - eapply Hw; [done..|]. unfold h1. by repeat apply suffix_cons_r.
  - intros h2 Hs Ha. by eapply Hk.
Qed.

Lemma steady_advance s r older h done next :
  based s r older h -> at_stage s r older done -> next_step done = Some next ->
  evidence done s r (Ev LoadSession (Ok s) :: older) h -> steady (advance u done next) h.
Proof.
  intros Hb Hst Hn He. apply (steady_change s r older h (fun now v r => Ok (v <| s_Rotation := Some (Rotation_Advance r next now) |>, tt))); [done| |].
  - intros now v r0 v' a h' Hr0 [= <- _] Hs. eapply (written_advanced _ _ _ s older r r0 done next now); try done.
    + etrans; [by eapply based_suffix|done].
    + apply Hb.
    + by eapply evidence_later.
  - intros. apply steady_end, record_calm.
Qed.

Lemma apply_failed now v v' :
  apply EventRotationFailed no_context now v = Ok v' ->
  s_State v = SessionRotating /\ s_State v' = SessionStopped /\ s_StopReason v' = StopRotateStepFailed /\ s_Rotation v' = s_Rotation v.
Proof. unfold apply. destruct v as [? ? ? ? ? ? st]. destruct st; try done. cbn. by intros [= <-]. Qed.

Lemma steady_fail s r older h step reason :
  based s r older h -> reason <> NoRotateFailReason -> steady (fail id u step reason) h.
Proof.
  intros Hb Hreason. unfold fail. apply steady_updated. intros v before h1.
  apply rotation_wpi; [intros Hv; eapply (lost s r older v before h); [done|apply ext_refl|done]|]. intros r0 Hr0. cbn zeta.
  apply wpi_call. intros now. split; [done|]. split; [by apply ext_cons, ext_refl|].
  destruct (apply _ _ _ _) as [v'|err] eqn:E; cbn; [|done]. apply apply_failed in E as (E1 & E2 & E3 & E4). split.
  - by eapply (written_failed v v' _ _ E1 E2 E3 E4).
  - intros h2 Hs _. apply steady_end. rotate_solve.
Qed.

Lemma apply_stop now v v' (global : bool) :
  apply EventStop (no_context <| c_StopReason := if global then StopGlobal else StopSession |>) now v = Ok v' ->
  s_State v = SessionRotating -> s_State v' = SessionStopped /\ s_Rotation v' = s_Rotation v.
Proof. unfold apply. destruct v as [? ? ? ? ? ? st]. cbn [s_State]. intros H ->. revert H. destruct global; by intros [= <-]. Qed.

Lemma steady_stop h : stop_seen h -> steady (stop u) h.
Proof.
  intros Hst. unfold stop. apply steady_updated. intros v before h1. cbn zeta.
  destruct (bool_decide_reflect (s_State v = SessionRotating)) as [Ev|Ev]; cbn [negb].
  2:{ split; [apply ext_refl|]. split; [by apply written_kept|]. intros. by apply steady_end. }
  assert (h `suffix_of` h1) as Hs1 by (by repeat apply suffix_cons_r).
  assert (forall global h', ext inside h1 h' -> wpi record_ev orderly (now ← call Now; mret (s ← apply EventStop (no_context <| c_StopReason := if (global : bool) then StopGlobal else StopSession |>) now v; Ok (s, tt)))
    h' (fun h' r => ext inside h1 h' /\ match r with
      | Ok (v', a) => written v v' h' /\ forall h2, ext (only_saves v') h h2 -> loaded_in h h2 v -> steady (mret None : M (option error)) h2
      | Err _ => True end)) as Hrest.
  { intros global h' He. apply wpi_call. intros now. split; [done|]. split; [by apply ext_cons|].
    destruct (apply _ _ _ _) as [v'|err] eqn:E; cbn; [|done]. apply apply_stop in E as [E1 E2]; [|done]. split; [|done].
    apply written_stopped; try done. eapply stop_seen_later; [|exact Hst]. apply suffix_cons_r. etrans; [exact Hs1|by eapply ext_suffix]. }
  destruct (has_Stop u); [|by apply (Hrest false), ext_refl]. apply wpi_call. intros global. split; [done|]. apply Hrest. by apply ext_cons, ext_refl.
Qed.

Lemma steady_childAbsent s r older h :
  based s r older h -> s_ChildPID s = 0 \/ Ev ChildAlive false ∈ h -> steady (childAbsent id u s) h.
Proof.
  intros Hb Hgone. unfold childAbsent. apply rotation_wpi; [intros E; by rewrite (proj1 Hb) in E|]. intros r' Hr'.
  assert (r' = r) as -> by (destruct Hb; congruence).
  destruct (bool_decide_reflect (ro_Step r = RotateSendEnd)) as [E1|E1]; [by eapply steady_fail|].
  destruct (bool_decide_reflect (ro_Step r = RotateConfirmHandoff)) as [E2|E2]; [by eapply steady_fail|]. cbn [orb].
  apply steady_call; [done|]. intros now. assert (based s r older (Ev Now now :: h)) as Hb' by (by apply based_cons).
  destruct (bool_decide_reflect (RestartLimitReason (s_RestartCount s) (s_RestartTimes s) now = NoStopReason)) as [E3|E3]; cbn [negb]; [|by eapply steady_fail].
  apply steady_updated. intros v before h1. apply wpi_call. intros at'. split; [done|]. cbn zeta. apply wpi_call. intros at_. split; [done|].
  apply rotation_wpi; [intros Hv; eapply (lost s r older v before _); [exact Hb'|ext_here|done]|].
  intros r0 Hr0. split; [ext_here|]. split; [|done].
  assert (Ev Now now :: h `suffix_of` Ev Now at_ :: Ev Now at' :: h1) as Hs by (by do 5 apply suffix_cons_r).
  eapply (written_respawning _ _ _ s older r r0 now at_ at'); try done.
  - etrans; [by eapply based_suffix|done].
  - destruct Hgone as [H|H]; [by left|right]. eapply in_later; [exact Hs|]. by right.
  - eapply after_later; [exact Hs|]. apply after_here. by eapply based_suffix.
Qed.

Lemma steady_deadDuringSend s r older h step sendID :
  based s r older h -> saw (Ev LoadSession (Ok s) :: older) h ChildAlive false ->
  (step = RotateSendExit -> rotating_at s r step /\ exists confirm result err,
     saw (Ev LoadSession (Ok s) :: older) h (Send SendKindHandoffExit confirm) (result, err) /\ r_SendID result = sendID) ->
  steady (deadDuringSend id u s step sendID) h.
Proof.
  intros Hb Hgone Hex. unfold deadDuringSend. apply steady_updated. intros v before h1. split; [apply ext_refl|].
  split; [by apply written_kept|]. intros h2 Hs Hl.
  assert (based s r older h2) as Hb2 by (by eapply (based_saved s r older v); [|exact Hs|exact Hl|exact Hb]).
  assert (h `suffix_of` h2) as Hsuf by (by eapply ext_suffix).
  destruct (bool_decide_reflect (step = RotateSendExit)) as [->|Hne].
  - destruct (_ && _) eqn:Ecr; [|by eapply steady_fail]. destruct Hex as ((A1 & A2 & A3) & confirm & result & err & Hsent & <-); [done|].
    apply andb_true_iff in Ecr as [Hid%negb_true_iff%String.eqb_neq Hlast]. destruct (s_LastSend v) as [l|] eqn:El; [|done].
    apply andb_true_iff in Hlast as [H1%String.eqb_eq H2%bool_decide_eq_true]. eapply (steady_advance s r older); try done; [by left; split; [|left]|].
    right; right. exists confirm, result, err, v, l. split_and!; try done; [by eapply after_later|by eapply after_later| |by rewrite H1].
    eapply after_earlier; [|by apply loaded_in_after]. by eapply based_suffix.
  - apply steady_call; [done|]. intros [current|err]; [|done].
    destruct (s_Rotation current) as [rc|] eqn:Ec.
    + eapply (steady_childAbsent current rc h2); [|right; right; by eapply in_later, after_in]. split; [done|]. split; [done|left; apply ext_refl].
    + unfold childAbsent. apply rotation_wpi; [|by rewrite Ec]. intros _. by apply (lost_at s r older current h2 [] []).
Qed.

(** *** The stages *)

(** Nothing has been sent since the record was loaded. *)
Definition fresh (s : ManagedSession) (r : RotationRecord) (older h : hist) : Prop :=
  s_Rotation s = Some r /\ ext quiet (Ev LoadSession (Ok s) :: older) h.

Lemma fresh_based s r older h : fresh s r older h -> based s r older h.
Proof. intros [Hr H]. split; [done|]. split; [by eapply ext_suffix|left]. eapply ext_mono; [apply quiet_keeps|exact H]. Qed.
Lemma fresh_ext s r older h h' : ext quiet h h' -> fresh s r older h -> fresh s r older h'.
Proof. intros He [Hr H]. split; [done|by eapply ext_trans]. Qed.
Lemma fresh_calm s r older h h' : ext calm h h' -> fresh s r older h -> fresh s r older h'.
Proof. intros He. apply fresh_ext. eapply ext_mono; [apply calm_is_quiet|exact He]. Qed.
Lemma fresh_cons s r older e h : calm e -> fresh s r older h -> fresh s r older (e :: h).
Proof. intros He. apply fresh_calm. by apply ext_cons, ext_refl. Qed.

Lemma quiet_unsent new : Forall quiet new -> forallb (fun e => negb (is_send e)) new = true.
Proof. induction 1 as [|e new [He _] Hn IH]; [done|]. cbn. by rewrite He. Qed.

Lemma steady_send {A : Type} s r older h kind confirm (k : SendResult * option error -> M A) :
  fresh s r older h -> may_send kind s r (Ev LoadSession (Ok s) :: older) h ->
  (forall x, steady (k x) (Ev (Send kind confirm) x :: h)) -> steady (call (Send kind confirm) ≫= k) h.
Proof.
  intros [Hr (new & -> & Hq)] Hm Hk. apply steady_call; [|done]. intros x. exists s, r, new, older. split_and!; [done| |done].
  by apply quiet_unsent.
Qed.

Lemma steady_stay p h : steady p h -> steady (stay p) h.
Proof. intros Hp. by apply steady_bind. Qed.
Lemma steady_onward p h : steady p h -> steady (onward p) h.
Proof. intros Hp. by apply steady_bind. Qed.

Lemma steady_ready k h : (forall h', ext calm h h' -> steady k h') -> steady (unless_ready u k) h.
Proof. intros Hk. apply steady_part; [apply resumeReady_calm|]. intros h' [[|]|err] He _; [by apply Hk|done..]. Qed.

Lemma steady_when_sent k h : (forall h', ext calm h h' -> steady k h') -> steady (when_sent sentAfterResume k) h.
Proof. intros Hk. apply steady_part; [apply sentAfterResume_calm|]. intros h' [err|] He _; [done|by apply Hk]. Qed.

Lemma inspect_saw h h' shot : ran record_ev inspect h h' shot -> h' = Ev Inspect (Ok shot) :: h \/ cp_Undeterminable shot = true.
Proof. unfold inspect. intros [[x|err] [-> ->]]; [by left|by right]. Qed.

Lemma newer_determined shot at_ : checkpoint_newer shot at_ = true -> cp_Undeterminable shot = false.
Proof. unfold checkpoint_newer. destruct (cp_Exists shot), (cp_Undeterminable shot); done. Qed.
Lemma updated_determined before shot at_ : CheckpointUpdated before shot at_ = true -> cp_Undeterminable shot = false.
Proof. unfold CheckpointUpdated. destruct (cp_Undeterminable before), (cp_Undeterminable shot); done. Qed.

Lemma steady_unsent s r older h step sendID reason :
  based s r older h -> step <> RotateSendExit -> reason <> NoRotateFailReason -> steady (unsent id u s step sendID reason) h.
Proof.
  intros Hb Hne Hreason. apply steady_call; [done|]. intros [|]; cbn [negb].
  - apply steady_stopped; intros h' He Hst; [by apply steady_stop|]. eapply steady_fail; [|done]. eapply based_calm; [exact He|by apply based_cons].
  - eapply (steady_deadDuringSend s r older); [by apply based_cons| |done]. apply after_here. by eapply based_suffix.
Qed.

(** A late stage fails. *)
Lemma steady_overdue s r older h timeout step reason :
  based s r older h -> reason <> NoRotateFailReason ->
  steady (late ← overdue r timeout; if (late : bool) then stay (fail id u step reason) else mret (false, None)) h.
Proof.
  intros Hb Hreason. apply steady_part; [apply overdue_calm|]. intros h' [|] He _; [|done]. apply steady_stay.
  eapply steady_fail; [by eapply based_calm|done].
Qed.

Lemma steady_end_issued s r older h issuedAt :
  based s r older h -> at_stage s r older RotateSendEnd -> ro_EndIssuedAt r = Some issuedAt -> steady (end_issued id u issuedAt) h.
Proof.
  intros Hb Hst Hi. apply steady_part; [apply inspect_calm|]. intros h1 shot He1 Hshot. apply steady_call; [done|]. intros state.
  assert (based s r older (Ev Observed state :: h1)) as Hb1 by (by apply based_cons; [|eapply based_calm]).
  destruct (bool_decide (state = SessionWorking) || checkpoint_newer shot issuedAt) eqn:E.
  - apply steady_onward. eapply (steady_advance s r older); try done. exists issuedAt. split; [done|].
    assert (Ev LoadSession (Ok s) :: older `suffix_of` h) as Hs by (by eapply based_suffix).
    assert (h `suffix_of` h1) as Hs1 by (by eapply ext_suffix).
    apply orb_true_iff in E as [->%bool_decide_eq_true|E]; [left; apply after_here; by etrans|right].
    exists shot. split; [|done]. apply inspect_saw in Hshot as [->|Hu]; [|by rewrite (newer_determined _ _ E) in Hu].
    apply (after_later _ (Ev Inspect (Ok shot) :: h)); [by apply suffix_cons_r|by apply after_here].
  - apply steady_stopped; intros h2 He2 Hst2; [by apply steady_stay, steady_stop|]. apply steady_call; [done|]. intros now.
    destruct (negb _); [|done]. apply steady_stay. eapply (steady_fail s r older); [|done]. apply based_cons; [done|]. by eapply based_calm.
Qed.

Lemma steady_confirmHandoff s r older h : fresh s r older h -> rotating_at s r RotateConfirmHandoff -> steady (confirmHandoff id u s) h.
Proof.
  intros Hf (H1 & H2 & H3). pose proof (fresh_based _ _ _ _ Hf) as Hb. assert (Ev LoadSession (Ok s) :: older `suffix_of` h) as Hs0 by (by eapply based_suffix).
  apply steady_call; [done|]. intros [|]; cbn [negb].
  2:{ apply steady_stay. eapply (steady_fail s r older); [by apply based_cons|done]. }
  apply rotation_wpi; [by rewrite H2|]. rewrite H2. intros ? [= <-].
  apply steady_part; [apply inspect_calm|]. intros h1 shot He1 Hshot. cbn zeta. apply steady_call; [done|]. intros state.
  set (h2 := Ev Observed state :: h1). assert (based s r older h2) as Hb2.
  { apply based_cons; [done|]. eapply based_calm; [exact He1|]. by apply based_cons. }
  set (mtime := match ro_EndIssuedAt r with Some _ => _ | None => false end). 
  set (head := mtime && match ro_CheckpointSnapshot r with Some before => negb (cp_Exists before) || negb (cp_HeadHash before =? cp_HeadHash shot)%string | None => false end).
  destruct (mtime && head && rotationIdle state) eqn:E.
  - apply andb_true_iff in E as [[Em Eh]%andb_true_iff Ei]. apply steady_onward. eapply (steady_advance s r older); try done; [by left; split; [|left]|].
    unfold mtime in Em. destruct (ro_EndIssuedAt r) as [issuedAt|] eqn:E1; [|done]. destruct (ro_CheckpointSnapshot r) as [before|] eqn:E2; [|done].
    apply andb_true_iff in Em as [Eb En]. unfold head in Eh. apply andb_true_iff in Eh as [_ Eh].
    pose proof (newer_determined _ _ En) as Hd. apply inspect_saw in Hshot as [->|Hu]; [|by rewrite Hd in Hu].
    exists issuedAt, before, shot. split_and!; try done.
    + apply (after_later _ (Ev Inspect (Ok shot) :: Ev ChildAlive true :: h)); [by apply suffix_cons_r|]. by apply after_here, suffix_cons_r.
    + unfold CheckpointUpdated, checkpoint_newer in *. rewrite Hd. apply negb_true_iff in Eb. rewrite Eb. cbn [orb].
      rewrite Hd in En. destruct (cp_Exists shot), (cp_Mtime shot) as [m|]; try done. cbn in En |- *. by rewrite En.
    + exists state. split; [|done]. apply after_here. by do 2 apply suffix_cons_r.
    + apply (after_later _ (Ev ChildAlive true :: h)); [by do 2 apply suffix_cons_r|by apply after_here].
  - apply steady_stopped; intros h3 He3 Hst; [by apply steady_stay, steady_stop|].
    apply steady_part; [apply overdue_calm|]. intros h4 late He4 _. destruct late; cbn [negb]; [|done]. apply steady_stay.
    eapply (steady_fail s r older); [eapply based_calm; [exact He4|by eapply based_calm]|]. by repeat case_match.
Qed.

Lemma fresh_suffix s r older h : fresh s r older h -> Ev LoadSession (Ok s) :: older `suffix_of` h.
Proof. intros Hf. by eapply based_suffix, fresh_based. Qed.

(** An update that keeps the state and the stage. *)
Lemma steady_kept {B : Type} (failed : error -> B) (f : ManagedSession -> ManagedSession) (k : unit -> M B) h :
  (forall v, s_State (f v) = s_State v /\ step_of (f v) = step_of v) ->
  (forall v h', ext (only_saves (f v)) h h' -> loaded_in h h' v -> steady (k tt) h') ->
  steady (updated_or failed (fun v => mret (Ok (f v, tt))) k) h.
Proof.
  intros Hf Hk. apply steady_updated. intros v before h1. split; [apply ext_refl|]. destruct (Hf v) as [E1 E2].
  split; [by apply written_kept|]. intros h2 Hs Hl. by eapply Hk.
Qed.

(** The same behind the pointer of the rotation. *)
Lemma steady_kept_rotation {B : Type} (failed : error -> B) s r older h (f : ManagedSession -> RotationRecord -> ManagedSession) (k : unit -> M B) :
  based s r older h ->
  (forall v r0, s_Rotation v = Some r0 -> s_State (f v r0) = s_State v /\ step_of (f v r0) = Some (ro_Step r0)) ->
  (forall h', ext quiet h h' -> steady (k tt) h') ->
  steady (updated_or failed (fun v => r ← rotation v; mret (Ok (f v r, tt))) k) h.
Proof.
  intros Hb Hf Hk. apply steady_updated. intros v before h1.
  apply rotation_wpi; [intros Hv; eapply (lost s r older v before h); [done|apply ext_refl|done]|]. intros r0 Hr0. split; [apply ext_refl|].
  destruct (Hf v r0 Hr0) as [E1 E2]. split; [apply written_kept; [done|by rewrite E2; unfold step_of; rewrite Hr0]|]. intros h2 Hs _. apply Hk.
  eapply ext_mono; [|exact Hs]. intros e He. eapply only_saves_quiet; [|exact He]. unfold step_of in E2. by destruct (s_Rotation (f v r0)).
Qed.

Lemma steady_sendExit s r older h :
  fresh s r older h -> rotating_at s r RotateSendExit -> looked (Ev LoadSession (Ok s) :: older) h -> steady (sendExit id u s) h.
Proof.
  intros Hf Hat Hl. pose proof (fresh_based _ _ _ _ Hf) as Hb. pose proof (fresh_suffix _ _ _ _ Hf) as Hs0.
  apply steady_call; [done|]. intros [|]; cbn [negb].
  2:{ apply steady_stay. eapply (steady_fail s r older); [by apply based_cons|done]. }
  apply steady_ready. intros h1 He1. assert (fresh s r older h1) as Hf1 by (by eapply fresh_calm; [|apply fresh_cons]).
  assert (Ev ChildAlive true :: h `suffix_of` h1) as Hs1 by (by eapply ext_suffix).
  apply (steady_send s r older); [done| |].
  { split; [eapply after_later; [exact Hs1|by apply after_here]|]. split; [done|]. eapply looked_later; [|exact Hl]. etrans; [|exact Hs1]. by apply suffix_cons_r. }
  intros [result err]. set (h2 := Ev (Send _ _) _ :: h1).
  assert (saw (Ev LoadSession (Ok s) :: older) h2 (Send SendKindHandoffExit SupervisorExitGrace) (result, err)) as Hsent by (by apply after_here, fresh_suffix with r).
  assert (based s r older h2) as Hb2 by (by apply based_cons, fresh_based). destruct Hat as (A1 & A2 & A3).
  destruct (is_some err || negb (Confirmed result)) eqn:E.
  - apply steady_call; [done|]. intros [|]; cbn [negb].
    + apply steady_stopped; intros h3 He3 Hst; [by apply steady_stay, steady_stop|]. apply steady_stay.
      eapply (steady_fail s r older); [eapply based_calm; [exact He3|by apply based_cons]|done].
    + apply steady_bind; [|done]. eapply (steady_deadDuringSend s r older); [by apply based_cons| |].
      * apply after_here. by eapply based_suffix.
      * intros _. split; [done|]. exists SupervisorExitGrace, result, err. split; [|done]. eapply after_later; [|exact Hsent]. by apply suffix_cons_r.
  - apply orb_false_iff in E as [E1 E2%negb_false_iff]. destruct err; [done|]. apply steady_when_sent. intros h3 He3.
    assert (based s r older h3) as Hb3 by (by eapply based_calm).
    apply steady_kept; [done|]. intros v h4 Hs Hlv. apply steady_onward. apply (steady_advance s r older); [by eapply (based_saved s r older v (no_child v) h3)|by left; split; [|left]|done|].
    right; left. exists SupervisorExitGrace, result. split; [|done]. eapply after_later; [|exact Hsent]. etrans; by eapply ext_suffix.
Qed.

Lemma steady_spawn_child s r older h :
  fresh s r older h -> may_respawn RespawnHandoffStage5 s r (Ev LoadSession (Ok s) :: older) h -> steady (spawn_child id u) h.
Proof.
  intros Hf Hm. pose proof (fresh_based _ _ _ _ Hf) as Hb. pose proof (fresh_suffix _ _ _ _ Hf) as Hs0.
  unfold spawn_child. destruct (has_Respawn u); [|done]. cbn [negb]. apply steady_call.
  - intros x. destruct Hf as [_ (new & -> & Hq)]. exists s, r, new, older. split; [done|]. split; [by apply quiet_unsent|done].
  - intros [err|]; apply steady_stay; [eapply (steady_fail s r older); [by apply based_cons|done]|].
    apply steady_updated. intros v before h1. destruct (s_Rotation v) as [rv|] eqn:Erv.
    2:{ split; [apply ext_refl|]. split; [by apply written_kept|done]. }
    destruct (bool_decide_reflect (s_State v = SessionRotating)) as [Est|Est]; cbn [negb].
    2:{ split; [apply ext_refl|]. split; [by apply written_kept|done]. }
    apply wpi_call. intros now. split; [done|]. split; [by apply ext_cons, ext_refl|]. split; [|done].
    eapply (written_spawned _ _ _ s older r rv now); try done; [|by apply Hm|].
    + etrans; [exact Hs0|]. unfold h1. by do 5 apply suffix_cons_r.
    + apply (after_later _ (Ev (Respawn RespawnHandoffStage5) None :: h)); [unfold h1; by do 4 apply suffix_cons_r|by apply after_here].
Qed.

Lemma steady_child_started s r older h :
  fresh s r older h -> rotating_at s r RotateRestart -> s_ChildPID s <> 0 -> steady (child_started id u s r) h.
Proof.
  intros Hf (A1 & A2 & A3) Ep. pose proof (fresh_based _ _ _ _ Hf) as Hb. pose proof (fresh_suffix _ _ _ _ Hf) as Hs0.
  apply steady_call; [done|]. intros [|]; cbn [negb]; [|apply steady_stay; eapply (steady_childAbsent s r older); [by apply based_cons|right; by left]].
  apply steady_call; [done|]. intros state. assert (based s r older (Ev Observed state :: Ev ChildAlive true :: h)) as Hb2 by (by do 2 (apply based_cons; [done|])).
  destruct (bool_decide_reflect (state = SessionIdle)) as [->|Hi]; [|by apply (steady_overdue s r older)].
  apply steady_onward, (steady_advance s r older); [done|by left; split; [|left]|done|]. split_and!; [done| |].
  - eapply after_later; [apply suffix_cons_r; reflexivity|by apply after_here].
  - apply after_here. by apply suffix_cons_r.
Qed.

Lemma steady_restart s r older h :
  fresh s r older h -> rotating_at s r RotateRestart -> looked (Ev LoadSession (Ok s) :: older) h -> steady (restart id u s) h.
Proof.
  intros Hf Hat Hl. pose proof (fresh_suffix _ _ _ _ Hf) as Hs0.
  apply rotation_wpi; [by rewrite (proj1 Hf)|]. rewrite (proj1 Hf). intros ? [= <-].
  apply steady_part; [rotate_solve|]. intros h' waiting He Hw. assert (fresh s r older h') as Hf' by (by eapply fresh_calm).
  destruct waiting; [done|]. destruct (Z.eqb_spec (s_ChildPID s) 0) as [Ep|Ep]; cbn [andb]; [|by apply (steady_child_started s r older)].
  destruct (ro_Stage5Started r) eqn:E5; [apply steady_stay; eapply (steady_childAbsent s r older); [by apply fresh_based|by left]|].
  apply (steady_spawn_child s r older); [done|]. cbn. split; [done|]. split; [eapply looked_later; [by eapply ext_suffix|done]|]. do 2 (split; [done|]).
  intros limit Eu. rewrite Eu in Hw. destruct Hw as [now [-> Ew]]. exists now. split; [by apply after_here|]. unfold Before in Ew. lia.
Qed.

Lemma steady_sendStart s r older h :
  fresh s r older h -> rotating_at s r RotateSendStart -> looked (Ev LoadSession (Ok s) :: older) h -> steady (sendStart id u s) h.
Proof.
  intros Hf Hat Hl. pose proof (fresh_suffix _ _ _ _ Hf) as Hs0. destruct Hat as (A1 & A2 & A3).
  apply steady_call; [done|]. intros [|]; cbn [negb].
  2:{ apply steady_stay. eapply (steady_childAbsent s r older); [by apply based_cons, fresh_based|right; by left]. }
  apply steady_call; [done|]. intros state. set (h2 := Ev Observed state :: Ev ChildAlive true :: h).
  assert (fresh s r older h2) as Hf2 by (by do 2 (apply fresh_cons; [done|])).
  pose proof (fresh_based _ _ _ _ Hf2) as Hb2. pose proof (fresh_suffix _ _ _ _ Hf2) as Hs2.
  assert (saw (Ev LoadSession (Ok s) :: older) h2 Observed state) as Hobs by (apply after_here; by apply suffix_cons_r).
  assert (steady (unsettled id u s) h2) as Hun.
  { apply rotation_wpi; [by rewrite A2|]. rewrite A2. intros ? [= <-]. by apply (steady_overdue s r older). }
  destruct (confirmed SendKindSessionStart s) eqn:Ec.
  - destruct (rotationIdle state) eqn:Ei; [|done]. apply steady_onward, (steady_advance s r older); [done|by left; split; [|left]|done|].
    split; [by left|]. by exists state.
  - destruct (bool_decide_reflect (state = SessionIdle)) as [->|Hi]; cbn [negb]; [|done].
    apply steady_ready. intros h3 He3. assert (h2 `suffix_of` h3) as Hs3 by (by eapply ext_suffix). assert (fresh s r older h3) as Hf3 by (by eapply fresh_calm).
    apply (steady_send s r older); [done| |].
    { split; [eapply after_later; [exact Hs3|]; eapply after_later; [apply suffix_cons_r; reflexivity|by apply after_here]|]. split_and!; try done.
      - eapply looked_later; [|exact Hl]. etrans; [|exact Hs3]. by do 2 apply suffix_cons_r.
      - by eapply after_later. }
    intros [result err]. assert (based s r older (Ev (Send SendKindSessionStart 0) (result, err) :: h3)) as Hb4 by (by apply based_cons, fresh_based).
    destruct (is_some err || negb (Confirmed result)) eqn:E; [by apply steady_stay, (steady_unsent s r older)|].
    apply orb_false_iff in E as [E1 E2%negb_false_iff]. destruct err; [done|]. apply steady_when_sent. intros h5 He5.
    apply steady_call; [done|]. intros state. destruct (rotationIdle state) eqn:Ei; [|done].
    assert (based s r older h5) as Hb5 by (by eapply based_calm).
    apply steady_onward, (steady_advance s r older); [by apply based_cons|by left; split; [|left]|done|]. split.
    + right. exists 0, result. split; [|done]. eapply after_later; [|apply after_here; by apply fresh_suffix with r].
      apply suffix_cons_r. by eapply ext_suffix.
    + exists state. split; [|done]. apply after_here. by eapply based_suffix.
Qed.

Lemma steady_note_stage7 k h : (forall h', h `suffix_of` h' -> steady k h') -> steady (note_stage7 u k) h.
Proof.
  intros Hk. unfold note_stage7. apply steady_updated. intros v before h1. split; [apply ext_refl|].
  assert (forall v' (recorded : bool), s_State v' = s_State v -> step_of v' = step_of v -> written v v' h1 /\
    forall h2, ext (only_saves v') h h2 -> loaded_in h h2 v -> steady (unless_error (if recorded then Rotate.record u EventKindRotateStepDone RotateSendParallelInstruction NoRotateFailReason "" else mret None) k) h2) as H.
  { intros v' recorded E1 E2. split; [by apply written_kept|]. intros h2 Hs _. apply steady_part; [destruct recorded; rotate_solve|].
    intros h3 [err|] He _; [done|]. apply Hk. etrans; by eapply ext_suffix. }
  destruct (s_Rotation v) as [r|] eqn:E; [|by apply (H v false)].
  destruct (ro_Stage7ConfirmedWhileStopped r); [by apply (H v false)|]. apply (H _ true); [done|]. unfold step_of. by rewrite E.
Qed.

Lemma apply_done now v v' state :
  settled state = true -> apply EventRotationDone (no_context <| c_ObservedState := state |>) now v = Ok v' ->
  s_State v = SessionRotating /\ s_State v' = state.
Proof. unfold apply. destruct v as [? ? ? ? ? ? st]. intros Hs. destruct st; try done; destruct state; try done; by intros [= <-]. Qed.

Lemma steady_complete s r older h alreadyConfirmed :
  based s r older h -> rotating_at s r RotateSendParallelInstruction ->
  confirmed SendKindParallelInstruction s = true \/ sent (Ev LoadSession (Ok s) :: older) h SendKindParallelInstruction ->
  looked (Ev LoadSession (Ok s) :: older) h -> saw (Ev LoadSession (Ok s) :: older) h ChildAlive true -> steady (complete u alreadyConfirmed) h.
Proof.
  intros Hb Hat Hc Hl Ha. apply steady_call; [done|]. intros state. destruct (settled state) eqn:Est; cbn [negb]; [|done].
  apply steady_call; [done|]. intros []. apply steady_bind; [|by intros; apply steady_end; rotate_solve].
  apply steady_updated. intros v before h1. apply wpi_call. intros now. split; [done|].
  destruct (apply _ _ _ _) as [v'|err] eqn:E; [|by split; [ext_here|]]. apply wpi_call. intros since. split; [done|]. split; [ext_here|].
  apply apply_done in E as [E1 E2]; [|done]. split; [|intros; apply steady_end; rotate_solve].
  assert (h `suffix_of` Ev Now since :: Ev Now now :: h1) as Hs by (unfold h1; by do 7 apply suffix_cons_r).
  eapply (written_completed _ _ _ s older r); try done.
  - etrans; [by eapply based_suffix|exact Hs].
  - destruct Hc as [H|H]; [by left|right; by eapply sent_later].
  - by eapply looked_later.
  - by eapply after_later.
  - cbn. by rewrite E2.
Qed.

Lemma steady_sendParallel s r older h :
  fresh s r older h -> rotating_at s r RotateSendParallelInstruction -> looked (Ev LoadSession (Ok s) :: older) h -> steady (sendParallel id u s) h.
Proof.
  intros Hf Hat Hl. pose proof (fresh_suffix _ _ _ _ Hf) as Hs0. destruct Hat as (A1 & A2 & A3).
  apply steady_call; [done|]. intros [|]; cbn [negb].
  2:{ eapply (steady_childAbsent s r older); [by apply based_cons, fresh_based|right; by left]. }
  assert (fresh s r older (Ev ChildAlive true :: h)) as Hf1 by (by apply fresh_cons).
  assert (saw (Ev LoadSession (Ok s) :: older) (Ev ChildAlive true :: h) ChildAlive true) as Hal by (by apply after_here).
  assert (looked (Ev LoadSession (Ok s) :: older) (Ev ChildAlive true :: h)) as Hl1 by (eapply looked_later; [|exact Hl]; by apply suffix_cons_r).
  set (h1 := Ev ChildAlive true :: h) in *.
  destruct (confirmed SendKindParallelInstruction s) eqn:Ec; [apply (steady_complete s r older); [by apply fresh_based|done|by left|done|done]|].
  apply steady_call; [done|]. intros state. assert (fresh s r older (Ev Observed state :: h1)) as Hf2 by (by apply fresh_cons).
  destruct (bool_decide_reflect (state = SessionIdle)) as [->|Hi]; cbn [negb].
  2:{ apply rotation_wpi; [by rewrite A2|]. rewrite A2. intros ? [= <-]. apply steady_part; [apply overdue_calm|]. intros h3 [|] He _; [|done].
      eapply (steady_fail s r older); [|done]. eapply based_calm; [exact He|]. by apply fresh_based. }
  apply steady_part; [apply resumeReady_calm|]. intros h3 [[|]|err] He3 _; [|done..].
  assert (fresh s r older h3) as Hf3 by (by eapply fresh_calm). assert (Ev Observed SessionIdle :: h1 `suffix_of` h3) as Hs3 by (by eapply ext_suffix).
  assert (h1 `suffix_of` h3) as Hs13 by (etrans; [|exact Hs3]; by apply suffix_cons_r).
  apply (steady_send s r older); [done| |].
  { split; [by eapply after_later|]. split_and!; try done.
    - by eapply looked_later.
    - eapply after_later; [exact Hs3|]. apply after_here. by apply fresh_suffix with r. }
  intros [result err]. set (h4 := Ev (Send _ _) _ :: h3). assert (based s r older h4) as Hb4 by (by apply based_cons, fresh_based).
  destruct (is_some err || negb (Confirmed result)) eqn:E; [by apply (steady_unsent s r older)|].
  apply orb_false_iff in E as [E1 E2%negb_false_iff]. destruct err; [done|].
  assert (h1 `suffix_of` h4) as Hs4 by (by apply suffix_cons_r).
  apply steady_part; [apply sentAfterResume_calm|]. intros h5 [err|] He5 _; [done|]. assert (h4 `suffix_of` h5) as Hs5 by (by eapply ext_suffix).
  apply steady_stopped; intros h6 He6 Hst; [apply steady_note_stage7; intros h7 Hs7; apply steady_stop; by eapply stop_seen_later|].
  assert (h5 `suffix_of` h6) as Hs6 by (by eapply ext_suffix). assert (h4 `suffix_of` h6) as Hs46 by (by etrans).
  apply (steady_complete s r older); [by eapply based_calm; [|eapply based_calm]|done| | |].
  - right. exists 0, result. split; [|done]. eapply after_later; [exact Hs46|]. apply after_here. by apply fresh_suffix with r.
  - eapply looked_later; [|exact Hl1]. by etrans.
  - eapply after_later; [|exact Hal]. by etrans.
Qed.

Lemma steady_issue_end again s r older h :
  fresh s r older h -> may_send SendKindHandoffEnd s r (Ev LoadSession (Ok s) :: older) h ->
  (forall current older', end_sent older' -> (s_Rotation current = None -> taken_away (Ev LoadSession (Ok current) :: older')) ->
     steady (again current) (Ev LoadSession (Ok current) :: older')) ->
  steady (issue_end id u again s r) h.
Proof.
  intros Hf Hm Ha. apply (steady_send s r older); [done..|]. intros [result err]. apply steady_call; [done|]. intros issued. cbn zeta.
  set (h2 := Ev Now issued :: _). assert (based s r older h2) as Hb2 by (do 2 (apply based_cons; [done|]); by apply fresh_based).
  assert (end_sent h2) as Hsent by (exists 0, (result, err); right; left).
  match goal with |- steady (if _ then ?p else _) _ => enough (forall h', ext quiet h2 h' -> steady p h') as H end.
  { destruct (_ =? _)%string; [apply H, ext_refl|]. apply (steady_kept_rotation _ s r older); [done| |done].
    intros v r0 Hr. destruct (issue_again _ _ _); [done|]. unfold step_of. by rewrite Hr. }
  intros h' He. assert (based s r older h') as Hb' by (eapply based_ext; [|exact Hb2]; eapply ext_mono; [apply quiet_keeps|done]).
  destruct (_ || _); [by apply steady_stay, (steady_unsent s r older)|]. apply steady_when_sent. intros h3 He3.
  assert (based s r older h3) as Hb3 by (by eapply based_calm).
  apply (steady_kept_rotation _ s r older); [done|done|]. intros h4 He4. apply steady_call; [done|]. intros [current|]; [|done].
  assert (based s r older h4) as Hb4 by (eapply based_ext; [|exact Hb3]; eapply ext_mono; [apply quiet_keeps|done]).
  apply Ha; [|intros Hc; by apply (lost_at s r older current h4 [] [])]. destruct Hsent as (c & x & Hx). exists c, x.
  eapply in_later; [|exact Hx]. etrans; [by eapply ext_suffix|]. etrans; by eapply ext_suffix.
Qed.

Lemma steady_end_stage again s r older h :
  fresh s r older h -> rotating_at s r RotateSendEnd \/ end_sent older ->
  (forall current older', end_sent older' -> (s_Rotation current = None -> taken_away (Ev LoadSession (Ok current) :: older')) ->
     steady (again current) (Ev LoadSession (Ok current) :: older')) ->
  steady (end_stage id u again s) h.
Proof.
  intros Hf Hat Hag. pose proof (fresh_suffix _ _ _ _ Hf) as Hs0.
  apply rotation_wpi; [by rewrite (proj1 Hf)|]. rewrite (proj1 Hf). intros ? [= <-]. cbn zeta.
  match goal with |- context [call ChildAlive ≫= ?k] =>
    enough (ro_EndIssuedAt r = None \/ ro_ResumeEnd r = true -> steady (call ChildAlive ≫= k) h) as H end.
  { destruct (ro_EndIssuedAt r) as [issuedAt|] eqn:Ei; [|by apply H; left]. destruct (ro_ResumeEnd r) eqn:Er; [by apply H; right|].
    apply (steady_end_issued s r older); [by apply fresh_based| |done]. destruct Hat as [(A1 & A2 & A3)|Hat]; [left; split; [done|by left]|by right]. }
  intros Hnew. apply steady_call; [done|]. intros [|]; cbn [negb].
  2:{ apply steady_stay. eapply (steady_fail s r older); [by apply based_cons, fresh_based|done]. }
  set (h1 := Ev ChildAlive true :: h). enough (forall h', ext quiet h1 h' -> steady (issue_end id u again s r) h') as H.
  { assert (forall h', ext calm h1 h' -> steady (unless_ready u (match ro_CheckpointSnapshot r with
        | Some _ => issue_end id u again s r
        | None => shot ← inspect; updated_or not_advanced (fun v => r ← rotation v;
            mret (Ok (v <| s_Rotation := Some (Rotation_RecordCheckpoint r shot) |>, tt))) (fun _ => issue_end id u again s r) end)) h') as Hr.
    { intros h' He. apply steady_ready. intros h2 He2. assert (ext calm h1 h2) as He' by (by eapply ext_trans).
      destruct (ro_CheckpointSnapshot r); [apply H; by eapply ext_mono; [apply calm_is_quiet|]|].
      apply steady_part; [apply inspect_calm|]. intros h3 shot He3 _. assert (ext calm h1 h3) as He13 by (by eapply ext_trans).
      assert (ext quiet h1 h3) as Hq by (by eapply ext_mono; [apply calm_is_quiet|]).
      apply (steady_kept_rotation _ s r older); [|done|intros h4 He4; apply H; by eapply ext_trans].
      eapply based_calm; [exact He13|]. by apply based_cons, fresh_based. }
    destruct (ro_ResumeEnd r); [apply steady_ready; intros h' He; by apply Hr|apply Hr, ext_refl]. }
  intros h' He. apply (steady_issue_end again s r older); [by eapply fresh_ext, fresh_cons| |done].
  split; [eapply after_later; [by eapply ext_suffix|by apply after_here]|]. split; [done|]. split; [apply Hf|].
  destruct Hat as [Hat|(c & x & Hx)]; [by left|right]. exists c, x. by right.
Qed.

Lemma steady_sendEnd fuel s older h :
  (s_Rotation s = None -> taken_away h) ->
  (forall r, s_Rotation s = Some r -> fresh s r older h /\ (rotating_at s r RotateSendEnd \/ end_sent older)) -> steady (sendEnd id u fuel s) h.
Proof.
  revert s older h. induction fuel as [|fuel IH]; intros s older h Hn Hs.
  all: destruct (s_Rotation s) as [r|] eqn:Hr; [destruct (Hs r eq_refl) as [Hf Hat]|by apply rotation_wpi; rewrite Hr].
  all: apply (steady_end_stage _ s r older); [done|done|]; intros current older' He Hc.
  { apply wpi_bind. apply wpi_call. by intros []. }
  apply (IH current older'); [done|]. intros rc Hrc. split; [|by right]. split; [done|apply ext_refl].
Qed.

(** A stopped session: what was sent before the stop is confirmed, and nothing is sent. *)
Lemma steady_confirmWhileStopped s r older h :
  fresh s r older h -> stopped_by_operator s = true -> steady (confirmWhileStopped u s r) h.
Proof.
  intros Hf Hst. pose proof (fresh_suffix _ _ _ _ Hf) as Hs0. pose proof (fresh_based _ _ _ _ Hf) as Hb.
  assert (forall step, ro_Step r = step -> at_stage s r older step) as Hat by (intros step E; left; split; [done|by right]).
  unfold confirmWhileStopped. destruct (ro_Step r) eqn:Estep; try done.
  - destruct (ro_EndIssuedAt r) as [issuedAt|] eqn:Ei; [|done].
    apply steady_part; [apply inspect_calm|]. intros h1 shot He1 Hshot. apply steady_call; [done|]. intros state.
    destruct (_ || _) eqn:E; [|done]. apply (steady_advance s r older); [apply based_cons; [done|by eapply based_calm]|by apply Hat|done|].
    exists issuedAt. split; [done|]. apply orb_true_iff in E as [->%bool_decide_eq_true|E].
    + left. apply after_here. etrans; [exact Hs0|by eapply ext_suffix].
    + right. exists shot. split; [|done]. apply inspect_saw in Hshot as [->|Hu]; [|by rewrite (newer_determined _ _ E) in Hu].
      eapply after_later; [apply suffix_cons_r; reflexivity|by apply after_here].
  - apply steady_part; [apply inspect_calm|]. intros h1 shot He1 Hshot.
    destruct (ro_EndIssuedAt r) as [issuedAt|] eqn:Ei; [|done]. destruct (ro_CheckpointSnapshot r) as [before|] eqn:Ec; [|done].
    destruct (CheckpointUpdated before shot issuedAt) eqn:Eu; [|done].
    assert (h `suffix_of` h1) as Hs1 by (by eapply ext_suffix).
    apply steady_call; [done|]. intros state. destruct (rotationIdle state) eqn:Eidle; [|done]. apply steady_call; [done|]. intros [|]; [|done].
    apply (steady_advance s r older); [do 2 (apply based_cons; [done|]); by eapply based_calm|by apply Hat|done|].
    exists issuedAt, before, shot. split_and!; try done.
    + apply inspect_saw in Hshot as [->|Hu]; [|by rewrite (updated_determined _ _ _ Eu) in Hu].
      eapply after_later; [do 2 apply suffix_cons_r; reflexivity|by apply after_here].
    + exists state. split; [|done]. eapply after_later; [apply suffix_cons_r; reflexivity|]. apply after_here. by etrans.
    + apply after_here. apply suffix_cons_r. by etrans.
  - destruct (Z.eqb_spec (s_ChildPID s) 0) as [Ep|Ep]; [|done]. destruct (confirmed _ s) eqn:Ec; [|done].
    apply (steady_advance s r older); [done|by apply Hat|done|by left].
  - destruct (Z.ltb_spec 0 (s_ChildPID s)) as [Ep|Ep]; [|done]. apply steady_call; [done|]. intros [|]; [|done].
    apply steady_call; [done|]. intros state. destruct (bool_decide_reflect (state = SessionIdle)) as [->|]; [|done].
    apply (steady_advance s r older); [by do 2 (apply based_cons; [done|])|by apply Hat|done|]. split; [lia|]. split.
    + eapply after_later; [apply suffix_cons_r; reflexivity|by apply after_here].
    + apply after_here. by apply suffix_cons_r.
  - destruct (confirmed _ s) eqn:Ec; [|done]. apply steady_call; [done|]. intros state. destruct (rotationIdle state) eqn:Eidle; [|done].
    apply (steady_advance s r older); [by apply based_cons|by apply Hat|done|]. split; [by left|]. exists state. split; [by apply after_here|done].
  - destruct (_ && _); [|done]. by apply steady_note_stage7.
Qed.

Lemma steady_stage fuel s r older h :
  fresh s r older h -> s_State s = SessionRotating -> (step_stops r = true -> looked (Ev LoadSession (Ok s) :: older) h) ->
  steady (stage id u fuel s (ro_Step r)) h.
Proof.
  intros Hf Hst Hl. destruct (ro_Step r) eqn:E; try done; cbn [stage].
  all: assert (forall step, step = ro_Step r -> rotating_at s r step) as Hat by (intros step ->; split; [done|split; [apply Hf|done]]); rewrite E in Hat.
  - apply (steady_sendEnd fuel s older); [by rewrite (proj1 Hf)|]. rewrite (proj1 Hf). intros ? [= <-]. split; [done|left; by apply Hat].
  - apply (steady_confirmHandoff s r older); [done|by apply Hat].
  - apply (steady_sendExit s r older); [done|by apply Hat|]. apply Hl. unfold step_stops. by rewrite E.
  - apply (steady_restart s r older); [done|by apply Hat|]. apply Hl. unfold step_stops. by rewrite E.
  - apply (steady_sendStart s r older); [done|by apply Hat|]. apply Hl. unfold step_stops. by rewrite E.
  - apply steady_stay, (steady_sendParallel s r older); [done|by apply Hat|]. apply Hl. unfold step_stops. by rewrite E.
Qed.

Lemma steady_step_once fuel again h : (forall h, steady again h) -> steady (step_once id u fuel again) h.
Proof.
  intros Hag. apply steady_call; [done|]. intros [err|]; [done|]. apply steady_call; [done|]. intros [s|err]; [|done].
  destruct (s_Rotation s) as [r|] eqn:Er; [|done]. set (h0 := Ev LoadSession (Ok s) :: _).
  assert (fresh s r (Ev CtxErr None :: h) h0) as Hf by (split; [done|apply ext_refl]).
  destruct (ro_ResumeSpawn r && bool_decide (s_State s = SessionRotating)) eqn:Ers.
  - apply andb_true_iff in Ers as [E1 E2%bool_decide_eq_true]. destruct (has_Respawn u); [|done]. cbn [negb]. apply steady_call.
    + intros x. exists s, r, [], (Ev CtxErr None :: h). split_and!; done.
    + intros [err|]; [eapply (steady_fail s r (Ev CtxErr None :: h)); [by apply based_cons, fresh_based|done]|].
      apply (steady_kept _ (fun v => match s_Rotation v with Some r => v <| s_Rotation := Some (r <| ro_ResumeSpawn := false |>) |> | None => v end)); [|done].
      intros v. unfold step_of. by destruct (s_Rotation v) eqn:E; [|rewrite E].
  - destruct (stopped_by_operator s) eqn:Est; [by eapply steady_confirmWhileStopped|].
    destruct (bool_decide_reflect (s_State s = SessionRotating)) as [Hst|Hst]; [|done]. cbn [negb].
    assert (forall h' p, (step_stops r = true -> looked h0 h') -> ext calm h0 h' -> p = ('(advanced, err) ← stage id u fuel s (ro_Step r);
      match err with Some _ => mret err | None => if negb advanced then mret None else st ← stopped u; if (st : bool) then stop u else again end) -> steady p h') as Hgo.
    { intros h' p Hl He ->. apply steady_bind; [by eapply steady_stage; [by eapply fresh_calm|..]|]. intros h1 [advanced [err|]]; [done|].
      destruct advanced; [|done]. cbn [negb]. apply steady_stopped; intros h2 _ H2; [by apply steady_stop|done]. }
    apply steady_stopped; intros h1 He H1.
    + cbn [andb]. destruct (step_stops r); [by apply steady_stop|]. by eapply Hgo.
    + cbn [andb]. eapply Hgo; [|done|done]. by intros _; apply H1.
Qed.

Lemma steady_out_of_fuel {A : Type} h : steady (out_of_fuel : M A) h.
Proof. apply wpi_bind. apply wpi_call. by intros []. Qed.

Lemma steady_step_loop fuel h : steady (step_loop id u fuel) h.
Proof.
  revert h. induction fuel as [|fuel IH]; intros h; apply steady_step_once; [intros; apply steady_out_of_fuel|exact IH].
Qed.

Lemma steady_Step fuel h : steady (Step id u fuel) h.
Proof.
  unfold Step. destruct (validateCore u); [done|]. apply steady_call; [done|]. intros [].
  apply steady_bind; [|intros h' err; by apply steady_call]. destruct (negb _); [done|apply steady_step_loop].
Qed.

Lemma begin_rotation_ok now v v' pending :
  begin_rotation now v = Ok (v', pending) -> may_rotate v = None /\ s_State v' = SessionRotating /\ step_of v' = Some RotateSendEnd.
Proof.
  unfold begin_rotation. destruct (may_rotate v) eqn:E; [done|]. intros H. split; [done|]. revert E H. unfold may_rotate, apply.
  destruct v as [? ? ? ? ? ? st ? ? ? ? ? ? ? ? ? ? ? ? rot]. cbn [s_State s_Rotation]. destruct rot, st; cbn; try done; by intros _ [= <- _].
Qed.

Lemma steady_Start fuel h : steady (Start id u fuel) h.
Proof.
  unfold Start. destruct (validateCore u); [done|]. apply steady_stopped; intros h1 He1 H1; [done|].
  apply steady_call; [done|]. intros now. apply steady_updated. intros v before h2. split; [apply ext_refl|].
  destruct (begin_rotation now v) as [[v' pending]|err] eqn:E; [|done]. apply begin_rotation_ok in E as (E1 & E2 & E3). split.
  - apply written_started; try done. eapply looked_later; [|apply (H1 []); apply suffix_nil]. unfold h2. by do 4 apply suffix_cons_r.
  - intros h3 _ _. apply steady_part; [destruct pending; rotate_solve|]. intros h4 [err|] _ _; [done|apply steady_Step].
Qed.

Lemma steady_run_loop fuel h : steady (run_loop id u fuel) h.
Proof.
  revert h. induction fuel as [|fuel IH]; intros h; cbn [run_loop].
  all: apply steady_bind; [apply steady_Step|]; intros h1 [err|]; [done|]; apply steady_call; [done|]; intros [s|err]; [|done].
  all: destruct (s_Rotation s) as [r|]; [|done]; destruct (negb _); [done|].
  all: apply steady_part; [unfold wait; rotate_solve|]; intros h2 [err|] _ _; [done|].
  - apply steady_out_of_fuel.
  - apply IH.
Qed.

(** *** Resumption *)

Definition kept_record (r r' : RotationRecord) : Prop :=
  ro_Step r' = ro_Step r /\ ro_EndIssuedAt r' = ro_EndIssuedAt r /\ ro_CheckpointSnapshot r' = ro_CheckpointSnapshot r.

Lemma kept_record_trans r1 r2 r3 : kept_record r1 r2 -> kept_record r2 r3 -> kept_record r1 r3.
Proof. intros (E1 & E2 & E3) (F1 & F2 & F3). unfold kept_record. by rewrite F1, F2, F3. Qed.

Lemma resumed_on_kept v r r1 r2 r3 h : kept_record r r1 -> resumed_on v r1 r2 h -> ro_Step r3 = ro_Step r2 -> resumed_on v r r3 h.
Proof. intros (E1 & E2 & E3) H E. unfold resumed_on in *. by rewrite E, <- E1, <- E2, <- E3. Qed.

Lemma resumed_on_once v r1 r2 r3 h h' : resumed_on v r1 r2 h -> resumed_on v r2 r3 h' -> False.
Proof. intros [(A1 & A2 & _)|(A1 & A2 & _)] [(B1 & _)|(B1 & _)]; congruence. Qed.

Definition prepared (v : ManagedSession) (r : RotationRecord) (h h' : hist) (x : res RotationRecord) : Prop :=
  ext inside h h' /\ match x with Ok r' => kept_record r r' \/ resumed_on v r r' h' | Err _ => True end.

Lemma resume_spawn_kept v s r h : prepared v r h h (resume_spawn u s r).
Proof. split; [apply ext_refl|]. unfold resume_spawn. destruct (_ && _); [done|]. destruct (negb _); [done|]. by left. Qed.

Lemma prepare_restart_wpi s step r h : wpi record_ev orderly (prepare_restart u s step r) h (fun h' x =>
  ext inside h h' /\ match x with Ok r' => kept_record r r' | Err _ => True end).
Proof.
  apply wpi_call. intros alive. split; [done|]. destruct (_ && _); (split; [ext_here|]); [|done].
  unfold resume_spawn. destruct (_ && _); [done|]. by destruct (negb _).
Qed.

Lemma prepare_end_wpi (v : ManagedSession) step resumedAt r h : ro_Step r = step -> wpi record_ev orderly (prepare_end step resumedAt r) h (fun h' x =>
  prepared v r h h' x /\ (step <> RotateSendEnd -> match x with Ok r' => kept_record r r' | Err _ => True end)).
Proof.
  intros Hstep. unfold prepare_end, prepared. destruct (ro_EndIssuedAt r) as [issuedAt|] eqn:Ei; [|by split; [split; [ext_here|by left]|]].
  destruct (bool_decide_reflect (step = RotateSendEnd)) as [->|Hne]; [|by split; [split; [ext_here|by left]|]].
  apply wpi_bind. destruct (ro_CheckpointSnapshot r) as [before|] eqn:Ec; [|by split; [split; [ext_here|by left]|]].
  apply wpi_bind. unfold inspect. apply wpi_bind. apply wpi_call. intros shot. split; [done|]. split; [|done]. split; [ext_here|].
  destruct (CheckpointUpdated _ _ _) eqn:Eu; [right|by left]. left. split_and!; [done..|]. destruct shot as [shot|err].
  - exists before, shot, issuedAt. split_and!; try done. by left.
  - by apply updated_determined in Eu.
Qed.

Lemma prepare_exit_wpi v s step resumedAt r h :
  (confirmed SendKindHandoffExit s = confirmed SendKindHandoffExit v) -> (step = RotateSendExit -> ro_Step r = step) ->
  wpi record_ev orderly (prepare_exit u s step resumedAt r) h (prepared v r h).
Proof.
  intros Hc Hstep. unfold prepare_exit. destruct (bool_decide_reflect (step = RotateSendExit)) as [->|Hne]; [|by split; [ext_here|left]].
  apply wpi_call. intros alive. split; [done|]. destruct alive; [by split; [ext_here|left]|].
  destruct (confirmed SendKindHandoffExit s) eqn:E.
  - split; [ext_here|]. right. right. split_and!; [by apply Hstep|done|done|by left].
  - destruct (resume_spawn_kept v s r h) as [_ H]. split; [ext_here|]. destruct (resume_spawn u s r); [|done]. destruct H as [H|H]; [by left|].
    right. eapply resumed_on_later; [|exact H]. by apply suffix_cons_r.
Qed.

Lemma PrepareResume_wpi v h :
  wpi record_ev orderly (PrepareResume u v) h (fun h' x => ext inside h h' /\
    match x with
    | Ok v' => s_State v = SessionRotating /\ s_State v' = s_State v
               /\ exists r r', s_Rotation v = Some r /\ s_Rotation v' = Some r' /\ (ro_Step r' = ro_Step r \/ resumed_on v r r' h')
    | Err _ => True
    end).
Proof.
  unfold PrepareResume. destruct (negb _); [by split; [ext_here|]|]. destruct (validateCore u); [by split; [ext_here|]|].
  destruct (s_Rotation v) as [r|] eqn:Er; [|by split; [ext_here|]].
  destruct (bool_decide_reflect (s_State v = SessionRotating)) as [Est|]; [|by split; [ext_here|]]. cbn [negb]. cbn zeta.
  apply wpi_bind. eapply wpi_mono with (Q := fun h' _ => ext inside h h').
  { destruct (bool_decide _); [apply wpi_call; intros alive; split; [done|ext_here]|ext_here]. }
  intros h1 alive H1. destruct (alive && _); [done|]. apply wpi_bind. eapply wpi_mono with (Q := fun h' _ => ext inside h h').
  { destruct (IsZero _); [apply wpi_call; intros now; split; [done|by apply ext_cons]|done]. }
  intros h2 resumedAt H2. apply wpi_call. intros []. split; [done|]. set (r1 := r <| ro_ResumeEnd := false |> <| ro_ResumeSpawn := false |>).
  assert (ext inside h (Ev DeleteResumeSent () :: h2)) as H2' by (by apply ext_cons).
  apply wpi_bind. eapply wpi_mono; [apply prepare_restart_wpi|]. intros h3 [r2|err] [H3 K3]; [|by split; [eapply ext_trans|]].
  assert (ext inside h h3) as H03 by (by eapply ext_trans). assert (kept_record r r2) as K3' by exact K3.
  apply wpi_bind. eapply wpi_mono; [apply (prepare_end_wpi v); apply K3'|]. intros h4 [r3|err] [[H4 K4] N4]; [|by split; [eapply ext_trans|]].
  assert (ext inside h h4) as H04 by (by eapply ext_trans).
  apply wpi_bind. eapply wpi_mono; [apply (prepare_exit_wpi v v); [done|]|].
  { intros E. transitivity (ro_Step r2); [|apply K3']. apply N4. by rewrite E. }
  intros h5 [r4|err] [H5 K5]; [|by split; [eapply ext_trans|]]. assert (ext inside h h5) as H05 by (by eapply ext_trans).
  assert (ro_Step r4 = ro_Step r \/ resumed_on v r r4 h5) as K.
  { destruct K5 as [K5|K5]; destruct K4 as [K4|K4].
    - left. transitivity (ro_Step r3); [apply K5|]. transitivity (ro_Step r2); [apply K4|apply K3'].
    - right. apply (resumed_on_later v r r4 h4 h5); [by eapply ext_suffix|]. eapply resumed_on_kept; [exact K3'|exact K4|apply K5].
    - right. eapply resumed_on_kept; [|exact K5|done]. by eapply kept_record_trans.
    - by destruct (resumed_on_once _ _ _ _ _ _ K4 K5). }
  split; [done|]. do 2 (split; [done|]). exists r. eexists. split; [done|]. split; [done|].
  destruct K as [K|K]; [left|right; eapply resumed_on_kept; [by split_and!|exact K|]]; by destruct (ro_RespawnWaitUntil _).
Qed.

Lemma steady_Resume s older h :
  ext calm (Ev LoadSession (Ok s) :: older) h -> is_some (s_Rotation s) = true -> steady (Resume u s) h.
Proof.
  intros He Hs. apply steady_stopped; intros h1 He1 H1; [done|]. unfold rotation. destruct (s_Rotation s) as [r|]; [|done].
  apply steady_updated. intros v before h2. cbn zeta. apply wpi_call. intros now. split; [done|]. apply wpi_bind.
  eapply wpi_mono; [apply PrepareResume_wpi|]. intros h3 [v'|err] [H3 K3]; [|split; [|done]].
  2:{ eapply ext_trans; [|exact H3]. ext_here. }
  split; [eapply ext_trans; [|exact H3]; ext_here|]. destruct K3 as (E1 & E2 & rv & rv' & Er & Er' & K3).
  cbn in E1, E2, Er. split.
  - destruct K3 as [K3|K3].
    + apply written_kept; [done|]. unfold step_of. rewrite Er, Er'. cbn. by rewrite K3.
    + eapply (written_resumed _ _ _ rv rv'); try done. congruence.
  - intros. apply steady_end. rotate_solve.
Qed.

Lemma steady_while_running p h : (forall h, steady p h) -> steady (while_running p) h.
Proof.
  intros Hp. apply steady_call; [done|]. intros [|]; cbn [negb]; [|done]. apply steady_bind; [done|]. intros h' err. by apply steady_call.
Qed.

Lemma steady_Execute fuel resumeFrom h : steady (Execute id u fuel resumeFrom) h.
Proof.
  apply steady_while_running. clear h. intros h. apply steady_bind; [|intros h' [err|]; [done|apply steady_run_loop]].
  destruct resumeFrom as [step|]; [|apply steady_Start]. destruct (negb _); [done|]. apply steady_call; [done|]. intros [s|err]; [|done].
  destruct (s_Rotation s) as [r|] eqn:Er; [|done]. destruct (bool_decide _); [|done].
  apply (steady_Resume s h); [apply ext_refl|by rewrite Er].
Qed.

Lemma steady_Run fuel h : steady (Run id u fuel) h.
Proof. unfold Run. destruct (validateCore u); [done|]. apply steady_while_running. intros. apply steady_run_loop. Qed.
End Proofs.

