(* ===== verification/PlanRotation.v ===== *)
(** * When a session is handed over ([internal/supervisor/usecase/plan_rotation.go])

    The decision whether the caller may begin the rotation of a session, from the record,
    the last observation of the screen and the status line. *)

From S2P Require Import Prelude.
From S2P Require Import Errors.
From S2P Require Import Session.
From S2P Require Import Detect.
From S2P Require Import Rotate.

Definition rotationContextPercent : Z := 60.
Definition rotationIdleWait : Duration := 7200 * Second.

Record RotationPlanInput : Type := mkPlanInput {
  pi_Session : ManagedSession;
  pi_Detected : DetectResult;
  StatuslineObservedAt : option Time;
  pi_ObservedState : DetectedState;
  PendingSince : option Time;
  pi_Stopped : bool;
  pi_Resume : bool;
  pi_Now : Time }.

Record RotationPlanDecision : Type := mkDecision {
  pd_Start : bool;
  pd_Pending : bool;
  pd_IdleWaitTimeout : bool;
  pd_ContextUnknown : bool;
  pd_NotApplicable : bool }.

Definition noDecision : RotationPlanDecision := mkDecision false false false false false.

(** The session is working: the rotation waits for it, and says so after two hours. *)
Definition plan_pending (i : RotationPlanInput) : RotationPlanDecision :=
  if bool_decide (pi_ObservedState i = StateWorking)
  then mkDecision false true
         match PendingSince i with Some since => rotationIdleWait <? Sub (pi_Now i) since | None => false end false false
  else noDecision.

(** The context percentage is missing, or older than the child or than its last input. *)
Definition context_unknown (i : RotationPlanInput) : bool :=
  let s := pi_Session i in
  let started := default (s_StateSince s) (s_ChildStartedAt s) in
  match ContextPercent (pi_Detected i), StatuslineObservedAt i with
  | Some _, Some at_ =>
      IsZero at_ || negb (After at_ started)
      || match sg_LastConfirmedAt (s_SendGate s) with Some confirmed => Before at_ confirmed | None => false end
  | _, _ => true
  end.

Definition Evaluate (i : RotationPlanInput) : RotationPlanDecision :=
  let s := pi_Session i in
  if negb (bool_decide (s_CLI s = CLIClaude)) then mkDecision false false false false true
  else if context_unknown i then mkDecision false false false true false
  else if (default 0 (ContextPercent (pi_Detected i)) <=? rotationContextPercent) || pi_Stopped i then noDecision
  else if negb (bool_decide (s_State s = SessionIdle)) && negb (bool_decide (s_State s = SessionAwaitingRecommendation))
          && negb (bool_decide (s_State s = SessionWorking)) then noDecision
  else if is_some (s_Rotation s) && negb (pi_Resume i) then noDecision
  else if bool_decide (s_State s = SessionWorking) then plan_pending i
  else if negb (bool_decide (pi_ObservedState i = StateIdle)) && negb (bool_decide (pi_ObservedState i = StateAwaitingRecommendation))
       then plan_pending i
  else if negb (bool_decide (s_GitPhase s = GitPhaseNone)) && negb (GitPhase_string (s_GitPhase s) =? "")%string then noDecision
  else mkDecision true false false false false.

(** ** Specification vocabulary *)

(** The status line of the child that runs now, seen after its last input was confirmed. *)
Definition context_fresh (i : RotationPlanInput) (percent : Z) : Prop :=
  let s := pi_Session i in
  ContextPercent (pi_Detected i) = Some percent
  /\ exists at_, StatuslineObservedAt i = Some at_ /\ at_ <> zeroTime
     /\ default (s_StateSince s) (s_ChildStartedAt s) < at_
     /\ (forall confirmed, sg_LastConfirmedAt (s_SendGate s) = Some confirmed -> confirmed <= at_).

(** A rotation is due: the context is known to be used up, nothing is stopped, and no
    rotation is under way that is not being resumed. *)
Definition rotation_due (i : RotationPlanInput) : Prop :=
  let s := pi_Session i in
  s_CLI s = CLIClaude
  /\ (exists percent, context_fresh i percent /\ rotationContextPercent < percent)
  /\ pi_Stopped i = false
  /\ s_State s ∈ [SessionIdle; SessionAwaitingRecommendation; SessionWorking]
  /\ (s_Rotation s = None \/ pi_Resume i = true).

Definition plan_settled (i : RotationPlanInput) : Prop :=
  s_State (pi_Session i) <> SessionWorking /\ pi_ObservedState i ∈ [StateIdle; StateAwaitingRecommendation].

Definition git_idle (s : ManagedSession) : Prop := s_GitPhase s = GitPhaseNone \/ GitPhase_string (s_GitPhase s) = "".

(** ** Lemmas *)

Lemma context_unknown_spec i : context_unknown i = false <-> exists percent, context_fresh i percent.
Proof.
  unfold context_unknown, context_fresh. cbv zeta. destruct (ContextPercent (pi_Detected i)) as [percent|]; [|split; [done|intros (? & ? & _); done]].
  destruct (StatuslineObservedAt i) as [at_|]; [|split; [done|intros (? & _ & ? & ? & _); done]].
  unfold IsZero, After, Before. split.
  - intros H. exists percent. split; [done|]. exists at_. apply orb_false_iff in H as [[H1 H2]%orb_false_iff H3].
    repeat split; [lia|lia|]. intros c Hc. rewrite Hc in H3. lia.
  - intros (_ & _ & ? & [= <-] & H1 & H2 & H3). apply orb_false_iff. split; [apply orb_false_iff; lia|].
    destruct (sg_LastConfirmedAt _) as [c|]; [|done]. specialize (H3 c eq_refl). lia.
Qed.

Lemma rotation_due_spec i :
  rotation_due i <->
  negb (bool_decide (s_CLI (pi_Session i) = CLIClaude)) = false /\ context_unknown i = false
  /\ (default 0 (ContextPercent (pi_Detected i)) <=? rotationContextPercent) || pi_Stopped i = false
  /\ negb (bool_decide (s_State (pi_Session i) = SessionIdle)) && negb (bool_decide (s_State (pi_Session i) = SessionAwaitingRecommendation))
     && negb (bool_decide (s_State (pi_Session i) = SessionWorking)) = false
  /\ is_some (s_Rotation (pi_Session i)) && negb (pi_Resume i) = false.
Proof.
  unfold rotation_due. cbv zeta. rewrite context_unknown_spec. split.
  - intros (H1 & (p & Hf & Hp) & H3 & H4 & H5). split; [by rewrite bool_decide_eq_true_2|]. split; [by exists p|].
    split; [destruct Hf as [-> _]; rewrite H3; cbn; lia|]. split.
    + rewrite !list.elem_of_cons in H4. destruct H4 as [->|[->|[->|H4]]]; [done..|by apply not_elem_of_nil in H4].
    + destruct H5 as [->| ->]; [done|by rewrite andb_false_r].
  - intros (H1 & (p & Hf) & H3 & H4 & H5). apply orb_false_iff in H3 as [H3 H3'].
    split; [by apply negb_false_iff, bool_decide_eq_true_1 in H1|]. split; [exists p; split; [done|]; destruct Hf as [Hf _]; rewrite Hf in H3; cbn in H3; lia|].
    split; [done|]. split.
    + rewrite !list.elem_of_cons. apply andb_false_iff in H4 as [[H4|H4]%andb_false_iff|H4];
        apply negb_false_iff, bool_decide_eq_true_1 in H4; auto.
    + apply andb_false_iff in H5 as [H5|H5]; [left; by destruct (s_Rotation _)|right; by destruct (pi_Resume i)].
Qed.

Lemma plan_settled_spec i :
  plan_settled i <-> bool_decide (s_State (pi_Session i) = SessionWorking) = false
    /\ negb (bool_decide (pi_ObservedState i = StateIdle)) && negb (bool_decide (pi_ObservedState i = StateAwaitingRecommendation)) = false.
Proof.
  unfold plan_settled. rewrite !list.elem_of_cons, bool_decide_eq_false, andb_false_iff, !negb_false_iff, !bool_decide_eq_true.
  split; intros [H1 H2]; (split; [done|]); [destruct H2 as [|[|H2]]; auto; by apply not_elem_of_nil in H2|destruct H2; auto].
Qed.

Lemma git_idle_spec s :
  git_idle s <-> negb (bool_decide (s_GitPhase s = GitPhaseNone)) && negb (GitPhase_string (s_GitPhase s) =? "")%string = false.
Proof. unfold git_idle. by rewrite andb_false_iff, !negb_false_iff, bool_decide_eq_true, String.eqb_eq. Qed.

Lemma plan_pending_spec i :
  pd_Start (plan_pending i) = false
  /\ (pd_Pending (plan_pending i) = true <-> pi_ObservedState i = StateWorking)
  /\ (pd_IdleWaitTimeout (plan_pending i) = true <-> pi_ObservedState i = StateWorking
       /\ exists since, PendingSince i = Some since /\ rotationIdleWait < Sub (pi_Now i) since).
Proof.
  unfold plan_pending. destruct (bool_decide_reflect (pi_ObservedState i = StateWorking)) as [H|H]; cbn.
  2:{ split; [done|]. split; [split; [done|by intros K]|split; [done|by intros [K _]]]. }
  split; [done|]. split; [done|]. split.
  - destruct (PendingSince i) as [t|]; [|done]. intros Ht. split; [done|]. exists t. split; [done|lia].
  - intros (_ & t & -> & Ht). lia.
Qed.

(** A branch of the decision: what it answers, and which of the conditions hold on it. *)
Ltac branch := cbn [negb pd_Start pd_Pending pd_IdleWaitTimeout pd_ContextUnknown pd_NotApplicable noDecision]; split_and!; split; intros; intuition congruence.

(** ** Theorems *)

(** The decision, branch by branch, against its conditions: a rotation starts exactly
    when it is due and the session is settled, on the record and on the screen, outside a
    git phase; it is pending exactly when it is due and the screen is working; the pending
    one is overdue after two hours; the context is called unknown exactly for a Claude
    session without a fresh status line. *)
Theorem rotation_plan_correct (i : RotationPlanInput) :
  (pd_Start (Evaluate i) = true <-> rotation_due i /\ plan_settled i /\ git_idle (pi_Session i))
  /\ (pd_Pending (Evaluate i) = true <-> rotation_due i /\ ~ plan_settled i /\ pi_ObservedState i = StateWorking)
  /\ (pd_IdleWaitTimeout (Evaluate i) = true <-> pd_Pending (Evaluate i) = true
       /\ exists since, PendingSince i = Some since /\ rotationIdleWait < Sub (pi_Now i) since)
  /\ (pd_ContextUnknown (Evaluate i) = true <-> s_CLI (pi_Session i) = CLIClaude /\ ~ exists percent, context_fresh i percent)
  /\ (pd_NotApplicable (Evaluate i) = true <-> s_CLI (pi_Session i) <> CLIClaude).
Proof.
  pose proof (plan_pending_spec i) as (P1 & P2 & P3).
  assert (pd_ContextUnknown (plan_pending i) = false /\ pd_NotApplicable (plan_pending i) = false) as [P4 P5]
    by (unfold plan_pending; by case_match).
  rewrite rotation_due_spec, plan_settled_spec, git_idle_spec, <- context_unknown_spec. unfold Evaluate. cbv zeta.
  assert (forall i', pd_Pending (plan_pending i') = false -> pd_IdleWaitTimeout (plan_pending i') = false) as P6
    by (intros i'; unfold plan_pending; by case_match).
  destruct (bool_decide_reflect (s_CLI (pi_Session i) = CLIClaude)) as [HC|HC]; [|branch].
  destruct (context_unknown i); [branch|]. destruct (_ || pi_Stopped i); [branch|].
  destruct (negb (bool_decide (s_State _ = _)) && _ && _); [branch|]. destruct (is_some _ && _); [branch|].
  destruct (bool_decide (s_State _ = SessionWorking)); [branch|].
  destruct (negb (bool_decide (pi_ObservedState _ = _)) && _); [branch|].
  destruct (negb _ && negb _); branch.
Qed.

(** A decision to start a rotation that is not being resumed is one that the rotation
    itself accepts: on the record that was planned with, [begin_rotation] enters the first
    stage, whatever the time is by then. *)
Theorem planned_rotation_begins (i : RotationPlanInput) (now : Time) :
  pd_Start (Evaluate i) = true -> pi_Resume i = false ->
  exists s pending, begin_rotation now (pi_Session i) = Ok (s, pending) /\ s_State s = SessionRotating /\ s_CLI s = CLIClaude.
Proof.
  intros HS HR. apply rotation_plan_correct in HS as ((HC & _ & _ & Hst & Hrot) & [Hw _] & Hg). rewrite HR in Hrot.
  destruct Hrot as [Hrot|Hrot]; [|done]. apply git_idle_spec in Hg.
  assert (may_rotate (pi_Session i) = None) as Hm.
  { unfold may_rotate. rewrite Hrot, Hg. rewrite !list.elem_of_cons in Hst.
    destruct Hst as [->|[->|[Hst|Hst]]]; [done..| |by apply not_elem_of_nil in Hst]. done. }
  unfold begin_rotation. rewrite Hm. destruct (pi_Session i) as [? ? ? ? cli ? st ? ? ? ? ? ? ? ? ? ? ? ? rot].
  cbn [Session.s_State Session.s_CLI] in *. subst cli. rewrite !list.elem_of_cons in Hst.
  destruct Hst as [->|[->|[Hst|Hst]]]; [by do 2 eexists..|done|by apply not_elem_of_nil in Hst].
Qed.

(** An idle Claude session whose context is used up to 75 per cent. *)
Definition full_session : RotationPlanInput :=
  mkPlanInput (example_session <| s_CLI := CLIClaude |> <| s_State := SessionIdle |>)
    (mkDetectResult StateIdle [] false (Some 75) "" PermissionDefaultOrUnknown) (Some (1000000 * Second)) StateIdle None false false 0.

Lemma planned_rotation_begins_witness :
  exists s pending, begin_rotation 7 (pi_Session full_session) = Ok (s, pending) /\ s_State s = SessionRotating /\ s_CLI s = CLIClaude.
Proof. apply planned_rotation_begins; vm_compute; reflexivity. Defined.
