(* ===== verification/Interleave.v ===== *)
(** * Goroutines that share a memory

    Programs over the same effects that run side by side: each step answers the next call
    of one of them, and changes what they share.  A program may start others, and others
    may come in at any time.  An invariant of all interleavings is proved one call at a
    time: every goroutine plays a role, and the invariant is about the memory and the roles. *)

From S2P Require Import Prelude.
From S2P Require Import Effects.

Section Pool.
Context {E : Type -> Type} {Mem : Type}.
Context (mem_step : forall X, E X -> Mem -> X -> Mem -> Prop).
Context (forks : forall X, E X -> list (prog E unit) -> Prop) (enters : prog E unit -> Prop).

Inductive pool_step : Mem * list (prog E unit) -> Mem * list (prog E unit) -> Prop :=
| pool_enter m ts p : enters p -> pool_step (m, ts) (m, ts ++ [p])
| pool_run m ts1 X (e : E X) k ts2 x m' new :
    mem_step X e m x m' -> forks X e new -> pool_step (m, ts1 ++ Vis e k :: ts2) (m', ts1 ++ k x :: ts2 ++ new).

Definition pool_reach (m0 : Mem) (c : Mem * list (prog E unit)) : Prop := rtc pool_step (m0, []) c.

Section Roles.
Context {Role : Type} (typed : Role -> prog E unit -> Prop) (inv : Mem -> list Role -> Prop).
Hypothesis inv_enter : forall m rs p, enters p -> inv m rs -> exists r, typed r p /\ inv m (rs ++ [r]).
Hypothesis inv_run : forall m rs1 r rs2 X (e : E X) k x m' new,
  typed r (Vis e k) -> inv m (rs1 ++ r :: rs2) -> mem_step X e m x m' -> forks X e new ->
  exists r' rnew, typed r' (k x) /\ Forall2 typed rnew new /\ inv m' (rs1 ++ r' :: rs2 ++ rnew).

Lemma pool_invariant m0 m ts : inv m0 [] -> pool_reach m0 (m, ts) -> exists rs, Forall2 typed rs ts /\ inv m rs.
Proof.
  intros H0 Hr. enough (forall c, pool_reach m0 c -> exists rs, Forall2 typed rs c.2 /\ inv c.1 rs) as H by exact (H _ Hr).
  clear m ts Hr. unfold pool_reach. apply rtc_ind_r; [by exists []|].
  intros c c' _ Hs (rs & Ht & Hi). destruct Hs as [m1 ts1 p Hp|m1 ts1 X e k ts2 x m' new Hm Hf]; cbn in *.
  - destruct (inv_enter _ _ _ Hp Hi) as (r & Hr & Hi'). exists (rs ++ [r]). split; [|done].
    apply Forall2_app; [done|]. by repeat constructor.
  - apply Forall2_app_inv_r in Ht as (rs1 & [|r rs2] & H1 & H2 & ->); [by inversion H2|].
    apply list.Forall2_cons in H2 as [Hr H2].
    destruct (inv_run _ _ _ _ _ _ _ _ _ _ Hr Hi Hm Hf) as (r' & rnew & Hr' & Hn & Hi'). exists (rs1 ++ r' :: rs2 ++ rnew). split; [|done].
    apply Forall2_app; [done|]. constructor; [done|]. by apply Forall2_app.
Qed.
End Roles.
End Pool.
