(* ===== verification/AutoContinue.v ===== *)
(** * Continuing on a recommendation ([internal/supervisor/usecase/auto_continue.go])

    A session that waits with a recommendation is told to go on, if nothing speaks against
    it: at most five times in a row, never twice for the same recommendation, never for a
    forbidden one.  What is remembered of each session is shared by the goroutines that
    observe it, send to it, stop and resume it; each operation on it is one critical
    section under [u.mu].  An evaluation is a program over these sections and over the
    effects of [SupEff] on its session. *)

From S2P Require Import Prelude.
From S2P Require Import GoStrings.
From S2P Require Import UTF8.
From S2P Require Import Errors.
From S2P Require Import TextPolicy.
From S2P Require Import Session.
From S2P Require Import SendGate.
From S2P Require Import Effects.
From S2P Require Import SendInput.
From S2P Require Import SupEff.
From S2P Require Import PlanRotation.

Definition autoContinueMaxConsecutive : Z := 5.

(** [ContextPercent] is nil for an unknown percentage. *)
Record AutoContinueInput : Type := mkAcInput {
  ai_SessionID : string;
  ai_Rows : list row;
  ai_ContextPercent : option Z;
  EnteredFromWorking : bool;
  RequireSettle : bool;
  Settled : bool;
  StaySince : Time }.

Record autoContinueState : Type := mkAcState {
  as_hash : string;
  hasHash : bool;
  as_count : Z;
  as_issuedAt : Time;
  eligibleSince : Time;
  resetAt : Time;
  as_generation : Z }.

Definition noAcState : autoContinueState := mkAcState "" false 0 zeroTime zeroTime zeroTime 0.

#[export] Instance autoContinueState_settable : Settable autoContinueState := fun s =>
  mkAcState (as_hash s) (hasHash s) (as_count s) (as_issuedAt s) (eligibleSince s) (resetAt s) (as_generation s).

(** [before]: whether it is given; the context of a request plays no part. *)
Record autoContinueRequest : Type := mkAcRequest { ar_in : AutoContinueInput; ar_before : bool }.

(** ** The memory *)

(** [states] is nil until something is remembered; for the other two maps a nil map is an
    empty one. *)
Record AcMemory : Type := mkAcMemory {
  ac_states : option (gmap string autoContinueState);
  ac_inflight : gmap string bool;
  ac_pending : gmap string autoContinueRequest }.

Definition state (id : string) (m : AcMemory) : autoContinueState :=
  default noAcState (match ac_states m with Some states => states !! id | None => None end).

Definition Count (id : string) (m : AcMemory) : Z := as_count (state id m).

Definition made (m : AcMemory) : gmap string autoContinueState := default ∅ (ac_states m).

Definition set_states (states : gmap string autoContinueState) (m : AcMemory) : AcMemory :=
  mkAcMemory (Some states) (ac_inflight m) (ac_pending m).

Definition ClearCandidate (id : string) (m : AcMemory) : AcMemory :=
  match ac_states m with
  | None => m
  | Some states => set_states (<[id := state id m <| eligibleSince := zeroTime |>]> states) m
  end.

Definition Reset (id : string) (now : Time) (m : AcMemory) : AcMemory :=
  match ac_states m with
  | None => m
  | Some states =>
      let s := state id m <| as_count := 0 |> in
      let s := if negb (IsZero (as_issuedAt s)) && negb (After (eligibleSince s) (as_issuedAt s))
               then s <| eligibleSince := zeroTime |> else s in
      set_states (<[id := s <| resetAt := now |> <| as_generation := wrap_uint64 (as_generation s + 1) |>]> states) m
  end.

Definition RecordIssued (id hash : string) (at_ : Time) (m : AcMemory) : AcMemory :=
  let s := state id m in
  if Before at_ (resetAt s) then set_states (made m) m
  else set_states (<[id := s <| as_hash := hash |> <| hasHash := true |> <| as_issuedAt := at_ |>]> (made m)) m.

Definition entered (id : string) (since : Time) (m : AcMemory) : AcMemory :=
  let s := state id m in
  set_states (<[id := if After since (eligibleSince s) then s <| eligibleSince := since |> else s]> (made m)) m.

Definition incrementIfGeneration (id : string) (generation : Z) (m : AcMemory) : AcMemory :=
  let s := state id m in
  if negb (as_generation s =? generation) then m
  else set_states (<[id := s <| as_count := as_count s + 1 |>]> (made m)) m.

Definition begin (request : autoContinueRequest) (m : AcMemory) : AcMemory * bool :=
  let id := ai_SessionID (ar_in request) in
  if default false (ac_inflight m !! id)
  then (mkAcMemory (ac_states m) (ac_inflight m) (<[id := request]> (ac_pending m)), false)
  else (mkAcMemory (ac_states m) (<[id := true]> (ac_inflight m)) (ac_pending m), true).

Definition next (id : string) (m : AcMemory) : AcMemory * option autoContinueRequest :=
  match ac_pending m !! id with
  | Some request => (mkAcMemory (ac_states m) (ac_inflight m) (delete id (ac_pending m)), Some request)
  | None => (mkAcMemory (ac_states m) (delete id (ac_inflight m)) (delete id (ac_pending m)), None)
  end.

(** ** Effects *)

(** The critical sections, the sender, the function that a request brings along, the start
    of a goroutine that runs a request, and what is done with one session. *)
Inductive AcEff : Type -> Type :=
| StateOf (id : string) : AcEff autoContinueState
| ClearCandidateOf (id : string) : AcEff unit
| ResetOf (id : string) : AcEff Time
| RecordIssuedOf (id hash : string) (at_ : Time) : AcEff unit
| EnteredOf (id : string) (since : Time) : AcEff unit
| IncrementIfGeneration (id : string) (generation : Z) : AcEff unit
| Begin (request : autoContinueRequest) : AcEff bool
| Next (id : string) : AcEff (option autoContinueRequest)
| Execute (id : string) (kind : SupervisorSendKind) (hash : string) : AcEff (SendResult * option error)
| BeforeRequest (id : string) : AcEff (option error)
| GoRun (request : autoContinueRequest) : AcEff unit
| Sup (id : string) {X : Type} (e : SupEff.Eff X) : AcEff X.

(** What a section does with the memory, and its answer; [Reset] reads the clock. *)
Definition mem_step (X : Type) (e : AcEff X) (m : AcMemory) (x : X) (m' : AcMemory) : Prop :=
  match e in AcEff X return X -> Prop with
  | StateOf id => fun x => x = state id m /\ m' = m
  | ClearCandidateOf id => fun _ => m' = ClearCandidate id m
  | ResetOf id => fun now => m' = Reset id now m
  | RecordIssuedOf id hash at_ => fun _ => m' = RecordIssued id hash at_ m
  | EnteredOf id since => fun _ => m' = entered id since m
  | IncrementIfGeneration id generation => fun _ => m' = incrementIfGeneration id generation m
  | Begin request => fun x => (m', x) = begin request m
  | Next id => fun x => (m', x) = next id m
  | _ => fun _ => m' = m
  end x.

Abbreviation AcM := (prog AcEff).

(** What is done with one session. *)
Fixpoint sup (id : string) {A : Type} (p : SupEff.M A) : AcM A :=
  match p with
  | Ret a => Ret a
  | Vis e k => Vis (Sup id e) (fun x => sup id (k x))
  end.

(** ** The use case *)

(** Which of its fields are set. *)
Record AutoContinueUseCase : Type := mkAcUseCase {
  ac_Sessions : bool;
  ac_Send : bool;
  ac_IsStopped : bool;
  ac_RecordStructured : bool;
  ac_Notify : bool;
  ac_bound : bool;
  ac_Extractor : RecommendationExtractor }.

(** A field that is set already stays as it is. *)
Definition Bind (sessions send stopped record notify : bool) (u : AutoContinueUseCase) : AutoContinueUseCase :=
  if ac_bound u then u
  else mkAcUseCase (ac_Sessions u || sessions) (ac_Send u || send) (ac_IsStopped u || stopped)
         (ac_RecordStructured u || record) (ac_Notify u || notify) true (ac_Extractor u).

(** [store.EventReason(category)] *)
Definition Category_string (c : Category) : string :=
  match c with
  | CategoryForcePush => "force_push"
  | CategoryPullRequest => "pull_request"
  | CategoryDeploy => "deploy"
  | CategoryDeletion => "deletion"
  | CategoryProduction => "production"
  | CategoryBilling => "billing"
  | CategoryGitHistory => "git_history"
  | CategoryMigration => "migration"
  | CategoryPrivilege => "privilege"
  end.

(** What becomes of a recommendation: nothing, the session stops and waits for the
    operator, or the session is told to go on. *)
Inductive verdict : Type :=
| Leave
| Block (reason : string) (stop : SupervisorStopReason) (code : string)
| Continue (hash : string).

Definition undetermined : verdict := Block "undetermined" StopRecommendationUndetermined "SUP_RECOMMENDATION_UNDETERMINED".

Section AutoContinue.
Context `{UnicodeTables} (Sum256 : list Z -> string).

(** Whether the session may go on, as far as its record and the input tell. *)
Definition admissible (i : AutoContinueInput) (s : ManagedSession) : bool :=
  if negb (bool_decide (s_StopScope s = StopScopeNone)) && negb (SupervisorStopScope_string (s_StopScope s) =? "")%string then false
  else if match ai_ContextPercent i with None => true | Some percent => rotationContextPercent <? percent end then false
  else if negb (bool_decide (s_GitPhase s = GitPhaseNone)) && negb (GitPhase_string (s_GitPhase s) =? "")%string
          || negb (AutoContinueDisabledReason_string (s_AutoContinueDisabledReason s) =? "")%string
          || is_some (s_Rotation s) then false
  else negb (RequireSettle i && negb (Settled i)).

(** What the recommendation on the screen leads to, after what is remembered. *)
Definition judge (x : RecommendationExtractor) (rows : list row) (st : autoContinueState) : verdict :=
  if IsZero (eligibleSince st) || negb (After (eligibleSince st) (as_issuedAt st)) then Leave
  else
    let '(body, ok) := Extract x rows in
    if negb ok then undetermined
    else
      let hash := Sum256 (NormalizeRecommendationForHash (string_of_runes body)) in
      if hasHash st && (hash =? as_hash st)%string
      then Block "repeated" StopRecommendationRepeated "SUP_RECOMMENDATION_REPEATED"
      else match Classify (string_of_runes body) with
      | None => undetermined
      | Some (category :: _) => Block (Category_string category) StopRecommendationForbidden "SUP_RECOMMENDATION_FORBIDDEN"
      | Some [] =>
          if autoContinueMaxConsecutive <=? as_count st
          then Block "consecutive_limit" StopAutoContinueLimit "SUP_AUTO_CONTINUE_LIMIT_REACHED"
          else Continue hash
      end.

Section UseCase.
Context (u : AutoContinueUseCase).

(** The update of [block]: whether the session has been stopped. *)
Definition block_update (since : Time) (stop : SupervisorStopReason) (s : ManagedSession) : SupEff.M (res (ManagedSession * bool)) :=
  if bool_decide (s_State s = SessionAwaitingRecommendation) && (s_StateSince s =? since) then
    now ← call Now;
    mret (match apply EventStop (no_context <| c_StopReason := stop |>) now (s <| s_PreviousState := s_State s |>) with
          | Ok s => Ok (s, true)
          | Err err => Err err
          end)
  else mret (Ok (s, false)).

Definition block (id : string) (since : Time) (reason : string) (stop : SupervisorStopReason) (code : string)
    : SupEff.M (option error) :=
  blocked ← UpdateSession (block_update since stop);
  match blocked with
  | Err err => mret (Some err)
  | Ok false => mret None
  | Ok true =>
      unless_error
        (if ac_RecordStructured u then call (RecordStructured (plain_event EventKindRecommendationBlocked code reason)) else mret None)
        ((if ac_Notify u then call (Notify EventKindRecommendationBlocked id) else mret tt);; mret None)
  end.

(** The candidate is sent, unless the memory has been reset since it was read. *)
Definition continue (id hash : string) (generation : Z) : AcM (option error) :=
  if negb (ac_Send u) then mret None
  else
    now ← call (StateOf id);
    if negb (as_generation now =? generation) then mret None
    else
      '(result, err) ← call (Execute id SendKindRecommendationContinue hash);
      match err with
      | Some _ => mret err
      | None =>
          (if Confirmed result then call (IncrementIfGeneration id generation) else mret tt);;
          mret None
      end.

Definition evaluate (i : AutoContinueInput) : AcM (option error) :=
  let id := ai_SessionID i in
  if negb (ac_Sessions u) then mret None
  else
    loaded ← sup id (call LoadSession);
    match loaded with
    | Err err => mret (Some err)
    | Ok s =>
        if negb (bool_decide (s_State s = SessionAwaitingRecommendation)) then mret None
        else if negb (IsZero (StaySince i)) && negb (StaySince i =? s_StateSince s) then mret None
        else
          st ← call (StateOf id);
          stopped ← (if ac_IsStopped u then sup id (call IsStopped) else mret false);
          if (stopped : bool) || negb (admissible i s) then mret None
          else match judge (ac_Extractor u) (ai_Rows i) st with
          | Leave => mret None
          | Block reason stop code => sup id (block id (s_StateSince s) reason stop code)
          | Continue hash => continue id hash (as_generation st)
          end
    end.

(** One request after the other, while others come in. *)
Fixpoint run (fuel : nat) (request : autoContinueRequest) : AcM (option error) :=
  match fuel with
  | O => sup (ai_SessionID (ar_in request)) out_of_fuel
  | S fuel =>
      err ← (if ar_before request then call (BeforeRequest (ai_SessionID (ar_in request))) else mret None);
      err ← (match err with Some _ => mret err | None => evaluate (ar_in request) end);
      request ← call (Next (ai_SessionID (ar_in request)));
      match request with None => mret err | Some request => run fuel request end
  end.

(** The candidate of a session that has just come back from work. *)
Definition enter (i : AutoContinueInput) : AcM unit :=
  if EnteredFromWorking i && ac_Sessions u then
    loaded ← sup (ai_SessionID i) (call LoadSession);
    match loaded with
    | Ok s =>
        if bool_decide (s_State s = SessionAwaitingRecommendation) then call (EnteredOf (ai_SessionID i) (s_StateSince s)) else mret tt
    | Err _ => mret tt
    end
  else mret tt.

Definition EvaluateAsync (i : AutoContinueInput) (before : bool) : AcM unit :=
  enter i;;
  begun ← call (Begin (mkAcRequest i before));
  if (begun : bool) then call (GoRun (mkAcRequest i before)) else mret tt.

Definition EvaluateNow (fuel : nat) (i : AutoContinueInput) : AcM (option error) :=
  enter i;;
  begun ← call (Begin (mkAcRequest i false));
  if (begun : bool) then run fuel (mkAcRequest i false) else mret None.

End UseCase.
End AutoContinue.
