(* ===== verification/AutoContinueOk.v ===== *)
(** * Automatic continuations, in every interleaving

    The evaluations of all sessions, the resets and the recorded sends run side by side on
    the shared memory.  Whoever has begun an evaluation of a session holds a token for it,
    which is handed over to the goroutine that runs it and given back by the last [next]. *)

From S2P Require Import Prelude.
From S2P Require Import Errors.
From S2P Require Import TextPolicy.
From S2P Require Import Session.
From S2P Require Import SendGate.
From S2P Require Import Effects.
From S2P Require Import SendInput.
From S2P Require Import SupEff.
From S2P Require Import Interleave.
From S2P Require Import AutoContinue.

(** ** The memory *)

Lemma made_state id m : default noAcState (made m !! id) = state id m.
Proof. unfold made, state. by destruct (ac_states m). Qed.

Lemma state_insert id id' s m :
  state id (set_states (<[id' := s]> (made m)) m) = if bool_decide (id = id') then s else state id m.
Proof.
  unfold state at 1. cbn. case_bool_decide as E; [subst; by rewrite lookup_insert_eq|]. by rewrite lookup_insert_ne, made_state.
Qed.

(** A section that neither starts nor ends an evaluation, nor counts. *)
Definition calm (m m' : AcMemory) : Prop :=
  ac_inflight m' = ac_inflight m /\ ac_pending m' = ac_pending m
  /\ forall id, Count id m' = Count id m \/ Count id m' = 0.

Lemma calm_refl m : calm m m.
Proof. repeat split. by left. Qed.

Lemma calm_insert id s m : as_count s = Count id m \/ as_count s = 0 -> calm m (set_states (<[id := s]> (made m)) m).
Proof.
  intros Hs. split; [done|]. split; [done|]. intros id'. unfold Count at 1 3. rewrite state_insert.
  case_bool_decide; [by subst|by left].
Qed.

Lemma calm_ClearCandidate id m : calm m (ClearCandidate id m).
Proof.
  unfold ClearCandidate. destruct (ac_states m) as [states|] eqn:E; [|apply calm_refl].
  replace states with (made m) by (unfold made; by rewrite E). apply calm_insert. by left.
Qed.

Lemma calm_Reset id now m : calm m (Reset id now m).
Proof.
  unfold Reset. destruct (ac_states m) as [states|] eqn:E; [|apply calm_refl].
  replace states with (made m) by (unfold made; by rewrite E). apply calm_insert. right. by case_match.
Qed.

Lemma calm_RecordIssued id hash at_ m : calm m (RecordIssued id hash at_ m).
Proof.
  unfold RecordIssued. case_match; [|apply calm_insert; by left].
  split; [done|]. split; [done|]. intros id'. left. unfold Count, state at 1. cbn. by rewrite made_state.
Qed.

Lemma calm_entered id since m : calm m (entered id since m).
Proof. apply calm_insert. left. by case_match. Qed.

Lemma increment_count id id' generation m :
  Count id (incrementIfGeneration id' generation m) = Count id m
  \/ id = id' /\ Count id (incrementIfGeneration id' generation m) = Count id m + 1.
Proof.
  unfold incrementIfGeneration. case_match; [by left|]. unfold Count. rewrite state_insert. case_bool_decide; [subst; by right|by left].
Qed.

Lemma increment_rest id generation m :
  ac_inflight (incrementIfGeneration id generation m) = ac_inflight m /\ ac_pending (incrementIfGeneration id generation m) = ac_pending m.
Proof. unfold incrementIfGeneration. by case_match. Qed.

(** ** The goroutines *)

Section Goroutines.
Context `{UnicodeTables} (Sum256 : list Z -> string) (u : AutoContinueUseCase).

(** What others call: the observer, the sender, the stop, the rotation and the resumption. *)
Inductive enters : AcM unit -> Prop :=
| enters_async i before : enters (EvaluateAsync u i before)
| enters_now fuel i : enters (EvaluateNow Sum256 u fuel i;; mret tt)
| enters_count id : enters (call (StateOf id);; mret tt)
| enters_clear id : enters (call (ClearCandidateOf id))
| enters_reset id : enters (call (ResetOf id);; mret tt)
| enters_issued id hash at_ : enters (call (RecordIssuedOf id hash at_))
| enters_entered id since : enters (call (EnteredOf id since)).

Definition forks (X : Type) (e : AcEff X) (new : list (AcM unit)) : Prop :=
  match e with
  | GoRun request => exists fuel, new = [run Sum256 u fuel request;; mret tt]
  | _ => new = []
  end.

Definition noMemory : AcMemory := mkAcMemory None ∅ ∅.

(** What is reached from the start of the process. *)
Definition ac_reach : AcMemory * list (AcM unit) -> Prop := pool_reach mem_step forks enters noMemory.

(** ** Specification vocabulary *)

(** The goroutine is in the sender with a continuation of the session. *)
Definition sending (id : string) (t : AcM unit) : bool :=
  match t with Vis e _ => match e with Execute id' _ _ => bool_decide (id' = id) | _ => false end | Ret _ => false end.

(** It cannot end without asking for the next request of the session, or handing over to a
    goroutine that does. *)
Fixpoint owes (id : string) (t : AcM unit) : Prop :=
  match t with
  | Ret _ => False
  | Vis e k =>
      match e with Next id' => id' = id | GoRun request => ai_SessionID (ar_in request) = id | _ => False end
      \/ forall x, owes id (k x)
  end.

(** ** Roles *)

(** The token of a session, with a bound of what its counter can be now. *)
Definition Role : Type := option (string * Z).

Definition role_after {X : Type} (e : AcEff X) (r : Role) (x : X) : option Role :=
  match r with
  | None =>
      match e in AcEff X return X -> option Role with
      | Begin request => fun x => Some (if x then Some (ai_SessionID (ar_in request), autoContinueMaxConsecutive) else None)
      | IncrementIfGeneration _ _ | Next _ | Execute _ _ _ | BeforeRequest _ | GoRun _ => fun _ => None
      | _ => fun _ => Some None
      end x
  | Some (id, bound) =>
      match e in AcEff X return X -> option Role with
      | StateOf id' => fun x => if bool_decide (id' = id) then Some (Some (id, Z.min bound (as_count x))) else None
      | IncrementIfGeneration id' _ => fun _ =>
          if bool_decide (id' = id) && (bound <? autoContinueMaxConsecutive) then Some (Some (id, bound + 1)) else None
      | Execute id' _ _ => fun _ => if bool_decide (id' = id) && (bound <? autoContinueMaxConsecutive) then Some (Some (id, bound)) else None
      | Next id' => fun x =>
          if bool_decide (id' = id) then
            Some match x with Some request => Some (ai_SessionID (ar_in request), autoContinueMaxConsecutive) | None => None end
          else None
      | GoRun request => fun _ => if bool_decide (ai_SessionID (ar_in request) = id) then Some None else None
      | Sup _ _ | BeforeRequest _ => fun _ => Some (Some (id, bound))
      | _ => fun _ => None
      end x
  end.

Fixpoint plays {A : Type} (r : Role) (p : AcM A) (Q : Role -> A -> Prop) : Prop :=
  match p with
  | Ret a => Q r a
  | Vis e k => forall x, exists r', role_after e r x = Some r' /\ plays r' (k x) Q
  end.

Lemma plays_bind {A B : Type} r (p : AcM A) (f : A -> AcM B) Q :
  plays r p (fun r a => plays r (f a) Q) -> plays r (p ≫= f) Q.
Proof.
  revert r. induction p as [a|X e k IH]; intros r; [done|]. intros Hp x. destruct (Hp x) as (r' & Hr & Hk). exists r'. split; [done|]. by apply IH.
Qed.

Lemma plays_mono {A : Type} r (p : AcM A) (Q Q' : Role -> A -> Prop) :
  plays r p Q -> (forall r a, Q r a -> Q' r a) -> plays r p Q'.
Proof.
  revert r. induction p as [a|X e k IH]; intros r; cbn; [auto|]. intros Hp HQ x. destruct (Hp x) as (r' & Hr & Hk). exists r'. eauto.
Qed.

(** What is done with a session itself leaves the role alone. *)
Lemma plays_sup {A : Type} r id (p : SupEff.M A) : plays r (sup id p) (fun r' _ => r' = r).
Proof. induction p as [a|X e k IH]; [done|]. intros x. exists r. split; [by destruct r as [[]|]|apply IH]. Qed.

Lemma plays_sup_bind {A B : Type} r id (p : SupEff.M A) (f : A -> AcM B) Q :
  (forall a, plays r (f a) Q) -> plays r (sup id p ≫= f) Q.
Proof. intros Hf. apply plays_bind. eapply plays_mono; [apply plays_sup|]. by intros ? a ->. Qed.

(** *** The programs and their roles *)

Lemma plays_continue id hash generation bound :
  bound < autoContinueMaxConsecutive ->
  plays (Some (id, bound)) (continue u id hash generation) (fun r _ => exists bound, r = Some (id, bound)).
Proof.
  intros Hb. unfold continue. destruct (negb (ac_Send u)); [cbn; eauto|]. intros now. cbn. rewrite bool_decide_eq_true_2 by done.
  eexists. split; [done|]. destruct (negb _); [cbn; eauto|]. intros [result err]. cbn. rewrite bool_decide_eq_true_2 by done.
  replace (Z.min bound (as_count now) <? autoContinueMaxConsecutive) with true by lia.
  eexists. split; [done|]. destruct err; [cbn; eauto|]. destruct (Confirmed result); [|cbn; eauto].
  intros []. cbn. rewrite bool_decide_eq_true_2 by done. replace (Z.min bound (as_count now) <? autoContinueMaxConsecutive) with true by lia.
  eexists. split; [done|]. cbn. eauto.
Qed.

Lemma judge_count x rows st hash : judge Sum256 x rows st = Continue hash -> as_count st < autoContinueMaxConsecutive.
Proof. unfold judge. intros. repeat case_match; try done; lia. Qed.

Lemma plays_evaluate i bound :
  plays (Some (ai_SessionID i, bound)) (evaluate Sum256 u i) (fun r _ => exists bound, r = Some (ai_SessionID i, bound)).
Proof.
  unfold evaluate. destruct (negb (ac_Sessions u)); [cbn; eauto|]. apply plays_sup_bind. intros [s|err]; [|cbn; eauto].
  destruct (negb _); [cbn; eauto|]. destruct (_ && _); [cbn; eauto|]. intros st. cbn [role_after]. rewrite bool_decide_eq_true_2 by done.
  eexists. split; [done|]. cbn [prog_bind].
  assert (forall stopped : bool, plays (Some (ai_SessionID i, Z.min bound (as_count st)))
    (if stopped || negb (admissible i s) then mret None
     else match judge Sum256 (ac_Extractor u) (ai_Rows i) st with
          | Leave => mret None
          | Block reason stop code => sup (ai_SessionID i) (block u (ai_SessionID i) (s_StateSince s) reason stop code)
          | Continue hash => continue u (ai_SessionID i) hash (as_generation st)
          end) (fun r _ => exists bound, r = Some (ai_SessionID i, bound))) as Hgo.
  { intros stopped. destruct (_ || _); [cbn; eauto|]. destruct (judge _ _ _ _) as [|reason stop code|hash] eqn:Ej; [cbn; eauto| |].
    - eapply plays_mono; [apply plays_sup|]. intros ? ? ->. eauto.
    - apply plays_continue. apply judge_count in Ej. lia. }
  destruct (ac_IsStopped u); [|apply (Hgo false)]. apply plays_sup_bind. exact Hgo.
Qed.

Lemma plays_run fuel request :
  plays (Some (ai_SessionID (ar_in request), autoContinueMaxConsecutive)) (run Sum256 u fuel request) (fun r _ => r = None).
Proof.
  revert request. induction fuel as [|fuel IH]; intros request; [intros []|]. cbn [run]. apply plays_bind.
  assert (forall bound err, plays (Some (ai_SessionID (ar_in request), bound))
    (err ← (match (err : option error) with Some _ => mret err | None => evaluate Sum256 u (ar_in request) end);
     r ← call (Next (ai_SessionID (ar_in request)));
     match r with None => mret err | Some request => run Sum256 u fuel request end) (fun r _ => r = None)) as Hgo.
  { intros bound err. apply plays_bind. eapply plays_mono with (Q := fun r _ => exists bound, r = Some (ai_SessionID (ar_in request), bound)).
    - destruct err; [cbn; eauto|apply plays_evaluate].
    - intros ? ? [bound' ->]. intros r. cbn [role_after]. rewrite bool_decide_eq_true_2 by done. eexists. split; [done|].
      destruct r as [request'|]; [apply IH|done]. }
  destruct (ar_before request); [|apply Hgo]. intros err. eexists. split; [done|]. apply Hgo.
Qed.

Lemma plays_enter i : plays None (enter u i) (fun r _ => r = None).
Proof.
  unfold enter. destruct (_ && _); [|done]. apply plays_sup_bind. intros [s|err]; [|done]. destruct (bool_decide _); [|done].
  intros []. by eexists.
Qed.

Definition typed (r : Role) (t : AcM unit) : Prop := plays r t (fun r _ => r = None).

Lemma typed_run fuel request : typed (Some (ai_SessionID (ar_in request), autoContinueMaxConsecutive)) (run Sum256 u fuel request;; mret tt).
Proof. apply plays_bind. eapply plays_mono; [apply plays_run|]. by intros ? ? ->. Qed.

Lemma typed_enters p : enters p -> typed None p.
Proof.
  intros [i before|fuel i|id|id|id|id hash at_|id since]; try (intros x; eexists; split; [done|done]).
  - apply plays_bind. eapply plays_mono; [apply plays_enter|]. intros ? ? ->. intros begun. eexists. split; [done|].
    destruct begun; [|done]. intros []. cbn. rewrite bool_decide_eq_true_2 by done. by eexists.
  - apply plays_bind. apply plays_bind. eapply plays_mono; [apply plays_enter|]. intros ? ? ->. intros begun. eexists. split; [done|].
    destruct begun; [|done]. eapply plays_mono; [apply (plays_run fuel (mkAcRequest i false))|]. by intros ? ? ->.
Qed.

Lemma plays_owes id bound (t : AcM unit) : typed (Some (id, bound)) t -> owes id t.
Proof.
  unfold typed. revert bound. induction t as [[]|X e k IH]; intros bound Ht; [done|]. cbn [owes plays] in *.
  assert ((forall x, exists bound', role_after e (Some (id, bound)) x = Some (Some (id, bound')))
    -> forall x, owes id (k x)) as Hgo.
  { intros Hs x. destruct (Ht x) as (r' & Hr & Hk). destruct (Hs x) as [bound' Hs']. rewrite Hs' in Hr. injection Hr as <-. by eapply IH. }
  destruct e; try (right; apply Hgo; intros x; destruct (Ht x) as (r' & Hr & _); cbn in *; repeat case_match; (done || by eexists)).
  - left. destruct (Ht None) as (r' & Hr & _). cbn in Hr. by case_bool_decide.
  - left. destruct (Ht tt) as (r' & Hr & _). cbn in Hr. by case_bool_decide.
Qed.

(** ** The invariant *)

(** The counters are in bounds, every token is one of its session, and the evaluations in
    flight are those whose token is held; a request that waits does so for one of them. *)
Record good (m : AcMemory) (tokens : list (string * Z)) : Prop := {
  good_count : forall id, 0 <= Count id m <= autoContinueMaxConsecutive;
  good_bound : forall id bound, (id, bound) ∈ tokens -> Count id m <= bound;
  good_nodup : NoDup tokens.*1;
  good_inflight : forall id, default false (ac_inflight m !! id) = true <-> id ∈ tokens.*1;
  good_pending : forall id request, ac_pending m !! id = Some request ->
    ai_SessionID (ar_in request) = id /\ id ∈ tokens.*1 }.

#[local] Instance good_proper m : Proper ((≡ₚ) ==> iff) (good m).
Proof.
  assert (forall t t', t ≡ₚ t' -> good m t -> good m t') as H'; [|by split; apply H'].
  intros t t' Ht [H1 H2 H3 H4 H5]. split; [done|intros id b; rewrite <- Ht; apply H2|by rewrite <- Ht|intros id; rewrite <- Ht; apply H4|].
  intros id r. rewrite <- Ht. apply H5.
Qed.

Definition inv (m : AcMemory) (rs : list Role) : Prop := good m (omap (fun r => r) rs).

Lemma good_calm m m' tokens : calm m m' -> good m tokens -> good m' tokens.
Proof.
  intros (Hi & Hp & Hc) [H1 H2 H3 H4 H5]. split; [|intros id b Hb|done|by rewrite Hi|by rewrite Hp].
  - intros id. specialize (H1 id). destruct (Hc id); lia.
  - specialize (H1 id). specialize (H2 id b Hb). destruct (Hc id); lia.
Qed.

Lemma good_again m id bound bound' tokens :
  good m ((id, bound) :: tokens) -> Count id m <= bound' -> good m ((id, bound') :: tokens).
Proof.
  intros [H1 H2 H3 H4 H5] Hb. split; [done| |done..]. intros id' b [[= -> ->]|H']%list.elem_of_cons; [done|]. apply H2. by right.
Qed.

Lemma good_increment m id bound generation tokens :
  good m ((id, bound) :: tokens) -> bound < autoContinueMaxConsecutive ->
  good (incrementIfGeneration id generation m) ((id, bound + 1) :: tokens).
Proof.
  intros [H1 H2 H3 H4 H5] Hb. destruct (increment_rest id generation m) as [Ei Ep]. pose proof (fun id' => increment_count id' id generation m) as Hc.
  split; [intros id'|intros id' b Hin|done|by rewrite Ei|by rewrite Ep].
  - specialize (H1 id'). destruct (Hc id') as [E|[-> E]]; [lia|]. pose proof (H2 id bound (list_elem_of_here _ _)). lia.
  - apply list.elem_of_cons in Hin as [[= -> ->]|Hin].
    + pose proof (H2 id bound (list_elem_of_here _ _)). destruct (Hc id) as [E|[_ E]]; lia.
    + assert (id' <> id) as Hne. { intros ->. cbn in H3. apply list.NoDup_cons in H3 as [H3 _]. apply H3. by apply (list_elem_of_fmap_2' fst _ _ _ Hin). }
      destruct (Hc id') as [E|[E _]]; [|done]. rewrite E. apply H2. by right.
Qed.

Lemma good_begin m m' begun request tokens :
  good m tokens -> (m', begun) = begin request m ->
  good m' (if begun then (ai_SessionID (ar_in request), autoContinueMaxConsecutive) :: tokens else tokens).
Proof.
  intros [H1 H2 H3 H4 H5]. unfold begin. set (id := ai_SessionID (ar_in request)). destruct (default false _) eqn:E; intros [= -> ->].
  - split; [done..|]. intros id' r. cbn. destruct (decide (id' = id)) as [->|Hne].
    + rewrite lookup_insert_eq. intros [= <-]. split; [done|]. by apply H4.
    + rewrite lookup_insert_ne by done. apply H5.
  - split; cbn; [done| | | |].
    + intros id' b [[= -> ->]|H']%list.elem_of_cons; [apply H1|by apply H2].
    + apply list.NoDup_cons. split; [|done]. intros Hin. apply H4 in Hin. congruence.
    + intros id'. rewrite list.elem_of_cons, <- H4. destruct (decide (id' = id)) as [->|Hne]; [rewrite lookup_insert_eq; cbn; tauto|].
      rewrite lookup_insert_ne by done. tauto.
    + intros id' r Hr. apply H5 in Hr as [? ?]. split; [done|]. by right.
Qed.

Lemma good_next m m' id bound r tokens :
  good m ((id, bound) :: tokens) -> (m', r) = next id m ->
  good m' (match r with Some request => [(ai_SessionID (ar_in request), autoContinueMaxConsecutive)] | None => [] end ++ tokens).
Proof.
  intros [H1 H2 H3 H4 H5]. unfold next. destruct (ac_pending m !! id) as [request|] eqn:E; intros [= -> ->].
  - destruct (H5 _ _ E) as [-> _]. split; cbn; [done| |done|done|].
    + intros id' b [[= -> ->]|H']%list.elem_of_cons; [apply H1|apply H2; by right].
    + intros id' r. rewrite lookup_delete_Some. intros [_ Hr]. by apply H5.
  - cbn in H3. apply list.NoDup_cons in H3 as [Hn H3]. split; cbn; [done| |done| |].
    + intros id' b H'. apply H2. by right.
    + intros id'. specialize (H4 id'). cbn in H4. rewrite list.elem_of_cons in H4. destruct (decide (id' = id)) as [->|Hne].
      * rewrite lookup_delete_eq. cbn. split; [done|]. by intros ?%Hn.
      * rewrite lookup_delete_ne by done. tauto.
    + intros id' r. rewrite lookup_delete_Some. intros [Hne Hr]. apply H5 in Hr as [? Hr]. split; [done|].
      cbn in Hr. apply list.elem_of_cons in Hr as [->|Hr]; [done|done].
Qed.

(** One call of a goroutine, on the tokens of the others. *)
Lemma good_step {X : Type} (e : AcEff X) (k : X -> AcM unit) x m m' r new others :
  typed r (Vis e k) -> mem_step X e m x m' -> forks X e new -> good m (option_list r ++ others) ->
  exists r' rnew, typed r' (k x) /\ Forall2 typed rnew new /\ good m' (option_list r' ++ omap (fun r => r) rnew ++ others).
Proof.
  intros Ht Hm Hf Hg. destruct (Ht x) as (r' & Hr & Hk). change (typed r' (k x)) in Hk. clear Ht. exists r'.
  assert (new = [] -> good m' (option_list r' ++ others) ->
    exists rnew, typed r' (k x) /\ Forall2 typed rnew new /\ good m' (option_list r' ++ omap (fun r => r) rnew ++ others)) as Hplain
    by (intros -> Hgood; by exists []).
  assert (r' = r -> calm m m' -> good m' (option_list r' ++ others)) as Hcalm by (intros ->; intros; by eapply good_calm).
  destruct r as [[id bound]|], e; cbn in Hm, Hf, Hr; try discriminate Hr;
    try (case_bool_decide; [|discriminate Hr]); try subst id0; cbn [option_list app] in Hg.
  - injection Hr as <-. destruct Hm as [-> ->]. apply Hplain; [done|]. eapply good_again; [exact Hg|].
    pose proof (good_bound _ _ Hg id bound (list_elem_of_here _ _)). unfold Count in *. lia.
  - destruct (Z.ltb_spec bound autoContinueMaxConsecutive); [|discriminate Hr]. injection Hr as <-. subst m'. apply Hplain; [done|].
    by apply good_increment.
  - injection Hr as <-. apply Hplain; [done|]. pose proof (good_next _ _ _ _ _ _ Hg Hm) as Hn. by destruct x.
  - destruct (bound <? autoContinueMaxConsecutive); [|discriminate Hr]. injection Hr as <-. subst m'. by apply Hplain.
  - injection Hr as <-. subst m'. by apply Hplain.
  - injection Hr as <-. subst m'. destruct Hf as [fuel ->]. exists [Some (ai_SessionID (ar_in request), autoContinueMaxConsecutive)].
    split; [done|]. split; [constructor; [apply typed_run|done]|]. cbn. subst id. eapply good_again; [exact Hg|]. apply (good_count _ _ Hg).
  - injection Hr as <-. subst m'. by apply Hplain.
  - injection Hr as <-. destruct Hm as [_ ->]. by apply Hplain.
  - injection Hr as <-. subst m'. apply Hplain, Hcalm; [done..|apply calm_ClearCandidate].
  - injection Hr as <-. subst m'. apply Hplain, Hcalm; [done..|apply calm_Reset].
  - injection Hr as <-. subst m'. apply Hplain, Hcalm; [done..|apply calm_RecordIssued].
  - injection Hr as <-. subst m'. apply Hplain, Hcalm; [done..|apply calm_entered].
  - injection Hr as <-. apply Hplain; [done|]. pose proof (good_begin _ _ _ _ _ Hg Hm) as Hb. by destruct x.
  - injection Hr as <-. subst m'. by apply Hplain.
Qed.

Lemma good_start : good noMemory [].
Proof.
  split; [intros id; cbn; unfold autoContinueMaxConsecutive; lia|by intros ? ? ?%not_elem_of_nil|constructor| |].
  - intros id. cbn. rewrite lookup_empty. split; [done|by intros ?%not_elem_of_nil].
  - intros id r. cbn. by rewrite lookup_empty.
Qed.

(** Every interleaving: the goroutines and their tokens. *)
Lemma ac_reach_good m ts : ac_reach (m, ts) -> exists rs, Forall2 typed rs ts /\ inv m rs.
Proof.
  apply pool_invariant; [| |apply good_start].
  - intros m1 rs p Hp Hi. exists None. split; [by apply typed_enters|]. unfold inv in *. rewrite list.omap_app. cbn. by rewrite app_nil_r.
  - intros m1 rs1 r rs2 X e k x m' new Ht Hi Hm Hf. unfold inv in *.
    assert (good m1 (option_list r ++ omap (fun r => r) (rs1 ++ rs2))) as Hg.
    { eapply good_proper; [|exact Hi]. rewrite !list.omap_app. destruct r; cbn; [|done]. by rewrite Permutation_middle. }
    destruct (good_step _ _ _ _ _ _ _ _ Ht Hm Hf Hg) as (r' & rnew & Hk & Hn & Hg'). exists r', rnew. split; [done|]. split; [done|].
    eapply good_proper; [|exact Hg']. rewrite !list.omap_app.
    replace (omap (fun r : Role => r) (r' :: rs2 ++ rnew)) with (option_list r' ++ omap (fun r => r) (rs2 ++ rnew)) by (by destruct r').
    rewrite list.omap_app. solve_Permutation.
Qed.

Lemma tokens_unique (rs : list Role) i j id b b' :
  NoDup (omap (fun r => r) rs).*1 -> rs !! i = Some (Some (id, b)) -> rs !! j = Some (Some (id, b')) -> i = j.
Proof.
  assert (forall (rs : list Role) i b, rs !! i = Some (Some (id, b)) -> id ∈ (omap (fun r => r) rs).*1) as Hin.
  { clear. intros rs i b Hi. apply list_elem_of_fmap. exists (id, b). split; [done|]. apply list_elem_of_omap.
    exists (Some (id, b)). split; [by eapply list_elem_of_lookup_2|done]. }
  revert i j. induction rs as [|r rs IH]; intros i j Hn Hi Hj; [done|]. destruct i as [|i], j as [|j]; cbn in Hi, Hj; [done| | |].
  - injection Hi as ->. cbn in Hn. apply list.NoDup_cons in Hn as [Hn _]. by apply Hin in Hj.
  - injection Hj as ->. cbn in Hn. apply list.NoDup_cons in Hn as [Hn _]. by apply Hin in Hi.
  - f_equal. apply IH; [|done..]. destruct r; [|done]. cbn in Hn. by apply list.NoDup_cons in Hn as [_ Hn].
Qed.

Lemma typed_sending id r t : typed r t -> sending id t = true -> exists bound, r = Some (id, bound) /\ bound < autoContinueMaxConsecutive.
Proof.
  destruct t as [|X e k]; [done|]. destruct e; try done. cbn. intros Ht Hs. case_bool_decide; [|done]. subst id0.
  destruct (Ht (noSendResult, None)) as (r' & Hr & _). destruct r as [[id' bound]|]; [|done]. cbn in Hr.
  case_bool_decide; [|done]. subst id'. destruct (Z.ltb_spec bound autoContinueMaxConsecutive); [|done]. by exists bound.
Qed.

(** C4. In every interleaving of evaluations, resets, recorded sends and observations, of
    all sessions: the counter of a session never passes five; at most one goroutine at a
    time is in the sender with a continuation of a session, and then the counter is below
    five; and an evaluation that was asked for while another
    was in flight waits for a goroutine that cannot end without picking it up. *)
Theorem continuations_are_limited m ts :
  ac_reach (m, ts) ->
  (forall id, 0 <= Count id m <= autoContinueMaxConsecutive)
  /\ (forall id i j t t', ts !! i = Some t -> ts !! j = Some t' -> sending id t = true -> sending id t' = true -> i = j)
  /\ (forall id t, t ∈ ts -> sending id t = true -> Count id m < autoContinueMaxConsecutive)
  /\ (forall id request, ac_pending m !! id = Some request ->
        ai_SessionID (ar_in request) = id /\ exists t, t ∈ ts /\ owes id t).
Proof.
  intros (rs & Ht & Hg)%ac_reach_good. unfold inv in Hg. split; [apply (good_count _ _ Hg)|].
  assert (forall i t, ts !! i = Some t -> exists r, rs !! i = Some r /\ typed r t) as Hat.
  { intros i t Hi. destruct (Forall2_lookup_r _ _ _ _ _ Ht Hi) as (r & ? & ?). by exists r. }
  assert (forall i id b, rs !! i = Some (Some (id, b)) -> (id, b) ∈ omap (fun r => r) rs) as Hin.
  { intros i id b Hi. apply list_elem_of_omap. exists (Some (id, b)). split; [by eapply list_elem_of_lookup_2|done]. }
  split; [|split].
  - intros id i j t t' Hi Hj Hs Hs'. destruct (Hat _ _ Hi) as (r & Hr & Hrt), (Hat _ _ Hj) as (r' & Hr' & Hrt').
    destruct (typed_sending _ _ _ Hrt Hs) as (b & -> & _), (typed_sending _ _ _ Hrt' Hs') as (b' & -> & _).
    by eapply tokens_unique; [apply (good_nodup _ _ Hg)|..].
  - intros id t [i Hi]%list_elem_of_lookup_1 Hs. destruct (Hat _ _ Hi) as (r & Hr & Hrt). destruct (typed_sending _ _ _ Hrt Hs) as (b & -> & Hb).
    pose proof (good_bound _ _ Hg id b (Hin _ _ _ Hr)). lia.
  - intros id request Hp. destruct (good_pending _ _ Hg _ _ Hp) as [Hid Htok]. split; [done|].
    apply list_elem_of_fmap in Htok as ([id' b] & -> & Htok). apply list_elem_of_omap in Htok as (r & Hr & ->).
    apply list_elem_of_lookup_1 in Hr as [i Hi]. destruct (Forall2_lookup_l _ _ _ _ _ Ht Hi) as (t & Hti & Htt).
    exists t. split; [by eapply list_elem_of_lookup_2|]. by eapply plays_owes.
Qed.
End Goroutines.

(** ** A run: an evaluation is under way, and another has been asked for. *)

#[local] Existing Instance ascii_tables.

Definition demo_use_case : AutoContinueUseCase := mkAcUseCase true true true true true true (mkExtractor [] [] [] true).
Definition demo_input : AutoContinueInput := mkAcInput "repo-1" [] (Some 20) false true true zeroTime.
Definition demo_request : autoContinueRequest := mkAcRequest demo_input false.
Definition demo_memory : AcMemory := (begin demo_request (begin demo_request noMemory).1).1.
Definition demo_goroutines : list (AcM unit) := [Ret tt; run (fun _ => "hash") demo_use_case 3 demo_request;; mret tt; Ret tt].

Lemma demo_reached : ac_reach (fun _ => "hash") demo_use_case (demo_memory, demo_goroutines).
Proof.
  pose (async := EvaluateAsync demo_use_case demo_input false).
  eapply rtc_l; [exact (pool_enter _ _ _ _ [] async (enters_async _ _ _ _))|].
  eapply rtc_l; [exact (pool_run _ _ _ noMemory [] _ (Begin demo_request) _ [] true _ [] eq_refl eq_refl)|].
  eapply rtc_l; [exact (pool_run _ _ _ _ [] _ (GoRun demo_request) _ [] tt _ _ eq_refl (ex_intro _ 3%nat eq_refl))|].
  eapply rtc_l; [exact (pool_enter _ _ _ _ _ async (enters_async _ _ _ _))|].
  eapply rtc_l; [exact (pool_run _ _ _ (begin demo_request noMemory).1 [_; _] _ (Begin demo_request) _ [] false demo_memory [] eq_refl eq_refl)|].
  apply rtc_refl.
Qed.

Lemma continuations_are_limited_witness :
  Count "repo-1" demo_memory = 0 /\ ac_pending demo_memory !! "repo-1" = Some demo_request
  /\ exists t, t ∈ demo_goroutines /\ owes "repo-1" t.
Proof.
  split; [reflexivity|]. split; [reflexivity|].
  apply (continuations_are_limited (fun _ => "hash") demo_use_case demo_memory demo_goroutines demo_reached) with (request := demo_request).
  reflexivity.
Defined.
