(* ===== verification/AutoContinueDue.v ===== *)
(** * What an evaluation may do ([evaluate] and [block] of [auto_continue.go])

    Every continuation is sent, and every session stopped, for the reasons that the record,
    the memory and the text give at the time. *)

From S2P Require Import Prelude.
From S2P Require Import UTF8.
From S2P Require Import Errors.
From S2P Require Import TextPolicy.
From S2P Require Import Session.
From S2P Require Import SendGate.
From S2P Require Import Effects.
From S2P Require Import SendInput.
From S2P Require Import SupEff.
From S2P Require Import PlanRotation.
From S2P Require Import AutoContinue.

(** ** Programs about one session, among the others *)

Definition sup_ev (id : string) (e : called SupEff.Eff) : called AcEff := match e with Ev e x => Ev (Sup id e) x end.

Lemma sup_wpi_app (P : called AcEff -> list (called AcEff) -> Prop) id {A : Type} (p : SupEff.M A) h h1 Q :
  wpi record_ev (fun e h' => P (sup_ev id e) (map (sup_ev id) h' ++ h)) p h1 (fun h' a => Q (map (sup_ev id) h' ++ h) a) ->
  wpi record_ev P (sup id p) (map (sup_ev id) h1 ++ h) Q.
Proof.
  revert h1. induction p as [a|X e k IH]; intros h1; cbn [wpi sup]; [done|]. intros Hp x. destruct (Hp x) as [HP Hk]. split; [exact HP|].
  exact (IH x (Ev e x :: h1) Hk).
Qed.

Lemma sup_wpi (P : called AcEff -> list (called AcEff) -> Prop) id {A : Type} (p : SupEff.M A) h Q :
  wpi record_ev (fun e h' => P (sup_ev id e) (map (sup_ev id) h' ++ h)) p [] (fun h' a => Q (map (sup_ev id) h' ++ h) a) ->
  wpi record_ev P (sup id p) h Q.
Proof. apply (sup_wpi_app P id p h []). Qed.

Section Due.
Context `{UnicodeTables} (Sum256 : list Z -> string) (u : AutoContinueUseCase).

(** ** Specification vocabulary *)

(** The record and the input let the session go on. *)
Record may_go (i : AutoContinueInput) (s : ManagedSession) : Prop := {
  mg_state : s_State s = SessionAwaitingRecommendation;
  mg_stay : StaySince i = zeroTime \/ StaySince i = s_StateSince s;
  mg_scope : s_StopScope s = StopScopeNone \/ SupervisorStopScope_string (s_StopScope s) = "";
  mg_context : exists percent, ai_ContextPercent i = Some percent /\ percent <= rotationContextPercent;
  mg_git : git_idle s;
  mg_enabled : AutoContinueDisabledReason_string (s_AutoContinueDisabledReason s) = "";
  mg_rotation : s_Rotation s = None;
  mg_settled : RequireSettle i = true -> Settled i = true }.

(** The session has come back from work since the last continuation began. *)
Definition candidate (st : autoContinueState) : Prop := eligibleSince st <> zeroTime /\ as_issuedAt st < eligibleSince st.

Definition text_hash (body : row) : string := Sum256 (NormalizeRecommendationForHash (string_of_runes body)).
Definition seen (st : autoContinueState) (hash : string) : Prop := hasHash st = true /\ as_hash st = hash.

(** The recommendation is readable, new, harmless, and not one too many. *)
Definition go_on (i : AutoContinueInput) (st : autoContinueState) (hash : string) : Prop :=
  candidate st
  /\ exists body, Extract (ac_Extractor u) (ai_Rows i) = (body, true) /\ hash = text_hash body /\ ~ seen st hash
     /\ Classify (string_of_runes body) = Some [] /\ as_count st < autoContinueMaxConsecutive.

(** Why a session is stopped instead; the first of the reasons counts. *)
Inductive held_back (i : AutoContinueInput) (st : autoContinueState) : string -> SupervisorStopReason -> string -> Prop :=
| held_unreadable body :
    Extract (ac_Extractor u) (ai_Rows i) = (body, false) ->
    held_back i st "undetermined" StopRecommendationUndetermined "SUP_RECOMMENDATION_UNDETERMINED"
| held_repeated body :
    Extract (ac_Extractor u) (ai_Rows i) = (body, true) -> seen st (text_hash body) ->
    held_back i st "repeated" StopRecommendationRepeated "SUP_RECOMMENDATION_REPEATED"
| held_unclassified body :
    Extract (ac_Extractor u) (ai_Rows i) = (body, true) -> ~ seen st (text_hash body) -> Classify (string_of_runes body) = None ->
    held_back i st "undetermined" StopRecommendationUndetermined "SUP_RECOMMENDATION_UNDETERMINED"
| held_forbidden body category categories :
    Extract (ac_Extractor u) (ai_Rows i) = (body, true) -> ~ seen st (text_hash body) ->
    Classify (string_of_runes body) = Some (category :: categories) ->
    held_back i st (Category_string category) StopRecommendationForbidden "SUP_RECOMMENDATION_FORBIDDEN"
| held_limit body :
    Extract (ac_Extractor u) (ai_Rows i) = (body, true) -> ~ seen st (text_hash body) -> Classify (string_of_runes body) = Some [] ->
    autoContinueMaxConsecutive <= as_count st ->
    held_back i st "consecutive_limit" StopAutoContinueLimit "SUP_AUTO_CONTINUE_LIMIT_REACHED".

(** What has been read: the record, then the memory; and no stop. *)
Definition evaluated (i : AutoContinueInput) (s : ManagedSession) (st : autoContinueState) (h : list (called AcEff)) : Prop :=
  Ev (Sup (ai_SessionID i) LoadSession) (Ok s) ∈ h /\ Ev (StateOf (ai_SessionID i)) st ∈ h
  /\ (ac_IsStopped u = true -> Ev (Sup (ai_SessionID i) IsStopped) false ∈ h) /\ may_go i s.

(** An update that stops the session for the operator. *)
Definition stops_for (reason : SupervisorStopReason) (since : Time) (v v' : ManagedSession) : Prop :=
  s_State v = SessionAwaitingRecommendation /\ s_StateSince v = since
  /\ s_State v' = SessionStopped /\ s_StopReason v' = reason /\ s_PreviousState v' = SessionAwaitingRecommendation.

Definition in_order (i : AutoContinueInput) (e : called AcEff) (h : list (called AcEff)) : Prop :=
  match e with
  | Ev e x =>
      match e with
      | Execute id kind hash => id = ai_SessionID i /\ kind = SendKindRecommendationContinue
          /\ exists s st now, evaluated i s st h /\ go_on i st hash
             /\ head h = Some (Ev (StateOf id) now) /\ as_generation now = as_generation st
      | IncrementIfGeneration id generation => exists kind hash result,
          head h = Some (Ev (Execute id kind hash) (result, None)) /\ Confirmed result = true
          /\ exists st, Ev (StateOf id) st ∈ h /\ generation = as_generation st
      | Sup id (SaveSession v') => exists v s st reason stop code,
          Ev (Sup id LoadSession) (Ok v) ∈ h
          /\ evaluated i s st h /\ candidate st /\ held_back i st reason stop code
          /\ (v' = v \/ stops_for stop (s_StateSince s) v v')
      | Sup id (RecordStructured e) => exists s st stop,
          evaluated i s st h /\ candidate st /\ held_back i st (se_Reason e) stop (se_Code e) /\ se_Kind e = EventKindRecommendationBlocked
      | Sup _ (Notify kind _) => exists s st reason stop code,
          evaluated i s st h /\ candidate st /\ held_back i st reason stop code /\ kind = EventKindRecommendationBlocked
      | _ => True
      end
  end.

(** ** Lemmas *)

Lemma admissible_spec i s :
  s_State s = SessionAwaitingRecommendation -> StaySince i = zeroTime \/ StaySince i = s_StateSince s ->
  admissible i s = true <-> may_go i s.
Proof.
  intros Hs Hst. unfold admissible. split.
  - intros Ha. destruct (negb (bool_decide (s_StopScope s = _)) && _) eqn:E1; [done|].
    destruct (ai_ContextPercent i) as [percent|] eqn:E2; [|done]. destruct (Z.ltb_spec rotationContextPercent percent); [done|].
    destruct (_ || is_some _) eqn:E3; [done|]. apply orb_false_iff in E3 as [[E3 E4]%orb_false_iff E5].
    split; [done|done| |by exists percent| | | |].
    + apply andb_false_iff in E1 as [E1|E1]; apply negb_false_iff in E1; [left; by apply bool_decide_eq_true_1 in E1|right; by apply String.eqb_eq].
    + by apply git_idle_spec.
    + apply negb_false_iff in E4. by apply String.eqb_eq.
    + by destruct (s_Rotation s).
    + intros Hr. rewrite Hr in Ha. by destruct (Settled i).
  - intros [_ _ H1 (percent & E2 & H2) H3 H4 H5 H6]. rewrite E2, H4, H5. apply git_idle_spec in H3. rewrite H3.
    replace (rotationContextPercent <? percent) with false by lia. cbn.
    assert (negb (bool_decide (s_StopScope s = StopScopeNone)) && negb (SupervisorStopScope_string (s_StopScope s) =? "")%string = false) as ->.
    { apply andb_false_iff. destruct H1 as [->| ->]; [by left|by right]. }
    destruct (RequireSettle i); [|done]. by rewrite H6.
Qed.

(** What is made of a recommendation, against its conditions. *)
Lemma judge_spec i st :
  match judge Sum256 (ac_Extractor u) (ai_Rows i) st with
  | Leave => ~ candidate st
  | Block reason stop code => candidate st /\ held_back i st reason stop code
  | Continue hash => go_on i st hash
  end.
Proof.
  unfold judge. destruct (_ || _) eqn:Ec.
  { intros [H1 H2]. unfold IsZero, After in Ec. apply orb_true_iff in Ec as [Ec|Ec]; [lia|]. apply negb_true_iff in Ec. lia. }
  assert (candidate st) as Hc by (unfold candidate, IsZero, After in *; apply orb_false_iff in Ec as [? ?%negb_false_iff]; lia).
  destruct (Extract _ _) as [body []] eqn:Ex; cbn [negb]; [|split; [done|by eapply held_unreadable]].
  change (Sum256 (NormalizeRecommendationForHash (string_of_runes body))) with (text_hash body).
  destruct (hasHash st && _) eqn:Eh.
  { split; [done|]. apply (held_repeated _ _ body); [done|]. apply andb_true_iff in Eh as [? ?%String.eqb_eq]. by split. }
  assert (~ seen st (text_hash body)) as Hn.
  { intros [H1 H2]. rewrite H1, H2, String.eqb_refl in Eh. done. }
  destruct (Classify _) as [[|category categories]|] eqn:Ek.
  - destruct (Z.leb_spec autoContinueMaxConsecutive (as_count st)); [split; [done|by eapply held_limit]|].
    split; [done|]. by exists body.
  - split; [done|]. by eapply held_forbidden.
  - split; [done|]. by eapply held_unclassified.
Qed.

Lemma held_back_valid i st reason stop code :
  held_back i st reason stop code ->
  stop ∈ [StopRecommendationUndetermined; StopRecommendationRepeated; StopRecommendationForbidden; StopAutoContinueLimit].
Proof. destruct 1; set_solver. Qed.

Lemma block_stops reason since now v v' :
  reason ∈ [StopRecommendationUndetermined; StopRecommendationRepeated; StopRecommendationForbidden; StopAutoContinueLimit] ->
  s_State v = SessionAwaitingRecommendation -> s_StateSince v = since ->
  apply EventStop (no_context <| c_StopReason := reason |>) now (v <| s_PreviousState := s_State v |>) = Ok v' ->
  stops_for reason since v v'.
Proof.
  rewrite !list.elem_of_cons. intros Hr Hs Hsi. destruct v. cbn [Session.s_State Session.s_StateSince] in *. subst.
  destruct Hr as [->|[->|[->|[->|Hr]]]]; [..|by apply not_elem_of_nil in Hr]; cbn; intros [= <-]; done.
Qed.

Lemma ordered_block i s st reason stop code h :
  evaluated i s st h -> candidate st -> held_back i st reason stop code ->
  wpi record_ev (in_order i) (sup (ai_SessionID i) (block u (ai_SessionID i) (s_StateSince s) reason stop code)) h (fun _ _ => True).
Proof.
  intros He Hc Hb. apply sup_wpi. set (id := ai_SessionID i).
  assert (forall h1, evaluated i s st (h1 ++ h)) as He'.
  { intros h1. destruct He as (H1 & H2 & H3 & H4). split; [apply elem_of_app; by right|]. split; [apply elem_of_app; by right|].
    split; [|done]. intros Hu. apply elem_of_app. right. by apply H3. }
  assert (forall h1 (blocked : bool), wpi record_ev (fun e h' => in_order i (sup_ev id e) (map (sup_ev id) h' ++ h))
    (if blocked then
       unless_error
         (if ac_RecordStructured u then call (RecordStructured (plain_event EventKindRecommendationBlocked code reason)) else mret None)
         ((if ac_Notify u then call (Notify EventKindRecommendationBlocked id) else mret tt);; mret None)
     else mret None) h1 (fun _ _ => True)) as Hend.
  { intros h1 []; [|done].
    assert (forall h1, wpi record_ev (fun e h' => in_order i (sup_ev id e) (map (sup_ev id) h' ++ h))
      (((if ac_Notify u then call (Notify EventKindRecommendationBlocked id) else mret tt);; mret (None : option error)) : SupEff.M (option error))
      h1 (fun _ _ => True)) as Hn.
    { intros h2. destruct (ac_Notify u); [|done]. apply wpi_call. intros []. split; [|done]. by exists s, st, reason, stop, code. }
    destruct (ac_RecordStructured u); [|apply Hn]. apply wpi_call. intros err. split; [by exists s, st, stop|].
    destruct err; [done|apply Hn]. }
  assert (forall v v' err h1, Ev LoadSession (Ok v) ∈ h1 -> v' = v \/ stops_for stop (s_StateSince s) v v' ->
    in_order i (sup_ev id (Ev (SaveSession v') err)) (map (sup_ev id) h1 ++ h)) as Hsave.
  { intros v v' err h1 Hin Hv. exists v, s, st, reason, stop, code. split; [|done]. apply elem_of_app. left.
    by apply (list_elem_of_fmap_2' (sup_ev id) _ _ _ Hin). }
  unfold block. apply wpi_bind. apply UpdateSession_wpi.
  - intros e h1. by destruct e as [? [] ?].
  - intros h1 err _. cbn. done.
  - intros v before. assert (forall v' blocked h1, h1 = [Ev (Marshal v) (Ok before); Ev LoadSession (Ok v); Ev LockRecord tt] \/
      (exists now, h1 = [Ev Now now; Ev (Marshal v) (Ok before); Ev LoadSession (Ok v); Ev LockRecord tt]) ->
      v' = v \/ stops_for stop (s_StateSince s) v v' -> forall after err,
      in_order i (sup_ev id (Ev (SaveSession v') err)) (map (sup_ev id) (Ev (Marshal v') (Ok after) :: h1) ++ h)
      /\ wpi record_ev (fun e h' => in_order i (sup_ev id e) (map (sup_ev id) h' ++ h))
           (match (match err with Some err => Err err | None => Ok blocked end) with
            | Err err => mret (Some err)
            | Ok false => mret None
            | Ok true => unless_error
                (if ac_RecordStructured u then call (RecordStructured (plain_event EventKindRecommendationBlocked code reason)) else mret None)
                ((if ac_Notify u then call (Notify EventKindRecommendationBlocked id) else mret tt);; mret None)
            end) (Ev UnlockRecord tt :: Ev (SaveSession v') err :: Ev (Marshal v') (Ok after) :: h1) (fun _ _ => True)) as Hsaved.
    { intros v' blocked h1 Hh Hv after err. split; [|destruct err; [done|destruct blocked; [apply (Hend _ true)|apply (Hend _ false)]]].
      apply (Hsave v); [|done]. right. destruct Hh as [->|[now ->]]; set_solver. }
    unfold block_update. destruct (bool_decide_reflect (s_State v = SessionAwaitingRecommendation)) as [Hs|Hs]; cbn [andb].
    2:{ split; [done|]. split; [apply (Hend _ false)|]. apply Hsaved; by left. }
    destruct (Z.eqb_spec (s_StateSince v) (s_StateSince s)) as [Hsi|Hsi]; [|split; [done|]; split; [apply (Hend _ false)|]; apply Hsaved; by left].
    apply wpi_call. intros now. split; [done|].
    destruct (apply _ _ _ _) as [v'|err] eqn:Ea; [|done]. split; [done|]. split; [apply (Hend _ true)|]. apply Hsaved; [right; by exists now|].
    right. eapply block_stops; [by eapply held_back_valid|done|done|exact Ea].
Qed.

Lemma ordered_continue i s st hash h :
  evaluated i s st h -> go_on i st hash ->
  wpi record_ev (in_order i) (continue u (ai_SessionID i) hash (as_generation st)) h (fun _ _ => True).
Proof.
  intros He Hg. unfold continue. destruct (negb (ac_Send u)); [done|]. apply wpi_call. intros now. split; [done|].
  destruct (Z.eqb_spec (as_generation now) (as_generation st)) as [Hgen|Hgen]; [|done]. apply wpi_call. intros [result err]. split.
  { split; [done|]. split; [done|]. exists s, st, now. split; [|done]. destruct He as (H1 & H2 & H3 & H4).
    split; [by right|]. split; [by right|]. split; [|done]. intros Hu. right. by apply H3. }
  destruct err; [done|]. destruct (Confirmed result) eqn:Er; [|done]. apply wpi_call. intros []. split; [|done].
  exists SendKindRecommendationContinue, hash, result. split; [done|]. split; [done|]. exists st. split; [|done].
  destruct He as (_ & H2 & _). right. by right.
Qed.

(** C8. An evaluation, whatever the other goroutines do meanwhile: a continuation is sent
    only for a session that waits with a recommendation which is readable, new, harmless
    and not one too many, under a record, an input and a stop that let it go on, and only if
    the memory of the session has not been reset since; it is counted only if the sender
    has confirmed it.  A session is stopped, recorded and reported only for the first of the
    reasons that speak against its recommendation, and only if it still waits with it. *)
Theorem continuations_are_due i : always record_ev (in_order i) (evaluate Sum256 u i) [].
Proof.
  unfold always, evaluate. destruct (negb (ac_Sessions u)); [done|]. apply wpi_call. intros [s|err]; (split; [done|]); [|done].
  destruct (bool_decide_reflect (s_State s = SessionAwaitingRecommendation)) as [Hs|]; [|done]. cbn [negb].
  destruct (_ && _) eqn:Est; [done|].
  assert (StaySince i = zeroTime \/ StaySince i = s_StateSince s) as Hstay.
  { unfold IsZero in Est. apply andb_false_iff in Est as [E|E]; apply negb_false_iff, Z.eqb_eq in E; auto. }
  apply wpi_call. intros st. split; [done|].
  assert (forall stopped h, Ev (Sup (ai_SessionID i) LoadSession) (Ok s) ∈ h -> Ev (StateOf (ai_SessionID i)) st ∈ h ->
    (stopped = false -> ac_IsStopped u = true -> Ev (Sup (ai_SessionID i) IsStopped) false ∈ h) ->
    wpi record_ev (in_order i)
      (if (stopped : bool) || negb (admissible i s) then mret None
       else match judge Sum256 (ac_Extractor u) (ai_Rows i) st with
            | Leave => mret None
            | Block reason stop code => sup (ai_SessionID i) (block u (ai_SessionID i) (s_StateSince s) reason stop code)
            | Continue hash => continue u (ai_SessionID i) hash (as_generation st)
            end) h (fun _ _ => True)) as Hgo.
  { intros stopped h H1 H2 H3. destruct stopped; [done|]. cbn [orb]. destruct (admissible i s) eqn:Ea; [|done]. cbn [negb].
    apply admissible_spec in Ea; [|done|done]. pose proof (judge_spec i st) as Hj.
    assert (evaluated i s st h) as He by (split; [done|]; split; [done|]; split; [by apply H3|done]).
    destruct (judge _ _ _ _) as [|reason stop code|hash]; [done| |by apply ordered_continue with (s := s)].
    destruct Hj. by apply ordered_block with (st := st). }
  destruct (ac_IsStopped u) eqn:Eu.
  - apply wpi_bind. intros stopped. split; [done|]. apply Hgo; [set_solver|set_solver|].
    intros -> _. set_solver.
  - apply Hgo; [set_solver|set_solver|done].
Qed.
End Due.
