(* ===== verification/EventStore.v ===== *)
(** * The events of the supervisor's log ([internal/supervisor/store/event_store.go])

    What an event is and which events may be written at all. *)

From S2P Require Import Prelude.
From S2P Require Import GoStrings.
From S2P Require Import UTF8.
From S2P Require Import Errors.
From S2P Require Import Domain.
From S2P Require Import Session.
From S2P Require Import SendGate.
From S2P Require Import PushPolicy.
From S2P Require Import GitStatus.
From S2P Require Import SupEff.
From S2P Require Import StartSession.

(** ** Events *)

(** [TextLength] and [RowCount] are nil or a number. *)
Record Event : Type := mkEvent {
  e_Seq : Z;
  e_At : Time;
  e_Kind : SupervisorEventKind;
  e_SessionID : string;
  e_ProjectID : string;
  e_FromState : SupervisorSessionState;
  e_ToState : SupervisorSessionState;
  e_SendID : string;
  e_SendKind : SupervisorSendKind;
  e_TextLength : option Z;
  e_Basis : list DetectionBasis;
  e_Code : string;
  e_Step : string;
  e_Reason : string;
  e_Pattern : string;
  e_Count : Z;
  e_RowCount : option Z;
  e_CommitSHA : string;
  e_Remote : string;
  e_Branch : string }.

#[export] Instance Event_settable : Settable Event := fun e =>
  mkEvent (e_Seq e) (e_At e) (e_Kind e) (e_SessionID e) (e_ProjectID e) (e_FromState e) (e_ToState e) (e_SendID e)
    (e_SendKind e) (e_TextLength e) (e_Basis e) (e_Code e) (e_Step e) (e_Reason e) (e_Pattern e) (e_Count e)
    (e_RowCount e) (e_CommitSHA e) (e_Remote e) (e_Branch e).

Definition noSendKind : SupervisorSendKind := SupervisorSendKindOther "".

Definition event_of (kind : SupervisorEventKind) : Event :=
  mkEvent 0 zeroTime kind "" "" NoSessionState NoSessionState "" noSendKind None [] "" "" "" "" 0 None "" "" "".

(** ** Validation *)

Definition empty (s : string) : bool := (s =? "")%string.
Definition no_state (s : SupervisorSessionState) : bool := empty (SupervisorSessionState_string s).
Definition no_send_kind (k : SupervisorSendKind) : bool := empty (SupervisorSendKind_string k).

(** [^[0-9a-f]{40}$] *)
Definition commitSHAPattern (s : string) : bool := (String.length s =? 40)%nat && str_forall is_lower_hex s.

(** [^[a-z0-9]+(?:-[a-z0-9]+)*-s[1-9][0-9]*$] *)
Definition sendIDPattern (value : string) : bool :=
  match rev (Split value "-") with
  | seq :: ((_ :: _) as parts) =>
      match chars seq with
      | s :: c :: digits => Ascii.eqb s "s" && char_in "1" "9" c && forallb is_digit digits
      | _ => false
      end && forallb slug_run parts
  | _ => false
  end.

Definition operatorSendEvent (kind : SupervisorEventKind) : bool :=
  match kind with
  | EventKindSendIssued | EventKindSendConfirmed | EventKindSendAborted | EventKindSendUnconfirmed | EventKindSendBlocked => true
  | _ => false
  end.

(** The strings of [SupervisorStartFailReason.Valid]. *)
Definition validStartFailureReason (reason : string) : bool :=
  existsb (String.eqb reason)
    (map SupervisorStartFailReason_string
       [StartFailUserSettings; StartFailProjectSettings; StartFailProjectLocalSettings; StartFailClaudeJSON; StartFailManaged;
        StartFailCodexAuth; StartFailChildEnv; StartFailProjectCWDUnavailable; StartFailSpawnFailed; StartFailLaunchArgvInvalid;
        StartFailSettingsGenerationFailed]).

Definition validBasis (basis : DetectionBasis) : bool :=
  match basis with DetectionBasisOther _ => false | _ => true end.

Definition validState (x : SupervisorSessionState) : bool :=
  match x with NoSessionState | SupervisorSessionStateOther _ => false | _ => true end.

Definition validSendKind (x : SupervisorSendKind) : bool :=
  match x with SupervisorSendKindOther _ => false | _ => true end.

Definition ref_component (c : string) : bool :=
  negb (empty c || (c =? ".")%string || (c =? "..")%string || HasPrefix c "." || HasSuffix c ".lock").

Definition validGitRef (value : string) : bool :=
  if empty value || (value =? "@")%string || HasPrefix value "-" || HasPrefix value "." || HasSuffix value "."
     || HasSuffix value ".lock" || Contains value ".." || Contains value "@{" || ContainsAny value " ~^:?*[\" then false
  else if HasPrefix value "/" || HasSuffix value "/" || Contains value "//" then false
  else forallb ref_component (Split value "/")
       && forallb (fun r => negb ((r <? 0x20) || (r =? 0x7f))) (runes value).

Definition RemoteControlSkipResumedAfterConfirmed : string := "resumed_after_confirmed".

(** The reasons that an event of a kind may have. *)
Definition reasons_of (kind : SupervisorEventKind) : list string :=
  match kind with
  | EventKindRemoteControlSkipped => [RemoteControlSkipResumedAfterConfirmed]
  | EventKindSendBlocked => ["stop"; "state"; "pending"; "unconfirmed"; "not_fixed_text"; "rate_limited"]
  | EventKindOperatorInputRefused => ["supervised_caller"; "forbidden_text"]
  | EventKindRecommendationBlocked =>
      ["force_push"; "pull_request"; "deploy"; "deletion"; "production"; "billing"; "git_history"; "migration"; "privilege";
       "undetermined"; "repeated"; "consecutive_limit"]
  | EventKindCommitFailed =>
      ["path_escape"; "staged_out_of_scope"; "out_of_scope_uncommitted"; "rename_partial"; "git_config_changed";
       "gitattributes_filter"; "git_config_include"; "tree_mismatch_before_commit"; "commit_rejected"; "git_timeout";
       "git_unavailable"; "git_failed"; "git_output_too_large"]
  | EventKindPushBlocked =>
      ["detached_head"; "protected_branch"; "not_in_allowlist"; "multiple_urls"; "url_mismatch"; "receivepack_configured";
       "remote_helper_configured"; "git_config_changed"; "no_tracking_ref"; "foreign_commits"; "argv_not_allowed";
       "git_config_include"; "remote_head_unavailable"; "remote_head_not_local"; "git_failed"; "git_output_too_large"]
  | EventKindVerifyFailed => ["verify_binary_changed"; "verify_cwd_invalid"; "verify_exec_failed"]
  | EventKindSessionStopped =>
      ["stop_global"; "stop_session"; "supervisor_restarted"; "send_not_confirmed"; "send_aborted"; "process_exit_with_pending";
       "recommendation_forbidden"; "recommendation_undetermined"; "recommendation_repeated"; "auto_continue_limit";
       "rotate_step_failed"; "respawn_failed"; "recovery_start_timeout"; "claude_session_id_missing"; "restart_limit_consecutive";
       "restart_limit_daily"; "orphan_child_alive"; "state_file_corrupt"]
  | EventKindStopSet => ["stop_global"; "stop_session"]
  | EventKindRestartLimitExceeded => ["restart_limit_consecutive"; "restart_limit_daily"]
  | EventKindSessionExited => ["stop_session_requested"]
  | EventKindLunaImplNotAllowed => ["home_unavailable"; "config_missing"; "config_invalid"; "not_allowed"]
  | EventKindRotateFailed =>
      ["idle_wait_timeout"; "send_not_confirmed"; "mtime_not_updated"; "head_generation_unchanged"; "not_idle_after_handoff";
       "exit_timeout"; "spawn_failed"; "startup_timeout"; "start_not_settled"; "child_absent"; "restart_limit"]
  | EventKindRotateIdleWaitTimeout => ["idle_wait_timeout"]
  | _ => []
  end%string.

Definition validReasonForEvent (kind : SupervisorEventKind) (value : string) : bool := existsb (String.eqb value) (reasons_of kind).

Definition event_codes : list string :=
  ["SUP_CONFIG_INVALID"; "SUP_INSTANCE_LOCK_HELD"; "SUP_PROJECT_NOT_FOUND"; "SUP_SESSION_ALREADY_RUNNING";
   "SUP_SESSION_LIMIT_REACHED"; "SUP_SESSION_NOT_FOUND"; "SUP_SPAWN_FAILED"; "SUP_ORPHAN_CHILD_ALIVE"; "SUP_STATE_FILE_CORRUPT";
   "SUP_ILLEGAL_TRANSITION"; "SUP_SEND_NOT_CONFIRMED"; "SUP_SEND_BLOCKED"; "SUP_RECOMMENDATION_FORBIDDEN";
   "SUP_RECOMMENDATION_UNDETERMINED"; "SUP_PERMISSION_PENDING"; "SUP_PERMISSION_MODE_UNSAFE"; "SUP_CONFIG_PATH_CONFLICT";
   "SUP_BILLING_GUARD_FAILED"; "SUP_SEND_ABORTED"; "SUP_RECOMMENDATION_REPEATED"; "SUP_AUTO_CONTINUE_LIMIT_REACHED";
   "SUP_RESUME_FORBIDDEN"; "SUP_OPERATOR_INPUT_FORBIDDEN"; "SUP_VERIFY_FAILED"; "SUP_SENSITIVE_PATH_BLOCKED"; "SUP_COMMIT_FAILED";
   "SUP_PUSH_REJECTED_POLICY"; "SUP_PUSH_FAILED"; "SUP_ROTATE_STEP_FAILED"; "SUP_STOP_ACTIVE"; "SUP_RESTART_LIMIT_EXCEEDED";
   "SUP_NOTIFY_FAILED"; "SUP_CLIENT_UNAVAILABLE"; "SUP_VERB_UNKNOWN"; "SUP_REQUEST_MALFORMED"; "SUP_PEER_REJECTED"]%string.

Definition validEventCode (v : string) : bool := existsb (String.eqb v) event_codes.

Definition validEventStep (v : string) : bool :=
  existsb (String.eqb v)
    ["wait_idle"; "send_end"; "confirm_handoff"; "send_exit"; "restart"; "send_start"; "send_parallel_instruction"]%string.

(** The conditions that several kinds have in common: no states, send, commit and push. *)
Definition bare (e : Event) : bool :=
  no_state (e_FromState e) && no_state (e_ToState e) && empty (e_SendID e) && no_send_kind (e_SendKind e)
  && bool_decide (e_Basis e = []) && empty (e_Code e) && empty (e_Step e) && (e_Count e =? 0)
  && empty (e_CommitSHA e) && empty (e_Remote e) && empty (e_Branch e).

Definition check (ok : bool) (err : error) : res unit := if ok then Ok tt else Err err.

Definition valid_length (e : Event) : res unit :=
  let operator := bool_decide (e_SendKind e = SendKindOperatorInput) in
  match e_TextLength e with
  | Some n =>
      check (operator && (1 <=? n) && (n <=? SupervisorOperatorInputMaxLength) && operatorSendEvent (e_Kind e))
        (Errorf "invalid operator input text length" [])
  | None => check (negb (operator && operatorSendEvent (e_Kind e))) (Errorf "missing operator input text length" [])
  end.

Definition kind_is (kind : SupervisorEventKind) (e : Event) : bool := bool_decide (e_Kind e = kind).

(** The kinds whose fields are fixed. *)
Definition valid_refused (e : Event) : res unit :=
  check (negb (kind_is EventKindOperatorInputRefused e)
         || negb (empty (e_SessionID e)) && negb (empty (e_Reason e)) && empty (e_ProjectID e) && is_none (e_TextLength e)
            && empty (e_Pattern e) && is_none (e_RowCount e) && bare e)
    (Errorf "invalid operator input refusal event" []).

Definition valid_rows (e : Event) : res unit :=
  if kind_is EventKindScreenRead e
  then check (negb (empty (e_SessionID e)) && match e_RowCount e with Some n => 0 <=? n | None => false end
              && empty (e_ProjectID e) && empty (e_Reason e) && empty (e_Pattern e) && bare e)
         (Errorf "invalid screen read event" [])
  else check (is_none (e_RowCount e)) (Errorf "row count is only valid for screen read" []).

Definition valid_skipped (e : Event) : res unit :=
  check (negb (kind_is EventKindRemoteControlSkipped e)
         || negb (empty (e_SessionID e)) && (e_Reason e =? RemoteControlSkipResumedAfterConfirmed)%string && empty (e_ProjectID e)
            && is_none (e_TextLength e) && empty (e_Pattern e) && is_none (e_RowCount e) && bare e)
    (Errorf "invalid remote control skipped event" []).

Definition valid_start_failure (e : Event) : res unit :=
  if kind_is EventKindSessionStartFailed e
  then check (empty (e_SessionID e) && negb (empty (e_ProjectID e)) && validStartFailureReason (e_Reason e) && bare e)
         (Errorf "invalid session start failure event" [])
  else check (empty (e_ProjectID e)) (Errorf "project id is only valid for session start failure" []).

Definition valid_session_id (e : Event) : res unit :=
  if empty (e_SessionID e) then Ok tt
  else match NewSessionID (e_SessionID e) with Some err => Err err | None => Ok tt end.

Definition validateEvent (e : Event) : res unit :=
  _ ← check (ValidSupervisorEventKind (e_Kind e)) (Errorf "invalid supervisor event kind: %q" []);
  _ ← valid_length e;
  _ ← check (negb (kind_is EventKindSendBlocked e && (e_Reason e =? "rate_limited")%string
                   && negb (bool_decide (e_SendKind e = SendKindOperatorInput))))
        (Errorf "rate limit is only valid for operator input" []);
  _ ← valid_refused e;
  _ ← valid_rows e;
  _ ← valid_skipped e;
  _ ← check (empty (e_Reason e) || validReasonForEvent (e_Kind e) (e_Reason e)
             || kind_is EventKindSessionStartFailed e && validStartFailureReason (e_Reason e))
        (Errorf "invalid reason %q for event %q" []);
  _ ← check (empty (e_Code e) || validEventCode (e_Code e)) (Errorf "invalid supervisor event code: %q" []);
  _ ← check (empty (e_Pattern e) || kind_is EventKindSensitivePathBlocked e && ValidSensitivePattern (e_Pattern e))
        (Errorf "invalid sensitive path pattern" []);
  _ ← check (empty (e_Step e) || validEventStep (e_Step e)) (Errorf "invalid supervisor event step: %q" []);
  _ ← valid_session_id e;
  _ ← check (empty (e_ProjectID e) || slugPattern (e_ProjectID e)) (Errorf "invalid project id" []);
  _ ← valid_start_failure e;
  _ ← check ((no_state (e_FromState e) || validState (e_FromState e)) && (no_state (e_ToState e) || validState (e_ToState e)))
        (Errorf "invalid supervisor session state" []);
  _ ← check (no_send_kind (e_SendKind e) || validSendKind (e_SendKind e)) (Errorf "invalid supervisor send kind" []);
  _ ← check (empty (e_SendID e) || sendIDPattern (e_SendID e)) (Errorf "invalid supervisor send id" []);
  _ ← check (forallb validBasis (e_Basis e)) (Errorf "invalid supervisor detection basis" []);
  _ ← check (empty (e_CommitSHA e) || commitSHAPattern (e_CommitSHA e)) (Errorf "invalid commit sha" []);
  _ ← check (empty (e_Branch e) || validGitRef (e_Branch e)) (Errorf "invalid git branch" []);
  check (empty (e_Remote e) || validGitRef (e_Remote e)) (Errorf "invalid git remote" []).
