(* ===== verification/EventLog.v ===== *)
(** * The files of the event log ([internal/supervisor/store/event_store.go],
    [supervisor_log.go])

    The appending of numbered events, the rotation of the generations of the log, the
    search for the last number after a restart and the reading of the whole log.

    The store runs on files whose contents are explicit.  Every system call takes the next
    of a list of outcomes: it is done, it fails, or the process dies in it; when the list is
    used up, calls are done.  A call that fails leaves the files alone, but for a write,
    which may have written a part of its data.  Only this process changes the files, and
    [EventStore.mu] runs one method at a time.  [encoding/json] is a parameter. *)

From stdpp Require Import pretty sorting.
From S2P Require Import Prelude.
From S2P Require Import GoStrings.
From S2P Require Import Errors.
From S2P Require Import Domain.
From S2P Require Import TaskPaths.
From S2P Require Import Session.
From S2P Require Import EventStore.

Abbreviation bytes := (list ascii) (only parsing).

Definition newline : ascii := "010"%char.
Definition is_newline (c : ascii) : bool := Ascii.eqb newline c.
Arguments is_newline : simpl never.

(** ** The store and its files *)

Inductive Outcome : Type :=
| Done
| Fails (written : nat) (err : error)
| Crash.

Record EventStoreState : Type := mkEventStore {
  root : string;
  maxBytes : Z;
  retention : nat;
  ev_seq : Z;
  initialized : bool;
  rootInitialized : bool }.

#[export] Instance EventStoreState_settable : Settable EventStoreState := fun s =>
  mkEventStore (root s) (maxBytes s) (retention s) (ev_seq s) (initialized s) (rootInitialized s).

Record World : Type := mkWorld { files : gmap string bytes; outcomes : list Outcome; store : EventStoreState }.

#[export] Instance World_settable : Settable World := fun w => mkWorld (files w) (outcomes w) (store w).

(** Rotation limits. *)
Definition eventLogMaxBytes : Z := 10000000.
Definition eventLogRetentionCount : Z := 5.

Definition NewEventStoreWithOptions (stateDir : string) (maxBytes retention : Z) : EventStoreState :=
  let maxBytes := if maxBytes <? 1 then eventLogMaxBytes else maxBytes in
  let retention := if retention <? 1 then eventLogRetentionCount else retention in
  mkEventStore stateDir maxBytes (Z.to_nat retention) 0 false false.

Definition NewEventStore (stateDir : string) : EventStoreState :=
  NewEventStoreWithOptions stateDir eventLogMaxBytes eventLogRetentionCount.

(** [None]: the process has died. *)
Definition EL (A : Type) : Type := ST World (option error) A.

Definition fail {A : Type} (err : error) : EL A := st_fail (Some err).

(** A system call: its outcome, a failure with the bytes that it has written. *)
Definition outcome : EL (option (nat * error)) := fun w =>
  match outcomes w with
  | [] => (w, Ok None)
  | Done :: rest => (w <| outcomes := rest |>, Ok None)
  | Fails n err :: rest => (w <| outcomes := rest |>, Ok (Some (n, err)))
  | Crash :: rest => (w <| outcomes := rest |>, Err None)
  end.

Definition sys : EL unit :=
  o ← outcome; match o with Some (_, err) => fail err | None => mret tt end.

(** What a caller that looks at the error sees; a dead process sees nothing. *)
Definition try {A : Type} (m : EL A) : EL (res A) := fun w =>
  match m w with
  | (w, Ok a) => (w, Ok (Ok a))
  | (w, Err (Some err)) => (w, Ok (Err err))
  | (w, Err None) => (w, Err None)
  end.

Definition not_exist : error := Errno ENOENT.
Definition is_not_exist (err : error) : bool := errors_Is err FsErrNotExist.

Definition contents (path : string) : EL bytes :=
  w ← st_get; match files w !! path with Some data => mret data | None => fail not_exist end.

(** [os.Lstat] of a regular file: its size. *)
Definition regularFileInfo (path : string) : EL Z := sys;; data ← contents path; mret (Z.of_nat (length data)).

Definition remove (path : string) : EL unit := sys;; contents path;; st_modify (fun w => w <| files := delete path (files w) |>).

Definition rename (source destination : string) : EL unit :=
  sys;; data ← contents source;
  st_modify (fun w => w <| files := <[destination := data]> (delete source (files w)) |>).

(** [open] with [O_CREAT]. *)
Definition create (path : string) : EL unit :=
  sys;; st_modify (fun w => w <| files := <[path := default [] (files w !! path)]> (files w) |>).

Definition extend (path : string) (data : bytes) (w : World) : World :=
  w <| files := <[path := default [] (files w !! path) ++ data]> (files w) |>.

(** A write at the end of the file. *)
Definition write (path : string) (data : bytes) : EL unit :=
  o ← outcome;
  match o with
  | Some (n, err) => st_modify (extend path (take n data));; fail err
  | None => st_modify (extend path data)
  end.

(** [openNoFollow] of a file that need not be there, with its check. *)
Definition openNoFollow (path : string) : EL bytes := sys;; data ← contents path; sys;; mret data.

(** A descriptor that is used and closed: the first of the two errors. *)
Definition closing {A : Type} (m : EL A) : EL A :=
  r ← try m; c ← try sys;
  match r, c with
  | Err err, _ => fail err
  | Ok _, Err err => fail err
  | Ok a, Ok _ => mret a
  end.

(** ** [rotateLog] *)

(** [fmt.Sprintf("%s.%d", path, generation)]; generation 0 is the path itself. *)
Definition generation_path (path : string) (generation : nat) : string :=
  match generation with O => path | _ => path +:+ "." +:+ pretty generation end.

Fixpoint rotate_from (path : string) (retention generation : nat) : EL unit :=
  match generation with
  | O => mret tt
  | S previous =>
      (if (generation =? retention)%nat then
         r ← try (remove (generation_path path generation));
         match r with Err err => if is_not_exist err then mret tt else fail err | Ok _ => mret tt end
       else mret tt);;
      r ← try (regularFileInfo (generation_path path previous));
      match r with
      | Ok _ => rename (generation_path path previous) (generation_path path generation)
      | Err err => if is_not_exist err then mret tt else fail err
      end;;
      rotate_from path retention previous
  end.

Definition rotateLog (path : string) (retention : nat) : EL unit := rotate_from path retention retention.

(** ** Opening the log *)

Definition repairPartialTail (path : string) : EL unit :=
  r ← try (openNoFollow path);
  match r with
  | Err err => if is_not_exist err then mret tt else fail err
  | Ok _ =>
      sys;; data ← contents path;
      if (length data =? 0)%nat then mret tt
      else
        sys;;
        match list.last data with
        | Some c => if is_newline c then mret tt else write path [newline]
        | None => mret tt
        end
  end.

Definition path : EL string := w ← st_get; mret (TaskPaths.filepath_Join [root (store w); "events.jsonl"%string]).

Definition initialize : EL unit :=
  w ← st_get;
  if rootInitialized (store w) then mret tt
  else
    sys;;  (* MkdirAll *)
    sys;;  (* Chmod *)
    p ← path;
    r ← try (openNoFollow p);
    match r with
    | Ok _ => closing sys
    | Err err => if is_not_exist err then mret tt else fail err
    end;;
    (if initialized (store w) then mret tt else repairPartialTail p);;
    st_modify (fun w => w <| store := store w <| rootInitialized := true |> |>).

Section Json.
(** [json.Marshal] of an event, [None] if it fails, and [json.Unmarshal] into one. *)
Context (Marshal : Event -> option bytes) (Unmarshal : bytes -> option Event).

(** ** The search for the last number *)

Definition reverseBytes (data : bytes) : bytes := rev data.

(** The bytes of a chunk from its end; [line] is what has been read of a line, its last
    byte first.  The number of the first line that decodes, or the line that goes on. *)
Fixpoint scan_back (chunk line : bytes) : Z + bytes :=
  match chunk with
  | [] => inr line
  | c :: chunk =>
      if is_newline c && negb (length line =? 0)%nat then
        match Unmarshal (reverseBytes line) with
        | Some event => inl (e_Seq event)
        | None => scan_back chunk []
        end
      else if negb (is_newline c) then scan_back chunk (line ++ [c])
      else scan_back chunk line
  end.

Definition last_of_line (line : bytes) : Z :=
  match Unmarshal (reverseBytes line) with
  | Some event => if (0 <? length line)%nat then e_Seq event else 0
  | None => 0
  end.

Definition chunk_size : nat := Z.to_nat (32 * 1024).

(** [ReadAt] of the bytes from [start] to [position]. *)
Definition ReadAt (data : bytes) (start position : nat) : EL bytes := sys;; mret (take (position - start) (drop start data)).

(** A round takes at least one byte, so [position] rounds are enough. *)
Fixpoint last_sequence_loop (fuel size : nat) (data : bytes) (position : nat) (line : bytes) : EL Z :=
  match fuel with
  | S fuel =>
      if (position =? 0)%nat then mret (last_of_line line)
      else
        let start := (position - size)%nat in
        chunk ← ReadAt data start position;
        match scan_back (rev chunk) line with
        | inl n => mret n
        | inr line => last_sequence_loop fuel size data start line
        end
  | O => mret (last_of_line line)
  end.

Definition lastSequence (data : bytes) : EL Z :=
  sys;; last_sequence_loop (length data) chunk_size data (length data) [].

Definition set_seq (n : Z) : EL unit := st_modify (fun w => w <| store := store w <| ev_seq := n |> |>).

Definition restore_from (p : string) : EL unit :=
  r ← try (openNoFollow p);
  match r with
  | Err err => if is_not_exist err then mret tt else fail err
  | Ok data =>
      n ← try (lastSequence data);
      w ← st_get;
      match n with Ok n => if ev_seq (store w) <? n then set_seq n else mret tt | Err _ => mret tt end;;
      sys;;  (* Close *)
      match n with Err err => fail err | Ok _ => mret tt end
  end.

Definition restoreSeq : EL unit := p ← path; restore_from (generation_path p 1);; restore_from p.

(** ** [Record] *)

(** The size of the file, if it is there. *)
Definition size_of (p : string) : EL (option Z) :=
  r ← try (regularFileInfo p);
  match r with
  | Ok n => mret (Some n)
  | Err err => if is_not_exist err then mret None else fail err
  end.

Definition rotate_if (b : option Z -> bool) (p : string) : EL unit :=
  n ← size_of p; w ← st_get;
  if b n then rotateLog p (retention (store w)) else mret tt.

Definition append (p : string) (data : bytes) : EL unit :=
  create p;;
  closing (sys;;  (* the check of the file *)
           write p data;;
           sys  (* Sync *)).

(** [now] is what the clock says, if the event has no time. *)
Definition Record_ (now : Time) (event : Event) : EL Event :=
  match validateEvent event with
  | Err err => fail err
  | Ok _ =>
      initialize;;
      w ← st_get;
      (if initialized (store w) then mret tt
       else try restoreSeq;; st_modify (fun w => w <| store := store w <| initialized := true |> |>));;
      p ← path;
      w ← st_get;
      rotate_if (fun n => match n with Some n => maxBytes (store w) <? n | None => false end) p;;
      let event := event <| e_Seq := (ev_seq (store w) + 1) mod 2 ^ 64 |>
                         <| e_At := if IsZero (e_At event) then now else e_At event |> in
      match Marshal event with
      | None => fail (Errorf "json" [])
      | Some data =>
          let data := data ++ [newline] in
          rotate_if (fun n => match n with Some n => maxBytes (store w) <? n + Z.of_nat (length data) | None => false end) p;;
          append p data;;
          set_seq (e_Seq event);;
          mret event
      end
  end.

(** ** [ReadAll] *)

(** [ReadBytes] until the end: the lines, each without its newline; what follows the last
    newline is a line if it is not empty. *)
Definition read_lines (data : bytes) : list bytes :=
  match rev (split_on is_newline data) with
  | [] :: lines => rev lines
  | lines => rev lines
  end.

Definition read_events (lines : list bytes) : list Event := omap Unmarshal lines.
Definition malformed (lines : list bytes) : Z :=
  Z.of_nat (length (filter (fun line => is_none (Unmarshal line) = true) lines)).

Definition read_generation (p : string) : EL (list Event * Z) :=
  r ← try (openNoFollow p);
  match r with
  | Err err => if is_not_exist err then mret ([], 0) else fail err
  | Ok data =>
      closing sys;;  (* the reads and Close *)
      mret (read_events (read_lines data), malformed (read_lines data))
  end.

Fixpoint read_generations (p : string) (generations : list nat) : EL (list Event * Z) :=
  match generations with
  | [] => mret ([], 0)
  | g :: generations =>
      a ← read_generation (generation_path p g);
      b ← read_generations p generations;
      mret (a.1 ++ b.1, a.2 + b.2)
  end.

(** The generations of the log, the oldest first. *)
Definition generations (retention : nat) : list nat := rev (List.seq 0 (S retention)).

(** [sort.Slice] by the numbers; the order of equal numbers is open in the code. *)
Definition by_seq (e e' : Event) : Prop := e_Seq e <= e_Seq e'.
#[export] Instance by_seq_dec e e' : Decision (by_seq e e').
Proof. unfold by_seq. apply _. Defined.

Definition ReadAll : EL (list Event * Z) :=
  initialize;;
  p ← path; w ← st_get;
  r ← read_generations p (generations (retention (store w)));
  mret (merge_sort by_seq r.1, r.2).

(** ** The store over time *)

Inductive Op : Type :=
| OpRecord (now : Time) (event : Event)
| OpReadAll
| OpRestart.

(** Another process on the same directory. *)
Definition restarted (s : EventStoreState) : EventStoreState :=
  NewEventStoreWithOptions (root s) (maxBytes s) (Z.of_nat (retention s)).

Definition after {A : Type} (s : EventStoreState) (result : World * result (option error) A) (number : A -> option Z) :
    gmap string bytes * EventStoreState * option Z :=
  match result with
  | (w, Ok a) => (files w, store w, number a)
  | (w, Err (Some _)) => (files w, store w, None)
  | (w, Err None) => (files w, restarted s, None)
  end.

(** One call of the store, or a restart: what is left, and the number that was accepted. *)
Definition run_op (op : Op) (os : list Outcome) (d : gmap string bytes) (s : EventStoreState) :
    gmap string bytes * EventStoreState * option Z :=
  match op with
  | OpRecord now event => after s (Record_ now event (mkWorld d os s)) (fun e => Some (e_Seq e))
  | OpReadAll => after s (ReadAll (mkWorld d os s)) (fun _ => None)
  | OpRestart => (d, restarted s, None)
  end.

Fixpoint run_ops (ops : list (Op * list Outcome)) (d : gmap string bytes) (s : EventStoreState) :
    gmap string bytes * EventStoreState * list Z :=
  match ops with
  | [] => (d, s, [])
  | (op, os) :: ops =>
      match run_op op os d s with
      | (d, s, n) => match run_ops ops d s with (d, s, ns) => (d, s, option_list n ++ ns) end
      end
  end.
End Json.
