(* ===== verification/EventLogOk.v ===== *)
(** * The numbers of the event log

    A logic for the programs of the log in which a process may die in any call, and what
    it shows: the search from the end of a file finds the number of its last event, and
    whenever a process dies and another goes on, the events that are there are numbered
    one after the other. *)

From stdpp Require Import pretty sorting.
From S2P Require Import Prelude.
From S2P Require Import GoStrings.
From S2P Require Import Errors.
From S2P Require Import Domain.
From S2P Require Import Session.
From S2P Require Import EventStore.
From S2P Require Import EventLog.

(** ** Runs in which a process may die *)

Lemma bind_run {A B : Type} (m : EL A) (f : A -> EL B) w :
  (m ≫= f) w = match m w with (w', Ok a) => f a w' | (w', Err err) => (w', Err err) end.
Proof. reflexivity. Qed.

Definition no_failure (o : Outcome) : Prop := match o with Fails _ _ => False | _ => True end.

Abbreviation disk := (gmap string bytes) (only parsing).

(** Every run of [m] in which no call fails satisfies [Q] if it ends, and leaves files that
    satisfy [K] if the process dies in it. *)
Definition safe (K : disk -> Prop) {A : Type} (m : EL A) (d : disk) (s : EventStoreState)
    (Q : disk -> EventStoreState -> res A -> Prop) : Prop :=
  forall os, Forall no_failure os ->
  match m (mkWorld d os s) with
  | (w, r) =>
      outcomes w `suffix_of` os
      /\ match r with
         | Ok a => Q (files w) (store w) (Ok a)
         | Err (Some err) => Q (files w) (store w) (Err err)
         | Err None => K (files w) /\ Crash ∈ os
         end
  end.

Lemma no_failure_suffix os os' : os' `suffix_of` os -> Forall no_failure os -> Forall no_failure os'.
Proof. intros [k ->] H. by apply list.Forall_app in H as [_ ?]. Qed.

Section Rules.
Context (K : disk -> Prop).

Lemma safe_ret {A : Type} (a : A) d s Q : Q d s (Ok a) -> safe K (mret a) d s Q.
Proof. intros HQ os Hos. by split. Qed.

Lemma safe_fail {A : Type} err d s (Q : _ -> _ -> res A -> Prop) : Q d s (Err err) -> safe K (fail err) d s Q.
Proof. intros HQ os Hos. by split. Qed.

Lemma safe_mono {A : Type} (m : EL A) d s (Q Q' : disk -> EventStoreState -> res A -> Prop) :
  safe K m d s Q -> (forall d' s' r, Q d' s' r -> Q' d' s' r) -> safe K m d s Q'.
Proof.
  intros Hm HQ os Hos. specialize (Hm os Hos). destruct (m _) as [w [a|[err|]]]; destruct Hm as [H1 H2]; split; auto.
Qed.

Lemma safe_bind {A B : Type} (m : EL A) (f : A -> EL B) d s Q :
  safe K m d s (fun d' s' r => match r with Ok a => safe K (f a) d' s' Q | Err err => Q d' s' (Err err) end) ->
  safe K (m ≫= f) d s Q.
Proof.
  intros Hm os Hos. specialize (Hm os Hos). rewrite bind_run. destruct (m _) as [[d' os' s'] [a|[err|]]]; cbn in Hm; destruct Hm as [Hos' H].
  - specialize (H os' (no_failure_suffix _ _ Hos' Hos)). destruct (f a _) as [w [b|[err|]]]; destruct H as [H1 H2];
      (split; [by etrans|]); [done|done|]. destruct H2 as [HK Hc]. split; [done|]. destruct Hos' as [k ->]. apply elem_of_app. by right.
  - by split.
  - by split.
Qed.

Lemma safe_try {A : Type} (m : EL A) d s Q : safe K m d s (fun d' s' r => Q d' s' (Ok r)) -> safe K (try m) d s Q.
Proof.
  intros Hm os Hos. specialize (Hm os Hos). unfold try. destruct (m _) as [[d' os' s'] [a|[err|]]]; cbn in *; destruct Hm; by split.
Qed.

(** The next outcome of a call that does not fail. *)
Lemma safe_outcome d s Q : K d -> Q d s (Ok None) -> safe K outcome d s Q.
Proof.
  intros HK HQ os Hos. unfold outcome. cbn. destruct os as [|[|n err|] os]; cbn; [by split| |by inversion Hos|].
  - split; [by apply suffix_cons_r|done].
  - split; [by apply suffix_cons_r|]. split; [done|by left].
Qed.

Lemma safe_sys d s Q : K d -> Q d s (Ok tt) -> safe K sys d s Q.
Proof. intros HK HQ. unfold sys. by apply safe_bind, safe_outcome, safe_ret. Qed.

Lemma safe_get {A : Type} (f : World -> EL A) d s Q :
  (forall os, safe K (f (mkWorld d os s)) d s Q) -> safe K (st_get ≫= f) d s Q.
Proof. intros Hf os Hos. apply (Hf os os Hos). Qed.

Lemma safe_files (f : disk -> disk) d s Q : Q (f d) s (Ok tt) -> safe K (st_modify (fun w => w <| files := f (files w) |>)) d s Q.
Proof. intros HQ os Hos. by split. Qed.

Lemma safe_store (f : EventStoreState -> EventStoreState) d s Q :
  Q d (f s) (Ok tt) -> safe K (st_modify (fun w => w <| store := f (store w) |>)) d s Q.
Proof. intros HQ os Hos. by split. Qed.

Lemma safe_contents p d s Q :
  (forall data, d !! p = Some data -> Q d s (Ok data)) -> (d !! p = None -> Q d s (Err not_exist)) -> safe K (contents p) d s Q.
Proof.
  intros H1 H2. unfold contents. apply safe_get. intros os. cbn. destruct (d !! p) eqn:E; [apply safe_ret|apply safe_fail]; auto.
Qed.

(** *** The calls *)

Lemma safe_stat p d s Q :
  K d -> (forall data, d !! p = Some data -> Q d s (Ok (Z.of_nat (length data)))) -> (d !! p = None -> Q d s (Err not_exist)) ->
  safe K (regularFileInfo p) d s Q.
Proof.
  intros HK H1 H2. unfold regularFileInfo. apply safe_bind, safe_sys; [done|]. apply safe_bind, safe_contents; [|done].
  intros data E. by apply safe_ret, H1.
Qed.

Lemma safe_open p d s Q :
  K d -> (forall data, d !! p = Some data -> Q d s (Ok data)) -> (d !! p = None -> Q d s (Err not_exist)) ->
  safe K (openNoFollow p) d s Q.
Proof.
  intros HK H1 H2. unfold openNoFollow. apply safe_bind, safe_sys; [done|]. apply safe_bind, safe_contents; [|done].
  intros data E. apply safe_bind, safe_sys; [done|]. by apply safe_ret, H1.
Qed.

Lemma safe_closing {A : Type} (m : EL A) d s (Q : disk -> EventStoreState -> res A -> Prop) :
  safe K m d s (fun d' s' r => K d' /\ Q d' s' r) -> safe K (closing m) d s Q.
Proof.
  intros Hm. unfold closing. apply safe_bind, safe_try. eapply safe_mono; [exact Hm|]. intros d' s' r [HK HQ].
  apply safe_bind, safe_try, safe_sys; [done|]. destruct r; [by apply safe_ret|by apply safe_fail].
Qed.

Lemma safe_write p data d s Q :
  K d -> Q (<[p := default [] (d !! p) ++ data]> d) s (Ok tt) -> safe K (write p data) d s Q.
Proof. intros HK HQ. unfold write. apply safe_bind, safe_outcome; [done|]. intros os Hos. by split. Qed.

Lemma safe_path {A : Type} (f : string -> EL A) d s Q :
  safe K (f (TaskPaths.filepath_Join [root s; "events.jsonl"%string])) d s Q -> safe K (path ≫= f) d s Q.
Proof. intros Hf. unfold path. apply safe_bind, safe_get. intros os. by apply safe_ret. Qed.
End Rules.

(** ** The numbers in a file *)

Lemma split_on_at {A : Type} (p : A -> bool) (x : A) a b : p x = true -> split_on p (a ++ x :: b) = split_on p a ++ split_on p b.
Proof.
  intros Hx. induction a as [|y a IH]; cbn; [by rewrite Hx|]. rewrite IH. destruct (p y); [done|].
  destruct (split_on p a) as [|part parts] eqn:E; [by apply split_on_nonempty in E|done].
Qed.

Lemma split_on_first (l : bytes) part parts :
  split_on is_newline l = part :: parts ->
  parts = [] /\ l = part \/ exists rest, l = part ++ newline :: rest /\ split_on is_newline rest = parts.
Proof.
  revert part parts. induction l as [|c l IH]; intros part parts; cbn; [intros [= <- <-]; by left|].
  destruct (is_newline c) eqn:Ec.
  - intros [= <- <-]. apply Ascii.eqb_eq in Ec as <-. right. by exists l.
  - destruct (split_on is_newline l) as [|q qs] eqn:E; [by apply split_on_nonempty in E|]. intros [= <- <-].
    destruct (IH _ _ eq_refl) as [[-> ->]|(rest & -> & Hr)]; [by left|right; by exists rest].
Qed.

Section Numbers.
Context (Unmarshal : bytes -> option Event).

Definition filled (line : bytes) : bool := negb (length line =? 0)%nat.

(** The numbers of the lines that decode, the first line first. *)
Definition numbers_of (lines : list bytes) : list Z :=
  omap (fun line => if filled line then e_Seq <$> Unmarshal line else None) lines.
Definition numbers (data : bytes) : list Z := numbers_of (split_on is_newline data).
Definition top (l : list Z) : Z := default 0 (list.last l).

Lemma numbers_of_app a b : numbers_of (a ++ b) = numbers_of a ++ numbers_of b.
Proof. apply list.omap_app. Qed.

Definition one_line (line : bytes) : Prop := forallb (fun c => negb (is_newline c)) line = true.

Lemma one_line_numbers line : one_line line -> numbers line = numbers_of [line].
Proof. intros H. unfold numbers. by rewrite split_on_no_sep. Qed.

Lemma numbers_at a b : numbers (a ++ newline :: b) = numbers a ++ numbers b.
Proof. unfold numbers. by rewrite split_on_at, numbers_of_app by done. Qed.

(** What stands before a file joins its first line. *)
Lemma numbers_before a l part parts :
  split_on is_newline l = part :: parts -> numbers (a ++ l) = numbers (a ++ part) ++ numbers_of parts.
Proof.
  intros [[-> ->]|(rest & -> & <-)]%split_on_first; [cbn; by rewrite app_nil_r|].
  rewrite app_assoc. apply numbers_at.
Qed.

Lemma last_of_line_numbers line : one_line (rev line) -> last_of_line Unmarshal line = top (numbers (rev line)).
Proof.
  intros H. rewrite one_line_numbers by done. unfold last_of_line, reverseBytes, filled. cbn. unfold filled. rewrite length_rev.
  destruct (length line); cbn; [by destruct (Unmarshal _)|]. by destruct (Unmarshal _).
Qed.

(** Backwards over a chunk, with the beginning of a line behind it. *)
Lemma scan_back_numbers chunk line part parts :
  one_line (rev line) -> split_on is_newline (chunk ++ rev line) = part :: parts ->
  scan_back Unmarshal (rev chunk) line =
    match list.last (numbers_of parts) with Some n => inl n | None => inr (rev part) end.
Proof.
  revert line part parts. induction chunk as [|c chunk IH] using rev_ind; intros line part parts Hl Hs; cbn.
  - rewrite app_nil_l, split_on_no_sep in Hs by done. injection Hs as <- <-. cbn. by rewrite rev_involutive.
  - rewrite rev_unit. cbn [scan_back]. rewrite <- app_assoc in Hs. cbn in Hs. destruct (is_newline c) eqn:Ec; cbn.
    + assert (newline = c) as <- by (by apply Ascii.eqb_eq). rewrite split_on_at in Hs by done.
      rewrite (split_on_no_sep _ (rev line)) in Hs by done.
      destruct (split_on is_newline chunk) as [|q qs] eqn:Eq; [by apply split_on_nonempty in Eq|]. injection Hs as <- <-.
      rewrite numbers_of_app, last_app. unfold reverseBytes.
      assert (scan_back Unmarshal (rev chunk) [] = match list.last (numbers_of qs) with Some n => inl n | None => inr (rev q) end) as Hnext.
      { apply IH; [done|]. cbn. by rewrite app_nil_r. }
      unfold numbers_of at 1. cbn. unfold filled. rewrite length_rev.
      destruct line as [|x line]; [done|]. cbn [length Nat.eqb negb]. by destruct (Unmarshal _).
    + apply IH; [|by rewrite rev_unit]. unfold one_line. rewrite rev_unit. cbn. by rewrite Ec.
Qed.

(** [lastSequence] on the whole file, whatever the size of a chunk. *)
Lemma last_sequence_loop_numbers K fuel size data position line d s Q :
  K d -> (0 < size)%nat -> (position <= fuel)%nat -> one_line (rev line) ->
  Q d s (Ok (top (numbers (take position data ++ rev line)))) ->
  safe K (last_sequence_loop Unmarshal fuel size data position line) d s Q.
Proof.
  intros HK Hsize. revert position line. induction fuel as [|fuel IH]; intros position line Hp Hl HQ; cbn [last_sequence_loop].
  - assert (position = 0)%nat as -> by lia. apply safe_ret. by rewrite last_of_line_numbers.
  - destruct (Nat.eqb_spec position 0) as [->|Hne]; [apply safe_ret; by rewrite last_of_line_numbers|]. cbn zeta.
    unfold ReadAt. apply safe_bind, safe_bind, safe_sys; [done|]. apply safe_ret.
    set (start := (position - size)%nat) in *. set (chunk := take (position - start) (drop start data)).
    assert (take position data = take start data ++ chunk) as Ht.
    { unfold chunk. rewrite take_drop_commute, <- (take_drop start (take position data)), take_take.
      replace (start `min` position)%nat with start by lia. by replace (start + (position - start))%nat with position by lia. }
    rewrite Ht, <- app_assoc in HQ.
    destruct (split_on is_newline (chunk ++ rev line)) as [|part parts] eqn:E; [by apply split_on_nonempty in E|].
    rewrite (scan_back_numbers chunk line part parts) by done. rewrite (numbers_before _ _ _ _ E) in HQ.
    assert (one_line part) as Hpart by (eapply split_on_parts; rewrite E; by left).
    destruct (list.last (numbers_of parts)) as [n|] eqn:En.
    + apply safe_ret. unfold top in HQ. by rewrite last_app, En in HQ.
    + apply last_None in En. apply IH; [lia|by rewrite rev_involutive|]. by rewrite En, app_nil_r, <- (rev_involutive part) in HQ.
Qed.

Lemma safe_lastSequence K data d s Q :
  K d -> Q d s (Ok (top (numbers data))) -> safe K (lastSequence Unmarshal data) d s Q.
Proof.
  intros HK HQ. unfold lastSequence. apply safe_bind, safe_sys; [done|].
  apply last_sequence_loop_numbers; [done|unfold chunk_size; lia|lia|done|]. cbn. by rewrite firstn_all, app_nil_r.
Qed.
End Numbers.
