(* ===== verification/EventLogRun.v ===== *)
(** * The event log across restarts

    In which order the events stand in the generations of the log, what a rotation and an
    append do to them, and the theorem on every sequence of records, reads, restarts and
    deaths of the process. *)

From stdpp Require Import pretty sorting.
From S2P Require Import Prelude.
From S2P Require Import GoStrings.
From S2P Require Import Errors.
From S2P Require Import Domain.
From S2P Require Import TaskPaths.
From S2P Require Import Session.
From S2P Require Import EventStore.
From S2P Require Import EventLog.
From S2P Require Import EventLogOk.

(** ** The last of increasing numbers *)

Lemma top_nonneg l : Forall (fun n => 0 <= n) l -> 0 <= top l.
Proof.
  intros H. unfold top. destruct (list.last l) as [n|] eqn:E; [|done]. cbn. rewrite List.Forall_forall in H. apply H.
  apply last_Some in E as [k ->]. apply in_or_app. right. by left.
Qed.

Lemma top_app a b : top (a ++ b) = match b with [] => top a | _ => top b end.
Proof. unfold top. rewrite last_app. destruct b as [|n b]; [done|]. by destruct (list.last (n :: b)) eqn:E; [|apply last_None in E]. Qed.

Lemma sorted_top l n : StronglySorted Z.lt l -> n ∈ l -> n <= top l.
Proof.
  destruct l as [|x l _] using rev_ind; [by intros _ ?%not_elem_of_nil|]. intros Hs Hn. unfold top. rewrite last_app. cbn.
  apply elem_of_app in Hn as [Hn| ->%list_elem_of_singleton]; [|lia]. apply StronglySorted_app in Hs as (H & _).
  apply Z.lt_le_incl, H; [done|by left].
Qed.

Lemma if_max a b : (if a <? b then b else a) = Z.max a b.
Proof. destruct (Z.ltb_spec a b); lia. Qed.

(** ** The generations *)

Lemma generation_path_inj p : Inj (=) (=) (generation_path p).
Proof.
  assert (forall g : nat, p <> p +:+ "." +:+ pretty (S g)) as Hne.
  { intros g. generalize (pretty (S g)) as digits. intros digits. induction p as [|c p IH]; [done|]. intros [= E]. by apply IH. }
  intros [|g] [|g'] E; cbn in E; [done|by apply Hne in E|by symmetry in E; apply Hne in E|].
  apply (inj (String.append p)) in E. by apply (inj (String.append ".")), (inj pretty) in E.
Qed.

Section Log.
Context (Marshal : Event -> option bytes) (Unmarshal : bytes -> option Event) (p : string) (R : nat).

Definition gen (d : disk) (g : nat) : bytes := default [] (d !! generation_path p g).
Definition gen_numbers (d : disk) (g : nat) : list Z := numbers Unmarshal (gen d g).

(** The numbers in the generations from [g] on, the oldest first. *)
Fixpoint log_from (d : disk) (g : nat) : list Z :=
  match g with O => gen_numbers d 0 | S younger => gen_numbers d g ++ log_from d younger end.
Definition log (d : disk) : list Z := log_from d R.

(** What a process finds: increasing numbers; and the last of them in one of the two
    youngest generations, where the search looks. *)
Record disk_ok (d : disk) : Prop := {
  ok_sorted : StronglySorted Z.lt (log d);
  ok_natural : Forall (fun n => 0 <= n) (log d);
  ok_current : gen_numbers d 0 = [] -> gen d 0 = [];
  ok_previous : gen d 0 = [] -> gen_numbers d 1 = [] -> log d = [] }.

Lemma log_from_ext d d' g : (forall i, (i <= g)%nat -> gen_numbers d' i = gen_numbers d i) -> log_from d' g = log_from d g.
Proof. induction g as [|g IH]; intros H; cbn; [by apply H|]. rewrite H, IH; [done|intros; apply H; lia|lia]. Qed.

Lemma gen_insert d g i data : gen (<[generation_path p g := data]> d) i = if decide (i = g) then data else gen d i.
Proof.
  unfold gen. destruct (decide (i = g)) as [->|Hne]; [by rewrite lookup_insert_eq|]. rewrite lookup_insert_ne; [done|].
  intros E%generation_path_inj. congruence.
Qed.

Lemma gen_delete d g i : gen (delete (generation_path p g) d) i = if decide (i = g) then [] else gen d i.
Proof.
  unfold gen. destruct (decide (i = g)) as [->|Hne]; [by rewrite lookup_delete_eq|]. rewrite lookup_delete_ne; [done|].
  intros E%generation_path_inj. congruence.
Qed.

Definition log_below (d : disk) (g : nat) : list Z := match g with O => [] | S younger => log_from d younger end.

Lemma log_from_below d g : log_from d g = gen_numbers d g ++ log_below d g.
Proof. destruct g; [by rewrite app_nil_r|done]. Qed.

Lemma log_below_ext d d' g : (forall i, (i < g)%nat -> gen_numbers d' i = gen_numbers d i) -> log_below d' g = log_below d g.
Proof. destruct g; [done|]. intros H. apply log_from_ext. intros. apply H. lia. Qed.

(** A generation that moves up to an empty place. *)
Lemma log_from_move d d' g n :
  gen d (S g) = [] -> gen d' g = [] -> gen d' (S g) = gen d g -> (forall i, i <> g -> i <> S g -> gen d' i = gen d i) -> (g < n)%nat ->
  log_from d' n = log_from d n.
Proof.
  intros H1 H2 H3 Hi. induction n as [|n IH]; intros Hn; [lia|]. cbn [log_from]. destruct (decide (n = g)) as [->|Hne].
  - rewrite !log_from_below, (log_below_ext d d') by (intros i Hig; unfold gen_numbers; rewrite Hi; [done|lia..]).
    unfold gen_numbers. by rewrite H1, H2, H3.
  - rewrite IH by lia. f_equal. unfold gen_numbers. rewrite Hi; [done|lia..].
Qed.

Lemma log_current d : exists older, log d = older ++ gen_numbers d 0.
Proof. unfold log. induction R as [|g [older IH]]; cbn; [by exists []|]. exists (gen_numbers d (S g) ++ older). by rewrite IH, app_assoc. Qed.

Lemma log_previous d : (1 <= R)%nat -> exists older, log d = older ++ gen_numbers d 1 ++ gen_numbers d 0.
Proof.
  unfold log. intros H. induction R as [|[|g] IH]; [lia|by exists []|]. destruct IH as [older IH]; [lia|].
  exists (gen_numbers d (S (S g)) ++ older). cbn in *. by rewrite IH, app_assoc.
Qed.

(** The files with the same generations are the same log. *)
Lemma disk_ok_ext d d' : (forall g, gen d' g = gen d g) -> disk_ok d -> disk_ok d' /\ log d' = log d.
Proof.
  intros E [H1 H2 H3 H4]. assert (log d' = log d) as El by (apply log_from_ext; intros; unfold gen_numbers; by rewrite E).
  split; [|done]. unfold gen_numbers in *. split; unfold gen_numbers; rewrite ?El, ?E; done.
Qed.

Lemma sorted_suffix (l l' : list Z) : l' `suffix_of` l -> StronglySorted Z.lt l -> StronglySorted Z.lt l'.
Proof. intros [k ->] H. by apply StronglySorted_app in H as (_ & _ & ?). Qed.

(** As long as the current generation has its events, the others may lose theirs. *)
Lemma disk_ok_older d d' : disk_ok d -> gen d' 0 = gen d 0 -> gen d 0 <> [] -> log d' `suffix_of` log d -> disk_ok d'.
Proof.
  intros [H1 H2 H3 H4] E Hne Hs. unfold gen_numbers in *. split; unfold gen_numbers; rewrite ?E; [by eapply sorted_suffix| |done|done].
  destruct Hs as [k Ek]. rewrite Ek in H2. by apply list.Forall_app in H2 as [_ ?].
Qed.

(** ** The rotation *)

Section Rotation.
Context (K : disk -> Prop) (L : list Z).

(** What is left of the log [L], with its last number. *)
Definition kept (d : disk) : Prop := disk_ok d /\ log d `suffix_of` L /\ top (log d) = top L.
Context (HK : forall d, kept d -> K d) (HR : (1 <= R)%nat).

Lemma kept_ext d d' : (forall g, gen d' g = gen d g) -> kept d -> kept d'.
Proof. intros E [Hd Hs]. destruct (disk_ok_ext d d' E Hd) as [? El]. split; [done|by rewrite El]. Qed.

Lemma top_current d : disk_ok d -> gen d 0 <> [] -> top (log d) = top (gen_numbers d 0).
Proof.
  intros Hd Hne. destruct (log_current d) as [older ->]. rewrite top_app. destruct (gen_numbers d 0) eqn:E; [|done].
  by apply (ok_current _ Hd) in E.
Qed.

Lemma gen_absent d g : d !! generation_path p g = None -> gen d g = [].
Proof. unfold gen. by intros ->. Qed.

Lemma kept_remove d : kept d -> gen d 0 <> [] -> kept (delete (generation_path p R) d) /\ gen (delete (generation_path p R) d) 0 = gen d 0.
Proof.
  intros (Hd & Hs & Ht) Hne. assert (gen (delete (generation_path p R) d) 0 = gen d 0) as E0 by (rewrite gen_delete; by case_decide; [lia|]).
  split; [|done]. assert (log (delete (generation_path p R) d) `suffix_of` log d) as Hsuf.
  { unfold log. rewrite !log_from_below. erewrite log_below_ext with (d := d).
    - unfold gen_numbers at 1. rewrite gen_delete, decide_True by done. cbn. by apply suffix_app_r.
    - intros i Hi. unfold gen_numbers. by rewrite gen_delete, decide_False by lia. }
  assert (disk_ok (delete (generation_path p R) d)) as Hd' by by apply (disk_ok_older d).
  split_and!; [done|by etrans|]. rewrite <- Ht, !top_current by (done || by rewrite E0). unfold gen_numbers. by rewrite E0.
Qed.

Lemma kept_move d g data :
  kept d -> gen d 0 <> [] -> (g < R)%nat -> d !! generation_path p (S g) = None -> d !! generation_path p g = Some data ->
  let d' := <[generation_path p (S g) := data]> (delete (generation_path p g) d) in
  kept d' /\ (gen d' 0 = if decide (g = 0%nat) then [] else gen d 0).
Proof.
  intros (Hd & Hs & Ht) Hne Hg Hnone Hdata d'. assert (data = gen d g) as Edata by (unfold gen; by rewrite Hdata).
  assert (forall i, gen d' i = if decide (i = S g) then data else if decide (i = g) then [] else gen d i) as Hgen.
  { intros i. unfold d'. by rewrite gen_insert, gen_delete. }
  assert (log d' = log d) as El.
  { apply (log_from_move d d' g); [by apply gen_absent|..|done]; intros; rewrite Hgen; repeat case_decide; done || lia. }
  assert (gen d' 0 = if decide (g = 0%nat) then [] else gen d 0) as E0.
  { rewrite Hgen. repeat case_decide; done || lia. }
  split; [|done]. split; [|by rewrite El]. case_decide; [subst g|by apply (disk_ok_older d); rewrite ?E0, ?El].
  destruct Hd as [H1 H2 H3 H4]. split; rewrite ?El; [done..|].
  intros _ En. unfold gen_numbers in En, H3. rewrite Hgen in En. cbn in En. rewrite Edata in En. by specialize (H3 En).
Qed.

Lemma safe_remove path d s Q :
  K d -> (forall data, d !! path = Some data -> Q (delete path d) s (Ok tt)) -> (d !! path = None -> Q d s (Err not_exist)) ->
  safe K (remove path) d s Q.
Proof.
  intros Hd H1 H2. unfold remove. apply safe_bind, safe_sys; [done|]. apply safe_bind, safe_contents; [|done].
  intros data E. apply safe_files. by eapply H1.
Qed.

Lemma safe_rename source destination d s Q :
  K d -> (forall data, d !! source = Some data -> Q (<[destination := data]> (delete source d)) s (Ok tt)) -> is_Some (d !! source) ->
  safe K (rename source destination) d s Q.
Proof.
  intros Hd H1 [data E]. unfold rename. apply safe_bind, safe_sys; [done|]. apply safe_bind, safe_contents; [|congruence].
  intros data' E'. apply (safe_files K (fun d => <[destination := data']> (delete source d))). by apply H1.
Qed.

Lemma safe_rotate_from g d s Q :
  (g <= R)%nat -> kept d -> (g = 0%nat -> gen d 0 = []) -> (g <> 0%nat -> gen d 0 <> []) ->
  ((g < R)%nat -> d !! generation_path p g = None) ->
  (forall d', kept d' -> d' !! p = None -> Q d' s (Ok tt)) -> safe K (rotate_from p R g) d s Q.
Proof.
  intros Hg Hd H0 Hne Habs HQ. induction g as [|g IH] in d, Hg, Hd, H0, Hne, Habs |- *; cbn [rotate_from].
  { apply safe_ret, HQ; [done|]. apply Habs. lia. }
  specialize (Hne ltac:(done)). clear H0. apply safe_bind.
  apply (safe_mono _ _ _ _ (fun d' s' r => r = Ok tt /\ s' = s /\ kept d' /\ gen d' 0 <> [] /\ d' !! generation_path p (S g) = None)).
  { destruct (Nat.eqb_spec (S g) R) as [E|E]; [|apply safe_ret; split_and!; try done; apply Habs; lia]. rewrite E.
    apply safe_bind, safe_try, safe_remove; [by apply HK| |].
    - intros data _. apply safe_ret. destruct (kept_remove d Hd Hne) as [Hk E0]. split_and!; try done; [by rewrite E0|]. apply lookup_delete_eq.
    - intros Hnone. cbn. apply safe_ret. by split_and!. }
  intros d1 s' r (-> & -> & Hd1 & Hne1 & Hnone). apply safe_bind, safe_try, safe_stat; [by apply HK| |].
  - intros data Hdata. apply safe_bind, safe_rename; [by apply HK| |done]. intros data' Hdata'.
    destruct (kept_move d1 g data' Hd1 Hne1 ltac:(lia) Hnone Hdata') as [Hk E0]. apply IH; [lia|done|..].
    + intros ->. by rewrite E0.
    + intros Hg0. by rewrite E0, decide_False.
    + intros _. rewrite lookup_insert_ne; [apply lookup_delete_eq|]. intros E%generation_path_inj. lia.
  - intros Hnone'. cbn. apply safe_bind, safe_ret. apply IH; [lia|done| |done|done]. intros ->. by apply gen_absent.
Qed.

Lemma safe_rotateLog d s Q :
  kept d -> gen d 0 <> [] -> (forall d', kept d' -> d' !! p = None -> Q d' s (Ok tt)) -> safe K (rotateLog p R) d s Q.
Proof. intros Hd Hne HQ. apply safe_rotate_from; try done; [by intros ->; lia|lia]. Qed.
End Rotation.

(** ** The store *)

Definition clean (data : bytes) : Prop := data = [] \/ exists before, data = before ++ [newline].

(** What a process knows of the log. *)
Record good (M : Z) (s : EventStoreState) (d : disk) : Prop := {
  good_path : filepath_Join [root s; "events.jsonl"%string] = p;
  good_retention : retention s = R;
  good_limit : maxBytes s = M;
  good_clean : rootInitialized s = true -> clean (gen d 0);
  good_root : initialized s = true -> rootInitialized s = true;
  good_seq : ev_seq s = if initialized s then top (log d) else 0 }.

Lemma log_current_ext d d' g :
  (forall i, i <> 0%nat -> gen d' i = gen d i) ->
  exists older, log_from d g = older ++ gen_numbers d 0 /\ log_from d' g = older ++ gen_numbers d' 0.
Proof.
  intros E. induction g as [|g (older & H1 & H2)]; cbn; [by exists []|]. exists (gen_numbers d (S g) ++ older).
  rewrite H1, H2, !app_assoc. split; [done|]. unfold gen_numbers at 1. by rewrite E.
Qed.

Lemma gen_write d data i : gen (<[p := data]> d) i = if decide (i = 0%nat) then data else gen d i.
Proof. apply (gen_insert d 0 i data). Qed.

Lemma numbers_tail data : numbers Unmarshal (data ++ [newline]) = numbers Unmarshal data.
Proof. by rewrite (numbers_at Unmarshal data []), app_nil_r. Qed.

Lemma numbers_line data line event :
  clean data -> one_line line -> filled line = true -> Unmarshal line = Some event ->
  numbers Unmarshal (data ++ line ++ [newline]) = numbers Unmarshal data ++ [e_Seq event].
Proof.
  intros Hc Hl Hf Hu. assert (numbers Unmarshal (line ++ [newline]) = [e_Seq event]) as E.
  { rewrite numbers_tail, one_line_numbers by done. unfold numbers_of. cbn. by rewrite Hf, Hu. }
  destruct Hc as [->|[before ->]]; [by rewrite app_nil_l, E|]. rewrite numbers_tail, <- app_assoc. cbn.
  by rewrite (numbers_at Unmarshal before), E.
Qed.

Section Store.
Context (K : disk -> Prop) (L : list Z) (M : Z) (HK : forall d, kept L d -> K d) (HR : (1 <= R)%nat) (HM : 0 <= M).

(** *** Opening *)

Lemma kept_repair d data : kept L d -> d !! p = Some data -> data <> [] -> kept L (<[p := data ++ [newline]]> d) /\ log (<[p := data ++ [newline]]> d) = log d.
Proof.
  intros (Hd & Hs & Ht) Ed Hne. assert (gen d 0 = data) as E0 by (unfold gen; cbn; by rewrite Ed).
  destruct (log_current_ext d (<[p := data ++ [newline]]> d) R) as (older & H1 & H2).
  { intros i Hi. by rewrite gen_write, decide_False. }
  assert (gen_numbers (<[p := data ++ [newline]]> d) 0 = gen_numbers d 0) as En.
  { unfold gen_numbers. rewrite gen_write, decide_True by done. by rewrite numbers_tail, E0. }
  assert (log (<[p := data ++ [newline]]> d) = log d) as El by (unfold log; by rewrite H1, H2, En).
  split; [|done]. split; [|by rewrite El]. destruct Hd as [? ? Hc Hp]. split; rewrite ?El; [done..| |].
  - rewrite En. intros H%Hc. congruence.
  - rewrite gen_write, decide_True by done. intros H. by apply app_nil in H as [_ ?].
Qed.

Lemma safe_repair d s Q :
  kept L d -> (forall d', kept L d' -> log d' = log d -> clean (gen d' 0) -> Q d' s (Ok tt)) -> safe K (repairPartialTail p) d s Q.
Proof.
  intros Hd HQ. unfold repairPartialTail. apply safe_bind, safe_try, safe_open; [by apply HK| |].
  2:{ intros Hnone. cbn. apply safe_ret, HQ; [done..|]. left. by apply gen_absent. }
  intros data Ed. assert (gen d 0 = data) as E0 by (unfold gen; cbn; by rewrite Ed).
  apply safe_bind, safe_sys; [by apply HK|]. apply safe_bind, safe_contents; [|congruence]. intros data' Ed'.
  assert (data' = data) as -> by congruence. destruct (Nat.eqb_spec (length data) 0) as [El|El].
  { apply safe_ret, HQ; [done..|]. left. rewrite E0. by destruct data. }
  apply safe_bind, safe_sys; [by apply HK|]. destruct (list.last data) as [c|] eqn:Ec; [|apply last_None in Ec; by rewrite Ec in El].
  apply last_Some in Ec as [before Eb]. destruct (is_newline c) eqn:Hc.
  - apply Ascii.eqb_eq in Hc as <-. apply safe_ret, HQ; [done..|]. right. exists before. by rewrite E0.
  - destruct (kept_repair d data Hd Ed) as [Hk Elog]; [by destruct data|].
    apply safe_write; [by apply HK|]. rewrite Ed. cbn. apply HQ; [done..|]. right. exists data. by rewrite gen_write.
Qed.

Lemma safe_initialize d s Q :
  kept L d -> good M s d ->
  (forall d' s', kept L d' -> log d' = log d -> good M s' d' -> rootInitialized s' = true -> initialized s' = initialized s -> Q d' s' (Ok tt)) ->
  safe K initialize d s Q.
Proof.
  intros Hd Hg HQ. unfold initialize. apply safe_get. intros os. cbn [store].
  destruct (rootInitialized s) eqn:Er; [by apply safe_ret, HQ|].
  assert (initialized s = false) as Ei by (apply not_true_iff_false; intros E; apply (good_root _ _ _ Hg) in E; congruence).
  apply safe_bind, safe_sys; [by apply HK|]. apply safe_bind, safe_sys; [by apply HK|]. apply safe_path. rewrite (good_path _ _ _ Hg).
  apply safe_bind, safe_try.
  assert (safe K ((if initialized s then mret tt else repairPartialTail p);; st_modify (fun w => w <| store := store w <| rootInitialized := true |> |>)) d s Q) as Hrest.
  { rewrite Ei. apply safe_bind, safe_repair; [done|]. intros d' Hd' El Hc.
    apply (safe_store K (fun s => s <| rootInitialized := true |>)). apply HQ; [done..| |done|by cbn].
    destruct Hg. split; cbn; try done. by rewrite Ei in *. }
  apply safe_open; [by apply HK| |].
  - intros data _. apply safe_bind, safe_closing, safe_sys; [by apply HK|]. split; [by apply HK|done].
  - intros _. cbn. by apply safe_bind, safe_ret.
Qed.

(** *** The last number *)

Lemma safe_restore_from g d s Q :
  kept L d ->
  Q d (s <| ev_seq := if ev_seq s <? top (gen_numbers d g) then top (gen_numbers d g) else ev_seq s |>) (Ok tt) ->
  (d !! generation_path p g = None -> Q d s (Ok tt)) -> safe K (restore_from Unmarshal (generation_path p g)) d s Q.
Proof.
  intros Hd H1 H2. unfold restore_from. apply safe_bind, safe_try, safe_open; [by apply HK| |].
  2:{ intros Hnone. cbn. by apply safe_ret, H2. }
  intros data E. apply safe_bind, safe_try, safe_lastSequence; [by apply HK|]. apply safe_get. intros os. cbn [store].
  assert (numbers Unmarshal data = gen_numbers d g) as -> by (unfold gen_numbers, gen; by rewrite E).
  apply safe_bind. destruct (ev_seq s <? top (gen_numbers d g)).
  - apply (safe_store K (fun s => s <| ev_seq := top (gen_numbers d g) |>)). apply safe_bind, safe_sys; [by apply HK|]. by apply safe_ret.
  - apply safe_ret. apply safe_bind, safe_sys; [by apply HK|]. apply safe_ret. by destruct s.
Qed.

(** The last number of the two youngest generations is the last of the log. *)
Lemma restored d (max := fun a b => if a <? b then b else a) :
  disk_ok d -> max (max 0 (top (gen_numbers d 1))) (top (gen_numbers d 0)) = top (log d).
Proof.
  intros [H1 H2 H3 H4]. destruct (log_previous d HR) as [older E]. rewrite E in *. unfold max.
  apply list.Forall_app in H2 as [_ [N1 N0]%list.Forall_app]. apply top_nonneg in N1, N0.
  apply StronglySorted_app in H1 as (_ & _ & Hs). rewrite !top_app. destruct (gen_numbers d 0) as [|n0 l0] eqn:E0.
  - rewrite app_nil_r in *. assert (top [] = 0) as -> by done.
    destruct (gen_numbers d 1) as [|n1 l1] eqn:E1.
    + assert (older = []) as -> by (rewrite <- (app_nil_r older); apply H4; auto). done.
    + rewrite !if_max. lia.
  - assert (match gen_numbers d 1 ++ n0 :: l0 with [] => top older | _ => top (gen_numbers d 1 ++ n0 :: l0) end = top (n0 :: l0)) as Et.
    { rewrite top_app. by destruct (gen_numbers d 1). }
    rewrite top_app in Et. rewrite Et. assert (top (gen_numbers d 1) <= top (n0 :: l0)) as Hle.
    { destruct (list.last (gen_numbers d 1)) as [m|] eqn:Em; [|unfold top at 1; by rewrite Em].
      unfold top at 1. rewrite Em. cbn [default]. apply last_Some in Em as [k Ek]. rewrite Ek in Hs.
      transitivity (top ((k ++ [m]) ++ n0 :: l0)); [|by rewrite top_app].
      apply sorted_top; [done|]. apply elem_of_app. left. apply elem_of_app. right. by left. }
    rewrite !if_max. lia.
Qed.

Lemma absent_top d g : d !! generation_path p g = None -> top (gen_numbers d g) = 0.
Proof. intros H. unfold gen_numbers. by rewrite gen_absent. Qed.

Lemma safe_restore d s Q :
  kept L d -> filepath_Join [root s; "events.jsonl"%string] = p -> ev_seq s = 0 ->
  Q d (s <| ev_seq := top (log d) |>) (Ok tt) -> safe K (restoreSeq Unmarshal) d s Q.
Proof.
  intros Hd Hp Hz HQ. rewrite <- restored in HQ by apply Hd. unfold restoreSeq. apply safe_path. rewrite Hp.
  assert (forall s1, Q d (s1 <| ev_seq := if ev_seq s1 <? top (gen_numbers d 0) then top (gen_numbers d 0) else ev_seq s1 |>) (Ok tt) ->
            ev_seq s1 >= 0 -> safe K (restore_from Unmarshal p) d s1 Q) as Hlast.
  { intros s1 H1 Hs1. apply (safe_restore_from 0); [done..|]. intros E%(absent_top d 0). rewrite E in H1.
    destruct (Z.ltb_spec (ev_seq s1) 0); [lia|]. by destruct s1. }
  apply safe_bind, (safe_restore_from 1); [done|..].
  - apply Hlast; [by cbn; rewrite Hz|]. cbn. rewrite Hz. destruct (Z.ltb_spec 0 (top (gen_numbers d 1))); lia.
  - intros E%absent_top. rewrite E in HQ. apply Hlast; [by rewrite Hz|lia].
Qed.
End Store.

(** *** Appending *)

(** What the code relies on of [encoding/json]: an encoded event is one line of some
    length, that decodes to an event with the same number, and is shorter than the log. *)
Class JsonLaws (M : Z) : Prop := {
  json_decodes : forall e line, Marshal e = Some line -> exists e', Unmarshal line = Some e' /\ e_Seq e' = e_Seq e;
  json_one_line : forall e line, Marshal e = Some line -> one_line line /\ filled line = true;
  json_empty : Unmarshal [] = None;
  json_small : forall e line, Marshal e = Some line -> Z.of_nat (length line) + 1 <= M }.

Section Record.
Context (M : Z) `{!JsonLaws M} (HR : (1 <= R)%nat) (HM : 0 <= M) (L : list Z).

(** The log [L], of which old events may have been dropped, and perhaps the next event. *)
Definition grown (d : disk) : Prop :=
  kept L d \/ disk_ok d /\ exists older, log d = older ++ [top L + 1] /\ older `suffix_of` L.

Lemma kept_grown d : kept L d -> grown d.
Proof. by left. Qed.

Lemma sorted_snoc (l : list Z) n : StronglySorted Z.lt l -> (forall m, m ∈ l -> m < n) -> StronglySorted Z.lt (l ++ [n]).
Proof.
  intros Hl Hn. apply StronglySorted_app_2; [|done|by repeat constructor]. intros x1 x2 H1 ->%list_elem_of_singleton. by apply Hn.
Qed.

Lemma sorted_below l l' n : StronglySorted Z.lt l -> l' `suffix_of` l -> n ∈ l' -> n < top l + 1.
Proof. intros Hs [k Ek] Hn. assert (n <= top l); [|lia]. apply sorted_top; [done|]. rewrite Ek. apply elem_of_app. by right. Qed.

Lemma appended d event line :
  StronglySorted Z.lt L -> Forall (fun n => 0 <= n) L -> kept L d -> clean (gen d 0) ->
  Marshal event = Some line -> e_Seq event = top L + 1 ->
  let d' := <[p := gen d 0 ++ line ++ [newline]]> d in
  disk_ok d' /\ log d' = log d ++ [top L + 1] /\ clean (gen d' 0).
Proof.
  intros HL HN (Hd & Hs & Ht) Hc Hm Hn d'. destruct (json_decodes _ _ Hm) as (e' & Hu & He'), (json_one_line _ _ Hm) as [Hone Hf].
  assert (gen d' 0 = gen d 0 ++ line ++ [newline]) as E0 by (unfold d'; by rewrite gen_write, decide_True).
  destruct (log_current_ext d d' R) as (older & H1 & H2); [intros i Hi; unfold d'; by rewrite gen_write, decide_False|].
  assert (gen_numbers d' 0 = gen_numbers d 0 ++ [top L + 1]) as En.
  { unfold gen_numbers. rewrite E0, (numbers_line _ _ e') by done. by rewrite He', Hn. }
  assert (log d' = log d ++ [top L + 1]) as El by (unfold log; by rewrite H2, H1, En, app_assoc).
  split_and!; [|done|].
  - assert (gen_numbers d' 0 <> []) as Hne by (rewrite En; by destruct (gen_numbers d 0)).
    assert (gen d' 0 <> []) as Hne' by (rewrite E0; by destruct (gen d 0), line).
    split; rewrite ?El; [|apply list.Forall_app; split; [apply Hd|]|done|done].
    + apply sorted_snoc; [apply Hd|]. intros m Hin. by eapply sorted_below.
    + constructor; [|done]. apply top_nonneg in HN. lia.
  - right. exists (gen d 0 ++ line). by rewrite E0, app_assoc.
Qed.

Lemma safe_append d s event line Q :
  StronglySorted Z.lt L -> Forall (fun n => 0 <= n) L -> kept L d -> clean (gen d 0) ->
  Marshal event = Some line -> e_Seq event = top L + 1 ->
  (forall d', disk_ok d' -> log d' = log d ++ [top L + 1] -> clean (gen d' 0) -> Q d' s (Ok tt)) ->
  safe grown (append p (line ++ [newline])) d s Q.
Proof.
  intros HL HN Hd Hc Hm Hn HQ. unfold append, create.
  set (d1 := <[p := gen d 0]> d). assert (forall i, gen d1 i = gen d i) as E1.
  { intros i. unfold d1. rewrite gen_write. by case_decide; [subst i|]. }
  assert (kept L d1) as Hd1 by by eapply kept_ext.
  destruct (appended d1 event line) as (Hok & Hlog & Hcl); try done; [by rewrite E1|]. rewrite E1 in *.
  assert (log d1 = log d) as El by (apply log_from_ext; intros; unfold gen_numbers; by rewrite E1). rewrite El in Hlog.
  apply safe_bind, safe_bind, safe_sys; [by apply kept_grown|].
  apply (safe_files grown (fun d => <[p := default [] (d !! p)]> d)). change (default [] (d !! p)) with (gen d 0). fold d1.
  assert (grown (<[p := gen d 0 ++ line ++ [newline]]> d1)) as Hg.
  { right. split; [done|]. exists (log d). split; [done|apply Hd]. }
  apply safe_closing. apply safe_bind, safe_sys; [by apply kept_grown|].
  apply safe_bind, safe_write; [by apply kept_grown|].
  assert (default [] (d1 !! p) = gen d 0) as -> by (unfold d1; by rewrite lookup_insert_eq).
  apply safe_sys; [done|]. split; [done|]. by apply HQ.
Qed.

(** *** The rotations of a record *)

Lemma safe_size d s Q :
  kept L d -> (forall data, d !! p = Some data -> Q d s (Ok (Some (Z.of_nat (length data))))) -> (d !! p = None -> Q d s (Ok None)) ->
  safe grown (size_of p) d s Q.
Proof.
  intros Hd H1 H2. unfold size_of. apply safe_bind, safe_try, safe_stat; [by apply kept_grown| |].
  - intros data E. by apply safe_ret, H1.
  - intros E. cbn. by apply safe_ret, H2.
Qed.

Lemma safe_rotate_if b d s Q :
  kept L d -> retention s = R -> b None = false -> b (Some 0) = false ->
  clean (gen d 0) -> (forall d', kept L d' -> clean (gen d' 0) -> Q d' s (Ok tt)) ->
  safe grown (rotate_if b p) d s Q.
Proof.
  intros Hd Hr Hb0 Hb1 Hc HQ. unfold rotate_if. apply safe_bind, safe_size; [done| |].
  - intros data E. apply safe_get. intros os. cbn [store]. destruct (b (Some (Z.of_nat (length data)))) eqn:Eb; [|by apply safe_ret, HQ].
    rewrite Hr. apply (safe_rotateLog grown L kept_grown HR); [done| |].
    + unfold gen. cbn. rewrite E. cbn. intros ->. change (Z.of_nat (length [])) with 0 in Eb. congruence.
    + intros d' Hd' Hnone. apply HQ; [done..|]. left. by apply (gen_absent d' 0).
  - intros E. apply safe_get. intros os. rewrite Hb0. by apply safe_ret, HQ.
Qed.
End Record.

(** *** [Record] *)

(** The event as it is written. *)
Definition numbered (now : Time) (event : Event) (n : Z) : Event :=
  event <| e_Seq := n |> <| e_At := if IsZero (e_At event) then now else e_At event |>.

(** What a record leaves: its event at the end of the log, if it is accepted. *)
Definition recorded (M : Z) (now : Time) (event : Event) (d d' : disk) (s' : EventStoreState) (r : res Event) : Prop :=
  disk_ok d' /\ good M s' d'
  /\ match r with
     | Ok e => e = numbered now event (top (log d) + 1) /\ exists older, log d' = older ++ [e_Seq e] /\ older `suffix_of` log d
     | Err err => log d' `suffix_of` log d /\ top (log d') = top (log d)
                  /\ (validateEvent event = Err err \/ Marshal (numbered now event (top (log d) + 1)) = None)
     end.

Section Recording.
Context (M : Z) `{!JsonLaws M} (HR : (1 <= R)%nat) (HM : 0 <= M) (now : Time) (event : Event).

Lemma good_numbered s d d' n :
  good M s d -> rootInitialized s = true -> initialized s = true -> clean (gen d' 0) -> n = top (log d') -> good M (s <| ev_seq := n |>) d'.
Proof. intros [] Hr Hi Hc ->. split; cbn; try done. by rewrite Hi. Qed.

Lemma good_later s d d' :
  good M s d -> rootInitialized s = true -> initialized s = true -> clean (gen d' 0) -> ev_seq s = top (log d') -> good M s d'.
Proof. intros [] Hr Hi Hc E. split; try done. by rewrite Hi. Qed.

Lemma safe_Record d s :
  disk_ok d -> good M s d -> top (log d) + 1 < 2 ^ 64 ->
  safe (grown (log d)) (Record_ Marshal Unmarshal now event) d s (recorded M now event d).
Proof.
  intros Hd Hg Htop. assert (kept (log d) d) as Hk by done. unfold Record_.
  destruct (validateEvent event) as [u|err] eqn:Ev; [|by apply safe_fail; split_and!; [..|left]].
  apply safe_bind, (safe_initialize _ (log d) M (kept_grown _)); [done..|]. intros d1 s1 Hk1 El1 Hg1 Hr1 Hi1.
  apply safe_get. intros os. cbn [store]. apply safe_bind.
  apply (safe_mono _ _ _ _ (fun d2 s2 r => d2 = d1 /\ r = Ok tt /\ good M s2 d1 /\ ev_seq s2 = top (log d) /\ rootInitialized s2 = true /\ initialized s2 = true)).
  { destruct (initialized s1) eqn:Ei.
    - apply safe_ret. split_and!; try done. by rewrite (good_seq _ _ _ Hg1), Ei, El1.
    - apply safe_bind, safe_try, (safe_restore _ (log d) (kept_grown _) HR); [done|apply Hg1|by rewrite (good_seq _ _ _ Hg1), Ei|].
      apply (safe_store _ (fun s => s <| initialized := true |>)). split_and!; try done; [|by cbn; rewrite El1]. destruct Hg1. by split. }
  intros d2 s2 r (-> & -> & Hg2 & Hseq & Hr2 & Hi2). apply safe_path. rewrite (good_path _ _ _ Hg2).
  apply safe_get. intros os2. cbn [store]. apply safe_bind, (safe_rotate_if HR); [done|apply Hg2|done| |by apply Hg2|].
  { rewrite (good_limit _ _ _ Hg2). by apply Z.ltb_ge. }
  intros d3 Hk3 Hc3. cbn zeta. rewrite Hseq, Z.mod_small by (split; [|done]; apply Z.add_nonneg_nonneg; [apply top_nonneg, Hd|done]).
  fold (numbered now event (top (log d) + 1)).
  destruct (Marshal (numbered now event (top (log d) + 1))) as [line|] eqn:Em.
  2:{ apply safe_fail. destruct Hk3 as (Hok3 & Hs3 & Ht3). split_and!; [done| |done|done|by right]. by apply (good_later s2 d1); rewrite ?Ht3. }
  apply safe_bind, (safe_rotate_if HR); [done|apply Hg2|done| |done|].
  { rewrite (good_limit _ _ _ Hg2), length_app. apply Z.ltb_ge. apply json_small in Em. cbn. lia. }
  intros d4 Hk4 Hc4. apply safe_bind. eapply safe_append with (event := numbered now event (top (log d) + 1)); try done; try apply Hd.
  intros d5 Hok5 El5 Hc5. apply safe_bind, (safe_store _ (fun s => s <| ev_seq := e_Seq (numbered now event (top (log d) + 1)) |>)).
  apply safe_ret. split_and!; [done| |done|exists (log d4); split; [done|apply Hk4]].
  apply (good_numbered s2 d1); try done. by rewrite El5, top_app.
Qed.
End Recording.

(** ** The log across any number of processes *)

(** What became of the numbers [l]: the last number has not gone back, other numbers are
    new ones, and what is missing is older than all that is there. *)
Definition later (l l' : list Z) : Prop :=
  top l <= top l' /\ (forall m, m ∈ l' -> m ∈ l \/ top l < m) /\ (forall n, n ∈ l -> n ∈ l' \/ Forall (fun m => n < m) l').

Lemma later_kept l l' : StronglySorted Z.lt l -> l' `suffix_of` l -> top l' = top l -> later l l'.
Proof.
  intros Hs [k ->] Ht. apply StronglySorted_app in Hs as (H & _). split_and!; [lia|intros m Hm; left; apply elem_of_app; by right|].
  intros n [Hn|Hn]%elem_of_app; [right|by left]. apply List.Forall_forall. intros m Hm. apply H; [done|by apply list_elem_of_In].
Qed.

Lemma later_grown l older : StronglySorted Z.lt l -> older `suffix_of` l -> later l (older ++ [top l + 1]).
Proof.
  intros Hs [k E]. assert (forall n, n ∈ l -> n <= top l) as Hmax by (intros n; by apply sorted_top).
  rewrite E in Hs. apply StronglySorted_app in Hs as (H & _). split_and!.
  - rewrite top_app. cbn. lia.
  - intros m [Hm| ->%list_elem_of_singleton]%elem_of_app; [|right; lia]. left. rewrite E. apply elem_of_app. by right.
  - intros n Hn. specialize (Hmax n Hn). rewrite E in Hn. apply elem_of_app in Hn as [Hn|Hn]; [right|left; apply elem_of_app; by left].
    apply list.Forall_app. split; [|constructor; [lia|done]].
    apply List.Forall_forall. intros m Hm. apply H; [done|by apply list_elem_of_In].
Qed.

Lemma later_log_trans l l' l'' : StronglySorted Z.lt l -> later l l' -> later l' l'' -> later l l''.
Proof.
  intros Hs (T & N & D) (T' & N' & D'). split_and!; [lia|..].
  - intros m [Hm|Hm]%N'; [by apply N|right; lia].
  - intros n Hn. assert (n <= top l) as Hmax by by apply sorted_top. apply D in Hn as [Hn|Hn]; [by apply D'|right].
    apply List.Forall_forall. intros m Hm%list_elem_of_In%N'. destruct Hm as [Hm|Hm]; [|lia].
    rewrite List.Forall_forall in Hn. apply Hn. by apply list_elem_of_In.
Qed.

(** *** [ReadAll] *)

Section Reading.
Context (M : Z) `{!JsonLaws M} (K : disk -> Prop) (L : list Z) (HK : forall d, kept L d -> K d).

Lemma read_lines_numbers data : map e_Seq (read_events Unmarshal (read_lines data)) = numbers Unmarshal data.
Proof.
  assert (forall lines, map e_Seq (read_events Unmarshal lines) = numbers_of Unmarshal lines) as Hall.
  { intros lines. unfold read_events, numbers_of. induction lines as [|line lines IH]; cbn; [done|]. unfold filled.
    destruct line as [|c line]; [by rewrite json_empty|]. cbn. by destruct (Unmarshal (c :: line)); cbn; rewrite IH. }
  rewrite Hall. unfold numbers, read_lines. destruct (rev (split_on is_newline data)) as [|[|c line] lines] eqn:E;
    apply (f_equal (@rev _)) in E; rewrite rev_involutive in E; rewrite E; [done| |done].
  cbn [rev]. rewrite numbers_of_app. cbn. by rewrite app_nil_r.
Qed.

Lemma safe_read_generations gs d s Q :
  kept L d ->
  (forall events n, map e_Seq events = concat (map (gen_numbers d) gs) -> Q d s (Ok (events, n))) ->
  safe K (read_generations Unmarshal p gs) d s Q.
Proof.
  intros Hd. induction gs as [|g gs IH] in Q |- *; cbn [read_generations]; intros HQ; [by apply safe_ret, HQ|].
  assert (forall (k : list Event * Z -> EL (list Event * Z)),
    (forall events n, map e_Seq events = gen_numbers d g -> safe K (k (events, n)) d s Q) ->
    safe K (read_generation Unmarshal (generation_path p g) ≫= k) d s Q) as Hgen.
  { intros k Hk. unfold read_generation. apply safe_bind, safe_bind, safe_try, safe_open; [by apply HK| |].
    - intros data E. apply safe_bind, safe_closing, safe_sys; [by apply HK|]. split; [by apply HK|]. apply safe_ret, Hk.
      rewrite read_lines_numbers. unfold gen_numbers, gen. by rewrite E.
    - intros E. cbn. apply safe_ret, Hk. unfold gen_numbers. by rewrite gen_absent. }
  apply Hgen. intros events n En. apply safe_bind, IH. intros events' n' En'. apply safe_ret, HQ. cbn. by rewrite map_app, En, En'.
Qed.

Lemma log_generations d : concat (map (gen_numbers d) (generations R)) = log d.
Proof.
  unfold log, generations. induction R as [|g IH]; [cbn; by rewrite app_nil_r|].
  rewrite seq_S, rev_app_distr. cbn [rev map concat app log_from Nat.add]. by rewrite <- IH.
Qed.

Lemma sorted_le_lt l : StronglySorted Z.lt l -> StronglySorted Z.le l.
Proof. induction 1 as [|n l Hl IH Hn]; constructor; [done|]. eapply Forall_impl; [|exact Hn]. cbn. lia. Qed.

#[local] Instance by_seq_trans : Transitive by_seq.
Proof. intros e e' e''. unfold by_seq. lia. Qed.
#[local] Instance by_seq_total : Total by_seq.
Proof. intros e e'. unfold by_seq. lia. Qed.

(** Events whose numbers increase already are in order. *)
Lemma merged_numbers events : StronglySorted Z.lt (map e_Seq events) -> map e_Seq (merge_sort by_seq events) = map e_Seq events.
Proof.
  intros Hs. apply (StronglySorted_unique Z.le).
  - assert (StronglySorted by_seq (merge_sort by_seq events)) as H.
    { apply (StronglySorted_merge_sort by_seq). }
    induction H as [|e l Hl IH He]; cbn; constructor; [done|]. apply List.Forall_map. exact He.
  - by apply sorted_le_lt.
  - apply Permutation_map, merge_sort_Permutation.
Qed.

Lemma safe_ReadAll d s :
  kept L d -> good M s d ->
  safe K (ReadAll Unmarshal) d s (fun d' s' r =>
    kept L d' /\ log d' = log d /\ good M s' d' /\ exists events n, r = Ok (events, n) /\ map e_Seq events = log d).
Proof.
  intros Hd Hg. unfold ReadAll. apply safe_bind, (safe_initialize K L M HK); [done..|]. intros d1 s1 Hk1 El1 Hg1 Hr1 Hi1.
  apply safe_path. rewrite (good_path _ _ _ Hg1). apply safe_get. intros os. cbn [store]. rewrite (good_retention _ _ _ Hg1).
  apply safe_bind, safe_read_generations; [done|]. intros events n En. rewrite log_generations in En. apply safe_ret.
  split_and!; [done..|]. exists (merge_sort by_seq events), n. split; [done|].
  rewrite merged_numbers; rewrite En; [done|apply Hk1].
Qed.
End Reading.
End Log.
