(* ===== verification/EventLogNumbers.v ===== *)
(** * What the event log promises

    Whatever is recorded and read and wherever the process dies and is started again: the
    numbers of the events go on.  And what the log does not promise when a call of the
    operating system fails. *)

From stdpp Require Import pretty sorting.
From S2P Require Import Prelude.
From S2P Require Import GoStrings.
From S2P Require Import Errors.
From S2P Require Import Domain.
From S2P Require Import TaskPaths.
From S2P Require Import Session.
From S2P Require Import EventStore.
From S2P Require Import EventLog.
From S2P Require Import EventLogOk.
From S2P Require Import EventLogRun.

(** ** The search for the last number *)

(** C7. For every content of a file and every size of the chunks in which it is read
    backwards, the search of [lastSequence] ends and finds the number of the last line that
    is an event, and 0 if there is none, although lines may lie across chunks. *)
Theorem last_sequence_is_the_last (Unmarshal : bytes -> option Event) (data : bytes) (size : nat) d s (H : (0 < size)%nat) :
  (last_sequence_loop Unmarshal (length data) size data (length data) [] (mkWorld d [] s)).2
  = Ok (default 0 (list.last (omap (fun line => if filled line then e_Seq <$> Unmarshal line else None)
                                (split_on is_newline data)))).
Proof.
  assert (safe (fun _ => True) (last_sequence_loop Unmarshal (length data) size data (length data) []) d s
            (fun _ _ r => r = Ok (top (numbers Unmarshal data)))) as Hs.
  { apply last_sequence_loop_numbers; [done..|]. by rewrite firstn_all, app_nil_r. }
  specialize (Hs [] ltac:(done)). destruct (last_sequence_loop _ _ _ _ _ _ _) as [w [n|[err|]]] eqn:E; destruct Hs as [_ Hs]; [|done|].
  - cbn. by injection Hs as ->.
  - destruct Hs as [_ Hs]. by apply not_elem_of_nil in Hs.
Qed.

(** ** Any number of processes *)

Section Numbers.
Context (Marshal : Event -> option bytes) (Unmarshal : bytes -> option Event) (p : string) (R : nat) (M : Z).
Context `{!JsonLaws Marshal Unmarshal M} (HR : (1 <= R)%nat) (HM : 1 <= M).

Abbreviation log := (log Unmarshal p R).

(** The files and the store between two calls, and the numbers accepted by the second. *)
Definition step_ok (d : disk) (d' : disk) (s' : EventStoreState) (accepted : list Z) : Prop :=
  disk_ok Unmarshal p R d' /\ good Unmarshal p R M s' d' /\ later (log d) (log d')
  /\ (accepted = [] \/ accepted = [top (log d) + 1] /\ exists older, log d' = older ++ [top (log d) + 1])
  /\ top (log d') <= top (log d) + 1.

Lemma restarted_good s d d' : good Unmarshal p R M s d -> good Unmarshal p R M (restarted s) d'.
Proof.
  intros [H1 H2 H3 _ _ _]. unfold restarted, NewEventStoreWithOptions. split; cbn; try done.
  - destruct (Z.ltb_spec (Z.of_nat (retention s)) 1); [lia|]. by rewrite Nat2Z.id.
  - by destruct (Z.ltb_spec (maxBytes s) 1); [lia|].
Qed.

Lemma kept_step d d' s' : disk_ok Unmarshal p R d -> kept Unmarshal p R (log d) d' -> good Unmarshal p R M s' d' -> step_ok d d' s' [].
Proof. intros Hd (Hd' & Hs & Ht) Hg. split_and!; [done|done|by apply later_kept; [apply Hd|..]|by left|lia]. Qed.

Lemma grown_step d d' s' :
  disk_ok Unmarshal p R d -> grown Unmarshal p R (log d) d' -> good Unmarshal p R M s' d' -> step_ok d d' s' [].
Proof.
  intros Hd [Hk|(Hd' & older & E & Hs)] Hg; [by apply kept_step|].
  split_and!; [done|done|rewrite E; apply later_grown; [apply Hd|done]|by left|]. rewrite E, top_app. cbn. lia.
Qed.

Lemma run_op_ok op os d s :
  disk_ok Unmarshal p R d -> good Unmarshal p R M s d -> Forall no_failure os -> top (log d) + 1 < 2 ^ 64 ->
  match run_op Marshal Unmarshal op os d s with (d', s', n) => step_ok d d' s' (option_list n) end.
Proof.
  intros Hd Hg Hos Ht. assert (kept Unmarshal p R (log d) d) as Hk by done. destruct op as [now event| |]; cbn [run_op].
  - pose proof (safe_Record Marshal Unmarshal p R M HR ltac:(lia) now event d s Hd Hg Ht os Hos) as Hr.
    destruct (Record_ _ _ _ _ _) as [w [e|[err|]]]; destruct Hr as [_ Hr]; cbn.
    + destruct Hr as (Hd' & Hg' & -> & older & E & Hs). cbn in E. split_and!; [done|done|rewrite E; apply later_grown; [apply Hd|done]| |].
      * right. split; [done|by exists older].
      * rewrite E, top_app. cbn. lia.
    + destruct Hr as (Hd' & Hg' & Hs & Et & _). apply kept_step; [done..].
    + apply grown_step; [done|apply Hr|by eapply restarted_good].
  - pose proof (safe_ReadAll Marshal Unmarshal p R M _ (log d) (fun d H => H) d s Hk Hg os Hos) as Hr.
    destruct (ReadAll _ _) as [w [r|[err|]]]; destruct Hr as [_ Hr]; cbn.
    + destruct Hr as (Hk' & _ & Hg' & _). by apply kept_step.
    + destruct Hr as (_ & _ & _ & ? & ? & ? & _). done.
    + apply kept_step; [done|apply Hr|by eapply restarted_good].
  - apply kept_step; [done..|by eapply restarted_good].
Qed.

(** What a sequence of calls leaves of the log [l], with the numbers that it accepted. *)
Definition gone_on (l l' accepted : list Z) : Prop :=
  StronglySorted Z.lt l' /\ StronglySorted Z.lt accepted /\ Forall (fun n => top l < n <= top l') accepted
  /\ forall n, n ∈ l \/ n ∈ accepted -> n ∈ l' \/ Forall (fun m => n < m) l'.

Lemma run_ops_ok ops d s :
  disk_ok Unmarshal p R d -> good Unmarshal p R M s d -> Forall (fun o => Forall no_failure o.2) ops ->
  top (log d) + Z.of_nat (length ops) < 2 ^ 64 ->
  match run_ops Marshal Unmarshal ops d s with
  | (d', s', accepted) => disk_ok Unmarshal p R d' /\ good Unmarshal p R M s' d' /\ later (log d) (log d') /\ gone_on (log d) (log d') accepted
  end.
Proof.
  intros Hd Hg Hops. revert d s Hd Hg. induction Hops as [|[op os] ops Ho Hops IH]; intros d s Hd Hg Ht; cbn [run_ops].
  - assert (later (log d) (log d)) as Hl by (split; [lia|split; auto]).
    split; [done|]. split; [done|]. split; [done|]. split; [apply Hd|]. split; [constructor|]. split; [constructor|].
    intros n [Hn|Hn]; [by left|by apply not_elem_of_nil in Hn].
  - cbn [length] in Ht. pose proof (run_op_ok op os d s Hd Hg Ho ltac:(lia)) as Hs.
    destruct (run_op _ _ op os d s) as [[d1 s1] n]. destruct Hs as (Hd1 & Hg1 & Hl1 & Hn & Ht1).
    specialize (IH d1 s1 Hd1 Hg1 ltac:(lia)). destruct (run_ops _ _ ops d1 s1) as [[d2 s2] ns].
    destruct IH as (Hd2 & Hg2 & Hl2 & G1 & G2 & G3 & G4).
    assert (later (log d) (log d2)) as Hl by (eapply later_log_trans; [apply Hd|done..]).
    assert (Forall (fun n => top (log d) < n <= top (log d2)) ns) as G3'.
    { eapply Forall_impl; [|exact G3]. cbn. destruct Hl1. lia. }
    split; [done|]. split; [done|]. split; [done|]. destruct Hn as [->|[-> [older E]]].
    + split; [done|]. split; [done|]. split; [done|]. intros n' [Hn'|Hn']; [by apply Hl|by apply G4; right].
    + assert (top (log d1) = top (log d) + 1) as Et by (by rewrite E, top_app).
      split; [done|]. cbn [app]. split; [|split].
      * constructor; [done|]. eapply Forall_impl; [|exact G3]. cbn. lia.
      * constructor; [|done]. destruct Hl2. lia.
      * intros n' [Hn'|Hn']; [by apply Hl|]. apply elem_of_cons in Hn' as [->|Hn']; [|by apply G4; right].
        apply G4. left. rewrite E. apply elem_of_app. right. by left.
Qed.
End Numbers.

Lemma new_store_good Unmarshal dir mb ret d (s := NewEventStoreWithOptions dir mb ret) :
  good Unmarshal (filepath_Join [dir; "events.jsonl"%string]) (retention s) (maxBytes s) s d.
Proof. by split. Qed.

Lemma new_store_limits dir mb ret (s := NewEventStoreWithOptions dir mb ret) : (1 <= retention s)%nat /\ 1 <= maxBytes s.
Proof.
  unfold s, NewEventStoreWithOptions. cbn. split.
  - destruct (Z.ltb_spec ret 1); unfold eventLogRetentionCount; lia.
  - destruct (Z.ltb_spec mb 1); unfold eventLogMaxBytes; lia.
Qed.


(** ** A log of its own *)

(** An encoding that keeps the number only, in unary, between braces. *)
Definition demo_Marshal (e : Event) : option bytes :=
  if (0 <=? e_Seq e) && (e_Seq e <=? 1000) then Some ("{"%char :: replicate (Z.to_nat (e_Seq e)) "x"%char ++ ["}"%char]) else None.
Definition demo_Unmarshal (line : bytes) : option Event :=
  match line with
  | c :: line =>
      match rev line with
      | c' :: body =>
          if Ascii.eqb c "{" && Ascii.eqb c' "}" && forallb (Ascii.eqb "x") body
          then Some (event_of EventKindSessionStarted <| e_Seq := Z.of_nat (length body) |>) else None
      | [] => None
      end
  | [] => None
  end.

Lemma rev_replicate {A : Type} n (x : A) : rev (replicate n x) = replicate n x.
Proof. induction n as [|n IH]; [done|]. cbn [replicate rev]. rewrite IH. by rewrite <- replicate_S_end. Qed.

Lemma forallb_replicate {A : Type} (f : A -> bool) n x : f x = true -> forallb f (replicate n x) = true.
Proof. intros Hx. induction n as [|n IH]; cbn; [done|]. by rewrite Hx. Qed.

#[local] Instance demo_json : JsonLaws demo_Marshal demo_Unmarshal eventLogMaxBytes.
Proof.
  split; [..|done|]; intros e line; unfold demo_Marshal; destruct (Z.leb_spec 0 (e_Seq e)), (Z.leb_spec (e_Seq e) 1000);
    try done; cbn [andb]; intros [= <-].
  - eexists. unfold demo_Unmarshal. rewrite rev_unit, rev_replicate. cbn [Ascii.eqb Bool.eqb andb]. rewrite forallb_replicate by done.
    split; [reflexivity|]. cbn -[replicate]. rewrite length_replicate. lia.
  - split; [|done]. unfold one_line. cbn [forallb]. by rewrite forallb_app, forallb_replicate.
  - cbn [length]. rewrite length_app, length_replicate. cbn. unfold eventLogMaxBytes. lia.
Qed.

Lemma empty_disk_ok Unmarshal p R : disk_ok Unmarshal p R ∅.
Proof.
  assert (forall g, gen_numbers Unmarshal p ∅ g = []) as Hg by (intros g; unfold gen_numbers, gen; by rewrite lookup_empty).
  assert (log Unmarshal p R ∅ = []) as E.
  { unfold log. induction R as [|g IH]; cbn [log_from]; by rewrite Hg. }
  split; rewrite ?E; done || by constructor.
Qed.

Definition demo_event : Event := event_of EventKindSessionStarted <| e_SessionID := "repo-1"%string |>.

(** A record that dies before it has written, and one that is done. *)
Definition demo_ops : list (Op * list Outcome) :=
  [(OpRecord 5 demo_event, []); (OpRecord 6 demo_event, [Done; Done; Done; Done; Crash]); (OpRecord 7 demo_event, []); (OpReadAll, [])].


(** ** Calls that fail *)

(** A sync that fails after the write: the number of the event that was refused, but is in
    the log, is given again. *)
Example failed_sync_repeats_a_number :
  let calls := [(OpRecord 5 demo_event, [Done; Done; Done; Done; Done; Done; Done; Done; Done; Done; Done; Fails 0 (Errno EIO)]);
                (OpRecord 6 demo_event, [])] in
  let '(d, s, accepted) := run_ops demo_Marshal demo_Unmarshal calls ∅ (NewEventStore "/state") in
  accepted = [1] /\ log demo_Unmarshal "/state/events.jsonl" 5 d = [1; 1].
Proof. vm_compute. by split. Qed.

(** A write that fails after a part of the line, on a full disk for example: the next event
    is accepted, but its line is joined to that part, and no reader finds it. *)
Example short_write_loses_the_next_event :
  let calls := [(OpRecord 5 demo_event, [Done; Done; Done; Done; Done; Done; Done; Done; Done; Done; Fails 2 (Errno ENOSPC)]);
                (OpRecord 6 demo_event, [])] in
  let '(d, s, accepted) := run_ops demo_Marshal demo_Unmarshal calls ∅ (NewEventStore "/state") in
  accepted = [1] /\ (ReadAll demo_Unmarshal (mkWorld d [] s)).2 = Ok ([], 1).
Proof. vm_compute. by split. Qed.

Lemma last_sequence_is_the_last_witness :
  (0 < 3)%nat /\ (last_sequence_loop demo_Unmarshal 9 3 (chars "{x" ++ [newline] ++ chars "{xx}" ++ [newline; "{"%char]) 9 []
                    (mkWorld ∅ [] (NewEventStore "/state"))).2 = Ok 2.
Proof.
  split; [lia|].
  etransitivity; [apply (last_sequence_is_the_last demo_Unmarshal (chars "{x" ++ [newline] ++ chars "{xx}" ++ [newline; "{"%char])); lia|].
  vm_compute. reflexivity.
Defined.
