(* ===== verification/EventsOk.v ===== *)
(** * Every event of the use cases is one that the log accepts

    The use cases that drive a session, commit and push report what they do to
    [EventStore.Record], which writes nothing that [validateEvent] refuses. *)

From S2P Require Import Prelude.
From S2P Require Import GoStrings.
From S2P Require Import UTF8.
From S2P Require Import Errors.
From S2P Require Import Domain.
From S2P Require Import Session.
From S2P Require Import TextPolicy.
From S2P Require Import SendGate.
From S2P Require Import PushPolicy.
From S2P Require Import GitStatus.
From S2P Require Import Effects.
From S2P Require Import Launch.
From S2P Require Import SupEff.
From S2P Require Import Preflight.
From S2P Require Import StartSession.
From S2P Require Import Respawn.
From S2P Require Import Rotate.
From S2P Require Import PlanRotation.
From S2P Require Import AutoContinue.
From S2P Require Import EventStore.

(** ** The events of [SupEff] *)

Definition sup_event (id : string) (e : SupEvent) : Event :=
  event_of (se_Kind e) <| e_SessionID := id |> <| e_Code := se_Code e |> <| e_Reason := se_Reason e |>
    <| e_Step := SupervisorRotateStep_string (se_Step e) |> <| e_FromState := se_From e |> <| e_ToState := se_To e |>
    <| e_At := default zeroTime (se_At e) |>.

Definition start_failed_event (projectID reason : string) : Event :=
  event_of EventKindSessionStartFailed <| e_ProjectID := projectID |> <| e_Reason := reason |>.

(** ** What a short event needs *)

(** The kinds that have no fields of their own. *)
Definition plain_kind (kind : SupervisorEventKind) : bool :=
  match kind with
  | EventKindOperatorInputRefused | EventKindScreenRead | EventKindRemoteControlSkipped | EventKindSessionStartFailed
  | EventKindSendBlocked | SupervisorEventKindOther _ => false
  | _ => true
  end.

Definition known_state (s : SupervisorSessionState) : bool := no_state s || validState s.

Definition acceptable (e : SupEvent) : bool :=
  plain_kind (se_Kind e) && (empty (se_Reason e) || validReasonForEvent (se_Kind e) (se_Reason e))
  && (empty (se_Code e) || validEventCode (se_Code e))
  && (let step := SupervisorRotateStep_string (se_Step e) in empty step || validEventStep step)
  && known_state (se_From e) && known_state (se_To e).

Lemma then_ok (r : res unit) (k : unit -> res unit) : r = Ok tt -> k tt = Ok tt -> (r ≫= k) = Ok tt.
Proof. by intros ->. Qed.
Lemma check_ok (b : bool) err : b = true -> check b err = Ok tt.
Proof. by intros ->. Qed.

Lemma empty_or (s : string) (b : bool) : empty s || b = true -> s = ""%string \/ b = true.
Proof. intros [H|H]%orb_true_iff; [left; by apply String.eqb_eq|by right]. Qed.

(** What the log checks of an event of such a kind, if its other fields are empty. *)
Lemma plain_ok e :
  plain_kind (e_Kind e) = true -> NewSessionID (e_SessionID e) = None ->
  e_ProjectID e = ""%string -> e_SendKind e <> SendKindOperatorInput -> e_TextLength e = None -> e_RowCount e = None ->
  empty (e_Reason e) || validReasonForEvent (e_Kind e) (e_Reason e) = true ->
  empty (e_Code e) || validEventCode (e_Code e) = true ->
  empty (e_Pattern e) || kind_is EventKindSensitivePathBlocked e && ValidSensitivePattern (e_Pattern e) = true ->
  empty (e_Step e) || validEventStep (e_Step e) = true ->
  known_state (e_FromState e) = true -> known_state (e_ToState e) = true ->
  no_send_kind (e_SendKind e) || validSendKind (e_SendKind e) = true ->
  empty (e_SendID e) || sendIDPattern (e_SendID e) = true -> forallb validBasis (e_Basis e) = true ->
  empty (e_CommitSHA e) || commitSHAPattern (e_CommitSHA e) = true ->
  empty (e_Branch e) || validGitRef (e_Branch e) = true -> empty (e_Remote e) || validGitRef (e_Remote e) = true ->
  validateEvent e = Ok tt.
Proof.
  intros Hk Hid Hp Hsk Ht Hr H1 H2 H3 H4 H5 H6 H7 H8 H9 H10 H11 H12.
  assert (forall kind, plain_kind kind = false -> kind_is kind e = false) as Hnot.
  { intros kind Hkind. apply bool_decide_eq_false. intros E. congruence. }
  unfold validateEvent. apply then_ok; [apply check_ok; by destruct (e_Kind e)|].
  apply then_ok; [unfold valid_length; rewrite Ht, bool_decide_eq_false_2 by done; done|].
  apply then_ok; [apply check_ok; by rewrite Hnot|].
  apply then_ok; [apply check_ok; by rewrite Hnot|].
  apply then_ok; [unfold valid_rows; rewrite Hnot, Hr by done; done|].
  apply then_ok; [apply check_ok; by rewrite Hnot|].
  apply then_ok; [apply check_ok; by rewrite H1|].
  apply then_ok; [by apply check_ok|]. apply then_ok; [by apply check_ok|]. apply then_ok; [by apply check_ok|].
  apply then_ok; [unfold valid_session_id; rewrite Hid; by destruct (empty (e_SessionID e))|].
  apply then_ok; [apply check_ok; by rewrite Hp|].
  apply then_ok; [unfold valid_start_failure; rewrite Hnot, Hp by done; done|].
  apply then_ok; [apply check_ok; unfold known_state in *; by rewrite H5, H6|].
  do 5 (apply then_ok; [by apply check_ok|]). by apply check_ok.
Qed.

Lemma acceptable_ok id e : NewSessionID id = None -> acceptable e = true -> validateEvent (sup_event id e) = Ok tt.
Proof. intros Hid. unfold acceptable. intros H. repeat (apply andb_true_iff in H as [H ?]). by apply plain_ok. Qed.

Lemma start_failed_ok projectID reason :
  slugPattern projectID = true -> validStartFailureReason reason = true ->
  validateEvent (start_failed_event projectID reason) = Ok tt.
Proof.
  intros Hp Hr. assert (projectID <> ""%string) as Hne by (intros ->; done).
  unfold validateEvent. do 6 (apply then_ok; [done|]).
  apply then_ok; [apply check_ok; cbn -[validStartFailureReason validReasonForEvent]; by rewrite Hr, orb_true_r|].
  do 4 (apply then_ok; [done|]). apply then_ok; [apply check_ok; cbn -[slugPattern]; by rewrite Hp, orb_true_r|].
  apply then_ok; [|done]. apply check_ok. cbn -[validStartFailureReason]. rewrite Hr. unfold empty.
  by destruct (String.eqb_spec projectID "").
Qed.

(** ** The programs *)

(** A record that does not hold a stage or a state of the program has come from elsewhere. *)
Definition foreign (e : SupEvent) : Prop :=
  (exists raw, se_Step e = SupervisorRotateStepOther raw) \/ (exists raw, se_From e = SupervisorSessionStateOther raw).

Definition fine (e : called SupEff.Eff) : Prop :=
  match e with
  | Ev e _ =>
      match e with
      | RecordStructured e => acceptable e = true \/ foreign e
      | RecordProjectEvent kind _ reason => kind = EventKindSessionStartFailed /\ validStartFailureReason reason = true
      | RecordStartFailure _ reason => validStartFailureReason (SupervisorStartFailReason_string reason) = true
      | _ => True
      end
  end.

Abbreviation fines p := (emits record_ev fine p).

Create HintDb fine_db.

Ltac head_of t := lazymatch t with ?f _ => head_of f | _ => t end.
Ltac fine_step :=
  match goal with
  | |- forall _, _ => intros ?
  | |- fines (mret _) => exact I
  | |- fines (_ ≫= _) => apply emits_bind
  | |- fines (call _) => apply emits_call; intros ?; try exact I
  | |- fines (match ?scrutinee with _ => _ end) => destruct scrutinee eqn:?
  | |- fines ((match ?scrutinee with _ => _ end) _) => destruct scrutinee eqn:?; cbv beta
  | |- _ => solve [eauto with fine_db]
  | |- fines ?p => let h := head_of p in unfold h
  end.
Ltac fine_solve := cbn zeta; repeat fine_step.

Lemma fine_UpdateSession {A : Type} (update : ManagedSession -> SupEff.M (res (ManagedSession * A))) :
  (forall s, fines (update s)) -> fines (UpdateSession update).
Proof. intros Hu. unfold UpdateSession. fine_solve. Qed.
#[local] Hint Resolve fine_UpdateSession : fine_db.

Lemma fine_out_of_fuel {A : Type} : fines (out_of_fuel (A := A)).
Proof. intros []. Qed.
Lemma fine_panic {A : Type} : fines (panic (A := A)).
Proof. split; [done|]. intros []. Qed.
#[local] Hint Resolve fine_out_of_fuel fine_panic : fine_db.

(** *** The rotation *)

Section Rotation.
Context (id : string) (u : RotateSessionUseCase).

Lemma fine_record kind step reason code :
  plain_kind kind = true -> (reason = NoRotateFailReason \/ validReasonForEvent kind (SupervisorRotateFailReason_string reason) = true) ->
  (code = ""%string \/ validEventCode code = true) -> fines (Rotate.record u kind step reason code).
Proof.
  intros Hk Hr Hc. unfold Rotate.record. fine_solve. cbn [fine]. destruct step as [ | | | | | | | |raw]; [left..|right; left; by exists raw];
    unfold acceptable; cbn -[validReasonForEvent validEventCode]; rewrite Hk; destruct Hr as [->| ->], Hc as [->| ->]; by rewrite ?orb_true_r.
Qed.

#[local] Hint Extern 1 (fines (Rotate.record _ _ _ _ _)) =>
  (apply fine_record; [reflexivity|first [by left|by right]|first [by left|by right|case_bool_decide; by right]]) : fine_db.

Lemma fine_fail step reason :
  validReasonForEvent EventKindRotateFailed (SupervisorRotateFailReason_string reason) = true -> fines (fail id u step reason).
Proof. intros Hr. unfold fail. fine_solve. Qed.
#[local] Hint Extern 1 (fines (fail _ _ _ _)) => (apply fine_fail; repeat match goal with |- context [if ?b then _ else _] => destruct b end; reflexivity) : fine_db.

Lemma fine_childAbsent s : fines (childAbsent id u s).
Proof. unfold childAbsent. fine_solve. Qed.
Lemma fine_unsent s step sendID reason :
  validReasonForEvent EventKindRotateFailed (SupervisorRotateFailReason_string reason) = true -> fines (unsent id u s step sendID reason).
Proof. intros Hr. unfold unsent. fine_solve. Qed.
#[local] Hint Extern 1 (fines (unsent _ _ _ _ _ _)) => (apply fine_unsent; reflexivity) : fine_db.
#[local] Hint Resolve fine_childAbsent : fine_db.

Lemma fine_sendEnd fuel s : fines (sendEnd id u fuel s).
Proof. revert s. induction fuel as [|fuel IH]; intros s; cbn [sendEnd]; fine_solve. Qed.
#[local] Hint Resolve fine_sendEnd : fine_db.

Lemma fine_stage fuel s step : fines (stage id u fuel s step).
Proof. unfold stage. fine_solve. Qed.
#[local] Hint Resolve fine_stage : fine_db.

Lemma fine_step_loop fuel : fines (step_loop id u fuel).
Proof. induction fuel as [|fuel IH]; cbn [step_loop]; fine_solve. Qed.
#[local] Hint Resolve fine_step_loop : fine_db.

Lemma fine_run_loop fuel : fines (run_loop id u fuel).
Proof. induction fuel as [|fuel IH]; cbn [run_loop]; fine_solve. Qed.
#[local] Hint Resolve fine_run_loop : fine_db.

Lemma fine_rotation fuel resumeFrom : fines (Rotate.Execute id u fuel resumeFrom).
Proof. unfold Rotate.Execute. fine_solve. Qed.
Lemma fine_Run fuel : fines (Run id u fuel).
Proof. unfold Run. fine_solve. Qed.
End Rotation.

(** *** The checks before a start, the start, the respawn and the recovery *)

Lemma start_fail_string reason : StartFail_Valid reason = true -> validStartFailureReason (SupervisorStartFailReason_string reason) = true.
Proof. by destruct reason. Qed.

Section Checks.
Context (config : StartSessionConfig) (ManagedSettingsPath : string) (failure : SupervisorStartFailReason -> SupEff.M unit).
Hypothesis failure_fine : forall reason, StartFail_Valid reason = true -> fines (failure reason).

Lemma fine_refuse {A : Type} reason err : StartFail_Valid reason = true -> fines (refuse failure (A := A) reason err).
Proof. intros Hr. apply emits_bind; [by apply failure_fine|done]. Qed.
#[local] Hint Extern 1 (fines (refuse _ _ _)) => (apply fine_refuse; first [reflexivity|assumption]) : fine_db.

Lemma fine_readJSONFile path requireFile kind : fines (readJSONFile path requireFile kind).
Proof. unfold readJSONFile. fine_solve. Qed.
#[local] Hint Resolve fine_readJSONFile : fine_db.

Lemma fine_inspect_all checks : fines (inspect_all checks).
Proof. induction checks as [|[kind path] checks IH]; cbn [inspect_all]; fine_solve. Qed.
#[local] Hint Resolve fine_inspect_all : fine_db.

Lemma fine_check validateModel project : fines (Preflight.check config ManagedSettingsPath failure validateModel project).
Proof. unfold Preflight.check, check_environment. fine_solve. Qed.
Lemma fine_settings id : fines (settings config failure id).
Proof. unfold settings. fine_solve. Qed.
End Checks.

Lemma fine_startFailure u projectID reason : StartFail_Valid reason = true -> fines (startFailure u projectID reason).
Proof. intros Hr. unfold startFailure. fine_solve. by apply start_fail_string. Qed.

Lemma fine_fail_start u projectID reason : StartFail_Valid reason = true -> fines (fail_start u projectID reason).
Proof. intros Hr. unfold fail_start, Respawn.notify, ignoring. fine_solve; [|split; [done|]]; by apply start_fail_string. Qed.

#[local] Hint Extern 1 (fines (startFailure _ _ _)) => (apply fine_startFailure; first [reflexivity|assumption]) : fine_db.
#[local] Hint Extern 1 (fines (fail_start _ _ _)) => (apply fine_fail_start; first [reflexivity|assumption]) : fine_db.
#[local] Hint Extern 1 (fines (Preflight.check _ _ _ _ _)) => (apply fine_check; intros; eauto with fine_db) : fine_db.
#[local] Hint Extern 1 (fines (settings _ _ _)) => (apply fine_settings; intros; eauto with fine_db) : fine_db.

Lemma fine_eventNotify u id kind : plain_kind kind = true -> fines (eventNotify u id kind).
Proof.
  intros Hk. unfold eventNotify, ignoring. fine_solve. left. unfold acceptable. cbn. rewrite Hk. by case_bool_decide.
Qed.
#[local] Hint Extern 1 (fines (eventNotify _ _ _)) => (apply fine_eventNotify; reflexivity) : fine_db.

Lemma fine_Start u projectID id : fines (Start_Execute u projectID id).
Proof. unfold Start_Execute. fine_solve. Qed.

Section Respawning.
Context (u : RespawnSessionUseCase) (id : string).

Lemma fine_respawn_stopped from reason :
  validReasonForEvent EventKindSessionStopped (SupervisorStopReason_string reason) = true -> fines (respawn_stopped u id from reason).
Proof.
  intros Hr. unfold respawn_stopped, report, Respawn.notify, ignoring. fine_solve.
  - destruct from as [| | | | | | | | | | |raw]; try (left; reflexivity). right. right. by exists raw.
  - left. unfold acceptable. cbn -[validReasonForEvent]. by rewrite Hr, orb_true_r.
Qed.
#[local] Hint Extern 1 (fines (respawn_stopped _ _ _ _)) => (apply fine_respawn_stopped; first [reflexivity|assumption]) : fine_db.

Lemma fine_stopping settled change reason :
  validReasonForEvent EventKindSessionStopped (SupervisorStopReason_string reason) = true -> fines (stopping u id settled change reason).
Proof. intros Hr. unfold stopping. fine_solve. Qed.
#[local] Hint Extern 1 (fines (stopping _ _ _ _ _)) => (apply fine_stopping; reflexivity) : fine_db.
#[local] Hint Extern 1 (fines (report _ _)) => (unfold report, ignoring; fine_solve; left; reflexivity) : fine_db.

Lemma fine_stopForStop : fines (stopForStop u id).
Proof. unfold stopForStop. apply emits_bind; [fine_solve|]. intros [|]; apply fine_stopping; reflexivity. Qed.
Lemma fine_stopWithReason reason :
  validReasonForEvent EventKindSessionStopped (SupervisorStopReason_string reason) = true -> fines (stopWithReason u id reason).
Proof. apply fine_stopping. Qed.
#[local] Hint Resolve fine_stopForStop : fine_db.
#[local] Hint Extern 1 (fines (stopWithReason _ _ _)) => (apply fine_stopWithReason; reflexivity) : fine_db.

Lemma fine_fail_unless session reason : StartFail_Valid reason = true -> fines (fail_unless_rotating u session reason).
Proof. intros Hr. unfold fail_unless_rotating. fine_solve. Qed.
#[local] Hint Extern 1 (fines (fail_unless_rotating _ _ _)) => (apply fine_fail_unless; first [reflexivity|assumption]) : fine_db.

Lemma fine_Respawn kind : fines (Respawn_Execute u id kind).
Proof. unfold Respawn_Execute. fine_solve. Qed.
End Respawning.

Section Recovery.
Context (u : RecoverSessionUseCase) (id : string).

(** The reasons that a recovery ends with. *)
Definition recovery_reason (reason : SupervisorStopReason) : Prop :=
  reason ∈ [StopGlobal; StopSession; StopSupervisorRestarted; StopClaudeSessionIDMissing; StopRestartLimitConsecutive; StopRestartLimitDaily].

Lemma fine_stoppedEvent reason : recovery_reason reason -> fines (stoppedEvent u id reason).
Proof.
  unfold recovery_reason. rewrite !list.elem_of_cons. intros Hr. unfold stoppedEvent, ignoring.
  destruct Hr as [->|[->|[->|[->|[->|[->|Hr]]]]]]; [..|by apply not_elem_of_nil in Hr]; fine_solve; left; reflexivity.
Qed.
#[local] Hint Extern 1 (fines (stoppedEvent _ _ _)) => (apply fine_stoppedEvent; first [assumption|unfold recovery_reason; set_solver]) : fine_db.

Lemma fine_recover_stop reason now : recovery_reason reason -> fines (recover_stop u id reason now).
Proof. intros Hr. unfold recover_stop. fine_solve. Qed.
#[local] Hint Extern 1 (fines (recover_stop _ _ _ _)) => (apply fine_recover_stop; first [assumption|unfold recovery_reason; set_solver]) : fine_db.

Lemma restart_limit_reason s now :
  bool_decide (RestartLimitReason (s_RestartCount s) (s_RestartTimes s) now = NoStopReason) = false ->
  recovery_reason (RestartLimitReason (s_RestartCount s) (s_RestartTimes s) now).
Proof. unfold RestartLimitReason, RestartLimitCounts, recovery_reason. intros H. repeat case_match; try done; set_solver. Qed.

(** What the last update of a recovery hands out. *)
Definition decided (r : recovered) : Prop := match r with stoppedBecause reason => recovery_reason reason | _ => True end.

Lemma wp_UpdateSession {A : Type} (R : A -> Prop) (update : ManagedSession -> SupEff.M (res (ManagedSession * A))) h :
  (forall s h, wps (update s) h (fun _ r => match r with Ok (_, a) => R a | Err _ => True end)) ->
  wps (UpdateSession update) h (fun _ r => match r with Ok a => R a | Err _ => True end).
Proof.
  intros Hu. unfold UpdateSession. intros []. apply wp_bind. intros [s|err]; [|by intros []]. intros [before|err]; [|by intros []].
  apply wp_bind. eapply wp_mono; [apply Hu|]. intros h' [[s' a]|err] Ha; [|by intros []]. intros [after|err]; [|by intros []]. cbn.
  destruct (bool_decide (before = after)); [by intros []|]. by intros [err|] [].
Qed.

Lemma stop_recovering_decided reason s h :
  recovery_reason reason -> wps (stop_recovering reason s) h (fun _ r => match r with Ok (_, a) => decided a | Err _ => True end).
Proof. intros Hr now. cbn. by destruct (apply_stop reason now s). Qed.

Lemma stop_reason_now_decided h : wps (stop_reason_now u) h (fun _ reason => recovery_reason reason).
Proof.
  unfold stop_reason_now. apply wp_bind. eapply wp_mono; [apply wp_true|]. intros h2 [|] _; unfold recovery_reason; cbn; set_solver.
Qed.

Lemma finish_recovery_decided s h :
  wps (finish_recovery u s) h (fun _ r => match r with Ok (_, a) => decided a | Err _ => True end).
Proof.
  unfold finish_recovery. destruct (negb _); [done|]. apply wp_bind. eapply wp_mono; [apply wp_true|]. intros h1 [|] _.
  { apply wp_bind. eapply wp_mono; [apply stop_reason_now_decided|]. intros h2 reason Hr. by apply stop_recovering_decided. }
  destruct (_ =? _)%string; [apply stop_recovering_decided; unfold recovery_reason; set_solver|]. intros now. cbn [prog_bind prog_mbind mbind].
  match goal with |- context [bool_decide ?P] => destruct (bool_decide P) eqn:E end; cbn [negb]; [|by apply stop_recovering_decided, restart_limit_reason].
  intros now'. cbn. by destruct (apply _ _ _ s).
Qed.

Lemma fine_after_wait : fines (after_wait u id).
Proof.
  unfold after_wait. apply emits_bind; [fine_solve|]. intros [err|]; [fine_solve|].
  apply (emits_bind_wp record_ev fine (fun r => match r with Ok a => decided a | Err _ => True end) _ _ []); [fine_solve|apply (wp_UpdateSession decided); intros; apply finish_recovery_decided|].
  intros [[|reason|]|err] Hr; [..|fine_solve]; unfold ignoring; fine_solve. by left.
Qed.

Lemma fine_wait_ticks fuel : fines (wait_ticks u fuel).
Proof. induction fuel as [|fuel IH]; cbn [wait_ticks]; fine_solve. Qed.

Lemma fine_wait_cut_short err : fines (wait_cut_short u id err).
Proof.
  unfold wait_cut_short. destruct (errors_Is _ _); [|fine_solve].
  apply (emits_bind_wp record_ev fine recovery_reason _ _ []); [fine_solve|apply stop_reason_now_decided|]. intros reason Hr. fine_solve.
Qed.
#[local] Hint Resolve fine_after_wait fine_wait_ticks fine_wait_cut_short : fine_db.

#[local] Hint Extern 2 (fines (recover_stop _ _ (RestartLimitReason _ _ _) _)) =>
  (apply fine_recover_stop, restart_limit_reason; apply negb_true_iff; assumption) : fine_db.
Lemma fine_Recover fuel : fines (Recover_Execute u id fuel).
Proof.
  unfold Recover_Execute. fine_solve.
Qed.
End Recovery.

(** *** The automatic continuation *)

Definition ac_fine (e : called AcEff) : Prop :=
  match e with Ev (Sup _ e) x => fine (Ev e x) | _ => True end.

Lemma ac_fine_sup {A : Type} id (p : SupEff.M A) : fines p -> emits record_ev ac_fine (sup id p).
Proof. induction p as [a|X e k IH]; [done|]. intros Hp x. destruct (Hp x) as [Hx Hk]. split; [exact Hx|by apply IH]. Qed.

Section Continuation.
Context `{UnicodeTables} (Sum256 : list Z -> string) (u : AutoContinueUseCase).

Lemma judge_reported x rows st reason stop code :
  judge Sum256 x rows st = Block reason stop code ->
  validReasonForEvent EventKindRecommendationBlocked reason = true /\ validEventCode code = true.
Proof.
  unfold judge, undetermined. intros Hj. repeat case_match; simplify_eq; try (by split).
  match goal with |- context [Category_string ?c] => by destruct c end.
Qed.

Lemma fine_block id since reason stop code :
  validReasonForEvent EventKindRecommendationBlocked reason = true -> validEventCode code = true -> fines (block u id since reason stop code).
Proof.
  intros Hr Hc. unfold block, block_update. fine_solve. left. unfold acceptable.
  cbn -[validReasonForEvent validEventCode]. by rewrite Hr, Hc, !orb_true_r.
Qed.

Lemma fine_evaluate i : emits record_ev ac_fine (evaluate Sum256 u i).
Proof.
  unfold evaluate. destruct (negb _); [done|]. apply emits_bind; [by apply ac_fine_sup, emits_call|]. intros [s|err]; [|done].
  destruct (negb _); [done|]. destruct (_ && _); [done|]. apply emits_bind; [by apply emits_call|]. intros st.
  apply emits_bind; [destruct (ac_IsStopped u); [by apply ac_fine_sup, emits_call|done]|]. intros stopped. destruct (_ || _); [done|].
  destruct (judge _ _ _ _) as [|reason stop code|hash] eqn:Ej; [done| |].
  - apply judge_reported in Ej as [Hr Hc]. by apply ac_fine_sup, fine_block.
  - unfold continue. destruct (negb _); [done|]. apply emits_bind; [by apply emits_call|]. intros now. destruct (negb _); [done|].
    apply emits_bind; [by apply emits_call|]. intros [result [err|]]; [done|]. destruct (SendInput.Confirmed result); [|done].
    apply emits_bind; [by apply emits_call|done].
Qed.
End Continuation.

(** ** What the log answers *)

(** The event that a session [id] reports is written, if the log can be written at all. *)
Definition accepted (id : string) (e : called SupEff.Eff) : Prop :=
  match e with
  | Ev (RecordStructured e) _ => validateEvent (sup_event id e) = Ok tt \/ foreign e
  | Ev (RecordProjectEvent _ projectID reason) _ => slugPattern projectID = true -> validateEvent (start_failed_event projectID reason) = Ok tt
  | Ev (RecordStartFailure projectID reason) _ =>
      slugPattern projectID = true -> validateEvent (start_failed_event projectID (SupervisorStartFailReason_string reason)) = Ok tt
  | _ => True
  end.

Definition ac_accepted (e : called AcEff) : Prop :=
  match e with Ev (Sup id e) x => NewSessionID id = None -> accepted id (Ev e x) | _ => True end.

Lemma fine_accepted id e : NewSessionID id = None -> fine e -> accepted id e.
Proof.
  intros Hid. destruct e as [X e x]. destruct e; try done; cbn.
  - intros [He|He]; [left; by apply acceptable_ok|by right].
  - intros ??. by apply start_failed_ok.
  - intros [? ?] ?. by apply start_failed_ok.
Qed.

Lemma fines_accepted id {A : Type} (p : SupEff.M A) : NewSessionID id = None -> fines p -> emits record_ev (accepted id) p.
Proof. intros Hid. apply emits_mono. intros e. by apply fine_accepted. Qed.

(** C6. Whatever the files, the terminals, the other goroutines and the daemon answer: every
    event that a start, a respawn, a recovery, a rotation or an automatic continuation of a
    session with a valid identifier hands to the event log passes [validateEvent], so it is
    never lost because a code, a reason, a stage or a state is one that the log does not
    know. Only a record that came from the file with a stage or a state that the program
    does not have is excepted. *)
Theorem reported_events_are_accepted (id : string) (H : NewSessionID id = None) :
  (forall u projectID, emits record_ev (accepted id) (Start_Execute u projectID id))
  /\ (forall u kind, emits record_ev (accepted id) (Respawn_Execute u id kind))
  /\ (forall u fuel, emits record_ev (accepted id) (Recover_Execute u id fuel))
  /\ (forall u fuel resumeFrom, emits record_ev (accepted id) (Rotate.Execute id u fuel resumeFrom))
  /\ (forall u fuel, emits record_ev (accepted id) (Rotate.Run id u fuel))
  /\ (forall (tables : UnicodeTables) Sum256 u i, emits record_ev ac_accepted (evaluate Sum256 u i)).
Proof.
  split_and!; intros; try (apply fines_accepted; [done|]).
  - apply fine_Start.
  - apply fine_Respawn.
  - apply fine_Recover.
  - apply fine_rotation.
  - apply fine_Run.
  - eapply emits_mono; [|apply fine_evaluate]. intros [X e x] He. destruct e; try done. intros Hid. by apply fine_accepted.
Qed.

Lemma reported_events_are_accepted_witness :
  NewSessionID "repo-1" = None
  /\ forall u fuel, emits record_ev (accepted "repo-1") (Rotate.Run "repo-1" u fuel).
Proof. split; [reflexivity|]. apply (reported_events_are_accepted "repo-1"). reflexivity. Defined.
