(* ===== verification/EventsGit.v ===== *)
(** * Every event of the commit and of the push is one that the log accepts

    With two exceptions that the code leaves open: a commit whose identifier git has not
    written in hexadecimal, and a remote whose name the push policy accepts and the log
    does not. *)

From S2P Require Import Prelude.
From S2P Require Import GoStrings.
From S2P Require Import UTF8.
From S2P Require Import Errors.
From S2P Require Import Session.
From S2P Require Import PushPolicy.
From S2P Require Import GoText.
From S2P Require Import GitStatus.
From S2P Require Import Effects.
From S2P Require Import GitEff.
From S2P Require Import Commit.
From S2P Require Import Push.
From S2P Require Import PushOk.
From S2P Require Import StartSession.
From S2P Require Import EventStore.
From S2P Require Import EventsOk.

Definition git_event (e : GitEvent) : Event :=
  event_of (ge_Kind e) <| e_SessionID := ge_SessionID e |> <| e_Code := ge_Code e |> <| e_Reason := ge_Reason e |>
    <| e_Count := ge_Count e |> <| e_CommitSHA := ge_CommitSHA e |> <| e_Pattern := ge_Pattern e |>
    <| e_Remote := ge_Remote e |> <| e_Branch := ge_Branch e |>.

(** What the log refuses although the use cases go on with it. *)
Definition odd (e : GitEvent) : Prop :=
  (ge_Kind e = EventKindCommitCreated /\ str_forall is_lower_hex (ge_CommitSHA e) = false)
  \/ (validRemote (ge_Remote e) = true /\ validGitRef (ge_Remote e) = false).

Definition git_fine (e : called GitEff.Eff) : Prop :=
  match e with
  | Ev (Record_ e) _ => NewSessionID (ge_SessionID e) = None -> validateEvent (git_event e) = Ok tt \/ odd e
  | _ => True
  end.

Abbreviation gits p := (emits record_ev git_fine p).

(** ** Names *)

Lemma split_on_head_sep (c : ascii) l : HasPrefix (of_chars l) (of_chars [c]) = true -> [] ∈ split_on (Ascii.eqb c) l.
Proof.
  unfold HasPrefix. rewrite !chars_of_chars. destruct l as [|x l]; [done|]. cbn. intros H. apply andb_true_iff in H as [-> _]. by left.
Qed.

Lemma split_on_end {A : Type} (p : A -> bool) l x : p x = true -> exists parts, split_on p (l ++ [x]) = parts ++ [[]].
Proof.
  intros Hx. induction l as [|y l [parts IH]]; cbn; [rewrite Hx; by exists [[]]|]. rewrite IH. destruct (p y); [by exists ([] :: parts)|].
  destruct parts as [|part parts]; [|by exists ((y :: part) :: parts)]. exfalso.
  assert (forall k, split_on p (k ++ [x]) <> [[]]) as Hne .
  { intros [|z k]; cbn; [by rewrite Hx|]. destruct (p z); [intros [= E]; by eapply split_on_nonempty|]. by case_match. }
  by eapply Hne.
Qed.

Lemma split_on_last_sep (c : ascii) l : HasSuffix (of_chars l) (of_chars [c]) = true -> [] ∈ split_on (Ascii.eqb c) l.
Proof.
  unfold HasSuffix. rewrite !chars_of_chars. cbn. destruct (rev l) as [|x k] eqn:E; [done|]. cbn. intros H.
  apply andb_true_iff in H as [Hx _]. apply Ascii.eqb_eq in Hx as ->.
  assert (l = rev k ++ [x]) as -> by (rewrite <- (rev_involutive l), E; done).
  destruct (split_on_end (Ascii.eqb x) (rev k) x) as [parts ->]; [apply Ascii.eqb_refl|]. apply elem_of_app. right. by left.
Qed.

Lemma components_no_edges (s : string) :
  forallb ref_component (Split s "/") = true -> HasPrefix s "/" = false /\ HasSuffix s "/" = false.
Proof.
  intros H. assert ([] ∉ split_on (Ascii.eqb "/"%char) (chars s)) as Hn.
  { intros Hin. rewrite forallb_true in H. assert (ref_component "" = true) as Hc; [|done].
    apply H. unfold Split. apply list_elem_of_fmap. by exists []. }
  split; apply not_true_is_false; intros E; apply Hn; [apply split_on_head_sep|apply split_on_last_sep]; by rewrite of_chars_chars.
Qed.

Lemma ref_part_component c : ref_part c = true -> ref_component c = true.
Proof.
  unfold ref_part, ref_component, empty. intros H. apply negb_true_iff in H. apply negb_true_iff.
  apply orb_false_iff in H as [[H1 H2]%orb_false_iff H3]. rewrite H1, H2, H3, !orb_false_r. cbn [orb].
  apply orb_false_iff. split; apply String.eqb_neq; by intros ->.
Qed.

Lemma ContainsAny_app s a b : ContainsAny s (a +:+ b) = ContainsAny s a || ContainsAny s b.
Proof.
  unfold ContainsAny. rewrite chars_append. induction (chars s) as [|c l IH]; [done|]. cbn. rewrite IH, existsb_app.
  rewrite <- !orb_assoc. f_equal. rewrite !orb_assoc. f_equal. apply orb_comm.
Qed.

(** The names of branches that the policy accepts are the ones that the log accepts. *)
Lemma validRefName_ref s : validRefName s = true -> validGitRef s = true.
Proof.
  unfold validRefName, validGitRef, empty. destruct (_ || (s =? "@")%string) eqn:E; [done|]. intros H. apply andb_true_iff in H as [H1 H2].
  apply orb_false_iff in E as [E E10]. apply orb_false_iff in E as [E E9]. rewrite ContainsAny_app in E.
  apply orb_false_iff in E as [E [E8 _]%orb_false_iff]. apply orb_false_iff in E as [E E7]. apply orb_false_iff in E as [E E6].
  apply orb_false_iff in E as [E E5]. apply orb_false_iff in E as [E E4]. apply orb_false_iff in E as [E E3]. apply orb_false_iff in E as [E1 E2].
  rewrite E1, E2, E3, E4, E5, E6, E8, E9, E10. cbn [orb].
  assert (forallb ref_component (Split s "/") = true) as Hc.
  { apply forallb_true. intros c Hc. rewrite forallb_true in H1. by apply ref_part_component, H1. }
  destruct (components_no_edges s Hc) as [-> ->]. rewrite E7. cbn [orb]. by rewrite Hc, H2.
Qed.

(** ** The commit *)

Create HintDb git_db.
Ltac git_step :=
  match goal with
  | |- forall _, _ => intros ?
  | |- gits (mret _) => exact I
  | |- gits (_ ≫= _) => apply emits_bind
  | |- gits (call _) => apply emits_call; intros ?; try exact I
  | |- gits (match ?scrutinee with _ => _ end) => destruct scrutinee eqn:?
  | |- _ => solve [eauto with git_db]
  | |- gits ?p => let h := head_of p in unfold h
  end.
Ltac git_solve := cbn zeta; repeat git_step.

Lemma git_plain_ok kind id code reason count sha pattern remote branch :
  plain_kind kind = true -> NewSessionID id = None ->
  empty reason || validReasonForEvent kind reason = true -> empty code || validEventCode code = true ->
  empty pattern || bool_decide (kind = EventKindSensitivePathBlocked) && ValidSensitivePattern pattern = true ->
  empty sha || commitSHAPattern sha = true -> empty branch || validGitRef branch = true -> empty remote || validGitRef remote = true ->
  validateEvent (git_event (mkGitEvent kind id code reason count sha pattern remote branch)) = Ok tt.
Proof. intros. by apply plain_ok. Qed.

Section Committing.
Context (ToLower SHA256 SHA1 : string -> string) (Error : error -> string) (u : CommitVerifiedChangesUseCase).

Lemma git_commit_event s kind code reason count sha notify pattern :
  plain_kind kind = true -> empty reason || validReasonForEvent kind reason = true -> empty code || validEventCode code = true ->
  empty pattern || bool_decide (kind = EventKindSensitivePathBlocked) && ValidSensitivePattern pattern = true ->
  sha = ""%string \/ (kind = EventKindCommitCreated /\ String.length sha = 40%nat) ->
  gits (Commit.event u s kind code reason count sha notify pattern).
Proof.
  intros Hk Hr Hc Hp Hs. unfold Commit.event. git_solve. cbn [git_fine]. intros Hid. cbn in Hid.
  destruct Hs as [->|[-> Hlen]]; [left; by apply git_plain_ok|].
  destruct (str_forall is_lower_hex sha) eqn:E; [left; apply git_plain_ok; try done|right; left; by split].
  unfold commitSHAPattern. by rewrite Hlen, E, orb_true_r.
Qed.

#[local] Hint Extern 1 (gits (Commit.event _ _ _ _ _ _ _ _ _)) =>
  (apply git_commit_event; first [assumption|reflexivity|left; reflexivity]) : git_db.

Lemma git_fail s fingerprint kind code reason count pattern :
  plain_kind kind = true ->
  empty (SupervisorFailureReason_string reason) || validReasonForEvent kind (SupervisorFailureReason_string reason) = true ->
  empty code || validEventCode code = true ->
  empty pattern || bool_decide (kind = EventKindSensitivePathBlocked) && ValidSensitivePattern pattern = true ->
  gits (Commit.fail u s fingerprint kind code reason count pattern).
Proof. intros Hk Hr Hc Hp. unfold Commit.fail. git_solve. Qed.

Lemma git_commit_failed s fingerprint reason :
  validReasonForEvent EventKindCommitFailed (SupervisorFailureReason_string reason) = true -> gits (commit_failed u s fingerprint reason).
Proof. intros Hr. apply git_fail; [done|by rewrite Hr, orb_true_r|done|done]. Qed.

Lemma git_gitFail s fp err : gits (gitFail Error u s fp err).
Proof. unfold gitFail, git_reason. repeat case_match; by apply git_commit_failed. Qed.

#[local] Hint Extern 1 (gits (commit_failed _ _ _ _)) => (apply git_commit_failed; reflexivity) : git_db.
#[local] Hint Resolve git_gitFail : git_db.
#[local] Hint Extern 1 (gits (Commit.fail _ _ _ _ _ _ _ _)) => (apply git_fail; reflexivity) : git_db.

Lemma git_commit_created s owned sha :
  negb (String.length (StringTrimSpace sha) =? 40)%nat = false ->
  gits (Commit.event u s EventKindCommitCreated "" "" owned (StringTrimSpace sha) false "").
Proof. intros Hl. apply git_commit_event; [done..|]. right. split; [done|]. by apply negb_false_iff, Nat.eqb_eq in Hl. Qed.
#[local] Hint Extern 2 (gits (Commit.event _ _ EventKindCommitCreated _ _ _ _ _ _)) => (apply git_commit_created; assumption) : git_db.

Lemma git_committed s fp owned : gits (committed Error u s fp owned).
Proof. unfold committed. git_solve. Qed.
#[local] Hint Resolve git_committed : git_db.

(** Reading files, and the parts that only read. *)
Lemma git_files {A : Type} (p : GitEff.M A) : emits record_ev reads_files p -> gits p.
Proof. apply emits_mono. by intros [X [] x]. Qed.
#[local] Hint Extern 3 (gits _) => (apply git_files; solve [eauto with files_db]) : git_db.

Lemma git_escape_check scope paths : gits (escape_check scope paths).
Proof. induction paths as [|p paths IH]; cbn [escape_check]; git_solve. Qed.
#[local] Hint Resolve git_escape_check : git_db.
Lemma git_read_paths root e paths r : gits (read_paths SHA1 root e paths r).
Proof. induction paths as [|p paths IH] in r |- *; cbn [read_paths]; git_solve. Qed.
#[local] Hint Resolve git_read_paths : git_db.
Lemma git_read_entries root scope entries r : gits (read_entries SHA1 root scope entries r).
Proof. induction entries as [|e entries IH] in r |- *; cbn [read_entries]; git_solve. Qed.
#[local] Hint Resolve git_read_entries : git_db.
Lemma git_all_contained scope paths : gits (all_contained scope paths).
Proof. induction paths as [|p paths IH]; cbn [all_contained]; git_solve. Qed.
#[local] Hint Resolve git_all_contained : git_db.
Lemma git_snapshot root scope : gits (Commit.snapshot SHA256 SHA1 root scope).
Proof. unfold Commit.snapshot. git_solve. Qed.
Lemma git_config : gits (configFingerprint ToLower SHA256 Error).
Proof. unfold configFingerprint. git_solve. Qed.
#[local] Hint Resolve git_snapshot git_config : git_db.

(** *** The reasons and patterns that are computed *)

Lemma sensitive_valid paths : empty (sensitive ToLower paths) || ValidSensitivePattern (sensitive ToLower paths) = true.
Proof.
  induction paths as [|p paths IH]; [done|]. cbn [sensitive]. destruct (_ =? "")%string; [done|]. unfold MatchPattern.
  destruct (List.find _ _) as [pattern|] eqn:E; [|done]. apply List.find_some in E as [Hin _]. apply orb_true_iff. right.
  apply existsb_true. exists pattern. split; [by apply list_elem_of_In|apply String.eqb_refl].
Qed.

Lemma git_sensitive s fp paths :
  gits (Commit.fail u s fp EventKindSensitivePathBlocked sensitivePathBlockedCode NoFailureReason 0 (sensitive ToLower paths)).
Proof. apply git_fail; [done..|]. exact (sensitive_valid paths). Qed.

Lemma git_verify_failed s fp err : gits (Commit.fail u s fp EventKindVerifyFailed verifyFailedCode (verify_reason Error err) 0 "").
Proof. apply git_fail; [done| |done..]. unfold verify_reason. by repeat case_match. Qed.
#[local] Hint Resolve git_sensitive git_verify_failed : git_db.

Lemma git_Commit : gits (Commit.Execute ToLower SHA256 SHA1 Error u).
Proof. unfold Commit.Execute. git_solve. Qed.
End Committing.

(** ** The push *)

Section Pushing.
Context (ToLower SHA256 : string -> string) (Error : error -> string) (u : PushToAllowedRemoteUseCase).

Definition reason_ok (d : PushDecision) : Prop := empty (d_Reason d) || validReasonForEvent EventKindPushBlocked (d_Reason d) = true.
Definition named (d : PushDecision) : Prop := validRefName (d_Branch d) = true /\ validRemote (d_Remote d) = true.

(** *** The decisions *)

Lemma reason_before_urls p : reason_ok (EvaluateBeforeURLs p).
Proof. unfold EvaluateBeforeURLs, localGitFailureReason, reason_ok. by repeat case_match. Qed.

Lemma reason_local p : reason_ok (EvaluateLocal p).
Proof.
  unfold EvaluateLocal. destruct (_ || _); [apply reason_before_urls|]. destruct (ResolveAllowlistEntry _ _ _ _) as [match_ ok].
  destruct (_ || _); [done|]. pose proof (reason_before_urls p) as Hb. unfold reason_ok in *. by repeat case_match.
Qed.

Lemma reason_remote p d : reason_ok d -> reason_ok (EvaluateRemote p d).
Proof. unfold EvaluateRemote, localGitFailureReason, reason_ok. intros Hd. by repeat case_match. Qed.

Lemma reason_commits p d : reason_ok d -> reason_ok (EvaluateCommits p d).
Proof. unfold EvaluateCommits, localGitFailureReason, reason_ok. cbn zeta. intros Hd. by repeat case_match. Qed.

Lemma named_before_urls p :
  Allowlist p <> [] -> d_Reason (EvaluateBeforeURLs p) = ""%string -> named (EvaluateBeforeURLs p).
Proof.
  intros Ha. unfold EvaluateBeforeURLs. destruct (Allowlist p); [done|]. destruct (LocalGitError p) as [err|].
  { intros E. by destruct (local_reason_nonempty err). }
  destruct (_ || _); [done|]. cbn zeta. destruct (negb (validRefName _) || _ || _) eqn:Eb; [done|].
  destruct (existsb _ _); [done|]. destruct (branch_remote _ _ _); [|done]. destruct (_ =? "")%string; [done|].
  destruct (validRemote _) eqn:Er; [|done]. intros _. split; [|done]. cbn.
  apply orb_false_iff in Eb as [[Eb _]%orb_false_iff _]. by apply negb_false_iff in Eb.
Qed.

Lemma named_local p : Allowlist p <> [] -> d_Reason (EvaluateLocal p) = ""%string -> named (EvaluateLocal p).
Proof.
  intros Ha. unfold EvaluateLocal. destruct (_ || negb _) eqn:E.
  - intros Hr. by apply named_before_urls.
  - apply orb_false_iff in E as [_ E%negb_false_iff%String.eqb_eq]. pose proof (named_before_urls p Ha E) as Hn.
    intros Hr. unfold named in *. repeat case_match; try done.
Qed.

Lemma named_remote p d : named d -> named (EvaluateRemote p d).
Proof. unfold EvaluateRemote, named. intros Hd. by repeat case_match. Qed.
Lemma named_commits p d : named d -> named (EvaluateCommits p d).
Proof. unfold EvaluateCommits, named. cbn zeta. intros Hd. by repeat case_match. Qed.

(** A decision that allows the push names its head. *)
Lemma allowed_head p d :
  d_Allowed d = false -> d_Allowed (EvaluateCommits p d) = true -> shaPattern (HeadSHA p) = true.
Proof. unfold EvaluateCommits. cbn zeta. intros Hd. destruct (shaPattern (HeadSHA p)); [done|]. repeat case_match; by cbn; rewrite ?Hd. Qed.

(** *** The events *)

Lemma git_push_event s d kind code reason count :
  plain_kind kind = true -> kind <> EventKindPushSucceeded -> kind <> EventKindPushFailed ->
  empty reason || validReasonForEvent kind reason = true -> empty code || validEventCode code = true ->
  gits (Push.event u s d kind code reason "" count).
Proof.
  intros Hk H1 H2 Hr Hc. unfold Push.event. rewrite (bool_decide_eq_false_2 _ H1), (bool_decide_eq_false_2 _ H2).
  git_solve. cbn [git_fine orb]. intros Hid. left. by apply git_plain_ok.
Qed.

Lemma git_push_outcome s d kind code sha :
  named d -> shaPattern sha = true -> kind = EventKindPushSucceeded \/ kind = EventKindPushFailed -> empty code || validEventCode code = true ->
  gits (Push.event u s d kind code "" sha 0).
Proof.
  intros [Hb Hr] Hs Hk Hc. unfold Push.event.
  assert (bool_decide (kind = EventKindPushSucceeded) || bool_decide (kind = EventKindPushFailed) = true) as -> by (by destruct Hk as [->| ->]).
  git_solve. cbn [git_fine]. intros Hid. cbn in Hid. destruct (validGitRef (d_Remote d)) eqn:E; [left|right; right; by split].
  apply git_plain_ok; try done; [by destruct Hk as [->| ->]|unfold commitSHAPattern; unfold shaPattern in Hs; by rewrite Hs, orb_true_r| |by rewrite E, orb_true_r].
  by rewrite (validRefName_ref _ Hb), orb_true_r.
Qed.

#[local] Hint Extern 1 (gits (Push.event _ _ _ _ _ _ _ _)) =>
  (apply git_push_event; first [assumption|reflexivity|discriminate]) : git_db.
#[local] Hint Extern 2 (gits (Push.event _ _ _ _ _ _ _ _)) =>
  (apply git_push_outcome; first [assumption|reflexivity|left; reflexivity|right; reflexivity]) : git_db.

(** *** The programs *)

Lemma git_blocked s d count : reason_ok d -> gits (blocked u s d count).
Proof. intros Hd. unfold blocked. git_solve. Qed.
#[local] Hint Extern 1 (gits (blocked _ _ _ _)) =>
  (apply git_blocked; first [assumption|apply reason_local|apply reason_before_urls|reflexivity]) : git_db.

Lemma recheck_result checked d h :
  reason_ok d -> wp record_ev (recheckConfig ToLower SHA256 Error u checked d) h (fun _ r => match r with Ok d' => reason_ok d' | Err _ => True end).
Proof.
  intros Hd. unfold recheckConfig. destruct checked as [[commonDir gitDir] fingerprint]. apply wp_bind.
  eapply wp_mono; [apply wp_true|]. intros h1 found _. intros [err|]; [done|]. apply wp_bind.
  eapply wp_mono; [apply wp_true|]. intros h2 [|] _; [done|]. cbn. by repeat case_match.
Qed.
#[local] Hint Extern 3 (gits _) => (apply git_files; solve [eauto with files_db]) : git_db.

Lemma git_recheck_then s checked d k : reason_ok d -> gits k -> gits (recheck_then ToLower SHA256 Error u s checked d k).
Proof.
  intros Hd Hk. unfold recheck_then. apply (emits_bind_wp record_ev git_fine (fun r => match r with Ok d' => reason_ok d' | Err _ => True end) _ _ []).
  - git_solve.
  - by apply recheck_result.
  - intros [d'|err] Hd'; [|done]. git_solve.
Qed.

Lemma git_check_urls s p d :
  reason_ok d -> named d -> shaPattern (HeadSHA p) = true -> gits (check_urls u s p d).
Proof.
  intros Hd Hn Hs. unfold check_urls. git_solve.
Qed.
#[local] Hint Extern 1 (gits (recheck_then _ _ _ _ _ _ _ _)) => (apply git_recheck_then; [assumption|]) : git_db.
#[local] Hint Resolve git_check_urls : git_db.

Lemma git_decide_push s checked p d :
  d_ReadyForCommits d = true -> undecided d -> named d -> gits (decide_push ToLower SHA256 Error u s checked p d).
Proof.
  intros Hrdy Hun Hn. unfold decide_push. cbn zeta.
  assert (reason_ok (EvaluateCommits p d)) as Hr by (apply reason_commits; unfold reason_ok; by rewrite (un_reason d Hun)).
  destruct (String.eqb_spec (d_Reason (EvaluateCommits p d)) "") as [Er|]; cbn [negb]; [|git_solve].
  destruct (d_NoPushes (EvaluateCommits p d)) eqn:En; [git_solve|]. destruct (d_Suppressed (EvaluateCommits p d)) eqn:Es; [git_solve|].
  pose proof (EvaluateCommits_undenied p d Hrdy Hun Er En Es) as Ha. apply allowed_head in Ha; [|apply Hun].
  unfold Push.unless_stopped. apply emits_bind; [git_solve|]. intros []; [done|]. apply git_recheck_then; [done|].
  apply git_check_urls; [done|by apply named_commits|done].
Qed.

#[local] Hint Extern 1 (gits (decide_push _ _ _ _ _ _ _ _)) => (apply git_decide_push; assumption) : git_db.

Lemma git_check_commits s checked p d :
  d_ReadyForCommits d = true -> undecided d -> named d -> gits (check_commits ToLower SHA256 Error u s checked p d).
Proof. intros Hrdy Hun Hn. unfold check_commits. git_solve. Qed.

(** The stages after the local checks. *)
Record passed (d : PushDecision) : Prop := {
  pa_remote : d_ReadyForRemote d = true; pa_commits : d_ReadyForCommits d = false; pa_undecided : undecided d; pa_named : named d }.

Lemma passed_reason d : passed d -> reason_ok d.
Proof. intros [_ _ Hun _]. unfold reason_ok. by rewrite (un_reason d Hun). Qed.

Lemma git_check_remote s checked p d : passed d -> gits (check_remote ToLower SHA256 Error u s checked p d).
Proof.
  intros Hp. pose proof (reason_remote p d (passed_reason d Hp)) as Hr. destruct Hp as [H1 H2 H3 H4]. unfold check_remote. cbn zeta.
  destruct (String.eqb_spec (d_Reason (EvaluateRemote p d)) "") as [Er|]; cbn [negb]; [|git_solve].
  destruct (EvaluateRemote_undenied p d H1 H2 H3 Er) as [H5 H6]. apply git_check_commits; [done..|by apply named_remote].
Qed.
#[local] Hint Resolve git_check_remote passed_reason : git_db.

Lemma git_ask_remote s checked p d : passed d -> gits (ask_remote ToLower SHA256 Error u s checked p d).
Proof. intros Hp. unfold ask_remote. git_solve. Qed.
Lemma git_recheck_remote s checked p d :
  passed d -> gits (recheck_then ToLower SHA256 Error u s checked d (ask_remote ToLower SHA256 Error u s checked p d)).
Proof. intros Hp. apply git_recheck_then; [by apply passed_reason|by apply git_ask_remote]. Qed.
#[local] Hint Resolve git_recheck_remote : git_db.

Lemma git_check_head s checked p d : passed d -> gits (check_head ToLower SHA256 Error u s checked p d).
Proof.
  intros Hp. pose proof (passed_reason d Hp). unfold check_head. git_solve.
Qed.

Lemma git_check_local s remote checked p : Allowlist p <> [] -> gits (check_local ToLower SHA256 Error u s remote checked p).
Proof.
  intros Ha. unfold check_local. cbn zeta. destruct (String.eqb_spec (d_Reason (EvaluateLocal p)) "") as [Er|]; cbn [negb]; [|git_solve].
  destruct (negb _); [git_solve|]. apply git_check_head. destruct (EvaluateLocal_undenied p Ha Er) as (H1 & H2 & H3).
  split; [done..|by apply named_local].
Qed.

(** A change of the input that leaves the allow-list alone. *)
Definition keeps_list (f : PushInput -> PushInput) : Prop := forall p, Allowlist (f p) = Allowlist p.

Lemma git_gather q p k :
  gits q -> wp record_ev q [] (fun _ f => keeps_list f) -> (forall p', Allowlist p' = Allowlist p -> gits (k p')) -> gits (gather u q p k).
Proof.
  intros Hq Hw Hk. unfold gather. apply (emits_bind_wp record_ev git_fine keeps_list _ _ []).
  - by case_match.
  - by case_match.
  - intros f Hf. unfold Push.unless_stopped. apply emits_bind; [git_solve|]. intros []; [done|]. by apply Hk.
Qed.

Lemma read_config_keeps q set h : (forall b, keeps_list (set b)) -> wp record_ev (read_config q set) h (fun _ f => keeps_list f).
Proof. intros Hs r. cbn. by destruct (pushConfigSet r). Qed.

Lemma read_fingerprint_keeps s h : wp record_ev (read_fingerprint ToLower SHA256 Error s) h (fun _ r => keeps_list r.1).
Proof.
  unfold read_fingerprint. intros common. apply wp_bind. eapply wp_mono; [apply wp_true|]. intros h1 gitDir _.
  destruct common as [common|err], gitDir as [gitDir|err']; try done. cbn zeta. apply wp_bind.
  eapply wp_mono; [apply wp_true|]. by intros h2 [[entries include]|err] _.
Qed.

Lemma git_check_config s remote p : Allowlist p <> [] -> gits (check_config ToLower SHA256 Error u s remote p).
Proof.
  intros Ha. unfold check_config.
  apply git_gather; [git_solve|by apply read_config_keeps|]. intros p1 E1.
  apply git_gather; [git_solve|by apply read_config_keeps|]. intros p2 E2.
  apply git_gather; [git_solve|by apply read_config_keeps|]. intros p3 E3. rewrite E2, E1 in E3.
  unfold gather_fingerprint.
  apply (emits_bind_wp record_ev git_fine (fun r => keeps_list r.1) _ _ []).
  - case_match; [unfold read_fingerprint; git_solve|done].
  - case_match; [apply read_fingerprint_keeps|done].
  - intros [f checked] Hf. unfold Push.unless_stopped. apply emits_bind; [git_solve|]. intros []; [done|].
    apply git_check_local. by rewrite Hf, E3.
Qed.

Lemma git_check_branch s p : Allowlist p <> [] -> gits (check_branch ToLower SHA256 Error u s p).
Proof.
  intros Ha. unfold check_branch. cbn zeta. destruct (_ || _); [git_solve|]. apply emits_bind; [git_solve|]. intros [[fetch push] err].
  unfold Push.unless_stopped. apply emits_bind; [git_solve|]. intros []; [done|]. apply git_check_config. by destruct err.
Qed.

Lemma git_Run id held : gits (Push.Run ToLower SHA256 Error u id held).
Proof.
  unfold Push.Run. destruct (negb _); [done|]. destruct (negb _); [done|]. apply emits_bind; [git_solve|]. intros st.
  destruct (bool_decide_reflect (uc_Allowlist u = [])) as [|Ha]; [by rewrite orb_true_r|]. rewrite orb_false_r. destruct st; [done|].
  assert (forall s p, Allowlist p = uc_Allowlist u -> gits (check_branch ToLower SHA256 Error u s p)) as Hb
    by (intros s p Hp; apply git_check_branch; by rewrite Hp).
  unfold unless_cancelled. apply emits_bind; [git_solve|]. intros [err|]; [done|]. apply emits_bind; [git_solve|]. intros [s|err]; [|done].
  unfold Push.unless_stopped. apply emits_bind; [git_solve|]. intros []; [done|]. apply emits_bind; [git_solve|]. intros ref.
  apply emits_bind; [git_solve|]. intros []; [done|]. apply Hb. by repeat case_match.
Qed.
End Pushing.

(** Whatever git, the files and the other goroutines answer: every event that a commit
    of verified changes or a push of a session with a valid identifier hands to the event
    log passes [validateEvent], save a commit whose identifier git has not written in
    hexadecimal and a remote whose name the push policy accepts and the log refuses. *)
Theorem git_events_are_accepted (ToLower SHA256 SHA1 : string -> string) (Error : error -> string) :
  (forall u, emits record_ev git_fine (Commit.Execute ToLower SHA256 SHA1 Error u))
  /\ (forall u id held, emits record_ev git_fine (Push.Run ToLower SHA256 Error u id held)).
Proof. split; intros; [apply git_Commit|apply git_Run]. Qed.

(** There are such remotes: what was pushed to [a.] is not in the log. *)
Lemma pushed_and_refused :
  validRemote "a." = true
  /\ exists err, validateEvent (git_event (mkGitEvent EventKindPushSucceeded "repo-1" "" "" 1 "" "" "a." "main")) = Err err.
Proof. split; [reflexivity|]. eexists. reflexivity. Qed.
