(* ===== verification/Registries.v ===== *)
(** * The registries of the supervisor ([internal/supervisor/usecase/pty_registry.go],
    [owned_children.go], [observed_state.go], [observed_context.go], [permission_pending.go])

    Tables under a mutex that the use cases of all sessions share.  Every method is one
    critical section, so it is a function on the table, and a concurrent history is a
    sequence of calls.  A terminal is its identity, as the code compares interfaces. *)

From S2P Require Import Prelude.
From S2P Require Import Errors.
From S2P Require Import Session.
From S2P Require Import Detect.

(** ** The terminals *)

Record PTYRegistry : Type := mkRegistry {
  writers : gmap string Z;
  managed : gmap string Z;
  stopping : gmap string (option Z);
  shutdown : bool }.

#[export] Instance PTYRegistry_settable : Settable PTYRegistry := fun r =>
  mkRegistry (writers r) (managed r) (stopping r) (shutdown r).

Definition newRegistry : PTYRegistry := mkRegistry ∅ ∅ ∅ false.

Definition RegisterManaged (id : string) (pty : Z) (r : PTYRegistry) : PTYRegistry := r <| managed := <[id := pty]> (managed r) |>.
Definition GetManaged (id : string) (r : PTYRegistry) : option Z := managed r !! id.
Definition RemoveManaged (id : string) (pty : Z) (r : PTYRegistry) : PTYRegistry :=
  if bool_decide (managed r !! id = Some pty) then r <| managed := delete id (managed r) |> else r.

(** The child that is to be stopped; [None]: whichever registers next. *)
Definition MarkStopping (id : string) (r : PTYRegistry) : PTYRegistry * option Z :=
  (r <| stopping := <[id := managed r !! id]> (stopping r) |>, managed r !! id).
Definition IsStopping (id : string) (pty : Z) (r : PTYRegistry) : bool :=
  match stopping r !! id with
  | None => false
  | Some None => true
  | Some (Some marked) => marked =? pty
  end.
Definition ClearStopping (id : string) (pty : option Z) (r : PTYRegistry) : PTYRegistry :=
  if bool_decide (stopping r !! id = Some pty) then r <| stopping := delete id (stopping r) |> else r.

Definition BeginShutdown (r : PTYRegistry) : PTYRegistry := r <| shutdown := true |>.
Definition IsShuttingDown (r : PTYRegistry) : bool := shutdown r.
Definition Managed (r : PTYRegistry) : list Z := (map_to_list (managed r)).*2.

Definition Register (id : string) (writer : Z) (r : PTYRegistry) : PTYRegistry := r <| writers := <[id := writer]> (writers r) |>.
Definition Get (id : string) (r : PTYRegistry) : option Z := writers r !! id.
Definition Remove (id : string) (writer : Z) (r : PTYRegistry) : PTYRegistry :=
  if bool_decide (writers r !! id = Some writer) then r <| writers := delete id (writers r) |> else r.

(** The calls that change the table. *)
Inductive registry_call : Type :=
| CallRegisterManaged (id : string) (pty : Z)
| CallRemoveManaged (id : string) (pty : Z)
| CallMarkStopping (id : string)
| CallClearStopping (id : string) (pty : option Z)
| CallBeginShutdown
| CallRegister (id : string) (writer : Z)
| CallRemove (id : string) (writer : Z).

Definition do_call (r : PTYRegistry) (c : registry_call) : PTYRegistry :=
  match c with
  | CallRegisterManaged id pty => RegisterManaged id pty r
  | CallRemoveManaged id pty => RemoveManaged id pty r
  | CallMarkStopping id => (MarkStopping id r).1
  | CallClearStopping id pty => ClearStopping id pty r
  | CallBeginShutdown => BeginShutdown r
  | CallRegister id writer => Register id writer r
  | CallRemove id writer => Remove id writer r
  end.

Definition registry_after (calls : list registry_call) : PTYRegistry := foldl do_call newRegistry calls.

(** ** The children of this process *)

Definition Owned_Register (id : string) (pid : Z) (pids : gmap string Z) : gmap string Z := <[id := pid]> pids.
Definition Owned_Remove (id : string) (pid : Z) (pids : gmap string Z) : gmap string Z :=
  if default 0 (pids !! id) =? pid then delete id pids else pids.
Definition Owns (id : string) (pid : Z) (pids : gmap string Z) : bool := (0 <? pid) && (default 0 (pids !! id) =? pid).
Definition OwnedChildPIDs (pids : gmap string Z) : list Z := List.filter (fun pid => 0 <? pid) (map_to_list pids).*2.

(** ** What has been observed last *)

Definition ObservedState_Set (id : string) (state : DetectedState) (states : gmap string DetectedState) := <[id := state]> states.
Definition ObservedState_Get (id : string) (states : gmap string DetectedState) : option DetectedState := states !! id.
Definition ObservedState_Delete (id : string) (states : gmap string DetectedState) := delete id states.

Definition ObservedContext_Set (id : string) (percent : option Z) (values : gmap string Z) : gmap string Z :=
  match percent with None => delete id values | Some percent => <[id := percent]> values end.
Definition ObservedContext_Get (id : string) (values : gmap string Z) : option Z := values !! id.
Definition ObservedContext_Delete (id : string) (values : gmap string Z) : gmap string Z := delete id values.

(** ** The reminders of a pending permission *)

Definition permissionRemindInterval : Duration := 900 * Second.

Record permissionVisit : Type := mkVisit { visit_since : Time; visit_last : Time }.

(** What [Observe] does: the table, its error, and whether it has reminded.  [recorded] is
    what the recorder answers, or would. *)
Definition PermissionPending_Observe (id : string) (state : SupervisorSessionState) (since now : Time) (recorded : option error)
    (visits : gmap string permissionVisit) : gmap string permissionVisit * option error * bool :=
  if negb (bool_decide (state = SessionAwaitingPermission)) then (delete id visits, None, false)
  else if match visits !! id with
          | Some visit => (visit_since visit =? since) && (Sub now (visit_last visit) <? permissionRemindInterval)
          | None => false
          end
  then (visits, None, false)
  else match recorded with
       | Some err => (visits, Some err, false)
       | None => (<[id := mkVisit since now]> visits, None, true)
       end.

(** ** Specification vocabulary *)

Definition registers (id : string) (c : registry_call) : bool :=
  match c with CallRegisterManaged id' _ => (id' =? id)%string | _ => false end.
Definition removes (id : string) (pty : Z) (c : registry_call) : bool :=
  match c with CallRemoveManaged id' pty' => (id' =? id)%string && (pty' =? pty) | _ => false end.
Definition marks (id : string) (c : registry_call) : bool :=
  match c with CallMarkStopping id' => (id' =? id)%string | _ => false end.
Definition clears (id : string) (pty : option Z) (c : registry_call) : bool :=
  match c with CallClearStopping id' pty' => (id' =? id)%string && bool_decide (pty' = pty) | _ => false end.

(** The last terminal that was registered for [id], which has not been removed since. *)
Definition bound (calls : list registry_call) (id : string) (pty : Z) : Prop :=
  exists before after, calls = before ++ CallRegisterManaged id pty :: after
    /\ forallb (fun c => negb (registers id c || removes id pty c)) after = true.

(** A stop that has been marked and not been cleared, for the terminal [marked]. *)
Definition marked_for (calls : list registry_call) (id : string) (marked : option Z) : Prop :=
  exists before after, calls = before ++ CallMarkStopping id :: after
    /\ GetManaged id (registry_after before) = marked
    /\ forallb (fun c => negb (marks id c || clears id marked c)) after = true.

(** ** Lemmas *)

Lemma registry_after_snoc calls c : registry_after (calls ++ [c]) = do_call (registry_after calls) c.
Proof. unfold registry_after. by rewrite foldl_app. Qed.

(** A list that ends with [x]. *)
Lemma snoc_split {A : Type} (calls : list A) (x : A) (before : list A) (y : A) (after : list A) :
  calls ++ [x] = before ++ y :: after -> (calls = before /\ x = y /\ after = []) \/ exists after', after = after' ++ [x] /\ calls = before ++ y :: after'.
Proof.
  intros E. destruct after as [|z after _] using rev_ind.
  - apply app_inj_tail in E as [-> ->]. by left.
  - right. exists after. rewrite app_comm_cons, app_assoc in E. apply app_inj_tail in E as [-> ->]. done.
Qed.

Lemma bound_snoc calls c id pty :
  bound (calls ++ [c]) id pty <->
    c = CallRegisterManaged id pty \/ (bound calls id pty /\ registers id c = false /\ removes id pty c = false).
Proof.
  split.
  - intros (before & after & E & Hf). apply snoc_split in E as [(-> & -> & ->)|(after' & -> & ->)]; [by left|right].
    rewrite forallb_app in Hf. cbn in Hf. apply andb_true_iff in Hf as [Hf Hc]. rewrite andb_true_r, negb_orb in Hc.
    apply andb_true_iff in Hc as [H1 H2]. apply negb_true_iff in H1, H2. split; [by exists before, after'|done].
  - intros [->|((before & after & -> & Hf) & H1 & H2)]; [by exists calls, []|]. exists before, (after ++ [c]).
    rewrite <- app_assoc. split; [done|]. rewrite forallb_app, Hf. cbn. by rewrite H1, H2.
Qed.

Lemma marked_snoc calls c id marked :
  marked_for (calls ++ [c]) id marked <->
    (c = CallMarkStopping id /\ GetManaged id (registry_after calls) = marked)
    \/ (marked_for calls id marked /\ marks id c = false /\ clears id marked c = false).
Proof.
  split.
  - intros (before & after & E & Hm & Hf). apply snoc_split in E as [(-> & -> & ->)|(after' & -> & ->)]; [by left|right].
    rewrite forallb_app in Hf. cbn in Hf. apply andb_true_iff in Hf as [Hf Hc]. rewrite andb_true_r, negb_orb in Hc.
    apply andb_true_iff in Hc as [H1 H2]. apply negb_true_iff in H1, H2. split; [by exists before, after'|done].
  - intros [[-> Hm]|((before & after & -> & Hm & Hf) & H1 & H2)]; [by exists calls, []|]. exists before, (after ++ [c]).
    rewrite <- app_assoc. split; [done|]. split; [done|]. rewrite forallb_app, Hf. cbn. by rewrite H1, H2.
Qed.

Lemma managed_bound calls id pty : managed (registry_after calls) !! id = Some pty <-> bound calls id pty.
Proof.
  revert pty. induction calls as [|c calls IH] using rev_ind; intros pty.
  - split; [done|]. intros (before & after & E & _). by destruct before.
  - rewrite registry_after_snoc, bound_snoc, <- IH. set (r := registry_after calls).
    destruct c as [i p|i p|i|i p| |i w|i w]; cbn [do_call registers removes];
      try (split; [intros H; by right|by intros [?|(? & _)]]).
    + cbn. destruct (decide (i = id)) as [->|Hi].
      * rewrite lookup_insert_eq, String.eqb_refl. split; [intros [= ->]; by left|intros [[= ->]|(_ & ? & _)]; done].
      * rewrite lookup_insert_ne by done. apply String.eqb_neq in Hi as Hb. rewrite Hb. split; [intros; by right|].
        intros [[= ? ?]|(? & _)]; [congruence|done].
    + unfold RemoveManaged. case_bool_decide as Hp; cbn.
      * destruct (decide (i = id)) as [->|Hi].
        -- rewrite lookup_delete_eq, String.eqb_refl, Hp. cbn. split; [done|]. intros [?|([= ->] & _ & Hne)]; [done|]. by rewrite Z.eqb_refl in Hne.
        -- rewrite lookup_delete_ne by done. apply String.eqb_neq in Hi as Hb. rewrite Hb. cbn. split; [intros; by right|by intros [?|(? & _)]].
      * split; [|by intros [?|(? & _)]]. intros H. right. split; [done|]. split; [done|].
        destruct (String.eqb_spec i id) as [->|]; [|done]. cbn. apply Z.eqb_neq. congruence.
    + unfold ClearStopping. case_bool_decide; cbn; (split; [intros H'; by right|by intros [?|(? & _)]]).
    + unfold Remove. case_bool_decide; cbn; (split; [intros H'; by right|by intros [?|(? & _)]]).
Qed.

Lemma stopping_marked calls id marked : stopping (registry_after calls) !! id = Some marked <-> marked_for calls id marked.
Proof.
  revert marked. induction calls as [|c calls IH] using rev_ind; intros marked.
  - split; [done|]. intros (before & after & E & _). by destruct before.
  - rewrite registry_after_snoc, marked_snoc, <- IH. set (r := registry_after calls). unfold GetManaged.
    destruct c as [i p|i p|i|i p| |i w|i w]; cbn [do_call marks clears];
      try (split; [intros H; by right|by intros [[? _]|(? & _)]]).
    + unfold RemoveManaged. case_bool_decide; cbn; (split; [intros H'; by right|by intros [[? _]|(? & _)]]).
    + cbn. destruct (decide (i = id)) as [->|Hi].
      * rewrite lookup_insert_eq, String.eqb_refl. split; [intros [= <-]; by left|intros [[_ <-]|(_ & ? & _)]; done].
      * rewrite lookup_insert_ne by done. apply String.eqb_neq in Hi as Hb. rewrite Hb. split; [intros; by right|].
        intros [[[= ?] _]|(? & _)]; [congruence|done].
    + unfold ClearStopping. case_bool_decide as Hp; cbn.
      * destruct (decide (i = id)) as [->|Hi].
        -- rewrite lookup_delete_eq, String.eqb_refl, Hp. cbn. split; [done|]. intros [[? _]|([= ->] & _ & Hne)]; [done|].
           by rewrite bool_decide_eq_true_2 in Hne.
        -- rewrite lookup_delete_ne by done. apply String.eqb_neq in Hi as Hb. rewrite Hb. cbn. split; [intros; by right|by intros [[? _]|(? & _)]].
      * split; [|by intros [[? _]|(? & _)]]. intros H. right. split; [done|]. split; [done|].
        destruct (String.eqb_spec i id) as [->|]; [|done]. cbn. apply bool_decide_eq_false. congruence.
    + unfold Remove. case_bool_decide; cbn; (split; [intros H'; by right|by intros [[? _]|(? & _)]]).
Qed.

(** The terminal that is bound to a session is the one that was registered last, unless
    that very one has been removed; and a child is being stopped while a stop has been
    marked for it, or for whichever registers next, and has not been cleared. *)
Theorem registry_follows_calls (calls : list registry_call) (id : string) (pty : Z) :
  (GetManaged id (registry_after calls) = Some pty <-> bound calls id pty)
  /\ (IsStopping id pty (registry_after calls) = true <-> marked_for calls id None \/ marked_for calls id (Some pty)).
Proof.
  split; [apply managed_bound|]. rewrite <- !stopping_marked. unfold IsStopping.
  destruct (stopping (registry_after calls) !! id) as [[marked|]|].
  - rewrite Z.eqb_eq. split; [intros ->; by right|by intros [[=]|[= ->]]].
  - split; [by left|done].
  - split; [done|by intros [?|?]].
Qed.

(** A stay is reminded of when it begins, and again when a quarter of an hour has passed. *)
Theorem reminds_when_due (id : string) (since now : Time) (visits : gmap string permissionVisit) :
  (PermissionPending_Observe id SessionAwaitingPermission since now None visits).2 = true <->
    forall visit, visits !! id = Some visit -> visit_since visit = since -> permissionRemindInterval <= Sub now (visit_last visit).
Proof.
  unfold PermissionPending_Observe. rewrite bool_decide_eq_true_2 by done. cbn [negb].
  destruct (visits !! id) as [visit|]; [|by split].
  destruct (Z.eqb_spec (visit_since visit) since) as [Hs|Hs]; cbn [andb].
  - destruct (Z.ltb_spec (Sub now (visit_last visit)) permissionRemindInterval); cbn.
    + split; [done|]. intros H'. specialize (H' _ eq_refl Hs). lia.
    + split; [|done]. intros _ v [= <-] _. lia.
  - split; [|done]. intros _ v [= <-] H'. by destruct Hs.
Qed.
