(* ===== verification/StopSession.v ===== *)
(** * Ending one session ([internal/supervisor/usecase/stop_session.go])

    The terminal of the child is closed, and it is waited until the observer has recorded
    its exit, until it is seen to be gone, or for ten seconds.  What is recorded then is
    what was seen last. *)

From S2P Require Import Prelude.
From S2P Require Import Errors.
From S2P Require Import Session.
From S2P Require Import Effects.
From S2P Require Import SupEff.

(** The calls that the other use cases of a session do not make: the registry of the
    terminals and whether a process is alive. *)
Inductive StopEff : Type -> Type :=
| Sup {X : Type} (e : SupEff.Eff X) : StopEff X
| PTYs_MarkStopping : StopEff (option Z)
| PTYs_ClearStopping (pty : option Z) : StopEff unit
| PTYs_RemoveManaged (pty : Z) : StopEff unit
| PTY_Close (pty : Z) : StopEff (option error)
| Alive (pid : Z) : StopEff bool.

Abbreviation StM := (prog StopEff).

Fixpoint sup {A : Type} (p : SupEff.M A) : StM A :=
  match p with
  | Ret a => Ret a
  | Vis e k => Vis (Sup e) (fun x => sup (k x))
  end.

Record StopSessionUseCase : Type := mkStopSession {
  ss_Sessions : bool;
  ss_PTYs : bool;
  ss_RecordStructured : bool;
  ss_Notify : bool }.

Record StopSessionOutput : Type := mkStopOutput {
  so_SessionID : string;
  so_State : SupervisorSessionState;
  so_Reason : SupervisorStopReason }.

Definition noOutput : StopSessionOutput := mkStopOutput "" NoSessionState NoStopReason.

Definition is_over (s : SupervisorSessionState) : bool := bool_decide (s = SessionExited) || bool_decide (s = SessionFailed).

(** The update of [finish]: the record, whether it has changed, and the child it had. *)
Definition finish_change (timedOut : bool) (now : Time) (s : ManagedSession) : res (ManagedSession * (ManagedSession * bool * Z)) :=
  if is_over (s_State s) then Ok (s, (s, false, 0))
  else if timedOut then
    match apply EventStop (no_context <| c_StopReason := StopOrphanChildAlive |>) now s with
    | Err err => Err err
    | Ok s => let s := s <| s_StopReason := StopOrphanChildAlive |> in Ok (s, (s, true, 0))
    end
  else
    let childPID := s_ChildPID s in
    match apply EventStopSession no_context now s with
    | Err err => Err err
    | Ok s => let s := s <| s_ChildPID := 0 |> <| s_ChildStartedAt := None |> in Ok (s, (s, true, childPID))
    end.

Section UseCase.
Context (u : StopSessionUseCase) (id : string).

Definition record (kind : SupervisorEventKind) (reason : string) : StM unit :=
  (if ss_RecordStructured u then sup (call (RecordStructured (plain_event kind "" reason)));; mret tt else mret tt);;
  (if ss_Notify u then sup (call (Notify kind id)) else mret tt).

Definition finish (timedOut : bool) (pty : option Z) : StM (StopSessionOutput * option error) :=
  now ← sup (call Now);
  r ← sup (UpdateSession (fun s => mret (finish_change timedOut now s)));
  match r with
  | Err err => mret (noOutput, Some err)
  | Ok (resulting, changed, childPID) =>
      (if (changed : bool) then
         if timedOut then
           (match pty with Some pty => call (PTYs_RemoveManaged pty) | None => mret tt end);;
           record EventKindOrphanChildAlive ""
         else
           sup (call (DisownChild childPID));;
           record EventKindSessionExited "stop_session_requested"
       else mret tt);;
      mret (mkStopOutput id (s_State resulting) (s_StopReason resulting), None)
  end.

(** One round of the wait. *)
Definition confirm_round (again : StM (StopSessionOutput * option error)) (pty : option Z) : StM (StopSessionOutput * option error) :=
  current ← sup (call LoadSession);
  match current with
  | Err err => mret (noOutput, Some err)
  | Ok current =>
      if bool_decide (s_State current = SessionExited) then mret (mkStopOutput id (s_State current) NoStopReason, None)
      else
        alive ← (if is_none pty then call (Alive (s_ChildPID current)) else mret true);
        if negb alive then finish false pty
        else
          waited ← sup (call SelectWait);
          match waited with
          | Ticked => again
          | TimerFired =>
              current ← sup (call LoadSession);
              match current with
              | Err err => mret (noOutput, Some err)
              | Ok current => alive ← call (Alive (s_ChildPID current)); finish alive pty
              end
          | CtxDone err => mret (noOutput, Some err)
          end
  end.

(** [fuel] bounds the rounds. *)
Fixpoint confirm (fuel : nat) (pty : option Z) : StM (StopSessionOutput * option error) :=
  confirm_round (match fuel with O => sup out_of_fuel | S fuel => confirm fuel pty end) pty.

Definition close_and_confirm (fuel : nat) (pty : option Z) : StM (StopSessionOutput * option error) :=
  err ← (match pty with Some pty => call (PTY_Close pty) | None => mret None end);
  match err with
  | Some _ => mret (noOutput, err)
  | None => confirm fuel pty
  end.

Definition StopSession_Execute (fuel : nat) : StM (StopSessionOutput * option error) :=
  if negb (ss_Sessions u && ss_PTYs u) then mret (noOutput, Some (Errorf "stop-session dependencies are required" []))
  else
    session ← sup (call LoadSession);
    match session with
    | Err err => mret (noOutput, Some (if errors_Is err FsErrNotExist then Sentinel ErrSessionNotFound else err))
    | Ok session =>
        if negb (s_SessionID session =? id)%string then mret (noOutput, Some (Sentinel ErrSessionNotFound))
        else
          pty ← call PTYs_MarkStopping;
          r ← close_and_confirm fuel pty;
          call (PTYs_ClearStopping pty);;
          mret r
    end.
End UseCase.

(** ** What a history says *)

Abbreviation sthist := (list (called StopEff)).

(** The record that was read last. *)
Fixpoint read_last (h : sthist) : option ManagedSession :=
  match h with
  | [] => None
  | Ev e x :: h =>
      match e in StopEff X return X -> option ManagedSession with
      | Sup e => fun x =>
          match e in SupEff.Eff X return X -> option ManagedSession with
          | LoadSession => fun x => match x with Ok s => Some s | Err _ => read_last h end
          | _ => fun _ => read_last h
          end x
      | _ => fun _ => read_last h
      end x
  end.

(** What was seen of the child last: its number, and whether it was alive. *)
Fixpoint seen_last (h : sthist) : option (Z * bool) :=
  match h with
  | [] => None
  | Ev e x :: h =>
      match e in StopEff X return X -> option (Z * bool) with
      | Alive pid => fun alive => Some (pid, alive)
      | _ => fun _ => seen_last h
      end x
  end.

(** The child of a record of the session was seen so, and the last to be seen. *)
Definition seen (h : sthist) (alive : bool) : Prop :=
  exists s, Ev (Sup LoadSession) (Ok s) ∈ h /\ seen_last h = Some (s_ChildPID s, alive).

(** The stop has been marked for [pty], and its terminal closed. *)
Definition closed (h : sthist) (pty : option Z) : Prop :=
  Ev PTYs_MarkStopping pty ∈ h /\ (forall p, pty = Some p -> Ev (PTY_Close p) None ∈ h).

(** The record [s'] may follow [s]: unchanged, exited with its child seen dead, or stopped
    because the child was seen alive when the time was up. *)
Inductive ends (h : sthist) (s s' : ManagedSession) : Prop :=
| ends_unchanged : s' = s -> ends h s s'
| ends_exited c :
    seen h false -> is_over (s_State s) = false -> Transition (s_State s) EventStopSession c = (s_State s', true) ->
    s_ChildPID s' = 0 -> s_ChildStartedAt s' = None -> ends h s s'
| ends_orphan c :
    seen h true -> Ev (Sup SelectWait) TimerFired ∈ h -> is_over (s_State s) = false ->
    Transition (s_State s) EventStop c = (s_State s', true) ->
    s_StopReason s' = StopOrphanChildAlive -> s_ChildPID s' = s_ChildPID s -> ends h s s'.

Definition orderly (e : called StopEff) (h : sthist) : Prop :=
  match e with
  | Ev e _ =>
      match e with
      | Sup (SaveSession s') => (exists pty, closed h pty) /\ exists s, read_last h = Some s /\ ends h s s'
      | Sup (DisownChild _) => seen h false
      | PTYs_RemoveManaged pty => closed h (Some pty) /\ seen h true
      | PTYs_ClearStopping pty => Ev PTYs_MarkStopping pty ∈ h
      | PTY_Close pty => Ev PTYs_MarkStopping (Some pty) ∈ h
      | _ => True
      end
  end.

(** The answer, if there is no error. *)
Definition stopped_as_told (id : string) (h : sthist) (r : StopSessionOutput * option error) : Prop :=
  r.2 = None ->
  so_SessionID r.1 = id
  /\ exists s, s_State s = so_State r.1
     /\ (Ev (Sup LoadSession) (Ok s) ∈ h \/ Ev (Sup (SaveSession s)) None ∈ h \/ (exists b, Ev (Sup (Marshal s)) (Ok b) ∈ h))
     /\ (is_over (so_State r.1) = true \/ so_State r.1 = SessionStopped /\ so_Reason r.1 = StopOrphanChildAlive).

(** A mark that was set is taken back at the end. *)
Definition taken_back (h : sthist) : Prop :=
  forall pty, Ev PTYs_MarkStopping pty ∈ h -> exists older, h = Ev (PTYs_ClearStopping pty) tt :: older.

(** ** Lemmas *)

Lemma apply_ok event c now (s s' : ManagedSession) :
  apply event c now s = Ok s' -> event <> EventResume ->
  s_ChildPID s' = s_ChildPID s /\ exists c', Transition (s_State s) event c' = (s_State s', true).
Proof.
  unfold apply. intros E He. destruct (Apply event c now s) as [s1 [[]|err]] eqn:EA; [|done]. injection E as ->.
  unfold Apply, mbind, ST_mbind, st_get in EA. cbn [fst snd] in EA.
  set (c' := if (SupervisorCli_string (c_CLI c) =? "")%string then c <| c_CLI := s_CLI s |> else c) in *.
  rewrite (bool_decide_eq_false_2 (event = EventResume)) in EA by done. cbn [andb] in EA.
  unfold TransitionWithError in EA. destruct (Transition (s_State s) event c') as [to ok] eqn:Et.
  assert (ok = true /\ s' = fst (Apply_accepted event c' now (s_State s) to s)) as [-> ->].
  { destruct ok; cbv zeta in EA;
      (match type of EA with context [if ?b then st_fail _ else _] => destruct b; [done|] end);
      (match type of EA with context [if ?b then st_fail _ else _] => destruct b; [done|] end).
    - by rewrite EA.
    - match type of EA with Apply_rejected ?e ?c ?err _ = _ => destruct (Apply_rejected_spec e c err s) as (e' & He' & _) end.
      by rewrite EA in He'. }
  rewrite Apply_accepted_State. split; [|by exists c'].
  unfold Apply_accepted, set_stop_scope. unfold_monads. destruct_ifs; done.
Qed.

Lemma stop_session_ends_it from c to : is_over from = false -> Transition from EventStopSession c = (to, true) -> to = SessionExited.
Proof. destruct from; cbn; intros Ho Ht; try done; try (by injection Ht); by case_match; simplify_eq. Qed.

Lemma stop_stops from c to : is_over from = false -> Transition from EventStop c = (to, true) -> to = SessionStopped.
Proof. destruct from; cbn; intros Ho Ht; try done; by injection Ht. Qed.

Lemma finish_change_ends timedOut now s s' a h :
  finish_change timedOut now s = Ok (s', a) -> seen h timedOut -> (timedOut = true -> Ev (Sup SelectWait) TimerFired ∈ h) ->
  ends h s s' /\ a.1.1 = s' /\ (is_over (s_State s') = true \/ s_State s' = SessionStopped /\ s_StopReason s' = StopOrphanChildAlive).
Proof.
  unfold finish_change. intros E Hseen Htime. destruct (is_over (s_State s)) eqn:Ho.
  { injection E as -> <-. split; [by apply ends_unchanged|]. split; [done|by left]. }
  destruct timedOut.
  - destruct (apply EventStop _ now s) as [s1|] eqn:Ea; [|done]. injection E as <- <-. destruct (apply_ok _ _ _ _ _ Ea) as (Hp & c & Ht); [done|].
    split; [eapply ends_orphan; [done|by apply Htime|done|exact Ht|done|exact Hp]|]. split; [done|]. right. split; [|done].
    by eapply stop_stops.
  - destruct (apply EventStopSession _ now s) as [s1|] eqn:Ea; [|done]. injection E as <- <-. destruct (apply_ok _ _ _ _ _ Ea) as (Hp & c & Ht); [done|].
    split; [by eapply ends_exited|]. split; [done|]. left. cbn. by rewrite (stop_session_ends_it _ _ _ Ho Ht).
Qed.

Lemma seen_sup {X : Type} (e : SupEff.Eff X) x h alive : seen h alive -> seen (Ev (Sup e) x :: h) alive.
Proof. intros (s & Hs & Hl). exists s. split; [by right|exact Hl]. Qed.

Lemma closed_later h h' pty : h `suffix_of` h' -> closed h pty -> closed h' pty.
Proof. intros Hs [H1 H2]. split; [by eapply in_later|]. intros p Hp. eapply in_later; [exact Hs|]. by apply H2. Qed.

Section Ends.
Context (u : StopSessionUseCase) (id : string).
Abbreviation P := orderly.
Abbreviation wpo := (wpi record_ev P).

Lemma sup_call {X A : Type} (e : SupEff.Eff X) (f : X -> StM A) h (Q : sthist -> A -> Prop) :
  (forall x, P (Ev (Sup e) x) h /\ wpo (f x) (Ev (Sup e) x :: h) Q) -> wpo (sup (call e) ≫= f) h Q.
Proof. intros H x. apply H. Qed.

Lemma record_wpi kind reason h (Q : sthist -> unit -> Prop) :
  (forall h', h `suffix_of` h' -> Q h' tt) -> wpo (record u id kind reason) h Q.
Proof.
  intros HQ. apply wpi_bind.
  enough (forall h', h `suffix_of` h' -> wpo (if ss_Notify u then sup (call (Notify kind id)) else mret tt) h' Q) as Hn.
  { destruct (ss_RecordStructured u); [|by apply Hn]. intros err. split; [done|]. by apply Hn, suffix_cons_r. }
  intros h' Hs. destruct (ss_Notify u); [|by apply HQ]. intros []. split; [done|]. by apply HQ, suffix_cons_r.
Qed.

(** What [finish] does between its reading of the clock and its answer. *)
Lemma finish_update_wpi timedOut now h (Q : sthist -> res (ManagedSession * bool * Z) -> Prop) :
  (exists pty, closed h pty) -> seen h timedOut -> (timedOut = true -> Ev (Sup SelectWait) TimerFired ∈ h) ->
  (forall h' err, h `suffix_of` h' -> Q h' (Err err)) ->
  (forall h' a, h `suffix_of` h' -> seen h' timedOut ->
     (is_over (s_State a.1.1) = true \/ s_State a.1.1 = SessionStopped /\ s_StopReason a.1.1 = StopOrphanChildAlive) ->
     (Ev (Sup (SaveSession a.1.1)) None ∈ h' \/ exists b, Ev (Sup (Marshal a.1.1)) (Ok b) ∈ h') -> Q h' (Ok a)) ->
  wpo (sup (UpdateSession (fun s => mret (finish_change timedOut now s)))) h Q.
Proof.
  intros [pty Hc] Hseen Htime Herr HQ. unfold UpdateSession. intros []. split; [done|].
  intros [s|err]; (split; [done|]); [|intros []; split; [done|]; by apply Herr; repeat apply suffix_cons_r].
  intros [before|err]; (split; [done|]); [|intros []; split; [done|]; by apply Herr; repeat apply suffix_cons_r].
  set (h1 := Ev (Sup (Marshal s)) (Ok before) :: Ev (Sup LoadSession) (Ok s) :: Ev (Sup LockRecord) tt :: h).
  assert (h `suffix_of` h1) as Hs1 by (by do 3 apply suffix_cons_r).
  assert (seen h1 timedOut) as Hseen1 by (by do 3 apply seen_sup).
  assert (timedOut = true -> Ev (Sup SelectWait) TimerFired ∈ h1) as Htime1 by (intros Ht; eapply in_later; [exact Hs1|auto]).
  cbn. destruct (finish_change timedOut now s) as [[s' a]|err] eqn:E; cbn; [|intros []; split; [done|]; by apply Herr; repeat apply suffix_cons_r].
  intros [after|err]; (split; [done|]); [|intros []; split; [done|]; by apply Herr; repeat apply suffix_cons_r]. cbn.
  set (h2 := Ev (Sup (Marshal s')) (Ok after) :: h1).
  assert (h `suffix_of` h2) as Hs2 by (by apply suffix_cons_r). assert (seen h2 timedOut) as Hseen2 by (by apply seen_sup).
  destruct (finish_change_ends _ _ _ _ _ h2 E Hseen2) as (Hends & Ha & Hover); [intros Ht; right; auto|].
  rewrite <- Ha in Hover. destruct (bool_decide_reflect (before = after)) as [<-|_]; cbn.
  - intros []. split; [done|]. apply HQ; [by apply suffix_cons_r|by apply seen_sup|done|]. right. exists before. right. rewrite Ha. by left.
  - intros [err|]; (split; [|intros []; split; [done|]]).
    + split; [exists pty; by eapply closed_later|]. by exists s.
    + by apply Herr; repeat apply suffix_cons_r.
    + split; [exists pty; by eapply closed_later|]. by exists s.
    + apply HQ; [by do 2 apply suffix_cons_r|by do 2 apply seen_sup|done|]. left. rewrite Ha. right. by left.
Qed.

Lemma finish_wpi timedOut pty h :
  closed h pty -> seen h timedOut -> (timedOut = true -> Ev (Sup SelectWait) TimerFired ∈ h) ->
  wpo (finish u id timedOut pty) h (fun h' r => h `suffix_of` h' /\ stopped_as_told id h' r).
Proof.
  intros Hc Hseen Htime. unfold finish. apply wpi_bind. intros now. split; [done|]. set (h1 := Ev (Sup Now) now :: h).
  assert (h `suffix_of` h1) as Hs1 by (by apply suffix_cons_r).
  apply wpi_bind, finish_update_wpi; [exists pty; by eapply closed_later|by apply seen_sup|intros Ht; right; auto| |].
  { intros h' err Hs. split; [by etrans|done]. }
  intros h2 [[resulting changed] childPID] Hs2 Hseen2 Hover Hrec. cbn in Hover, Hrec. cbv beta iota.
  assert (h `suffix_of` h2) as Hs by (by etrans).
  assert (forall h', h2 `suffix_of` h' -> h `suffix_of` h'
    /\ stopped_as_told id h' (mkStopOutput id (s_State resulting) (s_StopReason resulting), None)) as Hend.
  { intros h' Hs'. split; [by etrans|]. intros _. split; [done|]. exists resulting. split; [done|]. split; [|exact Hover].
    right. destruct Hrec as [Hr|(b & Hr)]; [left|right; exists b]; by eapply in_later. }
  destruct changed; [|by apply Hend]. apply wpi_bind. destruct timedOut.
  - apply wpi_bind. destruct pty as [pty|].
    + intros []. split; [split; [by eapply closed_later|done]|]. apply record_wpi. intros h' Hs'. apply Hend.
      etrans; [|exact Hs']. by apply suffix_cons_r.
    + apply record_wpi. intros h' Hs'. by apply Hend.
  - intros []. split; [done|]. apply record_wpi. intros h' Hs'. apply Hend. etrans; [|exact Hs']. by apply suffix_cons_r.
Qed.

Definition told (h : sthist) : sthist -> StopSessionOutput * option error -> Prop :=
  fun h' r => h `suffix_of` h' /\ stopped_as_told id h' r.

Lemma told_later {p : StM (StopSessionOutput * option error)} h h' : h `suffix_of` h' -> wpo p h' (told h') -> wpo p h' (told h).
Proof. intros Hs Hp. eapply wpi_mono; [exact Hp|]. intros h2 r [Hs2 Hr]. split; [by etrans|done]. Qed.

Lemma confirm_round_wpi again pty h :
  closed h pty -> (forall h', closed h' pty -> wpo again h' (told h')) -> wpo (confirm_round u id again pty) h (told h).
Proof.
  intros Hc Hagain. unfold confirm_round. apply sup_call. intros [s|err]; (split; [done|]); [|by split; [apply suffix_cons_r|]].
  case_bool_decide as Hexit.
  { split; [by apply suffix_cons_r|]. intros _. split; [done|]. exists s. split; [done|]. split; [left; by left|]. left. cbn. by rewrite Hexit. }
  set (h1 := Ev (Sup LoadSession) (Ok s) :: h).
  assert (forall h2, h `suffix_of` h2 ->
    wpo (waited ← sup (call SelectWait);
         match waited with
         | Ticked => again
         | TimerFired =>
             current ← sup (call LoadSession);
             match current with
             | Err err => mret (noOutput, Some err)
             | Ok current => alive ← call (Alive (s_ChildPID current)); finish u id alive pty
             end
         | CtxDone err => mret (noOutput, Some err)
         end) h2 (told h)) as Hwait.
  { intros h2 Hs2. assert (closed h2 pty) as Hc2 by (by eapply closed_later).
    apply sup_call. intros waited. split; [done|]. set (h3 := Ev (Sup SelectWait) waited :: h2).
    assert (h `suffix_of` h3) as Hs3 by (by apply suffix_cons_r). assert (closed h3 pty) as Hc3 by (by eapply closed_later; [apply suffix_cons_r|]).
    destruct waited as [err| |]; [by split| |by eapply told_later; [exact Hs3|apply Hagain]].
    apply sup_call. intros [s'|err]; (split; [done|]); [|by split; [apply suffix_cons_r|]]. apply wpi_call. intros alive. split; [done|].
    set (h5 := Ev (Alive (s_ChildPID s')) alive :: Ev (Sup LoadSession) (Ok s') :: h3).
    assert (h3 `suffix_of` h5) as Hs5 by (by do 2 apply suffix_cons_r).
    apply told_later; [by etrans|]. apply finish_wpi; [by eapply closed_later| |intros _; right; right; by left].
    exists s'. split; [right; by left|done]. }
  apply wpi_bind. destruct (is_none pty) eqn:Epty; [|apply Hwait; by apply suffix_cons_r].
  intros [|]; (split; [done|]); [apply Hwait; by do 2 apply suffix_cons_r|].
  set (h2 := Ev (Alive (s_ChildPID s)) false :: h1). assert (h `suffix_of` h2) as Hs2 by (by do 2 apply suffix_cons_r).
  apply told_later; [done|]. apply finish_wpi; [by eapply closed_later| |done]. exists s. split; [right; by left|done].
Qed.

Lemma confirm_wpi fuel pty h : closed h pty -> wpo (confirm u id fuel pty) h (told h).
Proof.
  revert h. induction fuel as [|fuel IH]; intros h Hc; (apply confirm_round_wpi; [done|]); [intros h' _ []|exact IH].
Qed.

(** The stop is marked once. *)
Definition marks_stop (e : called StopEff) : bool := match e with Ev PTYs_MarkStopping _ => true | _ => false end.
Definition unmarking (e : called StopEff) : Prop := marks_stop e = false.

Lemma sup_unmarking {A : Type} (p : SupEff.M A) : emits record_ev unmarking (sup p).
Proof. induction p as [a|X e k IH]; [done|]. intros x. split; [done|apply IH]. Qed.

Lemma record_unmarking kind reason : emits record_ev unmarking (record u id kind reason).
Proof. unfold record. destruct (ss_RecordStructured u), (ss_Notify u); repeat (intros ?; split; [done|]); done. Qed.

Lemma finish_unmarking timedOut pty : emits record_ev unmarking (finish u id timedOut pty).
Proof.
  unfold finish. apply emits_bind; [apply sup_unmarking|]. intros now. apply emits_bind; [apply sup_unmarking|].
  intros [[[resulting [|]] childPID]|err]; [|done|done]. apply emits_bind; [|done]. destruct timedOut.
  - apply emits_bind; [by destruct pty; [intros ?|]|]. intros []. apply record_unmarking.
  - apply emits_bind; [apply sup_unmarking|]. intros []. apply record_unmarking.
Qed.

Lemma confirm_unmarking fuel pty : emits record_ev unmarking (confirm u id fuel pty).
Proof.
  assert (forall again, emits record_ev unmarking again -> emits record_ev unmarking (confirm_round u id again pty)) as Hround.
  { intros again Ha. unfold confirm_round. apply emits_bind; [apply sup_unmarking|]. intros [s|err]; [|done].
    destruct (bool_decide _); [done|]. apply emits_bind; [by destruct (is_none pty); [intros ?|]|]. intros [|]; [|apply finish_unmarking].
    apply emits_bind; [apply sup_unmarking|]. intros [err| |]; [done| |exact Ha]. apply emits_bind; [apply sup_unmarking|].
    intros [s'|err]; [|done]. intros alive. split; [done|apply finish_unmarking]. }
  induction fuel as [|fuel IH]; apply Hround; [by intros []|exact IH].
Qed.

Lemma no_mark new pty : Forall unmarking new -> Ev PTYs_MarkStopping pty ∉ new.
Proof. intros Hn Hin. rewrite list.Forall_forall in Hn. by specialize (Hn _ Hin). Qed.

Lemma wpi_adds {A : Type} (C : called StopEff -> Prop) (p : StM A) h (Q : sthist -> A -> Prop) :
  wpo p h Q -> emits record_ev C p -> wpo p h (fun h' a => Q h' a /\ exists new, h' = new ++ h /\ Forall C new).
Proof.
  revert h Q. induction p as [a|X e k IH]; intros h Q Hp Hc; cbn in *; [split; [done|by exists []]|]. intros x. destruct (Hp x) as [HP Hk], (Hc x) as [He Hr].
  split; [done|]. eapply wpi_mono; [by apply IH|]. intros h' a [HQ (new & -> & Hn)]. split; [done|]. exists (new ++ [Ev e x]).
  rewrite <- app_assoc. split; [done|]. apply list.Forall_app. split; [done|by constructor].
Qed.

Lemma close_and_confirm_wpi fuel pty h :
  Ev PTYs_MarkStopping pty ∈ h -> wpo (close_and_confirm u id fuel pty) h (stopped_as_told id).
Proof.
  intros Hm. unfold close_and_confirm. apply wpi_bind.
  assert (forall h', closed h' pty -> wpo (confirm u id fuel pty) h' (stopped_as_told id)) as Hconfirm.
  { intros h' Hc. eapply wpi_mono; [by apply confirm_wpi|]. by intros h2 r [_ Hr]. }
  destruct pty as [pty|]; [|by apply Hconfirm].
  intros [err|]; (split; [done|]); [done|]. apply Hconfirm. split; [by right|]. intros p [= <-]. by left.
Qed.

Lemma close_unmarking fuel pty : emits record_ev unmarking (close_and_confirm u id fuel pty).
Proof.
  unfold close_and_confirm. apply emits_bind; [by destruct pty; [intros ?|]|]. intros [err|]; [done|apply confirm_unmarking].
Qed.

Lemma Execute_wpi fuel : wpo (StopSession_Execute u id fuel) [] (fun h r => stopped_as_told id h r /\ taken_back h).
Proof.
  unfold StopSession_Execute. assert (forall h (r : StopSessionOutput * option error), Forall unmarking h -> r.2 <> None -> stopped_as_told id h r /\ taken_back h) as Hearly.
  { intros h r Hh Hr. split; [done|]. intros pty Hin. by destruct (no_mark h pty Hh). }
  destruct (negb _); [by apply Hearly|]. apply sup_call. intros [s|err]; (split; [done|]); [|by apply Hearly; [repeat constructor|]].
  destruct (negb (s_SessionID s =? id)%string); [by apply Hearly; [repeat constructor|]|]. apply wpi_call. intros pty. split; [done|].
  set (h := [Ev PTYs_MarkStopping pty; Ev (Sup LoadSession) (Ok s)]).
  apply wpi_bind. eapply wpi_mono; [apply (wpi_adds unmarking); [apply close_and_confirm_wpi; by left|apply close_unmarking]|].
  intros h' r [Hr (new & -> & Hn)] []. split; [apply elem_of_app; right; by left|]. split.
  - intros Hnone. destruct (Hr Hnone) as (H1 & s' & H2 & H3 & H4). split; [done|]. exists s'. split; [done|]. split; [|done].
    destruct H3 as [H3|[H3|(b & H3)]]; [left; by right|right; left; by right|]. right; right. exists b. by right.
  - intros pty' Hin. exists (new ++ h). f_equal. f_equal. f_equal.
    apply list.elem_of_cons in Hin as [Hin|Hin]; [discriminate Hin|]. apply list.elem_of_app in Hin as [Hin|Hin]; [by destruct (no_mark new pty' Hn)|].
    apply list.elem_of_cons in Hin as [Hin|Hin]; [|apply list.elem_of_cons in Hin as [Hin|Hin]; [discriminate Hin|by inversion Hin]].
    pose proof (f_equal (fun e : called StopEff => match e with @Ev _ X e x =>
      match e in StopEff Y return Y -> option (option Z) with PTYs_MarkStopping => fun r => Some r | _ => fun _ => None end x end) Hin) as H. cbn in H.
    by injection H as ->.
Qed.
End Ends.

(** C26. Whatever the stores, the registry and the processes answer: the record of a session is
    ended only after a stop was marked for its terminal and that was closed, as exited if the
    child of the record was last seen dead, and as an orphan if it was last seen alive when
    the time was up; the mark is taken back; and an answer without an error says what the
    record says. *)
Theorem sessions_end_as_seen (u : StopSessionUseCase) (id : string) (fuel : nat) :
  wpi record_ev orderly (StopSession_Execute u id fuel) [] (fun h r => stopped_as_told id h r /\ taken_back h).
Proof. apply Execute_wpi. Qed.
