(* ===== verification/Startup.v ===== *)
(** * The start of the supervisor ([internal/supervisor/usecase/reconcile.go])

    Before anything else the supervisor brings the records of the last run in order: the
    children that are gone are forgotten, and a session that was in the middle of something
    is stopped. *)

From stdpp Require Import sorting.
From S2P Require Import Prelude.
From S2P Require Import Errors.
From S2P Require Import Session.
From S2P Require Import Effects.
From S2P Require Import SupEff.
From S2P Require Import StopSession.

(** ** Calls *)

Inductive StartEff : Type -> Type :=
| List : StartEff (res (list ManagedSession * list string * list string))
| LockRecord (id : string) : StartEff unit
| UnlockRecord (id : string) : StartEff unit
| LoadRecord (id : string) : StartEff (res ManagedSession)
| SaveRecord (s : ManagedSession) : StartEff (option error)
| MarshalRecord (s : ManagedSession) : StartEff (res string)
| StartNow : StartEff Time
| IsAlive (pid : Z) : StartEff bool
| ProcessStartedAt (pid : Z) : StartEff (option Time)
| BindQuarantine : StartEff unit
| RecordEvent_ (id : string) (e : SupEvent) : StartEff (option error)
| NotifyEvent (id : string) (kind : SupervisorEventKind) : StartEff unit
(* the order in which the set of these identifiers is ranged over *)
| RangeSet (ids : list string) : StartEff (list string)
| RepairFromSessions (sessions : list ManagedSession) : StartEff (option error).

Abbreviation RM := (prog StartEff).

(** Which fields of the use case are set. *)
Record ReconcileOnStartupUseCase : Type := mkReconcile {
  rs_Store : bool;
  rs_Stop : bool;
  rs_RecordStructured : bool;
  rs_Notify : bool }.

(** ** The use case *)

Definition UpdateSessionWith (id : string) (update : ManagedSession -> res ManagedSession) : RM (option error) :=
  call (LockRecord id);;
  r ← (session ← call (LoadRecord id);
       match session with
       | Err err => mret (Some err)
       | Ok session =>
           before ← call (MarshalRecord session);
           match before, update session with
           | Err err, _ => mret (Some err)
           | Ok _, Err err => mret (Some err)
           | Ok before, Ok session =>
               after ← call (MarshalRecord session);
               match after with
               | Err err => mret (Some err)
               | Ok after => if bool_decide (before = after) then mret None else call (SaveRecord session)
               end
           end
       end);
  call (UnlockRecord id);;
  mret r.

Definition withinOneSecond (a b : Time) : bool := if Before a b then Sub b a <=? Second else Sub a b <=? Second.

Definition over (s : SupervisorSessionState) : bool :=
  bool_decide (s = SessionStopped) || bool_decide (s = SessionExited) || bool_decide (s = SessionFailed).

Definition corrupt_session (id : string) (now : Time) : ManagedSession :=
  mkSession (GitPhaseOther "") 0 id "" CLIClaude 1 SessionStopped now StopScopeNone StopStateFileCorrupt NoExitReason "" "" 0 None
    (mkSendGate 1 false false None false None) None 0 [] None NoDisabledReason false false None NoSessionState "" "" "" NoFailureReason "" "".

Section UseCase.
Context (u : ReconcileOnStartupUseCase).

Definition record_event (id : string) (e : SupEvent) : RM unit :=
  if rs_RecordStructured u then call (RecordEvent_ id e);; mret tt else mret tt.

Definition startup_event (id : string) (kind : SupervisorEventKind) (reason : string) : RM unit :=
  record_event id (plain_event kind "" (if bool_decide (kind = EventKindSessionStopped) then reason else ""));;
  if rs_Notify u then call (NotifyEvent id kind) else mret tt.

(** Whether the child of the last run is still there. *)
Definition orphan_alive (s : ManagedSession) : RM bool :=
  if 0 <? s_ChildPID s then
    alive ← call (IsAlive (s_ChildPID s));
    if (alive : bool) then
      startedAt ← call (ProcessStartedAt (s_ChildPID s));
      if match startedAt, s_ChildStartedAt s with Some a, Some b => withinOneSecond a b | _, _ => true end
      then startup_event (s_SessionID s) EventKindOrphanChildAlive "";; mret true
      else mret false
    else mret false
  else mret false.

(** [*s, err = u.Store.Load(s.SessionID)] *)
Definition reload (s : ManagedSession) : RM (res ManagedSession) := call (LoadRecord (s_SessionID s)).

Definition forget_child (s : ManagedSession) (orphan : bool) : RM (res ManagedSession) :=
  if (0 <? s_ChildPID s) && negb orphan then
    err ← UpdateSessionWith (s_SessionID s) (fun current => Ok (current <| s_ChildPID := 0 |> <| s_ChildStartedAt := None |>));
    match err with Some err => mret (Err err) | None => reload s end
  else mret (Ok s).

Definition startup_transition (s : ManagedSession) (hadChildPID : bool) : TransitionEvent :=
  if bool_decide (s_State s = SessionStarting) && negb hadChildPID && (s_Generation s =? 1) then EventReconcile else EventStop.

(** A session that was in the middle of something. *)
Definition interrupt (now : Time) (s : ManagedSession) (hadChildPID : bool) : RM (res ManagedSession) :=
  let event := startup_transition s hadChildPID in
  let c := no_context <| c_Generation := s_Generation s |> <| c_StopReason := StopSupervisorRestarted |> in
  err ← UpdateSessionWith (s_SessionID s) (apply event c now);
  match err with
  | Some err => mret (Err err)
  | None =>
      updated ← reload s;
      match updated with
      | Err err => mret (Err err)
      | Ok updated =>
          (if bool_decide (s_State s = s_State updated) then mret tt
           else record_event (s_SessionID updated)
                  (mkSupEvent EventKindStateChanged "" "" NoRotateStep (s_State s) (s_State updated) None));;
          (if bool_decide (event = EventReconcile)
           then record_event (s_SessionID updated) (plain_event EventKindSessionStartInterrupted "" "")
           else startup_event (s_SessionID updated) EventKindSessionStopped (SupervisorStopReason_string StopSupervisorRestarted));;
          mret (Ok updated)
      end
  end.

Definition reconcile_one (now : Time) (s : ManagedSession) : RM (res ManagedSession) :=
  let hadChildPID := 0 <? s_ChildPID s in
  orphan ← orphan_alive s;
  r ← forget_child s orphan;
  match r with
  | Err err => mret (Err err)
  | Ok s => if over (s_State s) then mret (Ok s) else interrupt now s hadChildPID
  end.

Fixpoint reconcile_all (now : Time) (todo : list ManagedSession) : RM (res (list ManagedSession)) :=
  match todo with
  | [] => mret (Ok [])
  | s :: todo =>
      r ← reconcile_one now s;
      match r with
      | Err err => mret (Err err)
      | Ok s => r ← reconcile_all now todo; mret (match r with Err err => Err err | Ok sessions => Ok (s :: sessions) end)
      end
  end.

Definition add_corrupt (now : Time) (sessions : list ManagedSession) (id : string) : list ManagedSession :=
  if existsb (fun s => (s_SessionID s =? id)%string) sessions then sessions else sessions ++ [corrupt_session id now].

(** With an error the code answers the sessions so far too; its caller drops them. *)
Definition Reconcile_Execute : RM (res (list ManagedSession)) :=
  if negb (rs_Store u) then mret (Err (Errorf "session store is required" []))
  else
    (if rs_RecordStructured u || rs_Notify u then call BindQuarantine else mret tt);;
    now ← call StartNow;
    listed ← call List;
    match listed with
    | Err err => mret (Err err)
    | Ok (sessions, newlyCorrupt, previouslyCorrupt) =>
        r ← reconcile_all now sessions;
        match r with
        | Err err => mret (Err err)
        | Ok sessions =>
            ids ← call (RangeSet (newlyCorrupt ++ previouslyCorrupt));
            let sessions := foldl (add_corrupt now) sessions ids in
            err ← (if rs_Stop u then call (RepairFromSessions sessions) else mret None);
            mret (match err with Some err => Err err | None => Ok sessions end)
        end
    end.
End UseCase.

(** ** A run over the records

    The supervisor is alone when it starts: what is read is what was written.  Every call may
    fail, and a save that fails may have happened nevertheless. *)

Abbreviation rhist := (list (called StartEff)).
Abbreviation records := (gmap string ManagedSession).

Definition answers {X : Type} (h : rhist) (st : records) (e : StartEff X) : X -> records -> Prop :=
  match e in StartEff X return X -> records -> Prop with
  | List => fun r st' => st' = st /\ match r with
      | Ok (sessions, _, _) => NoDup (s_SessionID <$> sessions) /\ forall s, s ∈ sessions <-> st !! s_SessionID s = Some s
      | Err _ => True
      end
  | LoadRecord id => fun r st' => st' = st /\ match r with Ok s => st !! id = Some s | Err _ => True end
  | SaveRecord s => fun err st' => st' = <[s_SessionID s := s]> st \/ err <> None /\ st' = st
  (* different records are written differently *)
  | MarshalRecord s => fun r st' => st' = st /\ match r with Ok b => forall s', Ev (MarshalRecord s') (Ok b) ∈ h -> s' = s | Err _ => True end
  | RangeSet ids => fun order st' => st' = st /\ forall id, id ∈ order <-> id ∈ ids
  | _ => fun _ st' => st' = st
  end.

Fixpoint with_store {A : Type} (p : RM A) (h : rhist) (st : records) (Q : rhist -> records -> A -> Prop) : Prop :=
  match p with
  | Ret a => Q h st a
  | Vis e k => forall x st', answers h st e x st' -> with_store (k x) (Ev e x :: h) st' Q
  end.

(** The child of the last run: it is alive, and as far as can be told not another process. *)
Definition still_there (h : rhist) (s : ManagedSession) : Prop :=
  Ev (IsAlive (s_ChildPID s)) true ∈ h
  /\ exists startedAt, Ev (ProcessStartedAt (s_ChildPID s)) startedAt ∈ h
     /\ forall a b, startedAt = Some a -> s_ChildStartedAt s = Some b -> withinOneSecond a b = true.

(** What the start makes of the record [s]. *)
Record brought_in_order (h : rhist) (s s' : ManagedSession) : Prop := {
  io_id : s_SessionID s' = s_SessionID s;
  io_over : over (s_State s) = true -> s_State s' = s_State s;
  io_interrupted : over (s_State s) = false ->
    s_State s' = SessionStopped /\ s_StopReason s' = StopSupervisorRestarted
    \/ s_State s' = SessionExited /\ s_State s = SessionStarting /\ s_Generation s = 1 /\ s_ChildPID s <= 0;
  io_child : 0 < s_ChildPID s' -> s_ChildPID s' = s_ChildPID s /\ still_there h s }.

(** ** Lemmas *)

Lemma ws_mono {A : Type} (p : RM A) h st (Q Q' : rhist -> records -> A -> Prop) :
  with_store p h st Q -> (forall h' st' a, Q h' st' a -> Q' h' st' a) -> with_store p h st Q'.
Proof. revert h st. induction p as [a|X e k IH]; intros h st; cbn; [auto|]. intros Hp HQ x st' Ha. apply IH; auto. Qed.

Lemma ws_bind {A B : Type} (p : RM A) (f : A -> RM B) h st Q :
  with_store p h st (fun h' st' a => with_store (f a) h' st' Q) -> with_store (p ≫= f) h st Q.
Proof. revert h st. induction p as [a|X e k IH]; intros h st; [done|]. intros Hp x st' Ha. by apply IH, Hp. Qed.

Lemma ws_call {X A : Type} (e : StartEff X) (f : X -> RM A) h st Q :
  (forall x st', answers h st e x st' -> with_store (f x) (Ev e x :: h) st' Q) -> with_store (call e ≫= f) h st Q.
Proof. intros H x st' Ha. by apply H. Qed.

(** Calls that leave the records alone. *)
Definition leaves {A : Type} (p : RM A) : Prop :=
  forall h st (Q : rhist -> records -> A -> Prop), (forall h' a, h `suffix_of` h' -> Q h' st a) -> with_store p h st Q.

Lemma leaves_ret {A : Type} (a : A) : leaves (mret a).
Proof. intros h st Q HQ. by apply HQ. Qed.
Lemma leaves_bind {A B : Type} (p : RM A) (f : A -> RM B) : leaves p -> (forall a, leaves (f a)) -> leaves (p ≫= f).
Proof. intros Hp Hf h st Q HQ. apply ws_bind, Hp. intros h' a Hs. apply Hf. intros h'' b Hs'. apply HQ. by etrans. Qed.
Lemma leaves_call {X : Type} (e : StartEff X) : (forall h st x st', answers h st e x st' -> st' = st) -> leaves (call e).
Proof. intros He h st Q HQ x st' Ha. rewrite (He _ _ _ _ Ha). by apply HQ, suffix_cons_r. Qed.

Lemma leaves_if {A : Type} (b : bool) (p q : RM A) : leaves p -> leaves q -> leaves (if b then p else q).
Proof. by destruct b. Qed.

Lemma brought_later h h' s s' : h `suffix_of` h' -> brought_in_order h s s' -> brought_in_order h' s s'.
Proof.
  intros Hs [H1 H2 H3 H4]. split; [done|done|done|]. intros Hp. destruct (H4 Hp) as (He & Ha & startedAt & Hst & Hw). split; [done|].
  split; [by eapply in_later|]. exists startedAt. split; [by eapply in_later|done].
Qed.

(** An update of the record [s]: without an error the changed record is in its place. *)
Lemma update_with_store id update s h st (Q : rhist -> records -> option error -> Prop) :
  st !! id = Some s ->
  (forall s', update s = Ok s' -> s_SessionID s' = id) ->
  (forall h' st' err, err <> None -> Q h' st' err) ->
  (forall h' s', h `suffix_of` h' -> update s = Ok s' -> Q h' (<[id := s']> st) None) ->
  with_store (UpdateSessionWith id update) h st Q.
Proof.
  intros Hst Hid Herr HQ. unfold UpdateSessionWith. apply ws_call. intros [] st1 ->. apply ws_bind.
  apply (ws_mono _ _ _ (fun h' st' err => err <> None \/ err = None /\ h `suffix_of` h' /\ exists s', update s = Ok s' /\ st' = <[id := s']> st)).
  2:{ intros h' st' err Hr. apply ws_call. intros [] st2 ->. destruct Hr as [Hr|(-> & Hs & s' & Hu & ->)]; [by apply Herr|].
      apply HQ; [by apply suffix_cons_r|done]. }
  apply ws_call. intros [s0|err] st1 [-> Hl]; [|by left]. rewrite Hst in Hl. injection Hl as <-.
  apply ws_call. intros [before|err] st1 [-> Hb]; [|by left]. destruct (update s) as [s'|err] eqn:Eu; [|by left].
  apply ws_call. intros [after|err] st1 [-> Ha]; [|by left]. destruct (bool_decide_reflect (before = after)) as [<-|_].
  - right. split; [done|]. split; [by do 4 apply suffix_cons_r|]. exists s'. split; [done|].
    assert (s = s') as <- by (apply Ha; by left). by rewrite insert_id.
  - intros [err|] st1; [by left|]. intros [->|[? _]]; [|done]. right. split; [done|]. split; [by do 5 apply suffix_cons_r|].
    exists s'. split; [done|]. by rewrite (Hid s').
Qed.

Lemma over_is_over s : over s = false -> is_over s = false.
Proof. unfold over, is_over. by destruct (bool_decide (s = SessionStopped)). Qed.

Lemma apply_keeps_id event c now s s' : apply event c now s = Ok s' -> event <> EventResume -> s_SessionID s' = s_SessionID s.
Proof.
  unfold apply. intros E He. destruct (Apply_cases event c now s) as [_ ?|Hs|_ ? _|c' to Ht _ Hs _]; try done.
  - destruct (Apply event c now s) as [s1 [[]|]]; [|done]. cbn in Hs. congruence.
  - destruct (Apply event c now s) as [s1 [[]|]]; [|done]. injection E as <-. cbn [fst] in Hs. subst s1.
    unfold Apply_accepted, set_stop_scope. unfold_monads. destruct_ifs; done.
Qed.

Lemma restart_stops c now s s' :
  apply EventStop c now s = Ok s' -> over (s_State s) = false ->
  s_State s' = SessionStopped /\ s_StopReason s' = c_StopReason c /\ s_ChildPID s' = s_ChildPID s.
Proof.
  intros E Ho. destruct (apply_ok _ _ _ _ _ E) as (Hp & c1 & Ht1); [done|]. apply over_is_over in Ho as Ho'.
  assert (s_State s' = SessionStopped) as Hst by (by eapply stop_stops). split; [done|]. split; [|done].
  assert (s_State s <> SessionStopped) as Hne by (intros Hs; by rewrite Hs in Ho).
  unfold apply in E. destruct (Apply_cases EventStop c now s) as [_ ?|Hs|_ ? _|c' to Ht Hc Hs _]; try done.
  - destruct (Apply EventStop c now s) as [s1 [[]|]]; [|done]. cbn in Hs. congruence.
  - destruct (Apply EventStop c now s) as [s1 [[]|]]; [|done]. injection E as <-. cbn [fst] in Hs. subst s1.
    pose proof (stop_stops _ _ _ Ho' Ht) as ->. rewrite Apply_accepted_stops; [exact Hc|done|]. by destruct (s_State s).
Qed.

Lemma reconcile_exits c now s s' :
  apply EventReconcile c now s = Ok s' -> s_State s = SessionStarting -> s_State s' = SessionExited /\ s_ChildPID s' = s_ChildPID s.
Proof.
  intros E Hs. destruct (apply_ok _ _ _ _ _ E) as (Hp & c1 & Ht); [done|]. split; [|done]. rewrite Hs in Ht. cbn in Ht. by case_match; simplify_eq.
Qed.

Section Reconcile.
Context (u : ReconcileOnStartupUseCase).

Lemma leaves_record_event id e : leaves (record_event u id e).
Proof. unfold record_event. destruct (rs_RecordStructured u); [|apply leaves_ret]. apply leaves_bind; [by apply leaves_call|intros; apply leaves_ret]. Qed.

Lemma leaves_startup_event id kind reason : leaves (startup_event u id kind reason).
Proof.
  unfold startup_event. apply leaves_bind; [apply leaves_record_event|]. intros []. destruct (rs_Notify u); [by apply leaves_call|apply leaves_ret].
Qed.

Lemma orphan_with_store s h st (Q : rhist -> records -> bool -> Prop) :
  (forall h' orphan, h `suffix_of` h' -> (orphan = true -> still_there h' s) -> Q h' st orphan) -> with_store (orphan_alive u s) h st Q.
Proof.
  intros HQ. unfold orphan_alive. destruct (0 <? s_ChildPID s); [|by apply HQ].
  apply ws_call. intros [|] st1 ->; [|by apply HQ; [apply suffix_cons_r|]]. apply ws_call. intros startedAt st1 ->.
  match goal with |- with_store (if ?b then _ else _) _ _ _ => destruct b eqn:E end; [|by apply HQ; [do 2 apply suffix_cons_r|]].
  apply ws_bind, leaves_startup_event. intros h' [] Hs. apply HQ; [etrans; [|exact Hs]; by do 2 apply suffix_cons_r|]. intros _.
  split; [eapply in_later; [exact Hs|]; right; by left|]. exists startedAt. split; [eapply in_later; [exact Hs|]; by left|].
  intros a b -> Hb. by rewrite Hb in E.
Qed.

Lemma reload_with_store s h st s' (Q : rhist -> records -> res ManagedSession -> Prop) :
  st !! s_SessionID s = Some s' -> (forall h' err, Q h' st (Err err)) -> (forall h', h `suffix_of` h' -> Q h' st (Ok s')) ->
  with_store (reload s) h st Q.
Proof.
  intros Hst Herr HQ [s0|err] st1 [-> Hl]; [|apply Herr]. rewrite Hst in Hl. injection Hl as <-. by apply HQ, suffix_cons_r.
Qed.

Lemma forget_with_store s orphan h st (Q : rhist -> records -> res ManagedSession -> Prop) :
  st !! s_SessionID s = Some s ->
  (forall h' st' err, Q h' st' (Err err)) ->
  (forall h' s', h `suffix_of` h' -> s_SessionID s' = s_SessionID s -> s_State s' = s_State s -> s_Generation s' = s_Generation s ->
     (0 < s_ChildPID s' -> orphan = true /\ s_ChildPID s' = s_ChildPID s) -> Q h' (<[s_SessionID s := s']> st) (Ok s')) ->
  with_store (forget_child s orphan) h st Q.
Proof.
  intros Hst Herr HQ. unfold forget_child. destruct ((0 <? s_ChildPID s) && negb orphan) eqn:E.
  - apply ws_bind. eapply update_with_store; [exact Hst|by intros s' [= <-]|intros h' st' [err|] Hne; [apply Herr|done]|].
    intros h' s' Hs [= <-]. eapply reload_with_store; [by rewrite lookup_insert_eq|intros; apply Herr|]. intros h2 Hs2.
    apply HQ; [by etrans|done|done|done|by cbn].
  - rewrite <- (insert_id st (s_SessionID s) s Hst). apply HQ; [done|done|done|done|]. intros Hp. split; [|done].
    destruct orphan; [done|]. rewrite andb_true_r in E. lia.
Qed.

Lemma interrupt_with_store now s had h st (Q : rhist -> records -> res ManagedSession -> Prop) :
  st !! s_SessionID s = Some s -> over (s_State s) = false ->
  (forall h' st' err, Q h' st' (Err err)) ->
  (forall h' s', h `suffix_of` h' -> s_SessionID s' = s_SessionID s -> s_ChildPID s' = s_ChildPID s ->
     s_State s' = SessionStopped /\ s_StopReason s' = StopSupervisorRestarted
     \/ s_State s' = SessionExited /\ s_State s = SessionStarting /\ s_Generation s = 1 /\ had = false ->
     Q h' (<[s_SessionID s := s']> st) (Ok s')) ->
  with_store (interrupt u now s had) h st Q.
Proof.
  intros Hst Ho Herr HQ. unfold interrupt. cbv zeta.
  set (event := startup_transition s had). set (c := no_context <| c_Generation := s_Generation s |> <| c_StopReason := StopSupervisorRestarted |>).
  assert (event <> EventResume) as Hev by (unfold event, startup_transition; by destruct (_ && _)).
  apply ws_bind. eapply update_with_store; [exact Hst|intros s' Ha; by apply (apply_keeps_id _ _ _ _ _ Ha)|intros h' st' [err|] Hne; [apply Herr|done]|].
  intros h1 s' Hs1 Ha. pose proof (apply_keeps_id _ _ _ _ _ Ha Hev) as Hid.
  apply ws_bind. eapply reload_with_store; [by rewrite lookup_insert_eq|intros; apply Herr|]. intros h2 Hs2.
  apply ws_bind. apply (leaves_if _ _ _ (leaves_ret tt) (leaves_record_event _ _)).
  intros h3 [] Hs3. apply ws_bind.
  apply (leaves_if _ _ _ (leaves_record_event _ _) (leaves_startup_event _ _ _)).
  intros h4 [] Hs4. apply HQ; [do 3 (etrans; [|eassumption]); done|done|by apply (apply_ok _ _ _ _ _ Ha)|].
  unfold event, startup_transition in Ha. destruct (bool_decide (s_State s = SessionStarting) && negb had && (s_Generation s =? 1)) eqn:E.
  - apply andb_true_iff in E as [[E1 E2]%andb_true_iff E3]. apply bool_decide_eq_true in E1. right. apply negb_true_iff in E2.
    split; [by apply (reconcile_exits _ _ _ _ Ha)|]. split; [done|]. split; [lia|done].
  - left. by destruct (restart_stops _ _ _ _ Ha Ho) as (H1 & H2 & _).
Qed.

Lemma one_with_store now s h st (Q : rhist -> records -> res ManagedSession -> Prop) :
  st !! s_SessionID s = Some s ->
  (forall h' st' err, Q h' st' (Err err)) ->
  (forall h' s', h `suffix_of` h' -> brought_in_order h' s s' -> over (s_State s') = true -> Q h' (<[s_SessionID s := s']> st) (Ok s')) ->
  with_store (reconcile_one u now s) h st Q.
Proof.
  intros Hst Herr HQ. unfold reconcile_one. cbv zeta. apply ws_bind, orphan_with_store. intros h1 orphan Hs1 Horphan.
  apply ws_bind, forget_with_store; [done|intros; apply Herr|]. intros h2 s2 Hs2 Hid2 Hstate2 Hgen2 Hchild2.
  assert (0 < s_ChildPID s2 -> s_ChildPID s2 = s_ChildPID s /\ still_there h2 s) as Hchild.
  { intros Hp. destruct (Hchild2 Hp) as [Ho Hc]. split; [done|]. destruct (Horphan Ho) as (Ha & startedAt & Hsa & Hw).
    split; [by eapply in_later|]. exists startedAt. split; [by eapply in_later|done]. }
  destruct (over (s_State s2)) eqn:Eo.
  - apply HQ; [by etrans| |done]. split; [done|done| |done]. intros Hn. by rewrite <- Hstate2, Eo in Hn.
  - eapply interrupt_with_store; [by rewrite Hid2, lookup_insert_eq|done|intros; apply Herr|].
    intros h3 s3 Hs3 Hid3 Hchild3 Hstate3. rewrite Hid2, insert_insert_eq. apply HQ; [by do 2 (etrans; [|eassumption])| |].
    + eapply brought_later; [exact Hs3|]. split; [congruence|by rewrite <- Hstate2, Eo| |by rewrite Hchild3].
      intros _. destruct Hstate3 as [?|(H1 & H2 & H3 & H4)]; [by left|right]. rewrite <- Hstate2, <- Hgen2. split; [done|]. split; [done|]. split; [done|]. lia.
    + destruct Hstate3 as [[-> _]|[-> _]]; done.
Qed.

Lemma all_with_store now todo h st (Q : rhist -> records -> res (list ManagedSession) -> Prop) :
  NoDup (s_SessionID <$> todo) -> (forall s, s ∈ todo -> st !! s_SessionID s = Some s) ->
  (forall h' st' err, Q h' st' (Err err)) ->
  (forall h' st' sessions, h `suffix_of` h' -> Forall2 (brought_in_order h') todo sessions ->
     Forall (fun s' => over (s_State s') = true /\ st' !! s_SessionID s' = Some s') sessions ->
     (forall id, id ∉ (s_SessionID <$> todo) -> st' !! id = st !! id) -> Q h' st' (Ok sessions)) ->
  with_store (reconcile_all u now todo) h st Q.
Proof.
  revert h st Q. induction todo as [|s todo IH]; intros h st Q Hnd Hst Herr HQ; [by apply HQ|].
  apply list.NoDup_cons in Hnd as [Hs Hnd]. cbn [reconcile_all]. apply ws_bind, one_with_store; [apply Hst; by left|intros; apply Herr|].
  intros h1 s' Hs1 Hio Ho. pose proof (io_id _ _ _ Hio) as Hid. apply ws_bind, IH; [done| |intros; apply Herr|].
  { intros s2 Hs2. rewrite lookup_insert_ne; [apply Hst; by right|]. intros E. apply Hs. rewrite E. by apply list_elem_of_fmap_2. }
  intros h2 st2 sessions Hs2 Hf Hall Hrest. apply HQ.
  - by etrans.
  - constructor; [by eapply brought_later|done].
  - constructor; [|done]. split; [done|]. rewrite Hrest, Hid; [by rewrite lookup_insert_eq|by rewrite Hid].
  - intros id Hid2. apply not_elem_of_cons in Hid2 as [Hne Hin]. rewrite Hrest by done. by rewrite lookup_insert_ne.
Qed.

Lemma add_corrupt_over now sessions ids :
  Forall (fun s => over (s_State s) = true) sessions -> Forall (fun s => over (s_State s) = true) (foldl (add_corrupt now) sessions ids).
Proof.
  revert sessions. induction ids as [|id ids IH]; intros sessions Hs; [done|]. cbn [foldl]. apply IH. unfold add_corrupt.
  destruct (existsb _ _); [done|]. apply list.Forall_app. split; [done|]. by repeat constructor.
Qed.

Lemma add_corrupt_keeps now sessions ids s : s ∈ sessions -> s ∈ foldl (add_corrupt now) sessions ids.
Proof.
  revert sessions. induction ids as [|id ids IH]; intros sessions Hs; [done|]. cbn [foldl]. apply IH. unfold add_corrupt.
  destruct (existsb _ _); [done|]. apply elem_of_app. by left.
Qed.

Lemma add_corrupt_new now sessions ids id :
  id ∈ ids -> exists s, s ∈ foldl (add_corrupt now) sessions ids /\ s_SessionID s = id.
Proof.
  revert sessions. induction ids as [|i ids IH]; intros sessions Hin; [by inversion Hin|]. cbn [foldl].
  apply list.elem_of_cons in Hin as [->|Hin]; [|by apply IH]. unfold add_corrupt at 2. destruct (existsb _ _) eqn:E.
  - apply existsb_exists in E as (s & Hs & Heq). apply String.eqb_eq in Heq. exists s. split; [|done]. apply add_corrupt_keeps. by apply list_elem_of_In.
  - exists (corrupt_session i now). split; [|done]. apply add_corrupt_keeps. apply elem_of_app. right. by left.
Qed.
End Reconcile.

(** What the start leaves behind: every record has been brought in order, none is lost or new,
    and nothing that is answered is still running. *)
Definition all_in_order (st : records) (h : rhist) (st' : records) (r : res (list ManagedSession)) : Prop :=
  match r with
  | Err _ => True
  | Ok sessions =>
      (forall id, match st !! id, st' !! id with
                  | Some s, Some s' => brought_in_order h s s' /\ over (s_State s') = true /\ s' ∈ sessions
                  | None, None => True
                  | _, _ => False
                  end)
      /\ Forall (fun s => over (s_State s) = true) sessions
      /\ exists listed corrupt old, Ev List (Ok (listed, corrupt, old)) ∈ h
           /\ forall id, id ∈ corrupt ++ old -> exists s, s ∈ sessions /\ s_SessionID s = id
  end.


Definition example_records : records :=
  {[ "repo-1" := example_session <| s_State := SessionWorking |> <| s_ChildPID := 7 |> ]}.


(** A run in which nothing fails and the child is gone. *)
Definition example_answer {X : Type} (e : StartEff X) (st : records) : X * records :=
  match e in StartEff X return X * records with
  | List => (Ok ((map_to_list st).*2, ["broken"%string], []), st)
  | LockRecord _ | UnlockRecord _ | BindQuarantine | NotifyEvent _ _ => (tt, st)
  | LoadRecord id => (match st !! id with Some s => Ok s | None => Err (Sentinel ErrSessionNotFound) end, st)
  | SaveRecord s => (None, <[s_SessionID s := s]> st)
  | MarshalRecord s => (Ok (SupervisorSessionState_string (s_State s) +:+ (if s_ChildPID s =? 0 then "" else "+")), st)
  | StartNow => (9, st)
  | IsAlive _ => (false, st)
  | ProcessStartedAt _ => (None, st)
  | RecordEvent_ _ _ | RepairFromSessions _ => (None, st)
  | RangeSet ids => (ids, st)
  end.

Fixpoint example_exec {A : Type} (p : RM A) (st : records) : records * A :=
  match p with
  | Ret a => (st, a)
  | Vis e k => let (x, st) := example_answer e st in example_exec (k x) st
  end.

Example startup_run :
  (example_exec (Reconcile_Execute (mkReconcile true true true true)) example_records).2 =
    Ok [example_session <| s_State := SessionStopped |> <| s_StateSince := 9 |> <| s_StopReason := StopSupervisorRestarted |>
          <| s_PreviousState := SessionWorking |>; corrupt_session "broken" 9].
Proof. vm_compute. reflexivity. Qed.
