(* ===== verification/ObserveEff.v ===== *)
(** * What the observer of a session calls ([internal/supervisor/usecase/observe_session.go],
    [detect_state.go])

    The effects of the observer, the update of the session record with them, and the use
    case that detects the state of a session from its screen and its status line. *)

From S2P Require Import Prelude.
From S2P Require Import GoStrings.
From S2P Require Import Errors.
From S2P Require Import Session.
From S2P Require Import TextPolicy.
From S2P Require Import SendGate.
From S2P Require Import VTerm.
From S2P Require Import Detect.
From S2P Require Import Screens.
From S2P Require Import Sends.
From S2P Require Import Effects.
From S2P Require Import SupEff.

(** Which case of the [select] ran: the git phase of a stay has ended, the evaluation of a
    commit has ended, the child has exited, the terminal was read, the ticker, the context. *)
Inductive observed_case : Type :=
| GitPhaseDone (since : Time)
| CommitEvaluationDone
| ChildExited (code : Z) (failed : bool)
| TerminalRead (data : list Z)
| ObserverTick
| ObserverDone (err : error).

(** A decoded status line; [UsedPercentage] is nil or a number. *)
Record statuslineRecord : Type := mkStatusline {
  sl_SchemaVersion : Z;
  sl_ObservedAt : Time;
  sl_UsedPercentage : option Z;
  sl_ClaudeSessionID : string }.

(** What is handed to the automatic continuation. *)
Record ContinueInput : Type := mkContinueInput {
  co_Rows : list row;
  co_ContextPercent : option Z;
  co_StaySince : Time }.

Inductive Obs : Type -> Type :=
(* the effects of the session use cases *)
| Sup {X : Type} (e : SupEff.Eff X) : Obs X
(* the senders: their mutex, and the commit of an exit that is waited for *)
| Mu {X : Type} (f : Sends -> Sends * X) : Obs X
| WaitCommit (commit : nat) : Obs unit
| RecordSendEvent (e : StoreEvent) : Obs (option error)
(* the loop *)
| PendingDone : Obs bool
| Select : Obs observed_case
(* the detector and the status line *)
| Detector_Detect (i : DetectInput) : Obs (res DetectResult)
| ReadStatuslineFile : Obs (res statuslineRecord)
| StatuslineAt : Obs (option Time)
(* the terminal, its registry and the children of this process *)
| PTYs_ShuttingDown : Obs bool
| PTYs_IsCurrent : Obs bool
| PTYs_IsStopping : Obs bool
| PTYs_Remove : Obs unit
| PTYs_RemoveCurrent : Obs unit
| ForgetChild : Obs unit
| ClosePTY : Obs unit
| TerminateChild : Obs unit
| AwaitChildInGrace : Obs bool
| KillChild : Obs unit
| AwaitChild : Obs unit
(* what is remembered of the session outside its record *)
| NextScreenOwner : Obs Z
| Screens_Set (shot : ScreenSnapshot) (owner : Z) : Obs unit
| Screens_Delete (owner : Z) : Obs unit
| Observed_Set (state : DetectedState) : Obs unit
| Observed_Delete : Obs unit
| ContextPercent_Set (percent : option Z) : Obs unit
| ContextPercent_Delete : Obs unit
| SelectionOf (rows : list row) : Obs (bool * row)
| PermissionPending_Observe (state : SupervisorSessionState) (since now : Time) : Obs (option error)
| AutoContinue_entered (since : Time) : Obs unit
| AutoContinue_EvaluateAsync (i : ContinueInput) : Obs unit
| InitialRemoteControl_OnStateChange (previous : SupervisorSessionState) (s : ManagedSession) : Obs (option error)
| InitialRemoteControl_warnFailure (s : ManagedSession) : Obs unit
| InitialRemoteControl_EndSession : Obs unit
(* the other use cases are bound to the observer *)
| RegisterGitPhase : Obs unit
| UnregisterGitPhase : Obs unit
| BindAutoContinue : Obs unit
| BindPermissionPending : Obs unit
| BindQuarantine : Obs unit
(* the evaluation of a commit *)
| EvaluateCommit : Obs (option error)
| SetGitPhaseReported (since : Time) : Obs unit
| GetGitPhaseReported (since : Time) : Obs bool
| SignalGitPhase (since : Time) : Obs unit
| SignalCommitEvaluation : Obs unit
(* the worker of the rotation *)
| Rotation_IsRunning : Obs bool
| Rotation_Wake : Obs unit
| Rotation_DeleteWake : Obs unit
| Rotation_EndSession : Obs unit
(* goroutines *)
| GoRead : Obs unit
| GoWait : Obs unit
| StopReader : Obs unit
| GoRotationRun : Obs unit
| GoRotationExecute : Obs unit
| GoEvaluateCommit (since : Time) : Obs unit
| GoPendingRemoteControl (observed : DetectedState) : Obs unit
| GoInitialRemoteControl (previous : SupervisorSessionState) (s : ManagedSession) : Obs unit
| GoRecover : Obs unit
| Warn (message : string) : Obs unit.

Abbreviation OM := (prog Obs).

(** What the session use cases do, here. *)
Fixpoint ob {A : Type} (p : SupEff.M A) : OM A :=
  match p with
  | Ret a => Ret a
  | Vis e k => Vis (Sup e) (fun x => ob (k x))
  end.

Definition obs_now : OM Time := ob (call SupEff.Now).
Definition obs_load : OM (res ManagedSession) := ob (call SupEff.LoadSession).
Definition obs_panic {A : Type} : OM A := ob SupEff.panic.
Definition obs_out_of_fuel {A : Type} : OM A := ob SupEff.out_of_fuel.

(** [UpdateSession] with a change that calls more than the session use cases do: the error,
    and what the change has left behind if it was called.  A record that has not been
    changed is not saved. *)
Definition ObUpdateSession {A : Type} (update : ManagedSession -> OM (ManagedSession * A * option error)) : OM (option error * option A) :=
  ob (call LockRecord);;
  r ← (session ← obs_load;
       match session with
       | Err err => mret (Some err, None)
       | Ok session =>
           before ← ob (call (Marshal session));
           match before with
           | Err err => mret (Some err, None)
           | Ok before =>
               '(session, a, err) ← update session;
               match err with
               | Some _ => mret (err, Some a)
               | None =>
                   after ← ob (call (Marshal session));
                   match after with
                   | Err err => mret (Some err, Some a)
                   | Ok after =>
                       if bool_decide (before = after) then mret (None, Some a)
                       else err ← ob (call (SaveSession session)); mret (err, Some a)
                   end
               end
           end
       end);
  ob (call UnlockRecord);;
  mret r.

Definition ObUpdateSession_ (change : ManagedSession -> ManagedSession) : OM (option error) :=
  '(err, _) ← ObUpdateSession (fun v => mret (change v, tt, None));
  mret err.

(** ** [updateExitSession] with an update that may fail

    [fuel] bounds the commits of others that are waited for. *)
Fixpoint obUpdateExitSession {A : Type} (fuel : nat) (update : ManagedSession -> OM (ManagedSession * (A * exitCommit) * option error))
    {struct fuel} : OM (option error * option (A * exitCommit)) :=
  r ← ObUpdateSession (fun v =>
    waiting ← call (Mu (fun s => (s, exit_waiting s)));
    match waiting with
    | Some commit => mret (v, inl commit, Some (Sentinel errExitSavePending))
    | None => '(v, a, err) ← update v; mret (v, inr a, err)
    end);
  match r with
  | (_, Some (inl commit)) =>
      call (WaitCommit commit);;
      match fuel with
      | O => obs_out_of_fuel
      | S fuel => obUpdateExitSession fuel update
      end
  | (err, Some (inr (a, tx))) =>
      (if is_some (tx_record tx) then call (Mu (fun s => (finishExit tx (is_none err) s, tt))) else mret tt);;
      match err with
      | Some _ => mret (err, Some (a, mkCommit (tx_record tx) (tx_result tx) false None))
      | None => mret (None, Some (a, tx))
      end
  | (err, None) => mret (err, None)
  end.

(** ** The detection ([detect_state.go]) *)

Definition is_hex (c : ascii) : bool := is_lower_hex c || char_in "A" "F" c.

(** [^[0-9a-fA-F]{8}-[0-9a-fA-F]{4}-[0-9a-fA-F]{4}-[0-9a-fA-F]{4}-[0-9a-fA-F]{12}$] *)
Definition claudeSessionUUID (s : string) : bool :=
  let parts := Split s "-" in
  bool_decide (map String.length parts = [8; 4; 4; 4; 12]%nat) && forallb (str_forall is_hex) parts.

(** The file is a regular one, is opened and read, and decodes. *)
Definition readStatusline : OM (res statuslineRecord) :=
  r ← call ReadStatuslineFile;
  mret match r with
       | Err err => Err err
       | Ok rec =>
           if negb (sl_SchemaVersion rec =? 1) || IsZero (sl_ObservedAt rec)
           then Err (Errorf "invalid statusline record" []) else Ok rec
       end.

Definition statuslineIsFresh (confirmed : option Time) (info : StructuredInfo) : bool :=
  if (UsedPercentage info <? 0) || (100 <? UsedPercentage info) || IsZero (si_ObservedAt info) then false
  else match confirmed with None => true | Some confirmed => negb (Before (si_ObservedAt info) confirmed) end.

(** Which of the fields of the use case are set. *)
Record DetectSessionStateUseCase : Type := mkDetectUseCase {
  ds_StateDir : string;
  ds_Sessions : bool;
  ds_Detector : bool }.

(** What the status line says: the information for the detector, or the identifier of the
    session if it says nothing of the context. *)
Definition statusline_info (s : ManagedSession) (now : Time) (r : res statuslineRecord) : option StructuredInfo * string :=
  match r with
  | Err _ => (None, ""%string)
  | Ok rec =>
      if match sl_UsedPercentage rec with Some percent => (0 <=? percent) && (percent <=? 100) | None => true end then
        let id := if claudeSessionUUID (sl_ClaudeSessionID rec) then sl_ClaudeSessionID rec else ""%string in
        let info := mkStructured (sl_ObservedAt rec) 0 id in
        let startedAt := default (s_StateSince s) (s_ChildStartedAt s) in
        if negb (Before (sl_ObservedAt rec) startedAt) && negb (After (sl_ObservedAt rec) (now + 5 * Second))
           && statuslineIsFresh (sg_LastConfirmedAt (s_SendGate s)) info
        then match sl_UsedPercentage rec with
             | Some percent => (Some (mkStructured (sl_ObservedAt rec) percent id), ""%string)
             | None => (None, id)
             end
        else (None, ""%string)
      else (None, ""%string)
  end.

Definition Detect_Execute (u : DetectSessionStateUseCase) (s : ManagedSession) (rows : list row) (changed : Time) (exited : bool)
    : OM (res DetectResult) :=
  if negb (ds_Detector u) then mret (Err (Errorf "detector is required" []))
  else
    now ← obs_now;
    r ← (if (ds_StateDir u =? "")%string then mret (Err (Errorf "" [])) else readStatusline);
    let '(info, unknownUsageSessionID) := statusline_info s now r in
    result ← call (Detector_Detect (mkDetectInput (s_CLI s) rows changed exited info (sg_LastConfirmedAt (s_SendGate s)) now None (fun _ => None)));
    match result with
    | Err err => mret (Err err)
    | Ok result =>
        let id := if (unknownUsageSessionID =? "")%string then dr_SessionID result else unknownUsageSessionID in
        let result := mkDetectResult (dr_State result) (Basis result) (ProcessingIndicator result) (ContextPercent result) id
                        (dr_PermissionMode result) in
        if negb (id =? "")%string && negb (id =? s_ClaudeSessionID s)%string && ds_Sessions u then
          err ← ObUpdateSession_ (fun v => v <| s_ClaudeSessionID := id |> <| s_PreviousClaudeSessionID := ""%string |>);
          mret (match err with Some err => Err err | None => Ok result end)
        else mret (Ok result)
    end.
