(* ===== verification/ObserveSession.v ===== *)
(** * The observer of a session ([internal/supervisor/usecase/observe_session.go])

    One loop for each child: it reads the terminal, has the state of the session detected,
    moves the record on, tells the senders what is on the screen, and starts the rotation,
    the evaluation of a commit, the automatic continuation and the recovery, until the child
    has exited.

    The local variables of [Run] are a record, and a part of the loop is a program that
    changes it and may return from [Run]. *)

From S2P Require Import Prelude.
From S2P Require Import GoStrings.
From S2P Require Import Errors.
From S2P Require Import Session.
From S2P Require Import TextPolicy.
From S2P Require Import SendGate.
From S2P Require Import VTerm.
From S2P Require Import Detect.
From S2P Require Import Screens.
From S2P Require Import Sends.
From S2P Require Import Effects.
From S2P Require Import Commit.
From S2P Require Import SupEff.
From S2P Require Import Rotate.
From S2P Require Import PlanRotation.
From S2P Require Import ObserveEff.

Definition defaultStartupTimeout : Duration := 120 * Second.
Definition undeterminedNotifyInterval : Duration := 300 * Second.

#[export] Instance Cell_eq_dec : EqDecision Cell.
Proof. solve_decision. Defined.

#[export] Instance PermissionMode_eq_dec : EqDecision PermissionMode.
Proof. solve_decision. Defined.

#[export] Instance DetectResult_settable : Settable DetectResult := fun r =>
  mkDetectResult (dr_State r) (Basis r) (ProcessingIndicator r) (ContextPercent r) (dr_SessionID r) (dr_PermissionMode r).

(** ** The use case and the local variables *)

(** Which of its fields are set, and the values that are looked at.  The screens are those of
    [ObservedScreenStore]; [ob_pty]: the terminal that the observer was given. *)
Record ObserveSessionUseCase : Type := mkObserveUseCase {
  ob_Detect : DetectSessionStateUseCase;
  ob_Sessions : bool;
  ob_Stop : bool;
  ob_Recover : bool;
  ob_SendInput : bool;
  ob_PTYs : bool;
  ob_Screens : bool;
  ob_InitialRemoteControl : bool;
  ob_Rotation : option RotateSessionUseCase;
  ob_AutoContinue : bool;
  ob_PermissionPending : bool;
  ob_CommitVerified : bool;
  ob_EvaluateCommit : bool;
  ob_PendingRemoteControl : bool;
  ob_RotationStatuslineAt : bool;
  ob_CompletionSelection : bool;
  ob_RecordStructured : bool;
  ob_Observed : bool;
  ob_ContextPercent : bool;
  ob_Notify : bool;
  ob_StartupTimeout : Duration;
  ob_UndeterminedNotifyAfter : Duration;
  ob_pty : PTYWriter;
  ob_pty_writes : bool;
  ob_pty_kills : bool }.

Record ObsState : Type := mkObsState {
  o_vt : VirtualTerminal;
  o_screenOwner : Z;
  o_lastChange : Time;
  o_observation : Z;
  o_exited : bool;
  o_exitCode : option Z;
  o_undeterminedSince : Time;
  o_undeterminedNotified : bool;
  o_lastIllegal : string;
  o_rotationPendingSince : option Time;
  o_rotationIdleWaitNotified : bool;
  o_rotationDecisionState : SupervisorSessionState;
  o_rotationDecisionSince : Time;
  o_rotationContextUnknownRecorded : bool;
  o_rotationNotApplicableRecorded : bool;
  o_pendingInFlight : bool;
  o_commitSince : Time;
  o_recommendationSince : Time;
  o_commitStarted : bool;
  o_commitInFlight : bool;
  o_autoAttempted : bool;
  o_contextWasKnown : bool;
  o_permissionWarnedSince : Time;
  o_lastDetected : DetectedState;
  o_armed : bool;
  o_exitEventErr : option error }.

#[export] Instance ObsState_settable : Settable ObsState := fun o =>
  mkObsState (o_vt o) (o_screenOwner o) (o_lastChange o) (o_observation o) (o_exited o) (o_exitCode o) (o_undeterminedSince o)
    (o_undeterminedNotified o) (o_lastIllegal o) (o_rotationPendingSince o) (o_rotationIdleWaitNotified o)
    (o_rotationDecisionState o) (o_rotationDecisionSince o) (o_rotationContextUnknownRecorded o)
    (o_rotationNotApplicableRecorded o) (o_pendingInFlight o) (o_commitSince o) (o_recommendationSince o)
    (o_commitStarted o) (o_commitInFlight o) (o_autoAttempted o) (o_contextWasKnown o) (o_permissionWarnedSince o)
    (o_lastDetected o) (o_armed o) (o_exitEventErr o).

(** A part of [Run]: it changes the variables, and goes on with a value or returns. *)
Definition Part (A : Type) : Type := ObsState -> OM (ObsState * (option error + A)).

#[export] Instance Part_mret : MRet Part := fun A a o => mret (o, inr a).
#[export] Instance Part_mbind : MBind Part := fun A B f p o =>
  r ← p o;
  match r.2 with inl err => mret (r.1, inl err) | inr a => f a r.1 end.

Definition lift {A : Type} (p : OM A) : Part A := fun o => a ← p; mret (o, inr a).
Definition leave {A : Type} (err : option error) : Part A := fun o => mret (o, inl err).
Definition vars : Part ObsState := fun o => mret (o, inr o).
Definition set_vars (f : ObsState -> ObsState) : Part unit := fun o => mret (f o, inr tt).

(** What the code does if a field is set, and after an error. *)
Definition only (b : bool) (p : Part unit) : Part unit := if b then p else mret tt.
Definition when_set (b : bool) (p : OM unit) : OM unit := if b then p else mret tt.
Definition check_error (p : OM (option error)) : Part unit :=
  err ← lift p; match err with Some _ => leave err | None => mret tt end.
Definition value {A : Type} (p : OM (res A)) : Part A :=
  r ← lift p; match r with Ok a => mret a | Err err => leave (Some err) end.
(** A panic of the virtual terminal. *)
Definition some_or_panic {A : Type} (a : option A) : Part A :=
  match a with Some a => mret a | None => lift obs_panic end.

Definition noSelection : bool * row := (false, []).

Section Observe.
Context `{UnicodeTables} (u : ObserveSessionUseCase) (id : string) (initial : ManagedSession) (fuel : nat).

Definition startupTimeout : Duration := if ob_StartupTimeout u <=? 0 then defaultStartupTimeout else ob_StartupTimeout u.
Definition notifyAfter : Duration :=
  if ob_UndeterminedNotifyAfter u <=? 0 then undeterminedNotifyInterval else ob_UndeterminedNotifyAfter u.
Definition started : Time := default (s_StateSince initial) (s_ChildStartedAt initial).
Definition evaluates_commits : bool := ob_CommitVerified u || ob_EvaluateCommit u.

Definition recordEvent (kind : SupervisorEventKind) (code reason : string) (from to : SupervisorSessionState) : OM unit :=
  when_set (ob_RecordStructured u) (ob (call (RecordStructured (mkSupEvent kind code reason NoRotateStep from to None)));; mret tt);;
  when_set (ob_Notify u) (ob (call (Notify kind id))).

Definition recordKind (kind : SupervisorEventKind) : OM unit := recordEvent kind "" "" NoSessionState NoSessionState.

Definition rotationStatuslineAt : OM (option Time) :=
  if ob_RotationStatuslineAt u then call StatuslineAt
  else if (ds_StateDir (ob_Detect u) =? "")%string then mret None
  else r ← readStatusline; mret (match r with Ok rec => Some (sl_ObservedAt rec) | Err _ => None end).

Definition terminal (s : SupervisorSessionState) : bool := bool_decide (s = SessionExited) || bool_decide (s = SessionFailed).

(** ** What the [select] brings *)

(** The child that was asked to stop has exited. *)
Definition stop_exited (s : ManagedSession) : OM (ManagedSession * bool * option error) :=
  if bool_decide (s_State s = SessionExited) then mret (s, false, None)
  else
    now ← obs_now;
    match apply EventStopSession no_context now s with
    | Err err => mret (s, false, Some err)
    | Ok s => mret (s <| s_ChildPID := 0 |> <| s_ChildStartedAt := None |>, true, None)
    end.

(** The registry says that this exit is not to be handled, or was asked for. *)
Definition on_registered_exit : Part unit :=
  down ← lift (call PTYs_ShuttingDown);
  if (down : bool) then leave None
  else match ob_pty u with
  | observedPTY _ =>
      current ← lift (call PTYs_IsCurrent);
      if negb current then lift (call ForgetChild);; leave None
      else
        stopping ← lift (call PTYs_IsStopping);
        if (stopping : bool) then
          r ← lift (ObUpdateSession stop_exited);
          match r with
          | (Some err, _) => leave (Some err)
          | (None, changed) =>
              lift (call ForgetChild);;
              lift (when_set (default false changed)
                (recordEvent EventKindSessionExited "" "stop_session_requested" NoSessionState NoSessionState));;
              leave None
          end
        else mret tt
  | _ => mret tt
  end.

Definition on_exit (code : Z) (failed : bool) : Part unit :=
  set_vars (fun o => o <| o_exited := true |>);;
  lift obs_now;;
  only (ob_SendInput u && ob_PTYs u) on_registered_exit;;
  lift (call ForgetChild);;
  set_vars (fun o => o <| o_exitCode := Some (if failed then -1 else code) |>);;
  lift (call ClosePTY).

Definition all_cells (rows : list row) (vt : VirtualTerminal) : option (list (list Cell)) :=
  mapM (fun i => Cells i vt) (seqZ 0 (Z.of_nat (length rows))).

(** What the child has written: when the screen changed, if it did. *)
Definition on_read (data : list Z) : Part Time :=
  if (length data =? 0)%nat then mret zeroTime
  else
    set_vars (fun o => o <| o_observation := (o_observation o + 1) mod 2 ^ 64 |>);;
    updatedAt ← lift obs_now;
    o ← vars;
    before ← some_or_panic (Screen (o_vt o));
    beforeCells ← (if ob_SendInput u then some_or_panic (all_cells before (o_vt o)) else mret []);
    written ← some_or_panic (Write data (o_vt o));
    set_vars (fun o => o <| o_vt := written.1 |>);;
    after ← some_or_panic (Screen written.1);
    cellsChanged ← (if ob_SendInput u && bool_decide (before = after) then
                      afterCells ← some_or_panic (all_cells after written.1); mret (negb (bool_decide (beforeCells = afterCells)))
                    else mret false);
    if negb (bool_decide (before = after)) || cellsChanged then
      changed ← lift obs_now;
      set_vars (fun o => o <| o_lastChange := changed |>);;
      mret changed
    else mret updatedAt.

Record selection : Type := mkSelection { gitPhaseCompleted : Time; screenUpdatedAt : Time }.
Definition nothing : selection := mkSelection zeroTime zeroTime.

Definition on_select : Part selection :=
  done ← lift (call PendingDone);
  only done (set_vars (fun o => o <| o_pendingInFlight := false |>));;
  c ← lift (call Select);
  match c with
  | GitPhaseDone since => mret (mkSelection since zeroTime)
  | CommitEvaluationDone => set_vars (fun o => o <| o_commitInFlight := false |>);; mret nothing
  | ChildExited code failed => on_exit code failed;; mret nothing
  | TerminalRead data => at_ ← on_read data; mret (mkSelection zeroTime at_)
  | ObserverTick => mret nothing
  | ObserverDone err => leave (Some err)
  end.

(** ** The state of the session *)

(** A child that has run for a while takes the count of restarts back. *)
Definition stable (current s : ManagedSession) (now : Time) : bool :=
  (s_Generation s =? s_Generation current) && (s_ChildPID s =? s_ChildPID current) && (0 <? s_RestartCount s)
  && match s_ChildStartedAt s with Some at_ => RestartStable at_ now | None => false end.

Definition resetStableRestartCount (current : ManagedSession) (now : Time) : OM (option error) :=
  if (s_Generation current <? 2) || (s_RestartCount current =? 0) || (s_ChildPID current =? 0)
     || match s_ChildStartedAt current with Some at_ => negb (RestartStable at_ now) | None => true end
  then mret None
  else ObUpdateSession_ (fun s => if stable current s now then s <| s_RestartCount := 0 |> else s).

Definition detect_stage (current : ManagedSession) : Part DetectResult :=
  o ← vars;
  rows ← some_or_panic (Screen (o_vt o));
  result ← value (Detect_Execute (ob_Detect u) current rows (o_lastChange o) (o_exited o));
  only (ProcessingIndicator result) (set_vars (fun o => o <| o_armed := true |>));;
  o ← vars;
  let result := if negb (o_armed o) && bool_decide (dr_State result = StateAwaitingRecommendation)
                then result <| dr_State := StateIdle |> else result in
  only (ob_AutoContinue u && bool_decide (s_State current = SessionStopped) && bool_decide (o_lastDetected o = StateWorking)
        && bool_decide (dr_State result = StateAwaitingRecommendation))
    (now ← lift obs_now; lift (call (AutoContinue_entered now)));;
  set_vars (fun o => o <| o_lastDetected := dr_State result |>);;
  lift (when_set (ob_Observed u) (call (Observed_Set (dr_State result))));;
  mret result.

Definition observed_state (d : DetectedState) : SupervisorSessionState :=
  match d with
  | StateIdle => SessionIdle
  | StateAwaitingPermission => SessionAwaitingPermission
  | StateAwaitingRecommendation => SessionAwaitingRecommendation
  | StateExited => SessionExited
  | _ => SessionWorking
  end.

Definition observed_event (s : SupervisorSessionState) : option TransitionEvent :=
  match s with
  | SessionIdle => Some EventDetectorIdle
  | SessionWorking => Some EventDetectorWorking
  | SessionAwaitingPermission => Some EventDetectorPermission
  | SessionAwaitingRecommendation => Some EventDetectorRecommendation
  | _ => None
  end.

(** What the update of the record has found out. *)
Record change : Type := mkChange {
  ch_from : SupervisorSessionState;
  ch_next : option SupervisorSessionState;
  ch_illegal : string;
  ch_unsafe : bool;
  ch_pending : option PendingSend }.

(** [observeExit]: the exit is noted with the send, and its result is decided. *)
Definition observe_exit (s : ManagedSession) (p : PendingSend) : OM (ManagedSession * exitCommit) :=
  let owner := handoffPTYOwner (ob_pty u) in
  found ← call (Mu (observeExit p owner));
  if (found : bool) then at_ ← obs_now; call (Mu (decideExit s p owner false at_)) else mret (s, noCommit).

Definition exit_context (s : ManagedSession) (exitCode : option Z) (daily : Z) (state : SupervisorSessionState) : TransitionContext :=
  no_context <| c_CLI := s_CLI s |> <| c_Generation := s_Generation s |> <| c_ChildPID := s_ChildPID s |>
    <| c_ExitCode := default 0 exitCode |> <| c_HasPendingSend := is_some (sg_Pending (s_SendGate s)) |>
    <| c_ClaudeSessionID := negb (s_ClaudeSessionID s =? "")%string |>
    <| c_HasPreviousClaudeSessionID := negb (s_PreviousClaudeSessionID s =? "")%string |>
    <| c_RestartCount := s_RestartCount s |> <| c_DailyRestartCount := daily |> <| c_ObservedState := state |>.

Definition moved (previous : SupervisorSessionState) (s : ManagedSession) : option SupervisorSessionState :=
  if bool_decide (previous = s_State s) then None else Some (s_State s).

Definition update_exited (exitCode : option Z) (state from : SupervisorSessionState) (unsafe : bool) (s : ManagedSession)
    : OM (ManagedSession * (change * exitCommit) * option error) :=
  let pending := sg_Pending (s_SendGate s) in
  '(s, tx) ← match pending with
             | Some p => if bool_decide (ps_Kind p = SendKindHandoffExit) && ob_SendInput u then observe_exit s p else mret (s, noCommit)
             | None => mret (s, noCommit)
             end;
  let s := s <| s_ChildPID := 0 |> <| s_ChildStartedAt := None |> in
  let event := if bool_decide (s_State s = SessionRotating) then EventHandoffExit else EventUnexpectedExit in
  counted ← obs_now;
  now ← obs_now;
  match Apply event (exit_context s exitCode (RestartCountInWindow (s_RestartTimes s) counted) state) now s with
  | (s', Ok _) => mret (s', (mkChange from (moved (s_State s) s') "" unsafe pending, tx), None)
  | (s', Err _) => mret (s', (mkChange from None "" unsafe pending, tx), None)
  end.

Definition detector_context (s : ManagedSession) (state : SupervisorSessionState) : TransitionContext :=
  no_context <| c_Generation := s_Generation s |> <| c_ChildPID := s_ChildPID s |> <| c_ObservedState := state |>.

Definition started_up (d : DetectedState) : bool :=
  bool_decide (d = StateIdle) || bool_decide (d = StateAwaitingPermission) || bool_decide (d = StateAwaitingRecommendation).

(** The transition that the detector asks for: the record, the state it is now in if it has
    changed, and the transition if it is refused. *)
Definition apply_detected (d : DetectedState) (state : SupervisorSessionState) (s : ManagedSession)
    : OM (ManagedSession * option SupervisorSessionState * string) :=
  if bool_decide (d = StateUndetermined) then mret (s, None, ""%string)
  else match observed_event state with
  | None => mret (s, None, ""%string)
  | Some event =>
      now ← obs_now;
      mret (match Apply event (detector_context s state) now s with
            | (s', Ok _) => (s', moved (s_State s) s', ""%string)
            | (s', Err _) => (s', None, SupervisorSessionState_string (s_State s') +:+ "/" +:+ SupervisorSessionState_string state)
            end)
  end.

Definition apply_timeout (d : DetectedState) (from : SupervisorSessionState) (unsafe : bool)
    (r : ManagedSession * option SupervisorSessionState * string) : OM (ManagedSession * (change * exitCommit) * option error) :=
  let '(s, next, illegal) := r in
  let unchanged := (s, (mkChange from next illegal unsafe None, noCommit), None) in
  if bool_decide (s_State s = SessionStarting) then
    now ← obs_now;
    if (startupTimeout <=? Sub now started) && negb (started_up d) then
      at_ ← obs_now;
      match Apply EventStartupTimeout (no_context <| c_Generation := s_Generation s |>) at_ s with
      | (s', Ok _) => mret (s', (mkChange from (Some (s_State s')) illegal unsafe None, noCommit), None)
      | (s', Err err) => mret (s', (mkChange from next illegal unsafe None, noCommit), Some err)
      end
    else mret unchanged
  else mret unchanged.

(** [updateObserved] *)
Definition update_observed (o : ObsState) (result : DetectResult) (stopped : bool) (s : ManagedSession)
    : OM (ManagedSession * (change * exitCommit) * option error) :=
  let state := observed_state (dr_State result) in
  let from := s_State s in
  let unsafe := bool_decide (dr_PermissionMode result = PermissionUnsafe)
                && (AutoContinueDisabledReason_string (s_AutoContinueDisabledReason s) =? "")%string in
  let s := if unsafe then s <| s_AutoContinueDisabledReason := AutoContinueDisabledPermissionModeUnsafe |> else s in
  if o_exited o then update_exited (o_exitCode o) state from unsafe s
  else if stopped || bool_decide (s_State s = SessionStopped)
  then mret (s, (mkChange from None "" unsafe None, noCommit), None)
  else r ← apply_detected (dr_State result) state s; apply_timeout (dr_State result) from unsafe r.

Definition update_stage (result : DetectResult) (stopped : bool) : Part change :=
  o ← vars;
  r ← lift (if ob_SendInput u then obUpdateExitSession fuel (update_observed o result stopped)
            else ObUpdateSession (update_observed o result stopped));
  match r with
  | (None, Some (ch, tx)) =>
      match tx_event tx with
      | Some event =>
          only (ob_SendInput u && ob_RecordStructured u)
            (err ← lift (call (RecordSendEvent event)); set_vars (fun o => o <| o_exitEventErr := err |>))
      | None => mret tt
      end;;
      mret ch
  | (err, _) => leave err
  end.

(** ** The senders and what is on the screen *)

Definition notify_senders (sendID : string) (shot : ScreenSnapshot) (exited : bool) : OM unit :=
  call (Mu (fun s => (NotifyConfirmation (mkConfirmation id sendID shot exited) s, tt))).

Definition show_screen (result : DetectResult) (updatedAt : Time) : Part unit :=
  o ← vars;
  rows ← some_or_panic (TextRows (o_vt o));
  cells ← some_or_panic (all_cells rows (o_vt o));
  selection ← lift (if ob_CompletionSelection u then call (SelectionOf rows) else mret noSelection);
  now ← lift obs_now;
  let shot := mkShot (o_observation o) rows cells (dr_State result)
                (bool_decide (dr_State result = StateWorking) && existsb (fun b => bool_decide (b = DetectionScreenPattern)) (Basis result))
                selection.1 selection.2 now (o_lastChange o) in
  lift (when_set (ob_Screens u) (call (Screens_Set shot (o_screenOwner o))));;
  current ← value obs_load;
  match sg_Pending (s_SendGate current) with
  | Some p => only (negb (IsZero updatedAt)) (lift (notify_senders (ps_SendID p) shot false))
  | None => mret tt
  end.

Definition senders_stage (result : DetectResult) (ch : change) (updatedAt : Time) : Part unit :=
  o ← vars;
  only (ob_SendInput u)
    (if o_exited o then
       match ch_pending ch with Some p => lift (notify_senders (ps_SendID p) noShot true) | None => mret tt end
     else show_screen result updatedAt).

(** ** The rotation *)

Definition plan (current : ManagedSession) (result : DetectResult) (pendingSince : option Time) (stopped : bool) : OM RotationPlanDecision :=
  at_ ← rotationStatuslineAt;
  now ← obs_now;
  mret (Evaluate (mkPlanInput current result at_ (dr_State result) pendingSince stopped false now)).

Definition context_stage (current : ManagedSession) (result : DetectResult) : Part unit :=
  o ← vars;
  only (ob_ContextPercent u)
    (decision ← lift (plan current result None false);
     lift (call (ContextPercent_Set (if o_exited o || pd_ContextUnknown decision || pd_NotApplicable decision then None
                                     else ContextPercent result)))).

Definition decision_stage (current : ManagedSession) : Part unit :=
  o ← vars;
  only (negb (bool_decide (s_State current = o_rotationDecisionState o)) || negb (s_StateSince current =? o_rotationDecisionSince o))
    (set_vars (fun o => o <| o_rotationDecisionState := s_State current |> <| o_rotationDecisionSince := s_StateSince current |>
                          <| o_rotationContextUnknownRecorded := false |> <| o_rotationNotApplicableRecorded := false |>)).

(** A rotation that has no worker: it was interrupted, or stopped in a way that is resumed. *)
Definition interrupted_rotation (current : ManagedSession) : bool :=
  is_some (s_Rotation current)
  && (bool_decide (s_State current = SessionRotating)
      || bool_decide (s_State current = SessionStopped) && bool_decide (s_PreviousState current = SessionRotating)
         && (bool_decide (s_StopReason current = StopGlobal) || bool_decide (s_StopReason current = StopSession))).

Definition record_context_unknown (decision : RotationPlanDecision) : Part unit :=
  o ← vars;
  only (pd_ContextUnknown decision && negb (o_rotationContextUnknownRecorded o))
    (set_vars (fun o => o <| o_rotationContextUnknownRecorded := true |>);; lift (recordKind EventKindContextUnknown)).

Definition begin_rotation (rot : RotateSessionUseCase) (current : ManagedSession) (result : DetectResult) (stopped : bool) : Part unit :=
  o ← vars;
  decision ← lift (plan current result (o_rotationPendingSince o) stopped);
  record_context_unknown decision;;
  only (pd_NotApplicable decision && negb (o_rotationNotApplicableRecorded o))
    (set_vars (fun o => o <| o_rotationNotApplicableRecorded := true |>);; lift (recordKind EventKindRotationNotApplicable));;
  if pd_Start decision then
    check_error (mret (validateCore rot));;
    set_vars (fun o => o <| o_rotationPendingSince := None |> <| o_rotationIdleWaitNotified := false |>);;
    lift (call GoRotationExecute)
  else if pd_Pending decision then
    match o_rotationPendingSince o with
    | None =>
        pending ← lift obs_now;
        set_vars (fun o => o <| o_rotationPendingSince := Some pending |>);;
        lift (recordKind EventKindRotatePending)
    | Some _ =>
        only (pd_IdleWaitTimeout decision && negb (o_rotationIdleWaitNotified o))
          (set_vars (fun o => o <| o_rotationIdleWaitNotified := true |>);;
           lift (recordEvent EventKindRotateIdleWaitTimeout "" "idle_wait_timeout" NoSessionState NoSessionState))
    end
  else only (negb (bool_decide (dr_State result = StateAwaitingPermission)))
         (set_vars (fun o => o <| o_rotationPendingSince := None |> <| o_rotationIdleWaitNotified := false |>)).

Definition rotation_stage (current : ManagedSession) (result : DetectResult) (stopped : bool) : Part unit :=
  match ob_Rotation u with
  | None => mret tt
  | Some rot =>
      o ← vars;
      only (interrupted_rotation current)
        (running ← lift (call Rotation_IsRunning);
         only (negb running) (check_error (mret (validateCore rot));; lift (call GoRotationRun)));;
      only (negb (o_exited o))
        (running ← lift (call Rotation_IsRunning);
         only (negb running && is_none (s_Rotation current)) (begin_rotation rot current result stopped));;
      lift (call Rotation_Wake)
  end.

(** ** What a quiet session is used for *)

Definition permission_stage (current : ManagedSession) : Part unit :=
  only (ob_PermissionPending u)
    (only (negb (bool_decide (s_State current = SessionAwaitingPermission)))
       (set_vars (fun o => o <| o_permissionWarnedSince := zeroTime |>));;
     now ← lift obs_now;
     err ← lift (call (PermissionPending_Observe (s_State current) (s_StateSince current) now));
     o ← vars;
     only (is_some err && negb (o_permissionWarnedSince o =? s_StateSince current))
       (set_vars (fun o => o <| o_permissionWarnedSince := s_StateSince current |>);;
        lift (call (Warn "permission pending observation failed")))).

(** The goroutine that evaluates a commit. *)
Definition evaluate_commit (since : Time) : OM unit :=
  err ← call EvaluateCommit;
  when_set (is_some err) (call (Warn "commit evaluation failed"));;
  reported ← call (GetGitPhaseReported since);
  when_set (negb reported)
    (current ← obs_load;
     match current with
     | Ok current => when_set (s_StateSince current =? since) (call (SignalGitPhase since))
     | Err _ => mret tt
     end);;
  call SignalCommitEvaluation.

(** The function that is called at the end of a git phase. *)
Definition git_phase_ended (since : Time) : OM unit :=
  call (SetGitPhaseReported since);;
  current ← obs_load;
  match current with
  | Ok current => when_set (s_StateSince current =? since) (call (SignalGitPhase since))
  | Err _ => mret tt
  end.

Definition commit_stage (current : ManagedSession) : Part unit :=
  o ← vars;
  only (negb (o_exited o) && o_armed o
        && (bool_decide (s_State current = SessionIdle) || bool_decide (s_State current = SessionAwaitingRecommendation)))
    (only (negb (s_StateSince current =? o_commitSince o))
       (set_vars (fun o => o <| o_commitSince := s_StateSince current |> <| o_commitStarted := false |>));;
     now ← lift obs_now;
     o ← vars;
     only ((commitSettle <=? Sub now (s_StateSince current)) && evaluates_commits && negb (o_commitStarted o) && negb (o_commitInFlight o))
       (set_vars (fun o => o <| o_commitStarted := true |> <| o_commitInFlight := true |>);;
        lift (call (GoEvaluateCommit (s_StateSince current))))).

Definition auto_stage (current : ManagedSession) (result : DetectResult) (ch : change) (gitDone : Time) : Part unit :=
  o ← vars;
  only (ob_AutoContinue u && negb (o_exited o) && bool_decide (s_State current = SessionAwaitingRecommendation))
    (only (negb (s_StateSince current =? o_recommendationSince o))
       (set_vars (fun o => o <| o_recommendationSince := s_StateSince current |> <| o_autoAttempted := false |>
                             <| o_contextWasKnown := false |>));;
     only (bool_decide (ch_next ch = Some SessionAwaitingRecommendation) && bool_decide (ch_from ch = SessionWorking))
       (lift (call (AutoContinue_entered (s_StateSince current))));;
     decision ← lift (plan current result None false);
     record_context_unknown decision;;
     now ← lift obs_now;
     let settled := commitSettle <=? Sub now (s_StateSince current) in
     let contextPercent := if pd_ContextUnknown decision then None else ContextPercent result in
     let contextKnown := is_some contextPercent in
     o ← vars;
     only (settled && ((gitDone =? s_StateSince current) || contextKnown && negb (o_contextWasKnown o) && o_autoAttempted o
                       || negb (o_autoAttempted o) && negb evaluates_commits))
       (rows ← some_or_panic (TextRows (o_vt o));
        lift (call (AutoContinue_EvaluateAsync (mkContinueInput rows contextPercent (s_StateSince current))));;
        set_vars (fun o => o <| o_autoAttempted := true |>));;
     set_vars (fun o => o <| o_contextWasKnown := contextKnown |>)).

Definition pending_stage (current : ManagedSession) (result : DetectResult) : Part unit :=
  o ← vars;
  only (ob_PendingRemoteControl u && s_PendingRemoteControl current && negb (o_pendingInFlight o))
    (set_vars (fun o => o <| o_pendingInFlight := true |>);; lift (call (GoPendingRemoteControl (dr_State result)))).

Definition initial_stage (ch : change) : Part unit :=
  o ← vars;
  match ch_next ch with
  | Some next =>
      only (negb (o_exited o) && ob_InitialRemoteControl u
            && (bool_decide (ch_from ch = SessionStarting) || bool_decide (next = SessionIdle)))
        (current ← value obs_load;
         if bool_decide (next = SessionIdle) then lift (call (GoInitialRemoteControl (ch_from ch) current))
         else
           err ← lift (call (InitialRemoteControl_OnStateChange (ch_from ch) current));
           lift (when_set (is_some err) (call (InitialRemoteControl_warnFailure current))))
  | None => mret tt
  end.

(** ** Events and ends *)

Definition events_stage (ch : change) (wasStopped : bool) : Part unit :=
  o ← vars;
  lift (when_set (ch_unsafe ch)
    (recordEvent EventKindPermissionModeUnsafe "SUP_PERMISSION_MODE_UNSAFE" "" NoSessionState NoSessionState));;
  lift (when_set (o_exited o && wasStopped) (recordKind EventKindExitWhileStopped));;
  lift (when_set (negb (ch_illegal ch =? "")%string && negb (ch_illegal ch =? o_lastIllegal o)%string)
    (recordEvent EventKindIllegalTransition "SUP_ILLEGAL_TRANSITION" "" NoSessionState NoSessionState));;
  only (negb (ch_illegal ch =? "")%string || is_some (ch_next ch)) (set_vars (fun o => o <| o_lastIllegal := ch_illegal ch |>));;
  match ch_next ch with
  | Some next => lift (recordEvent EventKindStateChanged "" "" (ch_from ch) next)
  | None => mret tt
  end.

Definition recordExitOutcome (current : ManagedSession) (wasStopped : bool) : OM unit :=
  if bool_decide (s_State current = SessionExited)
  then recordEvent EventKindSessionExited "" (SupervisorExitReason_string (s_ExitReason current)) NoSessionState NoSessionState
  else when_set (bool_decide (s_State current = SessionStopped) && negb wasStopped)
    (if bool_decide (s_StopReason current = StopRestartLimitConsecutive) || bool_decide (s_StopReason current = StopRestartLimitDaily)
     then recordEvent EventKindRestartLimitExceeded "SUP_RESTART_LIMIT_EXCEEDED" (SupervisorStopReason_string (s_StopReason current))
            NoSessionState NoSessionState
     else recordEvent EventKindSessionStopped "" (SupervisorStopReason_string (s_StopReason current)) NoSessionState NoSessionState).

Definition startRecovery (next : option SupervisorSessionState) (current : ManagedSession) : OM unit :=
  when_set (bool_decide (next = Some SessionRecovering) && bool_decide (s_State current = SessionRecovering) && ob_Recover u)
    (call GoRecover).

(** The request for a remote control is dropped: whether there was one. *)
Definition drop_pending (current : ManagedSession) : Part unit :=
  only (s_PendingRemoteControl current && ob_PendingRemoteControl u)
    (check_error (ObUpdateSession_ (fun s => s <| s_PendingRemoteControl := false |> <| s_PendingRemoteControlSince := None |>));;
     lift (recordKind EventKindRemoteControlExpired)).

Definition exit_stage (ch : change) (wasStopped : bool) : Part unit :=
  o ← vars;
  only (o_exited o)
    (lift (when_set (ob_SendInput u && ob_PTYs u) (call PTYs_RemoveCurrent));;
     lift (when_set (ob_SendInput u)
       (call (Mu (fun s => (Sends.EndSession s, tt)));; when_set (ob_Screens u) (call (Screens_Delete (o_screenOwner o)))));;
     lift (when_set (ob_InitialRemoteControl u) (call InitialRemoteControl_EndSession));;
     current ← value obs_load;
     drop_pending current;;
     lift (recordExitOutcome current wasStopped);;
     lift (if is_none (s_Rotation current) then startRecovery (ch_next ch) current else call Rotation_Wake)).

Definition undetermined_stage (result : DetectResult) : Part unit :=
  if bool_decide (dr_State result = StateUndetermined) then
    o ← vars;
    only (IsZero (o_undeterminedSince o)) (since ← lift obs_now; set_vars (fun o => o <| o_undeterminedSince := since |>));;
    o ← vars;
    only (negb (o_undeterminedNotified o))
      (now ← lift obs_now;
       only (notifyAfter <=? Sub now (o_undeterminedSince o))
         (lift (recordKind EventKindUndeterminedLong);; set_vars (fun o => o <| o_undeterminedNotified := true |>)))
  else set_vars (fun o => o <| o_undeterminedSince := zeroTime |> <| o_undeterminedNotified := false |>).

Definition forget_observations : OM unit :=
  when_set (ob_Observed u) (call Observed_Delete);;
  when_set (ob_ContextPercent u) (call ContextPercent_Delete).

(** A child that has not come up is ended. *)
Definition end_failed : Part unit :=
  lift (if ob_pty_kills u then
          call TerminateChild;;
          gone ← call AwaitChildInGrace;
          if (gone : bool) then mret tt else call KillChild;; call AwaitChild
        else call ClosePTY;; call AwaitChild);;
  set_vars (fun o => o <| o_exited := true |>);;
  lift (call ForgetChild);;
  lift (call ClosePTY);;
  check_error (ObUpdateSession_ (fun s => s <| s_ChildPID := 0 |> <| s_ChildStartedAt := None |>));;
  lift forget_observations;;
  leave None.

Definition failed_stage (ch : change) (result : DetectResult) : Part unit :=
  let failed := bool_decide (ch_next ch = Some SessionFailed) in
  only (failed || bool_decide (ch_next ch = Some SessionStopped) && negb (bool_decide (dr_State result = StateExited)))
    (current ← value obs_load;
     lift (if 2 <=? s_Generation current
           then recordEvent EventKindSessionStopped "" "recovery_start_timeout" NoSessionState NoSessionState
           else recordEvent EventKindSessionFailed "SUP_SPAWN_FAILED" "" NoSessionState NoSessionState);;
     only failed end_failed).

Definition end_stage : Part unit :=
  o ← vars;
  only (o_exited o) (lift forget_observations;; leave None).

(** ** [Run] *)

Definition iteration : Part unit :=
  sel ← on_select;
  current ← value obs_load;
  o ← vars;
  only (negb (o_exited o)) (now ← lift obs_now; check_error (resetStableRestartCount current now));;
  result ← detect_stage current;
  stopped ← lift (if ob_Stop u then ob (call StopState_IsStopped) else mret false);
  let wasStopped := bool_decide (s_State current = SessionStopped) in
  ch ← update_stage result stopped;
  senders_stage result ch (screenUpdatedAt sel);;
  current ← value obs_load;
  context_stage current result;;
  decision_stage current;;
  rotation_stage current result stopped;;
  permission_stage current;;
  commit_stage current;;
  auto_stage current result ch (gitPhaseCompleted sel);;
  pending_stage current result;;
  initial_stage ch;;
  events_stage ch wasStopped;;
  exit_stage ch wasStopped;;
  undetermined_stage result;;
  failed_stage ch result;;
  end_stage.

Fixpoint observe_loop (rounds : nat) : Part unit :=
  match rounds with
  | O => lift obs_out_of_fuel
  | S rounds => iteration;; observe_loop rounds
  end.

(** The deferred functions. *)
Definition cleanup (o : ObsState) : OM unit :=
  call StopReader;;
  when_set (ob_SendInput u && ob_Screens u) (call (Screens_Delete (o_screenOwner o)));;
  current ← obs_load;
  match current with
  | Ok current =>
      when_set (terminal (s_State current)) (call Rotation_DeleteWake;; when_set (is_some (ob_Rotation u)) (call Rotation_EndSession))
  | Err _ => mret tt
  end;;
  when_set (ob_SendInput u && ob_PTYs u && ob_pty_writes u) (call PTYs_Remove);;
  when_set (o_exited o) (call ClosePTY);;
  when_set (ob_CommitVerified u) (call UnregisterGitPhase);;
  when_set (ob_ContextPercent u) (call ContextPercent_Delete).

Definition first_state (vt : VirtualTerminal) (owner : Z) (now : Time) : ObsState :=
  mkObsState vt owner now 0 false None zeroTime false "" None false NoSessionState zeroTime false false false zeroTime zeroTime false false
    false false zeroTime NoDetectedState false None.

Definition Run (rounds : nat) (vt : VirtualTerminal) : OM (option error) :=
  if negb (ob_Sessions u) then mret (Some (Errorf "observer dependencies are required" []))
  else
    owner ← call NextScreenOwner;
    when_set (ob_ContextPercent u) (call ContextPercent_Delete);;
    when_set (ob_CommitVerified u) (call RegisterGitPhase);;
    when_set (ob_AutoContinue u) (call BindAutoContinue);;
    when_set (ob_PermissionPending u) (call BindPermissionPending);;
    when_set (ob_RecordStructured u || ob_Notify u) (call BindQuarantine);;
    now ← obs_now;
    call GoRead;;
    call GoWait;;
    r ← observe_loop rounds (first_state vt owner now);
    cleanup r.1;;
    mret (match r.2, o_exitEventErr r.1 with
          | inl err, None => err
          | inl err, Some e => errors_Join [err; Some e]
          | inr _, e => e
          end).
End Observe.
