(* ===== verification/ObserveOk.v ===== *)
(** * The observer acts on what it has seen

    A history is all that the observer has called and been answered, and every call of
    every run is justified by the history before it: what is saved, what is started and
    what is waited for. *)

From S2P Require Import Prelude.
From S2P Require Import GoStrings.
From S2P Require Import Errors.
From S2P Require Import Session.
From S2P Require Import TextPolicy.
From S2P Require Import SendGate.
From S2P Require Import VTerm.
From S2P Require Import Detect.
From S2P Require Import Screens.
From S2P Require Import Sends.
From S2P Require Import Effects.
From S2P Require Import Commit.
From S2P Require Import SupEff.
From S2P Require Import Rotate.
From S2P Require Import PlanRotation.
From S2P Require Import ObserveEff.
From S2P Require Import ObserveSession.

(** ** What a history says *)

(** The exit of the child has been received from the channel that brings it once. *)
Definition reaps (e : called Obs) : bool :=
  match e with
  | Ev e x =>
      match e in Obs X return X -> bool with
      | Select => fun c => match c with ChildExited _ _ => true | _ => false end
      | AwaitChildInGrace => fun gone => gone
      | AwaitChild => fun _ => true
      | _ => fun _ => false
      end x
  end.
Definition reaped (h : list (called Obs)) : bool := existsb reaps h.

(** The child has been seen at work. *)
Definition arms (e : called Obs) : bool :=
  match e with
  | Ev e x =>
      match e in Obs X return X -> bool with
      | Detector_Detect _ => fun r => match r with Ok r => ProcessingIndicator r | Err _ => false end
      | _ => fun _ => false
      end x
  end.
Definition armed (h : list (called Obs)) : bool := existsb arms h.

(** The record that was read last. *)
Fixpoint read_last (h : list (called Obs)) : option ManagedSession :=
  match h with
  | [] => None
  | Ev e x :: h =>
      match e in Obs X return X -> option ManagedSession with
      | Sup e => fun x =>
          match e in SupEff.Eff X return X -> option ManagedSession with
          | LoadSession => fun x => match x with Ok s => Some s | Err _ => read_last h end
          | _ => fun _ => read_last h
          end x
      | _ => fun _ => read_last h
      end x
  end.

(** What the detector has answered last. *)
Fixpoint detected_last (h : list (called Obs)) : option DetectResult :=
  match h with
  | [] => None
  | Ev e x :: h =>
      match e in Obs X return X -> option DetectResult with
      | Detector_Detect _ => fun r => match r with Ok r => Some r | Err _ => detected_last h end
      | _ => fun _ => detected_last h
      end x
  end.

(** Its state, but a recommendation is believed only of a child that was seen at work. *)
Definition believed (h : list (called Obs)) : option DetectedState :=
  match detected_last h with
  | Some r => Some (if negb (armed h) && bool_decide (dr_State r = StateAwaitingRecommendation) then StateIdle else dr_State r)
  | None => None
  end.

(** The evaluations of a commit, and the requests for a remote control, that are under way. *)
Fixpoint evaluating (h : list (called Obs)) : nat :=
  match h with
  | [] => 0
  | Ev e x :: h =>
      match e in Obs X return X -> nat with
      | GoEvaluateCommit _ => fun _ => S (evaluating h)
      | Select => fun c => match c with CommitEvaluationDone => Nat.pred (evaluating h) | _ => evaluating h end
      | _ => fun _ => evaluating h
      end x
  end.
Fixpoint requesting (h : list (called Obs)) : nat :=
  match h with
  | [] => 0
  | Ev e x :: h =>
      match e in Obs X return X -> nat with
      | GoPendingRemoteControl _ => fun _ => S (requesting h)
      | PendingDone => fun done => if done then Nat.pred (requesting h) else requesting h
      | _ => fun _ => requesting h
      end x
  end.

Definition selects (e : called Obs) : bool := match e with Ev Select _ => true | _ => false end.

(** The calls since the last [select]. *)
Fixpoint turn (h : list (called Obs)) : list (called Obs) :=
  match h with [] => [] | e :: h => if selects e then [] else e :: turn h end.

Definition clock (h : list (called Obs)) (now : Time) : Prop := Ev (Sup SupEff.Now) now ∈ turn h.

(** ** What is justified *)

Section Orderly.
Context `{UnicodeTables} (u : ObserveSessionUseCase) (initial : ManagedSession).

(** It has been asked in this turn whether the session is stopped, and it is not. *)
Definition not_stopped (h : list (called Obs)) : Prop := ob_Stop u = false \/ Ev (Sup StopState_IsStopped) false ∈ turn h.

(** The state of the record [s], or the one that the senders have left when they decided
    about the exit of a hand-over in it. *)
Definition ends_from (h : list (called Obs)) (s : ManagedSession) (state : SupervisorSessionState) : Prop :=
  state = s_State s
  \/ exists v p owner at_ base tx,
       s_State v = s_State s /\ Ev (Mu (decideExit v p owner false at_)) (base, tx) ∈ turn h /\ state = s_State base.

(** The record [s'] may follow [s]. *)
Inductive may_save (h : list (called Obs)) (s s' : ManagedSession) : Prop :=
| save_unchanged : s' = s -> may_save h s s'
| save_session_id sessionID :
    sessionID <> ""%string ->
    s' = s <| s_ClaudeSessionID := sessionID |> <| s_PreviousClaudeSessionID := ""%string |> -> may_save h s s'
| save_stable now at_ :
    reaped h = false -> clock h now -> s_ChildStartedAt s = Some at_ -> RestartStable at_ now = true ->
    s' = s <| s_RestartCount := 0 |> -> may_save h s s'
| save_unsafe :
    s' = s <| s_AutoContinueDisabledReason := AutoContinueDisabledPermissionModeUnsafe |> -> may_save h s s'
| save_detected d event c :
    (* the detector *)
    reaped h = false -> not_stopped h -> s_State s <> SessionStopped ->
    believed h = Some d -> d <> StateUndetermined -> observed_event (observed_state d) = Some event ->
    Transition (s_State s) event c = (s_State s', true) ->
    s_ChildPID s' = s_ChildPID s -> s_ChildStartedAt s' = s_ChildStartedAt s -> may_save h s s'
| save_timeout d now :
    (* the child has not come up in time *)
    reaped h = false -> not_stopped h -> s_State s = SessionStarting ->
    believed h = Some d -> started_up d = false -> clock h now -> startupTimeout u <= Sub now (started initial) ->
    s_State s' = SessionFailed \/ s_State s' = SessionStopped ->
    s_ChildPID s' = s_ChildPID s -> s_ChildStartedAt s' = s_ChildStartedAt s -> may_save h s s'
| save_ended state :
    (* the child is gone *)
    reaped h = true -> s_ChildPID s' = 0 -> s_ChildStartedAt s' = None ->
    ends_from h s state ->
    s_State s' = state
    \/ (exists event c, event ∈ [EventStopSession; EventUnexpectedExit; EventHandoffExit]
        /\ Transition state event c = (s_State s', true)) -> may_save h s s'
| save_dropped :
    reaped h = true -> s' = s <| s_PendingRemoteControl := false |> <| s_PendingRemoteControlSince := None |> -> may_save h s s'.

(** The context that the status line tells is that of the child that runs now. *)
Definition planned (h : list (called Obs)) (s : ManagedSession) (i : RotationPlanInput) : Prop :=
  pi_Session i = s /\ believed h = Some (pi_ObservedState i) /\ dr_State (pi_Detected i) = pi_ObservedState i /\ clock h (pi_Now i).

Definition settled (h : list (called Obs)) (since : Time) : Prop := exists now, clock h now /\ commitSettle <= Sub now since.

(** Every call of the observer that starts, ends or saves something. *)
Definition orderly (e : called Obs) (h : list (called Obs)) : Prop :=
  match e with
  | Ev e _ =>
      match e with
      | Sup (SaveSession s') => exists s, read_last h = Some s /\ may_save h s s'
      | Select | AwaitChild | AwaitChildInGrace => reaped h = false
      | KillChild => Ev TerminateChild tt ∈ h /\ Ev AwaitChildInGrace false ∈ h
      | GoRotationExecute =>
          reaped h = false /\ not_stopped h /\ Ev Rotation_IsRunning false ∈ turn h
          /\ exists s i, read_last h = Some s /\ s_Rotation s = None /\ planned h s i /\ pd_Start (Evaluate i) = true
      | GoRotationRun =>
          Ev Rotation_IsRunning false ∈ turn h /\ exists s, read_last h = Some s /\ interrupted_rotation s = true
      | GoEvaluateCommit since =>
          reaped h = false /\ armed h = true /\ evaluating h = 0%nat
          /\ exists s, read_last h = Some s /\ since = s_StateSince s /\ s_State s ∈ [SessionIdle; SessionAwaitingRecommendation]
             /\ settled h since
      | AutoContinue_EvaluateAsync i =>
          reaped h = false
          /\ exists s, read_last h = Some s /\ co_StaySince i = s_StateSince s /\ s_State s = SessionAwaitingRecommendation
             /\ settled h (co_StaySince i)
             /\ forall percent, co_ContextPercent i = Some percent ->
                exists p, planned h s p /\ pd_ContextUnknown (Evaluate p) = false /\ ContextPercent (pi_Detected p) = Some percent
      | GoPendingRemoteControl d =>
          requesting h = 0%nat /\ believed h = Some d /\ exists s, read_last h = Some s /\ s_PendingRemoteControl s = true
      | _ => True
      end
  end.
End Orderly.

(** ** Calls that say nothing new *)

(** Calls of which the history takes no note, but that a record may be read. *)
Definition still (e : called Obs) : Prop :=
  match e with
  | Ev e _ =>
      match e with
      | Select | PendingDone | Detector_Detect _ | AwaitChild | AwaitChildInGrace | GoEvaluateCommit _ | GoPendingRemoteControl _ => False
      | _ => True
      end
  end.

(** Those that are always in order. *)
Definition calm (e : called Obs) : Prop :=
  still e /\ match e with
             | Ev e _ =>
                 match e with
                 | Sup (SaveSession _) | KillChild | GoRotationRun | GoRotationExecute | AutoContinue_EvaluateAsync _ => False
                 | _ => True
                 end
             end.

(** Those that do not read the record either. *)
Definition quiet (e : called Obs) : Prop :=
  calm e /\ match e with Ev (Sup LoadSession) _ => False | _ => True end.

Lemma calm_still new : Forall calm new -> Forall still new.
Proof. apply Forall_impl. by intros e [? _]. Qed.
Lemma quiet_calm new : Forall quiet new -> Forall calm new.
Proof. apply Forall_impl. by intros e [? _]. Qed.
Lemma quiet_still new : Forall quiet new -> Forall still new.
Proof. intros Hn. by apply calm_still, quiet_calm. Qed.

Section Still.
Context (new h : list (called Obs)).

Lemma still_reaped : Forall still new -> reaped (new ++ h) = reaped h.
Proof. intros Hn. unfold reaped. induction Hn as [|[X e x] new He Hn IH]; [done|]. cbn [app existsb]. rewrite IH. by destruct e. Qed.

Lemma still_armed : Forall still new -> armed (new ++ h) = armed h.
Proof. intros Hn. unfold armed. induction Hn as [|[X e x] new He Hn IH]; [done|]. cbn [app existsb]. rewrite IH. by destruct e. Qed.

Lemma still_detected : Forall still new -> detected_last (new ++ h) = detected_last h.
Proof. intros Hn. induction Hn as [|[X e x] new He Hn IH]; [done|]. cbn. rewrite IH. by destruct e. Qed.

Lemma still_believed : Forall still new -> believed (new ++ h) = believed h.
Proof. intros Hn. unfold believed. by rewrite still_detected, still_armed. Qed.

Lemma still_evaluating : Forall still new -> evaluating (new ++ h) = evaluating h.
Proof. intros Hn. induction Hn as [|[X e x] new He Hn IH]; [done|]. cbn. rewrite IH. by destruct e. Qed.

Lemma still_requesting : Forall still new -> requesting (new ++ h) = requesting h.
Proof. intros Hn. induction Hn as [|[X e x] new He Hn IH]; [done|]. cbn. rewrite IH. by destruct e. Qed.

Lemma still_turn : Forall still new -> turn (new ++ h) = new ++ turn h.
Proof. intros Hn. induction Hn as [|[X e x] new He Hn IH]; [done|]. cbn. rewrite IH. by destruct e. Qed.

Lemma still_in_turn e : Forall still new -> e ∈ turn h -> e ∈ turn (new ++ h).
Proof. intros Hn He. rewrite still_turn by done. apply elem_of_app. by right. Qed.

Lemma quiet_read : Forall quiet new -> read_last (new ++ h) = read_last h.
Proof.
  intros Hn. induction Hn as [|[X e x] new [[He _] Hl] Hn IH]; [done|]. cbn. rewrite IH. destruct e; try done.
  by match goal with e : SupEff.Eff _ |- _ => destruct e end.
Qed.
End Still.

Section Later.
Context (u : ObserveSessionUseCase) (initial : ManagedSession) (new h : list (called Obs)) (Hnew : Forall still new).

Lemma clock_later now : clock h now -> clock (new ++ h) now.
Proof. by apply still_in_turn. Qed.

Lemma not_stopped_later : not_stopped u h -> not_stopped u (new ++ h).
Proof. intros [Hu|Hs]; [by left|right]. by apply still_in_turn. Qed.

Lemma ends_from_later s state : ends_from h s state -> ends_from (new ++ h) s state.
Proof.
  intros [Hs|(v & p & owner & at_ & base & tx & Hv & Hd & Hs)]; [by left|right]. exists v, p, owner, at_, base, tx.
  split; [done|]. split; [|done]. by apply still_in_turn.
Qed.

Lemma may_save_later s s' : may_save u initial h s s' -> may_save u initial (new ++ h) s s'.
Proof.
  intros [Hs|sid Hsid Hs|now at_ Hr Hc Ha Hst Hs|Hs|d event c Hr Hn Hs Hb Hd He Ht Hp Ha|d now Hr Hn Hs Hb Hd Hc Ht Hf Hp Ha|state Hr Hp Ha Hb Ht|Hr Hs];
    [by apply save_unchanged|by eapply save_session_id|eapply save_stable|by apply save_unsafe|eapply save_detected|eapply save_timeout|apply (save_ended _ _ _ _ _ state)|
     apply save_dropped]; rewrite ?still_reaped, ?still_believed by done; eauto using clock_later, not_stopped_later.
  by apply ends_from_later.
Qed.

Lemma planned_later s i : planned h s i -> planned (new ++ h) s i.
Proof. intros (H1 & H2 & H3 & H4). unfold planned. rewrite still_believed by done. eauto using clock_later. Qed.

Lemma settled_later since : settled h since -> settled (new ++ h) since.
Proof. intros (now & Hc & Hs). exists now. eauto using clock_later. Qed.
End Later.

(** ** The transitions of the observer *)

Lemma Apply_kept (event : TransitionEvent) c now (s s' : ManagedSession) r :
  Apply event c now s = (s', r) -> event <> EventResume ->
  s_ChildPID s' = s_ChildPID s /\ s_ChildStartedAt s' = s_ChildStartedAt s
  /\ (s' = s \/ exists c', Transition (s_State s) event c' = (s_State s', true)).
Proof.
  intros E He. destruct (Apply_cases event c now s) as [_ ?|Hs|_ ? _|c' to Ht _ Hs _]; try rewrite E in *; cbn [fst] in *; [done|by subst; auto|done|].
  assert (s_ChildPID s' = s_ChildPID s /\ s_ChildStartedAt s' = s_ChildStartedAt s) as [? ?].
  { subst s'. unfold Apply_accepted, set_stop_scope. unfold_monads. destruct_ifs; done. }
  split; [done|]. split; [done|]. right. exists c'. rewrite Hs, (Apply_accepted_State event c' now s to). exact Ht.
Qed.

Lemma detector_keeps_starting state event from c :
  observed_event state = Some event -> Transition from event c = (SessionStarting, true) -> from = SessionStarting.
Proof. intros He Ht. destruct state; simplify_eq/=; destruct from; cbn in Ht; simplify_eq/=; done. Qed.

Lemma timeout_ends c to : Transition SessionStarting EventStartupTimeout c = (to, true) -> to = SessionFailed \/ to = SessionStopped.
Proof. cbn. destruct (2 <=? c_Generation c); intros [= <-]; auto. Qed.

Lemma exit_never_fails from event c to :
  event = EventUnexpectedExit \/ event = EventHandoffExit -> Transition from event c = (to, true) -> to <> SessionFailed.
Proof.
  intros [-> | ->] Ht ->; destruct from; cbn in Ht; try done; unfold classifyExit in Ht; by repeat case_match.
Qed.

Lemma decideExit_State v p owner at_ m : s_State (decideExit v p owner false at_ m).2.1 = s_State v.
Proof. unfold decideExit, applySendConfirmation. repeat (case_match || case_bool_decide); cbn; try done; by repeat case_match. Qed.

(** ** Parts of the loop *)

Ltac head_of t := lazymatch t with ?f _ => head_of f | _ => t end.
Ltac emit_step :=
  match goal with
  | |- forall _, _ => intros ?
  | |- emits _ _ (mret _) => exact I
  | |- emits _ _ (_ ≫= _) => apply emits_bind
  | |- emits _ _ (call _) => apply emits_call; intros ?; by repeat split
  | |- emits _ _ (ob (call _)) => intros ?; by repeat split
  | |- emits _ _ (match ?scrutinee with _ => _ end) => destruct scrutinee eqn:?
  | |- emits _ _ ((match ?scrutinee with _ => _ end) _) => destruct scrutinee eqn:?; cbv beta
  | |- emits _ _ ?p => let h := head_of p in unfold h
  end.
Ltac emit := cbn zeta; repeat emit_step.

Section Parts.
Context `{UnicodeTables} (u : ObserveSessionUseCase) (id : string) (initial : ManagedSession) (fuel : nat).

Abbreviation P := (orderly u initial).

Lemma calm_in_order e h : calm e -> P e h.
Proof.
  destruct e as [X e x]. intros [? ?]. destruct e; try done. match goal with e : SupEff.Eff _ |- _ => by destruct e end.
Qed.

(** The calls of a part are in order, and if it goes on, it does so with [Q]. *)
Definition part_ok {A : Type} (p : Part A) (o : ObsState) (h : list (called Obs)) (Q : list (called Obs) -> ObsState -> A -> Prop) : Prop :=
  wpi record_ev P (p o) h (fun h' r => match r.2 with inl _ => True | inr a => Q h' r.1 a end).

Lemma ok_ret {A : Type} (a : A) o h (Q : _ -> _ -> A -> Prop) : Q h o a -> part_ok (mret a) o h Q.
Proof. done. Qed.

Lemma ok_bind {A B : Type} (p : Part A) (f : A -> Part B) o h Q :
  part_ok p o h (fun h' o' a => part_ok (f a) o' h' Q) -> part_ok (p ≫= f) o h Q.
Proof. intros Hp. apply wpi_bind. eapply wpi_mono; [exact Hp|]. intros h' [o' [err|a]] HQ; [done|exact HQ]. Qed.

Lemma ok_mono {A : Type} (p : Part A) o h (Q Q' : list (called Obs) -> ObsState -> A -> Prop) :
  part_ok p o h Q -> (forall h' o' a, Q h' o' a -> Q' h' o' a) -> part_ok p o h Q'.
Proof. intros Hp HQ. eapply wpi_mono; [exact Hp|]. intros h' [o' [err|a]]; [done|apply HQ]. Qed.

Lemma ok_lift {A : Type} (p : OM A) o h (Q : _ -> _ -> A -> Prop) : wpi record_ev P p h (fun h' a => Q h' o a) -> part_ok (lift p) o h Q.
Proof. intros Hp. apply wpi_bind. eapply wpi_mono; [exact Hp|]. done. Qed.

Lemma ok_leave {A : Type} err o h (Q : _ -> _ -> A -> Prop) : part_ok (leave err) o h Q.
Proof. done. Qed.

Lemma ok_vars o h (Q : _ -> _ -> ObsState -> Prop) : Q h o o -> part_ok vars o h Q.
Proof. done. Qed.

Lemma ok_set f o h (Q : _ -> _ -> unit -> Prop) : Q h (f o) tt -> part_ok (set_vars f) o h Q.
Proof. done. Qed.

Lemma ok_only (b : bool) p o h Q : (b = true -> part_ok p o h Q) -> (b = false -> Q h o tt) -> part_ok (only b p) o h Q.
Proof. destruct b; intros H1 H2; [by apply H1|by apply ok_ret, H2]. Qed.

Lemma ok_check p o h Q : wpi record_ev P p h (fun h' err => err = None -> Q h' o tt) -> part_ok (check_error p) o h Q.
Proof. intros Hp. apply ok_bind, ok_lift. eapply wpi_mono; [exact Hp|]. intros h' [err|] HQ; [done|by apply ok_ret, HQ]. Qed.

Lemma ok_value {A : Type} (p : OM (res A)) o h Q :
  wpi record_ev P p h (fun h' r => match r with Ok a => Q h' o a | Err _ => True end) -> part_ok (value p) o h Q.
Proof. intros Hp. apply ok_bind, ok_lift. eapply wpi_mono; [exact Hp|]. intros h' [a|err] HQ; [by apply ok_ret|done]. Qed.

Lemma ok_some {A : Type} (a : option A) o h Q : (forall a', a = Some a' -> Q h o a') -> part_ok (some_or_panic a) o h Q.
Proof.
  intros HQ. destruct a as [a|]; [by apply ok_ret, HQ|]. apply ok_lift. intros []. split; [done|]. intros [].
Qed.

(** ** Parts that change nothing of importance *)

Definition same (o o' : ObsState) : Prop :=
  o_exited o' = o_exited o /\ o_armed o' = o_armed o /\ o_commitInFlight o' = o_commitInFlight o /\ o_pendingInFlight o' = o_pendingInFlight o.

Lemma same_vars_refl o : same o o.
Proof. done. Qed.
Lemma same_vars_trans o o' o'' : same o o' -> same o' o'' -> same o o''.
Proof. intros (E1 & E2 & E3 & E4) (F1 & F2 & F3 & F4). split_and!; congruence. Qed.

Definition steady (C : called Obs -> Prop) {A : Type} (p : Part A) : Prop :=
  forall o h (Q : list (called Obs) -> ObsState -> A -> Prop),
  (forall new o' a, Forall C new -> same o o' -> Q (new ++ h) o' a) -> part_ok p o h Q.

Section Steady.
Context (C : called Obs -> Prop) (HC : forall e, C e -> calm e).

Lemma steady_ret {A : Type} (a : A) : steady C (mret a).
Proof. intros o h Q HQ. by apply ok_ret, (HQ []). Qed.
Lemma steady_leave {A : Type} err : steady C (leave (A := A) err).
Proof. intros o h Q HQ. apply ok_leave. Qed.
Lemma steady_vars : steady C vars.
Proof. intros o h Q HQ. by apply ok_vars, (HQ []). Qed.
Lemma steady_set f : (forall o, same o (f o)) -> steady C (set_vars f).
Proof. intros Hf o h Q HQ. by apply ok_set, (HQ []). Qed.
Lemma part_steady_bind {A B : Type} (p : Part A) (f : A -> Part B) : steady C p -> (forall a, steady C (f a)) -> steady C (p ≫= f).
Proof.
  intros Hp Hf o h Q HQ. apply ok_bind, Hp. intros new o' a Hn Ho. apply Hf. intros new' o'' b Hn' Ho'.
  rewrite app_assoc. apply HQ; [by apply list.Forall_app|by eapply same_vars_trans].
Qed.
Lemma steady_only b p : steady C p -> steady C (only b p).
Proof. destruct b; [done|]. intros _. apply steady_ret. Qed.
Lemma steady_lift {A : Type} (p : OM A) : emits record_ev C p -> steady C (lift p).
Proof.
  intros Hp o h Q HQ. apply ok_lift. eapply wpi_emits; [|exact Hp|].
  - intros e h' He. by apply calm_in_order, HC.
  - intros new a Hn _. by apply HQ.
Qed.
Lemma steady_some {A : Type} (a : option A) : steady C (some_or_panic a).
Proof. intros o h Q HQ. apply ok_some. intros a' _. by apply (HQ []). Qed.
Lemma steady_check p : emits record_ev C p -> steady C (check_error p).
Proof. intros Hp. apply part_steady_bind; [by apply steady_lift|]. intros [err|]; [apply steady_leave|apply steady_ret]. Qed.
Lemma steady_value {A : Type} (p : OM (res A)) : emits record_ev C p -> steady C (value p).
Proof. intros Hp. apply part_steady_bind; [by apply steady_lift|]. intros [a|err]; [apply steady_ret|apply steady_leave]. Qed.
End Steady.

(** ** Updates of the record *)

(** An update that leaves a record that may follow, and a value with the property [G]. *)
Definition update_ok {A : Type} (h : list (called Obs)) (update : ManagedSession -> OM (ManagedSession * A * option error)) (G : A -> Prop) : Prop :=
  (forall s, emits record_ev quiet (update s))
  /\ forall s new, Forall still new ->
     wp record_ev (update s) (new ++ h) (fun h' r => G r.1.2 /\ (r.2 = None -> may_save u initial h' s r.1.1)).

Lemma update_ok_later {A : Type} h new (update : ManagedSession -> OM (ManagedSession * A * option error)) G :
  Forall still new -> update_ok h update G -> update_ok (new ++ h) update G.
Proof.
  intros Hn [Hq Hu]. split; [done|]. intros s new' Hn'. rewrite app_assoc. apply Hu. by apply list.Forall_app.
Qed.

Lemma quiet_order e h : quiet e -> P e h.
Proof. intros [? _]. by apply calm_in_order. Qed.

Lemma obs_update_wpi {A : Type} h (update : ManagedSession -> OM (ManagedSession * A * option error)) G (Q : list (called Obs) -> _ -> Prop) :
  update_ok h update G ->
  (forall new r, Forall still new -> (forall a, r.2 = Some a -> G a) -> Q (new ++ h) r) ->
  wpi record_ev P (ObUpdateSession update) h Q.
Proof.
  intros [Hq Hu] HQ. unfold ObUpdateSession. intros []. split; [done|].
  apply wpi_bind. intros [s|err]; (split; [done|]); [|intros []; (split; [done|]); by apply (HQ [_; _; _]); [repeat constructor|]].
  intros [before|err]; (split; [done|]); [|intros []; (split; [done|]); by apply (HQ [_; _; _; _]); [repeat constructor|]].
  set (h1 := Ev (Sup (Marshal s)) (Ok before) :: Ev (Sup LoadSession) (Ok s) :: Ev (Sup LockRecord) tt :: h).
  apply wpi_bind. eapply wpi_emits; [intros; by apply quiet_order|apply Hq|].
  intros new [[s' a] err] Hn Hr.
  destruct (ran_wp _ _ _ _ _ _ (Hu s (take 3 h1) ltac:(by repeat constructor)) Hr) as [HG Hsave]. cbn in HG, Hsave.
  assert (Forall still new) as Hst by (by apply quiet_still).
  assert (forall l r, Forall still l -> r.2 = Some a -> Q (l ++ new ++ h1) r) as HQ'.
  { intros l r Hl Hr2. replace (l ++ new ++ h1) with ((l ++ new ++ take 3 h1) ++ h) by (by rewrite <- !app_assoc).
    apply HQ; [|intros ? ?; by simplify_eq/=]. apply list.Forall_app; split; [done|]. apply list.Forall_app; split; [done|].
    by repeat constructor. }
  destruct err as [err|]; [intros []; split; [done|]; by apply (HQ' [_]); [repeat constructor|]|].
  intros [after|err]; (split; [done|]); [|intros []; (split; [done|]); by apply (HQ' [_; _]); [repeat constructor|]].
  cbn. destruct (bool_decide (before = after)); cbn; [intros []; split; [done|]; by apply (HQ' [_; _]); [repeat constructor|]|].
  intros err. split; [|intros []; split; [done|]; by apply (HQ' [_; _; _]); [repeat constructor|]].
  exists s. split; [change (read_last (new ++ h1) = Some s); by rewrite quiet_read|].
  by apply (may_save_later _ _ [_]); [repeat constructor|apply Hsave].
Qed.

Lemma update__wpi h change (Q : list (called Obs) -> option error -> Prop) :
  (forall s new, Forall still new -> may_save u initial (new ++ h) s (change s)) ->
  (forall new err, Forall still new -> Q (new ++ h) err) ->
  wpi record_ev P (ObUpdateSession_ change) h Q.
Proof.
  intros Hc HQ. apply wpi_bind. apply (obs_update_wpi _ _ (fun _ => True)).
  - split; [done|]. intros s new Hn. split; [done|]. intros _. by apply Hc.
  - intros new [err a] Hn _. by apply HQ.
Qed.

Lemma exit_update_wpi {A : Type} rounds h (update : ManagedSession -> OM (ManagedSession * (A * exitCommit) * option error)) (G : A -> Prop)
    (Q : list (called Obs) -> option error * option (A * exitCommit) -> Prop) :
  update_ok h update (fun a => G a.1) ->
  (forall new r, Forall still new -> (forall a, r.2 = Some a -> G a.1) -> Q (new ++ h) r) ->
  wpi record_ev P (obUpdateExitSession rounds update) h Q.
Proof.
  revert h. induction rounds as [|rounds IH]; intros h Hu HQ; cbn [obUpdateExitSession];
    (apply wpi_bind; apply (obs_update_wpi _ _ (fun a => match a with inl _ => True | inr a => G a.1 end));
     [destruct Hu as [Hq Hu]; split;
       [intros s waiting; split; [done|]; destruct waiting; [done|]; apply emits_bind; [apply Hq|]; by intros [[? ?] ?]
       |intros s new Hn waiting; destruct waiting; [done|]; apply wp_bind;
        eapply wp_mono; [apply (Hu s (_ :: new)); by constructor|]; by intros h' [[? ?] ?]]
     |intros new [err [[commit|[a tx]]|]] Hn HG]).
  2, 5: (assert (G a) as Ha by (apply (HG _ eq_refl)));
    destruct (is_some (tx_record tx));
    [intros []; split; [done|]; rewrite app_comm_cons; destruct err; apply HQ; try (by constructor); by intros ? [= <-]
    |destruct err; apply HQ; try done; by intros ? [= <-]].
  2, 4: by apply HQ.
  - intros []. split; [done|]. intros [].
  - intros []. split; [done|]. rewrite app_comm_cons. assert (Forall still (Ev (WaitCommit commit) tt :: new)) as Hn' by (by constructor).
    apply IH; [by apply update_ok_later|]. intros new' r Hn2 HG2. rewrite app_assoc. apply HQ; [by apply list.Forall_app|done].
Qed.
(** ** What the update of the loop saves *)

(** A program that is quiet, and what its result says. *)
Definition finds {A : Type} (p : OM A) (h : list (called Obs)) (R : list (called Obs) -> A -> Prop) : Prop :=
  wp record_ev p h (fun h' a => exists new, h' = new ++ h /\ Forall quiet new /\ R h' a).

Lemma finds_ret {A : Type} (a : A) h (R : list (called Obs) -> A -> Prop) : R h a -> finds (mret a) h R.
Proof. intros HR. by exists []. Qed.

Lemma finds_bind {A B : Type} (p : OM A) (f : A -> OM B) h (R : list (called Obs) -> B -> Prop) :
  finds p h (fun h' a => finds (f a) h' R) -> finds (p ≫= f) h R.
Proof.
  intros Hp. apply wp_bind. eapply wp_mono; [exact Hp|]. intros h' a (new & -> & Hn & Hf). eapply wp_mono; [exact Hf|].
  intros h'' b (new' & -> & Hn' & HR). exists (new' ++ new). rewrite <- app_assoc. split; [done|]. split; [by apply list.Forall_app|done].
Qed.

Lemma finds_mono {A : Type} (p : OM A) h (R R' : list (called Obs) -> A -> Prop) :
  finds p h R -> (forall new a, Forall quiet new -> R (new ++ h) a -> R' (new ++ h) a) -> finds p h R'.
Proof.
  intros Hp HR. eapply wp_mono; [exact Hp|]. intros h' a (new & -> & Hn & Ha). exists new. auto.
Qed.

Lemma finds_call {X : Type} (e : Obs X) h (R : list (called Obs) -> X -> Prop) :
  (forall x, quiet (Ev e x)) -> (forall x, R (Ev e x :: h) x) -> finds (call e) h R.
Proof. intros Hq HR x. exists [Ev e x]. split; [done|]. split; [by constructor|done]. Qed.

Lemma finds_now h (R : list (called Obs) -> Time -> Prop) : (forall now h', h' = Ev (Sup SupEff.Now) now :: h -> clock h' now -> R h' now) -> finds obs_now h R.
Proof. intros HR now. exists [Ev (Sup SupEff.Now) now]. split; [done|]. split; [by repeat constructor|]. apply HR; [done|]. by left. Qed.

Definition same_child (s s' : ManagedSession) : Prop := s_ChildPID s' = s_ChildPID s /\ s_ChildStartedAt s' = s_ChildStartedAt s.

Lemma apply_detected_finds d state s h :
  finds (apply_detected d state s) h (fun _ r =>
    r.1.1 = s \/ same_child s r.1.1 /\ d <> StateUndetermined
      /\ exists event c, observed_event state = Some event /\ Transition (s_State s) event c = (s_State r.1.1, true)).
Proof.
  unfold apply_detected. case_bool_decide as Hd; [apply finds_ret; by left|].
  destruct (observed_event state) as [event|] eqn:He; [|apply finds_ret; by left].
  apply finds_bind, finds_now. intros now h' _ _. apply finds_ret.
  destruct (Apply event (detector_context s state) now s) as [s' r] eqn:E.
  destruct (Apply_kept _ _ _ _ _ _ E) as (Hp & Ha & Ht); [by destruct state; simplify_eq/=|].
  destruct r; (destruct Ht as [->|(c & Ht)]; [by left|]); right; (split; [done|]); (split; [done|]); by exists event, c.
Qed.

Lemma apply_timeout_finds d from unsafe r h :
  finds (apply_timeout u initial d from unsafe r) h (fun h' v => let s := r.1.1 in
    v.1.1 = s \/ same_child s v.1.1 /\ s_State s = SessionStarting /\ started_up d = false
      /\ (exists now, clock h' now /\ startupTimeout u <= Sub now (started initial))
      /\ (s_State v.1.1 = SessionFailed \/ s_State v.1.1 = SessionStopped)).
Proof.
  destruct r as [[s next] illegal]. cbv zeta. cbn [fst snd]. unfold apply_timeout. case_bool_decide as Hs; [|apply finds_ret; by left].
  apply finds_bind, finds_now. intros now h1 _ Hc.
  destruct (startupTimeout u <=? Sub now (started initial)) eqn:Ht; [|apply finds_ret; by left].
  destruct (started_up d) eqn:Hd; cbn [andb negb]; [apply finds_ret; by left|]. apply finds_bind, finds_now. intros at_ h2 -> _.
  assert (clock (Ev (Sup SupEff.Now) at_ :: h1) now) as Hc' by (by apply (clock_later [_]); [repeat constructor|]).
  destruct (Apply EventStartupTimeout _ at_ s) as [s' r] eqn:E. destruct (Apply_kept _ _ _ _ _ _ E) as (Hp & Ha & Hm); [done|].
  assert (s' = s \/ s_State s' = SessionFailed \/ s_State s' = SessionStopped) as Hm'.
  { destruct Hm as [Hm|(c & Hm)]; [by left|right]. rewrite Hs in Hm. by apply timeout_ends in Hm. }
  destruct r; apply finds_ret; cbn; (destruct Hm' as [->|Hm']; [by left|]); right; (split; [done|]); (split; [done|]); (split; [done|]);
    (split; [exists now; split; [done|lia]|done]).
Qed.

Lemma update_exited_finds exitCode state from unsafe s h :
  finds (update_exited u exitCode state from unsafe s) h (fun h' r => let s' := r.1.1 in
    r.2 = None /\ ch_next r.1.2.1 <> Some SessionFailed /\ s_ChildPID s' = 0 /\ s_ChildStartedAt s' = None
    /\ exists st, ends_from h' s st
       /\ (s_State s' = st \/ exists event c, event ∈ [EventStopSession; EventUnexpectedExit; EventHandoffExit]
             /\ Transition st event c = (s_State s', true))).
Proof.
  unfold update_exited. apply finds_bind.
  apply (finds_mono _ _ (fun h' v => ends_from h' s (s_State v.1))).
  { destruct (sg_Pending (s_SendGate s)) as [p|]; [|apply finds_ret; by left].
    destruct (bool_decide _ && _); [|apply finds_ret; by left]. unfold observe_exit.
    apply finds_bind, finds_call; [by repeat split|]. intros [|]; [|apply finds_ret; by left].
    apply finds_bind, finds_now. intros at_ h1 -> _. apply finds_call; [by repeat split|]. intros [base tx].
    right. exists s, p, (handoffPTYOwner (ob_pty u)), at_, base, tx. split; [done|]. split; [by left|done]. }
  intros new [base tx] Hn Hb. cbn in Hb. set (s0 := base <| s_ChildPID := 0 |> <| s_ChildStartedAt := None |>).
  apply finds_bind, finds_now. intros counted h1 -> _. apply finds_bind, finds_now. intros now h2 -> _.
  apply (ends_from_later [Ev (Sup SupEff.Now) now; Ev (Sup SupEff.Now) counted]) in Hb; [|by repeat constructor].
  set (event := if bool_decide (s_State s0 = SessionRotating) then EventHandoffExit else EventUnexpectedExit).
  assert (event = EventUnexpectedExit \/ event = EventHandoffExit) as Hev by (unfold event; case_bool_decide; auto).
  destruct (Apply event _ now s0) as [s' r] eqn:E. destruct (Apply_kept _ _ _ _ _ _ E) as (Hp & Ha & Hm); [by destruct Hev as [-> | ->]|].
  assert (s_State s' = s_State base \/ exists event c, event ∈ [EventStopSession; EventUnexpectedExit; EventHandoffExit]
    /\ Transition (s_State base) event c = (s_State s', true)) as Hm'.
  { destruct Hm as [->|(c & Hm)]; [by left|right]. exists event, c. split; [|done]. destruct Hev as [-> | ->]; set_solver. }
  assert (moved (s_State s0) s' <> Some SessionFailed) as Hmoved.
  { unfold moved. case_bool_decide as Hne; [done|]. intros [= Hf]. destruct Hm as [->|(c & Hm)]; [by apply Hne|].
    by apply (exit_never_fails _ _ _ _ Hev Hm). }
  destruct r; apply finds_ret; cbn; (split; [done|]); (split; [done|]); (split; [done|]); (split; [done|]); by exists (s_State base).
Qed.

Lemma update_observed_quiet o result stopped s : emits record_ev quiet (update_observed u initial o result stopped s).
Proof. emit. Qed.

Lemma update_observed_ok o result stopped h0 :
  o_exited o = reaped h0 -> believed h0 = Some (dr_State result) -> (stopped = false -> not_stopped u h0) ->
  update_ok h0 (update_observed u initial o result stopped) (fun a => o_exited o = true -> ch_next a.1 <> Some SessionFailed).
Proof.
  intros Ho Hb Hst. split; [intros s; apply update_observed_quiet|]. intros s0 new0 Hn0.
  set (h := new0 ++ h0) in *.
  assert (o_exited o = reaped h) as Ho' by (by unfold h; rewrite still_reaped).
  assert (believed h = Some (dr_State result)) as Hb' by (by unfold h; rewrite still_believed).
  assert (stopped = false -> not_stopped u h) as Hst' by (intros ?; apply not_stopped_later; auto).
  unfold update_observed. cbv zeta.
  set (unsafe := bool_decide (dr_PermissionMode result = _) && _).
  set (s := if unsafe then s0 <| s_AutoContinueDisabledReason := AutoContinueDisabledPermissionModeUnsafe |> else s0).
  assert (s_State s = s_State s0 /\ same_child s0 s) as [Hs Hc] by (unfold s; by destruct unsafe).
  assert (forall h', may_save u initial h' s0 s) as Hsave.
  { intros h'. unfold s. destruct unsafe; [by apply save_unsafe|by apply save_unchanged]. }
  destruct (o_exited o) eqn:Eo.
  - eapply wp_mono; [apply update_exited_finds|]. intros h' r (new & -> & Hn & _ & Hf & Hp & Ha & st & Hend & Ht). apply quiet_still in Hn.
    split; [done|]. intros _. eapply save_ended; [by rewrite still_reaped|done|done| |exact Ht].
    destruct Hend as [->|(v & p & owner & at_ & base & tx & Hv & Hd & ->)]; [by left|right].
    exists v, p, owner, at_, base, tx. by rewrite <- Hs.
  - destruct (stopped || bool_decide (s_State s = SessionStopped)) eqn:Estop; [by split|].
    apply orb_false_iff in Estop as [-> Estop]. apply bool_decide_eq_false in Estop.
    apply wp_bind. eapply wp_mono; [apply apply_detected_finds|]. intros h1 [[s1 next] illegal] (new1 & -> & Hn1 & Hd). cbn in Hd.
    eapply wp_mono; [apply apply_timeout_finds|]. intros h2 [[s2 [ch tx]] err] (new2 & -> & Hn2 & Ht). cbn in Ht.
    split; [done|]. intros _. cbn. rewrite app_assoc. set (new := new2 ++ new1).
    assert (Forall still new) as Hn by (apply list.Forall_app; split; by apply quiet_still).
    assert (may_save u initial (new ++ h) s0 s1) as Hs1.
    { destruct Hd as [->|([Hp Ha] & Hd & event & c & He & Htr)]; [apply Hsave|].
      eapply save_detected; [by rewrite still_reaped|by apply not_stopped_later; auto|by rewrite <- Hs|by rewrite still_believed|exact Hd|exact He|
        by rewrite <- Hs|by rewrite Hp, (proj1 Hc)|by rewrite Ha, (proj2 Hc)]. }
    destruct Ht as [->|([Hp Ha] & Hs1' & Hup & (now & Hclock & Hlim) & Hend)]; [done|].
    assert (s_State s0 = SessionStarting /\ same_child s0 s1) as [Hst0 [Hp1 Ha1]].
    { destruct Hd as [->|([Hp1 Ha1] & _ & event & c & He & Htr)]; [by rewrite <- Hs|]. rewrite Hs1' in Htr.
      apply (detector_keeps_starting _ _ _ _ He) in Htr. rewrite <- Hs. split; [done|]. split; [by rewrite Hp1, (proj1 Hc)|by rewrite Ha1, (proj2 Hc)]. }
    eapply save_timeout; [by rewrite still_reaped|by apply not_stopped_later; auto|done|by rewrite still_believed|exact Hup|
      by unfold new; rewrite <- app_assoc|exact Hlim|exact Hend|congruence|congruence].
Qed.
(** ** The loop *)

(** The variables of the loop say what the history says. *)
Definition inv (o : ObsState) (h : list (called Obs)) : Prop :=
  o_exited o = reaped h /\ o_armed o = armed h
  /\ (evaluating h <= if o_commitInFlight o then 1 else 0)%nat /\ (requesting h <= if o_pendingInFlight o then 1 else 0)%nat.

Lemma inv_still o o' new h : Forall still new -> same o o' -> inv o h -> inv o' (new ++ h).
Proof.
  intros Hn (E1 & E2 & E3 & E4) (H1 & H2 & H3 & H4). unfold inv.
  rewrite still_reaped, still_armed, still_evaluating, still_requesting by done. by rewrite E1, E2, E3, E4.
Qed.

(** A part that may be reached only now, and changes nothing of importance. *)
Definition moves {A : Type} (p : Part A) (o : ObsState) (h : list (called Obs)) : Prop :=
  forall Q : list (called Obs) -> ObsState -> A -> Prop,
  (forall new o' a, Forall still new -> same o o' -> Q (new ++ h) o' a) -> part_ok p o h Q.

Lemma moves_steady {A : Type} (C : called Obs -> Prop) (p : Part A) o h : (forall e, C e -> calm e) -> steady C p -> moves p o h.
Proof.
  intros HC Hp Q HQ. apply Hp. intros new o' a Hn Ho. apply HQ; [|done]. apply calm_still. by eapply Forall_impl.
Qed.

Lemma moves_bind {A B : Type} (p : Part A) (f : A -> Part B) o h :
  moves p o h -> (forall new o' a, Forall still new -> same o o' -> moves (f a) o' (new ++ h)) -> moves (p ≫= f) o h.
Proof.
  intros Hp Hf Q HQ. apply ok_bind, Hp. intros new o' a Hn Ho. apply Hf; [done|done|]. intros new' o'' b Hn' Ho'.
  rewrite app_assoc. apply HQ; [by apply list.Forall_app|by eapply same_vars_trans].
Qed.

Lemma moves_only b p o h : (b = true -> moves p o h) -> moves (only b p) o h.
Proof. destruct b; intros Hp; [by apply Hp|]. intros Q HQ. by apply ok_ret, (HQ []), same_vars_refl. Qed.

Lemma moves_wpi {A : Type} (p : OM A) o h :
  (forall Q : list (called Obs) -> A -> Prop, (forall new a, Forall still new -> Q (new ++ h) a) -> wpi record_ev P p h Q) -> moves (lift p) o h.
Proof. intros Hp Q HQ. apply ok_lift, Hp. intros new a Hn. by apply HQ, same_vars_refl. Qed.

Lemma moves_check p o h :
  (forall Q : list (called Obs) -> option error -> Prop, (forall new a, Forall still new -> Q (new ++ h) a) -> wpi record_ev P p h Q) ->
  moves (check_error p) o h.
Proof.
  intros Hp. apply moves_bind; [by apply moves_wpi|]. intros new o' [err|] Hn Ho; (eapply (moves_steady calm); [done|]); [apply steady_leave|apply steady_ret].
Qed.

Ltac steady_step :=
  match goal with
  | |- forall _, _ => intros ?
  | |- steady _ (mret _) => apply steady_ret
  | |- steady _ (_ ≫= _) => apply part_steady_bind
  | |- steady _ (only _ _) => apply steady_only
  | |- steady _ (leave _) => apply steady_leave
  | |- steady _ vars => apply steady_vars
  | |- steady _ (set_vars _) => apply steady_set; intros ?; by repeat split
  | |- steady _ (some_or_panic _) => apply steady_some
  | |- steady _ (lift _) => apply steady_lift; [first [exact (fun e H => H) | by intros e [? _]]|solve [emit]]
  | |- steady _ (check_error _) => apply steady_check; [first [exact (fun e H => H) | by intros e [? _]]|solve [emit]]
  | |- steady _ (value _) => apply steady_value; [first [exact (fun e H => H) | by intros e [? _]]|solve [emit]]
  | |- steady _ (match ?scrutinee with _ => _ end) => destruct scrutinee eqn:?
  | |- steady _ ((match ?scrutinee with _ => _ end) _) => destruct scrutinee eqn:?; cbv beta
  | |- steady _ ?p => let h := head_of p in unfold h
  end.
Ltac steadily := cbn zeta; repeat steady_step.

Lemma steady_senders result ch at_ : steady calm (senders_stage u id result ch at_).
Proof. steadily. Qed.
Lemma steady_context current result : steady quiet (context_stage u current result).
Proof. steadily. Qed.
Lemma steady_decision current : steady quiet (decision_stage current).
Proof. steadily. Qed.
Lemma steady_permission current : steady quiet (permission_stage u current).
Proof. steadily. Qed.
Lemma steady_initial ch : steady calm (initial_stage u ch).
Proof. steadily. Qed.
Lemma steady_events ch b : steady calm (events_stage u id ch b).
Proof. steadily. Qed.
Lemma steady_undetermined result : steady calm (undetermined_stage u id result).
Proof. steadily. Qed.
Lemma steady_on_read data : steady calm (on_read u data).
Proof. steadily. Qed.
Lemma steady_unknown d : steady quiet (record_context_unknown u id d).
Proof. steadily. Qed.

Lemma moves_calm {A : Type} (p : Part A) o h : steady calm p -> moves p o h.
Proof. by apply moves_steady. Qed.

Lemma stop_exited_ok h : reaped h = true -> update_ok h stop_exited (fun _ => True).
Proof.
  intros Hr. split; [emit|]. intros s new Hn. unfold stop_exited.
  case_bool_decide; [by split; [|intros _; apply save_unchanged]|]. intros now. cbn -[apply]. unfold apply.
  destruct (Apply EventStopSession no_context now s) as [s' r] eqn:E. destruct (Apply_kept _ _ _ _ _ _ E) as (Hp & Ha & Hm); [done|].
  destruct r; (split; [done|]); [|done]. intros _.
  eapply save_ended; [by rewrite app_comm_cons, still_reaped by (by constructor)|done|done|by left|].
  destruct Hm as [->|(c & Hm)]; [by left|right]. exists EventStopSession, c. split; [set_solver|done].
Qed.

Lemma on_registered_exit_moves o h : reaped h = true -> moves (on_registered_exit u id) o h.
Proof.
  intros Hr. unfold on_registered_exit. apply moves_bind; [apply moves_calm; steadily|]. intros new1 o1 [|] Hn1 _; [apply moves_calm; steadily|].
  destruct (ob_pty u); try solve [apply moves_calm; steadily].
  apply moves_bind; [apply moves_calm; steadily|]. intros new2 o2 [|] Hn2 _; [|apply moves_calm; steadily]. cbn [negb].
  apply moves_bind; [apply moves_calm; steadily|]. intros new3 o3 [|] Hn3 _; [|apply moves_calm; steadily].
  apply moves_bind; [|intros new4 o4 [[err|] changed] _ _; apply moves_calm; steadily].
  apply moves_wpi. intros Q HQ. eapply obs_update_wpi; [apply stop_exited_ok; by rewrite !still_reaped|]. intros new r Hn _. by apply HQ.
Qed.

Definition exits (o o' : ObsState) : Prop :=
  o_exited o' = true /\ o_armed o' = o_armed o /\ o_commitInFlight o' = o_commitInFlight o /\ o_pendingInFlight o' = o_pendingInFlight o.

Lemma on_exit_ok code failed o h (Q : list (called Obs) -> ObsState -> unit -> Prop) :
  reaped h = true -> (forall new o', Forall still new -> exits o o' -> Q (new ++ h) o' tt) -> part_ok (on_exit u id code failed) o h Q.
Proof.
  intros Hr HQ. unfold on_exit. apply ok_bind, ok_set. set (o1 := o <| o_exited := true |>).
  enough (moves (lift obs_now;; only (ob_SendInput u && ob_PTYs u) (on_registered_exit u id);; lift (call ForgetChild);;
    set_vars (fun o => o <| o_exitCode := Some (if failed then -1 else code) |>);; lift (call ClosePTY)) o1 h) as Hm.
  { apply Hm. intros new o' [] Hn (E1 & E2 & E3 & E4). apply HQ; [done|]. split_and!; [by rewrite E1|by rewrite E2|by rewrite E3|by rewrite E4]. }
  apply moves_bind; [apply moves_calm; steadily|]. intros new1 o2 _ Hn1 _.
  apply moves_bind; [apply moves_only; intros _; apply on_registered_exit_moves; by rewrite still_reaped|].
  intros new2 o3 _ Hn2 _. apply moves_calm. steadily.
Qed.

Lemma on_select_ok o h (Q : list (called Obs) -> ObsState -> selection -> Prop) :
  inv o h -> o_exited o = false -> (forall h' o' sel, inv o' h' -> Q h' o' sel) -> part_ok (on_select u id) o h Q.
Proof.
  intros (H1 & H2 & H3 & H4) Ho HQ. rewrite Ho in H1. unfold on_select.
  apply ok_bind, ok_lift. intros pending. split; [done|]. set (h1 := Ev PendingDone pending :: h).
  apply ok_bind. apply (ok_mono _ _ _ (fun h' o' _ => h' = h1 /\ inv o' h1 /\ o_exited o' = false)).
  { assert (inv o h) as Hinv by (repeat split; by rewrite ?Ho).
    apply ok_only; intros ->; [apply ok_set|]; (split; [done|]); (split; [|done]); (split; [by cbn; rewrite Ho|]); (split; [done|]); (split; [done|]); cbn.
    - destruct (o_pendingInFlight o); lia.
    - done. }
  intros h' o1 _ (-> & Hinv & Ho1). destruct Hinv as (K1 & K2 & K3 & K4). rewrite Ho1 in K1.
  apply ok_bind, ok_lift. intros c. split; [exact (eq_sym K1)|]. set (h2 := Ev Select c :: h1).
  assert ((forall code failed, c <> ChildExited code failed) -> c <> CommitEvaluationDone -> inv o1 h2) as Hsame.
  { intros Hc Hd. unfold inv. rewrite Ho1. destruct c as [| |code failed| | |]; [|done|by destruct (Hc code failed)|..]; (split; [exact K1|done]). }
  destruct c as [since| |code failed|data| |err].
  - by apply ok_ret, HQ, Hsame.
  - apply ok_bind, ok_set, ok_ret, HQ. split; [by cbn; rewrite Ho1|]. split; [done|]. split; [|done]. cbn. destruct (o_commitInFlight o1); cbn in *; lia.
  - apply ok_bind, on_exit_ok; [done|]. intros new o' Hn (E1 & E2 & E3 & E4). apply ok_ret, HQ. unfold inv.
    rewrite still_reaped, still_armed, still_evaluating, still_requesting by done. rewrite E1, E2, E3, E4. repeat split; done.
  - apply ok_bind, steady_on_read. intros new o' at_ Hn Ho'. apply ok_ret, HQ.
    eapply inv_still; [by apply calm_still|exact Ho'|]. by apply Hsame.
  - by apply ok_ret, HQ, Hsame.
  - apply ok_leave.
Qed.

(** ** The stages *)

Lemma load_ok o h (Q : list (called Obs) -> ObsState -> ManagedSession -> Prop) :
  (forall s, let h' := Ev (Sup LoadSession) (Ok s) :: h in read_last h' = Some s -> Q h' o s) -> part_ok (value obs_load) o h Q.
Proof. intros HQ. apply ok_value. intros [s|err]; (split; [done|]); [by apply HQ|done]. Qed.

Lemma reset_moves o h current now : reaped h = false -> clock h now -> moves (check_error (resetStableRestartCount current now)) o h.
Proof.
  intros Hr Hc. apply moves_check. intros Q HQ. unfold resetStableRestartCount. destruct (_ || _ || _ || _); [by apply (HQ [])|].
  apply update__wpi; [|exact HQ]. intros s new Hn. destruct (stable current s now) eqn:Hs; [|by apply save_unchanged].
  unfold stable in Hs. destruct (s_ChildStartedAt s) as [at_|] eqn:Ha; [|by rewrite andb_false_r in Hs].
  apply andb_true_iff in Hs as [_ Hs]. eapply save_stable; [by rewrite still_reaped|by apply clock_later|exact Ha|exact Hs|done].
Qed.

(** The detection: the detector is asked at most once, and what it has answered is the result. *)
Lemma Detect_wpi ds s rows changed exited h (Q : list (called Obs) -> res DetectResult -> Prop) :
  (forall h' err, Q h' (Err err)) ->
  (forall old i r new r', Forall still old -> Forall still new -> dr_State r' = dr_State r -> ProcessingIndicator r' = ProcessingIndicator r ->
     Q (new ++ Ev (Detector_Detect i) (Ok r) :: old ++ h) (Ok r')) ->
  wpi record_ev P (Detect_Execute ds s rows changed exited) h Q.
Proof.
  intros Herr HQ. unfold Detect_Execute. destruct (negb (ds_Detector ds)); [by apply Herr|].
  apply wpi_bind. eapply wpi_emits; [intros; by apply calm_in_order|emit|]. intros new1 now Hn1 _.
  apply wpi_bind. eapply wpi_emits; [intros; by apply calm_in_order|emit|]. intros new2 r Hn2 _.
  destruct (statusline_info s now r) as [info unknown]. apply wpi_call. intros [result|err]; (split; [done|]); [|by apply Herr].
  cbv beta iota zeta. set (i := mkDetectInput _ _ _ _ _ _ _ _ _).
  rewrite (app_assoc new2 new1 h). set (old := new2 ++ new1).
  assert (Forall still old) as Hold by (apply list.Forall_app; split; by apply calm_still).
  match goal with |- wpi _ _ (if ?b then _ else _) _ _ => destruct b eqn:E end; [|by apply (HQ old i result [])].
  apply andb_true_iff in E as [[E _]%andb_true_iff _]. apply negb_true_iff, String.eqb_neq in E.
  apply wpi_bind. apply update__wpi; [intros v new Hn; by eapply save_session_id|].
  intros new [err|] Hn; [by apply Herr|by apply HQ].
Qed.

Ltac pass new o a Hn Ho :=
  match goal with
  | |- part_ok (?p ≫= _) _ _ _ =>
      apply ok_bind; let H := fresh in assert (steady calm p) as H by steadily; apply H; clear H; intros new o a Hn Ho
  end.

Lemma detect_stage_ok current o h (Q : list (called Obs) -> ObsState -> DetectResult -> Prop) :
  inv o h -> (forall h' o' r, inv o' h' -> believed h' = Some (dr_State r) -> Q h' o' r) -> part_ok (detect_stage u current) o h Q.
Proof.
  intros (H1 & H2 & H3 & H4) HQ. unfold detect_stage. apply ok_bind, ok_vars, ok_bind, ok_some. intros rows _.
  apply ok_bind, ok_value, Detect_wpi; [done|]. intros old i r new r' Hold Hnew Hst Hpi.
  set (h1 := new ++ Ev (Detector_Detect i) (Ok r) :: old ++ h).
  assert (armed h1 = ProcessingIndicator r || armed h) as Harm.
  { unfold h1. rewrite still_armed by done. unfold armed at 1. cbn [existsb arms]. f_equal. by apply still_armed. }
  assert (detected_last h1 = Some r) as Hdet by (unfold h1; by rewrite still_detected).
  assert (reaped h1 = reaped h) as Hreap.
  { unfold h1. rewrite still_reaped by done. unfold reaped at 1. cbn [existsb reaps orb]. by apply still_reaped. }
  assert (evaluating h1 = evaluating h /\ requesting h1 = requesting h) as [Hev Hreq].
  { unfold h1. rewrite still_evaluating, still_requesting by done. cbn [evaluating requesting].
    by rewrite still_evaluating, still_requesting. }
  set (o1 := if ProcessingIndicator r' then o <| o_armed := true |> else o).
  assert (inv o1 h1) as Hinv.
  { unfold o1. rewrite Hpi. split; [by rewrite Hreap; destruct (ProcessingIndicator r)|]. split; [by rewrite Harm; destruct (ProcessingIndicator r)|].
    rewrite Hev, Hreq. by destruct (ProcessingIndicator r). }
  apply ok_bind. apply (ok_mono _ _ _ (fun h' o' _ => h' = h1 /\ o' = o1)).
  { unfold o1. apply ok_only; intros ->; [by apply ok_set|done]. }
  intros h' o' _ [-> ->]. apply ok_bind, ok_vars. cbv zeta.
  set (r1 := if negb (o_armed o1) && bool_decide (dr_State r' = StateAwaitingRecommendation) then r' <| dr_State := StateIdle |> else r').
  assert (believed h1 = Some (dr_State r1)) as Hb.
  { unfold believed. rewrite Hdet, <- (proj1 (proj2 Hinv)), <- Hst. unfold r1. by destruct (negb (o_armed o1) && _). }
  pass new1 o2 a1 Hn1 Ho1. pass new2 o3 a2 Hn2 Ho2. pass new3 o4 a3 Hn3 Ho3. apply calm_still in Hn1, Hn2, Hn3.
  apply ok_ret, HQ; [|by rewrite !still_believed].
  eapply inv_still; [done|exact Ho3|]. eapply inv_still; [done|exact Ho2|]. by eapply inv_still.
Qed.

Lemma update_stage_ok result stopped o h (Q : list (called Obs) -> ObsState -> change -> Prop) :
  inv o h -> believed h = Some (dr_State result) -> (stopped = false -> not_stopped u h) ->
  (forall h' o' ch, inv o' h' -> believed h' = Some (dr_State result) -> same o o' -> (o_exited o = true -> ch_next ch <> Some SessionFailed) ->
     (stopped = false -> not_stopped u h') -> Q h' o' ch) ->
  part_ok (update_stage u initial fuel result stopped) o h Q.
Proof.
  intros Hinv Hb Hs HQ. unfold update_stage. apply ok_bind, ok_vars, ok_bind, ok_lift.
  pose proof (update_observed_ok o result stopped h (proj1 Hinv) Hb Hs) as Hup.
  assert (forall new (r : option error * option (change * exitCommit)), Forall still new ->
    (forall a, r.2 = Some a -> o_exited o = true -> ch_next a.1 <> Some SessionFailed) ->
    part_ok (match r with
      | (None, Some (ch, tx)) =>
          match tx_event tx with
          | Some event => only (ob_SendInput u && ob_RecordStructured u)
              (err ← lift (call (RecordSendEvent event)); set_vars (fun o => o <| o_exitEventErr := err |>))
          | None => mret tt
          end;; mret ch
      | (err, _) => leave err
      end) o (new ++ h) Q) as Hrest.
  { intros new [[err|] [[ch tx]|]] Hn HG; try apply ok_leave. pass new1 o1 a1 Hn1 Ho1. apply calm_still in Hn1.
    apply ok_ret, HQ; [eapply inv_still; [done|exact Ho1|]; by eapply inv_still|by rewrite !still_believed|done|exact (HG _ eq_refl)|].
    intros Hst. apply not_stopped_later, not_stopped_later; auto. }
  destruct (ob_SendInput u).
  - by apply (exit_update_wpi _ _ _ (fun ch => o_exited o = true -> ch_next ch <> Some SessionFailed)).
  - by apply (obs_update_wpi _ _ (fun a => o_exited o = true -> ch_next a.1 <> Some SessionFailed)).
Qed.

(** ** The stages that act on the record and on the screen *)

(** Calls that are not noted and do not read the record. *)
Definition mute (e : called Obs) : Prop := still e /\ match e with Ev (Sup LoadSession) _ => False | _ => True end.

Lemma quiet_mute new : Forall quiet new -> Forall mute new.
Proof. apply Forall_impl. by intros e [[? _] ?]. Qed.
Lemma mute_still new : Forall mute new -> Forall still new.
Proof. apply Forall_impl. by intros e [? _]. Qed.
Lemma mute_read new h : Forall mute new -> read_last (new ++ h) = read_last h.
Proof.
  intros Hn. induction Hn as [|[X e x] new [He Hl] Hn IH]; [done|]. cbn. rewrite IH. destruct e; try done.
  by match goal with e : SupEff.Eff _ |- _ => destruct e end.
Qed.

(** What a stage knows: the record that was read last, what has been detected, and whether
    the session is stopped. *)
Record view (current : ManagedSession) (result : DetectResult) (stopped : bool) (o : ObsState) (h : list (called Obs)) : Prop := {
  view_inv : inv o h;
  view_read : read_last h = Some current;
  view_believed : believed h = Some (dr_State result);
  view_stopped : stopped = false -> not_stopped u h }.

Section View.
Context (current : ManagedSession) (result : DetectResult) (stopped : bool).
Abbreviation V := (view current result stopped).

Lemma view_mute o o' new h : Forall mute new -> same o o' -> V o h -> V o' (new ++ h).
Proof.
  intros Hn Ho [H1 H2 H3 H4]. pose proof (mute_still _ Hn) as Hs.
  split; [by eapply inv_still|by rewrite mute_read|by rewrite still_believed|]. intros Hst. by apply not_stopped_later, H4.
Qed.

Lemma view_quiet {A : Type} (p : Part A) o h (Q : list (called Obs) -> ObsState -> A -> Prop) :
  steady quiet p -> V o h -> (forall new o' a, Forall quiet new -> same o o' -> V o' (new ++ h) -> Q (new ++ h) o' a) -> part_ok p o h Q.
Proof. intros Hp Hv HQ. apply Hp. intros new o' a Hn Ho. apply HQ; [done|done|]. by eapply view_mute; [by apply quiet_mute|exact Ho|]. Qed.

Lemma plan_wpi o h pending st (Q : list (called Obs) -> RotationPlanDecision -> Prop) :
  V o h ->
  (forall new i, Forall quiet new -> planned (new ++ h) current i -> pi_Stopped i = st -> pi_Detected i = result ->
     Q (new ++ h) (Evaluate i)) ->
  wpi record_ev P (plan u current result pending st) h Q.
Proof.
  intros Hv HQ. unfold plan. apply wpi_bind. eapply wpi_emits; [intros; by apply quiet_order|emit|]. intros new at_ Hn _.
  apply wpi_bind. intros now. split; [done|]. apply (HQ (Ev (Sup SupEff.Now) now :: new)); [by repeat constructor| |done|done].
  split; [done|]. split; [|split; [done|by left]]. cbn. rewrite app_comm_cons, still_believed; [by apply (view_believed _ _ _ _ _ Hv)|].
  constructor; [done|]. by apply quiet_still.
Qed.

Lemma start_not_stopped i : pd_Start (Evaluate i) = true -> pi_Stopped i = false.
Proof.
  unfold Evaluate, plan_pending, noDecision. destruct (pi_Stopped i); [|done]. rewrite orb_true_r. repeat case_match; done.
Qed.

Ltac quietly new o a Hn Ho Hv :=
  match goal with
  | |- part_ok (?p ≫= _) _ _ _ =>
      apply ok_bind; let H := fresh in assert (steady quiet p) as H by steadily; eapply (view_quiet p); [exact H|eassumption|]; clear H;
      intros new o a Hn Ho Hv
  end.

Lemma obs_begin_rotation_ok rot o h (Q : list (called Obs) -> ObsState -> unit -> Prop) :
  V o h -> reaped h = false -> Ev Rotation_IsRunning false ∈ turn h -> s_Rotation current = None ->
  (forall h' o', V o' h' -> same o o' -> Q h' o' tt) ->
  part_ok (begin_rotation u id rot current result stopped) o h Q.
Proof.
  intros Hv Hr Hrun Hrot HQ. unfold begin_rotation. apply ok_bind, ok_vars, ok_bind, ok_lift. eapply plan_wpi; [exact Hv|].
  intros new1 i Hn1 Hpl Hst _. apply (view_mute o o new1) in Hv; [|by apply quiet_mute|done].
  assert (reaped (new1 ++ h) = false /\ Ev Rotation_IsRunning false ∈ turn (new1 ++ h)) as [Hr1 Hrun1].
  { apply quiet_still in Hn1. split; [by rewrite still_reaped|by apply still_in_turn]. }
  set (h1 := new1 ++ h) in *. quietly new2 o2 a2 Hn2 Ho2 Hv2. quietly new3 o3 a3 Hn3 Ho3 Hv3.
  assert (same o o3) as Ho' by (by eapply same_vars_trans).
  destruct (pd_Start (Evaluate i)) eqn:Es.
  - quietly new4 o4 a4 Hn4 Ho4 Hv4. quietly new5 o5 a5 Hn5 Ho5 Hv5.
    rewrite !app_assoc in Hv5 |- *. set (new := ((new5 ++ new4) ++ new3) ++ new2) in *.
    assert (Forall still new) as Hn by (unfold new; rewrite !list.Forall_app; auto using quiet_still).
    apply ok_lift. intros []. split.
    + split; [by rewrite still_reaped|]. split; [apply (view_stopped _ _ _ _ _ Hv5); apply start_not_stopped in Es; congruence|].
      split; [by apply still_in_turn|]. exists current, i. split; [by apply (view_read _ _ _ _ _ Hv5)|]. split; [done|].
      split; [by apply planned_later|done].
    + apply HQ; [by apply (view_mute o5 o5 [Ev GoRotationExecute tt]); [repeat constructor| |]|]. by do 2 (eapply same_vars_trans; [|eassumption]).
  - match goal with |- part_ok ?p _ _ _ => assert (steady quiet p) as Hp by steadily end.
    eapply view_quiet; [exact Hp|exact Hv3|]. intros new o4 [] _ Ho4 Hv4. apply HQ; [done|]. by eapply same_vars_trans.
Qed.

Lemma rotation_stage_ok o h (Q : list (called Obs) -> ObsState -> unit -> Prop) :
  V o h -> (forall h' o', V o' h' -> same o o' -> Q h' o' tt) -> part_ok (rotation_stage u id current result stopped) o h Q.
Proof.
  intros Hv HQ. unfold rotation_stage. destruct (ob_Rotation u) as [rot|]; [|by apply ok_ret, HQ].
  apply ok_bind, ok_vars, ok_bind. apply (ok_mono _ _ _ (fun h' o' _ => V o' h' /\ same o o')).
  { apply ok_only; intros Hi; [|done]. apply ok_bind, ok_lift. intros running. split; [done|].
    assert (V o (Ev Rotation_IsRunning running :: h)) as Hv1 by (apply (view_mute o o [Ev Rotation_IsRunning running]); [by repeat constructor|done|done]).
    apply ok_only; intros Hrun; [|done]. quietly new1 o1 a1 Hn1 Ho1 Hv2. apply ok_lift. intros []. split.
    - destruct running; [done|]. split; [apply still_in_turn; [by apply quiet_still|by left]|]. exists current. split; [by apply (view_read _ _ _ _ _ Hv2)|done].
    - split; [|done]. by apply (view_mute o1 o1 [Ev GoRotationRun tt]); [repeat constructor|..]. }
  intros h1 o1 _ [Hv1 Ho1]. apply ok_bind. apply (ok_mono _ _ _ (fun h' o' _ => V o' h' /\ same o o')).
  { apply ok_only; intros He; [|done]. apply ok_bind, ok_lift. intros running. split; [done|].
    assert (V o1 (Ev Rotation_IsRunning running :: h1)) as Hv2 by (apply (view_mute o1 o1 [Ev Rotation_IsRunning running]); [by repeat constructor|done|done]).
    apply ok_only; intros Hrun; [|done]. destruct running; [done|]. destruct (s_Rotation current) eqn:Hrot; [done|].
    apply obs_begin_rotation_ok; [done| |by left|done|intros h' o' Hv' Ho'; split; [done|by eapply same_vars_trans]].
    pose proof (view_inv _ _ _ _ _ Hv2) as [Hr _]. rewrite <- Hr. destruct Ho1 as [-> _]. by destruct (o_exited o). }
  intros h2 o2 _ [Hv2 Ho2]. apply ok_lift. intros []. split; [done|]. apply HQ; [|done].
  by apply (view_mute o2 o2 [Ev Rotation_Wake tt]); [repeat constructor|..].
Qed.

Lemma commit_stage_ok o h (Q : list (called Obs) -> ObsState -> unit -> Prop) :
  V o h -> (forall h' o', V o' h' -> o_exited o' = o_exited o -> Q h' o' tt) -> part_ok (commit_stage u current) o h Q.
Proof.
  intros Hv HQ. unfold commit_stage. apply ok_bind, ok_vars, ok_only; intros Hc; [|by apply HQ].
  apply andb_true_iff in Hc as [[He Harm]%andb_true_iff Hstate]. apply negb_true_iff in He.
  quietly new1 o1 a1 Hn1 Ho1 Hv1. set (h1 := new1 ++ h) in *. apply ok_bind, ok_lift. intros now. split; [done|].
  set (h2 := Ev (Sup SupEff.Now) now :: h1).
  assert (V o1 h2) as Hv2 by (by apply (view_mute o1 o1 [Ev (Sup SupEff.Now) now]); [repeat constructor|..]).
  apply ok_bind, ok_vars, ok_only; intros Hd; [|apply HQ; [done|apply Ho1]].
  apply andb_true_iff in Hd as [[[Hset _]%andb_true_iff _]%andb_true_iff Hfree]. apply negb_true_iff in Hfree.
  destruct Hv2 as [(H1 & H2 & H3 & H4) Hread Hb Hst]. destruct Ho1 as (E1 & E2 & E3 & E4). rewrite Hfree in H3.
  apply ok_bind, ok_set, ok_lift. intros []. split.
  - split; [by rewrite <- H1, E1|]. split; [by rewrite <- H2, E2|]. split; [lia|]. exists current. split; [done|]. split; [done|].
    split; [apply orb_true_iff in Hstate as [Hs|Hs]; apply bool_decide_eq_true in Hs; set_solver|]. exists now. split; [by left|lia].
  - apply HQ; [|done]. split; [|done|done|].
    + split; [done|]. split; [done|]. split; [cbn in *; lia|done].
    + intros Hs. destruct (Hst Hs) as [Hu|Hi]; [by left|right]. by right.
Qed.

Lemma pending_stage_ok o h (Q : list (called Obs) -> ObsState -> unit -> Prop) :
  V o h -> (forall h' o', V o' h' -> o_exited o' = o_exited o -> Q h' o' tt) -> part_ok (pending_stage u current result) o h Q.
Proof.
  intros [(H1 & H2 & H3 & H4) Hread Hb Hst] HQ. unfold pending_stage. apply ok_bind, ok_vars, ok_only; intros Hc; [|by apply HQ].
  apply andb_true_iff in Hc as [[_ Hp]%andb_true_iff Hfree]. apply negb_true_iff in Hfree. rewrite Hfree in H4.
  apply ok_bind, ok_set, ok_lift. intros []. split.
  - split; [lia|]. split; [done|]. by exists current.
  - apply HQ; [|done]. split; [|done|done|].
    + split; [done|]. split; [done|]. split; [done|cbn; lia].
    + intros Hs. destruct (Hst Hs) as [Hu|Hi]; [by left|right]. by right.
Qed.

Lemma auto_stage_ok ch since o h (Q : list (called Obs) -> ObsState -> unit -> Prop) :
  V o h -> (forall h' o', V o' h' -> o_exited o' = o_exited o -> Q h' o' tt) -> part_ok (auto_stage u id current result ch since) o h Q.
Proof.
  intros Hv HQ. unfold auto_stage. apply ok_bind, ok_vars, ok_only; intros Hc; [|by apply HQ].
  apply andb_true_iff in Hc as [[_ He]%andb_true_iff Hstate]. apply negb_true_iff in He. apply bool_decide_eq_true in Hstate.
  quietly new1 o1 a1 Hn1 Ho1 Hv1. quietly new2 o2 a2 Hn2 Ho2 Hv2. apply ok_bind, ok_lift. eapply plan_wpi; [exact Hv2|].
  intros new3 i Hn3 Hpl _ Hdet. apply (view_mute o2 o2 new3) in Hv2; [|by apply quiet_mute|done]. set (h3 := new3 ++ new2 ++ new1 ++ h) in *.
  quietly new4 o4 a4 Hn4 Ho4 Hv4. apply ok_bind, ok_lift. intros now. split; [done|].
  set (h5 := Ev (Sup SupEff.Now) now :: new4 ++ h3). cbv zeta.
  assert (V o4 h5) as Hv5 by (by apply (view_mute o4 o4 [Ev (Sup SupEff.Now) now]); [repeat constructor|..]).
  assert (o_exited o4 = o_exited o) as Hex by (destruct Ho1 as [E1 _], Ho2 as [E2 _], Ho4 as [E4 _]; congruence).
  assert (planned h5 current i) as Hpl5.
  { unfold h5. rewrite app_comm_cons. apply planned_later; [|done]. constructor; [done|]. by apply quiet_still. }
  set (percent := if pd_ContextUnknown (Evaluate i) then None else ContextPercent result).
  apply ok_bind, ok_vars, ok_bind. apply (ok_mono _ _ _ (fun h' o' _ => V o' h' /\ o_exited o' = o_exited o)).
  { apply ok_only; intros Hs; [|done]. apply andb_true_iff in Hs as [Hs _]. apply ok_bind, ok_some. intros rows _.
    apply ok_bind, ok_lift. intros []. split.
    - split; [rewrite <- (proj1 (view_inv _ _ _ _ _ Hv5)); congruence|]. exists current.
      split; [by apply (view_read _ _ _ _ _ Hv5)|]. split; [done|]. split; [done|]. split; [exists now; split; [by left|cbn; lia]|].
      cbn. unfold percent. intros p Hp. destruct (pd_ContextUnknown (Evaluate i)) eqn:Eu; [done|]. exists i. by rewrite Hdet.
    - apply ok_set. split; [|done].
      by apply (view_mute o4 _ [Ev (AutoContinue_EvaluateAsync (mkContinueInput rows percent (s_StateSince current))) tt]); [repeat constructor|..]. }
  intros h6 o6 _ [Hv6 He6]. apply ok_set, HQ; [|done]. by apply (view_mute o6 _ []).
Qed.
End View.

(** ** The ends *)

Lemma exit_stage_moves ch b o h : inv o h -> moves (exit_stage u id ch b) o h.
Proof.
  intros [Hr _]. unfold exit_stage. intros Q HQ. apply ok_bind, ok_vars. revert Q HQ.
  change (moves (only (o_exited o)
    (lift (when_set (ob_SendInput u && ob_PTYs u) (call PTYs_RemoveCurrent));;
     lift (when_set (ob_SendInput u)
       (call (Mu (fun s => (Sends.EndSession s, tt)));; when_set (ob_Screens u) (call (Screens_Delete (o_screenOwner o)))));;
     lift (when_set (ob_InitialRemoteControl u) (call InitialRemoteControl_EndSession));;
     current ← value obs_load;
     drop_pending u id current;;
     lift (recordExitOutcome u id current b);;
     lift (if is_none (s_Rotation current) then startRecovery u (ch_next ch) current else call Rotation_Wake))) o h).
  apply moves_only. intros He. rewrite He in Hr.
  apply moves_bind; [apply moves_calm; steadily|]. intros new1 o1 _ Hn1 _.
  apply moves_bind; [apply moves_calm; steadily|]. intros new2 o2 _ Hn2 _.
  apply moves_bind; [apply moves_calm; steadily|]. intros new3 o3 _ Hn3 _.
  apply moves_bind; [apply moves_calm; steadily|]. intros new4 o4 current Hn4 _.
  apply moves_bind; [|intros; apply moves_calm; steadily].
  unfold drop_pending. apply moves_only. intros _. apply moves_bind; [|intros; apply moves_calm; steadily].
  apply moves_check. intros Q HQ. apply update__wpi; [|exact HQ]. intros s new Hn. apply save_dropped; [|done]. by rewrite !still_reaped.
Qed.

Lemma end_failed_ok o h (Q : list (called Obs) -> ObsState -> unit -> Prop) : reaped h = false -> part_ok (end_failed u) o h Q.
Proof.
  intros Hr. unfold end_failed. apply ok_bind, ok_lift.
  assert (forall h', reaped h' = true -> part_ok (
    set_vars (fun o => o <| o_exited := true |>);;
    lift (call ForgetChild);;
    lift (call ClosePTY);;
    check_error (ObUpdateSession_ (fun s => s <| s_ChildPID := 0 |> <| s_ChildStartedAt := None |>));;
    lift (forget_observations u);;
    leave None) o h' Q) as Hrest.
  { intros h' Hr'. apply ok_bind, ok_set, ok_bind, ok_lift. intros []. split; [done|]. apply ok_bind, ok_lift. intros []. split; [done|].
    apply ok_bind, ok_check, update__wpi.
    - intros s new Hn. eapply save_ended; [by rewrite still_reaped|done|done|by left|by left].
    - intros new err Hn _. pass new' o' a' Hn' Ho'. apply ok_leave. }
  destruct (ob_pty_kills u).
  - intros []. split; [done|]. intros gone. split; [done|]. destruct gone; [by apply Hrest|].
    intros []. split; [split; [by right; left|by left]|]. intros []. split; [done|]. by apply Hrest.
  - intros []. split; [done|]. intros []. split; [done|]. by apply Hrest.
Qed.

Lemma failed_stage_ok ch result o h (Q : list (called Obs) -> ObsState -> unit -> Prop) :
  inv o h -> (o_exited o = true -> ch_next ch <> Some SessionFailed) ->
  (forall h' o', inv o' h' -> o_exited o' = o_exited o -> Q h' o' tt) -> part_ok (failed_stage u id ch result) o h Q.
Proof.
  intros Hinv Hf HQ. unfold failed_stage. cbv zeta. apply ok_only; intros _; [|by apply HQ].
  pass new1 o1 cur Hn1 Ho1. pass new2 o2 a2 Hn2 Ho2. apply calm_still in Hn1, Hn2.
  assert (inv o2 (new2 ++ new1 ++ h)) as Hinv2 by (eapply inv_still; [done|exact Ho2|]; by eapply inv_still).
  assert (o_exited o2 = o_exited o) as He by (destruct Ho1 as [E1 _], Ho2 as [E2 _]; congruence).
  apply ok_only; intros Hc; [|by apply HQ]. apply bool_decide_eq_true in Hc. apply end_failed_ok.
  destruct Hinv2 as [Hr _]. rewrite <- Hr, He. destruct (o_exited o) eqn:E; [|done]. by destruct (Hf eq_refl).
Qed.

Lemma end_stage_ok o h (Q : list (called Obs) -> ObsState -> unit -> Prop) : (o_exited o = false -> Q h o tt) -> part_ok (end_stage u) o h Q.
Proof.
  intros HQ. unfold end_stage. apply ok_bind, ok_vars, ok_only; [|done]. intros _. pass new o' a Hn Ho. apply ok_leave.
Qed.

(** ** The loop *)

Tactic Notation "calm_stage" ident(Hinv) ident(new) ident(o) ident(a) ident(Hn) ident(Ho) :=
  pass new o a Hn Ho; apply calm_still in Hn; apply (inv_still _ _ _ _ Hn Ho) in Hinv.

Lemma ends_ok result ch b o h (Q : list (called Obs) -> ObsState -> unit -> Prop) :
  inv o h -> (o_exited o = true -> ch_next ch <> Some SessionFailed) ->
  (forall h' o', inv o' h' -> o_exited o' = false -> Q h' o' tt) ->
  part_ok (initial_stage u ch;; events_stage u id ch b;; exit_stage u id ch b;; undetermined_stage u id result;;
    failed_stage u id ch result;; end_stage u) o h Q.
Proof.
  intros Hinv Hf HQ. calm_stage Hinv new1 o1 a1 Hn1 Ho1. calm_stage Hinv new2 o2 a2 Hn2 Ho2.
  apply ok_bind, exit_stage_moves; [done|]. intros new3 o3 _ Hn3 Ho3. apply (inv_still _ _ _ _ Hn3 Ho3) in Hinv.
  calm_stage Hinv new4 o4 a4 Hn4 Ho4. apply ok_bind, failed_stage_ok; [done| |].
  { destruct Ho1 as [E1 _], Ho2 as [E2 _], Ho3 as [E3 _], Ho4 as [E4 _]. rewrite E4, E3, E2, E1. exact Hf. }
  intros h' o' Hinv' _. apply end_stage_ok. by apply HQ.
Qed.

Lemma iteration_ok o h (Q : list (called Obs) -> ObsState -> unit -> Prop) :
  inv o h -> o_exited o = false -> (forall h' o', inv o' h' -> o_exited o' = false -> Q h' o' tt) ->
  part_ok (iteration u id initial fuel) o h Q.
Proof.
  intros Hinv He HQ. unfold iteration. apply ok_bind, on_select_ok; [done|done|]. clear o h Hinv He. intros h o sel Hinv.
  calm_stage Hinv new1 o1 cur Hn1 Ho1. apply ok_bind, ok_vars, ok_bind.
  apply (ok_mono _ _ _ (fun h' o' _ => inv o' h')).
  { apply ok_only; intros He; [|done]. apply ok_bind, ok_lift. intros now. split; [done|]. apply negb_true_iff in He.
    apply reset_moves; [by rewrite <- He, (proj1 Hinv)|by left|]. intros new o' _ Hn Ho.
    eapply (inv_still _ _ new); [done|exact Ho|]. by apply (inv_still o1 o1 [Ev (Sup SupEff.Now) now]); [repeat constructor|..]. }
  clear o h new1 o1 Hn1 Ho1 Hinv. intros h o _ Hinv.
  apply ok_bind, detect_stage_ok; [done|]. clear h o Hinv. intros h o result Hinv Hb. apply ok_bind.
  apply (ok_mono _ _ _ (fun h' o' stopped => inv o' h' /\ believed h' = Some (dr_State result) /\ (stopped = false -> not_stopped u h'))).
  { destruct (ob_Stop u) eqn:Es; [|apply ok_lift; split; [done|]; split; [done|]; by left]. apply ok_lift. intros stopped. split; [done|].
    split; [by apply (inv_still o o [Ev (Sup StopState_IsStopped) stopped]); [repeat constructor|..]|]. split; [exact Hb|]. intros ->. right. by left. }
  clear h o Hinv Hb. intros h o stopped (Hinv & Hb & Hst). cbv zeta. apply ok_bind, update_stage_ok; [done|done|done|].
  clear Hinv Hb Hst. intros h1 o1 ch Hinv Hb Ho Hf Hst. assert (o_exited o1 = true -> ch_next ch <> Some SessionFailed) as Hf1.
  { destruct Ho as [-> _]. exact Hf. }
  calm_stage Hinv new2 o2 a2 Hn2 Ho2. apply ok_bind, load_ok. intros current' h3 Hread.
  assert (view current' result stopped o2 h3) as Hv.
  { split; [by apply (inv_still o2 o2 [Ev (Sup LoadSession) (Ok current')]); [repeat constructor|..]|exact Hread| |].
    - unfold h3. rewrite <- Hb, <- (still_believed new2 h1 Hn2). done.
    - intros Hs. apply (not_stopped_later _ (Ev (Sup LoadSession) (Ok current') :: new2) h1); [by constructor|auto]. }
  assert (o_exited o2 = o_exited o1) as E2 by apply Ho2. rewrite <- E2 in Hf1. clearbody h3. clear Hread Hinv Hb Hst Hf Ho E2 Ho2.
  apply ok_bind. eapply view_quiet; [apply steady_context|exact Hv|]. intros new4 o4 _ _ [E4 _] Hv4.
  apply ok_bind. eapply view_quiet; [apply steady_decision|exact Hv4|]. intros new5 o5 _ _ [E5 _] Hv5.
  apply ok_bind, rotation_stage_ok with (1 := Hv5). intros h6 o6 Hv6 [E6 _].
  apply ok_bind. eapply view_quiet; [apply steady_permission|exact Hv6|]. intros new7 o7 _ _ [E7 _] Hv7.
  apply ok_bind, commit_stage_ok with (1 := Hv7). intros h8 o8 Hv8 E8.
  apply ok_bind, auto_stage_ok with (1 := Hv8). intros h9 o9 Hv9 E9.
  apply ok_bind, pending_stage_ok with (1 := Hv9). intros h10 o10 Hv10 E10.
  apply ends_ok; [by apply (view_inv _ _ _ _ _ Hv10)| |exact HQ]. rewrite E10, E9, E8, E7, E6, E5, E4. exact Hf1.
Qed.

Lemma observe_loop_ok rounds o h :
  inv o h -> o_exited o = false -> part_ok (observe_loop u id initial fuel rounds) o h (fun _ _ _ => True).
Proof.
  revert o h. induction rounds as [|rounds IH]; intros o h Hinv He; [apply ok_lift; intros []|].
  apply ok_bind, iteration_ok; [done|done|]. intros h' o' Hinv' He'. by apply IH.
Qed.

Ltac calls new a Hn :=
  match goal with
  | |- wpi _ _ (?p ≫= _) _ _ =>
      apply wpi_bind; eapply (wpi_emits record_ev P calm p); [intros; by apply calm_in_order|emit|]; intros new a Hn _
  end.

Lemma Run_ok rounds vt : always record_ev P (Run u id initial fuel rounds vt) [].
Proof.
  unfold Run, always. destruct (negb (ob_Sessions u)); [done|].
  calls new1 owner Hn1. calls new2 a2 Hn2. calls new3 a3 Hn3. calls new4 a4 Hn4. calls new5 a5 Hn5. calls new6 a6 Hn6. calls new7 now Hn7.
  calls new8 a8 Hn8. calls new9 a9 Hn9. apply calm_still in Hn1, Hn2, Hn3, Hn4, Hn5, Hn6, Hn7, Hn8, Hn9.
  apply wpi_bind. eapply wpi_mono; [apply observe_loop_ok; [|done]|].
  - unfold inv. rewrite !still_reaped, !still_armed, !still_evaluating, !still_requesting by done. cbn. done.
  - intros h [o r] _. calls new10 a10 Hn10. done.
Qed.
End Parts.

