(* ===== verification/Pending.v ===== *)
(** * The reconciliation set of unfinished signals ([internal/recovery/pending.go])

    A task whose termination could not be confirmed is registered here together
    with what is known about the signal: not sent, sent, or only to be confirmed.
    Whoever sends the signal claims the entry first and reports the outcome with
    the token of its claim.  Each method holds the mutex throughout, so a
    concurrent history is a sequence of calls. *)

From S2P Require Import Prelude.
From S2P Require Import Errors.
From S2P Require Import Domain.

(** ** Data *)

Record ProcessSignalAuthority : Type := mkAuthority {
  a_TaskID : TaskID;
  a_PID : Z;
  a_ProcessStartedAt : Time;
  a_ExpectedState : TaskState;
  a_LifecycleGeneration : option Z }.

(** [ProcessSignalAuthority{}] *)
Definition noAuthority : ProcessSignalAuthority := mkAuthority "" 0 zeroTime (StateOther "") None.

Record SendClaim : Type := mkClaim {
  cl_TaskID : TaskID;
  cl_Token : Z;
  cl_Authority : ProcessSignalAuthority }.

Definition noClaim : SendClaim := mkClaim "" 0 noAuthority.

(** A disposition is an [int], and callers may pass any. *)
Abbreviation PendingSendDisposition := Z (only parsing).
Definition PendingSendUnsent : PendingSendDisposition := 0.
Definition PendingSendSent : PendingSendDisposition := 1.
Definition PendingSendConfirmOnly : PendingSendDisposition := 2.

Inductive ClaimOutcome : Type :=
| ClaimNotFound
| ClaimAcquired
| ClaimAlreadyClaimed
| ClaimSent
| ClaimConfirmOnly.

Inductive pendingState : Type :=
| pendingUnsent
| pendingClaimed
| pendingSent
| pendingConfirmOnly.

#[export] Instance ClaimOutcome_eq_dec : EqDecision ClaimOutcome.
Proof. solve_decision. Defined.
#[export] Instance pendingState_eq_dec : EqDecision pendingState.
Proof. solve_decision. Defined.

Record PendingEntry : Type := mkEntry {
  e_taskID : TaskID;
  e_state : pendingState;
  e_authority : ProcessSignalAuthority;
  e_claimToken : Z;
  e_initialClaimFromUnsent : bool }.

#[export] Instance PendingEntry_settable : Settable PendingEntry := fun e =>
  mkEntry (e_taskID e) (e_state e) (e_authority e) (e_claimToken e) (e_initialClaimFromUnsent e).

Record PendingSet : Type := mkSet {
  entries : gmap TaskID PendingEntry;
  nextToken : Z }.

#[export] Instance PendingSet_settable : Settable PendingSet := fun s => mkSet (entries s) (nextToken s).

Definition emptySet : PendingSet := mkSet ∅ 0.

Abbreviation PendM := (PM PendingSet).

(** ** Registration *)

Definition validatePendingRegistration (taskID : TaskID) (disposition : PendingSendDisposition)
    (authority : option ProcessSignalAuthority) : option error :=
  if (disposition <? PendingSendUnsent) || (PendingSendConfirmOnly <? disposition)
  then Some (Errorf "recovery: invalid pending send disposition" [])
  else if disposition =? PendingSendUnsent then
    match authority with
    | None => Some (Errorf "recovery: unsent pending entry requires process signal authority" [])
    | Some a =>
        if negb (a_TaskID a =? taskID)%string
        then Some (Errorf "recovery: process signal authority task ID does not match pending entry" [])
        else if a_PID a <=? 0
        then Some (Errorf "recovery: process signal authority requires a positive PID" [])
        else if IsZero (a_ProcessStartedAt a)
        then Some (Errorf "recovery: process signal authority requires a non-zero process start time" [])
        else None
    end
  else None.

(** [*authority]: a nil pointer panics. *)
Definition deref_authority (authority : option ProcessSignalAuthority) : PendM ProcessSignalAuthority :=
  match authority with Some a => mret a | None => pm_panic end.

Definition pendingEntryForRegistration (taskID : TaskID) (disposition : PendingSendDisposition)
    (authority : option ProcessSignalAuthority) : PendM PendingEntry :=
  if disposition =? PendingSendUnsent then
    a ← deref_authority authority;
    mret (mkEntry taskID pendingUnsent a 0 false)
  else if disposition =? PendingSendSent then mret (mkEntry taskID pendingSent noAuthority 0 false)
  else if disposition =? PendingSendConfirmOnly then mret (mkEntry taskID pendingConfirmOnly noAuthority 0 false)
  else mret (mkEntry taskID pendingUnsent noAuthority 0 false).

Definition store_entry (taskID : TaskID) (e : PendingEntry) : PendM unit :=
  pm_modify (fun s => s <| entries := <[taskID := e]> (entries s) |>).

Definition ErrPendingClaimed : error := Sentinel PendingClaimed.

Definition Register (taskID : TaskID) (disposition : PendingSendDisposition)
    (authority : option ProcessSignalAuthority) : PendM (option error) :=
  match validatePendingRegistration taskID disposition authority with
  | Some err => mret (Some err)
  | None =>
    s ← pm_get;
    match entries s !! taskID with
    | None =>
        entry ← pendingEntryForRegistration taskID disposition authority;
        store_entry taskID entry;;
        mret None
    | Some entry =>
        match e_state entry with
        | pendingClaimed => mret (Some ErrPendingClaimed)
        | pendingSent => mret None
        | pendingUnsent =>
            entry ←
              (if disposition =? PendingSendUnsent then
                 a ← deref_authority authority; mret (entry <| e_authority := a |>)
               else if disposition =? PendingSendSent then
                 mret (entry <| e_state := pendingSent |> <| e_authority := noAuthority |> <| e_claimToken := 0 |>)
               else if disposition =? PendingSendConfirmOnly then
                 mret (entry <| e_state := pendingConfirmOnly |> <| e_authority := noAuthority |> <| e_claimToken := 0 |>)
               else mret entry);
            store_entry taskID entry;;
            mret None
        | pendingConfirmOnly =>
            let entry := if disposition =? PendingSendSent then entry <| e_state := pendingSent |> else entry in
            store_entry taskID entry;;
            mret None
        end
    end
  end.

(** ** Claims *)

(** [Equal] on times compares instants. *)
Definition pendingAuthorityEqual (left right : ProcessSignalAuthority) : bool :=
  if negb (a_TaskID left =? a_TaskID right)%string || negb (a_PID left =? a_PID right)
     || negb (a_ProcessStartedAt left =? a_ProcessStartedAt right)
     || negb (bool_decide (a_ExpectedState left = a_ExpectedState right))
  then false
  else match a_LifecycleGeneration left, a_LifecycleGeneration right with
       | Some g, Some g' => g =? g'
       | None, None => true
       | _, _ => false
       end.

(** [s.nextToken++] on a [uint64], and its new value. *)
Definition issueToken : PendM Z :=
  s ← pm_get;
  let token := wrap_uint64 (nextToken s + 1) in
  pm_modify (fun s => s <| nextToken := token |>);;
  mret token.

(** An entry whose authority is no longer valid is only to be confirmed. *)
Definition confirm_only (e : PendingEntry) : PendingEntry :=
  e <| e_state := pendingConfirmOnly |> <| e_authority := noAuthority |> <| e_claimToken := 0 |>
    <| e_initialClaimFromUnsent := false |>.

(** The part of the two claiming methods that they share: an entry was found. *)
Definition claim_found (initial : bool) (taskID : TaskID) (authority : ProcessSignalAuthority) (entry : PendingEntry)
    : PendM (SendClaim * ClaimOutcome) :=
  match e_state entry with
  | pendingClaimed => mret (noClaim, ClaimAlreadyClaimed)
  | pendingSent => mret (noClaim, ClaimSent)
  | pendingConfirmOnly => mret (noClaim, ClaimConfirmOnly)
  | pendingUnsent =>
      if negb (pendingAuthorityEqual (e_authority entry) authority) then
        store_entry taskID (confirm_only entry);;
        mret (noClaim, ClaimConfirmOnly)
      else
        token ← issueToken;
        store_entry taskID (entry <| e_claimToken := token |> <| e_state := pendingClaimed |>
                              <| e_initialClaimFromUnsent := initial |>);;
        mret (mkClaim taskID token (e_authority entry), ClaimAcquired)
  end.

Definition ClaimForSend (taskID : TaskID) (authority : ProcessSignalAuthority) : PendM (SendClaim * ClaimOutcome) :=
  s ← pm_get;
  match entries s !! taskID with
  | None => mret (noClaim, ClaimNotFound)
  | Some entry => claim_found false taskID authority entry
  end.

Definition ClaimInitialSend (taskID : TaskID) (authority : ProcessSignalAuthority) : PendM (SendClaim * ClaimOutcome) :=
  s ← pm_get;
  match entries s !! taskID with
  | None =>
      token ← issueToken;
      store_entry taskID (mkEntry taskID pendingClaimed authority token false);;
      mret (mkClaim taskID token authority, ClaimAcquired)
  | Some entry => claim_found true taskID authority entry
  end.

(** ** Reporting the outcome of a claim *)

(** The entry the claim is current for. *)
Definition claimed_entry (claim : SendClaim) (s : PendingSet) : option PendingEntry :=
  match entries s !! cl_TaskID claim with
  | Some entry =>
      if bool_decide (e_state entry = pendingClaimed) && (e_claimToken entry =? cl_Token claim)
      then Some entry else None
  | None => None
  end.

Definition CompleteSend (claim : SendClaim) : PendM bool :=
  s ← pm_get;
  match claimed_entry claim s with
  | None => mret false
  | Some entry =>
      store_entry (cl_TaskID claim)
        (entry <| e_state := pendingSent |> <| e_authority := noAuthority |> <| e_initialClaimFromUnsent := false |>);;
      mret true
  end.

Definition ReleaseSend (claim : SendClaim) : PendM bool :=
  s ← pm_get;
  match claimed_entry claim s with
  | None => mret false
  | Some entry =>
      store_entry (cl_TaskID claim) (entry <| e_state := pendingUnsent |> <| e_initialClaimFromUnsent := false |>);;
      mret true
  end.

Definition InvalidateSend (claim : SendClaim) : PendM bool :=
  s ← pm_get;
  match claimed_entry claim s with
  | None => mret false
  | Some entry =>
      if negb (e_taskID entry =? cl_TaskID claim)%string then mret false
      else store_entry (cl_TaskID claim) (confirm_only entry);; mret true
  end.

Definition delete_entry (taskID : TaskID) : PendM unit :=
  pm_modify (fun s => s <| entries := delete taskID (entries s) |>).

Definition RemoveClaim (claim : SendClaim) : PendM bool :=
  s ← pm_get;
  match claimed_entry claim s with
  | None => mret false
  | Some entry =>
      if negb (e_taskID entry =? cl_TaskID claim)%string then mret false
      else if e_initialClaimFromUnsent entry then
        store_entry (cl_TaskID claim)
          (entry <| e_state := pendingUnsent |> <| e_claimToken := 0 |> <| e_initialClaimFromUnsent := false |>);;
        mret true
      else delete_entry (cl_TaskID claim);; mret true
  end.

Definition PendingRemove (taskID : TaskID) : PendM unit :=
  s ← pm_get;
  match entries s !! taskID with
  | Some entry => if bool_decide (e_state entry = pendingClaimed) then mret tt else delete_entry taskID
  | None => delete_entry taskID
  end.

(** [List]: the entries, in the order of a Go map's iteration, that is in any. *)
Definition PendingList (s : PendingSet) : list PendingEntry := snd <$> map_to_list (entries s).

(** ** Histories of calls *)

Inductive PendingOp : Type :=
| OpRegister (taskID : TaskID) (disposition : PendingSendDisposition) (authority : option ProcessSignalAuthority)
| OpClaimForSend (taskID : TaskID) (authority : ProcessSignalAuthority)
| OpClaimInitialSend (taskID : TaskID) (authority : ProcessSignalAuthority)
| OpCompleteSend (claim : SendClaim)
| OpReleaseSend (claim : SendClaim)
| OpInvalidateSend (claim : SendClaim)
| OpRemoveClaim (claim : SendClaim)
| OpRemove (taskID : TaskID).

Inductive PendingOut : Type :=
| OutError (err : option error)
| OutClaim (claim : SendClaim) (outcome : ClaimOutcome)
| OutBool (b : bool)
| OutUnit.

Definition run_op (op : PendingOp) : PendM PendingOut :=
  match op with
  | OpRegister t d a => OutError <$> Register t d a
  | OpClaimForSend t a => (fun '(c, o) => OutClaim c o) <$> ClaimForSend t a
  | OpClaimInitialSend t a => (fun '(c, o) => OutClaim c o) <$> ClaimInitialSend t a
  | OpCompleteSend c => OutBool <$> CompleteSend c
  | OpReleaseSend c => OutBool <$> ReleaseSend c
  | OpInvalidateSend c => OutBool <$> InvalidateSend c
  | OpRemoveClaim c => OutBool <$> RemoveClaim c
  | OpRemove t => (fun _ => OutUnit) <$> PendingRemove t
  end.

Fixpoint run_pending (ops : list PendingOp) : PendM (list PendingOut) :=
  match ops with
  | [] => mret []
  | op :: ops => out ← run_op op; outs ← run_pending ops; mret (out :: outs)
  end.

(** ** Specification *)

(** The claim is the current one for its task. *)
Definition owns (c : SendClaim) (s : PendingSet) : Prop := is_Some (claimed_entry c s).

Definition same_claim (c c' : SendClaim) : bool :=
  (cl_TaskID c =? cl_TaskID c')%string && (cl_Token c =? cl_Token c').

(** [op] reports the outcome of claim [c]. *)
Definition resolves (c : SendClaim) (op : PendingOp) : bool :=
  match op with
  | OpCompleteSend c' | OpReleaseSend c' | OpInvalidateSend c' | OpRemoveClaim c' => same_claim c c'
  | _ => false
  end.

(** What everybody else is told about a task that is claimed by [c]. *)
Definition busy_answer (c : SendClaim) (op : PendingOp) (out : PendingOut) : Prop :=
  match op with
  | OpRegister t d a => t = cl_TaskID c -> validatePendingRegistration t d a = None -> out = OutError (Some ErrPendingClaimed)
  | OpClaimForSend t _ | OpClaimInitialSend t _ => t = cl_TaskID c -> out = OutClaim noClaim ClaimAlreadyClaimed
  | OpCompleteSend c' | OpReleaseSend c' | OpInvalidateSend c' | OpRemoveClaim c' =>
      cl_TaskID c' = cl_TaskID c -> out = OutBool false
  | OpRemove _ => True
  end.

Definition sent_at (t : TaskID) (s : PendingSet) : Prop := exists e, entries s !! t = Some e /\ e_state e = pendingSent.

(** [out] acquires a claim on [t] or completes one. *)
Definition acquires (t : TaskID) (op : PendingOp) (out : PendingOut) : bool :=
  match op, out with
  | (OpClaimForSend t' _ | OpClaimInitialSend t' _), OutClaim _ o => bool_decide (o = ClaimAcquired) && (t' =? t)%string
  | _, _ => false
  end.
Definition completes (t : TaskID) (op : PendingOp) (out : PendingOut) : bool :=
  match op, out with
  | OpCompleteSend c, OutBool b => b && (cl_TaskID c =? t)%string
  | _, _ => false
  end.
Definition removes (t : TaskID) (op : PendingOp) : bool :=
  match op with OpRemove t' => (t' =? t)%string | _ => false end.

Definition count_completed (t : TaskID) (ops : list PendingOp) (outs : list PendingOut) : nat :=
  length (filter (fun p => completes t p.1 p.2 = true) (zip ops outs)).

(** ** Lemmas *)

(** The outcome of one call, by cases on the entry it finds. *)
Ltac pend_unfold :=
  unfold run_op, Register, pendingEntryForRegistration, deref_authority, ClaimForSend, ClaimInitialSend, claim_found,
    issueToken, CompleteSend, ReleaseSend, InvalidateSend, RemoveClaim, PendingRemove, store_entry, delete_entry,
    PM_fmap in *; unfold_monads; cbn -[validatePendingRegistration pendingAuthorityEqual wrap_uint64] in *.

Lemma run_op_total (op : PendingOp) (s : PendingSet) : exists s' out, run_op op s = Some (s', out).
Proof.
  destruct op as [t d a|t a|t a|c|c|c|c|t]; pend_unfold; repeat case_match; simplify_eq; eauto.
  all: unfold validatePendingRegistration in *; repeat case_match; simplify_eq/=; simplify_bool; try done.
Qed.

Lemma claimed_entry_spec (c : SendClaim) (s : PendingSet) (e : PendingEntry) :
  claimed_entry c s = Some e <->
  entries s !! cl_TaskID c = Some e /\ e_state e = pendingClaimed /\ e_claimToken e = cl_Token c.
Proof.
  unfold claimed_entry. destruct (entries s !! cl_TaskID c) as [e'|]; [|split; [done|by intros (? & _)]].
  destruct (bool_decide_reflect (e_state e' = pendingClaimed)), (Z.eqb_spec (e_claimToken e') (cl_Token c)); cbn;
    (split; [intros; simplify_eq; auto|intros (? & ? & ?); by simplify_eq]).
Qed.

(** A call about another task leaves the entry alone. *)
Definition op_task (op : PendingOp) : TaskID :=
  match op with
  | OpRegister t _ _ | OpClaimForSend t _ | OpClaimInitialSend t _ | OpRemove t => t
  | OpCompleteSend c | OpReleaseSend c | OpInvalidateSend c | OpRemoveClaim c => cl_TaskID c
  end.

Lemma run_op_other (op : PendingOp) (s s' : PendingSet) (out : PendingOut) (t : TaskID) :
  run_op op s = Some (s', out) -> op_task op <> t -> entries s' !! t = entries s !! t.
Proof.
  intros H Hne. destruct op as [t' d a|t' a|t' a|c|c|c|c|t']; pend_unfold; repeat case_match; simplify_eq/=;
    by rewrite ?lookup_insert_ne, ?lookup_delete_ne by done.
Qed.

(** A call that finds its task claimed by [c] and is not [c]'s own report. *)
Lemma run_op_busy (op : PendingOp) (s s' : PendingSet) (out : PendingOut) (c : SendClaim) :
  owns c s -> op_task op = cl_TaskID c -> resolves c op = false -> run_op op s = Some (s', out) ->
  s' = s /\ busy_answer c op out.
Proof.
  intros [e (He & Hst & Htok)%claimed_entry_spec] Ht Hres H.
  assert (forall c', cl_TaskID c' = cl_TaskID c -> same_claim c c' = false -> claimed_entry c' s = None) as Hother.
  { intros c' Et Hsame. unfold claimed_entry. rewrite Et, He, Htok, Hst. cbn.
    unfold same_claim in Hsame. rewrite Et, String.eqb_refl in Hsame. cbn in Hsame. by rewrite Hsame. }
  destruct op as [t d a|t a|t a|c'|c'|c'|c'|t]; cbn in Ht, Hres; subst; pend_unfold;
    try destruct (validatePendingRegistration _ _ _);
    rewrite ?He, ?Hst, ?(Hother c') in H by done; cbn in H; rewrite ?Hst in H; cbn in H;
    repeat case_match; simplify_eq/=; done.
Qed.

Lemma run_op_owns (op : PendingOp) (s s' : PendingSet) (out : PendingOut) (c : SendClaim) :
  owns c s -> resolves c op = false -> run_op op s = Some (s', out) -> owns c s' /\ busy_answer c op out.
Proof.
  intros Hown Hres H. destruct (decide (op_task op = cl_TaskID c)) as [Ht|Ht].
  - by destruct (run_op_busy op s s' out c Hown Ht Hres H) as [-> Hbusy].
  - split.
    + destruct Hown as [e He]. exists e. rewrite claimed_entry_spec in He |- *.
      by rewrite (run_op_other op s s' out).
    + destruct op; cbn in Ht |- *; done.
Qed.

Lemma run_pending_cons (op : PendingOp) (ops : list PendingOp) (s s' : PendingSet) (outs : list PendingOut) :
  run_pending (op :: ops) s = Some (s', outs) <->
  exists s1 out outs', run_op op s = Some (s1, out) /\ run_pending ops s1 = Some (s', outs') /\ outs = out :: outs'.
Proof.
  cbn [run_pending]. unfold_monads. split.
  - destruct (run_op op s) as [[s1 out]|]; [|done]. destruct (run_pending ops s1) as [[s2 outs']|] eqn:E; [|done].
    intros [= <- <-]. eauto 8.
  - by intros (s1 & out & outs' & -> & -> & ->).
Qed.

(** A lemma about one call is one about histories. *)
Lemma run_pending_ind (P : PendingSet -> Prop) (Q : PendingOp -> PendingOut -> Prop) (R : PendingOp -> Prop) :
  (forall op s s' out, P s -> R op -> run_op op s = Some (s', out) -> P s' /\ Q op out) ->
  forall ops s s' outs, P s -> Forall R ops -> run_pending ops s = Some (s', outs) -> P s' /\ Forall2 Q ops outs.
Proof.
  intros Hstep ops. induction ops as [|op ops IH]; intros s s' outs Hs HR.
  - intros [= <- <-]. by split.
  - intros (s1 & out & outs' & H1 & H2 & ->)%run_pending_cons.
    apply list.Forall_cons in HR as [HR HRs]. destruct (Hstep _ _ _ _ Hs HR H1) as [Hs1 HQ].
    destruct (IH _ _ _ Hs1 HRs H2). split; [done|]. by constructor.
Qed.

Lemma run_op_sent (t : TaskID) (op : PendingOp) (s s' : PendingSet) (out : PendingOut) :
  sent_at t s -> removes t op = false -> run_op op s = Some (s', out) ->
  sent_at t s' /\ acquires t op out = false /\ completes t op out = false.
Proof.
  intros (e & He & Hst) Hrem H. destruct (decide (op_task op = t)) as [Ht|Ht].
  - assert (forall c, cl_TaskID c = t -> claimed_entry c s = None) as Hc.
    { intros c Ec. unfold claimed_entry. by rewrite Ec, He, Hst. }
    destruct op as [t' d a|t' a|t' a|c'|c'|c'|c'|t']; cbn in Ht, Hrem; subst; pend_unfold;
      try destruct (validatePendingRegistration _ _ _);
      rewrite ?He, ?Hst, ?Hc in H by done; cbn in H; rewrite ?Hst in H; cbn in H;
      repeat case_match; simplify_eq/=; rewrite ?String.eqb_refl in *; try done;
      (split; [by exists e|done]).
  - split; [exists e; by rewrite (run_op_other op s s' out)|].
    apply String.eqb_neq in Ht. destruct op; cbn in Ht |- *; destruct out; rewrite ?Ht, ?andb_false_r; done.
Qed.

Lemma run_op_completes (t : TaskID) (op : PendingOp) (s s' : PendingSet) (out : PendingOut) :
  run_op op s = Some (s', out) -> completes t op out = true -> sent_at t s'.
Proof.
  intros H Hc. destruct op; try done. destruct out as [| |b|]; try done. cbn in Hc. simplify_bool. subst.
  pend_unfold. repeat case_match; simplify_eq/=. eexists. cbn. by rewrite lookup_insert_eq.
Qed.

Lemma acquired_owns (op : PendingOp) (s s' : PendingSet) (c : SendClaim) :
  run_op op s = Some (s', OutClaim c ClaimAcquired) -> owns c s'.
Proof.
  intros H. unfold owns. destruct op as [t d a|t a|t a|c'|c'|c'|c'|t]; pend_unfold; repeat case_match; simplify_eq/=;
    unfold claimed_entry; cbn; rewrite lookup_insert_eq; cbn; by rewrite Z.eqb_refl.
Qed.

(** Tokens never exceed the counter. *)
Definition tokens_ok (s : PendingSet) : Prop :=
  0 <= nextToken s /\ forall t e, entries s !! t = Some e -> e_claimToken e <= nextToken s.

(** The claim was issued and is no longer current. *)
Definition spent (c : SendClaim) (s : PendingSet) : Prop := cl_Token c <= nextToken s /\ ~ owns c s.

Lemma wrap_uint64_id (z : Z) : 0 <= z < 2 ^ 64 -> wrap_uint64 z = z.
Proof. intros. by apply Z.mod_small. Qed.

Lemma run_op_tokens (op : PendingOp) (s s' : PendingSet) (out : PendingOut) :
  tokens_ok s -> nextToken s + 1 < 2 ^ 64 -> run_op op s = Some (s', out) ->
  tokens_ok s' /\ nextToken s <= nextToken s' <= nextToken s + 1.
Proof.
  intros [H0 Htok] Hmax H. pose proof (wrap_uint64_id (nextToken s + 1)) as Hwrap.
  destruct op as [t d a|t a|t a|c'|c'|c'|c'|t]; pend_unfold; repeat case_match; simplify_eq/=;
    unfold claimed_entry in *; repeat case_match; simplify_eq/=;
    (split; [split; cbn; [lia|]|lia]); cbn; try done;
    intros t0 e0 He0; cbn in He0;
    (apply lookup_insert_Some in He0 as [[<- <-]|[_ He0]] || apply lookup_delete_Some in He0 as [_ He0]);
    cbn; try lia; repeat match goal with H : entries _ !! _ = Some _ |- _ => apply Htok in H end; lia.
Qed.

(** A report is accepted exactly for the current claim, which it ends. *)
Lemma run_op_resolves (c : SendClaim) (op : PendingOp) (s s' : PendingSet) (out : PendingOut) :
  resolves c op = true -> run_op op s = Some (s', out) ->
  exists b, out = OutBool b /\ if b : bool then owns c s /\ ~ owns c s' else s' = s.
Proof.
  intros Hres H. unfold resolves, same_claim in Hres.
  destruct op as [t d a|t a|t a|c'|c'|c'|c'|t]; try done; simplify_bool; pend_unfold;
    assert (claimed_entry c' s = claimed_entry c s) as E by (unfold claimed_entry; by rewrite H0, H1);
    rewrite E in H; repeat case_match; simplify_eq/=; eexists; (split; [reflexivity|]); cbn; try done;
    (split; [eexists; eassumption|]); intros [e (He & Hst & _)%claimed_entry_spec]; cbn in He;
    rewrite H0, ?lookup_insert_eq, ?lookup_delete_eq in He; by simplify_eq/=.
Qed.

Lemma run_op_spent (c : SendClaim) (op : PendingOp) (s s' : PendingSet) (out : PendingOut) :
  spent c s -> tokens_ok s -> nextToken s + 1 < 2 ^ 64 -> run_op op s = Some (s', out) ->
  spent c s' /\ (resolves c op = true -> out = OutBool false).
Proof.
  intros [Hle Hno] Htok Hmax H. destruct (run_op_tokens op s s' out Htok Hmax H) as [_ Hnext].
  split; [split; [lia|]|].
  - intros [e He]. apply Hno. destruct (decide (op_task op = cl_TaskID c)) as [Ht|Ht].
    2:{ exists e. rewrite claimed_entry_spec in He |- *. by rewrite <- (run_op_other op s s' out). }
    pose proof (wrap_uint64_id (nextToken s + 1)) as Hwrap. destruct Htok as [H0 _].
    apply claimed_entry_spec in He as (He & Hst & Etok).
    destruct op as [t d a|t a|t a|c'|c'|c'|c'|t]; cbn in Ht; pend_unfold; repeat case_match; simplify_eq/=;
      try rewrite ?Ht, ?lookup_insert_eq, ?lookup_delete_eq in He; simplify_eq/=; try done; try lia;
      eexists; apply claimed_entry_spec; eauto.
  - intros Hres. destruct (run_op_resolves c op s s' out Hres H) as [[] [-> Hb]]; [|done]. by destruct Hb.
Qed.

Lemma run_op_spent' (c : SendClaim) (op : PendingOp) (s s' : PendingSet) :
  tokens_ok s -> nextToken s + 1 < 2 ^ 64 -> resolves c op = true -> run_op op s = Some (s', OutBool true) -> spent c s'.
Proof.
  intros Htok Hmax Hres H. destruct (run_op_resolves c op s s' _ Hres H) as ([] & [=] & Hb).
  destruct Hb as [[e (He & _ & Et)%claimed_entry_spec] Hno].
  destruct (run_op_tokens op s s' _ Htok Hmax H) as [_ Hnext]. split; [|done].
  apply Htok in He. lia.
Qed.

Lemma run_pending_tokens (ops : list PendingOp) (s s' : PendingSet) (outs : list PendingOut) :
  tokens_ok s -> nextToken s + Z.of_nat (length ops) < 2 ^ 64 -> run_pending ops s = Some (s', outs) ->
  tokens_ok s' /\ nextToken s' <= nextToken s + Z.of_nat (length ops).
Proof.
  revert s outs. induction ops as [|op ops IH]; intros s outs Htok Hmax; cbn [length] in *.
  - intros [= <- <-]. split; [done|lia].
  - intros (s1 & out & outs' & H1 & H2 & ->)%run_pending_cons.
    destruct (run_op_tokens op s s1 out Htok ltac:(lia) H1) as [Htok1 Hn1].
    destruct (IH s1 outs' Htok1 ltac:(lia) H2). split; [done|lia].
Qed.

Lemma run_pending_spent (c : SendClaim) (ops : list PendingOp) (s s' : PendingSet) (outs : list PendingOut) :
  spent c s -> tokens_ok s -> nextToken s + Z.of_nat (length ops) < 2 ^ 64 -> run_pending ops s = Some (s', outs) ->
  Forall2 (fun op out => resolves c op = true -> out = OutBool false) ops outs.
Proof.
  revert s outs. induction ops as [|op ops IH]; intros s outs Hsp Htok Hmax; cbn [length] in *.
  - intros [= <- <-]. constructor.
  - intros (s1 & out & outs' & H1 & H2 & ->)%run_pending_cons.
    destruct (run_op_spent c op s s1 out Hsp Htok ltac:(lia) H1) as [Hsp1 Hout].
    destruct (run_op_tokens op s s1 out Htok ltac:(lia) H1) as [Htok1 Hn1].
    constructor; [done|]. apply (IH s1); [done..|lia|done].
Qed.

Lemma count_completed_none (t : TaskID) (ops : list PendingOp) (outs : list PendingOut) :
  Forall2 (fun op out => acquires t op out = false /\ completes t op out = false) ops outs ->
  count_completed t ops outs = 0%nat.
Proof.
  unfold count_completed. induction 1 as [|op out ops outs [_ Hc] _ IH]; cbn [zip zip_with]; [done|].
  rewrite filter_cons_False; [done|]. cbn. by rewrite Hc.
Qed.

(** ** Properties *)

(** A claim stays current until its owner reports: whatever other calls
    happen, nobody else acquires a claim on the task, no registration changes the
    entry, no report with another token is accepted, and the owner's report still
    is. *)
Theorem claim_exclusive (op : PendingOp) (ops : list PendingOp) (s s1 s2 : PendingSet) (c : SendClaim)
    (outs : list PendingOut) :
  run_op op s = Some (s1, OutClaim c ClaimAcquired) ->
  Forall (fun op => resolves c op = false) ops ->
  run_pending ops s1 = Some (s2, outs) ->
  Forall2 (busy_answer c) ops outs /\ (exists s3, CompleteSend c s2 = Some (s3, true)).
Proof.
  intros Hop Hres Hrun. apply acquired_owns in Hop.
  destruct (run_pending_ind (owns c) (busy_answer c) (fun op => resolves c op = false)) with ops s1 s2 outs
    as [[e He] Hout]; [|done..|].
  - intros o t t' out Hown Hr H. by apply (run_op_owns o t t' out c).
  - split; [done|]. pend_unfold. rewrite He. eauto.
Qed.

Lemma claim_exclusive_witness :
  let a := mkAuthority "t" 7 1 StateTimeout None in
  let c := mkClaim "t" 1 a in
  Forall2 (busy_answer c) [OpClaimForSend "t" a; OpRegister "t" PendingSendSent None; OpRemove "t"]
    [OutClaim noClaim ClaimAlreadyClaimed; OutError (Some ErrPendingClaimed); OutUnit]
  /\ exists s3, CompleteSend c (mkSet {["t" := mkEntry "t" pendingClaimed a 1 false]} 1) = Some (s3, true).
Proof.
  intros a c.
  exact (claim_exclusive (OpClaimInitialSend "t" a)
    [OpClaimForSend "t" a; OpRegister "t" PendingSendSent None; OpRemove "t"]
    emptySet (mkSet {["t" := mkEntry "t" pendingClaimed a 1 false]} 1) (mkSet {["t" := mkEntry "t" pendingClaimed a 1 false]} 1) c
    [OutClaim noClaim ClaimAlreadyClaimed; OutError (Some ErrPendingClaimed); OutUnit]
    eq_refl ltac:(repeat constructor) eq_refl).
Defined.

(** The report of a claim is accepted at most once: after it, and over any
    later calls (fewer than 2^64 in all), every other report with that claim is
    refused, even when the task has been claimed again. *)
Theorem stale_claim_refused (before after : list PendingOp) (op : PendingOp) (s s1 s2 : PendingSet) (c : SendClaim)
    (outs outs' : list PendingOut) :
  run_pending before emptySet = Some (s, outs) ->
  resolves c op = true -> run_op op s = Some (s1, OutBool true) ->
  run_pending after s1 = Some (s2, outs') ->
  Z.of_nat (length (before ++ op :: after)) < 2 ^ 64 ->
  Forall2 (fun op out => resolves c op = true -> out = OutBool false) after outs'.
Proof.
  rewrite length_app. cbn [length]. intros Hbefore Hres Hop Hafter Hmax.
  destruct (run_pending_tokens before emptySet s outs) as [Htok Hn]; [|cbn; lia|done|].
  { split; [done|]. intros t e He. unfold emptySet in He. cbn [entries] in He. by rewrite lookup_empty in He. }
  cbn in Hn. destruct (run_op_tokens op s s1 _ Htok ltac:(lia) Hop) as [Htok1 Hn1].
  eapply run_pending_spent; [|done| |done]; [|lia]. by apply (run_op_spent' c op s s1); [|lia|..].
Qed.

Lemma stale_claim_refused_witness :
  let a := mkAuthority "t" 7 1 StateTimeout None in
  let c := mkClaim "t" 1 a in
  Forall2 (fun op out => resolves c op = true -> out = OutBool false)
    [OpClaimForSend "t" a; OpCompleteSend c]
    [OutClaim (mkClaim "t" 2 a) ClaimAcquired; OutBool false].
Proof.
  intros a c.
  exact (stale_claim_refused [OpClaimInitialSend "t" a] [OpClaimForSend "t" a; OpCompleteSend c] (OpReleaseSend c)
    (mkSet {["t" := mkEntry "t" pendingClaimed a 1 false]} 1) (mkSet {["t" := mkEntry "t" pendingUnsent a 1 false]} 1)
    (mkSet {["t" := mkEntry "t" pendingClaimed a 2 false]} 2) c
    [OutClaim c ClaimAcquired] [OutClaim (mkClaim "t" 2 a) ClaimAcquired; OutBool false]
    eq_refl eq_refl eq_refl eq_refl eq_refl).
Defined.

(** From any state, and until the task is removed from the set, at most one
    send is completed for it, and once one is, no claim on it is acquired
    again. *)
Theorem at_most_one_send (ops : list PendingOp) (s s' : PendingSet) (t : TaskID) (outs : list PendingOut) :
  run_pending ops s = Some (s', outs) -> Forall (fun op => removes t op = false) ops ->
  (count_completed t ops outs <= 1)%nat
  /\ forall i j op out op' out', (i < j)%nat -> ops !! i = Some op -> outs !! i = Some out -> completes t op out = true ->
       ops !! j = Some op' -> outs !! j = Some out' -> acquires t op' out' = false.
Proof.
  assert (forall ops s s' outs, sent_at t s -> Forall (fun op => removes t op = false) ops ->
    run_pending ops s = Some (s', outs) ->
    Forall2 (fun op out => acquires t op out = false /\ completes t op out = false) ops outs) as Hsent.
  { intros ops' u u' outs' Hu Hr Hrun.
    eapply (run_pending_ind (sent_at t) (fun op out => acquires t op out = false /\ completes t op out = false)
              (fun op => removes t op = false)); [|exact Hu|exact Hr|exact Hrun].
    intros op v v' out Hv Hrem H. by apply (run_op_sent t op v v' out). }
  revert s outs. induction ops as [|op ops IH]; intros s outs.
  - intros [= <- <-] _. split; [cbn; lia|]. intros i j op out op' out' _ Hi. by rewrite lookup_nil in Hi.
  - intros (s1 & out & outs' & H1 & H2 & ->)%run_pending_cons [Hop Hops]%list.Forall_cons.
    destruct (IH s1 outs' H2 Hops) as [Hcount Hafter]. unfold count_completed in *. cbn [zip zip_with].
    destruct (completes t op out) eqn:Hc.
    + pose proof (Hsent ops s1 s' outs' (run_op_completes t op s s1 out H1 Hc) Hops H2) as Hall.
      split.
      * rewrite filter_cons_True by done. cbn [length]. apply le_n_S.
        apply count_completed_none in Hall. unfold count_completed in Hall. lia.
      * intros [|i] [|j] o oo o' oo' Hij Hi Hoi Hco Hj Hoj; try lia; cbn in Hj, Hoj;
          by destruct (Forall2_lookup_lr _ _ _ _ _ _ Hall Hj Hoj).
    + split; [rewrite filter_cons_False; [done|cbn; by rewrite Hc]|].
      intros [|i] [|j] o oo o' oo' Hij Hi Hoi Hco Hj Hoj; try lia; cbn in *; simplify_eq; [congruence|].
      apply (Hafter i j o oo o' oo'); [lia|done..].
Qed.

Lemma at_most_one_send_witness :
  let a := mkAuthority "t" 7 1 StateTimeout None in
  let c := mkClaim "t" 1 a in
  let ops := [OpClaimInitialSend "t" a; OpCompleteSend c; OpClaimForSend "t" a; OpCompleteSend c] in
  let outs := [OutClaim c ClaimAcquired; OutBool true; OutClaim noClaim ClaimSent; OutBool false] in
  (count_completed "t" ops outs <= 1)%nat
  /\ forall i j op out op' out', (i < j)%nat -> ops !! i = Some op -> outs !! i = Some out -> completes "t" op out = true ->
       ops !! j = Some op' -> outs !! j = Some out' -> acquires "t" op' out' = false.
Proof.
  intros a c ops outs.
  exact (at_most_one_send ops emptySet (mkSet {["t" := mkEntry "t" pendingSent noAuthority 1 false]} 1) "t" outs
           eq_refl ltac:(repeat constructor)).
Defined.
