(* ===== verification/Watcher.v ===== *)
(** * The timeout watcher ([TimeoutWatcher] of [internal/execution/timeout.go])

    A timer per task, whose callback enforces the task's timeout and, when that
    fails in a way worth retrying, arms itself again.  Callbacks run on goroutines
    of their own: they hold the mutex only while they look up and update the
    table, so a history is a sequence of steps in which the parts of several
    callbacks interleave.  A step of [step] is one critical section, or one event
    of the environment (a timer fires, an enforcement returns). *)

From S2P Require Import Prelude.
From S2P Require Import Errors.
From S2P Require Import Domain.

(** ** Data *)

Definition timeoutEnforcementRetryInterval : Duration := 10 * Second.
Definition timeoutEnforcementRetryMaxAttempts : Z := 6.

Record EnforceTaskTimeoutInput : Type := mkEnforceInput {
  in_TaskID : TaskID;
  in_ResolvedTimeoutSeconds : Z;
  in_Generation : Z;
  in_OccurredAt : Time }.

(** [at_timer] stands for [cancel]: the timer that the closure stops. *)
Record armedTimer : Type := mkArmed {
  at_timer : nat;
  at_deadline : Time;
  at_resolvedTimeoutSeconds : Z;
  at_generation : Z;
  at_lifecycleGeneration : Z;
  at_retryAttempts : Z;
  at_executing : bool }.

#[export] Instance armedTimer_settable : Settable armedTimer := fun a =>
  mkArmed (at_timer a) (at_deadline a) (at_resolvedTimeoutSeconds a) (at_generation a)
    (at_lifecycleGeneration a) (at_retryAttempts a) (at_executing a).

(** Where the callback of a timer stands: its timer has not fired; it has begun and
    not yet taken the mutex; it runs [enforce.Execute]; it is about to return, with
    [finish] deferred. *)
Inductive cb_stage : Type := Waiting | Begun | Executing | Returning.

#[export] Instance cb_stage_eq_dec : EqDecision cb_stage.
Proof. solve_decision. Defined.

Record callback : Type := mkCallback {
  cb_task : TaskID;
  cb_generation : Z;
  cb_delay : Duration;
  cb_st : cb_stage }.

#[export] Instance callback_settable : Settable callback := fun c =>
  mkCallback (cb_task c) (cb_generation c) (cb_delay c) (cb_st c).

(** [pool] holds the callbacks that have neither been stopped nor returned, by the
    number of their timer; [wg] is the counter of the wait group. *)
Record TimeoutWatcher : Type := mkWatcher {
  timers : gmap TaskID armedTimer;
  nextGeneration : Z;
  closed : bool;
  closeDone : bool;
  wg : Z;
  pool : gmap nat callback;
  nextTimer : nat }.

#[export] Instance TimeoutWatcher_settable : Settable TimeoutWatcher := fun w =>
  mkWatcher (timers w) (nextGeneration w) (closed w) (closeDone w) (wg w) (pool w) (nextTimer w).

Definition NewTimeoutWatcher : TimeoutWatcher := mkWatcher ∅ 0 false false 0 ∅ 0.

(** ** Timers *)

(** [w.wg.Add(1)] and [timerFactory.AfterFunc(delay, ...)]: the new timer's number
    is [nextTimer] before the call. *)
Definition after_func (taskID : TaskID) (generation : Z) (delay : Duration) (w : TimeoutWatcher) : TimeoutWatcher :=
  w <| wg := wg w + 1 |> <| pool := <[nextTimer w := mkCallback taskID generation delay Waiting]> (pool w) |>
    <| nextTimer := S (nextTimer w) |>.

(** The [cancel] closures: stopping succeeds only before the timer fires, and then
    the callback will never run and [finish] is called here. *)
Definition cancel (id : nat) (w : TimeoutWatcher) : TimeoutWatcher :=
  match pool w !! id with
  | Some (mkCallback _ _ _ Waiting) => w <| pool := delete id (pool w) |> <| wg := wg w - 1 |>
  | _ => w
  end.

(** ** Methods *)

Definition Arm (taskID : TaskID) (deadline : Time) (resolvedTimeoutSeconds lifecycleGeneration : Z) (now : Time)
    (w : TimeoutWatcher) : TimeoutWatcher :=
  if closed w then w
  else
    let w := match timers w !! taskID with Some old => cancel (at_timer old) w | None => w end in
    let generation := wrap_uint64 (nextGeneration w + 1) in
    let w := w <| nextGeneration := generation |> in
    let delay := Sub deadline now in
    let delay := if delay <? 0 then 0 else delay in
    let id := nextTimer w in
    let w := after_func taskID generation delay w in
    w <| timers := <[taskID := mkArmed id deadline resolvedTimeoutSeconds generation lifecycleGeneration 0 false]> (timers w) |>.

Definition Disarm (taskID : TaskID) (w : TimeoutWatcher) : TimeoutWatcher :=
  match timers w !! taskID with
  | Some armed => cancel (at_timer armed) w <| timers := delete taskID (timers w) |>
  | None => w
  end.

(** The first critical section of [Close]; the loop cancels in any order. *)
Definition Close (w : TimeoutWatcher) : TimeoutWatcher :=
  if closed w then w
  else
    let w := w <| closed := true |> in
    let w := fold_left (fun w armed => cancel (at_timer armed) w) (snd <$> map_to_list (timers w)) w in
    w <| timers := ∅ |>.

(** The critical section that a callback begins with, the same in the callbacks of
    [Arm] and of [finishExecution]: what it enforces, if anything. *)
Definition enter (cb : callback) (now : Time) (w : TimeoutWatcher) : option (TimeoutWatcher * EnforceTaskTimeoutInput) :=
  match timers w !! cb_task cb with
  | None => None
  | Some armed =>
      if negb (at_generation armed =? cb_generation cb) then None
      else if at_executing armed || closed w then None
      else
        Some (w <| timers := <[cb_task cb := armed <| at_executing := true |>]> (timers w) |>,
              mkEnforceInput (cb_task cb) (at_resolvedTimeoutSeconds armed) (at_lifecycleGeneration armed) now)
  end.

Definition as_timeout (e : error) : option bool :=
  match e with TimeoutEnforcementError _ retryable _ => Some retryable | _ => None end.

(** [errors.As(err, &timeoutErr) && timeoutErr.Retryable] *)
Definition retryable (err : option error) : bool :=
  match err with
  | Some e => match errors_As as_timeout e with Some r => r | None => false end
  | None => false
  end.

Definition finishExecution (taskID : TaskID) (generation : Z) (err : option error) (w : TimeoutWatcher) : TimeoutWatcher :=
  match timers w !! taskID with
  | None => w
  | Some current =>
      if negb (at_generation current =? generation) then w
      else if closed w || negb (retryable err) then w <| timers := delete taskID (timers w) |>
      else if timeoutEnforcementRetryMaxAttempts <=? at_retryAttempts current
      then w <| timers := delete taskID (timers w) |>
      else
        let id := nextTimer w in
        let w := after_func taskID generation timeoutEnforcementRetryInterval w in
        w <| timers := <[taskID := current <| at_retryAttempts := at_retryAttempts current + 1 |>
                                     <| at_executing := false |> <| at_timer := id |>]> (timers w) |>
  end.

(** ** Steps *)

Inductive label : Type :=
| LArm (taskID : TaskID) (deadline : Time) (resolvedTimeoutSeconds lifecycleGeneration : Z) (now : Time)
| LDisarm (taskID : TaskID)
| LClose
| LCloseDone
| LFire (id : nat)
| LEnter (id : nat) (now : Time)
| LFinish (id : nat) (err : option error)
| LReturn (id : nat).

Definition set_stage (id : nat) (cb : callback) (st : cb_stage) (w : TimeoutWatcher) : TimeoutWatcher :=
  w <| pool := <[id := cb <| cb_st := st |>]> (pool w) |>.

(** The state after the step and the enforcement it starts, with its generation;
    [None] when the step is not enabled. *)
Definition step (l : label) (w : TimeoutWatcher) : option (TimeoutWatcher * option (Z * EnforceTaskTimeoutInput)) :=
  let quiet (w : TimeoutWatcher) := Some (w, None) in
  match l with
  | LArm taskID deadline secs lg now => quiet (Arm taskID deadline secs lg now w)
  | LDisarm taskID => quiet (Disarm taskID w)
  | LClose => quiet (Close w)
  | LCloseDone => if closed w && negb (closeDone w) && (wg w =? 0) then quiet (w <| closeDone := true |>) else None
  | LFire id =>
      match pool w !! id with
      | Some cb => if bool_decide (cb_st cb = Waiting) then quiet (set_stage id cb Begun w) else None
      | None => None
      end
  | LEnter id now =>
      match pool w !! id with
      | Some cb =>
          if bool_decide (cb_st cb = Begun) then
            match enter cb now w with
            | Some (w', input) => Some (set_stage id cb Executing w', Some (cb_generation cb, input))
            | None => quiet (set_stage id cb Returning w)
            end
          else None
      | None => None
      end
  | LFinish id err =>
      match pool w !! id with
      | Some cb =>
          if bool_decide (cb_st cb = Executing)
          then quiet (set_stage id cb Returning (finishExecution (cb_task cb) (cb_generation cb) err w)) else None
      | None => None
      end
  | LReturn id =>
      match pool w !! id with
      | Some cb =>
          if bool_decide (cb_st cb = Returning) then quiet (w <| pool := delete id (pool w) |> <| wg := wg w - 1 |>) else None
      | None => None
      end
  end.

(** A history, and the enforcements it starts, in order. *)
Fixpoint run (ls : list label) (w : TimeoutWatcher) : option (TimeoutWatcher * list (Z * EnforceTaskTimeoutInput)) :=
  match ls with
  | [] => Some (w, [])
  | l :: ls =>
      '(w, out) ← step l w;
      '(w, outs) ← run ls w;
      Some (w, match out with Some o => o :: outs | None => outs end)
  end.

(** ** The invariant *)

Definition stopped (cb : callback) : bool := bool_decide (cb_st cb = Waiting).

Record watcher_inv (w : TimeoutWatcher) : Prop := {
  i_wg : wg w = Z.of_nat (size (pool w));
  i_generation : 0 <= nextGeneration w;
  i_fresh : forall id cb, pool w !! id = Some cb -> (id < nextTimer w)%nat /\ 0 < cb_generation cb <= nextGeneration w;
  (** An entry's timer is pending or has begun, unless its callback is the one that
      executes. *)
  i_entry : forall t e, timers w !! t = Some e ->
    0 <= at_retryAttempts e <= timeoutEnforcementRetryMaxAttempts
    /\ exists cb, pool w !! at_timer e = Some cb /\ cb_task cb = t /\ cb_generation cb = at_generation e
         /\ if at_executing e then cb_st cb = Executing else cb_st cb = Waiting \/ cb_st cb = Begun;
  (** A callback that has not finished is its entry's, if the entry is still of its
      generation. *)
  i_live : forall id cb t e, pool w !! id = Some cb -> cb_st cb <> Returning ->
    timers w !! t = Some e -> at_generation e = cb_generation cb -> at_timer e = id;
  i_wait : forall id cb, pool w !! id = Some cb -> cb_st cb = Waiting ->
    exists e, timers w !! cb_task cb = Some e /\ at_timer e = id;
  i_excl : forall id id' cb cb', pool w !! id = Some cb -> pool w !! id' = Some cb' ->
    cb_st cb = Executing -> cb_st cb' = Executing -> cb_generation cb = cb_generation cb' -> id = id';
  i_closed : closed w = true -> timers w = ∅ }.

(** ** Lemmas *)

Lemma cancel_timers (id : nat) (w : TimeoutWatcher) :
  timers (cancel id w) = timers w /\ nextGeneration (cancel id w) = nextGeneration w
  /\ nextTimer (cancel id w) = nextTimer w /\ closed (cancel id w) = closed w.
Proof. unfold cancel. by repeat case_match. Qed.

Lemma cancel_lookup (id j : nat) (w : TimeoutWatcher) (cb : callback) :
  pool (cancel id w) !! j = Some cb <-> pool w !! j = Some cb /\ ~ (j = id /\ cb_st cb = Waiting).
Proof.
  unfold cancel. destruct (pool w !! id) as [[t g d st]|] eqn:E.
  - destruct st; cbn; try (split; [intros H; split; [done|]; intros [-> ?]; simplify_eq/=|by intros [? _]]).
    rewrite lookup_delete_Some. split; [intros [Hne H]; split; [done|]; intros [-> _]; done|].
    intros [H Hno]. split; [|done]. intros <-. apply Hno. by simplify_eq/=.
  - split; [intros H; split; [done|]; intros [-> ?]; simplify_eq/=|by intros [? _]].
Qed.

Lemma cancel_wg (id : nat) (w : TimeoutWatcher) :
  wg w = Z.of_nat (size (pool w)) -> wg (cancel id w) = Z.of_nat (size (pool (cancel id w))).
Proof.
  intros Hwg. unfold cancel. destruct (pool w !! id) as [[t g d st]|] eqn:E; [|done]. destruct st; try done.
  cbn. rewrite Hwg, map_size_delete, E. assert (size (pool w) <> 0)%nat.
  { intros H0. apply map_size_empty_inv in H0. rewrite H0, lookup_empty in E. done. }
  lia.
Qed.

Lemma Disarm_inv (t : TaskID) (w : TimeoutWatcher) : watcher_inv w -> watcher_inv (Disarm t w).
Proof.
  intros [Hwg Hg Hf He Hl Hw Hx Hc]. unfold Disarm. destruct (timers w !! t) as [a|] eqn:Ea; [|by split].
  destruct (cancel_timers (at_timer a) w) as (Et & Eg & En & Ec).
  split; cbn; rewrite ?Et, ?Eg, ?En, ?Ec; try done.
  - by apply cancel_wg.
  - intros id cb [H _]%cancel_lookup. eauto.
  - intros t' e [Hne H]%lookup_delete_Some. destruct (He t' e H) as (Hr & cb & Hcb & Ht & Hgen & Hst).
    split; [done|]. exists cb. split; [|done]. apply cancel_lookup. split; [done|]. intros [Heq _].
    apply Hne. destruct (He t a Ea) as (_ & cb' & Hcb' & Ht' & _). rewrite <- Heq in Hcb'. congruence.
  - intros id cb t' e [H _]%cancel_lookup Hst [_ Ht']%lookup_delete_Some. eauto.
  - intros id cb [H Hno]%cancel_lookup Hst. destruct (Hw id cb H Hst) as (e & Hte & Hid). exists e.
    split; [|done]. apply lookup_delete_Some. split; [|done]. intros ->. simplify_eq. by apply Hno.
  - intros id id' cb cb' [H _]%cancel_lookup [H' _]%cancel_lookup. eauto.
  - intros Hcl. by rewrite (Hc Hcl), delete_empty.
Qed.

Lemma Disarm_timers (t : TaskID) (w : TimeoutWatcher) : timers (Disarm t w) = delete t (timers w).
Proof.
  unfold Disarm. destruct (timers w !! t) as [a|] eqn:Ea; [done|]. by rewrite delete_id.
Qed.

(** Adding a timer whose entry is the task's. *)
Lemma after_func_inv (t : TaskID) (e : armedTimer) (d : Duration) (w : TimeoutWatcher) :
  watcher_inv w -> closed w = false -> at_timer e = nextTimer w -> at_executing e = false ->
  0 <= at_retryAttempts e <= timeoutEnforcementRetryMaxAttempts ->
  0 < at_generation e <= nextGeneration w ->
  (forall id cb, pool w !! id = Some cb -> cb_st cb <> Returning -> cb_generation cb = at_generation e -> False) ->
  (forall t' e', t' <> t -> timers w !! t' = Some e' -> at_generation e' <> at_generation e) ->
  (forall id cb, pool w !! id = Some cb -> cb_st cb = Waiting -> cb_task cb <> t) ->
  let w' := after_func t (at_generation e) d w in watcher_inv (w' <| timers := <[t := e]> (timers w) |>).
Proof.
  intros [Hwg Hg Hf He Hl Hw Hx Hc] Hcl Hid Hex Hr Hgen Hnone Hother Hnot w'.
  assert (pool w !! nextTimer w = None) as Hnew.
  { destruct (pool w !! nextTimer w) eqn:E; [|done]. apply Hf in E as [? _]. lia. }
  split; cbn; try done.
  - rewrite map_size_insert, Hnew. lia.
  - intros id cb [[<- <-]|[_ H]]%lookup_insert_Some; cbn; [lia|]. apply Hf in H. lia.
  - intros t' e' [[<- <-]|[Hne H]]%lookup_insert_Some.
    + split; [done|]. rewrite Hid. eexists. rewrite lookup_insert_eq, Hex. cbn. auto.
    + destruct (He t' e' H) as (Hr' & cb & Hcb & Hrest). split; [done|]. exists cb. split; [|done].
      rewrite lookup_insert_ne; [done|]. intros E. rewrite E in Hnew. congruence.
  - intros id cb t' e' [[<- <-]|[Hne H]]%lookup_insert_Some Hst [[<- <-]|[Hne' H']]%lookup_insert_Some Heq; cbn in *.
    + done.
    + exfalso. by apply (Hother t' e').
    + exfalso. by apply (Hnone id cb).
    + eauto.
  - intros id cb [[<- <-]|[Hne H]]%lookup_insert_Some Hst; cbn.
    + exists e. by rewrite lookup_insert_eq.
    + destruct (Hw id cb H Hst) as (e' & He' & Hid'). exists e'. split; [|done].
      rewrite lookup_insert_ne; [done|]. intros E. by apply (Hnot id cb).
  - intros id id' cb cb' [[<- <-]|[Hne H]]%lookup_insert_Some [[<- <-]|[Hne' H']]%lookup_insert_Some Hst Hst' Heq; try done.
    eauto.
  - intros E. congruence.
Qed.

Lemma Arm_eq (t : TaskID) (deadline : Time) (secs lg : Z) (now : Time) (w : TimeoutWatcher) :
  closed w = false ->
  Arm t deadline secs lg now w =
    let w := Disarm t w in
    let g := wrap_uint64 (nextGeneration w + 1) in
    let e := mkArmed (nextTimer w) deadline secs g lg 0 false in
    after_func t g (if Sub deadline now <? 0 then 0 else Sub deadline now) (w <| nextGeneration := g |>)
      <| timers := <[t := e]> (timers w) |>.
Proof.
  intros Hcl. unfold Arm, Disarm. rewrite Hcl. destruct (timers w !! t) as [old|] eqn:E; [|done].
  cbv zeta. cbn. destruct (cancel_timers (at_timer old) w) as (-> & _). by rewrite insert_delete_eq.
Qed.

Lemma wrap_small (z : Z) : 0 <= z < 2 ^ 64 -> wrap_uint64 z = z.
Proof. apply Z.mod_small. Qed.

Lemma next_generation_inv (w : TimeoutWatcher) :
  watcher_inv w -> watcher_inv (w <| nextGeneration := nextGeneration w + 1 |>).
Proof.
  intros [Hwg Hg Hf He Hl Hw Hx Hc]. split; cbn; try done; [lia|]. intros id cb H. apply Hf in H. lia.
Qed.

Lemma Arm_inv (t : TaskID) (deadline : Time) (secs lg : Z) (now : Time) (w : TimeoutWatcher) :
  watcher_inv w -> nextGeneration w + 1 < 2 ^ 64 -> watcher_inv (Arm t deadline secs lg now w).
Proof.
  intros Hinv Hmax. destruct (closed w) eqn:Hcl; [unfold Arm; by rewrite Hcl|].
  rewrite Arm_eq by done. cbv zeta. pose proof (Disarm_inv t w Hinv) as Hinv'. pose proof (Disarm_timers t w) as Ht.
  assert (nextGeneration (Disarm t w) = nextGeneration w /\ closed (Disarm t w) = false) as [Eg Ec].
  { unfold Disarm. destruct (timers w !! t) as [a|]; [|done]. cbn. by destruct (cancel_timers (at_timer a) w) as (_ & -> & _ & ->). }
  set (w1 := Disarm t w) in *. clearbody w1. pose proof (i_generation w Hinv) as Hg.
  rewrite wrap_small by lia.
  pose proof (after_func_inv t (mkArmed (nextTimer w1) deadline secs (nextGeneration w1 + 1) lg 0 false)
    (if Sub deadline now <? 0 then 0 else Sub deadline now) (w1 <| nextGeneration := nextGeneration w1 + 1 |>)) as Hgo.
  cbn in Hgo |- *. apply Hgo; clear Hgo; try done; try lia; [by apply next_generation_inv|..].
  - intros id cb H _ E. apply (i_fresh w1 Hinv') in H. lia.
  - intros t' e' _ H E. apply (i_entry w1 Hinv') in H as (_ & cb & Hcb & _ & E' & _). apply (i_fresh w1 Hinv') in Hcb. lia.
  - intros id cb H Hst E. destruct (i_wait w1 Hinv' id cb H Hst) as (e & He & _). rewrite E, Ht, lookup_delete_eq in He. done.
Qed.

Lemma cancel_all (es : list armedTimer) (w : TimeoutWatcher) :
  let w' := fold_left (fun w armed => cancel (at_timer armed) w) es w in
  nextGeneration w' = nextGeneration w /\ nextTimer w' = nextTimer w /\ closed w' = closed w
  /\ (wg w = Z.of_nat (size (pool w)) -> wg w' = Z.of_nat (size (pool w')))
  /\ forall id cb, pool w' !! id = Some cb ->
       pool w !! id = Some cb /\ (cb_st cb = Waiting -> forall e, e ∈ es -> at_timer e <> id).
Proof.
  revert w. induction es as [|e es IH]; intros w; cbn [fold_left].
  - repeat split; try done. intros _ e He. by apply not_elem_of_nil in He.
  - destruct (IH (cancel (at_timer e) w)) as (Eg & En & Ec & Ewg & Hp). cbv zeta in *.
    destruct (cancel_timers (at_timer e) w) as (_ & Eg' & En' & Ec').
    rewrite Eg, En, Ec. split; [done|]. split; [done|]. split; [done|]. split; [by intros ?%(cancel_wg (at_timer e))%Ewg|].
    intros id cb H. destruct (Hp id cb H) as [[H1 H2]%cancel_lookup H3]. split; [done|].
    intros Hst e' [->|He']%elem_of_cons; [|by apply H3]. intros Heq. by apply H2.
Qed.

Lemma Close_inv (w : TimeoutWatcher) : watcher_inv w -> watcher_inv (Close w).
Proof.
  intros [Hwg Hg Hf He Hl Hw Hx Hc]. unfold Close. destruct (closed w) eqn:Hcl; [by split; rewrite ?Hcl|].
  destruct (cancel_all (snd <$> map_to_list (timers w)) (w <| closed := true |>)) as (Eg & En & Ec & Ewg & Hp).
  cbv zeta in *. set (w' := fold_left _ _ _) in *. clearbody w'. cbn in *.
  split; cbn; rewrite ?Eg, ?En, ?Ec; try done; auto.
  - intros id cb [H _]%Hp. eauto.
  - intros id cb H Hst. destruct (Hp id cb H) as [H' Hno]. destruct (Hw id cb H' Hst) as (e & Hte & Hid).
    exfalso. apply (Hno Hst e); [|done]. apply list_elem_of_fmap. exists (cb_task cb, e).
    split; [done|]. by apply elem_of_map_to_list.
  - intros id id' cb cb' [H _]%Hp [H' _]%Hp. eauto.
Qed.

Section Stages.
Context (w : TimeoutWatcher) (Hinv : watcher_inv w).

(** An entry that points to a callback is of its task and generation. *)
Lemma entry_callback t e cb :
  timers w !! t = Some e -> pool w !! at_timer e = Some cb ->
  cb_task cb = t /\ cb_generation cb = at_generation e
  /\ if at_executing e then cb_st cb = Executing else cb_st cb = Waiting \/ cb_st cb = Begun.
Proof. intros He Hcb. destruct (i_entry w Hinv t e He) as (_ & cb' & Hcb' & Hrest). by simplify_eq. Qed.

Lemma delete_entry_inv t :
  (forall e cb, timers w !! t = Some e -> pool w !! at_timer e = Some cb -> cb_st cb <> Waiting) ->
  watcher_inv (w <| timers := delete t (timers w) |>).
Proof.
  intros Hno. destruct Hinv as [Hwg Hg Hf He Hl Hw Hx Hc]. split; cbn; try done.
  - intros t' e [_ H]%lookup_delete_Some. eauto.
  - intros id cb t' e H Hst [_ H']%lookup_delete_Some. eauto.
  - intros id cb H Hst. destruct (Hw id cb H Hst) as (e & Hte & Hid). exists e. split; [|done].
    apply lookup_delete_Some. split; [|done]. intros E. subst. by apply (Hno e cb).
  - intros Hcl. by rewrite (Hc Hcl), delete_empty.
Qed.

Lemma set_stage_inv id cb st :
  pool w !! id = Some cb ->
  (st = Executing -> forall id' cb', pool w !! id' = Some cb' -> cb_st cb' = Executing ->
     cb_generation cb' = cb_generation cb -> id' = id) ->
  (cb_st cb = Returning -> st = Returning) -> st <> Waiting ->
  (forall t e, timers w !! t = Some e -> at_timer e = id ->
     if at_executing e then st = Executing else st = Waiting \/ st = Begun) ->
  watcher_inv (set_stage id cb st w).
Proof.
  intros Hcb Hex Hret Hwait Hentry. destruct Hinv as [Hwg Hg Hf He Hl Hw Hx Hc]. split; cbn; try done.
  - by rewrite map_size_insert, Hcb.
  - intros id' cb' [[<- <-]|[Hne H]]%lookup_insert_Some; cbn; eauto.
  - intros t e H. destruct (He t e H) as (Hr & cb' & Hcb' & Ht & Hgen & Hst). split; [done|].
    destruct (decide (at_timer e = id)) as [E|E].
    + subst. rewrite lookup_insert_eq. eexists. split; [done|]. simplify_eq. cbn.
      split; [done|]. split; [done|]. by apply (Hentry (cb_task cb) e).
    + rewrite lookup_insert_ne by done. eauto 8.
  - intros id' cb' t e [[<- <-]|[Hne H]]%lookup_insert_Some Hst Hte Heq; cbn in *; [|by eauto].
    apply (Hl id cb t e); auto.
  - intros id' cb' [[<- <-]|[Hne H]]%lookup_insert_Some Hst; cbn in *; [done|eauto].
  - intros id1 id2 cb1 cb2 [[<- <-]|[Hne H]]%lookup_insert_Some [[<- <-]|[Hne' H']]%lookup_insert_Some Hst Hst' Heq;
      cbn in *; try done; [symmetry| |]; eauto.
Qed.

Lemma fire_inv id cb : pool w !! id = Some cb -> cb_st cb = Waiting -> watcher_inv (set_stage id cb Begun w).
Proof.
  intros Hcb Hst. apply set_stage_inv; try done; [by rewrite Hst|].
  intros t e He <-. destruct (entry_callback t e cb He Hcb) as (_ & _ & H). destruct (at_executing e); [congruence|auto].
Qed.

(** A callback that no entry points to ends quietly. *)
Lemma returning_inv id cb :
  pool w !! id = Some cb -> (forall t e, timers w !! t = Some e -> at_timer e <> id) ->
  watcher_inv (set_stage id cb Returning w).
Proof. intros Hcb Hno. apply set_stage_inv; try done. intros t e He E. by destruct (Hno t e). Qed.

Lemma give_up_inv id cb now :
  pool w !! id = Some cb -> cb_st cb = Begun -> enter cb now w = None -> watcher_inv (set_stage id cb Returning w).
Proof.
  intros Hcb Hst Hgive. apply returning_inv; [done|]. intros t e He <-.
  destruct (entry_callback t e cb He Hcb) as (<- & Hgen & Hex). unfold enter in Hgive. rewrite He, Hgen, Z.eqb_refl in Hgive.
  cbn in Hgive. destruct (at_executing e); [congruence|]. destruct (closed w) eqn:Hcl; [|done].
  rewrite (i_closed w Hinv Hcl), lookup_empty in He. done.
Qed.

Lemma enter_timer id cb now w' input :
  pool w !! id = Some cb -> cb_st cb = Begun -> enter cb now w = Some (w', input) ->
  exists e, timers w !! cb_task cb = Some e /\ at_timer e = id /\ at_generation e = cb_generation cb
    /\ at_executing e = false /\ closed w = false
    /\ w' = w <| timers := <[cb_task cb := e <| at_executing := true |>]> (timers w) |>
    /\ input = mkEnforceInput (cb_task cb) (at_resolvedTimeoutSeconds e) (at_lifecycleGeneration e) now.
Proof.
  intros Hcb Hst. unfold enter. destruct (timers w !! cb_task cb) as [e|] eqn:He; [|done].
  destruct (Z.eqb_spec (at_generation e) (cb_generation cb)) as [Hgen|]; [|done]. cbn.
  destruct (at_executing e) eqn:Hex, (closed w) eqn:Hcl; try done. intros [= <- <-].
  exists e. split; [done|]. split; [|done]. apply (i_live w Hinv id cb (cb_task cb) e); try done. by rewrite Hst.
Qed.

Lemma enter_inv id cb now w' input :
  pool w !! id = Some cb -> cb_st cb = Begun -> enter cb now w = Some (w', input) ->
  watcher_inv (set_stage id cb Executing w').
Proof.
  intros Hcb Hst Henter. destruct (enter_timer id cb now w' input Hcb Hst Henter)
    as (e & He & Hid & Hgen & Hex & Hcl & -> & _).
  destruct Hinv as [Hwg Hg Hf Hentry Hl Hw Hx Hc]. split; cbn; try done.
  - by rewrite map_size_insert, Hcb.
  - intros id' cb' [[<- <-]|[Hne H]]%lookup_insert_Some; cbn; eauto.
  - intros t e' [[<- <-]|[Hne H]]%lookup_insert_Some; cbn.
    + destruct (Hentry _ e He) as (Hr & _). split; [done|]. rewrite Hid, lookup_insert_eq. eauto.
    + destruct (Hentry t e' H) as (Hr & cb' & Hcb' & Ht & Hrest). split; [done|]. exists cb'.
      rewrite lookup_insert_ne; [done|]. intros E. rewrite <- E in Hcb'. congruence.
  - intros id' cb' t e' [[<- <-]|[Hne H]]%lookup_insert_Some Hst' [[<- <-]|[Hne' H']]%lookup_insert_Some Heq; cbn in *.
    + done.
    + apply (Hl id cb t e'); try done. by rewrite Hst.
    + by apply (Hl id' cb' (cb_task cb) e).
    + eauto.
  - intros id' cb' [[<- <-]|[Hne H]]%lookup_insert_Some Hst'; cbn in *; [done|].
    destruct (Hw id' cb' H Hst') as (e' & He' & Hid'). destruct (decide (cb_task cb = cb_task cb')) as [E|E].
    + rewrite <- E in He'. congruence.
    + exists e'. by rewrite lookup_insert_ne.
  - intros id1 id2 cb1 cb2 [[<- <-]|[Hne H]]%lookup_insert_Some [[<- <-]|[Hne' H']]%lookup_insert_Some Hst1 Hst2 Heq;
      cbn in *; try done; [| |by eauto].
    + rewrite <- Hid. apply (Hl id2 cb2 (cb_task cb) e); congruence.
    + rewrite <- Hid. symmetry. apply (Hl id1 cb1 (cb_task cb) e); congruence.
  - congruence.
Qed.

Lemma return_inv id cb :
  pool w !! id = Some cb -> cb_st cb = Returning ->
  watcher_inv (w <| pool := delete id (pool w) |> <| wg := wg w - 1 |>).
Proof.
  intros Hcb Hst. pose proof entry_callback as Hec. destruct Hinv as [Hwg Hg Hf He Hl Hw Hx Hc]. split; cbn; try done.
  - rewrite map_size_delete, Hcb. assert (size (pool w) <> 0)%nat; [|lia].
    intros H0. apply map_size_empty_inv in H0. by rewrite H0, lookup_empty in Hcb.
  - intros id' cb' [_ H]%lookup_delete_Some. eauto.
  - intros t e H. destruct (He t e H) as (Hr & cb' & Hcb' & Hrest). split; [done|]. exists cb'. split; [|done].
    rewrite lookup_delete_ne; [done|]. intros E. rewrite <- E in Hcb'. simplify_eq.
    destruct Hrest as (_ & _ & H'). destruct (at_executing e); [congruence|]. destruct H'; congruence.
  - intros id' cb' t e [_ H]%lookup_delete_Some. eauto.
  - intros id' cb' [_ H]%lookup_delete_Some. eauto.
  - intros id1 id2 cb1 cb2 [_ H]%lookup_delete_Some [_ H']%lookup_delete_Some. eauto.
Qed.
End Stages.

(** The entry of an executing callback, if it is still there, is the one that
    executes. *)
Lemma executing_entry (w : TimeoutWatcher) (id : nat) (cb : callback) (e : armedTimer) :
  watcher_inv w -> pool w !! id = Some cb -> cb_st cb = Executing ->
  timers w !! cb_task cb = Some e -> at_generation e = cb_generation cb ->
  at_timer e = id /\ at_executing e = true.
Proof.
  intros Hinv Hcb Hst He Hgen. assert (at_timer e = id) as Hid by (apply (i_live w Hinv id cb (cb_task cb) e); congruence).
  split; [done|]. rewrite <- Hid in Hcb. destruct (entry_callback w Hinv _ e cb He Hcb) as (_ & _ & H).
  destruct (at_executing e); [done|]. destruct H; congruence.
Qed.

Lemma finish_stale (w : TimeoutWatcher) (id : nat) (cb : callback) :
  watcher_inv w -> pool w !! id = Some cb -> cb_st cb = Executing ->
  (forall e, timers w !! cb_task cb = Some e -> at_generation e <> cb_generation cb) ->
  watcher_inv (set_stage id cb Returning w).
Proof.
  intros Hinv Hcb Hst Hno. apply returning_inv; [done..|]. intros t e He <-.
  destruct (entry_callback w Hinv t e cb He Hcb) as (<- & Hgen & _). by apply (Hno e).
Qed.

Lemma finish_deleted (w : TimeoutWatcher) (id : nat) (cb : callback) (e : armedTimer) :
  watcher_inv w -> pool w !! id = Some cb -> cb_st cb = Executing ->
  timers w !! cb_task cb = Some e -> at_generation e = cb_generation cb ->
  watcher_inv (set_stage id cb Returning (w <| timers := delete (cb_task cb) (timers w) |>)).
Proof.
  intros Hinv Hcb Hst He Hgen.
  destruct (executing_entry w id cb e Hinv Hcb Hst He Hgen) as [Hid _].
  apply returning_inv; [|done|].
  - apply delete_entry_inv; [done|]. intros e' cb' He' Hcb'. simplify_eq. congruence.
  - intros t e' He' <-. cbn in He'. apply lookup_delete_Some in He' as [Hne He'].
    destruct (entry_callback w Hinv t e' cb He' Hcb) as (Ht & _). congruence.
Qed.

Lemma finish_inv (w : TimeoutWatcher) (id : nat) (cb : callback) (err : option error) :
  watcher_inv w -> pool w !! id = Some cb -> cb_st cb = Executing ->
  watcher_inv (set_stage id cb Returning (finishExecution (cb_task cb) (cb_generation cb) err w)).
Proof.
  intros Hinv Hcb Hst. unfold finishExecution. destruct (timers w !! cb_task cb) as [e|] eqn:He.
  2: { apply finish_stale; try done. congruence. }
  destruct (Z.eqb_spec (at_generation e) (cb_generation cb)) as [Hgen|Hgen]; cbn [negb].
  2: { apply finish_stale; try done. congruence. }
  destruct (closed w || negb (retryable err)) eqn:Hcl; [by apply (finish_deleted w id cb e)|].
  destruct (Z.leb_spec timeoutEnforcementRetryMaxAttempts (at_retryAttempts e)) as [|Hr];
    [by apply (finish_deleted w id cb e)|].
  pose proof (finish_deleted w id cb e Hinv Hcb Hst He Hgen) as Hw1.
  destruct (executing_entry w id cb e Hinv Hcb Hst He Hgen) as [Hid _].
  pose proof (i_entry w Hinv _ e He) as (Hr0 & _). pose proof (i_fresh w Hinv id cb Hcb) as [Hlt Hg].
  set (e' := e <| at_retryAttempts := at_retryAttempts e + 1 |> <| at_executing := false |> <| at_timer := nextTimer w |>).
  pose proof (after_func_inv (cb_task cb) e' timeoutEnforcementRetryInterval _ Hw1) as Hgo.
  assert (at_generation e' = cb_generation cb) as Eg by done. rewrite Eg in Hgo. cbv zeta in Hgo.
  unfold set_stage, after_func in *. cbn in *. rewrite insert_delete_eq, insert_insert_ne in Hgo by lia.
  apply Hgo; clear Hgo Hw1; try done; try lia.
  - by apply orb_false_iff in Hcl as [? _].
  - intros id' cb' [[<- <-]|[Hne H]]%lookup_insert_Some Hst' Heq; cbn in *; [done|].
    apply Hne. rewrite <- Hid. apply (i_live w Hinv id' cb' (cb_task cb) e); congruence.
  - intros t e0 Hne [_ He0]%lookup_delete_Some Heq.
    assert (at_timer e0 = id) as Hid0 by (apply (i_live w Hinv id cb t e0); congruence). rewrite <- Hid0 in Hcb.
    destruct (entry_callback w Hinv t e0 cb He0 Hcb) as (Ht & _). congruence.
  - intros id' cb' [[<- <-]|[Hne H]]%lookup_insert_Some Hst' Ht; cbn in *; [done|].
    destruct (i_wait w Hinv id' cb' H Hst') as (e0 & He0 & Hid0). rewrite Ht in He0. congruence.
Qed.

(** Every step preserves the invariant, while generations do not wrap around. *)
Lemma step_inv (l : label) (w w' : TimeoutWatcher) out :
  watcher_inv w -> nextGeneration w + 1 < 2 ^ 64 -> step l w = Some (w', out) ->
  watcher_inv w' /\ nextGeneration w <= nextGeneration w' <= nextGeneration w + 1.
Proof.
  intros Hinv Hmax. pose proof (i_generation w Hinv) as Hg.
  destruct l as [t d secs lg now|t| | |id|id now|id err|id]; cbn [step].
  - intros [= <- <-]. split; [by apply Arm_inv|]. destruct (closed w) eqn:Hcl; [unfold Arm; rewrite Hcl; lia|].
    rewrite Arm_eq by done. cbn. unfold Disarm. destruct (timers w !! t) as [a|]; cbn; rewrite wrap_small;
      destruct (cancel_timers (at_timer a) w) as (_ & E & _) || idtac; try lia.
  - intros [= <- <-]. split; [by apply Disarm_inv|]. unfold Disarm. destruct (timers w !! t) as [a|]; [|lia].
    cbn. destruct (cancel_timers (at_timer a) w) as (_ & -> & _). lia.
  - intros [= <- <-]. split; [by apply Close_inv|]. unfold Close. destruct (closed w); [lia|].
    destruct (cancel_all (snd <$> map_to_list (timers w)) (w <| closed := true |>)) as (Eg & _). cbv zeta in *.
    set (w1 := fold_left _ _ _) in *. clearbody w1. cbn in *. lia.
  - destruct (closed w && _ && _); [|done]. intros [= <- <-]. split; [|cbn; lia]. by destruct Hinv; split.
  - destruct (pool w !! id) as [cb|] eqn:Hcb; [|done]. destruct (bool_decide_reflect (cb_st cb = Waiting)); [|done].
    intros [= <- <-]. split; [by apply fire_inv|cbn; lia].
  - destruct (pool w !! id) as [cb|] eqn:Hcb; [|done]. destruct (bool_decide_reflect (cb_st cb = Begun)); [|done].
    destruct (enter cb now w) as [[w1 input]|] eqn:He; intros [= <- <-].
    + split; [by apply (enter_inv w Hinv id cb now w1 input)|].
      destruct (enter_timer w Hinv id cb now w1 input) as (e' & _ & _ & _ & _ & _ & -> & _); try done. cbn. lia.
    + split; [by apply (give_up_inv w Hinv id cb now)|cbn; lia].
  - destruct (pool w !! id) as [cb|] eqn:Hcb; [|done]. destruct (bool_decide_reflect (cb_st cb = Executing)); [|done].
    intros [= <- <-]. split; [by apply finish_inv|]. cbn. unfold finishExecution. repeat case_match; cbn; lia.
  - destruct (pool w !! id) as [cb|] eqn:Hcb; [|done]. destruct (bool_decide_reflect (cb_st cb = Returning)); [|done].
    intros [= <- <-]. split; [by apply (return_inv w Hinv id cb)|cbn; lia].
Qed.

(** ** Specification *)

(** What has been asked for, by the calls alone: whether the watcher is closed and
    the timeout each task is armed with. *)
Definition command (c : bool * gmap TaskID (Z * Z)) (l : label) : bool * gmap TaskID (Z * Z) :=
  match l with
  | LArm t _ secs lg _ => if c.1 then c else (false, <[t := (secs, lg)]> c.2)
  | LDisarm t => (c.1, delete t c.2)
  | LClose => (true, ∅)
  | _ => c
  end.

Definition commanded (ls : list label) : bool * gmap TaskID (Z * Z) := fold_left command ls (false, ∅).

(** Enforcements of generation [g]. *)
Definition attempts (g : Z) (outs : list (Z * EnforceTaskTimeoutInput)) : nat :=
  length (filter (fun o => o.1 = g) outs).

Definition cb_weight (st : cb_stage) : nat :=
  match st with Waiting => 4 | Begun => 3 | Executing => 2 | Returning => 1 end.

(** The steps that the callbacks in flight still have to take, at most. *)
Definition weight (w : TimeoutWatcher) : nat :=
  map_fold (fun _ cb n => cb_weight (cb_st cb) + n)%nat 0%nat (pool w).

Definition callback_step (l : label) : bool :=
  match l with LFire _ | LEnter _ _ | LFinish _ _ | LReturn _ => true | _ => false end.

(** *** The timeouts asked for *)

Definition agrees (c : bool * gmap TaskID (Z * Z)) (w : TimeoutWatcher) : Prop :=
  closed w = c.1
  /\ forall t e, timers w !! t = Some e -> c.2 !! t = Some (at_resolvedTimeoutSeconds e, at_lifecycleGeneration e).

Lemma finishExecution_agrees (c : bool * gmap TaskID (Z * Z)) t g err (w : TimeoutWatcher) :
  agrees c w -> agrees c (finishExecution t g err w).
Proof.
  intros [Hc Ht]. unfold finishExecution. destruct (timers w !! t) as [e|] eqn:He; [|done].
  destruct (negb _); [done|].
  assert (agrees c (w <| timers := delete t (timers w) |>)) as Hdel.
  { split; [done|]. intros t' e'. cbn. intros [_ H]%lookup_delete_Some. eauto. }
  destruct (closed w || _); [done|]. destruct (_ <=? _); [done|].
  split; [done|]. intros t' e'. cbn. intros [[<- <-]|[_ H]]%lookup_insert_Some; [|by auto]. by apply (Ht t e).
Qed.

Lemma step_agrees (c : bool * gmap TaskID (Z * Z)) (l : label) (w w' : TimeoutWatcher) out :
  watcher_inv w -> agrees c w -> step l w = Some (w', out) -> agrees (command c l) w'.
Proof.
  intros Hinv [Hc Ht]. destruct l as [t d secs lg now|t| | |id|id now|id err|id]; cbn [step command].
  - intros [= <- _]. destruct (closed w) eqn:Hcl; [unfold Arm; rewrite Hcl, <- Hc; split; [congruence|done]|]. rewrite <- Hc.
    rewrite Arm_eq by done. cbv zeta. pose proof (Disarm_timers t w) as Hd. split.
    + cbn. unfold Disarm. destruct (timers w !! t) as [a|]; [|done]. cbn. by destruct (cancel_timers (at_timer a) w) as (_ & _ & _ & ->).
    + cbn. intros t' e. rewrite Hd, insert_delete_eq. intros [[<- <-]|[Hne H]]%lookup_insert_Some;
        [by rewrite lookup_insert_eq|]. rewrite lookup_insert_ne by done. auto.
  - intros [= <- _]. split.
    + cbn. rewrite <- Hc. unfold Disarm. destruct (timers w !! t) as [a|]; [|done]. cbn. by destruct (cancel_timers (at_timer a) w) as (_ & _ & _ & ->).
    + intros t' e. rewrite Disarm_timers. cbn. intros [Hne H]%lookup_delete_Some. rewrite lookup_delete_ne by done. auto.
  - intros [= <- _]. unfold Close. destruct (closed w) eqn:Hcl.
    + split; [done|]. intros t e He. by rewrite (i_closed w Hinv Hcl), lookup_empty in He.
    + destruct (cancel_all (snd <$> map_to_list (timers w)) (w <| closed := true |>)) as (_ & _ & Ec & _).
      cbv zeta in *. set (w1 := fold_left _ _ _) in *. clearbody w1. split; [exact Ec|].
      intros t e He. cbn in He. by rewrite lookup_empty in He.
  - destruct (_ && _ && _); [|done]. by intros [= <- _].
  - destruct (pool w !! id) as [cb|] eqn:Hcb; [|done]. destruct (bool_decide _); [|done]. by intros [= <- _].
  - destruct (pool w !! id) as [cb|] eqn:Hcb; [|done]. destruct (bool_decide _); [|done].
    unfold enter. destruct (timers w !! cb_task cb) as [e|] eqn:He; [|by intros [= <- _]].
    destruct (negb _); [by intros [= <- _]|]. destruct (_ || _); [by intros [= <- _]|]. intros [= <- _].
    split; [done|]. intros t' e'. cbn. intros [[<- <-]|[_ H]]%lookup_insert_Some; [|by auto]. by apply (Ht (cb_task cb) e).
  - destruct (pool w !! id) as [cb|] eqn:Hcb; [|done]. destruct (bool_decide _); [|done]. intros [= <- _].
    exact (finishExecution_agrees c (cb_task cb) (cb_generation cb) err w (conj Hc Ht)).
  - destruct (pool w !! id) as [cb|] eqn:Hcb; [|done]. destruct (bool_decide _); [|done]. by intros [= <- _].
Qed.

(** *** Attempts *)

Definition maxAttempts : Z := timeoutEnforcementRetryMaxAttempts + 1.

(** The enforcements started so far, against the entries of the table. *)
Record attempts_ok (w : TimeoutWatcher) (outs : list (Z * EnforceTaskTimeoutInput)) : Prop := {
  n_max : forall g, Z.of_nat (attempts g outs) <= maxAttempts;
  n_entry : forall t e, timers w !! t = Some e ->
    Z.of_nat (attempts (at_generation e) outs) = at_retryAttempts e + if at_executing e then 1 else 0;
  n_old : forall g, nextGeneration w < g -> attempts g outs = 0%nat }.

Lemma attempts_app (g : Z) (outs outs' : list (Z * EnforceTaskTimeoutInput)) :
  attempts g (outs ++ outs') = (attempts g outs + attempts g outs')%nat.
Proof. unfold attempts. by rewrite list.filter_app, length_app. Qed.

Lemma attempts_one (g g' : Z) (input : EnforceTaskTimeoutInput) :
  attempts g [(g', input)] = if bool_decide (g' = g) then 1%nat else 0%nat.
Proof.
  unfold attempts. destruct (bool_decide_reflect (g' = g)).
  - by rewrite filter_cons_True.
  - by rewrite filter_cons_False.
Qed.

(** A step that starts nothing and only drops entries. *)
Lemma attempts_fewer (w w' : TimeoutWatcher) outs :
  attempts_ok w outs -> nextGeneration w <= nextGeneration w' ->
  (forall t e, timers w' !! t = Some e -> timers w !! t = Some e) -> attempts_ok w' outs.
Proof. intros [H1 H2 H3] Hg Ht. split; [done|by eauto|]. intros g Hgt. apply H3. lia. Qed.

Lemma attempts_ext (w w' : TimeoutWatcher) outs :
  attempts_ok w outs -> timers w' = timers w -> nextGeneration w' = nextGeneration w -> attempts_ok w' outs.
Proof. intros Hok Et Eg. apply (attempts_fewer w); [done|lia|by rewrite Et]. Qed.

Lemma enter_attempts (w : TimeoutWatcher) (id : nat) (cb : callback) now w' input outs :
  watcher_inv w -> attempts_ok w outs -> pool w !! id = Some cb -> cb_st cb = Begun ->
  enter cb now w = Some (w', input) -> attempts_ok w' (outs ++ [(cb_generation cb, input)]).
Proof.
  intros Hinv [H1 H2 H3] Hcb Hst Henter.
  destruct (enter_timer w Hinv id cb now w' input Hcb Hst Henter) as (e & He & Hid & Hgen & Hex & Hcl & -> & _).
  pose proof (H2 _ e He) as Hn. rewrite Hex, Hgen in Hn. pose proof (i_entry w Hinv _ e He) as (Hr & _).
  split.
  - intros g. rewrite attempts_app, attempts_one. destruct (bool_decide_reflect (cb_generation cb = g)) as [<-|];
      [unfold maxAttempts; lia|]. rewrite Nat.add_0_r. apply H1.
  - cbn. intros t e' [[<- <-]|[Hne H]]%lookup_insert_Some; cbn; rewrite attempts_app, attempts_one.
    + rewrite Hgen, bool_decide_eq_true_2 by done. lia.
    + rewrite bool_decide_eq_false_2; [rewrite Nat.add_0_r; by apply (H2 t)|]. intros E.
      assert (at_timer e' = id) as Hid' by (apply (i_live w Hinv id cb t e'); congruence).
      rewrite <- Hid' in Hcb. destruct (entry_callback w Hinv t e' cb H Hcb) as (Ht & _). congruence.
  - cbn. intros g Hg. rewrite attempts_app, attempts_one, H3 by done.
    rewrite bool_decide_eq_false_2; [done|]. pose proof (i_fresh w Hinv id cb Hcb). lia.
Qed.

Lemma finish_attempts (w : TimeoutWatcher) (id : nat) (cb : callback) err outs :
  watcher_inv w -> attempts_ok w outs -> pool w !! id = Some cb -> cb_st cb = Executing ->
  attempts_ok (finishExecution (cb_task cb) (cb_generation cb) err w) outs.
Proof.
  intros Hinv Hok Hcb Hst. unfold finishExecution. destruct (timers w !! cb_task cb) as [e|] eqn:He; [|done].
  destruct (Z.eqb_spec (at_generation e) (cb_generation cb)) as [Hgen|]; [|done]. cbn [negb].
  assert (attempts_ok (w <| timers := delete (cb_task cb) (timers w) |>) outs) as Hdel.
  { apply (attempts_fewer w); [done|done|]. cbn. by intros t e' [_ H]%lookup_delete_Some. }
  destruct (closed w || _); [done|]. destruct (_ <=? _); [done|].
  destruct (executing_entry w id cb e Hinv Hcb Hst He Hgen) as [_ Hex].
  destruct Hok as [H1 H2 H3]. split; cbn; [done| |done].
  intros t e' [[<- <-]|[Hne H]]%lookup_insert_Some; cbn; [|by apply (H2 t)].
  pose proof (H2 _ e He) as Hn. rewrite Hex in Hn. lia.
Qed.

Lemma Arm_attempts (w : TimeoutWatcher) t d secs lg now outs :
  watcher_inv w -> nextGeneration w + 1 < 2 ^ 64 -> attempts_ok w outs -> attempts_ok (Arm t d secs lg now w) outs.
Proof.
  intros Hinv Hmax Hok. destruct (closed w) eqn:Hcl; [unfold Arm; by rewrite Hcl|]. rewrite Arm_eq by done. cbv zeta.
  assert (nextGeneration (Disarm t w) = nextGeneration w) as Eg.
  { unfold Disarm. destruct (timers w !! t) as [a|]; [|done]. cbn. by destruct (cancel_timers (at_timer a) w) as (_ & -> & _). }
  pose proof (i_generation w Hinv) as H0. rewrite Eg, wrap_small by lia. rewrite Disarm_timers, insert_delete_eq.
  destruct Hok as [H1 H2 H3]. split; cbn; [done| |].
  - intros t' e [[<- <-]|[Hne H]]%lookup_insert_Some; cbn; [rewrite H3 by lia; done|by apply (H2 t')].
  - intros g Hg. apply H3. lia.
Qed.

Lemma step_attempts (l : label) (w w' : TimeoutWatcher) out outs :
  watcher_inv w -> nextGeneration w + 1 < 2 ^ 64 -> attempts_ok w outs -> step l w = Some (w', out) ->
  attempts_ok w' (outs ++ match out with Some o => [o] | None => [] end).
Proof.
  intros Hinv Hmax Hok Hstep. destruct (step_inv l w w' out Hinv Hmax Hstep) as [_ Hg].
  destruct l as [t d secs lg now|t| | |id|id now|id err|id]; cbn [step] in Hstep.
  - revert Hstep. intros [= <- <-]. rewrite app_nil_r. by apply Arm_attempts.
  - revert Hstep. intros [= <- <-]. rewrite app_nil_r. apply (attempts_fewer w); [done|lia|].
    rewrite Disarm_timers. by intros t' e [_ H]%lookup_delete_Some.
  - revert Hstep. intros [= <- <-]. rewrite app_nil_r. apply (attempts_fewer w); [done|lia|].
    unfold Close. destruct (closed w); [done|]. cbn. intros t e. by rewrite lookup_empty.
  - destruct (_ && _ && _); [|done]. revert Hstep. intros [= <- <-]. rewrite app_nil_r. by apply (attempts_ext w).
  - destruct (pool w !! id) as [cb|] eqn:Hcb; [|done]. destruct (bool_decide _); [|done].
    revert Hstep. intros [= <- <-]. rewrite app_nil_r. by apply (attempts_ext w).
  - destruct (pool w !! id) as [cb|] eqn:Hcb; [|done]. destruct (bool_decide_reflect (cb_st cb = Begun)); [|done].
    destruct (enter cb now w) as [[w1 input]|] eqn:He; revert Hstep; intros [= <- <-]; [|rewrite app_nil_r; by apply (attempts_ext w)].
    by apply (attempts_ext w1); [apply (enter_attempts w id cb now w1 input outs)|..].
  - destruct (pool w !! id) as [cb|] eqn:Hcb; [|done]. destruct (bool_decide_reflect (cb_st cb = Executing)); [|done].
    revert Hstep. intros [= <- <-]. rewrite app_nil_r. eapply attempts_ext; [by apply (finish_attempts w id cb err outs)|done..].
  - destruct (pool w !! id) as [cb|] eqn:Hcb; [|done]. destruct (bool_decide _); [|done].
    revert Hstep. intros [= <- <-]. rewrite app_nil_r. by apply (attempts_ext w).
Qed.

(** *** Histories *)

Lemma run_cons l ls w w' outs :
  run (l :: ls) w = Some (w', outs) ->
  exists w1 out outs', step l w = Some (w1, out) /\ run ls w1 = Some (w', outs')
    /\ outs = match out with Some o => [o] | None => [] end ++ outs'.
Proof.
  cbn [run]. destruct (step l w) as [[w1 out]|]; [|done]. cbn [mbind option_bind].
  destruct (run ls w1) as [[w2 outs']|] eqn:E; [|done]. cbn [mbind option_bind]. intros [= <- <-].
  exists w1, out, outs'. split; [done|]. split; [done|]. by destruct out.
Qed.

Lemma run_ok (ls ls' : list label) (w w' : TimeoutWatcher) outs outs' :
  watcher_inv w -> agrees (commanded ls) w -> attempts_ok w outs ->
  nextGeneration w + Z.of_nat (length ls') < 2 ^ 64 -> run ls' w = Some (w', outs') ->
  watcher_inv w' /\ agrees (commanded (ls ++ ls')) w' /\ attempts_ok w' (outs ++ outs')
  /\ nextGeneration w' <= nextGeneration w + Z.of_nat (length ls').
Proof.
  revert ls w outs outs'. induction ls' as [|l ls' IH]; intros ls w outs outs' Hinv Hag Hok Hmax; cbn [length] in *.
  - intros [= <- <-]. rewrite !app_nil_r. split; [done|]. split; [done|]. split; [done|lia].
  - intros (w1 & out & outs1 & Hstep & Hrun & ->)%run_cons.
    destruct (step_inv l w w1 out Hinv ltac:(lia) Hstep) as [Hinv1 Hg].
    pose proof (step_agrees _ l w w1 out Hinv Hag Hstep) as Hag1.
    pose proof (step_attempts l w w1 out outs Hinv ltac:(lia) Hok Hstep) as Hok1.
    destruct (IH (ls ++ [l]) w1 (outs ++ match out with Some o => [o] | None => [] end) outs1) as (Hi & Ha & Hn & Hg'); try done.
    + unfold commanded. by rewrite fold_left_app.
    + lia.
    + rewrite <- app_assoc in Ha, Hn. split; [done|]. split; [done|]. split; [done|lia].
Qed.

Lemma new_ok : watcher_inv NewTimeoutWatcher /\ agrees (commanded []) NewTimeoutWatcher /\ attempts_ok NewTimeoutWatcher [].
Proof.
  unfold NewTimeoutWatcher. split; [|split].
  - split; cbn; try done; intros *; rewrite ?lookup_empty; done.
  - split; [done|]. cbn. intros t e. by rewrite lookup_empty.
  - split; cbn; [done| |done]. intros t e. by rewrite lookup_empty.
Qed.

Lemma reachable_ok (ls : list label) (w : TimeoutWatcher) outs :
  run ls NewTimeoutWatcher = Some (w, outs) -> Z.of_nat (length ls) < 2 ^ 64 - 1 ->
  watcher_inv w /\ agrees (commanded ls) w /\ attempts_ok w outs /\ nextGeneration w + 1 < 2 ^ 64.
Proof.
  intros Hrun Hmax. destruct new_ok as (H1 & H2 & H3).
  destruct (run_ok [] ls NewTimeoutWatcher w [] outs H1 H2 H3 ltac:(cbn; lia) Hrun) as (? & ? & ? & Hg).
  cbn in *. split; [done|]. split; [done|]. split; [done|lia].
Qed.

(** *** Draining *)

Definition weigh (_ : nat) (cb : callback) (n : nat) : nat := (cb_weight (cb_st cb) + n)%nat.

Lemma weight_delete (m : gmap nat callback) (id : nat) (cb : callback) :
  m !! id = Some cb -> map_fold weigh 0%nat m = (cb_weight (cb_st cb) + map_fold weigh 0%nat (delete id m))%nat.
Proof.
  intros H. apply (map_fold_delete_L weigh 0%nat id cb m); [|done]. unfold weigh. intros. lia.
Qed.

Lemma weight_insert (m : gmap nat callback) (id : nat) (cb cb' : callback) :
  m !! id = Some cb ->
  (map_fold weigh 0 (<[id := cb']> m) + cb_weight (cb_st cb) = map_fold weigh 0 m + cb_weight (cb_st cb'))%nat.
Proof.
  intros H. rewrite (weight_delete _ id cb H), (weight_delete (<[id := cb']> m) id cb') by apply lookup_insert_eq.
  rewrite delete_insert_eq. lia.
Qed.

Lemma set_stage_weight (w : TimeoutWatcher) (id : nat) (cb : callback) (st : cb_stage) :
  pool w !! id = Some cb ->
  (weight (set_stage id cb st w) + cb_weight (cb_st cb) = weight w + cb_weight st)%nat.
Proof. intros H. unfold weight, set_stage. cbn. by rewrite (weight_insert (pool w) id cb). Qed.

(** Once the watcher is closed, every step of a callback brings the end closer, no
    other step puts it off, and nothing is enforced any more. *)
Lemma closed_step (l : label) (w w' : TimeoutWatcher) out :
  watcher_inv w -> closed w = true -> step l w = Some (w', out) ->
  closed w' = true /\ out = None /\ (weight w' <= weight w)%nat /\ (callback_step l = true -> weight w' < weight w)%nat.
Proof.
  intros Hinv Hcl. pose proof (i_closed w Hinv Hcl) as Ht.
  destruct l as [t d secs lg now|t| | |id|id now|id err|id]; cbn [step callback_step].
  - unfold Arm. rewrite Hcl. by intros [= <- <-].
  - unfold Disarm. rewrite Ht, lookup_empty. by intros [= <- <-].
  - unfold Close. rewrite Hcl. by intros [= <- <-].
  - destruct (_ && _ && _); [|done]. by intros [= <- <-].
  - destruct (pool w !! id) as [cb|] eqn:Hcb; [|done]. destruct (bool_decide_reflect (cb_st cb = Waiting)) as [Hst|]; [|done].
    intros [= <- <-]. pose proof (set_stage_weight w id cb Begun Hcb) as Hw. rewrite Hst in Hw. cbn in Hw.
    split; [done|]. split; [done|]. lia.
  - destruct (pool w !! id) as [cb|] eqn:Hcb; [|done]. destruct (bool_decide_reflect (cb_st cb = Begun)) as [Hst|]; [|done].
    unfold enter. rewrite Ht, lookup_empty. intros [= <- <-].
    pose proof (set_stage_weight w id cb Returning Hcb) as Hw. rewrite Hst in Hw. cbn in Hw.
    split; [done|]. split; [done|]. lia.
  - destruct (pool w !! id) as [cb|] eqn:Hcb; [|done]. destruct (bool_decide_reflect (cb_st cb = Executing)) as [Hst|]; [|done].
    unfold finishExecution. rewrite Ht, lookup_empty. intros [= <- <-].
    pose proof (set_stage_weight w id cb Returning Hcb) as Hw. rewrite Hst in Hw. cbn in Hw.
    split; [done|]. split; [done|]. lia.
  - destruct (pool w !! id) as [cb|] eqn:Hcb; [|done]. destruct (bool_decide_reflect (cb_st cb = Returning)) as [Hst|]; [|done].
    intros [= <- <-]. split; [done|]. split; [done|].
    pose proof (weight_delete (pool w) id cb Hcb) as Hw. rewrite Hst in Hw. unfold weight. cbn in *. unfold weigh in Hw. lia.
Qed.

(** A callback in flight can always take its next step. *)
Lemma callback_enabled (w : TimeoutWatcher) (id : nat) (cb : callback) now err :
  pool w !! id = Some cb ->
  exists l w' out, callback_step l = true /\ step l w = Some (w', out)
    /\ l = match cb_st cb with Waiting => LFire id | Begun => LEnter id now | Executing => LFinish id err | Returning => LReturn id end.
Proof.
  intros Hcb. exists (match cb_st cb with Waiting => LFire id | Begun => LEnter id now | Executing => LFinish id err | Returning => LReturn id end).
  destruct (cb_st cb) eqn:Hst; cbn [step]; rewrite Hcb, Hst; cbn; try (by eauto 6).
  destruct (enter cb now w) as [[w1 input]|]; eauto 6.
Qed.

(** ** Properties *)

(** An enforcement always uses the timeout and the life-cycle generation of the
    last [Arm] of its task, and is never started for a task that has since been
    disarmed or after [Close]: a timer that was replaced enforces nothing, in any
    interleaving of fewer than 2^64 - 1 steps. *)
Theorem enforcement_is_current (ls : list label) (w w' : TimeoutWatcher) outs (l : label) (g : Z)
    (input : EnforceTaskTimeoutInput) :
  run ls NewTimeoutWatcher = Some (w, outs) -> Z.of_nat (length ls) < 2 ^ 64 - 1 ->
  step l w = Some (w', Some (g, input)) ->
  (commanded ls).2 !! in_TaskID input = Some (in_ResolvedTimeoutSeconds input, in_Generation input)
  /\ (commanded ls).1 = false.
Proof.
  intros Hrun Hmax Hstep. destruct (reachable_ok ls w outs Hrun Hmax) as (Hinv & [Hcl Hag] & _).
  destruct l as [t d secs lg now|t| | |id|id now|id err|id]; cbn [step] in Hstep; try done; repeat case_match; simplify_eq.
  simplify_bool. edestruct (enter_timer w Hinv id) as (e & He & _ & _ & _ & Hc & _ & ->); [done..|].
  cbn. split; [by apply Hag|congruence].
Qed.

Definition example_trace : list label :=
  [LArm "a" 100 60 1 0; LArm "a" 200 90 2 0; LFire 1].

Lemma enforcement_is_current_witness :
  (commanded example_trace).2 !! "a" = Some (90, 2) /\ (commanded example_trace).1 = false.
Proof.
  assert (exists w outs w', run example_trace NewTimeoutWatcher = Some (w, outs)
    /\ step (LEnter 1 200) w = Some (w', Some (2, mkEnforceInput "a" 90 2 200))) as (w & outs & w' & Hrun & Hstep).
  { do 3 eexists. split; [vm_compute; reflexivity|vm_compute; reflexivity]. }
  exact (enforcement_is_current example_trace w w' outs (LEnter 1 200) 2 (mkEnforceInput "a" 90 2 200) Hrun eq_refl Hstep).
Defined.

(** In any interleaving an armed timeout is enforced at most seven times (the
    first attempt and six retries), and never by two callbacks at once. *)
Theorem enforcement_attempts_bounded (ls : list label) (w : TimeoutWatcher) outs :
  run ls NewTimeoutWatcher = Some (w, outs) -> Z.of_nat (length ls) < 2 ^ 64 - 1 ->
  (forall g, Z.of_nat (attempts g outs) <= maxAttempts)
  /\ forall id id' cb cb', pool w !! id = Some cb -> pool w !! id' = Some cb' ->
       cb_st cb = Executing -> cb_st cb' = Executing -> cb_generation cb = cb_generation cb' -> id = id'.
Proof.
  intros Hrun Hmax. destruct (reachable_ok ls w outs Hrun Hmax) as (Hinv & _ & Hok & _).
  split; [apply Hok|apply Hinv].
Qed.

Lemma enforcement_attempts_bounded_witness :
  exists w outs, run (example_trace ++ [LEnter 1 200]) NewTimeoutWatcher = Some (w, outs)
    /\ attempts 2 outs = 1%nat /\ forall g, Z.of_nat (attempts g outs) <= maxAttempts.
Proof.
  assert (exists w outs, run (example_trace ++ [LEnter 1 200]) NewTimeoutWatcher = Some (w, outs) /\ attempts 2 outs = 1%nat)
    as (w & outs & Hrun & Hn).
  { do 2 eexists. split; [vm_compute; reflexivity|vm_compute; reflexivity]. }
  exists w, outs. split; [exact Hrun|]. split; [exact Hn|].
  exact (proj1 (enforcement_attempts_bounded (example_trace ++ [LEnter 1 200]) w outs Hrun eq_refl)).
Defined.

(** C38. [Close] terminates: the wait group counts the callbacks in flight, and once
    the watcher is closed no step adds one and every step of a callback decreases
    the finite number of steps left, a callback in flight can always take its next
    step, and when none is left the wait is over. *)
Theorem closed_watcher_drains (ls : list label) (w : TimeoutWatcher) outs :
  run ls NewTimeoutWatcher = Some (w, outs) -> Z.of_nat (length ls) < 2 ^ 64 - 1 ->
  wg w = Z.of_nat (size (pool w))
  /\ (closed w = true ->
      (forall l w' out, step l w = Some (w', out) ->
         closed w' = true /\ out = None /\ (weight w' <= weight w)%nat
         /\ (callback_step l = true -> (weight w' < weight w)%nat))
      /\ (wg w <> 0 -> forall now err, exists l w' out, callback_step l = true /\ step l w = Some (w', out)
            /\ match l with LEnter _ now' => now' = now | LFinish _ err' => err' = err | _ => True end)
      /\ (wg w = 0 -> closeDone w = false -> exists w', step LCloseDone w = Some (w', None))).
Proof.
  intros Hrun Hmax. destruct (reachable_ok ls w outs Hrun Hmax) as (Hinv & _ & _ & _).
  pose proof (i_wg w Hinv) as Hwg. split; [done|]. intros Hcl. split; [|split].
  - intros l w' out Hstep. by apply closed_step.
  - intros Hne now err. destruct (map_choose (pool w)) as (id & cb & Hcb).
    { intros E. rewrite E, map_size_empty in Hwg. by apply Hne. }
    destruct (callback_enabled w id cb now err Hcb) as (l & w' & out & Hl & Hstep & ->).
    do 3 eexists. split; [exact Hl|]. split; [exact Hstep|]. by destruct (cb_st cb).
  - intros E Hd. cbn [step]. rewrite Hcl, Hd, E. cbn. by eexists.
Qed.

Lemma closed_watcher_drains_witness :
  exists w outs, run (example_trace ++ [LEnter 1 200; LClose; LFinish 1 None]) NewTimeoutWatcher = Some (w, outs)
    /\ closed w = true /\ wg w = 1 /\ wg w = Z.of_nat (size (pool w)).
Proof.
  assert (exists w outs, run (example_trace ++ [LEnter 1 200; LClose; LFinish 1 None]) NewTimeoutWatcher = Some (w, outs)
    /\ closed w = true /\ wg w = 1) as (w & outs & Hrun & Hcl & Hwg).
  { do 2 eexists. split; [vm_compute; reflexivity|]. split; vm_compute; reflexivity. }
  exists w, outs. split; [exact Hrun|]. split; [exact Hcl|]. split; [exact Hwg|].
  exact (proj1 (closed_watcher_drains _ w outs Hrun eq_refl)).
Defined.
