(* ===== verification/Ownership.v ===== *)
(** * Life-cycle ownership ([internal/execution/lifecycle_ownership.go])

    At most one goroutine drives a task's life cycle: it acquires the task, gets a
    generation and a release closure, and others can ask whether a generation is
    still current.  Each method is one critical section. *)

From S2P Require Import Prelude.
From S2P Require Import Domain.

(** [released] records the generations whose release closure has run: its
    [sync.Once]. *)
Record Ownership : Type := mkOwnership {
  owners : gmap TaskID Z;
  generation : Z;
  released : gset Z }.

Definition NewLifecycleOwnershipRegistry : Ownership := mkOwnership ∅ 0 ∅.

(** The generation, with which the release closure is identified; [None]: not
    acquired. *)
Definition Acquire (taskID : TaskID) (r : Ownership) : Ownership * option Z :=
  match owners r !! taskID with
  | Some _ => (r, None)
  | None =>
      let g := wrap_uint64 (generation r + 1) in
      (mkOwnership (<[taskID := g]> (owners r)) g (released r), Some g)
  end.

(** The closure returned by [Acquire]; a missing owner reads as generation 0. *)
Definition release (taskID : TaskID) (g : Z) (r : Ownership) : Ownership :=
  if bool_decide (g ∈ released r) then r
  else
    mkOwnership (if default 0 (owners r !! taskID) =? g then delete taskID (owners r) else owners r)
      (generation r) ({[g]} ∪ released r).

Definition Current (taskID : TaskID) (r : Ownership) : option Z := owners r !! taskID.

(** Whether [WithCurrent] runs its action. *)
Definition WithCurrent_runs (taskID : TaskID) (g : Z) (r : Ownership) : bool :=
  match owners r !! taskID with Some current => current =? g | None => false end.

Definition IsOwned (taskID : TaskID) (r : Ownership) : bool := is_some (owners r !! taskID).

(** ** Histories *)

Inductive OwnerOp : Type :=
| OpAcquire (taskID : TaskID)
| OpRelease (taskID : TaskID) (g : Z).

Definition run_owner (op : OwnerOp) (r : Ownership) : Ownership * option Z :=
  match op with
  | OpAcquire t => Acquire t r
  | OpRelease t g => (release t g r, None)
  end.

Fixpoint run_owners (ops : list OwnerOp) (r : Ownership) : Ownership :=
  match ops with [] => r | op :: ops => run_owners ops (run_owner op r).1 end.

(** A task has one life-cycle owner: once acquired with generation [g], and
    until the release closure of [g] runs, the task stays owned by [g] alone, every
    other acquisition fails and no other release frees it, over any later calls. *)
Theorem ownership_exclusive (before after : list OwnerOp) (t : TaskID) (r : Ownership) (g : Z) :
  Acquire t (run_owners before NewLifecycleOwnershipRegistry) = (r, Some g) ->
  Forall (fun op => op <> OpRelease t g) after ->
  let r' := run_owners after r in
  Current t r' = Some g /\ (Acquire t r').2 = None /\ forall g', WithCurrent_runs t g' r' = (g' =? g).
Proof.
  intros Hacq Hops. cbv zeta.
  assert (owners (run_owners after r) !! t = Some g) as H.
  2:{ unfold Current, Acquire, WithCurrent_runs. rewrite H. split; [done|]. split; [done|]. intros g'. apply Z.eqb_sym. }
  assert (owners r !! t = Some g) as H.
  { unfold Acquire in Hacq. destruct (owners _ !! t); [done|]. injection Hacq as <- <-. cbn. apply lookup_insert_eq. }
  clear Hacq. revert r H. induction Hops as [|op ops Hop _ IH]; intros r H; cbn [run_owners]; [done|].
  apply IH. destruct op as [t'|t' g']; cbn [run_owner fst].
  - unfold Acquire. destruct (owners r !! t') as [g'|] eqn:E; [done|]. cbn. rewrite lookup_insert_ne; congruence.
  - unfold release. destruct (bool_decide _); [done|]. cbn.
    destruct (Z.eqb_spec (default 0 (owners r !! t')) g') as [E|E]; [|done].
    destruct (decide (t' = t)) as [->|Hne]; [|by rewrite lookup_delete_ne].
    rewrite H in E. cbn in E. congruence.
Qed.

Lemma ownership_exclusive_witness :
  let after := [OpAcquire "a"; OpRelease "a" 1; OpRelease "b" 2] in
  let r := mkOwnership {["a" := 2]} 2 {[1]} in
  let r' := run_owners after r in
  Current "a" r' = Some 2 /\ (Acquire "a" r').2 = None /\ forall g', WithCurrent_runs "a" g' r' = (g' =? 2).
Proof.
  exact (ownership_exclusive [OpAcquire "a"; OpRelease "a" 1] [OpAcquire "a"; OpRelease "a" 1; OpRelease "b" 2] "a"
           (mkOwnership {["a" := 2]} 2 {[1]}) 2 eq_refl ltac:(repeat constructor; discriminate)).
Defined.
