(* ===== verification/Enforce.v ===== *)
(** * Enforcing a timeout ([EnforceTaskTimeoutUseCase] and [TerminationEnsurer] of
    [internal/execution/timeout.go], [ProcessSignalAuthorityValidator] of
    [internal/recovery/process_signal_authority.go])

    The use case as a program over the calls it makes.  Logging is left out. *)

From S2P Require Import Prelude.
From S2P Require Import Errors.
From S2P Require Import Domain.
From S2P Require Import Task.
From S2P Require Import Snapshot.
From S2P Require Import Effects.
From S2P Require Import Pending.
From S2P Require Import Watcher.

Record RecoverViaResumeInput : Type := mkRecoverInput {
  r_TaskID : TaskID;
  r_SessionRef : option SessionRef;
  r_Origin : RecoveryOrigin;
  r_OccurredAt : Time }.

(** ** Effects *)

Inductive Eff : Type -> Type :=
| Lock (t : TaskID) : Eff unit
| Unlock (t : TaskID) : Eff unit
| Load (t : TaskID) : Eff (res TaskSnapshot)
| Save (t : TaskID) (s : TaskSnapshot) : Eff (option error)
| LeaveStalled (t : TaskID) (now : Time) : Eff unit
| AppendEvent (t : TaskID) (ev : Event) : Eff (option error)
(** The ownership registry's lock and the current generation of a task. *)
| RLock : Eff unit
| RUnlock : Eff unit
| CurrentGeneration (t : TaskID) : Eff (option Z)
| SendTerminate (pid : Z) : Eff (option error)
| SendKill (pid : Z) : Eff (option error)
| Wait (d : Duration) : Eff unit
| CtxErr : Eff (option error)
(** [TryAcquire] on the task's liveness lock: dead, or an error. *)
| TryAcquire (t : TaskID) : Eff (res bool)
| RegisterPending (t : TaskID) (disposition : Z) (authority : option ProcessSignalAuthority) : Eff (option error)
| DeletePathLock (t : TaskID) : Eff (option error)
| Recover (input : RecoverViaResumeInput) : Eff (option error).

Inductive event : Type :=
| EvLock (t : TaskID)
| EvUnlock (t : TaskID)
| EvLoad (t : TaskID) (r : res TaskSnapshot)
| EvSave (t : TaskID) (s : TaskSnapshot) (err : option error)
| EvLeaveStalled (t : TaskID) (now : Time)
| EvAppendEvent (t : TaskID) (ev : Event) (err : option error)
| EvRLock
| EvRUnlock
| EvCurrentGeneration (t : TaskID) (g : option Z)
| EvSendTerminate (pid : Z) (err : option error)
| EvSendKill (pid : Z) (err : option error)
| EvWait (d : Duration)
| EvCtxErr (err : option error)
| EvTryAcquire (t : TaskID) (r : res bool)
| EvRegisterPending (t : TaskID) (disposition : Z) (authority : option ProcessSignalAuthority) (err : option error)
| EvDeletePathLock (t : TaskID) (err : option error)
| EvRecover (input : RecoverViaResumeInput) (err : option error).

Definition record (X : Type) (e : Eff X) : X -> event :=
  match e with
  | Lock t => fun _ => EvLock t
  | Unlock t => fun _ => EvUnlock t
  | Load t => EvLoad t
  | Save t s => EvSave t s
  | LeaveStalled t now => fun _ => EvLeaveStalled t now
  | AppendEvent t ev => EvAppendEvent t ev
  | RLock => fun _ => EvRLock
  | RUnlock => fun _ => EvRUnlock
  | CurrentGeneration t => EvCurrentGeneration t
  | SendTerminate pid => EvSendTerminate pid
  | SendKill pid => EvSendKill pid
  | Wait d => fun _ => EvWait d
  | CtxErr => EvCtxErr
  | TryAcquire t => EvTryAcquire t
  | RegisterPending t d a => EvRegisterPending t d a
  | DeletePathLock t => EvDeletePathLock t
  | Recover i => EvRecover i
  end.

Abbreviation M := (prog Eff).

(** [defer m.Unlock(t)] around [p]. *)
Definition with_lock {A : Type} (t : TaskID) (p : M A) : M A :=
  call (Lock t);; a ← p; call (Unlock t);; mret a.

(** ** The signal authority *)

Definition validProcessSignalAuthority (a : ProcessSignalAuthority) : bool :=
  if (a_TaskID a =? "")%string || (a_PID a <=? 0) || IsZero (a_ProcessStartedAt a) then false
  else bool_decide (a_ExpectedState a = StateTimeout) || bool_decide (a_ExpectedState a = StateCancelling).

Definition matchesProcessSignalAuthority (s : TaskSnapshot) (a : ProcessSignalAuthority) : bool :=
  (TaskID_ s =? a_TaskID a)%string
  && match PID s with Some pid => pid =? a_PID a | None => false end
  && match ProcessStartedAt s with Some at_ => at_ =? a_ProcessStartedAt a | None => false end
  && bool_decide (State s = a_ExpectedState a).

(** [lifecycleOwnershipRegistry.WithCurrent] *)
Definition WithCurrent (t : TaskID) (g : Z) (action : M (option error)) : M (bool * option error) :=
  call RLock;;
  current ← call (CurrentGeneration t);
  r ← (if match current with Some g' => g' =? g | None => false end
       then err ← action; mret (true, err)
       else mret (false, None));
  call RUnlock;;
  mret r.

Definition Validate (a : ProcessSignalAuthority) (action : Z -> M (option error)) : M (bool * option error) :=
  if negb (validProcessSignalAuthority a) then mret (false, None)
  else
    with_lock (a_TaskID a)
      (snapshot ← call (Load (a_TaskID a));
       match snapshot with
       | Err err => mret (false, Some err)
       | Ok s =>
           if negb (matchesProcessSignalAuthority s a) then mret (false, None)
           else match a_LifecycleGeneration a with
                | None => err ← action (a_PID a); mret (true, err)
                | Some g => WithCurrent (a_TaskID a) g (action (a_PID a))
                end
       end).

(** ** Termination *)

Definition TimeoutKillGrace : Duration := 10 * Second.

(** [CheckLivenessUseCase.Execute] *)
Definition CheckLiveness (t : TaskID) : M (res bool) :=
  ctx ← call CtxErr;
  match ctx with
  | Some err => mret (Err err)
  | None =>
      r ← call (TryAcquire t);
      mret match r with
           | Ok dead => Ok dead
           | Err err =>
               if errors_Is err FsErrNotExist then Err (DErr ErrTaskNotFound)
               else Err (Wrap "check task liveness: %w" [err])
           end
  end.

Record TerminationAttemptResult : Type := mkAttempt {
  Dead : bool;
  TerminateErr : option error;
  ConfirmErr : option error }.

(** The dead flag and the error of a Go pair. *)
Definition dead_of (r : res bool) : bool := match r with Ok dead => dead | Err _ => false end.
Definition err_of {A : Type} (r : res A) : option error := match r with Ok _ => None | Err err => Some err end.

Definition Confirm (t : TaskID) : M (res bool) :=
  r ← CheckLiveness t;
  match r with
  | Err err => mret (Err err)
  | Ok true => mret (Ok true)
  | Ok false =>
      call (Wait TimeoutKillGrace);;
      ctx ← call CtxErr;
      match ctx with
      | Some err => mret (Err err)
      | None => CheckLiveness t
      end
  end.

(** [ErrProcessSignalAuthorityInvalid] *)
Definition invalidAuthority : error := Sentinel ErrProcessSignalAuthorityInvalid.

Definition send (a : ProcessSignalAuthority) (action : Z -> M (option error)) : M (option error) :=
  '(executed, err) ← Validate a action;
  mret (if negb executed && is_none err then Some invalidAuthority else err).

Definition joinSignalErrors (termErr killErr : option error) : option error :=
  match termErr, killErr with
  | None, _ => killErr
  | _, None => termErr
  | _, _ => errors_Join [termErr; killErr]
  end.

Definition SendAndConfirm (t : TaskID) (a : ProcessSignalAuthority) (grace : Duration) : M TerminationAttemptResult :=
  termErr ← send a (fun pid => call (SendTerminate pid));
  call (Wait grace);;
  r ← CheckLiveness t;
  if is_some (err_of r) || dead_of r then mret (mkAttempt (dead_of r) termErr (err_of r))
  else
    killErr ← send a (fun pid => call (SendKill pid));
    r ← CheckLiveness t;
    mret (mkAttempt (dead_of r) (joinSignalErrors termErr killErr) (err_of r)).

(** ** The use case *)

Definition isTimeoutRetryable (err : error) : bool :=
  if errors_Is err IoErrUnexpectedEOF then true
  else match errors_As as_errno err with
       | Some (EINTR | EAGAIN | EBUSY | EMFILE | ENFILE | ENOSPC) => true
       | _ => false
       end.

Definition timeoutEnforcementError (stage : string) (cause : error) : error :=
  TimeoutEnforcementError stage (isTimeoutRetryable cause) cause.

(** The loop over the events. *)
Fixpoint append_events (t : TaskID) (events : list Event) (contractErr : option error) : M (option error) :=
  match events with
  | [] => mret contractErr
  | ev :: events =>
      err ← call (AppendEvent t ev);
      append_events t events (match err with Some _ => errors_Join [contractErr; err] | None => contractErr end)
  end.

(** [Ok None]: the task was already terminal. *)
Definition executeLocked (i : EnforceTaskTimeoutInput) : M (res (option (TaskSnapshot * list Event * option error))) :=
  let t := in_TaskID i in
  loaded ← call (Load t);
  match loaded with
  | Err err => mret (Err (timeoutEnforcementError "load" err))
  | Ok snapshot =>
    match SnapshotRestore snapshot with
    | Err err => mret (Err (timeoutEnforcementError "restore" err))
    | Ok task =>
      if negb (bool_decide (t_state task = StateRunning)) && negb (bool_decide (t_state task = StateStalled))
      then mret (Ok None)
      else
        match Task_MarkTimedOut (SessionRef_ snapshot) (in_OccurredAt i) task with
        | (_, Err err) => mret (Err (timeoutEnforcementError "restore" err))
        | (task, Ok events) =>
          match WithTask snapshot task (in_OccurredAt i) with
          | Err err => mret (Err (timeoutEnforcementError "restore" err))
          | Ok updated =>
              saved ← call (Save t updated);
              match saved with
              | Some err => mret (Err (timeoutEnforcementError "save" err))
              | None =>
                  (if bool_decide (State snapshot = StateStalled)
                   then call (LeaveStalled t (in_OccurredAt i)) else mret tt);;
                  contractErr ← append_events t events None;
                  mret (Ok (Some (snapshot, events, contractErr)))
              end
          end
        end
    end
  end.

Definition isTimeoutTerminalState (s : TaskState) : bool :=
  match s with
  | StateCompleted | StateFailed | StateRecovered | StateTimeoutLost | StateKilled | StateLost => true
  | _ => false
  end.

Definition join (errs : list (option error)) : option error := errors_Join errs.

Definition reconcileAfterConfirmedDeath (t : TaskID) (operationErr : option error) : M (option error) :=
  call (Lock t);;
  loaded ← call (Load t);
  call (Unlock t);;
  match loaded with
  | Err err => mret (join [operationErr; Some err])
  | Ok s =>
      if isTimeoutTerminalState (State s) then mret operationErr
      else if negb (bool_decide (State s = StateTimeout)) && negb (bool_decide (State s = StateCancelling))
              && negb (bool_decide (State s = StateRecovering)) && negb (bool_decide (State s = StateOrphaned))
      then mret operationErr
      else
        err ← call (RegisterPending t PendingSendConfirmOnly None);
        mret match err with Some _ => join [operationErr; err] | None => operationErr end
  end.

Record EnforceTaskTimeoutOutput : Type := mkEnforceOutput { Outcome : string; Events : list Event }.

(** The part of [Execute] after the timeout has been recorded. *)
Definition terminate_and_recover (i : EnforceTaskTimeoutInput) (snapshot : TaskSnapshot) (events : list Event)
    (contractErr : option error) : M (EnforceTaskTimeoutOutput * option error) :=
  let t := in_TaskID i in
  let output := mkEnforceOutput "timed-out" events in
  '(disposition, authority, dead, confirmErr) ←
    match PID snapshot, ProcessStartedAt snapshot with
    | Some pid, Some at_ =>
        let candidate := mkAuthority (TaskID_ snapshot) pid at_ StateTimeout (Some (in_Generation i)) in
        r ← SendAndConfirm t candidate TimeoutKillGrace;
        mret
          (match TerminateErr r with
           | Some err =>
               if errors_Is err ErrProcessSignalAuthorityInvalid
               then (PendingSendConfirmOnly, None, Dead r, ConfirmErr r)
               else (PendingSendUnsent, Some candidate, Dead r, ConfirmErr r)
           | None => (PendingSendSent, None, Dead r, ConfirmErr r)
           end)
    | _, _ =>
        r ← Confirm t;
        mret (PendingSendConfirmOnly, None, dead_of r, err_of r)
    end;
  if is_some confirmErr || negb dead then
    registerErr ← call (RegisterPending t disposition authority);
    let operationErr := match registerErr with Some _ => join [contractErr; registerErr] | None => contractErr end in
    mret (output, join [operationErr; confirmErr])
  else
    releaseErr ← (if bool_decide (Subcommand_ snapshot = SubcommandImpl) then call (DeletePathLock t) else mret None);
    match releaseErr with
    | Some _ =>
        operationErr ← reconcileAfterConfirmedDeath t (join [contractErr; releaseErr]);
        mret (output, operationErr)
    | None =>
        recoveryErr ← call (Recover (mkRecoverInput t (SessionRef_ snapshot) RecoveryOriginTimeout (in_OccurredAt i)));
        match recoveryErr with
        | Some _ =>
            operationErr ← reconcileAfterConfirmedDeath t (join [contractErr; recoveryErr]);
            mret (output, operationErr)
        | None => mret (output, contractErr)
        end
    end.

Definition Enforce_Execute (i : EnforceTaskTimeoutInput) : M (EnforceTaskTimeoutOutput * option error) :=
  locked ← with_lock (in_TaskID i) (executeLocked i);
  match locked with
  | Err err => mret (mkEnforceOutput "" [], Some err)
  | Ok None => mret (mkEnforceOutput "already-terminal" [], None)
  | Ok (Some (snapshot, events, contractErr)) => terminate_and_recover i snapshot events contractErr
  end.

(** ** Specification *)

Section Spec.
Context (i : EnforceTaskTimeoutInput).

(** The timeout has been recorded: the snapshot [u] was saved. *)
Definition saved (u : TaskSnapshot) (h : list event) : Prop :=
  EvSave (in_TaskID i) u None ∈ h /\ State u = StateTimeout.

(** The signal goes to the process of the snapshot that was saved, and within one
    critical section of the task it has been loaded again, found unchanged and still
    timed out, and its life-cycle generation found current under the registry's
    lock. *)
Definition authorised (pid : Z) (h : list event) : Prop :=
  exists u s rest,
    h = EvCurrentGeneration (TaskID_ u) (Some (in_Generation i)) :: EvRLock :: EvLoad (TaskID_ u) (Ok s) :: EvLock (TaskID_ u) :: rest
    /\ saved u rest
    /\ PID u = Some pid /\ PID s = Some pid /\ ProcessStartedAt s = ProcessStartedAt u
    /\ TaskID_ s = TaskID_ u /\ State s = StateTimeout.

(** The last answer about the task's liveness was that it is dead. *)
Definition confirmed_dead (h : list event) : Prop :=
  exists rest, h = EvTryAcquire (in_TaskID i) (Ok true) :: rest \/ h = EvDeletePathLock (in_TaskID i) None :: EvTryAcquire (in_TaskID i) (Ok true) :: rest.

Definition ordered (e : event) (h : list event) : Prop :=
  match e with
  | EvSendTerminate pid _ | EvSendKill pid _ => authorised pid h
  | EvRecover _ _ | EvDeletePathLock _ _ => confirmed_dead h /\ exists u, saved u h
  | EvRegisterPending _ _ _ _ | EvAppendEvent _ _ _ | EvLeaveStalled _ _ | EvWait _ => exists u, saved u h
  | _ => True
  end.

(** What became of a task that timed out: it was recovered, or handed to the
    reconciliation, or the last thing done was to read it again, and it was found
    not to need any of that or could not be read, which is reported. *)
Definition taken_care_of (h : list event) (err : option error) : Prop :=
  (exists input, EvRecover input None ∈ h)
  \/ (exists d a e, EvRegisterPending (in_TaskID i) d a e ∈ h)
  \/ (exists r rest, h = EvUnlock (in_TaskID i) :: EvLoad (in_TaskID i) r :: EvLock (in_TaskID i) :: rest
        /\ match r with
           | Ok s => State s <> StateTimeout /\ State s <> StateCancelling /\ State s <> StateRecovering /\ State s <> StateOrphaned
           | Err _ => err <> None
           end).
End Spec.

(** ** Lemmas *)

(** What the timeout changes in the snapshot. *)
Lemma timed_out_snapshot (s u : TaskSnapshot) (t t' : Task) ref evs at_ :
  SnapshotRestore s = Ok t -> Task_MarkTimedOut ref at_ t = (t', Ok evs) -> WithTask s t' at_ = Ok u ->
  State u = StateTimeout /\ TaskID_ u = TaskID_ s /\ PID u = PID s /\ ProcessStartedAt u = ProcessStartedAt s.
Proof.
  intros (V & sl & ->)%Restore_inv Hm Hw.
  assert (u = project s t' at_) as ->.
  { unfold WithTask in Hw. cbv zeta in Hw. unfold_monads. destruct (Snapshot.Validate _); [|done]. by injection Hw. }
  clear Hw. unfold Task_MarkTimedOut, Task_transition in Hm. unfold_monads.
  destruct (terminal _ && _); [done|]. destruct (negb _); [done|]. cbn in Hm. injection Hm as <- _. cbn.
  pose proof (v_pair s V) as Hpair. split; [done|]. split; [done|].
  destruct (PID s), (ProcessStartedAt s); done.
Qed.

Section Proofs.
Context (i : EnforceTaskTimeoutInput).
Abbreviation t := (in_TaskID i).
Abbreviation ok := (hist_all (ordered i)).

Lemma saved_cons u e h : saved i u h -> saved i u (e :: h).
Proof. intros [H ?]. split; [by right|done]. Qed.
Hint Resolve saved_cons : core.

Ltac wp_cbn := cbn [wp prog_bind mbind prog_mbind mret prog_mret call record].

Lemma send_ok (u : TaskSnapshot) (pid : Z) (at_ : Time) (kill : bool) (h : list event) Q :
  ok h -> saved i u h -> PID u = Some pid -> ProcessStartedAt u = Some at_ ->
  (forall h' err, ok h' -> saved i u h' -> Q h' err) ->
  wp record (send (mkAuthority (TaskID_ u) pid at_ StateTimeout (Some (in_Generation i)))
               (fun pid => if kill then call (SendKill pid) else call (SendTerminate pid))) h Q.
Proof.
  intros Hok Hu Hpid Hat HQ. unfold send, Validate, with_lock, WithCurrent. cbn [a_LifecycleGeneration a_TaskID a_PID].
  destruct (negb (validProcessSignalAuthority _)); [apply HQ; done|].
  intros []. cbn [wp record]. intros [s|err]; [|intros []; apply HQ; cbn; auto].
  cbn [wp prog_bind mbind prog_mbind call mret prog_mret record].
  destruct (matchesProcessSignalAuthority _ _) eqn:Hm; cbn [negb];
    [|intros []; apply HQ; cbn; auto].
  unfold matchesProcessSignalAuthority in Hm. cbn in Hm. simplify_bool.
  intros []. intros [g|]; [|intros []; intros []; apply HQ; cbn; auto 10].
  cbn [prog_bind wp mbind prog_mbind]. destruct (Z.eqb_spec g (in_Generation i)) as [->|Hg];
    [|intros []; intros []; apply HQ; cbn; auto 10].
  assert (authorised i pid (EvCurrentGeneration (TaskID_ u) (Some (in_Generation i)) :: EvRLock
            :: EvLoad (TaskID_ u) (Ok s) :: EvLock (TaskID_ u) :: h)) as Hauth.
  { exists u, s, h. destruct (PID s) as [p|]; [|done]. destruct (ProcessStartedAt s) as [a|]; [|done].
    simplify_bool. subst. rewrite Hat. auto 10. }
  destruct kill; cbn [wp prog_bind call mbind prog_mbind mret prog_mret record];
    intros err []; intros []; apply HQ; cbn; auto 10.
Qed.

Definition last_dead (h : list event) : Prop := exists rest, h = EvTryAcquire t (Ok true) :: rest.

Lemma CheckLiveness_ok (u : TaskSnapshot) (h : list event) Q :
  ok h -> saved i u h ->
  (forall h' r, ok h' -> saved i u h' -> (r = Ok true -> last_dead h') -> Q h' r) ->
  wp record (CheckLiveness t) h Q.
Proof.
  intros Hok Hu HQ. unfold CheckLiveness. intros [err|]; [apply HQ; cbn; auto; done|].
  intros [dead|err]; cbn; [apply HQ; cbn; auto; intros [= ->]; by eexists|].
  destruct (errors_Is err FsErrNotExist); apply HQ; cbn; auto; done.
Qed.

Lemma SendAndConfirm_ok (u : TaskSnapshot) (pid : Z) (at_ : Time) (h : list event) Q :
  ok h -> saved i u h -> PID u = Some pid -> ProcessStartedAt u = Some at_ ->
  (forall h' r, ok h' -> saved i u h' -> (ConfirmErr r = None -> Dead r = true -> last_dead h') -> Q h' r) ->
  wp record (SendAndConfirm t (mkAuthority (TaskID_ u) pid at_ StateTimeout (Some (in_Generation i))) TimeoutKillGrace) h Q.
Proof.
  intros Hok Hu Hpid Hat HQ. unfold SendAndConfirm. apply wp_bind.
  apply (send_ok u pid at_ false); try done. intros h1 termErr Hok1 Hu1. intros [].
  apply wp_bind. apply (CheckLiveness_ok u); [cbn; eauto|auto|]. intros h2 r Hok2 Hu2 Hr.
  destruct (is_some (err_of r) || dead_of r) eqn:E.
  - apply HQ; cbn; [done..|]. destruct r as [[]|]; try done. auto.
  - apply wp_bind. apply (send_ok u pid at_ true); try done. intros h3 killErr Hok3 Hu3.
    apply wp_bind. apply (CheckLiveness_ok u); try done. intros h4 r' Hok4 Hu4 Hr'.
    apply HQ; cbn; [done..|]. destruct r' as [[]|]; try done. auto.
Qed.

Lemma Confirm_ok (u : TaskSnapshot) (h : list event) Q :
  ok h -> saved i u h ->
  (forall h' r, ok h' -> saved i u h' -> (r = Ok true -> last_dead h') -> Q h' r) ->
  wp record (Confirm t) h Q.
Proof.
  intros Hok Hu HQ. unfold Confirm. apply wp_bind. apply (CheckLiveness_ok u); [done..|].
  intros h1 r Hok1 Hu1 Hr. destruct r as [[]|err]; [apply HQ; auto| |apply HQ; auto; done].
  intros [] [err|]; [apply HQ; cbn; eauto; done|]. apply (CheckLiveness_ok u); cbn; eauto.
Qed.

Lemma append_transition_events_ok (u : TaskSnapshot) (evs : list Event) (err : option error) (h : list event) Q :
  ok h -> saved i u h -> (forall h' err', ok h' -> saved i u h' -> Q h' err') ->
  wp record (append_events t evs err) h Q.
Proof.
  intros Hok Hu HQ. revert err h Hok Hu. induction evs as [|ev evs IH]; intros err h Hok Hu; [by apply HQ|].
  intros x. apply IH; cbn; eauto.
Qed.

Lemma executeLocked_ok (h : list event) Q :
  ok h ->
  (forall h' r, ok h' ->
     match r with
     | Ok (Some (s, _, _)) => exists u, saved i u h' /\ TaskID_ u = TaskID_ s /\ PID u = PID s /\ ProcessStartedAt u = ProcessStartedAt s
     | _ => True
     end -> Q h' r) ->
  wp record (executeLocked i) h Q.
Proof.
  intros Hok HQ. unfold executeLocked. intros [s|err]; wp_cbn; [|by apply HQ]. destruct (SnapshotRestore s) as [task|err] eqn:Hres; [|by apply HQ].
  destruct (negb _ && negb _); [by apply HQ|].
  destruct (Task_MarkTimedOut _ _ task) as [task' [evs|err]] eqn:Hm; [|by apply HQ].
  destruct (WithTask s task' _) as [u|err] eqn:Hw; [|by apply HQ].
  destruct (timed_out_snapshot s u task task' _ evs _ Hres Hm Hw) as (Hst & Hid & Hpid & Hat).
  intros [err|]; wp_cbn; [by apply HQ|].
  assert (saved i u (EvSave t u None :: EvLoad t (Ok s) :: h)) as Hu by (split; [left|done]).
  assert (forall h', ok h' -> saved i u h' ->
    wp record (contractErr ← append_events t evs None; mret (Ok (Some (s, evs, contractErr)))) h' Q) as Hrest.
  { intros h' Hok' Hu'. apply wp_bind. apply (append_transition_events_ok u); [done..|]. intros h'' err' Hok'' Hu''.
    apply HQ; eauto 10. }
  destruct (bool_decide _); [intros []|]; apply Hrest; cbn; eauto.
Qed.

Lemma reconcile_ok (u : TaskSnapshot) (err : option error) (h : list event) Q :
  ok h -> saved i u h -> err <> None ->
  (forall h' err', ok h' -> taken_care_of i h' err' -> Q h' err') ->
  wp record (reconcileAfterConfirmedDeath t err) h Q.
Proof.
  intros Hok Hu Herr HQ. unfold reconcileAfterConfirmedDeath. intros []. intros [s|e] []; wp_cbn.
  - assert (forall err', State s <> StateTimeout -> State s <> StateCancelling -> State s <> StateRecovering ->
      State s <> StateOrphaned -> taken_care_of i (EvUnlock t :: EvLoad t (Ok s) :: EvLock t :: h) err') as Hno.
    { intros err' ? ? ? ?. right. right. exists (Ok s), h. auto. }
    destruct (isTimeoutTerminalState (State s)) eqn:Hterm.
    { apply HQ; [done|]. apply Hno; intros E; by rewrite E in Hterm. }
    destruct (_ && _) eqn:E.
    { apply HQ; [done|]. simplify_bool. by apply Hno. }
    intros e. cbn. apply HQ; [cbn; eauto 10|]. right. left. do 3 eexists. left.
  - apply HQ; [done|]. right. right. do 2 eexists. split; [done|]. by destruct err.
Qed.

Lemma terminate_and_recover_ok (u s : TaskSnapshot) evs contractErr (h : list event) Q :
  ok h -> saved i u h -> TaskID_ u = TaskID_ s -> PID u = PID s -> ProcessStartedAt u = ProcessStartedAt s ->
  (forall h' out err, ok h' -> taken_care_of i h' err -> Q h' (out, err)) ->
  wp record (terminate_and_recover i s evs contractErr) h Q.
Proof.
  intros Hok Hu Hid Hpid Hat HQ. unfold terminate_and_recover. apply wp_bind.
  apply (wp_mono record _ _ (fun h' '(d, a, dead, confirmErr) =>
    ok h' /\ saved i u h' /\ (confirmErr = None -> dead = true -> last_dead h'))).
  - assert (forall h' r, ok h' -> saved i u h' -> (r = Ok true -> last_dead h') ->
      ok h' /\ saved i u h' /\ (err_of r = None -> dead_of r = true -> last_dead h')) as Hr.
    { intros h' r ? ? Hr. split; [done|]. split; [done|]. destruct r as [[]|]; try done. auto. }
    destruct (PID s) as [pid|] eqn:Ep, (ProcessStartedAt s) as [at_|] eqn:Ea;
      try (apply wp_bind; by apply (Confirm_ok u)).
    rewrite <- Hid. apply wp_bind. apply (SendAndConfirm_ok u); try done. intros h' r Hok' Hu' Hr'. cbn.
    destruct (TerminateErr r) as [err|]; [destruct (errors_Is err _)|]; auto.
  - intros h' [[[d a] dead] confirmErr] (Hok' & Hu' & Hdead).
    destruct (is_some confirmErr || negb dead) eqn:E.
    { intros err. apply HQ; [cbn; eauto|]. right. left. do 3 eexists. left. }
    assert (last_dead h') as [rest Hlast] by (apply Hdead; destruct confirmErr, dead; done).
    assert (forall err h'', ok h'' -> saved i u h'' -> err <> None ->
      wp record (operationErr ← reconcileAfterConfirmedDeath t err; mret (mkEnforceOutput "timed-out" evs, operationErr)) h'' Q)
      as Hrec.
    { intros err h'' Hok'' Hu'' Herr. apply wp_bind. by apply (reconcile_ok u); [..|intros h3 err3 ? ?; apply HQ]. }
    assert (forall h'', ok h'' -> saved i u h'' -> confirmed_dead i h'' ->
      wp record (recoveryErr ← call (Recover (mkRecoverInput t (SessionRef_ s) RecoveryOriginTimeout (in_OccurredAt i)));
        match recoveryErr with
        | Some _ =>
            operationErr ← reconcileAfterConfirmedDeath t (join [contractErr; recoveryErr]);
            mret (mkEnforceOutput "timed-out" evs, operationErr)
        | None => mret (mkEnforceOutput "timed-out" evs, contractErr)
        end) h'' Q) as Hrecover.
    { intros h'' Hok'' Hu'' Hd. intros [err|]; wp_cbn.
      - apply Hrec; [cbn; eauto|auto|]. by destruct contractErr.
      - apply HQ; [cbn; eauto|]. left. eexists. left. }
    destruct (bool_decide _).
    + intros [err|]; wp_cbn.
      * apply Hrec; [cbn; split; [split; [by exists rest; left|eauto]|done]|auto|]. by destruct contractErr.
      * apply Hrecover; [cbn; split; [split; [by exists rest; left|eauto]|done]|auto|].
        exists rest. right. by rewrite Hlast.
    + apply Hrecover; [done|done|]. exists rest. by left.
Qed.

Lemma Enforce_ok :
  wp record (Enforce_Execute i) [] (fun h out => ok h /\ (Outcome out.1 = "timed-out" -> taken_care_of i h out.2)).
Proof.
  unfold Enforce_Execute, with_lock. apply wp_bind. intros []. apply wp_bind. apply executeLocked_ok; [done|].
  intros h r Hok Hr. intros []. cbn [wp].
  destruct r as [[[[s evs] contractErr]|]|err]; [|by split|by split].
  destruct Hr as (u & Hu & Hid & Hpid & Hat).
  apply (terminate_and_recover_ok u); try done. by apply saved_cons.
Qed.
End Proofs.

(** ** Properties *)

(** C39. In every run, whatever the stores, the other goroutines and the processes
    do, a signal is sent only to the process of the snapshot that was saved as timed
    out, and only inside one critical section in which the task has been loaded
    again and found unchanged and still timed out, by the life-cycle generation that
    is current then. *)
Theorem signals_authorised (i : EnforceTaskTimeoutInput) :
  wp record (Enforce_Execute i) [] (fun h _ =>
    hist_all (fun e before => match e with
                              | EvSendTerminate pid _ | EvSendKill pid _ => authorised i pid before
                              | _ => True
                              end) h).
Proof.
  eapply wp_mono; [apply Enforce_ok|]. intros h out [Hok _]. eapply hist_all_mono; [|exact Hok]. by intros [] ?.
Qed.

(** In every run the path lock is released and the recovery started only after
    the last answer about the task's liveness was that it is dead, and nothing is
    appended, registered, released, recovered or waited for before the timeout has
    been saved. *)
Theorem recovery_after_confirmed_death (i : EnforceTaskTimeoutInput) :
  wp record (Enforce_Execute i) [] (fun h _ =>
    hist_all (fun e before =>
      match e with
      | EvRecover _ _ | EvDeletePathLock _ _ => confirmed_dead i before /\ exists u, saved i u before
      | EvRegisterPending _ _ _ _ | EvAppendEvent _ _ _ | EvLeaveStalled _ _ | EvWait _ => exists u, saved i u before
      | _ => True
      end) h).
Proof.
  eapply wp_mono; [apply Enforce_ok|]. intros h out [Hok _]. eapply hist_all_mono; [|exact Hok]. by intros [] ?.
Qed.

(** No task that timed out is forgotten: in every run that reports a timeout the
    task was recovered, or handed to the reconciliation, or the last thing done was
    to read it again and it was found to be in a state that needs neither (or could
    not be read, which is reported). *)
Theorem timed_out_task_taken_care_of (i : EnforceTaskTimeoutInput) :
  wp record (Enforce_Execute i) [] (fun h out => Outcome out.1 = "timed-out" -> taken_care_of i h out.2).
Proof. eapply wp_mono; [apply Enforce_ok|]. by intros h out [_ H]. Qed.


(** ** One environment *)

(** A task that runs, a store that keeps what is saved, a process that is dead when
    it is asked about. *)
Definition example_env (X : Type) (h : list event) (e : Eff X) : X :=
  match e with
  | Load _ => Ok (match filter (fun ev => match ev with EvSave _ _ None => true | _ => false end = true) h with
                  | EvSave _ s _ :: _ => s
                  | _ => example_snapshot
                  end)
  | CurrentGeneration _ => Some 3
  | TryAcquire _ => Ok true
  | Save _ _ | AppendEvent _ _ | SendTerminate _ | SendKill _ | CtxErr | RegisterPending _ _ _
  | DeletePathLock _ | Recover _ => None
  | Lock _ | Unlock _ | LeaveStalled _ _ | RLock | RUnlock | Wait _ => tt
  end.

Definition example_enforce : EnforceTaskTimeoutInput := mkEnforceInput (TaskID_ example_snapshot) 1800 3 11.

(** The whole sequence of calls: the process is signalled, found dead, its path lock
    released and the task recovered. *)
Lemma example_enforce_run :
  let t := TaskID_ example_snapshot in
  let (h, out) := interp record example_env (Enforce_Execute example_enforce) [] in
  (exists s ev, rev h =
    [EvLock t; EvLoad t (Ok example_snapshot); EvSave t s None; EvAppendEvent t ev None; EvUnlock t;
     EvLock t; EvLoad t (Ok s); EvRLock; EvCurrentGeneration t (Some 3); EvSendTerminate 42 None; EvRUnlock; EvUnlock t;
     EvWait TimeoutKillGrace; EvCtxErr None; EvTryAcquire t (Ok true);
     EvDeletePathLock t None; EvRecover (mkRecoverInput t None RecoveryOriginTimeout 11) None])
  /\ Outcome out.1 = "timed-out"%string /\ out.2 = None.
Proof. vm_compute. split; [do 2 eexists; reflexivity|done]. Qed.
