(* ===== verification/PathLock.v ===== *)
(** * Path locks ([internal/domain/pathlock.go], [internal/execution/pathlock.go])

    An impl task owns the paths it may write to.  Acquisition runs under a mutex
    that all daemons share: it lists the locks, drops those of dead tasks, refuses a
    request that shares a path with a living owner and saves the rest.  Releasing
    does not take the mutex. *)

From S2P Require Import Prelude.
From S2P Require Import Errors.
From S2P Require Import Domain.
From S2P Require Import Snapshot.
From S2P Require Import Effects.

(** ** Domain *)

Record PathLockSnapshot : Type := mkLockSnapshot { sn_TaskID : TaskID; sn_OwnedPaths : list string }.

Record PathLock : Type := mkPathLock {
  pl_TaskID : TaskID;
  pl_OwnedPaths : list NormalizedPath;
  pl_AcquiredAt : Time }.

(** The set [owned] of the code is its list of strings. *)
Definition Overlaps (p other : PathLock) : bool :=
  existsb (fun path => bool_decide (path ∈ pl_OwnedPaths p)) (pl_OwnedPaths other).

Definition domain_Acquire (taskID : TaskID) (requestedPaths : list NormalizedPath) (activeLocks : list PathLock) (now : Time)
    : res PathLock :=
  let candidate := mkPathLock taskID requestedPaths now in
  if existsb (Overlaps candidate) activeLocks then Err (DErr ErrPathLockConflict) else Ok candidate.

Definition domain_Release (p : PathLock) (taskID : TaskID) : option error :=
  if (pl_TaskID p =? taskID)%string then None else Some (Errorf "path lock task id mismatch" []).

(** ** Effects *)

Inductive Eff : Type -> Type :=
| MutexLock : Eff (option error)
| MutexUnlock : Eff (option error)
| List_ : Eff (res (list PathLockSnapshot))
| TryAcquire (t : TaskID) : Eff (res bool)
| Load (t : TaskID) : Eff (res TaskSnapshot)
| Delete (t : TaskID) : Eff (option error)
(** [normalizeFn], which reads the file system *)
| Normalize (raw : string) : Eff (res NormalizedPath)
| Now : Eff Time
| Save (t : TaskID) (paths : list NormalizedPath) : Eff (option error).

Inductive event : Type :=
| EvMutexLock (err : option error)
| EvMutexUnlock (err : option error)
| EvList (r : res (list PathLockSnapshot))
| EvTryAcquire (t : TaskID) (r : res bool)
| EvLoad (t : TaskID) (r : res TaskSnapshot)
| EvDelete (t : TaskID) (err : option error)
| EvNormalize (raw : string) (r : res NormalizedPath)
| EvNow (now : Time)
| EvSave (t : TaskID) (paths : list NormalizedPath) (err : option error).

Definition record (X : Type) (e : Eff X) : X -> event :=
  match e with
  | MutexLock => EvMutexLock
  | MutexUnlock => EvMutexUnlock
  | List_ => EvList
  | TryAcquire t => EvTryAcquire t
  | Load t => EvLoad t
  | Delete t => EvDelete t
  | Normalize raw => EvNormalize raw
  | Now => EvNow
  | Save t paths => EvSave t paths
  end.

Abbreviation M := (prog Eff).

(** ** Acquisition *)

Record AcquirePathLockInput : Type := mkAcquireInput { aq_TaskID : TaskID; aq_RequestedPaths : list string }.

Record AcquirePathLockOutput : Type := mkAcquireOutput {
  Acquired : bool;
  ConflictingTaskID : option TaskID;
  ConflictingPath : option NormalizedPath;
  NormalizedPaths : list NormalizedPath }.

Definition noOutput : AcquirePathLockOutput := mkAcquireOutput false None None [].

(** [fmt.Errorf("%w: %v", domain.ErrPathLockInfraFailure, err)] *)
Definition infraFailure : error := Wrap "%w: %v" [DErr ErrPathLockInfraFailure].

(** Whether the owner of a lock is dead. *)
Definition check_owner (t : TaskID) : M (res bool) :=
  liveness ← call (TryAcquire t);
  match liveness with
  | Ok dead => mret (Ok dead)
  | Err livenessErr =>
      if errors_Is livenessErr FsErrNotExist then
        loaded ← call (Load t);
        mret match loaded with
             | Err loadErr => if errors_Is loadErr (Domain ErrTaskNotFound) then Ok true else Err infraFailure
             | Ok task =>
                 Ok (negb (bool_decide (State task = StateQueued) || bool_decide (State task = StateStarting)))
             end
      else mret (Err (LivenessCheckError t livenessErr))
  end.

(** The first loop: survivors and stale task ids, in order. *)
Fixpoint sort_locks (snapshots survivors : list PathLockSnapshot) (staleTaskIDs : list TaskID)
    : M (res (list PathLockSnapshot * list TaskID)) :=
  match snapshots with
  | [] => mret (Ok (survivors, staleTaskIDs))
  | snapshot :: snapshots =>
      r ← check_owner (sn_TaskID snapshot);
      match r with
      | Err err => mret (Err err)
      | Ok true => sort_locks snapshots survivors (staleTaskIDs ++ [sn_TaskID snapshot])
      | Ok false => sort_locks snapshots (survivors ++ [snapshot]) staleTaskIDs
      end
  end.

Fixpoint delete_stale (ids : list TaskID) : M (option error) :=
  match ids with
  | [] => mret None
  | t :: ids =>
      err ← call (Delete t);
      match err with Some _ => mret (Some infraFailure) | None => delete_stale ids end
  end.

Fixpoint normalizeAll (rawPaths : list string) (normalized : list NormalizedPath) : M (res (list NormalizedPath)) :=
  match rawPaths with
  | [] => mret (Ok normalized)
  | raw :: rawPaths =>
      r ← call (Normalize raw);
      match r with
      | Err err => mret (Err err)
      | Ok path => normalizeAll rawPaths (normalized ++ [path])
      end
  end.

Fixpoint validateStoredPaths (rawPaths : list string) (normalized : list NormalizedPath) : res (list NormalizedPath) :=
  match rawPaths with
  | [] => Ok normalized
  | raw :: rawPaths =>
      match NewNormalizedPath raw with
      | Err err => Err err
      | Ok path => validateStoredPaths rawPaths (normalized ++ [path])
      end
  end.

Fixpoint active_locks (survivors : list PathLockSnapshot) (active : list PathLock) : res (list PathLock) :=
  match survivors with
  | [] => Ok active
  | snapshot :: survivors =>
      match validateStoredPaths (sn_OwnedPaths snapshot) [] with
      | Err _ => Err infraFailure
      | Ok ownedPaths => active_locks survivors (active ++ [mkPathLock (sn_TaskID snapshot) ownedPaths zeroTime])
      end
  end.

(** The three nested loops: the first lock, owned path and requested path that
    agree. *)
Definition findConflict (requested : list NormalizedPath) (active : list PathLock) : TaskID * NormalizedPath :=
  let pairs := active ≫= fun lock => pl_OwnedPaths lock ≫= fun owned =>
                 (fun path => (pl_TaskID lock, path)) <$> filter (fun path => path = owned) requested in
  default (""%string, ""%string) (head pairs).

Definition acquire_locked (i : AcquirePathLockInput) : M (AcquirePathLockOutput * option error) :=
  listed ← call List_;
  match listed with
  | Err _ => mret (noOutput, Some infraFailure)
  | Ok snapshots =>
    sorted ← sort_locks snapshots [] [];
    match sorted with
    | Err err => mret (noOutput, Some err)
    | Ok (survivors, staleTaskIDs) =>
      deleteErr ← delete_stale staleTaskIDs;
      match deleteErr with
      | Some err => mret (noOutput, Some err)
      | None =>
        if bool_decide (aq_RequestedPaths i = []) then mret (mkAcquireOutput true None None [], None)
        else
          normalized ← normalizeAll (aq_RequestedPaths i) [];
          match normalized with
          | Err _ => mret (noOutput, Some infraFailure)
          | Ok requested =>
            match active_locks survivors [] with
            | Err err => mret (noOutput, Some err)
            | Ok active =>
              now ← call Now;
              match domain_Acquire (aq_TaskID i) requested active now with
              | Err err =>
                  if errors_Is err (Domain ErrPathLockConflict) then
                    let '(t, p) := findConflict requested active in
                    mret (mkAcquireOutput false (Some t) (Some p) [], None)
                  else mret (noOutput, Some err)
              | Ok lock =>
                  saveErr ← call (Save (pl_TaskID lock) (pl_OwnedPaths lock));
                  mret match saveErr with
                       | Some _ => (noOutput, Some infraFailure)
                       | None => (mkAcquireOutput true None None (pl_OwnedPaths lock), None)
                       end
              end
            end
          end
      end
    end
  end.

(** The deferred unlock joins its error to one that is already there. *)
Definition Acquire_Execute (i : AcquirePathLockInput) : M (AcquirePathLockOutput * option error) :=
  lockErr ← call MutexLock;
  match lockErr with
  | Some _ => mret (noOutput, Some infraFailure)
  | None =>
      '(out, err) ← acquire_locked i;
      unlockErr ← call MutexUnlock;
      mret (out, match err, unlockErr with Some _, Some _ => errors_Join [err; unlockErr] | _, _ => err end)
  end.

(** The adapter: the error of a conflict wraps [ErrPathLockConflict].  A conflict
    without a task and a path would panic. *)
Definition PathLock_Acquire (taskID : TaskID) (rawPaths : list string) : M (option (res (list NormalizedPath))) :=
  '(out, err) ← Acquire_Execute (mkAcquireInput taskID rawPaths);
  mret match err with
       | Some err => Some (Err err)
       | None =>
           if Acquired out then Some (Ok (NormalizedPaths out))
           else match ConflictingTaskID out, ConflictingPath out with
                | Some _, Some _ => Some (Err (Wrap "path lock conflict: task %s owns %s" [DErr ErrPathLockConflict]))
                | _, _ => None
                end
       end.

(** [ReleasePathLockUseCase.Execute] *)
Definition Release_Execute (t : TaskID) : M (option error) := call (Delete t).

(** ** Specification *)

(** The run has found out that the owner is dead: its liveness lock is free, or it
    has none and its record is gone or in a state other than queued and starting. *)
Definition judged_stale (t : TaskID) (h : list event) : Prop :=
  EvTryAcquire t (Ok true) ∈ h
  \/ exists err, EvTryAcquire t (Err err) ∈ h /\ errors_Is err FsErrNotExist = true
     /\ ((exists e, EvLoad t (Err e) ∈ h /\ errors_Is e (Domain ErrTaskNotFound) = true)
         \/ exists s, EvLoad t (Ok s) ∈ h /\ State s <> StateQueued /\ State s <> StateStarting).

Definition disjoint_paths (ps qs : list string) : Prop := forall p, p ∈ ps -> p ∉ qs.

(** What the run does to the store: it deletes only stale locks, and saves a lock
    only after it has found every lock of the listing stale or disjoint from it. *)
Definition lock_rule (i : AcquirePathLockInput) (e : event) (h : list event) : Prop :=
  match e with
  | EvDelete t _ => judged_stale t h
  | EvSave t ps _ =>
      t = aq_TaskID i /\ exists snapshots, EvList (Ok snapshots) ∈ h
        /\ forall x, x ∈ snapshots -> judged_stale (sn_TaskID x) h \/ disjoint_paths (sn_OwnedPaths x) ps
  | _ => True
  end.

(** What the caller is told. *)
Definition acquire_answer (i : AcquirePathLockInput) (h : list event) (out : AcquirePathLockOutput) (err : option error) : Prop :=
  match err with
  | Some _ => out = noOutput
  | None =>
      if Acquired out then
        NormalizedPaths out = [] /\ aq_RequestedPaths i = []
        \/ EvSave (aq_TaskID i) (NormalizedPaths out) None ∈ h
           /\ Forall2 (fun raw p => EvNormalize raw (Ok p) ∈ h) (aq_RequestedPaths i) (NormalizedPaths out)
      else
        (** a living owner of one of the requested paths *)
        exists snapshots x p raw, EvList (Ok snapshots) ∈ h /\ x ∈ snapshots /\ p ∈ sn_OwnedPaths x
          /\ raw ∈ aq_RequestedPaths i /\ EvNormalize raw (Ok p) ∈ h
          /\ ConflictingTaskID out = Some (sn_TaskID x) /\ ConflictingPath out = Some p
  end.

(** ** Lemmas *)

Lemma stale_cons t e h : judged_stale t h -> judged_stale t (e :: h).
Proof.
  intros [H|(err & H1 & H2 & [(e' & H3 & H4)|(s & H3 & H4)])]; [left; by right|right..].
  - exists err. split; [by right|]. split; [done|]. left. exists e'. split; [by right|done].
  - exists err. split; [by right|]. split; [done|]. right. exists s. split; [by right|done].
Qed.

Lemma domain_Acquire_spec t requested active now :
  match domain_Acquire t requested active now with
  | Ok lock => lock = mkPathLock t requested now
      /\ forall l, l ∈ active -> disjoint_paths (pl_OwnedPaths l) requested
  | Err err => errors_Is err (Domain ErrPathLockConflict) = true
      /\ exists l p, l ∈ active /\ p ∈ pl_OwnedPaths l /\ p ∈ requested
  end.
Proof.
  unfold domain_Acquire. destruct (existsb _ active) eqn:E.
  - split; [done|]. apply existsb_true in E as (l & Hl & Hov). apply existsb_true in Hov as (p & Hp & Hin).
    apply bool_decide_eq_true in Hin. eauto.
  - split; [done|]. intros l Hl p Hp Hin. apply not_true_iff_false in E. apply E, existsb_true.
    exists l. split; [done|]. apply existsb_true. exists p. split; [done|]. by apply bool_decide_eq_true.
Qed.

Lemma findConflict_spec requested active l0 p0 :
  l0 ∈ active -> p0 ∈ pl_OwnedPaths l0 -> p0 ∈ requested ->
  exists l, l ∈ active /\ (findConflict requested active).1 = pl_TaskID l
    /\ (findConflict requested active).2 ∈ pl_OwnedPaths l /\ (findConflict requested active).2 ∈ requested.
Proof.
  intros Hl0 Hp0 Hr0. unfold findConflict. set (pairs := active ≫= _).
  assert (forall q, q ∈ pairs <-> exists l, l ∈ active /\ q.1 = pl_TaskID l /\ q.2 ∈ pl_OwnedPaths l /\ q.2 ∈ requested) as Hpairs.
  { intros [t p]. unfold pairs. rewrite list_elem_of_bind. cbn. split.
    - intros (l & Hin & Hl). apply list_elem_of_bind in Hin as (owned & Hin & Ho).
      apply list_elem_of_fmap in Hin as (path & [= -> ->] & Hin). apply list_elem_of_filter in Hin as [-> Hin]. eauto.
    - intros (l & Hl & -> & Hp & Hr). exists l. split; [|done]. apply list_elem_of_bind. exists p. split; [|done].
      apply list_elem_of_fmap. exists p. split; [done|]. by apply list_elem_of_filter. }
  destruct pairs as [|q pairs'] eqn:E.
  - exfalso. apply (not_elem_of_nil (pl_TaskID l0, p0)). apply Hpairs. exists l0. auto.
  - cbn. apply Hpairs. left.
Qed.

(** The stored paths are compared as they are. *)
Lemma validateStoredPaths_ok raw acc ps : validateStoredPaths raw acc = Ok ps -> ps = acc ++ raw.
Proof.
  revert acc. induction raw as [|r raw IH]; intros acc; cbn [validateStoredPaths].
  - intros [= <-]. by rewrite app_nil_r.
  - destruct (NewNormalizedPath r) as [p|] eqn:E; [|done]. intros H. apply IH in H as ->.
    assert (p = r) as ->. { unfold NewNormalizedPath in E. repeat case_match; by simplify_eq. }
    by rewrite <- app_assoc.
Qed.

Lemma active_locks_ok survivors acc active :
  active_locks survivors acc = Ok active ->
  exists new, active = acc ++ new /\ Forall2 (fun s l => pl_TaskID l = sn_TaskID s /\ pl_OwnedPaths l = sn_OwnedPaths s) survivors new.
Proof.
  revert acc. induction survivors as [|s survivors IH]; intros acc; cbn [active_locks].
  - intros [= <-]. exists []. by rewrite app_nil_r.
  - destruct (validateStoredPaths _ _) as [ps|] eqn:E; [|done]. apply validateStoredPaths_ok in E as ->.
    intros (new & -> & Hnew)%IH. rewrite <- app_assoc. eexists. split; [done|]. by constructor.
Qed.

Section Proofs.
Context (i : AcquirePathLockInput).
Abbreviation ok := (hist_all (lock_rule i)).

Ltac wp_cbn := cbn [wp prog_bind mbind prog_mbind mret prog_mret call record].

(** Nothing recorded is forgotten: the facts a loop has established stay. *)
Definition grows (h h' : list event) : Prop := forall e, e ∈ h -> e ∈ h'.

Lemma stale_grows t h h' : grows h h' -> judged_stale t h -> judged_stale t h'.
Proof.
  intros Hg [H|(err & H1 & H2 & [(e' & H3 & H4)|(s & H3 & H4)])]; [left; by apply Hg|right..]; exists err;
    (split; [by apply Hg|]); (split; [done|]); [left|right]; eexists; (split; [by apply Hg|done]).
Qed.

Lemma stale_all_grows ts h h' :
  grows h h' -> Forall (fun t => judged_stale t h) ts -> Forall (fun t => judged_stale t h') ts.
Proof. intros Hg Hts. induction Hts as [|t ts Ht _ IH]; constructor; [by apply (stale_grows t h)|done]. Qed.

Lemma check_owner_ok t h Q :
  ok h -> (forall h' r, ok h' -> grows h h' -> (r = Ok true -> judged_stale t h') -> Q h' r) ->
  wp record (check_owner t) h Q.
Proof.
  intros Hok HQ. unfold check_owner. intros [dead|err]; wp_cbn.
  - apply HQ; [done|by intros e ?; right|]. intros [= ->]. left. left.
  - destruct (errors_Is err FsErrNotExist) eqn:E; [|apply HQ; [done|by intros e ?; right|done]].
    intros [s|e]; wp_cbn; (apply HQ; [done|intros ? ?; by do 2 right|]).
    + intros [= H]. apply negb_true_iff, orb_false_iff in H as [H1 H2]. simplify_bool. right. exists err.
      split; [right; left|]. split; [done|]. right. exists s. split; [left|done].
    + destruct (errors_Is e _) eqn:E'; [|done]. intros _. right. exists err. split; [right; left|]. split; [done|].
      left. exists e. split; [left|done].
Qed.

Lemma sort_locks_ok snapshots survivors stale h Q :
  ok h -> Forall (fun t => judged_stale t h) stale ->
  (forall h' r, ok h' -> grows h h' ->
     match r with
     | Ok (survivors', stale') =>
         Forall (fun t => judged_stale t h') stale'
         /\ (forall x, x ∈ survivors' -> x ∈ survivors \/ x ∈ snapshots)
         /\ (forall x, x ∈ survivors -> x ∈ survivors')
         /\ (forall x, x ∈ snapshots -> x ∈ survivors' \/ judged_stale (sn_TaskID x) h')
     | Err _ => True
     end -> Q h' r) ->
  wp record (sort_locks snapshots survivors stale) h Q.
Proof.
  revert survivors stale h. induction snapshots as [|s snapshots IH]; intros survivors stale h Hok Hst HQ; cbn [sort_locks].
  - apply HQ; [done|done|]. split; [done|]. split; [auto|]. split; [auto|]. intros x Hx. by apply not_elem_of_nil in Hx.
  - apply wp_bind. apply check_owner_ok; [done|]. intros h1 r Hok1 Hg1 Hr.
    destruct r as [[]|err]; [| |by apply HQ].
    + specialize (Hr eq_refl). apply IH; [done| |].
      { apply list.Forall_app. split; [|by constructor]. by apply (stale_all_grows _ h h1). }
      intros h2 r2 Hok2 Hg2 Hr2. apply HQ; [done|by intros e ?; auto|]. destruct r2 as [[sv st]|]; [|done].
      destruct Hr2 as (H1 & H2 & H3 & H4). split; [done|]. split; [|split; [done|]].
      * intros x Hx. destruct (H2 x Hx); [by left|right; by right].
      * intros x [->|Hx]%elem_of_cons; [|by auto]. right. by apply (stale_grows _ h1).
    + apply IH; [done| |].
      { by apply (stale_all_grows _ h h1). }
      intros h2 r2 Hok2 Hg2 Hr2. apply HQ; [done|by intros e ?; auto|]. destruct r2 as [[sv st]|]; [|done].
      destruct Hr2 as (H1 & H2 & H3 & H4). split; [done|]. split; [|split].
      * intros x Hx. destruct (H2 x Hx) as [[Hx'|Hx']%elem_of_app|Hx']; [by left| |right; by right].
        apply list_elem_of_singleton in Hx' as ->. right. left.
      * intros x Hx. apply H3, elem_of_app. by left.
      * intros x [->|Hx]%elem_of_cons; [|by auto]. left. apply H3, elem_of_app. right. by left.
Qed.

Lemma delete_stale_ok ids h Q :
  ok h -> Forall (fun t => judged_stale t h) ids ->
  (forall h' r, ok h' -> grows h h' -> Q h' r) -> wp record (delete_stale ids) h Q.
Proof.
  revert h. induction ids as [|t ids IH]; intros h Hok Hst HQ; cbn [delete_stale]; [by apply HQ|].
  apply list.Forall_cons in Hst as [Ht Hst]. intros [err|]; wp_cbn; [apply HQ; [by split|by intros e ?; right]|].
  apply IH; [by split| |intros h' r ? Hg; apply HQ; [done|]; intros e He; apply Hg; by right].
  apply (stale_all_grows _ h); [|done]. intros e ?. by right.
Qed.

Lemma normalizeAll_ok raws acc h Q :
  ok h ->
  (forall h' r, ok h' -> grows h h' ->
     match r with
     | Ok ps => exists new, ps = acc ++ new /\ Forall2 (fun raw p => EvNormalize raw (Ok p) ∈ h') raws new
     | Err _ => True
     end -> Q h' r) ->
  wp record (normalizeAll raws acc) h Q.
Proof.
  revert acc h. induction raws as [|raw raws IH]; intros acc h Hok HQ; cbn [normalizeAll].
  - apply HQ; [done|done|]. exists []. by rewrite app_nil_r.
  - intros [p|err]; wp_cbn; [|apply HQ; [done|by intros e ?; right|done]].
    apply IH; [done|]. intros h' r Hok' Hg Hr. apply HQ; [done|intros e ?; apply Hg; by right|].
    destruct r as [ps|]; [|done]. destruct Hr as (new & -> & Hnew). rewrite <- app_assoc. eexists. split; [done|].
    constructor; [apply Hg; left|done].
Qed.

(** The last part: the request against the surviving locks. *)
Lemma request_ok requested active survivors snapshots h Q :
  ok h -> EvList (Ok snapshots) ∈ h ->
  (forall x, x ∈ survivors -> x ∈ snapshots) ->
  (forall x, x ∈ snapshots -> x ∈ survivors \/ judged_stale (sn_TaskID x) h) ->
  Forall2 (fun raw p => EvNormalize raw (Ok p) ∈ h) (aq_RequestedPaths i) requested ->
  Forall2 (fun s l => pl_TaskID l = sn_TaskID s /\ pl_OwnedPaths l = sn_OwnedPaths s) survivors active ->
  (forall h' out err, ok h' -> acquire_answer i h' out err -> Q h' (out, err)) ->
  wp record (now ← call Now;
    match domain_Acquire (aq_TaskID i) requested active now with
    | Err err =>
        if errors_Is err (Domain ErrPathLockConflict) then
          let '(t, p) := findConflict requested active in
          mret (mkAcquireOutput false (Some t) (Some p) [], None)
        else mret (noOutput, Some err)
    | Ok lock =>
        saveErr ← call (Save (pl_TaskID lock) (pl_OwnedPaths lock));
        mret match saveErr with
             | Some _ => (noOutput, Some infraFailure)
             | None => (mkAcquireOutput true None None (pl_OwnedPaths lock), None)
             end
    end) h Q.
Proof.
  intros Hok Hlist Hsub Hall Hreq Hact HQ now. wp_cbn.
  pose proof (domain_Acquire_spec (aq_TaskID i) requested active now) as Hspec.
  destruct (domain_Acquire _ _ _ _) as [lock|err].
  - destruct Hspec as [-> Hdisj]. cbn [pl_TaskID pl_OwnedPaths].
    assert (forall err, lock_rule i (EvSave (aq_TaskID i) requested err) (EvNow now :: h)) as Hrule.
    { intros err. split; [done|]. exists snapshots. split; [by right|]. intros x Hx.
      destruct (Hall x Hx) as [Hs|Hs]; [right|left; by apply stale_cons].
      apply list_elem_of_lookup in Hs as [k Hk]. destruct (Forall2_lookup_l _ _ _ _ _ Hact Hk) as (l & Hl & _ & <-).
      apply Hdisj. by eapply list_elem_of_lookup_2. }
    intros [err|]; wp_cbn; (apply HQ; [by split|]); [done|]. right. split; [left|].
    eapply list.Forall2_impl; [exact Hreq|]. intros raw p Hp. by do 2 right.
  - destruct Hspec as [-> (l & p & Hl & Hp & Hr)].
    destruct (findConflict_spec requested active l p Hl Hp Hr) as (l' & Hl' & E1 & Hp' & Hr').
    destruct (findConflict requested active) as [t q]. cbn in *. subst. apply HQ; [by split|].
    apply list_elem_of_lookup in Hl' as [k Hk]. destruct (Forall2_lookup_r _ _ _ _ _ Hact Hk) as (x & Hx & E1 & E2).
    apply list_elem_of_lookup in Hr' as [j Hj]. destruct (Forall2_lookup_r _ _ _ _ _ Hreq Hj) as (raw & Hraw & Hn).
    exists snapshots, x, q, raw. split; [by right|]. split; [by eapply Hsub, list_elem_of_lookup_2|].
    split; [by rewrite <- E2|]. split; [by eapply list_elem_of_lookup_2|]. split; [by right|]. by rewrite E1.
Qed.

Lemma acquire_locked_ok h Q :
  ok h -> (forall h' out err, ok h' -> acquire_answer i h' out err -> Q h' (out, err)) ->
  wp record (acquire_locked i) h Q.
Proof.
  intros Hok HQ. unfold acquire_locked. intros [snapshots|err]; wp_cbn; [|by apply HQ].
  apply wp_bind. apply sort_locks_ok; [done|constructor|]. intros h1 r Hok1 Hg1 Hr.
  destruct r as [[survivors stale]|err]; [|by apply HQ]. destruct Hr as (Hstale & Hsub & _ & Hall).
  assert (forall x, x ∈ survivors -> x ∈ snapshots) as Hsub'.
  { intros x Hx. destruct (Hsub x Hx) as [Hn|]; [|done]. by apply not_elem_of_nil in Hn. }
  apply wp_bind. apply delete_stale_ok; [done..|]. intros h2 deleteErr Hok2 Hg2.
  destruct deleteErr as [err|]; [by apply HQ|].
  destruct (bool_decide_reflect (aq_RequestedPaths i = [])) as [E|_]; [apply HQ; [done|by left]|].
  apply wp_bind. apply normalizeAll_ok; [done|]. intros h3 r Hok3 Hg3 Hr.
  destruct r as [requested|err]; [|by apply HQ]. destruct Hr as (new & -> & Hnew). cbn [app].
  destruct (active_locks survivors []) as [active|err] eqn:Eact; [|by apply HQ].
  apply active_locks_ok in Eact as (act & -> & Hact). cbn [app].
  apply (request_ok new act survivors snapshots); try done.
  - apply Hg3, Hg2, Hg1. left.
  - intros x Hx. destruct (Hall x Hx) as [|Hs]; [by left|right]. by apply (stale_grows _ h2), (stale_grows _ h1).
Qed.

Lemma answer_cons e h out err : acquire_answer i h out err -> acquire_answer i (e :: h) out err.
Proof.
  unfold acquire_answer. destruct err as [err|]; [done|]. destruct (Acquired out).
  - intros [H|[H1 H2]]; [by left|right]. split; [by right|]. eapply list.Forall2_impl; [exact H2|]. intros raw p Hp. by right.
  - intros (snapshots & x & p & raw & H1 & H2 & H3 & H4 & H5 & H6). exists snapshots, x, p, raw.
    split; [by right|]. split; [done|]. split; [done|]. split; [done|]. split; [by right|done].
Qed.

Lemma Acquire_ok :
  wp record (Acquire_Execute i) [] (fun h out => ok h /\ acquire_answer i h out.1 out.2).
Proof.
  unfold Acquire_Execute. intros [err|]; wp_cbn; [by split|]. apply wp_bind. apply acquire_locked_ok; [done|].
  intros h out err Hok Hans unlockErr. wp_cbn. split; [by split|]. apply (answer_cons (EvMutexUnlock unlockErr)) in Hans.
  by destruct err, unlockErr.
Qed.
End Proofs.

(** ** The store over time *)

(** What a run has done to the store. *)
Definition replay1 (e : event) (S : gmap TaskID (list string)) : gmap TaskID (list string) :=
  match e with
  | EvDelete t None => delete t S
  | EvSave t ps None => <[t := ps]> S
  | _ => S
  end.
Definition replay (h : list event) (S : gmap TaskID (list string)) : gmap TaskID (list string) := foldr replay1 S h.

(** Living tasks own disjoint paths. *)
Definition exclusive (live : gset TaskID) (S : gmap TaskID (list string)) : Prop :=
  forall t t' ps ps', t <> t' -> t ∈ live -> t' ∈ live -> S !! t = Some ps -> S !! t' = Some ps' -> disjoint_paths ps ps'.

(** The answers of a run agree with the world: the listing is the store's, and an
    owner that looks dead is not alive. *)
Definition truthful (live : gset TaskID) (S : gmap TaskID (list string)) (h : list event) : Prop :=
  (forall snapshots t ps, EvList (Ok snapshots) ∈ h -> S !! t = Some ps -> mkLockSnapshot t ps ∈ snapshots)
  /\ (forall t, judged_stale t h -> t ∉ live).

(** The locks on disk and the tasks that are alive.  An acquisition is one step: the
    mutex keeps other acquisitions out, and a release in between only removes a lock
    and so commutes with it. *)
Record World : Type := mkWorld { locks : gmap TaskID (list string); live : gset TaskID }.

Inductive world_step (w : World) : World -> Prop :=
| W_acquire (i : AcquirePathLockInput) (env : forall X, list event -> Eff X -> X) :
    let h := (interp record env (Acquire_Execute i) []).1 in
    truthful (live w) (locks w) h ->
    world_step w (mkWorld (replay h (locks w)) (live w))
| W_release (t : TaskID) : world_step w (mkWorld (delete t (locks w)) (live w))
| W_start (t : TaskID) : locks w !! t = None -> world_step w (mkWorld (locks w) ({[t]} ∪ live w))
| W_die (t : TaskID) : world_step w (mkWorld (locks w) (live w ∖ {[t]})).

Inductive world_reachable : World -> Prop :=
| W_init (alive : gset TaskID) : world_reachable (mkWorld ∅ alive)
| W_step (w w' : World) : world_reachable w -> world_step w w' -> world_reachable w'.

Lemma replay_exclusive (i : AcquirePathLockInput) (alive : gset TaskID) (S : gmap TaskID (list string)) (h : list event) :
  exclusive alive S -> hist_all (lock_rule i) h -> truthful alive S h ->
  exclusive alive (replay h S) /\ forall t ps, t <> aq_TaskID i -> replay h S !! t = Some ps -> S !! t = Some ps.
Proof.
  intros Hex. induction h as [|e h IH]; intros Hok [Hlist Hstale]; [done|]. destruct Hok as [Hrule Hok].
  destruct IH as [IHex IHsub]; [done|split|].
  { intros snapshots t ps H. apply Hlist. by right. }
  { intros t H. apply Hstale. by apply stale_cons. }
  cbn [replay foldr]. fold (replay h S). destruct e as [err|err|r|t r|t r|t [err|]|raw r|now|t ps [err|]]; try done; cbn [replay1].
  - split.
    + intros t1 t2 p1 p2 Hne H1 H2 [_ E1]%lookup_delete_Some [_ E2]%lookup_delete_Some. by apply (IHex t1 t2).
    + intros t1 p1 Hne [_ E1]%lookup_delete_Some. auto.
  - destruct Hrule as [-> (snapshots & Hin & Hall)]. split.
    2:{ intros t1 p1 Hne [[E _]|[_ E]]%lookup_insert_Some; [done|auto]. }
    assert (forall t2 p2, t2 <> aq_TaskID i -> t2 ∈ alive -> replay h S !! t2 = Some p2 -> disjoint_paths p2 ps) as Hnew.
    { intros t2 p2 Hne Hal E. apply IHsub in E; [|done].
      assert (mkLockSnapshot t2 p2 ∈ snapshots) as Hx by (apply (Hlist snapshots t2 p2); [by right|done]).
      destruct (Hall _ Hx) as [Hst|Hd]; [|done]. exfalso. apply (Hstale t2); [|done]. by apply stale_cons. }
    intros t1 t2 p1 p2 Hne H1 H2 [[<- <-]|[Hn1 E1]]%lookup_insert_Some [[<- <-]|[Hn2 E2]]%lookup_insert_Some.
    + done.
    + intros p Hp Hp'. by apply (Hnew t2 p2 ltac:(congruence) H2 E2 p).
    + by apply (Hnew t1 p1 ltac:(congruence)).
    + by apply (IHex t1 t2).
Qed.

(** C40. Living tasks never own a common path: from an empty store, over any
    acquisitions (against any environment whose answers agree with the store and the
    living tasks), releases, starts of new tasks and deaths, the locks of any two
    living tasks are disjoint. *)
Theorem path_locks_exclusive (w : World) : world_reachable w -> exclusive (live w) (locks w).
Proof.
  induction 1 as [alive|w w' _ IH Hstep].
  - intros t t' ps ps' _ _ _ H. cbn in H. by rewrite lookup_empty in H.
  - destruct Hstep as [i env h Htrue|t|t Hfresh|t]; cbn in *.
    + apply (replay_exclusive i); try done. apply (wp_interp record env (Acquire_Execute i) [] _ (Acquire_ok i)).
    + intros t1 t2 p1 p2 Hne H1 H2 [_ E1]%lookup_delete_Some [_ E2]%lookup_delete_Some. by apply (IH t1 t2).
    + intros t1 t2 p1 p2 Hne H1 H2 E1 E2.
      apply elem_of_union in H1 as [->%elem_of_singleton|H1]; [congruence|].
      apply elem_of_union in H2 as [->%elem_of_singleton|H2]; [congruence|]. by apply (IH t1 t2).
    + intros t1 t2 p1 p2 Hne [H1 _]%elem_of_difference [H2 _]%elem_of_difference. by apply (IH t1 t2).
Qed.

Lemma PathLock_Acquire_ok t raws : wp record (PathLock_Acquire t raws) [] (fun _ r => is_Some r).
Proof.
  unfold PathLock_Acquire. apply wp_bind. apply (wp_mono _ _ _ _ _ (Acquire_ok (mkAcquireInput t raws))).
  intros h [out err] [_ Hans]. unfold acquire_answer in Hans. cbn in *. destruct err as [err|]; [by eexists|].
  destruct (Acquired out); [by eexists|]. destruct Hans as (? & ? & ? & ? & _ & _ & _ & _ & _ & -> & ->). by eexists.
Qed.

(** What [Execute] answers, in every run: on an error nothing was acquired; an
    acquisition of at least one path has saved exactly the normalised request under
    the task's name; a refusal names a task of the listing and a requested path that
    it owns; and the store is changed only by deleting locks found stale and by that
    save, made after every listed lock was found stale or disjoint from it. *)
Theorem Acquire_answer_correct (i : AcquirePathLockInput) :
  wp record (Acquire_Execute i) [] (fun h out => hist_all (lock_rule i) h /\ acquire_answer i h out.1 out.2).
Proof. exact (Acquire_ok i). Qed.

(** ** An example *)

Definition example_env (listing : list PathLockSnapshot) (X : Type) (h : list event) (e : Eff X) : X :=
  match e with
  | MutexLock | MutexUnlock | Delete _ | Save _ _ => None
  | List_ => Ok listing
  | TryAcquire _ => Ok false
  | Load _ => Err (DErr ErrTaskNotFound)
  | Normalize raw => Ok raw
  | Now => zeroTime
  end.

Definition example_first : AcquirePathLockInput := mkAcquireInput "t1" ["/r/a"].
Definition example_second : AcquirePathLockInput := mkAcquireInput "t2" ["/r/b"; "/r/c"].
Definition example_listing : list PathLockSnapshot := [mkLockSnapshot "t1" ["/r/a"]].

(** Two living tasks, one after the other, and a third that is refused. *)
Definition example_history (listing : list PathLockSnapshot) (i : AcquirePathLockInput) : list event :=
  (interp record (example_env listing) (Acquire_Execute i) []).1.

Lemma example_conflict :
  (interp record (example_env example_listing) (Acquire_Execute (mkAcquireInput "t3" ["/r/b"; "/r/a"])) []).2
  = (mkAcquireOutput false (Some "t1"%string) (Some "/r/a"%string) [], None).
Proof. reflexivity. Qed.

Definition example_store : gmap TaskID (list string) :=
  replay (example_history example_listing example_second) (replay (example_history [] example_first) ∅).

Lemma example_no_stale t listing i h :
  (h = example_history listing i) ->
  forallb (fun e => match e with EvTryAcquire _ (Ok true) | EvTryAcquire _ (Err _) => false | _ => true end) h = true ->
  ~ judged_stale t h.
Proof.
  intros _ H. rewrite forallb_forall in H.
  intros [Hin|(err & Hin & _)]; apply list_elem_of_In, H in Hin; discriminate.
Qed.

Lemma example_world_reachable : world_reachable (mkWorld example_store {["t1"; "t2"]}).
Proof.
  assert (world_reachable (mkWorld (replay (example_history [] example_first) ∅) {["t1"; "t2"]})) as H1.
  { apply (W_step (mkWorld ∅ {["t1"; "t2"]})); [constructor|]. apply W_acquire. split.
    - intros snapshots t ps _ H. cbn in H. by rewrite lookup_empty in H.
    - intros t Hst. exfalso. by apply (example_no_stale t [] example_first _ eq_refl eq_refl). }
  apply (W_step _ _ H1), (W_acquire (mkWorld _ _) example_second (example_env example_listing)). split.
  - intros snapshots t ps Hin H. cbn [locks] in H.
    change (replay (example_history [] example_first) ∅) with (<["t1"%string := ["/r/a"%string]]> (∅ : gmap TaskID (list string))) in H.
    apply lookup_insert_Some in H as [[<- <-]|[_ H]]; [|by rewrite lookup_empty in H].
    vm_compute in Hin. repeat (apply elem_of_cons in Hin as [Hin|Hin]; [try discriminate|]); [|by apply not_elem_of_nil in Hin].
    injection Hin as ->. left.
  - intros t Hst. exfalso. by apply (example_no_stale t example_listing example_second _ eq_refl eq_refl).
Qed.

Lemma path_locks_exclusive_witness : exclusive {["t1"; "t2"]} example_store.
Proof. exact (path_locks_exclusive (mkWorld example_store {["t1"; "t2"]}) example_world_reachable). Defined.
