(* ===== verification/Daemon.v ===== *)
(** * The daemon's ports and the discipline of its handlers

    The use cases that move a task through its life cycle (finalisation, kill
    confirmation, cancellation, recovery, reconciliation, adoption, monitoring)
    share their ports: the task store and the mutex of each task, the contract
    files, the pending set, the processes, the slots, the registries.  They are
    programs over the signature below.  The discipline that every handler keeps is
    stated here once, each handler's file proves it of that handler. *)

From S2P Require Import Prelude.
From S2P Require Import Errors.
From S2P Require Import Domain.
From S2P Require Import Task.
From S2P Require Import Snapshot.
From S2P Require Import Effects.
From S2P Require Import Pending.
From S2P Require Import Enforce.

(** ** Data *)

(** [metrics.RecordTaskMetricsInput] *)
Record RecordTaskMetricsInput : Type := mkMetrics {
  m_TaskID : TaskID;
  m_FinalState : TaskState;
  m_Estimated : bool;
  m_OccurredAt : Time;
  m_StalledTotalMs : Z }.

Record RecoveryResult : Type := mkRecoveryResult {
  Succeeded : bool;
  rr_ExitCode : ExitCode;
  PartialOutputSaved : bool }.

Record ResumeSettings : Type := mkResumeSettings {
  rs_Subcommand : Subcommand;
  rs_SandboxMode : string;
  rs_Model : string;
  rs_ReasoningEffort : option string;
  rs_WorkingDir : option string }.

Record ResumeLaunchParams : Type := mkLaunchParams {
  lp_TaskID : TaskID;
  CodexBinaryPath : string;
  lp_SessionID : string;
  TaskPlacementRoot : string;
  OutputLastMessagePath : string;
  lp_OutputSchemaPath : option string;
  PromptText : string;
  lp_Subcommand : Subcommand;
  lp_SandboxMode : string;
  lp_Model : string;
  lp_ReasoningEffort : option string;
  lp_WorkingDir : string }.

(** [execution.LaunchParams], without the file of the liveness lock *)
Record LaunchParams : Type := mkLaunch {
  la_TaskID : TaskID;
  la_Subcommand : Subcommand;
  la_Model : string;
  la_SandboxMode : string;
  la_WorkingDir : string;
  la_PromptText : string;
  TaskDirPath : string;
  AllowResume : bool;
  PTYEnabled : bool;
  la_CodexBinaryPath : string;
  la_ReasoningEffort : option string;
  la_OutputSchemaPath : option string }.

(** [domain.ProcessHandle] *)
Record ProcessHandle : Type := mkHandle { ph_PID : Z; ph_ProcessStartedAt : Time }.

(** A line of codex's output: its raw text with the string under ["type"], if it is JSON
    and has one; or the end of the output. *)
Inductive StreamItem : Type :=
| Line (raw : string) (json : bool) (typ : option string)
| EndOfStream (err : option error).

(** What ends a wait for the preparation of a finalisation: the context, the
    preparation, or a change of the task. *)
Inductive Selected : Type :=
| SelectDone
| SelectPrepared (r : res bool)
| SelectChanged.

(** The functions that are started as goroutines, with what they capture. *)
Inductive goroutine : Type :=
| GoSendAndReconcile (claim : SendClaim) (snapshot : TaskSnapshot) (timeout : bool)
| GoReconcileResume (input : RecoverViaResumeInput) (claim : SendClaim)
| GoConfirmTimeoutTermination (t : TaskID) (snapshot : TaskSnapshot)
| GoConfirmCancellationTermination (t : TaskID) (snapshot : TaskSnapshot)
| GoAdoptResume (input : RecoverViaResumeInput) (claim : SendClaim)
| GoOrphanResume (input : RecoverViaResumeInput).

(** ** Effects *)

Inductive Eff : Type -> Type :=
(** the mutex of a task and the task store *)
| Lock (t : TaskID) : Eff unit
| Unlock (t : TaskID) : Eff unit
| Load (t : TaskID) : Eff (res TaskSnapshot)
| Save (t : TaskID) (s : TaskSnapshot) : Eff (option error)
| ListByStates (states : list TaskState) : Eff (res (list TaskSnapshot))
| IsReserved (t : TaskID) : Eff (res bool)
(** the section of a cancellation under the queue's mutex: the events of a task that
    was waiting and has been saved as cancelling *)
| CancelQueued (t : TaskID) (force : bool) (now : Time) : Eff (res (option (list Domain.Event)))
(** the contract files; [ReadExitCode] answers whether the file exists *)
| ReadLastMessage (t : TaskID) : Eff (res bool)
| ReadExitCode (t : TaskID) : Eff (res (option Z))
| WriteExitCode (t : TaskID) (c : ExitCode) : Eff (option error)
(** the bytes of [stderr.log] *)
| ReadStderrLog (t : TaskID) : Eff (res (list Z))
| WritePartialOutput (t : TaskID) (content : list Z) : Eff (option error)
| WritePrompt (t : TaskID) (text : string) : Eff (option error)
| WriteAdoptedMarker (t : TaskID) (now : Time) : Eff (option error)
| WriteRecoveredMarker (t : TaskID) (now : Time) : Eff (option error)
| AppendEvent (t : TaskID) (ev : Domain.Event) : Eff (option error)
| AppendRawEvent (t : TaskID) (typ raw : string) : Eff (option error)
(** the clock and the context of the caller *)
| Now : Eff Time
| CtxErr : Eff (option error)
(** processes *)
(** whether the process of the task is dead: now, or after a grace period *)
| CheckDead (t : TaskID) : Eff (res bool)
| ConfirmDead (t : TaskID) : Eff (res bool)
| SendConfirm (t : TaskID) (a : ProcessSignalAuthority) (grace : Duration) : Eff TerminationAttemptResult
| SendTerminate (pid : Z) : Eff (option error)
(** a signal that is sent while its authority is validated, the time between two
    signals, and one attempt on the liveness lock *)
| Signal (pid : Z) (kill : bool) : Eff (option error)
| Sleep (d : Duration) : Eff unit
| TryAcquire (t : TaskID) : Eff (res bool)
(** a codex process that resumes a session, started and waited for *)
| LaunchAndWait (p : ResumeLaunchParams) : Eff (option error)
(** the pending set *)
| PendRegister (t : TaskID) (disposition : Z) (a : option ProcessSignalAuthority) : Eff (option error)
| PendClaim (initial : bool) (t : TaskID) (a : ProcessSignalAuthority) : Eff (SendClaim * ClaimOutcome)
| PendComplete (c : SendClaim) : Eff bool
| PendRelease (c : SendClaim) : Eff bool
| PendInvalidate (c : SendClaim) : Eff bool
| PendRemoveClaim (c : SendClaim) : Eff bool
| PendRemove (t : TaskID) : Eff unit
| PendList : Eff (list PendingEntry)
(** path locks, slots, timers, statistics *)
| ReleasePathLock (t : TaskID) : Eff (option error)
| ReleaseSlot (t : TaskID) (now : Time) : Eff unit
| ResetSlots (reservations : gmap TaskID Subcommand) : Eff unit
| DisarmTimeout (t : TaskID) : Eff unit
| RecordMetrics (m : RecordTaskMetricsInput) : Eff unit
| EnterStalled (t : TaskID) (now : Time) : Eff unit
| LeaveStalled (t : TaskID) (now : Time) : Eff unit
| TakeTotal (t : TaskID) : Eff Z
(** ownership registries *)
| CurrentOwner (t : TaskID) : Eff (option Z)
| LifecycleOwned (t : TaskID) : Eff bool
| AcquireRecovery (t : TaskID) : Eff bool
| ReleaseRecovery (t : TaskID) : Eff unit
(** the life cycle of a task: who drives it, and what it runs on *)
| AcquireLifecycle (t : TaskID) : Eff (option Z)
| ReleaseLifecycle (t : TaskID) (g : Z) : Eff unit
| UnregisterLaunching (t : TaskID) : Eff unit
| AcquireForChild (dir : string) : Eff (option error)
| CloseLock (dir : string) : Eff unit
| ResolveWorkingDir (t : TaskID) : Eff (res string)
| CreateWorktree (t : TaskID) (source : string) : Eff (res string)
| LaunchProcess (p : LaunchParams) : Eff (res (option ProcessHandle))
| WaitProcess (t : TaskID) : Eff (Z * option error)
| TerminateProcess (pid : Z) (grace : Duration) : Eff (option error)
| ArmTimeout (t : TaskID) (deadline : Time) (seconds g : Z) : Eff unit
| OpenStdout (dir : string) : Eff (option error)
| NextLine (t : TaskID) : Eff StreamItem
| Subscribe (t : TaskID) : Eff unit
| Unsubscribe (t : TaskID) : Eff unit
| Select (t : TaskID) : Eff Selected
(** [go f()] *)
| Go (g : goroutine) : Eff unit.

Abbreviation M := (prog Eff).
Abbreviation event := (called Eff).
Abbreviation wpd p h Q := (wp record_ev p h Q).

(** [ctx.Err()]: a context without cancellation ([context.WithoutCancel]) never
    ends. *)
Definition ctx_err (cancellable : bool) : M (option error) := if cancellable then call CtxErr else mret None.

(** [if ctx.Err() != nil { stop }] *)
Definition unless_cancelled {A : Type} (cancellable : bool) (stop p : M A) : M A :=
  err ← ctx_err cancellable;
  match err with Some _ => stop | None => p end.

(** [ctx.Err() != nil] *)
Definition cancelled (cancellable : bool) : M bool := err ← ctx_err cancellable; mret (is_some err).

(** A deferred unlock, at a return. *)
Definition unlocked {A : Type} (t : TaskID) (r : A) : M A := call (Unlock t);; mret r.

(** The loops that append the events of a transition and only log a failure. *)
Fixpoint append_events (t : TaskID) (events : list Domain.Event) : M unit :=
  match events with
  | [] => mret tt
  | ev :: events => call (AppendEvent t ev);; append_events t events
  end.

(** ** The discipline *)

(** The task whose mutex the run holds. *)
Fixpoint held (h : list event) : option TaskID :=
  match h with
  | [] => None
  | Ev (Lock t) _ :: _ => Some t
  | Ev (Unlock _) _ :: _ => None
  | _ :: h => held h
  end.

(** What the run has read of the task whose mutex it holds, if it has not written
    it since. *)
Fixpoint loaded (h : list event) : option (TaskID * res TaskSnapshot) :=
  match h with
  | [] => None
  | Ev (Load t) r :: _ => Some (t, r)
  | Ev (Lock _) _ :: _ | Ev (Unlock _) _ :: _ | Ev (Save _ _) _ :: _ => None
  | _ :: h => loaded h
  end.

(** A task that has ended is not written again, and its phase never goes back. *)
Definition legal (s u : TaskSnapshot) : Prop :=
  terminal (State s) = false /\ (phase (State s) <= phase (State u))%nat.

(** A save is a read-modify-write within one critical section, of a task that the
    store has or does not have yet. *)
Definition saves (t : TaskID) (u : TaskSnapshot) (h : list event) : Prop :=
  held h = Some t
  /\ match loaded h with
     | Some (t', Ok s) => t' = t /\ legal s u
     | Some (t', Err err) => t' = t /\ errors_Is err (Domain ErrTaskNotFound) = true
     | None => False
     end.

(** What the run knows of the exit-code file of the task whose mutex it holds: nothing,
    that it is missing, or the code in it. *)
Fixpoint exit_code (h : list event) : option (option Z) :=
  match h with
  | [] => None
  | Ev (ReadExitCode _) (Ok r) :: _ => Some r
  | Ev (WriteExitCode _ c) None :: _ => Some (Some (ec_raw c))
  | Ev (WriteExitCode _ _) (Some _) :: _ | Ev (Lock _) _ :: _ | Ev (Unlock _) _ :: _ => None
  | _ :: h => exit_code h
  end.

(** What the run has written to the task whose mutex it holds. *)
Fixpoint written (h : list event) : option TaskSnapshot :=
  match h with
  | [] => None
  | Ev (Save _ u) None :: _ => Some u
  | Ev (Save _ _) (Some _) :: _ | Ev (Lock _) _ :: _ | Ev (Unlock _) _ :: _ => None
  | _ :: h => written h
  end.

(** The states that end a task with the exit code of its process. *)
Definition exited (s : TaskState) : bool :=
  match s with StateCompleted | StateFailed | StateKilled => true | _ => false end.

(** The exit-code file comes first: a task is saved as ended with the code that the
    file is known to hold, and the file is written only when it is known to be
    missing, or for a task that has just been saved as recovered or lost. *)
Definition exit_first (u : TaskSnapshot) (h : list event) : Prop :=
  exited (State u) = true -> exists c, ExitCode_ u = Some c /\ exit_code h = Some (Some (ec_raw c)).
Definition exit_written (h : list event) : Prop :=
  exit_code h = Some None \/ exists u, written h = Some u /\ lineage (State u) = true.

(** The claim on a send that the run has acquired and not yet resolved or handed to a
    goroutine.  A token of 0 stands for no claim; the pending set issues none. *)
Definition real_claim (c : SendClaim) : option SendClaim := if cl_Token c =? 0 then None else Some c.

Definition goroutine_claim (g : goroutine) : option SendClaim :=
  match g with
  | GoSendAndReconcile c _ _ | GoReconcileResume _ c | GoAdoptResume _ c => real_claim c
  | _ => None
  end.

Fixpoint open_claim (h : list event) : option SendClaim :=
  match h with
  | [] => None
  | Ev (PendClaim _ _ _) (c, ClaimAcquired) :: _ => real_claim c
  | Ev (PendComplete _) _ :: _ | Ev (PendRelease _) _ :: _ | Ev (PendInvalidate _) _ :: _
  | Ev (PendRemoveClaim _) _ :: _ | Ev (Go _) _ :: _ => None
  | _ :: h => open_claim h
  end.

(** The task whose life cycle the run drives. *)
Fixpoint owner (h : list event) : option TaskID :=
  match h with
  | [] => None
  | Ev (AcquireLifecycle t) (Some _) :: _ => Some t
  | Ev (ReleaseLifecycle _ _) _ :: _ => None
  | _ :: h => owner h
  end.

(** The first save of a task, by its life cycle and before anyone else can know it. *)
Definition starts (t : TaskID) (u : TaskSnapshot) (h : list event) : Prop :=
  held h = None /\ owner h = Some t /\ State u = StateStarting.

(** Mutexes are not nested; what belongs to a task is written under its mutex; what
    takes time, takes other locks or starts other tasks happens outside; and a claim
    is resolved, or handed on, by the one who holds it. *)
Definition rule (e : event) (h : list event) : Prop :=
  match e with
  | Ev (Lock _) _ => held h = None
  | Ev (Unlock t) _ => held h = Some t
  | Ev (Save t u) _ => saves t u h /\ exit_first u h \/ starts t u h
  | Ev (WriteExitCode t _) _ => held h = Some t /\ exit_written h
  | Ev (WriteAdoptedMarker t _) _ | Ev (WriteRecoveredMarker t _) _ => held h = Some t
  | Ev (AppendEvent t _) _ => held h = Some t
  | Ev (ReadExitCode t) _ => held h = None \/ held h = Some t
  | Ev (Signal _ _) _ => held h <> None
  | Ev (ReleaseSlot _ _) _ | Ev (ConfirmDead _) _ | Ev (SendConfirm _ _ _) _ | Ev (SendTerminate _) _
  | Ev (LaunchAndWait _) _ | Ev (LaunchProcess _) _ | Ev (WaitProcess _) _ | Ev (TerminateProcess _ _) _
  | Ev (CreateWorktree _ _) _ | Ev (NextLine _) _ | Ev (Select _) _ | Ev (Sleep _) _ => held h = None
  | Ev (PendClaim _ _ _) _ => held h = None /\ open_claim h = None
  | Ev (PendComplete c) _ | Ev (PendRelease c) _ | Ev (PendInvalidate c) _ | Ev (PendRemoveClaim c) _ =>
      open_claim h = real_claim c
  | Ev (Go g) _ => held h = None /\ open_claim h = goroutine_claim g
  | _ => True
  end.

Abbreviation ok := (hist_all rule).

Lemma save_rule t u err s h :
  held h = Some t -> loaded h = Some (t, Ok s) -> legal s u -> exit_first u h -> rule (Ev (Save t u) err) h.
Proof. intros Hh Hl Hlegal Hex. left. split; [|done]. split; [done|]. by rewrite Hl. Qed.

(** How often a slot was released, and how often statistics were recorded. *)
Fixpoint slots (h : list event) : nat :=
  match h with
  | [] => 0
  | Ev (ReleaseSlot _ _) _ :: h => S (slots h)
  | _ :: h => slots h
  end.
Fixpoint metrics (h : list event) : nat :=
  match h with
  | [] => 0
  | Ev (RecordMetrics _) _ :: h => S (metrics h)
  | _ :: h => metrics h
  end.

(** ** Lemmas *)

Lemma WithTask_state s t at_ u : WithTask s t at_ = Ok u -> State u = t_state t /\ TaskID_ u = t_id t /\ ExitCode_ u = t_exitCode t.
Proof.
  unfold WithTask. cbv zeta. unfold_monads. destruct (Snapshot.Validate _); [|done]. by intros [= <-].
Qed.

Lemma Restore_state s t : SnapshotRestore s = Ok t -> t_state t = State s /\ t_id t = TaskID_ s /\ t_subcommand t = Subcommand_ s.
Proof. by intros (_ & sl & ->)%Restore_inv. Qed.

(** A method that succeeds on a restored task makes a legal successor. *)
Lemma legal_step op s s' t t' evs at_ u :
  SnapshotRestore s = Ok t -> Task.run_op op t = (t', Ok evs) -> WithTask s' t' at_ = Ok u -> legal s u.
Proof.
  intros (Hs & _)%Restore_state Hop (Hu & _)%WithTask_state. unfold legal. rewrite Hu, <- Hs. split.
  - destruct (terminal (t_state t)) eqn:E; [|done]. rewrite run_op_terminal in Hop by done. by simplify_eq.
  - by eapply run_op_phase.
Qed.

Ltac wp_cbn := cbn [wp prog_bind mbind prog_mbind mret prog_mret call ctx_err].

Ltac wp_head p :=
  lazymatch p with
  | prog_bind _ ?q => wp_head q
  | mbind _ ?q => wp_head q
  | _ => p
  end.

Ltac innermost x := lazymatch x with match ?y with _ => _ end => innermost y | _ => x end.

(** One step of a run: the answer of a call, or the branches of a condition. *)
Ltac wp_step :=
  wp_cbn;
  lazymatch goal with
  | |- wp _ ?p _ _ =>
      let q := wp_head p in
      lazymatch q with
      | match ?x with _ => _ end =>
          let y := innermost x in
          first [is_var y; destruct y | destruct y eqn:?]
      end
  | |- forall _ : unit, _ => intros []
  | |- forall _, _ => intro
  end.

(** A fact about the history after more events that do not touch the mutex. *)
Ltac by_cbn := cbn [hist_all held loaded rule]; repeat split; try done; auto.

(** The observers that no call of a loop changes. *)
Record same (h h' : list event) : Prop := {
  same_held : held h' = held h;
  same_loaded : loaded h' = loaded h;
  same_written : written h' = written h;
  same_slots : slots h' = slots h;
  same_metrics : metrics h' = metrics h }.

Lemma same_refl h : same h h.
Proof. by split. Qed.

Lemma same_trans h1 h2 h3 : same h1 h2 -> same h2 h3 -> same h1 h3.
Proof. intros [] []. split; congruence. Qed.

(** The calls that have to do with signals, claims and goroutines; a program is plain
    if it makes no other call. *)
Definition plain (e : event) : bool :=
  match e with
  | Ev (PendClaim _ _ _) _ | Ev (PendComplete _) _ | Ev (PendRelease _) _ | Ev (PendInvalidate _) _
  | Ev (PendRemoveClaim _) _ | Ev (Go _) _ | Ev (SendTerminate _) _ | Ev (SendConfirm _ _ _) _ | Ev (Signal _ _) _ => false
  | _ => true
  end.

Definition is_plain {A : Type} (p : M A) : Prop :=
  forall h, wpd p h (fun h' _ => exists new, h' = new ++ h /\ forallb plain new = true).

Lemma plain_ret {A : Type} (a : A) : is_plain (mret a).
Proof. intros h. by exists []. Qed.

Lemma plain_call {X : Type} (e : Eff X) : (forall x, plain (Ev e x) = true) -> is_plain (call e).
Proof. intros H h x. exists [Ev e x]. split; [done|]. cbn [forallb]. by rewrite (H x). Qed.

Lemma plain_bind {A B : Type} (p : M A) (k : A -> M B) :
  is_plain p -> (forall a, is_plain (k a)) -> is_plain (p ≫= k).
Proof.
  intros Hp Hk h. apply wp_bind. eapply wp_mono; [apply Hp|]. intros h1 a (n1 & -> & H1).
  eapply wp_mono; [apply Hk|]. intros h2 b (n2 & -> & H2). exists (n2 ++ n1).
  by rewrite <- app_assoc, forallb_app, H1, H2.
Qed.

Lemma plain_open_claim new h : forallb plain new = true -> open_claim (new ++ h) = open_claim h.
Proof. induction new as [|[X e x] new IH]; cbn; [done|]. intros [He Hn]%andb_true_iff. destruct e; try done; auto. Qed.

(** What a plain program cannot break: the claim, and any rule about the other calls. *)
Lemma wp_plain {A : Type} (R : event -> list event -> Prop) (p : M A) h Q :
  is_plain p -> (forall e h, plain e = true -> R e h) -> hist_all R h ->
  wpd p h (fun h' a => open_claim h' = open_claim h -> hist_all R h' -> h `suffix_of` h' -> Q h' a) -> wpd p h Q.
Proof.
  intros Hk HR Hh Hp. eapply wp_mono; [apply (wp_and _ _ _ _ _ (Hk h) Hp)|]. intros h' a [(new & -> & Hn) H].
  apply H; [by apply plain_open_claim| |by exists new]. clear H. induction new as [|e new IH]; [done|].
  cbn in Hn. apply andb_true_iff in Hn as [? ?]. split; auto.
Qed.

Ltac solve_plain :=
  repeat first
    [ apply plain_ret
    | apply plain_call; done
    | solve [auto with plain]
    | apply plain_bind; [|intros ?]
    | match goal with
      | |- is_plain ?p =>
          let q := wp_head p in
          lazymatch q with
          | match ?x with _ => _ end => let y := innermost x in first [is_var y; destruct y | destruct y eqn:?]
          end
      end ].

Create HintDb plain discriminated.

Lemma append_events_plain t events : is_plain (append_events t events).
Proof. induction events as [|ev events IH]; cbn [append_events]; solve_plain. Qed.
#[export] Hint Resolve append_events_plain : plain.

Lemma append_events_ok t events h Q :
  ok h -> held h = Some t ->
  (forall h', ok h' -> same h h' -> Q h' tt) -> wpd (append_events t events) h Q.
Proof.
  revert h. induction events as [|ev events IH]; intros h Hok Hh HQ; cbn [append_events].
  - apply HQ; [done|apply same_refl].
  - intros err. apply IH; [by split|done|]. intros h' Hok' Hs. apply HQ; [done|].
    by apply (same_trans _ (Ev (AppendEvent t ev) err :: h)).
Qed.

(** ** Where a handler stands

    The mutex it holds and the claim it has; the discipline has been kept. *)
Definition st (m : option TaskID) (c : option SendClaim) (h : list event) : Prop :=
  ok h /\ held h = m /\ open_claim h = c.

Lemma st_cons m c m' c' e h :
  st m c h -> rule e h -> held (e :: h) = m' -> open_claim (e :: h) = c' -> st m' c' (e :: h).
Proof. intros (Hok & _) Hr Hm Hc. by repeat split. Qed.

Lemma st_save t u err s c h :
  st (Some t) c h -> loaded h = Some (t, Ok s) -> legal s u -> exit_first u h -> st (Some t) c (Ev (Save t u) err :: h).
Proof. intros (Hok & Hm & Hc) Hl Hlegal Hex. repeat split; try done. by eapply save_rule. Qed.

(** A cancelled context shows at one of its checks; the rest of the run does not
    depend on how often it was asked. *)
Lemma unless_cancelled_ok {A : Type} (P : list event -> Prop) c (stop p : M A) h Q :
  (forall h err, P h -> P (Ev CtxErr err :: h)) -> P h ->
  (forall h', P h' -> wpd stop h' Q) -> (forall h', P h' -> wpd p h' Q) -> wpd (unless_cancelled c stop p) h Q.
Proof.
  intros Hs Hh Hstop Hp. unfold unless_cancelled. destruct c; wp_cbn; [intros [err|]; wp_cbn; auto|auto].
Qed.

Lemma st_ctx m c h err : st m c h -> st m c (Ev CtxErr err :: h).
Proof. intros (Hok & Hm & Hc). by repeat split. Qed.

Lemma unless_cancelled_st {A : Type} m cl c (stop p : M A) h Q :
  st m cl h -> (forall h', st m cl h' -> wpd stop h' Q) -> (forall h', st m cl h' -> wpd p h' Q) ->
  wpd (unless_cancelled c stop p) h Q.
Proof. apply unless_cancelled_ok. intros. by apply st_ctx. Qed.

Lemma unlocked_st {A : Type} t c (r : A) h Q :
  st (Some t) c h -> (forall h', st None c h' -> Q h' r) -> wpd (unlocked t r) h Q.
Proof. intros Hst HQ []. apply HQ. destruct Hst as (Hok & Hm & Hc). by repeat split. Qed.

(** A plain program does not change the claim. *)
Lemma wp_claim {A : Type} (p : M A) h Q :
  is_plain p -> wpd p h (fun h' a => open_claim h' = open_claim h -> Q h' a) -> wpd p h Q.
Proof.
  intros Hp HQ. eapply wp_mono; [apply (wp_and _ _ _ _ _ (Hp h) HQ)|].
  intros h' a ((new & -> & Hn) & HQ'). apply HQ'. by apply plain_open_claim.
Qed.

(** ** A calculus for the handlers

    [keeps m c m' c' p]: the discipline is kept by every run of [p] from a place where
    the mutex [m] is held and the claim [c] open, to one with [m'] and [c']. *)
Definition keeps {A : Type} (m : option TaskID) (c : option SendClaim) (m' : option TaskID) (c' : option SendClaim)
    (p : M A) : Prop :=
  forall h, st m c h -> wpd p h (fun h' _ => st m' c' h').

Lemma keeps_ret {A : Type} m c (a : A) : keeps m c m c (mret a).
Proof. by intros h Hst. Qed.

Lemma keeps_bind {A B : Type} m c m1 c1 m' c' (p : M A) (k : A -> M B) :
  keeps m c m1 c1 p -> (forall a, keeps m1 c1 m' c' (k a)) -> keeps m c m' c' (p ≫= k).
Proof. intros Hp Hk h Hst. apply wp_bind. eapply wp_mono; [by apply Hp|]. intros h' a Hst'. by apply Hk. Qed.

Lemma keeps_wp {A : Type} m c m' c' (p : M A) h (Q : list event -> A -> Prop) :
  keeps m c m' c' p -> st m c h -> (forall h' a, st m' c' h' -> Q h' a) -> wpd p h Q.
Proof. intros Hp Hst HQ. eapply wp_mono; [by apply Hp|]. intros h' a. apply HQ. Qed.

Lemma keeps_unless {A : Type} m c m' c' b (stop p : M A) :
  keeps m c m' c' stop -> keeps m c m' c' p -> keeps m c m' c' (unless_cancelled b stop p).
Proof. intros Hs Hp h Hst. eapply unless_cancelled_st; [done|exact Hs|exact Hp]. Qed.

Lemma keeps_never {A : Type} m c m' c' (stop p : M A) : keeps m c m' c' p -> keeps m c m' c' (unless_cancelled false stop p).
Proof. done. Qed.

Lemma keeps_cancelled m c b : keeps m c m c (cancelled b).
Proof. intros h Hst. destruct b; [intros err|]; [by apply st_ctx|done]. Qed.

Lemma keeps_Lock c t : keeps None c (Some t) c (call (Lock t)).
Proof. intros h (Hok & Hm & Hc) []. by repeat split. Qed.

Lemma keeps_Unlock c t : keeps (Some t) c None c (call (Unlock t)).
Proof. intros h (Hok & Hm & Hc) []. by repeat split. Qed.

Lemma keeps_unlocked {A : Type} c t (a : A) : keeps (Some t) c None c (unlocked t a).
Proof. intros h (Hok & Hm & Hc) []. by repeat split. Qed.

Lemma keeps_Go g c : goroutine_claim g = c -> keeps None c None None (call (Go g)).
Proof. intros <- h (Hok & Hm & Hc) []. by repeat split. Qed.

(** The calls that settle a claim. *)
Definition settles {X : Type} (e : Eff X) (cl : SendClaim) : Prop :=
  match e with
  | PendComplete c | PendRelease c | PendInvalidate c | PendRemoveClaim c => c = cl
  | _ => False
  end.

Lemma keeps_settle {X : Type} (e : Eff X) cl m : settles e cl -> keeps m (real_claim cl) m None (call e).
Proof. intros He h (Hok & Hm & Hc) x. destruct e; try done; cbn in He; subst; by repeat split. Qed.

(** The calls that are made with the mutex of the task, and those made without any. *)
Definition inside {X : Type} (e : Eff X) (t : TaskID) : Prop :=
  match e with AppendEvent t' _ | WriteAdoptedMarker t' _ | WriteRecoveredMarker t' _ | ReadExitCode t' => t' = t | Signal _ _ => True | _ => False end.
Definition outside {X : Type} (e : Eff X) : bool :=
  match e with ReleaseSlot _ _ | ConfirmDead _ | SendConfirm _ _ _ | LaunchAndWait _ | LaunchProcess _ | WaitProcess _
  | TerminateProcess _ _ | CreateWorktree _ _ | NextLine _ | Select _ | Sleep _ | ReadExitCode _ => true | _ => false end.

Lemma keeps_inside {X : Type} (e : Eff X) t c : inside e t -> keeps (Some t) c (Some t) c (call e).
Proof. intros He h (Hok & Hm & Hc) x. destruct e; try done; cbn in He; subst; repeat split; try done; cbn; first [congruence|by right]. Qed.

Lemma keeps_outside {X : Type} (e : Eff X) c : outside e = true -> keeps None c None c (call e).
Proof. intros He h (Hok & Hm & Hc) x. destruct e; try done; repeat split; first [done|cbn; by left]. Qed.

(** The calls that may be made anywhere. *)
Definition anywhere {X : Type} (e : Eff X) : bool :=
  match e with
  | Load _ | ListByStates _ | IsReserved _ | CancelQueued _ _ _ | ReadLastMessage _ | TryAcquire _ | ReadStderrLog _
  | WritePartialOutput _ _ | WritePrompt _ _ | AppendRawEvent _ _ _ | Now | CtxErr | CheckDead _ | PendRegister _ _ _
  | PendRemove _ | PendList | ReleasePathLock _ | ResetSlots _ | DisarmTimeout _ | RecordMetrics _ | EnterStalled _ _
  | LeaveStalled _ _ | TakeTotal _ | CurrentOwner _ | LifecycleOwned _ | AcquireRecovery _ | ReleaseRecovery _
  | UnregisterLaunching _ | AcquireForChild _ | CloseLock _ | ResolveWorkingDir _ | ArmTimeout _ _ _ _ | OpenStdout _
  | Subscribe _ | Unsubscribe _ | AcquireLifecycle _ | ReleaseLifecycle _ _ => true
  | _ => false
  end.

Lemma keeps_anywhere {X : Type} (e : Eff X) m c : anywhere e = true -> keeps m c m c (call e).
Proof. intros He h (Hok & Hm & Hc) x. destruct e; try done; by repeat split. Qed.

Lemma keeps_token {A : Type} m cl m' c' (p q : M A) :
  keeps m (real_claim cl) m' c' p -> keeps m None m' c' q ->
  keeps m (real_claim cl) m' c' (if negb (cl_Token cl =? 0) then p else q).
Proof. unfold real_claim. by destruct (cl_Token cl =? 0). Qed.

(** A program known to keep the discipline that does not touch claims. *)
Lemma keeps_plain {A : Type} (p : M A) m m' c :
  is_plain p -> (forall h Q, ok h -> held h = m -> (forall h' a, ok h' -> held h' = m' -> Q h' a) -> wpd p h Q) ->
  keeps m c m' c p.
Proof.
  intros Hp H h (Hok & Hm & Hc). apply wp_claim; [done|]. apply H; [done..|]. intros h' a Hok' Hm' Hc'.
  by repeat split; [| |congruence].
Qed.

(** ** Read, change, write *)

(** Only the end of a process ends a task with an exit code. *)
Definition ends_process (op : TaskOp) : bool :=
  match op with OpRecordExit _ _ _ _ _ | OpConfirmKilled _ _ _ => true | _ => false end.

Lemma run_op_not_exited op task task' evs :
  Task.run_op op task = (task', Ok evs) -> ends_process op = false -> exited (t_state task') = false.
Proof.
  intros H Hop. destruct op; try done; cbv [Task.run_op] in H;
  cbv [Task_Requeue Task_Start Task_RecordProcessInfo Task_ConfirmRunning Task_ObserveEvent Task_MarkStalled Task_MarkTimedOut
       Task_BeginRecovery Task_CompleteRecovery Task_FailRecovery Task_Adopt Task_DetectOrphan Task_RequestCancel Task_transition] in H;
  unfold_monads; destruct_matches; try done.
  apply orb_false_iff in H0 as [H0%negb_false_iff%bool_decide_eq_true _]. by rewrite H0.
Qed.

(** [keeps], for a program that starts right after the task has been read as [r]. *)
Definition knows {A : Type} (t : TaskID) (r : res TaskSnapshot) (c m' c' : _) (p : M A) : Prop :=
  forall h, st (Some t) c h -> loaded h = Some (t, r) -> wpd p h (fun h' _ => st m' c' h').

Lemma keeps_Load {A : Type} t c m' c' (k : res TaskSnapshot -> M A) :
  (forall r, knows t r c m' c' (k r)) -> keeps (Some t) c m' c' (call (Load t) ≫= k).
Proof. intros Hk h (Hok & Hm & Hc) r. by apply Hk. Qed.

Lemma knows_keeps {A : Type} t r c m' c' (p : M A) : keeps (Some t) c m' c' p -> knows t r c m' c' p.
Proof. intros Hp h Hst _. by apply Hp. Qed.

(** A call that neither frees the mutex nor touches the task. *)
Definition silent {X : Type} (e : Eff X) : bool :=
  match e with CheckDead _ | ReadLastMessage _ | Now | LifecycleOwned _ | CurrentOwner _ => true | _ => false end.

Lemma knows_bind {X A : Type} t r c m' c' (e : Eff X) (k : X -> M A) :
  silent e = true -> (forall x, knows t r c m' c' (k x)) -> knows t r c m' c' (call e ≫= k).
Proof. intros He Hk h (Hok & Hm & Hc) Hl x. apply Hk; destruct e; try done; by repeat split. Qed.

Lemma knows_unless {A : Type} t r c m' c' b (stop p : M A) :
  keeps (Some t) c m' c' stop -> knows t r c m' c' p -> knows t r c m' c' (unless_cancelled b stop p).
Proof.
  intros Hs Hp h Hst Hl. apply (unless_cancelled_ok (fun h => st (Some t) c h /\ loaded h = Some (t, r))); [|done| |].
  - intros h' err [Hst' Hl']. split; [by apply st_ctx|done].
  - intros h' [Hst' _]. by apply Hs.
  - intros h' [Hst' Hl']. by apply Hp.
Qed.

Lemma knows_then {A B : Type} t r c m1 c1 m' c' (p : M A) (k : A -> M B) :
  knows t r c m1 c1 p -> (forall a, keeps m1 c1 m' c' (k a)) -> knows t r c m' c' (p ≫= k).
Proof. intros Hp Hk h Hst Hl. apply wp_bind. eapply wp_mono; [by apply Hp|]. intros h' a Hst'. by apply Hk. Qed.

(** The save of what a method that does not end the process makes of the task. *)
Lemma knows_save {A : Type} op t s task task' evs at_ u c m' c' (k : option error -> M A) :
  SnapshotRestore s = Ok task -> Task.run_op op task = (task', Ok evs) -> WithTask s task' at_ = Ok u ->
  ends_process op = false -> (forall err, keeps (Some t) c m' c' (k err)) ->
  knows t (Ok s) c m' c' (call (Save t u) ≫= k).
Proof.
  intros Hr Hop Hu He Hk h Hst Hl err. apply Hk. eapply st_save; [done..| |].
  - by eapply legal_step.
  - unfold exit_first. apply WithTask_state in Hu as [-> _]. by rewrite (run_op_not_exited _ _ _ _ Hop He).
Qed.

(** A loop over events, under the mutex. *)
Lemma append_events_keeps t events c : keeps (Some t) c (Some t) c (append_events t events).
Proof.
  induction events as [|ev events IH]; cbn [append_events]; [apply keeps_ret|].
  eapply keeps_bind; [by apply keeps_inside|]. intros _. exact IH.
Qed.

Create HintDb keeps discriminated.
#[export] Hint Resolve append_events_keeps : keeps.

Ltac keeps_call :=
  first
    [ apply keeps_Lock | apply keeps_Unlock
    | apply keeps_anywhere; reflexivity
    | apply keeps_outside; reflexivity
    | apply keeps_inside; reflexivity
    | apply keeps_settle; reflexivity
    | apply keeps_Go; reflexivity ].

Ltac keeps_step :=
  lazymatch goal with
  | |- keeps _ _ _ _ ?p =>
      lazymatch p with
      | mret _ => apply keeps_ret
      | Ret _ => apply keeps_ret
      | unless_cancelled false _ _ => apply keeps_never
      | unless_cancelled _ _ _ => apply keeps_unless
      | cancelled _ => apply keeps_cancelled
      | unlocked _ _ => apply keeps_unlocked
      | call _ => keeps_call
      | mbind _ _ => eapply keeps_bind; [|intros ?]
      | Vis ?e ?k => eapply (keeps_bind _ _ _ _ _ _ (call e) k); [|intros ?]
      | match ?x with _ => _ end =>
          first [ apply keeps_token | let y := innermost x in first [is_var y; destruct y | destruct y eqn:?] ]
      | _ => solve [eauto with keeps]
      end
  end.
Ltac solve_keeps := repeat keeps_step.
