(* ===== verification/Partial.v ===== *)
(** * Partial output of a task that was lost ([internal/recovery/partial.go])

    When no final answer could be recovered, the tail of [stderr.log] is cleaned and
    kept as [partial-output.md].  A Go string is the list of its bytes here. *)

From S2P Require Import Prelude.
From S2P Require Import GoStrings.
From S2P Require Import UTF8.
From S2P Require Import Errors.
From S2P Require Import Domain.
From S2P Require Import Effects.
From S2P Require Import Daemon.

Definition partialOutputTailBytes : Z := 200000.
Definition partialOutputTailLines : Z := 400.

Definition LF : Z := 10.
Definition CR : Z := 13.
Definition ESC : Z := 0x1b.

(** ** Text *)

(** [strings.ToValidUTF8(s, "")]: the bytes that are no rune are dropped. *)
Fixpoint ToValidUTF8_fuel (fuel : nat) (p : list Z) : list Z :=
  match fuel, p with
  | S fuel, _ :: _ =>
      let '(r, size) := DecodeRune p in
      (if (r =? RuneError) && (size =? 1)%nat then [] else take size p) ++ ToValidUTF8_fuel fuel (drop size p)
  | _, _ => []
  end.
Definition ToValidUTF8 (p : list Z) : list Z := ToValidUTF8_fuel (length p) p.

Fixpoint count_while (p : Z -> bool) (l : list Z) : nat :=
  match l with b :: l => if p b then S (count_while p l) else 0 | [] => 0 end.

(** The length of the match of [\x1b\[[0-?]*[ -/]*[@-~]] at the start, if there is one.
    The three classes are disjoint, so the greedy match is the only one. *)
Definition ansiEscapePattern (l : list Z) : option nat :=
  match l with
  | e :: b :: l =>
      if (e =? ESC) && (b =? 0x5b) then
        let n := count_while (between 0x30 0x3f) l in
        let m := count_while (between 0x20 0x2f) (drop n l) in
        match drop (n + m) l with
        | f :: _ => if between 0x40 0x7e f then Some (3 + n + m)%nat else None
        | [] => None
        end
      else None
  | _ => None
  end.

(** [ReplaceAllString(text, "")]; the first [skip] bytes belong to a match. *)
Fixpoint strip_ansi (skip : nat) (l : list Z) : list Z :=
  match l with
  | [] => []
  | b :: l' =>
      match skip with
      | S skip => strip_ansi skip l'
      | O => match ansiEscapePattern l with
             | Some n => strip_ansi (n - 1) l'
             | None => b :: strip_ansi 0 l'
             end
      end
  end.

(** [strings.ReplaceAll(text, "\r\n", "\n")] *)
Fixpoint replace_crlf (l : list Z) : list Z :=
  match l with
  | [] => []
  | b :: l' => if (b =? CR) && bool_decide (head l' = Some LF) then replace_crlf l' else b :: replace_crlf l'
  end.

Definition partialOutputHeader : list Z := bytes "## 途中経過（未完了）

タイムアウトで最終回答が生成されなかったため、stderr.log の末尾を途中経過として保存しました。以下は完全な成果物ではありません。参考情報として扱い、レビュー実績には数えないでください。

---

".

Definition last_lf (s : list Z) : bool := bool_decide (list.last s = Some LF).
Definition trim_lf (s : list Z) : list Z := if last_lf s then take (length s - 1) s else s.

(** The last [n] logical lines. *)
Definition tailLogicalLines (s : list Z) (n : Z) : list Z :=
  let trailingNewline := last_lf s in
  let trimmed := trim_lf s in
  match trimmed with
  | [] => s
  | _ :: _ =>
      let lines := split_on (Z.eqb LF) trimmed in
      let lines := if n <? Z.of_nat (length lines) then drop (length lines - Z.to_nat n) lines else lines in
      intercalate [LF] lines ++ (if trailingNewline then [LF] else [])
  end.

(** The cleaned tail. *)
Definition partial_text (raw : list Z) : list Z :=
  let raw := if partialOutputTailBytes <? Z.of_nat (length raw)
             then drop (length raw - Z.to_nat partialOutputTailBytes) raw else raw in
  replace_crlf (strip_ansi 0 (ToValidUTF8 raw)).

Definition partial_content (raw : list Z) : list Z :=
  partialOutputHeader ++ tailLogicalLines (partial_text raw) partialOutputTailLines.

(** ** The use case *)

Definition SavePartialOutput_Execute (cancellable : bool) (t : TaskID) : M (bool * option error) :=
  cancelled ← ctx_err cancellable;
  match cancelled with
  | Some err => mret (false, Some err)
  | None =>
      if (t =? "")%string then mret (false, Some (Errorf "recovery: task id is required" []))
      else
        present ← call (ReadLastMessage t);
        match present with
        | Err _ => mret (false, None)
        | Ok true => mret (false, None)
        | Ok false =>
            raw ← call (ReadStderrLog t);
            match raw with
            | Err _ => mret (false, None)
            | Ok [] => mret (false, None)
            | Ok raw =>
                err ← call (WritePartialOutput t (partial_content raw));
                match err with
                | Some _ => mret (false, None)
                | None => mret (true, None)
                end
            end
        end
  end.

(** ** Valid UTF-8 *)

Definition multi (c : list Z) : Prop :=
  (2 <= length c)%nat /\ Forall (fun b => RuneSelf <= b) c /\ snd (DecodeRune c) = length c.

Inductive valid : list Z -> Prop :=
| valid_nil : valid []
| valid_ascii b l : b < RuneSelf -> valid l -> valid (b :: l)
| valid_multi c l : multi c -> valid l -> valid (c ++ l).

(** The runes of a valid text are all proper. *)
Definition proper (rs : Z * nat) : bool := negb ((fst rs =? RuneError) && (snd rs =? 1)%nat).

Lemma between_high lo hi b : between lo hi b = true -> RuneSelf <= lo -> RuneSelf <= b.
Proof. unfold between. intros H. simplify_bool. lia. Qed.

Lemma lead_range b n lo hi : lead b = Some (n, lo, hi) -> RuneSelf <= lo /\ RuneSelf <= b.
Proof. unfold lead, between, RuneSelf. intros H. repeat case_match; simplify_eq; simplify_bool; lia. Qed.

Lemma DecodeRune_cases p r size :
  DecodeRune p = (r, size) -> p <> [] -> proper (r, size) = true ->
  (exists b l, p = b :: l /\ b < RuneSelf /\ size = 1%nat) \/ (multi (take size p) /\ (2 <= size)%nat).
Proof.
  destruct p as [|b0 rest]; [done|]. intros H _ Hp. pose proof H as H0. cbn [DecodeRune] in H.
  destruct (b0 <? RuneSelf) eqn:E; [left; injection H as <- <-; exists b0, rest; split; [done|split; [lia|done]]|right].
  destruct (lead b0) as [[[n lo] hi]|] eqn:El; [|by injection H as <- <-].
  pose proof (lead_range _ _ _ _ El) as [Hlo Hb0].
  assert (forall b, continuation b = true -> RuneSelf <= b) as Hcont by (intros b Hb; by apply (between_high _ _ _ Hb)).
  destruct n as [|[|[|[|[|n]]]]]; try (by injection H as <- <-);
    destruct rest as [|b1 rest]; try (by injection H as <- <-).
  - destruct (between lo hi b1) eqn:E1; [|by injection H as <- <-]. injection H as <- <-. split; [|lia].
    pose proof (between_high _ _ _ E1 Hlo). split; [done|]. split; [by repeat constructor|].
    cbn [take DecodeRune]. by rewrite E, El, E1.
  - destruct rest as [|b2 rest]; [by injection H as <- <-|].
    destruct (between lo hi b1 && continuation b2) eqn:E1; [|by injection H as <- <-]. injection H as <- <-. split; [|lia].
    pose proof E1 as [H1 H2]%andb_true_iff. apply between_high in H1; [|done].
    split; [cbn; lia|]. split; [repeat constructor; auto|]. cbn [take DecodeRune]. by rewrite E, El, E1.
  - destruct rest as [|b2 [|b3 rest]]; try (by injection H as <- <-).
    destruct (between lo hi b1 && continuation b2 && continuation b3) eqn:E1; [|by injection H as <- <-].
    injection H as <- <-. split; [|lia]. pose proof E1 as [[H1 H2]%andb_true_iff H3]%andb_true_iff.
    apply between_high in H1; [|done].
    split; [cbn; lia|]. split; [repeat constructor; auto|]. cbn [take DecodeRune]. by rewrite E, El, E1.
Qed.

Lemma ToValidUTF8_valid p : valid (ToValidUTF8 p).
Proof.
  unfold ToValidUTF8. generalize (length p) as fuel. intros fuel. revert p. induction fuel as [|fuel IH]; intros p; [constructor|].
  destruct p as [|b l]; [constructor|]. cbn [ToValidUTF8_fuel]. destruct (DecodeRune (b :: l)) as [r size] eqn:E.
  destruct ((r =? RuneError) && (size =? 1)%nat) eqn:Ep; [apply IH|].
  apply DecodeRune_cases in E as [(b' & l' & [= <- <-] & Hb & ->)|[Hm _]]; [..|done|unfold proper; cbn; by rewrite Ep].
  - by apply valid_ascii.
  - by apply valid_multi.
Qed.

Lemma multi_not_nil c : multi c -> exists b c', c = b :: c' /\ RuneSelf <= b.
Proof. intros (Hl & Hf & _). destruct c as [|b c]; [by cbn in Hl; lia|]. inversion Hf. by exists b, c. Qed.

Lemma valid_forallb_proper l fuel : valid l -> (length l <= fuel)%nat -> forallb proper (decode_fuel fuel l) = true.
Proof.
  intros Hv. revert fuel. induction Hv as [|b l Hb Hv IH|c l Hc Hv IH]; intros fuel Hf; [by destruct fuel|..].
  - destruct fuel as [|fuel]; [cbn in Hf; lia|]. cbn in Hf.
    cbn [decode_fuel DecodeRune]. rewrite (proj2 (Z.ltb_lt _ _) Hb). cbn [forallb drop]. rewrite IH by lia.
    rewrite andb_true_r. unfold proper, RuneError, RuneSelf in *. cbn.
    destruct (Z.eqb_spec b 65533); [lia|done].
  - destruct (multi_not_nil c Hc) as (b & c' & Ec & Hb). destruct Hc as (Hl & Hf' & Hd).
    assert (DecodeRune (c ++ l) = DecodeRune c) as Ed.
    { apply DecodeRune_app. destruct (FullRune c) eqn:E; [done|]. apply DecodeRune_incomplete in E; [|by subst].
      rewrite E in Hd. cbn in Hd. lia. }
    rewrite length_app in Hf. destruct fuel as [|fuel]; [lia|].
    assert (decode_fuel (S fuel) (c ++ l) = DecodeRune c :: decode_fuel fuel l) as ->.
    { rewrite <- Ed. subst c. cbn [app decode_fuel]. change (b :: c' ++ l) with ((b :: c') ++ l). rewrite Ed.
      destruct (DecodeRune (b :: c')) as [r size] eqn:E. cbn in Hd. subst size. do 2 f_equal.
      apply (drop_app_length (b :: c') l). }
    cbn [forallb]. rewrite IH by lia. rewrite andb_true_r. unfold proper. rewrite Hd.
    rewrite (proj2 (Nat.eqb_neq (length c) 1)) by lia. by rewrite andb_false_r.
Qed.

Definition high (b : Z) : Prop := RuneSelf <= b.

Lemma strip_high c l : Forall high c -> strip_ansi 0 (c ++ l) = c ++ strip_ansi 0 l.
Proof.
  intros Hc. induction Hc as [|b c Hb Hc IH]; [done|]. cbn [app strip_ansi].
  assert (ansiEscapePattern (b :: c ++ l) = None) as ->; [|by rewrite IH].
  unfold ansiEscapePattern. destruct (c ++ l); [done|]. unfold high, RuneSelf, ESC in *.
  by rewrite (proj2 (Z.eqb_neq _ _)) by lia.
Qed.

Lemma crlf_high c l : Forall high c -> replace_crlf (c ++ l) = c ++ replace_crlf l.
Proof.
  intros Hc. induction Hc as [|b c Hb Hc IH]; [done|]. cbn [app replace_crlf]. unfold high, RuneSelf, CR in *.
  rewrite (proj2 (Z.eqb_neq _ _)) by lia. cbn [andb]. by rewrite IH.
Qed.

(** A match consists of ASCII bytes. *)
Lemma count_while_take p l : Forall (fun b => p b = true) (take (count_while p l) l).
Proof. induction l as [|b l IH]; cbn; [constructor|]. destruct (p b) eqn:E; [by constructor|constructor]. Qed.

Lemma between_low lo hi b : between lo hi b = true -> hi < RuneSelf -> b < RuneSelf.
Proof. unfold between. intros H. simplify_bool. lia. Qed.

Lemma pattern_ascii l n :
  ansiEscapePattern l = Some n -> (3 <= n)%nat /\ Forall (fun b => b < RuneSelf) (take n l).
Proof.
  unfold ansiEscapePattern. destruct l as [|e [|b l]]; [done..|].
  destruct ((e =? ESC) && (b =? 0x5b)) eqn:E; [|done]. simplify_bool. subst.
  set (k := count_while _ l). set (m := count_while _ (drop k l)).
  destruct (drop (k + m) l) as [|f rest] eqn:Ed; [done|]. destruct (between 0x40 0x7e f) eqn:Ef; [|done].
  intros [= <-]. split; [lia|]. cbn [Nat.add take]. constructor; [done|]. constructor; [done|].
  replace (take (S (k + m)) l) with (take k l ++ take m (drop k l) ++ [f]).
  - apply list.Forall_app. split; [|apply list.Forall_app; split; [|constructor; [|constructor]]].
    + eapply list.Forall_impl; [apply count_while_take|]. intros b Hb. by apply (between_low _ _ _ Hb).
    + eapply list.Forall_impl; [apply count_while_take|]. intros b Hb. by apply (between_low _ _ _ Hb).
    + by apply (between_low _ _ _ Ef).
  - rewrite app_assoc, take_take_drop. rewrite (take_S_r l _ f); [done|].
    rewrite <- (Nat.add_0_r (k + m)), <- lookup_drop, Ed. done.
Qed.

Lemma strip_valid l : valid l -> forall k, Forall (fun b => b < RuneSelf) (take k l) -> valid (strip_ansi k l).
Proof.
  induction 1 as [|b l Hb Hv IH|c l Hc Hv IH]; intros k Hk; [constructor|..].
  - cbn [strip_ansi]. destruct k as [|k].
    + destruct (ansiEscapePattern (b :: l)) as [n|] eqn:E.
      * apply pattern_ascii in E as [Hn Hf]. apply IH. destruct n as [|n]; [lia|]. cbn in Hf. rewrite Nat.sub_1_r. cbn.
        by inversion Hf.
      * apply valid_ascii; [done|]. by apply IH.
    + apply IH. by inversion Hk.
  - destruct (multi_not_nil c Hc) as (b & c' & Ec & Hb). destruct k as [|k].
    + rewrite strip_high by apply Hc. apply valid_multi; [done|]. by apply IH.
    + subst c. inversion Hk; subst. lia.
Qed.

Lemma crlf_valid l : valid l -> valid (replace_crlf l).
Proof.
  induction 1 as [|b l Hb Hv IH|c l Hc Hv IH]; [constructor|..].
  - cbn [replace_crlf]. destruct (_ && _); [done|]. by apply valid_ascii.
  - rewrite crlf_high by apply Hc. by apply valid_multi.
Qed.

Lemma valid_app l k : valid l -> valid k -> valid (l ++ k).
Proof. induction 1; intros; [done|by apply valid_ascii; auto|]. rewrite <- app_assoc. apply valid_multi; auto. Qed.

(** The text after an ASCII byte, or before one. *)
Lemma valid_split pre a post : a < RuneSelf -> valid (pre ++ a :: post) -> valid pre /\ valid post.
Proof.
  intros Ha H. remember (pre ++ a :: post) as l eqn:E. revert pre E.
  induction H as [|b l Hb Hv IH|c l Hc Hv IH]; intros pre E.
  - by destruct pre.
  - destruct pre as [|x pre]; injection E as -> ->; [split; [constructor|done]|].
    destruct (IH pre eq_refl). split; [by apply valid_ascii|done].
  - apply app_eq_inv in E as [(k & -> & E)|(k & -> & E)].
    + destruct k as [|x k].
      * destruct (IH [] (eq_sym E)) as [_ ?]. split; [|done]. rewrite app_nil_r in Hc. rewrite <- (app_nil_r pre).
        by apply valid_multi; [|constructor].
      * injection E as -> ->. destruct Hc as (_ & Hf & _). apply list.Forall_app in Hf as [_ Hf]. inversion Hf. lia.
    + destruct (IH k E) as [H1 H2]. split; [by apply valid_multi|done].
Qed.

(** ** The tail *)

Lemma trim_lf_last s : s = trim_lf s ++ (if last_lf s then [LF] else []).
Proof.
  unfold trim_lf, last_lf. case_bool_decide as E; [|by rewrite app_nil_r].
  apply last_Some in E as [l ->]. rewrite length_app, Nat.add_sub, take_app_length. done.
Qed.

Lemma intercalate_drop (k : nat) (lines : list (list Z)) :
  (k < length lines)%nat ->
  exists pre, intercalate [LF] lines = pre ++ intercalate [LF] (drop k lines) /\ (pre = [] \/ exists l, pre = l ++ [LF]).
Proof.
  revert lines. induction k as [|k IH]; intros lines Hk; [exists []; auto|].
  destruct lines as [|p ps]; [cbn in Hk; lia|]. cbn in Hk. destruct (IH ps) as (pre & E & H); [lia|].
  exists (p ++ [LF] ++ pre). rewrite intercalate_cons by (destruct ps; cbn in *; [lia|done]). rewrite E. cbn [drop].
  rewrite <- !app_assoc. split; [done|right]. destruct H as [->|[l ->]]; [by exists p|].
  exists (p ++ [LF] ++ l). by rewrite <- !app_assoc.
Qed.

Lemma trim_lf_app l : last_lf l = false -> trim_lf l = l.
Proof. unfold trim_lf. by intros ->. Qed.

Lemma trim_lf_snoc l : trim_lf (l ++ [LF]) = l.
Proof.
  unfold trim_lf, last_lf. rewrite bool_decide_eq_true_2 by apply last_snoc.
  by rewrite length_app, Nat.add_sub, take_app_length.
Qed.

(** The tail starts after a line feed of the text, or is all of it, and has at most
    [n] lines. *)
Lemma tailLogicalLines_spec s n :
  1 <= n ->
  (exists pre, s = pre ++ tailLogicalLines s n /\ (pre = [] \/ exists l, pre = l ++ [LF]))
  /\ (length (split_on (Z.eqb LF) (trim_lf (tailLogicalLines s n))) <= Z.to_nat n)%nat.
Proof.
  intros Hn. pose proof (trim_lf_last s) as Es. unfold tailLogicalLines.
  destruct (trim_lf s) as [|x t] eqn:Et.
  { split; [exists []; auto|]. rewrite Et. cbn. lia. }
  rewrite <- Et in *. clear x t Et. set (lines := split_on (Z.eqb LF) (trim_lf s)).
  assert (lines <> []) as Hne by apply split_on_nonempty.
  assert (intercalate [LF] lines = trim_lf s) as Ei by (apply intercalate_split; intros x; lia).
  set (k := if n <? Z.of_nat (length lines) then (length lines - Z.to_nat n)%nat else 0%nat).
  assert ((if n <? Z.of_nat (length lines) then drop (length lines - Z.to_nat n) lines else lines) = drop k lines) as ->.
  { unfold k. by destruct (n <? _). }
  assert (k < length lines /\ length lines - k <= Z.to_nat n)%nat as [Hk Hkn].
  { destruct lines; [done|]. unfold k. cbn [length]. destruct (Z.ltb_spec n (Z.of_nat (S (length lines)))); lia. }
  destruct (intercalate_drop k lines Hk) as (pre & E & Hpre). split.
  - exists pre. split; [|done]. rewrite app_assoc, <- E, Ei. done.
  - assert (split_on (Z.eqb LF) (intercalate [LF] (drop k lines)) = drop k lines) as Esp.
    { apply split_intercalate; [done| |].
      - intros Hd. apply (f_equal length) in Hd. rewrite length_drop in Hd. cbn in Hd. lia.
      - intros part Hp. apply (split_on_parts (Z.eqb LF) (trim_lf s)). fold lines.
        rewrite <- (take_drop k lines). apply elem_of_app. by right. }
    assert (trim_lf (intercalate [LF] (drop k lines) ++ (if last_lf s then [LF] else [])) = intercalate [LF] (drop k lines)) as ->.
    { destruct (last_lf s) eqn:El; [apply trim_lf_snoc|]. rewrite app_nil_r in Es |- *. apply trim_lf_app.
      rewrite Es, <- Ei, E in El. unfold last_lf in *. destruct (intercalate [LF] (drop k lines)) as [|b l] eqn:Eb; [done|].
      by rewrite last_app_cons in El. }
    rewrite Esp, length_drop. lia.
Qed.

Lemma ToValidUTF8_length p : (length (ToValidUTF8 p) <= length p)%nat.
Proof.
  unfold ToValidUTF8. generalize (length p) at 1 as fuel. intros fuel. revert p. induction fuel as [|fuel IH]; intros p; [cbn; lia|].
  destruct p as [|b l]; [cbn; lia|]. cbn [ToValidUTF8_fuel]. destruct (DecodeRune (b :: l)) as [r size] eqn:E.
  pose proof (IH (drop size (b :: l))) as H. rewrite length_app.
  rewrite <- (take_drop size (b :: l)) at 3. rewrite length_app. destruct (_ && _); cbn [length]; lia.
Qed.

Lemma strip_length k l : (length (strip_ansi k l) <= length l)%nat.
Proof.
  revert k. induction l as [|b l IH]; intros k; [done|]. cbn [strip_ansi length].
  destruct k as [|k]; [destruct (ansiEscapePattern _) as [n|]|]; cbn [length].
  - pose proof (IH (n - 1)%nat). lia.
  - pose proof (IH 0%nat). lia.
  - pose proof (IH k). lia.
Qed.

Lemma crlf_length l : (length (replace_crlf l) <= length l)%nat.
Proof. induction l as [|b l IH]; [done|]. cbn [replace_crlf length]. destruct (_ && _); cbn [length]; lia. Qed.

Lemma partial_text_valid raw : valid (partial_text raw).
Proof. apply crlf_valid, strip_valid; [apply ToValidUTF8_valid|constructor]. Qed.

Lemma partial_text_length raw : Z.of_nat (length (partial_text raw)) <= partialOutputTailBytes.
Proof.
  unfold partial_text. set (r := if partialOutputTailBytes <? _ then _ else raw). pose proof (crlf_length (strip_ansi 0 (ToValidUTF8 r))).
  pose proof (strip_length 0 (ToValidUTF8 r)). pose proof (ToValidUTF8_length r).
  assert (Z.of_nat (length r) <= partialOutputTailBytes); [|lia]. unfold r.
  destruct (Z.ltb_spec partialOutputTailBytes (Z.of_nat (length raw))); [|lia]. rewrite length_drop.
  unfold partialOutputTailBytes in *. lia.
Qed.

Lemma header_valid : valid partialOutputHeader.
Proof.
  assert (ToValidUTF8 partialOutputHeader = partialOutputHeader) as <- by (vm_compute; reflexivity). apply ToValidUTF8_valid.
Qed.

(** ** Theorems *)

(** The partial output: the header, then whole lines from the end of the cleaned
    text, at most 400 of them and at most 200000 bytes; and whatever bytes stderr
    holds, cut anywhere, the file is valid UTF-8. *)
Theorem partial_content_correct (raw : list Z) :
  exists pre body,
    partial_content raw = partialOutputHeader ++ body
    /\ partial_text raw = pre ++ body /\ (pre = [] \/ exists l, pre = l ++ [LF])
    /\ (length (split_on (Z.eqb LF) (trim_lf body)) <= 400)%nat
    /\ Z.of_nat (length body) <= partialOutputTailBytes
    /\ forallb proper (decode (partial_content raw)) = true.
Proof.
  destruct (tailLogicalLines_spec (partial_text raw) partialOutputTailLines) as [(pre & E & Hpre) Hn]; [done|].
  exists pre, (tailLogicalLines (partial_text raw) partialOutputTailLines). split; [done|]. split; [done|]. split; [done|].
  split; [done|]. pose proof (partial_text_length raw) as Hl. rewrite E, length_app in Hl. split; [lia|].
  apply valid_forallb_proper; [|done]. apply valid_app; [apply header_valid|].
  pose proof (partial_text_valid raw) as Hv. destruct Hpre as [->|[l ->]]; [by rewrite E in Hv|].
  rewrite E, <- app_assoc in Hv. by destruct (valid_split l LF _ eq_refl Hv).
Qed.

Lemma SavePartialOutput_plain c t : is_plain (SavePartialOutput_Execute c t).
Proof. unfold SavePartialOutput_Execute, ctx_err. solve_plain. Qed.
#[export] Hint Resolve SavePartialOutput_plain : plain.

(** One pass does not leave a text without escape sequences: what remains around a
    removed sequence can be one. *)
Lemma nested_csi_survives :
  strip_ansi 0 ([ESC; 0x5b] ++ [ESC; 0x5b; 0x30; 0x6d] ++ bytes "31m") = [ESC; 0x5b] ++ bytes "31m"
  /\ ansiEscapePattern ([ESC; 0x5b] ++ bytes "31m") = Some 5%nat.
Proof. done. Qed.
