(* ===== verification/Terminal.v ===== *)
(** * Ending a task ([internal/execution/finalize.go], [internal/execution/cancel.go],
    [internal/execution/usecase/launchfailure.go], [internal/contract/exitcode.go])

    Three use cases write a terminal state: the finalisation after the process has
    exited, the confirmation of a kill, and the failure of a launch.  Each records
    the exit code first, then the snapshot, then the events, and releases what the
    task held after its mutex is free again. *)

From S2P Require Import Prelude.
From S2P Require Import Errors.
From S2P Require Import Domain.
From S2P Require Import Task.
From S2P Require Import Snapshot.
From S2P Require Import Effects.
From S2P Require Import Pending.
From S2P Require Import Enforce.
From S2P Require Import Daemon.

(** ** The exit-code contract *)

(** Whether to write, or why not at all. *)
Definition CheckExitCode (t : TaskID) (exitCode : ExitCode) : M (bool * option error) :=
  r ← call (ReadExitCode t);
  mret match r with
       | Err err => (false, Some (Wrap "read exit-code: %w" [err]))
       | Ok (Some existing) =>
           if negb (existing =? ec_raw exitCode) then (false, Some (exitCodeMismatchError existing (ec_raw exitCode)))
           else (false, None)
       | Ok None => (true, None)
       end.

(** The write error and the fatal error. *)
Definition WriteExitCodeIdempotently (t : TaskID) (exitCode : ExitCode) : M (option error * option error) :=
  '(shouldWrite, fatalErr) ← CheckExitCode t exitCode;
  match fatalErr with
  | Some _ => mret (None, fatalErr)
  | None =>
      if shouldWrite : bool then
        err ← call (WriteExitCode t exitCode);
        mret (err, None)
      else mret (None, None)
  end.

(** ** Finalisation *)

Record FinalizeTaskInput : Type := mkFinalizeInput {
  fi_TaskID : TaskID;
  fi_RawExitCode : Z;
  fi_Estimated : bool;
  fi_AdoptedAfterRestart : bool;
  fi_OccurredAt : Time }.

Record FinalizeTaskOutput : Type := mkFinalizeOutput {
  ResultState : TaskState;
  fo_Events : list Domain.Event;
  ContractWriteError : option error }.

Record LockedFinalizeResult : Type := mkLockedFinalize {
  lf_Output : FinalizeTaskOutput;
  RecordExited : bool;
  lf_TerminalPersisted : bool;
  MetricsInput : RecordTaskMetricsInput;
  lf_Subcommand : Subcommand }.

Definition noMetrics : RecordTaskMetricsInput := mkMetrics "" (StateOther "") false zeroTime 0.
Definition noFinalizeOutput : FinalizeTaskOutput := mkFinalizeOutput (StateOther "") [] None.
(** [LockedFinalizeResult{}] *)
Definition noFinalizeResult : LockedFinalizeResult :=
  mkLockedFinalize noFinalizeOutput false false noMetrics (SubcommandOther "").

(** [contractWriteFailure] unwraps to [ErrContractWriteFailed] and its cause. *)
Definition contractWriteFailure (stage attempt : string) (cause : error) : error :=
  Wrap (stage ++ " write failed (" ++ attempt ++ " attempt): %v") [DErr ErrContractWriteFailed; cause].

(** The failure that may be retried, the error that may not, and whether the terminal
    state was persisted. *)
Definition writeTerminalState (t : TaskID) (exitCode : ExitCode) (task : Task) (snapshot : TaskSnapshot)
    (events : list Domain.Event) (occurredAt : Time) (attempt : string)
    : M (option error * option error * bool) :=
  '(writeErr, fatalErr) ← WriteExitCodeIdempotently t exitCode;
  match fatalErr, writeErr with
  | Some _, _ => mret (None, fatalErr, false)
  | None, Some err => mret (Some (contractWriteFailure "exit-code" attempt err), None, false)
  | None, None =>
      match WithTask snapshot task occurredAt with
      | Err err => mret (None, Some (Wrap "validate task snapshot: %w" [err]), false)
      | Ok newSnapshot =>
          saveErr ← call (Save t newSnapshot);
          match saveErr with
          | Some err => mret (Some (contractWriteFailure "task.json" attempt err), None, false)
          | None => append_events t events;; mret (None, None, true)
          end
      end
  end.

Fixpoint taskExitedEstimated (events : list Domain.Event) : bool :=
  match events with
  | [] => false
  | TaskExited _ _ _ estimated _ _ :: _ => estimated
  | _ :: events => taskExitedEstimated events
  end.

Definition persistedFinalizeResult (t : TaskID) (previousState finalState : TaskState) (events : list Domain.Event)
    (occurredAt : Time) (subcommand : Subcommand) (output : FinalizeTaskOutput) : M LockedFinalizeResult :=
  (if bool_decide (previousState = StateStalled) then call (LeaveStalled t occurredAt) else mret tt);;
  stalledTotal ← call (TakeTotal t);
  mret (mkLockedFinalize output true true
          (mkMetrics t finalState (taskExitedEstimated events) occurredAt stalledTotal) subcommand).

(** A result that is not persisted. *)
Definition unpersisted (output : FinalizeTaskOutput) (subcommand : Subcommand) : LockedFinalizeResult :=
  mkLockedFinalize output true false noMetrics subcommand.

Definition join2 (a b : option error) : option error := errors_Join [a; b].

(** The second attempt: the task is read again and recorded as failed, whatever the
    last message was. *)
Definition failsafe (i : FinalizeTaskInput) (exitCode : ExitCode) (first : FinalizeTaskOutput) (subcommand : Subcommand)
    (writeFail : error) : M (LockedFinalizeResult * option error) :=
  let t := fi_TaskID i in
  let abandon (stage : string) (err : error) :=
    mret (unpersisted (mkFinalizeOutput (ResultState first) (fo_Events first) (Some writeFail)) subcommand,
          Some (Wrap (stage ++ " for failsafe: %w") (option_list (join2 (Some writeFail) (Some err))))) in
  loaded ← call (Load t);
  match loaded with
  | Err err => abandon "reload"%string err
  | Ok retrySnapshot =>
    match SnapshotRestore retrySnapshot with
    | Err err => abandon "restore"%string err
    | Ok retryTask =>
      let retryPreviousState := t_state retryTask in
      match Task_RecordExit exitCode false (fi_Estimated i) (fi_AdoptedAfterRestart i) (fi_OccurredAt i) retryTask with
      | (_, Err err) => abandon "record exit"%string err
      | (retryTask, Ok retryEvents) =>
          let output := mkFinalizeOutput (t_state retryTask) retryEvents (Some writeFail) in
          '(retryWriteFail, retryNonRetryable, retryPersisted) ←
            writeTerminalState t exitCode retryTask retrySnapshot retryEvents (fi_OccurredAt i) "retry";
          match retryNonRetryable with
          | Some err => mret (unpersisted output (t_subcommand retryTask), join2 (Some writeFail) (Some err))
          | None =>
              if retryPersisted : bool then
                result ← persistedFinalizeResult t retryPreviousState (t_state retryTask) retryEvents (fi_OccurredAt i)
                           (t_subcommand retryTask) output;
                mret (result, None)
              else
                mret (unpersisted output (t_subcommand retryTask),
                      match retryWriteFail with Some err => join2 (Some writeFail) (Some err) | None => None end)
          end
      end
    end
  end.

Definition Finalize_executeLocked (i : FinalizeTaskInput) (present : bool) : M (LockedFinalizeResult * option error) :=
  let t := fi_TaskID i in
  loaded ← call (Load t);
  match loaded with
  | Err err => mret (noFinalizeResult, Some err)
  | Ok snapshot =>
    match SnapshotRestore snapshot with
    | Err err => mret (noFinalizeResult, Some err)
    | Ok task =>
      let subcommand := t_subcommand task in
      let exitCode := NewExitCode (fi_RawExitCode i) in
      let previousState := t_state task in
      match Task_RecordExit exitCode present (fi_Estimated i) (fi_AdoptedAfterRestart i) (fi_OccurredAt i) task with
      | (_, Err err) => mret (noFinalizeResult, Some err)
      | (task, Ok events) =>
          let output := mkFinalizeOutput (t_state task) events None in
          '(writeFail, nonRetryable, persisted) ←
            writeTerminalState t exitCode task snapshot events (fi_OccurredAt i) "initial";
          match nonRetryable with
          | Some _ => mret (unpersisted output subcommand, nonRetryable)
          | None =>
              if persisted : bool then
                result ← persistedFinalizeResult t previousState (t_state task) events (fi_OccurredAt i) subcommand output;
                mret (result, None)
              else match writeFail with
                   | Some writeFail => failsafe i exitCode output subcommand writeFail
                   | None => mret (noFinalizeResult, None) (* writeTerminalState never answers this *)
                   end
          end
      end
    end
  end.

Definition ReleaseAfterFinalization (result : LockedFinalizeResult) (t : TaskID) : M unit :=
  if negb (RecordExited result) then mret tt
  else
    (if lf_TerminalPersisted result then call (RecordMetrics (MetricsInput result)) else mret tt);;
    call (DisarmTimeout t);;
    (if bool_decide (lf_Subcommand result = SubcommandImpl) then call (ReleasePathLock t);; mret tt else mret tt);;
    now ← call Now;
    call (ReleaseSlot t now).

(** [Prepare] and the locked part. *)
Definition Finalize_Execute (i : FinalizeTaskInput) : M (FinalizeTaskOutput * option error) :=
  present ← call (ReadLastMessage (fi_TaskID i));
  match present with
  | Err err => mret (noFinalizeOutput, Some err)
  | Ok present =>
      call (Lock (fi_TaskID i));;
      '(result, err) ← Finalize_executeLocked i present;
      call (Unlock (fi_TaskID i));;
      (if RecordExited result then ReleaseAfterFinalization result (fi_TaskID i) else mret tt);;
      mret (lf_Output result, err)
  end.

(** ** Confirmation of a kill *)

Record ConfirmTaskKilledInput : Type := mkKillInput {
  ki_TaskID : TaskID;
  ki_RawExitCode : Z;
  ki_Estimated : bool;
  ki_OccurredAt : Time }.

Record LockedKillResult : Type := mkLockedKill {
  lk_Events : list Domain.Event;
  Confirmed : bool;
  lk_TerminalPersisted : bool;
  StalledTotalMs : Z;
  lk_Subcommand : Subcommand }.

(** [LockedKillResult{}] *)
Definition noKillResult : LockedKillResult := mkLockedKill [] false false 0 (SubcommandOther "").

Definition Kill_ExecuteLocked (i : ConfirmTaskKilledInput) : M (LockedKillResult * option error) :=
  let t := ki_TaskID i in
  loaded ← call (Load t);
  match loaded with
  | Err err => mret (noKillResult, Some err)
  | Ok snapshot =>
    match SnapshotRestore snapshot with
    | Err err => mret (noKillResult, Some err)
    | Ok task =>
      let exitCode := NewExitCode (ki_RawExitCode i) in
      match Task_ConfirmKilled exitCode (ki_Estimated i) (ki_OccurredAt i) task with
      | (_, Err err) => mret (noKillResult, Some err)
      | (task, Ok events) =>
          let result := mkLockedKill events true false 0 (t_subcommand task) in
          '(writeErr, fatalErr) ← WriteExitCodeIdempotently t exitCode;
          match fatalErr, writeErr with
          | Some _, _ => mret (result, fatalErr)
          | None, Some err => mret (result, Some (Wrap "exit-code: %w" (option_list (join2 (Some (DErr ErrContractWriteFailed)) (Some err)))))
          | None, None =>
              match WithTask snapshot task (ki_OccurredAt i) with
              | Err err => mret (result, Some err)
              | Ok updated =>
                  saveErr ← call (Save t updated);
                  match saveErr with
                  | Some err => mret (result, Some (Wrap "task.json: %w" (option_list (join2 (Some (DErr ErrContractWriteFailed)) (Some err)))))
                  | None =>
                      stalledTotal ← call (TakeTotal t);
                      append_events t events;;
                      mret (mkLockedKill events true true stalledTotal (t_subcommand task), None)
                  end
              end
          end
      end
    end
  end.

(** The first killed event is recorded. *)
Fixpoint record_killed (t : TaskID) (events : list Domain.Event) (stalledTotal : Z) : M unit :=
  match events with
  | [] => mret tt
  | TaskKilled _ _ estimated occurredAt :: _ =>
      call (RecordMetrics (mkMetrics t StateKilled estimated occurredAt stalledTotal))
  | _ :: events => record_killed t events stalledTotal
  end.

Definition ReleaseAfterConfirmation (result : LockedKillResult) (t : TaskID) : M unit :=
  (if Confirmed result && negb (lk_TerminalPersisted result)
   then call (PendRegister t PendingSendConfirmOnly None);; mret tt else mret tt);;
  (if lk_TerminalPersisted result then record_killed t (lk_Events result) (StalledTotalMs result) else mret tt);;
  call (DisarmTimeout t);;
  (if bool_decide (lk_Subcommand result = SubcommandImpl) then call (ReleasePathLock t);; mret tt else mret tt);;
  now ← call Now;
  call (ReleaseSlot t now).

Definition Kill_Execute (i : ConfirmTaskKilledInput) : M (list Domain.Event * option error) :=
  call (Lock (ki_TaskID i));;
  '(result, err) ← Kill_ExecuteLocked i;
  call (Unlock (ki_TaskID i));;
  (if Confirmed result then ReleaseAfterConfirmation result (ki_TaskID i) else mret tt);;
  mret (lk_Events result, err).

(** [ConfirmKilled], the adapter for the recovery package. *)
Definition ConfirmKilled (t : TaskID) (rawExitCode : Z) (estimated : bool) (occurredAt : Time) : M (option error) :=
  '(_, err) ← Kill_Execute (mkKillInput t rawExitCode estimated occurredAt); mret err.

(** [Finalize], the adapter for the recovery package. *)
Definition Finalize (t : TaskID) (rawExitCode : Z) (estimated adoptedAfterRestart : bool) (occurredAt : Time)
    : M (option error) :=
  '(_, err) ← Finalize_Execute (mkFinalizeInput t rawExitCode estimated adoptedAfterRestart occurredAt); mret err.

(** ** Failure of a launch *)

Record FailTaskLaunchInput : Type := mkFailInput {
  fl_Task : Task;
  fl_ResolvedTimeout : Timeout;
  fl_Model : string;
  fl_ReasoningEffort : option string;
  fl_SandboxMode : string;
  fl_WorkingDir : option string;
  fl_FailureCode : string;
  fl_OccurredAt : Time }.

Record FailTaskLaunchLockedResult : Type := mkLockedFail { Terminal_ : bool; Impl : bool }.

Definition fail_input_ok (i : FailTaskLaunchInput) : bool :=
  negb (IsZero (fl_OccurredAt i) || (to_resolvedSeconds (fl_ResolvedTimeout i) <=? 0) || (fl_Model i =? "")%string
        || negb (IsValidSandboxMode (fl_SandboxMode i))).

Definition fail_input_error : error := Errorf "fail task launch requires task, timeout, model, and occurred at" [].

(** The snapshot the failed task is projected on. *)
Definition fail_base (i : FailTaskLaunchInput) (snapshot : option TaskSnapshot) : TaskSnapshot :=
  match snapshot with
  | Some s =>
      if (TaskID_ s =? "")%string
      then NewInitialTaskSnapshot ExecutionRouteDaemon (fl_ReasoningEffort i) (fl_SandboxMode i) (fl_WorkingDir i)
      else if SupportsWorkingDir s && is_none (WorkingDir s) && is_some (fl_WorkingDir i)
      then s <| WorkingDir := fl_WorkingDir i |>
      else s
  | None => NewInitialTaskSnapshot ExecutionRouteDaemon (fl_ReasoningEffort i) (fl_SandboxMode i) (fl_WorkingDir i)
  end.

(** The failure code is recorded and the snapshot checked once more. *)
Definition with_failure_code (i : FailTaskLaunchInput) (updated : TaskSnapshot) : res TaskSnapshot :=
  if negb (fl_FailureCode i =? "")%string && SupportsFailureCode updated then
    let updated := updated <| FailureCode := Some (fl_FailureCode i) |> in
    Snapshot.Validate updated;; Ok updated
  else Ok updated.

(** A queued task is started first, so that its exit can be recorded.  The code does
    this on the task it was given, which no caller reads afterwards. *)
Definition start_queued (i : FailTaskLaunchInput) (task : Task) : res Task :=
  if bool_decide (t_state task = StateQueued) then
    match Task_Start (fl_ResolvedTimeout i) (fl_Model i) (fl_OccurredAt i) task with
    | (task, Ok _) => Ok task
    | (_, Err err) => Err err
    end
  else Ok task.

(** The part after the task has been found. *)
Definition fail_task (i : FailTaskLaunchInput) (snapshot : option TaskSnapshot) (task : Task)
    : M (FailTaskLaunchLockedResult * option error) :=
  let t := t_id (fl_Task i) in
  match start_queued i task with
  | Err err => mret (mkLockedFail false false, Some err)
  | Ok task =>
    match Task_RecordExit (NewExitCode 1) false true false (fl_OccurredAt i) task with
    | (_, Err err) => mret (mkLockedFail false false, Some err)
    | (task, Ok events) =>
        let result := mkLockedFail true (bool_decide (t_subcommand task = SubcommandImpl)) in
        '(writeErr, fatalErr) ← WriteExitCodeIdempotently t (NewExitCode 1);
        match fatalErr, writeErr with
        | Some _, _ => mret (result, fatalErr)
        | None, Some err => mret (result, Some (Wrap "%w: exit-code: %v" [DErr ErrContractWriteFailed]))
        | None, None =>
            match (u ← WithTask (fail_base i snapshot) task (fl_OccurredAt i); with_failure_code i u) with
            | Err err => mret (result, Some err)
            | Ok updated =>
                saveErr ← call (Save t updated);
                match saveErr with
                | Some err => mret (result, Some err)
                | None => append_events t events;; mret (result, None)
                end
            end
        end
    end
  end.

Definition FailLaunch_ExecuteLocked (i : FailTaskLaunchInput) : M (FailTaskLaunchLockedResult * option error) :=
  if negb (fail_input_ok i) then mret (mkLockedFail false false, Some fail_input_error)
  else
    loaded ← call (Load (t_id (fl_Task i)));
    match loaded with
    | Ok snapshot =>
        match SnapshotRestore snapshot with
        | Ok task => fail_task i (Some snapshot) task
        | Err err => mret (mkLockedFail false false, Some err)
        end
    | Err err =>
        if errors_Is err (Domain ErrTaskNotFound) then fail_task i None (fl_Task i)
        else mret (mkLockedFail false false, Some err)
    end.

Definition ReleaseAfterFailure (t : TaskID) (impl : bool) : M unit :=
  (if impl then call (ReleasePathLock t);; mret tt else mret tt);;
  now ← call Now;
  call (ReleaseSlot t now).

Definition FailLaunch_Execute (i : FailTaskLaunchInput) : M (option error) :=
  if negb (fail_input_ok i) then mret (Some fail_input_error)
  else
    let t := t_id (fl_Task i) in
    call (Lock t);;
    '(result, err) ← FailLaunch_ExecuteLocked i;
    call (Unlock t);;
    (if Terminal_ result then ReleaseAfterFailure t (Impl result) else mret tt);;
    mret err.

(** ** Lemmas *)

Lemma run_RecordExit c p e a at_ task task' evs :
  Task_RecordExit c p e a at_ task = (task', Ok evs) ->
  Task.run_op (OpRecordExit c p e a at_) task = (task', Ok evs) /\ t_exitCode task' = Some c.
Proof.
  intros H. split; [done|]. unfold Task_RecordExit, Task_transition in H. unfold_monads. by destruct_matches.
Qed.

Lemma run_ConfirmKilled c e at_ task task' evs :
  Task_ConfirmKilled c e at_ task = (task', Ok evs) ->
  Task.run_op (OpConfirmKilled c e at_) task = (task', Ok evs) /\ t_exitCode task' = Some c
  /\ exists id est, evs = [TaskKilled id c est at_].
Proof.
  intros H. split; [done|]. unfold Task_ConfirmKilled, Task_transition in H. unfold_monads.
  destruct_matches. split; [done|]. by do 2 eexists.
Qed.

Lemma WriteExitCode_ok t c h Q :
  ok h -> held h = Some t ->
  (forall h' w f, ok h' -> same h h' -> (f = None -> w = None -> exit_code h' = Some (Some (ec_raw c))) -> Q h' (w, f)) ->
  wpd (WriteExitCodeIdempotently t c) h Q.
Proof.
  intros Hok Hh HQ. unfold WriteExitCodeIdempotently, CheckExitCode.
  intros r. assert (ok (Ev (ReadExitCode t) r :: h)) as Hok' by (split; [by right|done]).
  destruct r as [[existing|]|err]; wp_cbn; [| |by apply HQ].
  - destruct (negb (existing =? ec_raw c)) eqn:E; wp_cbn; apply HQ; try done. simplify_bool. by subst.
  - intros [err|]; wp_cbn; (apply HQ; [|by split|done]); (split; [split; [done|by left]|done]).
Qed.


Lemma writeTerminalState_ok t c s task0 op task evs at_ attempt h Q :
  ok h -> held h = Some t -> loaded h = Some (t, Ok s) ->
  SnapshotRestore s = Ok task0 -> Task.run_op op task0 = (task, Ok evs) -> t_exitCode task = Some c ->
  (forall h' w n (p : bool), ok h' -> held h' = Some t -> slots h' = slots h -> metrics h' = metrics h ->
     (p = true -> n = None) -> (w = None -> n = None -> p = true) -> Q h' (w, n, p)) ->
  wpd (writeTerminalState t c task s evs at_ attempt) h Q.
Proof.
  intros Hok Hh Hl Hr Hop Hc HQ. unfold writeTerminalState. apply wp_bind. apply WriteExitCode_ok; [done..|].
  intros h1 w f Hok1 [Hh1 Hl1 Hw1 Hs1 Hm1] Hexit. cbn [wp]. destruct f as [err|]; [apply HQ; [done|congruence..|done|done]|].
  destruct w as [err|]; [apply HQ; [done|congruence..|done|done]|]. specialize (Hexit eq_refl eq_refl).
  destruct (WithTask s task at_) as [u|err] eqn:Hu; [|apply HQ; [done|congruence..|done|done]].
  assert (rule (Ev (Save t u) None) h1) as Hrule.
  { left. split; [split; [congruence|]|].
    - rewrite Hl1, Hl. split; [done|]. by eapply legal_step.
    - intros _. exists c. split; [|done]. apply WithTask_state in Hu as (_ & _ & ->). done. }
  intros [err|]; wp_cbn; [apply HQ; [by split|cbn; congruence..|done|done]|].
  apply wp_bind. apply append_events_ok; [by split|cbn; congruence|]. intros h2 Hok2 [Hh2 Hl2 Hw2 Hs2 Hm2].
  cbn in *. apply HQ; try done; congruence.
Qed.

(** What the locked parts leave behind: the mutex is still held, nothing has been
    released, and the answer says whether the end was recorded and persisted. *)
Definition locked_post (t : TaskID) (h h' : list event) (recorded persisted : bool) (events : list Domain.Event)
    (err : option error) : Prop :=
  held h' = Some t /\ slots h' = slots h /\ metrics h' = metrics h
  /\ recorded = negb (bool_decide (events = [])) /\ persisted = is_none err /\ (persisted = true -> recorded = true).

Lemma RecordExit_events c p e a at_ task task' evs :
  Task_RecordExit c p e a at_ task = (task', Ok evs) -> evs <> [].
Proof. intros H. unfold Task_RecordExit, Task_transition in H. unfold_monads. by destruct_matches. Qed.

Lemma persistedFinalizeResult_ok t prev final evs at_ sub out h Q :
  ok h ->
  (forall h' m, ok h' -> same h h' -> Q h' (mkLockedFinalize out true true m sub)) ->
  wpd (persistedFinalizeResult t prev final evs at_ sub out) h Q.
Proof.
  intros Hok HQ. unfold persistedFinalizeResult. destruct (bool_decide _); wp_cbn; intros; apply HQ; by_cbn.
Qed.

Lemma join2_some e e' : exists e'', join2 (Some e) e' = Some e''.
Proof. destruct e' as [e'|]; by eexists. Qed.

Lemma failsafe_ok i c first sub w h Q :
  ok h -> held h = Some (fi_TaskID i) -> fo_Events first <> [] ->
  (forall h' r err, ok h' ->
     locked_post (fi_TaskID i) h h' (RecordExited r) (lf_TerminalPersisted r) (fo_Events (lf_Output r)) err -> Q h' (r, err)) ->
  wpd (failsafe i c first sub w) h Q.
Proof.
  intros Hok Hh Hev HQ. unfold failsafe.
  assert (forall h' stage err, ok h' -> held h' = Some (fi_TaskID i) -> slots h' = slots h -> metrics h' = metrics h ->
    Q h' (unpersisted (mkFinalizeOutput (ResultState first) (fo_Events first) (Some w)) sub,
          Some (Wrap (stage ++ " for failsafe: %w") (option_list (join2 (Some w) (Some err)))))) as Hgive.
  { intros. apply HQ; [done|]. split; [done|]. split; [done|]. split; [done|]. cbn. by rewrite bool_decide_eq_false_2. }
  intros [s|err]; wp_cbn; [|by apply Hgive].
  destruct (SnapshotRestore s) as [task|err] eqn:Hr; [|by apply Hgive].
  destruct (Task_RecordExit _ _ _ _ _ task) as [task' [evs|err]] eqn:Hop; [|by apply Hgive].
  pose proof (RecordExit_events _ _ _ _ _ _ _ _ Hop) as Hne. apply run_RecordExit in Hop as [Hop Hc].
  apply wp_bind. eapply writeTerminalState_ok; [done|done|done|done|done|done|].
  intros h1 wf nf p Hok1 Hh1 Hs1 Hm1 Hp Hwp. cbn [wp].
  destruct nf as [err|].
  { destruct p; [by specialize (Hp eq_refl)|]. destruct (join2_some w (Some err)) as [e ->]. apply HQ; [done|].
    split; [done|]. split; [done|]. split; [done|]. cbn. by rewrite bool_decide_eq_false_2. }
  destruct p; wp_cbn.
  - apply wp_bind. apply persistedFinalizeResult_ok; [done|]. intros h2 m Hok2 [Hh2 Hl2 Hw2 Hs2 Hm2]. apply HQ; [done|].
    split; [congruence|]. split; [cbn in *; congruence|]. split; [cbn in *; congruence|]. cbn.
    by rewrite bool_decide_eq_false_2.
  - destruct wf as [wf|]; [|by specialize (Hwp eq_refl eq_refl)]. destruct (join2_some w (Some wf)) as [e ->].
    apply HQ; [done|]. split; [done|]. split; [done|]. split; [done|]. cbn. by rewrite bool_decide_eq_false_2.
Qed.

Lemma nothing_recorded (t : TaskID) h h' err :
  held h' = Some t -> slots h' = slots h -> metrics h' = metrics h -> locked_post t h h' false false [] (Some err).
Proof. by split. Qed.

Lemma Finalize_executeLocked_ok i present h Q :
  ok h -> held h = Some (fi_TaskID i) ->
  (forall h' r err, ok h' ->
     locked_post (fi_TaskID i) h h' (RecordExited r) (lf_TerminalPersisted r) (fo_Events (lf_Output r)) err -> Q h' (r, err)) ->
  wpd (Finalize_executeLocked i present) h Q.
Proof.
  intros Hok Hh HQ. unfold Finalize_executeLocked.
  intros [s|err]; wp_cbn; [|by apply HQ; [|apply nothing_recorded]].
  destruct (SnapshotRestore s) as [task|err] eqn:Hr; [|by apply HQ; [|apply nothing_recorded]].
  destruct (Task_RecordExit _ _ _ _ _ task) as [task' [evs|err]] eqn:Hop; [|by apply HQ; [|apply nothing_recorded]].
  pose proof (RecordExit_events _ _ _ _ _ _ _ _ Hop) as Hne. apply run_RecordExit in Hop as [Hop Hc].
  apply wp_bind. eapply writeTerminalState_ok; [done|done|done|done|done|done|].
  intros h1 wf nf p Hok1 Hh1 Hs1 Hm1 Hp Hwp. cbn [wp].
  destruct nf as [err|].
  { destruct p; [by specialize (Hp eq_refl)|]. apply HQ; [done|].
    split; [done|]. split; [done|]. split; [done|]. cbn. by rewrite bool_decide_eq_false_2. }
  destruct p; wp_cbn.
  - apply wp_bind. apply persistedFinalizeResult_ok; [done|]. intros h2 m Hok2 [Hh2 Hl2 Hw2 Hs2 Hm2]. apply HQ; [done|].
    split; [congruence|]. split; [cbn in *; congruence|]. split; [cbn in *; congruence|]. cbn.
    by rewrite bool_decide_eq_false_2.
  - destruct wf as [wf|]; [|by specialize (Hwp eq_refl eq_refl)]. apply failsafe_ok; [done..|].
    intros h2 r err Hok2 (H1 & H2 & H3 & H4). apply HQ; [done|]. split; [done|]. split; [cbn in *; congruence|].
    split; [cbn in *; congruence|done].
Qed.

Lemma Kill_ExecuteLocked_ok i h Q :
  ok h -> held h = Some (ki_TaskID i) ->
  (forall h' r err, ok h' ->
     locked_post (ki_TaskID i) h h' (Confirmed r) (lk_TerminalPersisted r) (lk_Events r) err
     /\ (Confirmed r = true -> exists id c est, lk_Events r = [TaskKilled id c est (ki_OccurredAt i)]) -> Q h' (r, err)) ->
  wpd (Kill_ExecuteLocked i) h Q.
Proof.
  intros Hok Hh HQ. unfold Kill_ExecuteLocked.
  intros [s|err]; wp_cbn; [|by apply HQ; [|split; [apply nothing_recorded|]]].
  destruct (SnapshotRestore s) as [task|err] eqn:Hr; [|by apply HQ; [|split; [apply nothing_recorded|]]].
  destruct (Task_ConfirmKilled _ _ _ task) as [task' [evs|err]] eqn:Hop; [|by apply HQ; [|split; [apply nothing_recorded|]]].
  apply run_ConfirmKilled in Hop as (Hop & Hc & id & est & Hevs).
  assert (forall h' p err n, ok h' -> held h' = Some (ki_TaskID i) -> slots h' = slots h -> metrics h' = metrics h ->
    p = is_none err -> Q h' (mkLockedKill evs true p n (t_subcommand task'), err)) as Hout.
  { intros. apply HQ; [done|]. subst. split; [|intros _; cbn; by do 3 eexists].
    split; [done|]. split; [done|]. by split. }
  apply wp_bind. apply WriteExitCode_ok; [done..|]. intros h1 w f Hok1 [Hh1 Hl1 Hw1 Hs1 Hm1] Hexit. cbn [wp].
  destruct f as [err|]; [by apply Hout; cbn in *; try congruence|].
  destruct w as [err|]; [by apply Hout; cbn in *; try congruence|]. specialize (Hexit eq_refl eq_refl).
  destruct (WithTask s task' _) as [u|err] eqn:Hu; [|by apply Hout; cbn in *; try congruence].
  assert (rule (Ev (Save (ki_TaskID i) u) None) h1) as Hrule.
  { left. split; [split; [cbn in *; congruence|]|].
    - rewrite Hl1. cbn. split; [done|]. by eapply legal_step.
    - intros _. exists (NewExitCode (ki_RawExitCode i)). split; [|done]. apply WithTask_state in Hu as (_ & _ & ->). done. }
  intros [err|]; wp_cbn; [apply Hout; [by split|..]; cbn in *; congruence|]. intros stalled. apply wp_bind.
  apply append_events_ok; [by split; [|split]|cbn in *; congruence|]. intros h2 Hok2 [Hh2 Hl2 Hw2 Hs2 Hm2].
  cbn in *. apply Hout; try done; congruence.
Qed.

(** The releases: one slot, and the statistics of what was persisted. *)
Lemma ReleaseAfterFinalization_ok r t h Q :
  ok h -> held h = None -> RecordExited r = true ->
  (forall h', ok h' -> held h' = None -> slots h' = S (slots h) ->
     metrics h' = ((if lf_TerminalPersisted r then 1 else 0) + metrics h)%nat -> Q h' tt) ->
  wpd (ReleaseAfterFinalization r t) h Q.
Proof.
  intros Hok Hh Hr HQ. unfold ReleaseAfterFinalization. rewrite Hr. cbn [negb].
  destruct (lf_TerminalPersisted r), (bool_decide _); repeat wp_step; apply HQ; by_cbn.
Qed.

Lemma record_killed_ok t events n h Q id c est at_ :
  ok h -> events = [TaskKilled id c est at_] ->
  (forall h', ok h' -> held h' = held h -> slots h' = slots h -> metrics h' = S (metrics h) -> Q h' tt) ->
  wpd (record_killed t events n) h Q.
Proof. intros Hok -> HQ []. apply HQ; by_cbn. Qed.

Lemma ReleaseAfterConfirmation_ok r t h Q :
  ok h -> held h = None -> Confirmed r = true -> (exists id c est at_, lk_Events r = [TaskKilled id c est at_]) ->
  (forall h', ok h' -> held h' = None -> slots h' = S (slots h) ->
     metrics h' = ((if lk_TerminalPersisted r then 1 else 0) + metrics h)%nat -> Q h' tt) ->
  wpd (ReleaseAfterConfirmation r t) h Q.
Proof.
  intros Hok Hh Hc (id & c & est & at_ & Hev) HQ. unfold ReleaseAfterConfirmation. rewrite Hc. cbn [andb].
  destruct (lk_TerminalPersisted r); cbn [negb].
  - wp_cbn. apply wp_bind. eapply record_killed_ok; [done|done|]. intros h1 Hok1 Hh1 Hs1 Hm1.
    destruct (bool_decide _); repeat wp_step; apply HQ; by_cbn; cbn; congruence.
  - destruct (bool_decide _); repeat wp_step; apply HQ; by_cbn.
Qed.

(** What the callers can count on: one slot for a recorded end, statistics for a
    persisted one. *)
Definition releases (h h' : list event) (events : list Domain.Event) (err : option error) : Prop :=
  slots h' = ((if bool_decide (events = []) then 0 else 1) + slots h)%nat
  /\ metrics h' = ((if is_none err then 1 else 0) + metrics h)%nat.

Lemma Finalize_Execute_ok i h Q :
  ok h -> held h = None ->
  (forall h' out err, ok h' -> held h' = None -> releases h h' (fo_Events out) err -> Q h' (out, err)) ->
  wpd (Finalize_Execute i) h Q.
Proof.
  intros Hok Hh HQ. unfold Finalize_Execute. intros [present|err]; wp_cbn; [|by apply HQ].
  intros []. apply wp_bind. apply Finalize_executeLocked_ok; [by split|done|].
  intros h1 r err Hok1 (Hh1 & Hs1 & Hm1 & Hr & Hp & Hpr). cbn in Hs1, Hm1. wp_cbn. intros [].
  destruct (RecordExited r) eqn:E.
  - apply wp_bind. apply ReleaseAfterFinalization_ok; [by split|done|done|]. intros h2 Hok2 Hh2 Hs2 Hm2.
    cbn in Hs2, Hm2. wp_cbn. apply HQ; [done|done|]. unfold releases. rewrite Hs2, Hm2, Hp, Hs1, Hm1.
    symmetry in Hr. simplify_bool. by rewrite bool_decide_eq_false_2.
  - wp_cbn. apply HQ; [by split|done|]. unfold releases. cbn. rewrite Hs1, Hm1, <- Hp.
    destruct (lf_TerminalPersisted r); [by specialize (Hpr eq_refl)|]. symmetry in Hr. simplify_bool.
    by rewrite bool_decide_eq_true_2.
Qed.

Lemma Kill_Execute_ok i h Q :
  ok h -> held h = None ->
  (forall h' evs err, ok h' -> held h' = None -> releases h h' evs err -> Q h' (evs, err)) ->
  wpd (Kill_Execute i) h Q.
Proof.
  intros Hok Hh HQ. unfold Kill_Execute.
  intros []. apply wp_bind. apply Kill_ExecuteLocked_ok; [by split|done|].
  intros h1 r err Hok1 [(Hh1 & Hs1 & Hm1 & Hr & Hp & Hpr) Hev]. cbn in Hs1, Hm1. wp_cbn. intros [].
  destruct (Confirmed r) eqn:E.
  - destruct (Hev eq_refl) as (id & c & est & Hevs). apply wp_bind.
    apply ReleaseAfterConfirmation_ok; [by split|done|done|by do 4 eexists|]. intros h2 Hok2 Hh2 Hs2 Hm2.
    cbn in Hs2, Hm2. wp_cbn. apply HQ; [done|done|]. unfold releases. rewrite Hs2, Hm2, Hp, Hs1, Hm1.
    symmetry in Hr. simplify_bool. by rewrite bool_decide_eq_false_2.
  - wp_cbn. apply HQ; [by split|done|]. unfold releases. cbn. rewrite Hs1, Hm1, <- Hp.
    destruct (lk_TerminalPersisted r); [by specialize (Hpr eq_refl)|]. symmetry in Hr. simplify_bool.
    by rewrite bool_decide_eq_true_2.
Qed.

Lemma ConfirmKilled_ok t raw est at_ h Q :
  ok h -> held h = None ->
  (forall h' err, ok h' -> held h' = None -> Q h' err) -> wpd (ConfirmKilled t raw est at_) h Q.
Proof. intros ? ? HQ. apply wp_bind. apply Kill_Execute_ok; [done..|]. intros h' evs err ? ? _. by apply HQ. Qed.

Lemma Finalize_ok t raw est ad at_ h Q :
  ok h -> held h = None ->
  (forall h' err, ok h' -> held h' = None -> Q h' err) -> wpd (Finalize t raw est ad at_) h Q.
Proof. intros ? ? HQ. apply wp_bind. apply Finalize_Execute_ok; [done..|]. intros h' evs err ? ? _. by apply HQ. Qed.

(** A launch that fails: the task, queued or restored, is started if need be and
    recorded as failed. *)
Lemma fail_task_run i task task1 task2 evs :
  start_queued i task = Ok task1 ->
  Task_RecordExit (NewExitCode 1) false true false (fl_OccurredAt i) task1 = (task2, Ok evs) ->
  terminal (t_state task) = false /\ (phase (t_state task) <= phase (t_state task2))%nat.
Proof.
  intros Hs Hx. apply run_RecordExit in Hx as [Hx _].
  assert (terminal (t_state task1) = false /\ (phase (t_state task1) <= phase (t_state task2))%nat) as [Hn Hp].
  { split; [|by eapply run_op_phase]. destruct (terminal (t_state task1)) eqn:E; [|done].
    rewrite run_op_terminal in Hx by done. by simplify_eq. }
  unfold start_queued in Hs. destruct (bool_decide_reflect (t_state task = StateQueued)) as [E|_]; [|by injection Hs as ->].
  rewrite E. cbn. split; [done|lia].
Qed.

Lemma with_failure_code_state i u u' : with_failure_code i u = Ok u' -> State u' = State u /\ ExitCode_ u' = ExitCode_ u.
Proof.
  unfold with_failure_code. destruct (_ && _); [|by intros [= ->]]. cbv zeta. unfold_monads.
  destruct (Snapshot.Validate _); [|done]. by intros [= <-].
Qed.

Lemma fail_task_ok i snapshot task h Q :
  let t := t_id (fl_Task i) in
  ok h -> held h = Some t ->
  match snapshot with
  | Some s => loaded h = Some (t, Ok s) /\ SnapshotRestore s = Ok task
  | None => exists err, loaded h = Some (t, Err err) /\ errors_Is err (Domain ErrTaskNotFound) = true
  end ->
  (forall h' r err, ok h' -> held h' = Some t -> slots h' = slots h -> metrics h' = metrics h ->
     (err = None -> Terminal_ r = true) -> Q h' (r, err)) ->
  wpd (fail_task i snapshot task) h Q.
Proof.
  intros t Hok Hh Hl HQ. unfold fail_task.
  destruct (start_queued i task) as [task1|err] eqn:Hst; [|by apply HQ].
  destruct (Task_RecordExit _ _ _ _ _ task1) as [task2 [evs|err]] eqn:Hop; [|by apply HQ].
  destruct (fail_task_run _ _ _ _ _ Hst Hop) as [Hn Hp]. apply run_RecordExit in Hop as [Hop Hc].
  apply wp_bind. apply WriteExitCode_ok; [done..|]. intros h1 w f Hok1 [Hh1 Hl1 Hw1 Hs1 Hm1] Hexit. cbn [wp].
  destruct f as [err|]; [by apply HQ; cbn in *; try congruence|].
  destruct w as [err|]; [by apply HQ; cbn in *; try congruence|]. specialize (Hexit eq_refl eq_refl).
  destruct (u ← WithTask _ _ _; with_failure_code i u) as [u|err] eqn:Hu; [|by apply HQ; cbn in *; try congruence].
  destruct (WithTask _ _ _) as [u0|] eqn:Hu0; [|done]. cbn in Hu. apply with_failure_code_state in Hu as [Hst' Hex'].
  apply WithTask_state in Hu0 as (Hst0 & _ & Hex0).
  assert (rule (Ev (Save t u) None) h1) as Hrule.
  { left. split; [split; [congruence|]|].
    - rewrite Hl1. destruct snapshot as [s|].
      + destruct Hl as [-> Hr]. split; [done|]. unfold legal. rewrite Hst', Hst0.
        apply Restore_state in Hr as (<- & _). done.
      + destruct Hl as (e & -> & He). done.
    - intros _. exists (NewExitCode 1). split; [congruence|done]. }
  intros [err|]; wp_cbn; [apply HQ; [by split|..]; cbn; congruence|].
  apply wp_bind. apply append_events_ok; [by split|cbn; by rewrite Hh1|]. intros h2 Hok2 [Hh2 Hl2 Hw2 Hs2 Hm2].
  cbn in *. apply HQ; try done; congruence.
Qed.

Lemma FailLaunch_ExecuteLocked_ok i h Q :
  let t := t_id (fl_Task i) in
  ok h -> held h = Some t ->
  (forall h' r err, ok h' -> held h' = Some t -> slots h' = slots h -> metrics h' = metrics h ->
     (err = None -> Terminal_ r = true) -> Q h' (r, err)) ->
  wpd (FailLaunch_ExecuteLocked i) h Q.
Proof.
  intros t Hok Hh HQ. unfold FailLaunch_ExecuteLocked. destruct (negb _); [by apply HQ|].
  intros [s|err]; wp_cbn.
  - destruct (SnapshotRestore s) as [task|err] eqn:Hr; [|by apply HQ]. by apply fail_task_ok.
  - destruct (errors_Is err _) eqn:E; [|by apply HQ]. apply fail_task_ok; [done|done|by exists err|done].
Qed.

Lemma ReleaseAfterFailure_ok t impl h Q :
  ok h -> held h = None ->
  (forall h', ok h' -> held h' = None -> slots h' = S (slots h) -> metrics h' = metrics h -> Q h' tt) ->
  wpd (ReleaseAfterFailure t impl) h Q.
Proof. intros Hok Hh HQ. unfold ReleaseAfterFailure. destruct impl; repeat wp_step; apply HQ; by_cbn. Qed.

Lemma FailLaunch_Execute_ok i h Q :
  ok h -> held h = None ->
  (forall h' err, ok h' -> held h' = None -> metrics h' = metrics h ->
     (slots h' = slots h /\ err <> None \/ slots h' = S (slots h)) -> Q h' err) ->
  wpd (FailLaunch_Execute i) h Q.
Proof.
  intros Hok Hh HQ. unfold FailLaunch_Execute. destruct (negb _); [apply HQ; auto; by left|].
  intros []. apply wp_bind. apply FailLaunch_ExecuteLocked_ok; [by split|done|].
  intros h1 r err Hok1 Hh1 Hs1 Hm1 Hr. cbn in Hs1, Hm1. wp_cbn. intros []. destruct (Terminal_ r) eqn:E.
  - apply wp_bind. apply ReleaseAfterFailure_ok; [by split|done|]. intros h2 Hok2 Hh2 Hs2 Hm2.
    apply HQ; [done|done|cbn in *; congruence|right; cbn in *; congruence].
  - apply HQ; [by split|done|cbn; congruence|left]. split; [cbn; congruence|]. intros ->. by specialize (Hr eq_refl).
Qed.

(** None of this touches a signal or a claim. *)
Lemma WriteExitCode_plain t c : is_plain (WriteExitCodeIdempotently t c).
Proof. unfold WriteExitCodeIdempotently, CheckExitCode. solve_plain. Qed.
#[export] Hint Resolve WriteExitCode_plain : plain.

Lemma writeTerminalState_plain t c task s evs at_ a : is_plain (writeTerminalState t c task s evs at_ a).
Proof. unfold writeTerminalState. solve_plain. Qed.
#[export] Hint Resolve writeTerminalState_plain : plain.

Lemma record_killed_plain t events n : is_plain (record_killed t events n).
Proof. induction events as [|ev events IH]; cbn [record_killed]; solve_plain. Qed.
#[export] Hint Resolve record_killed_plain : plain.

Lemma Finalize_plain t raw est ad at_ : is_plain (Finalize t raw est ad at_).
Proof.
  unfold Finalize, Finalize_Execute, Finalize_executeLocked, failsafe, persistedFinalizeResult, ReleaseAfterFinalization.
  solve_plain.
Qed.

Lemma ConfirmKilled_plain t raw est at_ : is_plain (ConfirmKilled t raw est at_).
Proof.
  unfold ConfirmKilled, Kill_Execute, Kill_ExecuteLocked, ReleaseAfterConfirmation. solve_plain.
Qed.
Lemma Kill_Execute_plain i : is_plain (Kill_Execute i).
Proof. unfold Kill_Execute, Kill_ExecuteLocked, ReleaseAfterConfirmation. solve_plain. Qed.
#[export] Hint Resolve Finalize_plain ConfirmKilled_plain Kill_Execute_plain : plain.
