(* ===== verification/CancelTask.v ===== *)
(** * Cancelling a task ([internal/transport/usecase/cancel.go])

    A waiting task is taken out of the queue (that section is in [Admission]) and
    confirmed killed.  A task with a snapshot is saved as cancelling; then its
    process is signalled, by whoever may: while the task is starting only with a
    claim of the pending set, later through the termination ensurer. *)

From S2P Require Import Prelude.
From S2P Require Import Errors.
From S2P Require Import Domain.
From S2P Require Import Task.
From S2P Require Import Snapshot.
From S2P Require Import Effects.
From S2P Require Import Pending.
From S2P Require Import Enforce.
From S2P Require Import Daemon.
From S2P Require Import Terminal.

(** ** The use case *)

Record CancelTaskInput : Type := mkCancelInput {
  ci_TaskID : TaskID;
  Force : bool;
  ci_OccurredAt : Time }.

Record CancelTaskOutput : Type := mkCancelOutput {
  co_State : TaskState;
  co_Events : list Domain.Event;
  TerminationTriggered : bool }.

Definition noCancelOutput : CancelTaskOutput := mkCancelOutput (StateOther "") [] false.
Definition cancelling : CancelTaskOutput := mkCancelOutput StateCancelling [] false.
Definition errCancelStateChanged : error := Sentinel ErrCancelStateChanged.

Definition cancelNeedsGeneration (s : TaskSnapshot) : bool :=
  if AdoptedAfterRestart s then false
  else match State s with StateStarting | StateRunning | StateStalled | StateAdopted => true | _ => false end.

Definition cancelWaiterOwnsTerminal (generation : option Z) (previous : TaskState) : bool :=
  is_some generation && match previous with StateStarting | StateRunning | StateStalled => true | _ => false end.

Definition sameCancelProcess (s : TaskSnapshot) (pid : option Z) (processStartedAt : option Time) : bool :=
  match pid, processStartedAt, PID s, ProcessStartedAt s with
  | Some p, Some at_, Some p', Some at' => (p' =? p) && (at' =? at_)
  | _, _, _, _ => false
  end.

Definition cancelPendingRegistration (t : TaskID) (pid : option Z) (processStartedAt : option Time) (generation : option Z)
    : Z * option ProcessSignalAuthority :=
  match pid, processStartedAt with
  | Some p, Some at_ =>
      if (p <=? 0) || IsZero at_ then (PendingSendConfirmOnly, None)
      else (PendingSendUnsent, Some (mkAuthority t p at_ StateCancelling generation))
  | _, _ => (PendingSendConfirmOnly, None)
  end.

Definition sendClaimedStarting (authority : ProcessSignalAuthority) (claim : SendClaim) (out : CancelTaskOutput)
    : M (CancelTaskOutput * option error) :=
  err ← call (SendTerminate (a_PID authority));
  match err with
  | None => call (PendComplete claim);; mret tt
  | Some err =>
      if errors_Is err ErrProcessSignalAuthorityInvalid then call (PendInvalidate claim);; mret tt
      else call (PendRelease claim);; mret tt
  end;;
  mret (mkCancelOutput (co_State out) (co_Events out) true, None).

(** The claim is given back, after the mutex. *)
Definition give_back (t : TaskID) (claim : SendClaim) (r : CancelTaskOutput * option error)
    : M (CancelTaskOutput * option error) :=
  call (Unlock t);; call (PendRemoveClaim claim);; mret r.

Definition finishStartingClaim (i : CancelTaskInput) (previous : TaskState) (pid : option Z) (processStartedAt : option Time)
    (generation : Z) (authority : ProcessSignalAuthority) (claim : SendClaim) (outcome : ClaimOutcome)
    : M (CancelTaskOutput * option error) :=
  let t := ci_TaskID i in
  match outcome with
  | ClaimAcquired =>
      call (Lock t);;
      loaded ← call (Load t);
      match loaded with
      | Err err => give_back t claim (noCancelOutput, Some err)
      | Ok snapshot =>
          current ← call (CurrentOwner t);
          let owned := match current with Some g => g =? generation | None => false end in
          let same := sameCancelProcess snapshot pid processStartedAt in
          let matchingCancellation := bool_decide (State snapshot = StateCancelling) && same && owned in
          if negb (bool_decide (State snapshot = previous)) && negb matchingCancellation || negb same || negb owned
          then give_back t claim (cancelling, None)
          else if bool_decide (State snapshot = previous) then
            match SnapshotRestore snapshot with
            | Err err => give_back t claim (noCancelOutput, Some err)
            | Ok task =>
              match Task_RequestCancel (Force i) (ci_OccurredAt i) task with
              | (_, Err err) =>
                  give_back t claim (noCancelOutput, Some (cancelStateError (TaskState_string previous) err))
              | (task, Ok events) =>
                match WithTask snapshot task (ci_OccurredAt i) with
                | Err err => give_back t claim (noCancelOutput, Some err)
                | Ok updated =>
                    saveErr ← call (Save t updated);
                    match saveErr with
                    | Some err => give_back t claim (noCancelOutput, Some err)
                    | None =>
                        append_events t (take 1 events);;
                        call (Unlock t);;
                        sendClaimedStarting authority claim (mkCancelOutput StateCancelling events false)
                    end
                end
              end
            end
          else
            call (Unlock t);;
            sendClaimedStarting authority claim cancelling
      end
  | ClaimSent =>
      r ← call (ConfirmDead t);
      mret (cancelling, err_of r)
  | ClaimAlreadyClaimed | ClaimConfirmOnly | ClaimNotFound => mret (cancelling, None)
  end.

(** The part after the task has been saved as cancelling. *)
Definition terminate_cancelled (i : CancelTaskInput) (snapshot : TaskSnapshot) (generation : option Z)
    (events : list Domain.Event) : M (CancelTaskOutput * option error) :=
  let t := ci_TaskID i in
  let previous := State snapshot in
  let out := mkCancelOutput StateCancelling events false in
  let pidlessAdopted :=
    is_none (PID snapshot)
    && (bool_decide (previous = StateAdopted)
        || AdoptedAfterRestart snapshot
           && (bool_decide (previous = StateRunning) || bool_decide (previous = StateStalled))) in
  if bool_decide (previous = StateOrphaned) then
    '(_, err) ← Kill_Execute (mkKillInput t 130 true (ci_OccurredAt i));
    mret (out, err)
  else if pidlessAdopted then
    err ← call (PendRegister t PendingSendConfirmOnly None);
    match err with
    | Some _ => mret (out, err)
    | None => call (DisarmTimeout t);; mret (out, None)
    end
  else
    match PID snapshot with
    | Some pid =>
        if bool_decide (previous = StateStarting) || bool_decide (previous = StateRunning)
           || bool_decide (previous = StateStalled) || bool_decide (previous = StateAdopted)
        then
          if is_none generation && negb (AdoptedAfterRestart snapshot) then mret (out, None)
          else
            let out := mkCancelOutput StateCancelling events true in
            match (if bool_decide (previous = StateStarting) then None else ProcessStartedAt snapshot) with
            | Some at_ =>
                result ← call (SendConfirm t (mkAuthority t pid at_ StateCancelling generation) TimeoutKillGrace);
                if Dead result then
                  if cancelWaiterOwnsTerminal generation previous then call (DisarmTimeout t);; mret (out, None)
                  else
                    now ← call Now;
                    '(_, confirmErr) ← Kill_Execute (mkKillInput t 130 true now);
                    match confirmErr with
                    | None => mret (out, None)
                    | Some _ =>
                        registerErr ← call (PendRegister t PendingSendConfirmOnly None);
                        match registerErr with
                        | Some _ => mret (out, join2 confirmErr registerErr)
                        | None => call (DisarmTimeout t);; mret (out, confirmErr)
                        end
                    end
                else
                  let '(disposition, authority) :=
                    match TerminateErr result with
                    | None => (PendingSendSent, None)
                    | Some err =>
                        if errors_Is err ErrProcessSignalAuthorityInvalid then (PendingSendConfirmOnly, None)
                        else cancelPendingRegistration t (Some pid) (ProcessStartedAt snapshot) generation
                    end in
                  registerErr ← call (PendRegister t disposition authority);
                  match registerErr with
                  | Some _ => mret (out, match TerminateErr result with Some _ => join2 (TerminateErr result) registerErr | None => registerErr end)
                  | None => call (DisarmTimeout t);; mret (out, None)
                  end
            | None =>
                terminateErr ← call (SendTerminate pid);
                match terminateErr with
                | None => mret (out, None)
                | Some _ =>
                    let '(disposition, authority) :=
                      cancelPendingRegistration t (Some pid) (ProcessStartedAt snapshot) generation in
                    registerErr ← call (PendRegister t disposition authority);
                    mret (out, match registerErr with Some _ => join2 terminateErr registerErr | None => None end)
                end
            end
        else mret (out, None)
    | None => mret (out, None)
    end.

(** The part after the owner has been observed. *)
Definition cancel_loaded (i : CancelTaskInput) (snapshot : TaskSnapshot) (generation : option Z)
    : M (CancelTaskOutput * option error) :=
  let t := ci_TaskID i in
  let previous := State snapshot in
  match (if bool_decide (previous = StateStarting) then PID snapshot else None) with
  | Some pid =>
      match generation, ProcessStartedAt snapshot with
      | Some g, Some at_ =>
          let authority := mkAuthority t pid at_ StateCancelling (Some g) in
          call (Unlock t);;
          '(claim, outcome) ← call (PendClaim true t authority);
          finishStartingClaim i previous (Some pid) (Some at_) g authority claim outcome
      | _, _ => unlocked t (cancelling, Some errCancelStateChanged)
      end
  | None =>
      match SnapshotRestore snapshot with
      | Err err => unlocked t (noCancelOutput, Some err)
      | Ok task =>
        match Task_RequestCancel (Force i) (ci_OccurredAt i) task with
        | (_, Err err) => unlocked t (noCancelOutput, Some (cancelStateError (TaskState_string previous) err))
        | (task, Ok events) =>
          match WithTask snapshot task (ci_OccurredAt i) with
          | Err err => unlocked t (noCancelOutput, Some err)
          | Ok updated =>
              saveErr ← call (Save t updated);
              match saveErr with
              | Some err => unlocked t (noCancelOutput, Some err)
              | None =>
                  (if bool_decide (previous = StateStalled) then call (LeaveStalled t (ci_OccurredAt i)) else mret tt);;
                  append_events t (take 1 events);;
                  call (Unlock t);;
                  terminate_cancelled i snapshot generation events
              end
          end
        end
      end
  end.

Definition cancelPersisted (i : CancelTaskInput) : M (CancelTaskOutput * option error) :=
  let t := ci_TaskID i in
  call (Lock t);;
  loaded ← call (Load t);
  match loaded with
  | Err err =>
      if errors_Is err (Domain ErrTaskNotFound) then
        reserved ← call (IsReserved t);
        unlocked t (noCancelOutput, Some match reserved with
                                         | Err checkErr => checkErr
                                         | Ok true => errCancelStateChanged
                                         | Ok false => DErr ErrTaskNotFound
                                         end)
      else unlocked t (noCancelOutput, Some err)
  | Ok snapshot =>
      if cancelNeedsGeneration snapshot then
        current ← call (CurrentOwner t);
        match current with
        | Some g => cancel_loaded i snapshot (Some g)
        | None => unlocked t (cancelling, Some errCancelStateChanged)
        end
      else cancel_loaded i snapshot None
  end.

Definition Cancel_Execute (i : CancelTaskInput) : M (CancelTaskOutput * option error) :=
  let t := ci_TaskID i in
  queued ← call (CancelQueued t (Force i) (ci_OccurredAt i));
  match queued with
  | Err err => mret (noCancelOutput, Some err)
  | Ok (Some events) =>
      '(_, err) ← Kill_Execute (mkKillInput t 130 true (ci_OccurredAt i));
      mret (mkCancelOutput StateCancelling events false, err)
  | Ok None =>
      reserved ← call (IsReserved t);
      match reserved with
      | Err err => mret (noCancelOutput, Some err)
      | Ok false => mret (noCancelOutput, Some (DErr ErrTaskNotFound))
      | Ok true => cancelPersisted i
      end
  end.

(** The error codes of the answer. *)
Definition cancelMappedError (err : error) : string :=
  if errors_Is err (Domain ErrTaskNotFound) then "TASK_NOT_FOUND"
  else if errors_Is err (Domain ErrTaskAlreadyTerminal) then "TASK_ALREADY_TERMINAL"
  else if errors_Is err (Domain ErrInvalidStateTransition) then "TASK_INVALID_TRANSITION"
  else if errors_Is err ErrCancelStateChanged then "CANCEL_STATE_CHANGED"
  else if errors_Is err (Domain ErrContractWriteFailed) then "CONTRACT_WRITE_FAILED"
  else "CANCEL_FAILED".

(** ** Specification *)

Section Proofs.
Context (i : CancelTaskInput).
Abbreviation t := (ci_TaskID i).

(** A signal is sent to a starting task by the holder of the claim, for the process
    and the life-cycle owner that were found unchanged under the task's mutex after
    the claim was acquired, and that the task has been cancelled for. *)
Definition claimed_signal (pid : Z) (h : list event) : Prop :=
  exists c g at_ s rest,
    (Ev (CurrentOwner t) (Some g) :: Ev (Load t) (Ok s) :: Ev (Lock t) tt
       :: Ev (PendClaim true t (mkAuthority t pid at_ StateCancelling (Some g))) (c, ClaimAcquired) :: rest) `suffix_of` h
    /\ open_claim h = real_claim c /\ PID s = Some pid /\ ProcessStartedAt s = Some at_
    /\ (State s = StateCancelling \/ exists u, Ev (Save t u) None ∈ h /\ State u = StateCancelling).

Definition signal_rule (e : event) (h : list event) : Prop :=
  match e with Ev (SendTerminate pid) _ => claimed_signal pid h | _ => True end.

Abbreviation sok := (hist_all signal_rule).

(** ** Lemmas *)

Lemma run_RequestCancel f at_ task task' evs :
  Task_RequestCancel f at_ task = (task', Ok evs) ->
  Task.run_op (OpRequestCancel f at_) task = (task', Ok evs) /\ t_state task' = StateCancelling.
Proof.
  intros H. split; [done|]. unfold Task_RequestCancel, Task_transition in H. unfold_monads. by destruct_matches.
Qed.

(** The snapshot of a cancelled task, and that it may be written. *)
Lemma cancelled_save s task task' evs u (h : list event) :
  SnapshotRestore s = Ok task -> Task_RequestCancel (Force i) (ci_OccurredAt i) task = (task', Ok evs) ->
  WithTask s task' (ci_OccurredAt i) = Ok u -> held h = Some t -> loaded h = Some (t, Ok s) ->
  State u = StateCancelling /\ forall err, rule (Ev (Save t u) err) h.
Proof.
  intros Hr (Hop & Hst)%run_RequestCancel Hu Hh Hl. pose proof Hu as (Hsu & _)%WithTask_state.
  assert (State u = StateCancelling) as Hc by congruence. split; [done|]. intros err. left. split.
  - split; [done|]. rewrite Hl. split; [done|]. by eapply legal_step.
  - unfold exit_first. by rewrite Hc.
Qed.

Lemma append_events_sok events h Q :
  ok h -> sok h -> held h = Some t ->
  (forall h', ok h' -> sok h' -> held h' = Some t -> open_claim h' = open_claim h -> h `suffix_of` h' -> Q h' tt) ->
  wpd (append_events t events) h Q.
Proof.
  intros Hok Hs Hh HQ. apply (wp_plain signal_rule); [auto with plain|by intros [? [] ?]|done|].
  apply append_events_ok; [done..|]. intros h' Hok' [Hh' _ _ _ _] Ho Hs' Hsuf. apply HQ; try done. congruence.
Qed.

Lemma Kill_sok k h Q :
  ok h -> sok h -> held h = None ->
  (forall h' r, ok h' -> sok h' -> held h' = None -> open_claim h' = open_claim h -> Q h' r) ->
  wpd (Kill_Execute k) h Q.
Proof.
  intros Hok Hs Hh HQ. apply (wp_plain signal_rule); [auto with plain|by intros [? [] ?]|done|].
  apply Kill_Execute_ok; [done..|]. intros h' evs err Hok' Hh' _ Ho Hs' _. by apply HQ.
Qed.

Lemma sendClaimedStarting_ok a c out h Q :
  ok h -> sok h -> held h = None -> claimed_signal (a_PID a) h -> open_claim h = real_claim c ->
  (forall h' r, ok h' -> sok h' -> held h' = None -> open_claim h' = None -> Q h' r) ->
  wpd (sendClaimedStarting a c out) h Q.
Proof.
  intros Hok Hs Hh Hc Ho HQ. unfold sendClaimedStarting. intros [err|]; wp_cbn.
  - destruct (errors_Is err _); wp_cbn; intros x; apply HQ; by_cbn.
  - intros x; apply HQ; by_cbn.
Qed.

Lemma give_back_ok c r h Q :
  ok h -> sok h -> held h = Some t -> open_claim h = real_claim c ->
  (forall h', ok h' -> sok h' -> held h' = None -> open_claim h' = None -> Q h' r) ->
  wpd (give_back t c r) h Q.
Proof. intros Hok Hs Hh Ho HQ [] b. apply HQ; by_cbn. Qed.

Lemma finishStartingClaim_ok previous pid at_ g c outcome h rest Q :
  let a := mkAuthority t pid at_ StateCancelling (Some g) in
  h = Ev (PendClaim true t a) (c, outcome) :: rest ->
  ok h -> sok h -> held h = None -> open_claim h = (if bool_decide (outcome = ClaimAcquired) then real_claim c else None) ->
  (forall h' r, ok h' -> sok h' -> held h' = None -> open_claim h' = None -> Q h' r) ->
  wpd (finishStartingClaim i previous (Some pid) (Some at_) g a c outcome) h Q.
Proof.
  intros a Eh Hok Hs Hh Ho HQ. unfold finishStartingClaim.
  destruct outcome; try (by apply HQ); [|intros r; apply HQ; by_cbn]. cbn in Ho.
  intros []. intros [s|err]; wp_cbn; [|apply give_back_ok; by_cbn].
  intros owner. wp_cbn. set (h1 := Ev (CurrentOwner t) owner :: _).
  assert (ok h1) as Hok1 by by_cbn. assert (sok h1) as Hs1 by by_cbn.
  assert (held h1 = Some t) as Hh1 by done. assert (open_claim h1 = real_claim c) as Ho1 by done.
  destruct (_ || _ || _) eqn:E; [apply give_back_ok; auto|].
  apply orb_false_iff in E as [E Eowner]. apply orb_false_iff in E as [Est Esame].
  apply negb_false_iff in Eowner, Esame.
  destruct owner as [g'|]; [|done]. apply Z.eqb_eq in Eowner as ->.
  unfold sameCancelProcess in Esame, Est. destruct (PID s) as [p|] eqn:Ep; [|done].
  destruct (ProcessStartedAt s) as [q|] eqn:Eq; [|done]. apply andb_true_iff in Esame as [E1 E2].
  apply Z.eqb_eq in E1 as ->, E2 as ->. rewrite !Z.eqb_refl in Est. cbn in Est.
  assert (forall h2, h1 `suffix_of` h2 -> open_claim h2 = real_claim c ->
    (State s = StateCancelling \/ exists u, Ev (Save t u) None ∈ h2 /\ State u = StateCancelling) -> claimed_signal pid h2) as Hsig.
  { intros h2 Hsuf Ho2 Hst. exists c, g, at_, s, rest. unfold h1 in Hsuf. by rewrite Eh in Hsuf. }
  destruct (bool_decide_reflect (State s = previous)) as [Eprev|Eprev].
  - destruct (SnapshotRestore s) as [task|err] eqn:Hr; [|apply give_back_ok; auto].
    destruct (Task_RequestCancel _ _ task) as [task' [evs|err]] eqn:Hop; [|apply give_back_ok; auto].
    destruct (WithTask s task' _) as [u|err] eqn:Hu; [|apply give_back_ok; auto].
    destruct (cancelled_save s task task' evs u h1 Hr Hop Hu Hh1 eq_refl) as [Hc Hrule].
    intros [err|]; wp_cbn; [apply give_back_ok; [by split|by split|done|done|auto]|].
    apply wp_bind. apply append_events_sok; [by split|by split|done|]. intros h2 Hok2 Hs2 Hh2 Ho2 Hsuf.
    intros []. assert (h1 `suffix_of` Ev (Unlock t) tt :: h2) as Hsuf'.
    { apply suffix_cons_r. etrans; [|exact Hsuf]. by apply suffix_cons_r. }
    apply sendClaimedStarting_ok; [by split|by split|done| |by cbn; rewrite Ho2|done].
    apply Hsig; [done|by cbn; rewrite Ho2|right]. exists u. split; [|done]. right.
    destruct Hsuf as [new ->]. apply elem_of_app. right. left.
  - destruct (bool_decide_reflect (State s = StateCancelling)) as [Est'|]; [|done].
    intros []. apply sendClaimedStarting_ok; [by split|by split|done| |done|done].
    apply Hsig; [by apply suffix_cons_r|done|by left].
Qed.

(** A task with a process that is not starting has the start time of the process. *)
Lemma terminate_cancelled_ok s generation evs h Q :
  ok h -> sok h -> held h = None -> open_claim h = None ->
  (PID s <> None -> ProcessStartedAt s <> None /\ State s <> StateStarting) ->
  (forall h' r, ok h' -> sok h' -> held h' = None -> open_claim h' = None -> Q h' r) ->
  wpd (terminate_cancelled i s generation evs) h Q.
Proof.
  intros Hok Hs Hh Ho Hproc HQ. unfold terminate_cancelled.
  destruct (bool_decide (State s = StateOrphaned)).
  { apply wp_bind. apply Kill_sok; [done..|]. intros h1 [? err] Hok1 Hs1 Hh1 Ho1. apply HQ; [done..|congruence]. }
  destruct (is_none _ && _).
  { repeat wp_step; apply HQ; by_cbn. }
  destruct (PID s) as [pid|]; [|by apply HQ]. destruct Hproc as [Hat Hst]; [done|].
  destruct (_ || _); [|by apply HQ]. destruct (is_none generation && _); [by apply HQ|].
  rewrite (bool_decide_eq_false_2 _ Hst). destruct (ProcessStartedAt s) as [at_|]; [|done].
  intros [dead terminateErr confirmErr]. wp_cbn. cbn [Dead TerminateErr ConfirmErr].
  destruct dead; [destruct (cancelWaiterOwnsTerminal _ _)|].
  - intros []. apply HQ; by_cbn.
  - intros now. apply wp_bind. apply Kill_sok; [by_cbn..|]. intros h1 [? err] Hok1 Hs1 Hh1 Ho1. cbn in Ho1.
    repeat wp_step; apply HQ; by_cbn; cbn in *; congruence.
  - destruct (match terminateErr with None => _ | Some _ => _ end) as [d a]. repeat wp_step; apply HQ; by_cbn.
Qed.

Lemma unlocked_ok {A : Type} (r : A) h Q :
  ok h -> sok h -> held h = Some t -> open_claim h = None ->
  (forall h', ok h' -> sok h' -> held h' = None -> open_claim h' = None -> Q h' r) -> wpd (unlocked t r) h Q.
Proof. intros Hok Hs Hh Ho HQ []. apply HQ; by_cbn. Qed.

Lemma cancel_loaded_ok s g h Q :
  ok h -> sok h -> held h = Some t -> loaded h = Some (t, Ok s) -> open_claim h = None ->
  (forall h' r, ok h' -> sok h' -> held h' = None -> open_claim h' = None -> Q h' r) ->
  wpd (cancel_loaded i s g) h Q.
Proof.
  intros Hok1 Hs1 Hh1 Hl1 Ho1 HQ. unfold cancel_loaded.
  destruct (if bool_decide _ then PID s else None) as [pid|] eqn:Epid.
  { destruct g as [g|]; [|by apply unlocked_ok; auto]. destruct (ProcessStartedAt s) as [at_|]; [|by apply unlocked_ok; auto].
    intros []. intros [c outcome]. wp_cbn.
    eapply finishStartingClaim_ok; [done|by_cbn|by_cbn|done| |done]. cbn. by destruct outcome. }
  destruct (SnapshotRestore s) as [task|err] eqn:Hr; [|by apply unlocked_ok; auto].
  destruct (Task_RequestCancel _ _ task) as [task' [evs|err]] eqn:Hop; [|by apply unlocked_ok; auto].
  destruct (WithTask s task' _) as [u|err] eqn:Hu; [|by apply unlocked_ok; auto].
  destruct (cancelled_save s task task' evs u h Hr Hop Hu Hh1 Hl1) as [Hc Hrule].
  intros [err|]; wp_cbn; [apply unlocked_ok; [by split|by split|done|done|auto]|].
  assert (forall h2, ok h2 -> sok h2 -> held h2 = Some t -> open_claim h2 = None ->
    wpd (append_events t (take 1 evs);; call (Unlock t);; terminate_cancelled i s g evs) h2 Q) as Hend.
  { intros h2 ? ? ? ?. apply wp_bind. apply append_events_sok; [done..|]. intros h3 ? ? ? Ho3 _. intros [].
    apply terminate_cancelled_ok; [by split|by split|done|cbn; congruence| |done].
    intros Hpid. apply Restore_inv in Hr as (V & _). pose proof (v_pair s V) as Hpair.
    destruct (PID s) as [p|]; [|done]. split; [by destruct (ProcessStartedAt s)|].
    intros E. by rewrite bool_decide_eq_true_2 in Epid. }
  destruct (bool_decide (State s = StateStalled)); wp_cbn; [intros []|]; apply Hend; by_cbn; try apply (Hrule None).
Qed.

Lemma cancelPersisted_ok h Q :
  ok h -> sok h -> held h = None -> open_claim h = None ->
  (forall h' r, ok h' -> sok h' -> held h' = None -> open_claim h' = None -> Q h' r) ->
  wpd (cancelPersisted i) h Q.
Proof.
  intros Hok Hs Hh Ho HQ. unfold cancelPersisted. intros [].
  intros [s|err]; wp_cbn.
  - destruct (cancelNeedsGeneration s); [intros [g|]; wp_cbn|]; [apply cancel_loaded_ok|apply unlocked_ok|apply cancel_loaded_ok]; by_cbn.
  - destruct (errors_Is err _); [intros reserved; wp_cbn|]; apply unlocked_ok; by_cbn.
Qed.

Lemma Cancel_ok h Q :
  ok h -> sok h -> held h = None -> open_claim h = None ->
  (forall h' r, ok h' -> sok h' -> held h' = None -> open_claim h' = None -> Q h' r) ->
  wpd (Cancel_Execute i) h Q.
Proof.
  intros Hok Hs Hh Ho HQ. unfold Cancel_Execute. intros [[events|]|err]; wp_cbn; [| |apply HQ; by_cbn].
  - apply wp_bind. apply Kill_sok; [by_cbn..|]. intros h1 [? err] ? ? ? Ho1. cbn in Ho1. apply HQ; [done..|congruence].
  - intros [[]|err]; wp_cbn; [|apply HQ; by_cbn..]. apply cancelPersisted_ok; by_cbn.
Qed.
End Proofs.

(** ** Theorem *)

