(* ===== verification/Resume.v ===== *)
(** * Recovery by resuming the session ([internal/recovery/resume.go],
    [internal/recovery/resume_types.go], [internal/recovery/error_logging.go])

    A task that timed out or lost its process is recovered by resuming its codex
    session, which is asked for the final answer.  The task is recovering while that
    runs, with its mutex free, and is recorded as recovered or lost afterwards. *)

From S2P Require Import Prelude.
From S2P Require Import Errors.
From S2P Require Import Domain.
From S2P Require Import TaskPaths.
From S2P Require Import Task.
From S2P Require Import Snapshot.
From S2P Require Import Effects.
From S2P Require Import Pending.
From S2P Require Import Enforce.
From S2P Require Import Daemon.
From S2P Require Import Partial.

Definition RecoveryResumePrompt : string :=
  "実行時間の上限で中断された。追加の調査・コマンド実行は一切せず、ここまでの分析内容だけで、依頼された最終成果物を今すぐ出力せよ。".

Definition isRecoverySessionUnavailable (err : error) : bool :=
  errors_Is err ErrRecoverySessionUnavailable || errors_Is err ContextDeadlineExceeded.

Definition newResumeSettings (snapshot : TaskSnapshot) : ResumeSettings :=
  mkResumeSettings (Subcommand_ snapshot) (SandboxMode snapshot) (Model snapshot) (ReasoningEffort snapshot)
    (WorkingDir snapshot).

Definition failureExitCodeFor (origin : RecoveryOrigin) : ExitCode :=
  if bool_decide (origin = RecoveryOriginTimeout) then NewExitCode 6 else NewExitCode 1.

(** ** The attempt *)

Record RecoveryAttempt : Type := mkRecoveryAttempt {
  ra_TaskID : TaskID;
  ra_Origin : RecoveryOrigin;
  ra_SessionRef : SessionRef;
  ra_StartedAt : Time;
  ra_CodexBinaryPath : string;
  ra_TaskPlacementRoot : string;
  ra_Subcommand : Subcommand;
  ra_SandboxMode : string;
  ra_Model : string;
  ra_ReasoningEffort : option string;
  ra_WorkingDir : option string }.

(** What the launcher is asked for, or why it is not asked. *)
Definition resume_params (r : RecoveryAttempt) : res ResumeLaunchParams :=
  match NewNormalizedPath (ra_TaskPlacementRoot r) with
  | Err err => Err (Wrap "resume task placement root: %w" [err])
  | Ok taskPlacementRoot =>
    match ra_WorkingDir r with
    | None => Err (Wrap "" [Sentinel ErrRecoveryResumeLaunchFailed; Errorf "resume working directory is required" []])
    | Some dir =>
      match NewNormalizedPath dir with
      | Err err => Err (Wrap "" [Sentinel ErrRecoveryResumeLaunchFailed; Wrap "resume working directory: %w" [err]])
      | Ok workingDir =>
        match LastMessageMDPath taskPlacementRoot (ra_TaskID r) with
        | Err err => Err (Wrap "resume output last message path: %w" [err])
        | Ok outputLastMessagePath =>
          match (if SupportsOutputSchema (ra_Subcommand r)
                 then p ← OutputSchemaPath taskPlacementRoot (ra_TaskID r); Ok (Some p)
                 else Ok None) with
          | Err err => Err (Wrap "resume output schema path: %w" [err])
          | Ok outputSchemaPath =>
              Ok (mkLaunchParams (ra_TaskID r) (ra_CodexBinaryPath r) (sr_sessionID (ra_SessionRef r)) taskPlacementRoot
                    outputLastMessagePath outputSchemaPath
                    (if bool_decide (ra_Subcommand r = SubcommandImpl) then "" else RecoveryResumePrompt)
                    (ra_Subcommand r) (ra_SandboxMode r) (ra_Model r) (ra_ReasoningEffort r) workingDir)
          end
        end
      end
    end
  end.

(** [RecoveryResult{ExitCode: failureExitCodeFor(origin)}] *)
Definition failed_result (origin : RecoveryOrigin) : RecoveryResult :=
  mkRecoveryResult false (failureExitCodeFor origin) false.

(** The time limit of the attempt shows in what the launcher answers. *)
Definition Attempt (r : RecoveryAttempt) : M (RecoveryResult * option error) :=
  let failed (err : error) := mret (failed_result (ra_Origin r), Some err) in
  match resume_params r with
  | Err err => failed err
  | Ok params =>
      launchErr ← call (LaunchAndWait params);
      match launchErr with
      | Some err =>
          failed (if isRecoverySessionUnavailable err then err else Wrap "" [Sentinel ErrRecoveryResumeLaunchFailed; err])
      | None =>
          present ← call (ReadLastMessage (ra_TaskID r));
          match present with
          | Err err => failed (Wrap "" [Sentinel ErrRecoveryOutputReadFailed; err])
          | Ok false => mret (failed_result (ra_Origin r), None)
          | Ok true => mret (mkRecoveryResult true (NewExitCode 0) false, None)
          end
      end
  end.

(** The configuration of the recoverer. *)
Record resumeRecoverer : Type := mkRecoverer { codexBinaryPath : string; taskPlacementRoot : string }.

Definition NewResumeRecoverer (codexBinaryPath taskPlacementRoot : string) : res resumeRecoverer :=
  path ← NewNormalizedPath taskPlacementRoot; Ok (mkRecoverer codexBinaryPath path).

Definition Resume (c : resumeRecoverer) (t : TaskID) (sessionRef : option SessionRef) (origin : RecoveryOrigin)
    (settings : ResumeSettings) : M (RecoveryResult * option error) :=
  match sessionRef with
  | None => mret (failed_result origin, Some (Sentinel ErrRecoverySessionUnavailable))
  | Some ref =>
      now ← call Now;
      '(result, err) ←
        Attempt (mkRecoveryAttempt t origin ref now (codexBinaryPath c) (taskPlacementRoot c) (rs_Subcommand settings)
                   (rs_SandboxMode settings) (rs_Model settings) (rs_ReasoningEffort settings) (rs_WorkingDir settings));
      if is_some err || Succeeded result then mret (result, err)
      else mret (result, Some (Sentinel ErrRecoverySessionUnavailable))
  end.

(** ** The use case *)

Record RecoverViaResumeOutput : Type := mkRecoverOutput {
  ro_Succeeded : bool;
  ro_ExitCode : option ExitCode;  (* [None] for the zero value *)
  ro_PartialOutputSaved : bool;
  FinalState : TaskState }.

Definition noRecoverOutput : RecoverViaResumeOutput :=
  mkRecoverOutput false None false (StateOther "").

(** The task is recorded as recovering; the origin and the settings of its run. *)
Definition begin_ (i : RecoverViaResumeInput) : M (res (RecoveryOrigin * ResumeSettings)) :=
  let t := r_TaskID i in
  call (Lock t);;
  loaded ← call (Load t);
  match loaded with
  | Err err => unlocked t (Err err)
  | Ok snapshot =>
    match SnapshotRestore snapshot with
    | Err err => unlocked t (Err err)
    | Ok task =>
      match Task_BeginRecovery (r_SessionRef i) (r_OccurredAt i) task with
      | (_, Err err) => unlocked t (Err err)
      | (task, Ok events) =>
          match events with
          | RecoveryAttempted id origin ref at_ :: _ =>
              match WithTask snapshot task (r_OccurredAt i) with
              | Err err => unlocked t (Err err)
              | Ok updated =>
                  saveErr ← call (Save t updated);
                  match saveErr with
                  | Some err => unlocked t (Err err)
                  | None =>
                      call (AppendEvent t (RecoveryAttempted id origin ref at_));;
                      unlocked t (Ok (origin, newResumeSettings snapshot))
                  end
              end
          | _ => unlocked t (Err (Errorf "panic: interface conversion" [])) (* [BeginRecovery] answers one such event *)
          end
      end
    end
  end.

(** The part of [finish] after the partial output. *)
Definition finish_task (t : TaskID) (result : RecoveryResult) (at_ : Time) (snapshot : TaskSnapshot) (task : Task)
    (partialSaved : bool) : M (RecoverViaResumeOutput * bool) :=
  match (if Succeeded result then Task_CompleteRecovery (rr_ExitCode result) at_ task
         else Task_FailRecovery partialSaved at_ task) with
  | (_, Err _) => unlocked t (noRecoverOutput, false)
  | (task, Ok events) =>
      match WithTask snapshot task at_ with
      | Err _ => unlocked t (noRecoverOutput, false)
      | Ok updated =>
          saveErr ← call (Save t updated);
          match saveErr with
          | Some _ => unlocked t (noRecoverOutput, false)
          | None =>
              (if Succeeded result then call (WriteRecoveredMarker t at_);; mret tt else mret tt);;
              call (WriteExitCode t (rr_ExitCode result));;
              append_events t events;;
              unlocked t (mkRecoverOutput (Succeeded result) (Some (rr_ExitCode result)) partialSaved (t_state task), true)
          end
      end
  end.

(** The end of a recovery, and whether it was persisted. *)
Definition finish (i : RecoverViaResumeInput) (origin : RecoveryOrigin) (result : RecoveryResult) (at_ : Time)
    : M (RecoverViaResumeOutput * bool) :=
  let t := r_TaskID i in
  call (Lock t);;
  loaded ← call (Load t);
  match loaded with
  | Err _ => unlocked t (noRecoverOutput, false)
  | Ok snapshot =>
    match SnapshotRestore snapshot with
    | Err _ => unlocked t (noRecoverOutput, false)
    | Ok task =>
      partialSaved ←
        (if negb (Succeeded result) && bool_decide (origin = RecoveryOriginTimeout)
         then '(saved, _) ← SavePartialOutput_Execute false t; mret saved
         else mret (PartialOutputSaved result));
      finish_task t result at_ snapshot task partialSaved
    end
  end.

(** The guards of the input. *)
Definition recover_input_error (i : RecoverViaResumeInput) : option error :=
  if (r_TaskID i =? "")%string then Some (Errorf "recovery: task id is required" [])
  else if negb (bool_decide (r_Origin i = RecoveryOriginTimeout)) && negb (bool_decide (r_Origin i = RecoveryOriginOrphan))
  then Some (Errorf "recovery: invalid origin" [])
  else if match r_SessionRef i with Some ref => sr_ephemeral ref | None => false end then Some (DErr ErrSessionNotResumable)
  else None.

(** A run of impl that timed out is not resumed: it could apply its changes twice. *)
Definition resumes (i : RecoverViaResumeInput) (origin : RecoveryOrigin) (settings : ResumeSettings) : bool :=
  is_some (r_SessionRef i)
  && negb (bool_decide (rs_Subcommand settings = SubcommandImpl) && bool_decide (origin = RecoveryOriginTimeout)).

Definition recover_begun (c : resumeRecoverer) (i : RecoverViaResumeInput) (origin : RecoveryOrigin)
    (settings : ResumeSettings) : M (RecoverViaResumeOutput * option error) :=
  let t := r_TaskID i in
  result ←
    (if resumes i origin settings
     then '(resumeResult, resumeErr) ← Resume c t (r_SessionRef i) origin settings;
          mret (match resumeErr with Some _ => failed_result origin | None => resumeResult end)
     else mret (failed_result origin));
  completedAt ← call Now;
  '(output, terminal) ← finish i origin result completedAt;
  call (ReleaseRecovery t);;
  if negb terminal then mret (output, Some (Errorf "recovery: terminal transition was not persisted" []))
  else
    stalledTotal ← call (TakeTotal t);
    call (RecordMetrics (mkMetrics t (FinalState output) true completedAt stalledTotal));;
    now ← call Now;
    call (ReleaseSlot t now);;
    mret (output, None).

Definition Recover_Execute (c : resumeRecoverer) (cancellable : bool) (i : RecoverViaResumeInput)
    : M (RecoverViaResumeOutput * option error) :=
  let t := r_TaskID i in
  cancelled ← ctx_err cancellable;
  match cancelled with
  | Some err => mret (noRecoverOutput, Some err)
  | None =>
    match recover_input_error i with
    | Some err => mret (noRecoverOutput, Some err)
    | None =>
        acquired ← call (AcquireRecovery t);
        if negb acquired then mret (noRecoverOutput, Some (Sentinel ErrRecoveryAlreadyInFlight))
        else
          begun ← begin_ i;
          match begun with
          | Err err => call (ReleaseRecovery t);; mret (noRecoverOutput, Some err)
          | Ok (origin, settings) => recover_begun c i origin settings
          end
    end
  end.

(** ** Lemmas *)

Lemma run_BeginRecovery ref at_ task task' evs :
  Task_BeginRecovery ref at_ task = (task', Ok evs) ->
  Task.run_op (OpBeginRecovery ref at_) task = (task', Ok evs) /\ t_state task' = StateRecovering
  /\ exists id origin, evs = [RecoveryAttempted id origin ref at_]
       /\ origin = (if bool_decide (t_state task = StateOrphaned) then RecoveryOriginOrphan else RecoveryOriginTimeout).
Proof.
  intros H. split; [done|]. unfold Task_BeginRecovery, Task_transition in H. unfold_monads.
  destruct_matches; (split; [done|]; by do 2 eexists).
Qed.

(** The end of a recovery: the task, and that nothing but a lineage state remains. *)
Definition end_op (result : RecoveryResult) (saved : bool) (at_ : Time) : TaskOp :=
  if Succeeded result then OpCompleteRecovery (rr_ExitCode result) at_ else OpFailRecovery saved at_.

Lemma run_end result saved at_ task task' evs :
  (if Succeeded result then Task_CompleteRecovery (rr_ExitCode result) at_ task else Task_FailRecovery saved at_ task)
    = (task', Ok evs) ->
  Task.run_op (end_op result saved at_) task = (task', Ok evs)
  /\ t_state task' = (if Succeeded result then StateRecovered
                      else if bool_decide (t_recoveryOrigin task = RecoveryOriginTimeout) then StateTimeoutLost else StateLost).
Proof.
  unfold end_op. destruct (Succeeded result); intros H; (split; [done|]).
  - unfold Task_CompleteRecovery, Task_transition in H. unfold_monads. by destruct_matches.
  - unfold Task_FailRecovery, Task_transition in H. unfold_monads. by destruct_matches.
Qed.

Lemma SavePartial_ok c t h Q :
  ok h -> (forall h' r, ok h' -> same h h' -> Q h' r) -> wpd (SavePartialOutput_Execute c t) h Q.
Proof.
  intros Hok HQ. unfold SavePartialOutput_Execute, ctx_err. repeat wp_step; apply HQ; by_cbn.
Qed.

(** What every step of a recovery leaves alone. *)
Definition quiet (h h' : list event) : Prop :=
  ok h' /\ held h' = None /\ slots h' = slots h /\ metrics h' = metrics h.

Lemma unlocked_quiet {A : Type} t (r : A) h h0 Q :
  ok h -> held h = Some t -> slots h = slots h0 -> metrics h = metrics h0 ->
  (forall h', quiet h0 h' -> Q h' r) -> wpd (unlocked t r) h Q.
Proof. intros Hok Hh Hs Hm HQ []. apply HQ. by_cbn. Qed.

Lemma begin_ok i h Q :
  ok h -> held h = None -> (forall h' r, quiet h h' -> Q h' r) -> wpd (begin_ i) h Q.
Proof.
  intros Hok Hh HQ. unfold begin_. intros [].
  intros [s|err]; wp_cbn; [|apply (unlocked_quiet _ _ _ h); by_cbn].
  destruct (SnapshotRestore s) as [task|err] eqn:Hr; [|apply (unlocked_quiet _ _ _ h); by_cbn].
  destruct (Task_BeginRecovery _ _ task) as [task' [evs|err]] eqn:Hop; [|apply (unlocked_quiet _ _ _ h); by_cbn].
  apply run_BeginRecovery in Hop as (Hop & Hst & id & origin & -> & _).
  destruct (WithTask s task' _) as [u|err] eqn:Hu; [|apply (unlocked_quiet _ _ _ h); by_cbn].
  pose proof (legal_step _ _ _ _ _ _ _ _ Hr Hop Hu) as Hlegal. apply WithTask_state in Hu as [Hsu _].
  assert (exit_first u (Ev (Load (r_TaskID i)) (Ok s) :: Ev (Lock (r_TaskID i)) () :: h)) as Hex.
  { unfold exit_first. by rewrite Hsu, Hst. }
  assert (forall err, rule (Ev (Save (r_TaskID i) u) err) (Ev (Load (r_TaskID i)) (Ok s) :: Ev (Lock (r_TaskID i)) () :: h)) as Hrule
    by (intros err; by eapply save_rule).
  intros [err|]; wp_cbn; [|intros e]; apply (unlocked_quiet _ _ _ h); by_cbn; apply (Hrule None).
Qed.

Lemma finish_task_ok t result at_ s task saved h h0 Q :
  ok h -> held h = Some t -> loaded h = Some (t, Ok s) -> SnapshotRestore s = Ok task ->
  slots h = slots h0 -> metrics h = metrics h0 ->
  (forall h' r, quiet h0 h' -> Q h' r) -> wpd (finish_task t result at_ s task saved) h Q.
Proof.
  intros Hok Hh Hl Hr Hs Hm HQ. unfold finish_task.
  destruct (if Succeeded result then _ else _) as [task' [evs|err]] eqn:Hop; [|apply (unlocked_quiet _ _ _ h0); auto].
  apply run_end in Hop as [Hop Hst].
  destruct (WithTask s task' _) as [u|err] eqn:Hu; [|apply (unlocked_quiet _ _ _ h0); auto].
  pose proof (legal_step _ _ _ _ _ _ _ _ Hr Hop Hu) as Hlegal. apply WithTask_state in Hu as [Hsu _].
  assert (forall err, rule (Ev (Save t u) err) h) as Hrule.
  { intros err. eapply save_rule; [done..|]. unfold exit_first. rewrite Hsu, Hst. by repeat case_match. }
  assert (lineage (State u) = true) as Hlin by (rewrite Hsu, Hst; by repeat case_match).
  intros [err|]; wp_cbn; [apply (unlocked_quiet _ _ _ h0); [by split; [apply Hrule|]|by_cbn..]|].
  assert (forall h', ok h' -> held h' = Some t -> written h' = Some u -> slots h' = slots h0 -> metrics h' = metrics h0 ->
    wpd (call (WriteExitCode t (rr_ExitCode result));; append_events t evs;;
         unlocked t (mkRecoverOutput (Succeeded result) (Some (rr_ExitCode result)) saved (t_state task'), true)) h' Q) as Hrest.
  { intros h' Hok' Hh' Hw' Hs' Hm' e. apply wp_bind. apply append_events_ok.
    - split; [|done]. split; [done|]. right. by exists u.
    - done.
    - intros h2 Hok2 [Hh2 Hl2 Hw2 Hs2 Hm2]. cbn in *. apply (unlocked_quiet _ _ _ h0); auto; congruence. }
  destruct (Succeeded result); wp_cbn; [intros e|]; apply Hrest; try done; by_cbn; apply (Hrule None).
Qed.

Lemma finish_ok i origin result at_ h Q :
  ok h -> held h = None -> (forall h' r, quiet h h' -> Q h' r) -> wpd (finish i origin result at_) h Q.
Proof.
  intros Hok Hh HQ. unfold finish. intros []. intros [s|err]; wp_cbn; [|apply (unlocked_quiet _ _ _ h); by_cbn].
  destruct (SnapshotRestore s) as [task|err] eqn:Hr; [|apply (unlocked_quiet _ _ _ h); by_cbn].
  set (h1 := Ev (Load _) _ :: _).
  assert (forall h' b, ok h' -> same h1 h' -> wpd (finish_task (r_TaskID i) result at_ s task b) h' Q) as Hrest.
  { intros h' b Hok' [Hh' Hl' _ Hs' Hm']. by apply (finish_task_ok _ _ _ _ _ _ _ h). }
  destruct (_ && _); [|by apply Hrest; [by_cbn|apply same_refl]].
  apply wp_bind, wp_bind. apply SavePartial_ok; [by_cbn|]. intros h' [b e] Hok' Hs'. by apply Hrest.
Qed.

(** A resumed run is waited for with the mutex free. *)
Lemma Resume_ok c t ref origin settings h Q :
  ok h -> held h = None -> (forall h' r, quiet h h' -> Q h' r) -> wpd (Resume c t ref origin settings) h Q.
Proof.
  intros Hok Hh HQ. unfold Resume. destruct ref as [ref|]; [|apply HQ; by_cbn]. intros now. wp_cbn.
  apply wp_bind. unfold Attempt.
  assert (forall h' r, quiet h h' -> wpd (let '(result, err) := r in
    if is_some err || Succeeded result then mret (result, err)
    else mret (result, Some (Sentinel ErrRecoverySessionUnavailable))) h' Q) as Hrest.
  { intros h' [result err] Hq. destruct (_ || _); by apply HQ. }
  destruct (resume_params _) as [p|err]; [|apply (Hrest _ (_, _)); by_cbn].
  intros [err|]; wp_cbn; [apply (Hrest _ (_, _)); by_cbn|].
  intros [[]|err]; apply (Hrest _ (_, _)); by_cbn.
Qed.

(** A recovery that succeeds releases one slot and records one end; one that fails
    releases nothing, for the task is still to be recovered. *)
Definition recovery_released (h h' : list event) (err : option error) : Prop :=
  ok h' /\ held h' = None
  /\ slots h' = ((if is_none err then 1 else 0) + slots h)%nat
  /\ metrics h' = ((if is_none err then 1 else 0) + metrics h)%nat.

Lemma quiet_trans h h1 h2 : quiet h h1 -> quiet h1 h2 -> quiet h h2.
Proof. intros (_ & _ & ? & ?) (? & ? & ? & ?). split; [done|]. split; [done|]. split; congruence. Qed.

Lemma recover_begun_ok c i origin settings h Q :
  ok h -> held h = None -> (forall h' r err, recovery_released h h' err -> Q h' (r, err)) ->
  wpd (recover_begun c i origin settings) h Q.
Proof.
  intros Hok Hh HQ. unfold recover_begun. apply wp_bind.
  assert (forall h1 result, quiet h h1 -> wpd (completedAt ← call Now;
    '(output, terminal) ← finish i origin result completedAt;
    call (ReleaseRecovery (r_TaskID i));;
    if negb terminal then mret (output, Some (Errorf "recovery: terminal transition was not persisted" []))
    else
      stalledTotal ← call (TakeTotal (r_TaskID i));
      call (RecordMetrics (mkMetrics (r_TaskID i) (FinalState output) true completedAt stalledTotal));;
      now ← call Now;
      call (ReleaseSlot (r_TaskID i) now);;
      mret (output, None)) h1 Q) as Hrest.
  { intros h1 result (Hok1 & Hh1 & Hs1 & Hm1) at_. apply wp_bind. apply finish_ok; [by_cbn|done|].
    intros h2 [output terminal] (Hok2 & Hh2 & Hs2 & Hm2). cbn in Hs2, Hm2.
    destruct terminal; repeat wp_step; apply HQ; (split; [by_cbn|split; [done|]]); cbn; split; congruence. }
  destruct (resumes _ _ _); [|apply Hrest; by_cbn].
  apply wp_bind. apply Resume_ok; [done..|]. intros h1 [r e] Hq. by apply Hrest.
Qed.

Lemma Recover_ok c cancellable i h Q :
  ok h -> held h = None -> (forall h' r err, recovery_released h h' err -> Q h' (r, err)) ->
  wpd (Recover_Execute c cancellable i) h Q.
Proof.
  intros Hok Hh HQ. unfold Recover_Execute.
  assert (forall h', quiet h h' -> wpd (match recover_input_error i with
    | Some err => mret (noRecoverOutput, Some err)
    | None =>
        acquired ← call (AcquireRecovery (r_TaskID i));
        if negb acquired then mret (noRecoverOutput, Some (Sentinel ErrRecoveryAlreadyInFlight))
        else
          begun ← begin_ i;
          match begun with
          | Err err => call (ReleaseRecovery (r_TaskID i));; mret (noRecoverOutput, Some err)
          | Ok (origin, settings) => recover_begun c i origin settings
          end
    end) h' Q) as Hrest.
  { intros h1 (Hok1 & Hh1 & Hs1 & Hm1). destruct (recover_input_error i) as [err|]; [by apply HQ|].
    intros [|]; wp_cbn; [|by apply HQ]. apply wp_bind. apply begin_ok; [by_cbn|done|].
    intros h2 [[origin settings]|err] (Hok2 & Hh2 & Hs2 & Hm2); cbn in Hs2, Hm2; wp_cbn.
    - apply recover_begun_ok; [done..|]. intros h3 r err (Hok3 & Hh3 & Hs3 & Hm3). apply HQ.
      split; [done|]. split; [done|]. split; congruence.
    - intros []. apply HQ. split; [by_cbn|]. split; [done|]. split; cbn; congruence. }
  destruct cancellable; wp_cbn; [intros [err|]; wp_cbn|]; [by apply HQ|apply Hrest; by_cbn..].
Qed.

Lemma Recover_plain c cancellable i : is_plain (Recover_Execute c cancellable i).
Proof.
  unfold Recover_Execute, recover_begun, begin_, finish, finish_task, Resume, Attempt, unlocked, ctx_err. solve_plain.
Qed.
#[export] Hint Resolve Recover_plain : plain.
