(* ===== verification/Reconcile.v ===== *)
(** * Reconciliation of unfinished tasks ([internal/recovery/reconcile.go],
    [internal/recovery/orphan_transition.go], and the helpers at the end of
    [internal/recovery/adopt.go])

    A task that timed out, is being cancelled, was orphaned or is recovering, and
    that no life cycle in this process owns, is brought to its end from a periodic
    tick: its process is terminated and confirmed dead, its session resumed, its
    end recorded. *)

From S2P Require Import Prelude.
From S2P Require Import Errors.
From S2P Require Import Domain.
From S2P Require Import Task.
From S2P Require Import Snapshot.
From S2P Require Import Effects.
From S2P Require Import Pending.
From S2P Require Import Enforce.
From S2P Require Import Daemon.
From S2P Require Import Terminal.
From S2P Require Import Resume.

Definition cancelledExitCode : Z := 130.

Definition defaultRecoveryTerminationGrace : Duration := 10 * Second.

(** ** Helpers on snapshots *)

Definition processSignalAuthority (s : TaskSnapshot) : option ProcessSignalAuthority :=
  match PID s, ProcessStartedAt s with
  | Some pid, Some at_ =>
      if bool_decide (State s = StateTimeout) || bool_decide (State s = StateCancelling)
      then Some (mkAuthority (TaskID_ s) pid at_ (State s) None)
      else None
  | _, _ => None
  end.

Definition pendingRegistration (s : TaskSnapshot) : Z * option ProcessSignalAuthority :=
  if bool_decide (State s = StateTimeout) || bool_decide (State s = StateCancelling) then
    match processSignalAuthority s with
    | Some authority => (PendingSendUnsent, Some authority)
    | None => (PendingSendConfirmOnly, None)
    end
  else (PendingSendConfirmOnly, None).

Definition isReconciliationTerminalState (s : TaskState) : bool :=
  match s with
  | StateCompleted | StateFailed | StateRecovered | StateTimeoutLost | StateKilled | StateLost => true
  | _ => false
  end.

Definition recoveringFinalState (present : bool) (s : TaskSnapshot) : TaskState :=
  if present then StateRecovered
  else if match RecoveryOrigin_ s with Some o => bool_decide (o = RecoveryOriginTimeout) | None => false end
  then StateTimeoutLost
  else StateLost.

(** ** The claim after a signal *)

(** The snapshot and whether the claim's authority still holds. *)
Definition currentClaimAuthorityWithError (claim : SendClaim) : M (res (TaskSnapshot * bool)) :=
  call (Lock (cl_TaskID claim));;
  loaded ← call (Load (cl_TaskID claim));
  call (Unlock (cl_TaskID claim));;
  mret match loaded with
       | Err err => Err err
       | Ok snapshot => Ok (snapshot, matchesProcessSignalAuthority snapshot (cl_Authority claim))
       end.

(** The snapshot, if the authority holds. *)
Definition currentClaimAuthority (claim : SendClaim) : M (option TaskSnapshot) :=
  r ← currentClaimAuthorityWithError claim;
  mret match r with Ok (snapshot, true) => Some snapshot | _ => None end.

Definition releaseOrInvalidateSendAfterTerminationError (claim : SendClaim) : M unit :=
  r ← currentClaimAuthorityWithError claim;
  match r with
  | Err err =>
      if negb (errors_Is err (Domain ErrTaskNotFound)) then call (PendRelease claim);; mret tt
      else call (PendInvalidate claim);; mret tt
  | Ok (_, true) => call (PendRelease claim);; mret tt
  | Ok (_, false) => call (PendInvalidate claim);; mret tt
  end.

Inductive pendingFailureDisposition : Type := pendingFailureFromSnapshot | pendingFailureAfterConfirmedDeath.

Definition pendingFailureRegistration (s : TaskSnapshot) (d : pendingFailureDisposition)
    : Z * option ProcessSignalAuthority :=
  match d with
  | pendingFailureAfterConfirmedDeath => (PendingSendConfirmOnly, None)
  | pendingFailureFromSnapshot => pendingRegistration s
  end.

Definition reconcilePendingAfterFailure (c : bool) (t : TaskID) (d : pendingFailureDisposition) : M unit :=
  unless_cancelled c (mret tt) (
  call (Lock t);;
  unless_cancelled c (unlocked t tt) (
  loaded ← call (Load t);
  call (Unlock t);;
  match loaded with
  | Err _ => mret tt
  | Ok snapshot =>
      unless_cancelled c (mret tt) (
      if isReconciliationTerminalState (State snapshot) then call (PendRemove t)
      else match State snapshot with
           | StateTimeout | StateCancelling | StateRecovering | StateOrphaned =>
               let '(disposition, authority) := pendingFailureRegistration snapshot d in
               match d with
               | pendingFailureAfterConfirmedDeath => call (PendRemove t)
               | pendingFailureFromSnapshot => mret tt
               end;;
               unless_cancelled c (mret tt) (call (PendRegister t disposition authority);; mret tt)
           | _ => mret tt
           end)
  end)).

(** ** The orphan coordinator *)

Record OrphanTransitionResult : Type := mkOrphanResult { Finalized : bool; RecoveryStarted : bool; Deferred : bool }.

Record OrphanTransitionInput : Type := mkOrphanInput {
  oi_TaskID : TaskID;
  oi_SessionRef : option SessionRef;
  oi_AdoptedAfterRestart : bool;
  oi_OccurredAt : Time }.

Definition deferred : OrphanTransitionResult := mkOrphanResult false false true.

Definition Handle (c : bool) (i : OrphanTransitionInput) : M OrphanTransitionResult :=
  let t := oi_TaskID i in
  unless_cancelled c (mret deferred) (
  present ← call (ReadLastMessage t);
  match present with
  | Err _ =>
      unless_cancelled c (mret deferred)
        (reconcilePendingAfterFailure c t pendingFailureAfterConfirmedDeath;; mret deferred)
  | Ok present =>
      unless_cancelled c (mret deferred) (
      if present : bool then
        unless_cancelled c (mret deferred) (
        err ← Finalize t 0 true (oi_AdoptedAfterRestart i) (oi_OccurredAt i);
        match err with
        | Some _ =>
            unless_cancelled c (mret deferred)
              (reconcilePendingAfterFailure c t pendingFailureAfterConfirmedDeath;; mret deferred)
        | None =>
            unless_cancelled c (mret deferred) (call (PendRemove t);; mret (mkOrphanResult true false false))
        end)
      else
        dispatchAt ← call Now;
        unless_cancelled c (mret deferred) (
        call (Go (GoOrphanResume (mkRecoverInput t (oi_SessionRef i) RecoveryOriginOrphan dispatchAt)));;
        mret (mkOrphanResult false true false)))
  end).

(** The goroutine it dispatches: the recovery cannot be cancelled, what follows can. *)
Definition orphan_resume (r : resumeRecoverer) (i : RecoverViaResumeInput) : M unit :=
  '(_, err) ← Recover_Execute r false i;
  match err with
  | Some err =>
      if errors_Is err ErrRecoveryAlreadyInFlight then mret tt
      else unless_cancelled true (mret tt)
             (reconcilePendingAfterFailure true (r_TaskID i) pendingFailureAfterConfirmedDeath)
  | None => unless_cancelled true (mret tt) (call (PendRemove (r_TaskID i)))
  end.

(** ** A recovery that was interrupted *)

(** A write that may fail, whose failure is only logged; whether the context is found
    cancelled then. *)
Definition noted (c : bool) (e : Eff (option error)) : M bool :=
  err ← call e;
  if is_some err then cancelled c else mret false.

(** The loop over the events, which stops when the context is cancelled; whether it
    came to its end. *)
Fixpoint append_unless_cancelled (c : bool) (t : TaskID) (events : list Domain.Event) : M bool :=
  match events with
  | [] => mret true
  | ev :: events =>
      unless_cancelled c (mret false) (
      stopped ← noted c (AppendEvent t ev);
      if stopped : bool then mret false
      else unless_cancelled c (mret false) (append_unless_cancelled c t events))
  end.

(** [err, completed]; the caller holds the mutex of the task. *)
Definition resolve_write (c : bool) (t : TaskID) (updated : TaskSnapshot) (present shouldWriteExitCode : bool)
    (exitCode : ExitCode) (events : list Domain.Event) (occurredAt : Time) : M (option error * bool) :=
  let stop := mret (None, false) in
  stopped ← noted c (WriteAdoptedMarker t occurredAt);
  if stopped : bool then stop else
  unless_cancelled c stop (
  stopped ← (if present then noted c (WriteRecoveredMarker t occurredAt) else mret false);
  if stopped : bool then stop else
  unless_cancelled c stop (
  stopped ← (if shouldWriteExitCode then noted c (WriteExitCode t exitCode) else mret false);
  if stopped : bool then stop else
  unless_cancelled c stop (
  saveErr ← call (Save t updated);
  match saveErr with
  | Some _ => mret (saveErr, true)
  | None =>
      unless_cancelled c stop (
      completed ← append_unless_cancelled c t events;
      mret (None, completed))
  end))).

Definition resolveRecoveringLockedWithContext (c : bool) (t : TaskID) (snapshot : TaskSnapshot) (present : bool)
    (occurredAt : Time) : M (option error * bool) :=
  let stop := mret (None, false) in
  match SnapshotRestore snapshot with
  | Err err => mret (Some err, true)
  | Ok task =>
    let exitCode := if present then NewExitCode 0 else NewExitCode 1 in
    match (if present then Task_CompleteRecovery exitCode occurredAt task else Task_FailRecovery false occurredAt task) with
    | (_, Err err) => mret (Some err, true)
    | (task, Ok events) =>
      match WithTask snapshot task occurredAt with
      | Err err => mret (Some err, true)
      | Ok updated =>
          let updated := updated <| AdoptedAfterRestart := true |> in
          unless_cancelled c stop (
          '(shouldWriteExitCode, err) ← CheckExitCode t exitCode;
          unless_cancelled c stop (
          match err with
          | Some _ => mret (err, true)
          | None =>
              unless_cancelled c stop
                (resolve_write c t updated present shouldWriteExitCode exitCode events occurredAt)
          end))
      end
    end
  end.

(** ** The use case *)

(** The statistics and the slot of a task that is no longer recovering. *)
Definition release_recovering {A : Type} (c : bool) (t : TaskID) (finalState : TaskState) (occurredAt : Time)
    (stop next : M A) : M A :=
  stalledTotal ← call (TakeTotal t);
  unless_cancelled c stop (
  call (RecordMetrics (mkMetrics t finalState true occurredAt stalledTotal));;
  unless_cancelled c stop (
  now ← call Now;
  call (ReleaseSlot t now);;
  unless_cancelled c stop next)).

(** The part after the mutex has been released. *)
Definition reconcile_resolved (c : bool) (t : TaskID) (present : bool) (occurredAt : Time) (loaded : res TaskSnapshot)
    (err : option error) : M unit :=
  match err, loaded with
  | Some _, _ | _, Err _ =>
      unless_cancelled c (mret tt) (reconcilePendingAfterFailure c t pendingFailureAfterConfirmedDeath)
  | None, Ok snapshot =>
      if negb (bool_decide (State snapshot = StateRecovering)) then
        unless_cancelled c (mret tt)
          (if isReconciliationTerminalState (State snapshot) then call (PendRemove t) else mret tt)
      else
        unless_cancelled c (mret tt) (
        unless_cancelled c (mret tt)
          (release_recovering c t (recoveringFinalState present snapshot) occurredAt (mret tt) (call (PendRemove t))))
  end.

(** The part after the last message has been read. *)
Definition reconcile_dead (c : bool) (t : TaskID) (present : bool) : M unit :=
  occurredAt ← call Now;
  call (Lock t);;
  unless_cancelled c (unlocked t tt) (
  loaded ← call (Load t);
  unless_cancelled c (unlocked t tt) (
  '(err, completed) ←
    match loaded with
    | Err err => mret (Some err, true)
    | Ok snapshot =>
        if bool_decide (State snapshot = StateRecovering)
        then resolveRecoveringLockedWithContext c t snapshot present occurredAt
        else mret (None, true)
    end;
  call (Unlock t);;
  if negb completed then mret tt
  else reconcile_resolved c t present occurredAt loaded err)).

Definition reconcileRecovering (c : bool) (t : TaskID) : M unit :=
  unless_cancelled c (mret tt) (
  dead ← call (CheckDead t);
  match dead with
  | Err _ | Ok false => mret tt
  | Ok true =>
      unless_cancelled c (mret tt) (
      present ← call (ReadLastMessage t);
      match present with
      | Err _ => unless_cancelled c (mret tt) (call (PendRegister t PendingSendConfirmOnly None);; mret tt)
      | Ok present => unless_cancelled c (mret tt) (reconcile_dead c t present)
      end)
  end).

(** [claim] is [noClaim] for the callers that own none. *)
Definition completeTerminated (c : bool) (t : TaskID) (snapshot : TaskSnapshot) (timeout : bool) (confirmedAt : Time)
    (claim : SendClaim) : M unit :=
  let give_back :=
    if negb (cl_Token claim =? 0) then call (PendInvalidate claim);; mret tt
    else reconcilePendingAfterFailure c t pendingFailureAfterConfirmedDeath in
  unless_cancelled c (mret tt) (
  if timeout then
    released ← (if bool_decide (Subcommand_ snapshot = SubcommandImpl) then call (ReleasePathLock t) else mret None);
    match released with
    | Some _ => unless_cancelled c (mret tt) give_back
    | None =>
        unless_cancelled c (mret tt) (
        now ← call Now;
        call (Go (GoReconcileResume (mkRecoverInput t (SessionRef_ snapshot) RecoveryOriginTimeout now) claim)))
    end
  else
    existing ← call (ReadExitCode t);
    unless_cancelled c (mret tt) (
    let rawExitCode := match existing with Ok (Some code) => code | _ => cancelledExitCode end in
    err ← ConfirmKilled t rawExitCode true confirmedAt;
    match err with
    | Some _ => unless_cancelled c (mret tt) give_back
    | None =>
        unless_cancelled c (mret tt)
          (if negb (cl_Token claim =? 0) then call (PendRemoveClaim claim);; mret tt else call (PendRemove t))
    end)).

Definition reconcileTermination (c : bool) (t : TaskID) (snapshot : TaskSnapshot) (timeout : bool)
    (authority : ProcessSignalAuthority) : M unit :=
  let confirm :=
    unless_cancelled c (mret tt) (
    r ← call (ConfirmDead t);
    match r with
    | Err _ => unless_cancelled c (mret tt) (reconcilePendingAfterFailure c t pendingFailureFromSnapshot)
    | Ok true => now ← call Now; completeTerminated c t snapshot timeout now noClaim
    | Ok false => mret tt
    end) in
  unless_cancelled c (mret tt) (
  if validProcessSignalAuthority authority then
    '(claim, outcome) ← call (PendClaim false t authority);
    match outcome with
    | ClaimNotFound | ClaimAlreadyClaimed => mret tt
    | ClaimAcquired =>
        unless_cancelled c (call (PendRelease claim);; mret tt) (call (Go (GoSendAndReconcile claim snapshot timeout)))
    | ClaimSent | ClaimConfirmOnly => confirm
    end
  else confirm).

Definition reconcileOne (c : bool) (entry : PendingEntry) : M unit :=
  let t := e_taskID entry in
  unless_cancelled c (mret tt) (
  owned ← call (LifecycleOwned t);
  if owned : bool then mret tt else
  call (Lock t);;
  unless_cancelled c (unlocked t tt) (
  loaded ← call (Load t);
  call (Unlock t);;
  match loaded with
  | Err _ => mret tt
  | Ok snapshot =>
      unless_cancelled c (mret tt)
      match State snapshot with
      | StateRecovering =>
          acquired ← call (AcquireRecovery t);
          if negb acquired then mret tt
          else reconcileRecovering c t;; call (ReleaseRecovery t)
      | StateOrphaned =>
          now ← call Now;
          Handle c (mkOrphanInput t (SessionRef_ snapshot) (AdoptedAfterRestart snapshot) now);; mret tt
      | StateTimeout => reconcileTermination c t snapshot true (e_authority entry)
      | StateCancelling => reconcileTermination c t snapshot false (e_authority entry)
      | s => if isReconciliationTerminalState s then call (PendRemove t) else mret tt
      end
  end)).

(** The tasks that the tick discovers in the store; [seen] are those already in the set. *)
Fixpoint register_discovered (discovered : list TaskSnapshot) (seen : list TaskID) : M unit :=
  match discovered with
  | [] => mret tt
  | snapshot :: discovered =>
      let t := TaskID_ snapshot in
      owned ← (if bool_decide (t ∈ seen) then mret true else call (LifecycleOwned t));
      if owned : bool then register_discovered discovered seen
      else
        let '(disposition, authority) := pendingRegistration snapshot in
        err ← call (PendRegister t disposition authority);
        match err with
        | Some err =>
            if negb (errors_Is err PendingClaimed) then register_discovered discovered seen
            else register_discovered discovered (t :: seen)
        | None => register_discovered discovered (t :: seen)
        end
  end.

Fixpoint reconcile_entries (c : bool) (entries : list PendingEntry) : M unit :=
  match entries with
  | [] => mret tt
  | entry :: entries =>
      unless_cancelled c (mret tt) (
      owned ← call (LifecycleOwned (e_taskID entry));
      (if owned : bool then mret tt else reconcileOne c entry);;
      reconcile_entries c entries)
  end.

Definition reconcileTick (c : bool) : M unit :=
  entries ← call PendList;
  discovered ← call (ListByStates [StateOrphaned; StateRecovering; StateTimeout; StateCancelling]);
  match discovered with
  | Err _ => mret tt
  | Ok discovered =>
      register_discovered discovered (e_taskID <$> entries);;
      entries ← call PendList;
      reconcile_entries c entries
  end.

(** ** Its goroutines *)

Definition sendAndReconcile (claim : SendClaim) (timeout : bool) (terminationGrace : Duration) : M unit :=
  result ← call (SendConfirm (cl_TaskID claim) (cl_Authority claim) terminationGrace);
  if negb (Dead result) then
    match TerminateErr result with
    | Some err =>
        if errors_Is err ErrProcessSignalAuthorityInvalid then call (PendInvalidate claim);; mret tt
        else releaseOrInvalidateSendAfterTerminationError claim
    | None => call (PendComplete claim);; mret tt
    end
  else
    latest ← currentClaimAuthority claim;
    match latest with
    | None => call (PendInvalidate claim);; mret tt
    | Some latest => now ← call Now; completeTerminated false (cl_TaskID claim) latest timeout now claim
    end.

Definition reconcile_resumeRecovery (r : resumeRecoverer) (i : RecoverViaResumeInput) (claim : SendClaim) : M unit :=
  '(_, err) ← Recover_Execute r false i;
  let owns := negb (cl_Token claim =? 0) in
  match err with
  | Some err =>
      if errors_Is err ErrRecoveryAlreadyInFlight then
        if owns then call (PendRelease claim);; mret tt else mret tt
      else if owns then call (PendInvalidate claim);; mret tt
      else reconcilePendingAfterFailure false (r_TaskID i) pendingFailureAfterConfirmedDeath
  | None => if owns then call (PendRemoveClaim claim);; mret tt else call (PendRemove (r_TaskID i))
  end.

(** ** Lemmas *)

Lemma Finalize_keeps t raw est ad at_ c : keeps None c None c (Finalize t raw est ad at_).
Proof. apply keeps_plain; [auto with plain|]. intros. by apply Finalize_ok. Qed.

Lemma ConfirmKilled_keeps t raw est at_ c : keeps None c None c (ConfirmKilled t raw est at_).
Proof. apply keeps_plain; [auto with plain|]. intros. by apply ConfirmKilled_ok. Qed.

Lemma Recover_keeps r b i c : keeps None c None c (Recover_Execute r b i).
Proof.
  apply keeps_plain; [auto with plain|]. intros h Q Hok Hm HQ. apply Recover_ok; [done..|].
  intros h' o err (Hok' & Hm' & _). by apply HQ.
Qed.
#[export] Hint Resolve Finalize_keeps ConfirmKilled_keeps Recover_keeps : keeps.

Lemma currentClaimAuthorityWithError_keeps claim c : keeps None c None c (currentClaimAuthorityWithError claim).
Proof. unfold currentClaimAuthorityWithError. solve_keeps. Qed.
#[export] Hint Resolve currentClaimAuthorityWithError_keeps : keeps.

Lemma releaseOrInvalidate_keeps claim : keeps None (real_claim claim) None None (releaseOrInvalidateSendAfterTerminationError claim).
Proof. unfold releaseOrInvalidateSendAfterTerminationError. solve_keeps. Qed.

Lemma reconcilePendingAfterFailure_keeps b t d c : keeps None c None c (reconcilePendingAfterFailure b t d).
Proof. unfold reconcilePendingAfterFailure. solve_keeps. Qed.
#[export] Hint Resolve releaseOrInvalidate_keeps reconcilePendingAfterFailure_keeps : keeps.

Lemma Handle_keeps b i : keeps None None None None (Handle b i).
Proof. unfold Handle. solve_keeps. Qed.
#[export] Hint Resolve Handle_keeps : keeps.

Lemma orphan_resume_keeps r i : keeps None None None None (orphan_resume r i).
Proof. unfold orphan_resume. solve_keeps. Qed.

Lemma noted_inside_keeps b e t c : inside e t -> keeps (Some t) c (Some t) c (noted b e).
Proof. intros He. unfold noted. eapply keeps_bind; [by apply keeps_inside|]. intros x. solve_keeps. Qed.
#[export] Hint Extern 1 (keeps _ _ _ _ (noted _ _)) => apply noted_inside_keeps; reflexivity : keeps.

Lemma append_unless_cancelled_keeps b t events c : keeps (Some t) c (Some t) c (append_unless_cancelled b t events).
Proof. induction events as [|ev events IH]; cbn [append_unless_cancelled]; solve_keeps. Qed.
#[export] Hint Resolve append_unless_cancelled_keeps : keeps.

(** Only a run that cannot be cancelled owns a claim: it would not give it back. *)
Lemma completeTerminated_keeps t s timeout at_ claim :
  keeps None (real_claim claim) None None (completeTerminated false t s timeout at_ claim).
Proof. unfold completeTerminated. solve_keeps. Qed.

Lemma completeTerminated_none_keeps b t s timeout at_ : keeps None None None None (completeTerminated b t s timeout at_ noClaim).
Proof. unfold completeTerminated. change (@None SendClaim) with (real_claim noClaim) at 1. solve_keeps. Qed.
#[export] Hint Resolve completeTerminated_keeps completeTerminated_none_keeps : keeps.

(** A recovery resolved under the mutex: what is known of the task and of its exit-code
    file stays known until the snapshot is written. *)
Definition resolving (t : TaskID) (s : TaskSnapshot) (cl : option SendClaim) (missing : bool) (h : list event) : Prop :=
  st (Some t) cl h /\ loaded h = Some (t, Ok s) /\ (missing = true -> exit_code h = Some None).

Lemma resolving_ctx t s cl b h err : resolving t s cl b h -> resolving t s cl b (Ev CtxErr err :: h).
Proof. intros (Hst & Hl & He). split; [by apply st_ctx|done]. Qed.

Lemma unless_resolving {A : Type} t s cl b c (stop p : M A) h Q :
  resolving t s cl b h -> (forall h', resolving t s cl b h' -> wpd stop h' Q) ->
  (forall h', resolving t s cl b h' -> wpd p h' Q) -> wpd (unless_cancelled c stop p) h Q.
Proof. apply unless_cancelled_ok. intros. by apply resolving_ctx. Qed.

Lemma cancelled_resolving t s cl b c h Q :
  resolving t s cl b h -> (forall h' x, resolving t s cl b h' -> Q h' x) -> wpd (cancelled c) h Q.
Proof. intros Hr HQ. destruct c; [intros err|]; apply HQ; [by apply resolving_ctx|done]. Qed.

Lemma noted_resolving t s cl b b' c (e : Eff (option error)) h Q :
  resolving t s cl b h -> (forall x, resolving t s cl b' (Ev e x :: h)) ->
  (forall h' x, resolving t s cl b' h' -> Q h' x) -> wpd (noted c e) h Q.
Proof.
  intros Hr He HQ x. wp_cbn. destruct (is_some x); [|by apply HQ]. eapply cancelled_resolving; [by apply He|done].
Qed.

Definition marker {X : Type} (e : Eff X) (t : TaskID) : Prop :=
  match e with WriteAdoptedMarker t' _ | WriteRecoveredMarker t' _ => t' = t | _ => False end.

Lemma resolving_marker {X : Type} t s cl b h (e : Eff X) x :
  marker e t -> resolving t s cl b h -> resolving t s cl b (Ev e x :: h).
Proof.
  intros He ((Hok & Hm & Hc) & Hl & Hx). destruct e; try done; cbn in He; subst; (split; [by repeat split|done]).
Qed.

Lemma resolve_write_ok c t s u present b code evs at_ cl h Q :
  resolving t s cl b h -> legal s u -> exited (State u) = false ->
  (forall h' r, st (Some t) cl h' -> Q h' r) ->
  wpd (resolve_write c t u present b code evs at_) h Q.
Proof.
  intros Hr Hlegal Hex HQ. unfold resolve_write.
  assert (forall b' h' (x : option error * bool), resolving t s cl b' h' -> wpd (mret x) h' Q) as Hret.
  { intros b' h' x [Hst _]. by apply HQ. }
  apply wp_bind. eapply noted_resolving; [done|intros x; by apply resolving_marker|].
  intros h1 stopped H1. destruct stopped; [by eapply Hret|]. eapply unless_resolving; [done|by intros; eapply Hret|].
  clear h h1 H1 Hr. intros h Hr. apply wp_bind.
  assert (wpd (if present then noted c (WriteRecoveredMarker t at_) else mret false) h (fun h' _ => resolving t s cl b h')) as H.
  { destruct present; [|done]. eapply noted_resolving; [done|intros x; by apply resolving_marker|done]. }
  eapply wp_mono; [exact H|]. clear H h Hr. cbn. intros h stopped Hr. destruct stopped; [by eapply Hret|].
  eapply unless_resolving; [done|by intros; eapply Hret|]. clear h Hr. intros h Hr. apply wp_bind.
  assert (wpd (if b then noted c (WriteExitCode t code) else mret false) h (fun h' _ => resolving t s cl false h')) as H.
  { destruct b; [|done]. eapply noted_resolving; [done| |done]. intros x. destruct Hr as ((Hok & Hm & Hc) & Hl & Hx).
    split; [|done]. repeat split; try done. left. by apply Hx. }
  eapply wp_mono; [exact H|]. clear H h Hr. cbn. intros h stopped Hr. destruct stopped; [by eapply Hret|].
  eapply unless_resolving; [done|by intros; eapply Hret|]. clear h Hr. intros h ((Hok & Hm & Hc) & Hl & _) err.
  assert (st (Some t) cl (Ev (Save t u) err :: h)) as Hst.
  { eapply st_save; [done..|]. unfold exit_first. by rewrite Hex. }
  wp_cbn. destruct err as [err|]; [by apply HQ|]. eapply keeps_wp; [|exact Hst|done].
  apply keeps_unless; solve_keeps.
Qed.

Lemma resolveRecovering_ok c t s present at_ cl h Q :
  st (Some t) cl h -> loaded h = Some (t, Ok s) ->
  (forall h' r, st (Some t) cl h' -> Q h' r) ->
  wpd (resolveRecoveringLockedWithContext c t s present at_) h Q.
Proof.
  intros Hst Hl HQ. unfold resolveRecoveringLockedWithContext.
  destruct (SnapshotRestore s) as [task|err] eqn:Hr; [|by apply HQ].
  set (code := if present then NewExitCode 0 else NewExitCode 1).
  destruct (if present then Task_CompleteRecovery code at_ task else Task_FailRecovery false at_ task)
    as [task' [evs|err]] eqn:Hop; [|by apply HQ].
  apply (run_end (mkRecoveryResult present code false)) in Hop as [Hop Hend]. cbn in Hend.
  destruct (WithTask s task' _) as [u|err] eqn:Hu; [|by apply HQ].
  pose proof (legal_step _ _ _ _ _ _ _ _ Hr Hop Hu) as Hlegal. apply WithTask_state in Hu as [Hsu _].
  assert (exited (State u) = false) as Hex by (rewrite Hsu, Hend; by repeat case_match).
  assert (forall b h' (x : option error * bool), resolving t s cl b h' -> wpd (mret x) h' Q) as Hret.
  { intros b h' x [Hst' _]. by apply HQ. }
  apply (unless_resolving t s cl false); [by split|by intros; eapply Hret|]. clear h Hst Hl. intros h Hres.
  unfold CheckExitCode. intros r. wp_cbn.
  assert (resolving t s cl (match r with Ok None => true | _ => false end) (Ev (ReadExitCode t) r :: h)) as Hres'.
  { destruct Hres as ((Hok & Hm & Hc) & Hl & _). split; [by split; [split; [right|]|]|]. split; [done|]. by destruct r as [[]|]. }
  destruct r as [[x|]|e]; [destruct (negb (x =? ec_raw code))| |];
    (eapply unless_resolving; [exact Hres'|by intros; eapply Hret|]; intros h1 H1; try (by eapply Hret));
    (eapply unless_resolving; [exact H1|by intros; eapply Hret|]; intros h2 H2; by eapply resolve_write_ok).
Qed.

(** ** The handlers *)

Lemma release_recovering_keeps {A : Type} b t final at_ c c' (stop next : M A) :
  keeps None c None c' stop -> keeps None c None c' next -> keeps None c None c' (release_recovering b t final at_ stop next).
Proof. intros Hs Hn. unfold release_recovering. solve_keeps; done. Qed.

Lemma reconcile_resolved_keeps b t present at_ loaded err :
  keeps None None None None (reconcile_resolved b t present at_ loaded err).
Proof. unfold reconcile_resolved. solve_keeps; apply release_recovering_keeps; solve_keeps. Qed.
#[export] Hint Resolve reconcile_resolved_keeps : keeps.

Lemma resolveRecovering_knows b t s present at_ c :
  knows t (Ok s) c (Some t) c (resolveRecoveringLockedWithContext b t s present at_).
Proof. intros h Hst Hl. by apply (resolveRecovering_ok _ _ _ _ _ c). Qed.

Lemma reconcile_dead_keeps b t present : keeps None None None None (reconcile_dead b t present).
Proof.
  unfold reconcile_dead. eapply keeps_bind; [by apply keeps_anywhere|]. intros at_.
  eapply keeps_bind; [apply keeps_Lock|]. intros _. apply keeps_unless; [apply keeps_unlocked|].
  apply keeps_Load. intros r. apply knows_unless; [apply keeps_unlocked|].
  eapply (knows_then _ _ _ (Some t) None); [|intros [err completed]; solve_keeps].
  destruct r as [s|err]; [|apply knows_keeps, keeps_ret]. destruct (bool_decide _); [|apply knows_keeps, keeps_ret].
  apply resolveRecovering_knows.
Qed.
#[export] Hint Resolve reconcile_dead_keeps : keeps.

Lemma reconcileRecovering_keeps b t : keeps None None None None (reconcileRecovering b t).
Proof. unfold reconcileRecovering. solve_keeps. Qed.

(** A claim that was acquired is given back or handed to the goroutine; any other
    answer leaves none. *)
Lemma keeps_claim {A : Type} init t a (k : SendClaim * ClaimOutcome -> M A) :
  (forall cl out, keeps None (if bool_decide (out = ClaimAcquired) then real_claim cl else None) None None (k (cl, out))) ->
  keeps None None None None (call (PendClaim init t a) ≫= k).
Proof.
  intros Hk h (Hok & Hm & Hc). intros [cl out]. apply Hk. split; [by repeat split|]. split; [done|].
  cbn. by destruct out.
Qed.

Lemma reconcileTermination_keeps b t s timeout a : keeps None None None None (reconcileTermination b t s timeout a).
Proof.
  unfold reconcileTermination. apply keeps_unless; [apply keeps_ret|]. destruct (validProcessSignalAuthority a); [|solve_keeps].
  apply keeps_claim. intros cl out. destruct (bool_decide_reflect (out = ClaimAcquired)) as [->|]; [|destruct out]; solve_keeps; done.
Qed.
#[export] Hint Resolve reconcileRecovering_keeps reconcileTermination_keeps : keeps.

Lemma reconcileOne_keeps b e : keeps None None None None (reconcileOne b e).
Proof. unfold reconcileOne. solve_keeps. Qed.
#[export] Hint Resolve reconcileOne_keeps : keeps.

Lemma register_discovered_keeps ds seen c : keeps None c None c (register_discovered ds seen).
Proof. revert seen. induction ds as [|d ds IH]; intros seen; cbn [register_discovered]; solve_keeps. Qed.

Lemma reconcile_entries_keeps b es : keeps None None None None (reconcile_entries b es).
Proof. induction es as [|e es IH]; cbn [reconcile_entries]; solve_keeps. Qed.
#[export] Hint Resolve register_discovered_keeps reconcile_entries_keeps : keeps.

Lemma reconcileTick_keeps b : keeps None None None None (reconcileTick b).
Proof. unfold reconcileTick. solve_keeps. Qed.

Lemma sendAndReconcile_keeps claim timeout grace : keeps None (real_claim claim) None None (sendAndReconcile claim timeout grace).
Proof. unfold sendAndReconcile, currentClaimAuthority. solve_keeps. Qed.

Lemma reconcile_resumeRecovery_keeps r i claim :
  keeps None (real_claim claim) None None (reconcile_resumeRecovery r i claim).
Proof. unfold reconcile_resumeRecovery. solve_keeps. Qed.
