(* ===== verification/Adopt.v ===== *)
(** * Adoption after a restart ([internal/recovery/adopt.go])

    When the daemon starts, every task that the last run left unfinished is taken
    over: its slot is reserved again, a living process is watched again, a dead one
    leads to recovery, and a termination that was under way is completed. *)

From S2P Require Import Prelude.
From S2P Require Import Errors.
From S2P Require Import Domain.
From S2P Require Import Task.
From S2P Require Import Snapshot.
From S2P Require Import Effects.
From S2P Require Import Pending.
From S2P Require Import Enforce.
From S2P Require Import Daemon.
From S2P Require Import Terminal.
From S2P Require Import Resume.
From S2P Require Import Reconcile.

Inductive adoptionOutcome : Type :=
| ResumedMonitoring
| OrphanRecovered
| OrphanRecoveryStarted
| OutcomeError
| Reconciled
| OutcomeDeferred.

(** What [outcome, completed] says: [None] for a run that was cancelled. *)
Abbreviation outcome := (option adoptionOutcome).

Record AdoptRunningTasksOutput : Type := mkAdoptOutput {
  Outcomes : list (TaskID * adoptionOutcome);
  ElapsedMillis : Z }.

Definition adoptionStates : list TaskState :=
  [StateStarting; StateRunning; StateStalled; StateRecovering; StateTimeout; StateOrphaned; StateCancelling].
Definition isAdoptionState (s : TaskState) : bool := existsb (fun candidate => bool_decide (s = candidate)) adoptionStates.

(** Whether the task is in the pending set now. *)
Definition registerPending (t : TaskID) (snapshot : TaskSnapshot) : M bool :=
  let '(disposition, authority) := pendingRegistration snapshot in
  err ← call (PendRegister t disposition authority);
  mret (is_none err).

Definition registerPendingConfirmOnly (t : TaskID) : M unit :=
  call (PendRegister t PendingSendConfirmOnly None);; mret tt.

(** The branches that free the mutex, register the task and end with [o]. *)
Definition unlock_and_register (c : bool) (t : TaskID) (snapshot : TaskSnapshot) (o : adoptionOutcome) : M outcome :=
  call (Unlock t);;
  unless_cancelled c (mret None) (
  registerPending t snapshot;;
  unless_cancelled c (mret None) (mret (Some o))).

(** ** A recovery that was interrupted.  The mutex is held, and free at the end. *)

Definition adoptRecoveringLocked (c : bool) (t : TaskID) (snapshot : TaskSnapshot) (occurredAt : Time) : M outcome :=
  let stop := unlocked t None in
  unless_cancelled c stop (
  dead ← call (CheckDead t);
  unless_cancelled c stop
  match dead with
  | Err _ => unlock_and_register c t snapshot OutcomeError
  | Ok false => unlock_and_register c t snapshot OutcomeDeferred
  | Ok true =>
      unless_cancelled c stop (
      present ← call (ReadLastMessage t);
      unless_cancelled c stop
      match present with
      | Err _ => unlock_and_register c t snapshot OutcomeError
      | Ok present =>
          '(err, completed) ← resolveRecoveringLockedWithContext c t snapshot present occurredAt;
          if negb completed then stop else
          match err with
          | Some _ =>
              call (Unlock t);;
              unless_cancelled c (mret None) (
              registerPendingConfirmOnly t;;
              unless_cancelled c (mret None) (
              unless_cancelled c (mret None) (
              reconcilePendingAfterFailure c t pendingFailureAfterConfirmedDeath;;
              unless_cancelled c (mret None) (mret (Some OutcomeError)))))
          | None =>
              call (Unlock t);;
              unless_cancelled c (mret None) (
              release_recovering c t (recoveringFinalState present snapshot) occurredAt (mret None)
                (mret (Some (if present then OrphanRecovered else OutcomeError))))
          end
      end)
  end).

(** ** A timeout *)

Definition releaseTimeoutPathLock (t : TaskID) (snapshot : TaskSnapshot) : M (option error) :=
  if bool_decide (Subcommand_ snapshot = SubcommandImpl) then call (ReleasePathLock t) else mret None.

(** [err, completed] *)
Definition startTimeoutRecovery (c : bool) (t : TaskID) (snapshot : TaskSnapshot) : M (option error * bool) :=
  let stop := mret (None, false) in
  unless_cancelled c stop (
  err ← releaseTimeoutPathLock t snapshot;
  match err with
  | Some _ => mret (err, true)
  | None =>
      unless_cancelled c stop (
      now ← call Now;
      unless_cancelled c stop (
      call (Go (GoAdoptResume (mkRecoverInput t (SessionRef_ snapshot) RecoveryOriginTimeout now) noClaim));;
      mret (None, true)))
  end).

(** A living process with a known identity is terminated by a goroutine. *)
Definition terminate_later (c : bool) (t : TaskID) (snapshot : TaskSnapshot) (g : goroutine) : M outcome :=
  if is_none (PID snapshot) then unlock_and_register c t snapshot OutcomeDeferred
  else
    call (Unlock t);;
    unless_cancelled c (mret None) (
    registered ← registerPending t snapshot;
    if negb registered then mret (Some OutcomeError) else
    unless_cancelled c (mret None) (call (Go g);; mret (Some OutcomeDeferred))).

Definition adoptTimeoutLocked (c : bool) (t : TaskID) (snapshot : TaskSnapshot) : M outcome :=
  let stop := unlocked t None in
  unless_cancelled c stop (
  dead ← call (CheckDead t);
  unless_cancelled c stop
  match dead with
  | Err _ => unlock_and_register c t snapshot OutcomeError
  | Ok true =>
      call (Unlock t);;
      '(err, completed) ← startTimeoutRecovery c t snapshot;
      if negb completed then mret None else
      match err with
      | Some _ =>
          reconcilePendingAfterFailure c t pendingFailureAfterConfirmedDeath;;
          mret (Some OutcomeError)
      | None => mret (Some OrphanRecoveryStarted)
      end
  | Ok false => terminate_later c t snapshot (GoConfirmTimeoutTermination t snapshot)
  end).

(** ** A cancellation *)

Definition adoptCancellingLocked (c : bool) (t : TaskID) (snapshot : TaskSnapshot) : M outcome :=
  let stop := unlocked t None in
  occurredAt ← call Now;
  unless_cancelled c stop (
  dead ← call (CheckDead t);
  unless_cancelled c stop (
  let gone := match dead with Ok dead => dead | Err err => errors_Is err (Domain ErrTaskNotFound) end in
  if gone then
    call (Unlock t);;
    unless_cancelled c (mret None) (
    err ← ConfirmKilled t cancelledExitCode true occurredAt;
    match err with
    | Some _ =>
        unless_cancelled c (mret None) (
        reconcilePendingAfterFailure c t pendingFailureAfterConfirmedDeath;;
        mret (Some OutcomeError))
    | None => mret (Some Reconciled)
    end)
  else match dead with
  | Err _ => unlock_and_register c t snapshot OutcomeError
  | Ok _ => terminate_later c t snapshot (GoConfirmCancellationTermination t snapshot)
  end)).

(** ** Everything else *)

(** The resume use case is never absent: the constructor refuses to build without it. *)
Definition recoverOrphan (c : bool) (t : TaskID) (sessionRef : option SessionRef) (occurredAt : Time) : M outcome :=
  result ← Handle c (mkOrphanInput t sessionRef true occurredAt);
  unless_cancelled c (mret None)
    (mret (Some (if Finalized result then OrphanRecovered
                 else if RecoveryStarted result then OrphanRecoveryStarted
                 else OutcomeError))).

(** A task that was starting, running, stalled or adopted by an earlier run. *)
Definition adopt_live (c : bool) (t : TaskID) (snapshot : TaskSnapshot) (observedAt : Time) : M outcome :=
  let stop := unlocked t None in
  let failed := unlocked t (Some OutcomeError) in
  unless_cancelled c stop (
  dead ← call (CheckDead t);
  unless_cancelled c stop
  match dead with
  | Err _ => failed
  | Ok dead =>
    match SnapshotRestore snapshot with
    | Err _ => failed
    | Ok task =>
      match Task_Adopt dead observedAt task with
      | (_, Err _) => failed
      | (task, Ok events) =>
        match WithTask snapshot task observedAt with
        | Err _ => failed
        | Ok updated =>
          unless_cancelled c stop (
          saveErr ← call (Save t updated);
          match saveErr with
          | Some _ => unless_cancelled c stop failed
          | None =>
              unless_cancelled c stop (
              (if bool_decide (State snapshot = StateStalled) then call (LeaveStalled t observedAt) else mret tt);;
              unless_cancelled c stop (
              stopped ← noted c (WriteAdoptedMarker t observedAt);
              if stopped : bool then stop else
              completed ← append_unless_cancelled c t events;
              if negb completed then stop else
              call (Unlock t);;
              if negb dead then mret (Some ResumedMonitoring)
              else unless_cancelled c (mret None) (recoverOrphan c t (SessionRef_ snapshot) observedAt)))
          end)
        end
      end
    end
  end).

Definition adoptOne (c : bool) (t : TaskID) (listed : TaskSnapshot) (observedAt : Time) : M outcome :=
  let stop := unlocked t None in
  call (Lock t);;
  unless_cancelled c stop (
  loaded ← call (Load t);
  unless_cancelled c stop
  match loaded with
  | Err err =>
      if negb (errors_Is err (Domain ErrTaskNotFound)) then
        unless_cancelled c stop (
        registerPending t listed;;
        unless_cancelled c stop (unlocked t (Some OutcomeError)))
      else unlocked t (Some OutcomeError)
  | Ok snapshot =>
      if negb (isAdoptionState (State snapshot)) then unlocked t (Some Reconciled)
      else match State snapshot with
           | StateRecovering => adoptRecoveringLocked c t snapshot observedAt
           | StateTimeout => adoptTimeoutLocked c t snapshot
           | StateOrphaned =>
               call (Unlock t);;
               unless_cancelled c (mret None) (recoverOrphan c t (SessionRef_ snapshot) observedAt)
           | StateCancelling => adoptCancellingLocked c t snapshot
           | _ => adopt_live c t snapshot observedAt
           end
  end).

Fixpoint adopt_each (c : bool) (observedAt : Time) (snapshots : list TaskSnapshot)
    (outcomes : list (TaskID * adoptionOutcome)) : M (list (TaskID * adoptionOutcome)) :=
  match snapshots with
  | [] => mret outcomes
  | snapshot :: snapshots =>
      unless_cancelled c (mret outcomes) (
      o ← adoptOne c (TaskID_ snapshot) snapshot observedAt;
      match o with
      | None => mret outcomes
      | Some o => adopt_each c observedAt snapshots (outcomes ++ [(TaskID_ snapshot, o)])
      end)
  end.

Definition elapsed (startedAt : Time) (outcomes : list (TaskID * adoptionOutcome)) : M AdoptRunningTasksOutput :=
  now ← call Now;
  mret (mkAdoptOutput outcomes (Milliseconds (Sub now startedAt))).

(** Later entries of the same task replace earlier ones, as in a Go map. *)
Definition reservations_of (snapshots : list TaskSnapshot) : gmap TaskID Subcommand :=
  fold_left (fun m s => <[TaskID_ s := Subcommand_ s]> m) snapshots ∅.

Definition Adopt_Execute (c : bool) : M (res AdoptRunningTasksOutput) :=
  startedAt ← call Now;
  let stop := out ← elapsed startedAt []; mret (Ok out) in
  unless_cancelled c stop (
  listed ← call (ListByStates adoptionStates);
  match listed with
  | Err err => mret (Err err)
  | Ok snapshots =>
      unless_cancelled c stop (
      unless_cancelled c stop (
      call (ResetSlots (reservations_of snapshots));;
      unless_cancelled c stop (
      outcomes ← adopt_each c startedAt snapshots [];
      out ← elapsed startedAt outcomes;
      mret (Ok out))))
  end).

(** ** Its goroutines *)

Definition handleUnconfirmedTermination (claim : SendClaim) (result : TerminationAttemptResult) : M unit :=
  match TerminateErr result with
  | None => call (PendComplete claim);; mret tt
  | Some err =>
      if errors_Is err ErrProcessSignalAuthorityInvalid then call (PendInvalidate claim);; mret tt
      else releaseOrInvalidateSendAfterTerminationError claim
  end.

(** The part the two confirmations share: [next] runs with the latest snapshot once
    the process is dead and the claim still holds. *)
Definition confirm_termination (t : TaskID) (snapshot : TaskSnapshot) (grace : Duration)
    (next : TaskSnapshot -> SendClaim -> M unit) : M unit :=
  match processSignalAuthority snapshot with
  | None => registerPending t snapshot;; mret tt
  | Some authority =>
      '(claim, outcome) ← call (PendClaim false t authority);
      match outcome with
      | ClaimAcquired =>
          result ← call (SendConfirm t authority grace);
          if negb (Dead result) then handleUnconfirmedTermination claim result
          else
            latest ← currentClaimAuthority claim;
            match latest with
            | None => call (PendInvalidate claim);; mret tt
            | Some latest => next latest claim
            end
      | _ => mret tt
      end
  end.

Definition confirmTimeoutTermination (t : TaskID) (snapshot : TaskSnapshot) (grace : Duration) : M unit :=
  confirm_termination t snapshot grace (fun latest claim =>
    call Now;;
    err ← releaseTimeoutPathLock t latest;
    match err with
    | Some _ => call (PendInvalidate claim);; mret tt
    | None =>
        now ← call Now;
        call (Go (GoAdoptResume (mkRecoverInput t (SessionRef_ latest) RecoveryOriginTimeout now) claim))
    end).

Definition confirmCancellationTermination (t : TaskID) (snapshot : TaskSnapshot) (grace : Duration) : M unit :=
  confirm_termination t snapshot grace (fun latest claim =>
    confirmedAt ← call Now;
    err ← ConfirmKilled t cancelledExitCode true confirmedAt;
    match err with
    | Some _ => call (PendInvalidate claim);; mret tt
    | None => call (PendRemoveClaim claim);; mret tt
    end).

Definition adopt_resumeRecovery (r : resumeRecoverer) (i : RecoverViaResumeInput) (claim : SendClaim) : M unit :=
  '(_, err) ← Recover_Execute r false i;
  let owns := negb (cl_Token claim =? 0) in
  match err with
  | Some _ =>
      if owns then call (PendInvalidate claim);; mret tt
      else reconcilePendingAfterFailure false (r_TaskID i) pendingFailureAfterConfirmedDeath
  | None => if owns then call (PendRemoveClaim claim);; mret tt else call (PendRemove (r_TaskID i))
  end.

(** ** Lemmas *)

Lemma registerPending_keeps t s m c : keeps m c m c (registerPending t s).
Proof. unfold registerPending. solve_keeps. Qed.
#[export] Hint Resolve registerPending_keeps : keeps.

Lemma registerPendingConfirmOnly_keeps t m c : keeps m c m c (registerPendingConfirmOnly t).
Proof. unfold registerPendingConfirmOnly. solve_keeps. Qed.
#[export] Hint Resolve registerPendingConfirmOnly_keeps : keeps.

Lemma unlock_and_register_keeps b t s o c : keeps (Some t) c None c (unlock_and_register b t s o).
Proof. unfold unlock_and_register. solve_keeps. Qed.
#[export] Hint Resolve unlock_and_register_keeps : keeps.

Lemma terminate_later_keeps b t s g : goroutine_claim g = None -> keeps (Some t) None None None (terminate_later b t s g).
Proof.
  intros Hg. unfold terminate_later. solve_keeps. by apply keeps_Go.
Qed.

Lemma releaseTimeoutPathLock_keeps t s m c : keeps m c m c (releaseTimeoutPathLock t s).
Proof. unfold releaseTimeoutPathLock. solve_keeps. Qed.
#[export] Hint Resolve releaseTimeoutPathLock_keeps : keeps.

Lemma startTimeoutRecovery_keeps b t s : keeps None None None None (startTimeoutRecovery b t s).
Proof. unfold startTimeoutRecovery. solve_keeps. Qed.
#[export] Hint Resolve startTimeoutRecovery_keeps : keeps.

Lemma adoptTimeoutLocked_keeps b t s : keeps (Some t) None None None (adoptTimeoutLocked b t s).
Proof. unfold adoptTimeoutLocked. solve_keeps. by apply terminate_later_keeps. Qed.

Lemma adoptCancellingLocked_keeps b t s : keeps (Some t) None None None (adoptCancellingLocked b t s).
Proof. unfold adoptCancellingLocked. solve_keeps; by apply terminate_later_keeps. Qed.

Lemma recoverOrphan_keeps b t ref at_ : keeps None None None None (recoverOrphan b t ref at_).
Proof. unfold recoverOrphan. solve_keeps. Qed.
#[export] Hint Resolve adoptTimeoutLocked_keeps adoptCancellingLocked_keeps recoverOrphan_keeps : keeps.

Lemma adoptRecoveringLocked_knows b t s at_ : knows t (Ok s) None None None (adoptRecoveringLocked b t s at_).
Proof.
  unfold adoptRecoveringLocked. apply knows_unless; [apply keeps_unlocked|]. apply knows_bind; [done|]. intros dead.
  apply knows_unless; [apply keeps_unlocked|]. destruct dead as [[]|]; [|apply knows_keeps; solve_keeps..].
  apply knows_unless; [apply keeps_unlocked|]. apply knows_bind; [done|]. intros present.
  apply knows_unless; [apply keeps_unlocked|]. destruct present as [present|]; [|apply knows_keeps; solve_keeps].
  eapply knows_then; [apply resolveRecovering_knows|]. intros [err completed].
  solve_keeps. apply release_recovering_keeps; solve_keeps.
Qed.

Lemma adopt_live_knows b t s at_ : knows t (Ok s) None None None (adopt_live b t s at_).
Proof.
  unfold adopt_live. apply knows_unless; [apply keeps_unlocked|]. apply knows_bind; [done|]. intros dead.
  apply knows_unless; [apply keeps_unlocked|]. destruct dead as [dead|]; [|apply knows_keeps; solve_keeps].
  destruct (SnapshotRestore s) as [task|err] eqn:Hr; [|apply knows_keeps; solve_keeps].
  destruct (Task_Adopt dead at_ task) as [task' [evs|err]] eqn:Hop; [|apply knows_keeps; solve_keeps].
  destruct (WithTask s task' at_) as [u|err] eqn:Hu; [|apply knows_keeps; solve_keeps].
  apply knows_unless; [apply keeps_unlocked|].
  apply (knows_save (OpAdopt dead at_) _ _ _ _ _ _ _ _ _ _ _ Hr Hop Hu eq_refl). intros saved. solve_keeps.
Qed.

Lemma adoptOne_keeps b t s at_ : keeps None None None None (adoptOne b t s at_).
Proof.
  unfold adoptOne. eapply keeps_bind; [apply keeps_Lock|]. intros _. apply keeps_unless; [apply keeps_unlocked|].
  apply keeps_Load. intros r. apply knows_unless; [apply keeps_unlocked|].
  destruct r as [snapshot|err]; [|apply knows_keeps; solve_keeps].
  destruct (negb _); [apply knows_keeps; solve_keeps|].
  destruct (State snapshot); try apply adopt_live_knows; try apply adoptRecoveringLocked_knows; apply knows_keeps; solve_keeps.
Qed.
#[export] Hint Resolve adoptOne_keeps : keeps.

Lemma adopt_each_keeps b at_ ss os : keeps None None None None (adopt_each b at_ ss os).
Proof. revert os. induction ss as [|s ss IH]; intros os; cbn [adopt_each]; solve_keeps; apply IH. Qed.

Lemma elapsed_keeps at_ os m c : keeps m c m c (elapsed at_ os).
Proof. unfold elapsed. solve_keeps. Qed.
#[export] Hint Resolve adopt_each_keeps elapsed_keeps : keeps.

Lemma Adopt_keeps b : keeps None None None None (Adopt_Execute b).
Proof. unfold Adopt_Execute. solve_keeps. Qed.

Lemma handleUnconfirmedTermination_keeps claim r :
  keeps None (real_claim claim) None None (handleUnconfirmedTermination claim r).
Proof. unfold handleUnconfirmedTermination. solve_keeps. Qed.
#[export] Hint Resolve handleUnconfirmedTermination_keeps : keeps.

Lemma confirm_termination_keeps t s grace next :
  (forall latest claim, keeps None (real_claim claim) None None (next latest claim)) ->
  keeps None None None None (confirm_termination t s grace next).
Proof.
  intros Hn. unfold confirm_termination. destruct (processSignalAuthority s); [|solve_keeps].
  apply keeps_claim. intros cl out. unfold currentClaimAuthority.
  destruct (bool_decide_reflect (out = ClaimAcquired)) as [->|]; [|by destruct out; solve_keeps]. solve_keeps.
Qed.

Lemma confirmTimeoutTermination_keeps t s grace : keeps None None None None (confirmTimeoutTermination t s grace).
Proof. apply confirm_termination_keeps. intros latest claim. solve_keeps. Qed.

Lemma confirmCancellationTermination_keeps t s grace : keeps None None None None (confirmCancellationTermination t s grace).
Proof. apply confirm_termination_keeps. intros latest claim. solve_keeps. Qed.

Lemma adopt_resumeRecovery_keeps r i claim : keeps None (real_claim claim) None None (adopt_resumeRecovery r i claim).
Proof. unfold adopt_resumeRecovery. solve_keeps. Qed.
