(* ===== verification/Monitor.v ===== *)
(** * Watching a running task ([internal/execution/monitor.go],
    [internal/execution/usecase/monitor.go], [.../stallcheck.go],
    [.../confirmrunning.go], [.../recordprocess.go], [.../recordstarting.go])

    The events that codex writes keep a task running, silence makes it stalled, a
    dead process an orphan; before that, its start and its process are recorded. *)

From S2P Require Import Prelude.
From S2P Require Import Errors.
From S2P Require Import Domain.
From S2P Require Import Task.
From S2P Require Import Snapshot.
From S2P Require Import Effects.
From S2P Require Import Daemon.
From S2P Require Import Reconcile.

(** ** The event stream *)

Definition knownEventTypes : list string :=
  ["thread.started"; "turn.started"; "item.started"; "item.completed"; "turn.completed"; "turn.failed"].

Definition appendRaw (t : TaskID) (typ raw : string) : M unit := call (AppendRawEvent t typ raw);; mret tt.

Definition observeKnown (t : TaskID) (typ raw : string) : M unit :=
  call (Lock t);;
  loaded ← call (Load t);
  match loaded with
  | Err _ => unlocked t tt
  | Ok snapshot =>
    match SnapshotRestore snapshot with
    | Err _ => unlocked t tt
    | Ok task =>
      now ← call Now;
      match Task_ObserveEvent typ now task with
      | (_, Err _) => appendRaw t typ raw;; unlocked t tt
      | (task, Ok events) =>
        match WithTask snapshot task now with
        | Err _ => appendRaw t typ raw;; unlocked t tt
        | Ok updated =>
          saved ← call (Save t updated);
          (if is_none saved && bool_decide (State snapshot = StateStalled) then call (LeaveStalled t now) else mret tt);;
          appendRaw t typ raw;;
          (if is_none saved then append_events t events else mret tt);;
          unlocked t tt
        end
      end
    end
  end.

(** The type under which a valid line is handled. *)
Definition line_type (typ : option string) : string :=
  match typ with Some s => if (s =? "")%string then "unknown" else s | None => "unknown" end.

(** [ObserveEvents], for at most [fuel] lines; the calls of the context are those of
    the loop itself. *)
Fixpoint ObserveEvents (fuel : nat) (t : TaskID) : M (option error) :=
  match fuel with
  | O => mret None
  | S fuel =>
      cancelled ← call CtxErr;
      if is_some cancelled then mret cancelled else
      item ← call (NextLine t);
      cancelled ← call CtxErr;
      if is_some cancelled then mret cancelled else
      match item with
      | EndOfStream err =>
          cancelled ← call CtxErr;
          if is_some cancelled then mret cancelled else mret err
      | Line raw json typ =>
          (if json then
             if bool_decide (line_type typ ∈ knownEventTypes) then observeKnown t (line_type typ) raw
             else appendRaw t (line_type typ) raw
           else mret tt);;
          cancelled ← call CtxErr;
          if is_some cancelled then mret cancelled else ObserveEvents fuel t
      end
  end.

(** ** The stall check *)

Definition stallThreshold : Duration := 1200 * Second.

(** The gap in whole seconds, rounded up. *)
Definition stall_gap (elapsed : Duration) : Z :=
  let gap := wrap_int64 (Z.quot elapsed Second) in
  if Z.rem elapsed Second =? 0 then gap else wrap_int64 (gap + 1).

Definition persist (t : TaskID) (snapshot : TaskSnapshot) (task : Task) (events : list Domain.Event) (now : Time) : M bool :=
  match WithTask snapshot task now with
  | Err _ => mret false
  | Ok updated =>
      saveErr ← call (Save t updated);
      match saveErr with
      | Some _ => mret false
      | None =>
          (if bool_decide (State snapshot = StateRunning) && bool_decide (State updated = StateStalled)
           then call (EnterStalled t now) else mret tt);;
          (if bool_decide (State snapshot = StateStalled) && bool_decide (State updated = StateOrphaned)
           then call (LeaveStalled t now) else mret tt);;
          append_events t events;;
          mret true
      end
  end.

Definition orphan (t : TaskID) (snapshot : TaskSnapshot) (task : Task) (now : Time) : M bool :=
  match Task_DetectOrphan "running" now task with
  | (_, Err _) => mret false
  | (task, Ok events) => persist t snapshot task events now
  end.

Definition stall (t : TaskID) (snapshot : TaskSnapshot) (task : Task) (gap : Z) (now : Time) : M unit :=
  match Task_MarkStalled gap now task with
  | (_, Err _) => mret tt
  | (task, Ok events) => persist t snapshot task events now;; mret tt
  end.

(** When the task was last heard of. *)
Definition silent_since (s : TaskSnapshot) : option Time :=
  match LastEventAt s with Some at_ => Some at_ | None => ProcessStartedAt s end.

(** The part of [checkOne] once it is known whether the process is dead. *)
Definition check_live (c : bool) (t : TaskID) (snapshot : TaskSnapshot) (task : Task) (now : Time) (dead : bool) : M unit :=
  unless_cancelled c (unlocked t tt) (
  if dead then
    persisted ← orphan t snapshot task now;
    call (Unlock t);;
    (if persisted : bool then Handle c (mkOrphanInput t (SessionRef_ snapshot) (AdoptedAfterRestart snapshot) now);; mret tt
     else mret tt)
  else
    match silent_since snapshot with
    | None => unlocked t tt
    | Some start =>
        let elapsed := Sub now start in
        if elapsed <=? stallThreshold then unlocked t tt
        else stall t snapshot task (stall_gap elapsed) now;; unlocked t tt
    end).

Definition checkOne (c : bool) (t : TaskID) : M unit :=
  ownedBeforeLock ← call (LifecycleOwned t);
  call (Lock t);;
  ownedAfterLock ← call (LifecycleOwned t);
  loaded ← call (Load t);
  match loaded with
  | Err _ => unlocked t tt
  | Ok snapshot =>
    match SnapshotRestore snapshot with
    | Err _ => unlocked t tt
    | Ok task =>
      if negb (bool_decide (t_state task = StateRunning)) && negb (bool_decide (t_state task = StateStalled))
      then unlocked t tt
      else
        now ← call Now;
        if negb ownedBeforeLock && negb ownedAfterLock then
          dead ← call (CheckDead t);
          match dead with
          | Err _ => unlocked t tt
          | Ok dead => check_live c t snapshot task now dead
          end
        else check_live c t snapshot task now false
    end
  end.

Fixpoint check_each (c : bool) (snapshots : list TaskSnapshot) : M unit :=
  match snapshots with
  | [] => mret tt
  | s :: snapshots => unless_cancelled c (mret tt) (checkOne c (TaskID_ s);; check_each c snapshots)
  end.

Definition scan (c : bool) : M unit :=
  listed ← call (ListByStates [StateRunning; StateStalled]);
  match listed with
  | Err _ => mret tt
  | Ok snapshots => check_each c snapshots
  end.

(** ** Confirmation that a started task runs *)

(** The transition, with no events if the process is alive. *)
Definition running_or_orphan (dead : bool) (occurredAt : Time) (task : Task) : Task * res (list Domain.Event) :=
  if dead then Task_DetectOrphan "starting" occurredAt task
  else match Task_ConfirmRunning occurredAt task with
       | (task, Ok _) => (task, Ok [])
       | (task, Err err) => (task, Err err)
       end.

(** [ConfirmTaskRunningOutput] or an error. *)
Definition ConfirmRunning_Execute (t : TaskID) (occurredAt : Time) : M (res (bool * TaskState)) :=
  if IsZero occurredAt then mret (Err (Errorf "confirm task running occurred at is required" []))
  else
    call (Lock t);;
    loaded ← call (Load t);
    match loaded with
    | Err err => unlocked t (Err err)
    | Ok snapshot =>
      match SnapshotRestore snapshot with
      | Err err => unlocked t (Err err)
      | Ok task =>
        if bool_decide (t_state task = StateCancelling) then unlocked t (Ok (false, StateCancelling))
        else
          dead ← call (CheckDead t);
          match dead with
          | Err err => unlocked t (Err err)
          | Ok dead =>
            match running_or_orphan dead occurredAt task with
            | (_, Err err) => unlocked t (Err err)
            | (task, Ok events) =>
              match WithTask snapshot task occurredAt with
              | Err err => unlocked t (Err err)
              | Ok updated =>
                  saveErr ← call (Save t updated);
                  match saveErr with
                  | Some err => unlocked t (Err err)
                  | None =>
                      append_events t events;;
                      unlocked t (Ok (dead, t_state task))
                  end
              end
            end
          end
      end
    end.

(** ** What is recorded at a launch *)

Definition wrapTaskStoreSaveError (err : error) : error := Wrap "%w: %v" [DErr ErrContractWriteFailed].

(** The caller holds the mutex. *)
Definition RecordProcess_Execute (t : TaskID) (handle : ProcessHandle) (now : Time) : M (option error) :=
  if IsZero now then mret (Some (Errorf "record task process now is required" []))
  else
    loaded ← call (Load t);
    match loaded with
    | Err err => mret (Some err)
    | Ok snapshot =>
      match SnapshotRestore snapshot with
      | Err err => mret (Some err)
      | Ok restored =>
        match Task_RecordProcessInfo (ph_PID handle) (ph_ProcessStartedAt handle) now restored with
        | (_, Err err) => mret (Some err)
        | (restored, Ok events) =>
          match WithTask snapshot restored now with
          | Err err => mret (Some err)
          | Ok newSnapshot =>
              saveErr ← call (Save t newSnapshot);
              match saveErr with
              | Some err => mret (Some (wrapTaskStoreSaveError err))
              | None => append_events t events;; mret None
              end
          end
        end
      end
    end.

Record RecordStartingInput : Type := mkStartingInput {
  rt_ResolvedTimeout : Timeout;
  rt_Model : string;
  rt_ReasoningEffort : option string;
  rt_SandboxMode : string;
  rt_WorkingDir : string;
  rt_Route : ExecutionRoute;
  rt_PromptText : string;
  rt_Now : Time }.

Definition validateRecordTaskStartingInput (i : RecordStartingInput) : option error :=
  if to_resolvedSeconds (rt_ResolvedTimeout i) <=? 0
  then Some (Errorf "record task starting resolved timeout is required" [])
  else if (rt_Model i =? "")%string then Some (Errorf "record task starting model is required" [])
  else if negb (IsValidSandboxMode (rt_SandboxMode i)) then Some (Errorf "record task starting sandbox mode is invalid" [])
  else if (rt_WorkingDir i =? "")%string then Some (Errorf "record task starting working directory is required" [])
  else if (rt_PromptText i =? "")%string then Some (Errorf "record task starting prompt text is required" [])
  else if negb (bool_decide (rt_Route i = ExecutionRouteDaemon)) then Some (Errorf "record task starting route must be daemon" [])
  else if IsZero (rt_Now i) then Some (Errorf "record task starting now is required" [])
  else match NewNormalizedPath (rt_WorkingDir i) with Ok _ => None | Err err => Some err end.

(** The task of the caller, which [Start] changes, and the error. *)
Definition RecordStarting_Execute (i : RecordStartingInput) (task : Task) : M (Task * option error) :=
  match validateRecordTaskStartingInput i with
  | Some err => mret (task, Some err)
  | None =>
    match Task_Start (rt_ResolvedTimeout i) (rt_Model i) (rt_Now i) task with
    | (task, Err err) => mret (task, Some err)
    | (task, Ok _) =>
        promptErr ← call (WritePrompt (t_id task) (rt_PromptText i));
        match promptErr with
        | Some err => mret (task, Some err)
        | None =>
          match WithTask (NewInitialTaskSnapshot (rt_Route i) (rt_ReasoningEffort i) (rt_SandboxMode i) (Some (rt_WorkingDir i)))
                  task (rt_Now i) with
          | Err err => mret (task, Some err)
          | Ok snapshot =>
              saveErr ← call (Save (t_id task) snapshot);
              mret (task, match saveErr with Some err => Some (wrapTaskStoreSaveError err) | None => None end)
          end
        end
    end
  end.

(** ** Lemmas *)

Lemma appendRaw_keeps t typ raw m c : keeps m c m c (appendRaw t typ raw).
Proof. unfold appendRaw. solve_keeps. Qed.
#[export] Hint Resolve appendRaw_keeps : keeps.

Lemma observeKnown_keeps t typ raw c : keeps None c None c (observeKnown t typ raw).
Proof.
  unfold observeKnown. eapply keeps_bind; [apply keeps_Lock|]. intros _. apply keeps_Load. intros [s|err]; [|apply knows_keeps; solve_keeps].
  destruct (SnapshotRestore s) as [task|err] eqn:Hr; [|apply knows_keeps; solve_keeps].
  apply knows_bind; [done|]. intros now.
  destruct (Task_ObserveEvent typ now task) as [task' [evs|err]] eqn:Hop; [|apply knows_keeps; solve_keeps].
  destruct (WithTask s task' now) as [u|err] eqn:Hu; [|apply knows_keeps; solve_keeps].
  apply (knows_save (OpObserveEvent typ now) _ _ _ _ _ _ _ _ _ _ _ Hr Hop Hu eq_refl). intros saved. solve_keeps.
Qed.
#[export] Hint Resolve observeKnown_keeps : keeps.

Lemma ObserveEvents_keeps fuel t c : keeps None c None c (ObserveEvents fuel t).
Proof. induction fuel as [|fuel IH]; cbn [ObserveEvents]; solve_keeps. Qed.

Lemma persist_knows op t s task task' evs at_ c :
  SnapshotRestore s = Ok task -> Task.run_op op task = (task', Ok evs) -> ends_process op = false ->
  knows t (Ok s) c (Some t) c (persist t s task' evs at_).
Proof.
  intros Hr Hop He. unfold persist. destruct (WithTask s task' at_) as [u|err] eqn:Hu; [|apply knows_keeps; solve_keeps].
  apply (knows_save op _ _ _ _ _ _ _ _ _ _ _ Hr Hop Hu He). intros saved. solve_keeps.
Qed.

Lemma orphan_knows t s task at_ c : SnapshotRestore s = Ok task -> knows t (Ok s) c (Some t) c (orphan t s task at_).
Proof.
  intros Hr. unfold orphan. destruct (Task_DetectOrphan "running" at_ task) as [task' [evs|err]] eqn:Hop.
  - by apply (persist_knows (OpDetectOrphan "running" at_) _ _ task).
  - apply knows_keeps. solve_keeps.
Qed.

Lemma stall_knows t s task gap at_ c : SnapshotRestore s = Ok task -> knows t (Ok s) c (Some t) c (stall t s task gap at_).
Proof.
  intros Hr. unfold stall. destruct (Task_MarkStalled gap at_ task) as [task' [evs|err]] eqn:Hop.
  - eapply knows_then; [by apply (persist_knows (OpMarkStalled gap at_) _ _ task)|]. intros b. solve_keeps.
  - apply knows_keeps. solve_keeps.
Qed.

Lemma check_live_knows b t s task at_ dead :
  SnapshotRestore s = Ok task -> knows t (Ok s) None None None (check_live b t s task at_ dead).
Proof.
  intros Hr. unfold check_live. apply knows_unless; [apply keeps_unlocked|]. destruct dead.
  - eapply knows_then; [by apply orphan_knows|]. intros persisted. solve_keeps.
  - destruct (silent_since s) as [start|]; [|apply knows_keeps; solve_keeps].
    cbv zeta. destruct (_ <=? _); [apply knows_keeps; solve_keeps|].
    eapply knows_then; [by apply stall_knows|]. intros _. solve_keeps.
Qed.

Lemma checkOne_keeps b t : keeps None None None None (checkOne b t).
Proof.
  unfold checkOne. eapply keeps_bind; [by apply keeps_anywhere|]. intros before.
  eapply keeps_bind; [apply keeps_Lock|]. intros _. eapply keeps_bind; [by apply keeps_anywhere|]. intros after.
  apply keeps_Load. intros [s|err]; [|apply knows_keeps; solve_keeps].
  destruct (SnapshotRestore s) as [task|err] eqn:Hr; [|apply knows_keeps; solve_keeps].
  destruct (_ && _); [apply knows_keeps; solve_keeps|]. apply knows_bind; [done|]. intros now.
  destruct (_ && _); [|by apply check_live_knows]. apply knows_bind; [done|].
  intros [dead|err]; [by apply check_live_knows|apply knows_keeps; solve_keeps].
Qed.
#[export] Hint Resolve checkOne_keeps : keeps.

Lemma check_each_keeps b ss : keeps None None None None (check_each b ss).
Proof. induction ss as [|s ss IH]; cbn [check_each]; solve_keeps. Qed.
#[export] Hint Resolve check_each_keeps : keeps.

Lemma scan_keeps b : keeps None None None None (scan b).
Proof. unfold scan. solve_keeps. Qed.

Lemma running_or_orphan_run dead at_ task task' evs :
  running_or_orphan dead at_ task = (task', Ok evs) ->
  exists op, Task.run_op op task = (task', Ok evs) /\ ends_process op = false.
Proof.
  unfold running_or_orphan. destruct dead; intros H; [by exists (OpDetectOrphan "starting" at_)|].
  exists (OpConfirmRunning at_). split; [|done]. cbn [Task.run_op].
  unfold mbind, ST_mbind. destruct (Task_ConfirmRunning at_ task) as [t1 [[]|e]]; by simplify_eq.
Qed.

Lemma ConfirmRunning_keeps t at_ c : keeps None c None c (ConfirmRunning_Execute t at_).
Proof.
  unfold ConfirmRunning_Execute. destruct (IsZero at_); [apply keeps_ret|].
  eapply keeps_bind; [apply keeps_Lock|]. intros _. apply keeps_Load. intros [s|err]; [|apply knows_keeps; solve_keeps].
  destruct (SnapshotRestore s) as [task|err] eqn:Hr; [|apply knows_keeps; solve_keeps].
  destruct (bool_decide _); [apply knows_keeps; solve_keeps|]. apply knows_bind; [done|].
  intros [dead|err]; [|apply knows_keeps; solve_keeps].
  destruct (running_or_orphan dead at_ task) as [task' [evs|err]] eqn:Hop; [|apply knows_keeps; solve_keeps].
  apply running_or_orphan_run in Hop as (op & Hop & He).
  destruct (WithTask s task' at_) as [u|err] eqn:Hu; [|apply knows_keeps; solve_keeps].
  apply (knows_save op _ _ _ _ _ _ _ _ _ _ _ Hr Hop Hu He). intros saved. solve_keeps.
Qed.

Lemma RecordProcess_keeps t handle now c : keeps (Some t) c (Some t) c (RecordProcess_Execute t handle now).
Proof.
  unfold RecordProcess_Execute. destruct (IsZero now); [apply keeps_ret|].
  apply keeps_Load. intros [s|err]; [|apply knows_keeps; solve_keeps].
  destruct (SnapshotRestore s) as [task|err] eqn:Hr; [|apply knows_keeps; solve_keeps].
  destruct (Task_RecordProcessInfo _ _ now task) as [task' [evs|err]] eqn:Hop; [|apply knows_keeps; solve_keeps].
  destruct (WithTask s task' now) as [u|err] eqn:Hu; [|apply knows_keeps; solve_keeps].
  apply (knows_save (OpRecordProcessInfo (ph_PID handle) (ph_ProcessStartedAt handle) now) _ _ _ _ _ _ _ _ _ _ _ Hr Hop Hu eq_refl).
  intros saved. solve_keeps.
Qed.
#[export] Hint Resolve ObserveEvents_keeps ConfirmRunning_keeps RecordProcess_keeps : keeps.

(** The first save of a task is made by its life cycle, with no mutex. *)
Lemma RecordStarting_ok i task h c Q :
  st None c h -> owner h = Some (t_id task) ->
  (forall h' r, st None c h' -> owner h' = Some (t_id task) -> t_id r.1 = t_id task -> Q h' r) ->
  wpd (RecordStarting_Execute i task) h Q.
Proof.
  intros Hst Ho HQ. unfold RecordStarting_Execute. destruct (validateRecordTaskStartingInput i) as [err|]; [by apply HQ|].
  destruct (Task_Start _ _ _ task) as [task' r] eqn:Hop.
  assert (t_id task' = t_id task /\ (is_ok r = true -> t_state task' = StateStarting)) as [Hid Hstate].
  { unfold Task_Start, Task_transition in Hop. unfold_monads. by destruct_matches. }
  destruct r as [evs|err]; [|by apply HQ].
  assert (forall x, st None c (Ev (WritePrompt (t_id task') (rt_PromptText i)) x :: h)) as Hst'.
  { intros x. destruct Hst as (Hok & Hm & Hc). by repeat split. }
  intros [err|]; wp_cbn; [by apply HQ|].
  destruct (WithTask _ task' _) as [u|err] eqn:Hu; [|by apply HQ]. apply WithTask_state in Hu as [Hsu _].
  intros err. wp_cbn. apply HQ; [|done|done]. destruct (Hst' None) as (Hok & Hm & Hc). repeat split; try done; [|apply Hst].
  right. split; [done|]. split; [by rewrite Hid|]. rewrite Hsu. by apply Hstate.
Qed.
