(* ===== verification/Lifecycle.v ===== *)
(** * The life cycle of a task ([internal/execution/usecase/lifecycle.go],
    [.../lifecycle_types.go], [.../launch.go])

    One goroutine drives a task from its start to its end: it records the start,
    creates a worktree, launches codex, records the process, watches its output and
    confirms the end; and at every stage a cancellation or a shutdown may intervene. *)

From S2P Require Import Prelude.
From S2P Require Import GoStrings.
From S2P Require Import Errors.
From S2P Require Import Domain.
From S2P Require Import TaskPaths.
From S2P Require Import Task.
From S2P Require Import Snapshot.
From S2P Require Import Queue.
From S2P Require Import Effects.
From S2P Require Import Pending.
From S2P Require Import Enforce.
From S2P Require Import Daemon.
From S2P Require Import Terminal.
From S2P Require Import Reconcile.
From S2P Require Import Monitor.

(** [TaskLifecycleInput]: the task of the payload, the rest of it, the directory and
    the time. *)
Record TaskLifecycleInput : Type := mkLifecycleInput {
  li_Task : Task;
  li_Payload : TaskLaunchPayload;
  li_TaskDirPath : string;
  li_Now : Time }.

Record TaskLifecycleLaunchConfig : Type := mkLaunchConfig { lc_CodexBinaryPath : string; lc_PTYEnabled : bool }.

(** ** The prompt *)

(** Occurrences of the source directory are found from left to right; one that ends
    the prompt or is followed by a slash becomes the planned directory.  The first
    [skip] characters belong to an occurrence. *)
Fixpoint rewrite_dir (source planned : list ascii) (skip : nat) (l : list ascii) : list ascii :=
  match l with
  | [] => []
  | c :: l' =>
      match skip with
      | S skip => rewrite_dir source planned skip l'
      | O =>
          if list_prefix source l then
            (match drop (length source) l with
             | [] => planned
             | next :: _ => if Ascii.eqb next "/" then planned else source
             end) ++ rewrite_dir source planned (length source - 1) l'
          else c :: rewrite_dir source planned 0 l'
      end
  end.

Definition replaceSourceWorkingDir (prompt sourceWorkingDir plannedWorkingDir : string) : string :=
  if (sourceWorkingDir =? "")%string then prompt
  else of_chars (rewrite_dir (chars sourceWorkingDir) (chars plannedWorkingDir) 0 (chars prompt)).

(** ** Ends *)

Definition waitLaunched (t : TaskID) : M (Z * option error) := call (WaitProcess t).

(** A task found cancelling under its mutex is recorded as killed, or registered if
    that was not possible; the mutex is free at the end. *)
Definition kill_found_cancelling (t : TaskID) (raw : Z) (estimated : bool) : M unit :=
  now ← call Now;
  '(result, _) ← Kill_ExecuteLocked (mkKillInput t raw estimated now);
  call (Unlock t);;
  if Confirmed result then ReleaseAfterConfirmation result t
  else call (PendRegister t PendingSendConfirmOnly None);; mret tt.

(** [launchFailureDetail], without what is only logged *)
Record launchFailureDetail : Type := mkDetail { d_code : string; d_beforeRecordStarting : bool }.

Definition fail_locked (i : TaskLifecycleInput) (task : Task) (workingDir : option string) (code : string) : M unit :=
  let t := t_id task in
  '(result, _) ←
    FailLaunch_ExecuteLocked
      (mkFailInput task (p_ResolvedTimeout (li_Payload i)) (p_Model (li_Payload i)) (p_ReasoningEffort (li_Payload i))
         (p_SandboxMode (li_Payload i)) workingDir code (li_Now i));
  call (Unlock t);;
  if Terminal_ result then ReleaseAfterFailure t (Impl result) else mret tt.

(** The launch has failed.  [task] is the task of the input as it is by now. *)
Definition fail (c : bool) (i : TaskLifecycleInput) (task : Task) (workingDir : option string) (raw : Z) (estimated : bool)
    (detail : launchFailureDetail) : M unit :=
  let t := t_id task in
  call (Lock t);;
  unless_cancelled c (unlocked t tt) (
  loaded ← call (Load t);
  match loaded with
  | Err err =>
      if d_beforeRecordStarting detail && errors_Is err (Domain ErrTaskNotFound)
      then fail_locked i task workingDir (d_code detail)
      else unlocked t tt
  | Ok snapshot =>
      match SnapshotRestore snapshot with
      | Err _ => unlocked t tt
      | Ok found =>
          if bool_decide (t_state found = StateCancelling) then kill_found_cancelling t raw estimated
          else fail_locked i task workingDir (d_code detail)
      end
  end).

(** The wait for the preparation of a finalisation; [fuel] bounds the notifications of
    changes that arrive before it.  [None]: the context has ended; [Some None]: the
    task was found cancelling. *)
Fixpoint await_prepared (fuel : nat) (c : bool) (t : TaskID) : M (option (option (res bool))) :=
  match fuel with
  | O => mret None
  | S fuel =>
      selected ← call (Select t);
      match selected with
      | SelectDone => mret None
      | SelectPrepared r => mret (Some (Some r))
      | SelectChanged =>
          unless_cancelled c (mret None) (
          loaded ← call (Load t);
          unless_cancelled c (mret None)
          match loaded with
          | Ok snapshot =>
              if bool_decide (State snapshot = StateCancelling) then mret (Some None) else await_prepared fuel c t
          | Err _ => await_prepared fuel c t
          end)
      end
  end.

(** The locked part of a task that is not cancelling.  Without a preparation the
    finaliser is given the zero input, which names no task: loading it fails. *)
Definition finalize_prepared (i : FinalizeTaskInput) (prepared : option bool) : M (LockedFinalizeResult * option error) :=
  match prepared with
  | Some present => Finalize_executeLocked i present
  | None => mret (noFinalizeResult, Some errZeroTaskID)
  end.

(** From the label [preparedOrCancelled] on. *)
Definition confirm_prepared (c : bool) (t : TaskID) (raw : Z) (estimated : bool) (occurredAt : Time)
    (skipPrepare : bool) (prepared : option (res bool)) (registerPendingSent : bool) : M unit :=
  unless_cancelled c (mret tt) (
  call (Lock t);;
  unless_cancelled c (unlocked t tt) (
  loaded ← call (Load t);
  unless_cancelled c (unlocked t tt)
  match loaded with
  | Err _ => unlocked t tt
  | Ok snapshot =>
      if bool_decide (State snapshot = StateCancelling) then
        unless_cancelled c (unlocked t tt) (
        now ← call Now;
        unless_cancelled c (unlocked t tt) (
        '(result, _) ← Kill_ExecuteLocked (mkKillInput t raw estimated now);
        call (Unlock t);;
        unless_cancelled c (mret tt)
          (if Confirmed result then ReleaseAfterConfirmation result t
           else if registerPendingSent then call (PendRegister t PendingSendSent None);; mret tt
           else mret tt)))
      else if skipPrepare then unlocked t tt
      else match prepared with
      | Some (Err _) => unlocked t tt
      | Some (Ok _) | None =>
          unless_cancelled c (unlocked t tt) (
          '(result, _) ←
            finalize_prepared (mkFinalizeInput t raw estimated false occurredAt)
              (match prepared with Some (Ok present) => Some present | _ => None end);
          call (Unlock t);;
          unless_cancelled c (mret tt)
            (if RecordExited result then ReleaseAfterFinalization result t else mret tt))
      end
  end)).

(** The part between the subscription and its end. *)
Definition confirm_subscribed (fuel : nat) (c : bool) (t : TaskID) (raw : Z) (estimated : bool) (occurredAt : Time)
    (registerPendingSent : bool) : M unit :=
  unless_cancelled c (mret tt) (
  loaded ← call (Load t);
  let skipPrepare := match loaded with Ok s => bool_decide (State s = StateCancelling) | Err _ => false end in
  unless_cancelled c (mret tt) (
  if skipPrepare then confirm_prepared c t raw estimated occurredAt true None registerPendingSent
  else
    unless_cancelled c (mret tt) (
    prepared ← await_prepared fuel c t;
    match prepared with
    | None => mret tt
    | Some prepared => confirm_prepared c t raw estimated occurredAt false prepared registerPendingSent
    end))).

Definition confirmTerminalWithPending (fuel : nat) (c : bool) (t : TaskID) (raw : Z) (waitErr : option error)
    (registerPendingSent : bool) : M unit :=
  unless_cancelled c (mret tt) (
  let estimated := is_some waitErr in
  let raw := if estimated then 1 else raw in
  occurredAt ← call Now;
  unless_cancelled c (mret tt) (
  call (Subscribe t);;
  confirm_subscribed fuel c t raw estimated occurredAt registerPendingSent;;
  call (Unsubscribe t))).

Definition confirmTerminal (fuel : nat) (c : bool) (t : TaskID) (raw : Z) (waitErr : option error) : M unit :=
  confirmTerminalWithPending fuel c t raw waitErr true.

(** ** Cancellation while starting *)

(** Whether [Run] must stop before the launch. *)
Definition confirmUnlaunchedCancellation (t : TaskID) : M bool :=
  call (Lock t);;
  loaded ← call (Load t);
  match loaded with
  | Err _ => unlocked t true
  | Ok snapshot =>
      match SnapshotRestore snapshot with
      | Err _ => unlocked t true
      | Ok task =>
          if bool_decide (t_state task = StateCancelling) then kill_found_cancelling t 130 true;; mret true
          else unlocked t false
      end
  end.

(** Whether the process of the snapshot, if it has one, is not the one launched. *)
Definition other_process (s : TaskSnapshot) (handle : ProcessHandle) : bool :=
  match PID s with
  | Some pid =>
      negb (pid =? ph_PID handle)
      || match ProcessStartedAt s with Some at_ => negb (at_ =? ph_ProcessStartedAt handle) | None => true end
  | None => false
  end.

(** The claim is kept if the answer is true. *)
Definition prepareStartingClaim (t : TaskID) (handle : ProcessHandle) (generation : Z) (claim : SendClaim) : M bool :=
  let refused := call (Unlock t);; call (PendRemoveClaim claim);; mret false in
  call (Lock t);;
  loaded ← call (Load t);
  match loaded with
  | Err _ => refused
  | Ok snapshot =>
      current ← call (CurrentOwner t);
      if negb (bool_decide (State snapshot = StateCancelling))
         || negb (match current with Some g => g =? generation | None => false end) || other_process snapshot handle
      then refused
      else if is_none (PID snapshot) then
        saveErr ← call (Save t (snapshot <| PID := Some (ph_PID handle) |>
                                         <| ProcessStartedAt := Some (ph_ProcessStartedAt handle) |>));
        match saveErr with
        | Some _ => refused
        | None => unlocked t true
        end
      else unlocked t true
  end.

(** From the claim on: a signal is sent and confirmed, or only confirmed. *)
Definition terminate_starting (fuel : nat) (c : bool) (t : TaskID) (authority : ProcessSignalAuthority)
    (claim : option SendClaim) : M unit :=
  '(dead, terminateErr) ←
    match claim with
    | Some claim =>
        result ← call (SendConfirm t authority TimeoutKillGrace);
        match TerminateErr result with
        | None => call (PendComplete claim);; mret tt
        | Some err =>
            if errors_Is err ErrProcessSignalAuthorityInvalid then call (PendInvalidate claim);; mret tt
            else call (PendRelease claim);; mret tt
        end;;
        mret (Dead result, TerminateErr result)
    | None =>
        r ← call (ConfirmDead t);
        mret (dead_of r, None)
    end;
  '(raw, waitErr) ← waitLaunched t;
  if negb dead then mret tt
  else confirmTerminalWithPending fuel c t raw waitErr (is_none terminateErr).

Definition handleStartingCancellation (fuel : nat) (c : bool) (t : TaskID) (handle : ProcessHandle) (send : bool)
    (generation : Z) : M unit :=
  let authority := mkAuthority t (ph_PID handle) (ph_ProcessStartedAt handle) StateCancelling (Some generation) in
  if send then
    '(claim, outcome) ← call (PendClaim true t authority);
    match outcome with
    | ClaimAcquired =>
        prepared ← prepareStartingClaim t handle generation claim;
        if negb prepared then waitLaunched t;; mret tt
        else terminate_starting fuel c t authority (Some claim)
    | ClaimSent => terminate_starting fuel c t authority None
    | ClaimAlreadyClaimed | ClaimConfirmOnly | ClaimNotFound => waitLaunched t;; mret tt
    end
  else terminate_starting fuel c t authority None.

(** ** After the launch *)

(** Whether the task is cancelling, and the error of the record. *)
Definition recordProcessAtLaunchBoundary (i : TaskLifecycleInput) (t : TaskID) (handle : ProcessHandle) : M (bool * option error) :=
  call (Lock t);;
  loaded ← call (Load t);
  match loaded with
  | Err err => unlocked t (false, Some err)
  | Ok snapshot =>
      match SnapshotRestore snapshot with
      | Err err => unlocked t (false, Some err)
      | Ok task =>
          if bool_decide (t_state task = StateCancelling) then unlocked t (true, None)
          else
            err ← RecordProcess_Execute t handle (li_Now i);
            unlocked t (false, err)
      end
  end.

Definition recordFailureStateIsCancelling (c : bool) (t : TaskID) : M bool :=
  call (Lock t);;
  unless_cancelled c (unlocked t false) (
  loaded ← call (Load t);
  unlocked t match loaded with Ok s => bool_decide (State s = StateCancelling) | Err _ => false end).

Definition noDetail : launchFailureDetail := mkDetail "" false.

Definition handleRecordProcessFailure (c : bool) (i : TaskLifecycleInput) (task : Task) (workingDir : option string)
    (handle : ProcessHandle) : M unit :=
  let t := t_id task in
  call (TerminateProcess (ph_PID handle) TimeoutKillGrace);;
  alive ← call (CheckDead t);
  let dead := match alive with Ok dead => dead | Err _ => false end in
  unless_cancelled c (mret tt) (
  killed ← (if dead then recordFailureStateIsCancelling c t else mret false);
  if killed : bool then
    '(raw, waitErr) ← waitLaunched t;
    unless_cancelled c (mret tt)
      (fail c i task workingDir (if is_some waitErr then 1 else raw) (is_some waitErr) noDetail)
  else
    unless_cancelled c (mret tt) (
    if dead then
      fail c i task workingDir 1 false noDetail;;
      unless_cancelled c (mret tt) (waitLaunched t;; mret tt)
    else
      '(raw, waitErr) ← waitLaunched t;
      unless_cancelled c (mret tt)
        (fail c i task workingDir (if is_some waitErr then 1 else raw) (is_some waitErr) noDetail))).

Definition monitorAndFinalize (fuel : nat) (c : bool) (i : TaskLifecycleInput) (t : TaskID) : M unit :=
  openErr ← call (OpenStdout (li_TaskDirPath i));
  (if is_none openErr then ObserveEvents fuel t;; mret tt else mret tt);;
  '(raw, waitErr) ← waitLaunched t;
  confirmTerminal fuel c t raw waitErr.

(** The machine code of a launch failure. *)
Definition launch_code (err : option error) : string :=
  if errors_Is_opt err (Domain ErrPTYAllocationFailed) then "PTY_ALLOCATION_FAILED"
  else if errors_Is_opt err (Domain ErrChildProcessLaunchFailed) then "CHILD_PROCESS_LAUNCH_FAILED"
  else if errors_Is_opt err (Domain ErrContractWriteFailed) then "CONTRACT_WRITE_FAILED"
  else "".

(** The part of [Run] once the process is running and recorded. *)
Definition run_recorded (fuel : nat) (c : bool) (i : TaskLifecycleInput) (t : TaskID) (handle : ProcessHandle)
    (generation : Z) : M unit :=
  confirmed ← ConfirmRunning_Execute t (li_Now i);
  unless_cancelled c (mret tt)
  match confirmed with
  | Err _ => '(raw, waitErr) ← waitLaunched t; confirmTerminal fuel c t raw waitErr
  | Ok (true, _) => call (PendRegister t PendingSendConfirmOnly None);; waitLaunched t;; mret tt
  | Ok (false, state) =>
      if bool_decide (state = StateCancelling) then handleStartingCancellation fuel c t handle false generation
      else
        let seconds := to_resolvedSeconds (p_ResolvedTimeout (li_Payload i)) in
        call (ArmTimeout t (ph_ProcessStartedAt handle + wrap_int64 (seconds * Second)) seconds generation);;
        unless_cancelled c (mret tt) (monitorAndFinalize fuel c i t)
  end.

(** [LaunchWithPTYUseCase.Execute] *)
Definition Launch_Execute (p : LaunchParams) : M (res (option ProcessHandle)) :=
  if negb (AllowResume p) then mret (Err (DErr ErrSessionNotResumable)) else call (LaunchProcess p).

(** The part of [Run] from the launch on. *)
Definition run_launch (fuel : nat) (c : bool) (config : TaskLifecycleLaunchConfig) (i : TaskLifecycleInput) (task : Task)
    (workingDir prompt : string) (generation : Z) : M unit :=
  let t := t_id task in
  let dir := li_TaskDirPath i in
  launched ← Launch_Execute
    (mkLaunch t (t_subcommand task) (p_Model (li_Payload i)) (p_SandboxMode (li_Payload i)) workingDir prompt dir true
       (lc_PTYEnabled config) (lc_CodexBinaryPath config) (p_ReasoningEffort (li_Payload i)) (p_OutputSchemaPath (li_Payload i)));
  unless_cancelled c (mret tt)
  match launched with
  | Ok (Some handle) =>
      '(cancelling, recordErr) ← recordProcessAtLaunchBoundary i t handle;
      unless_cancelled c (mret tt) (
      if cancelling : bool then handleStartingCancellation fuel c t handle true generation
      else match recordErr with
      | Some _ => handleRecordProcessFailure c i task (Some workingDir) handle
      | None => run_recorded fuel c i t handle generation
      end)
  | Ok None =>
      call (CloseLock dir);;
      fail c i task (Some workingDir) 130 true noDetail
  | Err err =>
      call (CloseLock dir);;
      fail c i task (Some workingDir) 130 true (mkDetail (launch_code (Some err)) false)
  end.

(** The part of [Run] from the worktree on; [planned] is the directory that the
    worktree is to have. *)
Definition run_started (fuel : nat) (c : bool) (config : TaskLifecycleLaunchConfig) (i : TaskLifecycleInput) (task : Task)
    (planned : option string) (workingDir prompt : string) (generation : Z) : M unit :=
  let t := t_id task in
  let dir := li_TaskDirPath i in
  let launch :=
    stop ← confirmUnlaunchedCancellation t;
    if stop : bool then call (CloseLock dir)
    else unless_cancelled c (call (CloseLock dir)) (run_launch fuel c config i task workingDir prompt generation) in
  match planned with
  | None => launch
  | Some planned =>
      unless_cancelled c (call (CloseLock dir)) (
      created ← call (CreateWorktree t (p_SourceWorkingDir (li_Payload i)));
      match created with
      | Err _ => call (CloseLock dir);; fail c i task (Some workingDir) 130 true (mkDetail "WORKTREE_CREATE_FAILED" false)
      | Ok created =>
          if negb (created =? planned)%string then call (CloseLock dir);; fail c i task (Some workingDir) 130 true noDetail
          else launch
      end)
  end.

(** The part of [Run] from the record of the start on. *)
Definition run_planned (fuel : nat) (c : bool) (config : TaskLifecycleLaunchConfig) (i : TaskLifecycleInput)
    (planned : option string) (workingDir : option string) (prompt : string) (generation : Z) : M unit :=
  let dir := li_TaskDirPath i in
  unless_cancelled c (call (CloseLock dir))
  match workingDir with
  | None => call (CloseLock dir);; fail c i (li_Task i) None 130 true (mkDetail "" true)
  | Some workingDir =>
      '(task, err) ←
        RecordStarting_Execute
          (mkStartingInput (p_ResolvedTimeout (li_Payload i)) (p_Model (li_Payload i)) (p_ReasoningEffort (li_Payload i))
             (p_SandboxMode (li_Payload i)) workingDir ExecutionRouteDaemon prompt (li_Now i)) (li_Task i);
      match err with
      | Some _ => call (CloseLock dir);; fail c i task (Some workingDir) 130 true (mkDetail "CONTRACT_WRITE_FAILED" true)
      | None => run_started fuel c config i task planned workingDir prompt generation
      end
  end.

(** The part of [Run] that owns the task. *)
Definition run_owned (fuel : nat) (c : bool) (config : TaskLifecycleLaunchConfig) (worktrees : bool) (i : TaskLifecycleInput)
    (generation : Z) : M unit :=
  let t := t_id (li_Task i) in
  let dir := li_TaskDirPath i in
  let p := li_Payload i in
  unless_cancelled c (mret tt) (
  lockErr ← call (AcquireForChild dir);
  match lockErr with
  | Some _ => fail c i (li_Task i) (p_WorkingDir p) 130 true (mkDetail "LIVENESS_LOCK_IO_ERROR" true)
  | None =>
      unless_cancelled c (call (CloseLock dir)) (
      if bool_decide (t_subcommand (li_Task i) = SubcommandImpl) && bool_decide (p_WorktreeMode p = WorktreeModeAuto) then
        if negb worktrees then call (CloseLock dir);; fail c i (li_Task i) None 130 true (mkDetail "" true)
        else
          planned ← call (ResolveWorkingDir t);
          match planned with
          | Err _ => call (CloseLock dir);; fail c i (li_Task i) None 130 true (mkDetail "" true)
          | Ok planned =>
              run_planned fuel c config i (Some planned) (Some planned)
                (replaceSourceWorkingDir (p_PromptText p) (p_SourceWorkingDir p) planned) generation
          end
      else run_planned fuel c config i None (p_WorkingDir p) (p_PromptText p) generation)
  end).

(** [worktrees]: whether worktrees can be created; [fuel] bounds the lines of the
    output and the notifications of one wait. *)
Definition Run (fuel : nat) (c : bool) (config : TaskLifecycleLaunchConfig) (worktrees : bool) (i : TaskLifecycleInput) : M unit :=
  let t := t_id (li_Task i) in
  acquired ← call (AcquireLifecycle t);
  match acquired with
  | None => mret tt
  | Some generation =>
      run_owned fuel c config worktrees i generation;;
      call (UnregisterLaunching t);;
      call (ReleaseLifecycle t generation)
  end.

(** ** Lemmas *)

Lemma Kill_ExecuteLocked_keeps i c : keeps (Some (ki_TaskID i)) c (Some (ki_TaskID i)) c (Kill_ExecuteLocked i).
Proof.
  apply keeps_plain; [unfold Kill_ExecuteLocked; solve_plain|]. intros h Q Hok Hm HQ. apply Kill_ExecuteLocked_ok; [done..|].
  intros h' r err Hok' [(Hm' & _) _]. by apply HQ.
Qed.

Lemma Finalize_executeLocked_keeps i present c :
  keeps (Some (fi_TaskID i)) c (Some (fi_TaskID i)) c (Finalize_executeLocked i present).
Proof.
  apply keeps_plain; [unfold Finalize_executeLocked, failsafe, persistedFinalizeResult; solve_plain|].
  intros h Q Hok Hm HQ. apply Finalize_executeLocked_ok; [done..|]. intros h' r err Hok' (Hm' & _). by apply HQ.
Qed.

Lemma FailLaunch_ExecuteLocked_keeps i c :
  keeps (Some (t_id (fl_Task i))) c (Some (t_id (fl_Task i))) c (FailLaunch_ExecuteLocked i).
Proof.
  apply keeps_plain; [unfold FailLaunch_ExecuteLocked, fail_task; solve_plain|].
  intros h Q Hok Hm HQ. apply FailLaunch_ExecuteLocked_ok; [done..|]. intros h' r err Hok' Hm' _ _ _. by apply HQ.
Qed.

Lemma record_killed_keeps t events n c : keeps None c None c (record_killed t events n).
Proof. induction events as [|[] events IH]; cbn [record_killed]; solve_keeps. Qed.
#[export] Hint Resolve record_killed_keeps : keeps.

Lemma ReleaseAfterConfirmation_keeps r t c : keeps None c None c (ReleaseAfterConfirmation r t).
Proof. unfold ReleaseAfterConfirmation. solve_keeps. Qed.
Lemma ReleaseAfterFinalization_keeps r t c : keeps None c None c (ReleaseAfterFinalization r t).
Proof. unfold ReleaseAfterFinalization. solve_keeps. Qed.
Lemma ReleaseAfterFailure_keeps t impl c : keeps None c None c (ReleaseAfterFailure t impl).
Proof. unfold ReleaseAfterFailure. solve_keeps. Qed.
#[export] Hint Resolve ReleaseAfterConfirmation_keeps ReleaseAfterFinalization_keeps ReleaseAfterFailure_keeps : keeps.

Lemma kill_found_cancelling_keeps t raw est c : keeps (Some t) c None c (kill_found_cancelling t raw est).
Proof.
  unfold kill_found_cancelling. eapply keeps_bind; [by apply keeps_anywhere|]. intros now.
  eapply keeps_bind; [apply (Kill_ExecuteLocked_keeps (mkKillInput t raw est now))|]. intros [result err]. solve_keeps.
Qed.
#[export] Hint Resolve kill_found_cancelling_keeps : keeps.

Lemma fail_locked_keeps i task dir code c : keeps (Some (t_id task)) c None c (fail_locked i task dir code).
Proof.
  unfold fail_locked. eapply keeps_bind; [apply (FailLaunch_ExecuteLocked_keeps (mkFailInput task _ _ _ _ _ _ _))|].
  intros [result err]. solve_keeps.
Qed.
#[export] Hint Resolve fail_locked_keeps : keeps.

Lemma fail_keeps b i task dir raw est d c : keeps None c None c (fail b i task dir raw est d).
Proof. unfold fail. solve_keeps. Qed.
#[export] Hint Resolve fail_keeps : keeps.

Lemma await_prepared_keeps fuel b t c : keeps None c None c (await_prepared fuel b t).
Proof. induction fuel as [|fuel IH]; cbn [await_prepared]; solve_keeps. Qed.
#[export] Hint Resolve await_prepared_keeps : keeps.

Lemma finalize_prepared_keeps i prepared c : keeps (Some (fi_TaskID i)) c (Some (fi_TaskID i)) c (finalize_prepared i prepared).
Proof. destruct prepared; [apply Finalize_executeLocked_keeps|apply keeps_ret]. Qed.

#[export] Hint Extern 1 (keeps _ _ _ _ (Kill_ExecuteLocked ?i)) => apply (Kill_ExecuteLocked_keeps i) : keeps.
#[export] Hint Extern 1 (keeps _ _ _ _ (finalize_prepared ?i ?p)) => apply (finalize_prepared_keeps i p) : keeps.

Lemma confirm_prepared_keeps b t raw est at_ skip prepared sent c :
  keeps None c None c (confirm_prepared b t raw est at_ skip prepared sent).
Proof. unfold confirm_prepared. solve_keeps. Qed.
#[export] Hint Resolve confirm_prepared_keeps : keeps.

Lemma confirm_subscribed_keeps fuel b t raw est at_ sent c :
  keeps None c None c (confirm_subscribed fuel b t raw est at_ sent).
Proof. unfold confirm_subscribed. cbv zeta. solve_keeps. Qed.
#[export] Hint Resolve confirm_subscribed_keeps : keeps.

Lemma confirmTerminal_keeps fuel b t raw err sent c : keeps None c None c (confirmTerminalWithPending fuel b t raw err sent).
Proof. unfold confirmTerminalWithPending. solve_keeps. Qed.
#[export] Hint Resolve confirmTerminal_keeps : keeps.

Lemma confirmUnlaunchedCancellation_keeps t c : keeps None c None c (confirmUnlaunchedCancellation t).
Proof. unfold confirmUnlaunchedCancellation. solve_keeps. Qed.

Lemma waitLaunched_keeps t c : keeps None c None c (waitLaunched t).
Proof. unfold waitLaunched. solve_keeps. Qed.
#[export] Hint Resolve confirmUnlaunchedCancellation_keeps waitLaunched_keeps : keeps.

Lemma recordProcessAtLaunchBoundary_keeps i t handle c : keeps None c None c (recordProcessAtLaunchBoundary i t handle).
Proof. unfold recordProcessAtLaunchBoundary. solve_keeps. Qed.

Lemma recordFailureStateIsCancelling_keeps b t c : keeps None c None c (recordFailureStateIsCancelling b t).
Proof. unfold recordFailureStateIsCancelling. solve_keeps. Qed.
#[export] Hint Resolve recordProcessAtLaunchBoundary_keeps recordFailureStateIsCancelling_keeps : keeps.

Lemma handleRecordProcessFailure_keeps b i task dir handle c :
  keeps None c None c (handleRecordProcessFailure b i task dir handle).
Proof. unfold handleRecordProcessFailure. cbv zeta. solve_keeps. Qed.
#[export] Hint Resolve handleRecordProcessFailure_keeps : keeps.

(** The claim of a starting cancellation is kept only to send the signal. *)
Lemma prepareStartingClaim_ok t handle g claim h Q :
  st None (real_claim claim) h ->
  (forall h' (kept : bool), st None (if kept then real_claim claim else None) h' -> Q h' kept) ->
  wpd (prepareStartingClaim t handle g claim) h Q.
Proof.
  intros (Hok & Hm & Hc) HQ. unfold prepareStartingClaim.
  assert (forall h', st (Some t) (real_claim claim) h' ->
    wpd (call (Unlock t);; call (PendRemoveClaim claim);; mret false) h' Q) as Hrefused.
  { intros h' (Hok' & Hm' & Hc') [] x. apply (HQ _ false). by repeat split. }
  assert (forall h', st (Some t) (real_claim claim) h' -> wpd (unlocked t true) h' Q) as Hkept.
  { intros h' (Hok' & Hm' & Hc') []. apply (HQ _ true). by repeat split. }
  intros []. intros r. wp_cbn. set (h1 := Ev (Load t) r :: _).
  assert (st (Some t) (real_claim claim) h1) as H1 by by repeat split.
  destruct r as [s|err]; [|by apply Hrefused]. intros current. wp_cbn.
  assert (st (Some t) (real_claim claim) (Ev (CurrentOwner t) current :: h1)) as H2 by (destruct H1 as (? & ? & ?); by repeat split).
  destruct (_ || _ || _) eqn:E; [by apply Hrefused|].
  apply orb_false_iff in E as [[E _]%orb_false_iff _]. apply negb_false_iff, bool_decide_eq_true in E.
  destruct (is_none (PID s)); [|by apply Hkept]. intros err. wp_cbn. set (u := s <| PID := _ |> <| ProcessStartedAt := _ |>).
  assert (st (Some t) (real_claim claim) (Ev (Save t u) err :: Ev (CurrentOwner t) current :: h1)) as H3.
  { eapply st_save; [done|done| |].
    - unfold legal. cbn. by rewrite E.
    - unfold exit_first. cbn. by rewrite E. }
  destruct err; auto.
Qed.

Lemma terminate_starting_keeps fuel b t a claim :
  keeps None (match claim with Some cl => real_claim cl | None => None end) None None (terminate_starting fuel b t a claim).
Proof. unfold terminate_starting. destruct claim as [claim|]; solve_keeps. Qed.

Lemma handleStartingCancellation_keeps fuel b t handle send g :
  keeps None None None None (handleStartingCancellation fuel b t handle send g).
Proof.
  unfold handleStartingCancellation. cbv zeta. destruct send; [|apply (terminate_starting_keeps _ _ _ _ None)].
  apply keeps_claim. intros claim out. destruct (bool_decide_reflect (out = ClaimAcquired)) as [->|Hout].
  - intros h Hst. apply wp_bind. apply prepareStartingClaim_ok; [done|]. intros h' kept Hst'.
    destruct kept; cbn [negb]; [by apply (terminate_starting_keeps _ _ _ _ (Some claim))|].
    revert h' Hst'. change (keeps None None None None (waitLaunched t;; mret tt)). solve_keeps.
  - destruct out; try done; solve_keeps. apply (terminate_starting_keeps _ _ _ _ None).
Qed.
#[export] Hint Resolve handleStartingCancellation_keeps : keeps.

Lemma monitorAndFinalize_keeps fuel b i t c : keeps None c None c (monitorAndFinalize fuel b i t).
Proof. unfold monitorAndFinalize, confirmTerminal. solve_keeps. Qed.
#[export] Hint Resolve monitorAndFinalize_keeps : keeps.

Lemma run_recorded_keeps fuel b i t handle g : keeps None None None None (run_recorded fuel b i t handle g).
Proof. unfold run_recorded, confirmTerminal. cbv zeta. solve_keeps. Qed.

Lemma Launch_keeps p c : keeps None c None c (Launch_Execute p).
Proof. unfold Launch_Execute. solve_keeps. Qed.
#[export] Hint Resolve run_recorded_keeps Launch_keeps : keeps.

Lemma run_launch_keeps fuel b config i task dir prompt g : keeps None None None None (run_launch fuel b config i task dir prompt g).
Proof. unfold run_launch. cbv zeta. solve_keeps. Qed.
#[export] Hint Resolve run_launch_keeps : keeps.

Lemma run_started_keeps fuel b config i task planned dir prompt g :
  keeps None None None None (run_started fuel b config i task planned dir prompt g).
Proof. unfold run_started. cbv zeta. solve_keeps. Qed.

(** The start is recorded by the owner of the life cycle. *)
Definition owns (t : TaskID) (h : list event) : Prop := st None None h /\ owner h = Some t.

(** [keeps], for a program that starts as the owner of [t]. *)
Definition drives {A : Type} (t : TaskID) (p : M A) : Prop := forall h, owns t h -> wpd p h (fun h' _ => st None None h').

Lemma drives_keeps {A : Type} t (p : M A) : keeps None None None None p -> drives t p.
Proof. intros Hp h [Hst _]. by apply Hp. Qed.

Lemma drives_unless {A : Type} t b (stop p : M A) :
  keeps None None None None stop -> drives t p -> drives t (unless_cancelled b stop p).
Proof.
  intros Hs Hp h Hown. apply (unless_cancelled_ok (owns t)); [|done| |done].
  - intros h' err [Hst Ho]. split; [by apply st_ctx|done].
  - intros h' [Hst _]. by apply Hs.
Qed.

Lemma drives_call {X A : Type} t (e : Eff X) (k : X -> M A) :
  match e with AcquireForChild _ | ResolveWorkingDir _ => true | _ => false end = true ->
  (forall x, drives t (k x)) -> drives t (call e ≫= k).
Proof. intros He Hk h [(Hok & Hm & Hc) Ho] x. apply Hk. destruct e; try done; by repeat split. Qed.

Lemma run_planned_drives fuel b config i planned dir prompt g :
  drives (t_id (li_Task i)) (run_planned fuel b config i planned dir prompt g).
Proof.
  unfold run_planned. cbv zeta. apply drives_unless; [solve_keeps|]. destruct dir as [dir|]; [|apply drives_keeps; solve_keeps].
  intros h [Hst Ho]. apply wp_bind. eapply RecordStarting_ok; [done|done|]. intros h' [task err] Hst' _ _. revert h' Hst'.
  destruct err as [err|]; [|apply run_started_keeps].
  change (keeps None None None None (call (CloseLock (li_TaskDirPath i));;
    fail b i task (Some dir) 130 true (mkDetail "CONTRACT_WRITE_FAILED" true))). solve_keeps.
Qed.

Lemma run_owned_drives fuel b config worktrees i g : drives (t_id (li_Task i)) (run_owned fuel b config worktrees i g).
Proof.
  unfold run_owned. cbv zeta. apply drives_unless; [apply keeps_ret|]. apply drives_call; [done|]. intros [err|]; [apply drives_keeps; solve_keeps|].
  apply drives_unless; [solve_keeps|]. destruct (_ && _); [|apply run_planned_drives].
  destruct (negb worktrees); [apply drives_keeps; solve_keeps|]. apply drives_call; [done|].
  intros [planned|err]; [apply run_planned_drives|apply drives_keeps; solve_keeps].
Qed.

Lemma Run_keeps fuel b config worktrees i : keeps None None None None (Run fuel b config worktrees i).
Proof.
  intros h (Hok & Hm & Hc). intros [g|]; [|by repeat split]. apply wp_bind.
  eapply wp_mono; [apply run_owned_drives; by repeat split|]. cbn. intros h' [] Hst. revert h' Hst.
  change (keeps None None None None (call (UnregisterLaunching (t_id (li_Task i)));; call (ReleaseLifecycle (t_id (li_Task i)) g))).
  solve_keeps.
Qed.
