(* ===== verification/Handlers.v ===== *)
(** * The handlers of the daemon

    What runs in the daemon: the entry points, each started by a request, a timer, a
    ticker or the start of a task, and the goroutines they start.  The enforcement of a
    timeout is a program over its own calls ([Enforce.v]); here it is put on top of the
    ports that the others use, with the recovery it calls in place of the call.  Every
    one of them keeps the discipline of [Daemon.v]. *)

From S2P Require Import Prelude.
From S2P Require Import Errors.
From S2P Require Import Domain.
From S2P Require Import Task.
From S2P Require Import Snapshot.
From S2P Require Import Effects.
From S2P Require Import Pending.
From S2P Require Import Watcher.
From S2P Require Import Enforce.
From S2P Require Import Daemon.
From S2P Require Import Terminal.
From S2P Require Import CancelTask.
From S2P Require Import Resume.
From S2P Require Import Reconcile.
From S2P Require Import Adopt.
From S2P Require Import Monitor.
From S2P Require Import Lifecycle.

(** ** Timeouts on the ports of the daemon *)

(** The lock of the ownership registry is not seen from outside; the recovery runs on
    the context of the caller. *)
Definition port (r : resumeRecoverer) (c : bool) {X : Type} (e : Enforce.Eff X) : M X :=
  match e with
  | Enforce.Lock t => call (Lock t)
  | Enforce.Unlock t => call (Unlock t)
  | Enforce.Load t => call (Load t)
  | Enforce.Save t s => call (Save t s)
  | Enforce.LeaveStalled t now => call (LeaveStalled t now)
  | Enforce.AppendEvent t ev => call (AppendEvent t ev)
  | Enforce.RLock | Enforce.RUnlock => mret tt
  | Enforce.CurrentGeneration t => call (CurrentOwner t)
  | Enforce.SendTerminate pid => call (Signal pid false)
  | Enforce.SendKill pid => call (Signal pid true)
  | Enforce.Wait d => call (Sleep d)
  | Enforce.CtxErr => ctx_err c
  | Enforce.TryAcquire t => call (TryAcquire t)
  | Enforce.RegisterPending t d a => call (PendRegister t d a)
  | Enforce.DeletePathLock t => call (ReleasePathLock t)
  | Enforce.Recover i => '(_, err) ← Recover_Execute r c i; mret err
  end.

Fixpoint on_ports (r : resumeRecoverer) (c : bool) {A : Type} (p : Enforce.M A) : M A :=
  match p with
  | Ret a => mret a
  | Vis e k => x ← port r c e; on_ports r c (k x)
  end.

(** ** Entry points and goroutines *)

Inductive handler : Type :=
| HRun (fuel : nat) (c : bool) (config : TaskLifecycleLaunchConfig) (worktrees : bool) (i : TaskLifecycleInput)
| HCancel (i : CancelTaskInput)
| HTimeout (i : EnforceTaskTimeoutInput)
| HReconcile (c : bool)
| HAdopt (c : bool)
| HStallScan (c : bool)
| HRecover (c : bool) (i : RecoverViaResumeInput)
| HFinalize (i : FinalizeTaskInput)
| HConfirmKilled (i : ConfirmTaskKilledInput)
| HFailLaunch (i : FailTaskLaunchInput)
| HConfirmRunning (t : TaskID) (now : Time).

(** What is configured once: the recoverer and the grace period of signals. *)
Record config : Type := mkConfig { recoverer : resumeRecoverer; grace : Duration }.

Definition handler_body (f : config) (h : handler) : M unit :=
  match h with
  | HRun fuel c config worktrees i => Run fuel c config worktrees i
  | HCancel i => Cancel_Execute i;; mret tt
  | HTimeout i => on_ports (recoverer f) true (Enforce_Execute i);; mret tt
  | HReconcile c => reconcileTick c
  | HAdopt c => Adopt_Execute c;; mret tt
  | HStallScan c => scan c
  | HRecover c i => Recover_Execute (recoverer f) c i;; mret tt
  | HFinalize i => Finalize_Execute i;; mret tt
  | HConfirmKilled i => Kill_Execute i;; mret tt
  | HFailLaunch i => FailLaunch_Execute i;; mret tt
  | HConfirmRunning t now => ConfirmRunning_Execute t now;; mret tt
  end.

Definition goroutine_body (f : config) (g : goroutine) : M unit :=
  match g with
  | GoSendAndReconcile claim _ timeout => sendAndReconcile claim timeout (grace f)
  | GoReconcileResume i claim => reconcile_resumeRecovery (recoverer f) i claim
  | GoConfirmTimeoutTermination t s => confirmTimeoutTermination t s (grace f)
  | GoConfirmCancellationTermination t s => confirmCancellationTermination t s (grace f)
  | GoAdoptResume i claim => adopt_resumeRecovery (recoverer f) i claim
  | GoOrphanResume i => orphan_resume (recoverer f) i
  end.

(** A goroutine begins with the claim that it is handed. *)
Definition handed (g : goroutine) : list event :=
  match goroutine_claim g with
  | Some claim => [Ev (PendClaim false (cl_TaskID claim) noAuthority) (claim, ClaimAcquired)]
  | None => []
  end.

(** ** Lemmas *)

Lemma on_ports_bind r c {A B : Type} (p : Enforce.M A) (k : A -> Enforce.M B) h Q :
  wpd (a ← on_ports r c p; on_ports r c (k a)) h Q -> wpd (on_ports r c (p ≫= k)) h Q.
Proof.
  intros H%wp_bind_inv. revert h H. induction p as [a|X e k' IH]; intros h; [done|]. cbn. intros H%wp_bind_inv.
  apply wp_bind. eapply wp_mono; [exact H|]. intros h' x. apply IH.
Qed.

Section Timeouts.
Context (r : resumeRecoverer) (b : bool).

(** [keeps] for a program on the ports. *)
Definition carried {A : Type} m c m' c' (p : Enforce.M A) : Prop := keeps m c m' c' (on_ports r b p).

Lemma carried_bind {A B : Type} m c m1 c1 m' c' (p : Enforce.M A) (k : A -> Enforce.M B) :
  carried m c m1 c1 p -> (forall a, carried m1 c1 m' c' (k a)) -> carried m c m' c' (p ≫= k).
Proof. intros Hp Hk h Hst. apply on_ports_bind. by apply (keeps_bind _ _ _ _ _ _ _ _ Hp Hk). Qed.

Lemma carried_call {X : Type} m c m' c' (e : Enforce.Eff X) : keeps m c m' c' (port r b e) -> carried m c m' c' (call e).
Proof. intros H. eapply keeps_bind; [exact H|]. intros x. apply keeps_ret. Qed.

Lemma carried_ret {A : Type} m c (a : A) : carried m c m c (mret a).
Proof. apply keeps_ret. Qed.

Lemma ctx_err_keeps m c : keeps m c m c (ctx_err b).
Proof. unfold ctx_err. destruct b; solve_keeps. Qed.
#[local] Hint Resolve ctx_err_keeps : keeps.

Lemma carried_Recover i c : carried None c None c (call (Enforce.Recover i)).
Proof. apply carried_call. cbn [port]. solve_keeps. Qed.

Ltac carried_step :=
  lazymatch goal with
  | |- carried _ _ _ _ ?p =>
      lazymatch p with
      | mret _ => apply carried_ret
      | Ret _ => apply carried_ret
      | call (Enforce.Recover _) => apply carried_Recover
      | call _ => apply carried_call; cbn [port]; solve_keeps
      | mbind _ _ => eapply carried_bind; [|intros ?]
      | match ?x with _ => _ end =>
          let y := innermost x in first [is_var y; destruct y | destruct y eqn:?]
      | _ => solve [eauto with keeps]
      end
  end.
Ltac solve_carried := repeat carried_step.

Lemma CheckLiveness_carried t m c : carried m c m c (CheckLiveness t).
Proof. unfold CheckLiveness. solve_carried. Qed.
#[local] Hint Resolve CheckLiveness_carried : keeps.

(** The two signals of a termination, each sent under the mutex of the task that its
    authority names. *)
Lemma send_carried a kill c :
  carried None c None c (send a (fun pid => if kill : bool then call (SendKill pid) else call (Enforce.SendTerminate pid))).
Proof.
  assert (forall pid, carried (Some (a_TaskID a)) c (Some (a_TaskID a)) c
            (if kill then call (SendKill pid) else call (Enforce.SendTerminate pid))) as Hact.
  { intros pid. solve_carried. }
  unfold send, Enforce.Validate, with_lock, WithCurrent. solve_carried; auto.
Qed.

Lemma SendAndConfirm_carried t a g c : carried None c None c (SendAndConfirm t a g).
Proof.
  unfold SendAndConfirm. eapply carried_bind; [exact (send_carried a false c)|]. intros termErr.
  do 2 (eapply carried_bind; [solve_carried|intros ?]). carried_step; [solve_carried|].
  eapply carried_bind; [exact (send_carried a true c)|]. intros killErr. solve_carried.
Qed.

Lemma Confirm_carried t c : carried None c None c (Confirm t).
Proof. unfold Confirm. solve_carried. Qed.

Lemma append_timeout_events_carried t events err c : carried (Some t) c (Some t) c (Enforce.append_events t events err).
Proof. revert err. induction events as [|ev events IH]; intros err; cbn [Enforce.append_events]; solve_carried; apply IH. Qed.

Lemma reconcileAfterConfirmedDeath_carried t err c : carried None c None c (reconcileAfterConfirmedDeath t err).
Proof. unfold reconcileAfterConfirmedDeath. solve_carried. Qed.
#[local] Hint Resolve SendAndConfirm_carried Confirm_carried append_timeout_events_carried reconcileAfterConfirmedDeath_carried : keeps.

Lemma terminate_and_recover_carried i s events err c : carried None c None c (terminate_and_recover i s events err).
Proof. unfold terminate_and_recover. solve_carried. Qed.

(** The record of the timeout is a read-modify-write under the mutex. *)
Lemma executeLocked_carried i c : carried (Some (in_TaskID i)) c (Some (in_TaskID i)) c (Enforce.executeLocked i).
Proof.
  unfold Enforce.executeLocked, carried. cbn [on_ports port call mbind prog_mbind prog_bind].
  apply keeps_Load. intros [s|err]; [|apply knows_keeps, keeps_ret].
  destruct (SnapshotRestore s) as [task|err] eqn:Hr; [|apply knows_keeps, keeps_ret].
  destruct (_ && _); [apply knows_keeps, keeps_ret|].
  destruct (Task_MarkTimedOut _ _ task) as [task' [evs|err]] eqn:Hop; [|apply knows_keeps, keeps_ret].
  destruct (WithTask s task' _) as [u|err] eqn:Hu; [|apply knows_keeps, keeps_ret].
  apply (knows_save (OpMarkTimedOut (SessionRef_ s) (in_OccurredAt i)) _ _ _ _ _ _ _ _ _ _ _ Hr Hop Hu eq_refl).
  intros [saved|]; [apply keeps_ret|]. eapply carried_bind; [solve_carried|]. intros ?. solve_carried.
Qed.

Lemma Enforce_carried i c : carried None c None c (Enforce_Execute i).
Proof.
  unfold Enforce_Execute, with_lock. eapply carried_bind; [|intros ?; solve_carried; apply terminate_and_recover_carried].
  eapply carried_bind; [solve_carried|intros ?]. eapply carried_bind; [apply executeLocked_carried|intros ?]. solve_carried.
Qed.

End Timeouts.


Create HintDb handlers discriminated.
#[export] Hint Resolve Run_keeps reconcileTick_keeps Adopt_keeps scan_keeps Recover_keeps ConfirmRunning_keeps : handlers.

Lemma Finalize_Execute_keeps i : keeps None None None None (Finalize_Execute i).
Proof.
  apply keeps_plain; [unfold Finalize_Execute, Finalize_executeLocked, failsafe, persistedFinalizeResult, ReleaseAfterFinalization; solve_plain|].
  intros h Q Hok Hm HQ. apply Finalize_Execute_ok; [done..|]. intros. by apply HQ.
Qed.

Lemma Kill_Execute_keeps i : keeps None None None None (Kill_Execute i).
Proof. apply keeps_plain; [auto with plain|]. intros h Q Hok Hm HQ. apply Kill_Execute_ok; [done..|]. intros. by apply HQ. Qed.

Lemma FailLaunch_Execute_keeps i : keeps None None None None (FailLaunch_Execute i).
Proof.
  apply keeps_plain; [unfold FailLaunch_Execute, FailLaunch_ExecuteLocked, fail_task, ReleaseAfterFailure; solve_plain|].
  intros h Q Hok Hm HQ. apply FailLaunch_Execute_ok; [done..|]. intros. by apply HQ.
Qed.
#[export] Hint Resolve Finalize_Execute_keeps Kill_Execute_keeps FailLaunch_Execute_keeps : handlers.

(** A handler starts with nothing, a goroutine with the claim it is handed. *)
Lemma handler_st f x : wpd (handler_body f x) [] (fun h _ => st None None h).
Proof.
  assert (st None None []) as Hst by done.
  destruct x; cbn [handler_body]; try (by eapply keeps_wp; [solve [auto with handlers]|done|]);
    try (apply wp_bind; eapply keeps_wp; [solve [auto with handlers]|done|by intros]).
  - apply wp_bind, Cancel_ok; done.
  - apply wp_bind. eapply keeps_wp; [apply Enforce_carried|done|by intros].
Qed.

Lemma goroutine_keeps f g : keeps None (goroutine_claim g) None None (goroutine_body f g).
Proof.
  destruct g; cbn [goroutine_body goroutine_claim]; [apply sendAndReconcile_keeps|apply reconcile_resumeRecovery_keeps
    |apply confirmTimeoutTermination_keeps|apply confirmCancellationTermination_keeps|apply adopt_resumeRecovery_keeps
    |apply orphan_resume_keeps].
Qed.

Lemma handed_st g : st None (goroutine_claim g) (handed g).
Proof.
  unfold handed. destruct (goroutine_claim g) as [claim|] eqn:E; repeat split; try done. cbn.
  destruct g; cbn in E; try done; unfold real_claim in *; by destruct (cl_Token _ =? 0) eqn:Et; simplify_eq; rewrite ?Et.
Qed.

(** ** Theorems *)

(** C14. Every entry point of the daemon and every goroutine keeps the discipline, in
    every run: mutexes are not nested and are free at the end; a task is written only
    as a legal successor of what was read under the same hold of its mutex, or as the
    first record of its life cycle; its exit-code file comes before the record of its
    end; signals, waits, launches and releases of slots happen outside the mutex; and
    a claim on a send is resolved, or handed to a goroutine, by the one who holds it,
    and by nobody twice. *)
Theorem handlers_keep_discipline (f : config) (x : handler) (g : goroutine) :
  wpd (handler_body f x) [] (fun h _ => hist_all rule h /\ held h = None /\ open_claim h = None)
  /\ wpd (goroutine_body f g) (handed g) (fun h _ => hist_all rule h /\ held h = None /\ open_claim h = None).
Proof. split; [apply handler_st|apply goroutine_keeps, handed_st]. Qed.

