(* ===== verification/System.v ===== *)
(** * The daemon as a whole

    Handlers and goroutines run side by side and share the task store, the exit-code
    files and the mutexes of the tasks.  A step is one call of one of them, or the
    begin of a new handler; between two calls of one, the others may make any number.
    What the handlers keep one by one ([Handlers.v]) gives what holds of them together. *)

From S2P Require Import Prelude.
From S2P Require Import Errors.
From S2P Require Import Domain.
From S2P Require Import Task.
From S2P Require Import Snapshot.
From S2P Require Import Effects.
From S2P Require Import Pending.
From S2P Require Import Enforce.
From S2P Require Import Daemon.
From S2P Require Import Terminal.
From S2P Require Import Resume.
From S2P Require Import Handlers.

(** ** State *)

(** What has been called so far, the latest first, and what is left to do. *)
Record thread : Type := mkThread { log : list event; rest : M unit }.

Record system : Type := mkSystem {
  store : gmap TaskID TaskSnapshot;
  codes : gmap TaskID Z;  (* the exit-code files *)
  threads : list thread }.

Inductive label : Type :=
| Begin (x : handler)
| Call (i : nat) (e : event).

(** ** Steps *)

(** Nobody holds the mutex of [t]. *)
Definition free (S : system) (t : TaskID) : Prop := Forall (fun th => held (log th) <> Some t) (threads S).

(** What a call may answer: a mutex is acquired when it is free, and what is read is
    what is there, unless reading fails. *)
Definition answers (S : system) (e : event) : Prop :=
  match e with
  | Ev (Lock t) _ => free S t
  | Ev (Load t) (Ok s) => store S !! t = Some s
  | Ev (Load t) (Err err) => errors_Is err (Domain ErrTaskNotFound) = true -> store S !! t = None
  | Ev (ReadExitCode t) (Ok c) => codes S !! t = c
  | _ => True
  end.

(** A write that fails may have happened nevertheless. *)
Definition store_after (e : event) (before after : gmap TaskID TaskSnapshot) : Prop :=
  match e with
  | Ev (Save t u) None => after = <[t := u]> before
  | Ev (Save t u) (Some _) => after = <[t := u]> before \/ after = before
  | Ev (CancelQueued t _ _) (Ok (Some _)) => exists u, State u = StateCancelling /\ after = <[t := u]> before
  | _ => after = before
  end.

Definition codes_after (e : event) (before after : gmap TaskID Z) : Prop :=
  match e with
  | Ev (WriteExitCode t c) None => after = <[t := ec_raw c]> before
  | Ev (WriteExitCode t c) (Some _) => after = <[t := ec_raw c]> before \/ after = before
  | _ => after = before
  end.

Definition spawned (f : config) (e : event) : list thread :=
  match e with
  | Ev (Go g) _ => [mkThread (handed g) (goroutine_body f g)]
  | _ => []
  end.

Inductive step (f : config) (S : system) : label -> system -> Prop :=
| step_begin x :
    step f S (Begin x) (mkSystem (store S) (codes S) (threads S ++ [mkThread [] (handler_body f x)]))
| step_call i h X (e : Eff X) k x store' codes' :
    threads S !! i = Some (mkThread h (Vis e k)) ->
    answers S (Ev e x) ->
    store_after (Ev e x) (store S) store' ->
    codes_after (Ev e x) (codes S) codes' ->
    step f S (Call i (Ev e x))
      (mkSystem store' codes' (<[i := mkThread (Ev e x :: h) (k x)]> (threads S) ++ spawned f (Ev e x))).

(** The task that [e] saves for the first time, as far as the one who saves knows: the
    task has not been read within the critical section, or was not there. *)
Definition first_save (h : list event) (e : event) : option TaskID :=
  match e with
  | Ev (CancelQueued t _ _) (Ok (Some _)) => Some t
  | Ev (Save t _) _ =>
      match held h, loaded h with
      | Some _, Some (_, Ok _) => None
      | _, _ => Some t
      end
  | _ => None
  end.

(** A task identifier is admitted once, and its task is cancelled in the queue or
    launched, once: a first save finds no snapshot. *)
Definition orderly (S : system) (l : label) : Prop :=
  match l with
  | Begin _ => True
  | Call i e => forall th t, threads S !! i = Some th -> first_save (log th) e = Some t -> store S !! t = None
  end.

Definition orderly_step (f : config) (S S' : system) : Prop := exists l, step f S l S' /\ orderly S l.
Definition any_step (f : config) (S S' : system) : Prop := exists l, step f S l S'.

(** A task recorded with the exit code of its process has that code in its file. *)
Definition codes_agree (S : system) : Prop :=
  forall t u, store S !! t = Some u -> exited (State u) = true ->
    exists c, ExitCode_ u = Some c /\ codes S !! t = Some (ec_raw c).

(** The daemon starts with what an earlier run has left, and nothing running. *)
Definition initial (S : system) : Prop := threads S = [] /\ codes_agree S.
Definition reachable (f : config) (S : system) : Prop := exists S0, initial S0 /\ rtc (orderly_step f) S0 S.

(** How the snapshot of a task may develop. *)
Definition later (s u : TaskSnapshot) : Prop := u = s \/ legal s u.

(** ** Lemmas on threads *)

Lemma eff_inhabited X (e : Eff X) : inhabited X.
Proof.
  destruct e; constructor;
    first [exact tt | exact None | exact (Err (DErr ErrTaskNotFound)) | exact false | exact 0%Z | exact []
          | exact (noClaim, ClaimNotFound) | exact (mkAttempt false None None) | exact (0, None)
          | exact (EndOfStream None) | exact SelectDone].
Qed.

Definition safe (th : thread) : Prop := wpd (rest th) (log th) (fun h _ => st None None h).

Lemma safe_ok th : safe th -> ok (log th).
Proof.
  intros H. destruct (wp_some_run _ _ _ _ eff_inhabited H) as (h' & _ & (Hok & _) & Hs). by eapply hist_all_suffix.
Qed.

Lemma safe_call h X (e : Eff X) k x :
  safe (mkThread h (Vis e k)) -> safe (mkThread (Ev e x :: h) (k x)) /\ rule (Ev e x) h.
Proof. intros H. assert (safe (mkThread (Ev e x :: h) (k x))) as H' by apply H. split; [done|]. by apply safe_ok in H' as [? _]. Qed.

Lemma spawned_safe f e th : th ∈ spawned f e -> safe th /\ held (log th) = None.
Proof.
  destruct e as [? [] ?]; try (by intros ?%not_elem_of_nil). intros ->%list_elem_of_singleton.
  split; [|by destruct (handed_st g) as (_ & ? & _)]. apply goroutine_keeps, handed_st.
Qed.

(** The threads after a step. *)
Lemma threads_after (l new : list thread) i j th' th :
  (<[i := th']> l ++ new) !! j = Some th -> (i < length l)%nat ->
  j = i /\ th = th' \/ j <> i /\ l !! j = Some th \/ th ∈ new.
Proof.
  intros H Hi. apply lookup_app_Some in H as [H|[_ H%list_elem_of_lookup_2]]; [|auto].
  destruct (decide (i = j)) as [->|Hne]; [|rewrite list_lookup_insert_ne in H; auto].
  rewrite list_lookup_insert_eq in H by done. simplify_eq. auto.
Qed.

(** No mutex is held twice, and every thread keeps the discipline to its end. *)
Record threads_ok (S : system) : Prop := {
  all_safe : forall i th, threads S !! i = Some th -> safe th;
  exclusive : forall i j th th' t, threads S !! i = Some th -> threads S !! j = Some th' ->
    held (log th) = Some t -> held (log th') = Some t -> i = j }.

Lemma held_after S e h t : answers S e -> held (e :: h) = Some t -> held h = Some t \/ free S t.
Proof. destruct e as [? [] ?]; cbn; intros Ha H; auto; by simplify_eq; auto. Qed.

Lemma free_lookup S t i th : free S t -> threads S !! i = Some th -> held (log th) <> Some t.
Proof. intros H Hi. by apply (proj1 (list.Forall_lookup _ _) H i). Qed.

Lemma threads_ok_step f S l S' : step f S l S' -> threads_ok S -> threads_ok S'.
Proof.
  intros Hstep [Hsafe Hex]. destruct Hstep as [x|i h X e k x store' codes' Hi Ha _ _].
  - assert (forall j th, (threads S ++ [mkThread [] (handler_body f x)]) !! j = Some th ->
      threads S !! j = Some th \/ safe th /\ held (log th) = None) as Hnew.
    { intros j th [H|[_ ->%list_elem_of_lookup_2%list_elem_of_singleton]]%lookup_app_Some; [by left|right].
      split; [apply handler_st|done]. }
    split; cbn; [intros j th [H|[H _]]%Hnew; eauto|]. intros j1 j2 th1 th2 t H1 H2 E1 E2.
    apply Hnew in H1 as [H1|[_ H1]]; [|congruence]. apply Hnew in H2 as [H2|[_ H2]]; [eauto|congruence].
  - pose proof (lookup_lt_Some _ _ _ Hi) as Hlt. pose proof (safe_call h X e k x (Hsafe _ _ Hi)) as [Hnext _].
    assert (forall j th t, j <> i -> threads S !! j = Some th -> held (log th) = Some t -> held (Ev e x :: h) <> Some t) as Hne.
    { intros j th t Hj Hth Ht E. destruct (held_after S (Ev e x) h t Ha E) as [E'|Hfree].
      - by destruct Hj; apply (Hex j i th _ t Hth Hi Ht E').
      - by destruct (free_lookup S t j th Hfree Hth). }
    split; cbn [threads].
    + intros j th [[-> ->]|[[_ H]|[H _]%spawned_safe]]%threads_after; eauto.
    + intros j1 j2 th1 th2 t H1 H2 E1 E2.
      apply threads_after in H1 as [[-> ->]|[[N1 H1]|[_ H1]%spawned_safe]]; [| |congruence|done];
      (apply threads_after in H2 as [[-> ->]|[[N2 H2]|[_ H2]%spawned_safe]]; [| |congruence|done]); try done.
      * by destruct (Hne j2 th2 t N2 H2 E2).
      * by destruct (Hne j1 th1 t N1 H1 E1).
      * eauto.
Qed.

(** ** Lemmas on the store *)

(** What a thread knows of the task whose mutex it holds is so. *)
Definition truth (S : system) (h : list event) : Prop :=
  forall t, held h = Some t ->
    (forall s, loaded h = Some (t, Ok s) -> store S !! t = Some s)
    /\ (forall u, written h = Some u -> store S !! t = Some u)
    /\ (forall r, exit_code h = Some r -> codes S !! t = r).

Record store_ok (S : system) : Prop := {
  all_truth : forall i th, threads S !! i = Some th -> truth S (log th);
  agree : codes_agree S }.

(** What a step does to the files of a task. *)
Record stable (S S' : system) (t : TaskID) : Prop := {
  stable_store : forall s, store S !! t = Some s -> store S' !! t = Some s;
  stable_codes : codes S' !! t = codes S !! t }.

Lemma truth_stable S S' h : truth S h -> (forall t, held h = Some t -> stable S S' t) -> truth S' h.
Proof.
  intros HT HS t Ht. destruct (HT t Ht) as (Hl & Hw & Hc). destruct (HS t Ht) as [Hs Hcodes].
  split; [auto|]. split; [auto|]. intros r Hr. rewrite Hcodes. auto.
Qed.

(** The steps of a thread with the history [h]. *)
Section Step.
Context (S S' : system) (h : list event) (X : Type) (e : Eff X) (x : X).
Context (Hrule : rule (Ev e x) h) (Hans : answers S (Ev e x)).
Context (Hstore : store_after (Ev e x) (store S) (store S')) (Hcodes : codes_after (Ev e x) (codes S) (codes S')).
Context (Horderly : forall t, first_save h (Ev e x) = Some t -> store S !! t = None).
Context (HT : truth S h) (Hagree : codes_agree S).

(** A save by one who has read the task replaces what was read; any other finds none. *)
Lemma saved_over t u err :
  rule (Ev (Save t u) err) h -> (forall t', first_save h (Ev (Save t u) err) = Some t' -> store S !! t' = None) ->
  store S !! t = None \/ held h = Some t /\ exists s, store S !! t = Some s /\ legal s u.
Proof.
  intros [[[Hh Hl] _]|(Hh & _ & _)] Ho; cbn in Ho; rewrite Hh in Ho; [|by left; apply Ho].
  destruct (loaded h) as [[t' [s|err']]|] eqn:El; [|by left; apply Ho|done].
  destruct Hl as [-> Hlegal]. right. split; [done|]. exists s. split; [|done]. by apply (proj1 (HT t Hh)).
Qed.

Lemma step_later t s : store S !! t = Some s -> exists u, store S' !! t = Some u /\ later s u.
Proof.
  intros Hs. assert (store S' = store S -> exists u, store S' !! t = Some u /\ later s u) as Hsame.
  { intros ->. exists s. split; [done|by left]. }
  destruct e; cbn in Hstore; auto.
  - destruct (decide (t = t0)) as [->|Hne].
    + destruct (saved_over _ _ _ Hrule Horderly) as [?|(_ & s' & Hs' & Hlegal)]; [congruence|]. simplify_eq.
      assert (store S' = <[t0 := s0]> (store S) -> exists u, store S' !! t0 = Some u /\ later s u) as Hnew.
      { intros ->. exists s0. split; [by rewrite lookup_insert_eq|by right]. }
      destruct x; [destruct Hstore; auto|auto].
    + assert (store S' !! t = store S !! t) as ->; [|exists s; split; [done|by left]].
      destruct x; [destruct Hstore as [-> | ->]|rewrite Hstore]; by rewrite ?lookup_insert_ne.
  - destruct x as [[events|]|err]; auto. destruct Hstore as (u & _ & ->).
    assert (t <> t0) as Hne by (intros ->; cbn in Horderly; specialize (Horderly t0 eq_refl); congruence).
    rewrite lookup_insert_ne by done. exists s. split; [done|by left].
Qed.

(** The tasks of the others stay as they are. *)
Lemma step_stable t : held h <> Some t -> stable S S' t.
Proof.
  intros Hne. assert (store S' = store S -> codes S' = codes S -> stable S S' t) as Hsame by (intros E1 E2; split; by rewrite ?E1, ?E2).
  destruct e; cbn in Hstore, Hcodes; auto.
  - split; [|by rewrite Hcodes]. intros s1 Hs1. destruct (decide (t = t0)) as [->|Ht].
    + by destruct (saved_over _ _ _ Hrule Horderly) as [?|(? & _)]; [congruence|].
    + destruct x; [destruct Hstore as [-> | ->]|rewrite Hstore]; by rewrite ?lookup_insert_ne.
  - destruct x as [[events|]|err]; auto. destruct Hstore as (u & _ & E). split; [|by rewrite Hcodes].
    intros s1 Hs1. cbn in Horderly. specialize (Horderly t0 eq_refl).
    rewrite E, lookup_insert_ne; congruence.
  - split; [by rewrite Hstore|]. cbn in Hrule. destruct Hrule as [Ht _].
    destruct x; [destruct Hcodes as [-> | ->]|rewrite Hcodes]; rewrite ?lookup_insert_ne; congruence.
Qed.

(** The thread knows what it has done. *)
Lemma step_truth : truth S' (Ev e x :: h).
Proof.
  assert (store S' = store S -> codes S' = codes S -> truth S' h) as Hsame.
  { intros E1 E2. eapply truth_stable; [exact HT|]. intros t _. split; by rewrite ?E1, ?E2. }
  destruct e; cbn in Hstore, Hcodes; try exact (Hsame Hstore Hcodes); intros t' Ht; cbn in Ht.
  - done.
  - done.
  - destruct (HT t' Ht) as (Hl & Hw & Hc). rewrite Hstore, Hcodes. split; [|done]. intros s [= -> ->]. exact Hans.
  - destruct (HT t' Ht) as (_ & _ & Hc). rewrite Hcodes. split; [done|]. split; [|done].
    intros u Hu. cbn in Hu. destruct x; simplify_eq. rewrite Hstore.
    destruct Hrule as [[[Hh _] _]|(Hh & _)]; [|congruence]. simplify_eq. by rewrite lookup_insert_eq.
  - destruct x as [[events|]|err]; [|by apply Hsame..]. destruct Hstore as (u & _ & E).
    destruct (HT t' Ht) as (Hl & Hw & Hc). cbn in Horderly. specialize (Horderly t eq_refl).
    assert (forall s, store S !! t' = Some s -> store S' !! t' = Some s) as Hkeep.
    { intros s Hs. rewrite E, lookup_insert_ne; congruence. }
    cbn. rewrite Hcodes. split; [auto|]. split; auto.
  - destruct (HT t' Ht) as (Hl & Hw & Hc). rewrite Hstore, Hcodes. split; [done|]. split; [done|].
    intros r Hr. cbn in Hr. destruct x as [c|err]; [|auto]. simplify_eq.
    destruct Hrule as [?|?]; [congruence|]. by simplify_eq.
  - destruct (HT t' Ht) as (Hl & Hw & _). rewrite Hstore. split; [done|]. split; [done|].
    intros r Hr. cbn in Hr. destruct x; simplify_eq. rewrite Hcodes. destruct Hrule as [Hh _]. simplify_eq. by rewrite lookup_insert_eq.
Qed.

Lemma step_agree : codes_agree S'.
Proof.
  assert (store S' = store S -> codes S' = codes S -> codes_agree S') as Hsame.
  { intros E1 E2 t u. rewrite E1, E2. apply Hagree. }
  destruct e; cbn in Hstore, Hcodes; auto; intros t' u' Hu' Hex.
  - rewrite Hcodes. destruct (decide (t' = t)) as [->|Hne].
    + assert (store S' !! t = Some s \/ store S' !! t = store S !! t) as [E|E].
      { destruct x; [destruct Hstore as [-> | ->]|rewrite Hstore]; rewrite ?lookup_insert_eq; auto. }
      * rewrite E in Hu'. simplify_eq. destruct Hrule as [[[Hh _] Hexit]|(_ & _ & Hst)]; [|by rewrite Hst in Hex].
        destruct (Hexit Hex) as (c & Hc & Hcode). exists c. split; [done|]. by apply (HT t Hh).
      * rewrite E in Hu'. by apply (Hagree t u').
    + apply (Hagree t' u'); [|done]. destruct x; [destruct Hstore as [E|E]|rename Hstore into E]; rewrite E in Hu';
        by rewrite ?lookup_insert_ne in Hu'.
  - rewrite Hcodes. destruct x as [[events|]|err]; [|rewrite Hstore in Hu'; by apply (Hagree t' u')..].
    destruct Hstore as (u & Hst & E). rewrite E in Hu'. destruct (decide (t' = t)) as [->|Hne].
    + rewrite lookup_insert_eq in Hu'. simplify_eq. by rewrite Hst in Hex.
    + rewrite lookup_insert_ne in Hu' by done. by apply (Hagree t' u').
  - rewrite Hstore in Hu'. destruct (Hagree t' u' Hu' Hex) as (c' & Hc' & Hcode). exists c'. split; [done|].
    destruct (decide (t' = t)) as [->|Hne].
    + exfalso. destruct Hrule as [Hh [Hmiss|(u & Hw & Hlin)]]; destruct (HT t Hh) as (_ & Hwr & Hco).
      * specialize (Hco _ Hmiss). congruence.
      * specialize (Hwr _ Hw). simplify_eq. by destruct (State u').
    + destruct x; [destruct Hcodes as [-> | ->]|rewrite Hcodes]; by rewrite ?lookup_insert_ne.
Qed.
End Step.

Lemma later_refl s : later s s.
Proof. by left. Qed.
Lemma later_trans s u v : later s u -> later u v -> later s v.
Proof.
  intros [->|[Ht Hp]] Huv; [done|]. destruct Huv as [->|[_ Hp']]; [by right|]. right. split; [done|lia].
Qed.

(** What a step of the system depends on, of the thread that makes it. *)
Lemma orderly_inv f S S' :
  orderly_step f S S' -> threads_ok S -> store_ok S ->
  store_ok S' /\ forall t s, store S !! t = Some s -> exists u, store S' !! t = Some u /\ later s u.
Proof.
  intros (l & Hstep & Hord) [Hsafe Hex] [Htruth Hagree]. destruct Hstep as [y|i h X e k x store' codes' Hi Ha Hst Hco].
  - split; [|intros t s Hs; exists s; split; [done|apply later_refl]]. split; [|done]. cbn [threads].
    intros i th [Hi|[_ ->%list_elem_of_lookup_2%list_elem_of_singleton]]%lookup_app_Some; [by apply (Htruth i)|done].
  - set (S' := mkSystem store' codes' _). destruct (safe_call h X e k x (Hsafe _ _ Hi)) as [_ Hrule].
    pose proof (Htruth _ _ Hi) as HT. cbn [log] in HT.
    assert (forall t, first_save h (Ev e x) = Some t -> store S !! t = None) as Hord' by (intros t; apply (Hord _ t Hi)).
    split; [split|].
    + cbn [threads S']. intros j th [[-> ->]|[[Hj Hth]|[_ Hth]%spawned_safe]]%threads_after; [| | |by eapply lookup_lt_Some].
      * by apply (step_truth S S' h X e x).
      * eapply truth_stable; [by apply (Htruth j)|]. intros t Ht. apply (step_stable S S' h X e x); try done.
        intros E. by destruct Hj; apply (Hex j i th _ t Hth Hi Ht E).
      * intros t Ht. congruence.
    + by apply (step_agree S S' h X e x).
    + by apply (step_later S S' h X e x).
Qed.

Lemma initial_ok S : initial S -> threads_ok S /\ store_ok S.
Proof.
  intros [E Hagree]. assert (forall i, threads S !! i = None) as Hno by (intros i; by rewrite E).
  split; split; try done; intros *; by rewrite Hno.
Qed.

Lemma orderly_run f S S' :
  rtc (orderly_step f) S S' -> threads_ok S -> store_ok S ->
  threads_ok S' /\ store_ok S' /\ forall t s, store S !! t = Some s -> exists u, store S' !! t = Some u /\ later s u.
Proof.
  induction 1 as [S|S S1 S' Hstep _ IH]; intros HT HS; [split; [done|]; split; [done|]; eauto using later_refl|].
  destruct (orderly_inv f S S1 Hstep HT HS) as [HS1 Hl1]. pose proof Hstep as (l & Hl & _).
  destruct (IH (threads_ok_step _ _ _ _ Hl HT) HS1) as (HT' & HS' & Hl'). split; [done|]. split; [done|].
  intros t s (u & Hu & Hsu)%Hl1. destruct (Hl' t u Hu) as (v & Hv & Huv). exists v. split; [done|]. by eapply later_trans.
Qed.

Lemma system_reachable_ok f S : reachable f S -> threads_ok S /\ store_ok S.
Proof.
  intros (S0 & Hinit & Hrun). destruct (initial_ok S0 Hinit). by destruct (orderly_run f S0 S Hrun) as (? & ? & _).
Qed.

Lemma any_run f S S' : rtc (any_step f) S S' -> threads_ok S -> threads_ok S'.
Proof. induction 1 as [S|S S1 S' [l Hl] _ IH]; [done|]. intros H. by apply IH, (threads_ok_step f S l). Qed.

(** Every call but the acquisition of a mutex can be answered at once. *)
Lemma can_step f S i h X (e : Eff X) k :
  threads S !! i = Some (mkThread h (Vis e k)) -> (forall t x, Ev e x = Ev (Lock t) tt -> free S t) ->
  exists x S', step f S (Call i (Ev e x)) S'.
Proof.
  intros Hi Hfree.
  assert (exists x, answers S (Ev e x)) as [x Ha].
  { destruct (eff_inhabited X e) as [x0]. destruct e; try (by exists x0).
    - exists tt. by apply (Hfree t tt).
    - destruct (store S !! t) as [s|] eqn:E; [by exists (Ok s)|exists (Err (DErr ErrTaskNotFound)); by intros _].
    - by exists (Ok (codes S !! t)). }
  assert (exists after, store_after (Ev e x) (store S) after) as [store' Hst].
  { destruct e; try (by exists (store S)).
    - destruct x; [exists (store S); by right|by eexists].
    - destruct x as [[events|]|err]; try (by exists (store S)). by eexists _, (emptyTaskSnapshot <| State := StateCancelling |>). }
  assert (exists after, codes_after (Ev e x) (codes S) after) as [codes' Hco].
  { destruct e; try (by exists (codes S)). destruct x; [exists (codes S); by right|by eexists]. }
  by eexists x, _; econstructor.
Qed.

(** ** An example: a running task is finalised *)

Definition example_config : config := mkConfig (mkRecoverer "/usr/bin/codex" "/state") 10.
Definition example_task : TaskID := TaskID_ example_snapshot.
Definition example_completed : TaskSnapshot :=
  match Task_RecordExit (NewExitCode 0) true false false 20 example_restored with
  | (task, Ok _) => match WithTask example_snapshot task 20 with Ok u => u | Err _ => example_snapshot end
  | _ => example_snapshot
  end.
Definition example_before : system := mkSystem {[ example_task := example_snapshot ]} ∅ [].
Definition example_events : list event :=
  [Ev (Save example_task example_completed) None; Ev (WriteExitCode example_task (NewExitCode 0)) None;
   Ev (ReadExitCode example_task) (Ok None); Ev (Load example_task) (Ok example_snapshot); Ev (Lock example_task) tt;
   Ev (ReadLastMessage example_task) (Ok true)].
Definition example_finalize : FinalizeTaskInput := mkFinalizeInput example_task 0 false false 20.

(** A step, as a chain of steps continues. *)
Lemma call_then f S S' i h X (e : Eff X) k x store' codes' :
  threads S !! i = Some (mkThread h (Vis e k)) -> answers S (Ev e x) ->
  store_after (Ev e x) (store S) store' -> codes_after (Ev e x) (codes S) codes' ->
  match first_save h (Ev e x) with Some t => store S !! t = None | None => True end ->
  rtc (orderly_step f) (mkSystem store' codes' (<[i := mkThread (Ev e x :: h) (k x)]> (threads S) ++ spawned f (Ev e x))) S' ->
  rtc (orderly_step f) S S'.
Proof.
  intros Hi Ha Hs Hc Hf Hrest. eapply rtc_l; [|exact Hrest]. exists (Call i (Ev e x)). split; [by econstructor|].
  intros th t Hi' Ht. rewrite Hi in Hi'. simplify_eq. cbn [log] in Ht. by rewrite Ht in Hf.
Qed.

Ltac next_call i x store' codes' :=
  eapply (call_then _ _ _ i _ _ _ _ x store' codes');
    [reflexivity|first [done | by apply list.Forall_singleton]|first [done | by rewrite insert_singleton_eq]
    |first [done | by rewrite insert_singleton_eq]|done|].

Lemma example_run :
  exists p, rtc (orderly_step example_config) example_before
    (mkSystem {[ example_task := example_completed ]} {[ example_task := 0 ]} [mkThread example_events p]).
Proof.
  set (s0 := {[ example_task := example_snapshot ]} : gmap TaskID TaskSnapshot).
  set (s1 := {[ example_task := example_completed ]} : gmap TaskID TaskSnapshot).
  set (c0 := ∅ : gmap TaskID Z). set (c1 := {[ example_task := 0 ]} : gmap TaskID Z).
  eexists. eapply rtc_l; [exists (Begin (HFinalize example_finalize)); split; [constructor|done]|].
  next_call 0%nat (Ok (E := error) true) s0 c0. next_call 0%nat tt s0 c0. next_call 0%nat (Ok (E := error) example_snapshot) s0 c0.
  next_call 0%nat (Ok (E := error) (@None Z)) s0 c0. next_call 0%nat (@None error) s0 c1. next_call 0%nat (@None error) s1 c1.
  apply rtc_refl.
Qed.

(** Two finalisations of the same task: the second waits for the first. *)
Lemma example_contention :
  exists p k, rtc (orderly_step example_config) example_before
    (mkSystem {[ example_task := example_snapshot ]} ∅
       [mkThread [Ev (Lock example_task) tt; Ev (ReadLastMessage example_task) (Ok true)] p;
        mkThread [Ev (ReadLastMessage example_task) (Ok true)] (Vis (Lock example_task) k)]).
Proof.
  set (s0 := {[ example_task := example_snapshot ]} : gmap TaskID TaskSnapshot). set (c0 := ∅ : gmap TaskID Z).
  eexists _, _. do 2 (eapply rtc_l; [exists (Begin (HFinalize example_finalize)); split; [constructor|done]|]).
  next_call 0%nat (Ok (E := error) true) s0 c0.
  eapply (call_then _ _ _ 0 _ _ _ _ tt s0 c0); [reflexivity|by repeat constructor|done..|].
  next_call 1%nat (Ok (E := error) true) s0 c0. apply rtc_refl.
Qed.

Lemma example_initial : initial example_before.
Proof.
  split; [done|]. intros t u Hu. cbn in Hu. apply lookup_singleton_Some in Hu as [_ <-]. done.
Qed.

Lemma example_reachable_before : reachable example_config example_before.
Proof. exists example_before. split; [exact example_initial|apply rtc_refl]. Qed.

Lemma example_system_reachable :
  exists p, reachable example_config
    (mkSystem {[ example_task := example_completed ]} {[ example_task := 0 ]} [mkThread example_events p]).
Proof. destruct example_run as [p Hp]. exists p, example_before. split; [exact example_initial|exact Hp]. Qed.

(** ** Theorems *)



(** C12. The exit-code file is published first.  In every reachable state of the daemon,
    a task that is recorded as completed, failed or killed has an exit code, and its
    exit-code file holds exactly this code, whichever handler ended the task and
    whatever writes have failed on the way. *)
Theorem recorded_exit_codes_agree (f : config) (S : system) (t : TaskID) (u : TaskSnapshot) :
  reachable f S -> store S !! t = Some u -> exited (State u) = true ->
  exists c, ExitCode_ u = Some c /\ codes S !! t = Some (ec_raw c).
Proof. intros [_ HS]%system_reachable_ok Hu Hex. by apply (agree S HS t u). Qed.

Lemma recorded_exit_codes_agree_witness :
  exists p c, ExitCode_ example_completed = Some c
    /\ codes (mkSystem {[ example_task := example_completed ]} {[ example_task := 0 ]} [mkThread example_events p])
         !! example_task = Some (ec_raw c).
Proof.
  destruct example_system_reachable as [p Hp]. exists p.
  exact (recorded_exit_codes_agree example_config _ example_task example_completed Hp eq_refl eq_refl).
Defined.

(** C13. The mutexes of the tasks never deadlock.  Whatever has happened, even where
    first saves collide, a thread that is not finished can make its next call, or waits
    for the mutex of a task whose holder can make its own: waiting never forms a
    chain, and a finished thread holds nothing. *)
Theorem mutexes_never_deadlock (f : config) (S0 S : system) (i : nat) (h : list event) (X : Type) (e : Eff X) (k : X -> M unit) :
  threads S0 = [] -> rtc (any_step f) S0 S -> threads S !! i = Some (mkThread h (Vis e k)) ->
  (exists x S', step f S (Call i (Ev e x)) S')
  \/ exists t x j h' Y (e' : Eff Y) k', Ev e x = Ev (Lock t) tt
       /\ threads S !! j = Some (mkThread h' (Vis e' k')) /\ held h' = Some t
       /\ exists y S', step f S (Call j (Ev e' y)) S'.
Proof.
  intros E Hrun Hi. assert (threads_ok S0) as H0 by (split; intros *; rewrite E; done).
  destruct (any_run f S0 S Hrun H0) as [Hsafe Hex]. clear H0 E Hrun.
  assert ((forall t x, Ev e x = Ev (Lock t) tt -> free S t) \/ exists t x, Ev e x = Ev (Lock t) tt /\ ~ free S t) as [Hfree|(t & x & Ee & Hbusy)].
  { destruct e; try (left; by intros). destruct (decide (free S t)) as [Hf|Hf]; [left|right; by exists t, tt].
    intros t' x Et. by simplify_eq. }
  - left. by eapply can_step.
  - right. apply list.not_Forall_Exists in Hbusy; [|apply _]. apply list.Exists_exists in Hbusy as (th & [j Hj]%list_elem_of_lookup_1 & Hh).
    cbn in Hh. apply dec_stable in Hh. pose proof (Hsafe j th Hj) as Hth. destruct th as [h' [[]|Y e' k']].
    { destruct Hth as (_ & Hn & _). cbn in Hn, Hh. congruence. }
    exists t, x, j, h', Y, e', k'. repeat split; try done. eapply can_step; [done|].
    intros t' y Ee'. destruct (eff_inhabited Y e') as [y']. pose proof (safe_call h' Y e' k' y' Hth) as [_ Hr].
    cbn in Hh. destruct e'; try done. cbn in Hr. congruence.
Qed.

Lemma mutexes_never_deadlock_witness :
  exists p k,
  let S := mkSystem {[ example_task := example_snapshot ]} ∅
       [mkThread [Ev (Lock example_task) tt; Ev (ReadLastMessage example_task) (Ok true)] p;
        mkThread [Ev (ReadLastMessage example_task) (Ok true)] (Vis (Lock example_task) k)] in
  (exists x S', step example_config S (Call 1 (Ev (Lock example_task) x)) S')
  \/ exists t x j h' Y (e' : Eff Y) k', Ev (Lock example_task) x = Ev (Lock t) tt
       /\ threads S !! j = Some (mkThread h' (Vis e' k')) /\ held h' = Some t
       /\ exists y S', step example_config S (Call j (Ev e' y)) S'.
Proof.
  destruct example_contention as (p & k & Hrun). exists p, k.
  eapply (mutexes_never_deadlock example_config example_before _ 1); [done| |done].
  refine (rtc_subrel _ _ _ _ _ Hrun). intros S S' (l & Hl & _). by exists l.
Defined.
